(* ===== verification/_CoqProject ===== *)
-Q . S2P
Prelude.v
Queue.v
WorkerPool.v
WorkQueue.v
ThreadPool.v
RingBuffer.v
MemoryPool.v
Registry.v
Crypto.v
Protocol.v
Float64.v
RateLimit.v
Replay.v
Handlers.v
Dependencies.v
Health.v
Shutdown.v
EventBus.v
HalRegistry.v
Verify.v
Persistence.v
RollingRestart.v
RecentLog.v
Histories.v
Alerts.v
Metrics.v
ConnPool.v
Capabilities.v
DaemonSecurity.v
Seccomp.v
CText.v
Management.v
MonServer.v
Logs.v
Plugins.v
Discovery.v
Resources.v
Watchdog.v
Collectors.v
ProcessCollectors.v
HalDevice.v
GpioHal.v
SensorHal.v
CameraHal.v
AudioHal.v
IoLoop.v
IoHeap.v
Sandbox.v
SecurityManager.v
ServiceIpc.v
ServiceBase.v
ServiceConfig.v
ServiceLoop.v
ServiceMain.v
GpioService.v
AudioService.v
CameraService.v
SensorService.v
DaemonConfig.v
Daemon.v
CallbackQueue.v
ProxyConn.v
ServiceProxy.v
ShmReader.v
SystemMonitor.v
