(* ===== verification/Prelude.v ===== *)
(** * A verification library for the Shinigami middleware

    The repository is a service-management middleware, mostly in C: services register
    with a daemon over a Unix socket, drive hardware through drivers behind one
    interface, confine themselves, and are watched, restarted and stopped by the
    daemon; clients reach them through proxies, and a monitoring daemon collects what
    happens.  This library models its logic and proves what makes it correct; where
    the code does not do what it means to do, the theorem says what it does.

    ** Parts and files (sources under src/dev/)

    Shared:
    - Prelude (this file): machine integers as wrapped [Z], C strings, [memcpy]
      as [splice], circular index arithmetic, bounded searches, reachability of
      a step relation, tactics and hint databases.
    - Float64 (IEEE binary64 and binary32 over SpecFloat), CText (lines, trimming,
      numbers as the C library reads them).
    - Interfaces: Queue (class [BoundedQueue]), WorkerPool (class [TaskQueue] on top
      of it, with the protocol of producer and workers as a step relation), RecentLog
      (class of the circular logs), HalDevice (the driver interface).

    The core:
    - RingBuffer (core/ring_buffer.c): the lock-free byte ring.  [ring_buffer_*]
      are the calls; [spsc_step] interleaves producer and consumer, one atomic
      access or copied byte at a time.  An instance of [BoundedQueue].
    - MemoryPool (core/memory_pool.c): the slab allocator with its bitmap bytes,
      hint, statistics and data bytes.
    - IoLoop, IoHeap (core/io_uring_loop.c): the event loop of the services over an
      io_uring, and who owns which object of its heap.

    The service manager (core/service_manager/):
    - Registry (infrastructure/sm_registry.c): the array of services with its hash
      chains, and the association-list specification it refines.  Persistence
      (lifecycle/sm_persistence.c): its file.
    - Crypto, Protocol, RateLimit, Replay (security/sm_crypto.c,
      infrastructure/sm_protocol.c, security/sm_rate_limit.c,
      sm_advanced_ratelimit.c, sm_replay.c): SHA-256 and HMAC against FIPS 180-4 and
      RFC 2104, validation, token buckets, the ring of recent nonces.
    - Handlers (infrastructure/sm_handlers.c, sm_request_id.c, and the client side of
      lifecycle/sm_main.c): the whole request path, from the bytes a client writes to
      the registry entry that changes.
    - WorkQueue (the [wq_*] queue and workers of lifecycle/sm_main.c) and ThreadPool
      (enterprise/sm_threadpool.c): two instances of [TaskQueue].
    - Dependencies, Health, Shutdown, RollingRestart
      (lifecycle/sm_dependencies.c, observability/sm_health.c,
      lifecycle/sm_graceful_shutdown.c, enterprise/sm_rolling_restart.c): start-up
      order, the periodic pass, stopping and restarting services.
    - EventBus, Plugins, Discovery, Resources, Watchdog (enterprise/sm_eventbus.c,
      sm_plugin.c, sm_discovery.c, sm_monitoring.c, sm_watchdog.c).
    - Metrics, Logs (observability/sm_metrics.c, sm_logging.c, sm_audit.c,
      sm_structured_log.c), ConnPool (infrastructure/sm_connection_pool.c),
      Management (lifecycle/sm_management.c), DaemonSecurity (security/sm_security.c).
    - DaemonConfig, Daemon (lifecycle/sm_config.c, sm_main.c,
      enterprise/sm_main_integration.c): the configuration and [sm_run] itself.

    Security of processes (security/): Verify (verify/), Capabilities (capabilities/),
    Seccomp (seccomp/), Sandbox (sandbox/), SecurityManager (core/).

    Hardware (hal/): HalRegistry (interface/hal_interface.c, the devices by name), and
    the four drivers GpioHal, SensorHal, CameraHal, AudioHal (layers/).

    Services (services/): ServiceIpc, ServiceBase, ServiceConfig (common/), ServiceLoop
    and ServiceMain (the event loop and the life that the four services share, over a
    class of what differs), GpioService, AudioService, CameraService, SensorService.

    Monitor (monitoring/): Histories (metrics, tracing, health history), Alerts (alerts/,
    health score), Collectors and ProcessCollectors (collectors/), MonServer (protocol/,
    daemon/monitord_server.c), SystemMonitor (the stand-alone middleware_monitor.c).

    Client proxies (proxy/, in C++): CallbackQueue, ProxyConn, ServiceProxy, ShmReader.

    A definition has the name of the function or type it models; the comment before it
    has file, lines and symbol.

    ** Interaction

    Handlers calls Protocol, Crypto, RateLimit and Registry (not Replay, which nothing calls), and
    is itself the peer of ServiceIpc, so that a service's call is followed to the registry.
    Health and Shutdown work on Registry, Shutdown also on Dependencies; Management on
    Crypto, Registry and Metrics.  Daemon puts DaemonConfig, Registry, Persistence and
    WorkQueue together.  ServiceMain puts together ServiceBase, ServiceConfig, ServiceIpc,
    SecurityManager (itself over Verify, Sandbox, Capabilities and Seccomp), a
    driver, IoLoop and ServiceLoop; the four services are its instances, and each proves the
    laws [ServiceLaws] that the theorem about the end of a service rests on.  ProxyConn is
    over MemoryPool and Verify; ServiceProxy posts to CallbackQueue.

    ** What the theorems show

    - refinement: the registry implements a list with linear search, the table of
      devices a map, the ring's atomic steps its calls, streaming SHA-256 and HMAC the
      standards, requests through the wire the registry's calls, the monitor's
      server a stream of frames per client;
    - invariants and safety: FIFO of the rings under every interleaving, disjoint
      pool blocks, every object of the event loop freed once and never used
      afterwards, every pooled connection with one owner, metrics that lose nothing;
      who may change or remove a registration, paths confined to three directories,
      replayed tokens refused; hardware touched only after confinement; privileges
      given up for good; filters that allow what the profile lists and nothing else; every
      device's descriptors and mappings given back;
    - liveness and termination: worker threads lose no wake-up and drain the queue at
      shutdown; a collector reconnects after three failed ticks; a rolling restart ends;
    - round trips: registry and its file, audit records, sensor scans, framed
      messages in whatever portions they arrive;
    - behaviour on every branch and bounds: validation, rate limits, health
      passes, cycle search, start-up order, event history, the start of the daemon and its
      failures, the buffers of the replies.

    Behaviour that differs from the documentation, or from what the code means to do, is
    in the comments of, among others: [MemoryPool.create_size_overflow],
    [Handlers.five_requests_per_burst], [Handlers.lookup_end_to_end],
    [Handlers.heartbeat_replayed], [Dependencies.startup_order_exact],
    [Health.hung_service_never_dead], [EventBus.history_exact],
    [Seccomp.seccomp_filter_exact], [ServiceLoop.service_never_stops],
    [Daemon.hup_forgets_config], [MonServer.server_delivers], [SensorHal.other_types_misread],
    [AudioHal.s24_overruns], [SystemMonitor.monitor_never_alerts], [CallbackQueue.overflow_wedges],
    [ServiceProxy.reconnected_is_deaf], [ServiceProxy.discovery_never_succeeds].

    ** Conventions and bounds

    An address is a [Z], 0 is NULL; a structure is a record and a static variable
    the state that operations take and return.  A call made under a mutex is one
    step.  What the operating system answers (clocks, allocation, [kill], random
    bytes, file contents) is an argument; where a client relies on more of it than
    an answer (credentials, libseccomp, liburing, system calls of the sandbox, files of
    the drivers) it is a class with its operations, the laws are a second class, and
    a concrete instance witnesses them.  C11 acquire/release accesses are modelled as
    interleaved atomic steps.  Structures in memory are little-endian without padding on
    the wire.  Messages to a log are left out, except in Logs.

    Fuel: hash chains are walked with 33 units, one more than there are nodes; the
    table of devices is scanned over its 128 slots; the bitmap scan and the history walk
    recurse on the number of places; the cycle search recurses on the levels left below
    the code's own limit of 10; delivery recurses on the 4096 rows of the subscriber
    table; a thread of Metrics runs with 16 steps, which is more than its accesses; a
    rolling restart of n services needs at most 2n+1 rounds; a decimal number has at most
    20 digits; a BPF program runs with its own length; the wait for a plugin's child ends when
    its clock reaches the deadline; draining a ring takes as many steps as it has places.
    Readers of text, of answers of the kernel and of the bytes of a stream recurse on what is
    left of them.  None of these runs out: the functional theorems include it.  The loops
    that serve for ever (IoLoop, ServiceLoop, Daemon) take their events as a list, and the
    theorems hold for every list.

    ** Not modelled

    - the terminal interface (monitoring/tui/, the drawing in middleware_monitor.c), the command
      line (enterprise/sm_cli.c, main/): output of what the modelled parts know, and parsing of
      a terminal's input;
    - TLS (enterprise/sm_tls.c): calls of OpenSSL with no state of their own; containers
      (enterprise/sm_container.c): a table that nothing fills;
    - the daemon's socket set-up (infrastructure/sm_socket.c), the HTTP export of metrics
      (monitoring/metrics/metrics_export_prometheus.c, monitoring/daemon/monitord_http.c) and the
      monitoring daemon's main function and state: input and output around modelled parts;
    - the collector of system figures and the audit of capabilities: figures read from /proc
      and printed;
    - the four concrete proxies, their C binding and their event loop: commands over
      [ServiceProxy], each a request with its payload. *)

From Stdlib Require Export ZArith Lia String Ascii.
From stdpp Require Export base tactics list strings gmap numbers relations.

#[global] Open Scope Z_scope.

(** ** Notations *)

Declare Scope c_scope.
Delimit Scope c_scope with C.

(** ** Machine integers

    An unsigned [w]-bit integer of the program is a [Z] in [0, 2^w); every
    operation that may leave the range is wrapped where the C code wraps. *)

Definition wrap (w z : Z) : Z := z mod 2 ^ w.
Abbreviation u8 := (wrap 8).
Abbreviation u16 := (wrap 16).
Abbreviation u32 := (wrap 32).
Abbreviation u64 := (wrap 64).

(** Conversion to a two's complement [int32_t] (gcc's definition of the
    implementation-defined conversion). *)
Definition i32 (z : Z) : Z := (z + 2 ^ 31) mod 2 ^ 32 - 2 ^ 31.

(** C's [a % b] and [a / b] on signed operands truncate towards zero. *)
Abbreviation c_rem := Z.rem.
Abbreviation c_quot := Z.quot.

Lemma wrap_range w z : 0 <= w -> 0 <= wrap w z < 2 ^ w.
Proof. intros. apply Z.mod_pos_bound. lia. Qed.

Lemma wrap_small w z : 0 <= z < 2 ^ w -> wrap w z = z.
Proof. intros. by apply Z.mod_small. Qed.

Lemma wrap_wrap w z : 0 <= w -> wrap w (wrap w z) = wrap w z.
Proof. intros. apply wrap_small, wrap_range. done. Qed.

Lemma wrap_add w x y : wrap w (wrap w x + y) = wrap w (x + y).
Proof. apply Zplus_mod_idemp_l. Qed.

Lemma i32_small z : - 2 ^ 31 <= z < 2 ^ 31 -> i32 z = z.
Proof. intros. unfold i32. rewrite Z.mod_small; lia. Qed.

(** ** Little-endian memory images *)

(** The low [n] bytes of [v] as they lie in memory. *)
Definition le_bytes (n : nat) (v : Z) : list Z :=
  (fun i => u8 (Z.shiftr v (8 * Z.of_nat i))) <$> seq 0 n.

(** The unsigned number that bytes in memory stand for. *)
Fixpoint le_val (bs : list Z) : Z :=
  match bs with [] => 0 | b :: bs' => b + 256 * le_val bs' end.

(** A list of byte values. *)
Definition bytes (l : list Z) : Prop := Forall (fun x => 0 <= x < 256) l.

Lemma le_val_range l : bytes l -> 0 <= le_val l < 2 ^ (8 * Z.of_nat (length l)).
Proof.
  induction 1 as [|b l Hb _ IH]; [done|]. cbn [le_val length].
  replace (8 * Z.of_nat (S (length l))) with (8 + 8 * Z.of_nat (length l)) by lia.
  rewrite Z.pow_add_r by lia. lia.
Qed.

Lemma length_le_bytes n v : length (le_bytes n v) = n.
Proof. unfold le_bytes. by rewrite length_fmap, length_seq. Qed.

Lemma le_bytes_S n v : le_bytes (S n) v = u8 v :: le_bytes n (Z.shiftr v 8).
Proof.
  unfold le_bytes. simpl. f_equal. rewrite <- seq_shift, <- list_fmap_compose.
  apply list_fmap_ext. intros i x _. simpl. rewrite Z.shiftr_shiftr by lia. do 2 f_equal. lia.
Qed.

Lemma le_val_le_bytes n v : le_val (le_bytes n v) = v mod 2 ^ (8 * Z.of_nat n).
Proof.
  revert v. induction n as [|n IH]; intros v; [by rewrite Z.mod_1_r|].
  rewrite le_bytes_S. cbn [le_val]. rewrite IH, Z.shiftr_div_pow2 by lia. unfold wrap.
  replace (8 * Z.of_nat (S n)) with (8 + 8 * Z.of_nat n) by lia.
  rewrite Z.pow_add_r by lia. change 256 with (2 ^ 8).
  rewrite Z.rem_mul_r by lia. lia.
Qed.

Lemma le_bytes_inj n v w : 0 <= v < 2 ^ (8 * Z.of_nat n) -> 0 <= w < 2 ^ (8 * Z.of_nat n) ->
  le_bytes n v = le_bytes n w -> v = w.
Proof.
  intros Hv Hw H. apply (f_equal le_val) in H. rewrite !le_val_le_bytes in H.
  by rewrite !Z.mod_small in H.
Qed.

(** A two's complement [int32_t] read back from memory. *)
Lemma i32_le_bytes v : - 2 ^ 31 <= v < 2 ^ 31 -> i32 (le_val (le_bytes 4 v)) = v.
Proof.
  intros. rewrite le_val_le_bytes. change (2 ^ (8 * Z.of_nat 4)) with (2 ^ 32). unfold i32.
  rewrite Z.add_mod_idemp_l by lia. rewrite Z.mod_small; lia.
Qed.

(** ** Tactics *)

(** Case split on every decidable test of the goal, keeping the facts. *)
Ltac split_tests :=
  repeat (case_decide || case_bool_decide || case_match); try done.

(** Turn boolean comparisons in the context into propositions. *)
Ltac bool_to_prop :=
  repeat match goal with
  | H : (_ && _)%bool = true |- _ => apply andb_true_iff in H; destruct H
  | H : (_ || _)%bool = false |- _ => apply orb_false_iff in H; destruct H
  | H : negb _ = true |- _ => apply negb_true_iff in H
  | H : negb _ = false |- _ => apply negb_false_iff in H
  | H : (_ =? _) = true |- _ => apply Z.eqb_eq in H
  | H : (_ =? _) = false |- _ => apply Z.eqb_neq in H
  | H : (_ <? _) = true |- _ => apply Z.ltb_lt in H
  | H : (_ <? _) = false |- _ => apply Z.ltb_ge in H
  | H : (_ <=? _) = true |- _ => apply Z.leb_le in H
  | H : (_ <=? _) = false |- _ => apply Z.leb_gt in H
  | H : (_ >? _) = _ |- _ => rewrite Z.gtb_ltb in H
  | H : (_ >=? _) = _ |- _ => rewrite Z.geb_leb in H
  | H : (_ =? _)%string = true |- _ => apply String.eqb_eq in H
  | H : (_ =? _)%string = false |- _ => apply String.eqb_neq in H
  end.

(** Reason by cases on an integer comparison that a definition tests. *)
Ltac zcases :=
  repeat match goal with
  | |- context [?a =? ?b] => destruct (Z.eqb_spec a b)
  | |- context [?a <? ?b] => destruct (Z.ltb_spec a b)
  | |- context [?a <=? ?b] => destruct (Z.leb_spec a b)
  end.

(** Destruct a state record so that its fields reduce. *)
Ltac record_cases :=
  repeat match goal with
  | H : ?a = ?b |- _ => (is_var a; is_var b; subst)
  end; simplify_eq/=.

(** ** Lists: last write wins, bounded splice *)

Section splice.
Context {A : Type}.
Implicit Types (l src : list A) (i j off sz : nat).

(** [memcpy(l + off, src, length src)]: the bytes of [src] replace those of
    [l] from offset [off] on. *)
Definition splice off src l : list A :=
  take off l ++ src ++ drop (off + length src) l.

(** The [i]-th slot of a buffer of [sz]-byte slots. *)
Definition slot sz i l : list A := take sz (drop (i * sz) l).

Lemma length_splice off src l :
  (off + length src <= length l)%nat -> length (splice off src l) = length l.
Proof.
  intros. unfold splice. rewrite !length_app, length_take, length_drop. lia.
Qed.

Lemma lookup_splice off src l k :
  (off + length src <= length l)%nat ->
  splice off src l !! k =
  if decide (off <= k < off + length src)%nat then src !! (k - off)%nat else l !! k.
Proof.
  intros Hl. unfold splice. case_decide as Hk.
  - rewrite lookup_app_r by (rewrite length_take; lia).
    rewrite length_take, lookup_app_l by lia. f_equal. lia.
  - destruct (decide (k < off)%nat).
    + rewrite lookup_app_l by (rewrite length_take; lia).
      by rewrite lookup_take_lt by lia.
    + rewrite lookup_app_r by (rewrite length_take; lia).
      rewrite length_take, lookup_app_r by lia.
      rewrite lookup_drop. f_equal. lia.
Qed.

Lemma lookup_slot sz i l k :
  slot sz i l !! k = if decide (k < sz)%nat then l !! (i * sz + k)%nat else None.
Proof.
  unfold slot. case_decide.
  - rewrite lookup_take_lt by lia. by rewrite lookup_drop.
  - by rewrite lookup_take_ge by lia.
Qed.

Lemma length_slot sz i l : ((i + 1) * sz <= length l)%nat -> length (slot sz i l) = sz.
Proof. intros. unfold slot. rewrite length_take, length_drop. lia. Qed.

Lemma slot_splice_eq sz i src l :
  length src = sz -> ((i + 1) * sz <= length l)%nat ->
  slot sz i (splice (i * sz) src l) = src.
Proof.
  intros Hs Hl. apply list_eq. intros k.
  rewrite lookup_slot. case_decide.
  - rewrite lookup_splice by lia. rewrite decide_True by lia. f_equal. lia.
  - symmetry. apply lookup_ge_None. lia.
Qed.

(** Writing inside slot [i] leaves every other slot as it was. *)
Lemma slot_splice_ne sz i j off src l :
  i <> j -> (i * sz <= off)%nat -> (off + length src <= (i + 1) * sz)%nat ->
  ((i + 1) * sz <= length l)%nat ->
  slot sz j (splice off src l) = slot sz j l.
Proof.
  intros Hij H1 H2 Hl. apply list_eq. intros k.
  rewrite !lookup_slot. case_decide; [|done].
  rewrite lookup_splice by lia. rewrite decide_False; [done|].
  destruct (Nat.lt_ge_cases i j); nia.
Qed.
End splice.

Lemma NoDup_insert_fresh {A} (l : list A) i x : NoDup l -> x ∉ l -> NoDup (<[i := x]> l).
Proof.
  intros Hl Hx. destruct (Nat.lt_ge_cases i (length l)) as [Hi|Hi].
  2:{ by rewrite list_insert_ge. }
  apply NoDup_alt. intros j k y Hj Hk.
  destruct (decide (j = i)) as [->|Hji], (decide (k = i)) as [->|Hki]; try done.
  - rewrite list_lookup_insert_eq in Hj by done. simplify_eq.
    rewrite list_lookup_insert_ne in Hk by done. exfalso. eauto using list_elem_of_lookup_2.
  - rewrite list_lookup_insert_eq in Hk by done. simplify_eq.
    rewrite list_lookup_insert_ne in Hj by done. exfalso. eauto using list_elem_of_lookup_2.
  - rewrite list_lookup_insert_ne in Hj, Hk by done. by eapply NoDup_lookup.
Qed.

Lemma existsb_ext_in {A} (f g : A -> bool) l : (forall x, x ∈ l -> f x = g x) ->
  existsb f l = existsb g l.
Proof.
  induction l as [|x l IH]; intros H; [done|]. simpl.
  rewrite H, IH by set_solver. done.
Qed.

Lemma forallb_ext_in {A} (f g : A -> bool) l : (forall x, x ∈ l -> f x = g x) ->
  forallb f l = forallb g l.
Proof.
  induction l as [|x l IH]; intros H; [done|]. simpl.
  rewrite H, IH by set_solver. done.
Qed.

(** The first element with a given name: the search loops that end in [break] or
    [return]. *)
Fixpoint index_of {A} (key : A -> string) (nm : string) (l : list A) : option nat :=
  match l with
  | [] => None
  | x :: l' => if String.eqb (key x) nm then Some 0%nat else S <$> index_of key nm l'
  end.

Section index_of.
Context {A : Type} `{Inhabited A} (key : A -> string).

Lemma index_of_Some nm l i : index_of key nm l = Some i ->
  (i < length l)%nat /\ key (l !!! i) = nm /\ (forall j, (j < i)%nat -> key (l !!! j) <> nm).
Proof.
  revert i. induction l as [|x l IH]; intros i; [done|]. simpl.
  destruct (String.eqb_spec (key x) nm) as [Heq|Hne].
  - intros [= <-]. split_and!; [simpl; lia|done|intros; lia].
  - destruct (index_of key nm l) as [j|] eqn:Hf; [|done]. intros [= <-].
    destruct (IH j eq_refl) as (? & ? & Hlt). simpl. split_and!; [lia|done|].
    intros [|k] Hk; [done|]. apply Hlt. lia.
Qed.

Lemma index_of_None nm l : index_of key nm l = None <-> nm ∉ (key <$> l).
Proof.
  induction l as [|x l IH]; simpl; [set_solver|].
  rewrite not_elem_of_cons. destruct (String.eqb_spec (key x) nm) as [->|Hne].
  - split; [done|]. by intros [].
  - rewrite <- IH. destruct (index_of key nm l); simpl; [|naive_solver].
    split; [done|]. by intros [_ ?].
Qed.

Lemma index_of_key l i : NoDup (key <$> l) -> (i < length l)%nat ->
  index_of key (key (l !!! i)) l = Some i.
Proof.
  intros Hn Hi. destruct (index_of key _ l) as [j|] eqn:Hf.
  - apply index_of_Some in Hf as (Hj & Heq & _). f_equal.
    apply (NoDup_lookup (key <$> l) j i (key (l !!! i))); [done|..].
    + rewrite list_lookup_fmap, list_lookup_lookup_total_lt by done. simpl. by rewrite Heq.
    + by rewrite list_lookup_fmap, list_lookup_lookup_total_lt by done.
  - apply index_of_None in Hf. destruct Hf. apply list_elem_of_fmap_2.
    eapply list_elem_of_lookup_2. by apply list_lookup_lookup_total_lt.
Qed.
End index_of.

(** Lookup with a C index: negative indices are outside every object. *)
Definition zlookup {A} (l : list A) (i : Z) : option A :=
  if i <? 0 then None else l !! Z.to_nat i.

(** ** Circular index arithmetic

    [ring_slots cap start n] is the list of the [n] slots that a circular
    buffer of capacity [cap] visits from [start] on. *)

Section ring.
Implicit Types (cap start n k : nat).

Definition ring_slots cap start n : list nat :=
  (fun k => (start + k) mod cap)%nat <$> seq 0 n.

Lemma length_ring_slots cap start n : length (ring_slots cap start n) = n.
Proof. unfold ring_slots. by rewrite length_fmap, length_seq. Qed.

Lemma ring_slots_S_r cap start n :
  ring_slots cap start (S n) = ring_slots cap start n ++ [((start + n) mod cap)%nat].
Proof. unfold ring_slots. by rewrite seq_S, fmap_app. Qed.

Lemma ring_slots_mod cap start n :
  cap <> 0%nat -> ring_slots cap (start mod cap) n = ring_slots cap start n.
Proof.
  intros. unfold ring_slots. apply list_fmap_ext. intros _ k _.
  by rewrite Nat.Div0.add_mod_idemp_l.
Qed.

Lemma ring_slots_S_l cap start n :
  cap <> 0%nat ->
  ring_slots cap start (S n) =
  (start mod cap)%nat :: ring_slots cap ((start + 1) mod cap) n.
Proof.
  intros. rewrite ring_slots_mod by done. unfold ring_slots. simpl.
  rewrite Nat.add_0_r. f_equal.
  rewrite <- fmap_S_seq, <- list_fmap_compose. apply list_fmap_ext.
  intros _ k _. simpl. f_equal. lia.
Qed.

Lemma lookup_ring_slots cap start n k :
  (k < n)%nat -> ring_slots cap start n !! k = Some ((start + k) mod cap)%nat.
Proof.
  intros. unfold ring_slots. rewrite list_lookup_fmap.
  rewrite lookup_seq_lt by lia. done.
Qed.

Lemma ring_slots_lt cap start n k :
  cap <> 0%nat -> k ∈ ring_slots cap start n -> (k < cap)%nat.
Proof.
  intros Hc Hk. apply list_elem_of_fmap in Hk as (i & -> & _).
  by apply Nat.mod_upper_bound.
Qed.

Lemma mod_inj cap start i j :
  (i < cap)%nat -> (j < cap)%nat ->
  ((start + i) mod cap = (start + j) mod cap)%nat -> i = j.
Proof.
  intros Hi Hj He.
  pose proof (Nat.div_mod_eq (start + i) cap).
  pose proof (Nat.div_mod_eq (start + j) cap).
  assert ((start + i) / cap = (start + j) / cap)%nat by nia.
  nia.
Qed.

Lemma ring_slots_fresh cap start n :
  (n < cap)%nat -> ((start + n) mod cap)%nat ∉ ring_slots cap start n.
Proof.
  intros Hn Hin. apply list_elem_of_fmap in Hin as (i & He & Hi).
  apply elem_of_seq in Hi. apply mod_inj in He; lia.
Qed.

Lemma ring_slots_NoDup cap start n :
  (n <= cap)%nat -> NoDup (ring_slots cap start n).
Proof.
  induction n as [|n IH]; intros Hn; [constructor|].
  rewrite ring_slots_S_r. apply NoDup_app. split; [apply IH; lia|].
  split; [|apply NoDup_singleton].
  intros x Hx Hx'. apply list_elem_of_singleton in Hx' as ->.
  by apply ring_slots_fresh in Hx.
Qed.
End ring.

(** The [n] elements of a circular array from index [start] on. *)
Section ring_contents.
Context {A : Type} `{Inhabited A}.
Implicit Types (l : list A).

Definition ring_contents l start n : list A :=
  (fun i => l !!! i) <$> ring_slots (length l) start n.

Lemma length_ring_contents l start n : length (ring_contents l start n) = n.
Proof. unfold ring_contents. by rewrite length_fmap, length_ring_slots. Qed.

Lemma ring_contents_push l start n x : (n < length l)%nat ->
  ring_contents (<[((start + n) mod length l)%nat := x]> l) start (S n) =
  ring_contents l start n ++ [x].
Proof.
  intros Hn. unfold ring_contents. rewrite length_insert, ring_slots_S_r, fmap_app.
  f_equal.
  - apply list_fmap_ext. intros _ k Hk%list_elem_of_lookup_2.
    apply list_lookup_total_insert_ne. intros <-. by eapply ring_slots_fresh.
  - simpl. f_equal. apply list_lookup_total_insert_eq. apply Nat.mod_upper_bound. lia.
Qed.

Lemma ring_contents_pop l start n : l <> [] ->
  ring_contents l start (S n) =
  l !!! (start mod length l)%nat :: ring_contents l ((start + 1) mod length l) n.
Proof.
  intros Hl. unfold ring_contents.
  rewrite ring_slots_S_l by (intros ?%length_zero_iff_nil; done). done.
Qed.

Lemma ring_contents_0 l n : (n <= length l)%nat -> ring_contents l 0 n = take n l.
Proof.
  intros Hn. apply list_eq. intros i. destruct (decide (i < n)%nat) as [Hi|Hi].
  - unfold ring_contents. rewrite list_lookup_fmap, lookup_ring_slots by done. simpl.
    rewrite Nat.mod_small, lookup_take_lt by lia. symmetry. apply list_lookup_lookup_total_lt. lia.
  - rewrite !lookup_ge_None_2; [done|rewrite length_take; lia|rewrite length_ring_contents; lia].
Qed.

(** The whole array, read from any start, is the array in another order. *)
Lemma ring_contents_all l start : ring_contents l start (length l) ≡ₚ l.
Proof.
  assert (Hp : ring_slots (length l) start (length l) ≡ₚ seq 0 (length l)).
  { apply submseteq_length_Permutation; [|by rewrite length_seq, length_ring_slots].
    apply NoDup_submseteq; [by apply ring_slots_NoDup|]. intros k Hk. apply elem_of_seq.
    assert (length l <> 0%nat).
    { intros Hz. rewrite Hz in Hk. by apply not_elem_of_nil in Hk. }
    pose proof (ring_slots_lt _ _ _ _ H0 Hk). lia. }
  unfold ring_contents. etrans; [apply fmap_Permutation, Hp|].
  match goal with |- ?a ≡ₚ _ => replace a with l; [done|] end.
  apply list_eq. intros i. rewrite list_lookup_fmap.
  destruct (decide (i < length l)%nat).
  - rewrite lookup_seq_lt by done. simpl. by apply list_lookup_lookup_total_lt.
  - rewrite !lookup_ge_None_2; [done|rewrite length_seq; lia|lia].
Qed.

(** A loop that fills the first [n] places of an array. *)
Lemma fill_take (f : nat -> A) l n : (n <= length l)%nat ->
  take n (fold_left (fun l i => <[i := f i]> l) (seq 0 n) l) = f <$> seq 0 n /\
  length (fold_left (fun l i => <[i := f i]> l) (seq 0 n) l) = length l.
Proof.
  induction n as [|n IH]; intros Hn; [done|]. destruct IH as [Ht Hl]; [lia|].
  rewrite seq_S, fold_left_app, fmap_app. simpl. rewrite length_insert. split; [|done].
  rewrite (take_S_r _ _ (f n)) by (apply list_lookup_insert_eq; lia).
  by rewrite take_insert_ge, Ht by lia.
Qed.
End ring_contents.

(** Distance from [tail] to [head] around a ring. *)
Definition ring_dist (cap tail head : nat) : nat := ((head + cap - tail) mod cap)%nat.

Lemma ring_dist_lt cap tail head : cap <> 0%nat -> (ring_dist cap tail head < cap)%nat.
Proof. intros. by apply Nat.mod_upper_bound. Qed.

Lemma ring_dist_head cap tail head :
  (tail < cap)%nat -> (head < cap)%nat ->
  ((tail + ring_dist cap tail head) mod cap = head)%nat.
Proof.
  intros. unfold ring_dist. rewrite Nat.Div0.add_mod_idemp_r.
  replace (tail + (head + cap - tail))%nat with (head + 1 * cap)%nat by lia.
  rewrite Nat.Div0.mod_add. by apply Nat.mod_small.
Qed.

Lemma ring_dist_add cap tail n :
  (tail < cap)%nat -> (n < cap)%nat ->
  ring_dist cap tail ((tail + n) mod cap) = n.
Proof.
  intros Ht Hn. apply (mod_inj cap tail); [apply ring_dist_lt; lia|done|].
  apply ring_dist_head; [done|apply Nat.mod_upper_bound; lia].
Qed.

(** ** C strings

    A [char *] or a NUL-terminated [char] array is modelled by the string of
    the bytes before the terminator. *)

(** Contents of a zero-initialised buffer after [strncpy (buf, s, n)]. *)
Fixpoint strncpy_z (n : nat) (s : string) : string :=
  match n, s with
  | S n', String c s' => String c (strncpy_z n' s')
  | _, _ => EmptyString
  end.

#[global] Arguments strncpy_z !n !s : simpl nomatch.

Lemma strncpy_z_length n s : (String.length (strncpy_z n s) <= n)%nat.
Proof.
  revert s. induction n; intros [|c s]; simpl; try lia. specialize (IHn s). lia.
Qed.

Lemma strncpy_z_short n s : (String.length s <= n)%nat -> strncpy_z n s = s.
Proof.
  revert s. induction n; intros [|c s]; simpl; try done; [lia|].
  intros. f_equal. apply IHn. lia.
Qed.

Lemma strncpy_z_min n m s : strncpy_z n (strncpy_z m s) = strncpy_z (n `min` m) s.
Proof.
  revert m s. induction n; intros [|m] [|c s]; simpl; try done. f_equal. apply IHn.
Qed.

(** [strncmp (a, b, n) == 0]. *)
Definition strncmp_eq (n : nat) (a b : string) : bool :=
  String.eqb (strncpy_z n a) (strncpy_z n b).

Lemma strncmp_eq_short n a b :
  (String.length a < n)%nat -> (String.length b < n)%nat ->
  strncmp_eq n a b = true <-> a = b.
Proof.
  intros. unfold strncmp_eq. rewrite String.eqb_eq.
  rewrite !strncpy_z_short by lia. done.
Qed.

(** Bytes as the C library's [<ctype.h>] sees them in the C locale. *)
Definition byte_of (c : ascii) : Z := Z.of_N (N_of_ascii c).

(** The bytes of a string, without its terminator. *)
Definition ascii_bytes (s : string) : list Z := byte_of <$> list_ascii_of_string s.

Lemma byte_of_inj a b : byte_of a = byte_of b -> a = b.
Proof.
  unfold byte_of. intros H%N2Z.inj. rewrite <- (ascii_N_embedding a), <- (ascii_N_embedding b).
  by rewrite H.
Qed.

Lemma ascii_bytes_inj s t : ascii_bytes s = ascii_bytes t -> s = t.
Proof.
  unfold ascii_bytes. intros H. rewrite <- (string_of_list_ascii_of_string s).
  rewrite <- (string_of_list_ascii_of_string t). f_equal.
  revert H. generalize (list_ascii_of_string s), (list_ascii_of_string t).
  induction l as [|a l IH]; intros [|b l'] H; simpl in H; simplify_eq; [done|].
  f_equal; [by apply byte_of_inj|by apply IH].
Qed.

(** A NUL-terminated string inside a buffer. *)
Fixpoint c_string (l : list Z) : string :=
  match l with
  | [] => EmptyString
  | b :: l' => if b =? 0 then EmptyString else String (ascii_of_N (Z.to_N b)) (c_string l')
  end.

(** A zero-initialised [char [n]] after [strncpy (buf, s, n - 1)]. *)
Definition cbuf (n : nat) (s : string) : list Z :=
  let b := ascii_bytes (strncpy_z (n - 1) s) in b ++ replicate (n - length b) 0.

Definition no_nul (s : string) : Prop :=
  Forall (fun c => byte_of c <> 0) (list_ascii_of_string s).

Lemma byte_of_range c : 0 <= byte_of c < 256.
Proof. unfold byte_of. pose proof (N_ascii_bounded c). lia. Qed.

Lemma c_string_bytes s rest : no_nul s -> c_string (ascii_bytes s ++ 0 :: rest) = s.
Proof.
  unfold no_nul. induction s as [|c s IH]; intros H; [done|].
  cbn [list_ascii_of_string] in H. apply Forall_cons in H as [Hc H].
  change (ascii_bytes (String c s)) with (byte_of c :: ascii_bytes s). cbn [app c_string].
  destruct (Z.eqb_spec (byte_of c) 0); [done|].
  rewrite IH by done. f_equal. unfold byte_of. by rewrite N2Z.id, ascii_N_embedding.
Qed.

Lemma length_ascii_bytes s : length (ascii_bytes s) = String.length s.
Proof. unfold ascii_bytes. rewrite length_fmap. induction s; simpl; congruence. Qed.

Lemma no_nul_strncpy n s : no_nul s -> no_nul (strncpy_z n s).
Proof.
  unfold no_nul. revert s. induction n as [|n IH]; intros [|c s] H; simpl in *; try constructor.
  - by apply Forall_cons in H as [? _].
  - apply IH. by apply Forall_cons in H as [_ ?].
Qed.

(** A string written to a buffer is read back, cut at the buffer's size. *)
Lemma cbuf_read n s rest : (0 < n)%nat -> no_nul s ->
  c_string (cbuf n s ++ rest) = strncpy_z (n - 1) s.
Proof.
  intros Hn Hs. unfold cbuf. rewrite <- app_assoc.
  pose proof (strncpy_z_length (n - 1) s) as Hl. rewrite length_ascii_bytes.
  replace (n - String.length (strncpy_z (n - 1) s))%nat
    with (S (n - 1 - String.length (strncpy_z (n - 1) s))) by lia.
  simpl. apply c_string_bytes. by apply no_nul_strncpy.
Qed.

Lemma length_cbuf n s : (0 < n)%nat -> length (cbuf n s) = n.
Proof.
  intros Hn. unfold cbuf. rewrite length_app, length_replicate, length_ascii_bytes.
  pose proof (strncpy_z_length (n - 1) s). lia.
Qed.

Definition isspace (c : ascii) : bool :=
  let b := byte_of c in (b =? 32) || ((9 <=? b) && (b <=? 13)).

Definition isalnum (c : ascii) : bool :=
  let b := byte_of c in
  ((48 <=? b) && (b <=? 57)) || ((65 <=? b) && (b <=? 90)) || ((97 <=? b) && (b <=? 122)).

(** ** Counting

    Flipping one element of a boolean predicate changes a count by one. *)

Definition count_true (f : nat -> bool) (n : nat) : nat := length (List.filter f (seq 0 n)).

Lemma count_true_S f n :
  count_true f (S n) = (count_true f n + if f n then 1 else 0)%nat.
Proof.
  unfold count_true. rewrite seq_S, List.filter_app, length_app. simpl.
  by destruct (f n).
Qed.

Lemma count_true_ext f g n : (forall i, (i < n)%nat -> f i = g i) ->
  count_true f n = count_true g n.
Proof.
  intros H. induction n as [|n IH]; [done|].
  rewrite !count_true_S, IH, H by (intros; try apply H; lia). done.
Qed.

Lemma count_true_le f n : (count_true f n <= n)%nat.
Proof.
  induction n as [|n IH]; [done|]. rewrite count_true_S. destruct (f n); lia.
Qed.

Lemma count_true_full f n : count_true f n = n <-> forall i, (i < n)%nat -> f i = true.
Proof.
  induction n as [|n IH]; [split; intros; [lia|done]|].
  rewrite count_true_S. pose proof (count_true_le f n). split.
  - intros H1 i Hi. destruct (f n) eqn:Hn; [|lia].
    destruct (decide (i = n)) as [->|]; [done|]. apply IH; lia.
  - intros H1. rewrite H1 by lia. replace (count_true f n) with n; [lia|].
    symmetry. apply IH. intros i Hi. apply H1. lia.
Qed.

Lemma count_true_none f n : (forall i, (i < n)%nat -> f i = false) -> count_true f n = 0%nat.
Proof.
  induction n as [|n IH]; intros H; [done|]. rewrite count_true_S, H, IH by (auto; lia). done.
Qed.

Lemma count_true_flip f g n i : (i < n)%nat -> f i = false -> g i = true ->
  (forall j, j <> i -> g j = f j) -> count_true g n = S (count_true f n).
Proof.
  intros Hi Hf Hg Hne. induction n as [|n IH]; [lia|]. rewrite !count_true_S.
  destruct (decide (i = n)) as [->|].
  - rewrite Hf, Hg. rewrite (count_true_ext g f); [lia|]. intros j Hj. apply Hne. lia.
  - rewrite IH, (Hne n) by lia. lia.
Qed.

(** ** Sums *)

(** The sum of [f] over a list. *)
Definition zsum {A} (f : A -> Z) (l : list A) : Z := fold_right (fun x a => f x + a) 0 l.

Lemma zsum_app {A} (f : A -> Z) l l' : zsum f (l ++ l') = zsum f l + zsum f l'.
Proof. induction l; simpl; lia. Qed.

Lemma zsum_insert {A} (f : A -> Z) l i x y : l !! i = Some x ->
  zsum f (<[i := y]> l) = zsum f l - f x + f y.
Proof.
  revert i. induction l as [|a l IH]; intros [|i] Hi; simplify_eq/=; [lia|].
  rewrite (IH i Hi). lia.
Qed.

Lemma zsum_perm {A} (f : A -> Z) l l' : l ≡ₚ l' -> zsum f l = zsum f l'.
Proof. induction 1; simpl; lia. Qed.

Lemma zsum_nonneg {A} (f : A -> Z) l : (forall x, 0 <= f x) -> 0 <= zsum f l.
Proof. intros Hf. induction l as [|a l IH]; simpl; [lia|]. specialize (Hf a). lia. Qed.

Lemma zsum_ge {A} (f : A -> Z) l i x : (forall y, 0 <= f y) -> l !! i = Some x -> f x <= zsum f l.
Proof.
  intros Hf. revert i. induction l as [|a l IH]; intros [|i] Hi; simplify_eq/=.
  - pose proof (zsum_nonneg f l Hf). lia.
  - specialize (IH i Hi). specialize (Hf a). lia.
Qed.

Lemma zsum_replicate {A} (f : A -> Z) n x : zsum f (replicate n x) = Z.of_nat n * f x.
Proof. induction n; simpl; lia. Qed.

(** ** Reachability *)

(** States reachable from an initial state by a step relation. *)
Definition reachable {S} (init : S -> Prop) (step : S -> S -> Prop) (s : S) : Prop :=
  exists s0, init s0 /\ rtc step s0 s.

(** Rule induction: what holds initially and is kept by every step holds in
    every reachable state. *)
Lemma reachable_invariant {S} (init : S -> Prop) (step : S -> S -> Prop) (I : S -> Prop) :
  (forall s, init s -> I s) -> (forall s t, I s -> step s t -> I t) ->
  forall s, reachable init step s -> I s.
Proof.
  intros Hi Hs s (s0 & H0 & Hr). apply Hi in H0.
  induction Hr; eauto.
Qed.

(** ** Hints *)

Create HintDb c_len.
#[export] Hint Rewrite @length_app @length_take @length_drop @length_insert
  @length_fmap @length_replicate @length_seq length_ring_slots : c_len.

(** Arithmetic on lengths. *)
Ltac len := autorewrite with c_len in *; simpl in *; try lia.
