(* ===== verification/Queue.v ===== *)
(** * The bounded-queue interface

    What the ring buffer, the daemon's work queue and the enterprise thread
    pool promise to their clients: a FIFO of bounded length.  The client-side
    theorem [run_fifo] is proved against the laws only; each implementation
    discharges the laws by an instance. *)

From S2P Require Import Prelude.

(** Operations of a bounded queue over states [Q] with elements [A]. *)
Class BoundedQueue (Q A : Type) := {
  bq_inv : Q -> Prop;             (** representation invariant *)
  bq_ok : Q -> A -> Prop;         (** elements the queue can carry *)
  bq_items : Q -> list A;         (** abstraction: contents, oldest first *)
  bq_bound : Q -> nat;            (** most elements it holds *)
  bq_push : A -> Q -> option Q;   (** [None]: rejected *)
  bq_pop : Q -> option (A * Q);   (** [None]: empty *)
}.

(** Its laws. *)
Class BoundedQueueLaws (Q A : Type) {B : BoundedQueue Q A} := {
  bq_len : forall q, bq_inv q -> (length (bq_items q) <= bq_bound q)%nat;
  bq_push_some : forall q a q', bq_inv q -> bq_ok q a -> bq_push a q = Some q' ->
    bq_inv q' /\ bq_items q' = bq_items q ++ [a] /\
    bq_bound q' = bq_bound q /\ (forall b, bq_ok q' b <-> bq_ok q b);
  bq_push_none : forall q a, bq_inv q -> bq_ok q a ->
    bq_push a q = None <-> length (bq_items q) = bq_bound q;
  bq_pop_some : forall q a q', bq_inv q -> bq_pop q = Some (a, q') ->
    bq_inv q' /\ bq_items q = a :: bq_items q' /\
    bq_bound q' = bq_bound q /\ (forall b, bq_ok q' b <-> bq_ok q b);
  bq_pop_none : forall q, bq_inv q -> bq_pop q = None <-> bq_items q = [];
}.

Inductive queue_op (A : Type) := Push (a : A) | Pop.
Arguments Push {A} a.
Arguments Pop {A}.

Section client.
Context {Q A : Type} `{BoundedQueueLaws Q A}.

(** Run a sequence of operations, collecting what was accepted and what was
    handed out. *)
Fixpoint run (ops : list (queue_op A)) (q : Q) : Q * list A * list A :=
  match ops with
  | [] => (q, [], [])
  | Push a :: ops' =>
      match bq_push a q with
      | Some q' => let '(q2, acc, out) := run ops' q' in (q2, a :: acc, out)
      | None => run ops' q
      end
  | Pop :: ops' =>
      match bq_pop q with
      | Some (a, q') => let '(q2, acc, out) := run ops' q' in (q2, acc, a :: out)
      | None => run ops' q
      end
  end.

Definition ops_ok (q : Q) (ops : list (queue_op A)) : Prop :=
  forall a, Push a ∈ ops -> bq_ok q a.

(** Every element handed out was accepted earlier, in the same order, and
    what is not handed out is still queued. *)
Lemma run_fifo ops q q' acc out :
  bq_inv q -> ops_ok q ops -> run ops q = (q', acc, out) ->
  bq_inv q' /\ bq_items q ++ acc = out ++ bq_items q'.
Proof.
  revert q q' acc out. induction ops as [|[a|] ops IH]; intros q q' acc out Hi Ho Hr;
    simpl in Hr.
  - simplify_eq. by rewrite app_nil_r.
  - destruct (bq_push a q) as [q1|] eqn:Hp.
    + apply bq_push_some in Hp as (Hi1 & Hc & _ & Hok); [|done|apply Ho; left].
      destruct (run ops q1) as [[q2 acc2] out2] eqn:Hrun. simplify_eq.
      apply IH in Hrun as [? Heq]; [|done|intros b Hb; apply Hok, Ho; by right].
      split; [done|]. rewrite <- Heq, Hc, <- app_assoc. done.
    + eapply IH; eauto. intros b Hb. apply Ho. by right.
  - destruct (bq_pop q) as [[a q1]|] eqn:Hp.
    + apply bq_pop_some in Hp as (Hi1 & Hc & _ & Hok); [|done].
      destruct (run ops q1) as [[q2 acc2] out2] eqn:Hrun. simplify_eq.
      apply IH in Hrun as [? Heq]; [|done|intros b Hb; apply Hok, Ho; by right].
      split; [done|]. rewrite Hc. simpl. by rewrite Heq.
    + eapply IH; eauto. intros b Hb. apply Ho. by right.
Qed.

(** With nothing queued at the start, the output is a prefix of the input. *)
Lemma run_prefix ops q q' acc out :
  bq_inv q -> ops_ok q ops -> bq_items q = [] -> run ops q = (q', acc, out) ->
  out `prefix_of` acc.
Proof.
  intros Hi Ho He Hr. destruct (run_fifo _ _ _ _ _ Hi Ho Hr) as [_ Heq].
  rewrite He in Heq. simpl in Heq. rewrite Heq. by apply prefix_app_r.
Qed.
End client.
