(* ===== verification/WorkerPool.v ===== *)
(** * Worker threads on a shared queue

    The daemon's thread pool (lifecycle/sm_main.c) and the enterprise one
    (enterprise/sm_threadpool.c) run the same protocol: a producer puts tasks
    in a bounded queue under a mutex and signals a condition variable; workers
    take them under the mutex, waiting while there is none and no shutdown is
    requested, and handle them outside it.  The class [TaskQueue] states what
    such a queue promises, the step relation [pool_step] interleaves producer
    and workers lock region by lock region, and the theorems are proved against
    the interface only. *)

From S2P Require Import Prelude Queue.

(** What a worker gets when it looks at the queue with the mutex held. *)
Inductive taken (Q A : Type) :=
| Wait                      (** nothing queued: wait on the condition *)
| Stop                      (** nothing queued and a shutdown requested *)
| Got (a : A) (q : Q).
Arguments Wait {Q A}.
Arguments Stop {Q A}.
Arguments Got {Q A} a q.

Class TaskQueue (Q A : Type) {B : BoundedQueue Q A} := {
  tq_stopped : Q -> bool;
  tq_stop : Q -> Q;
  tq_reject : Q -> Q;       (** what a refused push leaves behind *)
  tq_take : Q -> taken Q A;
}.

Class TaskQueueLaws (Q A : Type) {B : BoundedQueue Q A} {T : TaskQueue Q A} := {
  tq_queue :: BoundedQueueLaws Q A;
  tq_take_spec : forall q, bq_inv q ->
    tq_take q = match bq_pop q with
                | Some (a, q') => Got a q'
                | None => if tq_stopped q then Stop else Wait
                end;
  tq_pop_stopped : forall q a q', bq_inv q -> bq_pop q = Some (a, q') ->
    tq_stopped q' = tq_stopped q;
  tq_push_stopped : forall q a q', bq_inv q -> bq_push a q = Some q' ->
    tq_stopped q' = tq_stopped q;
  tq_stop_spec : forall q, bq_inv q ->
    bq_inv (tq_stop q) /\ bq_items (tq_stop q) = bq_items q /\
    tq_stopped (tq_stop q) = true;
  tq_reject_spec : forall q, bq_inv q ->
    bq_inv (tq_reject q) /\ bq_items (tq_reject q) = bq_items q /\
    tq_stopped (tq_reject q) = tq_stopped q;
}.

(** Where a worker thread is. *)
Inductive worker (A : Type) :=
| Ready                     (** about to take the mutex *)
| Waiting                   (** blocked on the condition variable *)
| Busy (a : A)              (** handling a task, mutex released *)
| Exited.
Arguments Ready {A}.
Arguments Waiting {A}.
Arguments Busy {A} a.
Arguments Exited {A}.

Record pool (Q A : Type) := mk_pool {
  queue : Q;
  workers : list (worker A);
  stopping : bool;          (** the producer has requested the shutdown *)
  accepted : list A;        (** tasks put, in order *)
  started : list A;         (** tasks taken, in order *)
  handled : list A          (** tasks done, in order *)
}.
Arguments mk_pool {Q A}.
Arguments queue {Q A}.
Arguments workers {Q A}.
Arguments stopping {Q A}.
Arguments accepted {Q A}.
Arguments started {Q A}.
Arguments handled {Q A}.

(** [pthread_cond_broadcast]. *)
Definition wake {A} (w : worker A) : worker A :=
  match w with Waiting => Ready | _ => w end.

(** [pthread_cond_signal]: one waiting thread, if there is one, wakes up. *)
Inductive signal {A} (ws : list (worker A)) : list (worker A) -> Prop :=
| signal_one i : ws !! i = Some Waiting -> signal ws (<[i := Ready]> ws)
| signal_none : Waiting ∉ ws -> signal ws ws.

Section pool.
Context {Q A : Type} `{TaskQueueLaws Q A}.
Implicit Types (s t : pool Q A).

(** One lock region, or one unlocked section, of worker [i]. *)
Inductive worker_step : pool Q A -> pool Q A -> Prop :=
| w_take q ws st acc sta han i a q' :
    ws !! i = Some Ready -> tq_take q = Got a q' ->
    worker_step (mk_pool q ws st acc sta han)
                (mk_pool q' (<[i := Busy a]> ws) st acc (sta ++ [a]) han)
| w_wait q ws st acc sta han i :
    ws !! i = Some Ready -> tq_take q = Wait ->
    worker_step (mk_pool q ws st acc sta han) (mk_pool q (<[i := Waiting]> ws) st acc sta han)
| w_exit q ws st acc sta han i :
    ws !! i = Some Ready -> tq_take q = Stop ->
    worker_step (mk_pool q ws st acc sta han) (mk_pool q (<[i := Exited]> ws) st acc sta han)
| w_done q ws st acc sta han i a :
    ws !! i = Some (Busy a) ->
    worker_step (mk_pool q ws st acc sta han)
                (mk_pool q (<[i := Ready]> ws) st acc sta (han ++ [a])).

(** The producer: put a task and signal, drop it when the queue is full, or
    request the shutdown and broadcast; it puts nothing after that.  A waiting
    thread may also wake up spuriously. *)
Inductive other_step : pool Q A -> pool Q A -> Prop :=
| m_put q ws ws' acc sta han a q' :
    bq_ok q a -> bq_push a q = Some q' -> signal ws ws' ->
    other_step (mk_pool q ws false acc sta han) (mk_pool q' ws' false (acc ++ [a]) sta han)
| m_drop q ws acc sta han a :
    bq_ok q a -> bq_push a q = None ->
    other_step (mk_pool q ws false acc sta han) (mk_pool (tq_reject q) ws false acc sta han)
| m_stop q ws acc sta han :
    other_step (mk_pool q ws false acc sta han)
               (mk_pool (tq_stop q) (wake <$> ws) true acc sta han)
| w_spurious q ws st acc sta han i :
    ws !! i = Some Waiting ->
    other_step (mk_pool q ws st acc sta han) (mk_pool q (<[i := Ready]> ws) st acc sta han).

Definition pool_step s t : Prop := worker_step s t \/ other_step s t.

Definition pool_init (q0 : Q) (n : nat) s : Prop :=
  s = mk_pool q0 (replicate n Ready) false [] [] [].

(** Tasks in the workers' hands. *)
Definition in_hand (ws : list (worker A)) : list A :=
  ws ≫= fun w => match w with Busy a => [a] | _ => [] end.

Definition ready_count (ws : list (worker A)) : nat :=
  sum_list_with (fun w => match w with Ready => 1%nat | _ => O end) ws.

Record pool_inv s : Prop := {
  pi_queue : bq_inv (queue s);
  pi_stopped : tq_stopped (queue s) = stopping s;
  pi_fifo : accepted s = started s ++ bq_items (queue s);
  pi_handled : started s ≡ₚ handled s ++ in_hand (workers s);
  pi_wake : Waiting ∈ workers s -> stopping s = false /\
            (length (bq_items (queue s)) <= ready_count (workers s))%nat;
  pi_exit : Exited ∈ workers s -> stopping s = true /\ bq_items (queue s) = [];
}.

(** ** Changing one worker *)

Lemma worker_split (ws : list (worker A)) i w0 : ws !! i = Some w0 ->
  exists l1 l2, ws = l1 ++ w0 :: l2 /\ forall w, <[i := w]> ws = l1 ++ w :: l2.
Proof.
  intros Hi. exists (take i ws), (drop (S i) ws). split.
  - by rewrite take_drop_middle.
  - intros w. by rewrite insert_take_drop by (eapply lookup_lt_Some; eauto).
Qed.

Ltac split_worker Hi :=
  let l1 := fresh "l1" in let l2 := fresh "l2" in let Hr := fresh "Hr" in
  destruct (worker_split _ _ _ Hi) as (l1 & l2 & -> & Hr); rewrite ?Hr in *.

Lemma in_hand_app (l1 l2 : list (worker A)) : in_hand (l1 ++ l2) = in_hand l1 ++ in_hand l2.
Proof. apply bind_app. Qed.

Lemma in_hand_cons w (l : list (worker A)) :
  in_hand (w :: l) = match w with Busy a => [a] | _ => [] end ++ in_hand l.
Proof. done. Qed.

Lemma ready_count_app (l1 l2 : list (worker A)) :
  ready_count (l1 ++ l2) = (ready_count l1 + ready_count l2)%nat.
Proof. apply sum_list_with_app. Qed.

Lemma ready_count_cons w (l : list (worker A)) :
  ready_count (w :: l) = ((match w with Ready => 1 | _ => 0 end) + ready_count l)%nat.
Proof. done. Qed.

Lemma wake_all (ws : list (worker A)) :
  Waiting ∉ (wake <$> ws) /\ in_hand (wake <$> ws) = in_hand ws /\
  (Exited ∈ (wake <$> ws) <-> Exited ∈ ws).
Proof.
  split_and!.
  - intros (w & Hw & _)%list_elem_of_fmap. by destruct w.
  - induction ws as [|w ws IH]; [done|]. rewrite fmap_cons, !in_hand_cons, IH. by destruct w.
  - rewrite list_elem_of_fmap. split; [|intros; by exists Exited].
    intros (w & Hw & ?). by destruct w.
Qed.

Lemma signal_facts (ws ws' : list (worker A)) : signal ws ws' ->
  in_hand ws' = in_hand ws /\ (Exited ∈ ws' <-> Exited ∈ ws) /\
  (Waiting ∈ ws' -> Waiting ∈ ws /\ ready_count ws' = S (ready_count ws)).
Proof.
  intros [i Hi|Hn]; [|by split_and!]. split_worker Hi.
  rewrite !in_hand_app, !in_hand_cons, !ready_count_app, !ready_count_cons.
  split_and!; [done|set_solver|]. intros Hw. split; [set_solver|lia].
Qed.

(** ** The invariant *)

Lemma take_got q a q' : bq_inv q -> tq_take q = Got a q' -> bq_pop q = Some (a, q').
Proof.
  intros Hi. rewrite tq_take_spec by done.
  destruct (bq_pop q) as [[]|]; [naive_solver|by destruct (tq_stopped q)].
Qed.

Lemma take_wait q : bq_inv q -> tq_take q = Wait -> bq_items q = [] /\ tq_stopped q = false.
Proof.
  intros Hi. rewrite tq_take_spec by done. destruct (bq_pop q) as [[]|] eqn:Hp; [done|].
  apply bq_pop_none in Hp; [|done]. by destruct (tq_stopped q).
Qed.

Lemma take_stop q : bq_inv q -> tq_take q = Stop -> bq_items q = [] /\ tq_stopped q = true.
Proof.
  intros Hi. rewrite tq_take_spec by done. destruct (bq_pop q) as [[]|] eqn:Hp; [done|].
  apply bq_pop_none in Hp; [|done]. by destruct (tq_stopped q).
Qed.

Ltac hands := rewrite ?in_hand_app, ?in_hand_cons, ?ready_count_app, ?ready_count_cons in *.

Lemma worker_step_inv s t : pool_inv s -> worker_step s t -> pool_inv t.
Proof.
  intros [Hq Hs Hf Hh Hw He] Hstep.
  destruct Hstep as [q ws st acc sta han i a q' Hi Ht|q ws st acc sta han i Hi Ht
    |q ws st acc sta han i Hi Ht|q ws st acc sta han i a Hi]; simpl in *; split_worker Hi; hands.
  - apply take_got in Ht; [|done].
    pose proof (tq_pop_stopped _ _ _ Hq Ht) as Hst.
    apply bq_pop_some in Ht as (Hq' & Hit & _); [|done]. rewrite Hit in *.
    constructor; simpl; hands; try congruence.
    + by rewrite <- app_assoc.
    + rewrite Hh. solve_Permutation.
    + intros Hwt. destruct Hw as [? Hl]; [set_solver|]. split; [done|]. simpl in Hl. lia.
    + intros Hex. destruct He; [set_solver|done].
  - apply take_wait in Ht as [Hit Hst]; [|done]. constructor; simpl; hands; try done.
    + intros _. rewrite Hit. simpl. split; [congruence|lia].
    + intros Hex. apply He. set_solver.
  - apply take_stop in Ht as [Hit Hst]; [|done]. constructor; simpl; hands; try done.
    + intros Hwt. destruct Hw; [set_solver|]. congruence.
    + intros _. split; [congruence|done].
  - constructor; simpl; hands; try done.
    + rewrite Hh. solve_Permutation.
    + intros Hwt. destruct Hw as [? Hl]; [set_solver|]. split; [done|]. lia.
    + intros Hex. apply He. set_solver.
Qed.

Lemma other_step_inv s t : pool_inv s -> other_step s t -> pool_inv t.
Proof.
  intros [Hq Hs Hf Hh Hw He] Hstep.
  destruct Hstep as [q ws ws' acc sta han a q' Hok Hp Hsig|q ws acc sta han a Hok Hp
    |q ws acc sta han|q ws st acc sta han i Hi]; simpl in *; [| |clear Hw|].
  - pose proof (tq_push_stopped _ _ _ Hq Hp) as Hst.
    apply bq_push_some in Hp as (Hq' & Hit & _); [|done|done].
    apply signal_facts in Hsig as (Hh' & Hex & Hwt).
    constructor; simpl; rewrite ?Hit, ?Hh'; try congruence.
    + by rewrite Hf, app_assoc.
    + intros (Hw1 & ->)%Hwt. destruct (Hw Hw1) as [_ Hl]. rewrite length_app. simpl.
      split; [done|lia].
    + intros (? & _)%Hex%He. done.
  - apply tq_reject_spec in Hq as (Hq' & Hit & Hst).
    constructor; simpl; rewrite ?Hit; try done. congruence.
  - apply tq_stop_spec in Hq as (Hq' & Hit & Hst). pose proof (wake_all ws) as (Hnw & Hh' & Hex).
    constructor; simpl; rewrite ?Hit, ?Hh'; try done.
    intros (? & _)%Hex%He. done.
  - split_worker Hi. hands. constructor; simpl; hands; try done.
    + intros Hwt. destruct Hw as [? Hl]; [set_solver|]. split; [done|lia].
    + intros Hex. apply He. set_solver.
Qed.

Lemma pool_step_inv s t : pool_inv s -> pool_step s t -> pool_inv t.
Proof. intros Hi [?|?]; eauto using worker_step_inv, other_step_inv. Qed.

Lemma pool_init_inv q0 n s : bq_inv q0 -> bq_items q0 = [] -> tq_stopped q0 = false ->
  pool_init q0 n s -> pool_inv s.
Proof.
  intros Hq Hit Hs ->. assert (Hin : in_hand (replicate n (@Ready A)) = [])
    by (induction n; [done|by rewrite replicate_S, in_hand_cons]).
  constructor; simpl; rewrite ?Hit, ?Hin; try done.
  - intros [? _]%elem_of_replicate. done.
  - intros [? _]%elem_of_replicate. done.
Qed.

Lemma pool_step_workers s t : pool_step s t -> length (workers t) = length (workers s).
Proof.
  intros [[]|[q ws ws' acc sta han a q' Hok Hp Hsig| | |]]; simpl; len. by destruct Hsig; len.
Qed.

(** What holds in every state a pool of [n] workers can reach. *)
Lemma pool_reachable q0 n s : bq_inv q0 -> bq_items q0 = [] -> tq_stopped q0 = false ->
  reachable (pool_init q0 n) pool_step s -> pool_inv s /\ length (workers s) = n.
Proof.
  intros Hq Hit Hs.
  apply (reachable_invariant _ _ (fun s => pool_inv s /\ length (workers s) = n)).
  - intros s0 H0. split; [by eapply pool_init_inv|]. rewrite H0. simpl. len.
  - intros s1 s2 [Hi Hl] Hst. split; [by eapply pool_step_inv|].
    rewrite <- Hl. by apply pool_step_workers.
Qed.

(** ** Progress and draining *)

Lemma ready_exists (ws : list (worker A)) : (0 < ready_count ws)%nat -> Ready ∈ ws.
Proof.
  induction ws as [|w ws IH]; [simpl; lia|]. rewrite ready_count_cons.
  destruct w; intros Hc; try (right; apply IH; lia). left.
Qed.

Lemma ready_steps s : pool_inv s -> Ready ∈ workers s -> exists t, worker_step s t.
Proof.
  intros Hi (i & Hw)%list_elem_of_lookup_1. destruct s as [q ws st acc sta han]. simpl in *.
  destruct (tq_take q) as [| |a q'] eqn:Ht; eexists;
    [by eapply w_wait|by eapply w_exit|by eapply w_take].
Qed.

(** No wake-up is lost: while a task is queued some worker can go on. *)
Lemma pool_progress s : pool_inv s -> workers s <> [] -> bq_items (queue s) <> [] ->
  exists t, worker_step s t.
Proof.
  intros Hi Hne Hit. pose proof Hi as [_ _ _ _ Hw He].
  destruct (workers s) as [|w ws] eqn:Hws; [done|].
  destruct w as [| |a|]; try rewrite <- Hws in *.
  - apply ready_steps; [done|]. rewrite Hws. left.
  - apply ready_steps; [done|]. apply ready_exists.
    destruct Hw as [_ Hl]; [rewrite Hws; left|]. destruct (bq_items (queue s)); [done|simpl in Hl; lia].
  - destruct s as [q ws' st acc sta han]. simpl in *. subst. eexists. by apply (w_done _ _ _ _ _ _ 0 a).
  - destruct He as [_ He]; [rewrite Hws; left|]. done.
Qed.

Definition work (s : pool Q A) : nat :=
  (3 * length (bq_items (queue s)) +
   sum_list_with (fun w => match w with Ready | Waiting => 1 | Busy _ => 2 | Exited => 0 end%nat)
     (workers s))%nat.

Lemma no_waiting s : pool_inv s -> stopping s = true -> Waiting ∉ workers s.
Proof. intros Hi Hs Hw. destruct (pi_wake _ Hi Hw). congruence. Qed.

(** After the shutdown request every step uses up work. *)
Lemma stopping_step s t : pool_inv s -> stopping s = true -> pool_step s t ->
  stopping t = true /\ worker_step s t /\ accepted t = accepted s /\ (work t < work s)%nat.
Proof.
  intros Hi Hst Hstep. pose proof (no_waiting _ Hi Hst) as Hnw.
  destruct Hstep as [Hw|Ho].
  2:{ destruct Ho as [| | |q ws st acc sta han i Hi']; simpl in *; try done.
      by apply list_elem_of_lookup_2 in Hi'. }
  pose proof (worker_step_inv _ _ Hi Hw) as Hi'. pose proof (pi_queue _ Hi) as Hq.
  split_and!; [by destruct Hw|done|by destruct Hw|]. unfold work.
  destruct Hw as [q ws st acc sta han i a q' Hwi Ht|q ws st acc sta han i Hwi Ht
    |q ws st acc sta han i Hwi Ht|q ws st acc sta han i a Hwi]; simpl in *.
  - apply take_got in Ht; [|done]. apply bq_pop_some in Ht as (_ & Hit & _); [|done].
    rewrite Hit. split_worker Hwi. rewrite !sum_list_with_app. simpl. lia.
  - apply take_wait in Ht as [_ Ht]; [|done]. pose proof (pi_stopped _ Hi). simpl in *. congruence.
  - split_worker Hwi. rewrite !sum_list_with_app. simpl. lia.
  - split_worker Hwi. rewrite !sum_list_with_app. simpl. lia.
Qed.

(** A stopping pool in which nothing can move has handled everything. *)
Lemma stuck_drained s : pool_inv s -> stopping s = true -> workers s <> [] ->
  (forall t, ~ pool_step s t) ->
  Forall (eq Exited) (workers s) /\ handled s ≡ₚ accepted s.
Proof.
  intros Hi Hst Hne Hstuck.
  assert (Hex : Forall (eq Exited) (workers s)).
  { apply Forall_forall. intros w Hw. destruct w as [| |a|]; [| | |done].
    - destruct (ready_steps s Hi Hw) as [t Ht]. destruct (Hstuck t). by left.
    - by destruct (no_waiting s).
    - apply list_elem_of_lookup_1 in Hw as (i & Hw). destruct s as [q ws st acc sta han].
      edestruct Hstuck. left. by eapply w_done. }
  assert (Hit : bq_items (queue s) = []).
  { apply (pi_exit _ Hi). destruct Hex as [|w ws <- _]; [done|left]. }
  assert (Hh : in_hand (workers s) = []).
  { revert Hex. clear. induction 1 as [|w ws <- _ IH]; [done|]. by rewrite in_hand_cons, IH. }
  split; [done|]. rewrite (pi_fifo _ Hi), Hit, app_nil_r.
  rewrite (pi_handled _ Hi), Hh. by rewrite app_nil_r.
Qed.

(** So after the request the pool stops by itself, in a bounded number of
    steps however they interleave, and every accepted task has been handled
    exactly once. *)
Lemma shutdown_drains s : pool_inv s -> stopping s = true -> workers s <> [] ->
  (forall k t, nsteps pool_step k s t -> (k <= work s)%nat) /\
  (forall t, rtc pool_step s t -> (forall u, ~ pool_step t u) ->
     Forall (eq Exited) (workers t) /\ handled t ≡ₚ accepted s).
Proof.
  intros Hi Hst Hne. split.
  - intros k. revert s Hi Hst Hne. induction k as [|k IH]; intros s Hi Hst Hne t Hr; [lia|].
    inversion Hr as [|? ? s1 ? Hs1 Hr']; subst.
    destruct (stopping_step _ _ Hi Hst Hs1) as (Hst1 & _ & _ & Hw).
    assert (workers s1 <> []).
    { intros He. apply pool_step_workers in Hs1. rewrite He in Hs1. by destruct (workers s). }
    pose proof (IH s1 (pool_step_inv _ _ Hi Hs1) Hst1 ltac:(done) t Hr'). lia.
  - intros t Hr. revert Hi Hst Hne. induction Hr as [s|s s1 t Hs1 Hr IH]; intros Hi Hst Hne Hstuck.
    + by apply stuck_drained.
    + destruct (stopping_step _ _ Hi Hst Hs1) as (Hst1 & _ & Hacc & _). rewrite <- Hacc.
      apply IH; [by eapply pool_step_inv|done| |done].
      intros He. apply pool_step_workers in Hs1. rewrite He in Hs1. by destruct (workers s).
Qed.
End pool.
