(* ===== verification/WorkQueue.v ===== *)
(** * The daemon's work queue and worker threads (lifecycle/sm_main.c)

    The main loop accepts connections and puts their descriptors in a circular
    queue; worker threads take them out, handle the client and close it.  The
    queue is a [TaskQueue], so what [WorkerPool] proves of the protocol holds of
    the daemon's threads. *)

From S2P Require Import Prelude Queue WorkerPool.

(** [dev/core/service_manager/lifecycle/sm_main.c:84-87 DEFAULT_WORK_QUEUE_SIZE] *)
Definition DEFAULT_WORK_QUEUE_SIZE : Z := 64.
Definition MAX_THREAD_POOL_SIZE : Z := 64.
Definition MAX_WORK_QUEUE_SIZE : Z := 4096.

(** [dev/core/service_manager/lifecycle/sm_main.c:89-98 work_queue_t] *)
Record work_queue_t := mk_wq {
  fds : list Z; capacity : Z; head : Z; tail : Z; count : Z; shutdown : bool
}.

(** [dev/core/service_manager/lifecycle/sm_main.c:73-83 default_pool_size] [ncpu] is
    what [sysconf (_SC_NPROCESSORS_ONLN)] answers. *)
Definition default_pool_size (ncpu : Z) : Z :=
  let ncpu := if ncpu <? 1 then 1 else ncpu in
  let sz := ncpu * 2 in
  let sz := if sz <? 2 then 2 else sz in
  if 64 <? sz then 64 else sz.

(** [dev/core/service_manager/lifecycle/sm_main.c:104-113 wq_init] [mem]: whether
    [calloc] succeeds; [None]: [fds] stays NULL. *)
Definition wq_init (mem : bool) (queue_capacity : Z) : option work_queue_t :=
  if mem then Some (mk_wq (replicate (Z.to_nat queue_capacity) 0) queue_capacity 0 0 0 false)
  else None.

(** [dev/core/service_manager/lifecycle/sm_main.c:116-129 wq_push] *)
Definition wq_push (fd : Z) (q : work_queue_t) : Z * work_queue_t :=
  if count q <? capacity q
  then (0, mk_wq (<[Z.to_nat (tail q) := fd]> (fds q)) (capacity q) (head q)
             (c_rem (tail q + 1) (capacity q)) (count q + 1) (shutdown q))
  else (-1, q).

(** [dev/core/service_manager/lifecycle/sm_main.c:131-147 wq_pop] one test of the
    queue with the mutex held; [None]: the caller waits on the condition. *)
Definition wq_pop (q : work_queue_t) : option (Z * work_queue_t) :=
  if (count q =? 0) && negb (shutdown q) then None
  else if shutdown q && (count q =? 0) then Some (-1, q)
  else Some (fds q !!! Z.to_nat (head q),
             mk_wq (fds q) (capacity q) (c_rem (head q + 1) (capacity q)) (tail q)
               (count q - 1) (shutdown q)).

(** [dev/core/service_manager/lifecycle/sm_main.c:149-154 wq_shutdown] *)
Definition wq_shutdown (q : work_queue_t) : work_queue_t :=
  mk_wq (fds q) (capacity q) (head q) (tail q) (count q) true.

(** [dev/core/service_manager/lifecycle/sm_main.c:156-167 worker_thread] what a worker
    does with the result: a negative descriptor ends the loop. *)
Definition worker_take (q : work_queue_t) : taken work_queue_t Z :=
  match wq_pop q with
  | None => Wait
  | Some (fd, q') => if fd <? 0 then Stop else Got fd q'
  end.

(** [dev/core/service_manager/lifecycle/sm_main.c:169-219 threadpool_init] [cfg]: the
    configured thread count and queue size; [mem1], [mem2]: the two [calloc]s;
    [create i]: whether the i-th thread starts.  The result is the queue and the
    number of workers; on failure everything is released. *)
Definition threadpool_init (cfg : option (Z * Z)) (ncpu : Z) (mem1 mem2 : bool)
    (create : nat -> bool) : Z * option (work_queue_t * nat) :=
  let pool_size :=
    match cfg with
    | Some (n, _) => if (0 <? n) && (n <=? MAX_THREAD_POOL_SIZE) then n else default_pool_size ncpu
    | None => default_pool_size ncpu
    end in
  let queue_size :=
    match cfg with
    | Some (_, n) => if (4 <=? n) && (n <=? MAX_WORK_QUEUE_SIZE) then n else DEFAULT_WORK_QUEUE_SIZE
    | None => DEFAULT_WORK_QUEUE_SIZE
    end in
  match wq_init mem1 queue_size with
  | None => (-1, None)
  | Some q =>
      if negb mem2 then (-1, None)
      else if forallb create (seq 0 (Z.to_nat pool_size)) then (0, Some (q, Z.to_nat pool_size))
      else (-1, None)
  end.

(** ** The queue is a task queue *)

Definition items (q : work_queue_t) : list Z :=
  ring_contents (fds q) (Z.to_nat (head q)) (Z.to_nat (count q)).

Record wq_inv (q : work_queue_t) : Prop := {
  wq_cap : 0 < capacity q <= MAX_WORK_QUEUE_SIZE;
  wq_fds : length (fds q) = Z.to_nat (capacity q);
  wq_head : 0 <= head q < capacity q;
  wq_count : 0 <= count q <= capacity q;
  wq_tail : tail q = (head q + count q) mod capacity q;
  wq_nonneg : Forall (Z.le 0) (items q);
}.

#[export] Instance wq_queue : BoundedQueue work_queue_t Z := {|
  bq_inv := wq_inv;
  bq_ok := fun _ fd => 0 <= fd;
  bq_items := items;
  bq_bound := fun q => Z.to_nat (capacity q);
  bq_push := fun fd q => let '(ret, q') := wq_push fd q in if ret =? 0 then Some q' else None;
  bq_pop := fun q =>
    match wq_pop q with
    | Some (fd, q') => if fd <? 0 then None else Some (fd, q')
    | None => None
    end
|}.

#[export] Instance wq_task_queue : TaskQueue work_queue_t Z := {|
  tq_stopped := shutdown;
  tq_stop := wq_shutdown;
  tq_reject := fun q => q;
  tq_take := worker_take
|}.

#[local] Arguments wq_push : simpl never.
#[local] Arguments wq_pop : simpl never.

Lemma length_items q : length (items q) = Z.to_nat (count q).
Proof. apply length_ring_contents. Qed.

Lemma items_nil q : 0 <= count q -> items q = [] <-> count q = 0.
Proof.
  intros. rewrite <- length_zero_iff_nil, length_items. lia.
Qed.

Lemma push_room q fd : wq_inv q -> 0 <= fd -> count q < capacity q ->
  exists q', wq_push fd q = (0, q') /\ wq_inv q' /\ items q' = items q ++ [fd] /\
    capacity q' = capacity q /\ shutdown q' = shutdown q.
Proof.
  intros [Hc Hl Hh Hn Ht Hf] Hfd Hroom. eexists. split.
  { unfold wq_push. apply Z.ltb_lt in Hroom as ->. done. }
  set (q' := mk_wq _ _ _ _ _ _).
  assert (Hit : items q' = items q ++ [fd]).
  { unfold items, q'. simpl. rewrite <- (ring_contents_push (fds q)) by lia.
    rewrite Hl, Ht. f_equal; [f_equal|lia].
    rewrite Z2Nat.inj_mod, Z2Nat.inj_add by lia. done. }
  split_and!; try done. constructor; simpl; try done; try lia.
  - by rewrite length_insert.
  - rewrite Z.rem_mod_nonneg by (rewrite ?Ht; pose proof (Z.mod_pos_bound (head q + count q) (capacity q)); lia).
    rewrite Ht, Z.add_mod_idemp_l by lia. f_equal. lia.
  - rewrite Hit. apply Forall_app. split; [done|by constructor].
Qed.

Lemma push_full q fd : ~ count q < capacity q -> wq_push fd q = (-1, q).
Proof. intros H. unfold wq_push. by destruct (Z.ltb_spec (count q) (capacity q)). Qed.

Lemma pop_items q fd q' : wq_inv q -> count q <> 0 -> wq_pop q = Some (fd, q') ->
  0 <= fd /\ wq_inv q' /\ items q = fd :: items q' /\ capacity q' = capacity q /\
  shutdown q' = shutdown q.
Proof.
  intros [Hc Hl Hh Hn Ht Hf] Hne. unfold wq_pop.
  apply Z.eqb_neq in Hne as He. rewrite He, andb_false_r. simpl. intros; simplify_eq.
  set (q' := mk_wq _ _ _ _ _ _).
  assert (Hr : c_rem (head q + 1) (capacity q) = (head q + 1) mod capacity q)
    by (apply Z.rem_mod_nonneg; lia).
  assert (Hit : items q = fds q !!! Z.to_nat (head q) :: items q').
  { unfold items at 1. replace (Z.to_nat (count q)) with (S (Z.to_nat (count q - 1))) by lia.
    rewrite ring_contents_pop by (intros ?%(f_equal length); simpl in *; lia).
    rewrite Nat.mod_small by lia. f_equal. unfold items, q'. simpl. f_equal.
    rewrite Hr, Hl, Z2Nat.inj_mod, Z2Nat.inj_add by lia. done. }
  rewrite Hit in Hf. apply Forall_cons in Hf as [Hfd Hf].
  split_and!; try done. constructor; simpl; try done; try lia.
  - rewrite Hr. apply Z.mod_pos_bound. lia.
  - rewrite Hr, Ht, Z.add_mod_idemp_l by lia. f_equal. lia.
Qed.

Lemma pop_empty q : count q = 0 ->
  wq_pop q = if shutdown q then Some (-1, q) else None.
Proof. intros H. unfold wq_pop. rewrite H. by destruct (shutdown q). Qed.

Lemma pop_some q : count q <> 0 -> exists fd q', wq_pop q = Some (fd, q').
Proof.
  intros H%Z.eqb_neq. unfold wq_pop. rewrite H, andb_false_r. simpl. eauto.
Qed.

#[export] Instance wq_queue_laws : BoundedQueueLaws work_queue_t Z.
Proof.
  constructor; simpl.
  - intros q Hi. rewrite length_items. pose proof (wq_count _ Hi). lia.
  - intros q fd q' Hi Hfd Hp. destruct (decide (count q < capacity q)).
    + destruct (push_room q fd) as (q2 & Hw & ? & ? & Hcap & _); [done..|].
      rewrite Hw in Hp. simpl in Hp. simplify_eq. by rewrite Hcap.
    + by rewrite push_full in Hp.
  - intros q fd Hi Hfd. rewrite length_items. pose proof (wq_count _ Hi).
    destruct (decide (count q < capacity q)).
    + destruct (push_room q fd) as (q2 & -> & _); [done..|]. simpl. split; [done|lia].
    + rewrite push_full by done. simpl. split; [lia|done].
  - intros q fd q' Hi Hp. destruct (decide (count q = 0)).
    + rewrite pop_empty in Hp by done. by destruct (shutdown q).
    + destruct (pop_some q) as (fd2 & q2 & Hp2); [done|]. rewrite Hp2 in Hp.
      destruct (pop_items q fd2 q2) as (Hfd & ? & ? & Hcap & _); [done..|].
      destruct (Z.ltb_spec fd2 0); [lia|]. simplify_eq. by rewrite Hcap.
  - intros q Hi. rewrite items_nil by apply Hi. destruct (decide (count q = 0)).
    + rewrite pop_empty by done. by destruct (shutdown q).
    + destruct (pop_some q) as (fd2 & q2 & Hp2); [done|]. rewrite Hp2.
      destruct (pop_items q fd2 q2) as (Hfd & _); [done..|].
      destruct (Z.ltb_spec fd2 0); [lia|]. done.
Qed.

#[export] Instance wq_task_queue_laws : TaskQueueLaws work_queue_t Z.
Proof.
  constructor; simpl; [apply _|..].
  - intros q Hi. unfold worker_take. destruct (decide (count q = 0)).
    + rewrite pop_empty by done. by destruct (shutdown q).
    + destruct (pop_some q) as (fd2 & q2 & Hp); [done|]. rewrite Hp.
      destruct (pop_items q fd2 q2) as (Hfd & _); [done..|].
      by destruct (Z.ltb_spec fd2 0); [lia|].
  - intros q fd q' Hi Hp. destruct (decide (count q = 0)).
    + rewrite pop_empty in Hp by done. by destruct (shutdown q).
    + destruct (pop_some q) as (fd2 & q2 & Hp2); [done|]. rewrite Hp2 in Hp.
      destruct (pop_items q fd2 q2) as (_ & _ & _ & _ & Hs); [done..|].
      destruct (fd2 <? 0); by simplify_eq.
  - intros q fd q' Hi. unfold wq_push. destruct (count q <? capacity q); simpl; intros; by simplify_eq.
  - intros q [? ? ? ? ? ?]. by split_and!.
  - done.
Qed.

(** ** The thread pool *)

Lemma default_pool_size_bounds ncpu : 2 <= default_pool_size ncpu <= MAX_THREAD_POOL_SIZE.
Proof.
  unfold default_pool_size, MAX_THREAD_POOL_SIZE. cbv zeta.
  destruct (ncpu <? 1) eqn:E1; bool_to_prop.
  - vm_compute. by split.
  - destruct (ncpu * 2 <? 2) eqn:E2; bool_to_prop; [lia|].
    destruct (64 <? ncpu * 2) eqn:E3; bool_to_prop; lia.
Qed.

Lemma wq_init_ok cap : 0 < cap <= MAX_WORK_QUEUE_SIZE ->
  exists q, wq_init true cap = Some q /\ wq_inv q /\ items q = [] /\ shutdown q = false.
Proof.
  intros Hc. eexists. split; [done|]. split_and!; try done. constructor; simpl; try done; try lia.
  by rewrite length_replicate.
Qed.

(** Whatever the configuration says, a started pool has 1 to 64 workers and an
    empty queue of 4 to 4096 places. *)
Lemma threadpool_init_ok cfg ncpu m1 m2 create q n :
  threadpool_init cfg ncpu m1 m2 create = (0, Some (q, n)) ->
  wq_inv q /\ items q = [] /\ shutdown q = false /\
  (1 <= n <= 64)%nat /\ 4 <= capacity q <= MAX_WORK_QUEUE_SIZE.
Proof.
  unfold threadpool_init. intros Hi.
  set (ps := match cfg with Some (n, _) => _ | None => default_pool_size ncpu end) in Hi.
  set (qs := match cfg with Some (_, n) => _ | None => DEFAULT_WORK_QUEUE_SIZE end) in Hi.
  assert (Hps : 1 <= ps <= 64).
  { pose proof (default_pool_size_bounds ncpu). unfold MAX_THREAD_POOL_SIZE in *.
    subst ps. destruct cfg as [[k k2]|]; [|lia].
    destruct ((0 <? k) && (k <=? 64)) eqn:E; bool_to_prop; lia. }
  assert (Hqs : 4 <= qs <= MAX_WORK_QUEUE_SIZE).
  { subst qs. destruct cfg as [[k k2]|]; [|done].
    destruct ((4 <=? k2) && (k2 <=? MAX_WORK_QUEUE_SIZE)) eqn:E; bool_to_prop; [lia|done]. }
  clearbody ps qs. destruct m1; [|done].
  destruct (wq_init_ok qs) as (q2 & Hw & ? & ? & ?); [lia|]. rewrite Hw in Hi.
  destruct (negb m2); [done|]. destruct (forallb create _); [|done]. simplify_eq.
  split_and!; try done; [lia|lia| |]; unfold wq_init in Hw; simplify_eq/=; lia.
Qed.

(** C14: the daemon's thread pool, in every interleaving of the accepting thread
    and the workers: connections are taken in the order they were accepted;
    while one is queued some worker can go on, so no wake-up is lost; and once
    the shutdown is requested the workers stop within a bounded number of steps
    with every accepted connection handled exactly once. *)
Theorem worker_pool_drains cfg ncpu m1 m2 create q0 n (s : pool work_queue_t Z) :
  threadpool_init cfg ncpu m1 m2 create = (0, Some (q0, n)) ->
  reachable (pool_init q0 n) pool_step s ->
  accepted s = started s ++ items (queue s) /\
  (items (queue s) <> [] -> exists t, worker_step s t) /\
  (stopping s = true ->
     (forall k t, nsteps pool_step k s t -> (k <= work s)%nat) /\
     (forall t, rtc pool_step s t -> (forall u, ~ pool_step t u) ->
        Forall (eq Exited) (workers t) /\ handled t ≡ₚ accepted s)).
Proof.
  intros Hi Hr. apply threadpool_init_ok in Hi as (Hq & Hit & Hs & Hn & _).
  destruct (pool_reachable (B:=wq_queue) (T:=wq_task_queue) q0 n s Hq Hit Hs Hr) as [Hinv Hl].
  assert (workers s <> []) by (intros He; rewrite He in Hl; simpl in Hl; lia).
  split; [exact (pi_fifo _ Hinv)|].
  split; [by apply (pool_progress (B:=wq_queue))|intros Hst; by apply shutdown_drains].
Qed.

(** Two workers, one accepted connection, then the shutdown. *)
Definition wq0 : work_queue_t := mk_wq [0; 0; 0; 0] 4 0 0 0 false.
Definition wq1 : work_queue_t := mk_wq [7; 0; 0; 0] 4 0 1 1 false.

Lemma wq1_reachable :
  reachable (pool_init wq0 2) pool_step
    (mk_pool (wq_shutdown wq1) [Ready; Ready] true [7] [] []).
Proof.
  exists (mk_pool wq0 [Ready; Ready] false [] [] []). split; [done|].
  eapply rtc_l; [right; eapply (m_put wq0 _ _ [] [] [] 7 wq1); [done|done|apply signal_none]|].
  { set_solver. }
  apply rtc_once. right. exact (m_stop (T:=wq_task_queue) wq1 [Ready; Ready] [7] [] []).
Qed.

Lemma worker_pool_drains_witness :
  let s := mk_pool (wq_shutdown wq1) [Ready; Ready] true [7] [] [] in
  (exists t, worker_step s t) /\
  (forall t, rtc pool_step s t -> (forall u, ~ pool_step t u) ->
     Forall (eq Exited) (workers t) /\ handled t ≡ₚ [7]).
Proof.
  intros s.
  destruct (worker_pool_drains (Some (2, 4)) 1 true true (fun _ => true) wq0 2 s eq_refl wq1_reachable)
    as (_ & Hp & Hd).
  split; [apply Hp; vm_compute; discriminate|apply Hd; reflexivity].
Defined.
