(* ===== verification/ThreadPool.v ===== *)
(** * The enterprise thread pool (enterprise/sm_threadpool.c)

    A circular queue of tasks whose size can be changed while tasks are
    pending, and its worker threads.  The queue is a [TaskQueue], so the
    protocol theorems of [WorkerPool] hold of it as well. *)

From S2P Require Import Prelude Queue WorkerPool.

(** [dev/core/service_manager/enterprise/sm_threadpool.c:35-39 task_t] A handler and
    a context are addresses, 0 is NULL. *)
Record task_t := mk_task { client_fd : Z; handler : Z; context : Z }.

#[export] Instance task_inhabited : Inhabited task_t := populate (mk_task 0 0 0).

(** [dev/core/service_manager/enterprise/sm_threadpool.c:41-61 threadpool_t] with
    [g_pool_initialized]; [queue_back] is never read or written. *)
Record threadpool_t := mk_tp {
  thread_count : Z;
  tasks : list task_t;
  queue_max_size : Z;
  queue_front : Z;
  queue_used : Z;
  shutdown_requested : bool;
  stats_tasks_processed : Z;
  stats_tasks_dropped : Z;
  initialized : bool
}.

Definition DEFAULT_QUEUE_SIZE : Z := 128.
Definition zero_pool : threadpool_t := mk_tp 0 [] 0 0 0 false 0 0 false.

(** [dev/core/service_manager/enterprise/sm_threadpool.c:23-31 default_worker_count] *)
Definition default_worker_count (ncpu : Z) : Z :=
  let ncpu := if ncpu <? 1 then 1 else ncpu in
  let sz := ncpu * 2 in
  let sz := if sz <? 2 then 2 else sz in
  if 256 <? sz then 256 else sz.

(** [dev/core/service_manager/enterprise/sm_threadpool.c:108-192 sm_threadpool_init]
    [setup]: mutex, condition and both allocations succeed; [create i]: the i-th
    thread starts.  The two failures differ only in what they release. *)
Definition sm_threadpool_init (worker_count queue_max ncpu : Z) (setup : bool)
    (create : nat -> bool) (p : threadpool_t) : Z * threadpool_t :=
  if initialized p then (-1, p)
  else
    let worker_count := if worker_count <=? 0 then default_worker_count ncpu else worker_count in
    let queue_max := if queue_max <=? 0 then DEFAULT_QUEUE_SIZE else queue_max in
    if 256 <? worker_count then (-1, p)
    else if 4096 <? queue_max then (-1, p)
    else if negb setup then (-1, zero_pool)
    else if negb (forallb create (seq 0 (Z.to_nat worker_count))) then (-1, zero_pool)
    else (0, mk_tp worker_count (replicate (Z.to_nat queue_max) (mk_task 0 0 0)) queue_max 0 0
               false 0 0 true).

(** [dev/core/service_manager/enterprise/sm_threadpool.c:194-229 sm_threadpool_submit] *)
Definition sm_threadpool_submit (t : task_t) (p : threadpool_t) : Z * threadpool_t :=
  if negb (initialized p) then (-2, p)
  else if (client_fd t <? 0) || (handler t =? 0) then (-1, p)
  else if queue_max_size p <=? queue_used p then
    (-1, mk_tp (thread_count p) (tasks p) (queue_max_size p) (queue_front p) (queue_used p)
           (shutdown_requested p) (stats_tasks_processed p) (i32 (stats_tasks_dropped p + 1)) true)
  else
    let back_index := c_rem (queue_front p + queue_used p) (queue_max_size p) in
    (0, mk_tp (thread_count p) (<[Z.to_nat back_index := t]> (tasks p)) (queue_max_size p)
          (queue_front p) (queue_used p + 1)
          (shutdown_requested p) (stats_tasks_processed p) (stats_tasks_dropped p) true).

(** [dev/core/service_manager/enterprise/sm_threadpool.c:63-106 worker_thread] the
    region under the mutex: wait, leave the loop, or take the front task. *)
Definition worker_take (p : threadpool_t) : taken threadpool_t task_t :=
  if (queue_used p =? 0) && negb (shutdown_requested p) then Wait
  else if shutdown_requested p && (queue_used p =? 0) then Stop
  else Got (tasks p !!! Z.to_nat (queue_front p))
         (mk_tp (thread_count p) (tasks p) (queue_max_size p)
            (c_rem (queue_front p + 1) (queue_max_size p)) (queue_used p - 1)
            (shutdown_requested p) (i32 (stats_tasks_processed p + 1)) (stats_tasks_dropped p)
            (initialized p)).

(** [dev/core/service_manager/enterprise/sm_threadpool.c:91-99 worker_thread] what the
    worker does with a task outside the mutex: the descriptors it passes to
    the handler and those it closes. *)
Definition worker_run (t : task_t) : list Z * list Z :=
  (if negb (handler t =? 0) && (0 <=? client_fd t) then [client_fd t] else [],
   if 0 <=? client_fd t then [client_fd t] else []).

(** [dev/core/service_manager/enterprise/sm_threadpool.c:231-248 sm_threadpool_get_stats]
    pool size, queue size, queued, processed, dropped. *)
Definition sm_threadpool_get_stats (p : threadpool_t) : Z * Z * Z * Z * Z :=
  if negb (initialized p) then (0, 0, 0, 0, 0)
  else (thread_count p, queue_max_size p, queue_used p, stats_tasks_processed p,
        stats_tasks_dropped p).

(** [dev/core/service_manager/enterprise/sm_threadpool.c:282-285
    sm_threadpool_set_max_queue, the copy loop] *)
Definition copy_tasks (p : threadpool_t) (new_queue : list task_t) : list task_t :=
  fold_left (fun nq i =>
      <[i := tasks p !!! Z.to_nat (c_rem (queue_front p + Z.of_nat i) (queue_max_size p))]> nq)
    (seq 0 (Z.to_nat (queue_used p))) new_queue.

(** [dev/core/service_manager/enterprise/sm_threadpool.c:250-296
    sm_threadpool_set_max_queue] [mem]: the block [malloc] returns, whose
    contents are arbitrary. *)
Definition sm_threadpool_set_max_queue (new_size : Z) (mem : option (list task_t))
    (p : threadpool_t) : Z * threadpool_t :=
  if negb (initialized p) then (-1, p)
  else if (new_size <=? 0) || (4096 <? new_size) then (-1, p)
  else if new_size <? queue_used p then (-1, p)
  else if new_size =? queue_max_size p then (0, p)
  else match mem with
       | None => (-1, p)
       | Some new_queue =>
           (0, mk_tp (thread_count p) (copy_tasks p new_queue) new_size 0 (queue_used p)
                 (shutdown_requested p) (stats_tasks_processed p) (stats_tasks_dropped p) true)
       end.

(** [dev/core/service_manager/enterprise/sm_threadpool.c:298-318 sm_threadpool_shutdown]
    up to the joins, which wait for the workers without a time limit. *)
Definition sm_threadpool_shutdown (p : threadpool_t) : threadpool_t :=
  if negb (initialized p) then p
  else mk_tp (thread_count p) (tasks p) (queue_max_size p) (queue_front p) (queue_used p) true
         (stats_tasks_processed p) (stats_tasks_dropped p) true.

(** [dev/core/service_manager/enterprise/sm_threadpool.c:320-348
    sm_threadpool_force_shutdown] the region under the mutex, and what is left
    after the joins. *)
Definition force_request (p : threadpool_t) : threadpool_t :=
  if negb (initialized p) then p
  else mk_tp (thread_count p) (tasks p) (queue_max_size p) (queue_front p) 0 true
         (stats_tasks_processed p) (stats_tasks_dropped p) true.
Definition force_release (p : threadpool_t) : threadpool_t :=
  if negb (initialized p) then p else zero_pool.

(** ** The pool's queue is a task queue *)

Definition pending (p : threadpool_t) : list task_t :=
  ring_contents (tasks p) (Z.to_nat (queue_front p)) (Z.to_nat (queue_used p)).

Definition task_ok (t : task_t) : Prop := 0 <= client_fd t /\ handler t <> 0.

Record tp_inv (p : threadpool_t) : Prop := {
  tp_init : initialized p = true;
  tp_max : 0 < queue_max_size p <= 4096;
  tp_tasks : length (tasks p) = Z.to_nat (queue_max_size p);
  tp_front : 0 <= queue_front p < queue_max_size p;
  tp_used : 0 <= queue_used p <= queue_max_size p;
  tp_ok : Forall task_ok (pending p);
}.

#[local] Arguments sm_threadpool_submit : simpl never.
#[local] Arguments worker_take : simpl never.

#[export] Instance tp_queue : BoundedQueue threadpool_t task_t := {|
  bq_inv := tp_inv;
  bq_ok := fun _ t => task_ok t;
  bq_items := pending;
  bq_bound := fun p => Z.to_nat (queue_max_size p);
  bq_push := fun t p => let '(ret, p') := sm_threadpool_submit t p in
               if ret =? 0 then Some p' else None;
  bq_pop := fun p => match worker_take p with Got t p' => Some (t, p') | _ => None end
|}.

#[export] Instance tp_task_queue : TaskQueue threadpool_t task_t := {|
  tq_stopped := shutdown_requested;
  tq_stop := sm_threadpool_shutdown;
  tq_reject := fun p =>
    mk_tp (thread_count p) (tasks p) (queue_max_size p) (queue_front p) (queue_used p)
      (shutdown_requested p) (stats_tasks_processed p) (i32 (stats_tasks_dropped p + 1))
      (initialized p);
  tq_take := worker_take
|}.

Lemma length_pending p : length (pending p) = Z.to_nat (queue_used p).
Proof. apply length_ring_contents. Qed.

Lemma submit_room p t : tp_inv p -> task_ok t -> queue_used p < queue_max_size p ->
  exists p', sm_threadpool_submit t p = (0, p') /\ tp_inv p' /\ pending p' = pending p ++ [t] /\
    queue_max_size p' = queue_max_size p /\ shutdown_requested p' = shutdown_requested p.
Proof.
  intros [Hi Hm Hl Hf Hu Hok] [Hfd Hh] Hroom. eexists. split.
  { unfold sm_threadpool_submit. rewrite Hi. cbn [negb].
    destruct (Z.ltb_spec (client_fd t) 0); [lia|]. destruct (Z.eqb_spec (handler t) 0); [done|].
    cbn [orb]. destruct (Z.leb_spec (queue_max_size p) (queue_used p)); [lia|]. done. }
  set (p' := mk_tp _ _ _ _ _ _ _ _ _).
  assert (Hit : pending p' = pending p ++ [t]).
  { unfold pending, p'. simpl. rewrite <- (ring_contents_push (tasks p)) by lia.
    rewrite Hl, Z.rem_mod_nonneg by lia. f_equal; [|lia].
    f_equal. rewrite Z2Nat.inj_mod, Z2Nat.inj_add by lia. done. }
  split_and!; try done. constructor; simpl; try done; try lia.
  - by rewrite length_insert.
  - rewrite Hit. apply Forall_app. split; [done|by constructor].
Qed.

Lemma submit_full p t : tp_inv p -> task_ok t -> queue_used p = queue_max_size p ->
  sm_threadpool_submit t p = (-1, tq_reject p).
Proof.
  intros Hi [Hfd Hh] Hfull. unfold sm_threadpool_submit, tq_reject, tp_task_queue.
  rewrite (tp_init _ Hi). cbn [negb].
  destruct (Z.ltb_spec (client_fd t) 0); [lia|]. destruct (Z.eqb_spec (handler t) 0); [done|].
  cbn [orb]. destruct (Z.leb_spec (queue_max_size p) (queue_used p)); [done|lia].
Qed.

Lemma take_task p t p' : tp_inv p -> worker_take p = Got t p' ->
  tp_inv p' /\ pending p = t :: pending p' /\ queue_max_size p' = queue_max_size p /\
  shutdown_requested p' = shutdown_requested p.
Proof.
  intros [Hi Hm Hl Hf Hu Hok]. unfold worker_take.
  destruct (Z.eqb_spec (queue_used p) 0) as [|Hne]; [by destruct (shutdown_requested p)|].
  rewrite andb_false_r. simpl. intros; simplify_eq. set (p' := mk_tp _ _ _ _ _ _ _ _ _).
  assert (Hr : c_rem (queue_front p + 1) (queue_max_size p) = (queue_front p + 1) mod queue_max_size p)
    by (apply Z.rem_mod_nonneg; lia).
  assert (Hit : pending p = tasks p !!! Z.to_nat (queue_front p) :: pending p').
  { unfold pending at 1. replace (Z.to_nat (queue_used p)) with (S (Z.to_nat (queue_used p - 1))) by lia.
    rewrite ring_contents_pop by (intros ?%(f_equal length); simpl in *; lia).
    rewrite Nat.mod_small by lia. f_equal. unfold pending, p'. simpl. f_equal.
    rewrite Hr, Hl, Z2Nat.inj_mod, Z2Nat.inj_add by lia. done. }
  rewrite Hit in Hok. apply Forall_cons in Hok as [Ht Hok].
  split_and!; try done. constructor; simpl; try done; try lia.
  rewrite Hr. apply Z.mod_pos_bound. lia.
Qed.

Lemma take_none p : queue_used p = 0 ->
  worker_take p = if shutdown_requested p then Stop else Wait.
Proof. intros H. unfold worker_take. rewrite H. by destruct (shutdown_requested p). Qed.

Lemma take_front p : queue_used p <> 0 -> exists t p', worker_take p = Got t p'.
Proof.
  intros H%Z.eqb_neq. unfold worker_take. rewrite H, andb_false_r. simpl. eauto.
Qed.

#[export] Instance tp_queue_laws : BoundedQueueLaws threadpool_t task_t.
Proof.
  constructor; simpl.
  - intros p Hi. rewrite length_pending. pose proof (tp_used _ Hi). lia.
  - intros p t p' Hi Ht Hp. pose proof (tp_used _ Hi).
    destruct (decide (queue_used p < queue_max_size p)).
    + destruct (submit_room p t) as (p2 & Hs & ? & ? & Hm & _); [done..|].
      rewrite Hs in Hp. simpl in Hp. simplify_eq. by rewrite Hm.
    + rewrite submit_full in Hp by (done || lia). done.
  - intros p t Hi Ht. rewrite length_pending. pose proof (tp_used _ Hi).
    destruct (decide (queue_used p < queue_max_size p)).
    + destruct (submit_room p t) as (p2 & -> & _); [done..|]. simpl. split; [done|lia].
    + rewrite submit_full by (done || lia). simpl. split; [lia|done].
  - intros p t p' Hi Hp. destruct (worker_take p) as [| |t2 p2] eqn:Hw; try done. simplify_eq.
    apply take_task in Hw as (? & ? & Hm & _); [|done]. by rewrite Hm.
  - intros p Hi. rewrite <- length_zero_iff_nil, length_pending. pose proof (tp_used _ Hi).
    destruct (decide (queue_used p = 0)).
    + rewrite take_none by done. destruct (shutdown_requested p); split; (done || lia).
    + destruct (take_front p) as (t & p2 & ->); [done|]. split; [done|lia].
Qed.

#[export] Instance tp_task_queue_laws : TaskQueueLaws threadpool_t task_t.
Proof.
  constructor; simpl; [apply _|..].
  - intros p Hi. destruct (decide (queue_used p = 0)).
    + rewrite take_none by done. by destruct (shutdown_requested p).
    + by destruct (take_front p) as (t & p2 & ->).
  - intros p t p' Hi Hp. destruct (worker_take p) as [| |t2 p2] eqn:Hw; try done. simplify_eq.
    by apply take_task in Hw as (_ & _ & _ & ?).
  - intros p t p' Hi. unfold sm_threadpool_submit. by repeat case_match; intros; simplify_eq.
  - intros p Hi. unfold sm_threadpool_shutdown. rewrite (tp_init _ Hi). simpl.
    by destruct Hi; split_and!.
  - intros p [? ? ? ? ? ?]. by split_and!.
Qed.

(** ** Starting, resizing, draining *)

Lemma pool_started wc qm ncpu setup create p p' :
  sm_threadpool_init wc qm ncpu setup create p = (0, p') ->
  tp_inv p' /\ pending p' = [] /\ shutdown_requested p' = false /\ 0 < thread_count p' <= 256.
Proof.
  unfold sm_threadpool_init. destruct (initialized p); [done|]. cbv zeta.
  assert (Hd : 0 < (if wc <=? 0 then default_worker_count ncpu else wc)).
  { destruct (Z.leb_spec wc 0); [|done]. unfold default_worker_count. cbv zeta.
    destruct (_ <? 2) eqn:E; [by vm_compute|]. destruct (256 <? _); bool_to_prop; lia. }
  set (n := if wc <=? 0 then _ else wc) in *. clearbody n.
  assert (Hq : 0 < (if qm <=? 0 then DEFAULT_QUEUE_SIZE else qm))
    by (destruct (Z.leb_spec qm 0); [done|lia]).
  set (m := if qm <=? 0 then _ else qm) in *. clearbody m.
  destruct (Z.ltb_spec 256 n); [done|]. destruct (Z.ltb_spec 4096 m); [done|].
  destruct (negb setup); [done|]. destruct (negb _); [done|]. intros; simplify_eq.
  split_and!; try done; simpl; try lia. constructor; simpl; try done; try lia.
  by rewrite length_replicate.
Qed.

Lemma copy_pending p block : tp_inv p -> queue_used p <= Z.of_nat (length block) ->
  ring_contents (copy_tasks p block) 0 (Z.to_nat (queue_used p)) = pending p /\
  length (copy_tasks p block) = length block.
Proof.
  intros [Hi Hm Hl Hf Hu Hok] Hb. unfold copy_tasks.
  edestruct (fill_take (fun i => tasks p !!! Z.to_nat (c_rem (queue_front p + Z.of_nat i)
    (queue_max_size p))) block (Z.to_nat (queue_used p))) as [Ht Hlen]; [lia|].
  split; [|done]. rewrite ring_contents_0 by (rewrite Hlen; lia). rewrite Ht.
  unfold pending, ring_contents, ring_slots. rewrite <- list_fmap_compose.
  apply list_fmap_ext. intros _ i _. simpl. f_equal. rewrite Z.rem_mod_nonneg by lia.
  rewrite Hl, Z2Nat.inj_mod, Z2Nat.inj_add, Nat2Z.id by lia. done.
Qed.

(** Changing the queue size while tasks are pending loses, duplicates and
    reorders none of them, whatever their position in the old array and
    whatever the new block contains; it is refused exactly when the size is
    out of range, smaller than the number of pending tasks, or no memory is
    left for a different size. *)
Theorem resize_keeps_tasks new_size mem p : tp_inv p ->
  (forall block, mem = Some block -> Z.of_nat (length block) = new_size) ->
  let '(rc, p') := sm_threadpool_set_max_queue new_size mem p in
  tp_inv p' /\ pending p' = pending p /\ shutdown_requested p' = shutdown_requested p /\
  (rc = 0 -> queue_max_size p' = new_size) /\
  (rc = -1 -> p' = p) /\
  (rc = 0 <-> 0 < new_size <= 4096 /\ Z.of_nat (length (pending p)) <= new_size /\
              (new_size = queue_max_size p \/ mem <> None)).
Proof.
  intros Hi Hm. unfold sm_threadpool_set_max_queue. rewrite (tp_init _ Hi), length_pending.
  pose proof (tp_used _ Hi). cbn [negb].
  destruct (Z.leb_spec new_size 0); cbn [orb]; [split_and!; (done || lia)|].
  destruct (Z.ltb_spec 4096 new_size); [split_and!; (done || lia)|].
  destruct (Z.ltb_spec new_size (queue_used p)); [split_and!; (done || lia)|].
  destruct (Z.eqb_spec new_size (queue_max_size p)) as [->|Hne].
  { split_and!; try done. split; [|done]. intros _. split_and!; lia. }
  destruct mem as [block|]; [|split_and!; try done; naive_solver].
  specialize (Hm block eq_refl). destruct (copy_pending p block) as [Hc Hl]; [done|lia|].
  split_and!; try done.
  - constructor; simpl; try done; try lia.
    change (pending _) with (ring_contents (copy_tasks p block) 0 (Z.to_nat (queue_used p))).
    rewrite Hc. apply Hi.
  - split; [|done]. intros _. split_and!; try lia. by right.
Qed.

(** The protocol theorem for this pool. *)
Lemma threadpool_drains wc qm ncpu setup create p p0 (s : pool threadpool_t task_t) :
  sm_threadpool_init wc qm ncpu setup create p = (0, p0) ->
  reachable (pool_init p0 (Z.to_nat (thread_count p0))) pool_step s ->
  accepted s = started s ++ pending (queue s) /\
  (pending (queue s) <> [] -> exists t, worker_step s t) /\
  (stopping s = true ->
     (forall k t, nsteps pool_step k s t -> (k <= work s)%nat) /\
     (forall t, rtc pool_step s t -> (forall u, ~ pool_step t u) ->
        Forall (eq Exited) (workers t) /\ handled t ≡ₚ accepted s)).
Proof.
  intros Hi Hr. apply pool_started in Hi as (Hq & Hit & Hs & Hn).
  destruct (pool_reachable (B:=tp_queue) (T:=tp_task_queue) p0 _ s Hq Hit Hs Hr) as [Hinv Hl].
  assert (workers s <> []) by (intros He; rewrite He in Hl; simpl in Hl; lia).
  split; [exact (pi_fifo _ Hinv)|].
  split; [by apply (pool_progress (B:=tp_queue))|intros Hst; by apply shutdown_drains].
Qed.

(** The pool still accepts a task after a graceful shutdown, when its workers
    are gone and nobody will run it: nothing tests the request in [submit]. *)
Lemma submit_after_shutdown p t : tp_inv p -> task_ok t -> queue_used p < queue_max_size p ->
  exists p', sm_threadpool_submit t (sm_threadpool_shutdown p) = (0, p') /\
    shutdown_requested p' = true /\ t ∈ pending p'.
Proof.
  intros Hi Ht Hroom. destruct (tq_stop_spec (T:=tp_task_queue) p Hi) as (Hi' & Hp & Hs). simpl in *.
  destruct (submit_room (sm_threadpool_shutdown p) t) as (p' & Hsub & _ & Hit & _ & Hsd); try done.
  { unfold sm_threadpool_shutdown. by rewrite (tp_init _ Hi). }
  exists p'. split_and!; [done|congruence|]. rewrite Hit. set_solver.
Qed.

(** ** Witnesses *)

(** Three places, two tasks, the second one wrapped around. *)
Definition tp1 : threadpool_t :=
  mk_tp 2 [mk_task 9 1 0; mk_task 0 0 0; mk_task 8 1 0] 3 2 2 false 5 0 true.

Lemma tp1_inv : tp_inv tp1.
Proof. constructor; simpl; try done; try lia. by repeat constructor. Qed.

Lemma resize_keeps_tasks_witness :
  tp_inv (sm_threadpool_set_max_queue 5 (Some (replicate 5 (mk_task 7 7 7))) tp1).2 /\
  pending (sm_threadpool_set_max_queue 5 (Some (replicate 5 (mk_task 7 7 7))) tp1).2 =
    [mk_task 8 1 0; mk_task 9 1 0].
Proof.
  assert (Hb : forall b, Some (replicate 5 (mk_task 7 7 7)) = Some b -> Z.of_nat (length b) = 5)
    by (intros b [= <-]; done).
  pose proof (resize_keeps_tasks 5 _ tp1 tp1_inv Hb) as H.
  split; [exact (proj1 H)|exact (proj1 (proj2 H))].
Defined.
