(* ===== verification/RingBuffer.v ===== *)
(** * dev/core/ring_buffer.c: the shared-memory ring buffer

    [ring_buffer_t] is the structure both processes map; the byte area [data]
    is modelled byte by byte, so that slot offsets are computed as the C code
    computes them.  A capacity of [n] holds at most [n - 1] items. *)

From S2P Require Import Prelude Queue.

(** [dev/core/ring_buffer.h:8-16 RING_BUFFER_MAX_CAPACITY] *)
Definition RING_BUFFER_MAX_CAPACITY : Z := 1024.
Definition RING_BUFFER_MAX_ITEM_SIZE : Z := 4096.
Definition RB_SUCCESS : Z := 0.
Definition RB_ERROR_FULL : Z := -1.
Definition RB_ERROR_EMPTY : Z := -2.
Definition RB_ERROR_INIT : Z := -3.

(** [dev/core/ring_buffer.h:21-29 ring_buffer_t] *)
Record ring_buffer_t := mk_rb {
  head : Z;
  tail : Z;
  capacity : Z;
  item_size : Z;
  data : list Z
}.

Definition set_head (rb : ring_buffer_t) (v : Z) : ring_buffer_t :=
  mk_rb v (tail rb) (capacity rb) (item_size rb) (data rb).
Definition set_tail (rb : ring_buffer_t) (v : Z) : ring_buffer_t :=
  mk_rb (head rb) v (capacity rb) (item_size rb) (data rb).
Definition set_data (rb : ring_buffer_t) (d : list Z) : ring_buffer_t :=
  mk_rb (head rb) (tail rb) (capacity rb) (item_size rb) d.

(** [dev/core/ring_buffer.c:14-17 total_size] [sizeof(ring_buffer_t)] is two
    padded cache lines and two [uint32_t]. *)
Definition sizeof_ring_buffer_t : Z := 64 + 64 + 4 + 4.
Definition total_size (cap isz : Z) : Z := u64 (sizeof_ring_buffer_t + cap * isz).

(** ** Named shared memory

    The kernel's shm objects: an object lives as long as somebody maps it,
    whatever happens to its name.  The answers of the system calls are inputs. *)

Record shm := mk_shm {
  objs : gmap nat ring_buffer_t;   (** shm objects *)
  names : gmap string nat;         (** directory entries *)
  next_obj : nat
}.

(** [dev/core/ring_buffer.h:33-37 rb_handle_t] *)
Record rb_handle_t := mk_handle {
  rb : nat;                        (** the mapped object *)
  notify_fd : Z;
  h_total_size : Z
}.

Definition shm_unlink (name : string) (m : shm) : shm :=
  mk_shm (objs m) (delete name (names m)) (next_obj m).

(** What the system calls of one [ring_buffer_create] answer. *)
Record os_answers := mk_os {
  os_shm_open : bool;      (** the exclusive open, EEXIST apart *)
  os_shm_open2 : bool;     (** the second open, after EEXIST *)
  os_ftruncate : bool; os_mmap : bool;
  os_malloc : bool; os_eventfd : Z
}.

(** [dev/core/ring_buffer.c:19-34 make_handle] *)
Definition make_handle (o : os_answers) (r : nat) (sz : Z) : option rb_handle_t :=
  if negb (os_malloc o) then None
  else if os_eventfd o =? -1 then None
  else Some (mk_handle r (os_eventfd o) sz).

(** [dev/core/ring_buffer.c:36-71 ring_buffer_create] *)
Definition ring_buffer_create (o : os_answers) (m : shm) (name : option string)
    (cap isz : Z) : option rb_handle_t * shm :=
  match name with
  | None => (None, m)
  | Some nm =>
      if (cap =? 0) || (isz =? 0) then (None, m)
      else if RING_BUFFER_MAX_CAPACITY <? cap then (None, m)
      else if RING_BUFFER_MAX_ITEM_SIZE <? isz then (None, m)
      else
        let sz := total_size cap isz in
        (* an existing name is unlinked first; the old object survives in the
           processes that still map it *)
        let exists_ := bool_decide (is_Some (names m !! nm)) in
        let m1 := if exists_ then shm_unlink nm m else m in
        if exists_ && negb (os_shm_open2 o) then (None, m1)
        else if negb exists_ && negb (os_shm_open o) then (None, m1)
        else if negb (os_ftruncate o) then (None, m1)
        else if negb (os_mmap o) then (None, m1)
        else
          match make_handle o (next_obj m1) sz with
          | None => (None, m1)
          | Some h =>
              let r := mk_rb 0 0 cap isz (replicate (Z.to_nat (cap * isz)) 0) in
              (Some h, mk_shm (<[next_obj m1 := r]> (objs m1))
                              (<[nm := next_obj m1]> (names m1)) (S (next_obj m1)))
          end
  end.

(** [dev/core/ring_buffer.c:73-99 ring_buffer_attach] *)
Definition ring_buffer_attach (o : os_answers) (m : shm) (name : string)
    : option rb_handle_t :=
  match names m !! name with
  | None => None
  | Some r =>
      match objs m !! r with
      | None => None
      | Some b =>
          if negb (os_mmap o) then None
          else make_handle o r (total_size (capacity b) (item_size b))
      end
  end.

(** [dev/core/ring_buffer.c:168-178 ring_buffer_destroy] The mapping and the
    handle go away; with a name, so does the directory entry. *)
Definition ring_buffer_destroy (m : shm) (h : option rb_handle_t) (name : option string)
    : option rb_handle_t * shm :=
  match h with
  | None => (None, m)
  | Some _ => (None, match name with Some nm => shm_unlink nm m | None => m end)
  end.

(** [dev/core/ring_buffer.c:160-166 ring_buffer_detach] *)
Definition ring_buffer_detach (h : option rb_handle_t) : option rb_handle_t :=
  match h with None => None | Some _ => None end.

(** ** Operations on the mapped ring

    [h = None] is the NULL handle; a handle stands for the ring it maps.
    The third component of a write is what is added to the handle's own
    eventfd. *)

(** [dev/core/ring_buffer.c:101-118 ring_buffer_write] *)
Definition ring_buffer_write (h : option ring_buffer_t) (item : option (list Z))
    : Z * option ring_buffer_t * Z :=
  match h, item with
  | Some b, Some it =>
      let hd := head b in
      let next_head := u32 (hd + 1) mod capacity b in
      let tl := tail b in
      if next_head =? tl then (RB_ERROR_FULL, h, 0)
      else
        let d := splice (Z.to_nat (hd * item_size b))
                        (take (Z.to_nat (item_size b)) it) (data b) in
        (RB_SUCCESS, Some (set_head (set_data b d) next_head), 1)
  | _, _ => (RB_ERROR_INIT, h, 0)
  end.

(** [dev/core/ring_buffer.c:120-134 ring_buffer_read] [out] is the caller's
    buffer; the bytes read are returned in its place. *)
Definition ring_buffer_read (h : option ring_buffer_t) (out : bool)
    : Z * option ring_buffer_t * list Z :=
  match h with
  | Some b =>
      if negb out then (RB_ERROR_INIT, h, [])
      else
        let tl := tail b in
        let hd := head b in
        if tl =? hd then (RB_ERROR_EMPTY, h, [])
        else
          let item := take (Z.to_nat (item_size b))
                           (drop (Z.to_nat (tl * item_size b)) (data b)) in
          (RB_SUCCESS, Some (set_tail b (u32 (tl + 1) mod capacity b)), item)
  | None => (RB_ERROR_INIT, h, [])
  end.

(** [dev/core/ring_buffer.c:136-142 ring_buffer_is_full] *)
Definition ring_buffer_is_full (h : option ring_buffer_t) : bool :=
  match h with
  | None => true
  | Some b => (u32 (head b + 1) mod capacity b) =? tail b
  end.

(** [dev/core/ring_buffer.c:144-150 ring_buffer_is_empty] *)
Definition ring_buffer_is_empty (h : option ring_buffer_t) : bool :=
  match h with
  | None => true
  | Some b => head b =? tail b
  end.

(** [dev/core/ring_buffer.c:152-158 ring_buffer_count] *)
Definition ring_buffer_count (h : option ring_buffer_t) : Z :=
  match h with
  | None => 0
  | Some b =>
      if tail b <=? head b then u32 (head b - tail b)
      else u32 (u32 (capacity b - tail b) + head b)
  end.

(** ** Representation invariant and contents *)

Definition ncap (b : ring_buffer_t) : nat := Z.to_nat (capacity b).
Definition nisz (b : ring_buffer_t) : nat := Z.to_nat (item_size b).
Definition nhead (b : ring_buffer_t) : nat := Z.to_nat (head b).
Definition ntail (b : ring_buffer_t) : nat := Z.to_nat (tail b).

Record rb_inv (b : ring_buffer_t) : Prop := {
  inv_cap : 0 < capacity b <= RING_BUFFER_MAX_CAPACITY;
  inv_isz : 0 < item_size b <= RING_BUFFER_MAX_ITEM_SIZE;
  inv_head : 0 <= head b < capacity b;
  inv_tail : 0 <= tail b < capacity b;
  inv_data : length (data b) = (ncap b * nisz b)%nat
}.

(** Items between tail and head, oldest first. *)
Definition contents (b : ring_buffer_t) : list (list Z) :=
  (fun i => slot (nisz b) i (data b)) <$>
    ring_slots (ncap b) (ntail b) (ring_dist (ncap b) (ntail b) (nhead b)).

Lemma length_contents b :
  length (contents b) = ring_dist (ncap b) (ntail b) (nhead b).
Proof. unfold contents. by rewrite length_fmap, length_ring_slots. Qed.

(** The C index step is the abstract one. *)
Lemma next_index b i :
  rb_inv b -> 0 <= i < capacity b ->
  0 <= u32 (i + 1) mod capacity b < capacity b /\
  Z.to_nat (u32 (i + 1) mod capacity b) = ((Z.to_nat i + 1) mod ncap b)%nat.
Proof.
  intros [Hc _ _ _ _] Hi. unfold RING_BUFFER_MAX_CAPACITY in Hc.
  rewrite wrap_small by lia. split; [apply Z.mod_pos_bound; lia|].
  rewrite Z2Nat.inj_mod by lia. unfold ncap. f_equal. lia.
Qed.

Lemma ring_full_dist cap tail head :
  (tail < cap)%nat -> (head < cap)%nat ->
  ((head + 1) mod cap)%nat = tail <-> ring_dist cap tail head = (cap - 1)%nat.
Proof.
  intros Ht Hh. split.
  - intros He. apply (mod_inj cap (tail + 1)); [apply ring_dist_lt; lia|lia|].
    replace (tail + 1 + ring_dist cap tail head)%nat
      with (tail + ring_dist cap tail head + 1)%nat by lia.
    rewrite <- Nat.Div0.add_mod_idemp_l, ring_dist_head, He by done.
    replace (tail + 1 + (cap - 1))%nat with (tail + 1 * cap)%nat by lia.
    rewrite Nat.Div0.mod_add. symmetry. by apply Nat.mod_small.
  - intros He. rewrite <- (ring_dist_head cap tail head), He by done.
    rewrite Nat.Div0.add_mod_idemp_l.
    replace (tail + (cap - 1) + 1)%nat with (tail + 1 * cap)%nat by lia.
    rewrite Nat.Div0.mod_add. by apply Nat.mod_small.
Qed.

Lemma nhead_lt b : rb_inv b -> (nhead b < ncap b)%nat.
Proof. intros [? _ ? _ _]. unfold nhead, ncap. lia. Qed.
Lemma ntail_lt b : rb_inv b -> (ntail b < ncap b)%nat.
Proof. intros [? _ _ ? _]. unfold ntail, ncap. lia. Qed.
#[export] Hint Resolve nhead_lt ntail_lt : ring.

(** Publishing [it] in the head slot appends it to the contents. *)
Lemma publish_contents b d hd' :
  rb_inv b -> length d = length (data b) ->
  hd' = u32 (head b + 1) mod capacity b -> hd' <> tail b ->
  (forall j, j <> nhead b -> slot (nisz b) j d = slot (nisz b) j (data b)) ->
  let b' := set_head (set_data b d) hd' in
  rb_inv b' /\ contents b' = contents b ++ [slot (nisz b) (nhead b) d].
Proof.
  intros Hinv Hd -> Hne Hslots b'.
  pose proof (next_index b (head b) Hinv (inv_head _ Hinv)) as [Hr Hn].
  pose proof (nhead_lt b Hinv). pose proof (ntail_lt b Hinv).
  set (n := ring_dist (ncap b) (ntail b) (nhead b)) in *.
  assert (Hhead : nhead b = ((ntail b + n) mod ncap b)%nat)
    by (symmetry; by apply ring_dist_head).
  assert (Hnf : n <> (ncap b - 1)%nat).
  { intros Hn'. apply ring_full_dist in Hn'; [|done..]. apply Hne.
    apply Z2Nat.inj; [lia|apply (inv_tail _ Hinv)|]. rewrite Hn. exact Hn'. }
  pose proof (ring_dist_lt (ncap b) (ntail b) (nhead b)) as Hlt.
  assert (Hdist : ring_dist (ncap b) (ntail b) (nhead b') = S n).
  { change (nhead b') with (Z.to_nat (u32 (head b + 1) mod capacity b)).
    rewrite Hn. change (Z.to_nat (head b)) with (nhead b). rewrite Hhead.
    rewrite Nat.Div0.add_mod_idemp_l. rewrite <- Nat.add_assoc.
    rewrite ring_dist_add by lia. lia. }
  split.
  - destruct Hinv as [? ? ? ? ?]. constructor; simpl; try done.
    unfold ncap, nisz in *. simpl in *. lia.
  - unfold contents. change (ncap b') with (ncap b). change (nisz b') with (nisz b).
    change (ntail b') with (ntail b). change (data b') with d.
    rewrite Hdist. fold n. rewrite ring_slots_S_r, fmap_app. f_equal.
    + apply list_fmap_ext. intros i j Hj. apply Hslots.
      rewrite Hhead. intros ->.
      apply (ring_slots_fresh (ncap b) (ntail b) n); [lia|].
      by eapply list_elem_of_lookup_2.
    + simpl. by rewrite <- Hhead.
Qed.

(** Advancing the tail drops the oldest item. *)
Lemma consume_contents b :
  rb_inv b -> tail b <> head b ->
  let b' := set_tail b (u32 (tail b + 1) mod capacity b) in
  rb_inv b' /\ contents b = slot (nisz b) (ntail b) (data b) :: contents b'.
Proof.
  intros Hinv Hne b'.
  pose proof (next_index b (tail b) Hinv (inv_tail _ Hinv)) as [Hr Hn].
  pose proof (nhead_lt b Hinv) as Hh. pose proof (ntail_lt b Hinv) as Ht.
  unfold contents.
  set (n := ring_dist (ncap b) (ntail b) (nhead b)).
  pose proof (ring_dist_head (ncap b) (ntail b) (nhead b) Ht Hh) as Hhead. fold n in Hhead.
  assert (Hlt : (n < ncap b)%nat) by (apply ring_dist_lt; lia).
  assert (n <> 0)%nat as Hn0.
  { intros Hz. rewrite Hz, Nat.add_0_r, Nat.mod_small in Hhead by lia.
    apply Hne. destruct Hinv. unfold ntail, nhead in Hhead. lia. }
  clearbody n. destruct n as [|n]; [done|].
  assert (Hdist : ring_dist (ncap b) (ntail b') (nhead b) = n).
  { change (ntail b') with (Z.to_nat (u32 (tail b + 1) mod capacity b)).
    rewrite Hn. change (Z.to_nat (tail b)) with (ntail b).
    rewrite <- Hhead. replace (ntail b + S n)%nat with (ntail b + 1 + n)%nat by lia.
    rewrite <- (Nat.Div0.add_mod_idemp_l (ntail b + 1)).
    apply ring_dist_add; [apply Nat.mod_upper_bound; lia|lia]. }
  split.
  - destruct Hinv as [? ? ? ? ?]. constructor; simpl; try done; lia.
  - change (nhead b') with (nhead b). change (ncap b') with (ncap b).
    change (nisz b') with (nisz b). change (data b') with (data b).
    rewrite Hdist. rewrite ring_slots_S_l by lia. simpl.
    change (ntail b') with (Z.to_nat (u32 (tail b + 1) mod capacity b)).
    rewrite Hn. change (Z.to_nat (tail b)) with (ntail b).
    by rewrite (Nat.mod_small (ntail b)) by lia.
Qed.

Lemma slot_offset b i : rb_inv b -> 0 <= i ->
  Z.to_nat (i * item_size b) = (Z.to_nat i * nisz b)%nat.
Proof. intros [_ ? _ _ _] ?. rewrite Z2Nat.inj_mul by lia. done. Qed.

Lemma slot_in_data b i : rb_inv b -> (i < ncap b)%nat ->
  ((i + 1) * nisz b <= length (data b))%nat.
Proof. intros [_ _ _ _ ->] ?. nia. Qed.

(** ** The ring buffer is a bounded queue of [capacity - 1] items *)

#[export] Instance ring_queue : BoundedQueue ring_buffer_t (list Z) := {|
  bq_inv := rb_inv;
  bq_ok := fun b it => length it = nisz b;
  bq_items := contents;
  bq_bound := fun b => (ncap b - 1)%nat;
  bq_push := fun it b =>
    match ring_buffer_write (Some b) (Some it) with
    | (ret, Some b', _) => if ret =? RB_SUCCESS then Some b' else None
    | _ => None
    end;
  bq_pop := fun b =>
    match ring_buffer_read (Some b) true with
    | (ret, Some b', it) => if ret =? RB_SUCCESS then Some (it, b') else None
    | _ => None
    end
|}.

Lemma full_test b : rb_inv b ->
  (u32 (head b + 1) mod capacity b =? tail b) = true <->
  length (contents b) = (ncap b - 1)%nat.
Proof.
  intros Hinv. rewrite length_contents.
  rewrite <- ring_full_dist by auto with ring.
  pose proof (next_index b (head b) Hinv (inv_head _ Hinv)) as [Hr Hn].
  rewrite Z.eqb_eq. split; intros He.
  - apply (f_equal Z.to_nat) in He. rewrite Hn in He. exact He.
  - apply Z2Nat.inj; [lia|apply (inv_tail _ Hinv)|]. rewrite Hn. exact He.
Qed.

Lemma empty_test b : rb_inv b -> (tail b =? head b) = true <-> contents b = [].
Proof.
  intros Hinv. rewrite Z.eqb_eq. split; intros He.
  - apply nil_length_inv. rewrite length_contents. unfold ring_dist, ntail, nhead.
    rewrite He. replace (Z.to_nat (head b) + ncap b - Z.to_nat (head b))%nat
      with (ncap b) by lia. apply Nat.Div0.mod_same.
  - destruct (decide (tail b = head b)) as [|Hne]; [done|].
    destruct (consume_contents b Hinv Hne) as [_ Hc]. rewrite He in Hc. done.
Qed.

(** The four outcomes of the two operations, on the byte level. *)
Lemma write_full b it : rb_inv b -> length (contents b) = (ncap b - 1)%nat ->
  ring_buffer_write (Some b) (Some it) = (RB_ERROR_FULL, Some b, 0).
Proof. intros Hi Hl. apply full_test in Hl; [|done]. simpl. by rewrite Hl. Qed.

Lemma write_ok b it :
  rb_inv b -> length it = nisz b -> length (contents b) <> (ncap b - 1)%nat ->
  exists b', ring_buffer_write (Some b) (Some it) = (RB_SUCCESS, Some b', 1) /\
    rb_inv b' /\ contents b' = contents b ++ [it] /\
    ncap b' = ncap b /\ nisz b' = nisz b.
Proof.
  intros Hinv Hok Hl. rewrite <- full_test in Hl by done.
  apply not_true_is_false in Hl. simpl. rewrite Hl. eexists. split; [done|].
  pose proof (nhead_lt b Hinv). pose proof (slot_in_data b (nhead b) Hinv).
  rewrite take_ge by (unfold nisz in Hok; lia).
  rewrite slot_offset by (try apply Hinv; done).
  change (Z.to_nat (head b)) with (nhead b). apply Z.eqb_neq in Hl.
  destruct (publish_contents b (splice (nhead b * nisz b) it (data b))
    (u32 (head b + 1) mod capacity b) Hinv) as [Hi Hc]; try done.
  - apply length_splice. lia.
  - intros j Hj. apply slot_splice_ne with (i := nhead b); lia.
  - split; [exact Hi|]. rewrite Hc. by rewrite slot_splice_eq by lia.
Qed.

Lemma read_empty b : rb_inv b -> contents b = [] ->
  ring_buffer_read (Some b) true = (RB_ERROR_EMPTY, Some b, []).
Proof. intros Hi Hl. apply empty_test in Hl; [|done]. simpl. by rewrite Hl. Qed.

Lemma read_ok b : rb_inv b -> contents b <> [] ->
  exists b' it, ring_buffer_read (Some b) true = (RB_SUCCESS, Some b', it) /\
    rb_inv b' /\ contents b = it :: contents b' /\
    ncap b' = ncap b /\ nisz b' = nisz b.
Proof.
  intros Hinv Hl. rewrite <- empty_test in Hl by done.
  apply not_true_is_false in Hl. simpl. rewrite Hl. do 2 eexists. split; [done|].
  apply Z.eqb_neq in Hl. rewrite slot_offset by (try apply Hinv; done).
  by destruct (consume_contents b Hinv Hl) as [? ?].
Qed.

Lemma length_contents_lt b : rb_inv b -> (length (contents b) <= ncap b - 1)%nat.
Proof.
  intros Hinv. rewrite length_contents. pose proof (nhead_lt b Hinv).
  pose proof (ring_dist_lt (ncap b) (ntail b) (nhead b)). lia.
Qed.

#[export] Instance ring_queue_laws : BoundedQueueLaws ring_buffer_t (list Z).
Proof.
  constructor; unfold bq_inv, bq_ok, bq_items, bq_bound, bq_push, bq_pop, ring_queue.
  - apply length_contents_lt.
  - intros b it b' Hinv Hok Hp.
    destruct (decide (length (contents b) = (ncap b - 1)%nat)) as [Hf|Hf].
    + rewrite write_full in Hp by done. discriminate.
    + destruct (write_ok b it Hinv Hok Hf) as (b2 & Hw & Hi & Hc & Hn & Hs).
      rewrite Hw in Hp. simplify_eq/=. rewrite Hn, Hs. done.
  - intros b it Hinv Hok. split.
    + intros Hp. destruct (decide (length (contents b) = (ncap b - 1)%nat)) as [|Hf]; [done|].
      destruct (write_ok b it Hinv Hok Hf) as (b2 & Hw & _). by rewrite Hw in Hp.
    + intros Hf. by rewrite write_full.
  - intros b it b' Hinv Hp. destruct (decide (contents b = [])) as [He|He].
    + rewrite read_empty in Hp by done. discriminate.
    + destruct (read_ok b Hinv He) as (b2 & it2 & Hw & Hi & Hc & Hn & Hs).
      rewrite Hw in Hp. simplify_eq/=. rewrite Hn, Hs. done.
  - intros b Hinv. split.
    + intros Hp. destruct (decide (contents b = [])) as [|He]; [done|].
      destruct (read_ok b Hinv He) as (b2 & it2 & Hw & _). by rewrite Hw in Hp.
    + intros He. by rewrite read_empty.
Qed.

(** The three observers agree with the contents. *)
Lemma ring_observers b : rb_inv b ->
  (ring_buffer_is_full (Some b) = true <-> length (contents b) = (ncap b - 1)%nat) /\
  (ring_buffer_is_empty (Some b) = true <-> contents b = []) /\
  ring_buffer_count (Some b) = Z.of_nat (length (contents b)).
Proof.
  intros Hinv. split; [by apply full_test|]. split.
  { simpl. rewrite Z.eqb_sym. by apply empty_test. }
  simpl. rewrite length_contents. unfold ring_dist.
  destruct Hinv as [Hc _ Hh Ht _]. unfold RING_BUFFER_MAX_CAPACITY in Hc.
  unfold nhead, ntail, ncap. zcases.
  - rewrite wrap_small by lia.
    replace (Z.to_nat (head b) + Z.to_nat (capacity b) - Z.to_nat (tail b))%nat
      with (Z.to_nat (head b - tail b) + 1 * Z.to_nat (capacity b))%nat by lia.
    rewrite Nat.Div0.mod_add, Nat.mod_small by lia. lia.
  - rewrite (wrap_small 32 (capacity b - tail b)), wrap_small by lia.
    rewrite Nat.mod_small by lia. lia.
Qed.

(** ** One producer and one consumer, interleaved

    The producer process runs [ring_buffer_write], the consumer process
    [ring_buffer_read]; each atomic access and each byte of the two [memcpy]
    calls is one step, and the steps of the two sides interleave freely.
    [published] and [delivered] are histories, not program state. *)

Inductive producer_pc :=
| PIdle
| PLoadedHead (hd : Z) (it : list Z)
| PCopy (hd next_head : Z) (it : list Z) (k : nat).

Inductive consumer_pc :=
| CIdle
| CLoadedTail (tl : Z)
| CCopy (tl : Z) (acc : list Z).

Record spsc := mk_spsc {
  ring : ring_buffer_t;
  ppc : producer_pc;
  cpc : consumer_pc;
  published : list (list Z);
  delivered : list (list Z)
}.

(** [dev/core/ring_buffer.c:101-134 ring_buffer_write, ring_buffer_read] *)
Inductive spsc_step : spsc -> spsc -> Prop :=
| p_load_head b c pu de it :
    length it = nisz b ->
    spsc_step (mk_spsc b PIdle c pu de) (mk_spsc b (PLoadedHead (head b) it) c pu de)
| p_full b c pu de hd it :
    u32 (hd + 1) mod capacity b = tail b ->
    spsc_step (mk_spsc b (PLoadedHead hd it) c pu de) (mk_spsc b PIdle c pu de)
| p_not_full b c pu de hd it :
    u32 (hd + 1) mod capacity b <> tail b ->
    spsc_step (mk_spsc b (PLoadedHead hd it) c pu de)
              (mk_spsc b (PCopy hd (u32 (hd + 1) mod capacity b) it 0) c pu de)
| p_byte b c pu de hd nh it k x :
    (k < nisz b)%nat -> it !! k = Some x ->
    spsc_step
      (mk_spsc b (PCopy hd nh it k) c pu de)
      (mk_spsc (set_data b (splice (Z.to_nat (hd * item_size b) + k) [x] (data b)))
               (PCopy hd nh it (S k)) c pu de)
| p_publish b c pu de hd nh it :
    spsc_step (mk_spsc b (PCopy hd nh it (nisz b)) c pu de)
              (mk_spsc (set_head b nh) PIdle c (pu ++ [it]) de)
| c_load_tail b p pu de :
    spsc_step (mk_spsc b p CIdle pu de) (mk_spsc b p (CLoadedTail (tail b)) pu de)
| c_empty b p pu de tl :
    tl = head b ->
    spsc_step (mk_spsc b p (CLoadedTail tl) pu de) (mk_spsc b p CIdle pu de)
| c_not_empty b p pu de tl :
    tl <> head b ->
    spsc_step (mk_spsc b p (CLoadedTail tl) pu de) (mk_spsc b p (CCopy tl []) pu de)
| c_byte b p pu de tl acc x :
    (length acc < nisz b)%nat ->
    data b !! (Z.to_nat (tl * item_size b) + length acc)%nat = Some x ->
    spsc_step (mk_spsc b p (CCopy tl acc) pu de) (mk_spsc b p (CCopy tl (acc ++ [x])) pu de)
| c_release b p pu de tl acc :
    length acc = nisz b ->
    spsc_step (mk_spsc b p (CCopy tl acc) pu de)
              (mk_spsc (set_tail b (u32 (tl + 1) mod capacity b)) p CIdle pu (de ++ [acc])).

Definition spsc_init (s : spsc) : Prop :=
  rb_inv (ring s) /\ contents (ring s) = [] /\ ppc s = PIdle /\ cpc s = CIdle /\
  published s = [] /\ delivered s = [].

Definition producer_ok (b : ring_buffer_t) (p : producer_pc) : Prop :=
  match p with
  | PIdle => True
  | PLoadedHead hd it => hd = head b /\ length it = nisz b
  | PCopy hd nh it k =>
      hd = head b /\ nh = u32 (head b + 1) mod capacity b /\ nh <> tail b /\
      length it = nisz b /\ (k <= nisz b)%nat /\
      take k (slot (nisz b) (nhead b) (data b)) = take k it
  end.

Definition consumer_ok (b : ring_buffer_t) (c : consumer_pc) : Prop :=
  match c with
  | CIdle => True
  | CLoadedTail tl => tl = tail b
  | CCopy tl acc => tl = tail b /\ tail b <> head b /\ (length acc <= nisz b)%nat /\
      acc = take (length acc) (slot (nisz b) (ntail b) (data b))
  end.

Record spsc_inv (s : spsc) : Prop := {
  spsc_rb : rb_inv (ring s);
  spsc_p : producer_ok (ring s) (ppc s);
  spsc_c : consumer_ok (ring s) (cpc s);
  spsc_hist : published s = delivered s ++ contents (ring s)
}.

(** Writing a byte of the head slot changes neither the invariant, nor the
    contents, nor the slot a reader copies. *)
Lemma head_byte b k x :
  rb_inv b -> (k < nisz b)%nat ->
  let b' := set_data b (splice (nhead b * nisz b + k) [x] (data b)) in
  rb_inv b' /\ contents b' = contents b /\
  (tail b <> head b ->
   slot (nisz b) (ntail b) (data b') = slot (nisz b) (ntail b) (data b)).
Proof.
  intros Hinv Hk b'. pose proof (nhead_lt b Hinv) as Hh. pose proof (ntail_lt b Hinv) as Ht.
  pose proof (slot_in_data b (nhead b) Hinv Hh) as Hs.
  assert (Hsl : forall j, nhead b <> j -> slot (nisz b) j (data b') = slot (nisz b) j (data b)).
  { intros j Hj. apply slot_splice_ne with (i := nhead b); simpl; lia. }
  split; [|split].
  - destruct Hinv; constructor; simpl; try done.
    rewrite length_splice by (simpl; lia). done.
  - unfold contents. change (ncap b') with (ncap b). change (nisz b') with (nisz b).
    change (ntail b') with (ntail b). change (nhead b') with (nhead b).
    apply list_fmap_ext. intros i j Hj. apply Hsl. intros <-.
    apply (ring_slots_fresh (ncap b) (ntail b) (ring_dist (ncap b) (ntail b) (nhead b))).
    + apply ring_dist_lt. lia.
    + rewrite ring_dist_head by done. by eapply list_elem_of_lookup_2.
  - intros Hne. apply Hsl. intros He. apply Hne. destruct Hinv.
    unfold nhead, ntail in He. lia.
Qed.

(** The head slot holds one byte more of the item. *)
Lemma head_byte_prefix b it k x :
  rb_inv b -> (k < nisz b)%nat -> it !! k = Some x ->
  take k (slot (nisz b) (nhead b) (data b)) = take k it ->
  take (S k) (slot (nisz b) (nhead b) (splice (nhead b * nisz b + k) [x] (data b)))
  = take (S k) it.
Proof.
  intros Hinv Hk Hx Hpre.
  pose proof (slot_in_data b (nhead b) Hinv (nhead_lt b Hinv)) as Hs.
  apply list_eq. intros i.
  destruct (decide (i < S k)%nat) as [Hi|]; [|by rewrite !lookup_take_ge by lia].
  rewrite !lookup_take_lt by lia. rewrite lookup_slot, decide_True by lia.
  rewrite lookup_splice by (simpl; lia). simpl. case_decide as Hd.
  - replace i with k by lia. rewrite Hx.
    by replace (nhead b * nisz b + k - (nhead b * nisz b + k))%nat with 0%nat by lia.
  - assert (Hik : (i < k)%nat) by lia. apply (f_equal (.!! i)) in Hpre.
    rewrite !lookup_take_lt in Hpre by lia. rewrite <- Hpre.
    by rewrite lookup_slot, decide_True by lia.
Qed.

(** A slot read to the end is the slot. *)
Lemma full_copy b acc tl :
  rb_inv b -> consumer_ok b (CCopy tl acc) -> length acc = nisz b ->
  acc = slot (nisz b) (ntail b) (data b).
Proof.
  intros Hinv (_ & _ & _ & Hacc) Hl. rewrite Hacc.
  rewrite take_ge; [done|]. rewrite length_slot; [lia|].
  apply slot_in_data; [done|]. by apply ntail_lt.
Qed.

(** The producer's target cannot become the new tail while items are queued. *)
Lemma next_head_next_tail b :
  rb_inv b -> tail b <> head b ->
  u32 (head b + 1) mod capacity b <> u32 (tail b + 1) mod capacity b.
Proof.
  intros Hinv Hne He.
  pose proof (next_index b (head b) Hinv (inv_head _ Hinv)) as [_ Hh].
  pose proof (next_index b (tail b) Hinv (inv_tail _ Hinv)) as [_ Ht].
  rewrite He, Ht in Hh.
  destruct Hinv as [Hc _ Hhd Htl _]. unfold ncap in Hh.
  rewrite !(Nat.add_comm _ 1) in Hh. apply mod_inj in Hh; lia.
Qed.

(** Each side's step keeps the joint invariant. *)
Lemma spsc_publish b c pu de hd nh it :
  spsc_inv (mk_spsc b (PCopy hd nh it (nisz b)) c pu de) ->
  spsc_inv (mk_spsc (set_head b nh) PIdle c (pu ++ [it]) de).
Proof.
  intros [Hinv (-> & Hnh & Hne & Hl & _ & Hpre) Hc Hh]; simpl in *.
  destruct (publish_contents b (data b) nh Hinv) as [Hi Hcont]; try done.
  replace (set_head (set_data b (data b)) nh) with (set_head b nh) in * by done.
  assert (Hs : slot (nisz b) (nhead b) (data b) = it).
  { rewrite <- (take_ge it (nisz b)), <- Hpre by lia. rewrite take_ge; [done|].
    rewrite length_slot; [done|]. apply slot_in_data; auto with ring. }
  constructor; simpl; try done.
  - destruct c as [|tl|tl acc]; simpl in *; try done.
    destruct Hc as (-> & _ & Hla & Hacc). repeat split; try done.
  - by rewrite Hcont, Hs, Hh, app_assoc.
Qed.

Lemma spsc_release b p pu de tl acc :
  length acc = nisz b ->
  spsc_inv (mk_spsc b p (CCopy tl acc) pu de) ->
  spsc_inv (mk_spsc (set_tail b (u32 (tl + 1) mod capacity b)) p CIdle pu (de ++ [acc])).
Proof.
  intros Hl [Hinv Hp Hc Hh]; simpl in *.
  pose proof (full_copy b acc tl Hinv Hc Hl) as Hacc. destruct Hc as (-> & Hne & _ & _).
  destruct (consume_contents b Hinv Hne) as [Hi Hcont].
  constructor; simpl; try done.
  - destruct p as [|hd it|hd nh it k]; simpl in *; try done.
    destruct Hp as (-> & -> & Hnt & Hli & Hk & Hpre).
    repeat split; try done. by apply next_head_next_tail.
  - rewrite Hh, Hcont, Hacc, <- app_assoc. done.
Qed.

Lemma spsc_step_inv s t : spsc_inv s -> spsc_step s t -> spsc_inv t.
Proof.
  intros Hs Hst. destruct Hst; try (by apply (spsc_publish _ _ _ _ _ _ _ Hs));
    try (by apply spsc_release); destruct Hs as [Hinv Hp Hc Hh]; simpl in *.
  - constructor; simpl; done.
  - constructor; simpl; done.
  - destruct Hp as [-> Hl]. constructor; simpl; try done.
    repeat split; try done. lia.
  - destruct Hp as (-> & -> & Hne & Hl & Hk & Hpre).
    rewrite slot_offset by (try apply Hinv; done).
    change (Z.to_nat (head b)) with (nhead b).
    destruct (head_byte b k x Hinv) as (Hi & Hcont & Htl); [done|].
    constructor; simpl; try done.
    + repeat split; try done. by apply (head_byte_prefix b).
    + destruct c as [|tl|tl acc]; simpl in *; try done.
      destruct Hc as (-> & Hne2 & Hla & Hacc). repeat split; try done.
      rewrite Hacc at 1. f_equal. symmetry. by apply Htl.
    + by rewrite Hcont.
  - constructor; simpl; done.
  - constructor; simpl; done.
  - subst. constructor; simpl; try done. repeat split; try done. simpl. lia.
  - destruct Hc as (-> & Hne & Hla & Hacc). constructor; simpl; try done.
    rewrite slot_offset in H0 by (try apply Hinv; done).
    assert (Hx : slot (nisz b) (ntail b) (data b) !! length acc = Some x)
      by (rewrite lookup_slot, decide_True by lia; done).
    rewrite length_app, Nat.add_1_r. repeat split; try done.
    by rewrite (take_S_r _ _ _ Hx), <- Hacc.
Qed.

(** C3: in every interleaving of the producer's and the consumer's atomic
    accesses and byte copies, what the consumer has taken out followed by what
    the ring still holds is exactly what the producer put in, in order and
    untorn, and at most [capacity - 1] items are held. *)
Theorem spsc_fifo s :
  reachable spsc_init spsc_step s ->
  published s = delivered s ++ contents (ring s) /\
  (length (contents (ring s)) <= ncap (ring s) - 1)%nat.
Proof.
  intros Hr. assert (Hi : spsc_inv s).
  { revert s Hr. apply reachable_invariant; [|apply spsc_step_inv].
    intros s (? & Hc & Hp & Hcc & Hpu & Hde). constructor; try done.
    - by rewrite Hp.
    - by rewrite Hcc.
    - by rewrite Hpu, Hde, Hc. }
  split; [apply Hi|]. apply length_contents_lt, Hi.
Qed.

(** Undisturbed, the steps of one side compute what the sequential function
    computes. *)
Lemma copy_steps b c pu de hd nh it :
  rb_inv b -> 0 <= hd < capacity b -> length it = nisz b ->
  forall m k d, (k + m = nisz b)%nat -> length d = length (data b) ->
  (forall i, (i < k)%nat -> d !! (Z.to_nat hd * nisz b + i)%nat = it !! i) ->
  (forall j, (j < Z.to_nat hd * nisz b \/ Z.to_nat hd * nisz b + nisz b <= j)%nat ->
     d !! j = data b !! j) ->
  rtc spsc_step (mk_spsc (set_data b d) (PCopy hd nh it k) c pu de)
      (mk_spsc (set_data b (splice (Z.to_nat (hd * item_size b)) it (data b)))
               (PCopy hd nh it (nisz b)) c pu de).
Proof.
  intros Hinv Hhd Hl. pose proof (slot_in_data b (Z.to_nat hd) Hinv) as Hs.
  unfold ncap in Hs. specialize (Hs ltac:(lia)).
  pose proof (slot_offset b hd Hinv ltac:(lia)) as Hoff.
  induction m as [|m IH]; intros k d Hk Hd Hin Hout.
  - replace k with (nisz b) in * by lia.
    replace d with (splice (Z.to_nat (hd * item_size b)) it (data b)); [done|].
    apply list_eq. intros i. rewrite lookup_splice by lia. case_decide.
    + rewrite <- Hin by lia. f_equal. lia.
    + symmetry. apply Hout. lia.
  - destruct (lookup_lt_is_Some_2 it k) as [x Hx]; [lia|].
    eapply rtc_l; [apply p_byte with (x := x); [simpl; unfold nisz in *; simpl; lia|done]|].
    simpl. apply IH; [lia| |..].
    + rewrite length_splice; [done|]. simpl. lia.
    + intros i Hi. rewrite lookup_splice by (simpl; lia). simpl. case_decide.
      * replace i with k by lia. rewrite Hx.
        by replace (Z.to_nat hd * nisz b + k - (Z.to_nat (hd * item_size b) + k))%nat
          with 0%nat by lia.
      * apply Hin. lia.
    + intros j Hj. rewrite lookup_splice by (simpl; lia). simpl.
      rewrite decide_False by lia. apply Hout. lia.
Qed.

(** Run without interference, the producer's atomic steps end in exactly
    the ring [ring_buffer_write] returns, on success and on a full ring. *)
Theorem write_refines b it c pu de b' ret ev :
  rb_inv b -> length it = nisz b ->
  ring_buffer_write (Some b) (Some it) = (ret, Some b', ev) ->
  exists pu', rtc spsc_step (mk_spsc b PIdle c pu de) (mk_spsc b' PIdle c pu' de) /\
  pu' = (if ret =? RB_SUCCESS then pu ++ [it] else pu).
Proof.
  intros Hinv Hl Hw. simpl in Hw.
  destruct (_ =? _) eqn:Hf in Hw; simplify_eq/=.
  - eexists. split; [|done]. eapply rtc_l; [by apply (p_load_head _ _ _ _ it)|].
    apply rtc_once, p_full. by apply Z.eqb_eq.
  - apply Z.eqb_neq in Hf. eexists. split; [|done].
    eapply rtc_l; [by apply (p_load_head _ _ _ _ it)|].
    eapply rtc_l; [by apply p_not_full|].
    eapply rtc_r.
    + replace b with (set_data b (data b)) at 1 by by destruct b.
      apply (copy_steps b) with (m := nisz b); try done; [apply Hinv|lia].
    + rewrite take_ge by (unfold nisz in Hl; lia).
      exact (p_publish (set_data b _) c pu de _ _ it).
Qed.

(** ** Witnesses *)

Definition rb0 : ring_buffer_t := mk_rb 0 0 3 2 (replicate 6 0).

Lemma rb0_inv : rb_inv rb0.
Proof. constructor; vm_compute; try done; split; done. Qed.

Example write_then_full :
  let '(_, b1, _) := ring_buffer_write (Some rb0) (Some [1; 2]) in
  let '(_, b2, _) := ring_buffer_write b1 (Some [3; 4]) in
  let '(r3, _, _) := ring_buffer_write b2 (Some [5; 6]) in
  let '(r4, b4, out) := ring_buffer_read b2 true in
  (r3, r4, out, contents <$> b4) = (RB_ERROR_FULL, RB_SUCCESS, [1; 2], Some [[3; 4]]).
Proof. vm_compute. reflexivity. Qed.

Lemma spsc_fifo_witness :
  let s := mk_spsc (set_head (set_data rb0 [1; 2; 0; 0; 0; 0]) 1) PIdle CIdle [[1; 2]] [] in
  published s = delivered s ++ contents (ring s) /\
  (length (contents (ring s)) <= ncap (ring s) - 1)%nat.
Proof.
  apply spsc_fifo. exists (mk_spsc rb0 PIdle CIdle [] []). split.
  - split; [apply rb0_inv|done].
  - eapply rtc_l; [by apply (p_load_head _ _ _ _ [1; 2])|].
    eapply rtc_l; [apply p_not_full; vm_compute; done|].
    eapply rtc_l; [apply p_byte with (x := 1); [vm_compute; lia|done]|].
    eapply rtc_l; [apply p_byte with (x := 2); [vm_compute; lia|done]|].
    eapply rtc_l; [apply (p_publish (set_data rb0 [1; 2; 0; 0; 0; 0]) CIdle [] [])|].
    apply rtc_refl.
Defined.

Lemma write_refines_witness :
  exists pu', rtc spsc_step (mk_spsc rb0 PIdle CIdle [] [])
    (mk_spsc (mk_rb 1 0 3 2 [1; 2; 0; 0; 0; 0]) PIdle CIdle pu' []) /\ pu' = [[1; 2]].
Proof.
  apply (write_refines rb0 [1; 2] CIdle [] [] _ RB_SUCCESS 1); [apply rb0_inv|done|].
  vm_compute. reflexivity.
Defined.
