(* ===== verification/MemoryPool.v ===== *)
(** * dev/core/memory_pool.c: the fixed-size block pool

    The data region is a byte list mapped at [base]; the ownership bitmap is
    the list of its bytes and is scanned byte by byte with the same bit
    operations as the code.  [size_t] arithmetic is 64-bit and wraps.  The
    internal mutex makes every operation atomic; logging is left out. *)

From S2P Require Import Prelude.

(** [dev/core/memory_pool.h:68-77 MPOOL_OK] *)
Definition MPOOL_OK : Z := 0.
Definition MPOOL_ERR_NULL : Z := -1.

(** [dev/core/memory_pool.h:85-90 memory_pool_config_t] *)
Record memory_pool_config_t := mk_config {
  block_size : Z; block_count : Z; thread_safe : Z; cfg_name : option string
}.

(** [dev/core/memory_pool.h:98-106 memory_pool_stats_t] *)
Record memory_pool_stats_t := mk_stats {
  total_blocks : Z; free_blocks : Z; used_blocks : Z; peak_used : Z;
  alloc_count : Z; free_count : Z; fail_count : Z
}.

(** [dev/core/memory_pool.c:48-58 struct memory_pool] [mem] is the mapped
    region [base] points to. *)
Record memory_pool := mk_pool {
  base : Z;
  mem : list Z;
  bitmap : list Z;
  next_free_hint : Z;
  config : memory_pool_config_t;
  stats : memory_pool_stats_t;
  pool_total_size : Z;
  bitmap_size : Z;
  pool_name : string
}.

(** [dev/core/memory_pool.c:41-44 align8] *)
Definition align8 (n : Z) : Z := Z.land (u64 (n + 7)) (u64 (Z.lnot 7)).

(** What the three [mmap] calls of one creation answer. *)
Record mmap_answers := mk_mmap {
  mmap_desc : bool; mmap_data : option Z; mmap_bitmap : bool
}.

(** [dev/core/memory_pool.c:89-174 memory_pool_create] *)
Definition memory_pool_create (o : mmap_answers) (cfg : option memory_pool_config_t)
    : option memory_pool :=
  match cfg with
  | None => None
  | Some c =>
      let bsz := align8 (block_size c) in
      if bsz <? 8 then None
      else if block_count c =? 0 then None
      else if negb (mmap_desc o) then None
      else
        let nm := match cfg_name c with
                  | Some s => strncpy_z 63 s
                  | None => "unnamed_pool"%string
                  end in
        let total := u64 (bsz * block_count c) in
        match mmap_data o with
        | None => None
        | Some a =>
            let bmsz := u64 (block_count c + 7) / 8 in
            if negb (mmap_bitmap o) then None
            else Some (mk_pool a (replicate (Z.to_nat total) 0)
                   (replicate (Z.to_nat bmsz) 0) 0
                   (mk_config bsz (block_count c) (thread_safe c) (Some nm))
                   (mk_stats (block_count c) (block_count c) 0 0 0 0 0)
                   total bmsz nm)
        end
  end.

(** [dev/core/memory_pool.c:178-213 memory_pool_destroy] What is left of the
    two regions when they are unmapped: both are wiped first. *)
Definition memory_pool_destroy (p : option memory_pool) : option (list Z * list Z) :=
  match p with
  | None => None
  | Some p => Some (replicate (Z.to_nat (pool_total_size p)) 0,
                    replicate (Z.to_nat (bitmap_size p)) 0)
  end.

(** [__builtin_ctz]: index of the lowest set bit of a nonzero [unsigned]. *)
Fixpoint ctz_from (x : Z) (i fuel : nat) : nat :=
  match fuel with
  | O => i
  | S fuel' => if Z.testbit x (Z.of_nat i) then i else ctz_from x (S i) fuel'
  end.
Definition ctz (x : Z) : nat := ctz_from x 0 32.

(** [dev/core/memory_pool.c:237-243 memory_pool_alloc, the byte loop] The first
    byte from [bi] on, within [n] bytes, whose lowest clear bit names a block. *)
Fixpoint scan (count : Z) (bm : list Z) (bi n : nat) : option (nat * nat) :=
  match n with
  | O => None
  | S n' =>
      let inv := u8 (Z.lnot (nth bi bm 0)) in
      if inv =? 0 then scan count bm (S bi) n'
      else
        let bit := ctz inv in
        if count <=? Z.of_nat (bi * 8 + bit) then scan count bm (S bi) n'
        else Some (bi, bit)
  end.

(** [dev/core/memory_pool.c:231-236 memory_pool_alloc, the two passes] *)
Definition find_free (p : memory_pool) : option (nat * nat) :=
  let start_byte := Z.to_nat (next_free_hint p / 8) in
  let bytes := Z.to_nat (bitmap_size p) in
  match scan (block_count (config p)) (bitmap p) start_byte (bytes - start_byte) with
  | Some r => Some r
  | None => scan (block_count (config p)) (bitmap p) 0 start_byte
  end.

Definition set_bitmap (p : memory_pool) bm : memory_pool :=
  mk_pool (base p) (mem p) bm (next_free_hint p) (config p) (stats p)
          (pool_total_size p) (bitmap_size p) (pool_name p).
Definition set_hint (p : memory_pool) h : memory_pool :=
  mk_pool (base p) (mem p) (bitmap p) h (config p) (stats p)
          (pool_total_size p) (bitmap_size p) (pool_name p).
Definition set_stats (p : memory_pool) s : memory_pool :=
  mk_pool (base p) (mem p) (bitmap p) (next_free_hint p) (config p) s
          (pool_total_size p) (bitmap_size p) (pool_name p).
Definition set_mem (p : memory_pool) m : memory_pool :=
  mk_pool (base p) m (bitmap p) (next_free_hint p) (config p) (stats p)
          (pool_total_size p) (bitmap_size p) (pool_name p).

(** Outcome of an allocation; [AllocUB]: the zeroing writes outside the
    mapped region. *)
Inductive alloc_result :=
| AllocNull (p : memory_pool)
| AllocOk (ptr : Z) (p : memory_pool)
| AllocUB.

(** [dev/core/memory_pool.c:254-258 memory_pool_alloc, the counters] *)
Definition stats_on_alloc (s : memory_pool_stats_t) : memory_pool_stats_t :=
  let used := u64 (used_blocks s + 1) in
  mk_stats (total_blocks s) (u64 (free_blocks s - 1)) used
           (if peak_used s <? used then used else peak_used s)
           (u64 (alloc_count s + 1)) (free_count s) (fail_count s).

(** [dev/core/memory_pool.c:217-275 memory_pool_alloc] *)
Definition memory_pool_alloc (p : memory_pool) : alloc_result :=
  match find_free p with
  | Some (bi, bit) =>
      let idx := Z.of_nat (bi * 8 + bit) in
      let b := nth bi (bitmap p) 0 in
      let p1 := set_bitmap p (<[bi := Z.lor b (u8 (Z.shiftl 1 (Z.of_nat bit)))]> (bitmap p)) in
      let h := u64 (idx + 1) in
      let p2 := set_hint p1 (if block_count (config p) <=? h then 0 else h) in
      let p3 := set_stats p2 (stats_on_alloc (stats p)) in
      let off := u64 (idx * block_size (config p)) in
      if pool_total_size p <? off + block_size (config p) then AllocUB
      else AllocOk (u64 (base p + off))
             (set_mem p3 (splice (Z.to_nat off)
                (replicate (Z.to_nat (block_size (config p))) 0) (mem p)))
  | None =>
      let s := stats p in
      AllocNull (set_stats p (mk_stats (total_blocks s) (free_blocks s) (used_blocks s)
        (peak_used s) (alloc_count s) (free_count s) (u64 (fail_count s + 1))))
  end.

(** [dev/core/memory_pool.c:330-332 memory_pool_free, the counters] *)
Definition stats_on_free (s : memory_pool_stats_t) : memory_pool_stats_t :=
  mk_stats (total_blocks s) (u64 (free_blocks s + 1)) (u64 (used_blocks s - 1))
           (peak_used s) (alloc_count s) (u64 (free_count s + 1)) (fail_count s).

(** [dev/core/memory_pool.c:279-335 memory_pool_free] [ptr = 0] is NULL. *)
Definition memory_pool_free (p : memory_pool) (ptr : Z) : memory_pool :=
  if ptr =? 0 then p
  else if (ptr <? base p) || (base p + pool_total_size p <=? ptr) then p
  else
    let offset := ptr - base p in
    if negb (offset mod block_size (config p) =? 0) then p
    else
      let idx := offset / block_size (config p) in
      let byte_idx := Z.to_nat (idx / 8) in
      let bit := idx mod 8 in
      let mask := u8 (Z.shiftl 1 bit) in
      let b := nth byte_idx (bitmap p) 0 in
      if Z.land b mask =? 0 then p
      else
        let p1 := set_bitmap p (<[byte_idx := Z.land b (u8 (Z.lnot mask))]> (bitmap p)) in
        let p2 := if idx <? next_free_hint p then set_hint p1 idx else p1 in
        set_stats p2 (stats_on_free (stats p)).

(** [dev/core/memory_pool.c:339-349 memory_pool_get_stats] *)
Definition memory_pool_get_stats (p : option memory_pool) (out : bool)
    : Z * option memory_pool_stats_t :=
  match p with
  | Some p => if out then (MPOOL_OK, Some (stats p)) else (MPOOL_ERR_NULL, None)
  | None => (MPOOL_ERR_NULL, None)
  end.

(** [dev/core/memory_pool.c:353-370 memory_pool_reset] *)
Definition memory_pool_reset (p : option memory_pool) : Z * option memory_pool :=
  match p with
  | None => (MPOOL_ERR_NULL, None)
  | Some p =>
      let n := block_count (config p) in
      let p1 := set_bitmap p (replicate (Z.to_nat (bitmap_size p)) 0) in
      (MPOOL_OK, Some (set_stats (set_hint p1 0)
         (mk_stats (total_blocks (stats p)) n 0 0 0 0 0)))
  end.

(** ** Bits of a byte, checked exhaustively *)

Definition bits8 : list nat := seq 0 8.

Definition byte_check (b : Z) : bool :=
  let inv := u8 (Z.lnot b) in
  let k := ctz inv in
  (if inv =? 0 then forallb (fun j => Z.testbit b (Z.of_nat j)) bits8
   else (Nat.ltb k 8) && negb (Z.testbit b (Z.of_nat k)) &&
        forallb (fun j => Z.testbit b (Z.of_nat j)) (seq 0 k)) &&
  forallb (fun k =>
    let mask := u8 (Z.shiftl 1 (Z.of_nat k)) in
    let on := Z.lor b mask in
    let off := Z.land b (u8 (Z.lnot mask)) in
    (0 <=? on) && (on <? 256) && (0 <=? off) && (off <? 256) &&
    eqb (Z.land b mask =? 0) (negb (Z.testbit b (Z.of_nat k))) &&
    forallb (fun j =>
      eqb (Z.testbit on (Z.of_nat j)) (Z.testbit b (Z.of_nat j) || Nat.eqb j k) &&
      eqb (Z.testbit off (Z.of_nat j)) (Z.testbit b (Z.of_nat j) && negb (Nat.eqb j k)))
      bits8) bits8.

Lemma byte_check_all : forallb byte_check (Z.of_nat <$> seq 0 256) = true.
Proof. vm_compute. reflexivity. Qed.

Lemma forallb_seq (f : nat -> bool) n : forallb f (seq 0 n) = true ->
  forall k, (k < n)%nat -> f k = true.
Proof.
  intros H k Hk. rewrite forallb_forall in H. apply H. apply in_seq. lia.
Qed.

Lemma byte_check_ok b : 0 <= b < 256 -> byte_check b = true.
Proof.
  intros Hb. pose proof byte_check_all as H. rewrite forallb_forall in H. apply H.
  apply in_map_iff. exists (Z.to_nat b). split; [lia|]. apply in_seq. lia.
Qed.

Lemma inv_zero b j : 0 <= b < 256 -> u8 (Z.lnot b) = 0 -> (j < 8)%nat ->
  Z.testbit b (Z.of_nat j) = true.
Proof.
  intros Hb Hi Hj. pose proof (byte_check_ok b Hb) as H. unfold byte_check in H.
  rewrite Hi in H. apply andb_true_iff in H as [H _]. cbv beta zeta in H.
  rewrite Z.eqb_refl in H. by apply (forallb_seq _ _ H).
Qed.

Lemma inv_nonzero b : 0 <= b < 256 -> u8 (Z.lnot b) <> 0 ->
  let k := ctz (u8 (Z.lnot b)) in
  (k < 8)%nat /\ Z.testbit b (Z.of_nat k) = false /\
  forall j, (j < k)%nat -> Z.testbit b (Z.of_nat j) = true.
Proof.
  intros Hb Hi k. pose proof (byte_check_ok b Hb) as H. unfold byte_check in H.
  apply Z.eqb_neq in Hi. cbv beta zeta in H. rewrite Hi in H.
  fold k in H. apply andb_true_iff in H as [H _].
  apply andb_true_iff in H as [H H3]. apply andb_true_iff in H as [H1 H2].
  apply Nat.ltb_lt in H1. apply negb_true_iff in H2.
  split_and!; [done..|]. apply forallb_seq, H3.
Qed.

(** Setting and clearing bit [k] of a byte, and testing it. *)
Lemma byte_update b k : 0 <= b < 256 -> (k < 8)%nat ->
  let mask := u8 (Z.shiftl 1 (Z.of_nat k)) in
  0 <= Z.lor b mask < 256 /\ 0 <= Z.land b (u8 (Z.lnot mask)) < 256 /\
  (Z.land b mask =? 0) = negb (Z.testbit b (Z.of_nat k)) /\
  forall j, (j < 8)%nat ->
    Z.testbit (Z.lor b mask) (Z.of_nat j) = (Z.testbit b (Z.of_nat j) || Nat.eqb j k)%bool /\
    Z.testbit (Z.land b (u8 (Z.lnot mask))) (Z.of_nat j)
      = (Z.testbit b (Z.of_nat j) && negb (Nat.eqb j k))%bool.
Proof.
  intros Hb Hk mask. pose proof (byte_check_ok b Hb) as H. unfold byte_check in H.
  apply andb_true_iff in H as [_ H]. apply forallb_seq with (k := k) in H; [|done].
  cbv beta zeta in H. fold mask in H. rewrite !andb_true_iff in H.
  destruct H as [[[[[H1 H2] H3] H4] H5] H6]. bool_to_prop. apply eqb_prop in H5.
  split_and!; try lia; [done|]. intros j Hj.
  apply forallb_seq with (k := j) in H6; [|done].
  apply andb_true_iff in H6 as [H6 H7]. by split; apply eqb_prop.
Qed.

(** ** Which blocks a bitmap marks *)

Definition used (bm : list Z) (i : nat) : bool :=
  Z.testbit (nth (i / 8) bm 0) (Z.of_nat (i mod 8)).

Definition bytes_ok (bm : list Z) : Prop := Forall (fun b => 0 <= b < 256) bm.

Lemma bytes_ok_nth bm i : bytes_ok bm -> 0 <= nth i bm 0 < 256.
Proof.
  intros H. destruct (Nat.lt_ge_cases i (length bm)) as [Hi|Hi].
  - unfold bytes_ok in H. rewrite Forall_lookup in H. apply (H i).
    rewrite nth_lookup. destruct (lookup_lt_is_Some_2 bm i Hi) as [x ->]. done.
  - rewrite nth_overflow by done. lia.
Qed.

Lemma used_split bm bi bit : (bit < 8)%nat ->
  used bm (bi * 8 + bit) = Z.testbit (nth bi bm 0) (Z.of_nat bit).
Proof.
  intros H. unfold used.
  replace ((bi * 8 + bit) / 8)%nat with bi by (rewrite Nat.div_add_l by lia;
    rewrite Nat.div_small by lia; lia).
  replace ((bi * 8 + bit) mod 8)%nat with bit; [done|].
  rewrite Nat.add_comm, Nat.Div0.mod_add. symmetry. by apply Nat.mod_small.
Qed.

Lemma nth_insert (bm : list Z) i j b : (i < length bm)%nat ->
  nth j (<[i := b]> bm) 0 = if decide (j = i) then b else nth j bm 0.
Proof.
  intros. rewrite !nth_lookup. case_decide as Hd.
  - subst. by rewrite list_lookup_insert_eq by done.
  - by rewrite list_lookup_insert_ne by done.
Qed.

(** Replacing a byte by one that differs in one bit flips one block. *)
Lemma used_insert bm bi bit b v :
  (bi < length bm)%nat -> (bit < 8)%nat ->
  (forall j, (j < 8)%nat -> Z.testbit b (Z.of_nat j) =
     if decide (j = bit) then v else Z.testbit (nth bi bm 0) (Z.of_nat j)) ->
  forall i, used (<[bi := b]> bm) i =
    if decide (i = bi * 8 + bit)%nat then v else used bm i.
Proof.
  intros Hbi Hbit Hb i. unfold used. rewrite nth_insert by done.
  pose proof (Nat.div_mod_eq i 8). pose proof (Nat.mod_upper_bound i 8).
  destruct (decide (i / 8 = bi)%nat) as [<-|Hne].
  - rewrite Hb by lia. destruct (decide (i mod 8 = bit)%nat).
    + rewrite decide_True by lia. done.
    + rewrite decide_False by lia. done.
  - rewrite decide_False; [done|]. intros ->. apply Hne.
    rewrite Nat.div_add_l by lia. rewrite Nat.div_small by lia. lia.
Qed.

Lemma scan_some count bm n : bytes_ok bm -> forall bi r bit,
  scan count bm bi n = Some (r, bit) ->
  (bi <= r < bi + n)%nat /\ (bit < 8)%nat /\
  used bm (r * 8 + bit) = false /\ Z.of_nat (r * 8 + bit) < count.
Proof.
  intros Hbm. induction n as [|n IH]; intros bi r bit Hs; cbn [scan] in Hs; [done|].
  pose proof (bytes_ok_nth bm bi Hbm) as Hb.
  destruct (Z.eqb_spec (u8 (Z.lnot (nth bi bm 0))) 0) as [|Hz].
  { apply IH in Hs. destruct Hs as (? & ? & ? & ?). split_and!; try done; lia. }
  destruct (inv_nonzero _ Hb Hz) as (Hk & Hf & _).
  destruct (Z.leb_spec count (Z.of_nat (bi * 8 + ctz (u8 (Z.lnot (nth bi bm 0)))))).
  { apply IH in Hs. destruct Hs as (? & ? & ? & ?). split_and!; try done; lia. }
  simplify_eq. split_and!; try lia. by rewrite used_split.
Qed.

Lemma scan_none count bm n : bytes_ok bm -> forall bi,
  scan count bm bi n = None ->
  forall i, (bi * 8 <= i < (bi + n) * 8)%nat -> Z.of_nat i < count -> used bm i = true.
Proof.
  intros Hbm. induction n as [|n IH]; intros bi Hs i Hi Hc; cbn [scan] in Hs; [lia|].
  pose proof (bytes_ok_nth bm bi Hbm) as Hb.
  assert (Hrest : scan count bm (S bi) n = None -> ((bi + 1) * 8 <= i)%nat -> used bm i = true).
  { intros Hn Hge. apply (IH (S bi)); [done|lia|done]. }
  destruct (Nat.lt_ge_cases i ((bi + 1) * 8)) as [Hlt|Hge].
  - replace i with (bi * 8 + (i - bi * 8))%nat in * by lia.
    rewrite used_split by lia.
    destruct (Z.eqb_spec (u8 (Z.lnot (nth bi bm 0))) 0) as [Hz|Hz].
    { apply inv_zero; [done|done|lia]. }
    destruct (inv_nonzero _ Hb Hz) as (Hk & _ & Hlow).
    destruct (Z.leb_spec count (Z.of_nat (bi * 8 + ctz (u8 (Z.lnot (nth bi bm 0))))));
      [|done]. apply Hlow. lia.
  - repeat case_match; try done; by apply Hrest.
Qed.

(** ** Invariant *)

Definition nblocks (p : memory_pool) : nat := Z.to_nat (block_count (config p)).
Definition nbsz (p : memory_pool) : nat := Z.to_nat (block_size (config p)).
Definition in_use (p : memory_pool) (i : nat) : bool := used (bitmap p) i.
Definition nused (p : memory_pool) : nat := count_true (in_use p) (nblocks p).
Definition block_addr (p : memory_pool) (i : nat) : Z :=
  base p + Z.of_nat i * block_size (config p).

Record pool_inv (p : memory_pool) : Prop := {
  pi_bsz : 8 <= block_size (config p);
  pi_count : 1 <= block_count (config p);
  pi_total : pool_total_size p = block_size (config p) * block_count (config p);
  pi_base : 0 < base p;
  pi_top : base p + pool_total_size p < 2 ^ 64;
  pi_mem : length (mem p) = (nblocks p * nbsz p)%nat;
  pi_bmsz : bitmap_size p = (block_count (config p) + 7) / 8;
  pi_bmlen : length (bitmap p) = Z.to_nat (bitmap_size p);
  pi_bytes : bytes_ok (bitmap p);
  pi_hint : 0 <= next_free_hint p < block_count (config p);
  pi_tot : total_blocks (stats p) = block_count (config p);
  pi_used : used_blocks (stats p) = Z.of_nat (nused p);
  pi_free : free_blocks (stats p) = block_count (config p) - Z.of_nat (nused p);
  pi_peak : Z.of_nat (nused p) <= peak_used (stats p) <= block_count (config p);
  pi_bal : u64 (alloc_count (stats p) - free_count (stats p)) = Z.of_nat (nused p)
}.

(** What the product of the block dimensions fits in. *)
Lemma pool_bounds p : pool_inv p ->
  block_size (config p) * block_count (config p) < 2 ^ 64 /\
  block_count (config p) < 2 ^ 61 /\ (nused p <= nblocks p)%nat.
Proof.
  intros []. split_and!; [lia|nia|apply count_true_le].
Qed.

Lemma block_off p i : pool_inv p -> (i < nblocks p)%nat ->
  u64 (Z.of_nat i * block_size (config p)) = Z.of_nat i * block_size (config p) /\
  Z.of_nat i * block_size (config p) + block_size (config p) <= pool_total_size p /\
  Z.to_nat (Z.of_nat i * block_size (config p)) = (i * nbsz p)%nat.
Proof.
  intros Hi Hn. destruct (pool_bounds p Hi) as (? & ? & ?). destruct Hi.
  unfold nblocks, nbsz in *. split_and!.
  - apply wrap_small. nia.
  - nia.
  - rewrite Z2Nat.inj_mul by lia. by rewrite Nat2Z.id.
Qed.

Lemma block_bytes p : pool_inv p ->
  Z.to_nat (bitmap_size p) = ((nblocks p + 7) / 8)%nat.
Proof.
  intros []. rewrite pi_bmsz0. unfold nblocks. rewrite Z2Nat.inj_div by lia.
  f_equal. lia.
Qed.

Lemma byte_in_bitmap p i : pool_inv p -> (i < nblocks p)%nat ->
  (i / 8 < length (bitmap p))%nat.
Proof.
  intros Hi Hn. rewrite (pi_bmlen _ Hi), block_bytes by done.
  apply Nat.div_lt_upper_bound; [lia|].
  pose proof (Nat.div_mod_eq (nblocks p + 7) 8).
  pose proof (Nat.mod_upper_bound (nblocks p + 7) 8). lia.
Qed.

(** The two passes together look at every block. *)
Lemma find_free_some p bi bit : pool_inv p -> find_free p = Some (bi, bit) ->
  let i := (bi * 8 + bit)%nat in
  (bit < 8)%nat /\ (bi < length (bitmap p))%nat /\ in_use p i = false /\ (i < nblocks p)%nat.
Proof.
  intros Hi Hf i. unfold find_free in Hf. pose proof (pi_bytes _ Hi) as Hb.
  assert (Hs : exists lo n, scan (block_count (config p)) (bitmap p) lo n = Some (bi, bit)).
  { repeat case_match; simplify_eq; eauto. }
  destruct Hs as (lo & n & Hs).
  apply scan_some in Hs as (_ & Hbit & Hu & Hc); [|done].
  assert (Hn : (i < nblocks p)%nat) by (unfold nblocks, i; lia).
  split_and!; try done.
  pose proof (byte_in_bitmap p i Hi Hn) as Hl. unfold i in Hl.
  rewrite Nat.div_add_l, Nat.div_small in Hl by lia. lia.
Qed.

Lemma find_free_none p : pool_inv p -> find_free p = None ->
  forall i, (i < nblocks p)%nat -> in_use p i = true.
Proof.
  intros Hi Hf i Hn. unfold find_free in Hf. pose proof (pi_bytes _ Hi) as Hb.
  pose proof (byte_in_bitmap p i Hi Hn) as Hl. rewrite (pi_bmlen _ Hi) in Hl.
  set (st := Z.to_nat (next_free_hint p / 8)) in *.
  set (nb := Z.to_nat (bitmap_size p)) in *.
  destruct (scan _ _ st _) eqn:H1; [done|].
  assert (Hc : Z.of_nat i < block_count (config p)) by (unfold nblocks in Hn; lia).
  pose proof (Nat.div_mod_eq i 8). pose proof (Nat.mod_upper_bound i 8).
  destruct (Nat.lt_ge_cases i (st * 8)).
  - apply (scan_none _ _ _ Hb _ Hf); [lia|done].
  - apply (scan_none _ _ _ Hb _ H1); [lia|done].
Qed.

(** The pool with block [i] taken, and with block [i] given back. *)
Lemma in_use_set p i b : pool_inv p -> (i < nblocks p)%nat ->
  b = Z.lor (nth (i / 8) (bitmap p) 0) (u8 (Z.shiftl 1 (Z.of_nat (i mod 8)))) ->
  bytes_ok (<[i / 8 := b]> (bitmap p))%nat /\
  forall j, used (<[i / 8 := b]> (bitmap p))%nat j = if decide (j = i) then true else in_use p j.
Proof.
  intros Hi Hn ->. pose proof (bytes_ok_nth (bitmap p) (i / 8) (pi_bytes _ Hi)) as Hb.
  pose proof (Nat.mod_upper_bound i 8 ltac:(lia)) as Hm.
  destruct (byte_update _ (i mod 8) Hb Hm) as (Hr & _ & _ & Ht).
  split; [apply Forall_insert; [apply Hi|done]|]. intros j.
  rewrite (used_insert _ _ (i mod 8) _ true); [|by apply byte_in_bitmap|done|].
  - pose proof (Nat.div_mod_eq i 8). replace (i / 8 * 8 + i mod 8)%nat with i by lia. done.
  - intros k Hk. destruct (Ht k Hk) as [-> _]. case_decide as Hd.
    + subst. rewrite Nat.eqb_refl. apply orb_true_r.
    + apply Nat.eqb_neq in Hd. by rewrite Hd, orb_false_r.
Qed.

Lemma in_use_clear p i b : pool_inv p -> (i < nblocks p)%nat ->
  b = Z.land (nth (i / 8) (bitmap p) 0)
        (u8 (Z.lnot (u8 (Z.shiftl 1 (Z.of_nat (i mod 8)))))) ->
  bytes_ok (<[i / 8 := b]> (bitmap p))%nat /\
  forall j, used (<[i / 8 := b]> (bitmap p))%nat j = if decide (j = i) then false else in_use p j.
Proof.
  intros Hi Hn ->. pose proof (bytes_ok_nth (bitmap p) (i / 8) (pi_bytes _ Hi)) as Hb.
  pose proof (Nat.mod_upper_bound i 8 ltac:(lia)) as Hm.
  destruct (byte_update _ (i mod 8) Hb Hm) as (_ & Hr & _ & Ht).
  split; [apply Forall_insert; [apply Hi|done]|]. intros j.
  rewrite (used_insert _ _ (i mod 8) _ false); [|by apply byte_in_bitmap|done|].
  - pose proof (Nat.div_mod_eq i 8). replace (i / 8 * 8 + i mod 8)%nat with i by lia. done.
  - intros k Hk. destruct (Ht k Hk) as [_ ->]. case_decide as Hd.
    + subst. rewrite Nat.eqb_refl. apply andb_false_r.
    + apply Nat.eqb_neq in Hd. by rewrite Hd, andb_true_r.
Qed.

(** One block goes from free to used, or back. *)
Record taken (p p' : memory_pool) (i : nat) : Prop := {
  tk_range : (i < nblocks p)%nat;
  tk_free : in_use p i = false;
  tk_used : forall j, in_use p' j = if decide (j = i) then true else in_use p j;
  tk_config : config p' = config p;
  tk_base : base p' = base p
}.

Lemma taken_count p p' i : taken p p' i -> nused p' = S (nused p).
Proof.
  intros []. unfold nused, nblocks in *. rewrite tk_config0.
  apply count_true_flip with (i := i); try done.
  - by rewrite tk_used0, decide_True.
  - intros j Hj. by rewrite tk_used0, decide_False.
Qed.

Lemma alloc_inv p p' i h : pool_inv p -> taken p p' i ->
  bytes_ok (bitmap p') -> length (bitmap p') = length (bitmap p) ->
  pool_total_size p' = pool_total_size p -> bitmap_size p' = bitmap_size p ->
  length (mem p') = length (mem p) -> next_free_hint p' = h ->
  0 <= h < block_count (config p) -> stats p' = stats_on_alloc (stats p) ->
  pool_inv p'.
Proof.
  intros Hi Ht Hby Hbl Hts Hbs Hm Hh Hhr Hst.
  pose proof (taken_count _ _ _ Ht) as Hc. destruct (pool_bounds p Hi) as (Hp1 & Hp2 & Hp3).
  assert (Hle : (S (nused p) <= nblocks p)%nat).
  { rewrite <- Hc. unfold nused, nblocks. rewrite (tk_config _ _ _ Ht). apply count_true_le. }
  destruct Ht as [_ _ _ Hcfg Hba]. destruct Hi.
  unfold nblocks, nbsz in *.
  constructor; rewrite ?Hcfg, ?Hba, ?Hst, ?Hts, ?Hbs, ?Hbl, ?Hm, ?Hc, ?Hh;
    unfold nblocks, nbsz, stats_on_alloc; rewrite ?Hcfg; simpl; try done.
  - rewrite wrap_small by lia. lia.
  - rewrite wrap_small by lia. lia.
  - rewrite wrap_small by lia. zcases; lia.
  - unfold wrap in *.
    rewrite Zminus_mod_idemp_l.
    replace (alloc_count (stats p) + 1 - free_count (stats p))
      with (alloc_count (stats p) - free_count (stats p) + 1) by lia.
    rewrite <- Zplus_mod_idemp_l, pi_bal0, Z.mod_small by lia. lia.
Qed.

Lemma free_inv p p' i h : pool_inv p -> taken p' p i ->
  bytes_ok (bitmap p') -> length (bitmap p') = length (bitmap p) ->
  pool_total_size p' = pool_total_size p -> bitmap_size p' = bitmap_size p ->
  length (mem p') = length (mem p) -> next_free_hint p' = h ->
  0 <= h < block_count (config p) -> stats p' = stats_on_free (stats p) ->
  pool_inv p'.
Proof.
  intros Hi Ht Hby Hbl Hts Hbs Hm Hh Hhr Hst.
  pose proof (taken_count _ _ _ Ht) as Hc. destruct (pool_bounds p Hi) as (Hp1 & Hp2 & Hp3).
  destruct Ht as [_ _ _ Hcfg Hba]. destruct Hi.
  unfold nblocks, nbsz in *.
  constructor; rewrite <- ?Hcfg, <- ?Hba, ?Hst, ?Hts, ?Hbs, ?Hbl, ?Hm, ?Hh;
    unfold nblocks, nbsz, stats_on_free; rewrite <- ?Hcfg; simpl; try done; try lia.
  - rewrite wrap_small by lia. lia.
  - rewrite wrap_small by lia. lia.
  - unfold wrap in *. rewrite Zminus_mod_idemp_r.
    replace (alloc_count (stats p) - (free_count (stats p) + 1))
      with (alloc_count (stats p) - free_count (stats p) - 1) by lia.
    rewrite <- Zminus_mod_idemp_l, pi_bal0, Z.mod_small by lia. lia.
Qed.

(** Splitting the index the scan returns. *)
Lemma div_mod_idx bi bit : (bit < 8)%nat ->
  ((bi * 8 + bit) / 8 = bi)%nat /\ ((bi * 8 + bit) mod 8 = bit)%nat.
Proof.
  intros H. split.
  - rewrite Nat.div_add_l, Nat.div_small by lia. lia.
  - rewrite Nat.add_comm, Nat.Div0.mod_add. by apply Nat.mod_small.
Qed.

(** What a successful allocation does to the pool. *)
Record alloc_effect (p p' : memory_pool) (i : nat) : Prop := {
  ae_taken : taken p p' i;
  ae_inv : pool_inv p';
  ae_zero : slot (nbsz p) i (mem p') = replicate (nbsz p) 0;
  ae_other : forall j, j <> i -> slot (nbsz p) j (mem p') = slot (nbsz p) j (mem p)
}.

Lemma find_free_effect p bi bit : pool_inv p -> find_free p = Some (bi, bit) ->
  exists p', memory_pool_alloc p = AllocOk (block_addr p (bi * 8 + bit)) p' /\
    alloc_effect p p' (bi * 8 + bit).
Proof.
  intros Hi Hf. destruct (find_free_some p bi bit Hi Hf) as (Hbit & Hbl & Hu & Hn).
  unfold memory_pool_alloc. rewrite Hf. set (i := (bi * 8 + bit)%nat) in *.
  destruct (block_off p i Hi Hn) as (Ho & Hin & Hnat). rewrite !Ho.
  destruct (pool_bounds p Hi) as (Hp1 & Hp2 & Hp3).
  destruct (div_mod_idx bi bit Hbit) as [Hd Hm]. fold i in Hd, Hm.
  destruct (in_use_set p i _ Hi Hn eq_refl) as [Hby Hus].
  rewrite Hd, Hm in Hus, Hby.
  destruct (Z.ltb_spec (pool_total_size p)
    (Z.of_nat i * block_size (config p) + block_size (config p))); [lia|].
  assert (Ha : u64 (base p + Z.of_nat i * block_size (config p)) = block_addr p i).
  { unfold block_addr. apply wrap_small. pose proof (pi_base _ Hi). pose proof (pi_top _ Hi).
    pose proof (pi_bsz _ Hi).
    assert (0 <= Z.of_nat i * block_size (config p)) by (apply Z.mul_nonneg_nonneg; lia).
    lia. }
  rewrite Ha. eexists. split; [done|].
  rewrite Hnat. fold (nbsz p). set (zs := replicate (nbsz p) 0).
  assert (Hzl : (i * nbsz p + length zs <= length (mem p))%nat).
  { unfold zs. rewrite length_replicate, (pi_mem _ Hi). nia. }
  match goal with |- alloc_effect _ ?q _ => set (p' := q) end.
  assert (Ht : taken p p' i) by (constructor; done).
  assert (Hh : 0 <= next_free_hint p' < block_count (config p)).
  { simpl. rewrite wrap_small by (unfold nblocks in Hn; lia).
    unfold nblocks in Hn. zcases; lia. }
  constructor; [done| | |].
  - eapply alloc_inv; try done.
    + apply length_insert.
    + simpl. by apply length_splice.
  - simpl. apply slot_splice_eq; [apply length_replicate|].
    rewrite (pi_mem _ Hi). nia.
  - intros j Hj. simpl. apply slot_splice_ne with (i := i); try lia.
    + unfold zs. rewrite length_replicate. lia.
    + rewrite (pi_mem _ Hi). nia.
Qed.

Lemma alloc_ok p : pool_inv p ->
  match memory_pool_alloc p with
  | AllocUB => False
  | AllocNull p' => nused p = nblocks p /\ pool_inv p' /\ bitmap p' = bitmap p /\
      mem p' = mem p /\ fail_count (stats p') = u64 (fail_count (stats p) + 1) /\
      config p' = config p /\ base p' = base p
  | AllocOk ptr p' => exists i, ptr = block_addr p i /\ alloc_effect p p' i
  end.
Proof.
  intros Hi. destruct (find_free p) as [[bi bit]|] eqn:Hf.
  - destruct (find_free_effect p bi bit Hi Hf) as (p' & -> & He). eauto.
  - unfold memory_pool_alloc. rewrite Hf. split_and!; try done.
    + apply count_true_full. by apply find_free_none.
    + destruct Hi; constructor; done.
Qed.

(** An allocation fails exactly when every block is in use, and then only
    counts the failure; otherwise it returns the address of a block that was
    free, marks that block and no other, zeroes its bytes and no others, and
    keeps the pool's invariant (hint, counters and bitmap in step); it never
    writes outside the mapped region. *)
Theorem alloc_spec p : pool_inv p ->
  match memory_pool_alloc p with
  | AllocUB => False
  | AllocNull p' => nused p = nblocks p /\ pool_inv p' /\ bitmap p' = bitmap p /\
      mem p' = mem p /\ fail_count (stats p') = u64 (fail_count (stats p) + 1)
  | AllocOk ptr p' => exists i, ptr = block_addr p i /\ alloc_effect p p' i
  end.
Proof.
  intros Hi. pose proof (alloc_ok p Hi) as Ha. destruct (memory_pool_alloc p); [|done|done].
  destruct Ha as (? & ? & ? & ? & ? & _). done.
Qed.

(** The body of [memory_pool_free] on the address of an allocated block. *)
Lemma free_block p i : pool_inv p -> (i < nblocks p)%nat -> in_use p i = true ->
  memory_pool_free p (block_addr p i) = set_stats
    (let p1 := set_bitmap p (<[(i / 8)%nat := Z.land (nth (i / 8) (bitmap p) 0)
        (u8 (Z.lnot (u8 (Z.shiftl 1 (Z.of_nat (i mod 8))))))]> (bitmap p)) in
     if Z.of_nat i <? next_free_hint p then set_hint p1 (Z.of_nat i) else p1)
    (stats_on_free (stats p)).
Proof.
  intros Hi Hn Hu. pose proof Hi as [Hb _ _ Hbase _ _ _ _ _ _ _ _ _ _ _].
  destruct (block_off p i Hi Hn) as (_ & Hin & _).
  destruct (byte_update _ (i mod 8) (bytes_ok_nth (bitmap p) (i / 8) (pi_bytes _ Hi)))
    as (_ & _ & Hbit & _); [apply Nat.mod_upper_bound; lia|].
  unfold in_use, used in Hu. rewrite Hu in Hbit. unfold memory_pool_free, block_addr.
  destruct (Z.eqb_spec (base p + Z.of_nat i * block_size (config p)) 0); [lia|].
  destruct (Z.ltb_spec (base p + Z.of_nat i * block_size (config p)) (base p)); [nia|].
  destruct (Z.leb_spec (base p + pool_total_size p)
    (base p + Z.of_nat i * block_size (config p))); [lia|]. simpl.
  replace (base p + Z.of_nat i * block_size (config p) - base p)
    with (Z.of_nat i * block_size (config p)) by lia.
  rewrite Z.mod_mul, Z.div_mul by lia. simpl.
  replace (Z.of_nat i mod 8) with (Z.of_nat (i mod 8)) by (rewrite Nat2Z.inj_mod; done).
  replace (Z.to_nat (Z.of_nat i / 8)) with (i / 8)%nat
    by (rewrite Z2Nat.inj_div, Nat2Z.id by lia; done).
  by rewrite Hbit.
Qed.

Lemma free_success p i : pool_inv p -> (i < nblocks p)%nat -> in_use p i = true ->
  let p' := memory_pool_free p (block_addr p i) in
  taken p' p i /\ pool_inv p' /\ mem p' = mem p.
Proof.
  intros Hi Hn Hu p'.
  destruct (in_use_clear p i _ Hi Hn eq_refl) as [Hby Hus].
  pose proof (free_block p i Hi Hn Hu) as Hp'. fold p' in Hp'. clearbody p'. subst p'.
  assert (Hhr : 0 <= Z.of_nat i < block_count (config p)) by (unfold nblocks in Hn; lia).
  pose proof (pi_hint _ Hi) as Hh. cbv zeta.
  destruct (Z.of_nat i <? next_free_hint p).
  all: match goal with |- taken ?q _ _ /\ _ => set (p' := q) end.
  all: assert (Ht : taken p' p i) by (constructor; try done;
         [by unfold in_use; simpl; rewrite Hus, decide_True |
          intros j; unfold in_use at 2; simpl; rewrite Hus; case_decide; by subst]).
  all: split; [done|]; split; [|done]; eapply free_inv; try done; apply length_insert.
Qed.

Lemma free_reject p ptr : pool_inv p ->
  (forall i, (i < nblocks p)%nat -> in_use p i = true -> ptr <> block_addr p i) ->
  memory_pool_free p ptr = p.
Proof.
  intros Hi Hno. pose proof Hi as [Hb Hc Htot Hbase Htop _ _ _ _ _ _ _ _ _ _].
  unfold memory_pool_free. destruct (Z.eqb_spec ptr 0); [done|].
  destruct (_ || _) eqn:Hr; [done|]. bool_to_prop.
  destruct (Z.eqb_spec ((ptr - base p) mod block_size (config p)) 0) as [Hm|]; [|done].
  simpl. set (idx := (ptr - base p) / block_size (config p)).
  assert (Hidx : 0 <= idx < block_count (config p)).
  { split; [apply Z.div_pos; lia|]. apply Z.div_lt_upper_bound; lia. }
  assert (Hptr : ptr = block_addr p (Z.to_nat idx)).
  { unfold block_addr. rewrite Z2Nat.id by lia. unfold idx.
    pose proof (Z.div_mod (ptr - base p) (block_size (config p))). lia. }
  assert (Hn : (Z.to_nat idx < nblocks p)%nat) by (unfold nblocks; lia).
  destruct (in_use p (Z.to_nat idx)) eqn:Hu; [by apply (Hno _ Hn) in Hu|].
  unfold in_use, used in Hu.
  destruct (byte_update _ (Z.to_nat idx mod 8)
    (bytes_ok_nth (bitmap p) (Z.to_nat idx / 8) (pi_bytes _ Hi))) as (_ & _ & Hbt & _);
    [apply Nat.mod_upper_bound; lia|].
  rewrite Hu in Hbt. change (negb false) with true in Hbt.
  rewrite Z2Nat.inj_div by lia. change (Z.to_nat 8) with 8%nat.
  replace (idx mod 8) with (Z.of_nat (Z.to_nat idx mod 8))
    by (rewrite Nat2Z.inj_mod, Z2Nat.id by lia; done).
  by rewrite Hbt.
Qed.

(** A free gives back exactly the named block of a pool in which that
    block is allocated, touching no byte of the data, and any other pointer
    (NULL, foreign, misaligned, already free) leaves the pool as it was. *)
Theorem free_spec p ptr : pool_inv p ->
  (forall i, (i < nblocks p)%nat -> in_use p i = true -> ptr = block_addr p i ->
     let p' := memory_pool_free p ptr in
     taken p' p i /\ pool_inv p' /\ mem p' = mem p) /\
  ((forall i, (i < nblocks p)%nat -> in_use p i = true -> ptr <> block_addr p i) ->
   memory_pool_free p ptr = p).
Proof.
  intros Hi. split; [|by apply free_reject].
  intros i Hn Hu ->. by apply free_success.
Qed.

(** ** Creation, reset, and every history of calls *)

Lemma nth_zeros n i : nth i (replicate n 0) 0 = 0.
Proof.
  rewrite nth_lookup. destruct (replicate n 0 !! i) as [x|] eqn:Hx; [|done].
  by apply lookup_replicate in Hx as [-> _].
Qed.

(** A created pool is well formed and empty when the product of its
    dimensions fits in a [size_t] and the kernel maps it below 2^64. *)
Lemma create_inv o c p a :
  memory_pool_create o (Some c) = Some p -> mmap_data o = Some a ->
  0 <= block_count c < 2 ^ 61 ->
  align8 (block_size c) * block_count c < 2 ^ 64 -> 0 < a ->
  a + align8 (block_size c) * block_count c < 2 ^ 64 ->
  pool_inv p /\ nused p = 0%nat.
Proof.
  intros Hc Ha Hn Hp Ha0 Htop. unfold memory_pool_create in Hc.
  destruct (Z.ltb_spec (align8 (block_size c)) 8); [done|].
  destruct (Z.eqb_spec (block_count c) 0); [done|].
  destruct (mmap_desc o); [|done]. rewrite Ha in Hc. simpl in Hc.
  destruct (mmap_bitmap o); [|done]. simpl in Hc.
  assert (Hw : u64 (align8 (block_size c) * block_count c)
    = align8 (block_size c) * block_count c) by (apply wrap_small; nia).
  assert (Hw2 : u64 (block_count c + 7) = block_count c + 7) by (apply wrap_small; lia).
  rewrite Hw, Hw2 in Hc.
  assert (H0 : nused p = 0%nat).
  { simplify_eq/=. apply count_true_none. intros i _. unfold in_use, used. simpl.
    rewrite nth_zeros. apply Z.bits_0. }
  split; [|done]. simplify_eq/=.
  constructor; rewrite ?H0; simpl; rewrite ?length_replicate; try done; try lia.
  - unfold nblocks, nbsz. simpl. rewrite Z2Nat.inj_mul by lia. lia.
  - apply Forall_replicate. lia.
Qed.

Lemma reset_inv p : pool_inv p ->
  exists p', memory_pool_reset (Some p) = (MPOOL_OK, Some p') /\
    pool_inv p' /\ nused p' = 0%nat /\ mem p' = mem p.
Proof.
  intros Hi. eexists. split; [done|].
  match goal with |- pool_inv ?q /\ _ => set (p' := q) end.
  assert (H0 : nused p' = 0%nat).
  { apply count_true_none. intros i _. unfold in_use, used. simpl.
    rewrite nth_zeros. apply Z.bits_0. }
  split_and!; try done. destruct Hi.
  constructor; rewrite ?H0; simpl; rewrite ?length_replicate; try done; try lia.
  apply Forall_replicate. lia.
Qed.

Lemma filter_id {A} (f : A -> bool) l : (forall x, x ∈ l -> f x = true) -> List.filter f l = l.
Proof.
  induction l as [|x l IH]; intros H; simpl; [done|].
  rewrite H by left. f_equal. apply IH. intros y Hy. apply H. by right.
Qed.

(** A client history: the pool and the blocks the callers hold.  [h_free]
    passes any pointer whatever; [h_write] is a caller storing into a block it
    holds. *)
Inductive history_step : memory_pool * list Z -> memory_pool * list Z -> Prop :=
| h_alloc p live ptr p' :
    memory_pool_alloc p = AllocOk ptr p' -> history_step (p, live) (p', ptr :: live)
| h_alloc_fail p live p' :
    memory_pool_alloc p = AllocNull p' -> history_step (p, live) (p', live)
| h_free p live ptr :
    history_step (p, live) (memory_pool_free p ptr, List.filter (fun q => negb (q =? ptr)) live)
| h_write p live m :
    length m = length (mem p) -> history_step (p, live) (set_mem p m, live)
| h_reset p live p' :
    memory_pool_reset (Some p) = (MPOOL_OK, Some p') -> history_step (p, live) (p', []).

Definition history_init (s : memory_pool * list Z) : Prop :=
  pool_inv s.1 /\ nused s.1 = 0%nat /\ s.2 = [].

Record live_inv (s : memory_pool * list Z) : Prop := {
  lv_pool : pool_inv s.1;
  lv_nodup : NoDup s.2;
  lv_used : forall ptr, ptr ∈ s.2 <->
    exists i, (i < nblocks s.1)%nat /\ in_use s.1 i = true /\ ptr = block_addr s.1 i
}.

Lemma block_addr_inj p i j : pool_inv p -> block_addr p i = block_addr p j -> i = j.
Proof. intros Hi He. pose proof (pi_bsz _ Hi). unfold block_addr in He. nia. Qed.

Lemma count_zero_none f n : count_true f n = 0%nat -> forall i, (i < n)%nat -> f i = false.
Proof.
  intros Hz i Hi. destruct (f i) eqn:Hf; [|done]. exfalso.
  assert (Hin : In i (List.filter f (seq 0 n))).
  { apply List.filter_In. split; [apply in_seq; lia|done]. }
  unfold count_true in Hz. apply nil_length_inv in Hz. by rewrite Hz in Hin.
Qed.

Lemma live_empty p : pool_inv p -> nused p = 0%nat -> live_inv (p, []).
Proof.
  intros Hi H0. constructor; simpl; [done|constructor|]. intros ptr. split.
  - intros H. by apply not_elem_of_nil in H.
  - intros (i & Hn & Hu & _). apply (count_zero_none _ _ H0) in Hn.
    unfold nused in *. congruence.
Qed.

(** Taking a block adds its address to the held ones; giving it back removes
    it. *)
Lemma live_alloc p live p' i :
  live_inv (p, live) -> pool_inv p' -> taken p p' i ->
  live_inv (p', block_addr p i :: live).
Proof.
  intros [Hi Hnd Hu] Hi' Ht; simpl in *. pose proof Ht as [Hr Hf Hus Hcfg Hba].
  assert (Haddr : forall j, block_addr p' j = block_addr p j)
    by (intros; unfold block_addr; by rewrite Hcfg, Hba).
  constructor; simpl; [done| |].
  - constructor; [|done]. intros Hin. apply Hu in Hin as (j & _ & Hj & He).
    apply block_addr_inj in He; [|done]. congruence.
  - intros ptr. rewrite elem_of_cons, Hu. unfold nblocks. rewrite Hcfg. split.
    + intros [->|(j & Hn & Hj & ->)].
      * exists i. rewrite Hus, decide_True, Haddr by done. done.
      * exists j. rewrite Hus, Haddr. split_and!; try done. by case_decide.
    + intros (j & Hn & Hj & ->). rewrite Haddr. rewrite Hus in Hj.
      case_decide; [left; by subst|]. right. eauto.
Qed.

Lemma live_free p live p' i :
  live_inv (p, live) -> pool_inv p' -> taken p' p i ->
  live_inv (p', List.filter (fun q => negb (q =? block_addr p i)) live).
Proof.
  intros [Hi Hnd Hu] Hi' Ht; simpl in *. pose proof Ht as [Hr Hf Hus Hcfg Hba].
  assert (Haddr : forall j, block_addr p' j = block_addr p j)
    by (intros; unfold block_addr; by rewrite Hcfg, Hba).
  constructor; simpl; [done| |].
  - apply NoDup_ListNoDup, List.NoDup_filter. by apply NoDup_ListNoDup.
  - intros ptr. rewrite list_elem_of_In, List.filter_In, <- list_elem_of_In, Hu.
    unfold nblocks in *. rewrite Hcfg. split.
    + intros [(j & Hn & Hj & ->) Hne]. bool_to_prop. exists j. rewrite Haddr.
      rewrite Hus in Hj. case_decide as Hd; [by subst|done].
    + intros (j & Hn & Hj & ->). rewrite Haddr. split.
      * exists j. rewrite Hus. split_and!; try done. by case_decide.
      * apply negb_true_iff, Z.eqb_neq. intros He.
        apply block_addr_inj in He; [|done]. congruence.
Qed.

Lemma live_ext p live p' : live_inv (p, live) -> pool_inv p' ->
  bitmap p' = bitmap p -> config p' = config p -> base p' = base p -> live_inv (p', live).
Proof.
  intros [Hi Hnd Hu] Hi' Hb Hc Hba. constructor; simpl in *; try done.
  unfold nblocks, in_use, block_addr. by rewrite Hb, Hc, Hba.
Qed.

Lemma history_step_inv s t : live_inv s -> history_step s t -> live_inv t.
Proof.
  intros Hs Hst. destruct Hst as [p live ptr p' Ha|p live p' Ha|p live ptr|p live m Hm|p live p' Hr].
  - pose proof (alloc_ok p (lv_pool _ Hs)) as H. rewrite Ha in H.
    destruct H as (i & -> & [Ht Hi' _ _]). by apply live_alloc.
  - pose proof (alloc_ok p (lv_pool _ Hs)) as H. rewrite Ha in H.
    destruct H as (_ & Hi' & Hb & _ & _ & Hcf & Hba). by apply (live_ext p).
  - destruct (decide (ptr ∈ live)) as [Hin|Hin].
    + apply (lv_used _ Hs) in Hin as (i & Hn & Hu & ->); simpl in *.
      destruct (free_success p i (lv_pool _ Hs) Hn Hu) as (Ht & Hi' & _).
      by apply live_free.
    + rewrite free_reject; [|apply Hs|].
      * rewrite filter_id; [done|]. intros q Hq. apply negb_true_iff, Z.eqb_neq.
        intros ->. done.
      * intros i Hn Hu ->. apply Hin, (lv_used _ Hs). eauto.
  - assert (pool_inv (set_mem p m)).
    { destruct (lv_pool _ Hs). constructor; try done. simpl. by rewrite Hm. }
    by apply (live_ext p).
  - destruct (reset_inv p (lv_pool _ Hs)) as (p2 & Hr2 & Hi' & H0 & _).
    rewrite Hr2 in Hr. simplify_eq. by apply live_empty.
Qed.

(** As many blocks are held as are in use. *)
Lemma live_length p live : live_inv (p, live) -> length live = nused p.
Proof.
  intros [Hi Hnd Hu]; simpl in *.
  set (us := List.filter (in_use p) (seq 0 (nblocks p))).
  change (nused p) with (length us). rewrite <- (length_fmap (block_addr p) us).
  apply Permutation_length, NoDup_Permutation; [done| |].
  - apply NoDup_fmap_2_strong.
    + intros x y _ _. by apply block_addr_inj.
    + apply NoDup_ListNoDup, List.NoDup_filter, NoDup_ListNoDup, NoDup_seq.
  - intros ptr. rewrite Hu, list_elem_of_fmap. unfold us. split.
    + intros (i & Hn & Hiu & ->). exists i. split; [done|].
      apply list_elem_of_In, List.filter_In. split; [apply in_seq; lia|done].
    + intros (i & -> & Hin). apply list_elem_of_In, List.filter_In in Hin as [Hs Hiu].
      apply in_seq in Hs. exists i. split_and!; [lia|done..].
Qed.

(** C5: whatever the callers do (allocate, free any pointer, reset, scribble in
    the data region), the blocks they hold are distinct, aligned, disjoint, lie
    inside the mapped region, and are exactly the ones the counters report. *)
Theorem pool_no_alias s : reachable history_init history_step s ->
  used_blocks (stats s.1) = Z.of_nat (length s.2) /\
  used_blocks (stats s.1) + free_blocks (stats s.1) = total_blocks (stats s.1) /\
  (forall p q, p ∈ s.2 -> q ∈ s.2 -> p <> q ->
     p + block_size (config s.1) <= q \/ q + block_size (config s.1) <= p) /\
  (forall p, p ∈ s.2 -> base s.1 <= p /\
     p + block_size (config s.1) <= base s.1 + pool_total_size s.1 /\
     (p - base s.1) mod block_size (config s.1) = 0).
Proof.
  intros Hr. assert (Hl : live_inv s).
  { revert s Hr. apply reachable_invariant; [|apply history_step_inv].
    intros [p live] (Hi & H0 & Hl). simpl in *. subst. by apply live_empty. }
  destruct s as [p live]. pose proof Hl as [Hi Hnd Hu]. simpl in *.
  pose proof (pi_bsz _ Hi). split_and!.
  - rewrite (pi_used _ Hi). f_equal. symmetry. by apply live_length.
  - rewrite (pi_used _ Hi), (pi_free _ Hi), (pi_tot _ Hi). lia.
  - intros a b (i & Hn & _ & ->)%Hu (j & Hm & _ & ->)%Hu Hne. unfold block_addr in *.
    assert (i <> j) by congruence. destruct (Nat.lt_ge_cases i j); [left|right]; nia.
  - intros a (i & Hn & _ & ->)%Hu. destruct (block_off p i Hi Hn) as (_ & Hin & _).
    unfold block_addr. split_and!; [nia|lia|].
    replace (base p + Z.of_nat i * block_size (config p) - base p)
      with (Z.of_nat i * block_size (config p)) by lia. apply Z.mod_mul. lia.
Qed.

(** The size of the data region is computed without an overflow check:
    for a valid-looking configuration the region the creation maps is smaller
    than its blocks, and an allocation zeroes bytes outside it. *)
Theorem create_size_overflow a :
  let c := mk_config (2 ^ 60 + 256) 16 0 None in
  memory_pool_create (mk_mmap true (Some a) true) (Some c) <> None /\
  forall p, memory_pool_create (mk_mmap true (Some a) true) (Some c) = Some p ->
    pool_total_size p = 4096 /\ memory_pool_alloc p = AllocUB.
Proof.
  cbv zeta. split; [by vm_compute|]. intros p Hp.
  assert (He : match memory_pool_create (mk_mmap true (Some a) true)
      (Some (mk_config (2 ^ 60 + 256) 16 0 None)) with
    | Some p => pool_total_size p = 4096 /\ memory_pool_alloc p = AllocUB
    | None => False end) by (vm_compute; done).
  by rewrite Hp in He.
Qed.

(** ** Witnesses *)

Definition cfg0 : memory_pool_config_t := mk_config 5 3 0 None.
Definition pool0 : memory_pool :=
  mk_pool 4096 (replicate 24 0) [0] 0 (mk_config 8 3 0 (Some "unnamed_pool"%string))
    (mk_stats 3 3 0 0 0 0 0) 24 1 "unnamed_pool".

Example pool0_created :
  memory_pool_create (mk_mmap true (Some 4096) true) (Some cfg0) = Some pool0.
Proof. vm_compute. reflexivity. Qed.

Lemma pool0_inv : pool_inv pool0 /\ nused pool0 = 0%nat.
Proof. by apply (create_inv _ _ _ _ pool0_created eq_refl). Qed.

Lemma alloc_spec_witness :
  match memory_pool_alloc pool0 with
  | AllocUB => False
  | AllocNull p' => nused pool0 = nblocks pool0 /\ pool_inv p' /\ bitmap p' = bitmap pool0 /\
      mem p' = mem pool0 /\ fail_count (stats p') = u64 (fail_count (stats pool0) + 1)
  | AllocOk ptr p' => exists i, ptr = block_addr pool0 i /\ alloc_effect pool0 p' i
  end.
Proof. apply (alloc_spec pool0). apply pool0_inv. Defined.

Definition pool1 : memory_pool :=
  match memory_pool_alloc pool0 with AllocOk _ p => p | _ => pool0 end.

Lemma pool1_inv : pool_inv pool1.
Proof.
  pose proof (alloc_ok pool0 (proj1 pool0_inv)) as H. unfold pool1.
  destruct (memory_pool_alloc pool0) eqn:E; [apply pool0_inv| |done].
  destruct H as (i & _ & He). apply He.
Qed.

Lemma free_spec_witness :
  let p' := memory_pool_free pool1 4096 in
  (taken p' pool1 0 /\ pool_inv p' /\ mem p' = mem pool1) /\
  memory_pool_free pool1 4104 = pool1.
Proof.
  split.
  - apply (proj1 (free_spec pool1 4096 pool1_inv) 0%nat); [vm_compute; lia|done|done].
  - apply (proj2 (free_spec pool1 4104 pool1_inv)). intros i Hi Hu.
    change (nblocks pool1) with 3%nat in Hi. change (block_addr pool1 i) with (4096 + Z.of_nat i * 8).
    destruct i as [|[|[|i]]]; [lia|by vm_compute in Hu|by vm_compute in Hu|lia].
Defined.

Lemma pool_no_alias_witness :
  used_blocks (stats pool1) = 1 /\
  used_blocks (stats pool1) + free_blocks (stats pool1) = total_blocks (stats pool1).
Proof.
  assert (Hr : reachable history_init history_step (pool1, [4096])).
  { exists (pool0, []). split; [split; [apply pool0_inv|]; split; [apply pool0_inv|done]|].
    apply rtc_once, h_alloc. vm_compute. reflexivity. }
  destruct (pool_no_alias _ Hr) as (H1 & H2 & _). exact (conj H1 H2).
Defined.
