(* ===== verification/Registry.v ===== *)
(** * The service registry (infrastructure/sm_registry.c)

    The array, its count, the node pool and the hash chains are modelled
    as the code lays them out: a chain is a linked list of pool indices.  The
    read-write lock makes each public operation one atomic step; log calls are
    left out.  [kill (pid, 0)] and [time (NULL)] are inputs. *)

From S2P Require Import Prelude.

(** [dev/core/service_manager/infrastructure/sm_protocol.h:28-37 response codes] *)
Definition SM_OK : Z := 0.
Definition SM_ERR_NOT_FOUND : Z := -1.
Definition SM_ERR_FULL : Z := -2.
Definition SM_ERR_EXISTS : Z := -3.
Definition SM_ERR_INVALID : Z := -4.
Definition SM_ERR_PROTOCOL : Z := -5.
Definition SM_ERR_PERMISSION : Z := -6.
Definition SM_ERR_RATELIMIT : Z := -7.
Definition SM_ERR_AUTH : Z := -8.

(** [dev/core/service_manager/infrastructure/sm_protocol.h:70-75 SM_MAX_SERVICES] *)
Definition SM_MAX_SERVICES : nat := 32.
Definition SM_MAX_NAME : nat := 64.
Definition SM_MAX_PATH : nat := 256.
Definition HASH_SIZE : nat := 64.

#[global] Arguments SM_MAX_SERVICES : simpl never.
#[local] Arguments Nat.leb : simpl never.
#[local] Arguments Nat.ltb : simpl never.
#[global] Arguments SM_MAX_NAME : simpl never.
#[global] Arguments HASH_SIZE : simpl never.

(** [dev/core/service_manager/infrastructure/sm_registry.h:16-21 service_status_t] *)
Inductive service_status_t :=
| SERVICE_RUNNING | SERVICE_STOPPED | SERVICE_CRASHED | SERVICE_DEAD.

#[export] Instance service_status_eq : EqDecision service_status_t.
Proof. solve_decision. Defined.

(** [dev/core/service_manager/lifecycle/sm_service_tier.h:10-15 service_tier_t] *)
Inductive service_tier_t :=
| SVC_TIER_CRITICAL | SVC_TIER_HIGH | SVC_TIER_NORMAL | SVC_TIER_LOW.

#[export] Instance service_tier_eq : EqDecision service_tier_t.
Proof. solve_decision. Defined.

(** [dev/core/service_manager/infrastructure/sm_registry.h:25-45 service_entry_t] *)
Record service_entry_t := mk_entry {
  name : string;
  socket_path : string;
  ring_name : string;
  pid : Z; uid : Z; gid : Z;
  registered_at : Z;
  tier : service_tier_t;
  health_status : Z;
  request_count : Z;
  status : service_status_t;
  last_heartbeat : Z;
  last_crash_time : Z;
  restart_count : Z
}.

(** The all-zero entry of [memset]. *)
Definition zero_entry : service_entry_t :=
  mk_entry "" "" "" 0 0 0 0 SVC_TIER_CRITICAL 0 0 SERVICE_RUNNING 0 0 0.

#[export] Instance entry_inhabited : Inhabited service_entry_t := populate zero_entry.

(** [dev/core/service_manager/infrastructure/sm_registry.c:47-50 hash_node_t]
    [next] is a pool index. *)
Record hash_node_t := mk_node { registry_idx : nat; next : option nat }.

#[export] Instance node_inhabited : Inhabited hash_node_t := populate (mk_node 0 None).

(** [dev/core/service_manager/infrastructure/sm_registry.c:39-54 registry] *)
Record registry_state := mk_reg {
  registry : list service_entry_t;
  registry_count : nat;
  hash_pool : list hash_node_t;
  hash_pool_used : nat;
  hash_table : list (option nat)
}.

(** [dev/core/service_manager/infrastructure/sm_registry.c:57-62 hash_name] *)
Fixpoint hash_from (h : Z) (s : string) : Z :=
  match s with
  | EmptyString => h
  | String c s' => hash_from (Z.lxor (u32 (u32 (Z.shiftl h 5) + h)) (byte_of c)) s'
  end.

(** [dev/core/service_manager/infrastructure/sm_registry.c:57-62 hash_name] *)
Definition hash_name (s : string) : nat := Z.to_nat (Z.land (hash_from 5381 s) 63).

(** [dev/core/service_manager/infrastructure/sm_registry.c:64-71 hash_insert] *)
Definition hash_insert (s : registry_state) (nm : string) (idx : nat) : registry_state :=
  let slot := hash_name nm in
  let n := hash_pool_used s in
  mk_reg (registry s) (registry_count s)
         (<[n := mk_node idx (hash_table s !!! slot)]> (hash_pool s)) (S n)
         (<[slot := Some n]> (hash_table s)).

Definition name_at (s : registry_state) (idx : nat) : string := name (registry s !!! idx).

(** [dev/core/service_manager/infrastructure/sm_registry.c:76-81 hash_find, the
    loop] [None]: out of fuel. *)
Fixpoint hash_walk (fuel : nat) (s : registry_state) (nm : string) (node : option nat)
    : option Z :=
  match fuel with
  | O => None
  | S fuel' =>
      match node with
      | None => Some (-1)
      | Some i =>
          let nd := hash_pool s !!! i in
          if strncmp_eq SM_MAX_NAME (name_at s (registry_idx nd)) nm
          then Some (Z.of_nat (registry_idx nd))
          else hash_walk fuel' s nm (next nd)
      end
  end.

(** A chain holds each pool node at most once. *)
Definition chain_fuel : nat := S SM_MAX_SERVICES.

(** [dev/core/service_manager/infrastructure/sm_registry.c:73-83 hash_find] *)
Definition hash_find (s : registry_state) (nm : string) : Z :=
  default (-1) (hash_walk chain_fuel s nm (hash_table s !!! hash_name nm)).

(** [dev/core/service_manager/infrastructure/sm_registry.c:85-96 hash_remove]
    [prev] is the node whose [next] field [cur] points to, or the slot head. *)
Fixpoint hash_unlink (fuel : nat) (s : registry_state) (nm : string)
    (prev node : option nat) : registry_state :=
  match fuel, node with
  | S fuel', Some i =>
      let nd := hash_pool s !!! i in
      if strncmp_eq SM_MAX_NAME (name_at s (registry_idx nd)) nm then
        match prev with
        | None => mk_reg (registry s) (registry_count s) (hash_pool s) (hash_pool_used s)
                         (<[hash_name nm := next nd]> (hash_table s))
        | Some p => mk_reg (registry s) (registry_count s)
                      (<[p := mk_node (registry_idx (hash_pool s !!! p)) (next nd)]> (hash_pool s))
                      (hash_pool_used s) (hash_table s)
        end
      else hash_unlink fuel' s nm (Some i) (next nd)
  | _, _ => s
  end.

(** [dev/core/service_manager/infrastructure/sm_registry.c:85-96 hash_remove] *)
Definition hash_remove (s : registry_state) (nm : string) : registry_state :=
  hash_unlink chain_fuel s nm None (hash_table s !!! hash_name nm).

Definition empty_pool : list hash_node_t := replicate SM_MAX_SERVICES (mk_node 0 None).
Definition empty_table : list (option nat) := replicate HASH_SIZE None.

(** [dev/core/service_manager/infrastructure/sm_registry.c:113-115 hash_rebuild,
    the loop] from index [i], [n] entries to go. *)
Fixpoint rebuild_from (s : registry_state) (i n : nat) : registry_state :=
  match n with
  | O => s
  | S n' => rebuild_from (hash_insert s (name_at s i) i) (S i) n'
  end.

(** [dev/core/service_manager/infrastructure/sm_registry.c:106-116 hash_rebuild] *)
Definition hash_rebuild (s : registry_state) : registry_state :=
  let limit := if Nat.ltb (registry_count s) SM_MAX_SERVICES
               then registry_count s else SM_MAX_SERVICES in
  rebuild_from (mk_reg (registry s) (registry_count s) empty_pool 0 empty_table) 0 limit.

(** [dev/core/service_manager/infrastructure/sm_registry.c:124-135 name_is_valid] *)
Fixpoint has_nonspace (s : string) : bool :=
  match s with
  | EmptyString => false
  | String c s' => if negb (isspace c) then true else has_nonspace s'
  end.

(** [dev/core/service_manager/infrastructure/sm_registry.c:124-135 name_is_valid] *)
Definition name_is_valid (s : string) : bool :=
  match s with EmptyString => false | _ => has_nonspace s end.

(** [dev/core/service_manager/infrastructure/sm_registry.c:139-149 sm_registry_init] *)
Definition sm_registry_init : registry_state :=
  mk_reg (replicate SM_MAX_SERVICES zero_entry) 0 empty_pool 0 empty_table.

(** [dev/core/service_manager/infrastructure/sm_registry.c:399-408 sm_registry_cleanup] *)
Definition sm_registry_cleanup (s : registry_state) : registry_state :=
  mk_reg (replicate SM_MAX_SERVICES zero_entry) 0 empty_pool 0 empty_table.

(** [dev/core/service_manager/infrastructure/sm_registry.c:327-329 compaction]
    [registry[i] = registry[i + 1]] from [i], [n] times. *)
Fixpoint shift_down (r : list service_entry_t) (i n : nat) : list service_entry_t :=
  match n with
  | O => r
  | S n' => shift_down (<[i := r !!! S i]> r) (S i) n'
  end.

(** [dev/core/service_manager/infrastructure/sm_registry.c:323-334 removal of
    the entry at [idx]] *)
Definition remove_at (s : registry_state) (nm : string) (idx : nat) : registry_state :=
  let s1 := hash_remove s nm in
  let c := registry_count s1 in
  let r := <[(c - 1)%nat := zero_entry]> (shift_down (registry s1) idx (c - 1 - idx)) in
  hash_rebuild (mk_reg r (c - 1) (hash_pool s1) (hash_pool_used s1) (hash_table s1)).

(** What [sm_registry_add] writes over the caller's entry. *)
Definition fresh_entry (e : service_entry_t) (t1 t2 : Z) : service_entry_t :=
  mk_entry (name e) (socket_path e) (ring_name e) (pid e) (uid e) (gid e) t1 (tier e)
    (health_status e) (request_count e) SERVICE_RUNNING t2 0 0.

(** [dev/core/service_manager/infrastructure/sm_registry.c:192-202
    sm_registry_add, insertion] *)
Definition insert_entry (s : registry_state) (e : service_entry_t) (t1 t2 : Z) : registry_state :=
  let idx := registry_count s in
  hash_insert (mk_reg (<[idx := fresh_entry e t1 t2]> (registry s)) (S idx)
                 (hash_pool s) (hash_pool_used s) (hash_table s)) (name e) idx.

(** [dev/core/service_manager/infrastructure/sm_registry.c:153-210 sm_registry_add]
    [alive pid] is [kill (pid, 0) == 0 || errno != ESRCH]; [t1] and [t2] are the
    two clock readings. *)
Definition sm_registry_add (alive : Z -> bool) (t1 t2 : Z) (e : option service_entry_t)
    (s : registry_state) : Z * registry_state :=
  match e with
  | None => (SM_ERR_INVALID, s)
  | Some e =>
      if negb (name_is_valid (name e)) then (SM_ERR_INVALID, s)
      else
        let existing := hash_find s (name e) in
        if (0 <=? existing) && alive (pid (registry s !!! Z.to_nat existing))
        then (SM_ERR_EXISTS, s)
        else
          let s1 := if 0 <=? existing then remove_at s (name e) (Z.to_nat existing) else s in
          if Nat.leb SM_MAX_SERVICES (registry_count s1) then (SM_ERR_FULL, s1)
          else (SM_OK, insert_entry s1 e t1 t2)
  end.

(** [dev/core/service_manager/infrastructure/sm_registry.c:224-233 sm_registry_find]
    The pointer returned is the index of the element it points to. *)
Definition sm_registry_find (nm : option string) (s : registry_state) : option nat :=
  match nm with
  | None => None
  | Some nm => let idx := hash_find s nm in if idx <? 0 then None else Some (Z.to_nat idx)
  end.

(** [dev/core/service_manager/infrastructure/sm_registry.c:417-433 sm_registry_find_copy] *)
Definition sm_registry_find_copy (nm : option string) (out : bool) (s : registry_state)
    : Z * option service_entry_t :=
  match nm with
  | None => (SM_ERR_INVALID, None)
  | Some nm =>
      if negb out then (SM_ERR_INVALID, None)
      else let idx := hash_find s nm in
           if idx <? 0 then (SM_ERR_NOT_FOUND, None)
           else (SM_OK, Some (registry s !!! Z.to_nat idx))
  end.

Definition set_entry (s : registry_state) (idx : nat) (e : service_entry_t) : registry_state :=
  mk_reg (<[idx := e]> (registry s)) (registry_count s) (hash_pool s) (hash_pool_used s)
         (hash_table s).

(** [dev/core/service_manager/infrastructure/sm_registry.c:256-266
    sm_registry_update_status, the stores] *)
Definition entry_set_status (e : service_entry_t) (st : service_status_t) (now : Z)
    : service_entry_t :=
  mk_entry (name e) (socket_path e) (ring_name e) (pid e) (uid e) (gid e)
    (registered_at e) (tier e) (health_status e) (request_count e) st (last_heartbeat e)
    (if decide (st = SERVICE_CRASHED) then now else last_crash_time e)
    (if decide (st = SERVICE_CRASHED) then i32 (restart_count e + 1) else restart_count e).

(** [dev/core/service_manager/infrastructure/sm_registry.c:237-274
    sm_registry_update_status] *)
Definition sm_registry_update_status (nm : option string) (st : service_status_t) (now : Z)
    (s : registry_state) : Z * registry_state :=
  match nm with
  | None => (SM_ERR_INVALID, s)
  | Some nm =>
      let idx := hash_find s nm in
      if idx <? 0 then (SM_ERR_NOT_FOUND, s)
      else let i := Z.to_nat idx in
           (SM_OK, set_entry s i (entry_set_status (registry s !!! i) st now))
  end.

Definition entry_heartbeat (e : service_entry_t) (now : Z) : service_entry_t :=
  mk_entry (name e) (socket_path e) (ring_name e) (pid e) (uid e) (gid e)
    (registered_at e) (tier e) (health_status e) (request_count e) SERVICE_RUNNING now
    (last_crash_time e) (restart_count e).

(** [dev/core/service_manager/infrastructure/sm_registry.c:278-302
    sm_registry_update_heartbeat] *)
Definition sm_registry_update_heartbeat (nm : option string) (now : Z) (s : registry_state)
    : Z * registry_state :=
  match nm with
  | None => (SM_ERR_INVALID, s)
  | Some nm =>
      let idx := hash_find s nm in
      if idx <? 0 then (SM_ERR_NOT_FOUND, s)
      else let i := Z.to_nat idx in
           (SM_OK, set_entry s i (entry_heartbeat (registry s !!! i) now))
  end.

(** [dev/core/service_manager/infrastructure/sm_registry.c:306-341 sm_registry_remove] *)
Definition sm_registry_remove (nm : option string) (s : registry_state) : Z * registry_state :=
  match nm with
  | None => (SM_ERR_INVALID, s)
  | Some nm =>
      let idx := hash_find s nm in
      if idx <? 0 then (SM_ERR_NOT_FOUND, s)
      else (SM_OK, remove_at s nm (Z.to_nat idx))
  end.

(** [dev/core/service_manager/infrastructure/sm_registry.c:441-483
    sm_registry_remove_if_owner] *)
Definition sm_registry_remove_if_owner (nm : option string) (owner_pid : Z)
    (s : registry_state) : Z * registry_state :=
  match nm with
  | None => (SM_ERR_INVALID, s)
  | Some nm =>
      let idx := hash_find s nm in
      if idx <? 0 then (SM_ERR_NOT_FOUND, s)
      else if negb (pid (registry s !!! Z.to_nat idx) =? owner_pid)
           then (SM_ERR_PERMISSION, s)
           else (SM_OK, remove_at s nm (Z.to_nat idx))
  end.

(** [dev/core/service_manager/infrastructure/sm_registry.c:345-380 sm_registry_get_all]
    [mem]: whether [malloc] succeeds. *)
Definition sm_registry_get_all (out mem : bool) (s : registry_state)
    : Z * option (list service_entry_t) :=
  if negb out then (SM_ERR_INVALID, None)
  else if Nat.eqb (registry_count s) 0 then (SM_OK, Some [])
  else if negb mem then (SM_ERR_FULL, None)
  else (SM_OK, Some (take (registry_count s) (registry s))).

(** [dev/core/service_manager/infrastructure/sm_registry.c:389-395 sm_registry_count] *)
Definition sm_registry_count (s : registry_state) : Z := Z.of_nat (registry_count s).

(** ** The hash chains as a function of the array

    The slot of hash [h] heads the list of the array indices with that hash,
    most recent first; node [i] of the pool describes entry [i]. *)

Fixpoint last_with (slot : nat) (nm : nat -> string) (n : nat) : option nat :=
  match n with
  | O => None
  | S n' => if Nat.eqb (hash_name (nm n')) slot then Some n' else last_with slot nm n'
  end.

Record hash_ok (s : registry_state) (n : nat) : Prop := {
  ho_pool : length (hash_pool s) = SM_MAX_SERVICES;
  ho_table : length (hash_table s) = HASH_SIZE;
  ho_used : hash_pool_used s = n;
  ho_heads : forall slot, (slot < HASH_SIZE)%nat ->
    hash_table s !!! slot = last_with slot (name_at s) n;
  ho_nodes : forall i, (i < n)%nat -> hash_pool s !!! i =
    mk_node i (last_with (hash_name (name_at s i)) (name_at s) i)
}.

Lemma hash_name_lt nm : (hash_name nm < HASH_SIZE)%nat.
Proof.
  unfold hash_name, HASH_SIZE. change 63 with (Z.ones 6).
  rewrite Z.land_ones by lia. pose proof (Z.mod_pos_bound (hash_from 5381 nm) (2 ^ 6)). lia.
Qed.

Lemma last_with_lt slot nm n i : last_with slot nm n = Some i -> (i < n)%nat.
Proof.
  induction n as [|n IH]; simpl; [done|]. case_match; intros; simplify_eq; [lia|].
  specialize (IH H0). lia.
Qed.

Lemma total_insert_eq {A} `{!Inhabited A} (l : list A) i x :
  (i < length l)%nat -> <[i := x]> l !!! i = x.
Proof. intros. by apply list_lookup_total_insert_eq. Qed.

Lemma hash_insert_ok s n :
  hash_ok s n -> (n < SM_MAX_SERVICES)%nat -> hash_ok (hash_insert s (name_at s n) n) (S n).
Proof.
  intros [Hp Ht Hu Hh Hn] Hlt. pose proof (hash_name_lt (name_at s n)) as Hs.
  set (s' := hash_insert s (name_at s n) n). assert (Hna : name_at s' = name_at s) by done.
  constructor; rewrite ?Hna; unfold s', hash_insert; rewrite ?Hu; cbn [hash_pool hash_table
    hash_pool_used]; rewrite ?length_insert; try done.
  - intros slot Hslot. simpl last_with.
    destruct (Nat.eqb_spec (hash_name (name_at s n)) slot) as [->|Hne].
    + apply total_insert_eq. lia.
    + rewrite list_lookup_total_insert_ne by done. by apply Hh.
  - intros i Hi. destruct (decide (i = n)) as [->|].
    + rewrite total_insert_eq by lia. by rewrite Hh by done.
    + rewrite list_lookup_total_insert_ne by lia. apply Hn. lia.
Qed.

Lemma rebuild_from_ok n : forall s i,
  hash_ok s i -> (i + n <= SM_MAX_SERVICES)%nat ->
  let s' := rebuild_from s i n in
  hash_ok s' (i + n) /\ registry s' = registry s /\ registry_count s' = registry_count s.
Proof.
  induction n as [|n IH]; intros s i Hs Hi; simpl; [by rewrite Nat.add_0_r|].
  pose proof (hash_insert_ok s i Hs ltac:(lia)) as H1.
  destruct (IH _ _ H1 ltac:(lia)) as (H2 & H3 & H4).
  rewrite <- Nat.add_succ_comm. done.
Qed.

(** Whatever the chains were, a rebuild makes them right. *)
Lemma hash_rebuild_ok s : (registry_count s <= SM_MAX_SERVICES)%nat ->
  let s' := hash_rebuild s in
  hash_ok s' (registry_count s) /\ registry s' = registry s /\
  registry_count s' = registry_count s.
Proof.
  intros Hc. unfold hash_rebuild. set (s0 := mk_reg _ _ _ _ _).
  assert (H0 : hash_ok s0 0).
  { constructor; simpl; try done; [|lia].
    intros slot Hs. unfold empty_table. by rewrite lookup_total_replicate_2 by done. }
  destruct (Nat.ltb_spec (registry_count s) SM_MAX_SERVICES).
  - apply (rebuild_from_ok _ s0 0 H0). lia.
  - replace SM_MAX_SERVICES with (registry_count s) at 1 2 3 by lia.
    apply (rebuild_from_ok _ s0 0 H0). lia.
Qed.

Lemma hash_unlink_registry fuel s nm prev node :
  registry (hash_unlink fuel s nm prev node) = registry s /\
  registry_count (hash_unlink fuel s nm prev node) = registry_count s.
Proof.
  revert prev node. induction fuel as [|fuel IH]; intros prev node; [done|].
  destruct node as [i|]; [|done]. cbn [hash_unlink]. cbv zeta. case_match; [|apply IH].
  by case_match.
Qed.

(** The walk ends within the fuel and finds the entry if its slot has it. *)
Lemma hash_walk_spec s n nm slot m fuel :
  hash_ok s n -> (m <= n)%nat -> (m < fuel)%nat ->
  exists r, hash_walk fuel s nm (last_with slot (name_at s) m) = Some r /\
  ((r = -1 /\ forall j, (j < m)%nat -> hash_name (name_at s j) = slot ->
      strncmp_eq SM_MAX_NAME (name_at s j) nm = false) \/
   (exists j, (j < m)%nat /\ r = Z.of_nat j /\ strncmp_eq SM_MAX_NAME (name_at s j) nm = true)).
Proof.
  intros Hok. revert fuel. induction m as [|m IH]; intros [|fuel] Hm Hf; try lia.
  { exists (-1). split; [done|]. left. split; [done|]. intros; lia. }
  simpl last_with. destruct (Nat.eqb_spec (hash_name (name_at s m)) slot) as [Heq|Hne].
  - cbn [hash_walk]. rewrite (ho_nodes _ _ Hok) by lia. cbn [registry_idx next].
    destruct (strncmp_eq SM_MAX_NAME (name_at s m) nm) eqn:He.
    { exists (Z.of_nat m). split; [done|]. right. exists m. split_and!; [lia|done|done]. }
    rewrite Heq. destruct (IH fuel ltac:(lia) ltac:(lia)) as (r & Hr & Hcase).
    exists r. split; [done|]. destruct Hcase as [[-> Hall]|(j & Hj & -> & Hs)].
    + left. split; [done|]. intros j Hj Hh. destruct (decide (j = m)) as [->|]; [done|].
      apply Hall; [lia|done].
    + right. exists j. split_and!; [lia|done|done].
  - destruct (IH (S fuel) ltac:(lia) ltac:(lia)) as (r & Hr & Hcase).
    exists r. split; [done|]. destruct Hcase as [[-> Hall]|(j & Hj & -> & Hs)].
    + left. split; [done|]. intros j Hj Hh. destruct (decide (j = m)) as [->|]; [done|].
      apply Hall; [lia|done].
    + right. exists j. split_and!; [lia|done|done].
Qed.

(** ** Invariant and abstraction *)

(** The live entries, in order of registration. *)
Definition live (s : registry_state) : list service_entry_t :=
  take (registry_count s) (registry s).

Definition entry_ok (e : service_entry_t) : Prop :=
  (String.length (name e) < SM_MAX_NAME)%nat /\ name_is_valid (name e) = true.

Record reg_inv (s : registry_state) : Prop := {
  ri_len : length (registry s) = SM_MAX_SERVICES;
  ri_count : (registry_count s <= SM_MAX_SERVICES)%nat;
  ri_hash : hash_ok s (registry_count s);
  ri_names : Forall entry_ok (live s);
  ri_uniq : NoDup (name <$> live s)
}.

Lemma strncmp_eq_left a b :
  (String.length a < SM_MAX_NAME)%nat -> strncmp_eq SM_MAX_NAME a b = true <-> a = b.
Proof.
  intros Ha. destruct (decide (String.length b < SM_MAX_NAME)%nat) as [|Hb];
    [by apply strncmp_eq_short|].
  split; [|intros ->; done]. intros He. exfalso. unfold strncmp_eq in He. bool_to_prop.
  rewrite strncpy_z_short in He by lia. apply Hb. rewrite He in Ha.
  clear He Hb a. revert b Ha. unfold SM_MAX_NAME. generalize 64%nat.
  induction n as [|n IH]; intros [|c b] Hl; simpl in *; try lia.
  apply -> Nat.succ_lt_mono. apply IH. lia.
Qed.

Lemma lookup_live s i : (i < registry_count s)%nat -> live s !! i = registry s !! i.
Proof. intros. unfold live. by apply lookup_take_lt. Qed.

Lemma live_total s i : reg_inv s -> (i < registry_count s)%nat ->
  live s !! i = Some (registry s !!! i).
Proof.
  intros Hi Hl. rewrite lookup_live by done. apply list_lookup_lookup_total_lt.
  rewrite (ri_len _ Hi). pose proof (ri_count _ Hi). lia.
Qed.

Lemma length_live s : reg_inv s -> length (live s) = registry_count s.
Proof.
  intros Hi. unfold live. rewrite length_take, (ri_len _ Hi). pose proof (ri_count _ Hi). lia.
Qed.

(** Linear search: the specification of the hash lookup. *)
Definition find_idx (nm : string) (l : list service_entry_t) : option nat :=
  fst <$> list_find (fun e => name e = nm) l.

Lemma find_idx_some nm l i : NoDup (name <$> l) ->
  find_idx nm l = Some i <-> exists e, l !! i = Some e /\ name e = nm.
Proof.
  intros Hnd. unfold find_idx. split.
  - destruct (list_find _ l) as [[k e]|] eqn:Hf; [|done]. intros; simplify_eq/=.
    apply list_find_Some in Hf as (? & ? & _). eauto.
  - intros (e & He & Hn). destruct (list_find _ l) as [[k e']|] eqn:Hf.
    + apply list_find_Some in Hf as (Hk & Hn' & _). simpl. f_equal.
      apply (NoDup_lookup _ _ _ nm Hnd); rewrite list_lookup_fmap.
      * rewrite Hk. simpl. by rewrite Hn'.
      * rewrite He. simpl. by rewrite Hn.
    + apply list_find_None in Hf. rewrite Forall_forall in Hf.
      exfalso. apply (Hf e); [by eapply list_elem_of_lookup_2|done].
Qed.

Lemma find_idx_none nm l : find_idx nm l = None <-> nm ∉ (name <$> l).
Proof.
  unfold find_idx. rewrite fmap_None, list_find_None, Forall_forall, list_elem_of_fmap.
  split; [intros H (e & -> & He); by apply (H e) | intros H e He <-; eauto].
Qed.

(** The hash lookup computes the linear search. *)
Lemma hash_find_live s nm : reg_inv s ->
  hash_find s nm = match find_idx nm (live s) with Some i => Z.of_nat i | None => -1 end.
Proof.
  intros Hi. unfold hash_find. rewrite (ho_heads _ _ (ri_hash _ Hi)) by apply hash_name_lt.
  destruct (hash_walk_spec s _ nm (hash_name nm) (registry_count s) chain_fuel
    (ri_hash _ Hi)) as (r & -> & Hr); [done| |].
  { pose proof (ri_count _ Hi). unfold chain_fuel. lia. }
  assert (Hshort : forall j, (j < registry_count s)%nat ->
    strncmp_eq SM_MAX_NAME (name_at s j) nm = true <-> name_at s j = nm).
  { intros j Hj. apply strncmp_eq_left. pose proof (ri_names _ Hi) as Hf.
    rewrite Forall_lookup in Hf. apply (Hf j). by apply live_total. }
  simpl. destruct Hr as [[-> Hall]|(j & Hj & -> & Hs)].
  - destruct (find_idx nm (live s)) as [i|] eqn:Hf; [|done].
    apply find_idx_some in Hf as (e & He & <-); [|apply Hi].
    pose proof (lookup_lt_Some _ _ _ He) as Hlt. rewrite length_live in Hlt by done.
    rewrite live_total in He by done. injection He as <-.
    specialize (Hall i Hlt eq_refl). apply not_true_iff_false in Hall.
    exfalso. apply Hall, Hshort; done.
  - apply Hshort in Hs; [|done]. replace (find_idx nm (live s)) with (Some j); [done|].
    symmetry. apply find_idx_some; [apply Hi|]. eexists. split; [by apply live_total|done].
Qed.

(** ** The structural operations *)

Lemma lookup_shift_down n : forall r i k, (i + n < length r)%nat ->
  length (shift_down r i n) = length r /\
  shift_down r i n !! k = if decide (i <= k < i + n)%nat then r !! S k else r !! k.
Proof.
  induction n as [|n IH]; intros r i k Hl; cbn [shift_down].
  { by rewrite decide_False by lia. }
  destruct (IH (<[i := r !!! S i]> r) (S i) k) as [Hlen Hk]; [rewrite length_insert; lia|].
  rewrite length_insert in Hlen. split; [done|]. rewrite Hk.
  destruct (decide (k = i)) as [->|].
  - rewrite decide_False, decide_True by lia. rewrite list_lookup_insert_eq by lia.
    symmetry. apply list_lookup_lookup_total_lt. lia.
  - case_decide.
    + rewrite decide_True by lia. apply list_lookup_insert_ne. lia.
    + rewrite decide_False by lia. apply list_lookup_insert_ne. lia.
Qed.

(** Removing at [idx] deletes that entry and nothing else. *)
Lemma remove_at_live s nm idx : reg_inv s -> (idx < registry_count s)%nat ->
  let s' := remove_at s nm idx in
  reg_inv s' /\ live s' = delete idx (live s).
Proof.
  intros Hi Hlt s'. unfold s', remove_at, hash_remove.
  destruct (hash_unlink_registry chain_fuel s nm None (hash_table s !!! hash_name nm)) as [Hr Hc].
  set (s1 := hash_unlink _ _ _ _ _) in *. clearbody s1.
  pose proof (ri_len _ Hi) as Hlen. pose proof (ri_count _ Hi) as Hcnt.
  set (c := registry_count s) in *.
  set (r := <[(registry_count s1 - 1)%nat := zero_entry]> _).
  assert (Hrl : length r = SM_MAX_SERVICES).
  { unfold r. rewrite length_insert, Hr, Hc.
    destruct (lookup_shift_down (c - 1 - idx) (registry s) idx 0) as [-> _]; [lia|done]. }
  set (s2 := mk_reg r _ _ _ _).
  assert (Hc2 : registry_count s2 = (c - 1)%nat) by (simpl; by rewrite Hc).
  destruct (hash_rebuild_ok s2) as (Hok & Hreg & Hcount); [lia|].
  assert (Hlive : live (hash_rebuild s2) = delete idx (live s)).
  { unfold live. rewrite Hreg, Hcount, Hc2. apply list_eq. intros k. fold c.
    destruct (decide (k < c - 1)%nat) as [Hk|Hk].
    - rewrite lookup_take_lt by lia. change (registry s2) with r. unfold r. rewrite Hr, Hc.
      rewrite list_lookup_insert_ne by lia.
      destruct (lookup_shift_down (c - 1 - idx) (registry s) idx k) as [_ ->]; [lia|].
      case_decide.
      + rewrite list_lookup_delete_ge by lia. by rewrite lookup_take_lt by lia.
      + rewrite list_lookup_delete_lt by lia. by rewrite lookup_take_lt by lia.
    - rewrite lookup_take_ge by lia. symmetry. apply lookup_ge_None.
      rewrite length_delete by (apply lookup_lt_is_Some_2; rewrite length_take; lia).
      rewrite length_take. lia. }
  split; [|done]. constructor.
  - by rewrite Hreg.
  - rewrite Hcount. lia.
  - rewrite Hcount. exact Hok.
  - rewrite Hlive. apply Forall_delete, Hi.
  - rewrite Hlive, list_fmap_delete. apply (sublist_NoDup _ (name <$> live s)); [apply Hi|].
    apply sublist_delete.
Qed.

(** Array updates that keep the names keep the chains. *)
Lemma hash_ok_names s s' n : hash_ok s n -> (forall i, (i < n)%nat -> name_at s' i = name_at s i) ->
  hash_pool s' = hash_pool s -> hash_table s' = hash_table s ->
  hash_pool_used s' = hash_pool_used s -> hash_ok s' n.
Proof.
  intros [Hp Ht Hu Hh Hn] Hna Hpe Hte Hue.
  assert (Hlw : forall slot m, (m <= n)%nat ->
    last_with slot (name_at s') m = last_with slot (name_at s) m).
  { intros slot m. induction m as [|m IH]; intros Hm; [done|]. simpl.
    rewrite Hna, IH by lia. done. }
  constructor; rewrite ?Hpe, ?Hte, ?Hue; try done.
  - intros slot Hs. rewrite Hlw by lia. by apply Hh.
  - intros i Hi. rewrite Hna, Hlw by lia. by apply Hn.
Qed.

Lemma insert_entry_live s e t1 t2 : reg_inv s -> entry_ok e ->
  (registry_count s < SM_MAX_SERVICES)%nat -> name e ∉ (name <$> live s) ->
  let s' := insert_entry s e t1 t2 in
  reg_inv s' /\ live s' = live s ++ [fresh_entry e t1 t2].
Proof.
  intros Hi He Hc Hnew s'.
  set (s1 := mk_reg (<[registry_count s := fresh_entry e t1 t2]> (registry s))
               (S (registry_count s)) (hash_pool s) (hash_pool_used s) (hash_table s)).
  pose proof (ri_len _ Hi) as Hlen.
  assert (Hname : name_at s1 (registry_count s) = name e).
  { unfold name_at. simpl. rewrite total_insert_eq by lia. done. }
  assert (Hok1 : hash_ok s1 (registry_count s)).
  { apply (hash_ok_names s); try done; [apply Hi|]. intros i Hlt. unfold name_at. simpl.
    by rewrite list_lookup_total_insert_ne by lia. }
  pose proof (hash_insert_ok _ _ Hok1 Hc) as Hok. rewrite Hname in Hok.
  assert (Hlive : live s' = live s ++ [fresh_entry e t1 t2]).
  { unfold live. simpl. rewrite (take_S_r _ _ (fresh_entry e t1 t2)).
    - by rewrite take_insert_ge by lia.
    - by rewrite list_lookup_insert_eq by lia. }
  split; [|done]. constructor.
  - simpl. by rewrite length_insert.
  - simpl. lia.
  - exact Hok.
  - rewrite Hlive. apply Forall_app. split; [apply Hi|]. by apply Forall_singleton.
  - rewrite Hlive, fmap_app. apply NoDup_app. split; [apply Hi|]. split; [|apply NoDup_singleton].
    intros x Hx Hx'. apply list_elem_of_singleton in Hx' as ->. done.
Qed.

Lemma set_entry_live s i e : reg_inv s -> (i < registry_count s)%nat ->
  name e = name_at s i ->
  reg_inv (set_entry s i e) /\ live (set_entry s i e) = <[i := e]> (live s).
Proof.
  intros Hi Hlt Hn. pose proof (ri_len _ Hi) as Hlen. pose proof (ri_count _ Hi) as Hcnt.
  assert (Hlive : live (set_entry s i e) = <[i := e]> (live s))
    by (unfold live; simpl; by rewrite take_insert_lt by lia).
  split; [|done].
  pose proof (live_total s i Hi Hlt) as Hat.
  assert (Hnames : name <$> live (set_entry s i e) = name <$> live s).
  { rewrite Hlive, list_fmap_insert, Hn. apply list_insert_id.
    rewrite list_lookup_fmap, Hat. done. }
  constructor.
  - simpl. by rewrite length_insert.
  - done.
  - apply (hash_ok_names s); try done; [apply Hi|]. intros j Hj. unfold name_at. simpl.
    destruct (decide (j = i)) as [->|].
    + rewrite total_insert_eq by lia. done.
    + by rewrite list_lookup_total_insert_ne by done.
  - pose proof (ri_names _ Hi) as Hf. rewrite Hlive. apply Forall_insert; [done|].
    rewrite Forall_lookup in Hf. specialize (Hf i _ Hat). unfold entry_ok in *. by rewrite Hn.
  - rewrite Hnames. apply Hi.
Qed.

(** ** Abstract specification: an association list with linear search *)

Inductive reg_cmd :=
| CAdd (alive : Z -> bool) (t1 t2 : Z) (e : service_entry_t)
| CStatus (nm : string) (st : service_status_t) (now : Z)
| CHeartbeat (nm : string) (now : Z)
| CRemove (nm : string)
| CRemoveOwner (nm : string) (owner : Z)
| CCleanup.

(** Names arrive in [char[64]] buffers the handlers terminate. *)
Definition cmd_ok (c : reg_cmd) : Prop :=
  match c with CAdd _ _ _ e => (String.length (name e) < SM_MAX_NAME)%nat | _ => True end.

Definition exec (c : reg_cmd) (s : registry_state) : Z * registry_state :=
  match c with
  | CAdd alive t1 t2 e => sm_registry_add alive t1 t2 (Some e) s
  | CStatus nm st now => sm_registry_update_status (Some nm) st now s
  | CHeartbeat nm now => sm_registry_update_heartbeat (Some nm) now s
  | CRemove nm => sm_registry_remove (Some nm) s
  | CRemoveOwner nm o => sm_registry_remove_if_owner (Some nm) o s
  | CCleanup => (SM_OK, sm_registry_cleanup s)
  end.

Definition spec_update (nm : string) (f : service_entry_t -> service_entry_t)
    (l : list service_entry_t) : Z * list service_entry_t :=
  match find_idx nm l with
  | None => (SM_ERR_NOT_FOUND, l)
  | Some i => (SM_OK, alter f i l)
  end.

Definition spec_exec (c : reg_cmd) (l : list service_entry_t) : Z * list service_entry_t :=
  match c with
  | CAdd alive t1 t2 e =>
      if negb (name_is_valid (name e)) then (SM_ERR_INVALID, l)
      else match find_idx (name e) l with
           | None => if decide (length l = SM_MAX_SERVICES) then (SM_ERR_FULL, l)
                     else (SM_OK, l ++ [fresh_entry e t1 t2])
           | Some i => if alive (pid (l !!! i)) then (SM_ERR_EXISTS, l)
                       else (SM_OK, delete i l ++ [fresh_entry e t1 t2])
           end
  | CStatus nm st now => spec_update nm (fun e => entry_set_status e st now) l
  | CHeartbeat nm now => spec_update nm (fun e => entry_heartbeat e now) l
  | CRemove nm => match find_idx nm l with
                  | None => (SM_ERR_NOT_FOUND, l) | Some i => (SM_OK, delete i l) end
  | CRemoveOwner nm o =>
      match find_idx nm l with
      | None => (SM_ERR_NOT_FOUND, l)
      | Some i => if pid (l !!! i) =? o then (SM_OK, delete i l) else (SM_ERR_PERMISSION, l)
      end
  | CCleanup => (SM_OK, [])
  end.

(** What a lookup tells about the state. *)
Lemma find_cases s nm : reg_inv s ->
  (find_idx nm (live s) = None /\ hash_find s nm = -1 /\ nm ∉ (name <$> live s)) \/
  (exists i, find_idx nm (live s) = Some i /\ hash_find s nm = Z.of_nat i /\
     (i < registry_count s)%nat /\ name_at s i = nm /\ live s !!! i = registry s !!! i /\
     live s !! i = Some (registry s !!! i)).
Proof.
  intros Hi. rewrite hash_find_live by done.
  destruct (find_idx nm (live s)) as [i|] eqn:Hf.
  - right. exists i. apply find_idx_some in Hf as (e & He & Hn); [|apply Hi].
    pose proof (lookup_lt_Some _ _ _ He) as Hlt. rewrite length_live in Hlt by done.
    pose proof He as He2. rewrite live_total in He by done. injection He as <-.
    split_and!; try done. by apply list_lookup_total_correct.
  - left. split_and!; try done. by apply find_idx_none.
Qed.

Lemma names_after_delete s i : reg_inv s -> (i < registry_count s)%nat ->
  name_at s i ∉ (name <$> delete i (live s)).
Proof.
  intros Hi Hlt Hin. rewrite list_elem_of_fmap in Hin. destruct Hin as (e & Hn & He).
  apply list_elem_of_lookup in He as (k & He).
  pose proof (live_total s i Hi Hlt) as Hat. pose proof (ri_uniq _ Hi) as Hu.
  assert (Hk : exists k', k' <> i /\ live s !! k' = Some e).
  { destruct (decide (k < i)%nat).
    - exists k. rewrite list_lookup_delete_lt in He by done. split; [lia|done].
    - exists (S k). rewrite list_lookup_delete_ge in He by lia. split; [lia|done]. }
  destruct Hk as (k' & Hne & Hk'). apply Hne.
  apply (NoDup_lookup _ _ _ (name e) Hu); rewrite list_lookup_fmap.
  - by rewrite Hk'.
  - rewrite Hat. simpl. by rewrite <- Hn.
Qed.

Lemma alter_insert {A} (f : A -> A) (l : list A) i x : l !! i = Some x ->
  alter f i l = <[i := f x]> l.
Proof.
  intros Hx. apply list_eq. intros k. destruct (decide (k = i)) as [->|].
  - rewrite list_lookup_alter_eq, Hx. rewrite list_lookup_insert_eq; [done|].
    by eapply lookup_lt_Some.
  - rewrite list_lookup_alter_ne by done. by rewrite list_lookup_insert_ne by done.
Qed.

Lemma update_refines s nm f : reg_inv s -> (forall e, name (f e) = name e) ->
  let r := (let idx := hash_find s nm in
            if idx <? 0 then (SM_ERR_NOT_FOUND, s)
            else let i := Z.to_nat idx in (SM_OK, set_entry s i (f (registry s !!! i)))) in
  reg_inv r.2 /\ (r.1, live r.2) = spec_update nm f (live s).
Proof.
  intros Hi Hf. unfold spec_update.
  destruct (find_cases s nm Hi) as [(Hn & -> & _)|(i & Hs & -> & Hlt & Hnm & _ & Hat)].
  - rewrite Hn. done.
  - rewrite Hs. destruct (Z.ltb_spec (Z.of_nat i) 0); [lia|]. simpl. rewrite Nat2Z.id.
    destruct (set_entry_live s i (f (registry s !!! i)) Hi Hlt) as [H1 H2];
      [apply Hf|]. split; [done|]. rewrite H2. by rewrite (alter_insert _ _ _ _ Hat).
Qed.

Lemma add_refines s alive t1 t2 e : reg_inv s -> cmd_ok (CAdd alive t1 t2 e) ->
  let r := exec (CAdd alive t1 t2 e) s in
  reg_inv r.2 /\ (r.1, live r.2) = spec_exec (CAdd alive t1 t2 e) (live s).
Proof.
  intros Hi Hc. simpl in *. destruct (name_is_valid (name e)) eqn:Hv; simpl; [|done].
  assert (He : entry_ok e) by done.
  destruct (find_cases s (name e) Hi)
    as [(Hn & -> & Hnew)|(i & Hs & -> & Hlt & Hnm & Htot & Hat)].
  - rewrite Hn. simpl. rewrite length_live by done. pose proof (ri_count _ Hi).
    destruct (Nat.leb_spec SM_MAX_SERVICES (registry_count s)).
    + by rewrite decide_True by lia.
    + rewrite decide_False by lia. cbn [fst snd].
      destruct (insert_entry_live s e t1 t2 Hi He) as [H1 H2]; [lia|done|].
      by rewrite H2.
  - rewrite Hs, Htot. replace (0 <=? Z.of_nat i) with true by (symmetry; apply Z.leb_le; lia).
    rewrite Nat2Z.id. simpl. destruct (alive _); [done|].
    destruct (remove_at_live s (name e) i Hi Hlt) as [H1 H2].
    set (s1 := remove_at s (name e) i) in *. clearbody s1.
    assert (Hc1 : (registry_count s1 < SM_MAX_SERVICES)%nat).
    { rewrite <- (length_live s1), H2 by done. pose proof (ri_count _ Hi).
      rewrite length_delete by (by eexists). rewrite length_live by done. lia. }
    destruct (Nat.leb_spec SM_MAX_SERVICES (registry_count s1)); [lia|]. cbn [fst snd].
    destruct (insert_entry_live s1 e t1 t2 H1 He Hc1) as [H3 H4].
    + rewrite H2, <- Hnm. by apply names_after_delete.
    + split; [done|]. by rewrite H4, H2.
Qed.

Lemma remove_refines s nm : reg_inv s ->
  let r := sm_registry_remove (Some nm) s in
  reg_inv r.2 /\ (r.1, live r.2) = spec_exec (CRemove nm) (live s).
Proof.
  intros Hi. simpl.
  destruct (find_cases s nm Hi) as [(-> & -> & _)|(i & -> & -> & Hlt & _)]; [done|].
  destruct (Z.ltb_spec (Z.of_nat i) 0); [lia|]. simpl. rewrite Nat2Z.id.
  destruct (remove_at_live s nm i Hi Hlt) as [H1 H2]. by rewrite H2.
Qed.

Lemma remove_owner_refines s nm o : reg_inv s ->
  let r := sm_registry_remove_if_owner (Some nm) o s in
  reg_inv r.2 /\ (r.1, live r.2) = spec_exec (CRemoveOwner nm o) (live s).
Proof.
  intros Hi. simpl.
  destruct (find_cases s nm Hi) as [(-> & -> & _)|(i & -> & -> & Hlt & _ & -> & _)]; [done|].
  destruct (Z.ltb_spec (Z.of_nat i) 0); [lia|]. simpl. rewrite Nat2Z.id.
  destruct (_ =? o); simpl; [|done].
  destruct (remove_at_live s nm i Hi Hlt) as [H1 H2]. by rewrite H2.
Qed.

Lemma init_inv : reg_inv sm_registry_init /\ live sm_registry_init = [].
Proof.
  split; [|done]. constructor; try constructor; try (simpl; done); [unfold SM_MAX_SERVICES; simpl; lia| |simpl; lia].
  intros slot Hs. simpl. unfold empty_table. by rewrite lookup_total_replicate_2 by done.
Qed.

Lemma exec_refines c s : reg_inv s -> cmd_ok c ->
  reg_inv (exec c s).2 /\ ((exec c s).1, live (exec c s).2) = spec_exec c (live s).
Proof.
  intros Hi Hc. destruct c as [alive t1 t2 e|nm st now|nm now|nm|nm o|].
  - by apply add_refines.
  - by apply (update_refines s nm (fun e => entry_set_status e st now)).
  - by apply (update_refines s nm (fun e => entry_heartbeat e now)).
  - by apply remove_refines.
  - by apply remove_owner_refines.
  - split; [apply init_inv|done].
Qed.

(** C1: every registry operation, with its hash chains, array compaction and
    rebuilds, returns the code and produces the entries that the specification
    by linear search over an association list gives, and keeps the invariant
    (chains in step with the array, at most 32 entries, valid distinct
    names). *)
Theorem registry_refines c s : reg_inv s -> cmd_ok c ->
  reg_inv (exec c s).2 /\ ((exec c s).1, live (exec c s).2) = spec_exec c (live s).
Proof. intros Hi Hc. by apply exec_refines. Qed.

(** One call by any client of the registry. *)
Definition reg_step (s t : registry_state) : Prop :=
  exists c, cmd_ok c /\ t = (exec c s).2.

Lemma reachable_inv s : reachable (fun s => s = sm_registry_init) reg_step s -> reg_inv s.
Proof.
  apply reachable_invariant; [intros ? ->; apply init_inv|].
  intros s0 t Hi (c & Hc & ->). by apply exec_refines.
Qed.

(** In every state the registry can reach, a lookup by name finds an entry
    exactly when one is registered under that name, that entry is unique, and
    the copy handed out is the registered one. *)
Theorem find_copy_reachable s nm :
  reachable (fun s => s = sm_registry_init) reg_step s ->
  (forall e, sm_registry_find_copy (Some nm) true s = (SM_OK, Some e) <->
     e ∈ live s /\ name e = nm) /\
  (sm_registry_find_copy (Some nm) true s = (SM_ERR_NOT_FOUND, None) <->
     nm ∉ (name <$> live s)) /\
  NoDup (name <$> live s) /\ (length (live s) <= SM_MAX_SERVICES)%nat.
Proof.
  intros Hr. pose proof (reachable_inv s Hr) as Hi.
  assert (Hlen : (length (live s) <= SM_MAX_SERVICES)%nat)
    by (rewrite length_live by done; apply Hi).
  pose proof (ri_uniq _ Hi) as Hu. split; [|split; [|done]]; simpl.
  - intros e. destruct (find_cases s nm Hi)
      as [(_ & -> & Hnew)|(i & Hs & -> & Hlt & Hnm & _ & Hat)].
    + split; [done|]. intros [He <-]. exfalso. apply Hnew. by apply list_elem_of_fmap_2.
    + destruct (Z.ltb_spec (Z.of_nat i) 0); [lia|]. rewrite Nat2Z.id. split.
      * intros; simplify_eq. split; [by eapply list_elem_of_lookup_2|done].
      * intros [[k Hk]%list_elem_of_lookup Hn].
        assert (find_idx nm (live s) = Some k) by (apply find_idx_some; eauto).
        simplify_eq. done.
  - destruct (find_cases s nm Hi) as [(_ & -> & Hnew)|(i & Hs & -> & Hlt & Hnm & _ & Hat)].
    + done.
    + destruct (Z.ltb_spec (Z.of_nat i) 0); [lia|]. split; [done|]. intros Hnew.
      exfalso. apply Hnew. rewrite <- Hnm. change (name_at s i) with (name (registry s !!! i)).
      apply list_elem_of_fmap_2. by eapply list_elem_of_lookup_2.
Qed.

Lemma elem_delete (l : list service_entry_t) i k e :
  l !! k = Some e -> k <> i -> e ∈ delete i l.
Proof.
  intros Hk Hne. destruct (decide (k < i)%nat).
  - apply (list_elem_of_lookup_2 _ k). by rewrite list_lookup_delete_lt by done.
  - apply (list_elem_of_lookup_2 _ (k - 1)). rewrite list_lookup_delete_ge by lia.
    by replace (S (k - 1)) with k by lia.
Qed.

(** Deleting the entry found under a name spares every other entry. *)
Lemma delete_found l nm i e : NoDup (name <$> l) -> find_idx nm l = Some i -> e ∈ l ->
  e ∈ delete i l \/ (name e = nm /\ l !!! i = e).
Proof.
  intros Hnd Hf [k Hk]%list_elem_of_lookup. apply find_idx_some in Hf as (e0 & He0 & Hn); [|done].
  destruct (decide (k = i)) as [->|Hne].
  - right. simplify_eq. split; [done|]. by apply list_lookup_total_correct.
  - left. by eapply elem_delete.
Qed.

Lemma update_keeps nm f l e : (forall e, name (f e) = name e /\ pid (f e) = pid e) -> e ∈ l ->
  exists e', e' ∈ (spec_update nm f l).2 /\ name e' = name e /\ pid e' = pid e.
Proof.
  intros Hf [k Hk]%list_elem_of_lookup. unfold spec_update.
  destruct (find_idx nm l) as [i|]; simpl; [|exists e; by eauto using list_elem_of_lookup_2].
  destruct (decide (k = i)) as [->|].
  - exists (f e). split; [|apply Hf]. apply (list_elem_of_lookup_2 _ i).
    by rewrite list_lookup_alter_eq, Hk.
  - exists e. split; [|done]. apply (list_elem_of_lookup_2 _ k).
    by rewrite list_lookup_alter_ne by done.
Qed.

(** When a call may make a registration go away. *)
Definition may_drop (c : reg_cmd) (e : service_entry_t) : Prop :=
  match c with
  | CRemove nm => nm = name e
  | CRemoveOwner nm o => nm = name e /\ o = pid e
  | CCleanup => True
  | CAdd alive _ _ e2 => name e2 = name e /\ alive (pid e) = false
  | CStatus _ _ _ | CHeartbeat _ _ => False
  end.

Lemma exec_keeps c s e : reg_inv s -> cmd_ok c -> e ∈ live s ->
  (exists e', e' ∈ live (exec c s).2 /\ name e' = name e /\ pid e' = pid e) \/ may_drop c e.
Proof.
  intros Hi Hc He. destruct (exec_refines c s Hi Hc) as [_ Hr].
  apply (f_equal snd) in Hr. simpl in Hr. rewrite Hr. clear Hr.
  pose proof (ri_uniq _ Hi) as Hu.
  destruct c as [alive t1 t2 e2|nm st now|nm now|nm|nm o|]; simpl.
  - destruct (name_is_valid (name e2)); simpl; [|by left; eauto].
    destruct (find_idx (name e2) (live s)) as [i|] eqn:Hf; simpl.
    + destruct (delete_found _ _ _ e Hu Hf He) as [Hd|[Hn Hl]];
        destruct (alive (pid (live s !!! i))) eqn:Ha; simpl; try (by left; eauto).
      * left. exists e. split; [|done]. apply elem_of_app. by left.
      * right. by rewrite Hl in Ha.
    + case_decide; left; exists e; (split; [|done]); simpl; [done|]. apply elem_of_app. by left.
  - left. by apply update_keeps.
  - left. by apply update_keeps.
  - destruct (find_idx nm (live s)) as [i|] eqn:Hf; simpl; [|by left; eauto].
    destruct (delete_found _ _ _ e Hu Hf He) as [Hd|[Hn Hl]]; [by left; eauto|by right].
  - destruct (find_idx nm (live s)) as [i|] eqn:Hf; simpl; [|by left; eauto].
    destruct (Z.eqb_spec (pid (live s !!! i)) o) as [Ho|]; simpl; [|by left; eauto].
    destruct (delete_found _ _ _ e Hu Hf He) as [Hd|[Hn Hl]]; [by left; eauto|].
    right. by rewrite Hl in Ho.
  - by right.
Qed.

(** A registration (a name with the process that owns it) goes away only by
    an unconditional removal of that name, by its own process, by a clean-up, or
    by a new registration of the name once its process is dead. *)
Theorem registration_kept c s e : reg_inv s -> cmd_ok c -> e ∈ live s ->
  (exists e', e' ∈ live (exec c s).2 /\ name e' = name e /\ pid e' = pid e) \/ may_drop c e.
Proof. apply exec_keeps. Qed.

(** Only a registration brings a new name. *)
Lemma exec_new_entry c s en : reg_inv s -> cmd_ok c -> en ∈ live (exec c s).2 ->
  (forall e0, e0 ∈ live s -> name e0 <> name en) ->
  exists alive t1 t2 e0, c = CAdd alive t1 t2 e0 /\ en = fresh_entry e0 t1 t2.
Proof.
  intros Hi Hc Hin Hno. destruct (exec_refines c s Hi Hc) as [_ Hr].
  apply (f_equal snd) in Hr. simpl in Hr. rewrite Hr in Hin. clear Hr.
  assert (Hdel : forall i, en ∈ delete i (live s) -> False).
  { intros i Hd. apply (Hno en); [|done]. eapply sublist_subseteq; [apply sublist_delete|done]. }
  assert (Hupd : forall nm f, (forall e, name (f e) = name e) ->
    en ∈ (spec_update nm f (live s)).2 -> False).
  { intros nm f Hf Hu. unfold spec_update in Hu. destruct (find_idx nm (live s)) as [i|]; simpl in Hu.
    - apply list_elem_of_lookup in Hu as [k Hk]. destruct (decide (k = i)) as [->|].
      + rewrite list_lookup_alter_eq in Hk. destruct (live s !! i) as [e0|] eqn:He; [|done].
        simpl in Hk. simplify_eq. apply (Hno e0); [by eapply list_elem_of_lookup_2|by rewrite Hf].
      + rewrite list_lookup_alter_ne in Hk by done.
        apply (Hno en); [by eapply list_elem_of_lookup_2|done].
    - by apply (Hno en). }
  destruct c as [alive t1 t2 e2|nm st now|nm now|nm|nm o|]; simpl in Hin.
  - exists alive, t1, t2, e2. split; [done|].
    repeat case_match; simpl in Hin; try (exfalso; by apply (Hno en));
      apply elem_of_app in Hin as [Hin|Hin%list_elem_of_singleton]; try done;
      exfalso; [by eapply Hdel|by apply (Hno en)].
  - exfalso. eapply Hupd; [|exact Hin]. done.
  - exfalso. eapply Hupd; [|exact Hin]. done.
  - exfalso. destruct (find_idx nm (live s)); [by eapply Hdel|by apply (Hno en)].
  - exfalso. destruct (find_idx nm (live s)); [|by apply (Hno en)].
    destruct (_ =? o); [by eapply Hdel|by apply (Hno en)].
  - by apply not_elem_of_nil in Hin.
Qed.

(** ** Witnesses *)

Definition cam : service_entry_t :=
  mk_entry "camera" "/run/camera.sock" "/dev/shm/camera" 100 0 0 0 SVC_TIER_CRITICAL 0 0
    SERVICE_RUNNING 0 0 0.
Definition mic : service_entry_t :=
  mk_entry "mic" "/run/mic.sock" "/dev/shm/mic" 101 0 0 0 SVC_TIER_CRITICAL 0 0
    SERVICE_RUNNING 0 0 0.

Definition reg1 : registry_state := (exec (CAdd (fun _ => true) 5 5 cam) sm_registry_init).2.
Definition reg2 : registry_state := (exec (CAdd (fun _ => true) 6 6 mic) reg1).2.

Example reg_ops :
  ((exec (CAdd (fun _ => true) 7 7 cam) reg2).1, hash_find reg2 "mic",
   (exec (CRemoveOwner "camera" 101) reg2).1, (exec (CRemoveOwner "camera" 100) reg2).1,
   name <$> live (exec (CRemove "camera") reg2).2,
   hash_find (exec (CRemove "camera") reg2).2 "mic")
  = (SM_ERR_EXISTS, 1, SM_ERR_PERMISSION, SM_OK, ["mic"%string], 0).
Proof. vm_compute. reflexivity. Qed.

Lemma reg2_reachable : reachable (fun s => s = sm_registry_init) reg_step reg2.
Proof.
  exists sm_registry_init. split; [done|].
  eapply rtc_l; [exists (CAdd (fun _ => true) 5 5 cam); split; [vm_compute; lia|done]|].
  apply rtc_once. exists (CAdd (fun _ => true) 6 6 mic). split; [vm_compute; lia|done].
Qed.

Lemma registry_refines_witness :
  reg_inv (exec (CRemove "camera") reg2).2 /\
  ((exec (CRemove "camera") reg2).1, live (exec (CRemove "camera") reg2).2)
    = spec_exec (CRemove "camera") (live reg2).
Proof. apply registry_refines; [apply reachable_inv, reg2_reachable|done]. Defined.

Lemma find_copy_reachable_witness :
  (exists e, sm_registry_find_copy (Some "mic"%string) true reg2 = (SM_OK, Some e)) /\
  NoDup (name <$> live reg2).
Proof.
  destruct (find_copy_reachable reg2 "mic" reg2_reachable) as (_ & _ & H & _).
  split; [|exact H]. eexists. vm_compute. reflexivity.
Defined.

Lemma registration_kept_witness :
  let c := CRemoveOwner "camera" 101 in
  (exists e', e' ∈ live (exec c reg1).2 /\ name e' = "camera"%string /\ pid e' = 100) \/
  may_drop c (fresh_entry cam 5 5).
Proof.
  apply (registration_kept (CRemoveOwner "camera" 101) reg1 (fresh_entry cam 5 5)).
  - apply reachable_inv. exists sm_registry_init. split; [done|]. apply rtc_once.
    exists (CAdd (fun _ => true) 5 5 cam). split; [vm_compute; lia|done].
  - done.
  - vm_compute. left.
Defined.
