(* ===== verification/Crypto.v ===== *)
(** * HMAC-SHA256 and the shared key (security/sm_crypto.c)

    The streaming implementation works on a context of eight words, a 64-byte
    buffer, a byte count and a 64-bit bit count, and is proved equal to the
    one-shot definitions of FIPS 180-4 (padding, parsing into blocks, chaining)
    and RFC 2104. *)

From S2P Require Import Prelude.

(** The [n] 32-bit words of a literal that writes them next to each other, first
    word first: the tables below keep the rows of the source. *)
Definition words32 (n : nat) (v : Z) : list Z :=
  rev ((fun i => u32 (Z.shiftr v (32 * Z.of_nat i))) <$> seq 0 n).

(** [dev/core/service_manager/security/sm_crypto.c:38-40 SHA256_H0] *)
Definition SHA256_H0 : list Z :=
  Eval cbv in words32 3 0x6a09e667_bb67ae85_3c6ef372 ++
    words32 3 0xa54ff53a_510e527f_9b05688c ++ words32 2 0x1f83d9ab_5be0cd19.

(** [dev/core/service_manager/security/sm_crypto.c:44-55 SHA256_K] *)
Definition SHA256_K : list Z :=
  Eval cbv in mjoin [
    words32 6 0x428a2f98_71374491_b5c0fbcf_e9b5dba5_3956c25b_59f111f1;
    words32 6 0x923f82a4_ab1c5ed5_d807aa98_12835b01_243185be_550c7dc3;
    words32 6 0x72be5d74_80deb1fe_9bdc06a7_c19bf174_e49b69c1_efbe4786;
    words32 6 0x0fc19dc6_240ca1cc_2de92c6f_4a7484aa_5cb0a9dc_76f988da;
    words32 6 0x983e5152_a831c66d_b00327c8_bf597fc7_c6e00bf3_d5a79147;
    words32 6 0x06ca6351_14292967_27b70a85_2e1b2138_4d2c6dfc_53380d13;
    words32 6 0x650a7354_766a0abb_81c2c92e_92722c85_a2bfe8a1_a81a664b;
    words32 6 0xc24b8b70_c76c51a3_d192e819_d6990624_f40e3585_106aa070;
    words32 6 0x19a4c116_1e376c08_2748774c_34b0bcb5_391c0cb3_4ed8aa4a;
    words32 6 0x5b9cca4f_682e6ff3_748f82ee_78a5636f_84c87814_8cc70208;
    words32 4 0x90befffa_a4506ceb_bef9a3f7_c67178f2].

(** [dev/core/service_manager/security/sm_crypto.c:58-66 ROTR32, CH, MAJ, SIGMA, GAMMA] *)
Definition ROTR32 (x n : Z) : Z := Z.lor (Z.shiftr x n) (u32 (Z.shiftl x (32 - n))).
Definition CH (x y z : Z) : Z := Z.lxor (Z.land x y) (Z.land (u32 (Z.lnot x)) z).
Definition MAJ (x y z : Z) : Z := Z.lxor (Z.lxor (Z.land x y) (Z.land x z)) (Z.land y z).
Definition SIGMA0 (x : Z) : Z := Z.lxor (Z.lxor (ROTR32 x 2) (ROTR32 x 13)) (ROTR32 x 22).
Definition SIGMA1 (x : Z) : Z := Z.lxor (Z.lxor (ROTR32 x 6) (ROTR32 x 11)) (ROTR32 x 25).
Definition GAMMA0 (x : Z) : Z := Z.lxor (Z.lxor (ROTR32 x 7) (ROTR32 x 18)) (Z.shiftr x 3).
Definition GAMMA1 (x : Z) : Z := Z.lxor (Z.lxor (ROTR32 x 17) (ROTR32 x 19)) (Z.shiftr x 10).

(** [dev/core/service_manager/security/sm_crypto.c:68-73 sha256_ctx_t] *)
Record sha256_ctx_t := mk_ctx {
  state : list Z; buf : list Z; bit_count : Z; buf_used : nat
}.

(** [dev/core/service_manager/security/sm_crypto.c:76-81 write_be32] *)
Definition write_be32 (v : Z) : list Z :=
  [u8 (Z.shiftr v 24); u8 (Z.shiftr v 16); u8 (Z.shiftr v 8); u8 v].

(** [dev/core/service_manager/security/sm_crypto.c:84-93 write_be64] *)
Definition write_be64 (v : Z) : list Z :=
  [u8 (Z.shiftr v 56); u8 (Z.shiftr v 48); u8 (Z.shiftr v 40); u8 (Z.shiftr v 32);
   u8 (Z.shiftr v 24); u8 (Z.shiftr v 16); u8 (Z.shiftr v 8); u8 v].

Definition word_at (block : list Z) (i : nat) : Z :=
  let b k := nth (i * 4 + k) block 0 in
  Z.lor (Z.lor (Z.lor (u32 (Z.shiftl (b 0%nat) 24)) (Z.shiftl (b 1%nat) 16))
          (Z.shiftl (b 2%nat) 8)) (b 3%nat).

(** [dev/core/service_manager/security/sm_crypto.c:108-110 sha256_compress, the
    message schedule] [n] more words after those of [w]. *)
Fixpoint extend (w : list Z) (n : nat) : list Z :=
  match n with
  | O => w
  | S n' =>
      let i := length w in
      extend (w ++ [u32 (GAMMA1 (nth (i - 2) w 0) + nth (i - 7) w 0 +
                         GAMMA0 (nth (i - 15) w 0) + nth (i - 16) w 0)]) n'
  end.

Definition regs : Type := (Z * Z * Z * Z) * (Z * Z * Z * Z).

(** [dev/core/service_manager/security/sm_crypto.c:121-132 sha256_compress, one round] *)
Definition sha_round (r : regs) (kw : Z * Z) : regs :=
  let '((a, b, c, d), (e, f, g, h)) := r in
  let t1 := u32 (h + SIGMA1 e + CH e f g + kw.1 + kw.2) in
  let t2 := u32 (SIGMA0 a + MAJ a b c) in
  ((u32 (t1 + t2), a, b, c), (u32 (d + t1), e, f, g)).

(** [dev/core/service_manager/security/sm_crypto.c:96-142 sha256_compress] on the
    state words. *)
Definition compress (st block : list Z) : list Z :=
  let w := extend (word_at block <$> seq 0 16) 48 in
  let s i := nth i st 0 in
  let '((a, b, c, d), (e, f, g, h)) :=
    fold_left sha_round (combine SHA256_K w)
      ((s 0%nat, s 1%nat, s 2%nat, s 3%nat), (s 4%nat, s 5%nat, s 6%nat, s 7%nat)) in
  [u32 (s 0%nat + a); u32 (s 1%nat + b); u32 (s 2%nat + c); u32 (s 3%nat + d);
   u32 (s 4%nat + e); u32 (s 5%nat + f); u32 (s 6%nat + g); u32 (s 7%nat + h)].

(** [dev/core/service_manager/security/sm_crypto.c:144-148 sha256_init] *)
Definition sha256_init (b : list Z) : sha256_ctx_t := mk_ctx SHA256_H0 b 0 0.

(** [dev/core/service_manager/security/sm_crypto.c:155-161 sha256_update, the loop] *)
Fixpoint update_bytes (ctx : sha256_ctx_t) (data : list Z) {struct data} : sha256_ctx_t :=
  match data with
  | [] => ctx
  | x :: data' =>
      let b := <[buf_used ctx := x]> (buf ctx) in
      let n := S (buf_used ctx) in
      update_bytes
        (if Nat.eqb n 64 then mk_ctx (compress (state ctx) b) b (bit_count ctx) 0
         else mk_ctx (state ctx) b (bit_count ctx) n) data'
  end.

(** [dev/core/service_manager/security/sm_crypto.c:150-162 sha256_update] *)
Definition sha256_update (ctx : sha256_ctx_t) (data : list Z) : sha256_ctx_t :=
  update_bytes (mk_ctx (state ctx) (buf ctx)
    (u64 (bit_count ctx + u64 (Z.of_nat (length data) * 8))) (buf_used ctx)) data.

(** [dev/core/service_manager/security/sm_crypto.c:164-190 sha256_final] *)
Definition sha256_final (ctx : sha256_ctx_t) : list Z :=
  let pad := splice 0 (take (buf_used ctx) (buf ctx)) (replicate 64 0) in
  let pad := <[buf_used ctx := 0x80]> pad in
  let '(st, pad) :=
    if Nat.leb 56 (buf_used ctx)
    then (compress (state ctx) pad, splice 0 (replicate 56 0) pad)
    else (state ctx, pad) in
  let pad := splice 56 (write_be64 (bit_count ctx)) pad in
  mjoin (write_be32 <$> compress st pad).

(** The stack buffer of a context before its first use; its contents are
    never read. *)
Definition stack_buf : list Z := replicate 64 0.

(** [dev/core/service_manager/security/sm_crypto.c:193-198 sha256] *)
Definition sha256 (data : list Z) : list Z :=
  sha256_final (sha256_update (sha256_init stack_buf) data).

(** [dev/core/service_manager/security/sm_crypto.h:22-26 SM_HMAC_SIZE] *)
Definition SM_HMAC_SIZE : nat := 32.
Definition SM_HMAC_KEY_SIZE : nat := 32.

(** [dev/core/service_manager/security/sm_crypto.c:203-242 sm_hmac_sha256] [None]
    is a NULL argument. *)
Definition sm_hmac_sha256 (key data : option (list Z)) : option (list Z) :=
  match key, data with
  | Some key, Some data =>
      let k_pad := if Nat.ltb 64 (length key)
                   then splice 0 (sha256 key) (replicate 64 0)
                   else splice 0 key (replicate 64 0) in
      let k_pad := Z.lxor 0x36 <$> k_pad in
      let inner := sha256_final (sha256_update (sha256_update (sha256_init stack_buf) k_pad) data) in
      let k_pad := Z.lxor (Z.lxor 0x36 0x5c) <$> k_pad in
      Some (sha256_final (sha256_update (sha256_update (sha256_init stack_buf) k_pad) inner))
  | _, _ => None
  end.

(** [dev/core/service_manager/security/sm_crypto.c:249-255 consttime_memcmp] *)
Fixpoint memcmp_from (diff : Z) (a b : list Z) : Z :=
  match a, b with
  | x :: a', y :: b' => memcmp_from (u8 (Z.lor diff (Z.lxor x y))) a' b'
  | _, _ => diff
  end.
Definition consttime_memcmp (a b : list Z) : Z := memcmp_from 0 a b.

(** [dev/core/service_manager/security/sm_crypto.c:257-266 sm_hmac_verify] *)
Definition sm_hmac_verify (key data : option (list Z)) (expected : list Z) : Z :=
  match sm_hmac_sha256 key data with
  | None => -1
  | Some computed => if consttime_memcmp computed expected =? 0 then 0 else -1
  end.

(** ** Key management *)

(** [dev/core/service_manager/security/sm_crypto.c:271-272 g_key] *)
Record key_state := mk_key { g_key : list Z; g_key_loaded : bool }.

(** What the system calls answer for one candidate path: the bytes [read]
    returns from the key file (if it opens), those from /dev/urandom, whether
    the file can be created, and how many bytes the write takes. *)
Record path_answers := mk_path {
  pa_read : option (list Z); pa_urandom : option (list Z);
  pa_create : bool; pa_written : Z
}.

(** [dev/core/service_manager/security/sm_crypto.c:275-294 generate_key] The buffer
    after the call, and success. *)
Definition generate_key (o : path_answers) (k : list Z) : bool * list Z :=
  match pa_urandom o with
  | None => (false, k)
  | Some bs => (Nat.eqb (length bs) SM_HMAC_KEY_SIZE, splice 0 bs k)
  end.

(** [dev/core/service_manager/security/sm_crypto.c:349-381 sm_crypto_init, a new
    key] [None]: on to the next path, with the buffer as the attempt left it. *)
Definition new_key (o : path_answers) (k : list Z) : bool * list Z :=
  let '(ok, k2) := generate_key o k in
  (ok && pa_create o && (pa_written o =? Z.of_nat SM_HMAC_KEY_SIZE), k2).

(** [dev/core/service_manager/security/sm_crypto.c:322-388 sm_crypto_init, the loop]
    over the answers for the remaining paths. *)
Fixpoint try_paths (os : list path_answers) (ks : key_state) : Z * key_state :=
  match os with
  | [] => (-1, mk_key (replicate SM_HMAC_KEY_SIZE 0) (g_key_loaded ks))
  | o :: os' =>
      let k := splice 0 (default [] (pa_read o)) (g_key ks) in
      if Nat.eqb (length (default [] (pa_read o))) SM_HMAC_KEY_SIZE
      then (0, mk_key k true)
      else
        let '(ok, k2) := new_key o k in
        if ok then (0, mk_key k2 true) else try_paths os' (mk_key k2 (g_key_loaded ks))
  end.

(** [dev/core/service_manager/security/sm_crypto.c:296-388 sm_crypto_init] The
    configured path, if any, then the two built-in ones. *)
Definition sm_crypto_init (configured : option path_answers) (run tmp : path_answers)
    (ks : key_state) : Z * key_state :=
  try_paths (match configured with Some o => [o; run; tmp] | None => [run; tmp] end) ks.

(** [dev/core/service_manager/security/sm_crypto.c:390-394 sm_crypto_get_key] *)
Definition sm_crypto_get_key (ks : key_state) : option (list Z) :=
  if g_key_loaded ks then Some (g_key ks) else None.

(** [dev/core/service_manager/security/sm_crypto.c:396-405 sm_crypto_cleanup] *)
Definition sm_crypto_cleanup (ks : key_state) : key_state :=
  mk_key (replicate SM_HMAC_KEY_SIZE 0) false.

(** ** FIPS 180-4: one-shot definition *)

(** Chaining over the first [n] blocks of a byte string. *)
Fixpoint chain (st M : list Z) (n : nat) {struct n} : list Z :=
  match n with
  | O => st
  | S n' => chain (compress st (take 64 M)) (drop 64 M) n'
  end.

(** Section 5.1.1: a one bit, zeros up to 448 modulo 512 bits, the length. *)
Definition fips_pad (M : list Z) : list Z :=
  M ++ 0x80 :: replicate ((119 - length M mod 64) mod 64) 0 ++
  write_be64 (u64 (Z.of_nat (length M) * 8)).

(** Section 6.2. *)
Definition fips_sha256 (M : list Z) : list Z :=
  mjoin (write_be32 <$> chain SHA256_H0 (fips_pad M) (length (fips_pad M) / 64)).

(** RFC 2104 with block size 64. *)
Definition rfc_hmac (K M : list Z) : list Z :=
  let K0 := if decide (64 < length K)%nat then fips_sha256 K else K in
  let Kb := K0 ++ replicate (64 - length K0) 0 in
  fips_sha256 ((Z.lxor 0x5c <$> Kb) ++ fips_sha256 ((Z.lxor 0x36 <$> Kb) ++ M)).

(** ** Chaining block by block *)

Lemma length_compress st block : length (compress st block) = 8%nat.
Proof. unfold compress. repeat case_match. done. Qed.

#[local] Opaque compress.

Lemma chain_app st M R n : (n * 64 <= length M)%nat -> chain st (M ++ R) n = chain st M n.
Proof.
  revert st M. induction n as [|n IH]; intros st M Hn; simpl; [done|].
  rewrite take_app_le, drop_app_le by lia. apply IH. rewrite length_drop. lia.
Qed.

Lemma chain_take st M n : (n * 64 <= length M)%nat -> chain st (take (n * 64) M) n = chain st M n.
Proof.
  intros. rewrite <- (take_drop (n * 64) M) at 2. symmetry. apply chain_app.
  rewrite length_take. lia.
Qed.

Lemma chain_S st M n :
  chain st M (S n) = compress (chain st M n) (take 64 (drop (n * 64) M)).
Proof.
  revert st M. induction n as [|n IH]; intros st M; [done|].
  change (chain st M (S (S n))) with (chain (compress st (take 64 M)) (drop 64 M) (S n)).
  rewrite IH, drop_drop. done.
Qed.

(** The context after the bytes [M] have gone in. *)
Record ctx_rep (ctx : sha256_ctx_t) (M : list Z) : Prop := {
  cr_state : state ctx = chain SHA256_H0 M (length M / 64);
  cr_used : buf_used ctx = (length M mod 64)%nat;
  cr_buf : take (buf_used ctx) (buf ctx) = drop (length M / 64 * 64) M;
  cr_len : length (buf ctx) = 64%nat
}.

Lemma init_rep b : length b = 64%nat -> ctx_rep (sha256_init b) [].
Proof. by constructor. Qed.

Lemma div64_S n : (n mod 64 = 63)%nat -> (S n / 64 = S (n / 64))%nat /\ (S n mod 64 = 0)%nat.
Proof.
  intros H. pose proof (Nat.div_mod_eq n 64). pose proof (Nat.div_mod_eq (S n) 64).
  pose proof (Nat.mod_upper_bound (S n) 64). lia.
Qed.

Lemma div64_same n : (n mod 64 <> 63)%nat ->
  (S n / 64 = n / 64)%nat /\ (S n mod 64 = S (n mod 64))%nat.
Proof.
  intros H. pose proof (Nat.div_mod_eq n 64). pose proof (Nat.div_mod_eq (S n) 64).
  pose proof (Nat.mod_upper_bound (S n) 64). pose proof (Nat.mod_upper_bound n 64). lia.
Qed.

(** The buffer with one more byte holds one more byte of the message. *)
Lemma buf_step ctx M x : ctx_rep ctx M ->
  take (S (buf_used ctx)) (<[buf_used ctx := x]> (buf ctx)) =
  drop (length M / 64 * 64) (M ++ [x]).
Proof.
  intros [_ Hu Hb Hl]. pose proof (Nat.mod_upper_bound (length M) 64).
  pose proof (Nat.div_mod_eq (length M) 64).
  rewrite (take_S_r _ _ x) by (rewrite list_lookup_insert_eq by lia; done).
  rewrite take_insert_ge, Hb by lia. rewrite drop_app_le by lia. done.
Qed.

Lemma byte_rep ctx M x bc : ctx_rep ctx M ->
  let b := <[buf_used ctx := x]> (buf ctx) in
  ctx_rep (if Nat.eqb (S (buf_used ctx)) 64
           then mk_ctx (compress (state ctx) b) b bc 0
           else mk_ctx (state ctx) b bc (S (buf_used ctx))) (M ++ [x]).
Proof.
  intros Hr b. pose proof (buf_step ctx M x Hr) as Hb. fold b in Hb.
  destruct Hr as [Hs Hu _ Hl]. assert (Hlb : length b = 64%nat) by (unfold b; by rewrite length_insert).
  pose proof (Nat.div_mod_eq (length M) 64). pose proof (Nat.mod_upper_bound (length M) 64).
  assert (Hlen : length (M ++ [x]) = S (length M)) by (rewrite length_app; simpl; lia).
  destruct (Nat.eqb_spec (S (buf_used ctx)) 64) as [He|He].
  - destruct (div64_S (length M)) as [Hd Hm]; [lia|].
    constructor; cbn [state buf buf_used]; rewrite ?Hlen, ?Hd, ?Hm; try done.
    + rewrite chain_S, chain_app by lia. rewrite <- Hb, Hs, He.
      rewrite take_take, Nat.min_id. by rewrite take_ge by lia.
    + symmetry. apply drop_ge. lia.
  - destruct (div64_same (length M)) as [Hd Hm]; [lia|].
    constructor; cbn [state buf buf_used]; rewrite ?Hlen, ?Hd, ?Hm; try done; [|lia].
    by rewrite chain_app by lia.
Qed.

Lemma update_bytes_rep data : forall ctx M,
  ctx_rep ctx M -> ctx_rep (update_bytes ctx data) (M ++ data) /\
  bit_count (update_bytes ctx data) = bit_count ctx.
Proof.
  induction data as [|x data IH]; intros ctx M Hr; cbn [update_bytes].
  - by rewrite app_nil_r.
  - pose proof (byte_rep ctx M x (bit_count ctx) Hr) as H1. cbv zeta in *.
    destruct (IH _ _ H1) as [H2 H3]. rewrite <- app_assoc in H2. split; [done|].
    rewrite H3. by case_match.
Qed.

(** A context that has seen [M], its bit count included. *)
Definition seen (ctx : sha256_ctx_t) (M : list Z) : Prop :=
  ctx_rep ctx M /\ bit_count ctx = u64 (Z.of_nat (length M) * 8).

Lemma update_seen ctx M data : seen ctx M -> seen (sha256_update ctx data) (M ++ data).
Proof.
  intros [Hr Hb]. unfold sha256_update.
  set (c := mk_ctx _ _ _ _). assert (Hc : ctx_rep c M) by (destruct Hr; by constructor).
  destruct (update_bytes_rep data c M Hc) as [H1 H2]. split; [done|].
  rewrite H2. simpl. rewrite Hb. unfold wrap. rewrite length_app.
  rewrite <- Zplus_mod. f_equal. lia.
Qed.

(** ** The final block *)

Lemma length_be64 v : length (write_be64 v) = 8%nat.
Proof. done. Qed.

(** The padding buffer before the length goes in. *)
Lemma pad_buffer (l : list Z) r : length l = r -> (r < 64)%nat ->
  <[r := 0x80]> (splice 0 l (replicate 64 0)) = l ++ 0x80 :: replicate (63 - r) 0.
Proof.
  intros Hl Hr. unfold splice. rewrite take_0, app_nil_l, drop_replicate.
  replace (64 - (0 + length l))%nat with (S (63 - r)) by lia.
  rewrite replicate_S, insert_app_r_alt by lia. by replace (r - length l)%nat with 0%nat by lia.
Qed.

(** Where the padded message ends: one block more, or two. *)
Lemma chain_last st l R B n : length l = (n * 64)%nat -> length B = 64%nat ->
  chain st (l ++ B ++ R) (S n) = compress (chain st l n) B.
Proof.
  intros Hl HB. rewrite chain_S, chain_app by lia. f_equal.
  rewrite drop_app_length', take_app_length' by lia. done.
Qed.

Lemma final_one_block (M rem : list Z) st n r lenb :
  length M = (n * 64 + r)%nat -> (r < 56)%nat -> rem = drop (n * 64) M ->
  length lenb = 8%nat ->
  chain st (M ++ 0x80 :: replicate (55 - r) 0 ++ lenb) (S n) =
  compress (chain st M n) (splice 56 lenb (rem ++ 0x80 :: replicate (63 - r) 0)).
Proof.
  intros HM Hr -> Hlb. pose proof (length_drop M (n * 64)) as Hd.
  rewrite <- (take_drop (n * 64) M) at 1.
  assert (Hp : (take (n * 64) M ++ drop (n * 64) M) ++ 0x80 :: replicate (55 - r) 0 ++ lenb
    = take (n * 64) M ++ (drop (n * 64) M ++ 0x80 :: replicate (55 - r) 0 ++ lenb) ++ []).
  { by rewrite app_nil_r, <- app_assoc. }
  rewrite Hp, chain_last.
  - rewrite chain_take by lia. f_equal.
    unfold splice. rewrite Hlb. rewrite (drop_ge (_ ++ _ :: _)), app_nil_r
      by (rewrite length_app; simpl; rewrite length_replicate; lia).
    replace (63 - r)%nat with ((55 - r) + 8)%nat by lia. rewrite replicate_add.
    set (x := drop (n * 64) M) in *. set (z := replicate (55 - r) 0).
    assert (Hx : x ++ 0x80 :: z ++ replicate 8 0 = (x ++ 0x80 :: z) ++ replicate 8 0)
      by by rewrite <- app_assoc.
    rewrite Hx, take_app_length'; [by rewrite <- app_assoc|].
    unfold z. rewrite length_app. simpl. rewrite length_replicate. lia.
  - rewrite length_take. lia.
  - rewrite length_app. simpl. rewrite length_app, length_replicate. lia.
Qed.

Lemma final_two_blocks (M rem : list Z) st n r lenb :
  length M = (n * 64 + r)%nat -> (56 <= r < 64)%nat -> rem = drop (n * 64) M ->
  length lenb = 8%nat ->
  let b1 := rem ++ 0x80 :: replicate (63 - r) 0 in
  chain st (M ++ 0x80 :: replicate (119 - r) 0 ++ lenb) (S (S n)) =
  compress (compress (chain st M n) b1) (splice 56 lenb (splice 0 (replicate 56 0) b1)).
Proof.
  intros HM Hr -> Hlb b1. pose proof (length_drop M (n * 64)) as Hd.
  assert (Hb1 : length b1 = 64%nat).
  { unfold b1. rewrite length_app. simpl. rewrite length_replicate. lia. }
  assert (Hp : M ++ 0x80 :: replicate (119 - r) 0 ++ lenb =
    (take (n * 64) M ++ b1) ++ (replicate 56 0 ++ lenb) ++ []).
  { rewrite app_nil_r. unfold b1. rewrite (app_assoc (take _ _)), take_drop.
    replace (119 - r)%nat with ((63 - r) + 56)%nat by lia. rewrite replicate_add.
    by rewrite <- !app_assoc. }
  rewrite Hp, chain_last.
  - apply (f_equal2 compress).
    + replace (take (n * 64) M ++ b1) with (take (n * 64) M ++ b1 ++ []) by by rewrite app_nil_r.
      rewrite chain_last; [|rewrite length_take; lia|done].
      by rewrite chain_take by lia.
    + unfold splice. rewrite Hlb, length_replicate. simpl take at 2.
      rewrite app_nil_l, take_app_length' by (by rewrite length_replicate).
      rewrite drop_ge; [by rewrite app_nil_r|].
      rewrite length_app, length_replicate, length_drop. lia.
  - rewrite length_app, length_take, Hb1. lia.
  - rewrite length_app, length_replicate. lia.
Qed.

Lemma final_rep ctx M : seen ctx M -> sha256_final ctx = fips_sha256 M.
Proof.
  intros [[Hs Hu Hb Hl] Hbc]. unfold sha256_final, fips_sha256, fips_pad. rewrite Hb, Hbc, Hs, Hu.
  set (n := (length M / 64)%nat) in *. set (r := (length M mod 64)%nat) in *.
  assert (HM : length M = (n * 64 + r)%nat) by (pose proof (Nat.div_mod_eq (length M) 64); lia).
  assert (Hr : (r < 64)%nat) by (apply Nat.mod_upper_bound; lia).
  set (lenb := write_be64 (u64 (Z.of_nat (length M) * 8))).
  rewrite pad_buffer by (try rewrite length_drop; lia).
  rewrite length_app, length_cons, length_app, length_replicate.
  change (length lenb) with 8%nat.
  destruct (Nat.leb_spec 56 r).
  - replace ((119 - r) mod 64)%nat with (119 - r)%nat by (symmetry; apply Nat.mod_small; lia).
    replace ((length M + S (119 - r + 8)) / 64)%nat with (S (S n)).
    + by rewrite (final_two_blocks M (drop (n * 64) M) _ n r lenb).
    + rewrite HM. replace (n * 64 + r + S (119 - r + 8))%nat with (S (S n) * 64)%nat by lia.
      by rewrite Nat.div_mul.
  - replace ((119 - r) mod 64)%nat with (55 - r)%nat.
    2:{ replace (119 - r)%nat with (55 - r + 1 * 64)%nat by lia.
        rewrite Nat.Div0.mod_add. symmetry. apply Nat.mod_small. lia. }
    replace ((length M + S (55 - r + 8)) / 64)%nat with (S n).
    + by rewrite (final_one_block M (drop (n * 64) M) _ n r lenb).
    + rewrite HM. replace (n * 64 + r + S (55 - r + 8))%nat with (S n * 64)%nat by lia.
      by rewrite Nat.div_mul.
Qed.

Lemma seen_init b : length b = 64%nat -> seen (sha256_init b) [].
Proof. intros. split; [by apply init_rep|done]. Qed.

Lemma sha256_fips data : sha256 data = fips_sha256 data.
Proof. apply final_rep, (update_seen _ []), seen_init. done. Qed.

(** Feeding a message in two parts hashes the whole. *)
Lemma sha256_two_parts b x y : length b = 64%nat ->
  sha256_final (sha256_update (sha256_update (sha256_init b) x) y) = fips_sha256 (x ++ y).
Proof. intros. by apply final_rep, update_seen, (update_seen _ []), seen_init. Qed.

Lemma length_fips M : length (fips_sha256 M) = 32%nat.
Proof.
  unfold fips_sha256. set (st := chain _ _ _).
  assert (Hl : length st = 8%nat).
  { unfold st. destruct (length (fips_pad M) / 64)%nat; [done|].
    rewrite chain_S. apply length_compress. }
  do 8 (destruct st as [|? st]; [done|]). by destruct st.
Qed.

(** C4: the streaming hash, however the message is split over the update calls,
    is SHA-256 as FIPS 180-4 defines it: pad, cut in 64-byte blocks, chain. *)
Theorem sha256_streaming parts b : length b = 64%nat ->
  sha256_final (fold_left sha256_update parts (sha256_init b)) = fips_sha256 (mjoin parts).
Proof.
  intros Hb. apply final_rep. pose proof (seen_init b Hb) as H.
  change (mjoin parts) with ([] ++ mjoin parts). revert H.
  generalize (sha256_init b) ([] : list Z). induction parts as [|p parts IH]; intros ctx M H.
  - simpl. by rewrite app_nil_r.
  - simpl. rewrite app_assoc. apply IH. by apply update_seen.
Qed.

Lemma hmac_is_rfc K M : sm_hmac_sha256 (Some K) (Some M) = Some (rfc_hmac K M).
Proof.
  unfold sm_hmac_sha256, rfc_hmac. f_equal.
  set (K0 := if decide (64 < length K)%nat then fips_sha256 K else K).
  assert (Hk0 : (length K0 <= 64)%nat).
  { unfold K0. case_decide; [rewrite length_fips|]; lia. }
  assert (Hpad : (if Nat.ltb 64 (length K) then splice 0 (sha256 K) (replicate 64 0)
                  else splice 0 K (replicate 64 0)) = K0 ++ replicate (64 - length K0) 0).
  { unfold K0, splice. rewrite sha256_fips.
    destruct (Nat.ltb_spec 64 (length K)); [rewrite decide_True by lia|rewrite decide_False by lia];
      by rewrite drop_replicate. }
  rewrite Hpad. rewrite !sha256_two_parts by done. f_equal. f_equal.
  rewrite <- list_fmap_compose. apply list_fmap_ext. intros _ x _. simpl.
  rewrite <- Z.lxor_assoc. f_equal.
Qed.

(** The MAC is HMAC-SHA256 as RFC 2104 defines it, for keys shorter, equal
    to and longer than a block. *)
Theorem hmac_rfc2104 K M : sm_hmac_sha256 (Some K) (Some M) = Some (rfc_hmac K M).
Proof. apply hmac_is_rfc. Qed.

(** ** Verification *)

Lemma lor_byte x y : 0 <= x < 256 -> 0 <= y < 256 -> 0 <= Z.lor x y < 256.
Proof.
  intros. assert (0 <= Z.lor x y) by (apply Z.lor_nonneg; lia). split; [done|].
  destruct (Z.eq_dec (Z.lor x y) 0); [lia|].
  apply (Z.log2_lt_pow2 _ 8); [lia|]. rewrite Z.log2_lor by lia.
  apply Z.max_lub_lt; (destruct (Z.eq_dec x 0), (Z.eq_dec y 0); subst; try (simpl; lia);
    apply Z.log2_lt_pow2; lia).
Qed.

Lemma lxor_byte x y : 0 <= x < 256 -> 0 <= y < 256 -> 0 <= Z.lxor x y < 256.
Proof.
  intros. assert (0 <= Z.lxor x y) by (apply Z.lxor_nonneg; lia). split; [done|].
  destruct (Z.eq_dec (Z.lxor x y) 0); [lia|].
  apply (Z.log2_lt_pow2 _ 8); [lia|].
  eapply Z.le_lt_trans; [apply Z.log2_lxor; lia|].
  apply Z.max_lub_lt; (destruct (Z.eq_dec x 0), (Z.eq_dec y 0); subst; try (simpl; lia);
    apply Z.log2_lt_pow2; lia).
Qed.

Lemma memcmp_from_zero a : forall b diff, bytes a -> bytes b -> length a = length b ->
  0 <= diff < 256 -> memcmp_from diff a b = 0 <-> diff = 0 /\ a = b.
Proof.
  induction a as [|x a IH]; intros [|y b] diff Ha Hb Hl Hd; simpl in *; try lia; [intuition congruence|].
  apply Forall_cons in Ha as [Hx Ha]. apply Forall_cons in Hb as [Hy Hb].
  pose proof (lxor_byte x y Hx Hy) as Hxy. pose proof (lor_byte _ _ Hd Hxy) as Ho.
  rewrite wrap_small by exact Ho. rewrite IH by (try done; lia).
  rewrite Z.lor_eq_0_iff, Z.lxor_eq_0_iff. intuition congruence.
Qed.

Lemma memcmp_zero a b : bytes a -> bytes b -> length a = length b ->
  consttime_memcmp a b = 0 <-> a = b.
Proof. intros. unfold consttime_memcmp. rewrite memcmp_from_zero by (done || lia). intuition congruence. Qed.

Lemma be32_bytes v : bytes (write_be32 v).
Proof. repeat constructor; apply wrap_range; lia. Qed.

Lemma fips_bytes M : bytes (fips_sha256 M).
Proof.
  unfold fips_sha256. apply Forall_join, Forall_fmap, Forall_true. intros. apply be32_bytes.
Qed.

Lemma verify_iff K M expected : bytes expected -> length expected = SM_HMAC_SIZE ->
  (sm_hmac_verify (Some K) (Some M) expected = 0 <-> expected = rfc_hmac K M) /\
  (sm_hmac_verify (Some K) (Some M) expected = -1 <-> expected <> rfc_hmac K M).
Proof.
  intros Hb Hl. unfold sm_hmac_verify. rewrite hmac_is_rfc.
  assert (Heq : consttime_memcmp (rfc_hmac K M) expected = 0 <-> rfc_hmac K M = expected).
  { apply memcmp_zero; [apply fips_bytes|done|]. rewrite Hl. apply length_fips. }
  destruct (Z.eqb_spec (consttime_memcmp (rfc_hmac K M) expected) 0) as [He|He].
  - apply Heq in He. split; split; congruence.
  - rewrite Heq in He. split; split; congruence.
Qed.

(** Verification returns 0 exactly when the expected bytes are the RFC 2104
    MAC of the data under the key, and -1 otherwise. *)
Theorem hmac_verify_iff K M expected : bytes expected -> length expected = SM_HMAC_SIZE ->
  (sm_hmac_verify (Some K) (Some M) expected = 0 <-> expected = rfc_hmac K M) /\
  (sm_hmac_verify (Some K) (Some M) expected = -1 <-> expected <> rfc_hmac K M).
Proof. intros Hb Hl. by apply verify_iff. Qed.

(** ** The key *)

Lemma splice_full (bs k : list Z) : length bs = length k -> splice 0 bs k = bs.
Proof.
  intros H. unfold splice. rewrite take_0, app_nil_l, drop_ge by lia. apply app_nil_r.
Qed.

(** The key in use comes in full from one of the paths: read from its file, or
    drawn fresh and saved there. *)
Definition key_from (os : list path_answers) (ks : key_state) : Prop :=
  exists o k, o ∈ os /\ sm_crypto_get_key ks = Some k /\ length k = SM_HMAC_KEY_SIZE /\
    (pa_read o = Some k \/ (pa_urandom o = Some k /\ pa_create o = true)).

(** [read] returns no more bytes than were asked for. *)
Definition reads_bounded (o : path_answers) : Prop :=
  (length (default [] (pa_read o)) <= SM_HMAC_KEY_SIZE)%nat /\
  (length (default [] (pa_urandom o)) <= SM_HMAC_KEY_SIZE)%nat.

Lemma new_key_ok o k b k2 : reads_bounded o -> length k = SM_HMAC_KEY_SIZE ->
  new_key o k = (b, k2) -> length k2 = SM_HMAC_KEY_SIZE /\
  (b = true -> pa_urandom o = Some k2 /\ pa_create o = true).
Proof.
  intros [_ Hu] Hk. unfold new_key, generate_key.
  destruct (pa_urandom o) as [bs|]; simpl in Hu; intros Hn.
  - injection Hn as <- <-. rewrite length_splice by lia. split; [done|].
    intros Hb. apply andb_true_iff in Hb as [[Hl Hc]%andb_true_iff _].
    apply Nat.eqb_eq in Hl. by rewrite splice_full by lia.
  - by injection Hn as <- <-.
Qed.

Lemma try_paths_key os rc ks' : Forall reads_bounded os -> forall ks,
  length (g_key ks) = SM_HMAC_KEY_SIZE -> try_paths os ks = (rc, ks') ->
  (rc = 0 /\ key_from os ks') \/
  (rc = -1 /\ g_key ks' = replicate SM_HMAC_KEY_SIZE 0 /\ g_key_loaded ks' = g_key_loaded ks).
Proof.
  induction 1 as [|o os Ho Hos IH]; intros ks Hk Hr; cbn [try_paths] in Hr.
  { simplify_eq. by right. }
  set (k1 := splice 0 (default [] (pa_read o)) (g_key ks)) in *.
  assert (Hk1 : length k1 = SM_HMAC_KEY_SIZE)
    by (destruct Ho; unfold k1; rewrite length_splice; lia).
  destruct (Nat.eqb_spec (length (default [] (pa_read o))) SM_HMAC_KEY_SIZE) as [Hl|Hl].
  { simplify_eq. left. split; [done|]. exists o, k1. split_and!; [left|done|done|left].
    unfold k1. rewrite splice_full by congruence. by destruct (pa_read o). }
  destruct (new_key o k1) as [b k2] eqn:Hn.
  destruct (new_key_ok _ _ _ _ Ho Hk1 Hn) as [Hk2 Hb]. destruct b.
  - simplify_eq. left. split; [done|]. exists o, k2. destruct (Hb eq_refl).
    split_and!; [left|done|done|by right].
  - destruct (IH (mk_key k2 (g_key_loaded ks)) Hk2 Hr) as [(? & o' & k & ? & ?)|?]; [left|by right].
    split; [done|]. exists o', k. split; [by right|done].
Qed.

Definition key_paths (configured : option path_answers) (run tmp : path_answers)
    : list path_answers :=
  match configured with Some o => [o; run; tmp] | None => [run; tmp] end.

(** Initialisation succeeds only with a full 32-byte key, the one read from
    a key file or 32 fresh random bytes that were saved; when every path fails
    no partial or stale key bytes are left behind. *)
Theorem crypto_init_key configured run tmp ks rc ks' :
  length (g_key ks) = SM_HMAC_KEY_SIZE ->
  Forall reads_bounded (key_paths configured run tmp) ->
  sm_crypto_init configured run tmp ks = (rc, ks') ->
  (rc = 0 /\ key_from (key_paths configured run tmp) ks') \/
  (rc = -1 /\ g_key ks' = replicate SM_HMAC_KEY_SIZE 0 /\ g_key_loaded ks' = g_key_loaded ks).
Proof. intros Hk Hos Hr. by apply (try_paths_key _ _ _ Hos ks). Qed.

(** ** Test vectors and witnesses *)


(** The tables are the ones FIPS 180-4 defines: the first 32 bits of the
    fractional parts of the square roots of the first 8 primes and of the cube
    roots of the first 64. *)
Definition is_prime (n : nat) : bool :=
  Nat.leb 2 n && forallb (fun d => negb (n mod d =? 0)%nat) (seq 2 (n - 2)).
Definition primes_to (n : nat) : list Z := Z.of_nat <$> filter is_prime (seq 0 (S n)).
Definition root_fraction (k p w : Z) : bool :=
  existsb (fun i => (Z.pow (i * 2 ^ 32 + w) k <=? p * 2 ^ (32 * k)) &&
                    (p * 2 ^ (32 * k) <? Z.pow (i * 2 ^ 32 + w + 1) k)) (seqZ 1 7).

Lemma SHA256_K_cube_roots :
  length (primes_to 311) = 64%nat /\
  forallb (uncurry (root_fraction 3)) (combine (primes_to 311) SHA256_K) = true /\
  forallb (uncurry (root_fraction 2)) (combine (primes_to 19) SHA256_H0) = true.
Proof. vm_compute. done. Qed.

(** FIPS 180-4 and RFC 4231 test vectors. *)
Example sha256_abc :
  sha256 (ascii_bytes "abc") = mjoin (write_be32 <$> words32 8
    0xba7816bf_8f01cfea_414140de_5dae2223_b00361a3_96177a9c_b410ff61_f20015ad).
Proof. vm_compute. reflexivity. Qed.

Example sha256_two_blocks :
  sha256 (ascii_bytes "abcdbcdecdefdefgefghfghighijhijkijkljklmklmnlmnomnopnopq") =
  mjoin (write_be32 <$> words32 8
    0x248d6a61_d20638b8_e5c02693_0c3e6039_a33ce459_64ff2167_f6ecedd4_19db06c1).
Proof. vm_compute. reflexivity. Qed.

Example hmac_rfc4231_1 :
  sm_hmac_sha256 (Some (replicate 20 0x0b)) (Some (ascii_bytes "Hi There")) =
  Some (mjoin (write_be32 <$> words32 8
    0xb0344c61_d8db3853_5ca8afce_af0bf12b_881dc200_c9833da7_26e9376c_2e32cff7)).
Proof. vm_compute. reflexivity. Qed.

Lemma sha256_streaming_witness :
  sha256_final (fold_left sha256_update [ascii_bytes "ab"; []; ascii_bytes "c"]
                 (sha256_init (replicate 64 7))) = fips_sha256 (ascii_bytes "abc").
Proof. apply (sha256_streaming [ascii_bytes "ab"; []; ascii_bytes "c"] (replicate 64 7)). done. Defined.

Lemma hmac_verify_iff_witness :
  let K := replicate 20 0x0b in let M := ascii_bytes "Hi There" in
  sm_hmac_verify (Some K) (Some M) (replicate 32 0) = -1.
Proof.
  apply (hmac_verify_iff (replicate 20 0x0b) (ascii_bytes "Hi There") (replicate 32 0)).
  - apply Forall_replicate. lia.
  - done.
  - vm_compute. discriminate.
Defined.

Definition no_path : path_answers := mk_path None None false 0.

Lemma crypto_init_key_witness :
  let o := mk_path None (Some (replicate 32 7)) true 32 in
  key_from [o; no_path] (mk_key (replicate 32 7) true) \/ (0 = -1).
Proof.
  set (o := mk_path None (Some (replicate 32 7)) true 32).
  destruct (crypto_init_key None o no_path (mk_key (replicate 32 0) false) 0
    (mk_key (replicate 32 7) true)) as [(_ & H)|(H & _)].
  - done.
  - repeat constructor; vm_compute; lia.
  - vm_compute. reflexivity.
  - left. exact H.
  - right. exact H.
Defined.
