(* ===== verification/Protocol.v ===== *)
(** * Wire protocol and its validation (infrastructure/sm_protocol.h, .c)

    A header is a record of its fields; [header_bytes] is its memory image
    before the MAC (little-endian, as the header's comment lays it out). *)

From S2P Require Import Prelude Registry Crypto.

#[local] Arguments String.append : simpl nomatch.

Definition SM_PROTOCOL_MAGIC : Z := 0x534D4B47.
Definition SM_PROTOCOL_VERSION : Z := 2.

(** [dev/core/service_manager/infrastructure/sm_protocol.h:18-26 SM_MSG_REGISTER] *)
Definition SM_MSG_REGISTER : Z := 1.
Definition SM_MSG_LOOKUP : Z := 2.
Definition SM_MSG_HEARTBEAT : Z := 3.
Definition SM_MSG_UNREGISTER : Z := 4.

(** [dev/core/service_manager/infrastructure/sm_protocol.h:54-63 sm_hdr_t] *)
Record sm_hdr_t := mk_hdr {
  magic : Z; version : Z; msg_type : Z; msg_length : Z;
  timestamp : Z; client_pid : Z; nonce : Z; hmac : list Z
}.

Definition SM_HDR_HMAC_OFFSET : nat := 24.
Definition sizeof_sm_hdr_t : Z := 56.
Definition SM_MAX_PAYLOAD_SIZE : Z := 1024.
Definition SM_TIMESTAMP_MAX_AGE : Z := 120.
Definition SM_TIMESTAMP_MAX_SKEW : Z := 60.

(** [dev/core/service_manager/infrastructure/sm_protocol.h:54-63 sm_hdr_t] the first 24 bytes
    in memory. *)
Definition header_bytes (h : sm_hdr_t) : list Z :=
  le_bytes 4 (magic h) ++ le_bytes 2 (version h) ++ le_bytes 2 (msg_type h) ++
  le_bytes 4 (msg_length h) ++ le_bytes 4 (timestamp h) ++ le_bytes 4 (client_pid h) ++
  le_bytes 4 (nonce h).

(** [dev/core/service_manager/infrastructure/sm_protocol.c:25-85 sm_validate_header] *)
Definition sm_validate_header (hdr : option sm_hdr_t) (received_size now : Z) : Z :=
  match hdr with
  | None => SM_ERR_INVALID
  | Some h =>
      if negb (magic h =? SM_PROTOCOL_MAGIC) then SM_ERR_PROTOCOL
      else if negb (version h =? SM_PROTOCOL_VERSION) then SM_ERR_PROTOCOL
      else if (msg_type h <? SM_MSG_REGISTER) || (SM_MSG_UNREGISTER <? msg_type h)
           then SM_ERR_INVALID
      else if (msg_length h =? 0) || (SM_MAX_PAYLOAD_SIZE <? msg_length h) then SM_ERR_INVALID
      else if negb (received_size =? sizeof_sm_hdr_t + msg_length h) then SM_ERR_PROTOCOL
      else
        let now32 := u32 now in
        if u32 (now32 + SM_TIMESTAMP_MAX_SKEW) <? timestamp h then SM_ERR_INVALID
        else if timestamp h <? now - SM_TIMESTAMP_MAX_AGE then SM_ERR_INVALID
        else SM_OK
  end.

(** [dev/core/service_manager/infrastructure/sm_protocol.c:95-116
    sm_validate_header_hmac] *)
Definition sm_validate_header_hmac (hdr : option sm_hdr_t) (payload key : option (list Z)) : Z :=
  match hdr, payload, key with
  | Some h, Some p, Some k =>
      let mac_len := Z.of_nat SM_HDR_HMAC_OFFSET + msg_length h in
      if Z.of_nat SM_HDR_HMAC_OFFSET + SM_MAX_PAYLOAD_SIZE <? mac_len then SM_ERR_INVALID
      else
        let mac_input := header_bytes h ++ take (Z.to_nat (msg_length h)) p in
        if sm_hmac_verify (Some k) (Some mac_input) (hmac h) =? 0 then SM_OK else SM_ERR_AUTH
  | _, _, _ => SM_ERR_INVALID
  end.

Definition name_char_ok (c : ascii) : bool :=
  isalnum c || Ascii.eqb c "_" || Ascii.eqb c "-".

Fixpoint all_chars (f : ascii -> bool) (s : string) : bool :=
  match s with EmptyString => true | String c s' => if negb (f c) then false else all_chars f s' end.

(** [dev/core/service_manager/infrastructure/sm_protocol.c:120-144
    sm_validate_service_name] *)
Definition sm_validate_service_name (nm : option string) : Z :=
  match nm with
  | None | Some EmptyString => SM_ERR_INVALID
  | Some nm =>
      if Nat.leb SM_MAX_NAME (String.length nm) then SM_ERR_INVALID
      else if negb (all_chars name_char_ok nm) then SM_ERR_INVALID
      else SM_OK
  end.

(** [strstr (s, pat) != NULL]. *)
Fixpoint strstr (pat s : string) : bool :=
  String.prefix pat s || match s with EmptyString => false | String _ s' => strstr pat s' end.

(** [strncmp (s, p, strlen (p)) == 0]. *)
Definition has_prefix (p s : string) : bool := strncmp_eq (String.length p) s p.

Definition allowed_prefixes : list string := ["/run/"; "/tmp/"; "/dev/shm/"]%string.

(** [dev/core/service_manager/infrastructure/sm_protocol.c:148-183
    sm_validate_socket_path] *)
Definition sm_validate_socket_path (path : option string) : Z :=
  match path with
  | None | Some EmptyString => SM_ERR_INVALID
  | Some (String c0 _ as p) =>
      if Nat.leb SM_MAX_PATH (String.length p) then SM_ERR_INVALID
      else if negb (Ascii.eqb c0 "/") then SM_ERR_INVALID
      else if strstr ".." p || strstr "//" p then SM_ERR_INVALID
      else if negb (existsb (fun q => has_prefix q p) allowed_prefixes) then SM_ERR_INVALID
      else SM_OK
  end.

(** Sizes of the four request structures. *)
Definition sizeof_register : Z := 64 + 256 + 256 + 4.
Definition sizeof_name_req : Z := 64.

(** [dev/core/service_manager/infrastructure/sm_protocol.c:187-208
    sm_validate_message_size] *)
Definition sm_validate_message_size (payload_len type : Z) : Z :=
  let expected :=
    if type =? SM_MSG_REGISTER then Some sizeof_register
    else if type =? SM_MSG_LOOKUP then Some sizeof_name_req
    else if type =? SM_MSG_HEARTBEAT then Some sizeof_name_req
    else if type =? SM_MSG_UNREGISTER then Some sizeof_name_req
    else None in
  match expected with
  | None => SM_ERR_INVALID
  | Some e => if payload_len =? e then SM_OK else SM_ERR_INVALID
  end.

(** ** What is accepted *)

Lemma header_ok_iff h size now : 0 <= now < 2 ^ 32 - SM_TIMESTAMP_MAX_SKEW ->
  sm_validate_header (Some h) size now = SM_OK <->
  magic h = SM_PROTOCOL_MAGIC /\ version h = SM_PROTOCOL_VERSION /\
  SM_MSG_REGISTER <= msg_type h <= SM_MSG_UNREGISTER /\
  msg_length h <> 0 /\ msg_length h <= SM_MAX_PAYLOAD_SIZE /\
  size = sizeof_sm_hdr_t + msg_length h /\
  now - SM_TIMESTAMP_MAX_AGE <= timestamp h <= now + SM_TIMESTAMP_MAX_SKEW.
Proof.
  intros Hn. unfold SM_TIMESTAMP_MAX_SKEW in Hn. unfold sm_validate_header.
  assert (Hw : u32 (u32 now + SM_TIMESTAMP_MAX_SKEW) = now + SM_TIMESTAMP_MAX_SKEW).
  { unfold SM_TIMESTAMP_MAX_SKEW. rewrite (wrap_small 32 now), wrap_small by lia. done. }
  rewrite Hw. unfold SM_TIMESTAMP_MAX_SKEW, SM_TIMESTAMP_MAX_AGE, SM_MSG_REGISTER,
    SM_MSG_UNREGISTER, SM_MAX_PAYLOAD_SIZE.
  zcases; simpl; (split; [intros; try discriminate; lia|intros; try lia; done]).
Qed.

(** A header is accepted exactly when magic, version, type, length and
    received size fit and its timestamp lies in the window from 120 seconds
    before to 60 seconds after the clock (clock below the 32-bit wrap). *)
Theorem header_accepted_iff h size now : 0 <= now < 2 ^ 32 - SM_TIMESTAMP_MAX_SKEW ->
  sm_validate_header (Some h) size now = SM_OK <->
  magic h = SM_PROTOCOL_MAGIC /\ version h = SM_PROTOCOL_VERSION /\
  SM_MSG_REGISTER <= msg_type h <= SM_MSG_UNREGISTER /\
  msg_length h <> 0 /\ msg_length h <= SM_MAX_PAYLOAD_SIZE /\
  size = sizeof_sm_hdr_t + msg_length h /\
  now - SM_TIMESTAMP_MAX_AGE <= timestamp h <= now + SM_TIMESTAMP_MAX_SKEW.
Proof. apply header_ok_iff. Qed.

(** Past the 32-bit wrap of the clock the window closes: every header is
    refused, whatever its timestamp. *)
Lemma header_refused_after_2106 h size now : 0 <= timestamp h < 2 ^ 32 ->
  2 ^ 32 + SM_TIMESTAMP_MAX_AGE <= now -> sm_validate_header (Some h) size now <> SM_OK.
Proof.
  intros Ht Hn. unfold sm_validate_header, SM_TIMESTAMP_MAX_AGE in *.
  repeat (case_match; [done|]). bool_to_prop. lia.
Qed.

Lemma all_chars_forall f s :
  all_chars f s = true <-> Forall (fun c => f c = true) (list_ascii_of_string s).
Proof.
  induction s as [|c s IH]; simpl; [split; constructor|].
  rewrite Forall_cons, <- IH. destruct (f c); simpl; intuition congruence.
Qed.

Lemma name_iff nm :
  (sm_validate_service_name (Some nm) = SM_OK <->
   (1 <= String.length nm < SM_MAX_NAME)%nat /\
   Forall (fun c => name_char_ok c = true) (list_ascii_of_string nm)) /\
  (sm_validate_service_name (Some nm) = SM_OK -> name_is_valid nm = true).
Proof.
  assert (H : sm_validate_service_name (Some nm) = SM_OK <->
   (1 <= String.length nm < SM_MAX_NAME)%nat /\
   Forall (fun c => name_char_ok c = true) (list_ascii_of_string nm)).
  { rewrite <- all_chars_forall. destruct nm as [|c nm]; [simpl; split; [done|lia]|].
    unfold sm_validate_service_name.
    destruct (Nat.leb_spec SM_MAX_NAME (String.length (String c nm))).
    - split; [done|]. intros [? _]. lia.
    - destruct (all_chars name_char_ok (String c nm)); simpl;
        split; try done; [|by intros []]. intros _. simpl in *. lia. }
  split; [done|]. intros [Hl Hc]%H. destruct nm as [|c nm]; [simpl in Hl; lia|].
  simpl in Hc. apply Forall_cons in Hc as [Hc _]. simpl.
  destruct (isspace c) eqn:Hs; [exfalso|done].
  unfold name_char_ok, isspace, isalnum in *. cbv zeta in *. rewrite !orb_true_iff in Hc.
  rewrite !Ascii.eqb_eq in Hc. destruct Hc as [[Hc| ->]| ->]; [|by vm_compute in Hs..].
  rewrite orb_true_iff, andb_true_iff in Hs.
  rewrite !andb_true_iff in Hc.
  rewrite !Z.eqb_eq, !Z.leb_le in Hs. rewrite !Z.leb_le in Hc. lia.
Qed.

Lemma name_ok_iff nm : sm_validate_service_name (Some nm) = SM_OK <->
  (1 <= String.length nm < SM_MAX_NAME)%nat /\
  Forall (fun c => name_char_ok c = true) (list_ascii_of_string nm).
Proof. apply name_iff. Qed.

(** A service name is accepted exactly when it has 1 to 63 characters, all
    letters, digits, hyphens or underscores; in particular it is a name the
    registry accepts. *)
Lemma name_accepted_iff nm :
  (sm_validate_service_name (Some nm) = SM_OK <->
   (1 <= String.length nm < SM_MAX_NAME)%nat /\
   Forall (fun c => name_char_ok c = true) (list_ascii_of_string nm)) /\
  (sm_validate_service_name (Some nm) = SM_OK -> name_is_valid nm = true).
Proof. apply name_iff. Qed.

(** ** An accepted path stays below its directory

    [components] cuts a path at its slashes; [resolve] walks it from the root
    the way the kernel does, ignoring symbolic links: empty and [.] components
    stay, [..] goes up. *)

Fixpoint components_acc (acc s : string) : list string :=
  match s with
  | EmptyString => [acc]
  | String c s' => if Ascii.eqb c "/" then acc :: components_acc "" s'
                   else components_acc (acc ++ String c "") s'
  end.
Definition components (s : string) : list string := components_acc "" s.

Fixpoint resolve (here : list string) (cs : list string) : list string :=
  match cs with
  | [] => here
  | c :: cs' =>
      if String.eqb c "" || String.eqb c "." then resolve here cs'
      else if String.eqb c ".." then resolve (removelast here) cs'
      else resolve (here ++ [c]) cs'
  end.

Lemma prefix_app_true p s : String.prefix p (p ++ s) = true.
Proof.
  induction p as [|c p IH]; simpl; [by destruct s|]. by destruct (ascii_dec c c).
Qed.

Lemma strstr_here pat s : String.prefix pat s = true -> strstr pat s = true.
Proof. intros H. destruct s; cbn [strstr]; by rewrite H. Qed.

Lemma strstr_found a pat b : strstr pat (a ++ pat ++ b) = true.
Proof.
  induction a as [|c a IH]; [change ("" ++ pat ++ b)%string with (pat ++ b)%string; apply strstr_here, prefix_app_true|].
  simpl. rewrite IH. apply orb_true_r.
Qed.

Lemma string_app_assoc (a b c : string) : ((a ++ b) ++ c = a ++ (b ++ c))%string.
Proof. induction a as [|x a IH]; simpl; [done|]. by rewrite IH. Qed.

(** Every component occurs in the path. *)
Lemma component_occurs s : forall acc c, c ∈ components_acc acc s ->
  exists a b, (acc ++ s = a ++ c ++ b)%string.
Proof.
  induction s as [|x s IH]; intros acc c Hc; simpl in Hc.
  - apply list_elem_of_singleton in Hc as ->. exists ""%string, ""%string. done.
  - destruct (Ascii.eqb_spec x "/"%char) as [->|Hx].
    + apply elem_of_cons in Hc as [->|Hc].
      * exists ""%string, (String "/" s). done.
      * apply IH in Hc as (a & b & Heq). simpl in Heq.
        exists (acc ++ String "/" a)%string, b. rewrite string_app_assoc. simpl. by rewrite Heq.
    + apply IH in Hc as (a & b & Heq). exists a, b. rewrite <- Heq, string_app_assoc. done.
Qed.

Lemma resolve_stays cs : forall here, Forall (fun c => c <> ".."%string) cs ->
  here `prefix_of` resolve here cs.
Proof.
  induction cs as [|c cs IH]; intros here Hcs; simpl; [done|].
  apply Forall_cons in Hcs as [Hc Hcs]. destruct (_ || _); [by apply IH|].
  destruct (String.eqb_spec c ".."); [done|].
  etrans; [|by apply IH]. by apply prefix_app_r.
Qed.

Lemma has_prefix_app q p : has_prefix q p = true -> exists t, p = (q ++ t)%string.
Proof.
  unfold has_prefix, strncmp_eq. rewrite String.eqb_eq.
  rewrite (strncpy_z_short _ q) by lia. revert p.
  induction q as [|c q IH]; intros [|x p] H; simpl in *; try done; [by exists ""%string|by eexists|].
  injection H as -> H. destruct (IH p H) as [t ->]. by exists t.
Qed.

(** The directories registered services may put their sockets in. *)
Definition allowed_dirs : list (list string) := [["run"]; ["tmp"]; ["dev"; "shm"]]%string.

(** The path is absolute, it begins with the names of one of these directories, and from
    there on every step of the walk along it is inside that directory. *)
Definition in_allowed_dir (p : string) : Prop :=
  has_prefix "/" p = true /\
  exists d, d ∈ allowed_dirs /\ take (S (length d)) (components p) = (""%string :: d) /\
    forall n, (S (length d) <= n)%nat -> d `prefix_of` resolve [] (take n (components p)).

(** A walk that starts with [d] and never meets [..] stays below [d]. *)
Lemma walk_stays d cs n : Forall (fun c => c <> ".."%string) (d ++ cs) ->
  Forall (fun c => String.eqb c "" = false /\ String.eqb c "." = false) d -> (S (length d) <= n)%nat ->
  d `prefix_of` resolve [] (take n (""%string :: d ++ cs)).
Proof.
  intros Hno Hd Hn. destruct n as [|n]; [lia|]. cbn [take resolve String.eqb orb].
  rewrite take_app_ge by lia. apply Forall_app in Hno as [Hnd Hno].
  assert (Hw : forall here l, resolve here (d ++ l) = resolve (here ++ d) l).
  { clear n Hn. induction d as [|c d IH]; intros here l; cbn [app resolve]; [by rewrite app_nil_r|].
    apply Forall_cons in Hd as [[-> ->] Hd]. apply Forall_cons in Hnd as [Hc Hnd].
    destruct (String.eqb_spec c ".."); [done|]. cbn [orb]. rewrite IH by done. by rewrite <- app_assoc. }
  rewrite Hw. apply resolve_stays. by apply Forall_take.
Qed.

Lemma path_ok p : sm_validate_socket_path (Some p) = SM_OK ->
  (1 <= String.length p < SM_MAX_PATH)%nat /\ in_allowed_dir p.
Proof.
  unfold sm_validate_socket_path. destruct p as [|c0 p0] eqn:Ep; [done|].
  rewrite <- Ep. clear Ep. intros H.
  destruct (Nat.leb_spec SM_MAX_PATH (String.length p)) as [|Hlen]; [done|].
  destruct (negb (Ascii.eqb c0 "/")); [done|].
  destruct (strstr ".." p) eqn:Hdd; [done|]. destruct (strstr "//" p); [done|]. simpl in H.
  assert (Hno : Forall (fun c => c <> ".."%string) (components p)).
  { apply Forall_forall. intros c Hc ->. apply component_occurs in Hc as (a & b & Heq).
    change ("" ++ p)%string with p in Heq. by rewrite Heq, strstr_found in Hdd. }
  assert (Hin : exists q t, q ∈ allowed_prefixes /\ p = (q ++ t)%string).
  { assert (He : (has_prefix "/run/" p || (has_prefix "/tmp/" p ||
      (has_prefix "/dev/shm/" p || false)))%bool = true) by (by destruct (_ || _)%bool).
    unfold allowed_prefixes. rewrite !orb_true_iff in He.
    destruct He as [He|[He|[He|He]]]; [..|done]; apply has_prefix_app in He as [t ->];
      eexists _, t; (split; [|done]); set_solver. }
  destruct Hin as (q & t & Hq & ->). split.
  { split; [|done]. unfold allowed_prefixes in Hq. rewrite !elem_of_cons in Hq.
    destruct Hq as [->|[->|[->|Hq]]]; simpl; try lia. by apply not_elem_of_nil in Hq. }
  unfold allowed_prefixes in Hq. rewrite !elem_of_cons in Hq. unfold in_allowed_dir, allowed_dirs.
  destruct Hq as [->|[->|[->|Hq]]]; [..|by apply not_elem_of_nil in Hq]; clear Hlen Hdd H;
    (split; [by destruct t|]); unfold components in *; simpl components_acc in *;
    apply Forall_cons in Hno as [_ Hno].
  - exists ["run"%string]. split_and!; [set_solver|done|]. intros n Hn.
    apply (walk_stays ["run"%string]); [done|by repeat constructor|done].
  - exists ["tmp"%string]. split_and!; [set_solver|done|]. intros n Hn.
    apply (walk_stays ["tmp"%string]); [done|by repeat constructor|done].
  - exists ["dev"; "shm"]%string. split_and!; [set_solver|done|]. intros n Hn.
    apply (walk_stays ["dev"; "shm"]%string); [done|by repeat constructor|done].
Qed.

(** C11: an accepted path is shorter than [SM_MAX_PATH] and absolute; its first components name
    /run, /tmp or /dev/shm, and from there on every step of the walk along it, the last one
    included, is inside that directory. *)
Theorem path_confined p : sm_validate_socket_path (Some p) = SM_OK ->
  (1 <= String.length p < SM_MAX_PATH)%nat /\ has_prefix "/" p = true /\
  exists d, d ∈ [["run"]; ["tmp"]; ["dev"; "shm"]]%string /\
    take (S (length d)) (components p) = (""%string :: d) /\
    forall n, (S (length d) <= n)%nat -> d `prefix_of` resolve [] (take n (components p)).
Proof. apply path_ok. Qed.

(** ** Message authentication and sizes *)

Lemma hdr_hmac h p K :
  0 <= msg_length h <= SM_MAX_PAYLOAD_SIZE -> Z.of_nat (length p) = msg_length h ->
  bytes (hmac h) -> length (hmac h) = SM_HMAC_SIZE ->
  (sm_validate_header_hmac (Some h) (Some p) (Some K) = SM_OK <->
     hmac h = rfc_hmac K (header_bytes h ++ p)) /\
  (sm_validate_header_hmac (Some h) (Some p) (Some K) = SM_ERR_AUTH <->
     hmac h <> rfc_hmac K (header_bytes h ++ p)).
Proof.
  intros Hl Hp Hb Hm. unfold sm_validate_header_hmac.
  destruct (Z.ltb_spec (Z.of_nat SM_HDR_HMAC_OFFSET + SM_MAX_PAYLOAD_SIZE)
    (Z.of_nat SM_HDR_HMAC_OFFSET + msg_length h)); [lia|].
  rewrite take_ge by lia.
  destruct (verify_iff K (header_bytes h ++ p) (hmac h) Hb Hm) as [H0 H1].
  destruct (Z.eqb_spec (sm_hmac_verify (Some K) (Some (header_bytes h ++ p)) (hmac h)) 0)
    as [He|He].
  - apply H0 in He. split; split; done.
  - rewrite H0 in He. split; split; done.
Qed.

Lemma hmac_checked h p K :
  0 <= msg_length h <= SM_MAX_PAYLOAD_SIZE -> Z.of_nat (length p) = msg_length h ->
  bytes (hmac h) -> length (hmac h) = SM_HMAC_SIZE ->
  sm_validate_header_hmac (Some h) (Some p) (Some K) = SM_OK ->
  hmac h = rfc_hmac K (header_bytes h ++ p).
Proof. intros H1 H2 H3 H4. by apply hdr_hmac. Qed.

(** Authentication accepts a header exactly when its MAC field is the
    HMAC-SHA256 of its first 24 bytes followed by the payload, under the key;
    otherwise it answers an authentication error. *)
Theorem header_hmac_iff h p K :
  0 <= msg_length h <= SM_MAX_PAYLOAD_SIZE -> Z.of_nat (length p) = msg_length h ->
  bytes (hmac h) -> length (hmac h) = SM_HMAC_SIZE ->
  (sm_validate_header_hmac (Some h) (Some p) (Some K) = SM_OK <->
     hmac h = rfc_hmac K (header_bytes h ++ p)) /\
  (sm_validate_header_hmac (Some h) (Some p) (Some K) = SM_ERR_AUTH <->
     hmac h <> rfc_hmac K (header_bytes h ++ p)).
Proof. apply hdr_hmac. Qed.

(** A payload of the accepted size has the type its structure belongs to. *)
Lemma message_size_iff n type :
  sm_validate_message_size n type = SM_OK <->
  (type = SM_MSG_REGISTER /\ n = sizeof_register) \/
  (type ∈ [SM_MSG_LOOKUP; SM_MSG_HEARTBEAT; SM_MSG_UNREGISTER] /\ n = sizeof_name_req).
Proof.
  rewrite !elem_of_cons, elem_of_nil. unfold sm_validate_message_size.
  unfold SM_MSG_REGISTER, SM_MSG_LOOKUP, SM_MSG_HEARTBEAT, SM_MSG_UNREGISTER, sizeof_register,
    sizeof_name_req, SM_OK, SM_ERR_INVALID in *.
  zcases; split; intros; try lia.
Qed.

(** ** Witnesses *)

Lemma header_accepted_iff_witness :
  sm_validate_header (Some (mk_hdr SM_PROTOCOL_MAGIC 2 1 580 1000 7 8 [])) 636 1010 = SM_OK.
Proof.
  apply (header_accepted_iff (mk_hdr SM_PROTOCOL_MAGIC 2 1 580 1000 7 8 []) 636 1010);
    vm_compute; repeat split; discriminate.
Defined.

Lemma path_confined_witness : in_allowed_dir "/run/camera/./sock".
Proof. apply (path_confined "/run/camera/./sock"). vm_compute. reflexivity. Defined.

(** Relative paths, and paths that step out on the way, are not in an allowed directory. *)
Example not_allowed : ~ in_allowed_dir "run/x" /\ ~ in_allowed_dir "/run/../run/x".
Proof.
  split.
  - intros [H _]. vm_compute in H. discriminate.
  - intros (_ & d & Hd & Ht & Hw). unfold allowed_dirs in Hd. rewrite !elem_of_cons, elem_of_nil in Hd.
    destruct Hd as [->|[->|[->|[]]]]; try discriminate Ht.
    specialize (Hw 3%nat ltac:(simpl; lia)). apply prefix_length in Hw. vm_compute in Hw. lia.
Qed.

Example path_rejected :
  sm_validate_socket_path <$> (Some <$> ["/run/../etc/passwd"; "/etc/x"; "run/x"; "/tmp//x"]%string)
  = [SM_ERR_INVALID; SM_ERR_INVALID; SM_ERR_INVALID; SM_ERR_INVALID].
Proof. vm_compute. reflexivity. Qed.

Definition hdr1 : sm_hdr_t := mk_hdr SM_PROTOCOL_MAGIC 2 3 64 1000 7 8 (replicate 32 0).

Lemma header_hmac_iff_witness :
  sm_validate_header_hmac (Some hdr1) (Some (replicate 64 97)) (Some (replicate 32 1)) = SM_ERR_AUTH.
Proof.
  apply (header_hmac_iff hdr1 (replicate 64 97) (replicate 32 1)).
  - vm_compute. split; discriminate.
  - reflexivity.
  - apply Forall_replicate. lia.
  - reflexivity.
  - vm_compute. discriminate.
Defined.
