(* ===== verification/Float64.v ===== *)
(** * IEEE binary64 and binary32

    The C types [double] and [float], with the operations of the Standard Library's
    [SpecFloat] at their precisions (round to nearest, ties to even). *)

From Stdlib Require Export SpecFloat.
From S2P Require Import Prelude.

Abbreviation double := spec_float.
Definition dadd : double -> double -> double := SFadd 53 1024.
Definition dsub : double -> double -> double := SFsub 53 1024.
Definition dmul : double -> double -> double := SFmul 53 1024.
Definition ddiv : double -> double -> double := SFdiv 53 1024.
Definition dlt (a b : double) : bool := SFltb a b.
Definition dle (a b : double) : bool := SFleb a b.
Definition d_of_Z (z : Z) : double := binary_normalize 53 1024 z 0 false.
Definition d0 : double := S754_zero false.
Definition d1 : double := d_of_Z 1.
Definition DBL_MAX : double := S754_finite false (2 ^ 53 - 1) 971.

(** [(int)d] and [(uint64_t)d]: rounded towards zero; 0 stands for the conversions that
    C leaves undefined (NaN and infinities). *)
Definition d_trunc (d : double) : Z :=
  match d with
  | S754_finite s m e => cond_Zopp s (if 0 <=? e then Z.shiftl (Zpos m) e else Z.shiftr (Zpos m) (- e))
  | _ => 0
  end.

(** [(float)d]. *)
Definition to_float (d : double) : double :=
  match d with
  | S754_finite s m e => binary_normalize 24 128 (cond_Zopp s (Zpos m)) e s
  | _ => d
  end.

(** The value of a decimal literal [n / 10^k]. *)
Definition d_lit (n k : Z) : double := ddiv (d_of_Z n) (d_of_Z (10 ^ k)).
