(* ===== verification/RateLimit.v ===== *)
(** * Rate limiting (security/sm_rate_limit.c, security/sm_advanced_ratelimit.c)

    Token counts and clock readings are IEEE binary64 values, computed with the
    Standard Library's [SpecFloat] operations at precision 53.  The mutexes make
    every public function one atomic step. *)

From S2P Require Import Prelude Float64 Registry.

(** The literal [1e-9]. *)
Definition d_1e_9 : double := S754_finite false 0x112E0BE826D695 (-82).

(** [dev/core/service_manager/security/sm_rate_limit.c:43-48 mono_now] *)
Definition mono_now (tv_sec tv_nsec : Z) : double :=
  dadd (d_of_Z tv_sec) (dmul (d_of_Z tv_nsec) d_1e_9).

(** ** Per-PID and global token buckets *)

(** [dev/core/service_manager/security/sm_rate_limit.h:15-24 SM_RATE_PID_CAPACITY] *)
Definition SM_RATE_PID_CAPACITY : double := d_of_Z 10.
Definition SM_RATE_PID_REFILL : double := d_of_Z 10.
Definition SM_RATE_GLOBAL_CAPACITY : double := d_of_Z 50.
Definition SM_RATE_GLOBAL_REFILL : double := d_of_Z 50.
Definition SM_RATE_TABLE_SIZE : nat := 256.

#[global] Arguments SM_RATE_TABLE_SIZE : simpl never.

(** [dev/core/service_manager/security/sm_rate_limit.c:28-32 bucket_t] *)
Record bucket_t := mk_bucket { b_pid : Z; tokens : double; last_refill : double }.

(** [dev/core/service_manager/security/sm_rate_limit.c:34-40 pid_table] The list
    holds the first [pid_table_count] entries of the array. *)
Record rate_state := mk_rate {
  pid_table : list bucket_t; g_tokens : double; g_last_refill : double
}.

(** [dev/core/service_manager/security/sm_rate_limit.c:51-59 refill_bucket] *)
Definition refill_bucket (b : bucket_t) (now rate capacity : double) : bucket_t :=
  let elapsed := dsub now (last_refill b) in
  if dlt d0 elapsed then
    let t := dadd (tokens b) (dmul elapsed rate) in
    mk_bucket (b_pid b) (if dlt capacity t then capacity else t) now
  else b.

(** [dev/core/service_manager/security/sm_rate_limit.c:63-75 sm_rate_limit_init] *)
Definition sm_rate_limit_init (now : double) : rate_state :=
  mk_rate [] SM_RATE_GLOBAL_CAPACITY now.

(** [dev/core/service_manager/security/sm_rate_limit.c:90-98 sm_rate_limit_check,
    the global refill] *)
Definition refill_global (now : double) (s : rate_state) : rate_state :=
  let elapsed := dsub now (g_last_refill s) in
  if dlt d0 elapsed then
    let t := dadd (g_tokens s) (dmul elapsed SM_RATE_GLOBAL_REFILL) in
    mk_rate (pid_table s) (if dlt SM_RATE_GLOBAL_CAPACITY t then SM_RATE_GLOBAL_CAPACITY else t) now
  else s.

(** [dev/core/service_manager/security/sm_rate_limit.c:107-117 sm_rate_limit_check,
    the search] [inl i]: the PID's entry; [inr i]: none, [i] is the slot with the
    oldest refill. *)
Fixpoint find_entry (tbl : list bucket_t) (pid : Z) (i lru_idx : nat) (lru_time : double)
    : nat + nat :=
  match tbl with
  | [] => inr lru_idx
  | b :: tbl' =>
      if b_pid b =? pid then inl i
      else if dlt (last_refill b) lru_time then find_entry tbl' pid (S i) i (last_refill b)
           else find_entry tbl' pid (S i) lru_idx lru_time
  end.

(** [dev/core/service_manager/security/sm_rate_limit.c:119-136 sm_rate_limit_check,
    the entry for this PID] *)
Definition get_entry (now : double) (pid : Z) (tbl : list bucket_t) : nat * list bucket_t :=
  let fresh := mk_bucket pid SM_RATE_PID_CAPACITY now in
  match find_entry tbl pid 0 0 DBL_MAX with
  | inl i => (i, tbl)
  | inr lru =>
      if Nat.ltb (length tbl) SM_RATE_TABLE_SIZE then (length tbl, tbl ++ [fresh])
      else (lru, <[lru := fresh]> tbl)
  end.

#[export] Instance bucket_inhabited : Inhabited bucket_t := populate (mk_bucket 0 d0 d0).

(** [dev/core/service_manager/security/sm_rate_limit.c:77-155 sm_rate_limit_check] *)
Definition sm_rate_limit_check (now : double) (pid : Z) (s : rate_state) : Z * rate_state :=
  let s1 := refill_global now s in
  if dlt (g_tokens s1) d1 then (SM_ERR_RATELIMIT, s1)
  else
    let '(i, tbl) := get_entry now pid (pid_table s1) in
    let e := refill_bucket (tbl !!! i) now SM_RATE_PID_REFILL SM_RATE_PID_CAPACITY in
    let tbl1 := <[i := e]> tbl in
    if dlt (tokens e) d1
    then (SM_ERR_RATELIMIT, mk_rate tbl1 (g_tokens s1) (g_last_refill s1))
    else
      let e2 := mk_bucket (b_pid e) (dsub (tokens e) d1) (last_refill e) in
      (SM_OK, mk_rate (<[i := e2]> tbl1) (dsub (g_tokens s1) d1) (g_last_refill s1)).

(** [dev/core/service_manager/security/sm_rate_limit.c:157-164 sm_rate_limit_cleanup] *)
Definition sm_rate_limit_cleanup (s : rate_state) : rate_state :=
  mk_rate [] d0 (g_last_refill s).

(** ** Per-service buckets and the penalty box *)

(** [dev/core/service_manager/security/sm_advanced_ratelimit.h:25-32 PENALTY_THRESHOLD] *)
Definition PENALTY_THRESHOLD : Z := 5.
Definition PENALTY_WINDOW_SECS : Z := 30.
Definition PENALTY_DURATION_SECS : Z := 60.
Definition MAX_SERVICE_BUCKETS : nat := 256.

#[global] Arguments MAX_SERVICE_BUCKETS : simpl never.

(** [dev/core/service_manager/security/sm_advanced_ratelimit.c:22-27 service_bucket_t] *)
Record service_bucket_t := mk_sbucket {
  sb_name : string; sb_pid : Z; sb_tokens : double; sb_last_refill : double
}.

(** [dev/core/service_manager/security/sm_advanced_ratelimit.c:31-37 penalty_entry_t] *)
Record penalty_entry_t := mk_penalty {
  pe_name : string; pe_pid : Z; violation_count : Z; window_start : Z; ban_until : Z
}.

#[export] Instance penalty_inhabited : Inhabited penalty_entry_t :=
  populate (mk_penalty "" 0 0 0 0).

(** [dev/core/service_manager/security/sm_advanced_ratelimit.c:43-49 g_limits] The
    used prefixes of the two arrays. *)
Record limits_state := mk_limits {
  buckets : list service_bucket_t; penalties : list penalty_entry_t
}.

(** [dev/core/service_manager/security/sm_advanced_ratelimit.c:53-62 sm_ratelimit_init] *)
Definition sm_ratelimit_init : limits_state := mk_limits [] [].

Definition is_penalty_of (pid : Z) (nm : string) (p : penalty_entry_t) : Prop :=
  pe_pid p = pid /\ strncmp_eq 64 (pe_name p) nm = true.

#[export] Instance is_penalty_of_dec pid nm p : Decision (is_penalty_of pid nm p).
Proof. unfold is_penalty_of. apply _. Defined.

Definition penalty_idx (pid : Z) (nm : string) (ps : list penalty_entry_t) : option nat :=
  fst <$> list_find (is_penalty_of pid nm) ps.

(** [dev/core/service_manager/security/sm_advanced_ratelimit.c:71-89
    _find_or_create_penalty] The index of the entry, and the array. *)
Definition find_or_create_penalty (pid : Z) (nm : string) (ps : list penalty_entry_t)
    : option nat * list penalty_entry_t :=
  match penalty_idx pid nm ps with
  | Some i => (Some i, ps)
  | None =>
      if Nat.leb MAX_SERVICE_BUCKETS (length ps) then (None, ps)
      else (Some (length ps), ps ++ [mk_penalty (strncpy_z 63 nm) pid 0 0 0])
  end.

(** [dev/core/service_manager/security/sm_advanced_ratelimit.c:102-121
    _record_violation, the counting] *)
Definition count_violation (now : Z) (p : penalty_entry_t) : penalty_entry_t :=
  let '(vc, ws) :=
    if (window_start p =? 0) || (PENALTY_WINDOW_SECS <? now - window_start p)
    then (0, now) else (violation_count p, window_start p) in
  let vc := i32 (vc + 1) in
  if PENALTY_THRESHOLD <=? vc
  then mk_penalty (pe_name p) (pe_pid p) 0 0 (now + PENALTY_DURATION_SECS)
  else mk_penalty (pe_name p) (pe_pid p) vc ws (ban_until p).

(** [dev/core/service_manager/security/sm_advanced_ratelimit.c:95-122 _record_violation] *)
Definition record_violation (now pid : Z) (nm : string) (s : limits_state) : limits_state :=
  match find_or_create_penalty pid nm (penalties s) with
  | (None, _) => s
  | (Some i, ps) => mk_limits (buckets s) (<[i := count_violation now (ps !!! i)]> ps)
  end.

(** [dev/core/service_manager/security/sm_advanced_ratelimit.c:128-147 _is_in_penalty_box] *)
Definition is_in_penalty_box (now pid : Z) (nm : string) (s : limits_state)
    : bool * limits_state :=
  match penalty_idx pid nm (penalties s) with
  | None => (false, s)
  | Some i =>
      let p := penalties s !!! i in
      if ban_until p =? 0 then (false, s)
      else if now <? ban_until p then (true, s)
      else (false, mk_limits (buckets s)
                     (<[i := mk_penalty (pe_name p) (pe_pid p) 0 0 0]> (penalties s)))
  end.

Definition is_bucket_of (pid : Z) (nm : string) (b : service_bucket_t) : Prop :=
  sb_pid b = pid /\ sb_name b = nm.

#[export] Instance is_bucket_of_dec pid nm b : Decision (is_bucket_of pid nm b).
Proof. unfold is_bucket_of. apply _. Defined.

Definition sbucket_idx (pid : Z) (nm : string) (bs : list service_bucket_t) : option nat :=
  fst <$> list_find (is_bucket_of pid nm) bs.

#[export] Instance sbucket_inhabited : Inhabited service_bucket_t :=
  populate (mk_sbucket "" 0 d0 d0).

Definition set_sb_tokens (b : service_bucket_t) (t : double) : service_bucket_t :=
  mk_sbucket (sb_name b) (sb_pid b) t (sb_last_refill b).

(** [dev/core/service_manager/security/sm_advanced_ratelimit.c:151-176
    sm_ratelimit_set_service_limit] *)
Definition sm_ratelimit_set_service_limit (nm : option string) (pid : Z) (capacity : double)
    (s : limits_state) : limits_state :=
  match nm with
  | None => s
  | Some nm =>
      match sbucket_idx pid nm (buckets s) with
      | Some i => mk_limits (<[i := set_sb_tokens (buckets s !!! i) capacity]> (buckets s)) (penalties s)
      | None =>
          if Nat.ltb (length (buckets s)) MAX_SERVICE_BUCKETS
          then mk_limits (buckets s ++ [mk_sbucket (strncpy_z 63 nm) pid capacity d0]) (penalties s)
          else s
      end
  end.

(** [dev/core/service_manager/security/sm_advanced_ratelimit.c:212-226
    sm_ratelimit_check_extended, the service bucket] *)
Definition charge_service (now pid : Z) (nm : string) (s : limits_state) : Z * limits_state :=
  match sbucket_idx pid nm (buckets s) with
  | None => (0, s)
  | Some i =>
      let b := buckets s !!! i in
      if dlt (sb_tokens b) d1 then (-1, record_violation now pid nm s)
      else (0, mk_limits (<[i := set_sb_tokens b (dsub (sb_tokens b) d1)]> (buckets s)) (penalties s))
  end.

(** [dev/core/service_manager/security/sm_advanced_ratelimit.c:180-230
    sm_ratelimit_check_extended] [mono] and [now] are the two clocks. *)
Definition sm_ratelimit_check_extended (mono : double) (now pid : Z) (nm : option string)
    (r : rate_state) (s : limits_state) : Z * rate_state * limits_state :=
  let '(rc, r1) := sm_rate_limit_check mono pid r in
  if negb (rc =? 0) then
    (-1, r1, match nm with Some nm => record_violation now pid nm s | None => s end)
  else
    match nm with
    | None => (0, r1, s)
    | Some nm =>
        let '(banned, s1) := is_in_penalty_box now pid nm s in
        if banned then (-1, r1, s1)
        else let '(rc2, s2) := charge_service now pid nm s1 in (rc2, r1, s2)
    end.

(** [dev/core/service_manager/security/sm_advanced_ratelimit.c:234-257
    sm_ratelimit_reset_service] *)
Definition sm_ratelimit_reset_service (nm : option string) (s : limits_state) : limits_state :=
  match nm with
  | None => s
  | Some nm =>
      mk_limits
        ((fun b => if String.eqb (sb_name b) nm then set_sb_tokens b (d_of_Z 10) else b) <$> buckets s)
        ((fun p => if String.eqb (pe_name p) nm then mk_penalty (pe_name p) (pe_pid p) 0 0 0 else p)
           <$> penalties s)
  end.

(** [dev/core/service_manager/security/sm_advanced_ratelimit.c:277-285
    sm_ratelimit_is_banned] *)
Definition sm_ratelimit_is_banned (now pid : Z) (nm : option string) (s : limits_state)
    : bool * limits_state :=
  match nm with None => (false, s) | Some nm => is_in_penalty_box now pid nm s end.

(** ** The table of PID buckets *)

Definition bucket_of (pid : Z) (tbl : list bucket_t) : option bucket_t :=
  snd <$> list_find (fun b => b_pid b = pid) tbl.

Record rate_inv (s : rate_state) : Prop := {
  rt_size : (length (pid_table s) <= SM_RATE_TABLE_SIZE)%nat;
  rt_uniq : NoDup (b_pid <$> pid_table s)
}.

Lemma find_entry_spec tbl pid : forall i lru t,
  match find_entry tbl pid i lru t with
  | inl k => exists j b, k = (i + j)%nat /\ tbl !! j = Some b /\ b_pid b = pid
  | inr k => pid ∉ (b_pid <$> tbl) /\ (k = lru \/ (i <= k < i + length tbl)%nat)
  end.
Proof.
  induction tbl as [|b tbl IH]; intros i lru t; simpl.
  { split; [apply not_elem_of_nil|by left]. }
  destruct (Z.eqb_spec (b_pid b) pid) as [He|Hne].
  { exists 0%nat, b. split_and!; [lia|done|done]. }
  assert (Hstep : forall lru' t', (lru' = lru \/ lru' = i) ->
    match find_entry tbl pid (S i) lru' t' with
    | inl k => exists j b0, k = (i + j)%nat /\ (b :: tbl) !! j = Some b0 /\ b_pid b0 = pid
    | inr k => pid ∉ b_pid b :: (b_pid <$> tbl) /\ (k = lru \/ (i <= k < i + S (length tbl))%nat)
    end).
  { intros lru' t' Hl. specialize (IH (S i) lru' t'). destruct (find_entry _ _ _ _ _) as [k|k].
    - destruct IH as (j & b0 & -> & ? & ?). exists (S j), b0. split_and!; [lia|done|done].
    - destruct IH as [Hn Hk]. split; [|lia]. rewrite elem_of_cons. intros [->|]; done. }
  destruct (dlt (last_refill b) t); apply Hstep; auto.
Qed.

Lemma bucket_of_lookup tbl i b : NoDup (b_pid <$> tbl) -> tbl !! i = Some b ->
  bucket_of (b_pid b) tbl = Some b.
Proof.
  intros Hnd Hi. unfold bucket_of. destruct (list_find _ tbl) as [[k b']|] eqn:Hf.
  - apply list_find_Some in Hf as (Hk & Hp & _). simpl. f_equal.
    assert (k = i) as ->; [|congruence].
    apply (NoDup_lookup _ _ _ (b_pid b) Hnd); rewrite list_lookup_fmap;
      [by rewrite Hk; simpl; rewrite Hp|by rewrite Hi].
  - apply list_find_None in Hf. rewrite Forall_forall in Hf.
    exfalso. apply (Hf b); [by eapply list_elem_of_lookup_2|done].
Qed.

Lemma bucket_of_none tbl pid : pid ∉ (b_pid <$> tbl) -> bucket_of pid tbl = None.
Proof.
  intros Hn. unfold bucket_of. destruct (list_find _ tbl) as [[k b]|] eqn:Hf; [|done].
  apply list_find_Some in Hf as (Hk & Hp & _). exfalso. apply Hn. rewrite <- Hp.
  apply list_elem_of_fmap_2. by eapply list_elem_of_lookup_2.
Qed.

(** The entry the check works on: the PID's own, or a fresh full one, which in a
    full table replaces another. *)
Lemma get_entry_spec now pid s i tbl : rate_inv s -> get_entry now pid (pid_table s) = (i, tbl) ->
  let b := default (mk_bucket pid SM_RATE_PID_CAPACITY now) (bucket_of pid (pid_table s)) in
  tbl !! i = Some b /\ b_pid b = pid /\ NoDup (b_pid <$> tbl) /\
  (length tbl <= SM_RATE_TABLE_SIZE)%nat /\
  (is_Some (bucket_of pid (pid_table s)) -> tbl = pid_table s).
Proof.
  intros [Hsz Hu] Hg. unfold get_entry in Hg.
  pose proof (find_entry_spec (pid_table s) pid 0 0 DBL_MAX) as Hf.
  destruct (find_entry _ _ _ _ _) as [k|k].
  - destruct Hf as (j & b & -> & Hj & Hp). simplify_eq.
    rewrite (bucket_of_lookup _ _ _ Hu Hj). simpl. done.
  - destruct Hf as [Hn Hk]. rewrite (bucket_of_none _ _ Hn). simpl.
    destruct (Nat.ltb_spec (length (pid_table s)) SM_RATE_TABLE_SIZE) as [Hlt|Hge].
    + simplify_eq. split_and!; try done.
      * rewrite lookup_app_r by lia. by rewrite Nat.sub_diag.
      * rewrite fmap_app. apply NoDup_app. split; [done|]. split; [|apply NoDup_singleton].
        intros x Hx Hx'. apply list_elem_of_singleton in Hx' as ->. done.
      * rewrite length_app. simpl. lia.
    + simplify_eq. assert (Hi : (i < length (pid_table s))%nat).
      { assert (0 < length (pid_table s))%nat by (unfold SM_RATE_TABLE_SIZE in *; lia). lia. }
      split_and!; try done.
      * by apply list_lookup_insert_eq.
      * rewrite list_fmap_insert. simpl. by apply NoDup_insert_fresh.
      * by rewrite length_insert.
Qed.

(** The state the check works from: both buckets refilled. *)
Definition refilled_bucket (now : double) (pid : Z) (s : rate_state) : bucket_t :=
  refill_bucket (default (mk_bucket pid SM_RATE_PID_CAPACITY now) (bucket_of pid (pid_table s)))
    now SM_RATE_PID_REFILL SM_RATE_PID_CAPACITY.

Lemma refill_pid b now r c : b_pid (refill_bucket b now r c) = b_pid b.
Proof. unfold refill_bucket. by case_match. Qed.

Lemma refill_global_table now s : pid_table (refill_global now s) = pid_table s.
Proof. unfold refill_global. by case_match. Qed.

Lemma replace_entry tbl i b0 b : tbl !! i = Some b0 -> b_pid b = b_pid b0 ->
  NoDup (b_pid <$> tbl) ->
  NoDup (b_pid <$> <[i := b]> tbl) /\ bucket_of (b_pid b) (<[i := b]> tbl) = Some b.
Proof.
  intros Hi Hp Hu.
  assert (Hf : b_pid <$> <[i := b]> tbl = b_pid <$> tbl).
  { rewrite list_fmap_insert. apply list_insert_id. rewrite list_lookup_fmap, Hi. simpl. by rewrite Hp. }
  split; [by rewrite Hf|]. apply (bucket_of_lookup _ i); [by rewrite Hf|].
  apply list_lookup_insert_eq. by eapply lookup_lt_Some.
Qed.

(** A request is let through exactly when, after the refills, both the
    global bucket and the caller's own (full for a caller not in the table)
    hold a whole token; it then takes one from each.  A refused request takes
    none, and the table keeps at most one entry per PID and 256 in all. *)
Theorem rate_check_spec now pid s : rate_inv s ->
  let g := g_tokens (refill_global now s) in
  let b := refilled_bucket now pid s in
  let '(rc, s') := sm_rate_limit_check now pid s in
  rate_inv s' /\
  (rc = SM_OK <-> dlt g d1 = false /\ dlt (tokens b) d1 = false) /\
  (rc = SM_OK -> g_tokens s' = dsub g d1 /\
     bucket_of pid (pid_table s') = Some (mk_bucket pid (dsub (tokens b) d1) (last_refill b))) /\
  (rc <> SM_OK -> rc = SM_ERR_RATELIMIT /\ g_tokens s' = g /\
     (dlt g d1 = false -> bucket_of pid (pid_table s') = Some b)).
Proof.
  intros Hi. unfold sm_rate_limit_check, refilled_bucket. cbv zeta.
  set (g := g_tokens (refill_global now s)).
  destruct (dlt g d1) eqn:Hg.
  { split_and!; try done; [|naive_solver].
    destruct Hi. constructor; by rewrite refill_global_table. }
  rewrite refill_global_table. destruct (get_entry now pid (pid_table s)) as [i tbl] eqn:He.
  destruct (get_entry_spec _ _ _ _ _ Hi He) as (Hb & Hp & Hu & Hsz & _).
  set (b0 := default _ _) in *. rewrite (list_lookup_total_correct _ _ _ Hb).
  set (b := refill_bucket b0 now SM_RATE_PID_REFILL SM_RATE_PID_CAPACITY).
  assert (Hbp : b_pid b = pid) by (unfold b; by rewrite refill_pid).
  destruct (dlt (tokens b) d1) eqn:Ht.
  - destruct (replace_entry tbl i b0 b Hb) as [H1 H2]; [congruence|done|]. rewrite Hbp in H2.
    split_and!; try done; [|naive_solver]. constructor; simpl; [by rewrite length_insert|done].
  - rewrite list_insert_insert_eq.
    destruct (replace_entry tbl i b0 (mk_bucket (b_pid b) (dsub (tokens b) d1) (last_refill b)) Hb)
      as [H1 H2]; [simpl; congruence|done|]. simpl in H2. rewrite Hbp in H2.
    split_and!; try done; [|by rewrite Hbp in *].
    constructor; simpl; [by rewrite length_insert|done].
Qed.

(** ** Bursts: with the clock standing still nothing refills *)

Lemma sub_self_not_positive x : dlt d0 (dsub x x) = false.
Proof.
  destruct x as [s|s| |s m e]; [by destruct s|by destruct s|done|].
  unfold dlt, dsub, SFsub. rewrite Z.sub_diag. done.
Qed.

(** The state after [k] requests of one PID at instant [now]. *)
Definition burst_state (now : double) (pid : Z) (k : Z) : rate_state :=
  mk_rate [mk_bucket pid (d_of_Z (10 - k)) now] (d_of_Z (50 - k)) now.

Lemma check_frozen now pid t g :
  sm_rate_limit_check now pid (mk_rate [mk_bucket pid t now] g now) =
  if dlt g d1 || dlt t d1 then (SM_ERR_RATELIMIT, mk_rate [mk_bucket pid t now] g now)
  else (SM_OK, mk_rate [mk_bucket pid (dsub t d1) now] (dsub g d1) now).
Proof.
  unfold sm_rate_limit_check, refill_global. cbn [g_last_refill]. rewrite sub_self_not_positive.
  cbn [g_tokens pid_table g_last_refill]. destruct (dlt g d1); [done|].
  unfold get_entry. cbn [find_entry b_pid]. rewrite Z.eqb_refl. cbn [orb].
  change ([mk_bucket pid t now] !!! 0%nat) with (mk_bucket pid t now).
  unfold refill_bucket. cbn [last_refill]. rewrite sub_self_not_positive. cbn [tokens].
  by destruct (dlt t d1).
Qed.

Lemma burst_step now pid k : 0 <= k < 10 ->
  sm_rate_limit_check now pid (burst_state now pid k) = (SM_OK, burst_state now pid (k + 1)).
Proof.
  intros Hk. unfold burst_state. rewrite check_frozen.
  assert (Hc : k = 0 \/ k = 1 \/ k = 2 \/ k = 3 \/ k = 4 \/ k = 5 \/ k = 6 \/ k = 7 \/ k = 8 \/ k = 9)
    by lia.
  destruct Hc as [->|[->|[->|[->|[->|[->|[->|[->|[->| ->]]]]]]]]]; reflexivity.
Qed.

Lemma burst_refused now pid :
  sm_rate_limit_check now pid (burst_state now pid 10) = (SM_ERR_RATELIMIT, burst_state now pid 10).
Proof. unfold burst_state. by rewrite check_frozen. Qed.

Lemma burst_first now pid :
  sm_rate_limit_check now pid (sm_rate_limit_init now) = (SM_OK, burst_state now pid 1).
Proof.
  unfold sm_rate_limit_check, refill_global, sm_rate_limit_init. cbn [g_last_refill].
  rewrite sub_self_not_positive. cbn [g_tokens pid_table g_last_refill].
  change (dlt SM_RATE_GLOBAL_CAPACITY d1) with false. unfold get_entry. cbn [find_entry].
  change (Nat.ltb (length (@nil bucket_t)) SM_RATE_TABLE_SIZE) with true. cbn [app length].
  change ([mk_bucket pid SM_RATE_PID_CAPACITY now] !!! 0%nat)
    with (mk_bucket pid SM_RATE_PID_CAPACITY now).
  unfold refill_bucket. cbn [last_refill]. rewrite sub_self_not_positive. reflexivity.
Qed.

(** [n] requests of one PID at one instant. *)
Fixpoint burst (now : double) (pid : Z) (n : nat) (s : rate_state) : list Z * rate_state :=
  match n with
  | O => ([], s)
  | S n' => let '(rc, s1) := sm_rate_limit_check now pid s in
            let '(rcs, s2) := burst now pid n' s1 in (rc :: rcs, s2)
  end.

Lemma burst_from now pid n : forall k, 0 <= k <= 10 ->
  (burst now pid n (burst_state now pid k)).1 =
  replicate (n `min` Z.to_nat (10 - k)) SM_OK ++ replicate (n - Z.to_nat (10 - k)) SM_ERR_RATELIMIT.
Proof.
  induction n as [|n IH]; intros k Hk; [done|]. cbn [burst].
  destruct (decide (k = 10)) as [->|Hne].
  - rewrite burst_refused. specialize (IH 10 Hk). destruct (burst _ _ n _) as [rcs s2].
    simpl in *. rewrite IH. rewrite Nat.min_0_r. simpl. by rewrite Nat.sub_0_r.
  - rewrite burst_step by lia. specialize (IH (k + 1) ltac:(lia)).
    destruct (burst _ _ n _) as [rcs s2]. simpl in *. rewrite IH.
    replace (Z.to_nat (10 - k)) with (S (Z.to_nat (10 - (k + 1)))) by lia. done.
Qed.

(** At one instant of the clock, whatever it reads, a new PID gets exactly
    its burst capacity of ten requests through; all further ones are refused. *)
Theorem burst_capacity now pid n :
  (burst now pid n (sm_rate_limit_init now)).1 =
  replicate (n `min` 10) SM_OK ++ replicate (n - 10) SM_ERR_RATELIMIT.
Proof.
  destruct n as [|n]; [done|]. cbn [burst]. rewrite burst_first.
  pose proof (burst_from now pid n 1 ltac:(lia)) as H.
  destruct (burst _ _ n _) as [rcs s2]. simpl in *. rewrite H. done.
Qed.

(** ** The penalty box *)

Definition penalty_of (pid : Z) (nm : string) (s : limits_state) : option penalty_entry_t :=
  snd <$> list_find (is_penalty_of pid nm) (penalties s).

Lemma penalty_idx_cases pid nm s :
  (penalty_idx pid nm (penalties s) = None /\ penalty_of pid nm s = None) \/
  (exists i p, penalty_idx pid nm (penalties s) = Some i /\ penalties s !! i = Some p /\
     penalty_of pid nm s = Some p /\ is_penalty_of pid nm p /\
     forall j q, penalties s !! j = Some q -> (j < i)%nat -> ~ is_penalty_of pid nm q).
Proof.
  unfold penalty_idx, penalty_of. destruct (list_find _ _) as [[i p]|] eqn:Hf; simpl; [right|by left].
  apply list_find_Some in Hf as (H1 & H2 & H3). eauto 10.
Qed.

(** Updating the entry of [(pid, nm)] in place. *)
Lemma penalty_of_update pid nm s i p p' bs :
  penalties s !! i = Some p -> is_penalty_of pid nm p' ->
  (forall j q, penalties s !! j = Some q -> (j < i)%nat -> ~ is_penalty_of pid nm q) ->
  penalty_of pid nm (mk_limits bs (<[i := p']> (penalties s))) = Some p'.
Proof.
  intros Hi Hp' Hmin. unfold penalty_of. cbn [penalties].
  replace (list_find (is_penalty_of pid nm) (<[i:=p']> (penalties s))) with (Some (i, p')); [done|].
  symmetry. apply list_find_Some. split_and!; [|done|].
  - apply list_lookup_insert_eq. by eapply lookup_lt_Some.
  - intros j q Hj Hlt. rewrite list_lookup_insert_ne in Hj by lia. by eapply Hmin.
Qed.

Lemma count_violation_key now p :
  pe_name (count_violation now p) = pe_name p /\ pe_pid (count_violation now p) = pe_pid p.
Proof. unfold count_violation. repeat case_match; done. Qed.

Lemma record_known now pid nm s p : penalty_of pid nm s = Some p ->
  penalty_of pid nm (record_violation now pid nm s) = Some (count_violation now p).
Proof.
  intros Hp. destruct (penalty_idx_cases pid nm s) as [[_ Hn]|(i & q & Hx & Hi & Hq & Hk & Hm)];
    [congruence|]. simplify_eq. unfold record_violation, find_or_create_penalty. rewrite Hx.
  rewrite (list_lookup_total_correct _ _ _ Hi). eapply penalty_of_update; try done.
  unfold is_penalty_of. by destruct (count_violation_key now p) as [-> ->].
Qed.

Lemma record_new now pid nm s :
  penalty_of pid nm s = None -> (String.length nm < 64)%nat ->
  (length (penalties s) < MAX_SERVICE_BUCKETS)%nat ->
  penalty_of pid nm (record_violation now pid nm s) =
    Some (count_violation now (mk_penalty nm pid 0 0 0)).
Proof.
  intros Hp Hn Hl. destruct (penalty_idx_cases pid nm s) as [[Hx _]|(i & q & _ & _ & Hq & _)];
    [|congruence]. unfold record_violation, find_or_create_penalty. rewrite Hx.
  destruct (Nat.leb_spec MAX_SERVICE_BUCKETS (length (penalties s))); [lia|].
  rewrite strncpy_z_short by lia. set (new := mk_penalty nm pid 0 0 0).
  assert (Htot : (penalties s ++ [new]) !!! length (penalties s) = new)
    by by rewrite lookup_total_app_r, Nat.sub_diag by lia.
  rewrite Htot.
  eapply (penalty_of_update pid nm (mk_limits (buckets s) (penalties s ++ [new])) _ new).
  - simpl. rewrite lookup_app_r by lia. by rewrite Nat.sub_diag.
  - unfold is_penalty_of. destruct (count_violation_key now new) as [-> ->]. split; [done|].
    by apply strncmp_eq_short.
  - simpl. intros j q Hj Hlt. rewrite lookup_app_l in Hj by done.
    unfold penalty_idx in Hx. apply fmap_None, list_find_None in Hx.
    rewrite Forall_lookup in Hx. by eapply Hx.
Qed.

(** [n] violations inside one window count up; the fifth starts the ban. *)
Lemma count_in_window t0 now p : 0 < t0 -> t0 <= now <= t0 + PENALTY_WINDOW_SECS ->
  window_start p = t0 -> 0 < violation_count p < PENALTY_THRESHOLD ->
  count_violation now p =
    if violation_count p =? PENALTY_THRESHOLD - 1
    then mk_penalty (pe_name p) (pe_pid p) 0 0 (now + PENALTY_DURATION_SECS)
    else mk_penalty (pe_name p) (pe_pid p) (violation_count p + 1) t0 (ban_until p).
Proof.
  intros H0 Hn Hw Hv. unfold count_violation. rewrite Hw.
  unfold PENALTY_WINDOW_SECS, PENALTY_THRESHOLD in *.
  destruct (Z.eqb_spec t0 0); [lia|]. destruct (Z.ltb_spec 30 (now - t0)); [lia|].
  cbn [orb]. rewrite i32_small by lia.
  destruct (Z.leb_spec 5 (violation_count p + 1)), (Z.eqb_spec (violation_count p) (5 - 1)); lia || done.
Qed.

Definition violations (ts : list Z) (pid : Z) (nm : string) (s : limits_state) : limits_state :=
  fold_left (fun s t => record_violation t pid nm s) ts s.

(** What the box answers is read off the entry. *)
Lemma banned_iff now pid nm s :
  (is_in_penalty_box now pid nm s).1 = true <->
  exists p, penalty_of pid nm s = Some p /\ ban_until p <> 0 /\ now < ban_until p.
Proof.
  unfold is_in_penalty_box.
  destruct (penalty_idx_cases pid nm s) as [[-> ->]|(i & p & -> & Hi & -> & _)].
  - split; [done|]. by intros (? & ? & _).
  - rewrite (list_lookup_total_correct _ _ _ Hi).
    destruct (Z.eqb_spec (ban_until p) 0), (Z.ltb_spec now (ban_until p)); simpl;
      (split; [intros; try done; eauto|intros (q & Hq & ? & ?); simplify_eq; try done; lia]).
Qed.

Lemma check_banned mono now pid nm r s : (is_in_penalty_box now pid nm s).1 = true ->
  (sm_ratelimit_check_extended mono now pid (Some nm) r s).1.1 = -1.
Proof.
  intros Hb. unfold sm_ratelimit_check_extended.
  destruct (sm_rate_limit_check mono pid r) as [rc r1]. destruct (negb (rc =? 0)); [done|].
  destruct (is_in_penalty_box now pid nm s) as [banned s1]. simpl in Hb. by rewrite Hb.
Qed.

(** The entry a run of violations leaves. *)
Lemma violations_entry t1 ts pid nm s :
  0 < t1 -> Forall (fun t => t1 <= t <= t1 + PENALTY_WINDOW_SECS) ts ->
  Z.of_nat (length ts) < PENALTY_THRESHOLD - 1 -> forall v, 0 < v ->
  v + Z.of_nat (length ts) < PENALTY_THRESHOLD ->
  penalty_of pid nm s = Some (mk_penalty nm pid v t1 0) ->
  penalty_of pid nm (violations ts pid nm s) =
    Some (mk_penalty nm pid (v + Z.of_nat (length ts)) t1 0).
Proof.
  intros Ht Hts. revert s. induction Hts as [|t ts Hin Hts IH]; intros s Hl v Hv Hlt Hp.
  - simpl. by rewrite Z.add_0_r.
  - cbn [length] in *. rewrite Nat2Z.inj_succ in *. unfold PENALTY_THRESHOLD in *.
    cbn [violations fold_left]. fold (violations ts pid nm (record_violation t pid nm s)).
    apply record_known with (now := t) in Hp.
    rewrite (count_in_window t1) in Hp; [|done|done|done|simpl; unfold PENALTY_THRESHOLD; lia].
    simpl in Hp. unfold PENALTY_THRESHOLD in Hp.
    destruct (Z.eqb_spec v (5 - 1)); [lia|].
    rewrite (IH _ ltac:(lia) (v + 1) ltac:(lia) ltac:(lia) Hp). do 2 f_equal. lia.
Qed.

(** Four violations of a caller within the 30-second window leave it free;
    a fifth one bans it, every request of that caller for that service is then
    refused for 60 seconds whatever its token buckets hold, and no longer. *)
Theorem penalty_box t1 t2 t3 t4 t5 pid nm s :
  0 < t1 -> Forall (fun t => t1 <= t <= t1 + PENALTY_WINDOW_SECS) [t2; t3; t4; t5] ->
  penalty_of pid nm s = None -> (String.length nm < 64)%nat ->
  (length (penalties s) < MAX_SERVICE_BUCKETS)%nat ->
  (forall now, (is_in_penalty_box now pid nm (violations [t1; t2; t3; t4] pid nm s)).1 = false) /\
  (forall now, let s5 := violations [t1; t2; t3; t4; t5] pid nm s in
     (now < t5 + PENALTY_DURATION_SECS ->
        forall mono r, (sm_ratelimit_check_extended mono now pid (Some nm) r s5).1.1 = -1) /\
     (t5 + PENALTY_DURATION_SECS <= now -> (is_in_penalty_box now pid nm s5).1 = false)).
Proof.
  intros Ht Hts Hnone Hn Hroom.
  assert (Hp1 : penalty_of pid nm (record_violation t1 pid nm s) = Some (mk_penalty nm pid 1 t1 0)).
  { rewrite record_new by done. f_equal. }
  assert (Hp4 : penalty_of pid nm (violations [t1; t2; t3; t4] pid nm s)
    = Some (mk_penalty nm pid 4 t1 0)).
  { apply (violations_entry t1 [t2; t3; t4] pid nm (record_violation t1 pid nm s)) with (v := 1);
      try done. rewrite !Forall_cons in Hts. rewrite !Forall_cons. naive_solver. }
  assert (Hp5 : penalty_of pid nm (violations [t1; t2; t3; t4; t5] pid nm s)
    = Some (mk_penalty nm pid 0 0 (t5 + PENALTY_DURATION_SECS))).
  { apply record_known with (now := t5) in Hp4. rewrite !Forall_cons in Hts.
    rewrite (count_in_window t1) in Hp4; [exact Hp4|done|naive_solver|done|done]. }
  split.
  - intros now. apply not_true_iff_false. rewrite banned_iff, Hp4. intros (p & Hp & Hb & _).
    simplify_eq/=.
  - intros now. rewrite !Forall_cons in Hts. unfold PENALTY_DURATION_SECS in *. split.
    + intros Hnow mono r. apply check_banned, banned_iff. eexists. split; [exact Hp5|]. simpl. lia.
    + intros Hnow. apply not_true_iff_false. rewrite banned_iff, Hp5. intros (p & Hp & Hb & Hl).
      simplify_eq/=. lia.
Qed.

(** A banned request is refused only after the global and per-PID buckets
    have been charged for it: the buckets end up exactly as if the request had
    been let through. *)
Lemma banned_request_charged mono now pid nm r s :
  (is_in_penalty_box now pid nm s).1 = true ->
  let '(rc, r1, _) := sm_ratelimit_check_extended mono now pid (Some nm) r s in
  rc = -1 /\ r1 = (sm_rate_limit_check mono pid r).2.
Proof.
  intros Hb. pose proof (check_banned mono now pid nm r s Hb) as Hc.
  unfold sm_ratelimit_check_extended in *.
  destruct (sm_rate_limit_check mono pid r) as [rc r1]. destruct (negb (rc =? 0)); [done|].
  destruct (is_in_penalty_box now pid nm s) as [banned s1]. simpl in Hb. by rewrite Hb in *.
Qed.

(** ** Witnesses *)

Lemma rate_check_spec_witness :
  let '(rc, s') := sm_rate_limit_check (d_of_Z 100) 7 (sm_rate_limit_init (d_of_Z 90)) in
  rate_inv s' /\ rc = SM_OK.
Proof.
  assert (Hi : rate_inv (sm_rate_limit_init (d_of_Z 90))).
  { constructor; [simpl; unfold SM_RATE_TABLE_SIZE; lia|constructor]. }
  pose proof (rate_check_spec (d_of_Z 100) 7 (sm_rate_limit_init (d_of_Z 90)) Hi) as H.
  cbv zeta in H. destruct (sm_rate_limit_check _ _ _) as [rc s']. destruct H as (H1 & H2 & _).
  split; [exact H1|]. apply H2. vm_compute. split; reflexivity.
Defined.

Lemma penalty_box_witness :
  let s5 := violations [100; 101; 102; 103; 104] 7 "camera" sm_ratelimit_init in
  (sm_ratelimit_check_extended d0 163 7 (Some "camera"%string) (sm_rate_limit_init d0) s5).1.1 = -1 /\
  (is_in_penalty_box 164 7 "camera" s5).1 = false.
Proof.
  destruct (penalty_box 100 101 102 103 104 7 "camera" sm_ratelimit_init) as [_ H].
  - lia.
  - repeat constructor; unfold PENALTY_WINDOW_SECS; lia.
  - reflexivity.
  - vm_compute. lia.
  - vm_compute. lia.
  - split; [apply (H 163); unfold PENALTY_DURATION_SECS; lia|].
    apply (H 164). unfold PENALTY_DURATION_SECS. lia.
Defined.

Lemma banned_request_charged_witness :
  let s5 := violations [100; 101; 102; 103; 104] 7 "camera" sm_ratelimit_init in
  let '(rc, r1, _) := sm_ratelimit_check_extended d0 110 7 (Some "camera"%string)
                        (sm_rate_limit_init d0) s5 in
  rc = -1 /\ r1 = burst_state d0 7 1.
Proof.
  pose proof (banned_request_charged d0 110 7 "camera" (sm_rate_limit_init d0)
    (violations [100; 101; 102; 103; 104] 7 "camera" sm_ratelimit_init)) as H.
  specialize (H ltac:(vm_compute; reflexivity)). cbv zeta.
  destruct (sm_ratelimit_check_extended _ _ _ _ _ _) as [[rc r1] s1].
  destruct H as [H1 H2]. split; [exact H1|]. rewrite H2. vm_compute. reflexivity.
Defined.
