(* ===== verification/Replay.v ===== *)
(** * Replay protection (security/sm_replay.c)

    The nonce ring is a list of [SM_REPLAY_RING_SIZE] slots with a 32-bit write
    counter; the wall clock (in milliseconds) and [getrandom] are inputs. *)

From S2P Require Import Prelude.

(** [dev/core/service_manager/security/sm_replay.h:29-36 SM_REPLAY_WINDOW_SECS] *)
Definition SM_REPLAY_WINDOW_SECS : Z := 5.
Definition SM_REPLAY_RING_SIZE : nat := 512.

#[global] Arguments SM_REPLAY_RING_SIZE : simpl never.

(** [dev/core/service_manager/security/sm_replay.h:45-48 sm_replay_token_t] *)
Record sm_replay_token_t := mk_token { tok_timestamp_ms : Z; tok_nonce : Z }.

(** [dev/core/service_manager/security/sm_replay.c:41-44 nonce_slot_t] *)
Record nonce_slot_t := mk_slot { slot_nonce : Z; slot_timestamp_ms : Z }.

(** [dev/core/service_manager/security/sm_replay.c:48-50 g_ring] *)
Record replay_state := mk_replay { g_ring : list nonce_slot_t; g_ring_head : Z }.

(** [dev/core/service_manager/security/sm_replay.c:65-75 sm_replay_init] *)
Definition sm_replay_init : replay_state :=
  mk_replay (replicate SM_REPLAY_RING_SIZE (mk_slot 0 0)) 0.

(** [dev/core/service_manager/security/sm_replay.c:55-61 now_ms] *)
Definition now_ms (tv_sec tv_nsec : Z) : Z := u64 (u64 (tv_sec * 1000) + tv_nsec / 1000000).

(** [dev/core/service_manager/security/sm_replay.c:77-90 sm_replay_stamp] *)
Definition sm_replay_stamp (random : option Z) (now : Z) : Z * option sm_replay_token_t :=
  match random with
  | None => (-1, None)
  | Some nonce => (0, Some (mk_token now nonce))
  end.

Definition window_ms : Z := SM_REPLAY_WINDOW_SECS * 1000.

(** [dev/core/service_manager/security/sm_replay.c:99-129 sm_replay_check, freshness] *)
Definition fresh (now : Z) (tok : sm_replay_token_t) : bool :=
  let ts := tok_timestamp_ms tok in
  if now <? ts then negb (200 <? ts - now) && (0 <=? window_ms)
  else now - ts <=? window_ms.

(** [dev/core/service_manager/security/sm_replay.c:134-157 sm_replay_check, one slot]
    Does the slot hold the nonce, still inside the window? *)
Definition slot_live (now nonce : Z) (s : nonce_slot_t) : bool :=
  if slot_nonce s =? 0 then false
  else if negb (slot_nonce s =? nonce) then false
  else (if slot_timestamp_ms s <=? now then now - slot_timestamp_ms s else 0) <=? window_ms.

(** [dev/core/service_manager/security/sm_replay.c:92-167 sm_replay_check] *)
Definition sm_replay_check (now : Z) (tok : option sm_replay_token_t) (st : replay_state)
    : Z * replay_state :=
  match tok with
  | None => (-1, st)
  | Some tok =>
      if negb (fresh now tok) then (-1, st)
      else if existsb (slot_live now (tok_nonce tok)) (g_ring st) then (-1, st)
      else
        let slot := Z.to_nat (Z.land (g_ring_head st) (Z.of_nat SM_REPLAY_RING_SIZE - 1)) in
        (0, mk_replay (<[slot := mk_slot (tok_nonce tok) (tok_timestamp_ms tok)]> (g_ring st))
                      (u32 (g_ring_head st + 1)))
  end.

(** ** Histories of checks *)

Definition replay_inv (st : replay_state) : Prop :=
  length (g_ring st) = SM_REPLAY_RING_SIZE /\ 0 <= g_ring_head st < 2 ^ 32.

(** Run the checks of a history of (clock, token) pairs; the results. *)
Fixpoint checks (hist : list (Z * sm_replay_token_t)) (st : replay_state) : list Z * replay_state :=
  match hist with
  | [] => ([], st)
  | (now, tok) :: hist' =>
      let '(rc, st1) := sm_replay_check now (Some tok) st in
      let '(rcs, st2) := checks hist' st1 in (rc :: rcs, st2)
  end.

Definition accepted (rcs : list Z) : nat := length (List.filter (fun r => r =? 0) rcs).

Definition slot_of (h : Z) : nat := Z.to_nat (h mod 512).

Lemma land_slot h : Z.land h (Z.of_nat SM_REPLAY_RING_SIZE - 1) = h mod 512.
Proof. change (Z.of_nat SM_REPLAY_RING_SIZE - 1) with (Z.ones 9). by rewrite Z.land_ones by lia. Qed.

Lemma slot_of_wrap h : slot_of (u32 h) = slot_of h.
Proof. unfold slot_of, wrap. rewrite Z.mod_mod_divide; [done|]. by exists 8388608. Qed.

(** The two outcomes of a check. *)
Lemma check_cases now tok st :
  (sm_replay_check now (Some tok) st = (-1, st) /\
     (fresh now tok = false \/ existsb (slot_live now (tok_nonce tok)) (g_ring st) = true)) \/
  (fresh now tok = true /\ existsb (slot_live now (tok_nonce tok)) (g_ring st) = false /\
   sm_replay_check now (Some tok) st =
     (0, mk_replay (<[slot_of (g_ring_head st) := mk_slot (tok_nonce tok) (tok_timestamp_ms tok)]>
                      (g_ring st)) (u32 (g_ring_head st + 1)))).
Proof.
  unfold sm_replay_check. rewrite land_slot. fold (slot_of (g_ring_head st)).
  destruct (fresh now tok); simpl; [|by left; auto].
  destruct (existsb _ _); [left; auto|right; auto].
Qed.

Lemma check_inv now tok st : replay_inv st -> replay_inv (sm_replay_check now tok st).2.
Proof.
  destruct tok as [tok|]; [|done]. intros [Hl Hh].
  destruct (check_cases now tok st) as [[-> _]|(_ & _ & ->)]; [done|]. split; simpl.
  - by rewrite length_insert.
  - apply wrap_range. lia.
Qed.

(** While the slot of a token survives, the token is refused: it is stale, or
    its slot is live. *)
Lemma slot_refuses now tok st i : tok_nonce tok <> 0 ->
  g_ring st !! i = Some (mk_slot (tok_nonce tok) (tok_timestamp_ms tok)) ->
  sm_replay_check now (Some tok) st = (-1, st).
Proof.
  intros Hn Hi. destruct (check_cases now tok st) as [[-> _]|(Hf & He & _)]; [done|].
  exfalso. apply not_true_iff_false in He. apply He. apply existsb_exists.
  eexists. split; [eapply list_elem_of_In, list_elem_of_lookup_2, Hi|].
  unfold slot_live, fresh in *. simpl. destruct (Z.eqb_spec (tok_nonce tok) 0); [done|].
  rewrite Z.eqb_refl. simpl. destruct (Z.ltb_spec now (tok_timestamp_ms tok)).
  - destruct (Z.leb_spec (tok_timestamp_ms tok) now); [lia|]. done.
  - destruct (Z.leb_spec (tok_timestamp_ms tok) now); [done|lia].
Qed.

(** [k] acceptances after the write at counter [h] leave its slot alone. *)
Lemma slot_survives h s hist : forall st k, replay_inv st ->
  g_ring st !! slot_of h = Some s -> slot_of (g_ring_head st) = slot_of (h + 1 + Z.of_nat k) ->
  (k + accepted (checks hist st).1 < SM_REPLAY_RING_SIZE)%nat ->
  g_ring (checks hist st).2 !! slot_of h = Some s.
Proof.
  induction hist as [|[now tok] hist IH]; intros st k Hi Hs Hh Hk; cbn [checks] in *; [done|].
  destruct (check_cases now tok st) as [[Hc _]|(_ & _ & Hc)];
    pose proof (check_inv now (Some tok) st Hi) as Hi1; rewrite Hc in *; cbn [snd] in Hi1.
  - destruct (checks hist st) as [rcs st2] eqn:Hr. specialize (IH st k Hi Hs Hh).
    rewrite Hr in IH. simpl in *. by apply IH.
  - set (st1 := mk_replay _ _) in *. destruct (checks hist st1) as [rcs st2] eqn:Hr.
    specialize (IH st1 (S k) Hi1). rewrite Hr in IH. simpl in *. apply IH; unfold accepted in *.
    + rewrite list_lookup_insert_ne; [done|]. rewrite Hh.
      unfold slot_of, SM_REPLAY_RING_SIZE in *.
      intros He. simpl in Hk. 
      assert (Hm : (h + 1 + Z.of_nat k) mod 512 = h mod 512).
      { pose proof (Z.mod_pos_bound (h + 1 + Z.of_nat k) 512). pose proof (Z.mod_pos_bound h 512). lia. }
      pose proof (Z.div_mod (h + 1 + Z.of_nat k) 512). pose proof (Z.div_mod h 512). lia.
    + rewrite slot_of_wrap. unfold slot_of in *. f_equal.
      assert (Hm : g_ring_head st mod 512 = (h + 1 + Z.of_nat k) mod 512).
      { pose proof (Z.mod_pos_bound (h + 1 + Z.of_nat k) 512).
        pose proof (Z.mod_pos_bound (g_ring_head st) 512). lia. }
      rewrite <- Zplus_mod_idemp_l, Hm, Zplus_mod_idemp_l. f_equal. lia.
    + simpl in Hk. lia.
Qed.

(** C12: an accepted token with a nonzero nonce is refused whenever it is
    presented again, however the clock moves, as long as fewer than 512 other
    tokens have been accepted since. *)
Theorem replay_refused now1 tok st st1 hist now2 :
  replay_inv st -> tok_nonce tok <> 0 ->
  sm_replay_check now1 (Some tok) st = (0, st1) ->
  (accepted (checks hist st1).1 < SM_REPLAY_RING_SIZE)%nat ->
  (sm_replay_check now2 (Some tok) (checks hist st1).2).1 = -1.
Proof.
  intros Hi Hn Hc Hk. pose proof (check_inv now1 (Some tok) st Hi) as Hi1.
  destruct (check_cases now1 tok st) as [[Hc2 _]|(_ & _ & Hc2)]; rewrite Hc2 in *; [done|].
  simplify_eq. simpl in Hi1. set (s := mk_slot (tok_nonce tok) (tok_timestamp_ms tok)) in *.
  rewrite (slot_refuses now2 tok _ (slot_of (g_ring_head st))); [done|done|].
  apply (slot_survives (g_ring_head st) s hist _ 0); try done; simpl.
  - apply list_lookup_insert_eq. destruct Hi as [-> _]. unfold slot_of, SM_REPLAY_RING_SIZE.
    pose proof (Z.mod_pos_bound (g_ring_head st) 512). lia.
  - rewrite slot_of_wrap. f_equal. lia.
Qed.

(** Zero marks an empty slot, so a token whose nonce is zero is accepted
    every time it is presented within its window. *)
Lemma zero_nonce_replays now ts st : fresh now (mk_token ts 0) = true ->
  (sm_replay_check now (Some (mk_token ts 0)) st).1 = 0.
Proof.
  intros Hf. destruct (check_cases now (mk_token ts 0) st) as [[_ [H|H]]|(_ & _ & ->)];
    [congruence| |done]. apply existsb_exists in H as (s & _ & Hs).
  unfold slot_live in Hs. simpl in Hs. by destruct (slot_nonce s =? 0) eqn:E; rewrite ?E in Hs.
Qed.

(** ** Witnesses *)

Lemma init_replay_inv : replay_inv sm_replay_init.
Proof. split; [apply length_replicate|simpl; lia]. Qed.

Lemma replay_refused_witness :
  let tok := mk_token 10000 77 in
  (sm_replay_check 10500 (Some tok)
     (checks [(10200, mk_token 10100 5)] (sm_replay_check 10001 (Some tok) sm_replay_init).2).2).1 = -1.
Proof.
  apply (replay_refused 10001 (mk_token 10000 77) sm_replay_init).
  - apply init_replay_inv.
  - discriminate.
  - vm_compute. reflexivity.
  - vm_compute. lia.
Defined.

Lemma zero_nonce_replays_witness :
  let tok := mk_token 10000 0 in
  let st1 := (sm_replay_check 10001 (Some tok) sm_replay_init).2 in
  (sm_replay_check 10002 (Some tok) st1).1 = 0.
Proof. apply (zero_nonce_replays 10002 10000). vm_compute. reflexivity. Defined.

(** The bound of 512 is sharp: the 512th later acceptance overwrites the slot
    and the first token passes again. *)
Example ring_wraps :
  let st1 := (sm_replay_check 10001 (Some (mk_token 10000 7777)) sm_replay_init).2 in
  let others := (fun i => (10002, mk_token 10001 (Z.of_nat i))) <$> seq 1 512 in
  (sm_replay_check 10003 (Some (mk_token 10000 7777)) (checks others st1).2).1 = 0.
Proof. vm_compute. reflexivity. Qed.
