(* ===== verification/Handlers.v ===== *)
(** * Request handling (infrastructure/sm_handlers.c) and the client side
    (lifecycle/sm_main.c, infrastructure/sm_request_id.c)

    One call of [sm_handle_client] is a function from the daemon's state, the
    answers of the operating system (clocks, peer credentials, process
    liveness, socket results) and the bytes received to the reply sent and the
    state left behind.  Log and audit records are left out. *)

From S2P Require Import Prelude Float64 Registry Crypto Protocol RateLimit.

(** ** Request identifiers *)

(** [dev/core/service_manager/infrastructure/sm_request_id.c:14-26 request ids]
    [id_current] is the thread's own identifier. *)
Record id_state := mk_ids {
  id_current : Z; id_counter : Z; id_base : option Z
}.

(** [dev/core/service_manager/infrastructure/sm_request_id.c:29-51
    sm_request_id_generate] [random] is what [getrandom] gives on the first call. *)
Definition sm_request_id_generate (random : option Z) (s : id_state) : Z * id_state :=
  let base := match id_base s with Some b => b | None => default 0 random end in
  let id := Z.lor (u64 (Z.shiftl base 32)) (Z.land (id_counter s) 0xFFFFFFFF) in
  (id, mk_ids (id_current s) (u64 (id_counter s + 1)) (Some base)).

(** [dev/core/service_manager/infrastructure/sm_request_id.c:58-66
    sm_request_id_set, sm_request_id_clear] *)
Definition sm_request_id_set (id : Z) (s : id_state) : id_state :=
  mk_ids id (id_counter s) (id_base s).
Definition sm_request_id_clear (s : id_state) : id_state := sm_request_id_set 0 s.

(** ** State, environment, replies *)

Record server := mk_server {
  sv_reg : registry_state; sv_rate : rate_state; sv_limits : limits_state;
  sv_key : key_state; sv_ids : id_state
}.

(** What the operating system answers during one request. *)
Record env := mk_env {
  e_timeout_ok : bool;               (** setsockopt *)
  e_peer_pid : Z; e_peer_uid : Z; e_peer_gid : Z;   (** SO_PEERCRED *)
  e_mono1 : double; e_mono2 : double;  (** the monotonic clock, read twice *)
  e_now : Z;                         (** wall clock, header validation *)
  e_now2 : Z;                        (** wall clock, penalty box *)
  e_t1 : Z; e_t2 : Z;                (** wall clock, registry updates *)
  e_alive : Z -> bool;               (** kill (pid, 0) *)
  e_random : option Z;
  e_junk : list Z                    (** the stack bytes after the payload *)
}.

Inductive reply :=
| NoReply
| Reply (code : Z)
| ReplyLookup (socket_path ring_name : string) (pid : Z).

Definition set_limits (s : server) r l : server :=
  mk_server (sv_reg s) r l (sv_key s) (sv_ids s).
Definition set_reg (s : server) r : server :=
  mk_server r (sv_rate s) (sv_limits s) (sv_key s) (sv_ids s).
Definition set_rate (s : server) r : server :=
  mk_server (sv_reg s) r (sv_limits s) (sv_key s) (sv_ids s).
Definition set_ids (s : server) i : server :=
  mk_server (sv_reg s) (sv_rate s) (sv_limits s) (sv_key s) i.

(** [dev/core/service_manager/infrastructure/sm_handlers.c:75-90 send_reply_lookup] *)
Definition send_reply_lookup (e : service_entry_t) : reply :=
  ReplyLookup (strncpy_z 255 (socket_path e)) (strncpy_z 255 (ring_name e)) (i32 (pid e)).

(** The rate check every handler starts with. *)
Definition limit_check (e : env) (nm : string) (s : server) : Z * server :=
  let '(rc, r, l) := sm_ratelimit_check_extended (e_mono2 e) (e_now2 e) (e_peer_pid e) (Some nm)
                       (sv_rate s) (sv_limits s) in
  (rc, set_limits s r l).

(** [dev/core/service_manager/infrastructure/sm_handlers.c:129-141
    sm_handle_register, the entry] *)
Definition make_entry (e : env) (nm sp rn : string) : service_entry_t :=
  mk_entry (strncpy_z 63 nm) (strncpy_z 255 sp) (strncpy_z 255 rn)
    (e_peer_pid e) (e_peer_uid e) (e_peer_gid e) 0 SVC_TIER_CRITICAL 0 0 SERVICE_RUNNING (e_t1 e) 0 0.

(** [dev/core/service_manager/infrastructure/sm_handlers.c:94-144 sm_handle_register] *)
Definition sm_handle_register (e : env) (nm sp rn : string) (s : server) : reply * server :=
  let '(rc, s1) := limit_check e nm s in
  if rc <? 0 then (Reply SM_ERR_RATELIMIT, s1)
  else if negb (sm_validate_service_name (Some nm) =? SM_OK) then (Reply SM_ERR_INVALID, s1)
  else if negb (sm_validate_socket_path (Some sp) =? SM_OK) then (Reply SM_ERR_INVALID, s1)
  else if negb (sm_validate_socket_path (Some rn) =? SM_OK) then (Reply SM_ERR_INVALID, s1)
  else
    let '(rc, r) := sm_registry_add (e_alive e) (e_t1 e) (e_t2 e)
                      (Some (make_entry e nm sp rn)) (sv_reg s1) in
    (Reply rc, set_reg s1 r).

(** [dev/core/service_manager/infrastructure/sm_handlers.c:148-191 sm_handle_lookup] *)
Definition sm_handle_lookup (e : env) (nm : string) (s : server) : reply * server :=
  let '(rc, s1) := limit_check e nm s in
  if rc <? 0 then (Reply SM_ERR_RATELIMIT, s1)
  else if negb (sm_validate_service_name (Some nm) =? SM_OK) then (Reply SM_ERR_INVALID, s1)
  else
    match sm_registry_find_copy (Some nm) true (sv_reg s1) with
    | (_, Some entry) =>
        if decide (status entry = SERVICE_RUNNING) then (send_reply_lookup entry, s1)
        else (Reply SM_ERR_NOT_FOUND, s1)
    | (_, None) => (Reply SM_ERR_NOT_FOUND, s1)
    end.

(** [dev/core/service_manager/infrastructure/sm_handlers.c:195-221 sm_handle_heartbeat] *)
Definition sm_handle_heartbeat (e : env) (nm : string) (s : server) : reply * server :=
  let '(rc, s1) := limit_check e nm s in
  if rc <? 0 then (Reply SM_ERR_RATELIMIT, s1)
  else if negb (sm_validate_service_name (Some nm) =? SM_OK) then (Reply SM_ERR_INVALID, s1)
  else
    let '(rc, r) := sm_registry_update_heartbeat (Some nm) (e_t1 e) (sv_reg s1) in
    (Reply rc, set_reg s1 r).

(** [dev/core/service_manager/infrastructure/sm_handlers.c:225-259 sm_handle_unregister] *)
Definition sm_handle_unregister (e : env) (nm : string) (s : server) : reply * server :=
  let '(rc, s1) := limit_check e nm s in
  if rc <? 0 then (Reply SM_ERR_RATELIMIT, s1)
  else if negb (sm_validate_service_name (Some nm) =? SM_OK) then (Reply SM_ERR_INVALID, s1)
  else
    let '(rc, r) := sm_registry_remove_if_owner (Some nm) (e_peer_pid e) (sv_reg s1) in
    (Reply rc, set_reg s1 r).

(** What arrives on the socket. *)
Inductive incoming :=
| RecvFailed                                   (** header recv error or short *)
| Received (h : sm_hdr_t) (payload : option (list Z)).
  (** the payload, or its recv error; it may be short *)

(** [dev/core/service_manager/infrastructure/sm_handlers.c:360-382 sm_handle_client,
    dispatch] The request structures are read in place in the payload buffer. *)
Definition dispatch (e : env) (type : Z) (payload : list Z) (s : server) : reply * server :=
  let buf := payload ++ e_junk e in
  let nm := c_string buf in
  if type =? SM_MSG_REGISTER then
    sm_handle_register e nm (c_string (drop 64 buf)) (c_string (drop 320 buf)) s
  else if type =? SM_MSG_LOOKUP then sm_handle_lookup e nm s
  else if type =? SM_MSG_HEARTBEAT then sm_handle_heartbeat e nm s
  else if type =? SM_MSG_UNREGISTER then sm_handle_unregister e nm s
  else (Reply SM_ERR_INVALID, s).

(** [dev/core/service_manager/infrastructure/sm_handlers.c:308-358 sm_handle_client,
    the checks on a received message] *)
Definition check_message (e : env) (h : sm_hdr_t) (payload : option (list Z)) (k : key_state)
    : reply + list Z :=
  if (msg_length h =? 0) || (SM_MAX_PAYLOAD_SIZE <? msg_length h) then inl (Reply SM_ERR_PROTOCOL)
  else
    match payload with
    | None => inl NoReply
    | Some p =>
        if negb (Z.of_nat (length p) =? msg_length h) then inl NoReply
        else if negb (sm_validate_header (Some h) (sizeof_sm_hdr_t + msg_length h) (e_now e) =? SM_OK)
        then inl (Reply SM_ERR_PROTOCOL)
        else if negb (sm_validate_message_size (msg_length h) (msg_type h) =? SM_OK)
        then inl (Reply SM_ERR_INVALID)
        else
          match sm_crypto_get_key k with
          | Some key =>
              if negb (sm_validate_header_hmac (Some h) (Some p) (Some key) =? SM_OK)
              then inl (Reply SM_ERR_AUTH) else inr p
          | None => inr p
          end
    end.

(** [dev/core/service_manager/infrastructure/sm_handlers.c:263-383 sm_handle_client] *)
Definition sm_handle_client (e : env) (m : incoming) (s : server) : reply * server :=
  let '(id, ids) := sm_request_id_generate (e_random e) (sv_ids s) in
  let s1 := set_ids s (sm_request_id_set id ids) in
  if negb (e_timeout_ok e) then (NoReply, set_ids s1 (sm_request_id_clear (sv_ids s1)))
  else
    let '(rc, r) := sm_rate_limit_check (e_mono1 e) (e_peer_pid e) (sv_rate s1) in
    let s2 := set_rate s1 r in
    if negb (rc =? SM_OK) then (NoReply, set_ids s2 (sm_request_id_clear (sv_ids s2)))
    else
      match m with
      | RecvFailed => (NoReply, s2)
      | Received h payload =>
          match check_message e h payload (sv_key s2) with
          | inl r => (r, s2)
          | inr p => dispatch e (msg_type h) p s2
          end
      end.

(** ** The client library *)

(** [int32_t] in memory. *)
Definition le_int32 (v : Z) : list Z := le_bytes 4 (u32 v).

(** [dev/core/service_manager/infrastructure/sm_protocol.h:84-89 sm_register_req_t] *)
Definition register_payload (nm sp rn : string) (cpid : Z) : list Z :=
  cbuf 64 nm ++ cbuf 256 sp ++ cbuf 256 rn ++ le_int32 cpid.

(** [dev/core/service_manager/infrastructure/sm_protocol.h:91-111 sm_lookup_req_t,
    sm_heartbeat_req_t, sm_unregister_req_t] *)
Definition name_payload (nm : string) : list Z := cbuf 64 nm.

(** [dev/core/service_manager/lifecycle/sm_main.c:551-576 _sm_transact, the message] *)
Definition client_message (key : option (list Z)) (type now cpid : Z) (rnd : option Z)
    (payload : list Z) : sm_hdr_t :=
  let h0 := mk_hdr SM_PROTOCOL_MAGIC SM_PROTOCOL_VERSION type (u32 (Z.of_nat (length payload)))
              (u32 now) (u32 cpid) (default 0 rnd) (replicate 32 0) in
  match key with
  | None => h0
  | Some k =>
      mk_hdr (magic h0) (version h0) (msg_type h0) (msg_length h0) (timestamp h0) (client_pid h0)
        (nonce h0) (default [] (sm_hmac_sha256 (Some k) (Some (header_bytes h0 ++ payload))))
  end.

(** Sizes on the wire. *)
Definition sizeof_reply : Z := 4.
Definition sizeof_lookup_reply : Z := 256 + 256 + 4.
Definition reply_size (r : reply) : Z :=
  match r with NoReply => 0 | Reply _ => sizeof_reply | ReplyLookup _ _ _ => sizeof_lookup_reply end.

(** [dev/core/service_manager/lifecycle/sm_main.c:590-596 _sm_transact, the reply] The
    server closes the connection after its reply, so a shorter one is an error. *)
Definition recv_reply (r : reply) (expected : Z) : option reply :=
  if reply_size r =? expected then Some r else None.

(** [dev/core/service_manager/lifecycle/sm_main.c:617-648 sm_register]
    [dial] delivers a request to the daemon and brings back its reply;
    [None]: the connection fails. *)
Definition sm_register (dial : option (Z -> list Z -> reply)) (cpid : Z)
    (nm sp rn : option string) : Z :=
  match nm, sp, rn with
  | Some nm, Some sp, Some rn =>
      if Nat.eqb (String.length nm) 0 || Nat.eqb (String.length sp) 0 || Nat.eqb (String.length rn) 0
      then SM_ERR_INVALID
      else match dial with
           | None => SM_ERR_NOT_FOUND
           | Some d =>
               match recv_reply (d SM_MSG_REGISTER (register_payload nm sp rn cpid)) sizeof_reply with
               | Some (Reply c) => i32 c
               | _ => SM_ERR_INVALID
               end
           end
  | _, _, _ => SM_ERR_INVALID
  end.

(** [dev/core/service_manager/lifecycle/sm_main.c:650-683 sm_lookup] *)
Definition sm_lookup (dial : option (Z -> list Z -> reply)) (nm : option string) (out : bool)
    : Z * option (string * string) :=
  match nm with
  | None => (SM_ERR_INVALID, None)
  | Some nm =>
      if Nat.eqb (String.length nm) 0 then (SM_ERR_INVALID, None)
      else if negb out then (SM_ERR_INVALID, None)
      else match dial with
           | None => (SM_ERR_NOT_FOUND, None)
           | Some d =>
               match recv_reply (d SM_MSG_LOOKUP (name_payload nm)) sizeof_lookup_reply with
               | Some (ReplyLookup sp rn _) => (SM_OK, Some (strncpy_z 255 sp, strncpy_z 255 rn))
               | _ => (SM_ERR_INVALID, None)
               end
           end
  end.

(** The part [sm_heartbeat] and [sm_unregister] share. *)
Definition name_request (type : Z) (dial : option (Z -> list Z -> reply)) (nm : option string) : Z :=
  match nm with
  | None => SM_ERR_INVALID
  | Some nm =>
      if Nat.eqb (String.length nm) 0 then SM_ERR_INVALID
      else match dial with
           | None => SM_ERR_NOT_FOUND
           | Some d =>
               match recv_reply (d type (name_payload nm)) sizeof_reply with
               | Some (Reply c) => i32 c
               | _ => SM_ERR_INVALID
               end
           end
  end.

(** [dev/core/service_manager/lifecycle/sm_main.c:685-709 sm_heartbeat] *)
Definition sm_heartbeat := name_request SM_MSG_HEARTBEAT.

(** [dev/core/service_manager/lifecycle/sm_main.c:711-735 sm_unregister] *)
Definition sm_unregister := name_request SM_MSG_UNREGISTER.

(** The daemon as a client reaches it: [cnow] and [rnd] are the client's
    clock and random number, [key] its copy of the key. *)
Definition daemon (e : env) (key : option (list Z)) (cnow cpid : Z) (rnd : option Z) (s : server)
    (type : Z) (payload : list Z) : reply * server :=
  sm_handle_client e (Received (client_message key type cnow cpid rnd payload) (Some payload)) s.

(** ** What a request may do to the registry *)

Definition is_mac (K : list Z) (h : sm_hdr_t) (p : list Z) : Prop :=
  hmac h = rfc_hmac K (header_bytes h ++ p).

(** The MAC field is 32 bytes on the wire. *)
Definition wire_ok (m : incoming) : Prop :=
  match m with
  | RecvFailed => True
  | Received h _ => bytes (hmac h) /\ length (hmac h) = SM_HMAC_SIZE /\ 0 <= msg_length h
  end.

Lemma check_message_auth e h payload k p K : wire_ok (Received h payload) ->
  sm_crypto_get_key k = Some K -> check_message e h payload k = inr p ->
  payload = Some p /\ is_mac K h p /\
  sm_validate_header (Some h) (sizeof_sm_hdr_t + msg_length h) (e_now e) = SM_OK.
Proof.
  intros (Hb & Hl & Hnn) Hk. unfold check_message. rewrite Hk.
  destruct ((msg_length h =? 0) || (SM_MAX_PAYLOAD_SIZE <? msg_length h)) eqn:Hlen; [done|].
  destruct payload as [q|]; [|done].
  destruct (Z.eqb_spec (Z.of_nat (length q)) (msg_length h)) as [Hq|]; [|done]. cbn [negb].
  destruct (Z.eqb_spec (sm_validate_header (Some h) (sizeof_sm_hdr_t + msg_length h) (e_now e)) SM_OK)
    as [Hv|]; [|done]. cbn [negb].
  destruct (negb (sm_validate_message_size _ _ =? SM_OK)); [done|].
  destruct (Z.eqb_spec (sm_validate_header_hmac (Some h) (Some q) (Some K)) SM_OK) as [Hm|]; [|done].
  cbn [negb]. intros; simplify_eq. bool_to_prop.
  split_and!; [done| |done]. eapply hmac_checked; try done.
Qed.

(** The registry command a request amounts to, for the given peer. *)
Definition client_cmd (e : env) (c : reg_cmd) : Prop :=
  match c with
  | CAdd alive _ _ en =>
      alive = e_alive e /\ pid en = e_peer_pid e /\ uid en = e_peer_uid e /\ gid en = e_peer_gid e /\
      sm_validate_service_name (Some (name en)) = SM_OK /\
      in_allowed_dir (socket_path en) /\ in_allowed_dir (ring_name en)
  | CHeartbeat _ _ => True
  | CRemoveOwner _ o => o = e_peer_pid e
  | _ => False
  end.

Lemma limit_check_reg e nm s : sv_reg (limit_check e nm s).2 = sv_reg s.
Proof. unfold limit_check. by destruct (sm_ratelimit_check_extended _ _ _ _ _ _) as [[rc r] l]. Qed.

(** A request either leaves the registry alone or performs one command the peer
    is entitled to. *)
Definition reg_effect (e : env) (r r' : registry_state) : Prop :=
  r' = r \/ exists c, client_cmd e c /\ cmd_ok c /\ r' = (exec c r).2.

Lemma validated_name nm : sm_validate_service_name (Some nm) = SM_OK ->
  strncpy_z 63 nm = nm /\ (String.length nm < SM_MAX_NAME)%nat.
Proof.
  intros H. apply name_ok_iff in H as [Hl _]. split; [|lia].
  apply strncpy_z_short. unfold SM_MAX_NAME in Hl. lia.
Qed.

Lemma validated_path p : sm_validate_socket_path (Some p) = SM_OK ->
  strncpy_z 255 p = p /\ in_allowed_dir p.
Proof.
  intros H. apply path_ok in H as [Hl Hd]. split; [|done].
  apply strncpy_z_short. unfold SM_MAX_PATH in Hl. lia.
Qed.

Lemma register_effect e nm sp rn s :
  reg_effect e (sv_reg s) (sv_reg (sm_handle_register e nm sp rn s).2).
Proof.
  unfold sm_handle_register. pose proof (limit_check_reg e nm s) as Hr.
  destruct (limit_check e nm s) as [rc s1]. simpl in Hr. destruct (rc <? 0); [by left|].
  destruct (Z.eqb_spec (sm_validate_service_name (Some nm)) SM_OK) as [Hn|]; [|by left].
  destruct (Z.eqb_spec (sm_validate_socket_path (Some sp)) SM_OK) as [Hs|]; [|by left].
  destruct (Z.eqb_spec (sm_validate_socket_path (Some rn)) SM_OK) as [Hg|]; [|by left].
  cbn [negb]. set (en := make_entry e nm sp rn). right.
  exists (CAdd (e_alive e) (e_t1 e) (e_t2 e) en). rewrite <- Hr.
  destruct (validated_name nm Hn) as [Hn1 Hn2]. destruct (validated_path sp Hs) as [Hs1 Hs2].
  destruct (validated_path rn Hg) as [Hg1 Hg2].
  split; [|split].
  - unfold client_cmd, en. simpl. by rewrite Hn1, Hs1, Hg1.
  - unfold cmd_ok, en. simpl. by rewrite Hn1.
  - cbn [exec]. by destruct (sm_registry_add (e_alive e) (e_t1 e) (e_t2 e) (Some en) (sv_reg s1)).
Qed.

Lemma lookup_effect e nm s : sv_reg (sm_handle_lookup e nm s).2 = sv_reg s.
Proof.
  unfold sm_handle_lookup. pose proof (limit_check_reg e nm s) as Hr.
  destruct (limit_check e nm s) as [rc s1]. simpl in Hr.
  repeat (case_match; try done).
Qed.

Lemma heartbeat_effect e nm s :
  reg_effect e (sv_reg s) (sv_reg (sm_handle_heartbeat e nm s).2).
Proof.
  unfold sm_handle_heartbeat. pose proof (limit_check_reg e nm s) as Hr.
  destruct (limit_check e nm s) as [rc s1]. simpl in Hr. destruct (rc <? 0); [by left|].
  destruct (negb _); [by left|]. right. exists (CHeartbeat nm (e_t1 e)). rewrite <- Hr.
  split_and!; try done. cbn [exec]. by destruct (sm_registry_update_heartbeat (Some nm) (e_t1 e) (sv_reg s1)).
Qed.

Lemma unregister_effect e nm s :
  reg_effect e (sv_reg s) (sv_reg (sm_handle_unregister e nm s).2).
Proof.
  unfold sm_handle_unregister. pose proof (limit_check_reg e nm s) as Hr.
  destruct (limit_check e nm s) as [rc s1]. simpl in Hr. destruct (rc <? 0); [by left|].
  destruct (negb _); [by left|]. right. exists (CRemoveOwner nm (e_peer_pid e)). rewrite <- Hr.
  split_and!; try done. cbn [exec].
  by destruct (sm_registry_remove_if_owner (Some nm) (e_peer_pid e) (sv_reg s1)).
Qed.

Lemma dispatch_effect e type p s : reg_effect e (sv_reg s) (sv_reg (dispatch e type p s).2).
Proof.
  unfold dispatch. repeat case_match; [apply register_effect| |apply heartbeat_effect
    |apply unregister_effect|by left]. left. apply lookup_effect.
Qed.

Lemma handle_client_effect e m s : reg_effect e (sv_reg s) (sv_reg (sm_handle_client e m s).2).
Proof.
  unfold sm_handle_client. destruct (sm_request_id_generate _ _) as [id ids].
  destruct (e_timeout_ok e); cbn [negb]; [|by left].
  destruct (sm_rate_limit_check _ _ _) as [rc r]. destruct (negb _); [by left|].
  destruct m as [|h payload]; [by left|]. destruct (check_message _ _ _ _); [by left|].
  set (s2 := set_rate _ _). apply (dispatch_effect e _ _ s2).
Qed.

(** C2: while the key is loaded, a request changes the registry or the service
    limits only if its MAC is the HMAC-SHA256 of header and payload under that
    key and its header is valid for the current clock. *)
Theorem changes_authenticated e m s K : wire_ok m ->
  sm_crypto_get_key (sv_key s) = Some K ->
  let s' := (sm_handle_client e m s).2 in
  sv_reg s' <> sv_reg s \/ sv_limits s' <> sv_limits s ->
  exists h p, m = Received h (Some p) /\ is_mac K h p /\
    sm_validate_header (Some h) (sizeof_sm_hdr_t + msg_length h) (e_now e) = SM_OK.
Proof.
  intros Hw Hk. unfold sm_handle_client. destruct (sm_request_id_generate _ _) as [id ids].
  destruct (e_timeout_ok e); simpl; [|naive_solver].
  destruct (sm_rate_limit_check _ _ _) as [rc r]. destruct (negb _); simpl; [naive_solver|].
  destruct m as [|h payload]; simpl; [naive_solver|].
  destruct (check_message _ _ _ _) as [rp|p] eqn:Hc; simpl; [naive_solver|].
  intros _. eapply check_message_auth in Hc as (-> & Hm & Hv); eauto.
Qed.

(** C13: no request evicts somebody else's live service: a registration of name
    and process survives the request unless the peer is that very process or
    that process is dead. *)
Theorem client_cannot_evict e m s en : reg_inv (sv_reg s) -> en ∈ live (sv_reg s) ->
  let s' := (sm_handle_client e m s).2 in
  (exists en', en' ∈ live (sv_reg s') /\ name en' = name en /\ pid en' = pid en) \/
  pid en = e_peer_pid e \/ e_alive e (pid en) = false.
Proof.
  intros Hi Hin. destruct (handle_client_effect e m s) as [Heq|(c & Hc & Hok & Heq)];
    cbv zeta; rewrite Heq; [by left; eauto|].
  destruct (exec_keeps c (sv_reg s) en Hi Hok Hin) as [Hk|Hd]; [by left|].
  destruct c; simpl in *; try done; [|naive_solver].
  destruct Hd as [_ Hd]. destruct Hc as (-> & _). by right; right.
Qed.

(** What a client registers carries the kernel's credentials of its process,
    a valid name and paths below the allowed directories, and the registry
    invariant survives every request. *)
Theorem registered_with_peer_credentials e m s en : reg_inv (sv_reg s) ->
  let s' := (sm_handle_client e m s).2 in
  reg_inv (sv_reg s') /\
  (en ∈ live (sv_reg s') -> (forall en0, en0 ∈ live (sv_reg s) -> name en0 <> name en) ->
   pid en = e_peer_pid e /\ uid en = e_peer_uid e /\ gid en = e_peer_gid e /\
   sm_validate_service_name (Some (name en)) = SM_OK /\
   in_allowed_dir (socket_path en) /\ in_allowed_dir (ring_name en)).
Proof.
  intros Hi. destruct (handle_client_effect e m s) as [Heq|(c & Hc & Hok & Heq)];
    cbv zeta; rewrite Heq; [split; [done|]; intros Hin Hno; by destruct (Hno en Hin)|].
  destruct (exec_refines c (sv_reg s) Hi Hok) as [Hi' Hsp]. split; [done|].
  intros Hin Hno. destruct (exec_new_entry c (sv_reg s) en Hi Hok Hin Hno) as (al & t1 & t2 & e0 & -> & ->).
  simpl in Hc. destruct Hc as (_ & H). exact H.
Qed.

(** ** Client and daemon together *)

Lemma valid_name_no_nul nm : sm_validate_service_name (Some nm) = SM_OK -> no_nul nm.
Proof.
  intros H. apply name_ok_iff in H as [_ H]. unfold no_nul. eapply Forall_impl; [exact H|].
  intros c Hc Hz. unfold name_char_ok, isalnum in Hc. rewrite Hz in Hc. simpl in Hc.
  apply orb_true_iff in Hc as [Hc|Hc]; apply Ascii.eqb_eq in Hc; subst c; by vm_compute in Hz.
Qed.

(** The clock the client stamped with lies in the daemon's window. *)
Definition clocks_ok (cnow now : Z) : Prop :=
  0 <= cnow < 2 ^ 32 /\ 0 <= now < 2 ^ 32 - SM_TIMESTAMP_MAX_SKEW /\
  now - SM_TIMESTAMP_MAX_AGE <= cnow <= now + SM_TIMESTAMP_MAX_SKEW.

Lemma client_message_fields key type cnow cpid rnd p :
  let h := client_message key type cnow cpid rnd p in
  magic h = SM_PROTOCOL_MAGIC /\ version h = SM_PROTOCOL_VERSION /\ msg_type h = type /\
  msg_length h = u32 (Z.of_nat (length p)) /\ timestamp h = u32 cnow /\
  (forall K, key = Some K -> is_mac K h p).
Proof.
  unfold client_message. destruct key as [K|];
    cbn [magic version msg_type msg_length timestamp]; split_and!; try done.
  intros K' ?. simplify_eq. unfold is_mac. cbn [hmac]. rewrite hmac_is_rfc. done.
Qed.

(** What the client library sends, a daemon with the same key accepts. *)
Lemma client_message_accepted e key k type cnow cpid rnd p :
  sm_crypto_get_key k = key -> clocks_ok cnow (e_now e) ->
  sm_validate_message_size (Z.of_nat (length p)) type = SM_OK ->
  check_message e (client_message key type cnow cpid rnd p) (Some p) k = inr p.
Proof.
  intros Hk (Hc & Hn & Hw) Hsz.
  destruct (client_message_fields key type cnow cpid rnd p) as (Hm & Hv & Ht & Hl & Hts & Hmac).
  set (h := client_message _ _ _ _ _ _) in *. clearbody h.
  assert (Hlen : (type = SM_MSG_REGISTER /\ Z.of_nat (length p) = sizeof_register) \/
    (type ∈ [SM_MSG_LOOKUP; SM_MSG_HEARTBEAT; SM_MSG_UNREGISTER] /\
     Z.of_nat (length p) = sizeof_name_req)) by by apply message_size_iff.
  assert (Hpl : 0 < Z.of_nat (length p) <= SM_MAX_PAYLOAD_SIZE).
  { unfold sizeof_register, sizeof_name_req, SM_MAX_PAYLOAD_SIZE in *. lia. }
  assert (Htype : SM_MSG_REGISTER <= type <= SM_MSG_UNREGISTER).
  { unfold SM_MSG_REGISTER, SM_MSG_LOOKUP, SM_MSG_HEARTBEAT, SM_MSG_UNREGISTER in *.
    rewrite !elem_of_cons, elem_of_nil in Hlen. lia. }
  rewrite wrap_small in Hl by (unfold SM_MAX_PAYLOAD_SIZE in *; lia).
  rewrite wrap_small in Hts by lia.
  assert (Hvh : sm_validate_header (Some h) (sizeof_sm_hdr_t + msg_length h) (e_now e) = SM_OK).
  { apply header_ok_iff; [done|]. rewrite Hm, Hv, Ht, Hl, Hts. split_and!; try done; lia. }
  unfold check_message. rewrite Hvh, Ht, Hl, Hsz, Hk, !Z.eqb_refl. cbn [negb].
  destruct (Z.eqb_spec (Z.of_nat (length p)) 0); [lia|].
  destruct (Z.ltb_spec SM_MAX_PAYLOAD_SIZE (Z.of_nat (length p))); [lia|]. cbn [orb].
  destruct key as [K|]; [|done]. specialize (Hmac K eq_refl).
  assert (Hok : sm_validate_header_hmac (Some h) (Some p) (Some K) = SM_OK).
  { unfold is_mac in Hmac. apply hdr_hmac; [lia|lia| | |exact Hmac];
      rewrite Hmac; [apply fips_bytes|apply length_fips]. }
  by rewrite Hok, Z.eqb_refl.
Qed.

(** The daemon's state when it dispatches a request. *)
Definition after_admission (e : env) (s : server) : server :=
  let '(id, ids) := sm_request_id_generate (e_random e) (sv_ids s) in
  let s1 := set_ids s (sm_request_id_set id ids) in
  set_rate s1 (sm_rate_limit_check (e_mono1 e) (e_peer_pid e) (sv_rate s1)).2.

Definition admitted (e : env) (s : server) : Prop :=
  e_timeout_ok e = true /\ (sm_rate_limit_check (e_mono1 e) (e_peer_pid e) (sv_rate s)).1 = SM_OK.

Lemma after_admission_reg e s :
  sv_reg (after_admission e s) = sv_reg s /\ sv_key (after_admission e s) = sv_key s /\
  sv_limits (after_admission e s) = sv_limits s /\
  sv_rate (after_admission e s) =
    (sm_rate_limit_check (e_mono1 e) (e_peer_pid e) (sv_rate s)).2.
Proof. unfold after_admission. by destruct (sm_request_id_generate _ _). Qed.

Lemma handle_admitted e h payload p s : admitted e s ->
  check_message e h payload (sv_key s) = inr p ->
  sm_handle_client e (Received h payload) s = dispatch e (msg_type h) p (after_admission e s).
Proof.
  intros [Ht Hr] Hc. unfold sm_handle_client, after_admission.
  destruct (sm_request_id_generate _ _) as [id ids]. rewrite Ht. cbn [negb].
  change (sv_rate (set_ids s (sm_request_id_set id ids))) with (sv_rate s).
  destruct (sm_rate_limit_check _ _ (sv_rate s)) as [rc r]. cbn [fst snd] in *. subst rc.
  rewrite Z.eqb_refl. cbn [negb sv_key set_rate set_ids]. by rewrite Hc.
Qed.

(** The request passes the per-service limits too. *)
Definition within_limits (e : env) (nm : string) (s : server) : Prop :=
  (limit_check e nm (after_admission e s)).1 = 0.

Lemma registry_codes :
  (forall nm now r, -8 <= (sm_registry_update_heartbeat nm now r).1 <= 0) /\
  (forall nm o r, -8 <= (sm_registry_remove_if_owner nm o r).1 <= 0).
Proof.
  unfold sm_registry_update_heartbeat, sm_registry_remove_if_owner.
  split; intros; repeat case_match; simpl;
    unfold SM_OK, SM_ERR_INVALID, SM_ERR_NOT_FOUND, SM_ERR_PERMISSION; lia.
Qed.

Lemma dispatch_unregister e p s :
  dispatch e SM_MSG_UNREGISTER p s = sm_handle_unregister e (c_string (p ++ e_junk e)) s.
Proof. reflexivity. Qed.
Lemma dispatch_heartbeat e p s :
  dispatch e SM_MSG_HEARTBEAT p s = sm_handle_heartbeat e (c_string (p ++ e_junk e)) s.
Proof. reflexivity. Qed.
Lemma dispatch_lookup e p s :
  dispatch e SM_MSG_LOOKUP p s = sm_handle_lookup e (c_string (p ++ e_junk e)) s.
Proof. reflexivity. Qed.

Section end_to_end.
Context (e : env) (s : server) (key : option (list Z)) (cnow cpid : Z) (rnd : option Z) (nm : string).
Hypothesis Hkey : sm_crypto_get_key (sv_key s) = key.
Hypothesis Hclock : clocks_ok cnow (e_now e).
Hypothesis Hadm : admitted e s.
Hypothesis Hlim : within_limits e nm s.
Hypothesis Hname : sm_validate_service_name (Some nm) = SM_OK.

(** A request that names a service reaches its handler with that name. *)
Lemma name_request_dispatched type :
  type ∈ [SM_MSG_LOOKUP; SM_MSG_HEARTBEAT; SM_MSG_UNREGISTER] ->
  daemon e key cnow cpid rnd s type (name_payload nm) =
  dispatch e type (name_payload nm) (after_admission e s).
Proof.
  intros Ht. unfold daemon.
  assert (Hlen : Z.of_nat (length (name_payload nm)) = sizeof_name_req)
    by (unfold name_payload; by rewrite length_cbuf by lia).
  rewrite (handle_admitted _ _ _ (name_payload nm)); [|done|].
  - by destruct (client_message_fields key type cnow cpid rnd (name_payload nm))
      as (_ & _ & -> & _).
  - apply client_message_accepted; [done..|]. apply message_size_iff. right. done.
Qed.

Lemma name_read : c_string (name_payload nm ++ e_junk e) = nm.
Proof.
  unfold name_payload. rewrite cbuf_read; [|lia|by apply valid_name_no_nul].
  by apply validated_name.
Qed.

Lemma name_nonempty : Nat.eqb (String.length nm) 0 = false.
Proof. apply Nat.eqb_neq. apply name_ok_iff in Hname as [? _]. lia. Qed.

(** C6: through the wire, [sm_unregister] returns what the registry answers the
    peer's own process and leaves the daemon with the registry it computes, and
    [sm_heartbeat] likewise. *)
Theorem unregister_end_to_end :
  let dial type p := (daemon e key cnow cpid rnd s type p).1 in
  let reg type := sv_reg (daemon e key cnow cpid rnd s type (name_payload nm)).2 in
  (sm_unregister (Some dial) (Some nm), reg SM_MSG_UNREGISTER) =
    sm_registry_remove_if_owner (Some nm) (e_peer_pid e) (sv_reg s) /\
  (sm_heartbeat (Some dial) (Some nm), reg SM_MSG_HEARTBEAT) =
    sm_registry_update_heartbeat (Some nm) (e_t1 e) (sv_reg s).
Proof.
  cbv zeta. unfold sm_unregister, sm_heartbeat, name_request. rewrite name_nonempty.
  destruct (registry_codes) as [Hhb Hrm].
  destruct (after_admission_reg e s) as (Hreg & _).
  pose proof (limit_check_reg e nm (after_admission e s)) as Hlr.
  unfold within_limits in Hlim. split.
  - rewrite name_request_dispatched by set_solver. rewrite dispatch_unregister, name_read.
    unfold sm_handle_unregister. destruct (limit_check e nm _) as [rc s1].
    cbn [fst snd] in Hlim, Hlr. subst rc. rewrite Hname, Hlr, Hreg.
    change (0 <? 0) with false. rewrite Z.eqb_refl. cbn [negb].
    specialize (Hrm (Some nm) (e_peer_pid e) (sv_reg s)).
    destruct (sm_registry_remove_if_owner _ _ _) as [rc r]. cbn in *. by rewrite i32_small by lia.
  - rewrite name_request_dispatched by set_solver. rewrite dispatch_heartbeat, name_read.
    unfold sm_handle_heartbeat. destruct (limit_check e nm _) as [rc s1].
    cbn [fst snd] in Hlim, Hlr. subst rc. rewrite Hname, Hlr, Hreg.
    change (0 <? 0) with false. rewrite Z.eqb_refl. cbn [negb].
    specialize (Hhb (Some nm) (e_t1 e) (sv_reg s)).
    destruct (sm_registry_update_heartbeat _ _ _) as [rc r]. cbn in *. by rewrite i32_small by lia.
Qed.

(** [sm_lookup] gives the paths of a registered running service; for any
    other name the daemon's four-byte error reply is too short for the client,
    which reports an invalid request, never that the service was not found. *)
Theorem lookup_end_to_end :
  let dial type p := (daemon e key cnow cpid rnd s type p).1 in
  sm_lookup (Some dial) (Some nm) true =
  match (sm_registry_find_copy (Some nm) true (sv_reg s)).2 with
  | Some en => if decide (status en = SERVICE_RUNNING)
               then (SM_OK, Some (strncpy_z 255 (socket_path en), strncpy_z 255 (ring_name en)))
               else (SM_ERR_INVALID, None)
  | None => (SM_ERR_INVALID, None)
  end.
Proof.
  cbv zeta. unfold sm_lookup. rewrite name_nonempty. cbn [negb].
  destruct (after_admission_reg e s) as (Hreg & _).
  pose proof (limit_check_reg e nm (after_admission e s)) as Hlr.
  unfold within_limits in Hlim. rewrite name_request_dispatched by set_solver.
  rewrite dispatch_lookup, name_read.
  unfold sm_handle_lookup. destruct (limit_check e nm _) as [rc s1].
  cbn [fst snd] in Hlim, Hlr. subst rc. rewrite Hname, Hlr, Hreg.
  change (0 <? 0) with false. rewrite Z.eqb_refl. cbn [negb].
  destruct (sm_registry_find_copy _ _ _) as [rc [en|]]; [|done]. cbn [snd].
  destruct (decide (status en = SERVICE_RUNNING)); [|done].
  cbn [fst send_reply_lookup recv_reply reply_size Z.eqb]. unfold recv_reply, send_reply_lookup.
  cbn [reply_size]. rewrite Z.eqb_refl. by rewrite !strncpy_z_min.
Qed.
End end_to_end.

(** ** Rate limits across a whole request *)

(** The message passes every check before dispatch. *)
Definition acceptable (e : env) (k : key_state) (m : incoming) : Prop :=
  exists h payload p, m = Received h payload /\ check_message e h payload k = inr p.

Lemma check_message_type e h payload k p : check_message e h payload k = inr p ->
  msg_type h ∈ [SM_MSG_REGISTER; SM_MSG_LOOKUP; SM_MSG_HEARTBEAT; SM_MSG_UNREGISTER].
Proof.
  unfold check_message. destruct (_ || _); [done|]. destruct payload as [q|]; [|done].
  destruct (negb (_ =? msg_length h)); [done|]. destruct (negb (_ =? SM_OK)); [done|].
  destruct (Z.eqb_spec (sm_validate_message_size (msg_length h) (msg_type h)) SM_OK) as [Hs|]; [|done].
  intros _. apply message_size_iff in Hs. rewrite !elem_of_cons in *. naive_solver.
Qed.

Lemma limit_check_rate e nm s :
  sv_rate (limit_check e nm s).2 = (sm_rate_limit_check (e_mono2 e) (e_peer_pid e) (sv_rate s)).2 /\
  sv_key (limit_check e nm s).2 = sv_key s.
Proof.
  unfold limit_check, sm_ratelimit_check_extended.
  destruct (sm_rate_limit_check _ _ _) as [rc r]. destruct (negb _); [done|].
  destruct (is_in_penalty_box _ _ _ _) as [b l]. destruct b; [done|].
  by destruct (charge_service _ _ _ _).
Qed.

Lemma dispatch_rate e type p s :
  type ∈ [SM_MSG_REGISTER; SM_MSG_LOOKUP; SM_MSG_HEARTBEAT; SM_MSG_UNREGISTER] ->
  sv_rate (dispatch e type p s).2 = (sm_rate_limit_check (e_mono2 e) (e_peer_pid e) (sv_rate s)).2 /\
  sv_key (dispatch e type p s).2 = sv_key s.
Proof.
  intros Ht. pose proof (limit_check_rate e (c_string (p ++ e_junk e)) s) as [Hr Hk].
  rewrite !elem_of_cons, elem_of_nil in Ht. unfold dispatch.
  destruct Ht as [->|[->|[->|[->|[]]]]]; cbn [Z.eqb Pos.eqb SM_MSG_REGISTER SM_MSG_LOOKUP
    SM_MSG_HEARTBEAT SM_MSG_UNREGISTER];
    unfold sm_handle_register, sm_handle_lookup, sm_handle_heartbeat, sm_handle_unregister;
    destruct (limit_check e _ s) as [rc s1]; cbn [snd] in Hr, Hk; rewrite <- Hr, <- Hk.
  - destruct (rc <? 0); [done|]. do 3 (destruct (negb _); [done|]).
    by destruct (sm_registry_add _ _ _ _ _).
  - destruct (rc <? 0); [done|]. destruct (negb _); [done|].
    destruct (sm_registry_find_copy _ _ _) as [? [en|]]; [|done]. by case_decide.
  - destruct (rc <? 0); [done|]. destruct (negb _); [done|].
    by destruct (sm_registry_update_heartbeat _ _ _).
  - destruct (rc <? 0); [done|]. destruct (negb _); [done|].
    by destruct (sm_registry_remove_if_owner _ _ _).
Qed.

(** Both checks of one request, at one reading of the clock. *)
Lemma request_charges e m s k : e_timeout_ok e = true -> e_mono1 e = e_mono2 e ->
  acceptable e (sv_key s) m -> 0 <= k <= 8 ->
  sv_rate s = burst_state (e_mono1 e) (e_peer_pid e) k \/
    (k = 0 /\ sv_rate s = sm_rate_limit_init (e_mono1 e)) ->
  let s' := (sm_handle_client e m s).2 in
  sv_rate s' = burst_state (e_mono1 e) (e_peer_pid e) (k + 2) /\ sv_key s' = sv_key s.
Proof.
  intros Ht Hm (h & payload & p & -> & Hc) Hk Hs.
  assert (H1 : sm_rate_limit_check (e_mono1 e) (e_peer_pid e) (sv_rate s)
    = (SM_OK, burst_state (e_mono1 e) (e_peer_pid e) (k + 1))).
  { destruct Hs as [->|[-> ->]]; [apply burst_step; lia|apply burst_first]. }
  assert (Ha : admitted e s) by (split; [done|by rewrite H1]).
  rewrite (handle_admitted _ _ _ p) by done. cbv zeta.
  destruct (after_admission_reg e s) as (_ & Hkey & _ & Hrate).
  destruct (dispatch_rate e (msg_type h) p (after_admission e s)) as [Hr Hk2];
    [by eapply check_message_type|].
  rewrite Hr, Hk2, Hkey, Hrate, H1, <- Hm. cbn [snd]. rewrite burst_step by lia.
  split; [|done]. simpl. f_equal. lia.
Qed.

Definition serve (e : env) (ms : list incoming) (s : server) : server :=
  fold_left (fun s m => (sm_handle_client e m s).2) ms s.

Lemma serve_charges e ms : e_timeout_ok e = true -> e_mono1 e = e_mono2 e -> forall s k,
  Forall (acceptable e (sv_key s)) ms -> 0 <= k -> k + 2 * Z.of_nat (length ms) <= 10 ->
  sv_rate s = burst_state (e_mono1 e) (e_peer_pid e) k \/
    (k = 0 /\ sv_rate s = sm_rate_limit_init (e_mono1 e)) -> ms <> [] ->
  sv_rate (serve e ms s) = burst_state (e_mono1 e) (e_peer_pid e) (k + 2 * Z.of_nat (length ms)).
Proof.
  intros Ht Hm. induction ms as [|m ms IH]; intros s k Hms Hk Hl Hs Hne; [done|].
  apply Forall_cons in Hms as [Hm1 Hms]. cbn [length] in *.
  destruct (request_charges e m s k Ht Hm Hm1 ltac:(lia) Hs) as [Hr Hkey].
  cbn [serve fold_left]. fold (serve e ms (sm_handle_client e m s).2).
  destruct ms as [|m2 ms].
  - simpl. rewrite Hr. f_equal; lia.
  - rewrite (IH _ (k + 2)); [f_equal; lia|by rewrite Hkey|lia|lia|by left|done].
Qed.

(** Every request is charged twice, on admission and again in its handler,
    so at one instant a fresh client gets five requests served, not the ten of
    its burst capacity: the sixth is dropped without a reply. *)
Theorem five_requests_per_burst e s ms m6 : e_timeout_ok e = true -> e_mono1 e = e_mono2 e ->
  sv_rate s = sm_rate_limit_init (e_mono1 e) -> length ms = 5%nat ->
  Forall (acceptable e (sv_key s)) ms ->
  let s5 := serve e ms s in
  (sm_handle_client e m6 s5).1 = NoReply /\ sv_reg (sm_handle_client e m6 s5).2 = sv_reg s5.
Proof.
  intros Ht Hm Hs Hl Hms. cbv zeta.
  assert (Hr : sv_rate (serve e ms s) = burst_state (e_mono1 e) (e_peer_pid e) 10).
  { rewrite (serve_charges e ms Ht Hm s 0 Hms); [by rewrite Hl|lia|lia|by right|by intros ->]. }
  set (s5 := serve e ms s) in *. clearbody s5. unfold sm_handle_client.
  destruct (sm_request_id_generate _ _) as [id ids]. rewrite Ht. cbn [negb].
  change (sv_rate (set_ids s5 _)) with (sv_rate s5). rewrite Hr, burst_refused. done.
Qed.

(** The daemon remembers no nonce: a heartbeat recorded on the wire and sent
    again by any other process while its timestamp is in the window is accepted
    again and refreshes the service. *)
Theorem heartbeat_replayed e s h p nm K :
  sm_crypto_get_key (sv_key s) = Some K -> msg_type h = SM_MSG_HEARTBEAT ->
  check_message e h (Some p) (sv_key s) = inr p -> c_string (p ++ e_junk e) = nm ->
  sm_validate_service_name (Some nm) = SM_OK ->
  forall e' s', sv_key s' = sv_key s -> e_junk e' = e_junk e ->
  e_now e <= e_now e' <= timestamp h + SM_TIMESTAMP_MAX_AGE ->
  0 <= e_now e < 2 ^ 32 - SM_TIMESTAMP_MAX_SKEW -> e_now e' < 2 ^ 32 - SM_TIMESTAMP_MAX_SKEW ->
  admitted e' s' -> within_limits e' nm s' ->
  sv_reg (sm_handle_client e' (Received h (Some p)) s').2 =
    (sm_registry_update_heartbeat (Some nm) (e_t1 e') (sv_reg s')).2.
Proof.
  intros Hk Ht Hc Hnm Hv e' s' Hk' Hj Hnow Hn Hn' Ha Hlim.
  assert (Hc' : check_message e' h (Some p) (sv_key s') = inr p).
  { revert Hc. unfold check_message. rewrite Hk'. repeat (destruct (_ || _) || destruct (negb (_ =? msg_length h)); [done|]).
    destruct (Z.eqb_spec (sm_validate_header (Some h) (sizeof_sm_hdr_t + msg_length h) (e_now e)) SM_OK)
      as [Hh|]; [|done].
    apply header_ok_iff in Hh; [|done].
    assert (Hh' : sm_validate_header (Some h) (sizeof_sm_hdr_t + msg_length h) (e_now e') = SM_OK).
    { apply header_ok_iff; [lia|]. unfold SM_TIMESTAMP_MAX_AGE, SM_TIMESTAMP_MAX_SKEW in *.
      destruct Hh as (? & ? & ? & ? & ? & ? & ?). split_and!; try done; lia. }
    by rewrite Hh', Z.eqb_refl. }
  rewrite (handle_admitted _ _ _ p _ Ha Hc'), Ht, dispatch_heartbeat, Hj, Hnm.
  destruct (after_admission_reg e' s') as (Hreg & _).
  pose proof (limit_check_reg e' nm (after_admission e' s')) as Hlr. unfold within_limits in Hlim.
  unfold sm_handle_heartbeat. destruct (limit_check e' nm _) as [rc s1].
  cbn [fst snd] in Hlim, Hlr. subst rc. rewrite Hv, Hlr, Hreg.
  change (0 <? 0) with false. rewrite Z.eqb_refl. cbn [negb].
  by destruct (sm_registry_update_heartbeat _ _ _).
Qed.

(** ** Witnesses *)

Definition env0 : env :=
  mk_env true 100 0 0 (d_of_Z 9) (d_of_Z 9) 1000 1000 1000 1000 (fun _ => true) None [].
Definition env1 : env :=
  mk_env true 555 0 0 (d_of_Z 9) (d_of_Z 9) 1100 1100 1100 1100 (fun _ => true) None [].
Definition key0 : list Z := replicate 32 1.
Definition server0 : server :=
  mk_server reg1 (sm_rate_limit_init (d_of_Z 9)) sm_ratelimit_init (mk_key key0 true)
    (mk_ids 0 0 None).
Definition hb0 : sm_hdr_t :=
  client_message (Some key0) SM_MSG_HEARTBEAT 1000 100 (Some 42) (name_payload "camera").
Definition msg0 : incoming := Received hb0 (Some (name_payload "camera")).

Lemma reg1_inv : reg_inv reg1.
Proof.
  apply reachable_inv. exists sm_registry_init. split; [done|]. apply rtc_once.
  exists (CAdd (fun _ => true) 5 5 cam). split; [vm_compute; lia|done].
Qed.

Lemma changes_authenticated_witness :
  exists h p, msg0 = Received h (Some p) /\ is_mac key0 h p /\
    sm_validate_header (Some h) (sizeof_sm_hdr_t + msg_length h) 1000 = SM_OK.
Proof.
  apply (changes_authenticated env0 msg0 server0 key0).
  - unfold wire_ok, msg0. rewrite (proj2 (proj2 (proj2 (proj2 (proj2
      (client_message_fields (Some key0) SM_MSG_HEARTBEAT 1000 100 (Some 42) (name_payload "camera"))))))
      key0 eq_refl). split; [apply fips_bytes|]. split; [apply length_fips|vm_compute; discriminate].
  - reflexivity.
  - left. intros H. apply (f_equal (fun r => last_heartbeat (registry r !!! 0%nat))) in H.
    vm_compute in H. discriminate.
Defined.

Lemma client_cannot_evict_witness :
  let en := fresh_entry cam 5 5 in
  let s' := (sm_handle_client env1 msg0 server0).2 in
  (exists en', en' ∈ live (sv_reg s') /\ name en' = name en /\ pid en' = pid en) \/
  pid en = e_peer_pid env1 \/ e_alive env1 (pid en) = false.
Proof.
  apply (client_cannot_evict env1 msg0 server0 (fresh_entry cam 5 5)).
  - apply reg1_inv.
  - vm_compute. left.
Defined.

Definition register_msg : incoming :=
  let p := register_payload "mic" "/run/mic" "/dev/shm/mic" 100 in
  Received (client_message (Some key0) SM_MSG_REGISTER 1000 100 None p) (Some p).

Lemma registered_with_peer_credentials_witness :
  exists en, en ∈ live (sv_reg (sm_handle_client env0 register_msg server0).2) /\ pid en = 100.
Proof.
  set (l := live (sv_reg (sm_handle_client env0 register_msg server0).2)).
  pose (en := l !!! 1%nat). exists en.
  assert (Hin : en ∈ l) by (vm_compute; right; left).
  split; [exact Hin|].
  destruct (registered_with_peer_credentials env0 register_msg server0 en reg1_inv) as [_ H].
  apply H; [exact Hin|]. intros en0 H0. vm_compute in H0.
  apply list_elem_of_singleton in H0. subst en0. vm_compute. discriminate.
Defined.

Lemma clocks_same : clocks_ok 1000 1000.
Proof. unfold clocks_ok, SM_TIMESTAMP_MAX_SKEW, SM_TIMESTAMP_MAX_AGE. lia. Qed.

Lemma admitted0 : admitted env0 server0.
Proof. split; [reflexivity|vm_compute; reflexivity]. Qed.

Lemma unregister_end_to_end_witness :
  let dial type p := (daemon env0 (Some key0) 1000 100 None server0 type p).1 in
  let reg type := sv_reg (daemon env0 (Some key0) 1000 100 None server0 type
                            (name_payload "camera")).2 in
  (sm_unregister (Some dial) (Some "camera"%string), reg SM_MSG_UNREGISTER) =
    sm_registry_remove_if_owner (Some "camera"%string) (e_peer_pid env0) (sv_reg server0) /\
  (sm_heartbeat (Some dial) (Some "camera"%string), reg SM_MSG_HEARTBEAT) =
    sm_registry_update_heartbeat (Some "camera"%string) (e_t1 env0) (sv_reg server0).
Proof.
  apply (unregister_end_to_end env0 server0 (Some key0) 1000 100 None "camera" eq_refl clocks_same
    admitted0); vm_compute; reflexivity.
Defined.

Lemma lookup_end_to_end_witness :
  let dial type p := (daemon env0 (Some key0) 1000 100 None server0 type p).1 in
  sm_lookup (Some dial) (Some "ghost"%string) true =
  match (sm_registry_find_copy (Some "ghost"%string) true (sv_reg server0)).2 with
  | Some en => if decide (status en = SERVICE_RUNNING)
               then (SM_OK, Some (strncpy_z 255 (socket_path en), strncpy_z 255 (ring_name en)))
               else (SM_ERR_INVALID, None)
  | None => (SM_ERR_INVALID, None)
  end /\ (sm_registry_find_copy (Some "ghost"%string) true (sv_reg server0)).2 = None.
Proof.
  split; [|vm_compute; reflexivity].
  apply (lookup_end_to_end env0 server0 (Some key0) 1000 100 None "ghost" eq_refl clocks_same
    admitted0); vm_compute; reflexivity.
Defined.

Lemma msg0_acceptable : acceptable env0 (sv_key server0) msg0.
Proof.
  exists hb0, (Some (name_payload "camera")), (name_payload "camera"). split; [reflexivity|].
  vm_compute. reflexivity.
Qed.

Lemma five_requests_per_burst_witness :
  let s5 := serve env0 [msg0; msg0; msg0; msg0; msg0] server0 in
  (sm_handle_client env0 msg0 s5).1 = NoReply /\ sv_reg (sm_handle_client env0 msg0 s5).2 = sv_reg s5.
Proof.
  apply (five_requests_per_burst env0 server0 [msg0; msg0; msg0; msg0; msg0] msg0);
    [reflexivity..|]. repeat constructor; apply msg0_acceptable.
Defined.

Lemma heartbeat_replayed_witness :
  sv_reg (sm_handle_client env1 (Received hb0 (Some (name_payload "camera"))) server0).2 =
    (sm_registry_update_heartbeat (Some "camera"%string) (e_t1 env1) (sv_reg server0)).2.
Proof.
  apply (heartbeat_replayed env0 server0 hb0 (name_payload "camera") "camera" key0);
    try (vm_compute; reflexivity).
  - vm_compute. split; discriminate.
  - vm_compute. split; [discriminate|reflexivity].
  - split; vm_compute; reflexivity.
Defined.
