(* ===== verification/Dependencies.v ===== *)
(** * The service dependency graph (lifecycle/sm_dependencies.c)

    A table of at most 32 services with the names each depends on, a depth-first
    search for cycles with a depth limit, and the start-up order. *)

From S2P Require Import Prelude.

(** [dev/core/service_manager/lifecycle/sm_dependencies.c:13-14 MAX_SERVICES_TRACKED] *)
Definition MAX_SERVICES_TRACKED : nat := 32.
Definition MAX_RECURSION_DEPTH : nat := 10.
Definition SM_MAX_DEPS : Z := 8.

(** [dev/core/service_manager/lifecycle/sm_dependencies.h:16-20 service_deps_t] the
    first [dep_count] entries of [depends_on]. *)
Record service_deps_t := mk_deps { service_name : string; depends_on : list string }.

#[export] Instance deps_inhabited : Inhabited service_deps_t := populate (mk_deps "" []).

(** [g_deps]: the first [count] entries. *)
Abbreviation deps_table := (list service_deps_t).

(** The first entry with a name. *)
Abbreviation find_service := (index_of service_name).

(** [dev/core/service_manager/lifecycle/sm_dependencies.c:22-55 sm_deps_register] *)
Definition sm_deps_register (nm : option string) (dependencies : list string) (dep_count : Z)
    (g : deps_table) : Z * deps_table :=
  match nm with
  | None => (-1, g)
  | Some nm =>
      if (dep_count <? 0) || (SM_MAX_DEPS <? dep_count) then (-1, g)
      else match find_service nm g with
           | Some _ => (-1, g)
           | None =>
               if Nat.leb MAX_SERVICES_TRACKED (length g) then (-1, g)
               else (0, g ++ [mk_deps (strncpy_z 63 nm)
                                (strncpy_z 63 <$> take (Z.to_nat dep_count) dependencies)])
           end
  end.

(** [dev/core/service_manager/lifecycle/sm_dependencies.c:57-86 sm_deps_check_satisfied] *)
Definition sm_deps_check_satisfied (nm : option string) (g : deps_table) : Z :=
  match nm with
  | None => -1
  | Some nm =>
      match find_service nm g with
      | None => 0
      | Some i =>
          if forallb (fun d => match find_service d g with Some _ => true | None => false end)
               (depends_on (g !!! i))
          then 0 else 1
      end
  end.

(** The two arrays of the search. *)
Abbreviation marks := (list bool).

(** [dev/core/service_manager/lifecycle/sm_dependencies.c:101-115 has_circular_visit,
    the loops over the dependencies] [visit] is the recursive call. *)
Fixpoint visit_deps (visit : string -> marks -> marks -> bool * marks * marks) (g : deps_table)
    (ds : list string) (v r : marks) : bool * marks * marks :=
  match ds with
  | [] => (false, v, r)
  | d :: ds' =>
      match find_service d g with
      | None => visit_deps visit g ds' v r
      | Some k =>
          if negb (v !!! k) then
            let '(c, v', r') := visit (service_name (g !!! k)) v r in
            if c then (true, v', r') else visit_deps visit g ds' v' r'
          else if (r !!! k : bool) then (true, v, r)
          else visit_deps visit g ds' v r
      end
  end.

(** [dev/core/service_manager/lifecycle/sm_dependencies.c:88-121 has_circular_visit]
    [left] levels of recursion remain: [depth = MAX_RECURSION_DEPTH + 1 - left].
    The result comes with the arrays [visited] and [rec_stack]. *)
Fixpoint has_circular_visit (g : deps_table) (left : nat) (nm : string) (visited rec_stack : marks)
    {struct left} : bool * marks * marks :=
  match left with
  | O => (true, visited, rec_stack)
  | S left' =>
      match find_service nm g with
      | None => (false, visited, rec_stack)
      | Some i =>
          let '(c, v, r) := visit_deps (has_circular_visit g left') g (depends_on (g !!! i))
                              (<[i := true]> visited) (<[i := true]> rec_stack) in
          if c then (true, v, r) else (false, v, <[i := false]> r)
      end
  end.

(** [dev/core/service_manager/lifecycle/sm_dependencies.c:130-138
    sm_deps_detect_circular, the loop] *)
Fixpoint detect_from (g : deps_table) (idxs : list nat) (v r : marks) : bool :=
  match idxs with
  | [] => false
  | i :: idxs' =>
      if negb (v !!! i) then
        let '(c, v', r') :=
          has_circular_visit g (S MAX_RECURSION_DEPTH) (service_name (g !!! i)) v r in
        if c then true else detect_from g idxs' v' r'
      else detect_from g idxs' v r
  end.

(** [dev/core/service_manager/lifecycle/sm_dependencies.c:123-142 sm_deps_detect_circular] *)
Definition sm_deps_detect_circular (g : deps_table) : Z :=
  let none := replicate MAX_SERVICES_TRACKED false in
  if detect_from g (seq 0 (length g)) none none then 1 else 0.

(** The state of the topological sort: the output array, the visited marks and
    the number of services ordered. *)
Record order_state := mk_order { services : list string; visited : marks; ordered : nat }.

(** [dev/core/service_manager/lifecycle/sm_dependencies.c:156-168
    sm_deps_get_startup_order, are the dependencies of entry [i] placed?] *)
Definition deps_placed (g : deps_table) (i : nat) (s : order_state) : bool :=
  forallb (fun d => existsb (fun k => (visited s !!! k) && String.eqb (services s !!! k) d) (seq 0 i))
    (depends_on (g !!! i)).

(** [dev/core/service_manager/lifecycle/sm_dependencies.c:153-176
    sm_deps_get_startup_order, one entry] *)
Definition order_entry (g : deps_table) (cap : Z) (s : order_state) (i : nat) : order_state :=
  if (visited s !!! i : bool) then s
  else if deps_placed g i s && (Z.of_nat (ordered s) <? cap)
  then mk_order (<[ordered s := strncpy_z 63 (service_name (g !!! i))]> (services s))
         (<[i := true]> (visited s)) (S (ordered s))
  else s.

(** [dev/core/service_manager/lifecycle/sm_dependencies.c:144-181
    sm_deps_get_startup_order] The output array comes zeroed from the caller;
    [cap] is the value of the count on entry. *)
Definition sm_deps_get_startup_order (g : deps_table) (out : list string) (cap : Z)
    : Z * list string * nat :=
  let round s (_ : nat) := fold_left (order_entry g cap) (seq 0 (length g)) s in
  let s := fold_left round (seq 0 (length g))
             (mk_order out (replicate MAX_SERVICES_TRACKED false) 0) in
  (if Nat.eqb (ordered s) (length g) then 0 else -1, services s, ordered s).

(** [dev/core/service_manager/lifecycle/sm_dependencies.c:189-195 sm_deps_cleanup] *)
Definition sm_deps_cleanup (g : deps_table) : deps_table := [].

(** ** The graph *)

(** Entry [i] names entry [k] among its dependencies. *)
Definition depends (g : deps_table) (i k : nat) : Prop :=
  exists d, d ∈ depends_on (g !!! i) /\ find_service d g = Some k.

(** What registration keeps: distinct, terminated names in a table of 32. *)
Record deps_inv (g : deps_table) : Prop := {
  di_len : (length g <= MAX_SERVICES_TRACKED)%nat;
  di_nodup : NoDup (service_name <$> g);
  di_term : Forall (fun d => (String.length (service_name d) <= 63)%nat) g
}.

Lemma depends_lt g i k : depends g i k -> (k < length g)%nat.
Proof. intros (d & _ & Hf). by apply index_of_Some in Hf as [? _]. Qed.

Lemma register_inv nm ds n g : deps_inv g -> (String.length nm <= 63)%nat ->
  deps_inv (sm_deps_register (Some nm) ds n g).2.
Proof.
  intros Hi Hl. unfold sm_deps_register. destruct (_ || _); [done|].
  destruct (find_service nm g) eqn:Hf; [done|].
  destruct (Nat.leb_spec MAX_SERVICES_TRACKED (length g)); [done|]. destruct Hi as [Hlen Hn Ht].
  rewrite strncpy_z_short by done. constructor; simpl; [len|..].
  - rewrite fmap_app. apply NoDup_app. split; [done|]. apply index_of_None in Hf.
    split; [|apply NoDup_singleton]. set_solver.
  - apply Forall_app. split; [done|]. by constructor.
Qed.

(** ** The cycle search *)

Lemma mark_lookup (v : marks) i j b : (i < length v)%nat ->
  <[i := b]> v !!! j = if decide (i = j) then b else v !!! j.
Proof.
  intros Hi. case_decide as Hij; [subst; by apply list_lookup_total_insert_eq|].
  by apply list_lookup_total_insert_ne.
Qed.

Section search.
Context (g : deps_table).
Implicit Types (v r : marks) (i j k : nat).

(** No infinite chain of dependencies starts at [i]. *)
Definition grounded i : Prop := Acc (fun k i => depends g i k) i.

Definition le_marks v v' : Prop := forall j, v !!! j = true -> v' !!! j = true.

(** The search arrays: everything visited and not in progress is grounded. *)
Record search_inv v r : Prop := {
  si_v : (length g <= length v)%nat;
  si_r : length r = length v;
  si_sub : forall j, r !!! j = true -> v !!! j = true;
  si_done : forall j, v !!! j = true -> r !!! j = false -> grounded j
}.

(** A search that reports no cycle restores [rec_stack] and grounds what it
    visits. *)
Definition visit_ok (left : nat) : Prop := forall i v r v' r',
  (i < length g)%nat -> v !!! i = false -> search_inv v r ->
  find_service (service_name (g !!! i)) g = Some i ->
  has_circular_visit g left (service_name (g !!! i)) v r = (false, v', r') ->
  r' = r /\ le_marks v v' /\ v' !!! i = true /\ search_inv v' r.

Lemma find_own d k : find_service d g = Some k ->
  find_service (service_name (g !!! k)) g = Some k.
Proof. intros Hf. pose proof (index_of_Some service_name _ _ _ Hf) as (_ & -> & _). done. Qed.

Lemma visit_deps_ok left : visit_ok left -> forall ds v r v' r', search_inv v r ->
  visit_deps (has_circular_visit g left) g ds v r = (false, v', r') ->
  r' = r /\ le_marks v v' /\ search_inv v' r /\
  (forall d k, d ∈ ds -> find_service d g = Some k -> v' !!! k = true /\ r !!! k = false).
Proof.
  intros Hok. induction ds as [|d ds IH]; intros v r v' r' Hi Hv; simpl in Hv.
  { simplify_eq. split_and!; [done|by intros j|done|]. intros d k Hd. by apply elem_of_nil in Hd. }
  destruct (find_service d g) as [k|] eqn:Hf.
  2:{ apply IH in Hv as (? & ? & ? & Hd); [|done]. split_and!; try done.
      intros d' k' [->|]%elem_of_cons; [congruence|]. by apply Hd. }
  pose proof (index_of_Some service_name _ _ _ Hf) as (Hk & _).
  destruct (v !!! k) eqn:Hvk; cbn [negb] in Hv.
  - destruct (r !!! k) eqn:Hrk; [done|]. apply IH in Hv as (-> & Hle & ? & Hd); [|done].
    split_and!; try done. intros d' k' [->|]%elem_of_cons Hf'; [|by eapply Hd].
    rewrite Hf in Hf'. simplify_eq. split; [by apply Hle|done].
  - destruct (has_circular_visit g left _ v r) as [[c v1] r1] eqn:Hc. destruct c; [done|].
    apply Hok in Hc as (-> & Hle1 & Hk1 & Hi1); [|done|done|done|by eapply find_own].
    apply IH in Hv as (-> & Hle & ? & Hd); [|done].
    split_and!; try done. { intros j Hj. by apply Hle, Hle1. }
    intros d' k' [->|]%elem_of_cons Hf'; [|by eapply Hd].
    rewrite Hf in Hf'. simplify_eq. split; [by apply Hle|].
    destruct (r !!! k') eqn:Hrk; [|done]. apply (si_sub _ _ Hi) in Hrk. congruence.
Qed.

Lemma search_enter v r i : (i < length g)%nat -> search_inv v r ->
  search_inv (<[i:=true]> v) (<[i:=true]> r).
Proof.
  intros Hl [Hv Hr Hs Hd]. constructor.
  - by rewrite length_insert.
  - by rewrite !length_insert.
  - intros j. rewrite (mark_lookup v), (mark_lookup r) by lia. case_decide; [done|apply Hs].
  - intros j. rewrite (mark_lookup v), (mark_lookup r) by lia. case_decide; [done|apply Hd].
Qed.

Lemma search_leave v r i : (i < length g)%nat -> search_inv v (<[i:=true]> r) ->
  r !!! i = false -> v !!! i = true -> grounded i -> search_inv v r.
Proof.
  intros Hl [Hv Hr Hs Hd] Hri Hvi Hgi. rewrite length_insert in Hr.
  constructor; [done|done|..]; intros j; specialize (Hs j); specialize (Hd j);
    rewrite (mark_lookup r) in Hs, Hd by lia; case_decide; subst; [congruence|done|done|done].
Qed.

Lemma visit_all_ok left : visit_ok left.
Proof.
  induction left as [|left IH]; intros i v r v' r' Hl Hvi Hi Hf Hv; [done|].
  simpl in Hv. rewrite Hf in Hv. pose proof (si_v _ _ Hi). pose proof (si_r _ _ Hi).
  assert (Hri : r !!! i = false)
    by (destruct (r !!! i) eqn:E; [apply (si_sub _ _ Hi) in E; congruence|done]).
  destruct (visit_deps _ g _ _ _) as [[c v1] r1] eqn:Hc. destruct c; [done|].
  simplify_eq. apply (visit_deps_ok left IH) in Hc as (-> & Hle & Hi2 & Hd);
    [|by apply search_enter].
  assert (Hle' : forall j, v !!! j = true \/ j = i -> v' !!! j = true).
  { intros j Hj. apply Hle. rewrite (mark_lookup v) by lia. case_decide; [done|naive_solver]. }
  assert (Hgi : grounded i).
  { constructor. intros k (d & Hd1 & Hd2). destruct (Hd d k Hd1 Hd2) as [Hk1 Hk2].
    by apply (si_done _ _ Hi2). }
  split_and!.
  - rewrite list_insert_insert_eq. apply list_insert_id. rewrite <- Hri.
    apply list_lookup_lookup_total_lt. lia.
  - intros j Hj. apply Hle'. by left.
  - apply Hle'. by right.
  - apply (search_leave _ _ i); try done. apply Hle'. by right.
Qed.

(** A search that gives up has found a cycle or a chain of dependencies longer
    than its depth limit. *)
Definition cyclic : Prop := exists i, tc (depends g) i i.
Definition deep (n root : nat) : Prop := exists i, nsteps (depends g) n root i.

Definition visit_bad (left : nat) : Prop := forall n root i v r v' r',
  (i < length g)%nat -> v !!! i = false -> search_inv v r ->
  find_service (service_name (g !!! i)) g = Some i ->
  (forall j, (j < length g)%nat -> r !!! j = true -> rtc (depends g) j i) -> nsteps (depends g) n root i ->
  has_circular_visit g left (service_name (g !!! i)) v r = (true, v', r') ->
  cyclic \/ deep (n + left) root.

Lemma visit_deps_bad left : visit_bad left -> forall n root i ds v r v' r',
  (forall d, d ∈ ds -> d ∈ depends_on (g !!! i)) -> search_inv v r ->
  (forall j, (j < length g)%nat -> r !!! j = true -> rtc (depends g) j i) -> nsteps (depends g) n root i ->
  visit_deps (has_circular_visit g left) g ds v r = (true, v', r') ->
  cyclic \/ deep (n + S left) root.
Proof.
  intros Hbad n root i. induction ds as [|d ds IH]; intros v r v' r' Hds Hi Hr Hn Hv; [done|].
  simpl in Hv. assert (Hds' : forall d, d ∈ ds -> d ∈ depends_on (g !!! i)) by set_solver.
  destruct (find_service d g) as [k|] eqn:Hf; [|by eapply IH].
  pose proof (index_of_Some service_name _ _ _ Hf) as (Hk & _).
  assert (Hik : depends g i k) by (exists d; split; [set_solver|done]).
  destruct (v !!! k) eqn:Hvk; cbn [negb] in Hv.
  - destruct (r !!! k) eqn:Hrk; [|by eapply IH]. left. exists k.
    eapply tc_rtc_l; [by apply Hr|]. by apply tc_once.
  - destruct (has_circular_visit g left _ v r) as [[c v1] r1] eqn:Hc. destruct c.
    + replace (n + S left)%nat with (S n + left)%nat by lia. eapply Hbad in Hc; try done.
      * by eapply find_own.
      * intros j Hjl Hj. eapply rtc_r; [by apply Hr|done].
      * by eapply nsteps_r.
    + apply visit_all_ok in Hc as (-> & _ & _ & Hi1); [|done|done|done|by eapply find_own].
      by eapply IH.
Qed.

Lemma visit_all_bad left : visit_bad left.
Proof.
  induction left as [|left IH]; intros n root i v r v' r' Hl Hvi Hi Hf Hr Hn Hv.
  { right. exists i. by rewrite Nat.add_0_r. }
  simpl in Hv. rewrite Hf in Hv.
  destruct (visit_deps _ g _ _ _) as [[c v1] r1] eqn:Hc. destruct c; [|done].
  eapply (visit_deps_bad left IH n root i); [intros d Hd; exact Hd| | |exact Hn|exact Hc].
  - by apply search_enter.
  - pose proof (si_v _ _ Hi). pose proof (si_r _ _ Hi).
    intros j. rewrite (mark_lookup r) by lia. case_decide; [by subst|apply Hr].
Qed.

Lemma no_marks n j : (j < n)%nat -> replicate n false !!! j = false.
Proof. intros. by apply lookup_total_replicate_2. Qed.

Lemma search_init n : (length g <= n)%nat ->
  search_inv (replicate n false) (replicate (length (replicate n false)) false).
Proof.
  intros Hn. rewrite length_replicate. constructor; rewrite ?length_replicate; [done|done|..].
  - done.
  - intros j Hj. by rewrite Hj.
Qed.

Lemma detect_from_ok idxs v : (forall i, i ∈ idxs -> (i < length g)%nat) ->
  NoDup (service_name <$> g) -> search_inv v (replicate (length v) false) ->
  if detect_from g idxs v (replicate (length v) false)
  then cyclic \/ exists root, deep (S MAX_RECURSION_DEPTH) root
  else forall i, i ∈ idxs -> grounded i.
Proof.
  intros Hin Hn. revert v. induction idxs as [|i idxs IH]; intros v Hi.
  { simpl. intros i Hd. by apply elem_of_nil in Hd. }
  assert (Hil : (i < length g)%nat) by (apply Hin; left).
  assert (Hin' : forall i, i ∈ idxs -> (i < length g)%nat) by set_solver.
  pose proof (index_of_key service_name g i Hn Hil) as Hf. cbn [detect_from].
  destruct (v !!! i) eqn:Hvi; cbn [negb].
  - specialize (IH Hin' v Hi). destruct (detect_from g idxs v _); [done|].
    intros j [->|Hj]%elem_of_cons; [|by apply IH].
    pose proof (si_v _ _ Hi). apply (si_done _ _ Hi); [done|]. apply no_marks. lia.
  - destruct (has_circular_visit g _ _ v _) as [[c v1] r1] eqn:Hc. destruct c.
    + eapply (visit_all_bad _ 0%nat i i) in Hc; [..|constructor]; try done.
      * destruct Hc as [?|?]; [by left|right; by exists i].
      * intros j Hj. pose proof (si_v _ _ Hi). by rewrite no_marks by lia.

    + apply visit_all_ok in Hc as (-> & _ & Hv1 & Hi1); [|done..].
      pose proof (si_r _ _ Hi1) as Hl. rewrite length_replicate in Hl. rewrite Hl in Hi1 |- *.
      specialize (IH Hin' v1 Hi1). destruct (detect_from g idxs v1 _); [done|].
      intros j [->|Hj]%elem_of_cons; [|by apply IH]. apply (si_done _ _ Hi1); [done|].
      pose proof (si_v _ _ Hi1). apply no_marks. lia.
Qed.

Lemma grounded_acyclic : (forall i, (i < length g)%nat -> grounded i) -> ~ cyclic.
Proof.
  intros Hg (i & Hc). assert (Hi : (i < length g)%nat).
  { clear Hg. assert (Hl : forall a b, tc (depends g) a b -> (b < length g)%nat); [|by eapply Hl].
    induction 1; eauto using depends_lt. }
  specialize (Hg i Hi). revert Hc. induction Hg as [i _ IH]. intros Hc.
  inversion Hc as [? ? H|? k ? H1 H2]; subst.
  - eapply IH; [exact H|done|by apply tc_once].
  - eapply (IH k); [exact H1|by eapply depends_lt|].
    eapply tc_r; [exact H2|exact H1].
Qed.
End search.

(** When the search reports no cycle the graph has none; when it reports one
    there is a cycle, or a chain of more dependencies than the recursion limit
    follows. *)
Theorem detect_circular_correct g : deps_inv g ->
  (sm_deps_detect_circular g = 0 /\ ~ (exists i, tc (depends g) i i)) \/
  (sm_deps_detect_circular g = 1 /\
   ((exists i, tc (depends g) i i) \/
    exists i k, nsteps (depends g) (S MAX_RECURSION_DEPTH) i k)).
Proof.
  intros Hi. unfold sm_deps_detect_circular. cbv zeta.
  pose proof (search_init g MAX_SERVICES_TRACKED (di_len _ Hi)) as Hs.
  eapply (detect_from_ok g (seq 0 (length g))) in Hs; [|intros i ?%elem_of_seq; lia|apply Hi].
  rewrite length_replicate in Hs. destruct (detect_from g _ _ _).
  - right. split; [done|]. destruct Hs as [?|(i & k & ?)]; [by left|right; by exists i, k].
  - left. split; [done|]. apply (grounded_acyclic g). intros i Hl. apply Hs.
    apply elem_of_seq. lia.
Qed.

(** ** The start-up order *)

(** Entry [i] depends only on entries registered before it. *)
Definition in_order (g : deps_table) (i : nat) : bool :=
  forallb (fun d => existsb (fun k => String.eqb (service_name (g !!! k)) d) (seq 0 i))
    (depends_on (g !!! i)).

Lemma in_order_spec g i : in_order g i = true <->
  forall d, d ∈ depends_on (g !!! i) -> exists k, (k < i)%nat /\ service_name (g !!! k) = d.
Proof.
  unfold in_order. rewrite forallb_forall. split.
  - intros H d Hd%list_elem_of_In. apply H in Hd. apply existsb_exists in Hd as (k & Hk & Heq).
    apply in_seq in Hk. apply String.eqb_eq in Heq. exists k. split; [lia|done].
  - intros H d Hd. apply list_elem_of_In in Hd. apply H in Hd as (k & Hk & Heq).
    apply existsb_exists. exists k. split; [apply in_seq; lia|by apply String.eqb_eq].
Qed.

Section order.
Context (g : deps_table) (cap : Z) (out : list string).
Hypothesis (Hg : deps_inv g) (Hout : (length g <= length out)%nat).
Implicit Types (s : order_state) (i k m : nat).

(** What every step of the sort keeps once the first [m] entries are placed. *)
Record placed m s : Prop := {
  pl_out : (length g <= length (services s))%nat;
  pl_vis : (length g <= length (visited s))%nat;
  pl_count : ordered s = count_true (fun i => visited s !!! i) (length g);
  pl_le : (m <= ordered s)%nat;
  pl_slots : forall k, (k < m)%nat -> services s !!! k = service_name (g !!! k);
  pl_marks : forall k, (k < m)%nat -> visited s !!! k = true
}.

Lemma deps_placed_prefix m s : placed m s -> deps_placed g m s = in_order g m.
Proof.
  intros Hp. unfold deps_placed, in_order. apply forallb_ext_in. intros d _.
  apply existsb_ext_in. intros k Hk%elem_of_seq.
  rewrite (pl_slots _ _ Hp), (pl_marks _ _ Hp) by lia. done.
Qed.

Lemma stored_name i : (i < length g)%nat ->
  strncpy_z 63 (service_name (g !!! i)) = service_name (g !!! i).
Proof.
  intros Hi. apply strncpy_z_short. pose proof (di_term _ Hg) as Ht.
  rewrite Forall_lookup in Ht. apply (Ht i). by apply list_lookup_lookup_total_lt.
Qed.

Lemma place_entry m s i : placed m s -> (i < length g)%nat -> visited s !!! i = false ->
  placed m (mk_order (<[ordered s := strncpy_z 63 (service_name (g !!! i))]> (services s))
              (<[i := true]> (visited s)) (S (ordered s))).
Proof.
  intros [Ho Hv Hc Hle Hs Hm] Hi Hvi. constructor; simpl.
  - by rewrite length_insert.
  - by rewrite length_insert.
  - rewrite Hc. symmetry. apply (count_true_flip _ _ _ i); [done|done|..].
    + rewrite mark_lookup by lia. by rewrite decide_True.
    + intros j Hj. rewrite mark_lookup by lia. by rewrite decide_False.
  - lia.
  - intros k Hk. rewrite list_lookup_total_insert_ne by lia. by apply Hs.
  - intros k Hk. rewrite mark_lookup by lia. case_decide; [done|by apply Hm].
Qed.

Lemma order_entry_placed m s i : placed m s -> (i < length g)%nat ->
  placed m (order_entry g cap s i).
Proof.
  intros Hp Hi. unfold order_entry. destruct (visited s !!! i) eqn:Hvi; [done|].
  destruct (_ && _); [by apply place_entry|done].
Qed.

(** An entry that is blocked when its turn comes first stays blocked. *)
Definition blocked m : Prop := in_order g m = false \/ cap <= Z.of_nat m.

Lemma order_entry_blocked m s i : blocked m -> placed m s -> (i < length g)%nat ->
  visited s !!! m = false -> visited (order_entry g cap s i) !!! m = false.
Proof.
  intros Hb Hp Hi Hv. unfold order_entry. destruct (visited s !!! i) eqn:Hvi; [done|].
  destruct (_ && _) eqn:Ht; [|done]. simpl. rewrite mark_lookup by (pose proof (pl_vis _ _ Hp); lia).
  case_decide; [|done]. subst. exfalso. apply andb_true_iff in Ht as [Ht1 Ht2].
  apply Z.ltb_lt in Ht2. pose proof (pl_le _ _ Hp).
  rewrite (deps_placed_prefix m) in Ht1 by done. destruct Hb as [Hb|Hb]; [congruence|lia].
Qed.

Definition stuck m s : Prop := placed m s /\ visited s !!! m = false.

Lemma order_loop_stuck m s idxs : blocked m -> stuck m s ->
  (forall i, i ∈ idxs -> (i < length g)%nat) -> stuck m (fold_left (order_entry g cap) idxs s).
Proof.
  intros Hb. revert s. induction idxs as [|i idxs IH]; intros s [Hp Hv] Hin; [done|]. simpl.
  apply IH; [|set_solver]. assert ((i < length g)%nat) by (apply Hin; left).
  split; [by apply order_entry_placed|by apply order_entry_blocked].
Qed.

(** While nothing is blocked the first round places the entries in turn. *)
Definition start : order_state := mk_order out (replicate MAX_SERVICES_TRACKED false) 0.

Lemma first_round m : (m <= length g)%nat ->
  (forall i, (i < m)%nat -> ~ blocked i) ->
  let s := fold_left (order_entry g cap) (seq 0 m) start in
  placed m s /\ ordered s = m /\ (forall i, (m <= i)%nat -> (i < length g)%nat -> visited s !!! i = false).
Proof.
  pose proof (di_len _ Hg) as Hlen. induction m as [|m IH]; intros Hm Hnb; cbv zeta.
  { simpl. assert (Hno : forall i, (i < length g)%nat -> visited start !!! i = false)
      by (intros; apply no_marks; lia).
    split_and!; [|done|intros; by apply Hno].
    constructor; cbn [start services visited ordered]; try lia.
    - by rewrite length_replicate.
    - symmetry. by apply count_true_none. }
  destruct IH as (Hp & Ho & Hv); [lia|intros; apply Hnb; lia|].
  rewrite seq_S, fold_left_app. simpl. set (s := fold_left _ _ _) in *. clearbody s.
  assert (Hvm : visited s !!! m = false) by (apply Hv; lia).
  assert (Hnm : in_order g m = true /\ Z.of_nat m < cap).
  { specialize (Hnb m ltac:(lia)). split.
    - destruct (in_order g m) eqn:E; [done|]. destruct Hnb. by left.
    - destruct (Z.ltb_spec (Z.of_nat m) cap); [done|]. destruct Hnb. by right. }
  destruct Hnm as [Hio Hcap]. unfold order_entry. rewrite Hvm, deps_placed_prefix, Hio, Ho by done.
  destruct (Z.ltb_spec (Z.of_nat m) cap); [|lia]. cbn [andb].
  pose proof (pl_out _ _ Hp) as Hpo. pose proof (pl_vis _ _ Hp) as Hpv.
  pose proof (place_entry m s m Hp ltac:(lia) Hvm) as [H1 H2 H3 H4 H5 H6]. rewrite Ho in *.
  split_and!; [|done|].
  - constructor; cbn [services visited ordered] in *; [exact H1|exact H2|exact H3|lia|..].
    + intros k Hk. destruct (decide (k = m)) as [->|]; [|apply H5; lia].
      rewrite list_lookup_total_insert_eq by lia. apply stored_name. lia.
    + intros k Hk. destruct (decide (k = m)) as [->|]; [|apply H6; lia].
      rewrite mark_lookup by lia. by rewrite decide_True.
  - intros i Hi1 Hi2. simpl. rewrite mark_lookup by lia. rewrite decide_False by lia. apply Hv; lia.
Qed.

#[local] Instance blocked_dec m : Decision (blocked m).
Proof. unfold blocked. apply _. Defined.

Lemma first_blocked n :
  (forall i, (i < n)%nat -> ~ blocked i) \/
  exists m, (m < n)%nat /\ blocked m /\ forall i, (i < m)%nat -> ~ blocked i.
Proof.
  induction n as [|n [IH|(m & Hm & Hb & Hn)]]; [left; lia|..].
  - destruct (decide (blocked n)) as [Hb|Hb].
    + right. exists n. split_and!; [lia|done|done].
    + left. intros i Hi. destruct (decide (i = n)) as [->|]; [done|]. apply IH. lia.
  - right. exists m. split_and!; [lia|done|done].
Qed.

Definition sort_round s (_ : nat) : order_state := fold_left (order_entry g cap) (seq 0 (length g)) s.

Lemma round_done s r : placed (length g) s -> sort_round s r = s.
Proof.
  intros Hp. unfold sort_round. assert (Hin : forall i, i ∈ seq 0 (length g) -> (i < length g)%nat)
    by (intros i ?%elem_of_seq; lia). revert Hin. generalize (seq 0 (length g)).
  intros l. induction l as [|i l IH]; intros Hin; [done|]. simpl.
  unfold order_entry at 2. rewrite (pl_marks _ _ Hp) by (apply Hin; left). apply IH. set_solver.
Qed.

Lemma rounds_stuck m s rs : blocked m -> stuck m s -> stuck m (fold_left sort_round rs s).
Proof.
  intros Hb. revert s. induction rs as [|r rs IH]; intros s Hs; [done|]. simpl. apply IH.
  apply order_loop_stuck; [done|done|]. intros i ?%elem_of_seq. lia.
Qed.

Lemma stuck_fails m s : (m < length g)%nat -> stuck m s -> ordered s <> length g.
Proof.
  intros Hm [Hp Hv] He. rewrite (pl_count _ _ Hp) in He.
  apply count_true_full with (i := m) in He; [|done]. congruence.
Qed.

Lemma sort_outcome :
  let s := fold_left sort_round (seq 0 (length g)) start in
  ((forall i, (i < length g)%nat -> ~ blocked i) /\ placed (length g) s /\ ordered s = length g) \/
  ((exists i, (i < length g)%nat /\ blocked i) /\ ordered s <> length g).
Proof.
  cbv zeta. destruct (first_blocked (length g)) as [Hn|(m & Hm & Hb & Hn)].
  - left. split; [done|]. destruct (first_round (length g) ltac:(lia) Hn) as (Hp & Ho & _).
    destruct (decide (length g = 0%nat)) as [Hl|Hl]; [by rewrite Hl in *|].
    replace (seq 0 (length g)) with (0%nat :: seq 1 (length g - 1))
      by (destruct (length g); [lia|]; simpl; by rewrite Nat.sub_0_r).
    cbn [fold_left]. change (sort_round start 0)
      with (fold_left (order_entry g cap) (seq 0 (length g)) start).
    set (s := fold_left (order_entry g cap) _ _) in *. clearbody s.
    assert (Hfix : forall rs, fold_left sort_round rs s = s)
      by (induction rs as [|r rs IH]; [done|]; simpl; by rewrite round_done).
    by rewrite Hfix.
  - right. split; [by exists m|]. apply (stuck_fails m); [done|].
    destruct (first_round m ltac:(lia) Hn) as (Hp & _ & Hv).
    replace (seq 0 (length g)) with (0%nat :: seq 1 (length g - 1))
      by (destruct (length g); [lia|]; simpl; by rewrite Nat.sub_0_r).
    cbn [fold_left]. apply rounds_stuck; [done|]. unfold sort_round.
    replace (seq 0 (length g)) with (seq 0 m ++ seq m (length g - m))
      by (rewrite <- seq_app; f_equal; lia).
    rewrite fold_left_app. apply order_loop_stuck; [done|split; [done|by apply Hv]|].
    intros i ?%elem_of_seq. lia.
Qed.
End order.

Lemma not_blocked_iff g cap :
  (forall i, (i < length g)%nat -> ~ blocked g cap i) <->
  (forall i d, (i < length g)%nat -> d ∈ depends_on (g !!! i) ->
     exists k, (k < i)%nat /\ service_name (g !!! k) = d) /\ Z.of_nat (length g) <= Z.max 0 cap.
Proof.
  unfold blocked. split.
  - intros H. split.
    + intros i d Hi. apply in_order_spec. specialize (H i Hi). destruct (in_order g i); naive_solver.
    + destruct (length g) as [|n]; [lia|]. specialize (H n ltac:(lia)).
      destruct (Z.leb_spec cap (Z.of_nat n)); [naive_solver|lia].
  - intros [H Hc] i Hi [Hb|Hb]; [|lia].
    assert (in_order g i = true) by (apply in_order_spec; intros; by apply H). congruence.
Qed.

Lemma startup_order_spec g cap out : deps_inv g -> (length g <= length out)%nat ->
  let '(rc, out', k) := sm_deps_get_startup_order g out cap in
  (rc = 0 <->
     (forall i d, (i < length g)%nat -> d ∈ depends_on (g !!! i) ->
        exists k, (k < i)%nat /\ service_name (g !!! k) = d) /\
     Z.of_nat (length g) <= Z.max 0 cap) /\
  (rc = 0 -> take k out' = service_name <$> g) /\ (rc <> 0 -> rc = -1).
Proof.
  intros Hg Hout. unfold sm_deps_get_startup_order. cbv zeta.
  pose proof (sort_outcome g cap out Hg Hout) as H. cbv zeta in H.
  unfold sort_round, start in H. set (s := fold_left _ _ _) in *. clearbody s.
  rewrite <- not_blocked_iff. destruct H as [(Hn & Hp & Ho)|((i & Hi & Hb) & Ho)].
  - rewrite Ho, Nat.eqb_refl. split_and!; [done| |done]. intros _.
    pose proof (pl_out _ _ _ Hp). apply list_eq. intros i. rewrite list_lookup_fmap.
    destruct (decide (i < length g)%nat).
    + rewrite lookup_take_lt by lia. rewrite !list_lookup_lookup_total_lt by lia. simpl.
      by rewrite (pl_slots _ _ _ Hp).
    + rewrite lookup_take_ge by lia. by rewrite lookup_ge_None_2 by lia.
  - apply Nat.eqb_neq in Ho as ->. split_and!; [|done|done].
    split; [done|]. intros H. by destruct (H i Hi).
Qed.

(** The start-up order is found exactly when every service was registered
    after all its dependencies and the count passed in is large enough; it is
    then the order of registration.  Any other acyclic graph is refused: the
    sort never reorders anything. *)
Theorem startup_order_exact g cap out : deps_inv g -> (length g <= length out)%nat ->
  let '(rc, out', k) := sm_deps_get_startup_order g out cap in
  (rc = 0 <->
     (forall i d, (i < length g)%nat -> d ∈ depends_on (g !!! i) ->
        exists k, (k < i)%nat /\ service_name (g !!! k) = d) /\
     Z.of_nat (length g) <= Z.max 0 cap) /\
  (rc = 0 -> take k out' = service_name <$> g) /\ (rc <> 0 -> rc = -1).
Proof. apply startup_order_spec. Qed.

(** ** Witnesses *)

Definition net_db_app : deps_table :=
  [mk_deps "net" []; mk_deps "db" ["net"]; mk_deps "app" ["db"; "net"]]%string.
Definition app_first : deps_table :=
  [mk_deps "app" ["db"; "net"]; mk_deps "net" []; mk_deps "db" ["net"]]%string.

Lemma net_db_app_inv : deps_inv net_db_app.
Proof.
  constructor; [vm_compute; lia| |by vm_compute; repeat constructor].
  apply (bool_decide_unpack _). by vm_compute.
Qed.

Lemma app_first_inv : deps_inv app_first.
Proof.
  constructor; [vm_compute; lia| |by vm_compute; repeat constructor].
  apply (bool_decide_unpack _). by vm_compute.
Qed.

Lemma detect_circular_correct_witness :
  ~ exists i, tc (depends app_first) i i.
Proof.
  destruct (detect_circular_correct app_first app_first_inv) as [[_ H]|[H _]]; [exact H|].
  vm_compute in H. discriminate H.
Defined.

(** The same three services, registered in two orders. *)
Lemma startup_order_exact_witness :
  (sm_deps_get_startup_order app_first (replicate 32 ""%string) 32).1.1 = -1 /\
  take 3 (sm_deps_get_startup_order net_db_app (replicate 32 ""%string) 32).1.2 =
    ["net"; "db"; "app"]%string.
Proof.
  pose proof (startup_order_exact app_first 32 (replicate 32 ""%string) app_first_inv) as H1.
  pose proof (startup_order_exact net_db_app 32 (replicate 32 ""%string) net_db_app_inv) as H2.
  split; [apply H1; vm_compute; [lia|discriminate]|].
  apply H2; [vm_compute; lia|reflexivity].
Defined.

(** A chain of twelve services, each depending on the next, has no cycle but is
    deeper than the limit and is reported as circular. *)
Definition chain (n : nat) : deps_table :=
  (fun i => mk_deps (String (ascii_of_nat (97 + i)) "")
              (if Nat.eqb (S i) n then [] else [String (ascii_of_nat (98 + i)) ""])) <$> seq 0 n.

Example long_chain : sm_deps_detect_circular (chain 11) = 0 /\ sm_deps_detect_circular (chain 12) = 1.
Proof. by vm_compute. Qed.
