(* ===== verification/Health.v ===== *)
(** * Health monitoring (observability/sm_health.c, lifecycle/sm_service_tier.c,
    observability/sm_health_callbacks.c)

    The periodic pass that turns silent services into crashed ones and sends
    them signals, the restart delays of the service tiers, and the table of
    custom health callbacks. *)

From S2P Require Import Prelude Registry.

(** ** Service tiers *)

(** [dev/core/service_manager/lifecycle/sm_service_tier.c:9-18
    sm_tier_get_restart_priority] *)
Definition sm_tier_get_restart_priority (t : service_tier_t) : Z :=
  match t with
  | SVC_TIER_CRITICAL => 0 | SVC_TIER_HIGH => 1 | SVC_TIER_NORMAL => 2 | SVC_TIER_LOW => 3
  end.

(** [dev/core/service_manager/lifecycle/sm_service_tier.c:41-45 sm_tier_get_backoff_ms,
    the loop] *)
Fixpoint double_backoff (n : nat) (backoff : Z) : Z :=
  match n with
  | O => backoff
  | S n' => let b := backoff * 2 in double_backoff n' (if 120000 <? b then 120000 else b)
  end.

(** [dev/core/service_manager/lifecycle/sm_service_tier.c:20-48 sm_tier_get_backoff_ms] *)
Definition sm_tier_get_backoff_ms (t : service_tier_t) (restart_count : Z) : Z :=
  let exponential base := double_backoff (Z.to_nat (restart_count - 1)) base in
  match t with
  | SVC_TIER_CRITICAL => 100
  | SVC_TIER_HIGH => exponential 500
  | SVC_TIER_NORMAL => exponential 2000
  | SVC_TIER_LOW => exponential 5000
  end.

(** [dev/core/service_manager/lifecycle/sm_service_tier.c:50-64 sm_tier_get_restart_delay] *)
Definition sm_tier_get_restart_delay (t : service_tier_t) (attempt : Z) : Z :=
  let max_attempts :=
    match t with
    | SVC_TIER_CRITICAL => 10 | SVC_TIER_HIGH => 5 | SVC_TIER_NORMAL => 3 | SVC_TIER_LOW => 1
    end in
  if max_attempts <=? attempt then -1 else sm_tier_get_backoff_ms t attempt.

(** ** The health check *)

(** [dev/core/service_manager/observability/sm_health.h:10-12 SM_HEALTH_CHECK_INTERVAL] *)
Definition SM_HEALTH_CHECK_INTERVAL : Z := 3.
Definition SM_HEALTH_RESTART_DELAY : Z := 2.
Definition SM_HEALTH_MAX_RESTARTS : Z := 3.
Definition SM_HEARTBEAT_TIMEOUT : Z := 10.

Inductive signal := SIGTERM | SIGKILL.

(** [dev/core/service_manager/observability/sm_health.c:57-79 sm_health_check, the
    backoff] *)
Definition restart_backoff (restart_count : Z) : Z :=
  let tier_delay := sm_tier_get_restart_delay SVC_TIER_NORMAL restart_count in
  let backoff := if 0 <? tier_delay then c_quot tier_delay 1000 else SM_HEALTH_RESTART_DELAY in
  if backoff <=? 0 then
    if 1 <? restart_count then
      let shift := if 6 <? restart_count - 1 then 6 else restart_count - 1 in
      let b := SM_HEALTH_RESTART_DELAY * Z.shiftl 1 shift in
      if 120 <? b then 120 else b
    else SM_HEALTH_RESTART_DELAY
  else backoff.

(** [dev/core/service_manager/observability/sm_health.c:97-112 sm_health_check, the
    signals] [alive]: the process still answers 100 ms later. *)
Definition stop_process (alive : Z -> bool) (p : Z) : list (Z * signal) :=
  if 1 <? p then (p, SIGTERM) :: if alive p then [(p, SIGKILL)] else [] else [].

(** [dev/core/service_manager/observability/sm_health.c:34-122 sm_health_check, one
    service] [e] comes from the snapshot, [t] is the clock that
    [sm_registry_update_status] reads. *)
Definition health_service (alive : Z -> bool) (now t : Z) (e : service_entry_t) (s : registry_state)
    : registry_state * list (Z * signal) :=
  if decide (status e = SERVICE_DEAD) then (s, [])
  else
    let timed_out := bool_decide (status e = SERVICE_RUNNING) &&
                     (SM_HEARTBEAT_TIMEOUT <? now - last_heartbeat e) in
    let s1 := if timed_out
              then (sm_registry_update_status (Some (name e)) SERVICE_CRASHED t s).2 else s in
    if timed_out || bool_decide (status e = SERVICE_CRASHED) then
      if SM_HEALTH_MAX_RESTARTS <=? restart_count e
      then ((sm_registry_update_status (Some (name e)) SERVICE_DEAD t s1).2, [])
      else if restart_backoff (restart_count e) <=? now - last_crash_time e
           then (s1, stop_process alive (pid e))
           else (s1, [])
    else (s1, []).

Fixpoint health_loop (alive : Z -> bool) (now : Z) (clk : nat -> Z) (i : nat)
    (l : list service_entry_t) (s : registry_state) : registry_state * list (Z * signal) :=
  match l with
  | [] => (s, [])
  | e :: l' =>
      let '(s1, k1) := health_service alive now (clk i) e s in
      let '(s2, k2) := health_loop alive now clk (S i) l' s1 in (s2, k1 ++ k2)
  end.

(** [dev/core/service_manager/observability/sm_health.c:22-126 sm_health_check]
    [mem]: whether the snapshot can be allocated. *)
Definition sm_health_check (alive : Z -> bool) (now : Z) (clk : nat -> Z) (mem : bool)
    (s : registry_state) : registry_state * list (Z * signal) :=
  match (sm_registry_get_all true mem s).2 with
  | None => (s, [])
  | Some l => health_loop alive now clk 0 l s
  end.

(** ** Custom callbacks *)

(** [dev/core/service_manager/observability/sm_health_callbacks.c:13-21 g_callbacks] the
    first [g_callback_count] rows; a callback is an address, 0 is NULL. *)
Record callback := mk_cb { cb_service : string; cb_fn : Z }.
Definition MAX_CALLBACKS : nat := 32.

(** [dev/core/service_manager/observability/sm_health_callbacks.c:23-42
    sm_health_callback_register] *)
Definition sm_health_callback_register (nm : option string) (fn : Z) (g : list callback)
    : Z * list callback :=
  match nm with
  | None => (-1, g)
  | Some nm =>
      if fn =? 0 then (-1, g)
      else if Nat.leb MAX_CALLBACKS (length g) then (-1, g)
      else (0, g ++ [mk_cb (strncpy_z 63 nm) fn])
  end.

#[export] Instance callback_inhabited : Inhabited callback := populate (mk_cb "" 0).

(** [dev/core/service_manager/observability/sm_health_callbacks.c:44-67
    sm_health_callback_check] [run fn nm] is the callback's answer. *)
Definition sm_health_callback_check (run : Z -> string -> Z) (nm : option string)
    (g : list callback) : Z :=
  match nm with
  | None => -1
  | Some nm =>
      match index_of cb_service nm g with
      | Some i => if cb_fn (g !!! i) =? 0 then 0 else run (cb_fn (g !!! i)) nm
      | None => 0
      end
  end.

(** [dev/core/service_manager/observability/sm_health_callbacks.c:69-101
    sm_health_callbacks_check_all] the calls made, in order. *)
Definition sm_health_callbacks_check_all (g : list callback) : list (Z * string) :=
  (fun c => (cb_fn c, cb_service c)) <$> filter (fun c => cb_fn c <> 0) g.

(** [dev/core/service_manager/observability/sm_health_callbacks.c:104-122
    sm_health_callback_unregister] *)
Definition sm_health_callback_unregister (nm : option string) (g : list callback)
    : Z * list callback :=
  match nm with
  | None => (-1, g)
  | Some nm =>
      match index_of cb_service nm g with
      | Some i => (0, delete i g)
      | None => (-1, g)
      end
  end.

(** [dev/core/service_manager/observability/sm_health_callbacks.c:124-130
    sm_health_callbacks_cleanup] *)
Definition sm_health_callbacks_cleanup (g : list callback) : list callback := [].

(** ** The tier delays *)

Lemma double_backoff_closed n b : 0 <= b <= 120000 ->
  double_backoff n b = Z.min 120000 (b * 2 ^ Z.of_nat n).
Proof.
  revert b. induction n as [|n IH]; intros b Hb; [simpl; lia|]. cbn [double_backoff].
  rewrite Nat2Z.inj_succ, Z.pow_succ_r by lia.
  assert (1 <= 2 ^ Z.of_nat n) by (apply (Z.pow_le_mono_r 2 0); lia).
  destruct (Z.ltb_spec 120000 (b * 2)); rewrite IH by lia; nia.
Qed.

(** The delay of a service that may still be restarted is between 0.1 and 120
    seconds: no doubling overflows. *)
Lemma restart_delay_bounds t n : sm_tier_get_restart_delay t n <> -1 ->
  100 <= sm_tier_get_restart_delay t n <= 120000.
Proof.
  unfold sm_tier_get_restart_delay. destruct (_ <=? n); [done|]. intros _.
  assert (H1 : 1 <= 2 ^ Z.of_nat (Z.to_nat (n - 1))) by (apply (Z.pow_le_mono_r 2 0); lia).
  destruct t; simpl; [lia|..]; rewrite double_backoff_closed by lia; lia.
Qed.

Lemma restart_backoff_pos n : 2 <= restart_backoff n.
Proof.
  unfold restart_backoff. set (d := sm_tier_get_restart_delay SVC_TIER_NORMAL n).
  assert (Hd : d = -1 \/ 2000 <= d).
  { subst d. unfold sm_tier_get_restart_delay. destruct (3 <=? n); [by left|right]. simpl.
    rewrite double_backoff_closed by lia.
    assert (1 <= 2 ^ Z.of_nat (Z.to_nat (n - 1))) by (apply (Z.pow_le_mono_r 2 0); lia). lia. }
  clearbody d. destruct Hd as [->|Hd]; [vm_compute; discriminate|].
  destruct (Z.ltb_spec 0 d); [|lia].
  assert (2 <= c_quot d 1000) by (apply Z.quot_le_lower_bound; lia).
  destruct (Z.leb_spec (c_quot d 1000) 0); lia.
Qed.

(** ** What one pass does *)

Definition times_out (now : Z) (e : service_entry_t) : bool :=
  bool_decide (status e = SERVICE_RUNNING) && (SM_HEARTBEAT_TIMEOUT <? now - last_heartbeat e).

Definition gives_up (now : Z) (e : service_entry_t) : bool :=
  (times_out now e || bool_decide (status e = SERVICE_CRASHED)) &&
  (SM_HEALTH_MAX_RESTARTS <=? restart_count e).

(** The entry after the pass. *)
Definition health_result (now t : Z) (e : service_entry_t) : service_entry_t :=
  let e1 := if times_out now e then entry_set_status e SERVICE_CRASHED t else e in
  if gives_up now e then entry_set_status e1 SERVICE_DEAD t else e1.

(** The signals it causes: none when the service is given up, else as soon as
    the recorded crash time lies a back-off ago. *)
Definition health_signals (alive : Z -> bool) (now : Z) (e : service_entry_t) : list (Z * signal) :=
  if (times_out now e || bool_decide (status e = SERVICE_CRASHED)) && negb (gives_up now e) &&
     (restart_backoff (restart_count e) <=? now - last_crash_time e)
  then stop_process alive (pid e) else [].

Lemma alter_twice {A} (f g : A -> A) (i : nat) (l : list A) :
  alter f i (alter g i l) = alter (fun x => f (g x)) i l.
Proof. revert i. induction l as [|x l IH]; intros [|i]; try done. simpl. f_equal. apply IH. Qed.

#[local] Arguments sm_registry_update_status : simpl never.

Lemma update_status_live nm st t s i e : reg_inv s -> live s !! i = Some e -> name e = nm ->
  reg_inv (sm_registry_update_status (Some nm) st t s).2 /\
  live (sm_registry_update_status (Some nm) st t s).2 =
    alter (fun e => entry_set_status e st t) i (live s).
Proof.
  intros Hi He Hn. destruct (exec_refines (CStatus nm st t) s Hi I) as [Hi' Hr].
  split; [done|]. simpl in Hr. unfold spec_update in Hr.
  rewrite (proj2 (find_idx_some nm (live s) i (ri_uniq _ Hi))) in Hr by eauto.
  by apply (f_equal snd) in Hr.
Qed.

Lemma health_service_spec alive now t i e s : reg_inv s -> live s !! i = Some e ->
  let '(s', k) := health_service alive now t e s in
  reg_inv s' /\ live s' = alter (health_result now t) i (live s) /\
  k = health_signals alive now e.
Proof.
  intros Hi He. unfold health_service, health_result, health_signals, gives_up.
  fold (times_out now e).
  assert (Hid : forall f, f e = e -> alter f i (live s) = live s).
  { intros f Hf. rewrite (list_alter_ext f id _ (live s) i); [by apply list_alter_id| |done].
    intros x. rewrite He. by intros; simplify_eq/=. }
  assert (Halt : forall f g, f e = g e -> alter f i (live s) = alter g i (live s)).
  { intros f g Hf. apply list_alter_ext; [|done]. intros x. rewrite He. by intros; simplify_eq. }
  destruct (decide (status e = SERVICE_DEAD)) as [Hd|Hd].
  { assert (Ht : times_out now e = false) by (unfold times_out; by rewrite Hd).
    rewrite Ht, Hd. simpl. split_and!; [done|symmetry|done].
    apply Hid. by rewrite Ht, Hd. }
  pose proof (update_status_live (name e) SERVICE_CRASHED t s i e Hi He eq_refl) as [Hi1 Hl1].
  destruct (times_out now e) eqn:Ht; simpl.
  - set (s1 := (sm_registry_update_status _ SERVICE_CRASHED t s).2) in *. clearbody s1.
    assert (He1 : live s1 !! i = Some (entry_set_status e SERVICE_CRASHED t))
      by (by rewrite Hl1, list_lookup_alter_eq, He).
    destruct (Z.leb_spec SM_HEALTH_MAX_RESTARTS (restart_count e)) as [Hr|Hr]; simpl.
    + pose proof (update_status_live (name e) SERVICE_DEAD t s1 i _ Hi1 He1 eq_refl) as [Hi2 Hl2].
      split_and!; [done| |done]. rewrite Hl2, Hl1, alter_twice. apply Halt. simpl.
      rewrite Ht. simpl. destruct (Z.leb_spec SM_HEALTH_MAX_RESTARTS (restart_count e)); [done|lia].
    + assert (Hl : live s1 = alter (fun e => health_result now t e) i (live s)).
      { rewrite Hl1. apply Halt. unfold health_result, gives_up. rewrite Ht. simpl.
        destruct (Z.leb_spec SM_HEALTH_MAX_RESTARTS (restart_count e)); [lia|done]. }
      destruct (_ <=? now - last_crash_time e); by split_and!.
  - destruct (bool_decide_reflect (status e = SERVICE_CRASHED)) as [Hc|Hc]; simpl.
    + destruct (Z.leb_spec SM_HEALTH_MAX_RESTARTS (restart_count e)) as [Hr|Hr]; simpl.
      * pose proof (update_status_live (name e) SERVICE_DEAD t s i e Hi He eq_refl) as [Hi2 Hl2].
        split_and!; [done| |done]. rewrite Hl2. apply Halt. rewrite Ht, bool_decide_true by done.
        simpl. destruct (Z.leb_spec SM_HEALTH_MAX_RESTARTS (restart_count e)); [done|lia].
      * assert (Hl : live s = alter (fun e => health_result now t e) i (live s)).
        { symmetry. apply Hid. unfold health_result, gives_up. rewrite Ht, bool_decide_true by done.
          simpl. destruct (Z.leb_spec SM_HEALTH_MAX_RESTARTS (restart_count e)); [lia|done]. }
        destruct (_ <=? now - last_crash_time e); by split_and!.
    + split_and!; [done|symmetry|done]. apply Hid. rewrite Ht, bool_decide_false by done. done.
Qed.

Lemma health_loop_spec alive now clk l i s : reg_inv s -> drop i (live s) = l ->
  let '(s', k) := health_loop alive now clk i l s in
  reg_inv s' /\
  live s' = take i (live s) ++ imap (fun j => health_result now (clk (i + j)%nat)) l /\
  k = l ≫= health_signals alive now.
Proof.
  revert i s. induction l as [|e l IH]; intros i s Hi Hd.
  { simpl. rewrite app_nil_r. split_and!; [done| |done]. rewrite take_ge; [done|].
    apply (f_equal length) in Hd. rewrite length_drop in Hd. simpl in Hd. lia. }
  assert (He : live s !! i = Some e) by (rewrite <- (Nat.add_0_r i), <- lookup_drop; by rewrite Hd).
  pose proof (lookup_lt_Some _ _ _ He) as Hlt.
  cbn [health_loop]. pose proof (health_service_spec alive now (clk i) i e s Hi He) as H.
  destruct (health_service alive now (clk i) e s) as [s1 k1]. destruct H as (Hi1 & Hl1 & ->).
  assert (Hd1 : drop (S i) (live s1) = l).
  { rewrite Hl1, drop_alter_lt by lia.
    replace (S i) with (i + 1)%nat by lia. by rewrite <- drop_drop, Hd. }
  specialize (IH (S i) s1 Hi1 Hd1). destruct (health_loop alive now clk (S i) l s1) as [s2 k2].
  destruct IH as (Hi2 & Hl2 & ->). split_and!; [done| |done].
  assert (He1 : live s1 !! i = Some (health_result now (clk i) e))
    by (by rewrite Hl1, list_lookup_alter_eq, He).
  rewrite Hl2, (take_S_r _ _ _ He1), <- app_assoc, Hl1, take_alter_ge by lia. f_equal. simpl.
  rewrite Nat.add_0_r. f_equal. apply imap_ext. intros j x _. simpl. by rewrite Nat.add_succ_r.
Qed.

Lemma health_check_live alive now clk s : reg_inv s ->
  let '(s', k) := sm_health_check alive now clk true s in
  reg_inv s' /\ live s' = imap (fun i => health_result now (clk i)) (live s) /\
  k = live s ≫= health_signals alive now.
Proof.
  intros Hi. unfold sm_health_check, sm_registry_get_all. cbn [negb].
  destruct (Nat.eqb_spec (registry_count s) 0) as [H0|H0]; simpl.
  - assert (Hl : live s = []) by (unfold live; by rewrite H0). rewrite Hl. by split_and!.
  - apply (health_loop_spec alive now clk (live s) 0 s Hi eq_refl).
Qed.

(** A health pass changes each registered service by itself: a running one
    silent for more than ten seconds becomes crashed, a crashed one whose
    restart count has reached three becomes dead, and the signals sent are
    exactly those due; nothing else in the registry changes. *)
Theorem health_check_spec alive now clk s : reg_inv s ->
  let '(s', k) := sm_health_check alive now clk true s in
  reg_inv s' /\ live s' = imap (fun i => health_result now (clk i)) (live s) /\
  k = live s ≫= health_signals alive now.
Proof. apply health_check_live. Qed.

(** Passes one after the other, each with its clocks. *)
Fixpoint health_passes (ps : list ((Z -> bool) * Z * (nat -> Z))) (s : registry_state)
    : registry_state :=
  match ps with
  | [] => s
  | (alive, now, clk) :: ps' => health_passes ps' (sm_health_check alive now clk true s).1
  end.

(** A service that never sends a heartbeat stays in one of two conditions. *)
Definition hung (e : service_entry_t) : Prop :=
  (status e = SERVICE_RUNNING /\ restart_count e = 0) \/
  (status e = SERVICE_CRASHED /\ restart_count e = 1).

Lemma hung_result now t e : hung e -> hung (health_result now t e) /\
  name (health_result now t e) = name e /\ pid (health_result now t e) = pid e.
Proof.
  intros H. unfold health_result. assert (Hg : gives_up now e = false).
  { unfold gives_up. destruct H as [[_ ->]|[_ ->]]; by rewrite andb_false_r. }
  rewrite Hg. destruct (times_out now e) eqn:Ht; [|done]. split; [|done]. right.
  unfold times_out in Ht. destruct H as [[Hs Hr]|[Hs _]]; [|by rewrite Hs in Ht]. simpl.
  by rewrite Hr.
Qed.

Lemma hung_passes ps s e : reg_inv s -> e ∈ live s -> hung e ->
  reg_inv (health_passes ps s) /\
  exists e', e' ∈ live (health_passes ps s) /\ name e' = name e /\ pid e' = pid e /\ hung e'.
Proof.
  revert s e. induction ps as [|[[alive now] clk] ps IH]; intros s e Hi He Hh; simpl; [eauto 10|].
  pose proof (health_check_live alive now clk s Hi) as H.
  destruct (sm_health_check alive now clk true s) as [s1 k]. destruct H as (Hi1 & Hl & _). simpl.
  apply list_elem_of_lookup in He as [i He]. destruct (hung_result now (clk i) e Hh) as (Hh1 & Hn & Hp).
  destruct (IH s1 (health_result now (clk i) e) Hi1) as (Hi2 & e' & He' & Hn' & Hp' & Hh'); [|done|].
  { rewrite Hl. apply list_elem_of_lookup. exists i. by rewrite list_lookup_imap, He. }
  split; [done|]. exists e'. split_and!; [done|congruence|congruence|done].
Qed.

(** A service that never sends a heartbeat after it registered is never
    given up: whatever passes run, its restart count stays at most one and it is
    not marked dead, and once it is crashed every pass more than two seconds
    after the recorded crash signals its process again. *)
Theorem hung_service_never_dead ps s e : reg_inv s -> e ∈ live s ->
  status e = SERVICE_RUNNING -> restart_count e = 0 ->
  exists e', e' ∈ live (health_passes ps s) /\ name e' = name e /\ pid e' = pid e /\
    status e' <> SERVICE_DEAD /\ restart_count e' <= 1 /\
    forall alive now clk, status e' = SERVICE_CRASHED -> 1 < pid e ->
      last_crash_time e' + SM_HEALTH_RESTART_DELAY <= now ->
      (pid e, SIGTERM) ∈ (sm_health_check alive now clk true (health_passes ps s)).2.
Proof.
  intros Hi He Hs Hr. destruct (hung_passes ps s e Hi He) as (Hi' & e' & He' & Hn & Hp & Hh); [by left|].
  exists e'. split_and!; [done|done|done| | |].
  - destruct Hh as [[-> _]|[-> _]]; done.
  - destruct Hh as [[_ ->]|[_ ->]]; lia.
  - intros alive now clk Hc Hpid Hnow. pose proof (health_check_live alive now clk _ Hi') as H.
    destruct (sm_health_check alive now clk true _) as [s1 k]. destruct H as (_ & _ & ->). simpl.
    apply list_elem_of_bind. exists e'. split; [|done].
    destruct Hh as [[Hr' _]|[_ Hr']]; [congruence|].
    unfold health_signals, gives_up. rewrite Hr', bool_decide_true, !orb_true_r by done. simpl.
    change (restart_backoff 1) with SM_HEALTH_RESTART_DELAY.
    destruct (Z.leb_spec SM_HEALTH_RESTART_DELAY (now - last_crash_time e')); [|lia].
    unfold stop_process. rewrite Hp. destruct (Z.ltb_spec 1 (pid e)); [left|lia].
Qed.

(** ** Callbacks: a table of at most 32 rows, found by the stored name *)

Lemma callback_registered nm fn g : (String.length nm <= 63)%nat -> fn <> 0 ->
  nm ∉ (cb_service <$> g) -> (length g < MAX_CALLBACKS)%nat ->
  let '(rc, g') := sm_health_callback_register (Some nm) fn g in
  rc = 0 /\ (forall run, sm_health_callback_check run (Some nm) g' = run fn nm) /\
  sm_health_callback_unregister (Some nm) g' = (0, g).
Proof.
  intros Hl Hf Hn Hroom. unfold sm_health_callback_register.
  destruct (Z.eqb_spec fn 0); [done|]. destruct (Nat.leb_spec MAX_CALLBACKS (length g)); [lia|].
  rewrite strncpy_z_short by done.
  assert (Hi : index_of cb_service nm (g ++ [mk_cb nm fn]) = Some (length g)).
  { clear Hroom H. induction g as [|c g IH]; simpl; [by rewrite String.eqb_refl|].
    rewrite fmap_cons, not_elem_of_cons in Hn. destruct Hn as [Hne Hn].
    destruct (String.eqb_spec (cb_service c) nm); [by destruct Hne|]. by rewrite IH. }
  split_and!; [done| |].
  - intros run. unfold sm_health_callback_check. rewrite Hi, list_lookup_total_middle by done.
    simpl. by destruct (Z.eqb_spec fn 0).
  - unfold sm_health_callback_unregister. rewrite Hi. f_equal.
    rewrite delete_middle. by rewrite app_nil_r.
Qed.

(** ** Witnesses: the camera service falls silent *)

Definition hcam0 : service_entry_t :=
  mk_entry "camera" "/run/cam.sock" "/run/cam.ring" 42 1000 1000 0 SVC_TIER_HIGH 0 0
    SERVICE_RUNNING 0 0 0.
Definition hreg : registry_state := (exec (CAdd (fun _ => true) 100 100 hcam0) sm_registry_init).2.
Definition hcam : service_entry_t :=
  mk_entry "camera" "/run/cam.sock" "/run/cam.ring" 42 1000 1000 100 SVC_TIER_HIGH 0 0
    SERVICE_RUNNING 100 0 0.

Lemma hreg_inv : reg_inv hreg.
Proof.
  apply (reachable_inv hreg). exists sm_registry_init. split; [done|]. apply rtc_once.
  exists (CAdd (fun _ => true) 100 100 hcam0). split; [vm_compute; lia|done].
Qed.

Lemma hreg_live : live hreg = [hcam].
Proof. by vm_compute. Qed.

Lemma health_check_spec_witness :
  live (sm_health_check (fun _ => true) 111 (fun _ => 111) true hreg).1 =
    [entry_set_status hcam SERVICE_CRASHED 111] /\
  (sm_health_check (fun _ => true) 111 (fun _ => 111) true hreg).2 = [(42, SIGTERM); (42, SIGKILL)].
Proof.
  pose proof (health_check_spec (fun _ => true) 111 (fun _ => 111) hreg hreg_inv) as H.
  destruct (sm_health_check (fun _ => true) 111 (fun _ => 111) true hreg) as [s k].
  rewrite hreg_live in H. exact (proj2 H).
Defined.

Lemma hung_service_never_dead_witness :
  let ps := replicate 9 ((fun _ : Z => true), 5000, (fun _ : nat => 5000)) in
  exists e', e' ∈ live (health_passes ps hreg) /\ name e' = "camera"%string /\ pid e' = 42 /\
    status e' <> SERVICE_DEAD /\ restart_count e' <= 1 /\
    forall alive now clk, status e' = SERVICE_CRASHED -> 1 < 42 ->
      last_crash_time e' + SM_HEALTH_RESTART_DELAY <= now ->
      (42, SIGTERM) ∈ (sm_health_check alive now clk true (health_passes ps hreg)).2.
Proof.
  intros ps. apply (hung_service_never_dead ps hreg hcam hreg_inv).
  - rewrite hreg_live. left.
  - reflexivity.
  - reflexivity.
Defined.
