(* ===== verification/Shutdown.v ===== *)
(** * Graceful shutdown (lifecycle/sm_graceful_shutdown.c)

    The hooks, the SIGTERM to every service in reverse dependency order (or, when
    there is no order, in reverse registration order), the wait, and the SIGKILL
    to what is left. *)

From S2P Require Import Prelude Registry Dependencies Health.

(** [dev/core/service_manager/lifecycle/sm_graceful_shutdown.c:18-22 g_shutdown_hooks]
    the first [g_hook_count] addresses, 0 is NULL. *)
Definition MAX_SHUTDOWN_HOOKS : nat := 10.

(** [dev/core/service_manager/lifecycle/sm_graceful_shutdown.c:24-33
    sm_register_shutdown_hook] *)
Definition sm_register_shutdown_hook (hook : Z) (hooks : list Z) : list Z :=
  if hook =? 0 then hooks
  else if Nat.ltb (length hooks) MAX_SHUTDOWN_HOOKS then hooks ++ [hook] else hooks.

Inductive action :=
| Hook (h : Z)
| Signal (p : Z) (sg : signal)
| Save.                       (** [sm_persistence_save (NULL)] *)

(** [dev/core/service_manager/lifecycle/sm_graceful_shutdown.c:69-73 sm_graceful_shutdown, the signal of
    one service] *)
Definition signal_entry (sg : signal) (e : service_entry_t) : list action :=
  if bool_decide (status e <> SERVICE_STOPPED) && (1 <? pid e) then [Signal (pid e) sg] else [].

(** [dev/core/service_manager/lifecycle/sm_graceful_shutdown.c:66-77
    sm_graceful_shutdown, one name of the order] *)
Definition term_named (services : list service_entry_t) (nm : string) : list action :=
  match index_of name nm services with
  | Some j => signal_entry SIGTERM (services !!! j)
  | None => []
  end.

(** [dev/core/service_manager/lifecycle/sm_graceful_shutdown.c:57-88
    sm_graceful_shutdown, the SIGTERMs] *)
Definition send_terms (g : deps_table) (services : list service_entry_t) : list action :=
  let '(rc, order, n) :=
    sm_deps_get_startup_order g (replicate 32 ""%string) (Z.of_nat (length services)) in
  if (rc =? 0) && Nat.ltb 0 n
  then ((fun i => order !!! i) <$> reverse (seq 0 n)) ≫= term_named services
  else reverse services ≫= signal_entry SIGTERM.

(** [dev/core/service_manager/lifecycle/sm_graceful_shutdown.c:92-108
    sm_graceful_shutdown, the wait] How many snapshots the loop takes; a
    snapshot that fails counts as nothing running. *)
Fixpoint polls (snap : nat -> option (list service_entry_t)) (n i : nat) : nat :=
  match n with
  | O => O
  | S n' =>
      let running :=
        match snap i with
        | Some l => existsb (fun e => bool_decide (status e <> SERVICE_STOPPED)) l
        | None => false
        end in
      if running then S (polls snap n' (S i)) else 1%nat
  end.

(** [dev/core/service_manager/lifecycle/sm_graceful_shutdown.c:35-126
    sm_graceful_shutdown] [snap k]: the k-th answer of [sm_registry_get_all]. *)
Definition sm_graceful_shutdown (timeout_sec : Z) (hooks : list Z) (g : deps_table)
    (snap : nat -> option (list service_entry_t)) : list action :=
  (Hook <$> filter (fun h => h <> 0) hooks) ++
  match snap 0%nat with
  | None => []
  | Some services =>
      let n := polls snap (Z.to_nat (timeout_sec * 10)) 1 in
      send_terms g services ++
      match snap (S n) with
      | Some l => l ≫= signal_entry SIGKILL
      | None => []
      end ++ [Save]
  end.

(** [dev/core/service_manager/lifecycle/sm_graceful_shutdown.c:128-132
    sm_force_shutdown] *)
Definition sm_force_shutdown := sm_graceful_shutdown 1.

(** ** The order of the signals *)

(** The processes that get SIGTERM, in order. *)
Definition sigterms (l : list action) : list Z :=
  l ≫= fun a => match a with Signal p SIGTERM => [p] | _ => [] end.

Lemma sigterms_app l1 l2 : sigterms (l1 ++ l2) = sigterms l1 ++ sigterms l2.
Proof. apply bind_app. Qed.

Lemma sigterms_hooks hs : sigterms (Hook <$> hs) = [].
Proof. by induction hs. Qed.

Lemma sigterms_kill l : sigterms (l ≫= signal_entry SIGKILL) = [].
Proof.
  induction l as [|e l IH]; [done|]. rewrite bind_cons, sigterms_app, IH, app_nil_r.
  unfold signal_entry. by destruct (_ && _).
Qed.

Lemma shutdown_sigterms timeout hooks g snap services : snap 0%nat = Some services ->
  sigterms (sm_graceful_shutdown timeout hooks g snap) = sigterms (send_terms g services).
Proof.
  intros Hs. unfold sm_graceful_shutdown. rewrite Hs, !sigterms_app, sigterms_hooks.
  assert (Hk : forall o, sigterms (match o with Some l => l ≫= signal_entry SIGKILL | None => [] end) = [])
    by (intros [l|]; [apply sigterms_kill|done]).
  rewrite Hk. simpl. by rewrite app_nil_r.
Qed.

(** Every entry of the table comes after what it depends on. *)
Definition registered_in_order (g : deps_table) : Prop :=
  forall i d, (i < length g)%nat -> d ∈ depends_on (g !!! i) ->
    exists k, (k < i)%nat /\ service_name (g !!! k) = d.

Lemma ordered_terms g services : deps_inv g -> registered_in_order g -> g <> [] ->
  (length g <= length services)%nat ->
  send_terms g services = reverse (service_name <$> g) ≫= term_named services.
Proof.
  intros Hg Ho Hne Hl. unfold send_terms.
  pose proof (startup_order_spec g (Z.of_nat (length services)) (replicate 32 ""%string) Hg) as H.
  destruct (sm_deps_get_startup_order _ _ _) as [[rc order] n] eqn:Hc.
  destruct H as (Hok & Ht & _); [rewrite length_replicate; apply Hg|].
  assert (rc = 0) as ->. { apply Hok. split; [done|lia]. }
  specialize (Ht eq_refl). assert (Hn : n = length g).
  { unfold sm_deps_get_startup_order in Hc. cbv zeta in Hc. set (s := fold_left _ _ _) in *.
    clearbody s. simplify_eq. destruct (Nat.eqb_spec (ordered s) (length g)); [done|discriminate]. }
  destruct (Nat.ltb_spec 0 n); [|destruct g; [done|simpl in *; lia]]. cbn [andb Z.eqb].
  rewrite <- Ht. f_equal. rewrite fmap_reverse. f_equal.
  apply (f_equal length) in Ht as Hlen. rewrite length_take, length_fmap in Hlen.
  apply list_eq. intros i. rewrite list_lookup_fmap. destruct (decide (i < n)%nat).
  - rewrite lookup_seq_lt, lookup_take_lt by done. simpl.
    symmetry. apply list_lookup_lookup_total_lt. lia.
  - rewrite lookup_seq_ge, lookup_take_ge by lia. done.
Qed.

(** A service that runs and can be signalled. *)
Definition signalled (e : service_entry_t) : Prop := status e <> SERVICE_STOPPED /\ 1 < pid e.

Lemma term_named_found services e : NoDup (name <$> services) -> e ∈ services -> signalled e ->
  term_named services (name e) = [Signal (pid e) SIGTERM].
Proof.
  intros Hn He [Hs Hp]. apply list_elem_of_lookup in He as [j Hj].
  assert (He : services !!! j = e) by (by apply list_lookup_total_correct).
  pose proof (lookup_lt_Some _ _ _ Hj). unfold term_named.
  rewrite <- He at 1. rewrite index_of_key, He by done. unfold signal_entry.
  rewrite bool_decide_true by done. by destruct (Z.ltb_spec 1 (pid e)); [|lia].
Qed.

Lemma list_two {A} (l : list A) i k x y : (k < i)%nat -> l !! k = Some y -> l !! i = Some x ->
  exists l1 l2 l3, reverse l = l1 ++ x :: l2 ++ y :: l3.
Proof.
  intros Hki Hk Hi. pose proof (lookup_lt_Some _ _ _ Hi).
  exists (reverse (drop (S i) l)), (reverse (take (i - S k) (drop (S k) l))), (reverse (take k l)).
  rewrite <- (take_drop_middle l k y Hk) at 1.
  assert (Hi' : drop (S k) l !! (i - S k)%nat = Some x)
    by (rewrite lookup_drop; replace (S k + (i - S k))%nat with i by lia; done).
  rewrite <- (take_drop_middle _ _ _ Hi') at 1. rewrite drop_drop.
  replace (S k + S (i - S k))%nat with (S i) by lia.
  rewrite !reverse_app, !reverse_cons, reverse_app, reverse_cons. by rewrite <- !app_assoc.
Qed.

(** When the dependency table was registered in order, a service gets its
    SIGTERM before every service it depends on. *)
Theorem dependents_stop_first timeout hooks g snap services i k ei ek :
  deps_inv g -> registered_in_order g -> (length g <= length services)%nat ->
  snap 0%nat = Some services -> NoDup (name <$> services) ->
  (i < length g)%nat -> depends g i k ->
  ei ∈ services -> name ei = service_name (g !!! i) -> signalled ei ->
  ek ∈ services -> name ek = service_name (g !!! k) -> signalled ek ->
  exists l1 l2 l3,
    sigterms (sm_graceful_shutdown timeout hooks g snap) = l1 ++ pid ei :: l2 ++ pid ek :: l3.
Proof.
  intros Hg Ho Hl Hs Hnd Hi (d & Hd & Hf) Hei Hni Hsi Hek Hnk Hsk.
  apply index_of_Some in Hf as (Hk & Hkd & _).
  destruct (Ho i d Hi Hd) as (k' & Hk' & Hd').
  assert (Hkk : k' = k).
  { assert (H1 : index_of service_name d g = Some k)
      by (rewrite <- Hkd; by apply index_of_key; [apply Hg|]).
    assert (H2 : index_of service_name d g = Some k')
      by (rewrite <- Hd'; apply index_of_key; [apply Hg|lia]). congruence. }
  subst k'. rewrite (shutdown_sigterms _ _ _ _ _ Hs), ordered_terms by (done || (intros ->; simpl in Hi; lia)).
  destruct (list_two (service_name <$> g) i k (name ei) (name ek)) as (l1 & l2 & l3 & Hr); [done|..].
  { by rewrite list_lookup_fmap, list_lookup_lookup_total_lt, Hnk by lia. }
  { by rewrite list_lookup_fmap, list_lookup_lookup_total_lt, Hni by lia. }
  rewrite Hr, bind_app, bind_cons, bind_app, bind_cons.
  rewrite (term_named_found _ ei), (term_named_found _ ek) by done. rewrite !sigterms_app.
  by eexists _, _, _.
Qed.

(** A service the table does not name is not asked to stop: it gets no SIGTERM,
    only the final SIGKILL. *)
Lemma undeclared_not_asked timeout hooks g snap services e :
  deps_inv g -> registered_in_order g -> g <> [] -> (length g <= length services)%nat ->
  snap 0%nat = Some services -> e ∈ services -> name e ∉ (service_name <$> g) ->
  (forall e', e' ∈ services -> pid e' = pid e -> e' = e) ->
  pid e ∉ sigterms (sm_graceful_shutdown timeout hooks g snap).
Proof.
  intros Hg Ho Hne Hl Hs He Hn Hu. rewrite (shutdown_sigterms _ _ _ _ _ Hs), ordered_terms by done.
  intros (a & Ha & Hin)%list_elem_of_bind. apply list_elem_of_bind in Hin as (nm & Hin & Hnm).
  rewrite elem_of_reverse in Hnm. unfold term_named in Hin.
  destruct (index_of name nm services) as [j|] eqn:Hj; [|by apply elem_of_nil in Hin].
  apply index_of_Some in Hj as (Hjl & Hjn & _). unfold signal_entry in Hin.
  destruct (_ && _); [|by apply elem_of_nil in Hin]. apply list_elem_of_singleton in Hin as ->.
  apply list_elem_of_singleton in Ha. apply Hn.
  rewrite <- (Hu (services !!! j)), Hjn; [done| |done].
  apply (list_elem_of_lookup_2 _ j). by apply list_lookup_lookup_total_lt.
Qed.

(** ** Witness *)

Definition svc (nm : string) (p : Z) : service_entry_t :=
  mk_entry nm "/run/s" "/run/r" p 0 0 0 SVC_TIER_NORMAL 0 0 SERVICE_RUNNING 0 0 0.
Definition three : list service_entry_t := [svc "app" 12; svc "net" 10; svc "db" 11].

Lemma net_db_app_in_order : registered_in_order net_db_app.
Proof.
  intros i d Hi Hd. destruct i as [|[|[|i]]]; [| | |simpl in Hi; lia]; simpl in Hd.
  - by apply elem_of_nil in Hd.
  - apply list_elem_of_singleton in Hd as ->. exists 0%nat. split; [lia|done].
  - apply elem_of_cons in Hd as [->|Hd]; [exists 1%nat; split; [lia|done]|].
    apply list_elem_of_singleton in Hd as ->. exists 0%nat. split; [lia|done].
Qed.

Lemma dependents_stop_first_witness :
  exists l1 l2 l3, sigterms (sm_graceful_shutdown 1 [7] net_db_app (fun _ => Some three)) =
    l1 ++ 12 :: l2 ++ 10 :: l3.
Proof.
  apply (dependents_stop_first 1 [7] net_db_app (fun _ => Some three) three 2 0
           (svc "app" 12) (svc "net" 10)).
  - apply net_db_app_inv.
  - apply net_db_app_in_order.
  - simpl. lia.
  - reflexivity.
  - apply (bool_decide_unpack _). by vm_compute.
  - simpl. lia.
  - exists "net"%string. split; [right; left|reflexivity].
  - left.
  - reflexivity.
  - split; [discriminate|simpl; lia].
  - right. left.
  - reflexivity.
  - split; [discriminate|simpl; lia].
Defined.
