(* ===== verification/EventBus.v ===== *)
(** * The event bus (enterprise/sm_eventbus.c)

    Subscriptions in a table that only grows, a ring of the last 512 events, and
    delivery with the lock released around every callback. *)

From Stdlib Require Import Sorted.
From S2P Require Import Prelude.

(** [dev/core/service_manager/enterprise/sm_eventbus.c:18-20 MAX_SUBSCRIBERS_GLOBAL] *)
Definition MAX_SUBSCRIBERS_GLOBAL : nat := 4096.
Definition MAX_EVENT_HISTORY : Z := 512.

(** [dev/core/service_manager/enterprise/sm_eventbus.h:41-49 sm_event_t] *)
Record sm_event_t := mk_event {
  event_type : string;
  publisher_service : string;
  event_data : string;
  priority : Z;
  timestamp : Z;
  event_id : Z
}.
Definition zero_event : sm_event_t := mk_event "" "" "" 0 0 0.
#[export] Instance event_inhabited : Inhabited sm_event_t := populate zero_event.

(** [dev/core/service_manager/enterprise/sm_eventbus.c:22-28 subscriber_t] callbacks
    and user data are addresses, 0 is NULL; the identifier is the row. *)
Record subscriber_t := mk_sub { sub_type : string; callback : Z; userdata : Z; active : bool }.
#[export] Instance subscriber_inhabited : Inhabited subscriber_t := populate (mk_sub "" 0 0 false).

(** [dev/core/service_manager/enterprise/sm_eventbus.c:30-53 eventbus_t] the first
    [subscriber_count] subscribers, and the history with its two cursors. *)
Record eventbus_t := mk_bus {
  subscribers : list subscriber_t;
  events : list sm_event_t;
  event_count : Z;
  current_idx : Z;
  next_event_id : Z;
  events_published : Z;
  events_delivered : Z;
  events_dropped : Z;
  max_subs_per_event : Z;
  initialized : bool
}.
Definition zero_events : list sm_event_t := replicate (Z.to_nat MAX_EVENT_HISTORY) zero_event.
Definition zero_bus : eventbus_t := mk_bus [] zero_events 0 0 0 0 0 0 0 false.

(** [dev/core/service_manager/enterprise/sm_eventbus.c:55-80 sm_eventbus_init] [lock]:
    whether the lock can be initialised. *)
Definition sm_eventbus_init (max_subs : Z) (lock : bool) (b : eventbus_t) : Z * eventbus_t :=
  if initialized b then (0, b)
  else if (max_subs <=? 0) || (512 <? max_subs) then (-1, b)
  else if negb lock then (-1, zero_bus)
  else (0, mk_bus [] zero_events 0 0 1 0 0 0 max_subs true).

(** [dev/core/service_manager/enterprise/sm_eventbus.c:109-116 sm_eventbus_publish, the
    history] *)
Definition add_history (e : sm_event_t) (b : eventbus_t) : eventbus_t :=
  let n := if event_count b <? MAX_EVENT_HISTORY then event_count b + 1 else event_count b in
  let idx := c_rem (current_idx b + 1) MAX_EVENT_HISTORY in
  mk_bus (subscribers b) (<[Z.to_nat idx := e]> (events b)) n idx (next_event_id b)
    (u64 (events_published b + 1)) (events_delivered b) (events_dropped b)
    (max_subs_per_event b) (initialized b).

(** [dev/core/service_manager/enterprise/sm_eventbus.c:124-130 sm_eventbus_publish, does
    the subscriber want the event?] *)
Definition wants (type : string) (s : subscriber_t) : bool :=
  active s && negb (callback s =? 0) &&
  (String.eqb (sub_type s) "*" || String.eqb (sub_type s) type).

Section notify.
(** What a callback, and every other thread meanwhile, does to the bus. *)
Context (call : Z -> sm_event_t -> Z -> eventbus_t -> eventbus_t).

(** [dev/core/service_manager/enterprise/sm_eventbus.c:119-142 sm_eventbus_publish, the
    loop over the subscribers] The count is read again after every callback;
    [fuel] rows are left in the table.  The result lists the rows called. *)
Fixpoint notify (fuel i : nat) (type : string) (e : sm_event_t) (b : eventbus_t)
    : list nat * eventbus_t :=
  match fuel with
  | O => ([], b)
  | S fuel' =>
      if Nat.ltb i (length (subscribers b)) then
        let s := subscribers b !!! i in
        if wants type s then
          let '(called, b') := notify fuel' (S i) type e (call (callback s) e (userdata s) b) in
          (i :: called, b')
        else notify fuel' (S i) type e b
      else ([], b)
  end.

(** [dev/core/service_manager/enterprise/sm_eventbus.c:82-151 sm_eventbus_publish] The
    result is the event's identifier, 0 on error, with the rows called. *)
Definition sm_eventbus_publish (now : Z) (type publisher data : option string) (prio : Z)
    (b : eventbus_t) : Z * list nat * eventbus_t :=
  if negb (initialized b) then (0, [], b)
  else match type, publisher with
       | Some type, Some publisher =>
           let e := mk_event (strncpy_z 127 type) (strncpy_z 63 publisher)
                      (match data with Some d => strncpy_z 511 d | None => "" end)
                      prio now (next_event_id b) in
           let b1 := mk_bus (subscribers b) (events b) (event_count b) (current_idx b)
                       (u64 (next_event_id b + 1)) (events_published b) (events_delivered b)
                       (events_dropped b) (max_subs_per_event b) (initialized b) in
           let '(called, b2) := notify MAX_SUBSCRIBERS_GLOBAL 0 type e (add_history e b1) in
           (event_id e, called,
            mk_bus (subscribers b2) (events b2) (event_count b2) (current_idx b2)
              (next_event_id b2) (events_published b2)
              (u64 (events_delivered b2 + Z.of_nat (length called))) (events_dropped b2)
              (max_subs_per_event b2) (initialized b2))
       | _, _ => (0, [], b)
       end.
End notify.

Definition set_subscribers (b : eventbus_t) (l : list subscriber_t) : eventbus_t :=
  mk_bus l (events b) (event_count b) (current_idx b) (next_event_id b) (events_published b)
    (events_delivered b) (events_dropped b) (max_subs_per_event b) (initialized b).

(** [dev/core/service_manager/enterprise/sm_eventbus.c:153-187 sm_eventbus_subscribe] *)
Definition sm_eventbus_subscribe (type : option string) (cb data : Z) (b : eventbus_t)
    : Z * eventbus_t :=
  if negb (initialized b) then (-1, b)
  else match type with
       | None => (-1, b)
       | Some type =>
           if cb =? 0 then (-1, b)
           else if Nat.leb MAX_SUBSCRIBERS_GLOBAL (length (subscribers b)) then (-1, b)
           else (Z.of_nat (length (subscribers b)),
                 set_subscribers b (subscribers b ++ [mk_sub (strncpy_z 127 type) cb data true]))
       end.

(** [dev/core/service_manager/enterprise/sm_eventbus.c:189-205 sm_eventbus_unsubscribe] *)
Definition sm_eventbus_unsubscribe (id : Z) (b : eventbus_t) : Z * eventbus_t :=
  if negb (initialized b) then (-1, b)
  else if (id <? 0) || (Z.of_nat (length (subscribers b)) <=? id) then (-1, b)
  else (0, set_subscribers b
             (alter (fun s => mk_sub (sub_type s) (callback s) (userdata s) false)
                (Z.to_nat id) (subscribers b))).

(** [dev/core/service_manager/enterprise/sm_eventbus.c:215-223
    sm_eventbus_get_event_history, the loop] [n] more places of the history and
    [room] more in the caller's buffer; [None]: an index outside the array is
    read. *)
Fixpoint collect_history (b : eventbus_t) (type : option string) (n : nat) (i room : Z)
    : option (list sm_event_t) :=
  match n with
  | O => Some []
  | S n' =>
      if room <=? 0 then Some []
      else
        let idx := c_rem (current_idx b - event_count b + i + 1) MAX_EVENT_HISTORY in
        match zlookup (events b) idx with
        | None => None
        | Some e =>
            if match type with None => true | Some t => String.eqb t (event_type e) end
            then (cons e) <$> collect_history b type n' (i + 1) (room - 1)
            else collect_history b type n' (i + 1) room
        end
  end.

(** [dev/core/service_manager/enterprise/sm_eventbus.c:207-228
    sm_eventbus_get_event_history] *)
Definition sm_eventbus_get_event_history (type : option string) (max_events : Z) (b : eventbus_t)
    : option (list sm_event_t) :=
  if max_events <=? 0 then Some []
  else collect_history b type (Z.to_nat (event_count b)) 0 max_events.

(** [dev/core/service_manager/enterprise/sm_eventbus.c:230-250
    sm_eventbus_query_subscribers] *)
Definition sm_eventbus_query_subscribers (type : option string) (b : eventbus_t) : Z :=
  match type with
  | None => 0
  | Some t => Z.of_nat (length (List.filter
      (fun s => active s && (String.eqb (sub_type s) "*" || String.eqb (sub_type s) t))
      (subscribers b)))
  end.

(** [dev/core/service_manager/enterprise/sm_eventbus.c:252-279 sm_eventbus_get_stats]
    published, delivered, dropped, subscriptions, active ones. *)
Definition sm_eventbus_get_stats (b : eventbus_t) : Z * Z * Z * Z * Z :=
  if negb (initialized b) then (0, 0, 0, 0, 0)
  else (events_published b, events_delivered b, events_dropped b,
        Z.of_nat (length (subscribers b)),
        Z.of_nat (length (List.filter active (subscribers b)))).

(** [dev/core/service_manager/enterprise/sm_eventbus.c:281-292 sm_eventbus_clear_history] *)
Definition sm_eventbus_clear_history (b : eventbus_t) : Z * eventbus_t :=
  if negb (initialized b) then (-1, b)
  else (0, mk_bus (subscribers b) zero_events 0 0 (next_event_id b) (events_published b)
             (events_delivered b) (events_dropped b) (max_subs_per_event b) (initialized b)).

(** [dev/core/service_manager/enterprise/sm_eventbus.c:294-307 sm_eventbus_cleanup] *)
Definition sm_eventbus_cleanup (b : eventbus_t) : Z * eventbus_t :=
  if negb (initialized b) then (0, b) else (0, zero_bus).

#[local] Arguments Nat.leb : simpl never.

(** ** Delivery *)

(** Callbacks that do not touch the bus. *)
Definition inert (call : Z -> sm_event_t -> Z -> eventbus_t -> eventbus_t) : Prop :=
  forall f e u b, call f e u b = b.

Lemma notify_rows call fuel i type e b :
  Forall (fun j => (i <= j < i + fuel)%nat) (notify call fuel i type e b).1 /\
  StronglySorted Nat.lt (notify call fuel i type e b).1.
Proof.
  revert i b. induction fuel as [|fuel IH]; intros i b; simpl; [by split; constructor|].
  destruct (Nat.ltb i (length (subscribers b))); [|by split; constructor].
  destruct (wants type (subscribers b !!! i)).
  - specialize (IH (S i) (call (callback (subscribers b !!! i)) e (userdata (subscribers b !!! i)) b)).
    destruct (notify _ _ _ _ _ _) as [called b']. simpl in *. destruct IH as [Hf Hs].
    split; [constructor; [lia|]|constructor; [done|]];
      eapply Forall_impl; try exact Hf; simpl; lia.
  - destruct (IH (S i) b) as [Hf Hs]. split; [|done].
    eapply Forall_impl; [exact Hf|]. simpl. lia.
Qed.

Lemma notify_inert call fuel i type e b : inert call ->
  (length (subscribers b) <= i + fuel)%nat ->
  notify call fuel i type e b =
    (List.filter (fun j => wants type (subscribers b !!! j)) (seq i (length (subscribers b) - i)), b).
Proof.
  intros Hc. revert i. induction fuel as [|fuel IH]; intros i Hl; simpl.
  { by replace (length (subscribers b) - i)%nat with 0%nat by lia. }
  destruct (Nat.ltb_spec i (length (subscribers b))).
  - rewrite Hc, IH by lia.
    replace (length (subscribers b) - i)%nat with (S (length (subscribers b) - S i)) by lia.
    simpl. by destruct (wants type _).
  - by replace (length (subscribers b) - i)%nat with 0%nat by lia.
Qed.

(** Whatever the callbacks do to the bus while the lock is released, one
    publication ends and calls no row twice and in ascending order; when they
    leave it alone, it calls exactly the active matching rows and counts them. *)
Theorem publish_delivers call now type pub data prio b : initialized b = true ->
  (length (subscribers b) <= MAX_SUBSCRIBERS_GLOBAL)%nat ->
  let '(id, called, b') := sm_eventbus_publish call now (Some type) (Some pub) data prio b in
  id = next_event_id b /\ StronglySorted Nat.lt called /\
  (inert call ->
     called = List.filter (fun j => wants type (subscribers b !!! j))
                (seq 0 (length (subscribers b))) /\
     subscribers b' = subscribers b /\
     events_delivered b' = u64 (events_delivered b + Z.of_nat (length called))).
Proof.
  intros Hi Hl. unfold sm_eventbus_publish. rewrite Hi. cbn [negb]. cbv zeta.
  set (e := mk_event _ _ _ _ _ _). set (b1 := add_history _ _).
  pose proof (notify_rows call MAX_SUBSCRIBERS_GLOBAL 0 type e b1) as [_ Hs].
  pose proof (notify_inert call MAX_SUBSCRIBERS_GLOBAL 0 type e b1) as Hn.
  destruct (notify _ _ _ _ _ _) as [called b2]. split_and!; [done|done|].
  intros Hc. specialize (Hn Hc Hl). simplify_eq. by rewrite Nat.sub_0_r.
Qed.

(** An unsubscribed row is never called again, and its place never reused. *)
Lemma unsubscribed_row_silent id b : initialized b = true ->
  0 <= id < Z.of_nat (length (subscribers b)) ->
  let b' := (sm_eventbus_unsubscribe id b).2 in
  (forall type, wants type (subscribers b' !!! Z.to_nat id) = false) /\
  (forall type cb data, cb <> 0 -> (length (subscribers b) < MAX_SUBSCRIBERS_GLOBAL)%nat ->
     (sm_eventbus_subscribe (Some type) cb data b').1 = Z.of_nat (length (subscribers b))).
Proof.
  intros Hi Hid. unfold sm_eventbus_unsubscribe. rewrite Hi.
  destruct (Z.ltb_spec id 0); [lia|]. destruct (Z.leb_spec (Z.of_nat (length (subscribers b))) id); [lia|].
  simpl. split.
  - intros type. unfold wants. rewrite list_lookup_total_alter, decide_True by lia. done.
  - intros type cb data Hcb Hroom. unfold sm_eventbus_subscribe. simpl. rewrite Hi. simpl.
    rewrite length_alter. destruct (Z.eqb_spec cb 0); [done|].
    destruct (Nat.leb_spec MAX_SUBSCRIBERS_GLOBAL (length (subscribers b))); [lia|]. cbn [fst]. by rewrite ?length_alter.
Qed.

(** ** The history *)

(** The arguments of a publication and the event it makes. *)
Record publication := mk_pub { p_now : Z; p_type : string; p_by : string;
                               p_data : option string; p_prio : Z }.
Definition made (id : Z) (p : publication) : sm_event_t :=
  mk_event (strncpy_z 127 (p_type p)) (strncpy_z 63 (p_by p))
    (match p_data p with Some d => strncpy_z 511 d | None => "" end) (p_prio p) (p_now p) id.

Definition publish_one call (p : publication) (b : eventbus_t) : eventbus_t :=
  (sm_eventbus_publish call (p_now p) (Some (p_type p)) (Some (p_by p)) (p_data p) (p_prio p) b).2.

(** The ring holds the last 512 of the events [es] published so far. *)
Record history_of (es : list sm_event_t) (b : eventbus_t) : Prop := {
  ho_init : initialized b = true;
  ho_len : length (events b) = Z.to_nat MAX_EVENT_HISTORY;
  ho_idx : current_idx b = Z.of_nat (length es) mod MAX_EVENT_HISTORY;
  ho_count : event_count b = Z.min (Z.of_nat (length es)) MAX_EVENT_HISTORY;
  ho_slots : forall j e, es !! j = Some e -> (length es <= j + Z.to_nat MAX_EVENT_HISTORY)%nat ->
    events b !! Z.to_nat (Z.of_nat (S j) mod MAX_EVENT_HISTORY) = Some e
}.

Lemma slot_ne a c : 0 <= a < c -> c < a + MAX_EVENT_HISTORY ->
  a mod MAX_EVENT_HISTORY <> c mod MAX_EVENT_HISTORY.
Proof.
  intros H1 H2 He. unfold MAX_EVENT_HISTORY in *.
  pose proof (Z.div_mod a 512 ltac:(lia)). pose proof (Z.div_mod c 512 ltac:(lia)). lia.
Qed.

Lemma add_history_of es e b : history_of es b -> history_of (es ++ [e]) (add_history e b).
Proof.
  intros [Hi Hl Hx Hc Hs]. pose proof (Z.mod_pos_bound (Z.of_nat (length es)) MAX_EVENT_HISTORY eq_refl).
  assert (Hn : c_rem (current_idx b + 1) MAX_EVENT_HISTORY =
               Z.of_nat (length es + 1) mod MAX_EVENT_HISTORY).
  { rewrite Hx, Z.rem_mod_nonneg by lia. rewrite Z.add_mod_idemp_l by done. f_equal. lia. }
  pose proof (Z.mod_pos_bound (Z.of_nat (length es + 1)) MAX_EVENT_HISTORY eq_refl).
  constructor; simpl; rewrite ?length_app; cbn [length].
  - done.
  - by rewrite length_insert.
  - done.
  - rewrite Hc. destruct (Z.ltb_spec (Z.min (Z.of_nat (length es)) MAX_EVENT_HISTORY) MAX_EVENT_HISTORY); lia.
  - intros j x Hj Hjl. rewrite Hn. apply lookup_app_Some in Hj as [Hj|[Hj1 Hj2]].
    + pose proof (lookup_lt_Some _ _ _ Hj). rewrite list_lookup_insert_ne; [apply Hs; [done|lia]|].
      pose proof (Z.mod_pos_bound (Z.of_nat (S j)) MAX_EVENT_HISTORY eq_refl).
      intros He%Z2Nat.inj; [|lia..]. symmetry in He. apply slot_ne in He; [done|lia|].
      unfold MAX_EVENT_HISTORY in *. lia.
    + apply list_lookup_singleton_Some in Hj2 as [Hj2 ->].
      replace (S j) with (length es + 1)%nat by lia. apply list_lookup_insert_eq.
      rewrite Hl. apply Z2Nat.inj_lt; lia.
Qed.

Lemma publish_one_of call p es b : inert call ->
  (length (subscribers b) <= MAX_SUBSCRIBERS_GLOBAL)%nat -> history_of es b ->
  history_of (es ++ [made (next_event_id b) p]) (publish_one call p b) /\
  next_event_id (publish_one call p b) = u64 (next_event_id b + 1) /\
  subscribers (publish_one call p b) = subscribers b.
Proof.
  intros Hc Hl Hh. unfold publish_one, sm_eventbus_publish. rewrite (ho_init _ _ Hh). cbn [negb].
  cbv zeta. set (b1 := mk_bus _ _ _ _ _ _ _ _ _ _).
  rewrite notify_inert by done. simpl. split_and!; [|done|done].
  assert (Hh1 : history_of es b1) by (destruct Hh; by constructor).
  apply (add_history_of es (made (next_event_id b) p)) in Hh1. destruct Hh1; by constructor.
Qed.

Fixpoint publish_all call (ps : list publication) (b : eventbus_t) : eventbus_t :=
  match ps with [] => b | p :: ps' => publish_all call ps' (publish_one call p b) end.

Lemma publish_all_of call ps es b k : inert call ->
  (length (subscribers b) <= MAX_SUBSCRIBERS_GLOBAL)%nat -> history_of es b ->
  next_event_id b = u64 k ->
  history_of (es ++ imap (fun i p => made (u64 (k + Z.of_nat i)) p) ps) (publish_all call ps b).
Proof.
  intros Hc. revert es b k. induction ps as [|p ps IH]; intros es b k Hl Hh Hk; simpl.
  { by rewrite app_nil_r. }
  destruct (publish_one_of call p es b Hc Hl Hh) as (Hh1 & Hn1 & Hs1). rewrite Hk in *.
  assert (Hk1 : next_event_id (publish_one call p b) = u64 (k + 1))
    by (rewrite Hn1; unfold u64, wrap; by rewrite Zplus_mod_idemp_l).
  specialize (IH _ _ (k + 1) ltac:(by rewrite Hs1) Hh1 Hk1).
  rewrite <- app_assoc in IH. simpl in IH. rewrite Z.add_0_r.
  rewrite (imap_ext _ (fun i p => made (u64 (k + 1 + Z.of_nat i)) p)); [exact IH|].
  intros i x _. simpl. do 2 f_equal. lia.
Qed.

Lemma collect_all b es k i room :
  length es = k ->
  (forall m, (m < k)%nat ->
     zlookup (events b) (c_rem (current_idx b - event_count b + (i + Z.of_nat m) + 1) MAX_EVENT_HISTORY) =
     es !! m) ->
  collect_history b None k i room = Some (take (Z.to_nat room) es).
Proof.
  revert es i room. induction k as [|k IH]; intros [|e es] i room Hl Hz; try done.
  { simpl. by rewrite take_nil. }
  cbn [collect_history]. destruct (Z.leb_spec room 0).
  { by replace (Z.to_nat room) with 0%nat by lia. }
  pose proof (Hz 0%nat ltac:(lia)) as H0. rewrite Z.add_0_r in H0. rewrite H0. cbn [lookup list_lookup].
  rewrite (IH es); [|by injection Hl|].
  - replace (Z.to_nat room) with (S (Z.to_nat (room - 1))) by lia. done.
  - intros m Hm. specialize (Hz (S m) ltac:(lia)). change ((e :: es) !! S m) with (es !! m) in Hz.
    rewrite <- Hz. f_equal. f_equal. lia.
Qed.

Lemma history_small es b max : history_of es b -> 0 < max ->
  Z.of_nat (length es) < MAX_EVENT_HISTORY \/
  Z.of_nat (length es) mod MAX_EVENT_HISTORY = MAX_EVENT_HISTORY - 1 ->
  sm_eventbus_get_event_history None max b =
    Some (take (Z.to_nat max) (drop (length es - Z.to_nat MAX_EVENT_HISTORY) es)).
Proof.
  intros [Hi Hl Hx Hc Hs] Hm Hcase. unfold sm_eventbus_get_event_history.
  destruct (Z.leb_spec max 0); [lia|]. rewrite (collect_all _ (drop (length es - Z.to_nat MAX_EVENT_HISTORY) es)).
  - done.
  - rewrite Hc, length_drop. unfold MAX_EVENT_HISTORY. lia.
  - intros m Hmc. rewrite lookup_drop. set (j := (length es - Z.to_nat MAX_EVENT_HISTORY + m)%nat).
    assert (Hj : (j < length es)%nat) by (subst j; unfold MAX_EVENT_HISTORY in *; lia).
    destruct (lookup_lt_is_Some_2 es j Hj) as [e He]. rewrite He.
    assert (Hidx : c_rem (current_idx b - event_count b + (0 + Z.of_nat m) + 1) MAX_EVENT_HISTORY =
                   Z.of_nat (S j) mod MAX_EVENT_HISTORY).
    { rewrite Hx, Hc in *. unfold MAX_EVENT_HISTORY in *. subst j.
      pose proof (Z.div_mod (Z.of_nat (length es)) 512 ltac:(lia)).
      destruct Hcase as [Hlt|Hr].
      - rewrite Z.min_l, (Z.mod_small (Z.of_nat (length es))) by lia.
        rewrite Z.rem_mod_nonneg by lia. f_equal. lia.
      - rewrite Hr. destruct (decide (Z.of_nat (length es) < 512)).
        + rewrite Z.mod_small in Hr by lia. rewrite Z.rem_mod_nonneg by lia. f_equal. lia.
        + rewrite Z.min_r, Z.rem_mod_nonneg by lia.
          rewrite Hr in *. set (q := Z.of_nat (length es) / 512) in *.
          replace (Z.of_nat (S (length es - Z.to_nat 512 + m))) with (Z.of_nat m + q * 512) by lia.
          rewrite Z.mod_add by lia. f_equal. lia. }
    rewrite Hidx. pose proof (Z.mod_pos_bound (Z.of_nat (S j)) MAX_EVENT_HISTORY eq_refl).
    unfold zlookup. destruct (Z.ltb_spec (Z.of_nat (S j) mod MAX_EVENT_HISTORY) 0); [lia|].
    apply Hs; [done|]. subst j. unfold MAX_EVENT_HISTORY in *. lia.
Qed.

Lemma history_wrapped es b max type : history_of es b -> 0 < max ->
  MAX_EVENT_HISTORY <= Z.of_nat (length es) ->
  Z.of_nat (length es) mod MAX_EVENT_HISTORY <> MAX_EVENT_HISTORY - 1 ->
  sm_eventbus_get_event_history type max b = None.
Proof.
  intros [Hi Hl Hx Hc Hs] Hm Hn Hr. unfold sm_eventbus_get_event_history.
  destruct (Z.leb_spec max 0); [lia|]. rewrite Hc, Z.min_r by lia.
  assert (Hk : exists k, Z.to_nat MAX_EVENT_HISTORY = S k) by (by exists 511%nat).
  destruct Hk as [k ->]. cbn [collect_history].
  destruct (Z.leb_spec max 0); [lia|]. rewrite Hx, Hc, Z.min_r by lia.
  unfold MAX_EVENT_HISTORY in *. pose proof (Z.mod_pos_bound (Z.of_nat (length es)) 512 eq_refl).
  set (r := Z.of_nat (length es) mod 512) in *. clearbody r.
  replace (c_rem (r - 512 + 0 + 1) 512) with (r - 511).
  - unfold zlookup. by destruct (Z.ltb_spec (r - 511) 0); [|lia].
  - replace (r - 512 + 0 + 1) with (- (511 - r)) by lia.
    rewrite Z.rem_opp_l by lia. rewrite Z.rem_small by lia. lia.
Qed.

(** C15: after [n] publications the history is the last [min n 512] events, oldest
    first, as long as [n < 512] or [n mod 512 = 511]; after any other number of
    publications the first index the loop computes is negative and the function
    reads outside the array. *)
Theorem history_exact call ps b max : inert call -> 0 < max ->
  (length (subscribers b) <= MAX_SUBSCRIBERS_GLOBAL)%nat -> history_of [] b ->
  0 <= next_event_id b < 2 ^ 64 ->
  let n := length ps in
  sm_eventbus_get_event_history None max (publish_all call ps b) =
  if (Z.of_nat n <? MAX_EVENT_HISTORY) || (Z.of_nat n mod MAX_EVENT_HISTORY =? MAX_EVENT_HISTORY - 1)
  then Some (take (Z.to_nat max) (drop (n - Z.to_nat MAX_EVENT_HISTORY)
               (imap (fun i p => made (u64 (next_event_id b + Z.of_nat i)) p) ps)))
  else None.
Proof.
  intros Hc Hm Hl Hh Hid. cbv zeta.
  pose proof (publish_all_of call ps [] b (next_event_id b) Hc Hl Hh) as Hp.
  rewrite wrap_small in Hp by lia. specialize (Hp eq_refl). simpl in Hp.
  set (es := imap _ ps) in *. assert (Hn : length es = length ps) by apply length_imap.
  rewrite <- Hn. destruct (Z.ltb_spec (Z.of_nat (length es)) MAX_EVENT_HISTORY); cbn [orb].
  - apply history_small; [done|done|by left].
  - destruct (Z.eqb_spec (Z.of_nat (length es) mod MAX_EVENT_HISTORY) (MAX_EVENT_HISTORY - 1)).
    + apply history_small; [done|done|by right].
    + by apply history_wrapped with es.
Qed.

(** ** Witnesses *)

Definition bus0 : eventbus_t := (sm_eventbus_init 512 true zero_bus).2.
Definition bus_sub : eventbus_t :=
  (sm_eventbus_subscribe (Some "*"%string) 11 0
     (sm_eventbus_subscribe (Some "service.crash"%string) 10 0 bus0).2).2.

Lemma bus0_history : history_of [] bus0.
Proof. by constructor. Qed.

Lemma publish_delivers_witness :
  (sm_eventbus_publish (fun _ _ _ b => b) 5 (Some "cache.full"%string) (Some "db"%string) None 1
     bus_sub).1.2 = [1%nat].
Proof.
  assert (Hl : (length (subscribers bus_sub) <= MAX_SUBSCRIBERS_GLOBAL)%nat)
    by (apply Nat.leb_le; reflexivity).
  pose proof (publish_delivers (fun _ _ _ b => b) 5 "cache.full"%string "db"%string None 1
                bus_sub eq_refl Hl) as H.
  destruct (sm_eventbus_publish _ 5 _ _ None 1 bus_sub) as [[id called] b'].
  destruct H as (_ & _ & H). destruct H as [H _]; [intros f e u b; reflexivity|].
  rewrite H. vm_compute. reflexivity.
Defined.

(** After 512 publications a query of the history leaves the array. *)
Lemma history_exact_witness :
  let ps := replicate 512 (mk_pub 1 "config.reload" "sm" None 1) in
  sm_eventbus_get_event_history None 10 (publish_all (fun _ _ _ b => b) ps bus0) = None.
Proof.
  intros ps. rewrite (history_exact (fun _ _ _ b => b) ps bus0 10).
  - reflexivity.
  - intros f e u b. reflexivity.
  - reflexivity.
  - apply Nat.leb_le. reflexivity.
  - apply bus0_history.
  - split; [discriminate|reflexivity].
Defined.
