(* ===== verification/HalRegistry.v ===== *)
(** * The registry of hardware devices (hal/interface/hal_interface.c)

    An open-addressing hash table (FNV-1a, linear probing, tombstones) from
    device names to reference-counted devices.  Devices live in a heap of
    addresses; the registry holds one reference to each registered one. *)

From S2P Require Import Prelude.

(** [dev/hal/interface/hal_interface.h:96-108 hal_error_t] *)
Definition HAL_SUCCESS : Z := 0.
Definition HAL_ERROR_GENERIC : Z := -1.
Definition HAL_ERROR_BUSY : Z := -3.
Definition HAL_ERROR_INVALID : Z := -5.
Definition HAL_ERROR_NO_MEMORY : Z := -6.

(** [dev/hal/interface/hal_interface.c:32-39 REGISTRY_MAX_LOAD] *)
Definition HAL_REGISTRY_SIZE : nat := 128.
Definition REGISTRY_MAX_LOAD : Z := 96.
Definition SLOT_EMPTY : Z := 0.
Definition SLOT_TOMBSTONE : Z := 2 ^ 32 - 1.
Definition HAL_DEVICE_MAGIC : Z := 0xD3A1C0DE.
Definition HAL_CURRENT_VERSION : Z := Z.lor (Z.lor (Z.shiftl 2 16) (Z.shiftl 1 8)) 0.

(** [dev/hal/interface/hal_interface.h:144-149 hal_device_state_t] *)
Inductive hal_device_state_t :=
| HAL_STATE_CLOSED | HAL_STATE_OPEN | HAL_STATE_ACTIVE | HAL_STATE_ERROR.

#[export] Instance hal_state_eq : EqDecision hal_device_state_t.
Proof. solve_decision. Defined.

(** [dev/hal/interface/hal_interface.h:236-249 hw_device_t] [has_stop], [has_close],
    [has_cleanup]: the function pointers are set. *)
Record hw_device := mk_dev {
  dev_name : string;
  dev_type : Z;
  version : Z;
  dev_state : hal_device_state_t;
  has_stop : bool; has_close : bool; has_cleanup : bool;
  ref_count : Z;
  magic : Z
}.

(** [dev/hal/interface/hal_interface.c:40-43 registry_slot_t] [device = 0] is NULL. *)
Record registry_slot_t := mk_slot { slot_hash : Z; device : Z }.
#[export] Instance slot_inhabited : Inhabited registry_slot_t := populate (mk_slot 0 0).

Record hal := mk_hal {
  heap : gmap Z hw_device;       (** the devices that are allocated *)
  slots : list registry_slot_t;  (** [g_registry] *)
  count : Z                      (** [g_registry_count] *)
}.

Definition hal0 : hal := mk_hal ∅ (replicate HAL_REGISTRY_SIZE (mk_slot 0 0)) 0.

(** [dev/hal/interface/hal_interface.c:62-73 fnv1a_hash] *)
Fixpoint fnv1a_loop (s : string) (hash : Z) : Z :=
  match s with
  | EmptyString => hash
  | String c s' => fnv1a_loop s' (u32 (Z.lxor hash (byte_of c) * 16777619))
  end.
Definition fnv1a_hash (s : string) : Z :=
  let hash := fnv1a_loop s 2166136261 in
  let hash := if hash =? SLOT_EMPTY then 1 else hash in
  if hash =? SLOT_TOMBSTONE then SLOT_TOMBSTONE - 1 else hash.

(** The name of a device that is in the heap. *)
Definition name_at (h : gmap Z hw_device) (p : Z) : string :=
  match h !! p with Some d => dev_name d | None => "" end.

(** [dev/hal/interface/hal_interface.c:95-122 hal_device_init] [p]: the block the
    caller allocated, [lock]: the lock could be initialised.  The function
    pointers are set by the caller afterwards. *)
Definition hal_device_init (p : Z) (nm : option string) (type : Z) (lock : bool) (s : hal)
    : Z * hal :=
  match nm with
  | None => (HAL_ERROR_INVALID, s)
  | Some nm =>
      if p =? 0 then (HAL_ERROR_INVALID, s)
      else
        let d m := mk_dev (strncpy_z 63 nm) type HAL_CURRENT_VERSION HAL_STATE_CLOSED
                     false false false 1 m in
        if lock then (HAL_SUCCESS, mk_hal (<[p := d HAL_DEVICE_MAGIC]> (heap s)) (slots s) (count s))
        else (HAL_ERROR_GENERIC, mk_hal (<[p := d 0]> (heap s)) (slots s) (count s))
  end.

Definition add_ref (n : Z) (d : hw_device) : hw_device :=
  mk_dev (dev_name d) (dev_type d) (version d) (dev_state d) (has_stop d) (has_close d)
    (has_cleanup d) (i32 (ref_count d + n)) (magic d).

(** [dev/hal/interface/hal_interface.c:156-160 hal_device_ref] *)
Definition hal_device_ref (p : Z) (s : hal) : hal :=
  if p =? 0 then s else mk_hal (alter (add_ref 1) p (heap s)) (slots s) (count s).

(** What the last owner calls. *)
Inductive hal_call := CallStop | CallClose | CallCleanup | Destroyed.

Section ops.
(** What the device's own [stop] and [close] leave of its state. *)
Context (after_stop after_close : hal_device_state_t -> hal_device_state_t).

(** [dev/hal/interface/hal_interface.c:188-201 hal_device_unref, the teardown] *)
Definition teardown (d : hw_device) : list hal_call :=
  let '(c1, st) :=
    if bool_decide (dev_state d = HAL_STATE_ACTIVE) && has_stop d
    then ([CallStop], after_stop (dev_state d)) else ([], dev_state d) in
  let '(c2, _) :=
    if bool_decide (st <> HAL_STATE_CLOSED) && has_close d
    then ([CallClose], after_close st) else ([], st) in
  c1 ++ c2 ++ (if has_cleanup d then [CallCleanup] else []) ++ [Destroyed].

(** [dev/hal/interface/hal_interface.c:180-202 hal_device_unref] *)
Definition hal_device_unref (p : Z) (s : hal) : list hal_call * hal :=
  if p =? 0 then ([], s)
  else match heap s !! p with
       | None => ([], s)
       | Some d =>
           if negb (ref_count d =? 1)
           then ([], mk_hal (alter (add_ref (-1)) p (heap s)) (slots s) (count s))
           else (teardown d, mk_hal (delete p (heap s)) (slots s) (count s))
       end.

(** [dev/hal/interface/hal_interface.c:339-339 the probe sequence] *)
Definition probe_idx (hash : Z) (i : nat) : nat :=
  Z.to_nat (Z.land (u32 (hash + Z.of_nat i)) (Z.of_nat HAL_REGISTRY_SIZE - 1)).

(** What the scan of [hal_device_register] ends with. *)
Inductive scan_result := Insert (target : nat) | Busy | NoRoom.

(** [dev/hal/interface/hal_interface.c:336-362 hal_device_register, the scan] [n] steps
    are left; [tomb] is the first tombstone seen. *)
Fixpoint register_scan (s : hal) (hash : Z) (nm : string) (n i : nat) (tomb : option nat)
    : scan_result :=
  match n with
  | O => NoRoom
  | S n' =>
      let idx := probe_idx hash i in
      let sl := slots s !!! idx in
      if slot_hash sl =? SLOT_EMPTY
      then Insert (match tomb with Some t => t | None => idx end)
      else if slot_hash sl =? SLOT_TOMBSTONE
      then register_scan s hash nm n' (S i) (match tomb with Some t => Some t | None => Some idx end)
      else if (slot_hash sl =? hash) && String.eqb (name_at (heap s) (device sl)) nm then Busy
      else register_scan s hash nm n' (S i) tomb
  end.

(** [dev/hal/interface/hal_interface.c:323-366 hal_device_register] *)
Definition hal_device_register (p : Z) (s : hal) : Z * hal :=
  if p =? 0 then (HAL_ERROR_INVALID, s)
  else
    let nm := name_at (heap s) p in
    let hash := fnv1a_hash nm in
    if REGISTRY_MAX_LOAD <=? count s then (HAL_ERROR_NO_MEMORY, s)
    else match register_scan s hash nm HAL_REGISTRY_SIZE 0 None with
         | Insert t =>
             (HAL_SUCCESS,
              hal_device_ref p (mk_hal (heap s) (<[t := mk_slot hash p]> (slots s)) (u32 (count s + 1))))
         | Busy => (HAL_ERROR_BUSY, s)
         | NoRoom => (HAL_ERROR_NO_MEMORY, s)
         end.

(** [dev/hal/interface/hal_interface.c:393-407 hal_device_unregister and hal_device_find,
    the scan] The first slot that matches, unless an empty one comes before. *)
Fixpoint probe (s : hal) (matches : registry_slot_t -> bool) (hash : Z) (n i : nat) : option nat :=
  match n with
  | O => None
  | S n' =>
      let idx := probe_idx hash i in
      let sl := slots s !!! idx in
      if slot_hash sl =? SLOT_EMPTY then None
      else if matches sl then Some idx
      else probe s matches hash n' (S i)
  end.

(** [dev/hal/interface/hal_interface.c:385-410 hal_device_unregister] *)
Definition hal_device_unregister (p : Z) (s : hal) : list hal_call * hal :=
  if p =? 0 then ([], s)
  else
    let hash := fnv1a_hash (name_at (heap s) p) in
    match probe s (fun sl => (slot_hash sl =? hash) && (device sl =? p)) hash HAL_REGISTRY_SIZE 0 with
    | Some idx =>
        hal_device_unref p
          (mk_hal (heap s) (<[idx := mk_slot SLOT_TOMBSTONE 0]> (slots s)) (u32 (count s - 1)))
    | None => ([], s)
    end.

(** [dev/hal/interface/hal_interface.c:427-454 hal_device_find] *)
Definition hal_device_find (nm : option string) (s : hal) : option Z * hal :=
  match nm with
  | None => (None, s)
  | Some nm =>
      let hash := fnv1a_hash nm in
      match probe s (fun sl => negb (slot_hash sl =? SLOT_TOMBSTONE) && (slot_hash sl =? hash) &&
                               String.eqb (name_at (heap s) (device sl)) nm)
              hash HAL_REGISTRY_SIZE 0 with
      | Some idx => let p := device (slots s !!! idx) in (Some p, hal_device_ref p s)
      | None => (None, s)
      end
  end.

Definition occupied (sl : registry_slot_t) : bool :=
  negb (slot_hash sl =? SLOT_EMPTY) && negb (slot_hash sl =? SLOT_TOMBSTONE).

(** [dev/hal/interface/hal_interface.c:470-489 hal_device_list] the devices written, each
    with one more reference. *)
Definition hal_device_list (out : bool) (max_devices : Z) (s : hal) : list Z * hal :=
  if negb out || (max_devices <=? 0) then ([], s)
  else
    let ps := take (Z.to_nat max_devices) (device <$> List.filter occupied (slots s)) in
    (ps, fold_left (fun s p => hal_device_ref p s) ps s).
End ops.

(** [dev/hal/interface/hal_interface.c:506-522 hal_device_iterate] the devices the
    callback sees, in order. *)
Definition hal_device_iterate (s : hal) : list Z := device <$> List.filter occupied (slots s).

#[local] Arguments HAL_REGISTRY_SIZE : simpl never.
#[local] Arguments REGISTRY_MAX_LOAD : simpl never.
#[local] Arguments fnv1a_hash : simpl never.
#[local] Arguments probe_idx : simpl never.

(** ** The probe sequence *)

Definition home (hash : Z) : nat := Z.to_nat (hash mod 128).

Lemma probe_idx_ring hash i : 0 <= hash ->
  probe_idx hash i = ((home hash + i) mod HAL_REGISTRY_SIZE)%nat.
Proof.
  intros Hh. unfold probe_idx, home, HAL_REGISTRY_SIZE.
  change (Z.of_nat 128 - 1) with (Z.ones 7). rewrite Z.land_ones by lia.
  change (2 ^ 7) with 128. unfold u32, wrap.
  assert (Hm : (hash + Z.of_nat i) mod 2 ^ 32 mod 128 = (hash mod 128 + Z.of_nat i) mod 128).
  { rewrite (Z.add_mod (hash mod 128)), Z.mod_mod, <- Z.add_mod by lia.
    symmetry. apply Znumtheory.Zmod_div_mod; [lia|lia|]. by exists (2 ^ 25). }
  pose proof (Z.mod_pos_bound hash 128 eq_refl).
  rewrite Hm, Z2Nat.inj_mod, Z2Nat.inj_add, Nat2Z.id by lia. done.
Qed.

Lemma probe_idx_lt hash i : 0 <= hash -> (probe_idx hash i < HAL_REGISTRY_SIZE)%nat.
Proof. intros. rewrite probe_idx_ring by done. apply Nat.mod_upper_bound. done. Qed.

Lemma home_lt hash : (home hash < HAL_REGISTRY_SIZE)%nat.
Proof.
  unfold home, HAL_REGISTRY_SIZE. pose proof (Z.mod_pos_bound hash 128 eq_refl). lia.
Qed.

(** Every slot is probed once. *)
Lemma probe_reaches hash idx : 0 <= hash -> (idx < HAL_REGISTRY_SIZE)%nat ->
  exists k, (k < HAL_REGISTRY_SIZE)%nat /\ probe_idx hash k = idx.
Proof.
  intros Hh Hi. exists (ring_dist HAL_REGISTRY_SIZE (home hash) idx).
  split; [by apply ring_dist_lt|]. rewrite probe_idx_ring by done.
  apply ring_dist_head; [apply home_lt|done].
Qed.

Lemma probe_idx_inj hash i k : 0 <= hash -> (i < HAL_REGISTRY_SIZE)%nat -> (k < HAL_REGISTRY_SIZE)%nat ->
  probe_idx hash i = probe_idx hash k -> i = k.
Proof. intros Hh Hi Hk. rewrite !probe_idx_ring by done. by apply mod_inj. Qed.

Lemma fnv1a_hash_range s : 0 < fnv1a_hash s < SLOT_TOMBSTONE.
Proof.
  assert (Hl : forall s h, 0 <= h < 2 ^ 32 -> 0 <= fnv1a_loop s h < 2 ^ 32).
  { clear s. induction s as [|c s IH]; intros h Hh; simpl; [done|]. apply IH. by apply wrap_range. }
  unfold fnv1a_hash. specialize (Hl s 2166136261 ltac:(lia)).
  set (h := fnv1a_loop s _) in *. clearbody h. unfold SLOT_EMPTY, SLOT_TOMBSTONE in *.
  destruct (Z.eqb_spec h 0); [by vm_compute|].
  destruct (Z.eqb_spec h (2 ^ 32 - 1)); lia.
Qed.

(** ** The scan of find and unregister *)

Lemma probe_some s m hash n i idx : probe s m hash n i = Some idx ->
  exists k, (i <= k < i + n)%nat /\ probe_idx hash k = idx /\ m (slots s !!! idx) = true /\
    slot_hash (slots s !!! idx) <> SLOT_EMPTY /\
    forall j, (i <= j < k)%nat -> slot_hash (slots s !!! probe_idx hash j) <> SLOT_EMPTY.
Proof.
  revert i. induction n as [|n IH]; intros i H; simpl in H; [done|].
  destruct (Z.eqb_spec (slot_hash (slots s !!! probe_idx hash i)) SLOT_EMPTY); [done|].
  destruct (m (slots s !!! probe_idx hash i)) eqn:Hm.
  - simplify_eq. exists i. split_and!; [lia|lia|done|done|done|intros; lia].
  - apply IH in H as (k & Hk & Hi & Hmk & He & Hb). exists k. split_and!; try done; [lia|lia|].
    intros j Hj. destruct (decide (j = i)) as [->|]; [done|]. apply Hb. lia.
Qed.

Lemma probe_none s m hash n i k : probe s m hash n i = None -> (i <= k < i + n)%nat ->
  (forall j, (i <= j <= k)%nat -> slot_hash (slots s !!! probe_idx hash j) <> SLOT_EMPTY) ->
  m (slots s !!! probe_idx hash k) = false.
Proof.
  revert i. induction n as [|n IH]; intros i H Hk Hb; [lia|]. simpl in H.
  destruct (Z.eqb_spec (slot_hash (slots s !!! probe_idx hash i)) SLOT_EMPTY) as [He|He].
  { exfalso. apply (Hb i); [lia|done]. }
  destruct (m (slots s !!! probe_idx hash i)) eqn:Hm; rewrite ?Hm in H; [done|].
  destruct (decide (k = i)) as [->|]; [done|].
  apply (IH (S i)); [done|lia|]. intros j Hj. apply Hb. lia.
Qed.

(** ** The invariant *)

(** Slot [idx] holds a device. *)
Definition holds (s : hal) (idx : nat) (p : Z) : Prop :=
  exists sl, slots s !! idx = Some sl /\ occupied sl = true /\ device sl = p.

(** The name-to-device map the table stands for. *)
Definition registered (s : hal) (nm : string) (p : Z) : Prop :=
  exists idx, holds s idx p /\ name_at (heap s) p = nm.

Record hal_inv (s : hal) : Prop := {
  hi_len : length (slots s) = HAL_REGISTRY_SIZE;
  hi_slot : forall idx p, holds s idx p ->
    p <> 0 /\ is_Some (heap s !! p) /\ slot_hash (slots s !!! idx) = fnv1a_hash (name_at (heap s) p);
  hi_uniq : forall i j p q, holds s i p -> holds s j q ->
    name_at (heap s) p = name_at (heap s) q -> i = j;
  hi_reach : forall idx p k, holds s idx p -> (k < HAL_REGISTRY_SIZE)%nat ->
    probe_idx (fnv1a_hash (name_at (heap s) p)) k = idx ->
    forall j, (j < k)%nat ->
      slot_hash (slots s !!! probe_idx (fnv1a_hash (name_at (heap s) p)) j) <> SLOT_EMPTY;
  hi_count : count s = Z.of_nat (count_true (fun i => occupied (slots s !!! i)) HAL_REGISTRY_SIZE);
  hi_max : count s <= REGISTRY_MAX_LOAD
}.

Lemma holds_total s idx p : length (slots s) = HAL_REGISTRY_SIZE ->
  holds s idx p <-> (idx < HAL_REGISTRY_SIZE)%nat /\ occupied (slots s !!! idx) = true /\
                    device (slots s !!! idx) = p.
Proof.
  intros Hl. split.
  - intros (sl & Hs & Ho & Hd). pose proof (lookup_lt_Some _ _ _ Hs).
    rewrite (list_lookup_total_correct _ _ _ Hs). rewrite Hl in *. done.
  - intros (Hi & Ho & Hd). exists (slots s !!! idx).
    split; [apply list_lookup_lookup_total_lt; by rewrite Hl|done].
Qed.

Lemma occupied_nonempty sl : occupied sl = true -> slot_hash sl <> SLOT_EMPTY /\ slot_hash sl <> SLOT_TOMBSTONE.
Proof.
  unfold occupied. intros [H1 H2]%andb_true_iff. apply negb_true_iff, Z.eqb_neq in H1, H2. done.
Qed.

(** A scan that finds nothing proves that no slot matches. *)
Lemma probe_none_all s m idx p : hal_inv s -> holds s idx p ->
  probe s m (fnv1a_hash (name_at (heap s) p)) HAL_REGISTRY_SIZE 0 = None ->
  m (slots s !!! idx) = false.
Proof.
  intros Hi Hh Hp. pose proof Hh as Hh'. apply holds_total in Hh' as (Hidx & Ho & _); [|apply Hi].
  pose proof (fnv1a_hash_range (name_at (heap s) p)).
  destruct (probe_reaches (fnv1a_hash (name_at (heap s) p)) idx) as (k & Hk & Hki); [lia|done|].
  rewrite <- Hki. eapply probe_none; [exact Hp|lia|]. intros j Hj.
  destruct (decide (j = k)) as [->|Hjk].
  - rewrite Hki. by apply occupied_nonempty.
  - eapply (hi_reach _ Hi idx p k); [done|done|done|lia].
Qed.

(** ** Lookup *)

Definition name_match (s : hal) (nm : string) (sl : registry_slot_t) : bool :=
  negb (slot_hash sl =? SLOT_TOMBSTONE) && (slot_hash sl =? fnv1a_hash nm) &&
  String.eqb (name_at (heap s) (device sl)) nm.

Lemma name_match_spec s idx nm : hal_inv s -> (idx < HAL_REGISTRY_SIZE)%nat ->
  slot_hash (slots s !!! idx) <> SLOT_EMPTY ->
  name_match s nm (slots s !!! idx) = true <->
  holds s idx (device (slots s !!! idx)) /\ name_at (heap s) (device (slots s !!! idx)) = nm.
Proof.
  intros Hi Hidx He. rewrite holds_total by apply Hi. unfold name_match. rewrite !andb_true_iff.
  rewrite negb_true_iff, Z.eqb_neq, Z.eqb_eq, String.eqb_eq. unfold occupied.
  rewrite andb_true_iff, !negb_true_iff, !Z.eqb_neq. split; [naive_solver|].
  intros ((_ & (Ho1 & Ho2) & _) & Hn). split_and!; try done.
  destruct (hi_slot _ Hi idx (device (slots s !!! idx))) as (_ & _ & Hh); [|by rewrite Hh, Hn].
  apply holds_total; [apply Hi|]. split_and!; [done| |done].
  unfold occupied. by apply Z.eqb_neq in Ho1 as ->, Ho2 as ->.
Qed.

Lemma hal_find_cases s nm : hal_inv s ->
  (exists p idx, hal_device_find (Some nm) s = (Some p, hal_device_ref p s) /\ holds s idx p /\
     name_at (heap s) p = nm) \/
  (hal_device_find (Some nm) s = (None, s) /\ forall p, ~ registered s nm p).
Proof.
  intros Hi. unfold hal_device_find. fold (name_match s nm).
  destruct (probe s _ _ _ _) as [idx|] eqn:Hp.
  - left. apply probe_some in Hp as (k & Hk & Hidx & Hm & He & _).
    pose proof (fnv1a_hash_range nm).
    apply name_match_spec in Hm as [Hh Hn]; [|done|rewrite <- Hidx; apply probe_idx_lt; lia|done].
    eauto 10.
  - right. split; [done|]. intros p (idx & Hh & Hn). rewrite <- Hn in Hp.
    pose proof (probe_none_all _ _ _ _ Hi Hh Hp) as Hm. rewrite Hn in Hm.
    pose proof Hh as Hh'. apply holds_total in Hh' as (Hidx & Ho & Hd); [|apply Hi].
    apply occupied_nonempty in Ho as [Ho1 _]. apply not_true_iff_false in Hm. apply Hm.
    apply name_match_spec; [done..|]. by rewrite Hd.
Qed.

(** ** Changing one slot *)

Lemma holds_update s t sl h c j q : length (slots s) = HAL_REGISTRY_SIZE ->
  (t < HAL_REGISTRY_SIZE)%nat ->
  holds (mk_hal h (<[t := sl]> (slots s)) c) j q <->
  (if decide (j = t) then occupied sl = true /\ device sl = q else holds s j q).
Proof.
  intros Hl Ht. unfold holds. simpl. case_decide as Hj.
  - subst. rewrite list_lookup_insert_eq by lia. naive_solver.
  - by rewrite list_lookup_insert_ne.
Qed.

Lemma count_slot (l : list registry_slot_t) t sl : length l = HAL_REGISTRY_SIZE ->
  (t < HAL_REGISTRY_SIZE)%nat -> occupied (l !!! t) <> occupied sl ->
  let c l := count_true (fun i => occupied (l !!! i)) HAL_REGISTRY_SIZE in
  if occupied sl then c (<[t := sl]> l) = S (c l) else c l = S (c (<[t := sl]> l)).
Proof.
  intros Hl Ht Hne. cbv zeta.
  assert (Hn : forall j, j <> t -> <[t := sl]> l !!! j = l !!! j)
    by (intros; by apply list_lookup_total_insert_ne).
  assert (He : <[t := sl]> l !!! t = sl) by (apply list_lookup_total_insert_eq; lia).
  destruct (occupied sl) eqn:Ho, (occupied (l !!! t)) eqn:Ho'; try done;
    apply (count_true_flip _ _ _ t); rewrite ?He; try done; intros j Hj; by rewrite Hn.
Qed.

(** Probes leave a changed slot's predecessors alone. *)
Lemma nonempty_update (l : list registry_slot_t) t sl j : length l = HAL_REGISTRY_SIZE ->
  slot_hash sl <> SLOT_EMPTY -> slot_hash (l !!! j) <> SLOT_EMPTY ->
  slot_hash (<[t := sl]> l !!! j) <> SLOT_EMPTY.
Proof.
  intros Hl Hs Hj. destruct (decide (j = t)) as [->|]; [|by rewrite list_lookup_total_insert_ne].
  destruct (decide (t < length l)%nat); [by rewrite list_lookup_total_insert_eq|].
  by rewrite list_insert_ge by lia.
Qed.

Lemma insert_inv s p m : hal_inv s -> p <> 0 -> is_Some (heap s !! p) ->
  let nm := name_at (heap s) p in let t := probe_idx (fnv1a_hash nm) m in
  (m < HAL_REGISTRY_SIZE)%nat -> occupied (slots s !!! t) = false ->
  (forall j, (j < m)%nat -> slot_hash (slots s !!! probe_idx (fnv1a_hash nm) j) <> SLOT_EMPTY) ->
  (forall q, ~ registered s nm q) -> count s < REGISTRY_MAX_LOAD ->
  hal_inv (mk_hal (heap s) (<[t := mk_slot (fnv1a_hash nm) p]> (slots s)) (count s + 1)).
Proof.
  intros Hi Hp Hlive nm t Hm Hfree Hb Hnew Hc. pose proof (fnv1a_hash_range nm) as Hr.
  assert (Ht : (t < HAL_REGISTRY_SIZE)%nat) by (apply probe_idx_lt; lia).
  pose proof (hi_len _ Hi) as Hl. set (sl := mk_slot (fnv1a_hash nm) p).
  assert (Hosl : occupied sl = true).
  { unfold occupied, sl. simpl. unfold SLOT_EMPTY, SLOT_TOMBSTONE in *.
    destruct (Z.eqb_spec (fnv1a_hash nm) 0); [lia|]. by destruct (Z.eqb_spec (fnv1a_hash nm) (2^32-1)); [lia|]. }
  constructor; simpl.
  - by rewrite length_insert.
  - intros idx q Hh. apply holds_update in Hh; [|done|done]. case_decide as Hj.
    + destruct Hh as [_ <-]. subst. rewrite list_lookup_total_insert_eq by lia. done.
    + rewrite list_lookup_total_insert_ne by done. by apply Hi.
  - intros i j q1 q2 H1 H2 Hn. apply holds_update in H1, H2; try done.
    case_decide as Hi1; case_decide as Hj1; [congruence| | |by apply (hi_uniq _ Hi i j q1 q2)].
    + destruct H2 as [_ Hq]. change (p = q2) in Hq. subst q2. destruct (Hnew q1). by exists i.
    + destruct H1 as [_ Hq]. change (p = q1) in Hq. subst q1. destruct (Hnew q2). by exists j.
  - intros idx q k Hh Hk Hki j Hj. apply nonempty_update; [done|simpl; unfold SLOT_EMPTY; lia|].
    apply holds_update in Hh; [|done|done]. case_decide as Hit.
    + destruct Hh as [_ <-]. subst idx. simpl in Hki, Hj |- *. fold nm in Hki |- *.
      apply probe_idx_inj in Hki as ->; [|lia|done|done]. by apply Hb.
    + by eapply (hi_reach _ Hi idx q k).
  - pose proof (count_slot (slots s) t sl Hl Ht) as Hcs. rewrite Hosl, Hfree in Hcs.
    rewrite Hcs by done. rewrite (hi_count _ Hi). lia.
  - lia.
Qed.

Lemma remove_inv s idx p : hal_inv s -> holds s idx p ->
  hal_inv (mk_hal (heap s) (<[idx := mk_slot SLOT_TOMBSTONE 0]> (slots s)) (count s - 1)).
Proof.
  intros Hi Hh. pose proof (hi_len _ Hi) as Hl. set (sl := mk_slot SLOT_TOMBSTONE 0).
  pose proof Hh as Hh'. apply holds_total in Hh' as (Hidx & Ho & Hd); [|done].
  assert (Hup : forall j q, holds (mk_hal (heap s) (<[idx := sl]> (slots s)) (count s - 1)) j q ->
                j <> idx /\ holds s j q).
  { intros j q Hq. apply holds_update in Hq; [|done|done]. case_decide; [by destruct Hq|done]. }
  constructor; simpl.
  - by rewrite length_insert.
  - intros j q [Hj Hq]%Hup. rewrite list_lookup_total_insert_ne by done. by apply Hi.
  - intros i j q1 q2 [_ H1]%Hup [_ H2]%Hup. by apply (hi_uniq _ Hi).
  - intros j q k [_ Hq]%Hup Hk Hki j' Hj'. apply nonempty_update; [done|done|].
    by eapply (hi_reach _ Hi j q k).
  - pose proof (count_slot (slots s) idx sl Hl Hidx) as Hcs. rewrite Ho in Hcs. simpl in Hcs.
    rewrite (hi_count _ Hi), Hcs by done. lia.
  - pose proof (hi_max _ Hi). lia.
Qed.

(** ** The scan of register *)

Definition free_slot (sl : registry_slot_t) : Prop := occupied sl = false.

Lemma name_match_tomb s nm sl : slot_hash sl = SLOT_TOMBSTONE -> name_match s nm sl = false.
Proof. intros H. unfold name_match. by rewrite H. Qed.

Lemma scan_spec s nm n i tomb :
  match register_scan s (fnv1a_hash nm) nm n i tomb with
  | Insert t =>
      probe s (name_match s nm) (fnv1a_hash nm) n i = None /\
      (tomb = Some t \/
       exists m, (i <= m < i + n)%nat /\ t = probe_idx (fnv1a_hash nm) m /\
         free_slot (slots s !!! t) /\
         forall j, (i <= j < m)%nat ->
           slot_hash (slots s !!! probe_idx (fnv1a_hash nm) j) <> SLOT_EMPTY)
  | Busy => exists idx, probe s (name_match s nm) (fnv1a_hash nm) n i = Some idx
  | NoRoom =>
      probe s (name_match s nm) (fnv1a_hash nm) n i = None /\
      forall j, (i <= j < i + n)%nat ->
        slot_hash (slots s !!! probe_idx (fnv1a_hash nm) j) <> SLOT_EMPTY
  end.
Proof.
  revert i tomb. induction n as [|n IH]; intros i tomb; cbn [register_scan probe].
  { split; [done|lia]. }
  set (idx := probe_idx (fnv1a_hash nm) i). set (sl := slots s !!! idx).
  destruct (Z.eqb_spec (slot_hash sl) SLOT_EMPTY) as [He|He].
  { split; [done|]. destruct tomb as [t|]; [by left|right]. exists i. split_and!; [lia|lia|done| |intros; lia].
    unfold free_slot, occupied. fold idx sl. by rewrite He. }
  destruct (Z.eqb_spec (slot_hash sl) SLOT_TOMBSTONE) as [Ht|Ht].
  - rewrite name_match_tomb by done.
    specialize (IH (S i) (match tomb with Some t => Some t | None => Some idx end)).
    destruct (register_scan _ _ _ _ _ _) as [t| |]; [|done|].
    + destruct IH as [Hp Hcase]. split; [done|]. destruct tomb as [t0|].
      * destruct Hcase as [?|(m & Hm & -> & Hf & Hb)]; [by left|right].
        exists m. split_and!; [lia|lia|done|done|]. intros j Hj.
        destruct (decide (j = i)) as [->|]; [done|apply Hb; lia].
      * right. destruct Hcase as [[= <-]|(m & Hm & -> & Hf & Hb)].
        -- exists i. split_and!; [lia|lia|done| |intros; lia]. unfold free_slot, occupied.
           fold sl. rewrite Ht. by rewrite andb_false_r.
        -- exists m. split_and!; [lia|lia|done|done|]. intros j Hj.
           destruct (decide (j = i)) as [->|]; [done|apply Hb; lia].
    + destruct IH as [Hp Hb]. split; [done|]. intros j Hj.
      destruct (decide (j = i)) as [->|]; [done|apply Hb; lia].
  - assert (Hm : (slot_hash sl =? fnv1a_hash nm) && String.eqb (name_at (heap s) (device sl)) nm =
                 name_match s nm sl).
    { unfold name_match. by apply Z.eqb_neq in Ht as ->. }
    rewrite Hm. destruct (name_match s nm sl) eqn:Hmt; [by exists idx|].
    specialize (IH (S i) tomb). destruct (register_scan _ _ _ _ _ _) as [t| |]; [|done|].
    + destruct IH as [Hp Hcase]. split; [done|].
      destruct Hcase as [?|(m & Hm' & -> & Hf & Hb)]; [by left|right].
      exists m. split_and!; [lia|lia|done|done|]. intros j Hj.
      destruct (decide (j = i)) as [->|]; [done|apply Hb; lia].
    + destruct IH as [Hp Hb]. split; [done|]. intros j Hj.
      destruct (decide (j = i)) as [->|]; [done|apply Hb; lia].
Qed.


(** ** The heap *)

(** The invariant reads the heap only for the names of the registered devices. *)
Lemma hal_inv_heap s h' : hal_inv s ->
  (forall idx q, holds s idx q -> is_Some (h' !! q) /\ name_at h' q = name_at (heap s) q) ->
  hal_inv (mk_hal h' (slots s) (count s)).
Proof.
  intros Hi Hh. constructor; cbn [heap slots count]; try apply Hi.
  - intros idx p Hp. destruct (Hh idx p Hp) as [? ->]. destruct (hi_slot _ Hi idx p Hp) as (? & _ & ?).
    done.
  - intros i j p q Hp Hq. destruct (Hh i p Hp) as [_ ->], (Hh j q Hq) as [_ ->].
    by apply (hi_uniq _ Hi).
  - intros idx p k Hp. destruct (Hh idx p Hp) as [_ ->]. by apply (hi_reach _ Hi).
Qed.

Lemma name_at_alter h f p q : (forall d, dev_name (f d) = dev_name d) ->
  name_at (alter f p h) q = name_at h q.
Proof.
  intros Hf. unfold name_at. destruct (decide (q = p)) as [->|].
  - rewrite lookup_alter_eq. destruct (h !! p); simpl; [apply Hf|done].
  - by rewrite lookup_alter_ne.
Qed.

Lemma alter_inv s f p : (forall d, dev_name (f d) = dev_name d) -> hal_inv s ->
  hal_inv (mk_hal (alter f p (heap s)) (slots s) (count s)).
Proof.
  intros Hf Hi. apply hal_inv_heap; [done|]. intros idx q Hq. rewrite name_at_alter by done.
  split; [|done]. destruct (hi_slot _ Hi idx q Hq) as (_ & [d Hd] & _).
  destruct (decide (q = p)) as [->|]; [rewrite lookup_alter_eq|rewrite lookup_alter_ne by done];
    rewrite Hd; by eexists.
Qed.

Lemma ref_inv p s : hal_inv s -> hal_inv (hal_device_ref p s).
Proof. intros. unfold hal_device_ref. destruct (p =? 0); [done|]. by apply alter_inv. Qed.

Lemma ref_holds p s idx q : holds (hal_device_ref p s) idx q <-> holds s idx q.
Proof. unfold hal_device_ref. by destruct (p =? 0). Qed.

Lemma ref_name p s q : name_at (heap (hal_device_ref p s)) q = name_at (heap s) q.
Proof. unfold hal_device_ref. destruct (p =? 0); [done|]. by apply name_at_alter. Qed.

Lemma ref_registered p s nm q : registered (hal_device_ref p s) nm q <-> registered s nm q.
Proof. unfold registered. setoid_rewrite ref_holds. by rewrite ref_name. Qed.

(** Only the heap entry of the device itself changes in [unref]. *)
Lemma unref_shape fs fc p s :
  slots (snd (hal_device_unref fs fc p s)) = slots s /\
  count (snd (hal_device_unref fs fc p s)) = count s /\
  forall q, q <> p -> heap (snd (hal_device_unref fs fc p s)) !! q = heap s !! q.
Proof.
  unfold hal_device_unref. destruct (p =? 0); [done|]. destruct (heap s !! p) as [d|]; [|done].
  destruct (negb _); simpl; (split_and!; [done..|]); intros.
  - by rewrite lookup_alter_ne.
  - by rewrite lookup_delete_ne.
Qed.

(** A device that is not registered can be released without harm to the table. *)
Lemma unref_inv fs fc p s : hal_inv s -> (forall idx, ~ holds s idx p) ->
  hal_inv (snd (hal_device_unref fs fc p s)) /\
  forall nm q, registered (snd (hal_device_unref fs fc p s)) nm q <-> registered s nm q.
Proof.
  intros Hi Hno. pose proof (unref_shape fs fc p s) as (Hsl & Hc & Hh).
  destruct (snd (hal_device_unref fs fc p s)) as [h' sl' c'] eqn:E. simpl in *. subst sl' c'.
  assert (Hq : forall idx q, holds s idx q -> is_Some (h' !! q) /\ name_at h' q = name_at (heap s) q).
  { intros idx q Hq. assert (q <> p) by (intros ->; by apply (Hno idx)).
    unfold name_at. rewrite Hh by done. by apply (hi_slot _ Hi) in Hq as (_ & ? & _). }
  split; [by apply hal_inv_heap|]. intros nm q. unfold registered, holds in *. simpl.
  split; intros (idx & Hx & <-); exists idx; (split; [done|]); destruct (Hq idx q Hx) as [_ ?]; done.
Qed.

(** ** Register and unregister *)

Lemma probe_name_none s nm : hal_inv s ->
  probe s (name_match s nm) (fnv1a_hash nm) HAL_REGISTRY_SIZE 0 = None ->
  forall q, ~ registered s nm q.
Proof.
  intros Hi Hp q (idx & Hh & Hn). pose proof (hal_find_cases s nm Hi) as [(p & i & Hf & _)|[_ Hno]].
  - unfold hal_device_find in Hf. fold (name_match s nm) in Hf. by rewrite Hp in Hf.
  - apply (Hno q). by exists idx.
Qed.

Lemma probe_name_some s nm idx : hal_inv s ->
  probe s (name_match s nm) (fnv1a_hash nm) HAL_REGISTRY_SIZE 0 = Some idx ->
  exists q, registered s nm q.
Proof.
  intros Hi Hp. pose proof (hal_find_cases s nm Hi) as [(p & i & _ & Hh & Hn)|[Hf _]].
  - exists p, i. done.
  - unfold hal_device_find in Hf. fold (name_match s nm) in Hf. by rewrite Hp in Hf.
Qed.

Lemma registered_insert s t nm p c nm' q : hal_inv s -> (t < HAL_REGISTRY_SIZE)%nat ->
  occupied (slots s !!! t) = false -> name_at (heap s) p = nm ->
  registered (mk_hal (heap s) (<[t := mk_slot (fnv1a_hash nm) p]> (slots s)) c) nm' q <->
  (q = p /\ nm' = nm) \/ registered s nm' q.
Proof.
  intros Hi Ht Hf <-. pose proof (hi_len _ Hi) as Hl. unfold registered. simpl.
  assert (Ho : occupied (mk_slot (fnv1a_hash (name_at (heap s) p)) p) = true).
  { unfold occupied. simpl. pose proof (fnv1a_hash_range (name_at (heap s) p)).
    unfold SLOT_EMPTY in *. rewrite andb_true_iff, !negb_true_iff, !Z.eqb_neq. lia. }
  setoid_rewrite holds_update; [|done..]. split.
  - intros (idx & Hh & Hn). case_decide; [destruct Hh as [_ Hq]; simpl in Hq; subst; by left|].
    right. by exists idx.
  - intros [[-> ->]|(idx & Hh & Hn)]; [exists t; by rewrite decide_True|].
    exists idx. case_decide; [|done]. subst. exfalso.
    apply holds_total in Hh as (_ & Ho' & _); [|done]. congruence.
Qed.

Definition full (s : hal) : Prop := forall idx, (idx < HAL_REGISTRY_SIZE)%nat ->
  slot_hash (slots s !!! idx) <> SLOT_EMPTY.

Lemma count_nonneg s : hal_inv s -> 0 <= count s.
Proof. intros Hi. rewrite (hi_count _ Hi). lia. Qed.

(** Every way [hal_device_register] can go. *)
Lemma register_cases s p : hal_inv s -> p <> 0 -> is_Some (heap s !! p) ->
  let nm := name_at (heap s) p in
  let '(rc, s') := hal_device_register p s in
  (rc = HAL_SUCCESS /\ count s < REGISTRY_MAX_LOAD /\ (forall q, ~ registered s nm q) /\
     hal_inv s' /\ count s' = count s + 1 /\ heap s' = alter (add_ref 1) p (heap s) /\
     forall nm' q, registered s' nm' q <-> (q = p /\ nm' = nm) \/ registered s nm' q) \/
  (rc = HAL_ERROR_BUSY /\ s' = s /\ exists q, registered s nm q) \/
  (rc = HAL_ERROR_NO_MEMORY /\ s' = s /\ (REGISTRY_MAX_LOAD <= count s \/ full s)).
Proof.
  intros Hi Hp Hlive nm. unfold hal_device_register. apply Z.eqb_neq in Hp as Hp'. rewrite Hp'.
  fold nm. destruct (Z.leb_spec REGISTRY_MAX_LOAD (count s)) as [Hc|Hc]; [by auto 10|].
  pose proof (scan_spec s nm HAL_REGISTRY_SIZE 0 None) as Hs. pose proof (fnv1a_hash_range nm) as Hr.
  destruct (register_scan _ _ _ _ _ _) as [t| |].
  - left. destruct Hs as [Hpr [?|(m & Hm & -> & Hf & Hb)]]; [done|]. unfold free_slot in Hf.
    pose proof (probe_name_none _ _ Hi Hpr) as Hnew. pose proof (count_nonneg _ Hi) as Hc0.
    assert (Hu : u32 (count s + 1) = count s + 1)
      by (apply wrap_small; unfold REGISTRY_MAX_LOAD in Hc; lia).
    rewrite Hu. assert (probe_idx (fnv1a_hash nm) m < HAL_REGISTRY_SIZE)%nat by (apply probe_idx_lt; lia).
    assert (Hi' := insert_inv s p m Hi Hp Hlive). cbv zeta in Hi'. fold nm in Hi'.
    specialize (Hi' ltac:(lia) Hf ltac:(intros; apply Hb; lia) Hnew Hc).
    split_and!; [done|done|done|by apply ref_inv| | |].
    + unfold hal_device_ref. by rewrite Hp'.
    + unfold hal_device_ref. by rewrite Hp'.
    + intros nm' q. rewrite ref_registered. by apply registered_insert.
  - right; left. destruct Hs as [idx Hpr]. split_and!; [done|done|]. by eapply probe_name_some.
  - right; right. destruct Hs as [_ Hb]. split_and!; [done|done|right]. intros idx Hidx.
    destruct (probe_reaches (fnv1a_hash nm) idx) as (k & Hk & <-); [lia|done|]. apply Hb. lia.
Qed.

(** The state between taking the device out and releasing it. *)
Definition taken_out (s : hal) (idx : nat) : hal :=
  mk_hal (heap s) (<[idx := mk_slot SLOT_TOMBSTONE 0]> (slots s)) (count s - 1).

Lemma taken_out_spec s idx p : hal_inv s -> holds s idx p ->
  hal_inv (taken_out s idx) /\ (forall j, ~ holds (taken_out s idx) j p) /\
  forall j q, q <> p -> holds (taken_out s idx) j q <-> holds s j q.
Proof.
  intros Hi Hh. pose proof (hi_len _ Hi) as Hl. split; [by eapply remove_inv|].
  pose proof Hh as Hh'. apply holds_total in Hh' as (Hidx & _ & Hd); [|done].
  unfold taken_out. split.
  - intros j. rewrite holds_update by done. case_decide as Hj; [by intros [? _]|].
    intros Hp. apply Hj. by apply (hi_uniq _ Hi j idx p p).
  - intros j q Hq. rewrite holds_update by done. case_decide as Hj; [|done]. subst j. split.
    + by intros [? _].
    + intros (sl & Hs & _ & Hd'). destruct Hh as (sl' & Hs' & _ & Hd''). congruence.
Qed.

(** [hal_device_unregister] takes the device out of its slot and releases the table's
    reference, or the device is not in the table and nothing happens. *)
Lemma unregister_cases fs fc s p : hal_inv s -> p <> 0 ->
  (exists idx, holds s idx p /\
  hal_device_unregister fs fc p s = hal_device_unref fs fc p (taken_out s idx)) \/
  (hal_device_unregister fs fc p s = ([], s) /\ forall idx, ~ holds s idx p).
Proof.
  intros Hi Hp. unfold hal_device_unregister. apply Z.eqb_neq in Hp as ->.
  set (nm := name_at (heap s) p). pose proof (fnv1a_hash_range nm) as Hr.
  destruct (probe _ _ _ _ _) as [idx|] eqn:Hpr.
  - left. apply probe_some in Hpr as (k & Hk & Hki & Hm & He & _).
    apply andb_true_iff in Hm as [Hm1 Hm2]. apply Z.eqb_eq in Hm1, Hm2.
    assert (Hh : holds s idx p).
    { apply holds_total; [apply Hi|]. split_and!; [|..|done].
      - rewrite <- Hki. apply probe_idx_lt. lia.
      - unfold occupied. rewrite Hm1. unfold SLOT_EMPTY in *.
        rewrite andb_true_iff, !negb_true_iff, !Z.eqb_neq. lia. }
    exists idx. split; [done|]. unfold taken_out. do 2 f_equal.
    pose proof (hi_max _ Hi). unfold REGISTRY_MAX_LOAD in *. apply wrap_small.
    pose proof (count_nonneg _ (proj1 (taken_out_spec _ _ _ Hi Hh))) as Hc. simpl in Hc. lia.
  - right. split; [done|]. intros idx Hh. pose proof (probe_none_all _ _ _ _ Hi Hh Hpr) as Hm.
    pose proof (hi_slot _ Hi _ _ Hh) as (_ & _ & Hs). destruct Hh as (sl & Hsl & _ & Hd).
    rewrite (list_lookup_total_correct _ _ _ Hsl) in *. unfold nm in Hm.
    by rewrite Hs, Hd, !Z.eqb_refl in Hm.
Qed.

Lemma unregister_spec fs fc s p : hal_inv s -> p <> 0 ->
  let s' := snd (hal_device_unregister fs fc p s) in
  hal_inv s' /\ forall nm q, registered s' nm q <-> registered s nm q /\ q <> p.
Proof.
  intros Hi Hp s'. subst s'. destruct (unregister_cases fs fc s p Hi Hp) as [(idx & Hh & ->)|[-> Hno]].
  - destruct (taken_out_spec _ _ _ Hi Hh) as (Hi' & Hno & Hiff).
    destruct (unref_inv fs fc p _ Hi' Hno) as [? Hr]. split; [done|]. intros nm q. rewrite Hr.
    unfold registered. split.
    + intros (j & Hj & Hn). assert (q <> p) by (intros ->; by apply (Hno j)).
      split; [|done]. exists j. by rewrite <- Hiff.
    + intros [(j & Hj & Hn) Hq]. exists j. by rewrite Hiff.
  - split; [done|]. intros nm q. split; [|by intros [? _]]. intros Hr. split; [done|].
    intros ->. destruct Hr as (j & Hj & _). by apply (Hno j).
Qed.

(** ** The contract of the registry *)

(** The table stands for a map from names to devices. *)
Definition hal_map (s : hal) (m : gmap string Z) : Prop :=
  forall nm p, m !! nm = Some p <-> registered s nm p.

(** C16: The table implements a map from names to devices: a lookup returns exactly
    what the map has under the name; a registration succeeds and adds the device
    when the name is new and a slot is left, is refused as BUSY only when the
    name is taken, and as NO_MEMORY only when 96 devices are registered or no
    slot is empty; unregistering a device removes it and nothing else. *)
Theorem hal_registry_refines fs fc s m p nm :
  hal_inv s -> hal_map s m -> p <> 0 -> is_Some (heap s !! p) ->
  (let '(found, s') := hal_device_find (Some nm) s in
   found = m !! nm /\ hal_inv s' /\ hal_map s' m) /\
  (let n := name_at (heap s) p in
   let '(rc, s') := hal_device_register p s in
   hal_inv s' /\
   ((rc = HAL_SUCCESS /\ m !! n = None /\ hal_map s' (<[n := p]> m)) \/
    (rc = HAL_ERROR_BUSY /\ is_Some (m !! n) /\ s' = s) \/
    (rc = HAL_ERROR_NO_MEMORY /\ (REGISTRY_MAX_LOAD <= count s \/ full s) /\ s' = s))) /\
  (let s' := snd (hal_device_unregister fs fc p s) in
   hal_inv s' /\ hal_map s' (filter (fun kv => kv.2 <> p) m)).
Proof.
  intros Hi Hm Hp Hlive. split_and!.
  - destruct (hal_find_cases s nm Hi) as [(q & idx & -> & Hh & Hn)|[-> Hno]].
    + split_and!; [|by apply ref_inv|].
      * symmetry. apply Hm. by exists idx.
      * intros nm' q'. by rewrite ref_registered.
    + split_and!; [|done|done]. destruct (m !! nm) as [q|] eqn:E; [|done].
      apply Hm in E. by apply Hno in E.
  - pose proof (register_cases s p Hi Hp Hlive) as Hr. cbv zeta in Hr |- *.
    destruct (hal_device_register p s) as [rc s'].
    destruct Hr as [(-> & _ & Hnew & Hi' & _ & _ & Hreg)|[(-> & -> & q & Hq)|(-> & -> & Hf)]].
    + split; [done|left]. split_and!; [done| |].
      * destruct (m !! _) as [q|] eqn:E; [|done]. apply Hm in E. by apply Hnew in E.
      * intros nm' q. rewrite Hreg, lookup_insert_Some, (Hm nm' q). naive_solver.
    + split; [done|right; left]. split_and!; [done| |done]. apply Hm in Hq. by eexists.
    + split; [done|right; right]. done.
  - destruct (unregister_spec fs fc s p Hi Hp) as [Hi' Hr]. split; [done|].
    intros nm' q. by rewrite Hr, map_lookup_filter_Some, (Hm nm' q).
Qed.

(** ** The life of a device *)

Section life.
Context (after_stop after_close : hal_device_state_t -> hal_device_state_t).

(** [held p]: the references the program's own code holds on the device at [p]. *)
Definition give (held : Z -> Z) (p n : Z) : Z -> Z :=
  fun q => if decide (q = p) then held q + n else held q.

(** The counter of no device can run over. *)
Definition few (held : Z -> Z) : Prop :=
  forall p, held p + Z.of_nat HAL_REGISTRY_SIZE + 1 < 2 ^ 31.

(** What a program does that obeys the interface: it passes a device to the registry
    only while it holds a reference, gives back the references it has, and does not
    touch the name and the counter of a device itself. *)
Inductive hal_step : hal * (Z -> Z) -> hal * (Z -> Z) -> Prop :=
| step_init s g p nm ty :
    p <> 0 -> heap s !! p = None ->
    hal_step (s, g) (snd (hal_device_init p (Some nm) ty true s), give g p 1)
| step_touch s g p f :
    0 < g p -> (forall d, dev_name (f d) = dev_name d /\ ref_count (f d) = ref_count d) ->
    hal_step (s, g) (mk_hal (alter f p (heap s)) (slots s) (count s), g)
| step_ref s g p :
    0 < g p -> few g -> hal_step (s, g) (hal_device_ref p s, give g p 1)
| step_unref s g p :
    0 < g p ->
    hal_step (s, g) (snd (hal_device_unref after_stop after_close p s), give g p (-1))
| step_register s g p :
    0 < g p -> few g -> hal_step (s, g) (snd (hal_device_register p s), g)
| step_unregister s g p :
    0 < g p -> hal_step (s, g) (snd (hal_device_unregister after_stop after_close p s), g)
| step_find s g nm p s' :
    few g -> hal_device_find (Some nm) s = (Some p, s') -> hal_step (s, g) (s', give g p 1)
| step_list s g out n :
    few g ->
    hal_step (s, g) (snd (hal_device_list out n s),
                     fold_left (fun g p => give g p 1) (fst (hal_device_list out n s)) g).

(** The table's own references. *)
Definition table_ref (s : hal) (p : Z) : Z :=
  if existsb (fun sl => occupied sl && (device sl =? p)) (slots s) then 1 else 0.

Lemma table_ref_spec s p : (table_ref s p = 1 /\ exists nm, registered s nm p) \/
                           (table_ref s p = 0 /\ forall nm, ~ registered s nm p).
Proof.
  unfold table_ref. destruct (existsb _ _) eqn:E; [left|right]; split; try done.
  - apply existsb_exists in E as (sl & Hin & [Ho Hd]%andb_true_iff).
    apply list_elem_of_In, list_elem_of_lookup in Hin as [idx Hs].
    exists (name_at (heap s) p), idx. split; [|done]. exists sl. by apply Z.eqb_eq in Hd.
  - intros nm (idx & (sl & Hs & Ho & Hd) & _). apply not_true_iff_false in E. apply E.
    apply existsb_exists. exists sl. split; [|by rewrite Ho, Hd, Z.eqb_refl].
    apply list_elem_of_In, list_elem_of_lookup. by exists idx.
Qed.

Lemma table_ref_ext s s' p :
  (forall nm, registered s nm p <-> registered s' nm p) -> table_ref s p = table_ref s' p.
Proof.
  intros H. destruct (table_ref_spec s p) as [[-> [i Hi]]|[-> Hn]],
    (table_ref_spec s' p) as [[-> [j Hj]]|[-> Hn']]; try done; exfalso; naive_solver.
Qed.

Lemma holds_registered s idx p : holds s idx p -> registered s (name_at (heap s) p) p.
Proof. intros. by exists idx. Qed.

(** The counter of every device is [r], and a device with no references is gone. *)
Definition counted (s : hal) (r : Z -> Z) : Prop := forall p,
  match heap s !! p with
  | Some d => ref_count d = r p /\ 0 < ref_count d < 2 ^ 31 /\ p <> 0
  | None => r p = 0
  end.

(** The references of the program and of the table are all there are. *)
Definition live (s : hal) (g : Z -> Z) : Prop :=
  hal_inv s /\ (forall p, 0 <= g p) /\ counted s (fun p => g p + table_ref s p).

Lemma counted_ext s r r' : (forall p, r p = r' p) -> counted s r -> counted s r'.
Proof. intros H Hc p. specialize (Hc p). by rewrite <- H. Qed.

Lemma counted_slots s r sl c : counted s r -> counted (mk_hal (heap s) sl c) r.
Proof. done. Qed.

Lemma counted_alive s r p : counted s r -> 0 < r p -> p <> 0 /\ is_Some (heap s !! p).
Proof. intros Hc Hp. specialize (Hc p). destruct (heap s !! p); [|lia]. naive_solver. Qed.

Lemma ref_counted s r p : counted s r -> 0 < r p -> r p + 1 < 2 ^ 31 ->
  counted (hal_device_ref p s) (give r p 1).
Proof.
  intros Hc Hp Hb q. destruct (counted_alive _ _ _ Hc Hp) as [Hp0 [d Hd]]. unfold give, hal_device_ref.
  apply Z.eqb_neq in Hp0 as Hp0'. rewrite Hp0'. cbn [heap]. specialize (Hc q).
  case_decide as E; [subst q|by rewrite lookup_alter_ne by done].
  rewrite lookup_alter_eq, Hd in *. simpl. rewrite i32_small by lia. lia.
Qed.

Lemma unref_counted s r p : counted s r -> 0 < r p ->
  counted (snd (hal_device_unref after_stop after_close p s)) (give r p (-1)).
Proof.
  intros Hc Hp q. destruct (counted_alive _ _ _ Hc Hp) as [Hp0 [d Hd]]. unfold give, hal_device_unref.
  apply Z.eqb_neq in Hp0 as Hp0'. rewrite Hp0', Hd. pose proof (Hc p) as Hcp. rewrite Hd in Hcp.
  specialize (Hc q). destruct (Z.eqb_spec (ref_count d) 1) as [H1|H1]; simpl;
    (case_decide as E; [subst q|by rewrite ?lookup_alter_ne, ?lookup_delete_ne by done]).
  - rewrite lookup_delete_eq. lia.
  - rewrite lookup_alter_eq, Hd. simpl. rewrite i32_small by lia. lia.
Qed.

(** A reference that is given back: the device goes if it was the last. *)
Lemma unref_live s r p : hal_inv s -> counted s r -> 0 < r p -> (forall q, table_ref s q <= give r p (-1) q) ->
  let s' := snd (hal_device_unref after_stop after_close p s) in
  hal_inv s' /\ counted s' (give r p (-1)) /\ forall q, table_ref s' q = table_ref s q.
Proof.
  intros Hi Hc Hp Ht s'. subst s'. split_and!.
  - destruct (table_ref_spec s p) as [[H1 _]|[H0 Hno]].
    + unfold hal_device_unref. destruct (p =? 0); [done|]. destruct (heap s !! p) as [d|] eqn:Hd; [|done].
      specialize (Ht p). rewrite H1 in Ht. unfold give in Ht. rewrite decide_True in Ht by done.
      specialize (Hc p). rewrite Hd in Hc. destruct (Z.eqb_spec (ref_count d) 1); [lia|].
      by apply alter_inv.
    + apply unref_inv; [done|]. intros idx Hh%holds_registered. by apply Hno in Hh.
  - by apply unref_counted.
  - intros q. unfold table_ref. by destruct (unref_shape after_stop after_close p s) as (-> & _).
Qed.

Lemma table_ref_le s p : 0 <= table_ref s p <= 1.
Proof. destruct (table_ref_spec s p) as [[-> _]|[-> _]]; lia. Qed.

Lemma few_bound s g p : few g -> g p + table_ref s p + 1 < 2 ^ 31.
Proof. intros Hf. pose proof (Hf p). pose proof (table_ref_le s p). unfold HAL_REGISTRY_SIZE in *. lia. Qed.

Lemma give_nonneg g p : (forall q, 0 <= g q) -> forall q, 0 <= give g p 1 q.
Proof. intros H q. pose proof (H q). unfold give. case_decide; lia. Qed.

Lemma ref_table p s q : table_ref (hal_device_ref p s) q = table_ref s q.
Proof. apply table_ref_ext. intros. by rewrite ref_registered. Qed.

Lemma step_ref_live s g p : live s g -> 0 < g p + table_ref s p -> g p + table_ref s p + 1 < 2 ^ 31 ->
  live (hal_device_ref p s) (give g p 1).
Proof.
  intros (Hi & Hg & Hc) Hp Hb. split_and!; [by apply ref_inv|by apply give_nonneg|].
  eapply counted_ext, (ref_counted _ _ p Hc); [|done|done].
  intros q. rewrite ref_table. unfold give. case_decide; subst; lia.
Qed.

Lemma step_init_live s g p nm ty : live s g -> p <> 0 -> heap s !! p = None ->
  live (snd (hal_device_init p (Some nm) ty true s)) (give g p 1).
Proof.
  intros (Hi & Hg & Hc) Hp0 Hp. unfold hal_device_init. apply Z.eqb_neq in Hp0 as Hp0'. rewrite Hp0'.
  cbn [snd]. assert (Hlive : forall idx q, holds s idx q -> q <> p).
  { intros idx q Hq ->. apply (hi_slot _ Hi) in Hq as (_ & [? ?] & _). congruence. }
  split_and!; [|by apply give_nonneg|].
  - apply hal_inv_heap; [done|]. intros idx q Hq. pose proof (Hlive _ _ Hq). unfold name_at.
    rewrite lookup_insert_ne by done. by apply (hi_slot _ Hi) in Hq as (_ & ? & _).
  - intros q. specialize (Hc q). unfold give, table_ref. cbn [heap slots]. fold (table_ref s q).
    case_decide as E; [subst q; rewrite lookup_insert_eq|by rewrite lookup_insert_ne by done].
    rewrite Hp in Hc. simpl. pose proof (Hg p). pose proof (table_ref_le s p). lia.
Qed.

Lemma step_touch_live s g p f : live s g ->
  (forall d, dev_name (f d) = dev_name d /\ ref_count (f d) = ref_count d) ->
  live (mk_hal (alter f p (heap s)) (slots s) (count s)) g.
Proof.
  intros (Hi & Hg & Hc) Hf. split_and!; [|done|].
  - apply alter_inv; [|done]. intros d. apply Hf.
  - intros q. specialize (Hc q). unfold table_ref. cbn [heap slots]. fold (table_ref s q).
    destruct (decide (q = p)) as [->|]; [rewrite lookup_alter_eq|by rewrite lookup_alter_ne].
    destruct (heap s !! p) as [d|]; [|done]. simpl. by destruct (Hf d) as [_ ->].
Qed.

Lemma step_unref_live s g p : live s g -> 0 < g p ->
  live (snd (hal_device_unref after_stop after_close p s)) (give g p (-1)).
Proof.
  intros (Hi & Hg & Hc) Hp. pose proof (table_ref_le s p).
  destruct (unref_live s _ p Hi Hc) as (Hi' & Hc' & Ht); [lia| |].
  { intros q. unfold give. pose proof (Hg q). case_decide; subst; lia. }
  split_and!; [done| |].
  - intros q. unfold give. pose proof (Hg q). case_decide; subst; lia.
  - eapply counted_ext, Hc'. intros q. rewrite Ht. unfold give. case_decide; subst; lia.
Qed.

Lemma step_register_live s g p : live s g -> 0 < g p -> few g ->
  live (snd (hal_device_register p s)) g.
Proof.
  intros (Hi & Hg & Hc) Hp Hf. pose proof (table_ref_le s p). pose proof (few_bound s g p Hf).
  destruct (counted_alive _ _ p Hc ltac:(lia)) as [Hp0 Hlive].
  pose proof (register_cases s p Hi Hp0 Hlive) as Hr. cbv zeta in Hr.
  destruct (hal_device_register p s) as [rc s']. cbn [snd].
  destruct Hr as [(_ & _ & Hnew & Hi' & _ & Hh & Hreg)|[(_ & -> & _)|(_ & -> & _)]]; [|done|done].
  split_and!; [done..|]. pose proof (ref_counted s _ p Hc ltac:(lia) ltac:(lia)) as Hc'.
  assert (Hcs : counted s' (give (fun q => g q + table_ref s q) p 1)).
  { intros q. specialize (Hc' q). unfold hal_device_ref in Hc'. apply Z.eqb_neq in Hp0 as E.
    rewrite E in Hc'. by rewrite Hh. }
  eapply counted_ext, Hcs. intros q. unfold give. case_decide as E.
  - subst q. destruct (table_ref_spec s p) as [[_ [nm Hn]]|[-> _]].
    + exfalso. destruct Hn as (idx & Hn & <-). apply (Hnew p). by exists idx.
    + destruct (table_ref_spec s' p) as [[-> _]|[_ Hno]]; [lia|].
      exfalso. eapply Hno, Hreg. by left.
  - f_equal. apply table_ref_ext. intros nm. rewrite Hreg. naive_solver.
Qed.

Lemma step_unregister_live s g p : live s g -> 0 < g p ->
  live (snd (hal_device_unregister after_stop after_close p s)) g.
Proof.
  intros (Hi & Hg & Hc) Hp. pose proof (table_ref_le s p).
  destruct (counted_alive _ _ p Hc ltac:(lia)) as [Hp0 Hlive].
  destruct (unregister_cases after_stop after_close s p Hi Hp0) as [(idx & Hh & ->)|[-> _]]; [|done].
  destruct (taken_out_spec s idx p Hi Hh) as (Hi' & Hno & Hoth).
  assert (Ht : forall q, table_ref (taken_out s idx) q = if decide (q = p) then 0 else table_ref s q).
  { intros q. case_decide as E.
    - subst q. destruct (table_ref_spec (taken_out s idx) p) as [[_ [nm (j & Hj & _)]]|[-> _]]; [|done].
      by destruct (Hno j).
    - apply table_ref_ext. intros nm. unfold registered. by setoid_rewrite Hoth. }
  assert (Hp1 : table_ref s p = 1).
  { destruct (table_ref_spec s p) as [[-> _]|[_ Hn]]; [done|]. by apply holds_registered, Hn in Hh. }
  destruct (unref_live (taken_out s idx) (fun q => g q + table_ref s q) p) as (Hi2 & Hc2 & Ht2);
    [done|done|lia| |].
  { intros q. rewrite Ht. unfold give. pose proof (Hg q). case_decide; subst; lia. }
  split_and!; [done..|]. eapply counted_ext, Hc2. intros q. rewrite Ht2, Ht. unfold give.
  case_decide; subst; lia.
Qed.

Lemma refs_live s g ps : live s g -> Forall (fun p => table_ref s p = 1) ps ->
  (forall p, g p + Z.of_nat (length ps) + 1 < 2 ^ 31) ->
  live (fold_left (fun s p => hal_device_ref p s) ps s) (fold_left (fun g p => give g p 1) ps g).
Proof.
  revert s g. induction ps as [|p ps IH]; intros s g Hl Hps Hb; [done|]. simpl.
  apply Forall_cons in Hps as [Hp Hps]. simpl length in Hb.
  assert (0 <= g p) by apply Hl. pose proof (Hb p). apply IH.
  - apply step_ref_live; [done|lia|lia].
  - eapply Forall_impl; [exact Hps|]. intros q. by rewrite ref_table.
  - intros q. specialize (Hb q). unfold give. case_decide; lia.
Qed.

Lemma step_list_live s g out n : live s g -> few g ->
  live (snd (hal_device_list out n s)) (fold_left (fun g p => give g p 1) (fst (hal_device_list out n s)) g).
Proof.
  intros Hl Hf. unfold hal_device_list. destruct (negb out || (n <=? 0)); [done|]. cbn [fst snd].
  apply refs_live; [done| |].
  - apply Forall_take, Forall_fmap, Forall_forall. intros sl Hsl.
    apply list_elem_of_In, filter_In in Hsl as [Hin Ho]. simpl. unfold table_ref.
    rewrite (proj2 (existsb_exists _ _)); [done|]. exists sl. by rewrite Ho, Z.eqb_refl.
  - intros p. specialize (Hf p). rewrite length_take, length_fmap.
    pose proof (filter_length_le occupied (slots s)). destruct Hl as [Hi _].
    rewrite (hi_len _ Hi) in *. lia.
Qed.

Lemma hal_step_live s g s' g' : hal_step (s, g) (s', g') -> live s g -> live s' g'.
Proof.
  intros Hstep Hl. inversion Hstep; subst.
  - by apply step_init_live.
  - by apply step_touch_live.
  - pose proof (table_ref_le s p). pose proof (few_bound s g p ltac:(done)).
    apply step_ref_live; [done|lia|lia].
  - by apply step_unref_live.
  - by apply step_register_live.
  - by apply step_unregister_live.
  - pose proof (few_bound s g p ltac:(done)). assert (0 <= g p) by apply Hl.
    destruct (hal_find_cases s nm (proj1 Hl)) as [(q & idx & Hf & Hh & _)|[Hf _]]; [|congruence].
    rewrite Hf in *. simplify_eq. apply step_ref_live; [done| |done].
    destruct (table_ref_spec s p) as [[-> _]|[_ Hn]]; [lia|]. by apply holds_registered, Hn in Hh.
  - by apply step_list_live.
Qed.

Lemma hal0_live : live hal0 (fun _ => 0).
Proof.
  assert (Hno : forall idx p, ~ holds hal0 idx p).
  { intros idx p (sl & Hs & Ho & _). apply lookup_replicate in Hs as [-> _]. done. }
  split_and!; [|done|].
  - constructor; try done; try (by intros * ?%Hno).
  - intros p. simpl. rewrite lookup_empty.
    destruct (table_ref_spec hal0 p) as [[_ [nm (idx & Hh & _)]]|[-> _]]; [by apply Hno in Hh|done].
Qed.

(** Whatever sequence of calls a program makes that gives back only references it
    has, a device is allocated exactly while the program or the table refers to it:
    its counter is the number of references, so what is held or registered is never
    freed, what nobody holds is, and the device's own callbacks run exactly when the
    last reference is given back. *)
Theorem hal_device_lifetime s g :
  rtc hal_step (hal0, fun _ => 0) (s, g) ->
  hal_inv s /\ forall p,
    (is_Some (heap s !! p) <-> 0 < g p \/ exists nm, registered s nm p) /\
    (forall d, heap s !! p = Some d -> ref_count d = g p + table_ref s p) /\
    (0 < g p -> fst (hal_device_unref after_stop after_close p s) <> [] <->
                g p + table_ref s p = 1).
Proof.
  intros Hr. assert (Hl : live s g).
  { assert (H : forall x y, rtc hal_step x y -> live (fst x) (snd x) -> live (fst y) (snd y)).
    { induction 1 as [|[??] [??] ? Hs _ IH]; [done|]. intros. apply IH. by eapply hal_step_live. }
    by apply (H _ _ Hr), hal0_live. }
  destruct Hl as (Hi & Hg & Hc). split; [done|]. intros p. pose proof (Hc p) as Hcp. pose proof (Hg p).
  pose proof (table_ref_le s p). split_and!.
  - destruct (heap s !! p) as [d|]; [split; [|done]|].
    + intros _. destruct (table_ref_spec s p) as [[_ ?]|[? _]]; [by right|left; lia].
    + split; [by intros []|]. intros [?|Hn]; [lia|].
      destruct (table_ref_spec s p) as [[? _]|[_ Hno]]; [lia|]. destruct Hn as [nm Hn]. by apply Hno in Hn.
  - intros d Hd. rewrite Hd in Hcp. by destruct Hcp.
  - intros Hp. destruct (counted_alive _ _ p Hc ltac:(lia)) as [Hp0 [d Hd]]. rewrite Hd in Hcp.
    unfold hal_device_unref. apply Z.eqb_neq in Hp0 as ->. rewrite Hd.
    destruct (Z.eqb_spec (ref_count d) 1) as [H1|H1]; simpl.
    + split; [lia|]. intros _ Hnil. unfold teardown in Hnil.
      destruct (bool_decide _ && has_stop d), (bool_decide _ && has_close d), (has_cleanup d);
        simpl in Hnil; try done.
    + split; [done|lia].
Qed.
End life.

(** ** Tombstones *)

(** A table without an empty slot: no name can be added. *)
Lemma scan_all_tombs s hash nm : (forall idx, slot_hash (slots s !!! probe_idx hash idx) = SLOT_TOMBSTONE) ->
  forall n i tomb, register_scan s hash nm n i tomb = NoRoom.
Proof.
  intros Ht n. induction n as [|n IH]; intros i tomb; [done|]. cbn [register_scan]. rewrite Ht.
  apply IH.
Qed.

Lemma forallb_slots s :
  forallb (fun idx => slot_hash (slots s !!! idx) =? SLOT_TOMBSTONE) (seq 0 HAL_REGISTRY_SIZE) = true ->
  forall idx, (idx < HAL_REGISTRY_SIZE)%nat -> slot_hash (slots s !!! idx) = SLOT_TOMBSTONE.
Proof.
  intros H idx Hi. rewrite forallb_forall in H. apply Z.eqb_eq, H, in_seq. lia.
Qed.

Lemma tombs_refuse s :
  (forall idx, (idx < HAL_REGISTRY_SIZE)%nat -> slot_hash (slots s !!! idx) = SLOT_TOMBSTONE) ->
  forall p nm ty, p <> 0 ->
    let s' := snd (hal_device_init p (Some nm) ty true s) in
    hal_device_register p s' = (HAL_ERROR_NO_MEMORY, s').
Proof.
  intros Ht p nm ty Hp s'. subst s'. unfold hal_device_init. apply Z.eqb_neq in Hp. rewrite Hp.
  cbn [snd]. unfold hal_device_register. rewrite Hp. cbv zeta. destruct (_ <=? _); [done|].
  rewrite scan_all_tombs; [done|]. intros idx. cbn [slots]. apply Ht, probe_idx_lt.
  match goal with |- context [fnv1a_hash ?x] => pose proof (fnv1a_hash_range x) end. lia.
Qed.

(** A device appears under a name and goes away again. *)
Definition comes_and_goes (fs fc : hal_device_state_t -> hal_device_state_t) (s : hal) (nm : string) : hal :=
  let s := snd (hal_device_init 1 (Some nm) 0 true s) in
  let s := snd (hal_device_register 1 s) in
  let s := snd (hal_device_unregister fs fc 1 s) in
  snd (hal_device_unref fs fc 1 s).

(** Short names, enough for every home slot: ["a!"], ..., ["b~"]. *)
Definition churn_names : list string :=
  flat_map (fun a => map (fun k => String a (String (ascii_of_nat k) "")) (seq 33 94))
           ["a"%char; "b"%char; "c"%char].

Definition churned : hal := fold_left (comes_and_goes id id) churn_names hal0.

(** After the devices of 282 names have come and gone one after the other, no device
    is registered or allocated, and still every registration is refused as out of
    memory, whatever its name: every slot holds a tombstone, and the scan inserts
    only when it meets an empty slot. *)
Theorem hal_tombstones_fill_table :
  count churned = 0 /\ hal_device_iterate churned = [] /\ heap churned = ∅ /\
  forall p nm ty, p <> 0 ->
    let s := snd (hal_device_init p (Some nm) ty true churned) in
    hal_device_register p s = (HAL_ERROR_NO_MEMORY, s).
Proof.
  split_and!; [by vm_compute..|]. apply tombs_refuse, forallb_slots. by vm_compute.
Qed.

(** Two devices, one of them registered, then found and released by both sides. *)
Lemma hal_registry_refines_witness :
  let s := snd (hal_device_init 1 (Some "gpio0") 4 true hal0) in
  hal_inv s /\ hal_map s ∅ /\
  (let '(rc, s') := hal_device_register 1 s in
   hal_inv s' /\
   ((rc = HAL_SUCCESS /\ (∅ : gmap string Z) !! "gpio0" = None /\ hal_map s' (<["gpio0" := 1]> ∅)) \/
    (rc = HAL_ERROR_BUSY /\ is_Some ((∅ : gmap string Z) !! "gpio0") /\ s' = s) \/
    (rc = HAL_ERROR_NO_MEMORY /\ (REGISTRY_MAX_LOAD <= count s \/ full s) /\ s' = s))).
Proof.
  intros s. assert (Hi : hal_inv s).
  { apply (step_init_live hal0 (fun _ => 0) 1 "gpio0" 4); [apply hal0_live|done|done]. }
  assert (Hm : hal_map s ∅).
  { intros nm p. rewrite lookup_empty. split; [done|].
    intros (idx & (sl & Hs & Ho & _) & _). apply lookup_replicate in Hs as [-> _]. done. }
  split_and!; [done..|]. 
  exact (proj1 (proj2 (hal_registry_refines id id s ∅ 1 "gpio0" Hi Hm ltac:(done) ltac:(by eexists)))).
Defined.

Lemma hal_device_lifetime_witness :
  let s1 := snd (hal_device_init 1 (Some "gpio0") 4 true hal0) in
  let s2 := snd (hal_device_register 1 s1) in
  let s3 := snd (hal_device_unref id id 1 s2) in
  rtc (hal_step id id) (hal0, fun _ => 0) (s3, give (give (fun _ => 0) 1 1) 1 (-1)) /\
  is_Some (heap s3 !! 1) /\ hal_inv s3.
Proof.
  intros s1 s2 s3.
  assert (Hr : rtc (hal_step id id) (hal0, fun _ => 0) (s3, give (give (fun _ => 0) 1 1) 1 (-1))).
  { eapply rtc_l; [by apply (step_init id id hal0 _ 1 "gpio0" 4)|].
    assert (Hf : few (give (fun _ => 0) 1 1)).
    { intros p. unfold give, HAL_REGISTRY_SIZE. case_decide; lia. }
    eapply rtc_l; [exact (step_register id id s1 (give (fun _ => 0) 1 1) 1 eq_refl Hf)|].
    apply rtc_once. exact (step_unref id id s2 (give (fun _ => 0) 1 1) 1 eq_refl). }
  split_and!; [done|by eexists|]. exact (proj1 (hal_device_lifetime id id _ _ Hr)).
Defined.
