(* ===== verification/Verify.v ===== *)
(** * Signed messages and service tokens (security/verify/)

    The library that services use to sign messages and tokens with the shared
    key: verify.c, verify_token.c, verify_replay.c over the HMAC of Crypto.  The
    monotonic clock, [malloc], random bytes, files and the environment are
    arguments; a context is a record and calls return the new one. *)

From S2P Require Import Prelude Crypto.

(** [dev/security/verify/verify_replay.h:8-15 replay_context_t] *)
Record replay_context_t := mk_replay {
  last_timestamp : Z;
  last_sequence : Z;
  timestamp_window_sec : Z;
  r_strict_ordering : bool;
  r_timestamp_check : bool
}.

(** [dev/security/verify/verify.h:21-26 message_auth_t] *)
Record message_auth_t := mk_auth { auth_hmac : list Z; timestamp : Z; nonce : Z; sequence : Z }.

(** [dev/security/verify/verify.h:28-40 verify_context_t] The key fields are the two
    64-byte arrays and how much of them is in use. *)
Record verify_context_t := mk_vctx {
  master_key : list Z; prev_key : list Z;
  master_key_len : nat; prev_key_len : nat;
  key_generation : Z;
  replay_ctx : replay_context_t;
  strict_ordering : bool; enable_timestamp_check : bool;
  rate_limit_per_sec : Z; rate_count : Z; rate_window_start : Z
}.

(** [dev/security/verify/verify_token.h:12-18 service_token_t] *)
Record service_token_t := mk_token {
  service_name : string;
  token : list Z;
  issued_at : Z; expires_at : Z;
  permissions : Z
}.

Definition HMAC_SHA256_SIZE : nat := 32.
Definition MAX_KEY_SIZE : nat := 64.
Definition TIMESTAMP_WINDOW : Z := 30.
Definition DEFAULT_TIMESTAMP_WINDOW : Z := 30.

Definition zero_replay : replay_context_t := mk_replay 0 0 0 false false.
Definition zero_ctx : verify_context_t :=
  mk_vctx (replicate MAX_KEY_SIZE 0) (replicate MAX_KEY_SIZE 0) 0 0 0 zero_replay false false 0 0 0.

(** ** Replay context *)

(** [dev/security/verify/verify_replay.c:9-33 replay_context_init] [lock]: the mutex
    could be initialised. *)
Definition replay_context_init (window : Z) (lock : bool) : Z * replay_context_t :=
  (if lock then 0 else -1,
   mk_replay 0 0 (if 0 <? window then window else DEFAULT_TIMESTAMP_WINDOW) true true).

(** [dev/security/verify/verify_replay.c:48-91 replay_check] [now]: the monotonic
    clock in seconds, 0 if it could not be read. *)
Definition replay_check (ctx : replay_context_t) (now ts seq : Z) : Z :=
  if now =? 0 then -1
  else if r_timestamp_check ctx && (ts <? now) && (timestamp_window_sec ctx <? now - ts) then 0
  else if r_timestamp_check ctx && (now <? ts) && (timestamp_window_sec ctx <? ts - now) then 0
  else if r_strict_ordering ctx && (0 <? last_timestamp ctx) && (seq <=? last_sequence ctx) then 0
  else 1.

(** [dev/security/verify/verify_replay.c:93-105 replay_update] *)
Definition replay_update (ctx : replay_context_t) (ts seq : Z) : replay_context_t :=
  mk_replay ts seq (timestamp_window_sec ctx) (r_strict_ordering ctx) (r_timestamp_check ctx).

(** [dev/security/verify/verify_replay.c:107-119 replay_set_strict_ordering] *)
Definition replay_set_strict_ordering (ctx : replay_context_t) (enable : bool) : replay_context_t :=
  mk_replay (last_timestamp ctx) (last_sequence ctx) (timestamp_window_sec ctx) enable
    (r_timestamp_check ctx).

(** [dev/security/verify/verify_replay.c:121-133 replay_set_timestamp_check] *)
Definition replay_set_timestamp_check (ctx : replay_context_t) (enable : bool) : replay_context_t :=
  mk_replay (last_timestamp ctx) (last_sequence ctx) (timestamp_window_sec ctx)
    (r_strict_ordering ctx) enable.

(** [dev/security/verify/verify_replay.c:135-144 replay_context_cleanup] *)
Definition replay_context_cleanup (ctx : replay_context_t) : replay_context_t := zero_replay.

(** ** MACs *)

(** [dev/security/verify/verify_hmac.c:6-12 hmac_sign] *)
Definition hmac_sign (key data : list Z) : option (list Z) := sm_hmac_sha256 (Some key) (Some data).

(** [dev/security/verify/verify_hmac.c:14-20 hmac_verify] *)
Definition hmac_verify (key data expected : list Z) : Z := sm_hmac_verify (Some key) (Some data) expected.

(** [dev/security/verify/verify_hmac.c:22-30 hmac_compare] *)
Definition hmac_compare (hmac1 hmac2 : list Z) : Z := if memcmp_from 0 hmac1 hmac2 =? 0 then 1 else 0.

(** ** Set-up *)

(** [dev/security/verify/verify.c:38-59 verify_init] [None]: a NULL key; [lock]: the
    mutex could be initialised. *)
Definition verify_init (key : option (list Z)) (lock : bool) (ctx : verify_context_t)
    : Z * verify_context_t :=
  match key with
  | None => (-1, ctx)
  | Some key =>
      if Nat.eqb (length key) 0 || Nat.ltb MAX_KEY_SIZE (length key) then (-1, ctx)
      else
        let '(rc, rep) := replay_context_init TIMESTAMP_WINDOW lock in
        let k := splice 0 key (replicate MAX_KEY_SIZE 0) in
        if negb (rc =? 0)
        then (-1, mk_vctx k (replicate MAX_KEY_SIZE 0) (length key) 0 0 rep false false 0 0 0)
        else (0, mk_vctx k (replicate MAX_KEY_SIZE 0) (length key) 0 0 rep true true 0 0 0)
  end.

(** [dev/security/verify/verify.c:61-89 verify_init_from_file] [file]: the bytes of the
    key file, if it opens; at most 32 are read. *)
Definition verify_init_from_file (file : option (list Z)) (lock : bool) (ctx : verify_context_t)
    : Z * verify_context_t :=
  match file with
  | None => (-1, ctx)
  | Some bs =>
      let key := take 32 bs in
      if Nat.eqb (length key) 0 then (-1, ctx) else verify_init (Some key) lock ctx
  end.

Definition hexdigit (c : ascii) : option Z :=
  let b := byte_of c in
  if (48 <=? b) && (b <=? 57) then Some (b - 48)
  else if (97 <=? b) && (b <=? 102) then Some (b - 87)
  else if (65 <=? b) && (b <=? 70) then Some (b - 55)
  else None.

(** [dev/security/verify/verify.c:114-116 verify_init_from_env, the loop]
    [sscanf] with ["%2hhx"] reads two hexadecimal digits as a byte; [other] is what it
    leaves in the byte when the text does not start with two digits. *)
Fixpoint scan_key (other : string -> Z) (s : string) (n : nat) : list Z :=
  match n with
  | O => []
  | S n' =>
      match s with
      | String a (String b s') =>
          match hexdigit a, hexdigit b with
          | Some x, Some y => (16 * x + y) :: scan_key other s' n'
          | _, _ => other s :: scan_key other s' n'
          end
      | _ => []
      end
  end.

(** [dev/security/verify/verify.c:91-124 verify_init_from_env] [value]: the variable's
    value, if it is set. *)
Definition verify_init_from_env (other : string -> Z) (value : option string) (lock : bool)
    (ctx : verify_context_t) : Z * verify_context_t :=
  match value with
  | None => (-1, ctx)
  | Some key_hex =>
      let hex_len := String.length key_hex in
      if negb (Nat.eqb (hex_len mod 2) 0) || Nat.eqb hex_len 0 then (-1, ctx)
      else
        let key_len := (hex_len / 2)%nat in
        if Nat.ltb MAX_KEY_SIZE key_len then (-1, ctx)
        else verify_init (Some (scan_key other key_hex key_len)) lock ctx
  end.

(** [dev/security/verify/verify.c:126-152 verify_generate_key] [random]: what the read
    of /dev/urandom gives; [created]: the file can be created.  The file's bytes. *)
Definition verify_generate_key (random : option (list Z)) (created : bool) : Z * option (list Z) :=
  match random with
  | Some key => if Nat.eqb (length key) 32 then if created then (0, Some key) else (-1, None)
                else (-1, None)
  | None => (-1, None)
  end.

(** ** Messages *)

(** [dev/security/verify/verify.c:154-172 verify_check_rate_limit] *)
Definition verify_check_rate_limit (now : Z) (ctx : verify_context_t) : bool * verify_context_t :=
  let set c w := mk_vctx (master_key ctx) (prev_key ctx) (master_key_len ctx) (prev_key_len ctx)
                   (key_generation ctx) (replay_ctx ctx) (strict_ordering ctx)
                   (enable_timestamp_check ctx) (rate_limit_per_sec ctx) c w in
  if rate_limit_per_sec ctx =? 0 then (true, ctx)
  else
    let '(c, w) := if negb (now =? rate_window_start ctx) then (0, now)
                   else (rate_count ctx, rate_window_start ctx) in
    if rate_limit_per_sec ctx <=? c then (false, set c w)
    else (true, set (u32 (c + 1)) w).

(** [dev/security/verify/verify.c:190-204 verify_sign_message, the signed bytes] *)
Definition sign_data (ts nc sq : Z) (data : list Z) : list Z :=
  le_bytes 8 ts ++ le_bytes 4 nc ++ le_bytes 4 sq ++ data.

(** The part of the key buffer in use. *)
Definition key_of (ctx : verify_context_t) : list Z := take (master_key_len ctx) (master_key ctx).

(** [dev/security/verify/verify.c:294-302 verify_generate_nonce] [random]: the number
    read from /dev/urandom. *)
Definition verify_generate_nonce (random : option Z) (time pid : Z) : Z :=
  match random with Some n => n | None => Z.lxor (u32 time) (u32 pid) end.

(** [dev/security/verify/verify.c:174-214 verify_sign_message] [now1], [now2]: the two
    readings of the clock; [nc]: the nonce; [mem]: [malloc] succeeds.  The third
    component is what is written to [auth]. *)
Definition verify_sign_message (now1 now2 nc : Z) (mem : bool) (data : option (list Z))
    (ctx : verify_context_t) : Z * verify_context_t * option message_auth_t :=
  match data with
  | None => (-1, ctx, None)
  | Some data =>
      if Nat.eqb (length data) 0 then (-1, ctx, None)
      else
        let '(ok, ctx1) := verify_check_rate_limit now1 ctx in
        if negb ok then (-1, ctx1, None)
        else
          let sq := u32 (last_sequence (replay_ctx ctx1) + 1) in
          let blank := mk_auth (replicate HMAC_SHA256_SIZE 0) now2 nc sq in
          if negb mem then (-1, ctx1, Some blank)
          else match hmac_sign (key_of ctx1) (sign_data now2 nc sq data) with
               | Some mac => (0, ctx1, Some (mk_auth mac now2 nc sq))
               | None => (-1, ctx1, Some blank)
               end
  end.

Definition set_replay (rep : replay_context_t) (ctx : verify_context_t) : verify_context_t :=
  mk_vctx (master_key ctx) (prev_key ctx) (master_key_len ctx) (prev_key_len ctx)
    (key_generation ctx) rep (strict_ordering ctx) (enable_timestamp_check ctx)
    (rate_limit_per_sec ctx) (rate_count ctx) (rate_window_start ctx).

(** [dev/security/verify/verify.c:216-261 verify_check_message] *)
Definition verify_check_message (now : Z) (mem : bool) (data : option (list Z))
    (auth : option message_auth_t) (ctx : verify_context_t) : Z * verify_context_t :=
  match data, auth with
  | Some data, Some auth =>
      if Nat.eqb (length data) 0 then (-1, ctx)
      else if (enable_timestamp_check ctx || strict_ordering ctx) &&
              negb (replay_check (replay_ctx ctx) now (timestamp auth) (sequence auth) =? 1)
      then (0, ctx)
      else if negb mem then (-1, ctx)
      else
        let result := hmac_verify (key_of ctx)
                        (sign_data (timestamp auth) (nonce auth) (sequence auth) data)
                        (auth_hmac auth) in
        (result,
         if result =? 1
         then set_replay (replay_update (replay_ctx ctx) (timestamp auth) (sequence auth)) ctx
         else ctx)
  | _, _ => (-1, ctx)
  end.

(** ** Tokens *)

(** [dev/security/verify/verify_token.c:54-70 token_issue, the signed bytes] *)
Definition token_data (tk : service_token_t) : list Z :=
  ascii_bytes (service_name tk) ++ le_bytes 8 (issued_at tk) ++ le_bytes 8 (expires_at tk) ++
  le_bytes 4 (permissions tk).

(** [dev/security/verify/verify_token.c:32-89 token_issue] The second component is
    what is written to [token]. *)
Definition token_issue (now : Z) (mem : bool) (nm : option string) (perms validity : Z)
    (ctx : verify_context_t) : Z * option service_token_t :=
  match nm with
  | None => (-1, None)
  | Some nm =>
      if Nat.eqb (String.length nm) 0 || Nat.leb 64 (String.length nm) then (-1, None)
      else
        let tk t := mk_token (strncpy_z 63 nm) t now (now + validity) perms in
        let blank := tk (replicate HMAC_SHA256_SIZE 0) in
        if negb mem then (-1, Some blank)
        else match hmac_sign (key_of ctx) (token_data blank) with
             | Some mac => (0, Some (tk mac))
             | None => (-1, Some blank)
             end
  end.

(** [dev/security/verify/verify_token.c:91-139 token_verify] *)
Definition token_verify (now : Z) (mem : bool) (tk : option service_token_t)
    (ctx : verify_context_t) : Z :=
  match tk with
  | None => -1
  | Some tk =>
      if (now =? 0) || (expires_at tk <=? now) then 0
      else if negb mem then -1
      else hmac_verify (key_of ctx) (token_data tk) (token tk)
  end.

(** [dev/security/verify/verify_token.c:141-148 token_has_permission] *)
Definition token_has_permission (tk : option service_token_t) (permission : Z) : bool :=
  match tk with None => false | Some tk => negb (Z.land (permissions tk) permission =? 0) end.

(** [dev/security/verify/verify_token.c:150-163 token_time_remaining] *)
Definition token_time_remaining (now : Z) (tk : option service_token_t) : Z :=
  match tk with
  | None => -1
  | Some tk => if (now =? 0) || (expires_at tk <=? now) then 0 else i32 (expires_at tk - now)
  end.

(** [dev/security/verify/verify_token.c:165-172 token_secure_clear] *)
Definition token_secure_clear (tk : service_token_t) : service_token_t :=
  mk_token "" (replicate HMAC_SHA256_SIZE 0) 0 0 0.

(** ** Settings *)

(** [dev/security/verify/verify.c:304-310 verify_set_strict_ordering] *)
Definition verify_set_strict_ordering (enable : bool) (ctx : verify_context_t) : verify_context_t :=
  let ctx1 := set_replay (replay_set_strict_ordering (replay_ctx ctx) enable) ctx in
  mk_vctx (master_key ctx1) (prev_key ctx1) (master_key_len ctx1) (prev_key_len ctx1)
    (key_generation ctx1) (replay_ctx ctx1) enable (enable_timestamp_check ctx1)
    (rate_limit_per_sec ctx1) (rate_count ctx1) (rate_window_start ctx1).

(** [dev/security/verify/verify.c:312-318 verify_set_timestamp_check] *)
Definition verify_set_timestamp_check (enable : bool) (ctx : verify_context_t) : verify_context_t :=
  let ctx1 := set_replay (replay_set_timestamp_check (replay_ctx ctx) enable) ctx in
  mk_vctx (master_key ctx1) (prev_key ctx1) (master_key_len ctx1) (prev_key_len ctx1)
    (key_generation ctx1) (replay_ctx ctx1) (strict_ordering ctx1) enable
    (rate_limit_per_sec ctx1) (rate_count ctx1) (rate_window_start ctx1).

(** [dev/security/verify/verify.c:320-338 verify_rotate_key] *)
Definition verify_rotate_key (new_key : option (list Z)) (ctx : verify_context_t)
    : Z * verify_context_t :=
  match new_key with
  | None => (-1, ctx)
  | Some k =>
      if Nat.eqb (length k) 0 || Nat.ltb MAX_KEY_SIZE (length k) then (-1, ctx)
      else (0, mk_vctx (splice 0 k (replicate MAX_KEY_SIZE 0)) (splice 0 (key_of ctx) (prev_key ctx))
                 (length k) (master_key_len ctx) (u32 (key_generation ctx + 1)) (replay_ctx ctx)
                 (strict_ordering ctx) (enable_timestamp_check ctx)
                 (rate_limit_per_sec ctx) (rate_count ctx) (rate_window_start ctx))
  end.

(** [dev/security/verify/verify.c:340-349 verify_set_rate_limit] *)
Definition verify_set_rate_limit (n : Z) (ctx : verify_context_t) : verify_context_t :=
  mk_vctx (master_key ctx) (prev_key ctx) (master_key_len ctx) (prev_key_len ctx)
    (key_generation ctx) (replay_ctx ctx) (strict_ordering ctx) (enable_timestamp_check ctx)
    n 0 0.

(** [dev/security/verify/verify.c:351-360 verify_cleanup] *)
Definition verify_cleanup (ctx : verify_context_t) : verify_context_t := zero_ctx.

#[local] Arguments sm_hmac_sha256 : simpl never.
#[local] Arguments hmac_sign : simpl never.
#[local] Arguments hmac_verify : simpl never.

(** ** What is signed *)

Lemma sign_data_inj ts nc sq d ts' nc' sq' d' :
  0 <= ts < 2 ^ 64 -> 0 <= ts' < 2 ^ 64 -> 0 <= nc < 2 ^ 32 -> 0 <= nc' < 2 ^ 32 ->
  0 <= sq < 2 ^ 32 -> 0 <= sq' < 2 ^ 32 ->
  sign_data ts nc sq d = sign_data ts' nc' sq' d' -> ts = ts' /\ nc = nc' /\ sq = sq' /\ d = d'.
Proof.
  intros H1 H2 H3 H4 H5 H6 H. unfold sign_data in H.
  apply app_inj_1 in H as [Ht H]; [|by rewrite !length_le_bytes].
  apply app_inj_1 in H as [Hn H]; [|by rewrite !length_le_bytes].
  apply app_inj_1 in H as [Hs H]; [|by rewrite !length_le_bytes].
  apply le_bytes_inj in Ht, Hn, Hs; [|lia..]. done.
Qed.

(** The name has no length field and no terminator among the signed bytes, yet two
    tokens with the same signed bytes say the same. *)
Lemma token_data_inj tk tk' :
  0 <= issued_at tk < 2 ^ 63 -> 0 <= issued_at tk' < 2 ^ 63 ->
  0 <= expires_at tk < 2 ^ 63 -> 0 <= expires_at tk' < 2 ^ 63 ->
  0 <= permissions tk < 2 ^ 32 -> 0 <= permissions tk' < 2 ^ 32 ->
  token_data tk = token_data tk' ->
  service_name tk = service_name tk' /\ issued_at tk = issued_at tk' /\
  expires_at tk = expires_at tk' /\ permissions tk = permissions tk'.
Proof.
  intros H1 H2 H3 H4 H5 H6 H. unfold token_data in H.
  apply app_inj_2 in H as [Hn H]; [|by rewrite !length_app, !length_le_bytes].
  apply app_inj_1 in H as [Hi H]; [|by rewrite !length_le_bytes].
  apply app_inj_1 in H as [He Hp]; [|by rewrite !length_le_bytes].
  apply ascii_bytes_inj in Hn. apply le_bytes_inj in Hi, He, Hp; [|lia..]. done.
Qed.

(** ** The outcome of a check *)

Definition mac_ok (key data mac : list Z) : Prop := mac = rfc_hmac key data.
#[export] Instance mac_ok_dec key data mac : Decision (mac_ok key data mac).
Proof. unfold mac_ok. solve_decision. Defined.

Lemma hmac_sign_rfc key data : hmac_sign key data = Some (rfc_hmac key data).
Proof. apply hmac_is_rfc. Qed.

Definition is_mac (l : list Z) : Prop := bytes l /\ length l = SM_HMAC_SIZE.

Lemma hmac_verify_cases key data mac : is_mac mac ->
  hmac_verify key data mac = if decide (mac_ok key data mac) then 0 else -1.
Proof.
  intros [Hb Hl]. unfold hmac_verify. destruct (verify_iff key data mac Hb Hl) as [H0 H1].
  case_decide as E; [by apply H0|by apply H1].
Qed.

(** [replay_check] would let the message pass. *)
Definition passes (ctx : verify_context_t) (now ts sq : Z) : bool :=
  negb (enable_timestamp_check ctx || strict_ordering ctx) ||
  (replay_check (replay_ctx ctx) now ts sq =? 1).

Lemma check_message_cases now mem data auth ctx : is_mac (auth_hmac auth) -> data <> [] ->
  verify_check_message now mem (Some data) (Some auth) ctx =
  (if passes ctx now (timestamp auth) (sequence auth)
   then if mem
        then if decide (mac_ok (key_of ctx) (sign_data (timestamp auth) (nonce auth) (sequence auth) data)
                               (auth_hmac auth)) then 0 else -1
        else -1
   else 0, ctx).
Proof.
  intros Hm Hd. unfold verify_check_message, passes. destruct data as [|x data]; [done|]. cbn [length Nat.eqb].
  rewrite hmac_verify_cases by done.
  destruct (enable_timestamp_check ctx || strict_ordering ctx); cbn [negb orb andb];
    [destruct (replay_check _ _ _ _ =? 1)|]; cbn [negb]; destruct mem; try done; by case_decide.
Qed.

(** ** A context in use *)

Inductive verify_call :=
| VSign (now1 now2 nc : Z) (mem : bool) (data : option (list Z))
| VCheck (now : Z) (mem : bool) (data : option (list Z)) (auth : message_auth_t)
| VRotate (k : option (list Z))
| VStrict (enable : bool) | VTimestamp (enable : bool)
| VRateLimit (n : Z).

Definition verify_call_ok (c : verify_call) : Prop :=
  match c with VCheck _ _ _ auth => is_mac (auth_hmac auth) | _ => True end.

Definition run_call (ctx : verify_context_t) (c : verify_call) : verify_context_t :=
  match c with
  | VSign n1 n2 nc mem d => (verify_sign_message n1 n2 nc mem d ctx).1.2
  | VCheck n mem d a => (verify_check_message n mem d (Some a) ctx).2
  | VRotate k => (verify_rotate_key k ctx).2
  | VStrict b => verify_set_strict_ordering b ctx
  | VTimestamp b => verify_set_timestamp_check b ctx
  | VRateLimit n => verify_set_rate_limit n ctx
  end.

Lemma rate_limit_replay now ctx : replay_ctx (verify_check_rate_limit now ctx).2 = replay_ctx ctx.
Proof.
  unfold verify_check_rate_limit. destruct (_ =? 0); [done|]. destruct (negb _); by destruct (_ <=? _).
Qed.

Lemma sign_replay n1 n2 nc mem d ctx :
  replay_ctx (verify_sign_message n1 n2 nc mem d ctx).1.2 = replay_ctx ctx.
Proof.
  unfold verify_sign_message. destruct d as [d|]; [|done]. destruct (Nat.eqb _ _); [done|].
  pose proof (rate_limit_replay n1 ctx) as H. destruct (verify_check_rate_limit n1 ctx) as [ok ctx1].
  simpl in H. by destruct ok, mem.
Qed.

Lemma check_keeps now mem d auth ctx : is_mac (auth_hmac auth) ->
  (verify_check_message now mem d (Some auth) ctx).2 = ctx.
Proof.
  intros Hm. destruct d as [[|x d]|]; [done| |done]. by rewrite check_message_cases.
Qed.

Definition unarmed (ctx : verify_context_t) : Prop :=
  last_timestamp (replay_ctx ctx) = 0 /\ last_sequence (replay_ctx ctx) = 0 /\
  timestamp_window_sec (replay_ctx ctx) = TIMESTAMP_WINDOW.

Lemma run_call_unarmed ctx c : verify_call_ok c -> unarmed ctx -> unarmed (run_call ctx c).
Proof.
  intros Hc Hu. destruct c as [n1 n2 nc mem d|n mem d a|k|b|b|n]; cbn [run_call]; try done.
  - unfold unarmed. by rewrite sign_replay.
  - by rewrite check_keeps.
  - unfold verify_rotate_key. destruct k as [k|]; [|done]. by destruct (_ || _).
Qed.

(** In a context that was initialised and then used in any way, however many
    messages are signed, checked and rejected and the key rotated, the replay state is
    never updated: [verify_check_message] waits for the result 1 of an HMAC check
    that answers 0 or -1.  So every message is signed with sequence number 1, a
    message within the time window is judged by its MAC alone however often it was
    presented before, a valid message gets the result 0 that also means a detected
    replay, and no message gets the result 1. *)
Theorem replay_never_armed key lock ctx0 calls :
  Forall verify_call_ok calls -> (verify_init (Some key) lock ctx0).1 = 0 ->
  let ctx := fold_left run_call calls (verify_init (Some key) lock ctx0).2 in
  (forall n1 n2 nc mem d ctx' auth,
     verify_sign_message n1 n2 nc mem d ctx = (0, ctx', Some auth) -> sequence auth = 1) /\
  forall now data auth, is_mac (auth_hmac auth) -> data <> [] -> 0 < now ->
    now - TIMESTAMP_WINDOW <= timestamp auth <= now + TIMESTAMP_WINDOW ->
    verify_check_message now true (Some data) (Some auth) ctx =
    (if decide (mac_ok (key_of ctx)
                  (sign_data (timestamp auth) (nonce auth) (sequence auth) data) (auth_hmac auth))
     then 0 else -1, ctx).
Proof.
  intros Hok Hinit ctx.
  assert (Hu : unarmed ctx).
  { assert (H : forall c, Forall verify_call_ok calls -> unarmed c -> unarmed (fold_left run_call calls c)).
    { clear. induction calls as [|k cs IH]; intros c Hf Hu; [done|]. apply Forall_cons in Hf as [??].
      simpl. apply IH; [done|]. by apply run_call_unarmed. }
    apply H; [done|]. clear -Hinit. unfold verify_init in *. destruct (_ || _); [done|].
    by destruct lock. }
  clearbody ctx. destruct Hu as (Hu1 & Hu2 & Hu3). split.
  - intros n1 n2 nc mem d ctx' auth Hs. pose proof (sign_replay n1 n2 nc mem d ctx) as Hr.
    unfold verify_sign_message in Hs. destruct d as [d|]; [|done]. destruct (Nat.eqb _ _); [done|].
    pose proof (rate_limit_replay n1 ctx) as Hr'. destruct (verify_check_rate_limit n1 ctx) as [ok ctx1].
    simpl in Hr'. destruct ok; [|done]. destruct mem; [|done]. simpl in Hs. simplify_eq. simpl.
    by rewrite Hr', Hu2.
  - intros now data auth Hm Hd Hnow Hw. rewrite check_message_cases by done.
    replace (passes _ _ _ _) with true; [done|]. symmetry. unfold passes. apply orb_true_iff. right.
    unfold replay_check. rewrite Hu1, Hu3. rewrite (andb_false_r (r_strict_ordering _)). 
    destruct (Z.eqb_spec now 0); [lia|].
    destruct (Z.ltb_spec TIMESTAMP_WINDOW (now - timestamp auth)); [lia|].
    destruct (Z.ltb_spec TIMESTAMP_WINDOW (timestamp auth - now)); [lia|].
    by rewrite !andb_false_r.
Qed.

(** ** Tokens *)

(** A token that was issued carries the name, the permissions and the validity
    asked for, and its signature is the HMAC of exactly these; verified with the same
    key while it is valid it gets the result 0, a token with any other signature -1.
    An expired token, whatever its signature, also gets 0. *)
Theorem token_roundtrip now mem nm perms validity ctx tk later tk' :
  token_issue now mem (Some nm) perms validity ctx = (0, Some tk) -> is_mac (token tk') ->
  service_name tk = nm /\ permissions tk = perms /\ issued_at tk = now /\
  expires_at tk = now + validity /\
  token tk = rfc_hmac (key_of ctx) (token_data tk) /\
  token_verify later true (Some tk) ctx = 0 /\
  (0 < later < expires_at tk' ->
     token_verify later true (Some tk') ctx =
     if decide (token tk' = rfc_hmac (key_of ctx) (token_data tk')) then 0 else -1) /\
  (expires_at tk' <= later -> token_verify later true (Some tk') ctx = 0).
Proof.
  intros Hi Hm. unfold token_issue in Hi.
  destruct (Nat.eqb_spec (String.length nm) 0); [done|].
  destruct (Nat.leb_spec 64 (String.length nm)); [done|]. destruct mem; [|done].
  cbv zeta in Hi. rewrite hmac_sign_rfc, strncpy_z_short in Hi by lia. cbn [negb orb] in Hi.
  simplify_eq. cbn [service_name permissions issued_at expires_at token]. split_and!; try done.
  - unfold token_verify. destruct (_ || _); [done|]. simpl. rewrite hmac_verify_cases.
    + by rewrite decide_True.
    + split; [apply fips_bytes|apply length_fips].
  - intros Hl. unfold token_verify. destruct (Z.eqb_spec later 0); [lia|].
    destruct (Z.leb_spec (expires_at tk') later); [lia|]. simpl. by rewrite hmac_verify_cases.
  - intros Hl. unfold token_verify. destruct (Z.leb_spec (expires_at tk') later); [|lia].
    by rewrite orb_true_r.
Qed.

(** ** Keys from the environment *)

Definition hexchar (x : Z) : ascii :=
  ascii_of_N (Z.to_N (if x <? 10 then x + 48 else x + 87)).

(** The text a key is handed over as. *)
Fixpoint hex_text (key : list Z) : string :=
  match key with
  | [] => ""
  | b :: key' => String (hexchar (b / 16)) (String (hexchar (b mod 16)) (hex_text key'))
  end.

Lemma hexdigit_hexchar x : 0 <= x < 16 -> hexdigit (hexchar x) = Some x.
Proof.
  intros H. assert (Hx : x ∈ (Z.of_nat <$> seq 0 16)).
  { apply list_elem_of_fmap. exists (Z.to_nat x). split; [lia|]. apply elem_of_seq. lia. }
  revert x Hx H. apply (Forall_forall (fun x => 0 <= x < 16 -> hexdigit (hexchar x) = Some x)).
  repeat constructor.
Qed.

Lemma length_hex_text key : String.length (hex_text key) = (2 * length key)%nat.
Proof. induction key; simpl; lia. Qed.

Lemma scan_hex_text other key : bytes key -> scan_key other (hex_text key) (length key) = key.
Proof.
  induction 1 as [|b key Hb _ IH]; [done|]. simpl.
  rewrite !hexdigit_hexchar; [|apply Z.mod_pos_bound; lia|split; [apply Z.div_pos|apply Z.div_lt_upper_bound]; lia].
  rewrite IH. f_equal. symmetry. apply Z.div_mod. lia.
Qed.

(** A key written in hexadecimal into the environment variable is the key the
    context gets, for every length from 1 to 64 bytes; and what was initialised from a
    key signs with exactly this key. *)
Theorem env_key_roundtrip other key lock ctx : bytes key ->
  (0 < length key <= MAX_KEY_SIZE)%nat ->
  verify_init_from_env other (Some (hex_text key)) lock ctx = verify_init (Some key) lock ctx /\
  key_of (verify_init_from_env other (Some (hex_text key)) lock ctx).2 = key.
Proof.
  intros Hb Hl. unfold verify_init_from_env. rewrite length_hex_text.
  rewrite (Nat.mul_comm 2), Nat.Div0.mod_mul, Nat.div_mul by done. cbn [Nat.eqb negb orb].
  destruct (Nat.eqb_spec (length key * 2) 0); [lia|].
  destruct (Nat.ltb_spec MAX_KEY_SIZE (length key)); [lia|].
  rewrite scan_hex_text by done. split; [done|]. unfold verify_init.
  destruct (Nat.eqb_spec (length key) 0); [lia|].
  destruct (Nat.ltb_spec MAX_KEY_SIZE (length key)); [lia|]. simpl.
  assert (Hk : take (length key) (splice 0 key (replicate MAX_KEY_SIZE 0)) = key).
  { unfold splice. simpl. rewrite take_app_length'; done. }
  by destruct lock; unfold key_of; simpl.
Qed.

(** Without a limit every message is signed, with the MAC of its bytes. *)
Lemma sign_unlimited n1 n2 nc data ctx : rate_limit_per_sec ctx = 0 -> data <> [] ->
  let sq := u32 (last_sequence (replay_ctx ctx) + 1) in
  verify_sign_message n1 n2 nc true (Some data) ctx =
  (0, ctx, Some (mk_auth (rfc_hmac (key_of ctx) (sign_data n2 nc sq data)) n2 nc sq)).
Proof.
  intros Hr Hd. unfold verify_sign_message, verify_check_rate_limit. rewrite Hr.
  destruct data; [done|]. cbv zeta. cbn [length Nat.eqb negb Z.eqb]. by rewrite hmac_sign_rfc.
Qed.

(** ** On concrete inputs *)

Definition demo_ctx : verify_context_t := (verify_init (Some [1; 2; 3]) true zero_ctx).2.

Lemma demo_key : key_of demo_ctx = [1; 2; 3].
Proof. reflexivity. Defined.

(** A message signed at second 100. *)
Definition demo_auth : message_auth_t :=
  mk_auth (rfc_hmac [1; 2; 3] (sign_data 100 7 1 [72; 105])) 100 7 1.

Lemma demo_mac : is_mac (auth_hmac demo_auth).
Proof. split; [apply fips_bytes|apply length_fips]. Defined.

(** Presented twice, it gets the same answer. *)
Lemma replay_never_armed_witness :
  let calls := [VSign 100 100 7 true (Some [72; 105]); VCheck 101 true (Some [72; 105]) demo_auth] in
  let ctx := fold_left run_call calls demo_ctx in
  verify_check_message 102 true (Some [72; 105]) (Some demo_auth) ctx =
  (if decide (mac_ok (key_of ctx) (sign_data 100 7 1 [72; 105]) (auth_hmac demo_auth)) then 0 else -1, ctx) /\
  verify_sign_message 100 100 7 true (Some [72; 105]) demo_ctx = (0, demo_ctx, Some demo_auth).
Proof.
  intros calls ctx. split.
  - refine (proj2 (replay_never_armed [1; 2; 3] true zero_ctx calls _ eq_refl) 102 [72; 105] demo_auth demo_mac _ _ _);
      [|done|lia|unfold TIMESTAMP_WINDOW; simpl; lia].
    apply Forall_cons; split; [done|]. apply Forall_cons; split; [apply demo_mac|constructor].
  - pose proof (sign_unlimited 100 100 7 [72; 105] demo_ctx eq_refl ltac:(done)) as H. cbv zeta in H.
    rewrite demo_key in H. exact H.
Defined.

Lemma token_roundtrip_witness :
  let tk := mk_token "camera" (rfc_hmac [1; 2; 3] (token_data (mk_token "camera" [] 100 160 3))) 100 160 3 in
  token_issue 100 true (Some "camera") 3 60 demo_ctx = (0, Some tk) /\
  token_verify 120 true (Some tk) demo_ctx = 0 /\ token_verify 200 true (Some tk) demo_ctx = 0.
Proof.
  intros tk. assert (Hi : token_issue 100 true (Some "camera") 3 60 demo_ctx = (0, Some tk)).
  { unfold token_issue. cbv zeta. by rewrite hmac_sign_rfc. }
  assert (Hm : is_mac (token tk)) by (split; [apply fips_bytes|apply length_fips]).
  pose proof (token_roundtrip 100 true "camera" 3 60 demo_ctx tk 120 tk Hi Hm) as (_ & _ & _ & _ & _ & H120 & _).
  pose proof (token_roundtrip 100 true "camera" 3 60 demo_ctx tk 200 tk Hi Hm) as (_ & _ & _ & _ & _ & H200 & _).
  split; [exact Hi|split; [exact H120|exact H200]].
Defined.

Lemma env_key_roundtrip_witness :
  verify_init_from_env (fun _ => 0) (Some "00ff10a9") true zero_ctx =
  verify_init (Some [0; 255; 16; 169]) true zero_ctx.
Proof.
  refine (proj1 (env_key_roundtrip (fun _ => 0) [0; 255; 16; 169] true zero_ctx _ _)).
  - repeat constructor; lia.
  - unfold MAX_KEY_SIZE. simpl. lia.
Defined.

(** A context may sign at most [n] messages per second of the clock. *)
Lemma sign_rate_bound n ctx now k : 0 < n < 2 ^ 32 - 1 -> 0 < now ->
  rate_limit_per_sec ctx = n -> rate_window_start ctx = now -> 0 <= rate_count ctx <= n ->
  let pass := fix pass ctx k := match k with
    | O => 0
    | S k' => let '(ok, ctx') := verify_check_rate_limit now ctx in
              (if ok then 1 else 0) + pass ctx' k'
    end in
  pass ctx k <= n - rate_count ctx.
Proof.
  intros Hn Hnow Hl Hw Hc pass. revert ctx Hl Hw Hc. induction k as [|k IH]; intros ctx Hl Hw Hc; simpl; [lia|].
  unfold verify_check_rate_limit. rewrite Hl, Hw, Z.eqb_refl. cbn [negb].
  destruct (Z.eqb_spec n 0); [lia|]. destruct (Z.leb_spec n (rate_count ctx)).
  - etrans; [apply Z.add_le_mono_l, IH|]; simpl; lia.
  - rewrite wrap_small by lia. etrans; [apply Z.add_le_mono_l, IH|]; simpl; lia.
Qed.
