(* ===== verification/Persistence.v ===== *)
(** * Saving and loading the registry (lifecycle/sm_persistence.c)

    The file holds a 12-byte header and the memory images of the entries.  A file is
    the list of its bytes, [None] if there is none; [room] is how many bytes the disk
    takes (the code does not look at the results of [fwrite]). *)

From S2P Require Import Prelude Registry.

(** ** Memory images

    What a type whose values are written with [fwrite] has to provide; the reader is
    a left inverse of the writer on the values that fit. *)

Class Image (A : Type) := {
  image : A -> list Z;
  of_image : list Z -> A;
  image_size : nat;
  fits : A -> Prop;
  image_length : forall x, fits x -> length (image x) = image_size;
  image_pos : (0 < image_size)%nat;
  of_image_image : forall x, fits x -> of_image (image x) = x
}.

Section records.
Context {A} {img : Image A}.

(** Reading [n] records until the file ends: [fread (&x, size, 1, f) != 1] stops. *)
Fixpoint read_records (n : nat) (bs : list Z) : list A :=
  match n with
  | O => []
  | S n' => if Nat.ltb (length bs) image_size then []
            else of_image (take image_size bs) :: read_records n' (drop image_size bs)
  end.

Lemma read_records_prefix xs n k : Forall fits xs ->
  read_records n (take k (mjoin (image <$> xs))) = take (n `min` (k / image_size)) xs.
Proof.
  intros Hf. pose proof image_pos as Hp. revert n k. induction Hf as [|x xs Hx Hf IH]; intros n k.
  { simpl. rewrite !take_nil. destruct n; simpl; [done|].
    by destruct (Nat.ltb_spec 0 image_size); [|lia]. }
  destruct n as [|n]; [done|]. rewrite fmap_cons. cbn [read_records].
  change (mjoin (image x :: (image <$> xs))) with (image x ++ mjoin (image <$> xs)).
  pose proof (image_length x Hx) as Hl. destruct (Nat.ltb_spec k image_size) as [Hk|Hk].
  - rewrite Nat.div_small by done. rewrite Nat.min_0_r.
    rewrite (proj2 (Nat.ltb_lt _ _)); [done|]. rewrite length_take. lia.
  - rewrite take_app_ge by lia. rewrite length_app, Hl.
    rewrite (proj2 (Nat.ltb_ge _ _)) by lia.
    rewrite take_app_length', drop_app_length', of_image_image, IH by done.
    replace (k / image_size)%nat with (S ((k - image_size) / image_size)); [done|].
    replace k with (image_size + (k - image_size))%nat at 2 by lia.
    rewrite <- (Nat.mul_1_l image_size) at 3. rewrite Nat.div_add_l by lia. done.
Qed.
End records.

Lemma read_records_take {A} {img : Image A} n m bs : (n <= m)%nat ->
  read_records n bs = take n (read_records m bs).
Proof.
  revert m bs. induction n as [|n IH]; intros [|m] bs Hn; [done|done|lia|]. cbn [read_records].
  destruct (Nat.ltb _ _); [done|]. cbn [take]. f_equal. apply IH. lia.
Qed.

(** ** The image of an entry *)

Definition tier_val (t : service_tier_t) : Z :=
  match t with SVC_TIER_CRITICAL => 0 | SVC_TIER_HIGH => 1 | SVC_TIER_NORMAL => 2 | SVC_TIER_LOW => 3 end.

(** Numbers outside the enumeration are treated like NORMAL by every user of a tier. *)
Definition tier_of (z : Z) : service_tier_t :=
  if z =? 0 then SVC_TIER_CRITICAL else if z =? 1 then SVC_TIER_HIGH
  else if z =? 3 then SVC_TIER_LOW else SVC_TIER_NORMAL.

Definition status_val (s : service_status_t) : Z :=
  match s with SERVICE_RUNNING => 0 | SERVICE_STOPPED => 1 | SERVICE_CRASHED => 2 | SERVICE_DEAD => 3 end.

Definition status_of (z : Z) : service_status_t :=
  if z =? 0 then SERVICE_RUNNING else if z =? 1 then SERVICE_STOPPED
  else if z =? 2 then SERVICE_CRASHED else SERVICE_DEAD.

Definition sizeof_entry : nat := 648.

(** [dev/core/service_manager/infrastructure/sm_registry.h:25-45 service_entry_t] in memory
    on a 64-bit machine; padding and the bytes after a terminator are zero, as [memset]
    left them. *)
Definition entry_image (e : service_entry_t) : list Z :=
  cbuf 64 (name e) ++ cbuf 256 (socket_path e) ++ cbuf 256 (ring_name e) ++
  le_bytes 4 (pid e) ++ le_bytes 4 (uid e) ++ le_bytes 4 (gid e) ++ [0; 0; 0; 0] ++
  le_bytes 8 (registered_at e) ++ le_bytes 4 (tier_val (tier e)) ++ le_bytes 4 (health_status e) ++
  le_bytes 8 (request_count e) ++ le_bytes 4 (status_val (status e)) ++ [0; 0; 0; 0] ++
  le_bytes 8 (last_heartbeat e) ++ le_bytes 8 (last_crash_time e) ++
  le_bytes 4 (restart_count e) ++ [0; 0; 0; 0].

(** Two's complement [int64_t]. *)
Definition i64 (z : Z) : Z := (z + 2 ^ 63) mod 2 ^ 64 - 2 ^ 63.

Definition int_at (off n : nat) (bs : list Z) : Z := le_val (take n (drop off bs)).

(** [dev/core/service_manager/infrastructure/sm_registry.h:25-45 service_entry_t] read from
    memory.  A string reaches to the first zero byte, even past its array. *)
Definition entry_of_image (bs : list Z) : service_entry_t :=
  mk_entry (c_string bs) (c_string (drop 64 bs)) (c_string (drop 320 bs))
    (i32 (int_at 576 4 bs)) (int_at 580 4 bs) (int_at 584 4 bs)
    (i64 (int_at 592 8 bs)) (tier_of (int_at 600 4 bs)) (i32 (int_at 604 4 bs))
    (int_at 608 8 bs) (status_of (int_at 616 4 bs))
    (i64 (int_at 624 8 bs)) (i64 (int_at 632 8 bs)) (i32 (int_at 640 4 bs)).

(** The values the structure can hold. *)
Record entry_fits (e : service_entry_t) : Prop := {
  ef_name : (String.length (name e) < 64)%nat /\ no_nul (name e);
  ef_sock : (String.length (socket_path e) < 256)%nat /\ no_nul (socket_path e);
  ef_ring : (String.length (ring_name e) < 256)%nat /\ no_nul (ring_name e);
  ef_pid : - 2 ^ 31 <= pid e < 2 ^ 31;
  ef_uid : 0 <= uid e < 2 ^ 32;
  ef_gid : 0 <= gid e < 2 ^ 32;
  ef_reg : - 2 ^ 63 <= registered_at e < 2 ^ 63;
  ef_health : - 2 ^ 31 <= health_status e < 2 ^ 31;
  ef_req : 0 <= request_count e < 2 ^ 64;
  ef_hb : - 2 ^ 63 <= last_heartbeat e < 2 ^ 63;
  ef_crash : - 2 ^ 63 <= last_crash_time e < 2 ^ 63;
  ef_restart : - 2 ^ 31 <= restart_count e < 2 ^ 31
}.

Lemma i64_le_bytes v : - 2 ^ 63 <= v < 2 ^ 63 -> i64 (le_val (le_bytes 8 v)) = v.
Proof.
  intros. rewrite le_val_le_bytes. change (2 ^ (8 * Z.of_nat 8)) with (2 ^ 64). unfold i64.
  rewrite Z.add_mod_idemp_l by lia. rewrite Z.mod_small; lia.
Qed.

Lemma le_val_small n v : 0 <= v < 2 ^ (8 * Z.of_nat n) -> le_val (le_bytes n v) = v.
Proof. intros. rewrite le_val_le_bytes. by apply Z.mod_small. Qed.

Lemma length_entry_image e : length (entry_image e) = sizeof_entry.
Proof.
  unfold entry_image. rewrite !length_app, !length_cbuf, !length_le_bytes by lia. done.
Qed.

(** The [k]-th piece of a concatenation. *)
Lemma int_at_app l off n rest : (length l <= off)%nat ->
  int_at off n (l ++ rest) = int_at (off - length l) n rest.
Proof. intros. unfold int_at. by rewrite drop_app_ge. Qed.

Lemma int_at_here n v rest : int_at 0 n (le_bytes n v ++ rest) = le_val (le_bytes n v).
Proof. unfold int_at. rewrite drop_0, take_app_length'; [done|by rewrite length_le_bytes]. Qed.

Lemma tier_of_val t : tier_of (le_val (le_bytes 4 (tier_val t))) = t.
Proof. by destruct t. Qed.

Lemma status_of_val s : status_of (le_val (le_bytes 4 (status_val s))) = s.
Proof. by destruct s. Qed.

(** Skip the fields before the one read. *)
Ltac image_field :=
  repeat (rewrite int_at_app by (rewrite ?length_cbuf, ?length_le_bytes by lia; cbn; lia);
          rewrite ?length_cbuf, ?length_le_bytes by lia; cbn [Nat.sub length]);
  rewrite int_at_here.

Lemma entry_of_image_image e : entry_fits e -> entry_of_image (entry_image e) = e.
Proof.
  intros [[Hn Hn'] [Hs Hs'] [Hr Hr']]. destruct e as [nm sp rn p u g ra t hs rc st hb ct re]. simpl in *.
  unfold entry_of_image, entry_image. cbn [name socket_path ring_name pid uid gid registered_at tier
    health_status request_count status last_heartbeat last_crash_time restart_count].
  f_equal.
  - rewrite cbuf_read, strncpy_z_short by (done || lia). done.
  - rewrite drop_app_length' by (by rewrite length_cbuf by lia).
    rewrite cbuf_read, strncpy_z_short by (done || lia). done.
  - rewrite app_assoc, drop_app_length' by (by rewrite length_app, !length_cbuf by lia).
    rewrite cbuf_read, strncpy_z_short by (done || lia). done.
  - image_field. by apply i32_le_bytes.
  - image_field. by apply le_val_small.
  - image_field. by apply le_val_small.
  - image_field. by apply i64_le_bytes.
  - image_field. apply tier_of_val.
  - image_field. by apply i32_le_bytes.
  - image_field. by apply le_val_small.
  - image_field. apply status_of_val.
  - image_field. by apply i64_le_bytes.
  - image_field. by apply i64_le_bytes.
  - image_field. by apply i32_le_bytes.
Qed.

#[export] Instance entry_Image : Image service_entry_t := {
  image := entry_image; of_image := entry_of_image; image_size := sizeof_entry; fits := entry_fits;
  image_length := fun e _ => length_entry_image e;
  image_pos := ltac:(unfold sizeof_entry; lia);
  of_image_image := entry_of_image_image
}.

(** ** Saving *)

Definition PERSISTENCE_MAGIC : Z := 0x534D5052.
Definition PERSISTENCE_VERSION : Z := 1.
Definition SM_REGISTRY_MAX : Z := 32.

(** The file a registry is saved as. *)
Definition file_of (l : list service_entry_t) : list Z :=
  le_bytes 4 PERSISTENCE_MAGIC ++ le_bytes 4 PERSISTENCE_VERSION ++
  le_bytes 4 (Z.of_nat (length l)) ++ mjoin (image <$> l).

(** [dev/core/service_manager/lifecycle/sm_persistence.c:52-88 sm_persistence_save]
    [can_open]: the file can be created, which empties it; [mem]: [sm_registry_get_all]
    gets its memory.  The result and the file afterwards. *)
Definition sm_persistence_save (can_open mem : bool) (room : nat) (s : registry_state)
    (file : option (list Z)) : Z * option (list Z) :=
  if negb can_open then (-1, file)
  else
    let '(rc, services) := sm_registry_get_all true mem s in
    if rc <? 0 then (-1, Some [])
    else (0, Some (take room (file_of (default [] services)))).

(** ** Loading *)

Definition set_crashed (e : service_entry_t) : service_entry_t :=
  mk_entry (name e) (socket_path e) (ring_name e) (pid e) (uid e) (gid e) (registered_at e)
    (tier e) (health_status e) (request_count e) SERVICE_CRASHED (last_heartbeat e)
    (last_crash_time e) 0.

Section load.
(** [kill (pid, 0)], and the clock, whose readings may differ from entry to entry. *)
Context (alive : Z -> bool) (clock : nat -> Z).

(** [dev/core/service_manager/lifecycle/sm_persistence.c:130-138 sm_persistence_load, the
    loop body] *)
Fixpoint add_all (es : list service_entry_t) (i : nat) (s : registry_state) : registry_state :=
  match es with
  | [] => s
  | e :: es' =>
      add_all es' (S i) (sm_registry_add alive (clock i) (clock i) (Some (set_crashed e)) s).2
  end.

(** [dev/core/service_manager/lifecycle/sm_persistence.c:90-143 sm_persistence_load] *)
Definition sm_persistence_load (file : option (list Z)) (s : registry_state) : Z * registry_state :=
  match file with
  | None => (0, s)
  | Some bs =>
      if Nat.ltb (length bs) 4 || negb (int_at 0 4 bs =? PERSISTENCE_MAGIC) then (-1, s)
      else if Nat.ltb (length bs) 8 || negb (int_at 4 4 bs =? PERSISTENCE_VERSION) then (-1, s)
      else if Nat.ltb (length bs) 12 then (-1, s)
      else
        let count := int_at 8 4 bs in
        if (i32 count <? 0) || (SM_REGISTRY_MAX <? i32 count) then (-1, s)
        else (0, add_all (read_records (Z.to_nat count) (drop 12 bs)) 0 s)
  end.

(** ** Adding what was read *)

Lemma add_all_live es : forall i s, reg_inv s -> Forall entry_ok es -> NoDup (name <$> es) ->
  (forall e, e ∈ es -> name e ∉ (name <$> live s)) ->
  (length (live s) + length es <= SM_MAX_SERVICES)%nat ->
  reg_inv (add_all es i s) /\
  live (add_all es i s) = live s ++ imap (fun k e => fresh_entry e (clock (i + k)) (clock (i + k))) es.
Proof.
  induction es as [|e es IH]; intros i s Hi Hok Hnd Hnew Hl; [by rewrite app_nil_r|].
  cbn [add_all]. apply Forall_cons in Hok as [[He1 He2] Hok]. apply NoDup_cons in Hnd as [Hne Hnd].
  set (c := CAdd alive (clock i) (clock i) (set_crashed e)).
  change (sm_registry_add _ _ _ _ s) with (exec c s).
  destruct (exec_refines c s Hi He1) as [Hi1 Hs1].
  assert (Hf : find_idx (name e) (live s) = None).
  { apply find_idx_none, Hnew. by left. }
  simpl length in Hl. cbn [spec_exec c] in Hs1. change (name (set_crashed e)) with (name e) in Hs1.
  rewrite He2, Hf in Hs1. cbn [negb] in Hs1. rewrite decide_False in Hs1 by lia.
  apply (f_equal snd) in Hs1. cbn [snd] in Hs1.
  destruct (IH (S i) _ Hi1 Hok Hnd) as [Hi2 Hl2].
  - intros e' He'. rewrite Hs1, fmap_app. intros [Hin|Hin]%elem_of_app.
    + by apply (Hnew e'); [right|].
    + apply list_elem_of_singleton in Hin. apply Hne. change (name e' = name e) in Hin.
      rewrite <- Hin. by apply list_elem_of_fmap_2.
  - rewrite Hs1, length_app. simpl. lia.
  - split; [done|]. rewrite Hl2, Hs1, <- app_assoc. f_equal. cbn [imap app]. f_equal.
    + rewrite Nat.add_0_r. done.
    + apply imap_ext. intros k x _. cbn. by rewrite Nat.add_succ_r.
Qed.
End load.

(** ** The autosave thread *)

(** [dev/core/service_manager/lifecycle/sm_persistence.c:19-22 autosave_thread] [thread]: the
    handle is set. *)
Record autosave_t := mk_autosave { autosave_thread : bool; autosave_running : bool; autosave_interval : Z }.

(** [dev/core/service_manager/lifecycle/sm_persistence.c:150-176 sm_persistence_enable_autosave]
    [create]: what [pthread_create] returns, 0 or a positive error number. *)
Definition sm_persistence_enable_autosave (interval_sec create : Z) (a : autosave_t) : autosave_t :=
  if autosave_running a then a
  else
    let interval := if interval_sec <=? 0 then 60 else interval_sec in
    if create <? 0 then mk_autosave (autosave_thread a) false interval
    else mk_autosave (if create =? 0 then true else autosave_thread a) true interval.

(** [dev/core/service_manager/lifecycle/sm_persistence.c:178-191 sm_persistence_cleanup] The
    thread, if there is one, has ended. *)
Definition sm_persistence_cleanup (a : autosave_t) : autosave_t :=
  mk_autosave false false (autosave_interval a).

(** [dev/core/service_manager/lifecycle/sm_persistence.c:27-50 autosave_worker] one round
    after the sleep: [None] ends the thread, a save is made otherwise. *)
Definition autosave_round (can_open mem : bool) (room : nat) (s : registry_state) (a : autosave_t)
    (file : option (list Z)) : option (option (list Z)) :=
  if negb (autosave_running a) then None
  else Some (sm_persistence_save can_open mem room s file).2.

(** A thread that could not be created is not noticed, and is not tried again. *)
Lemma failed_autosave_stays interval err a : autosave_running a = false -> 0 < err ->
  autosave_thread a = false ->
  let a1 := sm_persistence_enable_autosave interval err a in
  autosave_running a1 = true /\ autosave_thread a1 = false /\
  forall i c, sm_persistence_enable_autosave i c a1 = a1.
Proof.
  intros Hr He Ht. unfold sm_persistence_enable_autosave at 1. rewrite Hr, Ht.
  destruct (Z.ltb_spec err 0); [lia|]. destruct (Z.eqb_spec err 0); [lia|]. done.
Qed.

(** ** What is loaded from what was saved *)

(** The entries a load puts into an empty registry: running, with fresh times. *)
Definition reloaded (clock : nat -> Z) (es : list service_entry_t) : list service_entry_t :=
  imap (fun k e => fresh_entry e (clock k) (clock k)) es.

Definition file_header (l : list service_entry_t) : list Z :=
  le_bytes 4 PERSISTENCE_MAGIC ++ le_bytes 4 PERSISTENCE_VERSION ++ le_bytes 4 (Z.of_nat (length l)).

Lemma file_of_header l : file_of l = file_header l ++ mjoin (image <$> l).
Proof. unfold file_of, file_header. by rewrite <- !app_assoc. Qed.

Lemma length_header l : length (file_header l) = 12%nat.
Proof. unfold file_header. by rewrite !length_app, !length_le_bytes. Qed.

Lemma header_fields l rest : (length l <= SM_MAX_SERVICES)%nat ->
  let f := file_header l ++ rest in
  int_at 0 4 f = PERSISTENCE_MAGIC /\ int_at 4 4 f = PERSISTENCE_VERSION /\
  int_at 8 4 f = Z.of_nat (length l).
Proof.
  intros Hl f. subst f. unfold SM_MAX_SERVICES in Hl. unfold file_header. rewrite <- !app_assoc.
  split_and!; image_field; apply le_val_small; unfold PERSISTENCE_MAGIC, PERSISTENCE_VERSION; lia.
Qed.

Lemma load_cut alive clock l k : (length l <= SM_MAX_SERVICES)%nat -> Forall fits l ->
  Forall entry_ok l -> NoDup (name <$> l) ->
  let r := sm_persistence_load alive clock (Some (take k (file_of l))) sm_registry_init in
  ((k < 12)%nat -> r = (-1, sm_registry_init)) /\
  ((12 <= k)%nat -> r.1 = 0 /\ reg_inv r.2 /\
     live r.2 = reloaded clock (take ((k - 12) / sizeof_entry) l)).
Proof.
  intros Hl Hf Hok Hnd r. subst r. rewrite file_of_header. split; intros Hk.
  - unfold sm_persistence_load. rewrite take_app_le by (rewrite length_header; lia).
    rewrite !length_take, length_header.
    rewrite (proj2 (Nat.ltb_lt (k `min` 12) 12)) by lia. by repeat case_match.
  - rewrite take_app_ge by (rewrite length_header; lia). rewrite length_header.
    unfold sm_persistence_load. rewrite !length_app, length_header.
    destruct (header_fields l (take (k - 12) (mjoin (image <$> l))) Hl) as (-> & -> & ->).
    unfold SM_MAX_SERVICES in Hl. rewrite i32_small by lia.
    rewrite !(proj2 (Nat.ltb_ge _ _)) by lia. rewrite !Z.eqb_refl. cbn [negb orb].
    destruct (Z.ltb_spec (Z.of_nat (length l)) 0); [lia|].
    destruct (Z.ltb_spec SM_REGISTRY_MAX (Z.of_nat (length l))); [unfold SM_REGISTRY_MAX in *; lia|].
    cbn [orb fst snd]. split; [done|].
    rewrite drop_app_length', Nat2Z.id by (by rewrite length_header).
    rewrite read_records_prefix by done. change image_size with sizeof_entry.
    set (n := ((k - 12) / sizeof_entry)%nat).
    rewrite <- take_take, (take_ge (take n l)) by (rewrite length_take; lia).
    destruct init_inv as [Hi Hempty].
    destruct (add_all_live alive clock (take n l) 0 _ Hi) as [Hi' Hl'].
    + by apply Forall_take.
    + rewrite <- (take_drop n l), fmap_app in Hnd. by apply NoDup_app in Hnd as [? _].
    + intros e _. rewrite Hempty. apply not_elem_of_nil.
    + rewrite Hempty, length_take. unfold SM_MAX_SERVICES. simpl. lia.
    + split; [done|]. by rewrite Hl', Hempty.
Qed.

(** ** Saving and loading *)

Lemma saved_file room s file : reg_inv s ->
  sm_persistence_save true true room s file = (0, Some (take room (file_of (live s)))).
Proof.
  intros Hi. unfold sm_persistence_save, sm_registry_get_all, live. cbn [negb].
  destruct (Nat.eqb_spec (registry_count s) 0) as [->|]; [done|]. cbn [negb fst snd default].
  done.
Qed.

Lemma length_file_of l : Forall fits l -> length (file_of l) = (12 + length l * sizeof_entry)%nat.
Proof.
  intros Hf. rewrite file_of_header, length_app, length_header. f_equal.
  induction Hf as [|e l He Hf IH]; [done|]. rewrite fmap_cons.
  change (mjoin (image e :: (image <$> l))) with (image e ++ mjoin (image <$> l)).
  rewrite length_app, IH, image_length by done. done.
Qed.

(** C22: A registry that was saved and is loaded by a fresh daemon comes back with the
    same services in the same order, each running with fresh times and no restarts,
    and satisfies the registry's invariant.  If the disk took only the first [room]
    bytes, the save still reports success; a file shorter than its header is then
    refused and changes nothing, and any other loads exactly the services that are
    complete in it. *)
Theorem save_load_roundtrip alive clock room s file :
  reg_inv s -> Forall entry_fits (live s) ->
  exists f, sm_persistence_save true true room s file = (0, Some f) /\
  let r := sm_persistence_load alive clock (Some f) sm_registry_init in
  ((room < 12)%nat -> r = (-1, sm_registry_init)) /\
  ((12 <= room)%nat -> r.1 = 0 /\ reg_inv r.2 /\
     live r.2 = reloaded clock (take ((room - 12) / sizeof_entry) (live s))) /\
  ((length (file_of (live s)) <= room)%nat -> live r.2 = reloaded clock (live s)).
Proof.
  intros Hi Hf. exists (take room (file_of (live s))). split; [by apply saved_file|].
  destruct (load_cut alive clock (live s) room) as [H1 H2]; try apply Hi; try done.
  { rewrite length_live by done. apply Hi. }
  cbv zeta in *. split_and!; [done|done|]. rewrite length_file_of by done. intros Hr.
  destruct H2 as (_ & _ & ->); [lia|]. f_equal. apply take_ge.
  apply Nat.div_le_lower_bound; [done|]. unfold sizeof_entry in *. lia.
Qed.

(** A registry that cannot be copied empties the file it was to be saved in. *)
Lemma failed_save_empties_file room s f : (0 < registry_count s)%nat ->
  sm_persistence_save true false room s (Some f) = (-1, Some []).
Proof.
  intros Hc. unfold sm_persistence_save, sm_registry_get_all. cbn [negb].
  destruct (Nat.eqb_spec (registry_count s) 0); [lia|done].
Qed.

(** ** Files of any contents *)

Lemma add_all_inv alive clock es : forall i s, reg_inv s ->
  Forall (fun e => (String.length (name e) < 64)%nat) es -> reg_inv (add_all alive clock es i s).
Proof.
  induction es as [|e es IH]; intros i s Hi Hf; [done|]. apply Forall_cons in Hf as [He Hf]. cbn [add_all].
  apply IH; [|done]. exact (proj1 (exec_refines (CAdd alive (clock i) (clock i) (set_crashed e)) s Hi He)).
Qed.

Lemma count_range bs : bytes bs -> 0 <= i32 (int_at 8 4 bs) -> i32 (int_at 8 4 bs) <= SM_REGISTRY_MAX ->
  0 <= int_at 8 4 bs <= 32.
Proof.
  intros Hb H1 H2. assert (Hl : (length (take 4 (drop 8 bs)) <= 4)%nat) by (rewrite length_take; lia).
  assert (Hr : 0 <= int_at 8 4 bs < 2 ^ 32).
  { unfold int_at. pose proof (le_val_range (take 4 (drop 8 bs)) ltac:(by apply Forall_take, Forall_drop)).
    split; [lia|]. eapply Z.lt_le_trans; [apply H|]. apply Z.pow_le_mono_r; lia. }
  unfold SM_REGISTRY_MAX, i32 in *. destruct (decide (int_at 8 4 bs < 2 ^ 31)).
  - rewrite Z.mod_small in H2 by lia. lia.
  - exfalso. replace (int_at 8 4 bs + 2 ^ 31) with (int_at 8 4 bs - 2 ^ 31 + 1 * 2 ^ 32) in H1 by lia.
    rewrite Z.mod_add, Z.mod_small in H1 by lia. lia.
Qed.

(** Whatever bytes a file holds, loading it ends with 0 or -1, leaves the registry
    unchanged in the second case, and keeps the registry's invariant (at most 32
    entries, distinct valid names, chains in step), provided the names in it are
    terminated within their arrays; a missing file is no error. *)
Theorem load_any_file alive clock bs s : reg_inv s -> bytes bs ->
  Forall (fun e => (String.length (name e) < 64)%nat) (read_records 32 (drop 12 bs)) ->
  let r := sm_persistence_load alive clock (Some bs) s in
  reg_inv r.2 /\ (r.1 = 0 \/ r = (-1, s)) /\
  (r.1 = 0 -> exists n, (n <= 32)%nat /\ r.2 = add_all alive clock (read_records n (drop 12 bs)) 0 s) /\
  sm_persistence_load alive clock None s = (0, s).
Proof.
  intros Hi Hb Hn r. subst r. unfold sm_persistence_load.
  destruct (_ || negb (int_at 0 4 bs =? _)); [by split_and!; auto|].
  destruct (_ || negb (int_at 4 4 bs =? _)); [by split_and!; auto|].
  destruct (Nat.ltb _ 12); [by split_and!; auto|].
  destruct (Z.ltb_spec (i32 (int_at 8 4 bs)) 0); [by split_and!; auto|].
  destruct (Z.ltb_spec SM_REGISTRY_MAX (i32 (int_at 8 4 bs))); [by split_and!; auto|]. cbn [orb fst snd].
  pose proof (count_range bs Hb ltac:(done) ltac:(done)).
  split_and!; [|by left| |done].
  - apply add_all_inv; [done|]. rewrite (read_records_take _ 32) by lia. by apply Forall_take.
  - intros _. exists (Z.to_nat (int_at 8 4 bs)). split; [lia|done].
Qed.

(** ** On concrete inputs *)

Lemma reg2_fits : Forall entry_fits (live reg2).
Proof.
  assert (H : live reg2 = [fresh_entry cam 5 5; fresh_entry mic 6 6]) by reflexivity. rewrite H.
  apply Forall_cons; split; [|apply Forall_cons; split; [|apply Forall_nil_2]];
    (constructor; unfold no_nul; simpl; try lia;
     (split; [lia|apply (bool_decide_unpack _); vm_compute; exact I])).
Defined.

Lemma save_load_roundtrip_witness :
  exists f, sm_persistence_save true true 5000 reg2 None = (0, Some f) /\
  live (sm_persistence_load (fun _ => true) (fun _ => 77) (Some f) sm_registry_init).2 =
  reloaded (fun _ => 77) (live reg2).
Proof.
  destruct (save_load_roundtrip (fun _ => true) (fun _ => 77) 5000 reg2 None
    (reachable_inv _ reg2_reachable) reg2_fits) as (f & Hf & _ & _ & Hl).
  exists f. split; [exact Hf|]. apply Hl. rewrite length_file_of by exact reg2_fits.
  change (length (live reg2)) with 2%nat. unfold sizeof_entry. lia.
Defined.

Lemma load_any_file_witness :
  let r := sm_persistence_load (fun _ => true) (fun _ => 77) (Some [1; 2; 3]) reg2 in
  reg_inv r.2 /\ (r.1 = 0 \/ r = (-1, reg2)).
Proof.
  intros r. assert (Hb : bytes [1; 2; 3]) by (repeat constructor; lia).
  pose proof (load_any_file (fun _ => true) (fun _ => 77) [1; 2; 3] reg2
    (reachable_inv _ reg2_reachable) Hb ltac:(constructor)) as H. cbv zeta in H.
  split; [exact (proj1 H)|exact (proj1 (proj2 H))].
Defined.
