(* ===== verification/RollingRestart.v ===== *)
(** * Rolling restart (enterprise/sm_rolling_restart.c)

    A background thread restarts the services of a batch one after the other.  The
    thread's code between two critical sections is one step of [thread_step]; calls
    of the interface are made under the mutex and are one step each.  The state
    records, for the proofs, the names given to [restart_single_service]. *)

From S2P Require Import Prelude.

(** [dev/core/service_manager/enterprise/sm_rolling_restart.h:26-32 sm_restart_state_t] *)
Inductive sm_restart_state_t :=
| RESTART_PENDING | RESTART_IN_PROGRESS | RESTART_SUCCESS | RESTART_FAILED | RESTART_SKIPPED.

#[export] Instance restart_state_eq : EqDecision sm_restart_state_t.
Proof. solve_decision. Defined.

(** [dev/core/service_manager/enterprise/sm_rolling_restart.h:35-43 sm_service_restart_t]
    [error_message] is the attempt it tells of: 0 is the empty text. *)
Record sm_service_restart_t := mk_svc {
  service_name : string; state : sm_restart_state_t;
  start_time : Z; completion_time : Z;
  retry_count : Z; max_retries : Z; error_message : Z
}.

Definition zero_svc : sm_service_restart_t := mk_svc "" RESTART_PENDING 0 0 0 0 0.
#[export] Instance svc_inhabited : Inhabited sm_service_restart_t := populate zero_svc.

Definition MAX_ROLLING_SERVICES : nat := 256.
#[global] Arguments MAX_ROLLING_SERVICES : simpl never.

(** Where the background thread is: at the top of its loop, restarting the service at
    an index, or gone. *)
Inductive thread_at := TLoop | TRestarting (idx : nat) | TGone.

(** [dev/core/service_manager/enterprise/sm_rolling_restart.c:21-36 rolling_restart_ctx_t]
    [restarted]: the names given to [restart_single_service] so far. *)
Record rolling := mk_rolling {
  services : list sm_service_restart_t; service_count : nat;
  max_concurrent : Z; delay_between_restarts : Z;
  thread_running : bool; is_active : bool; current_idx : nat;
  initialized : bool;
  thread : thread_at; restarted : list string
}.

Definition zero_services : list sm_service_restart_t := replicate MAX_ROLLING_SERVICES zero_svc.
Definition rolling0 : rolling := mk_rolling zero_services 0 0 0 false false 0 false TGone [].

Definition set_services l r : rolling :=
  mk_rolling l (service_count r) (max_concurrent r) (delay_between_restarts r) (thread_running r)
    (is_active r) (current_idx r) (initialized r) (thread r) (restarted r).

(** ** The interface *)

(** [dev/core/service_manager/enterprise/sm_rolling_restart.c:124-162 sm_rolling_restart_init]
    [sync]: lock and condition could be made; [thr]: the thread could be created. *)
Definition sm_rolling_restart_init (max_concurrent_restarts : Z) (sync thr : bool) (r : rolling)
    : Z * rolling :=
  if initialized r then (0, r)
  else if (max_concurrent_restarts <=? 0) || (16 <? max_concurrent_restarts) then (-1, r)
  else if negb sync then (-1, mk_rolling zero_services 0 0 0 false false 0 false TGone (restarted r))
  else if negb thr
  then (-1, mk_rolling zero_services 0 max_concurrent_restarts 0 true false 0 false TGone (restarted r))
  else (0, mk_rolling zero_services 0 max_concurrent_restarts 0 true false 0 true TLoop (restarted r)).

Definition pending_svc (nm : string) : sm_service_restart_t :=
  mk_svc (strncpy_z 63 nm) RESTART_PENDING 0 0 0 3 0.

(** [dev/core/service_manager/enterprise/sm_rolling_restart.c:164-212 sm_rolling_restart_start]
    [None]: a NULL array. *)
Definition sm_rolling_restart_start (service_names : option (list string)) (delay : Z) (r : rolling)
    : Z * rolling :=
  if negb (initialized r) then (-1, r)
  else match service_names with
       | None => (-1, r)
       | Some names =>
           if Nat.eqb (length names) 0 || Nat.ltb MAX_ROLLING_SERVICES (length names) then (-1, r)
           else if (delay <? 0) || (3600 <? delay) then (-1, r)
           else if is_active r then (-1, r)
           else (0, mk_rolling (splice 0 (pending_svc <$> names) zero_services) (length names)
                      (max_concurrent r) delay (thread_running r) true 0 true (thread r) (restarted r))
       end.

(** [dev/core/service_manager/enterprise/sm_rolling_restart.h:46-57 sm_rolling_restart_progress_t]
    without the percentage and the two times, which are never set. *)
Record progress_t := mk_progress {
  total_services : Z; completed_count : Z; success_count : Z; failed_count : Z;
  in_progress_count : Z; current_service_idx : Z; p_is_active : bool
}.

Definition count_state (st : sm_restart_state_t) (l : list sm_service_restart_t) : Z :=
  Z.of_nat (length (List.filter (fun s => bool_decide (state s = st)) l)).

(** [dev/core/service_manager/enterprise/sm_rolling_restart.c:214-247 sm_rolling_restart_get_progress] *)
Definition sm_rolling_restart_get_progress (r : rolling) : progress_t :=
  if negb (initialized r) then mk_progress 0 0 0 0 0 0 false
  else
    let l := take (service_count r) (services r) in
    let s := count_state RESTART_SUCCESS l in
    let f := count_state RESTART_FAILED l in
    mk_progress (Z.of_nat (service_count r)) (s + f) s f (count_state RESTART_IN_PROGRESS l)
      (Z.of_nat (current_idx r)) (is_active r).

(** [dev/core/service_manager/enterprise/sm_rolling_restart.c:249-269 sm_rolling_restart_get_service_status] *)
Definition sm_rolling_restart_get_service_status (nm : option string) (r : rolling)
    : sm_service_restart_t :=
  match nm with
  | None => zero_svc
  | Some nm =>
      if negb (initialized r) then zero_svc
      else default zero_svc (List.find (fun s => String.eqb (service_name s) nm)
                               (take (service_count r) (services r)))
  end.

Definition skip (s : sm_service_restart_t) : sm_service_restart_t :=
  if decide (state s = RESTART_PENDING)
  then mk_svc (service_name s) RESTART_SKIPPED (start_time s) (completion_time s) (retry_count s)
         (max_retries s) (error_message s)
  else s.

(** [dev/core/service_manager/enterprise/sm_rolling_restart.c:271-292 sm_rolling_restart_cancel] *)
Definition sm_rolling_restart_cancel (r : rolling) : Z * rolling :=
  if negb (initialized r) then (-1, r)
  else (0, mk_rolling ((skip <$> take (service_count r) (services r)) ++ drop (service_count r) (services r))
             (service_count r) (max_concurrent r) (delay_between_restarts r) (thread_running r)
             false (current_idx r) true (thread r) (restarted r)).

(** [dev/core/service_manager/enterprise/sm_rolling_restart.c:294-305 sm_rolling_restart_is_active] *)
Definition sm_rolling_restart_is_active (r : rolling) : bool := initialized r && is_active r.

(** [dev/core/service_manager/enterprise/sm_rolling_restart.c:307-331 sm_rolling_restart_cleanup]
    The join waits for the thread. *)
Definition sm_rolling_restart_cleanup (r : rolling) : Z * rolling :=
  if negb (initialized r) then (0, r)
  else (0, mk_rolling zero_services 0 0 0 false false 0 false TGone (restarted r)).

(** ** The thread *)

(** [dev/core/service_manager/enterprise/sm_rolling_restart.c:41-53 restart_single_service] a
    stub that waits. *)
Definition restart_single_service : Z := 0.

(** [dev/core/service_manager/enterprise/sm_rolling_restart.c:70-77 rolling_restart_thread_main,
    the search] *)
Fixpoint next_pending (l : list sm_service_restart_t) (i n : nat) : option nat :=
  match n with
  | O => None
  | S n' => if decide (state (l !!! i) = RESTART_PENDING) then Some i else next_pending l (S i) n'
  end.

Definition begin_restart (now : Z) (s : sm_service_restart_t) : sm_service_restart_t :=
  mk_svc (service_name s) RESTART_IN_PROGRESS now (completion_time s) (retry_count s) (max_retries s)
    (error_message s).

(** [dev/core/service_manager/enterprise/sm_rolling_restart.c:61-94 rolling_restart_thread_main,
    up to the restart] *)
Definition thread_begin (now : Z) (r : rolling) : rolling :=
  let goto t act l log :=
    mk_rolling l (service_count r) (max_concurrent r) (delay_between_restarts r) (thread_running r)
      act (current_idx r) (initialized r) t (restarted r ++ log) in
  if negb (thread_running r) then goto TGone (is_active r) (services r) []
  else if negb (is_active r) then r
  else match next_pending (services r) (current_idx r) (service_count r - current_idx r) with
       | None => goto TGone false (services r) []
       | Some i => goto (TRestarting i) true (alter (begin_restart now) i (services r))
                     [service_name (services r !!! i)]
       end.

(** [dev/core/service_manager/enterprise/sm_rolling_restart.c:96-118 rolling_restart_thread_main,
    after the restart] [ret]: what it returned. *)
Definition thread_end (now ret : Z) (i : nat) (r : rolling) : rolling :=
  let set s idx := mk_rolling (<[i := s]> (services r)) (service_count r) (max_concurrent r)
                     (delay_between_restarts r) (thread_running r) (is_active r) idx
                     (initialized r) TLoop (restarted r) in
  let s := services r !!! i in
  if ret =? 0
  then set (mk_svc (service_name s) RESTART_SUCCESS (start_time s) now (retry_count s)
              (max_retries s) (error_message s)) (S i)
  else
    let n := retry_count s + 1 in
    set (mk_svc (service_name s) RESTART_FAILED (start_time s) now n (max_retries s) n)
      (if max_retries s <=? n then S i else current_idx r).

(** [dev/core/service_manager/enterprise/sm_rolling_restart.c:55-122 rolling_restart_thread_main]
    What the thread does next. *)
Definition thread_step (now : Z) (r : rolling) : rolling :=
  match thread r with
  | TGone => r
  | TLoop => thread_begin now r
  | TRestarting i => thread_end now restart_single_service i r
  end.

(** The thread and the callers of the interface, in any order. *)
Inductive rolling_step : rolling -> rolling -> Prop :=
| rs_thread now r : rolling_step r (thread_step now r)
| rs_start names delay r : rolling_step r (sm_rolling_restart_start names delay r).2
| rs_cancel r : rolling_step r (sm_rolling_restart_cancel r).2.

(** ** One batch *)

(** [n] rounds of the thread with nobody else about; the clock is [clock k] in round [k]. *)
Fixpoint thread_rounds (clock : nat -> Z) (n : nat) (r : rolling) : rolling :=
  match n with O => r | S n' => thread_rounds clock n' (thread_step (clock n') r) end.

Lemma next_pending_here l i n : (0 < n)%nat -> state (l !!! i) = RESTART_PENDING ->
  next_pending l i n = Some i.
Proof. intros Hn Hs. destruct n; [lia|]. simpl. by rewrite decide_True. Qed.

(** What is known while a batch [names] is worked on: the first [i] are marked done, and
    those from [i0] on were restarted after [log]. *)
Record batch (names log : list string) (i0 i : nat) (r : rolling) : Prop := {
  b_from : (i0 <= i)%nat;
  b_thread : thread r = TLoop;
  b_run : thread_running r = true;
  b_act : is_active r = true;
  b_idx : current_idx r = i;
  b_count : service_count r = length names;
  b_len : length (services r) = MAX_ROLLING_SERVICES;
  b_max : (length names <= MAX_ROLLING_SERVICES)%nat;
  b_names : forall k nm, names !! k = Some nm -> service_name (services r !!! k) = strncpy_z 63 nm;
  b_done : forall k, (k < i)%nat -> state (services r !!! k) = RESTART_SUCCESS;
  b_todo : forall k, (i <= k < length names)%nat -> state (services r !!! k) = RESTART_PENDING;
  b_log : restarted r = log ++ (strncpy_z 63 <$> take (i - i0) (drop i0 names))
}.

Lemma batch_restart names log i0 i r t1 t2 : batch names log i0 i r -> (i < length names)%nat ->
  batch names log i0 (S i) (thread_step t2 (thread_step t1 r)).
Proof.
  intros [] Hi. unfold thread_step at 2. rewrite b_thread0. unfold thread_begin.
  rewrite b_run0, b_act0, b_idx0, b_count0. cbn [negb].
  rewrite next_pending_here; [|lia|by apply b_todo0].
  unfold thread_step. cbn [thread]. unfold thread_end. cbn [restart_single_service Z.eqb].
  assert (Hlt : (i < length (services r))%nat) by lia.
  assert (Hat : alter (begin_restart t1) i (services r) !!! i = begin_restart t1 (services r !!! i)).
  { apply list_lookup_total_correct. rewrite list_lookup_alter_eq, list_lookup_lookup_total_lt by done. done. }
  assert (Hne : forall k, k <> i -> forall x,
            (<[i := x]> (alter (begin_restart t1) i (services r))) !!! k = services r !!! k).
  { intros k Hk x. rewrite list_lookup_total_insert_ne by done. rewrite !list_lookup_total_alt.
    by rewrite list_lookup_alter_ne. }
  assert (Heq : forall x, (<[i := x]> (alter (begin_restart t1) i (services r))) !!! i = x).
  { intros x. apply list_lookup_total_insert_eq. by rewrite length_alter. }
  destruct (lookup_lt_is_Some_2 names i Hi) as [nm Hnm].
  constructor; cbn [thread thread_running is_active current_idx service_count services restarted]; try done.
  - lia.
  - by rewrite length_insert, length_alter.
  - intros k nm' Hk. destruct (decide (k = i)) as [->|]; [|rewrite Hne by done; by apply b_names0].
    rewrite Heq, Hat. cbn. by apply b_names0.
  - intros k Hk. destruct (decide (k = i)) as [->|]; [by rewrite Heq|].
    rewrite Hne by done. apply b_done0. lia.
  - intros k Hk. rewrite Hne by lia. apply b_todo0. lia.
  - rewrite b_log0, <- app_assoc. f_equal.
    replace (S i - i0)%nat with (S (i - i0)) by lia.
    assert (Hd : drop i0 names !! (i - i0)%nat = Some nm)
      by (rewrite lookup_drop; by replace (i0 + (i - i0))%nat with i by lia).
    erewrite take_S_r by done.
    rewrite fmap_app. cbn. by erewrite b_names0.
Qed.

Lemma batch_end names log i0 r t : batch names log i0 (length names) r -> (i0 <= length names)%nat ->
  let r' := thread_step t r in
  thread r' = TGone /\ is_active r' = false /\ service_count r' = length names /\
  (forall k, (k < length names)%nat -> state (services r' !!! k) = RESTART_SUCCESS) /\
  restarted r' = log ++ (strncpy_z 63 <$> drop i0 names).
Proof.
  intros [] Hi r'. subst r'. unfold thread_step. rewrite b_thread0. unfold thread_begin.
  rewrite b_run0, b_act0, b_idx0, b_count0, Nat.sub_diag. cbn. split_and!; try done.
  rewrite app_nil_r, b_log0. do 2 f_equal. apply take_ge. rewrite length_drop. lia.
Qed.

(** The rest of a batch, from index [i] on. *)
Lemma batch_run names log i0 clock d : forall i r, batch names log i0 i r ->
  (d = length names - i)%nat -> (i <= length names)%nat ->
  let r' := thread_rounds clock (2 * d + 1) r in
  thread r' = TGone /\ is_active r' = false /\ service_count r' = length names /\
  (forall k, (k < length names)%nat -> state (services r' !!! k) = RESTART_SUCCESS) /\
  restarted r' = log ++ (strncpy_z 63 <$> drop i0 names).
Proof.
  induction d as [|d IH]; intros i r Hb Hd Hi.
  - assert (i = length names) as -> by lia. apply batch_end; [done|apply Hb].
  - replace (2 * S d + 1)%nat with (S (S (2 * d + 1))) by lia. cbn [thread_rounds].
    apply (IH (S i)); [|lia|lia]. apply batch_restart; [done|lia].
Qed.

Lemma services_started names k nm : (length names <= MAX_ROLLING_SERVICES)%nat -> names !! k = Some nm ->
  splice 0 (pending_svc <$> names) zero_services !!! k = pending_svc nm.
Proof.
  intros Hl Hk. apply list_lookup_total_correct. unfold splice. rewrite take_0, app_nil_l.
  rewrite lookup_app_l by (rewrite length_fmap; by eapply lookup_lt_Some).
  by rewrite list_lookup_fmap, Hk.
Qed.

Definition batch_ok (names : list string) (delay : Z) : Prop :=
  (0 < length names <= MAX_ROLLING_SERVICES)%nat /\ 0 <= delay <= 3600.

Lemma start_accepted names delay r : batch_ok names delay -> initialized r = true -> is_active r = false ->
  sm_rolling_restart_start (Some names) delay r =
  (0, mk_rolling (splice 0 (pending_svc <$> names) zero_services) (length names)
        (max_concurrent r) delay (thread_running r) true 0 true (thread r) (restarted r)).
Proof.
  intros [Hn Hd] Hi Ha. unfold sm_rolling_restart_start. rewrite Hi, Ha. cbn [negb].
  destruct (Nat.eqb_spec (length names) 0); [lia|].
  destruct (Nat.ltb_spec MAX_ROLLING_SERVICES (length names)); [lia|].
  destruct (Z.ltb_spec delay 0); [lia|]. by destruct (Z.ltb_spec 3600 delay); [lia|].
Qed.

Lemma start_batch names delay r : batch_ok names delay -> initialized r = true -> is_active r = false ->
  thread r = TLoop -> thread_running r = true ->
  batch names (restarted r) 0 0 (sm_rolling_restart_start (Some names) delay r).2.
Proof.
  intros Hok Hi Ha Ht Hr. rewrite start_accepted by done. destruct Hok as [Hn _].
  constructor; cbn; try done; try lia.
  - unfold zero_services. rewrite length_splice; [apply length_replicate|].
    rewrite length_fmap, length_replicate. lia.
  - intros k nm Hk. by erewrite services_started by (done || lia).
  - intros k Hk. destruct (lookup_lt_is_Some_2 names k ltac:(lia)) as [nm Hnm].
    by erewrite services_started by (done || lia).
  - by rewrite app_nil_r.
Qed.

(** Without the thread nothing is restarted. *)
Definition gone (log : list string) (r : rolling) : Prop :=
  thread r = TGone /\ initialized r = true /\ restarted r = log.

Lemma gone_step log r r' : rolling_step r r' -> gone log r -> gone log r'.
Proof.
  intros Hs (Hg & Hi & Hl). destruct Hs as [now r|names delay r|r].
  - unfold thread_step. by rewrite Hg.
  - unfold sm_rolling_restart_start. rewrite Hi. by repeat case_match.
  - unfold sm_rolling_restart_cancel. by rewrite Hi.
Qed.

(** C24: A batch that was started is restarted by the thread in at most two steps per
    service and one more: every service once, in the order given, all marked
    successful, and the thread is gone.  From then on no call brings it back: another
    batch is accepted, but none of its services is ever restarted, and until
    somebody cancels it every further batch is refused as already active. *)
Theorem rolling_restart_once clock names delay r :
  initialized r = true -> is_active r = false -> thread r = TLoop -> thread_running r = true ->
  batch_ok names delay ->
  let r' := thread_rounds clock (2 * length names + 1) (sm_rolling_restart_start (Some names) delay r).2 in
  restarted r' = restarted r ++ (strncpy_z 63 <$> names) /\ is_active r' = false /\
  (forall k, (k < length names)%nat -> state (services r' !!! k) = RESTART_SUCCESS) /\
  forall r2, rtc rolling_step r' r2 ->
    restarted r2 = restarted r' /\
    forall names2 delay2, batch_ok names2 delay2 ->
      (is_active r2 = false -> (sm_rolling_restart_start (Some names2) delay2 r2).1 = 0 /\
                               is_active (sm_rolling_restart_start (Some names2) delay2 r2).2 = true) /\
      (is_active r2 = true -> sm_rolling_restart_start (Some names2) delay2 r2 = (-1, r2)).
Proof.
  intros Hi Ha Ht Hr Hok r'. pose proof (start_batch names delay r Hok Hi Ha Ht Hr) as Hb.
  destruct (batch_run _ _ _ clock (length names) 0 _ Hb) as (Hg & Hact & _ & Hs & Hlog); [lia|lia|].
  fold r' in Hg, Hact, Hs, Hlog. split_and!; [done..|].
  assert (Hinit : initialized r' = true).
  { subst r'. rewrite start_accepted by done. generalize (2 * length names + 1)%nat. clear.
    intros n. cbn. assert (H : forall n r, initialized r = true -> initialized (thread_rounds clock n r) = true).
    { clear. induction n as [|n IH]; intros r H; [done|]. cbn. apply IH. unfold thread_step, thread_begin, thread_end.
      by repeat case_match. }
    by apply H. }
  clearbody r'. clear Hlog Hs Hact Hb. intros r2 Hr2.
  assert (Hinv : gone (restarted r') r2).
  { apply (reachable_invariant (eq r') rolling_step (gone (restarted r'))); [by intros ? <-| |by exists r'].
    intros x y Hx Hy. by eapply gone_step. }
  destruct Hinv as (Hg2 & Hi2 & Hr2'). split; [done|]. intros names2 delay2 Hok2. split; intros Ha2.
  - by rewrite start_accepted.
  - unfold sm_rolling_restart_start. rewrite Hi2, Ha2. cbn [negb]. by repeat case_match.
Qed.

(** A new batch while the thread is still busy with the first service of a cancelled one. *)
Lemma cancelled_batch names names2 delay delay2 r t1 t2 :
  initialized r = true -> is_active r = false -> thread r = TLoop -> thread_running r = true ->
  batch_ok names delay -> batch_ok names2 delay2 ->
  let r1 := thread_step t1 (sm_rolling_restart_start (Some names) delay r).2 in
  let r2 := (sm_rolling_restart_start (Some names2) delay2 (sm_rolling_restart_cancel r1).2).2 in
  batch names2 (restarted r ++ (strncpy_z 63 <$> take 1 names)) 1 1 (thread_step t2 r2).
Proof.
  intros Hi Ha Ht Hr Hok Hok2 r1 r2. subst r2.
  assert (H1 : thread r1 = TRestarting 0 /\ initialized r1 = true /\ thread_running r1 = true /\
               restarted r1 = restarted r ++ (strncpy_z 63 <$> take 1 names)).
  { subst r1. rewrite start_accepted by done. unfold thread_step. cbn [thread snd]. rewrite Ht.
    unfold thread_begin. cbn [thread_running is_active services current_idx service_count negb].
    rewrite Hr. cbn [negb]. destruct Hok as [Hn _]. destruct names as [|nm names]; [simpl in Hn; lia|].
    rewrite next_pending_here; [|simpl; lia|by rewrite (services_started _ 0 nm) by (done || lia)].
    by split_and!. }
  clearbody r1. destruct H1 as (Ht1 & Hi1 & Hr1 & Hl1).
  unfold sm_rolling_restart_cancel. rewrite Hi1. cbn [negb snd]. rewrite start_accepted by done.
  cbn [snd]. unfold thread_step. cbn [thread max_concurrent thread_running restarted]. rewrite Ht1.
  unfold thread_end. cbn [restart_single_service Z.eqb services service_count]. destruct Hok2 as [Hn _].
  assert (Hlen : length (splice 0 (pending_svc <$> names2) zero_services) = MAX_ROLLING_SERVICES).
  { unfold zero_services. rewrite length_splice; [apply length_replicate|].
    rewrite length_fmap, length_replicate. lia. }
  constructor; cbn [thread thread_running is_active current_idx service_count services restarted
                    max_concurrent delay_between_restarts initialized]; try done; try lia.
  - by rewrite length_insert.
  - intros k nm Hk. destruct (decide (k = 0%nat)) as [->|].
    + rewrite list_lookup_total_insert_eq by (rewrite Hlen; lia).
      by erewrite (services_started _ 0 nm) by (done || lia).
    + rewrite list_lookup_total_insert_ne by done. by erewrite services_started by (done || lia).
  - intros k Hk. assert (k = 0%nat) as -> by lia.
    by rewrite list_lookup_total_insert_eq by (rewrite Hlen; lia).
  - intros k Hk. destruct (lookup_lt_is_Some_2 names2 k ltac:(lia)) as [nm Hnm].
    rewrite list_lookup_total_insert_ne by lia. by erewrite services_started by (done || lia).
  - by rewrite Hl1, app_nil_r.
Qed.

(** A batch started after another one was cancelled, while the thread still restarts
    the first service of the cancelled batch, begins wrongly: the thread books that
    restart on the new batch, so that in the end every service of the new batch is
    reported successful although the first one was never restarted. *)
Theorem cancelled_restart_misbooked clock t1 t2 names names2 delay delay2 r :
  initialized r = true -> is_active r = false -> thread r = TLoop -> thread_running r = true ->
  batch_ok names delay -> batch_ok names2 delay2 ->
  let r1 := thread_step t1 (sm_rolling_restart_start (Some names) delay r).2 in
  let r2 := (sm_rolling_restart_start (Some names2) delay2 (sm_rolling_restart_cancel r1).2).2 in
  let r3 := thread_rounds clock (2 * (length names2 - 1) + 1) (thread_step t2 r2) in
  restarted r3 = restarted r ++ (strncpy_z 63 <$> take 1 names) ++ (strncpy_z 63 <$> drop 1 names2) /\
  is_active r3 = false /\
  forall k, (k < length names2)%nat -> state (services r3 !!! k) = RESTART_SUCCESS.
Proof.
  intros Hi Ha Ht Hr Hok Hok2 r1 r2 r3.
  pose proof (cancelled_batch names names2 delay delay2 r t1 t2 Hi Ha Ht Hr Hok Hok2) as Hb.
  destruct Hok2 as [Hn2 _].
  destruct (batch_run _ _ _ clock (length names2 - 1) 1 _ Hb) as (_ & Hact & _ & Hs & Hlog); [done|lia|].
  split_and!; [|done|done]. unfold r3, r2, r1. by rewrite Hlog, <- app_assoc.
Qed.

(** ** On concrete inputs *)

Definition demo_rolling : rolling := (sm_rolling_restart_init 1 true true rolling0).2.

Lemma demo_batch_ok : batch_ok ["audio"; "camera"] 10 /\ batch_ok ["gpio"; "sensor"] 0.
Proof. unfold batch_ok, MAX_ROLLING_SERVICES. simpl. lia. Defined.

Lemma rolling_restart_once_witness :
  let r' := thread_rounds (fun _ => 9) 5 (sm_rolling_restart_start (Some ["audio"; "camera"]) 10 demo_rolling).2 in
  restarted r' = ["audio"; "camera"] /\ is_active r' = false /\
  (sm_rolling_restart_start (Some ["gpio"; "sensor"]) 0 r').1 = 0.
Proof.
  intros r'.
  destruct (rolling_restart_once (fun _ => 9) ["audio"; "camera"] 10 demo_rolling eq_refl eq_refl eq_refl eq_refl
              (proj1 demo_batch_ok)) as (H1 & H2 & _ & H3).
  split; [exact H1|]. split; [exact H2|].
  exact (proj1 (proj1 (proj2 (H3 r' (rtc_refl _ _)) _ _ (proj2 demo_batch_ok)) H2)).
Defined.

Lemma cancelled_restart_misbooked_witness :
  let r1 := thread_step 1 (sm_rolling_restart_start (Some ["audio"; "camera"]) 10 demo_rolling).2 in
  let r2 := (sm_rolling_restart_start (Some ["gpio"; "sensor"]) 0 (sm_rolling_restart_cancel r1).2).2 in
  let r3 := thread_rounds (fun _ => 9) 3 (thread_step 2 r2) in
  restarted r3 = ["audio"; "sensor"] /\ state (services r3 !!! 0%nat) = RESTART_SUCCESS.
Proof.
  intros r1 r2 r3.
  destruct (cancelled_restart_misbooked (fun _ => 9) 1 2 ["audio"; "camera"] ["gpio"; "sensor"] 10 0 demo_rolling
              eq_refl eq_refl eq_refl eq_refl (proj1 demo_batch_ok) (proj2 demo_batch_ok)) as (H1 & _ & H2).
  split; [exact H1|]. apply (H2 0%nat). simpl. lia.
Defined.

Example rolling_progress :
  sm_rolling_restart_get_progress (thread_rounds (fun _ => 9) 2
    (sm_rolling_restart_start (Some ["audio"; "camera"]) 10 demo_rolling).2) =
  mk_progress 2 1 1 0 0 1 true.
Proof. vm_compute. reflexivity. Qed.
