(* ===== verification/RecentLog.v ===== *)
(** * Logs that keep the most recent entries

    Several modules of the monitor keep their last entries in a circular array.
    This file has the promise they make to their readers, a class, and the invariant
    of the array that the implementations share. *)

From S2P Require Import Prelude.

(** The last [n] elements. *)
Definition last_n {A} (n : nat) (l : list A) : list A := drop (length l - n) l.

Lemma length_last_n {A} n (l : list A) : length (last_n n l) = (n `min` length l)%nat.
Proof. unfold last_n. rewrite length_drop. lia. Qed.

Lemma lookup_last_n {A} n (l : list A) i : (i < n)%nat -> (n <= length l)%nat ->
  last_n n l !! i = l !! (length l - n + i)%nat.
Proof. intros. unfold last_n. apply lookup_drop. Qed.

Lemma last_n_all {A} n (l : list A) : (length l <= n)%nat -> last_n n l = l.
Proof. intros. unfold last_n. by replace (length l - n)%nat with 0%nat by lia. Qed.

Lemma last_n_app {A} n (l k : list A) : last_n n (last_n n l ++ k) = last_n n (l ++ k).
Proof.
  unfold last_n. rewrite !length_app, length_drop. destruct (Nat.leb_spec (length l) n) as [Hl|Hl].
  - replace (length l - n)%nat with 0%nat by lia. rewrite drop_0. f_equal. lia.
  - rewrite !drop_app, drop_drop, length_drop. f_equal; f_equal; lia.
Qed.

(** A log of elements [A] with states [T]. *)
Class RecentLog (T A : Type) := {
  log_cap : T -> nat;               (** how many entries it remembers *)
  log_ok : T -> A -> Prop;          (** entries it takes *)
  log_push : A -> T -> T;
  log_recent : nat -> T -> list A;  (** the last [n] entries, oldest first *)
  log_holds : T -> list A -> Prop   (** the state after exactly these entries *)
}.

Class RecentLogLaws (T A : Type) {L : RecentLog T A} := {
  log_push_holds : forall t l x, log_holds t l -> log_ok t x ->
    log_holds (log_push x t) (l ++ [x]) /\ log_cap (log_push x t) = log_cap t /\
    (forall y, log_ok t y -> log_ok (log_push x t) y);
  log_recent_holds : forall t l n, log_holds t l ->
    log_recent n t = last_n (n `min` log_cap t) l
}.

Section client.
Context {T A : Type} `{RecentLogLaws T A}.

(** However many entries were pushed, a reader gets the last ones in order. *)
Lemma recent_after_pushes xs : forall t l n, log_holds t l -> Forall (log_ok t) xs ->
  log_recent n (fold_left (fun t x => log_push x t) xs t) = last_n (n `min` log_cap t) (l ++ xs).
Proof.
  induction xs as [|x xs IH]; intros t l n Hl Hok.
  - rewrite app_nil_r. by apply log_recent_holds.
  - apply Forall_cons in Hok as [Hx Hok]. simpl.
    destruct (log_push_holds t l x Hl Hx) as (Hl' & Hc & Hk).
    rewrite (IH _ (l ++ [x])); [by rewrite Hc, <- app_assoc|done|].
    eapply Forall_impl; [exact Hok|done].
Qed.
End client.

(** ** The circular array *)

Section ring_log.
Context {A : Type} `{Inhabited A}.
Implicit Types (b l : list A).

(** Array [b] with write index [head] after the entries [l]. *)
Record ring_log (b : list A) (head : nat) (l : list A) : Prop := {
  rl_pos : (0 < length b)%nat;
  rl_head : head = (length l mod length b)%nat;
  rl_at : forall j, (j < length l <= j + length b)%nat -> b !!! (j mod length b)%nat = l !!! j
}.

Lemma ring_log_nil b : (0 < length b)%nat -> ring_log b 0 [].
Proof. intros. constructor; [done| |simpl; lia]. by rewrite Nat.Div0.mod_0_l. Qed.

Lemma mod_ne cap i j : (i < j < i + cap)%nat -> (i mod cap <> j mod cap)%nat.
Proof.
  intros Hij He. assert (Hd : ((j - i) mod cap = 0)%nat).
  { replace j with (i + (j - i))%nat in He by lia. rewrite Nat.Div0.add_mod in He.
    pose proof (Nat.mod_upper_bound i cap). pose proof (Nat.mod_upper_bound (j - i) cap).
    set (a := (i mod cap)%nat) in *. set (d := ((j - i) mod cap)%nat) in *.
    destruct (decide (a + d < cap)%nat); [rewrite Nat.mod_small in He by done; lia|].
    replace (a + d)%nat with (a + d - cap + 1 * cap)%nat in He by lia.
    rewrite Nat.Div0.mod_add, Nat.mod_small in He by lia. lia. }
  rewrite Nat.mod_small in Hd by lia. lia.
Qed.

Lemma ring_log_push b head l x : ring_log b head l ->
  ring_log (<[head := x]> b) ((head + 1) mod length b) (l ++ [x]).
Proof.
  intros [Hp -> Ha]. assert (Hh : (length l mod length b < length b)%nat) by (apply Nat.mod_upper_bound; lia).
  constructor; rewrite length_insert; [done| |].
  - rewrite length_app. simpl. by rewrite Nat.Div0.add_mod_idemp_l.
  - intros j Hj. rewrite length_app in Hj. simpl in Hj.
    destruct (decide (j = length l)) as [->|].
    + rewrite list_lookup_total_insert_eq by done. by rewrite list_lookup_total_middle.
    + rewrite list_lookup_total_insert_ne by (apply not_eq_sym, mod_ne; lia).
      rewrite lookup_total_app_l by lia.
      apply Ha. lia.
Qed.

(** The read loop of the modules: [n] entries back from the write index. *)
Definition ring_read (b : list A) (head n : nat) : list A :=
  (fun i => b !!! ((head + length b - n + i) mod length b)%nat) <$> seq 0 n.

Lemma ring_read_at b head l n i : ring_log b head l -> (i < n)%nat -> (n <= length l)%nat ->
  (n <= length b)%nat ->
  b !!! ((head + length b - n + i) mod length b)%nat = l !!! (length l - n + i)%nat.
Proof.
  intros [Hp -> Ha] Hi Hn Hb. rewrite <- (Ha (length l - n + i)%nat) by lia. f_equal.
  set (c := length b) in *. set (m := length l) in *.
  replace (m - n + i)%nat with (m + c - n + i - 1 * c)%nat by lia.
  assert (Hm : m = (c * (m / c) + m mod c)%nat) by apply Nat.div_mod_eq.
  assert (Hsum : (m mod c + c - n + i + (m / c) * c = m + c - n + i)%nat) by lia.
  assert (H1 : ((m + c - n + i) mod c = (m + c - n + i - 1 * c) mod c)%nat).
  { replace (m + c - n + i)%nat with (m + c - n + i - 1 * c + 1 * c)%nat at 1 by lia.
    apply Nat.Div0.mod_add. }
  rewrite <- H1, <- Hsum. by rewrite Nat.Div0.mod_add.
Qed.

Lemma ring_read_last b head l n : ring_log b head l -> (n <= length l)%nat -> (n <= length b)%nat ->
  ring_read b head n = last_n n l.
Proof.
  intros Hr Hn Hb. apply list_eq. intros i. unfold ring_read.
  destruct (decide (i < n)%nat) as [Hi|Hi].
  - rewrite list_lookup_fmap, lookup_seq_lt by done. simpl.
    rewrite (ring_read_at b head l) by done. rewrite lookup_last_n by done.
    symmetry. apply list_lookup_lookup_total_lt. lia.
  - rewrite !lookup_ge_None_2; [done|rewrite length_last_n; lia|].
    rewrite length_fmap, length_seq. lia.
Qed.
End ring_log.
