(* ===== verification/Histories.v ===== *)
(** * Time series and trace store of the monitor

    monitoring/metrics/metrics_history.h and metrics_types.h (sparklines),
    monitoring/tracing/trace_store.c, monitoring/health/health_history.c: four circular
    arrays.  The first three are instances of [RecentLog]. *)

From S2P Require Import Prelude Float64 RecentLog.

(** ** Traces *)

(** [dev/monitoring/protocol/monitor_ipc_protocol.h:444-450 trace_span_t] *)
Record trace_span_t := mk_span {
  span_component : string; enter_us : Z; exit_us : Z; span_status : Z; annotation : string
}.

(** [dev/monitoring/protocol/monitor_ipc_protocol.h:452-460 trace_record_t] *)
Record trace_record_t := mk_trace {
  trace_id : Z; start_ts_ms : Z; total_us : Z; span_count : Z; spans : list trace_span_t;
  trace_status : Z; bottleneck_span_idx : Z
}.
Definition zero_trace : trace_record_t := mk_trace 0 0 0 0 [] 0 0.
#[export] Instance trace_inhabited : Inhabited trace_record_t := populate zero_trace.

Definition TRACE_STORE_MAX : nat := 1000.
#[global] Arguments TRACE_STORE_MAX : simpl never.

(** [dev/monitoring/tracing/trace_store.h:18-23 trace_store_t] *)
Record trace_store_t := mk_store { traces : list trace_record_t; ts_head : nat; ts_count : nat }.

(** [dev/monitoring/tracing/trace_store.c:8-13 trace_store_init] *)
Definition trace_store_init : trace_store_t := mk_store (replicate TRACE_STORE_MAX zero_trace) 0 0.

(** [dev/monitoring/tracing/trace_store.c:20-32 trace_store_add_trace] *)
Definition trace_store_add_trace (trace : trace_record_t) (s : trace_store_t) : trace_store_t :=
  mk_store (<[ts_head s := trace]> (traces s)) ((ts_head s + 1) mod TRACE_STORE_MAX)
    (if Nat.ltb (ts_count s) TRACE_STORE_MAX then S (ts_count s) else ts_count s).

(** [dev/monitoring/tracing/trace_store.c:34-47 trace_store_get_recent] *)
Definition trace_store_get_recent (max : nat) (s : trace_store_t) : list trace_record_t :=
  let n := if Nat.ltb (ts_count s) max then ts_count s else max in
  (fun i => traces s !!! ((ts_head s + TRACE_STORE_MAX - n + i) mod TRACE_STORE_MAX)%nat) <$> seq 0 n.

(** [dev/monitoring/tracing/trace_store.c:49-63 trace_store_find] *)
Definition trace_store_find (id : Z) (s : trace_store_t) : option trace_record_t :=
  List.find (fun t => trace_id t =? id) (take (ts_count s) (traces s)).

(** ** Metric histories *)

(** [dev/monitoring/metrics/metrics_history.h:22-32 metrics_history_t] *)
Record metrics_history_t := mk_history {
  h_name : string; resolution_ms : Z; duration_ms : Z; h_head : nat; h_count : nat;
  h_values : list (double * Z);   (** [values] and [timestamps_ms], both of [capacity] elements *)
  last_push_ms : Z
}.
Definition capacity (h : metrics_history_t) : nat := length (h_values h).

#[export] Instance sample_inhabited : Inhabited (double * Z) := populate (d0, 0).

(** [dev/monitoring/metrics/metrics_history.h:41-62 metrics_history_create] [mem]: the
    allocations succeed. *)
Definition metrics_history_create (nm : option string) (resolution duration : Z) (mem : bool)
    : option metrics_history_t :=
  let resolution := if resolution =? 0 then 1 else resolution in
  if negb mem then None
  else
    let cap := duration / resolution in
    let cap := if cap =? 0 then 1 else cap in
    Some (mk_history (strncpy_z 63 (default "" nm)) resolution duration 0 0
            (replicate (Z.to_nat cap) (d0, 0)) 0).

(** [dev/monitoring/metrics/metrics_history.h:83-93 metrics_history_push] *)
Definition metrics_history_push (value : double) (ts_ms : Z) (h : metrics_history_t) : metrics_history_t :=
  if Nat.ltb 0 (h_count h) && (u64 (ts_ms - last_push_ms h) <? resolution_ms h) then h
  else mk_history (h_name h) (resolution_ms h) (duration_ms h) ((h_head h + 1) mod capacity h)
         (if Nat.ltb (h_count h) (capacity h) then S (h_count h) else h_count h)
         (<[h_head h := (value, ts_ms)]> (h_values h)) ts_ms.

(** [dev/monitoring/metrics/metrics_history.h:103-119 metrics_history_get_last] the values as
    [float] with their times. *)
Definition metrics_history_get_last (n : nat) (h : metrics_history_t) : list (double * Z) :=
  let avail := if Nat.ltb (h_count h) n then h_count h else n in
  let start := ((h_head h + capacity h - avail) mod capacity h)%nat in
  (fun i => let '(v, t) := h_values h !!! ((start + i) mod capacity h)%nat in (to_float v, t)) <$> seq 0 avail.

(** [dev/monitoring/metrics/metrics_history.h:124-129 metrics_history_last] *)
Definition metrics_history_last (h : metrics_history_t) : double :=
  if Nat.eqb (h_count h) 0 then d0
  else (h_values h !!! ((h_head h + capacity h - 1) mod capacity h)%nat).1.

(** [dev/monitoring/metrics/metrics_history.h:135-145 metrics_history_avg] *)
Definition metrics_history_avg (n : nat) (h : metrics_history_t) : double :=
  if Nat.eqb (h_count h) 0 then d0
  else
    let avail := if Nat.ltb (h_count h) n then h_count h else n in
    let start := ((h_head h + capacity h - avail) mod capacity h)%nat in
    ddiv (fold_left (fun sum i => dadd sum (h_values h !!! ((start + i) mod capacity h)%nat).1) (seq 0 avail) d0)
         (d_of_Z (Z.of_nat avail)).

(** ** Sparklines *)

Definition SPARKLINE_CAPACITY : nat := 64.
#[global] Arguments SPARKLINE_CAPACITY : simpl never.

(** [dev/monitoring/metrics/metrics_types.h:165-172 sparkline_t] *)
Record sparkline_t := mk_spark {
  s_values : list (double * Z); s_head : nat; s_count : nat; min_seen : double; max_seen : double
}.

(** [dev/monitoring/metrics/metrics_types.h:184-194 sparkline_init] *)
Definition sparkline_init : sparkline_t :=
  mk_spark (replicate SPARKLINE_CAPACITY (d0, 0)) 0 0 (to_float (d_of_Z (10 ^ 18))) (to_float (d_of_Z (- 10 ^ 18))).

(** [dev/monitoring/metrics/metrics_types.h:174-182 sparkline_push] *)
Definition sparkline_push (v : double) (ts_ms : Z) (s : sparkline_t) : sparkline_t :=
  mk_spark (<[s_head s := (v, ts_ms)]> (s_values s)) ((s_head s + 1) mod SPARKLINE_CAPACITY)
    (if Nat.ltb (s_count s) SPARKLINE_CAPACITY then S (s_count s) else s_count s)
    (if dlt v (min_seen s) then v else min_seen s) (if dlt (max_seen s) v then v else max_seen s).

(** ** Health scores *)

Definition HEALTH_HISTORY_CAPACITY : nat := 3600.
Definition HEALTH_HISTORY_RESOLUTION_MS : Z := 1000.
#[global] Arguments HEALTH_HISTORY_CAPACITY : simpl never.

(** [dev/monitoring/health/health_history.h:17-25 health_history_t] [hh_data]: [scores] and
    [timestamps_ms]. *)
Record health_history_t := mk_health {
  hh_name : string; hh_head : nat; last_update_ms : Z; hh_data : list (Z * Z)
}.
#[export] Instance score_inhabited : Inhabited (Z * Z) := populate (0, 0).

(** [dev/monitoring/health/health_history.c:11-28 health_history_init] *)
Definition health_history_init (nm : string) (mem : bool) : Z * health_history_t :=
  if mem then (0, mk_health (strncpy_z 31 nm) 0 0 (replicate HEALTH_HISTORY_CAPACITY (0, 0)))
  else (-1, mk_health (strncpy_z 31 nm) 0 0 []).

(** [dev/monitoring/health/health_history.c:43-60 health_history_push] *)
Definition health_history_push (score timestamp : Z) (h : health_history_t) : health_history_t :=
  if negb (last_update_ms h =? 0) && (u64 (timestamp - last_update_ms h) <? HEALTH_HISTORY_RESOLUTION_MS)
  then h
  else mk_health (hh_name h) ((hh_head h + 1) mod length (hh_data h)) timestamp
         (<[hh_head h := (score, timestamp)]> (hh_data h)).

(** [dev/monitoring/health/health_history.c:68-73 health_history_get_latest, the loop] *)
Fixpoint latest_from (h : health_history_t) (n i k : nat) : list Z :=
  match k with
  | O => []
  | S k' =>
      let e := hh_data h !!! ((hh_head h + length (hh_data h) - n + i) mod length (hh_data h))%nat in
      if e.2 =? 0 then [] else e.1 :: latest_from h n (S i) k'
  end.

(** [dev/monitoring/health/health_history.c:62-77 health_history_get_latest] *)
Definition health_history_get_latest (n : nat) (h : health_history_t) : list Z :=
  let n := if Nat.eqb n 0 || Nat.ltb (length (hh_data h)) n then length (hh_data h) else n in
  latest_from h n 0 n.

(** [dev/monitoring/health/health_history.c:96-111 health_history_get_sparkline, the search]
    for the score nearest to [target]; the best difference so far and its score. *)
Definition nearest (cutoff target : Z) (data : list (Z * Z)) : Z * Z :=
  fold_left (fun best e =>
      if e.2 =? 0 then best
      else if e.2 <? cutoff then best
      else
        let diff := if target <? e.2 then e.2 - target else target - e.2 in
        if diff <? best.1 then (diff, e.1) else best)
    data (2 ^ 64 - 1, 100).

(** [dev/monitoring/health/health_history.c:79-119 health_history_get_sparkline] [now]: the
    monotonic clock in milliseconds. *)
Definition health_history_get_sparkline (count duration now : Z) (h : health_history_t) : list Z :=
  let cutoff := u64 (now - u64 (duration * 1000)) in
  (fun i => let target := u64 (cutoff + u32 (u32 (Z.of_nat i * duration) * 1000) / count) in
            (nearest cutoff target (hh_data h)).2) <$> seq 0 (Z.to_nat count).

#[local] Arguments Nat.modulo : simpl never.
#[local] Arguments Nat.min : simpl never.

(** ** The stores are logs *)

Lemma ring_count l cap :
  ((if Nat.ltb (l `min` cap) cap then S (l `min` cap) else l `min` cap) = S l `min` cap)%nat.
Proof. destruct (Nat.ltb_spec (l `min` cap) cap); lia. Qed.

(** What the read loops take: at most [n], at most what there is. *)
Lemma ring_read_avail {A} `{Inhabited A} (b : list A) head l n : ring_log b head l ->
  ring_read b head (if Nat.ltb (length l `min` length b) n then length l `min` length b else n)%nat =
  last_n (n `min` length b) l.
Proof.
  intros Hr. pose proof (rl_pos _ _ _ Hr).
  rewrite (ring_read_last b head l); [|done|destruct (Nat.ltb_spec (length l `min` length b) n); lia..].
  unfold last_n. f_equal. destruct (Nat.ltb_spec (length l `min` length b) n); lia.
Qed.

Definition trace_holds (s : trace_store_t) (l : list trace_record_t) : Prop :=
  ring_log (traces s) (ts_head s) l /\ length (traces s) = TRACE_STORE_MAX /\
  ts_count s = (length l `min` TRACE_STORE_MAX)%nat.

#[export] Instance trace_RecentLog : RecentLog trace_store_t trace_record_t := {
  log_cap _ := TRACE_STORE_MAX; log_ok _ _ := True;
  log_push := trace_store_add_trace; log_recent := trace_store_get_recent; log_holds := trace_holds
}.

#[export] Instance trace_RecentLogLaws : RecentLogLaws trace_store_t trace_record_t.
Proof.
  split.
  - intros t l x (Hr & Hl & Hc) _. split_and!; [|done|done]. split_and!; simpl.
    + rewrite <- Hl. by apply ring_log_push.
    + by rewrite length_insert.
    + rewrite Hc, ring_count, length_app. simpl. f_equal. lia.
  - intros t l n (Hr & Hl & Hc). simpl. unfold trace_store_get_recent.
    rewrite Hc, <- Hl. by apply ring_read_avail.
Qed.

Lemma trace_init_holds : trace_holds trace_store_init [].
Proof.
  split_and!; [|apply length_replicate|done]. apply ring_log_nil. cbn [traces trace_store_init].
  rewrite length_replicate. unfold TRACE_STORE_MAX. lia.
Qed.

(** The array of a metric history after the samples [l] were stored. *)
Definition history_holds (h : metrics_history_t) (l : list (double * Z)) : Prop :=
  ring_log (h_values h) (h_head h) l /\ h_count h = (length l `min` capacity h)%nat.

(** [metrics_history_push] without its rate limit. *)
Definition history_store (x : double * Z) (h : metrics_history_t) : metrics_history_t :=
  mk_history (h_name h) (resolution_ms h) (duration_ms h) ((h_head h + 1) mod capacity h)
    (if Nat.ltb (h_count h) (capacity h) then S (h_count h) else h_count h)
    (<[h_head h := x]> (h_values h)) x.2.

Definition history_recent (n : nat) (h : metrics_history_t) : list (double * Z) :=
  ring_read (h_values h) (h_head h) (if Nat.ltb (h_count h) n then h_count h else n).

#[export] Instance history_RecentLog : RecentLog metrics_history_t (double * Z) := {
  log_cap := capacity; log_ok _ _ := True;
  log_push := history_store; log_recent := history_recent; log_holds := history_holds
}.

#[export] Instance history_RecentLogLaws : RecentLogLaws metrics_history_t (double * Z).
Proof.
  split.
  - intros h l x [Hr Hc] _. unfold log_cap. simpl. unfold capacity. simpl. rewrite length_insert.
    split_and!; [|done|done]. split; unfold capacity; simpl.
    + by apply ring_log_push.
    + rewrite Hc, length_insert, length_app. unfold capacity. rewrite ring_count. simpl. f_equal. lia.
  - intros h l n [Hr Hc]. simpl. unfold history_recent. rewrite Hc. by apply ring_read_avail.
Qed.

Lemma mod_add_shift a c i : (0 < c)%nat -> ((a mod c + i) mod c = (a + i) mod c)%nat.
Proof. intros. by rewrite Nat.Div0.add_mod_idemp_l. Qed.

Lemma get_last_recent n h : (0 < capacity h)%nat ->
  metrics_history_get_last n h = (fun '(v, t) => (to_float v, t)) <$> history_recent n h.
Proof.
  intros Hp. unfold metrics_history_get_last, history_recent, ring_read, capacity in *.
  rewrite <- list_fmap_compose. apply list_fmap_ext. intros _ i _. simpl.
  by rewrite mod_add_shift.
Qed.

(** The samples a history takes: each at least [r] milliseconds after the one before. *)
Fixpoint spaced (r : Z) (last : option Z) (xs : list (double * Z)) : list (double * Z) :=
  match xs with
  | [] => []
  | (v, t) :: xs' =>
      match last with
      | Some t0 => if u64 (t - t0) <? r then spaced r last xs' else (v, t) :: spaced r (Some t) xs'
      | None => (v, t) :: spaced r (Some t) xs'
      end
  end.

Definition last_time (l : list (double * Z)) : option Z := snd <$> last l.

Definition push_all (xs : list (double * Z)) (h : metrics_history_t) : metrics_history_t :=
  fold_left (fun h x => metrics_history_push x.1 x.2 h) xs h.

Lemma push_all_holds xs : forall h l, history_holds h l -> (forall t, last_time l = Some t -> last_push_ms h = t) ->
  let h' := push_all xs h in
  history_holds h' (l ++ spaced (resolution_ms h) (last_time l) xs) /\ capacity h' = capacity h.
Proof.
  induction xs as [|[v t] xs IH]; intros h l Hh Ht; [by rewrite app_nil_r|]. simpl.
  assert (Hst : forall l', l' = l ++ [(v, t)] ->
            let h' := push_all xs (history_store (v, t) h) in
            history_holds h' (l' ++ spaced (resolution_ms h) (Some t) xs) /\ capacity h' = capacity h).
  { intros l' ->. destruct (log_push_holds (L:=history_RecentLog) h l (v, t) Hh I) as (Hh' & Hc & _).
    assert (Hlt : last_time (l ++ [(v, t)]) = Some t) by (unfold last_time; by rewrite last_snoc).
    destruct (IH (history_store (v, t) h) (l ++ [(v, t)]) Hh') as [H1 H2].
    - intros t' Ht'. rewrite Hlt in Ht'. by simplify_eq.
    - rewrite Hlt in H1. split; [exact H1|]. by rewrite H2. }
  destruct Hh as [Hr Hc]. pose proof (rl_pos _ _ _ Hr) as Hp. unfold metrics_history_push.
  destruct (last_time l) as [t0|] eqn:E.
  - rewrite (Ht t0 eq_refl). assert (Hne : Nat.ltb 0 (h_count h) = true).
    { apply Nat.ltb_lt. rewrite Hc. unfold capacity. destruct l; [done|]. simpl. lia. }
    rewrite Hne. simpl. destruct (_ <? _).
    + rewrite <- E. apply IH; [done|]. by rewrite E.
    + rewrite (cons_middle (v, t) l), app_assoc. by apply Hst.
  - assert (Hnil : l = []).
    { destruct l as [|x l] using rev_ind; [done|]. unfold last_time in E. by rewrite last_snoc in E. }
    subst l. assert (Hz : Nat.ltb 0 (h_count h) = false) by (by rewrite Hc).
    rewrite Hz. by apply (Hst [(v, t)]).
Qed.

Lemma create_holds nm resolution duration h0 :
  metrics_history_create nm resolution duration true = Some h0 -> 0 <= resolution -> 0 <= duration ->
  history_holds h0 [] /\ (0 < capacity h0)%nat.
Proof.
  unfold metrics_history_create. cbn [negb]. intros Hcr Hr Hd.
  set (r := if resolution =? 0 then 1 else resolution) in *.
  assert (0 < r) by (unfold r; destruct (Z.eqb_spec resolution 0); lia).
  assert (0 < (if duration / r =? 0 then 1 else duration / r)).
  { pose proof (Z.div_pos duration r). destruct (Z.eqb_spec (duration / r) 0); lia. }
  set (cap := if duration / r =? 0 then 1 else duration / r) in *. clearbody cap.
  simplify_eq. unfold history_holds, capacity. cbn [h_values h_count h_head].
  rewrite length_replicate. split; [split|lia]; [|done]. apply ring_log_nil. rewrite length_replicate. lia.
Qed.

Lemma history_last_value h l : history_holds h l -> metrics_history_last h = default d0 (fst <$> last l).
Proof.
  intros [Hr Hc]. pose proof (rl_pos _ _ _ Hr). unfold metrics_history_last.
  destruct l as [|x l _] using rev_ind; [by rewrite Hc|].
  rewrite Hc, length_app. unfold capacity. simpl.
  rewrite (proj2 (Nat.eqb_neq _ _)) by lia. rewrite last_snoc. simpl.
  pose proof (ring_read_at _ _ _ 1 0 Hr) as Hat. rewrite length_app in Hat. simpl in Hat.
  rewrite Nat.add_0_r in Hat. rewrite Hat by lia.
  replace (length l + 1 - 1 + 0)%nat with (length l) by lia. by rewrite list_lookup_total_middle.
Qed.

(** A metric history takes of any sequence of samples those that come at least its
    resolution after the last one taken (the first always), and a reader that asks for
    [n] gets the last [n] of them, oldest first, or all there are, at most its
    capacity; its latest value is the last one taken. *)
Theorem history_last_samples nm resolution duration xs n h0 :
  metrics_history_create nm resolution duration true = Some h0 -> 0 <= resolution -> 0 <= duration ->
  let taken := spaced (resolution_ms h0) None xs in
  metrics_history_get_last n (push_all xs h0) =
    (fun '(v, t) => (to_float v, t)) <$> last_n (n `min` capacity h0) taken /\
  metrics_history_last (push_all xs h0) = default d0 (fst <$> last taken).
Proof.
  intros Hcr Hr Hd taken. destruct (create_holds _ _ _ _ Hcr Hr Hd) as [Hh Hp].
  destruct (push_all_holds xs h0 [] Hh ltac:(done)) as [Hh' Hc].
  rewrite app_nil_l in Hh'. fold taken in Hh'. change (last_time []) with (@None Z) in Hh'. fold taken in Hh'.
  split.
  - rewrite get_last_recent by lia. f_equal.
    etrans; [exact (log_recent_holds (L:=history_RecentLog) _ _ n Hh')|]. cbn. by rewrite Hc.
  - by apply history_last_value.
Qed.

(** ** Health histories *)

Definition health_holds (h : health_history_t) (l : list (Z * Z)) : Prop :=
  ring_log (hh_data h) (hh_head h) l /\ length (hh_data h) = HEALTH_HISTORY_CAPACITY /\
  Forall (fun e => 0 < e.2) l /\
  (forall j, (length l <= j < HEALTH_HISTORY_CAPACITY)%nat -> (hh_data h !!! j).2 = 0).

(** The scores a history takes, as for metric histories. *)
Fixpoint spaced_scores (last : option Z) (xs : list (Z * Z)) : list (Z * Z) :=
  match xs with
  | [] => []
  | (v, t) :: xs' =>
      match last with
      | Some t0 => if u64 (t - t0) <? HEALTH_HISTORY_RESOLUTION_MS then spaced_scores last xs'
                   else (v, t) :: spaced_scores (Some t) xs'
      | None => (v, t) :: spaced_scores (Some t) xs'
      end
  end.

Definition push_scores (xs : list (Z * Z)) (h : health_history_t) : health_history_t :=
  fold_left (fun h x => health_history_push x.1 x.2 h) xs h.

Lemma store_score h l v t : health_holds h l -> 0 < t ->
  health_holds (mk_health (hh_name h) ((hh_head h + 1) mod length (hh_data h)) t
                  (<[hh_head h := (v, t)]> (hh_data h))) (l ++ [(v, t)]).
Proof.
  intros (Hr & Hl & Hf & Hz) Ht. split_and!; cbn [hh_data hh_head].
  - by apply ring_log_push.
  - by rewrite length_insert.
  - apply Forall_app. split; [done|]. by repeat constructor.
  - intros j. rewrite length_app. simpl. intros Hj.
    rewrite list_lookup_total_insert_ne; [apply Hz; lia|].
    rewrite (rl_head _ _ _ Hr), Hl, Nat.mod_small; lia.
Qed.

Lemma push_scores_holds xs : forall h l last, health_holds h l -> Forall (fun x => 0 < x.2) xs ->
  last_update_ms h = default 0 last -> (last = None \/ 0 < last_update_ms h) ->
  health_holds (push_scores xs h) (l ++ spaced_scores last xs).
Proof.
  induction xs as [|[v t] xs IH]; intros h l last Hh Hx Hlast Hpos; [by rewrite app_nil_r|].
  apply Forall_cons in Hx as [Ht Hx]. cbn [snd] in Ht. cbn [push_scores fold_left fst snd spaced_scores].
  unfold health_history_push at 2. destruct last as [t0|].
  - destruct Hpos as [?|Hpos]; [done|]. simpl in Hlast. rewrite (proj2 (Z.eqb_neq _ 0)) by lia.
    cbn [negb andb]. rewrite Hlast. destruct (_ <? _); [by apply IH; [..|right]|].
    rewrite (cons_middle (v, t) l), app_assoc. apply IH; [by apply store_score|done|done|by right].
  - simpl in Hlast. rewrite Hlast. cbn [Z.eqb negb andb].
    rewrite (cons_middle (v, t) l), app_assoc. apply IH; [by apply store_score|done|done|by right].
Qed.

Lemma latest_from_all h l n k i : health_holds h l -> (n <= length l)%nat -> (n <= HEALTH_HISTORY_CAPACITY)%nat ->
  (i + k = n)%nat -> latest_from h n i k = fst <$> drop i (last_n n l).
Proof.
  intros (Hr & Hl & Hf & _) Hn Hc. revert i. induction k as [|k IH]; intros i Hi.
  - simpl. rewrite drop_ge; [done|]. rewrite length_last_n. lia.
  - cbn [latest_from]. rewrite (ring_read_at _ _ l) by (done || lia).
    destruct (lookup_lt_is_Some_2 l (length l - n + i) ltac:(lia)) as [[v t] Hx].
    rewrite (list_lookup_total_correct _ _ _ Hx). cbn [fst snd].
    assert (0 < t) by exact (Forall_lookup_1 _ _ _ _ Hf Hx).
    destruct (Z.eqb_spec t 0); [lia|]. rewrite IH by lia.
    rewrite (drop_S (last_n n l) (v, t) i); [done|]. rewrite lookup_last_n by lia. done.
Qed.

Lemma latest_from_short h l n : health_holds h l -> (length l < n)%nat -> (n <= HEALTH_HISTORY_CAPACITY)%nat ->
  latest_from h n 0 n = [].
Proof.
  intros (Hr & Hl & _ & Hz) Hn Hc. destruct n as [|n]; [done|]. cbn [latest_from].
  rewrite (rl_head _ _ _ Hr), Hl, (Nat.mod_small (length l)) by lia.
  rewrite Nat.mod_small by lia. rewrite Hz by lia. done.
Qed.

(** The monitor's health history keeps, of any sequence of scores with positive
    times, those at least a second apart; a reader that asks for [n] scores (3600 for
    0 or more) gets the last [n] in order, but none at all while fewer than [n] have
    been taken. *)
Theorem health_latest_exact nm xs n : Forall (fun x => 0 < x.2) xs ->
  let taken := spaced_scores None xs in
  let n' := if Nat.eqb n 0 || Nat.ltb HEALTH_HISTORY_CAPACITY n then HEALTH_HISTORY_CAPACITY else n in
  health_history_get_latest n (push_scores xs (health_history_init nm true).2) =
  if decide (n' <= length taken)%nat then fst <$> last_n n' taken else [].
Proof.
  intros Hx taken n'. set (h0 := (health_history_init nm true).2).
  assert (H0 : health_holds h0 []).
  { split_and!; [|apply length_replicate|done|].
    - apply ring_log_nil. cbn [hh_data h0 health_history_init snd]. rewrite length_replicate.
      unfold HEALTH_HISTORY_CAPACITY. lia.
    - intros j Hj. cbn [hh_data h0 health_history_init snd]. by rewrite lookup_total_replicate_2 by lia. }
  pose proof (push_scores_holds xs h0 [] None H0 Hx eq_refl (or_introl eq_refl)) as Hh.
  fold taken in Hh. rewrite app_nil_l in Hh. set (h := push_scores xs h0) in *.
  unfold health_history_get_latest. destruct Hh as (Hr & Hl & Hf & Hz). rewrite Hl. fold n'.
  assert (Hn : (0 < n' <= HEALTH_HISTORY_CAPACITY)%nat).
  { unfold n'. destruct (Nat.eqb_spec n 0), (Nat.ltb_spec HEALTH_HISTORY_CAPACITY n); simpl;
      unfold HEALTH_HISTORY_CAPACITY in *; lia. }
  case_decide as Hd.
  - rewrite (latest_from_all h taken) by (done || lia). by rewrite drop_0.
  - apply (latest_from_short h taken); [done|lia|lia].
Qed.

(** A sparkline over a time longer than the machine has been up shows 100 everywhere,
    whatever the scores: the start of the window is computed without a sign. *)
Lemma early_sparkline_healthy count duration now h : 0 <= now < duration * 1000 -> duration * 1000 < 2 ^ 63 ->
  Forall (fun e => 0 <= e.2 <= now) (hh_data h) ->
  health_history_get_sparkline count duration now h = replicate (Z.to_nat count) 100.
Proof.
  intros Hn Hd Hf. unfold health_history_get_sparkline.
  assert (Hcut : u64 (now - u64 (duration * 1000)) = now - duration * 1000 + 2 ^ 64).
  { rewrite (wrap_small 64 (duration * 1000)) by lia. unfold wrap.
    rewrite <- (Z.mod_add _ 1) by lia. apply Z.mod_small. lia. }
  rewrite Hcut. set (cutoff := now - duration * 1000 + 2 ^ 64).
  assert (Hno : forall target, nearest cutoff target (hh_data h) = (2 ^ 64 - 1, 100)).
  { intros target. unfold nearest. induction Hf as [|e data He Hf IH]; [done|]. cbn [fold_left].
    destruct (Z.eqb_spec e.2 0); [done|]. destruct (Z.ltb_spec e.2 cutoff); [done|]. unfold cutoff in *. lia. }
  apply list_eq. intros i. destruct (decide (i < Z.to_nat count)%nat).
  - rewrite list_lookup_fmap, lookup_seq_lt, lookup_replicate_2 by done. simpl. by rewrite Hno.
  - rewrite !lookup_ge_None_2; [done|rewrite length_replicate; lia|rewrite length_fmap, length_seq; lia].
Qed.

(** ** On concrete inputs *)

Definition two_samples : list (double * Z) := [(d1, 1000); (d0, 1500); (d0, 2000)].

Lemma history_last_samples_witness :
  exists h0, metrics_history_create (Some "cpu") 1000 300000 true = Some h0 /\
    metrics_history_get_last 5 (push_all two_samples h0) = [(to_float d1, 1000); (to_float d0, 2000)].
Proof.
  eexists. split; [reflexivity|].
  destruct (history_last_samples (Some "cpu") 1000 300000 two_samples 5 _ eq_refl ltac:(lia) ltac:(lia)) as [H _].
  etrans; [exact H|]. reflexivity.
Defined.

(** Three scores were taken: a reader of three gets them, a reader of four gets nothing. *)
Lemma health_latest_exact_witness :
  let h := push_scores [(90, 1000); (80, 2000); (85, 2500); (70, 3000)] (health_history_init "system" true).2 in
  health_history_get_latest 3 h = [90; 80; 70] /\ health_history_get_latest 4 h = [].
Proof.
  intros h. assert (Hx : Forall (fun x => 0 < x.2) [(90, 1000); (80, 2000); (85, 2500); (70, 3000)])
    by (repeat constructor).
  split.
  - etrans; [exact (health_latest_exact "system" _ 3 Hx)|]. reflexivity.
  - etrans; [exact (health_latest_exact "system" _ 4 Hx)|]. reflexivity.
Defined.
