(* ===== verification/Alerts.v ===== *)
(** * Alerts of the monitor

    monitoring/alerts/alert_engine.c (the table of alerts with its deduplication),
    monitoring/alerts/alert_rules.c (the rules), monitoring/health/health_score.c (the
    scores they use).  The table's lock makes each call one step.  The metrics are the
    fields of the snapshot that scores and rules read; a C [float] is a [double] with a
    [float]'s value. *)

From stdpp Require Import pretty sorting.
From S2P Require Import Prelude Float64.

(** ** Metrics *)

(** [dev/monitoring/protocol/monitor_ipc_protocol.h:260-313 service_metrics_t] *)
Record service_metrics_t := mk_svc {
  s_name : string; fd_count : Z; restart_count : Z; seccomp_violations : Z;
  hmac_failures : Z; replay_attacks : Z; frames_captured : Z; frames_dropped : Z;
  s_health_score : Z
}.
Definition no_service : service_metrics_t := mk_svc "" 0 0 0 0 0 0 0 0.

(** [dev/monitoring/protocol/monitor_ipc_protocol.h:114-143 sysinfo_metrics_t] *)
Record sysinfo_metrics_t := mk_sysinfo {
  cpu_total_pct : double; ram_total_bytes : Z; ram_used_bytes : Z;
  swap_total_bytes : Z; swap_used_bytes : Z
}.

(** [dev/monitoring/protocol/monitor_ipc_protocol.h:316-330 pool_metrics_t] *)
Record pool_metrics_t := mk_poolm { p_name : string; fail_count : Z }.

(** [dev/monitoring/protocol/monitor_ipc_protocol.h:333-360 uring_metrics_t] *)
Record uring_metrics_t := mk_uring { u_name : string; cq_fill_pct : double }.

(** [dev/monitoring/protocol/monitor_ipc_protocol.h:363-377 ringbuf_metrics_t] *)
Record ringbuf_metrics_t := mk_ringm { rb_name : string; drop_count : Z }.

(** [dev/monitoring/protocol/monitor_ipc_protocol.h:216-257 hal_metrics_t] *)
Record hal_metrics_t := mk_halm { device_name : string; error_count : Z }.

(** [dev/monitoring/protocol/monitor_ipc_protocol.h:426-440 ipc_metrics_t] *)
Record ipc_metrics_t := mk_ipcm { c_name : string; send_q_depth : Z; send_q_max : Z }.

(** [dev/monitoring/protocol/monitor_ipc_protocol.h:516-577 mon_snapshot_t] *)
Record mon_snapshot_t := mk_snap {
  services : list service_metrics_t; pools : list pool_metrics_t; urings : list uring_metrics_t;
  ring_buffers : list ringbuf_metrics_t; hal : list hal_metrics_t;
  ipc_channels : list ipc_metrics_t; sysinfo : sysinfo_metrics_t
}.

(** ** Scores *)

Definition INT_MAX : Z := 2 ^ 31 - 1.

(** [(int)d]; C leaves a value outside [int] undefined, [undef] is what the machine
    makes of it. *)
Definition d_int (undef : Z) (d : double) : Z :=
  match d with
  | S754_finite _ _ _ | S754_zero _ =>
      let z := d_trunc d in if (- 2 ^ 31 <=? z) && (z <=? INT_MAX) then z else undef
  | _ => undef
  end.

Section scores.
Variable undef : Z.

(** The penalty for lost frames: [(int)(drop_rate_pct * 0.5)]. *)
Definition drop_penalty (s : service_metrics_t) : Z :=
  let drop_rate_pct := dmul (ddiv (d_of_Z (frames_dropped s)) (d_of_Z (frames_captured s)))
                            (d_of_Z 100) in
  d_int undef (dmul drop_rate_pct (d_lit 5 1)).

(** [dev/monitoring/health/health_score.c:8-31 health_compute_service_score] the
    counters are [uint32_t], so each product wraps around, and so does the difference
    stored back into the [int]. *)
Definition health_compute_service_score (s : service_metrics_t) : Z :=
  let score := 100 in
  let score := i32 (score - u32 (restart_count s * 10)) in
  let score := i32 (score - u32 (seccomp_violations s * 50)) in
  let score := i32 (score - u32 (hmac_failures s * 30)) in
  let score := i32 (score - u32 (replay_attacks s * 20)) in
  let score := if 0 <? frames_captured s then i32 (score - drop_penalty s) else score in
  let score := if score <? 0 then 0 else score in
  if 100 <? score then 100 else score.

(** [dev/monitoring/health/health_score.c:33-45 health_compute_system_score] *)
Definition health_compute_system_score (services : list service_metrics_t) : Z :=
  match services with
  | [] => 100
  | _ =>
      let min_score := fold_left (fun m s => let score := health_compute_service_score s in
                                             if score <? m then score else m) services INT_MAX in
      if min_score =? INT_MAX then 100 else min_score
  end.
End scores.

(** [dev/monitoring/health/health_score.c:47-53 health_score_to_grade] *)
Definition health_score_to_grade (score : Z) : string :=
  if 90 <=? score then "EXCELLENT" else if 70 <=? score then "GOOD"
  else if 50 <=? score then "DEGRADED" else "CRITICAL".

(** [dev/monitoring/health/health_score.c:55-61 health_score_to_color] *)
Definition health_score_to_color (score : Z) : Z :=
  if 90 <=? score then 3 else if 70 <=? score then 3 else if 50 <=? score then 2 else 1.

(** ** The table of alerts *)

(** [dev/monitoring/protocol/monitor_ipc_protocol.h:464-468 alert_severity_t] *)
Inductive alert_severity_t := ALERT_SEV_INFO | ALERT_SEV_WARN | ALERT_SEV_CRIT.

(** [dev/monitoring/protocol/monitor_ipc_protocol.h:470-481 alert_record_t] *)
Record alert_record_t := mk_alert {
  first_ts_ms : Z; last_ts_ms : Z; severity : alert_severity_t; component : string;
  condition : string; current_value : string; threshold : string; suggestion : string;
  occurrences : Z; active : bool
}.

Definition ALERT_MAX_ACTIVE : nat := 1000.
#[global] Arguments ALERT_MAX_ACTIVE : simpl never.

(** [dev/monitoring/alerts/alert_engine.h:23-27 alert_state_t] the first [count] elements
    of the array; the others are never read. *)
Definition alert_state_t : Type := list alert_record_t.

(** [dev/monitoring/alerts/alert_engine.c:10-18 get_cooldown_ms] *)
Definition get_cooldown_ms (severity : alert_severity_t) : Z :=
  match severity with
  | ALERT_SEV_CRIT => 30000
  | ALERT_SEV_WARN => 60000
  | ALERT_SEV_INFO => 300000
  end.

(** [dev/monitoring/alerts/alert_engine.c:20-25 alert_state_init] *)
Definition alert_state_init : alert_state_t := [].

(** The arguments of one [alert_fire]. *)
Record firing := mk_firing {
  f_sev : alert_severity_t; f_comp : string; f_cond : string; f_cur : string; f_thr : string;
  f_sug : string; f_ts : Z
}.

(** [dev/monitoring/alerts/alert_engine.c:45-47 alert_fire, condition of the first loop] *)
Definition same_alert (f : firing) (a : alert_record_t) : bool :=
  String.eqb (component a) (f_comp f) && String.eqb (condition a) (f_cond f) &&
  (u64 (f_ts f - last_ts_ms a) <? get_cooldown_ms (f_sev f)).

(** [dev/monitoring/alerts/alert_engine.c:50-53 alert_fire, a known alert] *)
Definition again (f : firing) (a : alert_record_t) : alert_record_t :=
  mk_alert (first_ts_ms a) (f_ts f) (severity a) (component a) (condition a) (current_value a)
    (threshold a) (suggestion a) (u32 (occurrences a + 1)) true.

(** [dev/monitoring/alerts/alert_engine.c:76-86 alert_fire, a new alert] *)
Definition new_alert (f : firing) : alert_record_t :=
  mk_alert (f_ts f) (f_ts f) (f_sev f) (strncpy_z 31 (f_comp f)) (strncpy_z 63 (f_cond f))
    (strncpy_z 31 (f_cur f)) (strncpy_z 31 (f_thr f)) (strncpy_z 127 (f_sug f)) 1 true.

(** [dev/monitoring/alerts/alert_engine.c:60-68 alert_fire, search for the oldest] from
    index [i] on, with the best so far. *)
Fixpoint oldest_from (i oldest_idx : nat) (oldest_ts : Z) (l : list alert_record_t) : nat :=
  match l with
  | [] => oldest_idx
  | a :: l' => if last_ts_ms a <? oldest_ts then oldest_from (S i) i (last_ts_ms a) l'
               else oldest_from (S i) oldest_idx oldest_ts l'
  end.

(** [dev/monitoring/alerts/alert_engine.c:59-74 alert_fire, eviction] *)
Definition evict_oldest (st : alert_state_t) : alert_state_t :=
  if Nat.leb ALERT_MAX_ACTIVE (length st) then
    match st with
    | [] => st
    | a :: l => delete (oldest_from 1 0 (last_ts_ms a) l) st
    end
  else st.

(** [dev/monitoring/alerts/alert_engine.c:32-92 alert_fire] the result is the index. *)
Definition alert_fire (f : firing) (st : alert_state_t) : nat * alert_state_t :=
  match list_find (same_alert f) st with
  | Some (i, a) => (i, <[i := again f a]> st)
  | None => let st := evict_oldest st in (length st, st ++ [new_alert f])
  end.

(** [dev/monitoring/alerts/alert_engine.c:94-111 alert_get_active] *)
Definition alert_get_active (max : nat) (timestamp : Z) (st : alert_state_t) : list alert_record_t :=
  take max (List.filter (fun a => u64 (timestamp - last_ts_ms a) <? get_cooldown_ms (severity a)) st).

(** [dev/monitoring/alerts/alert_engine.c:113-118 alert_clear_all] *)
Definition alert_clear_all (st : alert_state_t) : alert_state_t := [].

(** ** The rules *)

(** A non-negative number in decimal: [%u] and [%lu]. *)
Definition fmt_u (n : Z) : string := pretty (Z.to_N n).

(** [%d]. *)
Definition fmt_d (n : Z) : string := pretty n.

(** [%.1f]: to the nearest tenth, ties to even. *)
Definition fmt_1f (d : double) : string :=
  match d with
  | S754_finite s m e =>
      let n := if 0 <=? e then Zpos m * 10 * 2 ^ e
               else let q := 2 ^ (- e) in let x := Zpos m * 10 in
                    let r := x mod q in
                    x / q + (if (q <? 2 * r) || ((2 * r =? q) && Z.odd (x / q)) then 1 else 0) in
      (if s then "-" else "") +:+ fmt_u (n / 10) +:+ "." +:+ fmt_u (n mod 10)
  | S754_zero s => (if s then "-" else "") +:+ "0.0"
  | S754_infinity s => if s then "-inf" else "inf"
  | S754_nan => "nan"
  end.

(** [snprintf (buf, 32, "%.1f%%", d)]. *)
Definition fmt_pct (d : double) : string := strncpy_z 31 (fmt_1f d +:+ "%").

(** [(double)a / (double)b * 100.0]. *)
Definition percent (a b : Z) : double := dmul (ddiv (d_of_Z a) (d_of_Z b)) (d_of_Z 100).

Definition exceeds (d : double) (limit : Z) : bool := dlt (d_of_Z limit) d.

(** A name in use: [name[0]]. *)
Definition named (nm : string) : bool := negb (String.eqb nm "").

(** One alert for each element of an array that a rule applies to. *)
Definition each {A} (applies : A -> bool) (alert : A -> firing) (l : list A) : list firing :=
  alert <$> List.filter applies l.

Definition when (b : bool) (f : firing) : list firing := if b then [f] else [].

Section rules.
Variables (undef : Z) (snapshot : mon_snapshot_t) (timestamp : Z).

Let crit comp cond cur thr sug := mk_firing ALERT_SEV_CRIT comp cond cur thr sug timestamp.
Let warn comp cond cur thr sug := mk_firing ALERT_SEV_WARN comp cond cur thr sug timestamp.

(** [dev/monitoring/alerts/alert_rules.c:20-31 alert_rules_evaluate, rule 1] *)
Definition rule_restart : list firing :=
  each (fun s => 0 <? restart_count s)
       (fun s => crit (s_name s) "Service restart" (fmt_u (restart_count s)) "0"
                      "Investigate service crash cause") (services snapshot).

(** [dev/monitoring/alerts/alert_rules.c:33-44 alert_rules_evaluate, rule 2] *)
Definition rule_seccomp : list firing :=
  each (fun s => 0 <? seccomp_violations s)
       (fun s => crit (s_name s) "Seccomp violation" (fmt_u (seccomp_violations s)) "0"
                      "Check seccomp filter configuration") (services snapshot).

(** [dev/monitoring/alerts/alert_rules.c:46-57 alert_rules_evaluate, rule 3] *)
Definition rule_hmac : list firing :=
  each (fun s => 0 <? hmac_failures s)
       (fun s => crit (s_name s) "HMAC failure" (fmt_u (hmac_failures s)) "0"
                      "Check message authentication") (services snapshot).

(** [dev/monitoring/alerts/alert_rules.c:59-70 alert_rules_evaluate, rule 4] *)
Definition rule_pools : list firing :=
  each (fun p => named (p_name p) && (0 <? fail_count p))
       (fun p => crit (p_name p) "Memory pool exhaustion" (fmt_u (fail_count p)) "0"
                      "Increase pool size or reduce allocations") (pools snapshot).

(** [dev/monitoring/alerts/alert_rules.c:72-83 alert_rules_evaluate, rule 5] *)
Definition rule_urings : list firing :=
  each (fun u => named (u_name u) && exceeds (cq_fill_pct u) 95)
       (fun u => crit (u_name u) "io_uring CQ near full" (fmt_pct (cq_fill_pct u)) "95%"
                      "Increase CQ depth or process completions faster") (urings snapshot).

(** [dev/monitoring/alerts/alert_rules.c:85-96 alert_rules_evaluate, rule 6] *)
Definition rule_ringbufs : list firing :=
  each (fun rb => named (rb_name rb) && (0 <? drop_count rb))
       (fun rb => crit (rb_name rb) "Ring buffer overflow" (fmt_u (drop_count rb)) "0"
                       "Increase buffer size or reduce write rate") (ring_buffers snapshot).

Definition sys_health : Z := health_compute_system_score undef (services snapshot).

(** [dev/monitoring/alerts/alert_rules.c:98-107 alert_rules_evaluate, rule 7] *)
Definition rule_health_critical : list firing :=
  when (sys_health <? 50)
    (crit "system" "Health critical" (fmt_d sys_health) "50" "Check service health and system resources").

(** [dev/monitoring/alerts/alert_rules.c:111-119 alert_rules_evaluate, rule 8] *)
Definition rule_health_degraded : list firing :=
  when ((50 <=? sys_health) && (sys_health <? 70))
    (warn "system" "Health degraded" (fmt_d sys_health) "70" "Review service performance").

(** [dev/monitoring/alerts/alert_rules.c:121-129 alert_rules_evaluate, rule 9] *)
Definition rule_cpu : list firing :=
  let cpu := cpu_total_pct (sysinfo snapshot) in
  when (exceeds cpu 80)
    (warn "system" "High CPU" (fmt_pct cpu) "80%" "Identify CPU-intensive processes").

(** [dev/monitoring/alerts/alert_rules.c:131-141 alert_rules_evaluate, rule 10] *)
Definition rule_ram : list firing :=
  let ram_pct := percent (ram_used_bytes (sysinfo snapshot)) (ram_total_bytes (sysinfo snapshot)) in
  when (exceeds ram_pct 85)
    (warn "system" "High RAM" (fmt_pct ram_pct) "85%" "Check for memory leaks").

(** [dev/monitoring/alerts/alert_rules.c:143-154 alert_rules_evaluate, rule 11] *)
Definition rule_fds : list firing :=
  each (fun s => 900 <? fd_count s)
       (fun s => warn (s_name s) "FD usage high" (fmt_u (fd_count s)) "900"
                      "Check for file descriptor leaks") (services snapshot).

(** [dev/monitoring/alerts/alert_rules.c:156-167 alert_rules_evaluate, rule 12] *)
Definition rule_service_health : list firing :=
  each (fun s => named (s_name s) && (s_health_score s <? 70))
       (fun s => warn (s_name s) "Service health degraded" (fmt_u (s_health_score s)) "70"
                      "Check service performance metrics") (services snapshot).

(** [dev/monitoring/alerts/alert_rules.c:169-183 alert_rules_evaluate, rule 13] *)
Definition rule_drops : list firing :=
  each (fun s => (100 <? frames_captured s) && (0 <? frames_dropped s) &&
                 exceeds (percent (frames_dropped s) (frames_captured s)) 1)
       (fun s => warn (s_name s) "High drop rate" (fmt_pct (percent (frames_dropped s) (frames_captured s)))
                      "1%" "Investigate processing bottlenecks") (services snapshot).

(** [dev/monitoring/alerts/alert_rules.c:185-196 alert_rules_evaluate, rule 14] *)
Definition rule_hal : list firing :=
  each (fun hd => named (device_name hd) && (50 <? error_count hd))
       (fun hd => warn (device_name hd) "High HAL errors" (fmt_u (error_count hd)) "50"
                       "Check device health") (hal snapshot).

(** [dev/monitoring/alerts/alert_rules.c:198-213 alert_rules_evaluate, rule 15] the
    successor is computed in [uint32_t]. *)
Definition rule_ipc : list firing :=
  let depth_pct ic := percent (send_q_depth ic) (u32 (send_q_max ic + 1)) in
  each (fun ic => named (c_name ic) && (0 <? send_q_depth ic) && exceeds (depth_pct ic) 80)
       (fun ic => warn (c_name ic) "IPC queue high" (fmt_pct (depth_pct ic)) "80%"
                       "Process messages faster or increase queue size") (ipc_channels snapshot).

(** [dev/monitoring/alerts/alert_rules.c:215-227 alert_rules_evaluate, rule 21] *)
Definition rule_swap : list firing :=
  let i := sysinfo snapshot in
  let swap_pct := percent (swap_used_bytes i) (swap_total_bytes i) in
  when ((0 <? swap_total_bytes i) && exceeds swap_pct 50)
    (warn "system" "High swap" (fmt_pct swap_pct) "50%" "Add more RAM or reduce memory usage").

(** [dev/monitoring/alerts/alert_rules.c:231-239 alert_rules_evaluate, rule 24] *)
Definition rule_health_info : list firing :=
  when ((70 <=? sys_health) && (sys_health <? 90))
    (mk_firing ALERT_SEV_INFO "system" "Health info" (fmt_d sys_health) "90"
       "System operating normally" timestamp).

(** The alerts that a snapshot calls for, in the order of the code. *)
Definition due_alerts : list firing :=
  rule_restart ++ rule_seccomp ++ rule_hmac ++ rule_pools ++ rule_urings ++ rule_ringbufs ++
  rule_health_critical ++ rule_health_degraded ++ rule_cpu ++ rule_ram ++ rule_fds ++
  rule_service_health ++ rule_drops ++ rule_hal ++ rule_ipc ++ rule_swap ++ rule_health_info.
End rules.

(** [dev/monitoring/alerts/alert_rules.c:12-242 alert_rules_evaluate] *)
Definition alert_rules_evaluate (undef : Z) (snapshot : mon_snapshot_t) (alert_st : alert_state_t)
    (timestamp : Z) : Z * alert_state_t :=
  fold_left (fun '(alerts_fired, st) f => (u32 (alerts_fired + 1), (alert_fire f st).2))
            (due_alerts undef snapshot timestamp) (0, alert_st).

(** ** The table holds bursts of firings *)

Definition fire_all (xs : list firing) (st : alert_state_t) : alert_state_t :=
  fold_left (fun st f => (alert_fire f st).2) xs st.

Definition f_key (f : firing) : string * string := (f_comp f, f_cond f).

(** What a caller of the table keeps to: the names fit the record, and the severity
    belongs to the condition. *)
Definition fits (sev_of : string -> alert_severity_t) (f : firing) : Prop :=
  (String.length (f_comp f) <= 31)%nat /\ (String.length (f_cond f) <= 63)%nat /\
  f_sev f = sev_of (f_cond f) /\ 0 <= f_ts f < 2 ^ 64.

(** A firing that the next one of a burst may follow. *)
Definition close (f g : firing) : Prop :=
  f_key f = f_key g /\ f_ts g - f_ts f < get_cooldown_ms (f_sev g).

(** Firings of one component and condition, each within the cooldown of the previous. *)
Definition burst (r : list firing) : Prop :=
  r <> [] /\ forall i f g, r !! i = Some f -> r !! S i = Some g -> close f g.

(** The record of a burst: texts and severity of its first firing, the time of its last. *)
Definition record_of (r : list firing) : option alert_record_t :=
  match head r, last r with
  | Some f, Some g =>
      let a := new_alert f in
      Some (mk_alert (f_ts f) (f_ts g) (f_sev f) (component a) (condition a) (current_value a)
              (threshold a) (suggestion a) (u32 (Z.of_nat (length r))) true)
  | _, _ => None
  end.

(** The second burst began after the cooldown of the first. *)
Definition apart (r r' : list firing) : Prop :=
  forall f g, last r = Some f -> head r' = Some g -> f_key f = f_key g ->
  f_ts f + get_cooldown_ms (f_sev f) <= f_ts g.

Record bursts_inv (sev_of : string -> alert_severity_t) (xs : list firing) (st : alert_state_t)
    (runs gone : list (list firing)) : Prop := {
  bi_records : Forall2 (fun r a => record_of r = Some a) runs st;
  bi_all : concat (runs ++ gone) ≡ₚ xs;
  bi_bursts : Forall burst (runs ++ gone);
  bi_apart : StronglySorted apart runs;
  bi_cap : (length st <= ALERT_MAX_ACTIVE)%nat /\ (gone = [] \/ length st = ALERT_MAX_ACTIVE);
  bi_fits : Forall (fits sev_of) xs
}.

Lemma burst_key r f g : burst r -> head r = Some f -> g ∈ r -> f_key f = f_key g.
Proof.
  intros [_ Hb] Hh Hg. apply list_elem_of_lookup in Hg as [i Hi]. revert g Hi.
  induction i as [|i IH]; intros g Hi.
  - destruct r; simpl in *; congruence.
  - destruct (lookup_lt_is_Some_2 r i) as [g' Hg']; [apply lookup_lt_Some in Hi; lia|].
    rewrite (IH g' Hg'). by apply (Hb i).
Qed.

Lemma burst_snoc r f g : burst r -> last r = Some f -> close f g -> burst (r ++ [g]).
Proof.
  intros [Hn Hb] Hl Hc. split; [by destruct r|]. intros i x y Hx Hy.
  destruct (decide (S i < length r)%nat) as [Hi|Hi].
  - rewrite lookup_app_l in Hx, Hy by lia. by apply (Hb i).
  - assert (Hi' : S i = length r).
    { apply lookup_lt_Some in Hy. rewrite length_app in Hy. simpl in Hy. lia. }
    rewrite lookup_app_l in Hx by lia. rewrite Hi' in Hy. rewrite lookup_app_r, Nat.sub_diag in Hy by lia.
    rewrite last_lookup, <- Hi' in Hl. simpl in Hl. simpl in Hy. congruence.
Qed.

Lemma burst_single f : burst [f].
Proof. split; [done|]. by intros [|i] x y Hx Hy. Qed.

Lemma record_snoc r a f : record_of r = Some a -> record_of (r ++ [f]) = Some (again f a).
Proof.
  unfold record_of. destruct r as [|x r]; [done|]. cbn [head].
  destruct (last (x :: r)) as [y|] eqn:Hl; [|done]. intros [= <-]. cbn [head app].
  rewrite app_comm_cons, last_snoc. unfold again. cbn [occurrences first_ts_ms severity component condition
    current_value threshold suggestion]. do 2 f_equal. rewrite length_app. unfold wrap.
  rewrite Z.add_mod_idemp_l by done. f_equal. cbn [length]. lia.
Qed.

Lemma concat_insert {A} (l : list (list A)) i r x : l !! i = Some r ->
  concat (<[i := r ++ [x]]> l) ≡ₚ concat l ++ [x].
Proof.
  intros Hi. rewrite insert_take_drop by (by eapply lookup_lt_Some).
  rewrite <- (take_drop_middle l i r Hi) at 3. rewrite !concat_app. simpl.
  rewrite <- !app_assoc. f_equiv. f_equiv. simpl. by rewrite Permutation_app_comm.
Qed.

Lemma concat_delete {A} (l : list (list A)) i r : l !! i = Some r -> concat l ≡ₚ concat (delete i l) ++ r.
Proof.
  intros Hi. rewrite delete_take_drop. rewrite <- (take_drop_middle l i r Hi) at 1.
  rewrite !concat_app. simpl. rewrite <- app_assoc. f_equiv. by rewrite Permutation_app_comm.
Qed.

Lemma oldest_from_lt l : forall i k t, (k < i)%nat -> (oldest_from i k t l < i + length l)%nat.
Proof.
  induction l as [|a l IH]; intros i k t Hk; simpl; [lia|].
  destruct (_ <? _); [pose proof (IH (S i) i (last_ts_ms a) ltac:(lia))|pose proof (IH (S i) k t ltac:(lia))]; lia.
Qed.

Lemma sorted_replace {A} (R : A -> A -> Prop) l i x y : StronglySorted R l -> l !! i = Some x ->
  (forall z, R z x -> R z y) -> (forall z, z ∈ l -> R x z -> R y z) -> StronglySorted R (<[i := y]> l).
Proof.
  intros Hs Hi Hl Hr. rewrite insert_take_drop by (by eapply lookup_lt_Some).
  rewrite <- (take_drop_middle l i x Hi) in Hs. apply StronglySorted_app in Hs as (H1 & H2 & H3).
  apply StronglySorted_cons in H3 as [H3 H4]. apply StronglySorted_app_2; [..|done|].
  - intros a b Ha [->|Hb]%elem_of_cons; [apply Hl|]; apply H1; [done|by left|done|by right].
  - apply StronglySorted_cons. split; [|done]. rewrite Forall_forall in *. intros z Hz.
    apply Hr; [|by apply H3]. rewrite <- (take_drop_middle l i x Hi). set_solver.
Qed.

Lemma sorted_delete {A} (R : A -> A -> Prop) l i : StronglySorted R l -> StronglySorted R (delete i l).
Proof.
  intros Hs. destruct (decide (i < length l)%nat) as [Hi|Hi].
  - destruct (lookup_lt_is_Some_2 _ _ Hi) as [x Hx]. rewrite <- (take_drop_middle l i x Hx) in Hs.
    apply StronglySorted_app in Hs as (H1 & H2 & H3). apply StronglySorted_cons in H3 as [H3 H4].
    rewrite delete_take_drop. apply StronglySorted_app_2; [|done..]. set_solver.
  - by rewrite delete_take_drop, take_ge, drop_ge, app_nil_r by lia.
Qed.

Section step.
Variable sev_of : string -> alert_severity_t.

Lemma run_member xs st runs gone r g : bursts_inv sev_of xs st runs gone -> r ∈ runs -> g ∈ r -> g ∈ xs.
Proof.
  intros Hi Hr Hg. rewrite <- (bi_all _ _ _ _ _ Hi), concat_app, elem_of_app. left.
  apply list_elem_of_In, in_concat. exists r. by rewrite <- !list_elem_of_In.
Qed.

(** The test of the first loop, on the record of a burst. *)
Lemma same_alert_spec xs st runs gone r a f : bursts_inv sev_of xs st runs gone -> r ∈ runs ->
  record_of r = Some a -> fits sev_of f -> (forall g, g ∈ xs -> f_ts g <= f_ts f) ->
  exists g, last r = Some g /\ fits sev_of g /\
    (same_alert f a = true <-> f_key g = f_key f /\ f_ts f - f_ts g < get_cooldown_ms (f_sev f)).
Proof.
  intros Hi Hr Ha Hf Hle. unfold record_of in Ha. destruct (head r) as [h|] eqn:Hh; [|done].
  destruct (last r) as [g|] eqn:Hg; [|done]. exists g. injection Ha as <-.
  assert (Hgr : g ∈ r) by (by apply last_Some_elem_of).
  assert (Hb : burst r).
  { apply (proj1 (Forall_forall _ _) (bi_bursts _ _ _ _ _ Hi)). set_solver. }
  pose proof (burst_key r h g Hb Hh Hgr) as Hk.
  assert (Hgx : g ∈ xs) by (by eapply run_member). pose proof (Hle g Hgx).
  assert (Hhx : h ∈ xs).
  { eapply run_member; [done|done|]. destruct r; simplify_eq/=. set_solver. }
  pose proof (proj1 (Forall_forall _ _) (bi_fits _ _ _ _ _ Hi) g Hgx) as Hgf.
  destruct (proj1 (Forall_forall _ _) (bi_fits _ _ _ _ _ Hi) h Hhx) as (Hs1 & Hs2 & _).
  split_and!; [done|done|]. unfold same_alert. cbn [component condition last_ts_ms new_alert].
  rewrite !strncpy_z_short, !andb_true_iff, !String.eqb_eq, Z.ltb_lt by done.
  destruct Hf as (_ & _ & _ & Hr1), Hgf as (_ & _ & _ & Hr2). rewrite wrap_small by lia.
  unfold f_key in *. injection Hk as -> ->.
  split; [by intros [[-> ->] ?]|by intros [[= -> ->] ?]].
Qed.

Lemma fire_known xs st runs gone i a f : bursts_inv sev_of xs st runs gone -> fits sev_of f ->
  (forall g, g ∈ xs -> f_ts g <= f_ts f) -> st !! i = Some a -> same_alert f a = true ->
  exists r, runs !! i = Some r /\
    bursts_inv sev_of (xs ++ [f]) (<[i := again f a]> st) (<[i := r ++ [f]]> runs) gone.
Proof.
  intros Hi Hf Hle Ha Hs.
  destruct (Forall2_lookup_r _ _ _ _ _ (bi_records _ _ _ _ _ Hi) Ha) as (r & Hr & Hrec).
  assert (Hin : r ∈ runs) by (by eapply list_elem_of_lookup_2).
  destruct (same_alert_spec _ _ _ _ r a f Hi Hin Hrec Hf Hle) as (g & Hg & _ & Hsame).
  apply Hsame in Hs as [Hk Hgap]. exists r. split; [done|]. constructor.
  - apply Forall2_insert; [apply Hi|by apply record_snoc].
  - rewrite concat_app, (concat_insert _ _ _ f Hr), <- (bi_all _ _ _ _ _ Hi), concat_app.
    rewrite <- !app_assoc. f_equiv. by rewrite Permutation_app_comm.
  - pose proof (bi_bursts _ _ _ _ _ Hi) as Hb. rewrite Forall_app in Hb |- *.
    split; [|apply Hb]. apply Forall_insert; [apply Hb|]. eapply burst_snoc; [|done|done].
    by apply (proj1 (Forall_forall _ _) (proj1 Hb)).
  - apply (sorted_replace _ _ _ r); [apply Hi|done|..].
    + intros z Hz x y Hx Hy. apply Hz; [done|]. destruct r; simplify_eq/=; done.
    + intros z Hz Hap x y Hx Hy Hxy. exfalso. rewrite last_snoc in Hx. injection Hx as <-.
      assert (Hyx : y ∈ xs). { eapply run_member; [done|done|]. destruct z; simplify_eq/=. set_solver. }
      pose proof (Hap g y Hg Hy ltac:(congruence)) as Hsep. specialize (Hle y Hyx).
      assert (Hgx : g ∈ xs) by exact (run_member _ _ _ _ _ _ Hi Hin (last_Some_elem_of _ _ Hg)).
      destruct (proj1 (Forall_forall _ _) (bi_fits _ _ _ _ _ Hi) g Hgx) as (_ & _ & Hsg & _).
      destruct Hf as (_ & _ & Hsf & _). unfold f_key in Hk. injection Hk as _ Hc.
      rewrite Hsg, Hc in Hsep. rewrite Hsf in Hgap. lia.
  - unfold alert_state_t in *. rewrite length_insert. apply Hi.
  - apply Forall_app. split; [apply Hi|by apply Forall_singleton].
Qed.

Lemma evict_cases st : (length st <= ALERT_MAX_ACTIVE)%nat ->
  (evict_oldest st = st /\ (length st < ALERT_MAX_ACTIVE)%nat) \/
  exists k, evict_oldest st = delete k st /\ (k < length st)%nat /\ length st = ALERT_MAX_ACTIVE.
Proof.
  intros Hl. unfold evict_oldest. destruct (Nat.leb_spec ALERT_MAX_ACTIVE (length st)); [|by left].
  right. destruct st as [|a l]; [by inversion H|]. eexists. split; [done|].
  pose proof (oldest_from_lt l 1 0 (last_ts_ms a) ltac:(lia)). simpl in *. lia.
Qed.

Lemma fire_fresh xs st runs gone f : bursts_inv sev_of xs st runs gone -> fits sev_of f ->
  (forall g, g ∈ xs -> f_ts g <= f_ts f) -> Forall (fun a => same_alert f a = false) st ->
  exists runs' gone', bursts_inv sev_of (xs ++ [f]) (evict_oldest st ++ [new_alert f]) (runs' ++ [[f]]) gone'.
Proof.
  intros Hi Hf Hle Hno. pose proof (bi_records _ _ _ _ _ Hi) as Hrec.
  pose proof (Forall2_length _ _ _ Hrec) as Hlen. destruct (bi_cap _ _ _ _ _ Hi) as [Hc Hg].
  assert (Hap : forall r, r ∈ runs -> apart r [f]).
  { intros r Hr x y Hx [= <-] Hk. apply list_elem_of_lookup in Hr as [i Hr].
    destruct (Forall2_lookup_l _ _ _ _ _ Hrec Hr) as (a & Ha & Hra).
    destruct (same_alert_spec _ _ _ _ r a f Hi ltac:(by eapply list_elem_of_lookup_2) Hra Hf Hle) as (g & Hg' & Hfg & Hsame).
    rewrite Hx in Hg'. injection Hg' as <-. pose proof (Forall_lookup_1 _ _ _ _ Hno Ha) as Hn. simpl in Hn.
    destruct (Z_lt_le_dec (f_ts f - f_ts x) (get_cooldown_ms (f_sev f))) as [Hlt|Hge].
    - assert (same_alert f a = true) by (by apply Hsame). congruence.
    - destruct Hf as (_ & _ & Hsf & _), Hfg as (_ & _ & Hsg & _). unfold f_key in Hk. injection Hk as _ Hcd.
      rewrite Hsg, Hcd, <- Hsf. lia. }
  destruct (evict_cases st Hc) as [[-> Hlt]|(k & -> & Hk & Hfull)].
  - exists runs, gone. constructor.
    + apply Forall2_app; [done|]. by repeat constructor.
    + rewrite !concat_app, <- (bi_all _ _ _ _ _ Hi), concat_app. simpl. rewrite <- !app_assoc. f_equiv.
      by rewrite Permutation_app_comm.
    + pose proof (bi_bursts _ _ _ _ _ Hi) as Hb. rewrite !Forall_app in *. split_and!; try apply Hb.
      constructor; [apply burst_single|done].
    + apply StronglySorted_app_2; [|apply Hi|by repeat constructor].
      intros x1 x2 H1 ->%list_elem_of_singleton. by apply Hap.
    + rewrite length_app. simpl. split; [lia|]. destruct Hg; [by left|]. lia.
    + apply Forall_app. split; [apply Hi|by apply Forall_singleton].
  - destruct (lookup_lt_is_Some_2 runs k) as [rk Hrk]; [lia|].
    exists (delete k runs), (gone ++ [rk]). constructor.
    + apply Forall2_app; [by apply Forall2_delete|]. by repeat constructor.
    + rewrite !concat_app, <- (bi_all _ _ _ _ _ Hi), concat_app, (concat_delete runs k rk Hrk). simpl.
      rewrite !app_nil_r. solve_Permutation.
    + pose proof (bi_bursts _ _ _ _ _ Hi) as Hb. rewrite !Forall_app in *. split_and!; try apply Hb.
      * apply Forall_delete, Hb.
      * constructor; [apply burst_single|done].
      * constructor; [|done]. exact (Forall_lookup_1 _ _ _ _ (proj1 Hb) Hrk).
    + apply StronglySorted_app_2; [|apply sorted_delete, Hi|by repeat constructor].
      intros x1 x2 H1 ->%list_elem_of_singleton. apply Hap.
      rewrite delete_take_drop in H1. rewrite <- (take_drop_middle runs k rk Hrk). set_solver.
    + unfold alert_state_t in *. rewrite length_app, length_delete by (by apply lookup_lt_is_Some_2). simpl.
      split; [lia|right; lia].
    + apply Forall_app. split; [apply Hi|by apply Forall_singleton].
Qed.
End step.

Lemma fire_inv sev_of xs st runs gone f : bursts_inv sev_of xs st runs gone -> fits sev_of f ->
  (forall g, g ∈ xs -> f_ts g <= f_ts f) ->
  exists runs' gone', bursts_inv sev_of (xs ++ [f]) (alert_fire f st).2 runs' gone'.
Proof.
  intros Hi Hf Hle. unfold alert_fire. destruct (list_find (same_alert f) st) as [[i a]|] eqn:Hfind.
  - apply list_find_Some in Hfind as (Ha & Hs & _). apply Is_true_true in Hs.
    destruct (fire_known _ _ _ _ _ _ _ _ Hi Hf Hle Ha Hs) as (r & _ & Hinv). by eauto.
  - apply list_find_None in Hfind. cbn [snd].
    destruct (fire_fresh _ _ _ _ _ _ Hi Hf Hle) as (runs' & gone' & Hinv); [|by eauto].
    eapply Forall_impl; [exact Hfind|]. intros a Hn. simpl in Hn. by destruct (same_alert f a).
Qed.

Lemma fire_all_inv sev_of ys : forall xs st runs gone, bursts_inv sev_of xs st runs gone ->
  Forall (fits sev_of) ys -> StronglySorted (fun f g => f_ts f <= f_ts g) (xs ++ ys) ->
  exists runs' gone', bursts_inv sev_of (xs ++ ys) (fire_all ys st) runs' gone'.
Proof.
  induction ys as [|f ys IH]; intros xs st runs gone Hi Hf Hs; [rewrite app_nil_r; by eauto|].
  apply Forall_cons in Hf as [Hf1 Hf]. simpl.
  destruct (fire_inv _ _ _ _ _ f Hi Hf1) as (runs' & gone' & Hi').
  - intros g Hg. apply (StronglySorted_app_1_elem_of _ _ _ _ _ Hs Hg). by left.
  - rewrite (cons_middle f xs ys), app_assoc in Hs |- *. by apply (IH _ _ _ _ Hi').
Qed.

Lemma fire_all_bursts sev_of xs : Forall (fits sev_of) xs ->
  StronglySorted (fun f g => f_ts f <= f_ts g) xs ->
  exists runs gone,
    Forall2 (fun r a => record_of r = Some a) runs (fire_all xs alert_state_init) /\
    concat (runs ++ gone) ≡ₚ xs /\ Forall burst (runs ++ gone) /\ StronglySorted apart runs /\
    (length runs <= ALERT_MAX_ACTIVE)%nat /\ (gone = [] \/ length runs = ALERT_MAX_ACTIVE).
Proof.
  intros Hf Hs. destruct (fire_all_inv sev_of xs [] [] [] []) as (runs & gone & [H1 H2 H3 H4 H5 _]); [|done..|].
  - constructor; try by constructor. split; [unfold ALERT_MAX_ACTIVE; simpl; lia|by left].
  - rewrite app_nil_l in *. exists runs, gone. by rewrite (Forall2_length _ _ _ H1).
Qed.

(** A name that does not fit is never recognised again: each firing is a new alert. *)
Lemma long_name_new_alert f st : (31 < String.length (f_comp f))%nat ->
  Forall (fun a => String.length (component a) <= 31)%nat st ->
  alert_fire f st = (length (evict_oldest st), evict_oldest st ++ [new_alert f]).
Proof.
  intros Hl Hst. unfold alert_fire. rewrite (proj2 (list_find_None _ _)); [done|].
  eapply Forall_impl; [exact Hst|]. intros a Ha Hs. apply Is_true_true in Hs. unfold same_alert in Hs.
  apply andb_true_iff in Hs as [[Hc _]%andb_true_iff _]. apply String.eqb_eq in Hc. simpl in Ha. rewrite Hc in Ha. lia.
Qed.

(** ** The monitor's loop *)

(** The names of a snapshot fit the records. *)
Record names_fit (sn : mon_snapshot_t) : Prop := {
  nf_services : Forall (fun s => (String.length (s_name s) <= 31)%nat) (services sn);
  nf_pools : Forall (fun p => (String.length (p_name p) <= 31)%nat) (pools sn);
  nf_urings : Forall (fun u => (String.length (u_name u) <= 31)%nat) (urings sn);
  nf_ringbufs : Forall (fun r => (String.length (rb_name r) <= 31)%nat) (ring_buffers sn);
  nf_hal : Forall (fun d => (String.length (device_name d) <= 31)%nat) (hal sn);
  nf_ipc : Forall (fun c => (String.length (c_name c) <= 31)%nat) (ipc_channels sn)
}.

(** The alerts of the rounds of [monitord_main.c], each a snapshot and its time. *)
Definition all_due (undef : Z) (rounds : list (mon_snapshot_t * Z)) : list firing :=
  mbind (fun r => due_alerts undef r.1 r.2) rounds.

Definition evaluate_all (undef : Z) (rounds : list (mon_snapshot_t * Z)) : alert_state_t :=
  fold_left (fun st r => (alert_rules_evaluate undef r.1 st r.2).2) rounds alert_state_init.

Lemma evaluate_fires undef sn st t :
  alert_rules_evaluate undef sn st t =
  (u32 (Z.of_nat (length (due_alerts undef sn t))), fire_all (due_alerts undef sn t) st).
Proof.
  unfold alert_rules_evaluate, fire_all. change 0 with (u32 (Z.of_nat 0)) at 1.
  generalize (due_alerts undef sn t) as l. intros l.
  enough (forall n st, fold_left (fun '(c, st) f => (u32 (c + 1), (alert_fire f st).2)) l (u32 (Z.of_nat n), st) =
    (u32 (Z.of_nat (n + length l)), fold_left (fun st f => (alert_fire f st).2) l st)) by done.
  induction l as [|f l IH]; intros n s; simpl; [by rewrite Nat.add_0_r|].
  replace (u32 (u32 (Z.of_nat n) + 1)) with (u32 (Z.of_nat (S n))).
  - rewrite IH. do 2 f_equal. by rewrite Nat.add_succ_r.
  - unfold wrap. rewrite Z.add_mod_idemp_l by done. f_equal. lia.
Qed.

Lemma evaluate_all_fires undef rounds : evaluate_all undef rounds = fire_all (all_due undef rounds) [].
Proof.
  unfold evaluate_all, all_due, alert_state_init. generalize (@nil alert_record_t).
  induction rounds as [|r rounds IH]; intros st; [done|]. simpl. rewrite evaluate_fires. simpl.
  rewrite IH. unfold fire_all. by rewrite fold_left_app.
Qed.

(** The severity that the rules give to a condition. *)
Definition rule_severity (cond : string) : alert_severity_t :=
  if String.eqb cond "Health info" then ALERT_SEV_INFO
  else if existsb (String.eqb cond)
            ["Service restart"; "Seccomp violation"; "HMAC failure"; "Memory pool exhaustion";
             "io_uring CQ near full"; "Ring buffer overflow"; "Health critical"]
  then ALERT_SEV_CRIT else ALERT_SEV_WARN.

Lemma each_Forall {A} (P : firing -> Prop) (Q : A -> Prop) (applies : A -> bool) alert l :
  Forall Q l -> (forall x, Q x -> P (alert x)) -> Forall P (each applies alert l).
Proof.
  intros HQ HP. unfold each. apply Forall_fmap, Forall_forall. intros x Hx.
  apply list_elem_of_In, filter_In in Hx as [Hx _]. apply HP.
  apply (proj1 (Forall_forall _ _) HQ). by apply list_elem_of_In.
Qed.

Lemma when_Forall (P : firing -> Prop) b f : P f -> Forall P (when b f).
Proof. intros. destruct b; by constructor. Qed.

Lemma due_fits undef sn t : names_fit sn -> 0 <= t < 2 ^ 64 ->
  Forall (fun f => fits rule_severity f /\ f_ts f = t) (due_alerts undef sn t).
Proof.
  intros [] Ht. unfold due_alerts. repeat (apply Forall_app; split);
    first [eapply each_Forall; [eassumption|] | apply when_Forall];
    intros; (split; [|done]); (split_and!; [done || (simpl; lia)..| |]); done || (simpl; lia).
Qed.

Lemma all_due_fits undef rounds : Forall (fun r => names_fit r.1 /\ 0 <= r.2 < 2 ^ 64) rounds ->
  Forall (fits rule_severity) (all_due undef rounds).
Proof.
  intros Hr. apply Forall_bind. eapply Forall_impl; [exact Hr|]. intros r [H1 H2].
  eapply Forall_impl; [by apply due_fits|]. by intros f [? _].
Qed.

Lemma all_due_sorted undef rounds : Forall (fun r => names_fit r.1 /\ 0 <= r.2 < 2 ^ 64) rounds ->
  StronglySorted (fun r r' => r.2 <= r'.2) rounds ->
  StronglySorted (fun f g => f_ts f <= f_ts g) (all_due undef rounds).
Proof.
  induction rounds as [|r rounds IH]; intros Hf Hs; [by constructor|].
  apply Forall_cons in Hf as [[Hf1 Hf2] Hf]. apply StronglySorted_cons in Hs as [Hle Hs]. simpl.
  pose proof (due_fits undef r.1 r.2 Hf1 Hf2) as Hd. apply StronglySorted_app_2; [| |by apply IH].
  - intros f g Hfi Hgi. destruct (proj1 (Forall_forall _ _) Hd f Hfi) as [_ ->].
    apply list_elem_of_bind in Hgi as (r' & Hg & Hr').
    destruct (proj1 (Forall_forall _ _) Hf r' Hr') as [? ?].
    destruct (proj1 (Forall_forall _ _) (due_fits undef r'.1 r'.2 ltac:(done) ltac:(done)) g Hg) as [_ ->].
    by apply (proj1 (Forall_forall _ _) Hle).
  - clear -Hd. induction Hd as [|f l [_ Hf] Hd IH]; [by constructor|]. apply StronglySorted_cons.
    split; [|done]. eapply Forall_impl; [exact Hd|]. intros g [_ Hg]. simpl. lia.
Qed.

(** Whatever snapshots the monitor evaluates, in order of time and with names that
    fit, the table of alerts is a list of bursts: each burst has firings of one
    component and condition, each closer to the previous one than the cooldown of the
    condition; its record shows the times of the first and last firing, their number and the
    texts of the first; two bursts of one alert are apart by the cooldown; every
    firing is in exactly one burst, of the table or evicted, and nothing is evicted until
    a thousand alerts are held. *)
Theorem alerts_are_bursts undef rounds :
  Forall (fun r => names_fit r.1 /\ 0 <= r.2 < 2 ^ 64) rounds ->
  StronglySorted (fun r r' => r.2 <= r'.2) rounds ->
  exists runs gone,
    Forall2 (fun r a => record_of r = Some a) runs (evaluate_all undef rounds) /\
    concat (runs ++ gone) ≡ₚ all_due undef rounds /\
    Forall burst (runs ++ gone) /\ StronglySorted apart runs /\
    (length runs <= ALERT_MAX_ACTIVE)%nat /\ (gone = [] \/ length runs = ALERT_MAX_ACTIVE).
Proof.
  intros Hf Hs. rewrite evaluate_all_fires.
  apply (fire_all_bursts rule_severity); [by apply all_due_fits|by apply all_due_sorted].
Qed.

(** ** A snapshot that stays the same *)

(** The record of an alert fired [n] times from [t0] to [t]. *)
Definition held (t0 t : Z) (n : nat) (f : firing) : alert_record_t :=
  let a := new_alert f in
  mk_alert t0 t (f_sev f) (component a) (condition a) (current_value a) (threshold a) (suggestion a)
    (u32 (Z.of_nat n)) true.

Definition at_time (t : Z) (f : firing) : firing :=
  mk_firing (f_sev f) (f_comp f) (f_cond f) (f_cur f) (f_thr f) (f_sug f) t.

Lemma due_at undef sn t : due_alerts undef sn t = at_time t <$> due_alerts undef sn 0.
Proof.
  unfold due_alerts. rewrite !fmap_app. repeat (f_equal; [|]);
    first [unfold rule_restart, rule_seccomp, rule_hmac, rule_pools, rule_urings, rule_ringbufs, rule_fds,
             rule_service_health, rule_drops, rule_hal, rule_ipc, each; by rewrite <- list_fmap_compose
          |unfold rule_health_critical, rule_health_degraded, rule_cpu, rule_ram, rule_swap, rule_health_info, when;
           by case_match].
Qed.

Lemma same_held f t t0 t1 n g : fits rule_severity g -> 
  same_alert (at_time t f) (held t0 t1 n g) =
  bool_decide (f_key g = f_key f) && (u64 (t - t1) <? get_cooldown_ms (f_sev f)).
Proof.
  intros (H1 & H2 & _). unfold same_alert, held. cbn [component condition last_ts_ms new_alert at_time f_comp f_cond f_ts f_sev].
  rewrite !strncpy_z_short by done. f_equal. unfold f_key.
  destruct (String.eqb_spec (f_comp g) (f_comp f)), (String.eqb_spec (f_cond g) (f_cond f));
    simpl; symmetry; (rewrite bool_decide_true by congruence) || (rewrite bool_decide_false by congruence); done.
Qed.

Lemma cooldown_ge sev : 30000 <= get_cooldown_ms sev.
Proof. destruct sev; simpl; lia. Qed.

Lemma fire_held (D1 D2 : list firing) f t t0 t1 n : NoDup (f_key <$> D1 ++ f :: D2) ->
  Forall (fits rule_severity) (D1 ++ f :: D2) -> 0 <= t - t1 < 30000 ->
  (alert_fire (at_time t f) ((held t0 t (S n) <$> D1) ++ (held t0 t1 n <$> f :: D2))).2 =
  (held t0 t (S n) <$> D1 ++ [f]) ++ (held t0 t1 n <$> D2).
Proof.
  intros Hnd Hf Ht. rewrite fmap_app in Hnd. apply NoDup_app in Hnd as (_ & Hne & _).
  apply Forall_app in Hf as [Hf1 [Hff Hf2]%Forall_cons].
  assert (Hfind : list_find (same_alert (at_time t f)) ((held t0 t (S n) <$> D1) ++ (held t0 t1 n <$> f :: D2)) =
    Some (length D1, held t0 t1 n f)).
  { apply list_find_Some. split_and!.
    - rewrite fmap_cons. apply list_lookup_middle. by rewrite length_fmap.
    - apply Is_true_true. rewrite same_held, bool_decide_true by done. simpl.
      rewrite wrap_small by lia. apply Z.ltb_lt. pose proof (cooldown_ge (f_sev f)). lia.
    - intros j y Hy Hj. rewrite lookup_app_l in Hy by (by rewrite length_fmap).
      rewrite list_lookup_fmap in Hy. destruct (D1 !! j) as [g|] eqn:Hg; [|done]. injection Hy as <-.
      rewrite Is_true_true, same_held by exact (Forall_lookup_1 _ _ _ _ Hf1 Hg).
      rewrite bool_decide_false; [done|]. intros Hk. apply (Hne (f_key g)).
      + apply list_elem_of_fmap_2. by eapply list_elem_of_lookup_2.
      + rewrite Hk. by left. }
  unfold alert_fire. rewrite Hfind. cbn [snd]. unfold alert_state_t.
  rewrite insert_app_r_alt by (rewrite length_fmap; lia).
  rewrite length_fmap, Nat.sub_diag, fmap_cons. simpl. rewrite fmap_app, <- app_assoc. simpl. f_equal. f_equal.
  unfold again, held. cbn. f_equal. unfold wrap. rewrite Z.add_mod_idemp_l by done. f_equal. lia.
Qed.

Lemma fire_round (D D1 : list firing) t t0 t1 n : NoDup (f_key <$> D1 ++ D) ->
  Forall (fits rule_severity) (D1 ++ D) -> 0 <= t - t1 < 30000 ->
  fire_all (at_time t <$> D) ((held t0 t (S n) <$> D1) ++ (held t0 t1 n <$> D)) = held t0 t (S n) <$> D1 ++ D.
Proof.
  revert D1. induction D as [|f D IH]; intros D1 Hnd Hf Ht; [by rewrite !app_nil_r|].
  rewrite (fmap_cons (at_time t)). unfold fire_all. cbn [fold_left]. rewrite fire_held by done.
  rewrite (cons_middle f D1 D), (app_assoc D1 [f] D) in Hnd, Hf |- *. by apply IH.
Qed.

(** The first round: nothing is held yet. *)
Lemma fire_first (D D1 : list firing) t : NoDup (f_key <$> D1 ++ D) ->
  Forall (fits rule_severity) (D1 ++ D) -> (length (D1 ++ D) <= ALERT_MAX_ACTIVE)%nat ->
  fire_all (at_time t <$> D) (held t t 1 <$> D1) = held t t 1 <$> D1 ++ D.
Proof.
  revert D1. induction D as [|f D IH]; intros D1 Hnd Hf Hl; [by rewrite app_nil_r|].
  rewrite (fmap_cons (at_time t)). unfold fire_all. cbn [fold_left].
  assert (Hfind : list_find (same_alert (at_time t f)) (held t t 1 <$> D1) = None).
  { apply list_find_None, Forall_fmap, Forall_forall. intros g Hg. simpl.
    apply Forall_app in Hf as [Hf _]. rewrite Is_true_true, same_held by (by apply (proj1 (Forall_forall _ _) Hf)).
    rewrite bool_decide_false; [done|]. intros Hk. rewrite fmap_app in Hnd.
    apply NoDup_app in Hnd as (_ & Hne & _). apply (Hne (f_key g)); [by apply list_elem_of_fmap_2|].
    rewrite Hk. by left. }
  unfold alert_fire at 2. rewrite Hfind. cbn [snd].
  rewrite length_app in Hl. simpl in Hl. unfold evict_oldest.
  destruct (Nat.leb_spec ALERT_MAX_ACTIVE (length (held t t 1 <$> D1))) as [Hle|_]; [rewrite length_fmap in Hle; lia|].
  change ((held t t 1 <$> D1) ++ [new_alert (at_time t f)]) with ((held t t 1 <$> D1) ++ (held t t 1 <$> [f])).
  rewrite <- fmap_app. rewrite (cons_middle f D1 D), (app_assoc D1 [f] D) in Hnd, Hf |- *. apply IH; [done|done|].
  rewrite !length_app. simpl. lia.
Qed.

(** Times of rounds, each less than the shortest cooldown after the previous one. *)
Fixpoint steady (t : Z) (ts : list Z) : Prop :=
  match ts with [] => True | t' :: ts' => 0 <= t' - t < 30000 /\ steady t' ts' end.

(** As long as the same alerts are due and a round comes within thirty seconds of the
    previous one, the monitor holds each of them in one record, in the order of the
    rules, with the time of the first round, the time of the last and the number of
    rounds. *)
Theorem steady_alerts_counted undef sn t0 ts :
  names_fit sn -> NoDup (f_key <$> due_alerts undef sn 0) ->
  (length (due_alerts undef sn 0) <= ALERT_MAX_ACTIVE)%nat -> steady t0 ts ->
  evaluate_all undef ((fun t => (sn, t)) <$> t0 :: ts) =
  held t0 (List.last ts t0) (S (length ts)) <$> due_alerts undef sn 0.
Proof.
  intros Hfit Hnd Hlen Hst. set (D := due_alerts undef sn 0) in *.
  assert (Hf : Forall (fits rule_severity) D).
  { eapply Forall_impl; [apply due_fits; [done|lia]|]. by intros f [? _]. }
  assert (Hgo : forall ts t n, steady t ts ->
    fold_left (fun st r => (alert_rules_evaluate undef r.1 st r.2).2) ((fun t => (sn, t)) <$> ts) (held t0 t n <$> D) =
    held t0 (List.last ts t) (n + length ts) <$> D).
  { clear Hst ts. induction ts as [|t' ts IH]; intros t n Hst; [by rewrite Nat.add_0_r|].
    destruct Hst as [Ht Hst]. cbn [fold_left fmap list_fmap fst snd]. rewrite evaluate_fires, due_at. fold D. cbn [snd].
    change (held t0 t n <$> D) with ((held t0 t' (S n) <$> []) ++ (held t0 t n <$> D)).
    rewrite fire_round by done. rewrite app_nil_l. etrans; [by apply IH|].
    cbn [length]. rewrite Nat.add_succ_r. f_equal. destruct ts; [done|].
    f_equal. simpl. clear. revert z t t'. induction ts as [|y ts IH]; intros z t t'; [done|]. by apply IH. }
  unfold evaluate_all. cbn [fold_left fmap list_fmap fst snd]. rewrite evaluate_fires, due_at. fold D. cbn [snd].
  change alert_state_init with (held t0 t0 1 <$> []). rewrite fire_first by done. by apply (Hgo ts t0 1%nat).
Qed.

(** ** Scores *)

Lemma service_score_range undef s : 0 <= health_compute_service_score undef s <= 100.
Proof. unfold health_compute_service_score. cbv zeta. case_match; repeat case_match; lia. Qed.

(** The penalties that the counters of a service ask for. *)
Definition penalties (s : service_metrics_t) : Z :=
  restart_count s * 10 + seccomp_violations s * 50 + hmac_failures s * 30 + replay_attacks s * 20.

Definition counters_ok (s : service_metrics_t) : Prop :=
  0 <= restart_count s /\ 0 <= seccomp_violations s /\ 0 <= hmac_failures s /\ 0 <= replay_attacks s.

(** While the penalties stay below 2^31, a service's score is 100 less ten for each
    restart, fifty for each seccomp violation, thirty for each failed MAC, twenty for
    each replay and half a point for each percent of lost frames, but not below 0;
    the system's score is the least score of a service, 100 without services. *)
Theorem health_scores_exact undef ss :
  Forall (fun s => counters_ok s /\ 0 <= drop_penalty undef s /\
                   penalties s + drop_penalty undef s < 2 ^ 31) ss ->
  let score s := Z.max 0 (100 - penalties s - if 0 <? frames_captured s then drop_penalty undef s else 0) in
  Forall (fun s => health_compute_service_score undef s = score s) ss /\
  health_compute_system_score undef ss = fold_right (fun s m => Z.min (score s) m) 100 ss.
Proof.
  intros Hok score.
  assert (Hs : Forall (fun s => health_compute_service_score undef s = score s) ss).
  { eapply Forall_impl; [exact Hok|]. intros s ((H1 & H2 & H3 & H4) & Hd & Hp). unfold penalties in *.
    unfold health_compute_service_score, score, penalties. cbv zeta.
    rewrite !wrap_small by lia.
    rewrite (i32_small (100 - _)) by lia. rewrite (i32_small (_ - seccomp_violations s * 50)) by lia.
    rewrite (i32_small (_ - hmac_failures s * 30)) by lia. rewrite (i32_small (_ - replay_attacks s * 20)) by lia.
    destruct (0 <? frames_captured s); [rewrite i32_small by lia|]; repeat case_match; lia. }
  split; [done|].
  assert (Hfold : forall m, fold_left (fun m s => let sc := health_compute_service_score undef s in
      if sc <? m then sc else m) ss m = fold_right (fun s m => Z.min (score s) m) m ss).
  { clear Hok. induction Hs as [|s ss Heq Hs IH]; intros m; [done|]. cbn [fold_left fold_right].
    rewrite IH, Heq. cbv zeta. replace (if score s <? m then score s else m) with (Z.min (score s) m)
      by (destruct (Z.ltb_spec (score s) m); lia).
    clear. induction ss as [|s' ss IH]; [done|]. simpl. rewrite IH. lia. }
  unfold health_compute_system_score. destruct ss as [|s ss]; [done|]. cbv zeta. rewrite Hfold. simpl.
  assert (Hm : score s <= 100).
  { apply Forall_cons in Hs as [<- _]. apply service_score_range. }
  assert (Hlo : forall m, fold_right (fun s m => Z.min (score s) m) m ss = Z.min m (fold_right (fun s m => Z.min (score s) m) INT_MAX ss) \/ INT_MAX < m).
  { intros m. destruct (Z_lt_le_dec INT_MAX m); [by right|left]. clear -l. induction ss as [|s' ss IH]; simpl; lia. }
  destruct (Hlo 100) as [-> |?]; [|unfold INT_MAX in *; lia].
  destruct (Z.eqb_spec (Z.min (score s) (fold_right (fun s m => Z.min (score s) m) INT_MAX ss)) INT_MAX);
    unfold INT_MAX in *; lia.
Qed.

(** The penalty wraps around: about 43 million seccomp violations are perfect health. *)
Lemma overflow_perfect_health undef nm :
  health_compute_service_score undef (mk_svc nm 0 0 42949675 0 0 0 0 0) = 100.
Proof. reflexivity. Qed.

(** A service that loses every frame keeps half of its score. *)
Lemma all_frames_lost undef nm : health_compute_service_score undef (mk_svc nm 0 0 0 0 0 30 30 0) = 50.
Proof. vm_compute. reflexivity. Qed.

(** Exactly the health alert of the system's grade is due. *)
Lemma health_alert_of_grade undef sn t :
  rule_health_critical undef sn t ++ rule_health_degraded undef sn t ++ rule_health_info undef sn t =
  let h := sys_health undef sn in
  let mk sev cond thr sug := [mk_firing sev "system" cond (fmt_d h) thr sug t] in
  if String.eqb (health_score_to_grade h) "CRITICAL"
  then mk ALERT_SEV_CRIT "Health critical" "50" "Check service health and system resources"
  else if String.eqb (health_score_to_grade h) "DEGRADED"
  then mk ALERT_SEV_WARN "Health degraded" "70" "Review service performance"
  else if String.eqb (health_score_to_grade h) "GOOD"
  then mk ALERT_SEV_INFO "Health info" "90" "System operating normally" else [].
Proof.
  unfold rule_health_critical, rule_health_degraded, rule_health_info, health_score_to_grade, when. cbv zeta.
  generalize (sys_health undef sn) as h. intros h.
  destruct (Z.ltb_spec h 50), (Z.leb_spec 50 h), (Z.ltb_spec h 70), (Z.leb_spec 70 h), (Z.ltb_spec h 90),
    (Z.leb_spec 90 h); try lia; reflexivity.
Qed.

(** ** On concrete inputs *)

Definition worn_snapshot : mon_snapshot_t :=
  mk_snap [mk_svc "audio" 12 1 0 0 0 1000 100 100; mk_svc "camera" 901 0 0 0 0 0 0 100; no_service; no_service]
    [] [] [] [] [] (mk_sysinfo (d_of_Z 20) 1000 500 0 0).

Definition worn_keys : list (string * string) :=
  [("audio", "Service restart"); ("camera", "FD usage high"); ("audio", "High drop rate"); ("system", "Health info")].

Lemma worn_fits : names_fit worn_snapshot.
Proof. by constructor; repeat constructor; simpl; lia. Qed.

Lemma steady_alerts_counted_witness :
  (fun a => (condition a, first_ts_ms a, last_ts_ms a, occurrences a)) <$>
    evaluate_all 0 ((fun t => (worn_snapshot, t)) <$> [1000; 2000; 3000]) =
  [("Service restart", 1000, 3000, 3); ("FD usage high", 1000, 3000, 3);
   ("High drop rate", 1000, 3000, 3); ("Health info", 1000, 3000, 3)].
Proof.
  rewrite (steady_alerts_counted 0 worn_snapshot 1000 [2000; 3000]).
  - vm_compute. reflexivity.
  - exact worn_fits.
  - apply (bool_decide_unpack _). vm_compute. exact I.
  - apply (bool_decide_unpack _). vm_compute. exact I.
  - simpl. lia.
Defined.

Lemma alerts_are_bursts_witness : exists runs,
  concat runs ≡ₚ all_due 0 [(worn_snapshot, 1000); (worn_snapshot, 40000)] /\
  Forall2 (fun r a => record_of r = Some a) runs (evaluate_all 0 [(worn_snapshot, 1000); (worn_snapshot, 40000)]) /\
  length runs = 5%nat.
Proof.
  destruct (alerts_are_bursts 0 [(worn_snapshot, 1000); (worn_snapshot, 40000)]) as (runs & gone & H1 & H2 & _ & _ & _ & H3).
  - constructor; [|constructor; [|constructor]]; (split; [exact worn_fits|simpl; lia]).
  - constructor; [constructor; [constructor|constructor]|constructor; [simpl; lia|constructor]].
  - assert (Hl : length runs = 5%nat).
    { rewrite (Forall2_length _ _ _ H1). vm_compute. reflexivity. }
    destruct H3 as [->|H3]; [|rewrite Hl in H3; discriminate H3].
    rewrite app_nil_r in H2. by exists runs.
Defined.

Lemma health_scores_exact_witness :
  health_compute_system_score 0 [mk_svc "audio" 0 1 0 1 0 100 10 0; mk_svc "camera" 0 0 0 0 0 0 0 0] = 55.
Proof.
  destruct (health_scores_exact 0 [mk_svc "audio" 0 1 0 1 0 100 10 0; mk_svc "camera" 0 0 0 0 0 0 0 0]) as [_ H].
  - constructor; [|constructor; [|constructor]]; (split; [unfold counters_ok; simpl; lia|]);
      (split; [apply (bool_decide_unpack _); vm_compute; exact I|]); vm_compute; reflexivity.
  - etrans; [exact H|]. vm_compute. reflexivity.
Defined.
