(* ===== verification/Metrics.v ===== *)
(** * Request metrics of the daemon

    observability/sm_metrics.c.  Every atomic access of a request thread is one step of
    [thread_step]; [sm_metrics_request] runs one thread alone, [metrics_step]
    interleaves any number of them.  The accesses are atomic and each counter is coherent;
    what is guarded by the mutex is exclusive, so interleaving the accesses loses
    nothing of the relaxed memory order that the theorems could see. *)

From S2P Require Import Prelude RecentLog Protocol.

Definition QPS_HISTORY_SIZE : nat := 60.
#[global] Arguments QPS_HISTORY_SIZE : simpl never.

(** The counters of the hot path. *)
Record counters := mk_counters {
  total_requests : Z; by_type : list Z; total_errors : Z; total_auth_failures : Z;
  total_ratelimit_hits : Z; total_latency_us : Z
}.

(** The window of queries per second and its mutex. *)
Record window := mk_window {
  request_count_current_sec : Z; peak_qps : Z; rolling_avg_qps : Z; last_qps_reset : Z;
  qps_history : list Z; history_idx : nat; qps_locked : bool
}.

(** [dev/core/service_manager/observability/sm_metrics.c:40-61 g_metrics] *)
Record g_metrics := mk_metrics { cnt : counters; win : window }.

(** [dev/core/service_manager/observability/sm_metrics.c:65-82 sm_metrics_init] *)
Definition sm_metrics_init (now : Z) : g_metrics :=
  mk_metrics (mk_counters 0 (replicate 5 0) 0 0 0 0)
             (mk_window 0 0 0 now (replicate QPS_HISTORY_SIZE 0) 0 false).

(** ** One request *)

(** The arguments of [sm_metrics_request]. *)
Record call := mk_call { msg_type : Z; latency_us : Z; success : bool }.

(** [dev/core/service_manager/observability/sm_metrics.c:94-100 sm_metrics_request, classification] *)
Definition type_idx (c : call) : nat :=
  if msg_type c =? SM_MSG_REGISTER then 0
  else if msg_type c =? SM_MSG_LOOKUP then 1
  else if msg_type c =? SM_MSG_HEARTBEAT then 2
  else if msg_type c =? SM_MSG_UNREGISTER then 3 else 4.

Definition latency_u (c : call) : Z := if latency_us c <? 0 then 0 else latency_us c.

(** Where a thread is: before which access, with the values of its local variables. *)
Inductive pc :=
| Idle
| AddTotal (c : call) | AddType (c : call) | AddLatency (c : call) | AddCurrent (c : call)
| AddError (c : call) | ReadClock | ReadLast (now : Z) | TryLock (now : Z) | Recheck (now : Z)
| Swap (now : Z) | LoadPeak (now bucket : Z) | StorePeak (now bucket : Z)
| Append (now bucket : Z) | StoreAvg (now sum : Z) | StoreLast (now : Z) | Unlock.

Definition set_lock (b : bool) (w : window) : window :=
  mk_window (request_count_current_sec w) (peak_qps w) (rolling_avg_qps w) (last_qps_reset w)
    (qps_history w) (history_idx w) b.

(** [dev/core/service_manager/observability/sm_metrics.c:105-110 sm_metrics_request, counters]
    each [atomic_fetch_add] of the counters. *)
Definition counter_step (k : counters) (p : pc) : counters :=
  match p with
  | AddTotal c => mk_counters (u64 (total_requests k + 1)) (by_type k) (total_errors k)
                    (total_auth_failures k) (total_ratelimit_hits k) (total_latency_us k)
  | AddType c => mk_counters (total_requests k) (alter (fun n => u64 (n + 1)) (type_idx c) (by_type k))
                   (total_errors k) (total_auth_failures k) (total_ratelimit_hits k) (total_latency_us k)
  | AddLatency c => mk_counters (total_requests k) (by_type k) (total_errors k) (total_auth_failures k)
                      (total_ratelimit_hits k) (u64 (total_latency_us k + latency_u c))
  | AddError c => if success c then k
                  else mk_counters (total_requests k) (by_type k) (u64 (total_errors k + 1))
                         (total_auth_failures k) (total_ratelimit_hits k) (total_latency_us k)
  | _ => k
  end.

(** [dev/core/service_manager/observability/sm_metrics.c:108-151 sm_metrics_request, flush]
    the accesses to the window, [clock] is what [time(NULL)] returns. *)
Definition window_step (clock : Z) (w : window) (p : pc) : window * pc :=
  match p with
  | Idle => (w, Idle)
  | AddTotal c => (w, AddType c)
  | AddType c => (w, AddLatency c)
  | AddLatency c => (w, AddCurrent c)
  | AddCurrent c =>
      (mk_window (u64 (request_count_current_sec w + 1)) (peak_qps w) (rolling_avg_qps w)
         (last_qps_reset w) (qps_history w) (history_idx w) (qps_locked w), AddError c)
  | AddError c => (w, ReadClock)
  | ReadClock => (w, ReadLast clock)
  | ReadLast now => (w, if now =? last_qps_reset w then Idle else TryLock now)
  | TryLock now => if qps_locked w then (w, Idle) else (set_lock true w, Recheck now)
  | Recheck now => (w, if now =? last_qps_reset w then Unlock else Swap now)
  | Swap now =>
      (mk_window 0 (peak_qps w) (rolling_avg_qps w) (last_qps_reset w) (qps_history w) (history_idx w)
         (qps_locked w), LoadPeak now (request_count_current_sec w))
  | LoadPeak now bucket => (w, if peak_qps w <? bucket then StorePeak now bucket else Append now bucket)
  | StorePeak now bucket =>
      (mk_window (request_count_current_sec w) bucket (rolling_avg_qps w) (last_qps_reset w)
         (qps_history w) (history_idx w) (qps_locked w), Append now bucket)
  | Append now bucket =>
      let h := <[history_idx w := bucket]> (qps_history w) in
      (mk_window (request_count_current_sec w) (peak_qps w) (rolling_avg_qps w) (last_qps_reset w)
         h ((history_idx w + 1) mod QPS_HISTORY_SIZE) (qps_locked w),
       StoreAvg now (u64 (zsum id h)))
  | StoreAvg now sum =>
      (mk_window (request_count_current_sec w) (peak_qps w) (sum / Z.of_nat QPS_HISTORY_SIZE)
         (last_qps_reset w) (qps_history w) (history_idx w) (qps_locked w), StoreLast now)
  | StoreLast now =>
      (mk_window (request_count_current_sec w) (peak_qps w) (rolling_avg_qps w) now (qps_history w)
         (history_idx w) (qps_locked w), Unlock)
  | Unlock => (set_lock false w, Idle)
  end.

Definition thread_step (clock : Z) (g : g_metrics) (p : pc) : g_metrics * pc :=
  let '(w, p') := window_step clock (win g) p in (mk_metrics (counter_step (cnt g) p) w, p').

(** A thread that runs alone; it makes at most [fuel] accesses. *)
Fixpoint run_thread (fuel : nat) (clock : Z) (g : g_metrics) (p : pc) : g_metrics * pc :=
  match fuel with
  | O => (g, p)
  | S fuel' => let '(g', p') := thread_step clock g p in run_thread fuel' clock g' p'
  end.

(** [dev/core/service_manager/observability/sm_metrics.c:91-152 sm_metrics_request] without
    other threads: sixteen accesses are the most it makes ([request_wait_free]). *)
Definition sm_metrics_request (clock : Z) (c : call) (g : g_metrics) : g_metrics :=
  (run_thread 16 clock g (AddTotal c)).1.

(** [dev/core/service_manager/observability/sm_metrics.c:154-158 sm_metrics_auth_failure] *)
Definition sm_metrics_auth_failure (g : g_metrics) : g_metrics :=
  let k := cnt g in
  mk_metrics (mk_counters (total_requests k) (by_type k) (total_errors k)
    (u64 (total_auth_failures k + 1)) (total_ratelimit_hits k) (total_latency_us k)) (win g).

(** [dev/core/service_manager/observability/sm_metrics.c:160-164 sm_metrics_ratelimit_hit] *)
Definition sm_metrics_ratelimit_hit (g : g_metrics) : g_metrics :=
  let k := cnt g in
  mk_metrics (mk_counters (total_requests k) (by_type k) (total_errors k) (total_auth_failures k)
    (u64 (total_ratelimit_hits k + 1)) (total_latency_us k)) (win g).

(** [dev/core/service_manager/observability/sm_metrics.h:23-35 sm_metrics_t] *)
Record sm_metrics_t := mk_report {
  m_total_requests : Z; m_total_register : Z; m_total_lookup : Z; m_total_heartbeat : Z;
  m_total_unregister : Z; m_total_errors : Z; m_total_auth_failures : Z;
  m_total_ratelimit_hits : Z; m_peak_qps : Z; m_rolling_avg_qps : Z; m_avg_latency_us : Z
}.

(** [dev/core/service_manager/observability/sm_metrics.c:168-191 sm_metrics_get] *)
Definition sm_metrics_get (g : g_metrics) : sm_metrics_t :=
  let k := cnt g in let w := win g in
  mk_report (total_requests k) (by_type k !!! 0%nat) (by_type k !!! 1%nat) (by_type k !!! 2%nat)
    (by_type k !!! 3%nat) (total_errors k) (total_auth_failures k) (total_ratelimit_hits k)
    (peak_qps w) (rolling_avg_qps w)
    (if 0 <? total_requests k then total_latency_us k / total_requests k else 0).

(** [dev/core/service_manager/observability/sm_metrics.c:195-214 sm_metrics_reset] *)
Definition sm_metrics_reset (now : Z) (g : g_metrics) : g_metrics :=
  mk_metrics (mk_counters 0 (replicate 5 0) 0 0 0 0)
             (mk_window 0 0 0 now (replicate QPS_HISTORY_SIZE 0) 0 (qps_locked (win g))).

(** ** Any number of threads *)

(** The metrics, the request threads, the calls so far, the buckets flushed so far. *)
Record mstate := mk_mstate {
  mg : g_metrics; threads : list pc; calls : list call; flushed : list Z
}.

Definition metrics_start (s : mstate) : Prop :=
  exists now n, s = mk_mstate (sm_metrics_init now) (replicate n Idle) [] [].

Inductive metrics_step : mstate -> mstate -> Prop :=
| ms_call g ts cs fl i c :
    ts !! i = Some Idle ->
    metrics_step (mk_mstate g ts cs fl) (mk_mstate g (<[i := AddTotal c]> ts) (cs ++ [c]) fl)
| ms_access g ts cs fl i p clock :
    ts !! i = Some p -> p <> Idle ->
    metrics_step (mk_mstate g ts cs fl)
      (mk_mstate (thread_step clock g p).1 (<[i := (thread_step clock g p).2]> ts) cs
         (match p with Append _ bucket => fl ++ [bucket] | _ => fl end))
| ms_auth g ts cs fl :
    metrics_step (mk_mstate g ts cs fl) (mk_mstate (sm_metrics_auth_failure g) ts cs fl)
| ms_ratelimit g ts cs fl :
    metrics_step (mk_mstate g ts cs fl) (mk_mstate (sm_metrics_ratelimit_hit g) ts cs fl).

(** How many of its counters a thread still has to increase. *)
Definition stage (p : pc) : option (nat * call) :=
  match p with
  | AddTotal c => Some (0%nat, c) | AddType c => Some (1%nat, c) | AddLatency c => Some (2%nat, c)
  | AddCurrent c => Some (3%nat, c) | AddError c => Some (4%nat, c) | _ => None
  end.

(** What a thread will still add to the counter of access [n]. *)
Definition owed (n : nat) (f : call -> Z) (p : pc) : Z :=
  match stage p with Some (k, c) => if Nat.leb k n then f c else 0 | None => 0 end.

(** A thread that holds the mutex. *)
Definition critical (p : pc) : Z :=
  match p with
  | Recheck _ | Swap _ | LoadPeak _ _ | StorePeak _ _ | Append _ _ | StoreAvg _ _ | StoreLast _ | Unlock => 1
  | _ => 0
  end.

(** A bucket taken out of the window and not yet in the history. *)
Definition pending (p : pc) : Z :=
  match p with LoadPeak _ b | StorePeak _ b | Append _ b => b | _ => 0 end.
Definition stored (p : pc) : Z := match p with Append _ b => b | _ => 0 end.
Definition averaging (p : pc) : Z := match p with StoreAvg _ _ => 1 | _ => 0 end.

Definition one (c : call) : Z := 1.
Definition is_type (k : nat) (c : call) : Z := if Nat.eqb (type_idx c) k then 1 else 0.
Definition failed (c : call) : Z := if success c then 0 else 1.

Definition max_of (l : list Z) : Z := fold_right Z.max 0 l.
Definition last_minute (fl : list Z) : Z := u64 (zsum id (last_n QPS_HISTORY_SIZE fl)).

(** What the counters and the threads together account for. *)
Record counted (k : counters) (ts : list pc) (cs : list call) : Prop := {
  ct_total : total_requests k = u64 (zsum one cs - zsum (owed 0 one) ts);
  ct_len : length (by_type k) = 5%nat;
  ct_type : forall j, (j < 5)%nat ->
    by_type k !! j = Some (u64 (zsum (is_type j) cs - zsum (owed 1 (is_type j)) ts));
  ct_latency : total_latency_us k = u64 (zsum latency_u cs - zsum (owed 2 latency_u) ts);
  ct_errors : total_errors k = u64 (zsum failed cs - zsum (owed 4 failed) ts)
}.

Record windowed (w : window) (ts : list pc) (cs : list call) (fl : list Z) : Prop := {
  wd_mutex : zsum critical ts = Z.b2z (qps_locked w);
  wd_range : 0 <= request_count_current_sec w < 2 ^ 64 /\ Forall (fun p => 0 <= pending p < 2 ^ 64) ts;
  wd_sum : u64 (request_count_current_sec w + zsum pending ts + zsum id fl) =
           u64 (zsum one cs - zsum (owed 3 one) ts);
  wd_history : length (qps_history w) = QPS_HISTORY_SIZE /\
    ring_log (qps_history w) (history_idx w) (replicate QPS_HISTORY_SIZE 0 ++ fl);
  wd_peak : peak_qps w = Z.max (max_of fl) (zsum stored ts) /\
    Forall (fun p => match p with StorePeak _ b => peak_qps w < b | _ => True end) ts;
  wd_avg : (zsum averaging ts = 0 -> rolling_avg_qps w = last_minute fl / Z.of_nat QPS_HISTORY_SIZE) /\
    Forall (fun p => match p with StoreAvg _ s => s = last_minute fl | _ => True end) ts
}.

Definition metrics_inv (s : mstate) : Prop :=
  counted (cnt (mg s)) (threads s) (calls s) /\ windowed (win (mg s)) (threads s) (calls s) (flushed s).

(** ** The counters *)

(** What access of a thread adds to the counter of access [n]. *)
Definition paid (n : nat) (f : call -> Z) (p : pc) : Z :=
  match stage p with Some (k, c) => if Nat.eqb k n then f c else 0 | None => 0 end.

Lemma stage_next clock w p :
  stage (window_step clock w p).2 =
  match stage p with Some (k, c) => stage (match k with 0%nat => AddType c | 1%nat => AddLatency c
    | 2%nat => AddCurrent c | 3%nat => AddError c | _ => ReadClock end) | None => None end.
Proof. destruct p; simpl; try done; by case_match. Qed.

Lemma owed_next n f clock w p : (n <= 4)%nat ->
  owed n f (window_step clock w p).2 = owed n f p - paid n f p.
Proof.
  intros Hn. unfold owed, paid. rewrite stage_next.
  destruct p; cbn [stage]; try lia;
    repeat match goal with |- context [Nat.leb ?a ?b] => destruct (Nat.leb_spec a b) end;
    repeat match goal with |- context [Nat.eqb ?a ?b] => destruct (Nat.eqb_spec a b) end; lia.
Qed.

Lemma zsum_owed_next n f clock w ts i p : (n <= 4)%nat -> ts !! i = Some p ->
  zsum (owed n f) (<[i := (window_step clock w p).2]> ts) = zsum (owed n f) ts - paid n f p.
Proof. intros Hn Hi. rewrite (zsum_insert _ _ _ _ _ Hi), owed_next by done. lia. Qed.

Lemma counted_access clock w k ts cs i p : counted k ts cs -> ts !! i = Some p ->
  counted (counter_step k p) (<[i := (window_step clock w p).2]> ts) cs.
Proof.
  intros [H1 H2 H3 H4 H5] Hi.
  assert (Hu : forall v n f, (n <= 4)%nat -> v = u64 (zsum f cs - zsum (owed n f) ts) ->
    u64 (v + paid n f p) = u64 (zsum f cs - zsum (owed n f) (<[i := (window_step clock w p).2]> ts))).
  { intros v n f Hn ->. rewrite wrap_add, zsum_owed_next by done. f_equal. lia. }
  assert (Hz : forall v n f, (n <= 4)%nat -> paid n f p = 0 -> v = u64 (zsum f cs - zsum (owed n f) ts) ->
    v = u64 (zsum f cs - zsum (owed n f) (<[i := (window_step clock w p).2]> ts))).
  { intros v n f Hn Hp Hv. rewrite zsum_owed_next, Hp, Z.sub_0_r by done. done. }
  assert (Htype : forall j, (j < 5)%nat ->
    by_type (counter_step k p) !! j =
    Some (u64 (zsum (is_type j) cs - zsum (owed 1 (is_type j)) (<[i := (window_step clock w p).2]> ts)))).
  { intros j Hj. specialize (H3 j Hj). destruct p; cbn [counter_step by_type]; try case_match; cbn [by_type];
      try (rewrite H3; f_equal; apply Hz; [lia|done|done]).
    destruct (decide (type_idx c = j)) as [<-|Hne].
    - rewrite list_lookup_alter, decide_True, H3 by done. cbn [fmap option_fmap option_map]. f_equal.
      rewrite <- (Hu _ 1%nat (is_type (type_idx c)) ltac:(lia) eq_refl). do 2 f_equal.
      unfold paid, is_type. cbn [stage]. by rewrite !Nat.eqb_refl.
    - rewrite list_lookup_alter_ne, H3 by done. f_equal. apply Hz; [lia| |done].
      unfold paid, is_type. cbn [stage]. rewrite Nat.eqb_refl. by rewrite (proj2 (Nat.eqb_neq _ _)). }
  assert (Hadd : total_requests (counter_step k p) = u64 (total_requests k + paid 0 one p) /\
    total_latency_us (counter_step k p) = u64 (total_latency_us k + paid 2 latency_u p) /\
    total_errors (counter_step k p) = u64 (total_errors k + paid 4 failed p)).
  { assert (Hw : forall z, u64 (u64 z + 0) = u64 z) by (intros; by rewrite Z.add_0_r, wrap_wrap).
    destruct p; unfold paid, failed; cbn [counter_step stage Nat.eqb];
      try case_match; cbn [total_requests total_latency_us total_errors];
      rewrite ?H1, ?H4, ?H5, ?Hw; done. }
  destruct Hadd as (Ht & Hl & He).
  constructor; [rewrite Ht; by apply Hu; [lia|]| |done|rewrite Hl; by apply Hu; [lia|]|rewrite He; by apply Hu; [lia|]].
  destruct p; cbn [counter_step]; try case_match; cbn [by_type]; by rewrite ?length_alter.
Qed.

Lemma counted_call k ts cs i c : counted k ts cs -> ts !! i = Some Idle ->
  counted k (<[i := AddTotal c]> ts) (cs ++ [c]).
Proof.
  intros [H1 H2 H3 H4 H5] Hi.
  assert (Hz : forall n f, zsum f (cs ++ [c]) - zsum (owed n f) (<[i := AddTotal c]> ts) =
                           zsum f cs - zsum (owed n f) ts).
  { intros n f. rewrite zsum_app, (zsum_insert _ _ _ _ _ Hi). cbn. lia. }
  constructor; [|done|intros j Hj|..]; by rewrite Hz; auto.
Qed.

(** ** The window *)

Lemma critical_01 p : critical p = 0 \/ critical p = 1.
Proof. destruct p; simpl; auto. Qed.

Lemma zsum_none (f : pc -> Z) ts : (forall q, critical q = 0 -> f q = 0) -> zsum critical ts = 0 -> zsum f ts = 0.
Proof.
  intros Hf. induction ts as [|q ts IH]; [done|]. simpl. intros Hz.
  assert (0 <= zsum critical ts) by (apply zsum_nonneg; intros x; destruct (critical_01 x); lia).
  destruct (critical_01 q); [|lia]. rewrite Hf, IH by lia. done.
Qed.

Lemma others_free ts i p : ts !! i = Some p -> critical p = 1 -> zsum critical ts <= 1 ->
  zsum critical (<[i := Idle]> ts) = 0.
Proof.
  intros Hi Hp Hle. rewrite (zsum_insert _ _ _ _ _ Hi). cbn [critical].
  pose proof (zsum_nonneg critical ts ltac:(intros x; destruct (critical_01 x); lia)).
  pose proof (zsum_ge critical ts i p ltac:(intros x; destruct (critical_01 x); lia) Hi). lia.
Qed.

(** Only the holder of the mutex contributes. *)
Lemma zsum_solo (f : pc -> Z) ts i p : (forall q, critical q = 0 -> f q = 0) -> ts !! i = Some p ->
  critical p = 1 -> zsum critical ts <= 1 -> zsum f ts = f p.
Proof.
  intros Hf Hi Hp Hle. pose proof (zsum_none f _ Hf (others_free ts i p Hi Hp Hle)) as Hz.
  rewrite (zsum_insert _ _ _ _ _ Hi), (Hf Idle) in Hz by done. lia.
Qed.

Lemma Forall_solo (P : pc -> Prop) ts i p p' : (forall q, critical q = 0 -> P q) -> ts !! i = Some p ->
  critical p = 1 -> zsum critical ts <= 1 -> P p' -> Forall P (<[i := p']> ts).
Proof.
  intros HP Hi Hp Hle Hp'. pose proof (others_free ts i p Hi Hp Hle) as Hz.
  rewrite <- (list_insert_insert_eq ts i p' Idle). apply Forall_insert; [|done].
  remember (<[i := Idle]> ts) as us eqn:Hus. clear -HP Hz. induction us as [|q us IH]; [done|].
  simpl in Hz. pose proof (zsum_nonneg critical us ltac:(intros x; destruct (critical_01 x); lia)).
  destruct (critical_01 q); [|exfalso; lia]. constructor; [by apply HP|apply IH; lia].
Qed.

Lemma zsum_free (f : pc -> Z) ts i p p' : (forall q, critical q = 0 -> f q = 0) -> ts !! i = Some p ->
  critical p = 0 -> critical p' = 0 -> zsum f (<[i := p']> ts) = zsum f ts.
Proof. intros Hf Hi Hp Hp'. rewrite (zsum_insert _ _ _ _ _ Hi), !Hf by done. lia. Qed.

Lemma pending_free q : critical q = 0 -> pending q = 0.
Proof. by destruct q. Qed.
Lemma stored_free q : critical q = 0 -> stored q = 0.
Proof. by destruct q. Qed.
Lemma averaging_free q : critical q = 0 -> averaging q = 0.
Proof. by destruct q. Qed.

Lemma zsum_last_n_zeros fl : zsum id (last_n QPS_HISTORY_SIZE (replicate QPS_HISTORY_SIZE 0 ++ fl)) =
  zsum id (last_n QPS_HISTORY_SIZE fl).
Proof.
  unfold last_n. rewrite length_app, length_replicate, drop_app, zsum_app, length_replicate, drop_replicate, zsum_replicate.
  unfold id at 1. rewrite Z.mul_0_r, Z.add_0_l. do 2 f_equal. lia.
Qed.

(** The sum over the history array is the sum over the last sixty buckets. *)
Lemma history_sum h idx fl : length h = QPS_HISTORY_SIZE ->
  ring_log h idx (replicate QPS_HISTORY_SIZE 0 ++ fl) -> zsum id h = zsum id (last_n QPS_HISTORY_SIZE fl).
Proof.
  intros Hl Hr. rewrite <- zsum_last_n_zeros. rewrite <- Hl in Hr |- *.
  rewrite <- (ring_read_last h idx) by (done || rewrite ?length_app, ?length_replicate; lia).
  assert (Hrr : ring_read h idx (length h) = ring_contents h idx (length h)).
  { unfold ring_read, ring_contents, ring_slots. rewrite <- list_fmap_compose. apply list_fmap_ext. intros _ k _.
    simpl. do 2 f_equal. lia. }
  rewrite Hrr. symmetry. apply zsum_perm, ring_contents_all.
Qed.

(** What the window looks like to the holder of the mutex. *)
Record held_window (w : window) (p : pc) (fl : list Z) : Prop := {
  hw_pending : 0 <= pending p < 2 ^ 64;
  hw_peak : peak_qps w = Z.max (max_of fl) (stored p);
  hw_store : match p with StorePeak _ b => peak_qps w < b | _ => True end;
  hw_avg : averaging p = 0 -> rolling_avg_qps w = last_minute fl / Z.of_nat QPS_HISTORY_SIZE;
  hw_sum : match p with StoreAvg _ s => s = last_minute fl | _ => True end
}.

Lemma windowed_held w ts cs fl i p : windowed w ts cs fl -> ts !! i = Some p -> critical p = 1 ->
  qps_locked w = true /\ zsum critical ts <= 1 /\ held_window w p fl.
Proof.
  intros [Hm [Hr Hpr] _ _ [Hp Hps] [Ha Has]] Hi Hc.
  pose proof (zsum_ge critical ts i p ltac:(intros x; destruct (critical_01 x); lia) Hi).
  destruct (qps_locked w); simpl in Hm; [|lia]. split_and!; [done|lia|].
  rewrite (zsum_solo stored ts i p stored_free Hi Hc) in Hp by lia.
  rewrite (zsum_solo averaging ts i p averaging_free Hi Hc) in Ha by lia.
  constructor; [by apply (Forall_lookup_1 _ _ _ _ Hpr Hi)|done|by apply (Forall_lookup_1 _ _ _ _ Hps Hi)|done|
                by apply (Forall_lookup_1 _ _ _ _ Has Hi)].
Qed.

Lemma stage_critical p : critical p = 1 -> stage p = None.
Proof. by destruct p. Qed.

(** A step of the holder of the mutex. *)
Lemma windowed_crit w w' ts cs fl fl' i p p' :
  windowed w ts cs fl -> ts !! i = Some p -> critical p = 1 -> stage p' = None ->
  qps_locked w' = (critical p' =? 1) -> 0 <= request_count_current_sec w' < 2 ^ 64 ->
  request_count_current_sec w' + pending p' + zsum id fl' = request_count_current_sec w + pending p + zsum id fl ->
  length (qps_history w') = QPS_HISTORY_SIZE /\
    ring_log (qps_history w') (history_idx w') (replicate QPS_HISTORY_SIZE 0 ++ fl') ->
  held_window w' p' fl' -> windowed w' (<[i := p']> ts) cs fl'.
Proof.
  intros Hw Hi Hc Hst Hl Hr Hsum Hh [H1 H2 H3 H4 H5].
  destruct (windowed_held _ _ _ _ _ _ Hw Hi Hc) as (_ & Hle & _).
  assert (Hz : forall f, (forall q, critical q = 0 -> f q = 0) -> zsum f (<[i := p']> ts) = f p').
  { intros f Hf. rewrite (zsum_insert _ _ _ _ _ Hi), (zsum_solo f ts i p) by done. lia. }
  constructor.
  - rewrite Hz by done. rewrite Hl. destruct (critical_01 p') as [->| ->]; done.
  - split; [done|]. apply (Forall_solo _ ts i p); try done. intros q Hq. rewrite pending_free by done. lia.
  - rewrite (Hz pending pending_free), Hsum, (zsum_insert _ _ _ _ _ Hi).
    rewrite <- (zsum_solo pending ts i p pending_free Hi Hc Hle), (wd_sum _ _ _ _ Hw). f_equal.
    unfold owed. rewrite (stage_critical p Hc), Hst. lia.
  - done.
  - rewrite (Hz stored stored_free). split; [done|]. apply (Forall_solo _ ts i p); try done. by intros [].
  - rewrite (Hz averaging averaging_free). split; [done|]. apply (Forall_solo _ ts i p); try done. by intros [].
Qed.

(** A step of a thread that does not hold the mutex and does not take it. *)
Lemma windowed_free w c' ts cs fl i p p' :
  windowed w ts cs fl -> ts !! i = Some p -> critical p = 0 -> critical p' = 0 ->
  owed 3 one p' = owed 3 one p - paid 3 one p -> c' = u64 (request_count_current_sec w + paid 3 one p) ->
  windowed (mk_window c' (peak_qps w) (rolling_avg_qps w) (last_qps_reset w) (qps_history w)
              (history_idx w) (qps_locked w)) (<[i := p']> ts) cs fl.
Proof.
  intros [Hm [Hr Hpr] Hs Hh [Hp Hps] [Ha Has]] Hi Hc Hc' Ho ->.
  assert (Hz : forall f, (forall q, critical q = 0 -> f q = 0) -> zsum f (<[i := p']> ts) = zsum f ts).
  { intros f Hf. by apply (zsum_free f ts i p). }
  constructor; cbn [request_count_current_sec peak_qps rolling_avg_qps qps_history history_idx qps_locked].
  - by rewrite Hz.
  - split; [by apply wrap_range|]. apply Forall_insert; [done|]. rewrite pending_free by done. lia.
  - rewrite (Hz pending pending_free), (zsum_insert _ _ _ _ _ Hi), Ho.
    replace (u64 (request_count_current_sec w + paid 3 one p) + zsum pending ts + zsum id fl)
      with (u64 (request_count_current_sec w + paid 3 one p) + (zsum pending ts + zsum id fl)) by lia.
    rewrite wrap_add.
    replace (request_count_current_sec w + paid 3 one p + (zsum pending ts + zsum id fl))
      with (request_count_current_sec w + zsum pending ts + zsum id fl + paid 3 one p) by lia.
    rewrite <- wrap_add, Hs, wrap_add. f_equal. lia.
  - done.
  - rewrite (Hz stored stored_free). split; [done|]. apply Forall_insert; [done|]. by destruct p'.
  - rewrite (Hz averaging averaging_free). split; [done|]. apply Forall_insert; [done|]. by destruct p'.
Qed.

Lemma window_unchanged w : mk_window (request_count_current_sec w) (peak_qps w) (rolling_avg_qps w)
  (last_qps_reset w) (qps_history w) (history_idx w) (qps_locked w) = w.
Proof. by destruct w. Qed.

Lemma windowed_same w ts cs fl i p p' :
  windowed w ts cs fl -> ts !! i = Some p -> critical p = 0 -> critical p' = 0 ->
  owed 3 one p' = owed 3 one p -> paid 3 one p = 0 -> windowed w (<[i := p']> ts) cs fl.
Proof.
  intros Hw Hi Hc Hc' Ho Hp. rewrite <- (window_unchanged w).
  apply (windowed_free w _ ts cs fl i p p'); [done..|lia|].
  rewrite Hp, Z.add_0_r. symmetry. apply wrap_small, (wd_range _ _ _ _ Hw).
Qed.

(** Taking the mutex. *)
Lemma windowed_lock w ts cs fl i now : windowed w ts cs fl -> ts !! i = Some (TryLock now) ->
  qps_locked w = false -> windowed (set_lock true w) (<[i := Recheck now]> ts) cs fl.
Proof.
  intros [Hm [Hr Hpr] Hs Hh [Hp Hps] [Ha Has]] Hi Hl. rewrite Hl in Hm. simpl in Hm.
  constructor; unfold set_lock; cbn [request_count_current_sec peak_qps rolling_avg_qps qps_history history_idx qps_locked];
    rewrite ?(zsum_insert _ _ _ _ _ Hi); cbn [critical pending stored averaging owed stage];
    rewrite ?Z.sub_0_r, ?Z.add_0_r.
  - rewrite Hm. done.
  - split; [done|]. apply Forall_insert; [done|]. simpl. lia.
  - done.
  - done.
  - split; [done|]. by apply Forall_insert.
  - split; [done|]. by apply Forall_insert.
Qed.

Lemma max_of_app fl b : max_of (fl ++ [b]) = Z.max (max_of fl) b \/ b < 0.
Proof.
  destruct (Z_lt_le_dec b 0); [by right|left]. unfold max_of. induction fl as [|a fl IH]; simpl in *; lia.
Qed.

Lemma windowed_access clock w ts cs fl i p : windowed w ts cs fl -> ts !! i = Some p -> p <> Idle ->
  windowed (window_step clock w p).1 (<[i := (window_step clock w p).2]> ts) cs
    (match p with Append _ bucket => fl ++ [bucket] | _ => fl end).
Proof.
  intros Hw Hi Hne. destruct (critical_01 p) as [Hc|Hc].
  - destruct p; try done; cbn [window_step];
      try (case_match; cbn [fst snd]); try (apply (windowed_same w ts cs fl i _ _ Hw Hi); by try case_match).
    + by apply (windowed_free w _ ts cs fl i _ _ Hw Hi).
    + by apply windowed_lock.
  - destruct (windowed_held _ _ _ _ _ _ Hw Hi Hc) as (Hl & _ & [H1 H2 H3 H4 H5]).
    destruct (wd_range _ _ _ _ Hw) as [Hr _]. destruct (wd_history _ _ _ _ Hw) as [Hlen Hring].
    destruct p; try done; cbn [window_step fst snd pending stored averaging] in *.
    + apply (windowed_crit w w ts cs fl fl i _ _ Hw Hi Hc); try done; try by case_match.
    + apply (windowed_crit w _ ts cs fl fl i _ _ Hw Hi Hc); try done. simpl. lia.
    + destruct (Z.ltb_spec (peak_qps w) bucket); apply (windowed_crit w w ts cs fl fl i _ _ Hw Hi Hc); try done;
        constructor; simpl; try done; lia.
    + apply (windowed_crit w _ ts cs fl fl i _ _ Hw Hi Hc); try done. constructor; simpl; try done. lia.
    + destruct (max_of_app fl bucket) as [Hm|]; [|lia].
      assert (Hh : length (<[history_idx w:=bucket]> (qps_history w)) = QPS_HISTORY_SIZE /\
        ring_log (<[history_idx w:=bucket]> (qps_history w)) ((history_idx w + 1) mod QPS_HISTORY_SIZE)
          (replicate QPS_HISTORY_SIZE 0 ++ fl ++ [bucket])).
      { rewrite length_insert. split; [done|]. rewrite app_assoc. rewrite <- Hlen at 1. by apply ring_log_push. }
      apply (windowed_crit w _ ts cs fl (fl ++ [bucket]) i _ _ Hw Hi Hc); try done.
      * simpl. rewrite zsum_app. simpl. unfold id. lia.
      * constructor; simpl; try done; [lia|].
        unfold last_minute. f_equal. apply (history_sum _ _ _ (proj1 Hh) (proj2 Hh)).
    + apply (windowed_crit w _ ts cs fl fl i _ _ Hw Hi Hc); try done.
      constructor; simpl; try done. intros _. by rewrite H5.
    + apply (windowed_crit w _ ts cs fl fl i _ _ Hw Hi Hc); done.
    + apply (windowed_crit w _ ts cs fl fl i _ _ Hw Hi Hc); done.
Qed.

Lemma windowed_call w ts cs fl i c : windowed w ts cs fl -> ts !! i = Some Idle ->
  windowed w (<[i := AddTotal c]> ts) (cs ++ [c]) fl.
Proof.
  intros [Hm [Hr Hpr] Hs Hh [Hp Hps] [Ha Has]] Hi.
  constructor; rewrite ?(zsum_insert _ _ _ _ _ Hi), ?zsum_app; cbn [critical pending stored averaging];
    rewrite ?Z.sub_0_r, ?Z.add_0_r; try done.
  - split; [done|]. by apply Forall_insert.
  - rewrite Hs. f_equal. cbn. lia.
  - split; [done|]. by apply Forall_insert.
  - split; [done|]. by apply Forall_insert.
Qed.

Lemma metrics_inv_reachable s : reachable metrics_start metrics_step s -> metrics_inv s.
Proof.
  apply reachable_invariant.
  - intros ? (now & n & ->). unfold metrics_inv. cbn [mg threads calls flushed].
    split; constructor; cbn; rewrite ?zsum_replicate; cbn; rewrite ?Z.mul_0_r; try done.
    + intros j Hj. rewrite zsum_replicate. cbn. rewrite Z.mul_0_r. do 5 (destruct j as [|j]; [done|]). lia.
    + split; [lia|]. by apply Forall_replicate.
    + rewrite length_replicate. split; [done|]. rewrite app_nil_r. split; rewrite ?length_replicate.
      * unfold QPS_HISTORY_SIZE. lia.
      * done.
      * intros j Hj. rewrite Nat.mod_small by lia. rewrite !lookup_total_replicate_2 by lia. done.
    + split; [done|]. by apply Forall_replicate.
    + split; [done|]. by apply Forall_replicate.
  - intros ? ? [Hc Hw] Hstep. destruct Hstep as [g ts cs fl i c Hi|g ts cs fl i p clock Hi Hne|g ts cs fl|g ts cs fl];
      unfold metrics_inv in *; cbn [mg threads calls flushed] in *.
    + split; [by apply counted_call|by apply windowed_call].
    + unfold thread_step. pose proof (counted_access clock (win g) _ _ _ _ _ Hc Hi) as Hc'.
      pose proof (windowed_access clock _ _ _ _ _ _ Hw Hi Hne) as Hw'.
      destruct (window_step clock (win g) p) as [w' p']. by split.
    + split; [|done]. by destruct Hc.
    + split; [|done]. by destruct Hc.
Qed.

Lemma zsum_idle (f : pc -> Z) ts : Forall (fun p => p = Idle) ts -> f Idle = 0 -> zsum f ts = 0.
Proof.
  intros Hid Hf. induction Hid as [|p ts -> Hid IH]; [done|].
  change (zsum f (Idle :: ts)) with (f Idle + zsum f ts). lia.
Qed.

(** C25: However request threads interleave their accesses: at most one of them flushes
    the window at a time, no request is lost between the buckets flushed, the one being
    flushed and the current one, and when no request is under way every counter is
    exact (modulo 2^64), the peak is the greatest bucket flushed and the rolling average
    is the sum of the last sixty buckets by sixty. *)
Theorem metrics_accurate s : reachable metrics_start metrics_step s ->
  let k := cnt (mg s) in let w := win (mg s) in
  zsum critical (threads s) <= 1 /\
  u64 (request_count_current_sec w + zsum pending (threads s) + zsum id (flushed s)) =
    u64 (Z.of_nat (length (calls s)) - zsum (owed 3 one) (threads s)) /\
  (Forall (fun p => p = Idle) (threads s) ->
     total_requests k = u64 (Z.of_nat (length (calls s))) /\
     (forall j, (j < 5)%nat -> by_type k !! j = Some (u64 (zsum (is_type j) (calls s)))) /\
     total_errors k = u64 (zsum failed (calls s)) /\
     total_latency_us k = u64 (zsum latency_u (calls s)) /\
     u64 (request_count_current_sec w + zsum id (flushed s)) = u64 (Z.of_nat (length (calls s))) /\
     peak_qps w = max_of (flushed s) /\
     rolling_avg_qps w = last_minute (flushed s) / Z.of_nat QPS_HISTORY_SIZE).
Proof.
  intros Hs k w. destruct (metrics_inv_reachable s Hs) as [[H1 H2 H3 H4 H5] [Hm Hr Hsum Hh [Hp _] [Ha _]]].
  assert (Hone : zsum one (calls s) = Z.of_nat (length (calls s))).
  { generalize (calls s). intros l. unfold one. induction l as [|c l IH]; [done|]. simpl in *. lia. }
  rewrite Hone in *. split; [rewrite Hm; by destruct (qps_locked _)|]. split; [done|]. intros Hid.
  assert (Hz : forall f, f Idle = 0 -> zsum f (threads s) = 0).
  { intros f Hf. by apply zsum_idle. }
  rewrite (Hz (owed 0 one)), Z.sub_0_r in H1 by done. rewrite (Hz (owed 2 latency_u)), Z.sub_0_r in H4 by done.
  rewrite (Hz (owed 4 failed)), Z.sub_0_r in H5 by done.
  rewrite (Hz (owed 3 one)), (Hz pending), Z.sub_0_r, Z.add_0_r in Hsum by done.
  rewrite (Hz stored) in Hp by done. specialize (Ha (Hz averaging eq_refl)).
  split_and!; try done.
  - intros j Hj. specialize (H3 j Hj). by rewrite (Hz (owed 1 (is_type j))), Z.sub_0_r in H3.
  - fold w in Hp. rewrite Hp. assert (0 <= max_of (flushed s)); [|lia].
    generalize (flushed s). intros l. induction l as [|b l IH]; [done|].
    change (max_of (b :: l)) with (Z.max b (max_of l)). lia.
Qed.

(** Where a thread is after [n] accesses; [env] gives the clock and the metrics as the
    other threads left them before each access. *)
Fixpoint after_accesses (n : nat) (env : nat -> Z * g_metrics) (p : pc) : pc :=
  match n with
  | O => p
  | S n' => after_accesses n' (fun k => env (S k)) (thread_step (env 0%nat).1 (env 0%nat).2 p).2
  end.

(** Accesses a thread has left. *)
Definition accesses_left (p : pc) : nat :=
  match p with
  | Idle => 0 | Unlock => 1 | StoreLast _ => 2 | StoreAvg _ _ => 3 | Append _ _ => 4 | StorePeak _ _ => 5
  | LoadPeak _ _ => 6 | Swap _ => 7 | Recheck _ => 8 | TryLock _ => 9 | ReadLast _ => 10 | ReadClock => 11
  | AddError _ => 12 | AddCurrent _ => 13 | AddLatency _ => 14 | AddType _ => 15 | AddTotal _ => 16
  end.

Lemma access_progress clock g p : (accesses_left (thread_step clock g p).2 <= accesses_left p - 1)%nat.
Proof.
  unfold thread_step. destruct (window_step clock (win g) p) as [w' p'] eqn:Hs.
  destruct p; simpl in *; repeat case_match; simplify_eq; simpl; lia.
Qed.

(** A request never waits: it is over after at most sixteen accesses of its own,
    whatever other threads do to the metrics in between, the holder of the mutex
    included. *)
Theorem request_wait_free c env : after_accesses 16 env (AddTotal c) = Idle.
Proof.
  assert (Hgo : forall n env p, (accesses_left p <= n)%nat -> after_accesses n env p = Idle).
  { induction n as [|n IH]; intros e p Hp; [by destruct p; simpl in Hp; try lia|].
    cbn [after_accesses]. apply IH. pose proof (access_progress (e 0%nat).1 (e 0%nat).2 p). lia. }
  by apply Hgo.
Qed.

(** A request alone is over after these accesses. *)
Lemma request_alone_ends clock c g : (run_thread 16 clock g (AddTotal c)).2 = Idle.
Proof.
  assert (Hgo : forall n g p, (accesses_left p <= n)%nat -> (run_thread n clock g p).2 = Idle).
  { induction n as [|n IH]; intros h p Hp; [by destruct p; simpl in Hp; try lia|]. cbn [run_thread].
    pose proof (access_progress clock h p). destruct (thread_step clock h p) as [h' p']. apply IH. simpl in *. lia. }
  by apply Hgo.
Qed.

(** Seconds without a request leave no bucket: with one request an hour the average over
    the last sixty seconds is one per second. *)
Lemma hourly_requests_average :
  rolling_avg_qps (win (fold_left (fun g h => sm_metrics_request (3600 * Z.of_nat h) (mk_call 2 5 true) g)
                          (seq 1 60) (sm_metrics_init 0))) = 1.
Proof. vm_compute. reflexivity. Qed.

(** ** On concrete inputs *)

(** A schedule: thread [i] enters a request, or makes its next access. *)
Inductive action := Enter (i : nat) (c : call) | Access (i : nat) (clock : Z).

Definition act (a : action) (s : mstate) : option mstate :=
  match a with
  | Enter i c =>
      match threads s !! i with
      | Some Idle => Some (mk_mstate (mg s) (<[i := AddTotal c]> (threads s)) (calls s ++ [c]) (flushed s))
      | _ => None
      end
  | Access i clock =>
      match threads s !! i with
      | Some Idle | None => None
      | Some p => Some (mk_mstate (thread_step clock (mg s) p).1 (<[i := (thread_step clock (mg s) p).2]> (threads s))
                          (calls s) (match p with Append _ b => flushed s ++ [b] | _ => flushed s end))
      end
  end.

Definition schedule (l : list action) (s : mstate) : option mstate :=
  foldl (fun s a => s ≫= act a) (Some s) l.

Lemma act_step a s t : act a s = Some t -> metrics_step s t.
Proof.
  destruct s as [g ts cs fl], a as [i c|i clock]; unfold act; cbn [mg threads calls flushed];
    destruct (ts !! i) as [p|] eqn:Hi; try done.
  - destruct p; try done. intros [= <-]. by constructor.
  - intros Ht. assert (Hp : p <> Idle) by (intros ->; done).
    pose proof (ms_access g ts cs fl i p clock Hi Hp) as Hs. destruct p; by simplify_eq.
Qed.

Lemma schedule_steps l : forall s t, schedule l s = Some t -> rtc metrics_step s t.
Proof.
  induction l as [|a l IH]; intros s t Hs; [injection Hs as ->; constructor|].
  unfold schedule in Hs. cbn [foldl mbind option_bind] in Hs.
  destruct (act a s) as [u|] eqn:Hu.
  - eapply rtc_l; [by apply (act_step a)|]. by apply IH.
  - exfalso. clear -Hs. induction l as [|b l IHl]; [done|]. by apply IHl.
Qed.

(** Two threads: both count their request in the first second, the first flushes in the
    second while the other passes by. *)
Definition two_threads : mstate := mk_mstate (sm_metrics_init 10) (replicate 2 Idle) [] [].
Definition two_requests : list action :=
  [Enter 0 (mk_call SM_MSG_LOOKUP 40 true); Enter 1 (mk_call SM_MSG_REGISTER 60 false)] ++
  replicate 5 (Access 0 11) ++ replicate 5 (Access 1 11) ++ replicate 4 (Access 0 11) ++
  replicate 3 (Access 1 11) ++ replicate 7 (Access 0 11).

Definition after_two : mstate := Eval vm_compute in default two_threads (schedule two_requests two_threads).

Lemma metrics_accurate_witness :
  reachable metrics_start metrics_step after_two /\ total_requests (cnt (mg after_two)) = 2 /\
  flushed after_two = [2] /\ peak_qps (win (mg after_two)) = max_of (flushed after_two) /\
  u64 (request_count_current_sec (win (mg after_two)) + zsum id (flushed after_two)) = 2.
Proof.
  assert (Hr : reachable metrics_start metrics_step after_two).
  { exists two_threads. split; [exists 10, 2%nat; reflexivity|].
    apply (schedule_steps two_requests). vm_compute. reflexivity. }
  assert (Hid : Forall (fun p => p = Idle) (threads after_two)) by (constructor; [|constructor; [|constructor]]; reflexivity).
  destruct (metrics_accurate after_two Hr) as (_ & _ & H).
  destruct (H Hid) as (H1 & _ & _ & _ & H5 & H6 & _). split; [exact Hr|]. rewrite H1, H5.
  split; [reflexivity|]. split; [reflexivity|]. split; [exact H6|reflexivity].
Defined.
