(* ===== verification/ConnPool.v ===== *)
(** * Connection pool

    infrastructure/sm_connection_pool.c: the pooled descriptors and the calls on them.
    Each lock region is one step, [pool_step] interleaves any number of clients; what
    [recv] finds on a descriptor ([peer_open]) and what [connect] returns are
    arguments. *)

From S2P Require Import Prelude.

(** [dev/core/service_manager/infrastructure/sm_connection_pool.c:28-31 conn_slot_t] *)
Record conn_slot_t := mk_slot { fd : Z; last_used : Z }.

(** [dev/core/service_manager/infrastructure/sm_connection_pool.c:33-40 connpool_t] [max] is
    the length of [slots]. *)
Record connpool_t := mk_connpool {
  slots : list conn_slot_t; available : Z; in_use : Z; initialized : bool
}.

Definition connpool0 : connpool_t := mk_connpool [] 0 0 false.

Definition CONN_MAX_IDLE_SECS : Z := 30.

(** [dev/core/service_manager/infrastructure/sm_connection_pool.c:75-99 connection_is_alive]
    [peer_open]: the flags could be changed and [recv] says that it would block. *)
Definition connection_is_alive (now : Z) (peer_open : Z -> bool) (s : conn_slot_t) : bool :=
  if fd s <? 0 then false
  else if CONN_MAX_IDLE_SECS <? now - last_used s then false
  else peer_open (fd s).

(** [dev/core/service_manager/infrastructure/sm_connection_pool.c:103-135 sm_connpool_init]
    [mem] and [mutex]: the allocation and the initialisation of the mutex succeed. *)
Definition sm_connpool_init (max_conns : Z) (mem mutex : bool) (p : connpool_t) : Z * connpool_t :=
  if initialized p then (0, p)
  else
    let max_conns := if max_conns <=? 0 then 10 else max_conns in
    if negb mem then (-1, p)
    else if mutex then (0, mk_connpool (replicate (Z.to_nat max_conns) (mk_slot (-1) 0)) 0 0 true)
    else (-1, mk_connpool [] 0 0 false).

(** [dev/core/service_manager/infrastructure/sm_connection_pool.c:144-161 sm_connpool_get, loop]
    the descriptor found, the slots after it, the descriptors closed. *)
Fixpoint scan (now : Z) (peer_open : Z -> bool) (l : list conn_slot_t)
    : option Z * list conn_slot_t * list Z :=
  match l with
  | [] => (None, [], [])
  | s :: l' =>
      if fd s <? 0 then
        let '(r, l'', closed) := scan now peer_open l' in (r, s :: l'', closed)
      else if connection_is_alive now peer_open s then
        (Some (fd s), mk_slot (-1) (last_used s) :: l', [])
      else
        let '(r, l'', closed) := scan now peer_open l' in
        (r, mk_slot (-1) (last_used s) :: l'', fd s :: closed)
  end.

(** [dev/core/service_manager/infrastructure/sm_connection_pool.c:141-165 sm_connpool_get, lock region]
    a pooled descriptor, or none and a place reserved for a new one. *)
Definition get_locked (now : Z) (peer_open : Z -> bool) (p : connpool_t)
    : option Z * connpool_t * list Z :=
  let '(r, l, closed) := scan now peer_open (slots p) in
  let discarded := Z.of_nat (length closed) in
  match r with
  | Some _ => (r, mk_connpool l (available p - discarded - 1) (in_use p + 1) true, closed)
  | None => (None, mk_connpool l (available p - discarded) (in_use p + 1) true, closed)
  end.

(** [dev/core/service_manager/infrastructure/sm_connection_pool.c:168-173 sm_connpool_get, no connection] *)
Definition release_place (p : connpool_t) : connpool_t :=
  mk_connpool (slots p) (available p) (in_use p - 1) (initialized p).

(** [dev/core/service_manager/infrastructure/sm_connection_pool.c:137-176 sm_connpool_get] alone;
    [connected] is the new descriptor or -1. *)
Definition sm_connpool_get (now : Z) (peer_open : Z -> bool) (connected : Z) (p : connpool_t)
    : Z * connpool_t * list Z :=
  if negb (initialized p) then (-1, p, [])
  else
    match get_locked now peer_open p with
    | (Some fd, p', closed) => (fd, p', closed)
    | (None, p', closed) =>
        if connected <? 0 then (-1, release_place p', closed) else (connected, p', closed)
    end.

(** The first empty slot is filled. *)
Fixpoint store (now f : Z) (l : list conn_slot_t) : option (list conn_slot_t) :=
  match l with
  | [] => None
  | s :: l' => if fd s <? 0 then Some (mk_slot f now :: l') else cons s <$> store now f l'
  end.

(** [dev/core/service_manager/infrastructure/sm_connection_pool.c:178-201 sm_connpool_put] *)
Definition sm_connpool_put (now f : Z) (p : connpool_t) : connpool_t * list Z :=
  if (f <? 0) || negb (initialized p) then (p, [])
  else
    match store now f (slots p) with
    | Some l => (mk_connpool l (available p + 1) (in_use p - 1) (initialized p), [])
    | None => (release_place p, [f])
    end.

(** The descriptors in a list of slots. *)
Definition fds_of (l : list conn_slot_t) : list Z := l ≫= fun s => if fd s <? 0 then [] else [fd s].
Definition pooled (p : connpool_t) : list Z := fds_of (slots p).

(** [dev/core/service_manager/infrastructure/sm_connection_pool.c:203-225 sm_connpool_cleanup] *)
Definition sm_connpool_cleanup (p : connpool_t) : connpool_t * list Z :=
  if negb (initialized p) then (p, [])
  else (mk_connpool [] (available p) (in_use p) false, pooled p).

(** [dev/core/service_manager/infrastructure/sm_connection_pool.c:227-235 sm_connpool_stats] *)
Definition sm_connpool_stats (p : connpool_t) : Z * Z := (available p, in_use p).

(** ** Clients *)

(** The pool, the open descriptors, those clients hold, and the clients about to
    connect. *)
Record pool_world := mk_world {
  pool : connpool_t; open_fds : gset Z; held : list Z; connecting : nat
}.

Definition pool_start (w : pool_world) : Prop :=
  exists n p, sm_connpool_init n true true connpool0 = (0, p) /\ w = mk_world p ∅ [] 0.

Definition close_all (closed : list Z) (o : gset Z) : gset Z := o ∖ list_to_set closed.

(** A client gets a pooled descriptor; or reserves a place, and connects or fails; or
    gives a descriptor back. *)
Inductive pool_step : pool_world -> pool_world -> Prop :=
| ps_pooled p o h n now peer_open f p' closed :
    get_locked now peer_open p = (Some f, p', closed) ->
    pool_step (mk_world p o h n) (mk_world p' (close_all closed o) (h ++ [f]) n)
| ps_reserve p o h n now peer_open p' closed :
    get_locked now peer_open p = (None, p', closed) ->
    pool_step (mk_world p o h n) (mk_world p' (close_all closed o) h (S n))
| ps_connected p o h n f :
    0 <= f -> f ∉ o ->
    pool_step (mk_world p o h (S n)) (mk_world p ({[f]} ∪ o) (h ++ [f]) n)
| ps_failed p o h n :
    pool_step (mk_world p o h (S n)) (mk_world (release_place p) o h n)
| ps_put p o h n now f i p' closed :
    h !! i = Some f -> sm_connpool_put now f p = (p', closed) ->
    pool_step (mk_world p o h n) (mk_world p' (close_all closed o) (delete i h) n).

(** Every open descriptor is in exactly one slot or held by exactly one client, and the
    counters say how many. *)
Record pool_inv (w : pool_world) : Prop := {
  po_init : initialized (pool w) = true;
  po_nodup : NoDup (pooled (pool w) ++ held w);
  po_open : open_fds w = list_to_set (pooled (pool w) ++ held w);
  po_held : Forall (fun f => 0 <= f) (held w);
  po_available : available (pool w) = Z.of_nat (length (pooled (pool w)));
  po_in_use : in_use (pool w) = Z.of_nat (length (held w) + connecting w)
}.

Lemma pool_scan_spec now peer_open l : forall r l' closed, scan now peer_open l = (r, l', closed) ->
  fds_of l ≡ₚ closed ++ option_list r ++ fds_of l' /\ length l' = length l /\
  Forall (fun f => 0 <= f) (fds_of l) /\
  (r = None -> fds_of l' = []) /\
  (forall f, r = Some f -> exists s, s ∈ l /\ fd s = f /\ connection_is_alive now peer_open s = true).
Proof.
  induction l as [|s l IH]; intros r l' closed Hs; simpl in Hs.
  - injection Hs as <- <- <-. by split_and!.
  - destruct (Z.ltb_spec (fd s) 0) as [Hn|Hn].
    + destruct (scan now peer_open l) as [[r0 l0] c0] eqn:Heq. injection Hs as <- <- <-.
      destruct (IH _ _ _ eq_refl) as (H1 & H2 & H3 & H4 & H5). unfold fds_of in *. simpl.
      rewrite (proj2 (Z.ltb_lt _ _) Hn). split_and!; [done|by rewrite H2|done|done|].
      intros f Hf. destruct (H5 f Hf) as (x & ? & ?). exists x. split; [by right|done].
    + assert (Hneg : (-1 <? 0) = true) by done.
      destruct (connection_is_alive now peer_open s) eqn:Halive.
      * injection Hs as <- <- <-. unfold fds_of in *. simpl. rewrite (proj2 (Z.ltb_ge _ _) Hn).
        split_and!; try done.
        -- constructor; [done|]. destruct (scan now peer_open l) as [[r0 l0] c0] eqn:Heq. by destruct (IH _ _ _ eq_refl) as (_ & _ & ? & _).
        -- intros f [= <-]. exists s. split; [by left|done].
      * destruct (scan now peer_open l) as [[r0 l0] c0] eqn:Heq. injection Hs as <- <- <-.
        destruct (IH _ _ _ eq_refl) as (H1 & H2 & H3 & H4 & H5). unfold fds_of in *. simpl.
        rewrite (proj2 (Z.ltb_ge _ _) Hn). split_and!; [by apply perm_skip|by rewrite H2|by constructor|done|].
        intros f Hf. destruct (H5 f Hf) as (x & ? & ?). exists x. split; [by right|done].
Qed.

Lemma store_spec now f l : 0 <= f ->
  match store now f l with
  | Some l' => fds_of l' ≡ₚ f :: fds_of l /\ length l' = length l
  | None => length (fds_of l) = length l
  end.
Proof.
  intros Hf. induction l as [|s l IH]; [done|]. simpl. destruct (Z.ltb_spec (fd s) 0) as [Hn|Hn].
  - unfold fds_of. simpl. by rewrite (proj2 (Z.ltb_ge _ _) Hf).
  - destruct (store now f l) as [l'|]; simpl; unfold fds_of in *; simpl; rewrite ?(proj2 (Z.ltb_ge _ _) Hn); simpl.
    + destruct IH as [IH Hl]. split; [|by rewrite Hl]. rewrite IH. apply perm_swap.
    + by rewrite IH.
Qed.

Lemma get_locked_spec now peer_open p r p' closed : get_locked now peer_open p = (r, p', closed) ->
  pooled p ≡ₚ closed ++ option_list r ++ pooled p' /\ length (slots p') = length (slots p) /\
  Forall (fun f => 0 <= f) (pooled p) /\ initialized p' = true /\
  available p' = available p - Z.of_nat (length closed) - Z.of_nat (length (option_list r)) /\
  in_use p' = in_use p + 1.
Proof.
  unfold get_locked. destruct (scan now peer_open (slots p)) as [[r0 l] c] eqn:Hs.
  destruct (pool_scan_spec _ _ _ _ _ _ Hs) as (H1 & H2 & H3 & _). intros Hg.
  destruct r0; injection Hg as <- <- <-; unfold pooled; simpl; split_and!; done || lia.
Qed.

(** What is closed was in the pool, and what stays open is what is left. *)
Lemma close_pooled (closed a b h : list Z) (o : gset Z) : o = list_to_set (a ++ h) -> NoDup (a ++ h) ->
  a ≡ₚ closed ++ b -> close_all closed o = list_to_set (b ++ h) /\ NoDup (b ++ h).
Proof.
  intros -> Hnd Hp. rewrite Hp in Hnd. rewrite <- app_assoc in Hnd.
  apply NoDup_app in Hnd as (_ & Hne & Hnd). split; [|done]. unfold close_all.
  assert (Ha : forall x, x ∈ a <-> x ∈ closed \/ x ∈ b) by (intros x; by rewrite Hp, elem_of_app).
  apply set_eq. intros x. rewrite elem_of_difference, !elem_of_list_to_set, !elem_of_app, Ha.
  specialize (Hne x). rewrite elem_of_app in Hne. naive_solver.
Qed.

Lemma pool_inv_step w w' : pool_inv w -> pool_step w w' -> pool_inv w'.
Proof.
  intros [H1 H2 H3 H4 H5 H6] Hstep.
  destruct Hstep as [p o h n now peer_open f p' closed Hg|p o h n now peer_open p' closed Hg|p o h n f Hf Ho
    |p o h n|p o h n now f i p' closed Hi Hput]; cbn [pool open_fds held connecting] in *.
  - destruct (get_locked_spec _ _ _ _ _ _ Hg) as (G1 & G2 & G3 & G4 & G5 & G6). simpl in G1, G5.
    destruct (close_pooled closed (pooled p) (f :: pooled p') h o H3 H2 G1) as [C1 C2].
    assert (Hperm : pooled p' ++ h ++ [f] ≡ₚ (f :: pooled p') ++ h).
    { rewrite app_assoc, Permutation_app_comm. done. }
    constructor; cbn [pool open_fds held connecting]; [done|by rewrite Hperm|by rewrite C1, Hperm| | |].
    + apply Forall_app. split; [done|]. apply Forall_singleton. rewrite Forall_forall in G3. apply G3.
      rewrite G1. set_solver.
    + apply Permutation_length in G1. rewrite length_app in G1. simpl in G1. lia.
    + rewrite length_app. simpl. lia.
  - destruct (get_locked_spec _ _ _ _ _ _ Hg) as (G1 & G2 & G3 & G4 & G5 & G6). simpl in G1, G5.
    destruct (close_pooled closed (pooled p) (pooled p') h o H3 H2 G1) as [C1 C2].
    constructor; cbn [pool open_fds held connecting]; try done; [|lia].
    apply Permutation_length in G1. rewrite length_app in G1. lia.
  - assert (Hperm : pooled p ++ h ++ [f] ≡ₚ f :: pooled p ++ h).
    { by rewrite app_assoc, Permutation_app_comm. }
    constructor; cbn [pool open_fds held connecting]; [done| | | |done|].
    + rewrite Hperm. constructor; [|done]. rewrite H3, elem_of_list_to_set in Ho. done.
    + by rewrite Hperm, H3.
    + apply Forall_app. split; [done|by apply Forall_singleton].
    + rewrite length_app. simpl. lia.
  - constructor; cbn [pool open_fds held connecting release_place in_use]; try done. lia.
  - assert (Hf : 0 <= f) by exact (Forall_lookup_1 _ _ _ _ H4 Hi).
    assert (Hh : h ≡ₚ f :: delete i h) by (by apply delete_Permutation).
    assert (Hlen : length h = S (length (delete i h))) by (by rewrite Hh at 1).
    unfold sm_connpool_put in Hput. rewrite (proj2 (Z.ltb_ge _ _) Hf), H1 in Hput. cbn [negb orb] in Hput.
    pose proof (store_spec now f (slots p) Hf) as Hst.
    destruct (store now f (slots p)) as [l|]; injection Hput as <- <-.
    + destruct Hst as [Hst _]. assert (Hperm : fds_of l ++ delete i h ≡ₚ pooled p ++ h).
      { rewrite Hst. etrans; [|apply Permutation_app; [reflexivity|symmetry; exact Hh]]. apply Permutation_middle. }
      constructor; unfold pooled; cbn [pool open_fds held connecting slots available in_use initialized];
        [done|by rewrite Hperm| |by apply Forall_delete| |lia].
      * unfold close_all. rewrite Hperm, H3. simpl. apply difference_empty_L.
      * rewrite Hst, H5. simpl. unfold pooled. lia.
    + assert (Hperm : pooled p ++ h ≡ₚ [f] ++ (pooled p ++ delete i h)).
      { etrans; [apply Permutation_app; [reflexivity|exact Hh]|]. simpl. symmetry. apply Permutation_middle. }
      rewrite Hperm in H2. apply NoDup_cons in H2 as [H2 H2'].
      constructor; unfold pooled in *; cbn [pool open_fds held connecting slots available in_use initialized release_place];
        [done|done| |by apply Forall_delete|done|lia].
      unfold close_all. rewrite H3, Hperm. simpl. set_solver.
Qed.

Lemma pool_inv_reachable w : reachable pool_start pool_step w -> pool_inv w.
Proof.
  apply reachable_invariant; [|intros; by eapply pool_inv_step].
  intros ? (n & p & Hp & ->). unfold sm_connpool_init in Hp. cbn [initialized connpool0 negb] in Hp.
  injection Hp as <-. set (m := Z.to_nat _). clearbody m.
  assert (Hm : fds_of (replicate m (mk_slot (-1) 0)) = []) by (induction m; [done|by simpl]).
  constructor; unfold pooled; cbn [pool open_fds held connecting slots available in_use initialized];
    rewrite ?Hm; try done. constructor.
Qed.

(** C26: However clients get, use and give back connections: every open descriptor is in
    exactly one slot or held by exactly one client, none is leaked or held twice, the
    counters are the numbers of pooled and of held or reserved connections, and a pooled
    descriptor is handed out only if it was used in the last thirty seconds and its peer
    has neither closed nor sent anything; one taken out is no longer in the pool. *)
Theorem connections_owned_once w : reachable pool_start pool_step w ->
  NoDup (pooled (pool w) ++ held w) /\ open_fds w = list_to_set (pooled (pool w) ++ held w) /\
  sm_connpool_stats (pool w) =
    (Z.of_nat (length (pooled (pool w))), Z.of_nat (length (held w) + connecting w)) /\
  (forall now peer_open f p' closed, get_locked now peer_open (pool w) = (Some f, p', closed) ->
     f ∉ pooled p' /\ f ∉ held w /\ peer_open f = true /\
     exists s, s ∈ slots (pool w) /\ fd s = f /\ now - last_used s <= CONN_MAX_IDLE_SECS).
Proof.
  intros Hr. destruct (pool_inv_reachable w Hr) as [_ Hnd Ho _ Ha Hu].
  split_and!; [done|done|by unfold sm_connpool_stats; rewrite Ha, Hu|].
  intros now peer_open f p' closed Hg. destruct (get_locked_spec _ _ _ _ _ _ Hg) as (Hp & _). simpl in Hp.
  rewrite Hp, <- app_assoc in Hnd. apply NoDup_app in Hnd as (_ & _ & Hnd). simpl in Hnd.
  apply NoDup_cons in Hnd as [Hf _]. rewrite elem_of_app in Hf.
  unfold get_locked in Hg. destruct (scan now peer_open (slots (pool w))) as [[r l] c] eqn:Hs.
  destruct r as [f'|]; [|done]. injection Hg as -> _ _.
  destruct (pool_scan_spec _ _ _ _ _ _ Hs) as (_ & _ & _ & _ & Hal).
  destruct (Hal f eq_refl) as (s & Hin & <- & Hs'). unfold connection_is_alive in Hs'.
  destruct (Z.ltb_spec (fd s) 0); [done|]. destruct (Z.ltb_spec CONN_MAX_IDLE_SECS (now - last_used s)); [done|].
  split_and!; [tauto|tauto|done|]. by exists s.
Qed.

(** After the clean-up a descriptor given back is neither pooled nor closed. *)
Lemma put_after_cleanup_leaks now f p : initialized p = true ->
  sm_connpool_put now f (sm_connpool_cleanup p).1 = ((sm_connpool_cleanup p).1, []).
Proof. intros Hi. unfold sm_connpool_cleanup. rewrite Hi. cbn. unfold sm_connpool_put. cbn. by rewrite orb_true_r. Qed.

(** A connection that outlives a clean-up and a new start makes the number in use
    negative when it is given back. *)
Lemma in_use_negative :
  let p := (sm_connpool_init 2 true true connpool0).2 in
  let p := (sm_connpool_get 0 (fun _ => true) 7 p).1.2 in
  let p := (sm_connpool_init 2 true true (sm_connpool_cleanup p).1).2 in
  (sm_connpool_stats (sm_connpool_put 1 7 p).1).2 = -1.
Proof. reflexivity. Qed.

(** ** On concrete inputs *)

(** A client connects, gives the connection back and takes it out again. *)
Lemma connections_owned_once_witness :
  let p := mk_connpool [mk_slot (-1) 5] 0 1 true in
  reachable pool_start pool_step (mk_world p {[9]} [9] 0) /\ NoDup (pooled p ++ [9]) /\ sm_connpool_stats p = (0, 1).
Proof.
  intros p. assert (Hr : reachable pool_start pool_step (mk_world p {[9]} [9] 0)).
  { exists (mk_world (sm_connpool_init 1 true true connpool0).2 ∅ [] 0). split.
    { exists 1, (sm_connpool_init 1 true true connpool0).2. split; reflexivity. }
    eapply rtc_l; [eapply (ps_reserve _ _ _ _ 0 (fun _ => true)); reflexivity|].
    eapply rtc_l; [eapply (ps_connected _ _ _ _ 9); [discriminate|apply (bool_decide_unpack _); vm_compute; exact I]|].
    eapply rtc_l; [eapply (ps_put _ _ _ _ 5 9 0 _ []); reflexivity|].
    eapply rtc_l; [eapply (ps_pooled _ _ _ _ 8 (fun _ => true) 9); reflexivity|].
    replace (close_all [] (close_all [] ({[9]} ∪ close_all [] ∅))) with ({[9]} : gset Z) by (vm_compute; reflexivity).
    reflexivity. }
  destruct (connections_owned_once _ Hr) as (H1 & _ & H3 & _). split; [exact Hr|]. split; [exact H1|exact H3].
Defined.
