(* ===== verification/Capabilities.v ===== *)
(** * Dropping privileges

    security/capabilities/capabilities_core.c and capabilities_policy.c.  The kernel is a
    parameter: the class [Kernel] has its calls, [KernelLaws] what setuid(2),
    setgroups(2), prctl(2), capset(2) and capabilities(7) say of their effect on the
    credentials of the process.  The audit log is output and left out. *)

From S2P Require Import Prelude.

(** ** The kernel *)

(** Credentials: real, effective and saved user and group, supplementary groups, the sets
    of capabilities as masks, and the two flags of prctl(2) used here. *)
Record creds := mk_creds {
  cr_uid : Z * Z * Z; cr_gid : Z * Z * Z; cr_groups : list Z;
  cr_effective : Z; cr_permitted : Z; cr_inheritable : Z; cr_bounding : Z;
  cr_keepcaps : bool; cr_no_new_privs : bool
}.

Definition CAP_SETGID_NUM : Z := 6.
Definition CAP_SETPCAP_NUM : Z := 8.

(** [dev/security/capabilities/capabilities_core.c:30-36 CAP_KILL_NUM] *)
Definition CAP_KILL_NUM : Z := 5.
Definition CAP_SETUID_NUM : Z := 7.
Definition CAP_NET_BIND_NUM : Z := 10.
Definition CAP_NET_RAW_NUM : Z := 13.
Definition CAP_SYS_RAWIO_NUM : Z := 17.
Definition CAP_SYS_ADMIN_NUM : Z := 21.
Definition CAP_LAST_CAP_NUM : Z := 40.

Class Kernel (K : Type) := {
  k_creds : K -> creds;
  k_last_cap : Z;
  k_setgroups : list Z -> K -> Z * K;
  k_setgid : Z -> K -> Z * K;
  k_setuid : Z -> K -> Z * K;
  k_no_new_privs : K -> Z * K;
  k_keepcaps : bool -> K -> Z * K;
  k_capbset_drop : Z -> K -> Z * K;
  k_capset : Z -> Z -> Z -> K -> Z * K;   (** effective, permitted, inheritable *)
  k_ambient_clear : K -> Z * K;
  k_ambient_raise : Z -> K -> Z * K
}.

Definition ruid (c : creds) : Z := c.(cr_uid).1.1.
Definition has_cap (n : Z) (c : creds) : bool := Z.testbit (cr_effective c) n.
Definition subset (a b : Z) : bool := Z.ldiff a b =? 0.

(** A change of the user ids and what it does to the capabilities (capabilities(7),
    "Effect of user ID changes on capabilities"). *)
Definition change_uids (ids : Z * Z * Z) (c : creds) : creds :=
  let zero '(r, e, s) := (r =? 0) || (e =? 0) || (s =? 0) in
  let perm := if zero (cr_uid c) && negb (zero ids) && negb (cr_keepcaps c) then 0 else cr_permitted c in
  let eff := if (c.(cr_uid).1.2 =? 0) && negb (ids.1.2 =? 0) then 0
             else if negb (c.(cr_uid).1.2 =? 0) && (ids.1.2 =? 0) then perm
             else Z.land (cr_effective c) perm in
  mk_creds ids (cr_gid c) (cr_groups c) eff perm (cr_inheritable c) (cr_bounding c) (cr_keepcaps c)
    (cr_no_new_privs c).

(** The four rules of capset(2). *)
Definition capset_ok (e p i : Z) (c : creds) : bool :=
  (has_cap CAP_SETPCAP_NUM c || subset i (Z.lor (cr_inheritable c) (cr_permitted c))) &&
  subset i (Z.lor (cr_inheritable c) (cr_bounding c)) && subset p (cr_permitted c) && subset e p.

Class KernelLaws (K : Type) {L : Kernel K} := {
  law_setgroups : forall g k, let c := k_creds k in
    has_cap CAP_SETGID_NUM c = true ->
    (k_setgroups g k).1 = 0 /\
    k_creds (k_setgroups g k).2 = mk_creds (cr_uid c) (cr_gid c) g (cr_effective c) (cr_permitted c)
      (cr_inheritable c) (cr_bounding c) (cr_keepcaps c) (cr_no_new_privs c);
  law_setgid : forall g k, let c := k_creds k in
    has_cap CAP_SETGID_NUM c = true ->
    (k_setgid g k).1 = 0 /\
    k_creds (k_setgid g k).2 = mk_creds (cr_uid c) (g, g, g) (cr_groups c) (cr_effective c)
      (cr_permitted c) (cr_inheritable c) (cr_bounding c) (cr_keepcaps c) (cr_no_new_privs c);
  (** Without the capability groups are at most exchanged; the rest stays. *)
  law_groups_frame : forall gs g k,
    let same c c' := cr_uid c' = cr_uid c /\ cr_effective c' = cr_effective c /\
      cr_permitted c' = cr_permitted c in
    same (k_creds k) (k_creds (k_setgroups gs k).2) /\ same (k_creds k) (k_creds (k_setgid g k).2);
  law_setuid : forall u k, let c := k_creds k in
    has_cap CAP_SETUID_NUM c = true ->
    (k_setuid u k).1 = 0 /\ k_creds (k_setuid u k).2 = change_uids (u, u, u) c;
  law_setuid_user : forall u k, let c := k_creds k in
    has_cap CAP_SETUID_NUM c = false ->
    let '(r, _, s) := cr_uid c in
    if (u =? r) || (u =? s)
    then (k_setuid u k).1 = 0 /\ k_creds (k_setuid u k).2 = change_uids (r, u, s) c
    else (k_setuid u k).1 = -1 /\ k_creds (k_setuid u k).2 = c;
  law_no_new_privs : forall k, let c := k_creds k in
    (k_no_new_privs k).1 = 0 /\
    k_creds (k_no_new_privs k).2 = mk_creds (cr_uid c) (cr_gid c) (cr_groups c) (cr_effective c)
      (cr_permitted c) (cr_inheritable c) (cr_bounding c) (cr_keepcaps c) true;
  law_keepcaps : forall b k, let c := k_creds k in
    (k_keepcaps b k).1 = 0 /\
    k_creds (k_keepcaps b k).2 = mk_creds (cr_uid c) (cr_gid c) (cr_groups c) (cr_effective c)
      (cr_permitted c) (cr_inheritable c) (cr_bounding c) b (cr_no_new_privs c);
  law_capbset_drop : forall n k, let c := k_creds k in
    k_creds (k_capbset_drop n k).2 =
    if has_cap CAP_SETPCAP_NUM c && (n <=? k_last_cap)
    then mk_creds (cr_uid c) (cr_gid c) (cr_groups c) (cr_effective c) (cr_permitted c)
           (cr_inheritable c) (Z.clearbit (cr_bounding c) n) (cr_keepcaps c) (cr_no_new_privs c)
    else c;
  law_capset : forall e p i k, let c := k_creds k in
    if capset_ok e p i c
    then (k_capset e p i k).1 = 0 /\
         k_creds (k_capset e p i k).2 = mk_creds (cr_uid c) (cr_gid c) (cr_groups c) e p i
           (cr_bounding c) (cr_keepcaps c) (cr_no_new_privs c)
    else (k_capset e p i k).1 = -1 /\ k_creds (k_capset e p i k).2 = c
}.

(** ** Configurations and policies *)

(** [dev/security/capabilities/capabilities.h:6-14 cap_flags_t] *)
Definition MCAP_NONE : Z := 0.
Definition MCAP_SYS_RAWIO : Z := 1.
Definition MCAP_NET_BIND : Z := 2.
Definition MCAP_SYS_ADMIN : Z := 4.
Definition MCAP_SETUID : Z := 8.
Definition MCAP_KILL : Z := 16.
Definition MCAP_NET_RAW : Z := 32.

(** [dev/security/capabilities/capabilities.h:16-28 capabilities_config_t] *)
Record capabilities_config_t := mk_capcfg {
  effective : Z; permitted : Z; inheritable : Z; bounding : Z; enable_auditing : bool;
  target_uid : Z; target_gid : Z; supplementary_gids : list Z
}.

(** [dev/security/capabilities/capabilities.h:30-36 service_capabilities_t] *)
Record service_capabilities_t := mk_policy {
  service_name : string; required_caps : Z; optional_caps : Z;
  recommended_uid : Z; recommended_gid : Z
}.

(** [dev/security/capabilities/capabilities_policy.c:11-48 builtin_policies] *)
Definition builtin_policies : list service_capabilities_t :=
  [mk_policy "audio" MCAP_SYS_RAWIO MCAP_NONE 1001 1001;
   mk_policy "camera" MCAP_SYS_RAWIO MCAP_NONE 1002 1002;
   mk_policy "sensor" MCAP_NONE MCAP_SYS_RAWIO 1003 1003;
   mk_policy "network" (Z.lor MCAP_NET_BIND MCAP_NET_RAW) MCAP_SYS_ADMIN 1004 1004;
   mk_policy "gpio" MCAP_SYS_RAWIO MCAP_NONE 1005 1005].

Definition MAX_DYNAMIC_POLICIES : nat := 32.
#[global] Arguments MAX_DYNAMIC_POLICIES : simpl never.

Definition named (nm : string) (p : service_capabilities_t) : bool := String.eqb (service_name p) nm.

(** [dev/security/capabilities/capabilities_policy.c:55-76 capabilities_policy_lookup] *)
Definition capabilities_policy_lookup (dynamic : list service_capabilities_t) (nm : string)
    : option service_capabilities_t :=
  match List.find (named nm) builtin_policies with
  | Some p => Some p
  | None => List.find (named nm) dynamic
  end.

(** [dev/security/capabilities/capabilities_policy.c:201-232 capabilities_policy_register] *)
Definition capabilities_policy_register (policy : service_capabilities_t)
    (dynamic : list service_capabilities_t) : Z * list service_capabilities_t :=
  if Nat.leb MAX_DYNAMIC_POLICIES (length dynamic) then (-1, dynamic)
  else if existsb (named (service_name policy)) dynamic then (-1, dynamic)
  else (0, dynamic ++ [policy]).

(** [dev/security/capabilities/capabilities_policy.c:102-117 capabilities_policy_get_config, groups]
    names and fallback ids. *)
Definition hw_groups (nm : string) : list (string * Z) :=
  if String.eqb nm "audio" then [("audio", 29); ("render", 992)]
  else if String.eqb nm "camera" then [("video", 44); ("render", 992)]
  else if String.eqb nm "gpio" then [("gpio", 0); ("dialout", 20)]
  else if String.eqb nm "sensor" then [("plugdev", 46)] else [].

Section policy.
Variable getgrnam : string -> option Z.

(** [dev/security/capabilities/capabilities_policy.c:120-143 capabilities_policy_get_config, group ids] *)
Definition add_group (gids : list Z) (g : string * Z) : list Z :=
  let found := match getgrnam g.1 with
               | Some gid => Some gid
               | None => if negb (g.2 =? 0) then Some g.2 else None
               end in
  match found with
  | Some gid => if Nat.ltb (length gids) 8 then gids ++ [gid] else gids
  | None => gids
  end.

(** [dev/security/capabilities/capabilities_policy.c:150-171 capabilities_policy_get_config, IPC group] *)
Definition add_sm_group (gids : list Z) : list Z :=
  let sm_gid := default 1001 (getgrnam "servicemanager") in
  if existsb (Z.eqb sm_gid) gids then gids
  else if Nat.ltb (length gids) 8 then gids ++ [sm_gid] else gids.

(** [dev/security/capabilities/capabilities_policy.c:78-187 capabilities_policy_get_config] *)
Definition capabilities_policy_get_config (dynamic : list service_capabilities_t) (nm : string)
    : capabilities_config_t :=
  match capabilities_policy_lookup dynamic nm with
  | Some p =>
      let all := Z.lor (required_caps p) (optional_caps p) in
      mk_capcfg (required_caps p) all MCAP_NONE all true (recommended_uid p) (recommended_gid p)
        (add_sm_group (fold_left add_group (hw_groups nm) []))
  | None => mk_capcfg MCAP_NONE MCAP_NONE MCAP_NONE MCAP_NONE true 65534 65534 []
  end.
End policy.

(** ** Applying a configuration *)

(** [dev/security/capabilities/capabilities_core.c:42-61 capabilities_core_name] *)
Definition capabilities_core_name (cap : Z) : string :=
  if cap =? MCAP_SYS_RAWIO then "SYS_RAWIO"
  else if cap =? MCAP_NET_BIND then "NET_BIND_SERVICE"
  else if cap =? MCAP_SYS_ADMIN then "SYS_ADMIN"
  else if cap =? MCAP_SETUID then "SETUID"
  else if cap =? MCAP_KILL then "KILL"
  else if cap =? MCAP_NET_RAW then "NET_RAW"
  else if cap =? MCAP_NONE then "NONE" else "UNKNOWN".

(** [dev/security/capabilities/capabilities_core.c:63-78 flags_to_bits] *)
Definition flags_to_bits (flags : Z) : Z :=
  let add flag num bits := if Z.land flags flag =? 0 then bits else Z.lor bits (Z.shiftl 1 num) in
  add MCAP_NET_RAW CAP_NET_RAW_NUM
    (add MCAP_KILL CAP_KILL_NUM
      (add MCAP_SETUID CAP_SETUID_NUM
        (add MCAP_SYS_ADMIN CAP_SYS_ADMIN_NUM
          (add MCAP_NET_BIND CAP_NET_BIND_NUM
            (add MCAP_SYS_RAWIO CAP_SYS_RAWIO_NUM 0))))).

(** [if (call < 0) return -1;] and on with the rest. *)
#[local] Notation "'try!' k ':=' e 'in' b" := (let '(rc, k) := e in if rc <? 0 then (-1, k) else b)
  (at level 200, k name, e at level 99, b at level 200).

Section core.
Context {K : Type} `{Kernel K}.

(** [dev/security/capabilities/capabilities_core.c:80-108 set_caps_full] *)
Definition set_caps_full (config : capabilities_config_t) (k : K) : Z * K :=
  try! k := k_capset (flags_to_bits (effective config)) (flags_to_bits (permitted config))
              (flags_to_bits (inheritable config)) k in (0, k).

(** [dev/security/capabilities/capabilities_core.c:110-129 set_capability_bounding_set] a failed
    drop is at most reported. *)
Definition set_capability_bounding_set (bounding : Z) (k : K) : Z * K :=
  let bounding_bits := flags_to_bits bounding in
  (0, fold_left (fun k cap =>
        let cap_bit := Z.shiftl 1 (cap mod 32) in
        let word := if cap <? 32 then bounding_bits else 0 in
        if Z.land word cap_bit =? 0 then (k_capbset_drop cap k).2 else k)
      (seqZ 0 (CAP_LAST_CAP_NUM + 1)) k).

(** [dev/security/capabilities/capabilities_core.c:131-147 capabilities_core_check] the
    effective set as capget(2) gives it. *)
Definition capabilities_core_check (cap : Z) (k : K) : bool :=
  let check_bits := flags_to_bits cap in
  Z.land (cr_effective (k_creds k)) check_bits =? check_bits.

(** [dev/security/capabilities/capabilities_core.c:175-223 capabilities_core_apply_config, user] *)
Definition change_user (config : capabilities_config_t) (k : K) : Z * K :=
  try! k := (if Nat.ltb 0 (length (supplementary_gids config))
             then k_setgroups (supplementary_gids config) k else k_setgroups [] k) in
  try! k := k_setgid (target_gid config) k in
  try! k := k_keepcaps true k in
  try! k := k_setuid (target_uid config) k in
  let k := (k_keepcaps false k).2 in
  let '(rc, k) := k_setuid 0 k in
  if rc =? 0 then (-1, k) else (0, k).

(** [dev/security/capabilities/capabilities_core.c:149-248 capabilities_core_apply_config] *)
Definition capabilities_core_apply_config (config : option capabilities_config_t) (k : K) : Z * K :=
  match config with
  | None => (-1, k)
  | Some config =>
      try! k := set_capability_bounding_set (bounding config) k in
      try! k := k_no_new_privs k in
      try! k := (if (0 <? target_uid config) && (0 <? target_gid config)
                 then if ruid (k_creds k) =? 0 then change_user config k else (0, k)
                 else (0, k)) in
      try! k := set_caps_full config k in
      (0, k)
  end.

(** [dev/security/capabilities/capabilities_core.c:250-272 set_caps_legacy] *)
Definition set_caps_legacy (keep_bits : Z) (k : K) : Z * K :=
  try! k := k_capset keep_bits keep_bits 0 k in (0, k).

(** [dev/security/capabilities/capabilities_core.c:274-317 capabilities_core_drop_except] *)
Definition capabilities_core_drop_except (keep_flags : Z) (k : K) : Z * K :=
  try! k := k_no_new_privs k in
  try! k := (if ruid (k_creds k) =? 0
             then try! k := k_setgroups [] k in
                  try! k := k_setgid 1000 k in
                  try! k := k_setuid 1000 k in
                  let '(rc, k) := k_setuid 0 k in if rc =? 0 then (-1, k) else (0, k)
             else (0, k)) in
  try! k := set_caps_legacy (flags_to_bits keep_flags) k in
  (0, k).

(** [dev/security/capabilities/capabilities_core.c:321-323 capabilities_core_drop_all] *)
Definition capabilities_core_drop_all (k : K) : Z * K := capabilities_core_drop_except MCAP_NONE k.

(** [dev/security/capabilities/capabilities_core.c:333-362 capabilities_core_set_ambient] *)
Definition capabilities_core_set_ambient (caps : Z) (k : K) : Z * K :=
  let k := (k_ambient_clear k).2 in
  fold_left (fun s '(flag, cap_num) =>
      try! k := s in
      if Z.land caps flag =? 0 then (0, k) else try! k := k_ambient_raise cap_num k in (0, k))
    [(MCAP_SYS_RAWIO, CAP_SYS_RAWIO_NUM); (MCAP_NET_BIND, CAP_NET_BIND_NUM);
     (MCAP_SYS_ADMIN, CAP_SYS_ADMIN_NUM); (MCAP_SETUID, CAP_SETUID_NUM); (MCAP_KILL, CAP_KILL_NUM);
     (MCAP_NET_RAW, CAP_NET_RAW_NUM)] (0, k).
End core.

(** ** Masks *)

Lemma subset_spec a b : subset a b = true <-> forall n, 0 <= n -> Z.testbit a n = true -> Z.testbit b n = true.
Proof.
  unfold subset. rewrite Z.eqb_eq. split.
  - intros Hd n Hn Ha. destruct (Z.testbit b n) eqn:Hb; [done|].
    assert (Hl : Z.testbit (Z.ldiff a b) n = true) by (by rewrite Z.ldiff_spec, Ha, Hb).
    by rewrite Hd, Z.bits_0 in Hl.
  - intros Hs. apply Z.bits_inj'. intros n Hn. rewrite Z.bits_0, Z.ldiff_spec.
    destruct (Z.testbit a n) eqn:Ha; [|done]. by rewrite (Hs n Hn Ha).
Qed.

Lemma subset_refl a : subset a a = true.
Proof. by apply subset_spec. Qed.

Lemma subset_trans a b c : subset a b = true -> subset b c = true -> subset a c = true.
Proof. rewrite !subset_spec. intros H1 H2 n Hn Ha. by apply H2, H1. Qed.

Lemma subset_0 b : subset 0 b = true.
Proof. apply subset_spec. intros n _ Hn. by rewrite Z.bits_0 in Hn. Qed.

Lemma land_bit w n : 0 <= n -> (Z.land w (Z.shiftl 1 n) =? 0) = negb (Z.testbit w n).
Proof.
  intros Hn. destruct (Z.testbit w n) eqn:Hb; simpl.
  - apply Z.eqb_neq. intros Hz. assert (Ht : Z.testbit (Z.land w (Z.shiftl 1 n)) n = true).
    { rewrite Z.land_spec, Hb, Z.shiftl_spec, Z.sub_diag by lia. done. }
    by rewrite Hz, Z.bits_0 in Ht.
  - apply Z.eqb_eq, Z.bits_inj'. intros m Hm. rewrite Z.bits_0, Z.land_spec, Z.shiftl_spec by lia.
    destruct (decide (m = n)) as [->|Hne]; [by rewrite Hb|].
    destruct (Z.testbit 1 (m - n)) eqn:H1; [|by rewrite andb_false_r].
    destruct (Z_lt_le_dec (m - n) 0); [by rewrite Z.testbit_neg_r in H1|].
    rewrite Z.bits_above_log2 in H1; [done|lia|simpl; lia].
Qed.

(** All the flags a configuration can name. *)
Definition MCAP_ALL : Z := 63.

Lemma flags_to_bits_all f : subset (flags_to_bits f) (flags_to_bits MCAP_ALL) = true.
Proof. unfold flags_to_bits. by repeat case_match. Qed.

Lemma flags_to_bits_setuid f : Z.testbit (flags_to_bits f) CAP_SETUID_NUM = negb (Z.land f MCAP_SETUID =? 0).
Proof. unfold flags_to_bits. destruct (Z.land f MCAP_SETUID =? 0); by repeat case_match. Qed.

(** ** What is left of root *)

Definition with_bounding (b : Z) (c : creds) : creds :=
  mk_creds (cr_uid c) (cr_gid c) (cr_groups c) (cr_effective c) (cr_permitted c) (cr_inheritable c) b
    (cr_keepcaps c) (cr_no_new_privs c).

(** Root, as a service starts: every user id 0, the capabilities to change ids and sets
    effective, and every capability that a configuration can name permitted. *)
Record is_root (c : creds) : Prop := {
  ir_uid : cr_uid c = (0, 0, 0);
  ir_setuid : has_cap CAP_SETUID_NUM c = true;
  ir_setgid : has_cap CAP_SETGID_NUM c = true;
  ir_setpcap : has_cap CAP_SETPCAP_NUM c = true;
  ir_permitted : subset (flags_to_bits MCAP_ALL) (cr_permitted c) = true
}.

Section laws.
Context {K : Type} `{KernelLaws K}.

Lemma bounding_frame bnd (k : K) : has_cap CAP_SETPCAP_NUM (k_creds k) = true ->
  exists b, k_creds (set_capability_bounding_set bnd k).2 = with_bounding b (k_creds k) /\
    forall n, 0 <= n <= CAP_LAST_CAP_NUM -> n <= k_last_cap -> Z.testbit b n = true ->
      Z.testbit (flags_to_bits bnd) n = true /\ n < 32.
Proof.
  intros Hp. unfold set_capability_bounding_set. cbv zeta. cbn [snd].
  set (f := fun (k : K) cap => _).
  enough (Hgo : forall l k0 b0, k_creds k0 = with_bounding b0 (k_creds k) -> Forall (fun n => 0 <= n) l ->
    exists b, k_creds (fold_left f l k0) = with_bounding b (k_creds k) /\
      (forall n, 0 <= n -> Z.testbit b n = true -> Z.testbit b0 n = true) /\
      (forall n, n ∈ l -> n <= k_last_cap -> Z.testbit b n = true -> Z.testbit (flags_to_bits bnd) n = true /\ n < 32)).
  { destruct (Hgo (seqZ 0 (CAP_LAST_CAP_NUM + 1)) k (cr_bounding (k_creds k))) as (b & Hb & _ & Hn).
    - by destruct (k_creds k).
    - apply Forall_forall. intros n. rewrite elem_of_seqZ. lia.
    - exists b. split; [done|]. intros n Hn1 Hn2. apply Hn; [|done]. apply elem_of_seqZ. lia. }
  induction l as [|n l IH]; intros k0 b0 Hk0 Hl.
  { exists b0. split_and!; [done|done|]. intros n Hn. by apply not_elem_of_nil in Hn. }
  apply Forall_cons in Hl as [Hn0 Hl]. cbn [fold_left].
  set (keep := if n <? 32 then Z.testbit (flags_to_bits bnd) n else false).
  assert (Hf : f k0 n = if keep then k0 else (k_capbset_drop n k0).2).
  { unfold f, keep. destruct (Z.ltb_spec n 32).
    - rewrite Z.mod_small, land_bit by lia. by destruct (Z.testbit _ n).
    - by rewrite Z.land_0_l. }
  rewrite Hf. destruct keep eqn:Hkeep.
  - destruct (IH k0 b0 Hk0 Hl) as (b & Hb & Hle & Hin). exists b. split_and!; [done|done|].
    intros m [->|Hm]%elem_of_cons ? ?; [|by apply Hin]. unfold keep in Hkeep. by destruct (Z.ltb_spec n 32).
  - pose proof (law_capbset_drop n k0) as Hd. cbv zeta in Hd. rewrite Hk0 in Hd.
    change (has_cap CAP_SETPCAP_NUM (with_bounding b0 (k_creds k))) with (has_cap CAP_SETPCAP_NUM (k_creds k)) in Hd.
    rewrite Hp in Hd. cbn [andb] in Hd. destruct (Z.leb_spec n k_last_cap) as [Hle|Hgt].
    + destruct (IH _ (Z.clearbit b0 n) Hd Hl) as (b & Hb & Hsub & Hin). exists b. split_and!; [done| |].
      * intros m Hm Hbm. apply Hsub in Hbm; [|done]. rewrite Z.clearbit_eqb in Hbm.
        by apply andb_true_iff in Hbm as [? _].
      * intros m [->|Hm]%elem_of_cons Hml Hbm; [|by apply Hin].
        apply Hsub in Hbm; [|done]. by rewrite Z.clearbit_eq in Hbm.
    + destruct (IH _ b0 Hd Hl) as (b & Hb & Hsub & Hin). exists b. split_and!; [done|done|].
      intros m [->|Hm]%elem_of_cons Hml Hbm; [lia|by apply Hin].
Qed.

Lemma bounding_rc bnd (k : K) : (set_capability_bounding_set bnd k).1 = 0.
Proof. reflexivity. Qed.

(** The user change of a process that is root. *)
Lemma change_user_spec cfg (k : K) c : k_creds k = c -> cr_uid c = (0, 0, 0) ->
  has_cap CAP_SETUID_NUM c = true -> has_cap CAP_SETGID_NUM c = true ->
  0 < target_uid cfg ->
  exists k', change_user cfg k = (0, k') /\
    k_creds k' = mk_creds (target_uid cfg, target_uid cfg, target_uid cfg)
      (target_gid cfg, target_gid cfg, target_gid cfg) (supplementary_gids cfg) 0 (cr_permitted c)
      (cr_inheritable c) (cr_bounding c) false (cr_no_new_privs c).
Proof.
  intros Hk Hu Hsu Hsg Ht. subst c. unfold change_user.
  replace (if Nat.ltb 0 (length (supplementary_gids cfg)) then k_setgroups (supplementary_gids cfg) k else k_setgroups [] k)
    with (k_setgroups (supplementary_gids cfg) k) by (by destruct (supplementary_gids cfg)).
  destruct (law_setgroups (supplementary_gids cfg) k Hsg) as [R1 C1].
  destruct (k_setgroups _ k) as [rc1 k1]. cbn [fst snd] in *. rewrite R1. cbn [Z.ltb].
  destruct (law_setgid (target_gid cfg) k1) as [R2 C2]; [by rewrite C1|].
  destruct (k_setgid _ k1) as [rc2 k2]. cbn [fst snd] in *. rewrite R2. rewrite C1 in C2. cbn in C2.
  destruct (law_keepcaps true k2) as [R3 C3].
  destruct (k_keepcaps true k2) as [rc3 k3]. cbn [fst snd] in *. rewrite R3. rewrite C2 in C3. cbn in C3.
  destruct (law_setuid (target_uid cfg) k3) as [R4 C4]; [by rewrite C3|].
  destruct (k_setuid _ k3) as [rc4 k4]. cbn [fst snd] in *. rewrite R4. rewrite C3 in C4.
  unfold change_uids in C4. cbn in C4. rewrite Hu in C4. cbn in C4.
  rewrite (proj2 (Z.eqb_neq _ _)) in C4 by lia. cbn in C4.
  destruct (law_keepcaps false k4) as [R5 C5].
  destruct (k_keepcaps false k4) as [rc5 k5]. cbn [fst snd] in *. rewrite C4 in C5. cbn in C5.
  pose proof (law_setuid_user 0 k5) as L6. cbv zeta in L6. rewrite C5 in L6.
  specialize (L6 (Z.bits_0 _)). cbn [cr_uid] in L6.
  rewrite (proj2 (Z.eqb_neq 0 (target_uid cfg))) in L6 by lia. cbn [orb] in L6. destruct L6 as [R6 C6].
  destruct (k_setuid 0 k5) as [rc6 k6]. cbn [fst snd] in *. rewrite R6. cbn. by exists k6.
Qed.

(** The credentials of a process that has dropped its privileges for good. *)
Definition dropped (uid perm : Z) (c : creds) : Prop :=
  cr_uid c = (uid, uid, uid) /\ subset (cr_permitted c) perm = true /\
  subset (cr_effective c) (cr_permitted c) = true.

(** What the process may still ask of the kernel. *)
Inductive call_step (k : K) : K -> Prop :=
| cs_setgroups g : call_step k (k_setgroups g k).2
| cs_setgid g : call_step k (k_setgid g k).2
| cs_setuid u : call_step k (k_setuid u k).2
| cs_no_new_privs : call_step k (k_no_new_privs k).2
| cs_keepcaps b : call_step k (k_keepcaps b k).2
| cs_capbset_drop n : call_step k (k_capbset_drop n k).2
| cs_capset e p i : call_step k (k_capset e p i k).2.

Lemma dropped_step uid perm (k k' : K) : uid <> 0 -> Z.testbit perm CAP_SETUID_NUM = false ->
  dropped uid perm (k_creds k) -> call_step k k' -> dropped uid perm (k_creds k').
Proof.
  intros Hu Hp (D1 & D2 & D3) Hs.
  assert (Hno : has_cap CAP_SETUID_NUM (k_creds k) = false).
  { unfold has_cap. destruct (Z.testbit (cr_effective (k_creds k)) CAP_SETUID_NUM) eqn:Hb; [|done].
    pose proof (proj1 (subset_spec _ _) (subset_trans _ _ _ D3 D2) CAP_SETUID_NUM ltac:(done) Hb). congruence. }
  destruct Hs as [g|g|u| |b|n|e p i].
  - destruct (law_groups_frame g 0 k) as [(F1 & F2 & F3) _]. unfold dropped. by rewrite F1, F2, F3.
  - destruct (law_groups_frame [] g k) as [_ (F1 & F2 & F3)]. unfold dropped. by rewrite F1, F2, F3.
  - pose proof (law_setuid_user u k Hno) as HL. rewrite D1 in HL.
    destruct (Z.eqb_spec u uid) as [->|Hne]; cbn [orb] in HL; destruct HL as [_ C]; rewrite C; [|done].
    unfold dropped, change_uids. rewrite D1. cbn. rewrite (proj2 (Z.eqb_neq uid 0)) by done. cbn.
    split_and!; [done|done|]. apply subset_spec. intros m Hm Hb. rewrite Z.land_spec in Hb.
    by apply andb_true_iff in Hb as [_ ?].
  - destruct (law_no_new_privs k) as [_ C]. rewrite C. done.
  - destruct (law_keepcaps b k) as [_ C]. rewrite C. done.
  - pose proof (law_capbset_drop n k) as C. cbv zeta in C. rewrite C. by case_match.
  - pose proof (law_capset e p i k) as HL. cbv zeta in HL. destruct (capset_ok e p i (k_creds k)) eqn:Hok.
    + destruct HL as [_ C]. rewrite C. unfold capset_ok in Hok. rewrite !andb_true_iff in Hok.
      destruct Hok as [[_ Hok1] Hok2]. split_and!; [done| |done]. cbn. by apply (subset_trans _ (cr_permitted (k_creds k))).
    + destruct HL as [_ C]. by rewrite C.
Qed.

Lemma dropped_forever uid perm (k k' : K) : uid <> 0 -> Z.testbit perm CAP_SETUID_NUM = false ->
  dropped uid perm (k_creds k) -> rtc call_step k k' -> dropped uid perm (k_creds k').
Proof. intros Hu Hp Hd Hr. induction Hr; [done|]. apply IHHr. by eapply dropped_step. Qed.

(** C27: Applying a configuration with a user and a group other than 0 as root succeeds,
    if its effective capabilities are among the permitted ones; then all user and group
    ids are the configured ones, the capability sets are exactly those configured, the
    bounding set has nothing else of capabilities 0 to 40, and no new privileges can be
    gained by execution; and if the configuration does not permit changes of user, no
    sequence of calls makes the process root again or gives it a capability that was not
    configured. *)
Theorem privileges_dropped cfg (k : K) :
  is_root (k_creds k) -> 0 < target_uid cfg -> 0 < target_gid cfg -> inheritable cfg = MCAP_NONE ->
  subset (flags_to_bits (effective cfg)) (flags_to_bits (permitted cfg)) = true ->
  exists k' b, capabilities_core_apply_config (Some cfg) k = (0, k') /\
    k_creds k' = mk_creds (target_uid cfg, target_uid cfg, target_uid cfg)
      (target_gid cfg, target_gid cfg, target_gid cfg) (supplementary_gids cfg)
      (flags_to_bits (effective cfg)) (flags_to_bits (permitted cfg)) 0 b false true /\
    (forall n, 0 <= n <= CAP_LAST_CAP_NUM -> n <= k_last_cap -> Z.testbit b n = true ->
       Z.testbit (flags_to_bits (bounding cfg)) n = true) /\
    (Z.land (permitted cfg) MCAP_SETUID = 0 -> forall k'', rtc call_step k' k'' ->
       cr_uid (k_creds k'') = (target_uid cfg, target_uid cfg, target_uid cfg) /\
       subset (cr_permitted (k_creds k'')) (flags_to_bits (permitted cfg)) = true /\
       subset (cr_effective (k_creds k'')) (cr_permitted (k_creds k'')) = true).
Proof.
  intros [Hu Hsu Hsg Hpc Hperm] Ht Hg Hi Hsub. unfold capabilities_core_apply_config.
  destruct (bounding_frame (bounding cfg) k Hpc) as (b & C1 & Hb).
  destruct (set_capability_bounding_set (bounding cfg) k) as [rc1 k1] eqn:He1.
  assert (rc1 = 0) as -> by (rewrite <- (bounding_rc (bounding cfg) k), He1; done). cbn [fst snd Z.ltb Z.compare] in *.
  destruct (law_no_new_privs k1) as [R2 C2]. destruct (k_no_new_privs k1) as [rc2 k2].
  cbn [fst snd] in *. rewrite R2. cbn [Z.ltb Z.compare]. rewrite C1 in C2. cbn in C2.
  rewrite (proj2 (Z.ltb_lt _ _) Ht), (proj2 (Z.ltb_lt _ _) Hg). cbn [andb].
  unfold ruid. rewrite C2. cbn [cr_uid]. rewrite Hu. cbn [fst Z.eqb].
  destruct (change_user_spec cfg k2 _ C2) as (k3 & -> & C3); try done. cbn [Z.ltb Z.compare cr_permitted cr_inheritable cr_bounding cr_no_new_privs] in *.
  unfold set_caps_full. rewrite Hi. change (flags_to_bits MCAP_NONE) with 0.
  pose proof (law_capset (flags_to_bits (effective cfg)) (flags_to_bits (permitted cfg)) 0 k3) as L4.
  cbv zeta in L4. rewrite C3 in L4. unfold capset_ok in L4. cbn [cr_permitted cr_inheritable cr_bounding] in L4.
  rewrite !subset_0, Hsub, orb_true_r in L4.
  rewrite (subset_trans _ _ _ (flags_to_bits_all (permitted cfg)) Hperm) in L4. cbn [andb] in L4. destruct L4 as [R4 C4].
  destruct (k_capset _ _ 0 k3) as [rc4 k4]. cbn [fst snd] in *. rewrite R4. cbn [Z.ltb Z.compare].
  exists k4, b. split; [done|]. split; [done|]. split; [by intros n Hn1 Hn2 Hn3; apply Hb|].
  intros Hns k'' Hr. apply (dropped_forever (target_uid cfg) (flags_to_bits (permitted cfg)) k4 k''); [lia| | |done].
  - by rewrite flags_to_bits_setuid, Hns.
  - rewrite C4. split_and!; [done|apply subset_refl|done].
Qed.

(** The deprecated interface cannot keep anything: as root it changes the user to
    1000 without keeping capabilities, so that asking to keep any known one fails
    after the user was changed; only dropping all of them succeeds. *)
Theorem drop_except_keeps_nothing keep_flags (k : K) : is_root (k_creds k) ->
  cr_keepcaps (k_creds k) = false ->
  exists k', capabilities_core_drop_except keep_flags k =
    (if flags_to_bits keep_flags =? 0 then 0 else -1, k') /\
    cr_uid (k_creds k') = (1000, 1000, 1000) /\ cr_permitted (k_creds k') = 0.
Proof.
  intros [Hu Hsu Hsg Hpc Hperm] Hkc. unfold capabilities_core_drop_except.
  destruct (law_no_new_privs k) as [R1 C1]. destruct (k_no_new_privs k) as [rc1 k1].
  cbn [fst snd] in *. rewrite R1. cbn [Z.ltb Z.compare].
  unfold ruid. rewrite C1. cbn [cr_uid]. rewrite Hu. cbn [fst Z.eqb].
  destruct (law_setgroups [] k1) as [R2 C2]; [by rewrite C1|].
  destruct (k_setgroups [] k1) as [rc2 k2]. cbn [fst snd] in *. rewrite R2. cbn [Z.ltb Z.compare]. rewrite C1 in C2. cbn in C2.
  destruct (law_setgid 1000 k2) as [R3 C3]; [by rewrite C2|].
  destruct (k_setgid 1000 k2) as [rc3 k3]. cbn [fst snd] in *. rewrite R3. cbn [Z.ltb Z.compare]. rewrite C2 in C3. cbn in C3.
  destruct (law_setuid 1000 k3) as [R4 C4]; [by rewrite C3|].
  destruct (k_setuid 1000 k3) as [rc4 k4]. cbn [fst snd] in *. rewrite R4. cbn [Z.ltb Z.compare]. rewrite C3 in C4.
  unfold change_uids in C4. cbn in C4. rewrite Hu, Hkc in C4. cbn in C4.
  pose proof (law_setuid_user 0 k4) as L5. cbv zeta in L5. rewrite C4 in L5. specialize (L5 (Z.bits_0 _)).
  cbn in L5. destruct L5 as [R5 C5]. destruct (k_setuid 0 k4) as [rc5 k5]. cbn [fst snd] in *. rewrite R5. cbn [Z.eqb Z.ltb Z.compare].
  unfold set_caps_legacy. set (bits := flags_to_bits keep_flags).
  pose proof (law_capset bits bits 0 k5) as L6. cbv zeta in L6. rewrite C5 in L6. unfold capset_ok in L6.
  cbn [cr_permitted cr_inheritable cr_bounding] in L6. rewrite !subset_0, orb_true_r, subset_refl in L6.
  unfold subset in L6. rewrite Z.ldiff_0_r in L6. cbn [andb] in L6. rewrite andb_true_r in L6.
  destruct (Z.eqb_spec bits 0) as [Hb|Hb]; destruct L6 as [R6 C6]; destruct (k_capset bits bits 0 k5) as [rc6 k6];
    cbn [fst snd] in *; rewrite R6; cbn [Z.ltb Z.compare]; exists k6; rewrite C6; by rewrite ?Hb.
Qed.

(** A process that is not root keeps its user; it gets a result of 0 only if the kernel
    grants it the configured sets, whatever user the configuration names. *)
Lemma not_root_keeps_user cfg (k : K) : ruid (k_creds k) <> 0 -> has_cap CAP_SETPCAP_NUM (k_creds k) = false ->
  exists k', capabilities_core_apply_config (Some cfg) k =
    (if capset_ok (flags_to_bits (effective cfg)) (flags_to_bits (permitted cfg))
          (flags_to_bits (inheritable cfg)) (k_creds k) then 0 else -1, k') /\
    cr_uid (k_creds k') = cr_uid (k_creds k).
Proof.
  intros Hu Hp. unfold capabilities_core_apply_config.
  assert (C1 : k_creds (set_capability_bounding_set (bounding cfg) k).2 = k_creds k).
  { unfold set_capability_bounding_set. cbv zeta. cbn [snd]. generalize (seqZ 0 (CAP_LAST_CAP_NUM + 1)) as l. intros l.
    enough (forall k0, k_creds k0 = k_creds k -> k_creds (fold_left (fun k cap =>
      if Z.land (if cap <? 32 then flags_to_bits (bounding cfg) else 0) (Z.shiftl 1 (cap mod 32)) =? 0
      then (k_capbset_drop cap k).2 else k) l k0) = k_creds k) by auto.
    induction l as [|n l IH]; intros k0 Hk0; [done|]. cbn [fold_left]. apply IH. case_match; [|done].
    pose proof (law_capbset_drop n k0) as C. cbv zeta in C. rewrite C, Hk0, Hp. done. }
  pose proof (bounding_rc (bounding cfg) k) as R1.
  destruct (set_capability_bounding_set (bounding cfg) k) as [rc1 k1]. cbn [fst snd] in *. rewrite R1. cbn [Z.ltb Z.compare].
  destruct (law_no_new_privs k1) as [R2 C2]. destruct (k_no_new_privs k1) as [rc2 k2].
  cbn [fst snd] in *. rewrite R2. cbn [Z.ltb Z.compare]. rewrite C1 in C2.
  assert (Hr : (ruid (k_creds k2) =? 0) = false) by (apply Z.eqb_neq; rewrite C2; exact Hu).
  rewrite Hr. replace (if (0 <? target_uid cfg) && (0 <? target_gid cfg) then (0, k2) else (0, k2)) with (0, k2)
    by (by case_match). cbn [Z.ltb Z.compare]. unfold set_caps_full.
  set (e := flags_to_bits (effective cfg)). set (p := flags_to_bits (permitted cfg)). set (i := flags_to_bits (inheritable cfg)).
  pose proof (law_capset e p i k2) as L3. cbv zeta in L3. rewrite C2 in L3.
  change (capset_ok e p i (mk_creds (cr_uid (k_creds k)) (cr_gid (k_creds k)) (cr_groups (k_creds k))
    (cr_effective (k_creds k)) (cr_permitted (k_creds k)) (cr_inheritable (k_creds k)) (cr_bounding (k_creds k))
    (cr_keepcaps (k_creds k)) true)) with (capset_ok e p i (k_creds k)) in L3.
  destruct (capset_ok e p i (k_creds k)); destruct L3 as [R3 C3]; destruct (k_capset e p i k2) as [rc3 k3];
    cbn [fst snd] in *; rewrite R3; cbn [Z.ltb Z.compare]; exists k3; by rewrite C3.
Qed.
End laws.

(** ** The policies *)

(** Every configuration that the policies give can be applied: its effective
    capabilities are permitted, nothing is inheritable, no service may change users, and
    its user and group are not 0. *)
Lemma policy_config_applies getgrnam nm : let cfg := capabilities_policy_get_config getgrnam [] nm in
  0 < target_uid cfg /\ 0 < target_gid cfg /\ inheritable cfg = MCAP_NONE /\
  subset (flags_to_bits (effective cfg)) (flags_to_bits (permitted cfg)) = true /\
  Z.land (permitted cfg) MCAP_SETUID = 0.
Proof.
  unfold capabilities_policy_get_config, capabilities_policy_lookup. cbv zeta.
  destruct (List.find (named nm) builtin_policies) as [p|] eqn:Hf; [|done].
  apply find_some in Hf as [Hin _]. cbn [builtin_policies List.In] in Hin.
  repeat (destruct Hin as [<-|Hin]; [done|]). done.
Qed.

Lemma add_group_length getgrnam gids g : (length (add_group getgrnam gids g) <= S (length gids))%nat.
Proof. unfold add_group. repeat case_match; rewrite ?length_app; simpl; lia. Qed.

(** Every service with a policy gets the group of the daemon's socket. *)
Lemma policy_sm_group getgrnam dynamic nm p : capabilities_policy_lookup dynamic nm = Some p ->
  default 1001 (getgrnam "servicemanager") ∈
    supplementary_gids (capabilities_policy_get_config getgrnam dynamic nm).
Proof.
  intros Hp. unfold capabilities_policy_get_config. rewrite Hp. cbn [supplementary_gids].
  set (gids := fold_left _ _ _). assert (Hl : (length gids <= 2)%nat).
  { unfold gids, hw_groups. repeat case_match; cbn [fold_left]; try (simpl; lia);
      repeat (etrans; [apply add_group_length|]; apply le_n_S); simpl; lia. }
  unfold add_sm_group. destruct (existsb (Z.eqb (default 1001 (getgrnam "servicemanager"))) gids) eqn:He.
  - apply existsb_exists in He as (x & Hx & ->%Z.eqb_eq). by apply list_elem_of_In.
  - destruct (Nat.ltb_spec (length gids) 8); [|lia]. set_solver.
Qed.

(** A policy registered under the name of a built-in one is accepted and never used. *)
Lemma builtin_shadows_registered p dynamic dynamic' b : List.find (named (service_name p)) builtin_policies = Some b ->
  capabilities_policy_register p dynamic = (0, dynamic') ->
  capabilities_policy_lookup dynamic' (service_name p) = Some b.
Proof. intros Hb _. unfold capabilities_policy_lookup. by rewrite Hb. Qed.

(** ** On concrete inputs *)

(** A kernel that does what the manual says, on the credentials alone. *)
Definition linux_frame (c : creds) (gid : Z * Z * Z) (groups : list Z) : creds :=
  mk_creds (cr_uid c) gid groups (cr_effective c) (cr_permitted c) (cr_inheritable c) (cr_bounding c)
    (cr_keepcaps c) (cr_no_new_privs c).

Definition linux_setuid (u : Z) (c : creds) : Z * creds :=
  if has_cap CAP_SETUID_NUM c then (0, change_uids (u, u, u) c)
  else let '(r, e, s) := cr_uid c in
       if (u =? r) || (u =? s) then (0, change_uids (r, u, s) c) else (-1, c).

#[local] Instance linux : Kernel creds := {
  k_creds := id;
  k_last_cap := 40;
  k_setgroups g c := if has_cap CAP_SETGID_NUM c then (0, linux_frame c (cr_gid c) g) else (-1, c);
  k_setgid g c := if has_cap CAP_SETGID_NUM c then (0, linux_frame c (g, g, g) (cr_groups c)) else (-1, c);
  k_setuid := linux_setuid;
  k_no_new_privs c := (0, mk_creds (cr_uid c) (cr_gid c) (cr_groups c) (cr_effective c) (cr_permitted c)
    (cr_inheritable c) (cr_bounding c) (cr_keepcaps c) true);
  k_keepcaps b c := (0, mk_creds (cr_uid c) (cr_gid c) (cr_groups c) (cr_effective c) (cr_permitted c)
    (cr_inheritable c) (cr_bounding c) b (cr_no_new_privs c));
  k_capbset_drop n c := if has_cap CAP_SETPCAP_NUM c && (n <=? 40)
                        then (0, with_bounding (Z.clearbit (cr_bounding c) n) c) else (-1, c);
  k_capset e p i c := if capset_ok e p i c
                      then (0, mk_creds (cr_uid c) (cr_gid c) (cr_groups c) e p i (cr_bounding c)
                                 (cr_keepcaps c) (cr_no_new_privs c)) else (-1, c);
  k_ambient_clear c := (0, c);
  k_ambient_raise n c := (0, c)
}.

#[local] Instance linux_laws : KernelLaws creds.
Proof.
  constructor; cbn -[has_cap change_uids capset_ok linux_setuid]; unfold id.
  - intros g c Hc. by rewrite Hc.
  - intros g c Hc. by rewrite Hc.
  - intros gs g c. by destruct (has_cap CAP_SETGID_NUM c).
  - intros u c Hc. unfold linux_setuid, id in *. by rewrite Hc.
  - intros u c Hc. unfold linux_setuid, id in *. rewrite Hc. destruct (cr_uid c) as [[r e] s].
    by destruct ((u =? r) || (u =? s)).
  - done.
  - done.
  - intros n c. unfold id. by case_match.
  - intros e p i c. unfold id. by destruct (capset_ok e p i c).
Qed.

Definition root_creds : creds :=
  mk_creds (0, 0, 0) (0, 0, 0) [0] (Z.ones 41) (Z.ones 41) 0 (Z.ones 41) false false.

Lemma root_creds_root : is_root root_creds.
Proof. by constructor. Qed.

(** The audio service on a system that knows none of the groups. *)
Lemma privileges_dropped_witness :
  let cfg := capabilities_policy_get_config (fun _ => None) [] "audio" in
  exists k', capabilities_core_apply_config (Some cfg) root_creds = (0, k') /\
    cr_uid k' = (1001, 1001, 1001) /\ cr_groups k' = [29; 992; 1001] /\ cr_permitted k' = 2 ^ 17 /\
    cr_uid (k_setuid 0 k').2 = (1001, 1001, 1001).
Proof.
  intros cfg. destruct (privileges_dropped (K:=creds) cfg root_creds) as (k' & b & H1 & H2 & _ & H3).
  - exact root_creds_root.
  - reflexivity.
  - reflexivity.
  - reflexivity.
  - reflexivity.
  - exists k'. split; [exact H1|]. cbn [k_creds linux] in H2. unfold id in H2. rewrite H2 at 1 2 3.
    split; [reflexivity|]. split; [reflexivity|]. split; [reflexivity|].
    destruct (H3 eq_refl (k_setuid 0 k').2) as [H4 _]; [|exact H4].
    eapply rtc_l; [apply (cs_setuid k' 0)|]. apply rtc_refl.
Defined.

Lemma drop_except_keeps_nothing_witness :
  (capabilities_core_drop_except MCAP_NET_BIND root_creds).1 = -1 /\
  (capabilities_core_drop_all root_creds).1 = 0.
Proof.
  split.
  - destruct (drop_except_keeps_nothing (K:=creds) MCAP_NET_BIND root_creds) as (k' & H & _);
      [exact root_creds_root|reflexivity|]. rewrite H. reflexivity.
  - destruct (drop_except_keeps_nothing (K:=creds) MCAP_NONE root_creds) as (k' & H & _);
      [exact root_creds_root|reflexivity|]. unfold capabilities_core_drop_all. rewrite H. reflexivity.
Defined.
