(* ===== verification/DaemonSecurity.v ===== *)
(** * The daemon's own confinement (security/sm_security.c)

    Dropping root, the resource limits, the system call filter as the BPF program that is
    loaded, and the credentials of a peer.  The kernel's calls on credentials are those of
    [Capabilities]; the numbers of system calls are a parameter. *)

From S2P Require Import Prelude Capabilities.

(** ** Privileges *)

(** How a call ends: it returns a code, or it aborts the process. *)
Inductive outcome (K : Type) := Returned (rc : Z) (k : K) | Aborted.
#[global] Arguments Returned {K} rc k.
#[global] Arguments Aborted {K}.

Section privileges.
Context {K : Type} `{Kernel K}.

(** [dev/core/service_manager/security/sm_security.c:43-104 sm_drop_privileges] [user], [group]: what the
    databases say of the daemon's user and group; [groups]: the groups that [initgroups]
    finds, with the given one. *)
Definition sm_drop_privileges (user group : option Z) (groups : Z -> list Z) (k : K) : outcome K :=
  if negb (ruid (k_creds k) =? 0) then Returned 0 k
  else
    match user with
    | None => Returned (-1) k
    | Some uid =>
        match group with
        | None => Returned (-1) k
        | Some gid =>
            let '(rc, k) := k_setgroups (groups gid) k in
            if rc <? 0 then Returned (-1) k
            else
              let '(rc, k) := k_setgid gid k in
              if rc <? 0 then Returned (-1) k
              else
                let '(rc, k) := k_setuid uid k in
                if rc <? 0 then Returned (-1) k
                else
                  let '(ru, eu, _) := cr_uid (k_creds k) in
                  let '(rg, eg, _) := cr_gid (k_creds k) in
                  if negb ((ru =? uid) && (eu =? uid)) then Aborted
                  else if negb ((rg =? gid) && (eg =? gid)) then Aborted
                  else let '(rc, k) := k_setuid 0 k in if rc =? 0 then Aborted else Returned 0 k
        end
    end.
End privileges.

(** ** Limits *)

Inductive rlimit := RLIMIT_NOFILE | RLIMIT_NPROC | RLIMIT_AS | RLIMIT_CORE.

(** One after the other, up to the first that fails: the code and what was set. *)
Fixpoint set_limits (ok : rlimit -> Z -> bool) (l : list (rlimit * Z)) : Z * list (rlimit * Z) :=
  match l with
  | [] => (0, [])
  | (r, v) :: l => if ok r v then let '(rc, done) := set_limits ok l in (rc, (r, v) :: done) else (-1, [])
  end.

(** [dev/core/service_manager/security/sm_security.c:109-143 sm_set_resource_limits] [ok]: [setrlimit]
    succeeds. *)
Definition sm_set_resource_limits (ok : rlimit -> Z -> bool) : Z * list (rlimit * Z) :=
  set_limits ok [(RLIMIT_NOFILE, 512); (RLIMIT_NPROC, 64); (RLIMIT_AS, 256 * 1024 * 1024); (RLIMIT_CORE, 0)].

(** ** The filter *)

Inductive verdict := Allow | KillProcess.

(** The instructions of classic BPF that are used: load a word of the data, skip by equality,
    end. *)
Inductive insn := LdAbs (offset : Z) | JmpEq (k : Z) (jt jf : nat) | Ret (v : verdict).

(** [struct seccomp_data]: the number, the architecture and the arguments of the call. *)
Record seccomp_data := mk_data { d_nr : Z; d_arch : Z; d_args : list Z }.

(** A word of it, on a little-endian machine. *)
Definition load (off : Z) (d : seccomp_data) : Z :=
  if off =? 0 then d_nr d
  else if off =? 4 then d_arch d
  else if (16 <=? off) && (off mod 8 =? 0) then wrap 32 (nth (Z.to_nat ((off - 16) / 8)) (d_args d) 0)
  else if (16 <=? off) && (off mod 8 =? 4) then wrap 32 (Z.shiftr (nth (Z.to_nat ((off - 16) / 8)) (d_args d) 0) 32)
  else 0.

(** A program run on the data with the accumulator [a].  Jumps go forward only, so that the
    length of the program is enough fuel; None: it ran past its end, which the kernel
    refuses when it loads the program. *)
Fixpoint bpf (fuel : nat) (p : list insn) (a : Z) (d : seccomp_data) : option verdict :=
  match fuel with
  | O => None
  | S fuel =>
      match p with
      | [] => None
      | LdAbs off :: p => bpf fuel p (load off d) d
      | JmpEq k jt jf :: p => bpf fuel (drop (if a =? k then jt else jf) p) a d
      | Ret v :: _ => Some v
      end
  end.
Definition bpf_run (p : list insn) (d : seccomp_data) : option verdict := bpf (length p) p 0 d.

Definition SIGTERM : Z := 15.
Definition SIGKILL : Z := 9.
Definition SIGCHLD : Z := 17.

(** The calls that are allowed before and after the rules for kill. *)
Definition allowed_before : list string :=
  ["exit_group"; "exit"; "rt_sigaction"; "rt_sigprocmask"; "rt_sigreturn"; "sigaltstack"; "socket"; "bind"; "listen";
   "accept"; "accept4"; "connect"; "sendto"; "recvfrom"; "sendmsg"; "recvmsg"; "getsockname"; "getsockopt"; "setsockopt";
   "shutdown"; "read"; "write"; "close"; "fcntl"; "fstat"; "lseek"; "openat"; "rename"; "unlink"; "stat"; "epoll_create1";
   "epoll_ctl"; "epoll_wait"; "epoll_pwait"; "futex"; "clone"; "getpid"; "gettid"; "set_robust_list"; "brk"; "mmap"; "munmap";
   "mprotect"; "mremap"; "mlock"; "munlock"; "clock_gettime"; "gettimeofday"; "nanosleep"; "clock_nanosleep"; "getrandom"]%string.
Definition allowed_after : list string :=
  ["wait4"; "chmod"; "fchmod"; "signalfd4"; "rseq"; "clone3"; "madvise"; "pipe2"; "pread64"; "pwrite64"; "getpeername"; "getuid";
   "geteuid"; "getgid"; "getegid"; "ioctl"; "prctl"; "tgkill"; "newfstatat"]%string.

(** [dev/core/service_manager/security/sm_security.c:153-155 ALLOW_SYSCALL] *)
Definition ALLOW_SYSCALL (nr : Z) : list insn := [JmpEq nr 0 1; Ret Allow].

(** [dev/core/service_manager/security/sm_security.c:234-241 sm_setup_seccomp, kill] *)
Definition kill_rules (nr_kill : Z) : list insn :=
  [JmpEq nr_kill 0 7; LdAbs 24; JmpEq SIGTERM 4 0; JmpEq SIGKILL 3 0; JmpEq SIGCHLD 2 0; JmpEq 0 1 0; Ret KillProcess; Ret Allow].

(** [dev/core/service_manager/security/sm_security.c:157-272 sm_setup_seccomp, the program] [nr]: the
    number of a system call. *)
Definition seccomp_program (nr : string -> Z) : list insn :=
  [LdAbs 0] ++ concat (ALLOW_SYSCALL ∘ nr <$> allowed_before) ++ kill_rules (nr "kill"%string)
  ++ concat (ALLOW_SYSCALL ∘ nr <$> allowed_after) ++ [Ret KillProcess].

(** A thread and its filter. *)
Definition thread : Type := option (list insn).

(** [dev/core/service_manager/security/sm_security.c:274-293 sm_setup_seccomp, the calls] the results of the
    two calls of [prctl]; the filter is the calling thread's. *)
Definition sm_setup_seccomp (nr : string -> Z) (nnp install : Z) (t : thread) : Z * thread :=
  if nnp <? 0 then (-1, t) else if install <? 0 then (-1, t) else (0, Some (seccomp_program nr)).

(** A thread that is created has the filter of its creator. *)
Definition spawn (creator : thread) (n : nat) : list thread := replicate n creator.

(** [dev/core/service_manager/lifecycle/sm_main.c:373-409 main, the threads] the filters of the main
    thread, of the workers and of the management thread, if all calls succeed. *)
Definition started_threads (nr : string -> Z) (workers : nat) : thread * list thread * thread :=
  let main : thread := None in
  let pool := spawn main workers in
  let main := (sm_setup_seccomp nr 0 0 main).2 in
  (main, pool, main).

(** [dev/core/service_manager/security/sm_security.c:309-312 sm_setup_sandbox] *)
Definition sm_setup_sandbox : Z := 0.

(** [dev/core/service_manager/security/sm_security.c:317-326 sm_get_peer_uid] what the kernel
    says of the peer (pid, uid, gid), or -1 as an unsigned id and as a pid. *)
Definition sm_get_peer_uid (cred : option (Z * Z * Z)) : Z := match cred with Some (_, u, _) => u | None => 2 ^ 32 - 1 end.
(** [dev/core/service_manager/security/sm_security.c:328-337 sm_get_peer_gid] *)
Definition sm_get_peer_gid (cred : option (Z * Z * Z)) : Z := match cred with Some (_, _, g) => g | None => 2 ^ 32 - 1 end.
(** [dev/core/service_manager/security/sm_security.c:339-348 sm_get_peer_pid] *)
Definition sm_get_peer_pid (cred : option (Z * Z * Z)) : Z := match cred with Some (p, _, _) => p | None => -1 end.

(** ** What the filter does *)

Lemma bpf_enough f : forall f' p a d, (length p <= f)%nat -> (length p <= f')%nat -> bpf f p a d = bpf f' p a d.
Proof.
  induction f as [|f IH]; intros f' p a d Hf Hf'.
  - destruct p; [|cbn in Hf; lia]. by destruct f'.
  - destruct f' as [|f']; [destruct p; [done|cbn in Hf'; lia]|]. cbn [bpf].
    destruct p as [|[off|k jt jf|v] p]; cbn [length] in *; [done| | |done].
    + apply IH; lia.
    + apply IH; rewrite length_drop; lia.
Qed.

(** One instruction. *)
Lemma bpf_ld f off p a d : bpf (S f) (LdAbs off :: p) a d = bpf f p (load off d) d.
Proof. done. Qed.
Lemma bpf_jmp f k jt jf p a d : bpf (S f) (JmpEq k jt jf :: p) a d = bpf f (drop (if a =? k then jt else jf) p) a d.
Proof. done. Qed.
Lemma bpf_ret f v p a d : bpf (S f) (Ret v :: p) a d = Some v.
Proof. done. Qed.

Lemma length_allow nrs : length (concat (ALLOW_SYSCALL <$> nrs)) = (2 * length nrs)%nat.
Proof. induction nrs as [|k nrs IH]; [done|]. cbn. cbn in IH. rewrite IH. lia. Qed.

(** A block of allowed calls. *)
Lemma allow_block nrs rest a d : forall f, (length (concat (ALLOW_SYSCALL <$> nrs) ++ rest) <= f)%nat ->
  bpf f (concat (ALLOW_SYSCALL <$> nrs) ++ rest) a d = if decide (a ∈ nrs) then Some Allow else bpf (length rest) rest a d.
Proof.
  induction nrs as [|k nrs IH]; intros f Hf.
  - rewrite decide_False by apply not_elem_of_nil. by apply bpf_enough.
  - rewrite fmap_cons in Hf |- *. cbn [concat ALLOW_SYSCALL app length] in Hf |- *. destruct f as [|[|f]]; [lia|lia|].
    remember (S f) as f1 eqn:Hf1. cbn [bpf]. destruct (Z.eqb_spec a k) as [->|Hne]; cbn [drop].
    + subst f1. cbn [bpf]. by rewrite decide_True by by left.
    + rewrite IH by lia. destruct (decide (a ∈ nrs)); [by rewrite decide_True by by right|].
      rewrite decide_False; [done|]. rewrite elem_of_cons. tauto.
Qed.

Definition low_word (z : Z) : Z := wrap 32 z.

(** The rules for kill: the signal is the low word of the second argument. *)
Lemma kill_block nr_kill rest a d :
  bpf (length (kill_rules nr_kill ++ rest)) (kill_rules nr_kill ++ rest) a d =
  if a =? nr_kill
  then Some (if decide (low_word (nth 1 (d_args d) 0) ∈ [SIGTERM; SIGKILL; SIGCHLD; 0]) then Allow else KillProcess)
  else bpf (length rest) rest a d.
Proof.
  unfold kill_rules. cbn [app length]. rewrite bpf_jmp.
  destruct (a =? nr_kill); [|cbn [drop]; rewrite ?drop_0; apply bpf_enough; lia].
  rewrite drop_0, bpf_ld. change (load 24 d) with (low_word (nth 1 (d_args d) 0)).
  generalize (low_word (nth 1 (d_args d) 0)). intros s.
  rewrite bpf_jmp. destruct (Z.eqb_spec s SIGTERM) as [->|H1]; [done|]. rewrite drop_0.
  rewrite bpf_jmp. destruct (Z.eqb_spec s SIGKILL) as [->|H2]; [done|]. rewrite drop_0.
  rewrite bpf_jmp. destruct (Z.eqb_spec s SIGCHLD) as [->|H3]; [done|]. rewrite drop_0.
  rewrite bpf_jmp. destruct (Z.eqb_spec s 0) as [->|H4]; [done|]. rewrite drop_0, bpf_ret.
  rewrite decide_False; [done|]. rewrite !elem_of_cons, elem_of_nil. tauto.
Qed.

Definition filter_verdict (nr : string -> Z) (d : seccomp_data) : verdict :=
  if decide (d_nr d ∈ nr <$> allowed_before ++ allowed_after) then Allow
  else if decide (d_nr d = nr "kill"%string /\ low_word (nth 1 (d_args d) 0) ∈ [SIGTERM; SIGKILL; SIGCHLD; 0]) then Allow
  else KillProcess.

Lemma bpf_run_verdict (nr : string -> Z) d : nr "kill"%string ∉ nr <$> allowed_before ++ allowed_after ->
  bpf_run (seccomp_program nr) d = Some (filter_verdict nr d).
Proof.
  intros Hkill. unfold bpf_run, seccomp_program, filter_verdict. rewrite fmap_app in *. cbn [app length]. rewrite bpf_ld.
  change (load 0 d) with (d_nr d). rewrite !(list_fmap_compose nr ALLOW_SYSCALL). rewrite allow_block by reflexivity.
  destruct (decide (d_nr d ∈ nr <$> allowed_before)) as [Hb|Hb].
  { by rewrite decide_True by (apply elem_of_app; by left). }
  rewrite kill_block. destruct (Z.eqb_spec (d_nr d) (nr "kill"%string)) as [Hk|Hk].
  { rewrite <- Hk in Hkill. rewrite (decide_False (P := d_nr d ∈ _)) by exact Hkill. f_equal.
    destruct (decide (low_word _ ∈ _)); [by rewrite decide_True|rewrite decide_False; [done|tauto]]. }
  rewrite allow_block by reflexivity. destruct (decide (d_nr d ∈ nr <$> allowed_after)) as [Ha|Ha].
  { by rewrite decide_True by (apply elem_of_app; by right). }
  rewrite decide_False by (rewrite elem_of_app; tauto). rewrite decide_False by tauto. done.
Qed.

(** C35: Which calls the daemon's filter lets through: for numbering of the system calls in which
    kill is none of the listed ones, the program ends on every call, with Allow exactly if
    its number is that of a listed call, or it is a kill with one of the signals that
    health checks and shutdown use (TERM, KILL, CHLD, 0), and with the end of the process
    otherwise; a jump never leaves the program. *)
Theorem whitelist_exact (nr : string -> Z) d : nr "kill"%string ∉ nr <$> allowed_before ++ allowed_after ->
  bpf_run (seccomp_program nr) d =
  Some (if decide (d_nr d ∈ nr <$> allowed_before ++ allowed_after) then Allow
        else if decide (d_nr d = nr "kill"%string /\ low_word (nth 1 (d_args d) 0) ∈ [SIGTERM; SIGKILL; SIGCHLD; 0]) then Allow
        else KillProcess).
Proof.
  apply bpf_run_verdict.
Qed.

(** The filter does not look at the architecture: whatever a number means for calls of
    another kind than the one it was written for, the verdict is the same. *)
Lemma architecture_ignored nr n arch arch' args : nr "kill"%string ∉ nr <$> allowed_before ++ allowed_after ->
  bpf_run (seccomp_program nr) (mk_data n arch args) = bpf_run (seccomp_program nr) (mk_data n arch' args).
Proof. intros Hk. by rewrite !bpf_run_verdict. Qed.

(** Only the main thread and those it creates afterwards are filtered: the workers, which
    serve the clients, were created before. *)
Lemma workers_unfiltered nr n : started_threads nr n = (Some (seccomp_program nr), replicate n None, Some (seccomp_program nr)).
Proof. done. Qed.

(** ** What dropping root does *)

Section drop.
Context {K : Type} `{KernelLaws K}.

(** Root without any of its capabilities kept: what becomes of the credentials. *)
Lemma drop_spec uid gid groups (k : K) : is_root (k_creds k) -> cr_keepcaps (k_creds k) = false -> 0 < uid ->
  exists k', sm_drop_privileges (Some uid) (Some gid) groups k = Returned 0 k' /\
    cr_uid (k_creds k') = (uid, uid, uid) /\ cr_gid (k_creds k') = (gid, gid, gid) /\ cr_groups (k_creds k') = groups gid /\
    cr_permitted (k_creds k') = 0 /\ cr_effective (k_creds k') = 0.
Proof.
  intros [Hu Hsu Hsg _ _] Hkeep Hpos. unfold sm_drop_privileges, ruid. rewrite Hu. cbn [fst Z.eqb negb].
  pose proof (law_setgroups (groups gid) k) as L1. cbv zeta in L1. destruct (L1 Hsg) as [R1 C1].
  destruct (k_setgroups (groups gid) k) as [rc1 k1]. cbn [fst snd] in *. subst rc1. cbn [Z.ltb Z.compare].
  pose proof (law_setgid gid k1) as L2. cbv zeta in L2. rewrite C1 in L2. destruct (L2 Hsg) as [R2 C2]. clear L1 L2.
  destruct (k_setgid gid k1) as [rc2 k2]. cbn [fst snd] in *. subst rc2. cbn [Z.ltb Z.compare].
  pose proof (law_setuid uid k2) as L3. cbv zeta in L3. rewrite C2 in L3. destruct (L3 Hsu) as [R3 C3]. clear L3.
  destruct (k_setuid uid k2) as [rc3 k3]. cbn [fst snd] in *. subst rc3. cbn [Z.ltb Z.compare].
  unfold change_uids in C3. cbn [cr_uid cr_gid cr_groups cr_effective cr_permitted cr_keepcaps] in C3. rewrite Hu, Hkeep in C3.
  assert (Hne : (uid =? 0) = false) by lia. cbn [fst snd] in C3. rewrite Hne in C3. cbn in C3.
  pose proof (law_setuid_user 0 k3) as L4. cbv zeta in L4. rewrite C3 in *. cbn [cr_uid cr_gid] in *.
  rewrite !Z.eqb_refl. cbn [negb andb]. specialize (L4 eq_refl).
  assert (Hne' : (0 =? uid) = false) by lia. rewrite Hne' in L4. cbn [orb] in L4. destruct L4 as [R4 C4].
  destruct (k_setuid 0 k3) as [rc4 k4]. cbn [fst snd] in *. subst rc4. cbn [Z.eqb]. exists k4. rewrite C4. by split_and!.
Qed.

(** The daemon, started as root, ends up as its user and group with that user's groups and
    without any capability, and no sequence of calls makes it root or gives it a
    capability again; the check for that, which would end the process, is not reached. *)
Lemma daemon_never_root uid gid groups (k : K) : is_root (k_creds k) -> cr_keepcaps (k_creds k) = false -> 0 < uid ->
  exists k', sm_drop_privileges (Some uid) (Some gid) groups k = Returned 0 k' /\
    cr_gid (k_creds k') = (gid, gid, gid) /\ cr_groups (k_creds k') = groups gid /\
    forall k'', rtc call_step k' k'' -> dropped uid 0 (k_creds k'').
Proof.
  intros Hr Hk Hu. destruct (drop_spec uid gid groups k Hr Hk Hu) as (k' & Hd & H1 & H2 & H3 & H4 & H5).
  exists k'. split_and!; [done..|]. intros k'' Hsteps. apply (dropped_forever uid 0 k' k''); [lia|done| |done].
  split_and!; [done|rewrite H4; apply subset_refl|rewrite H5; apply subset_0].
Qed.

(** A daemon whose program file is set-user-id root, started by a user, keeps its effective
    root: only the real id is looked at, and success is reported. *)
Lemma setuid_start_keeps_root user group groups (k : K) u : u <> 0 -> cr_uid (k_creds k) = (u, 0, 0) ->
  sm_drop_privileges user group groups k = Returned 0 k.
Proof. intros Hu Hc. unfold sm_drop_privileges, ruid. rewrite Hc. cbn. by apply Z.eqb_neq in Hu as ->. Qed.
End drop.

(** Success of the limits means that all four are in force. *)
Lemma limits_all_or_fail ok : sm_set_resource_limits ok =
  if forallb (fun '(r, v) => ok r v) [(RLIMIT_NOFILE, 512); (RLIMIT_NPROC, 64); (RLIMIT_AS, 256 * 1024 * 1024); (RLIMIT_CORE, 0)]
  then (0, [(RLIMIT_NOFILE, 512); (RLIMIT_NPROC, 64); (RLIMIT_AS, 256 * 1024 * 1024); (RLIMIT_CORE, 0)])
  else (-1, (sm_set_resource_limits ok).2).
Proof.
  unfold sm_set_resource_limits. cbn -[Z.mul]. destruct (ok RLIMIT_NOFILE 512); [|done]. destruct (ok RLIMIT_NPROC 64); [|done].
  destruct (ok RLIMIT_AS _); [|done]. by destruct (ok RLIMIT_CORE 0).
Qed.

(** ** On x86-64 *)

(** The numbers of the 64-bit kernel for the calls that are listed; 999: another. *)
Definition x86_64 (s : string) : Z :=
  default 999 (snd <$> List.find (fun p => String.eqb p.1 s)
    [("read", 0); ("write", 1); ("close", 3); ("stat", 4); ("fstat", 5); ("lseek", 8); ("mmap", 9); ("mprotect", 10); ("munmap", 11);
     ("brk", 12); ("rt_sigaction", 13); ("rt_sigprocmask", 14); ("rt_sigreturn", 15); ("ioctl", 16); ("pread64", 17); ("pwrite64", 18);
     ("mremap", 25); ("madvise", 28); ("nanosleep", 35); ("getpid", 39); ("socket", 41); ("connect", 42); ("accept", 43); ("sendto", 44);
     ("recvfrom", 45); ("sendmsg", 46); ("recvmsg", 47); ("shutdown", 48); ("bind", 49); ("listen", 50); ("getsockname", 51);
     ("getpeername", 52); ("setsockopt", 54); ("getsockopt", 55); ("clone", 56); ("exit", 60); ("wait4", 61); ("kill", 62);
     ("fcntl", 72); ("rename", 82); ("unlink", 87); ("chmod", 90); ("fchmod", 91); ("gettimeofday", 96); ("getuid", 102);
     ("getgid", 104); ("geteuid", 107); ("getegid", 108); ("sigaltstack", 131); ("mlock", 149); ("munlock", 150); ("prctl", 157);
     ("gettid", 186); ("futex", 202); ("clock_gettime", 228); ("clock_nanosleep", 230); ("exit_group", 231); ("epoll_wait", 232);
     ("epoll_ctl", 233); ("tgkill", 234); ("openat", 257); ("newfstatat", 262); ("set_robust_list", 273); ("epoll_pwait", 281);
     ("accept4", 288); ("signalfd4", 289); ("epoll_create1", 291); ("pipe2", 293); ("getrandom", 318); ("rseq", 334); ("clone3", 435)]%string).

Lemma whitelist_exact_witness :
  bpf_run (seccomp_program x86_64) (mk_data 59 0xC000003E []) = Some KillProcess /\
  bpf_run (seccomp_program x86_64) (mk_data 62 0xC000003E [1; 15]) = Some Allow /\
  bpf_run (seccomp_program x86_64) (mk_data 62 0xC000003E [1; 11]) = Some KillProcess /\
  bpf_run (seccomp_program x86_64) (mk_data 257 0xC000003E []) = Some Allow.
Proof.
  assert (Hk : x86_64 "kill"%string ∉ x86_64 <$> allowed_before ++ allowed_after).
  { apply (bool_decide_eq_false_1 _). vm_compute. reflexivity. }
  split_and!; (rewrite (whitelist_exact x86_64 _ Hk); vm_compute; reflexivity).
Defined.

(** 11 is munmap for a 64-bit program and execve in the 32-bit interface of the same kernel
    (architecture 0x40000003): the filter lets a program be executed. *)
Lemma execve_by_32_bit_call : bpf_run (seccomp_program x86_64) (mk_data 11 0x40000003 []) = Some Allow.
Proof. by vm_compute. Qed.
