(* ===== verification/Seccomp.v ===== *)
(** * System call filters

    security/seccomp/seccomp_core.c, seccomp_filter.c and the policies of the services.
    libseccomp is a parameter: the class [Seccomp] has its calls on a filter context and
    the action a context gives to a system call with its first argument, [SeccompLaws]
    what seccomp_init(3), seccomp_rule_add(3) and seccomp_arch_add(3) say of it. *)

From S2P Require Import Prelude.

Inductive action := SCMP_ACT_ALLOW | SCMP_ACT_TRAP | SCMP_ACT_LOG | SCMP_ACT_NOTIFY.
#[export] Instance action_eq : EqDecision action.
Proof. solve_decision. Defined.

(** A call with this action is executed ([SCMP_ACT_LOG] logs it first). *)
Definition executes (a : action) : bool :=
  match a with SCMP_ACT_ALLOW | SCMP_ACT_LOG => true | SCMP_ACT_TRAP | SCMP_ACT_NOTIFY => false end.

(** System calls by name, as in [SCMP_SYS(name)]. *)
Class Seccomp (C : Type) := {
  sc_init : action -> option C;
  sc_arch_native : Z;
  sc_arch_add : Z -> C -> Z * C;
  sc_arch_remove : Z -> C -> Z * C;
  sc_rule_add : action -> string -> option Z -> C -> Z * C;  (** with [SCMP_A0 (SCMP_CMP_EQ, v)] *)
  sc_load : C -> Z;
  sc_verdict : C -> string -> Z -> action
}.

Class SeccompLaws (C : Type) {L : Seccomp C} := {
  law_init : forall a c nr x, sc_init a = Some c -> sc_verdict c nr x = a;
  law_arch_add : forall arch c nr x, sc_verdict (sc_arch_add arch c).2 nr x = sc_verdict c nr x;
  law_arch_remove : forall arch c nr x, sc_verdict (sc_arch_remove arch c).2 nr x = sc_verdict c nr x;
  (** A rule without conditions decides its call; a rule never takes back that a call is
      allowed, says nothing of other calls, and a refused one changes nothing. *)
  law_rule_all : forall a nr x c, (sc_rule_add a nr None c).1 = 0 -> sc_verdict (sc_rule_add a nr None c).2 nr x = a;
  law_rule_allowed : forall nr v x c, sc_verdict c nr x = SCMP_ACT_ALLOW ->
    sc_verdict (sc_rule_add SCMP_ACT_ALLOW nr v c).2 nr x = SCMP_ACT_ALLOW;
  law_rule_other : forall a nr v nr' x c, nr <> nr' ->
    sc_verdict (sc_rule_add a nr v c).2 nr' x = sc_verdict c nr' x;
  law_rule_refused : forall a nr v nr' x c, (sc_rule_add a nr v c).1 < 0 ->
    sc_verdict (sc_rule_add a nr v c).2 nr' x = sc_verdict c nr' x
}.

Definition EEXIST : Z := 17.
Definition SCMP_ARCH_X86 : Z := 0x40000003.

(** ** Rules *)

Section core.
Context {C : Type} `{Seccomp C}.

(** [dev/security/seccomp/seccomp_core.c:173-178 seccomp_core_allow] *)
Definition seccomp_core_allow (nr : string) (ctx : C) : Z * C :=
  let '(rc, ctx) := sc_rule_add SCMP_ACT_ALLOW nr None ctx in (if rc <? 0 then -1 else 0, ctx).

(** A run of [seccomp_core_allow] whose results are ignored. *)
Definition allow_all (l : list string) (ctx : C) : C :=
  fold_left (fun ctx nr => (seccomp_core_allow nr ctx).2) l ctx.

(** [dev/security/seccomp/seccomp_core.c:471-476 seccomp_core_allow_io_uring] *)
Definition io_uring_syscalls : list string := ["io_uring_setup"; "io_uring_enter"; "io_uring_register"].

(** [dev/security/seccomp/seccomp_core.c:199-388 seccomp_core_apply_common, first part] with
    the conditional [epoll_pwait2]. *)
Definition common_syscalls_1 : list string :=
  ["read"; "write"; "open"; "openat"; "close"; "lseek"; "fstat"; "stat"; "ftruncate"; "mmap";
   "munmap"; "mprotect"; "brk"; "futex"; "clock_gettime"; "nanosleep"; "clock_nanosleep";
   "rt_sigaction"; "rt_sigreturn"; "rt_sigprocmask"; "epoll_create1"; "epoll_ctl"; "epoll_wait";
   "eventfd2"; "getpid"; "gettid"; "exit"; "exit_group"; "ioctl"; "socket"; "connect"; "send";
   "recv"; "sendto"; "recvfrom"; "sendmsg"; "recvmsg"; "setsockopt"; "getsockopt"; "getsockname";
   "shutdown"; "lstat"; "newfstatat"; "access"; "faccessat"; "readlink"; "readlinkat"; "unlink";
   "unlinkat"; "mkdir"; "mkdirat"; "rmdir"; "rename"; "renameat"; "fcntl"; "dup"; "dup2"; "dup3";
   "pipe2"; "pread64"; "pwrite64"; "readv"; "writev"; "getdents64"; "getcwd"; "chdir"; "fchdir";
   "chmod"; "fchmod"; "fchmodat"; "chown"; "fchown"; "lchown"; "fchownat"; "truncate"; "sync";
   "fsync"; "fdatasync"; "inotify_init1"; "inotify_add_watch"; "inotify_rm_watch"; "poll"; "ppoll";
   "select"; "pselect6"; "clone"; "clone3"; "prctl"; "arch_prctl"; "set_tid_address"; "tgkill";
   "kill"; "wait4"; "set_robust_list"; "get_robust_list"; "getuid"; "geteuid"; "getgid"; "getegid";
   "getgroups"; "capget"; "capset"; "madvise"; "msync"; "mremap"; "mlock"; "munlock"; "mlock2";
   "mlockall"; "munlockall"; "mincore"; "shmget"; "shmat"; "shmctl"; "shmdt"; "timerfd_create";
   "timerfd_settime"; "timerfd_gettime"; "timer_create"; "timer_settime"; "timer_gettime";
   "timer_delete"; "clock_getres"; "alarm"; "getitimer"; "setitimer"; "rt_sigpending";
   "rt_sigsuspend"; "rt_sigtimedwait"; "rt_sigqueueinfo"; "sigaltstack"; "uname"; "sysinfo";
   "getrandom"; "getrlimit"; "setrlimit"; "prlimit64"; "sched_getscheduler"; "sched_setscheduler";
   "sched_getparam"; "sched_setparam"; "sched_yield"; "sched_getaffinity"; "sched_setaffinity";
   "sched_get_priority_min"; "sched_get_priority_max"; "sched_rr_get_interval"; "epoll_pwait";
   "epoll_pwait2"; "semget"; "semop"; "semctl"].

(** [dev/security/seccomp/seccomp_core.c:391-446 seccomp_core_apply_common, second part] with
    the conditional [openat2]. *)
Definition common_syscalls_2 : list string :=
  ["statx"; "openat2"; "getsid"; "setsid"; "getppid"; "getpgrp"; "getpgid"; "setpgid"; "setuid";
   "setgid"; "setreuid"; "setregid"; "setresuid"; "setresgid"; "setgroups"; "getresuid";
   "getresgid"; "execve"; "execveat"; "vfork"; "fork"; "flock"; "fallocate"; "sendfile";
   "copy_file_range"; "linkat"; "symlinkat"; "readlinkat"; "faccessat"; "faccessat2";
   "memfd_create"; "personality"; "umask"; "times"; "getrusage"; "gettimeofday"; "settimeofday";
   "time"; "getcpu"; "clock_settime"].

Definition common_syscalls : list string := common_syscalls_1 ++ io_uring_syscalls ++ common_syscalls_2.

(** [dev/security/seccomp/seccomp_core.c:450-469 seccomp_core_allow_networking] *)
Definition networking_syscalls : list string :=
  ["socket"; "connect"; "bind"; "listen"; "accept"; "accept4"; "send"; "recv"; "sendto";
   "recvfrom"; "sendmsg"; "recvmsg"; "shutdown"; "setsockopt"; "getsockopt"; "getpeername";
   "getsockname"].

(** [dev/security/seccomp/seccomp_core.c:198-448 seccomp_core_apply_common] *)
Definition seccomp_core_apply_common (ctx : C) : Z * C := (0, allow_all common_syscalls ctx).

(** [dev/security/seccomp/seccomp_core.c:450-469 seccomp_core_allow_networking] *)
Definition seccomp_core_allow_networking (ctx : C) : Z * C := (0, allow_all networking_syscalls ctx).

(** [dev/security/seccomp/seccomp_core.c:180-196 seccomp_core_validate_architecture] on x86-64. *)
Definition seccomp_core_validate_architecture (ctx : C) : Z * C :=
  let '(rc, ctx) := sc_arch_add sc_arch_native ctx in
  if (rc <? 0) && negb (rc =? - EEXIST) then (-1, ctx)
  else (0, (sc_arch_remove SCMP_ARCH_X86 ctx).2).

(** [dev/security/seccomp/seccomp_core.c:163-170 seccomp_core_add_ioctl_filter, loop] *)
Fixpoint ioctl_rules (fds : list Z) (ctx : C) : Z * C :=
  match fds with
  | [] => (0, ctx)
  | fd :: fds' =>
      let '(rc, ctx) := sc_rule_add SCMP_ACT_ALLOW "ioctl" (Some (u32 fd)) ctx in
      if rc <? 0 then (-1, ctx) else ioctl_rules fds' ctx
  end.

(** [dev/security/seccomp/seccomp_core.c:159-171 seccomp_core_add_ioctl_filter] *)
Definition seccomp_core_add_ioctl_filter (allowed_fds : list Z) (ctx : C) : Z * C :=
  match allowed_fds with [] => seccomp_core_allow "ioctl" ctx | _ => ioctl_rules allowed_fds ctx end.

(** [dev/security/seccomp/seccomp_core.c:478-494 seccomp_core_setup_notification] *)
Definition seccomp_core_setup_notification (nr : string) (ctx : C) : Z * C :=
  let '(rc, ctx) := sc_rule_add SCMP_ACT_NOTIFY nr None ctx in (if rc <? 0 then -1 else 0, ctx).

(** ** The module's state *)

(** [dev/security/seccomp/seccomp_core.c:21-26 monitoring_enabled] [log_fd] and the opened
    device descriptors. *)
Record seccomp_state := mk_secst { monitoring_enabled : bool; log_fd : Z; allowed_fds : list Z }.
Definition seccomp_state0 : seccomp_state := mk_secst false (-1) [].

(** [dev/security/seccomp/seccomp_core.c:42-58 seccomp_core_setup_monitoring] [fd]: what
    [open] returns. *)
Definition seccomp_core_setup_monitoring (fd : Z) (s : seccomp_state) : Z * seccomp_state :=
  if monitoring_enabled s then (0, s)
  else if fd <? 0 then (-1, mk_secst false fd (allowed_fds s))
  else (0, mk_secst true fd (allowed_fds s)).

(** [dev/security/seccomp/seccomp_core.c:60-68 seccomp_core_cleanup_monitoring] the
    descriptors closed. *)
Definition seccomp_core_cleanup_monitoring (s : seccomp_state) : seccomp_state * list Z :=
  (mk_secst false (if 0 <=? log_fd s then -1 else log_fd s) (allowed_fds s),
   if 0 <=? log_fd s then [log_fd s] else []).

(** [dev/security/seccomp/seccomp_core.c:147-157 seccomp_core_cleanup_device_fds] *)
Definition seccomp_core_cleanup_device_fds (s : seccomp_state) : seccomp_state * list Z :=
  (mk_secst (monitoring_enabled s) (log_fd s) [], allowed_fds s).

(** [dev/security/seccomp/seccomp_core.c:125-145 seccomp_core_setup_device_fds] [openfd]: the
    descriptor of a path or a negative number; [mem]: the allocation succeeds. *)
Definition seccomp_core_setup_device_fds (openfd : string -> Z) (mem : bool) (paths : list string)
    (s : seccomp_state) : Z * seccomp_state :=
  let s := (seccomp_core_cleanup_device_fds s).1 in
  match paths with
  | [] => (0, s)
  | _ => if negb mem then (-1, s)
         else (0, mk_secst (monitoring_enabled s) (log_fd s)
                    (List.filter (fun fd => 0 <=? fd) (openfd <$> paths)))
  end.

(** ** Policies *)

(** [dev/security/seccomp/seccomp_filter.h:7-13 service_type_t] *)
Inductive service_type_t :=
| SERVICE_TYPE_AUDIO | SERVICE_TYPE_SENSOR | SERVICE_TYPE_CAMERA | SERVICE_TYPE_NETWORK | SERVICE_TYPE_MINIMAL.

(** [dev/security/seccomp/seccomp_filter.h:15-21 seccomp_config_t] *)
Record seccomp_config_t := mk_seccfg {
  type : service_type_t; enable_logging : bool; enable_arg_filtering : bool; allowed_devices : list string
}.

(** [dev/security/seccomp/seccomp_policy_audio.c:16-20 seccomp_policy_audio_apply] *)
Definition seccomp_policy_audio_apply (fds : list Z) (ctx : C) : Z * C :=
  let ctx := (seccomp_core_apply_common ctx).2 in seccomp_core_add_ioctl_filter fds ctx.

(** [dev/security/seccomp/seccomp_policy_sensor.c:16-20 seccomp_policy_sensor_apply] *)
Definition seccomp_policy_sensor_apply (fds : list Z) (ctx : C) : Z * C :=
  let ctx := (seccomp_core_apply_common ctx).2 in seccomp_core_add_ioctl_filter fds ctx.

(** [dev/security/seccomp/seccomp_policy_camera.c:16-26 seccomp_policy_camera_apply] *)
Definition seccomp_policy_camera_apply (fds : list Z) (ctx : C) : Z * C :=
  let ctx := (seccomp_core_apply_common ctx).2 in
  let '(rc, ctx) := seccomp_core_add_ioctl_filter fds ctx in
  if rc <? 0 then (-1, ctx) else (0, allow_all ["mlock"; "munlock"] ctx).

(** [dev/security/seccomp/seccomp_policy_network.c:18-32 seccomp_policy_network_apply] *)
Definition seccomp_policy_network_apply (ctx : C) : Z * C :=
  let '(rc, ctx) := seccomp_core_apply_common ctx in
  if rc <? 0 then (-1, ctx)
  else let '(rc, ctx) := seccomp_core_allow_networking ctx in
       if rc <? 0 then (-1, ctx)
       else (0, allow_all ["ioctl"; "setsockopt"; "getsockopt"; "poll"; "ppoll"; "select"] ctx).

(** [dev/security/seccomp/seccomp_policy_minimal.c:7-12 seccomp_policy_minimal_apply] *)
Definition seccomp_policy_minimal_apply (ctx : C) : Z * C :=
  let '(rc, ctx) := seccomp_core_apply_common ctx in if rc <? 0 then (-1, ctx) else (0, ctx).

(** [dev/security/seccomp/seccomp_filter.c:22-49 seccomp_get_default_config] *)
Definition seccomp_get_default_config (t : service_type_t) : seccomp_config_t :=
  mk_seccfg t true true
    match t with
    | SERVICE_TYPE_AUDIO => ["/dev/snd/controlC0"; "/dev/snd/pcmC0D0p"]
    | SERVICE_TYPE_CAMERA => ["/dev/video0"; "/dev/video1"]
    | SERVICE_TYPE_SENSOR => ["/dev/iio:device0"; "/sys/bus/iio/devices/iio:device0"]
    | SERVICE_TYPE_NETWORK => ["/dev/net/tun"]
    | SERVICE_TYPE_MINIMAL => []
    end.

(** [dev/security/seccomp/seccomp_filter.c:76-96 seccomp_apply_config, policy] *)
Definition policy_apply (t : service_type_t) (fds : list Z) (ctx : C) : Z * C :=
  match t with
  | SERVICE_TYPE_AUDIO => seccomp_policy_audio_apply fds ctx
  | SERVICE_TYPE_SENSOR => seccomp_policy_sensor_apply fds ctx
  | SERVICE_TYPE_CAMERA => seccomp_policy_camera_apply fds ctx
  | SERVICE_TYPE_NETWORK => seccomp_policy_network_apply ctx
  | SERVICE_TYPE_MINIMAL => seccomp_policy_minimal_apply ctx
  end.

(** [dev/security/seccomp/seccomp_filter.c:51-119 seccomp_apply_config] the result, the module's
    state and the filter the process then has; [no_new_privs]: the result of the
    [prctl]. *)
Definition seccomp_apply_config (openfd : string -> Z) (mem : bool) (no_new_privs : Z)
    (config : option seccomp_config_t) (s : seccomp_state) : Z * seccomp_state * option C :=
  match config with
  | None => (-1, s, None)
  | Some config =>
      let s := if enable_arg_filtering config
               then (seccomp_core_setup_device_fds openfd mem (allowed_devices config) s).2 else s in
      match sc_init (if monitoring_enabled s then SCMP_ACT_TRAP else SCMP_ACT_LOG) with
      | None => (-1, s, None)
      | Some ctx =>
          let '(rc, ctx) := seccomp_core_validate_architecture ctx in
          if rc <? 0 then (-1, s, None)
          else let '(rc, ctx) := policy_apply (type config) (allowed_fds s) ctx in
               if negb (rc =? 0) then (-1, s, None)
               else if no_new_privs <? 0 then (-1, s, None)
               else let loaded := sc_load ctx in
                    let s := (seccomp_core_cleanup_device_fds s).1 in
                    if negb (loaded =? 0) then (-1, s, None) else (0, s, Some ctx)
      end
  end.

(** [dev/security/seccomp/seccomp_filter.c:121-125 seccomp_apply] *)
Definition seccomp_apply (openfd : string -> Z) (mem : bool) (no_new_privs : Z) (t : service_type_t)
    (s : seccomp_state) : Z * seccomp_state * option C :=
  seccomp_apply_config openfd mem no_new_privs (Some (seccomp_get_default_config t)) s.
End core.

(** ** What the loaded filter does *)

(** The calls a policy allows. *)
Definition profile (t : service_type_t) : list string :=
  match t with
  | SERVICE_TYPE_NETWORK => common_syscalls ++ networking_syscalls
  | _ => common_syscalls
  end.

Section laws.
Context {C : Type} `{SeccompLaws C}.

(** No rule is refused. *)
Definition addable : Prop := forall nr v (c : C), (sc_rule_add SCMP_ACT_ALLOW nr v c).1 = 0.

Lemma allow_all_verdict l nr x : addable -> forall ctx : C,
  sc_verdict (allow_all l ctx) nr x = if decide (nr ∈ l) then SCMP_ACT_ALLOW else sc_verdict ctx nr x.
Proof.
  intros Hadd. induction l as [|n l IH]; intros ctx; [done|]. unfold allow_all in *. cbn [fold_left].
  rewrite IH. unfold seccomp_core_allow. pose proof (Hadd n None ctx) as Hn.
  destruct (decide (nr = n)) as [->|Hne].
  - destruct (decide (n ∈ n :: l)) as [_|Hn']; [|set_solver]. destruct (decide (n ∈ l)); [done|].
    pose proof (law_rule_all SCMP_ACT_ALLOW n x ctx Hn) as Hv. by destruct (sc_rule_add SCMP_ACT_ALLOW n None ctx).
  - pose proof (law_rule_other SCMP_ACT_ALLOW n None nr x ctx ltac:(congruence)) as Hv.
    destruct (sc_rule_add SCMP_ACT_ALLOW n None ctx) as [rc c]. cbn [snd] in *. rewrite Hv.
    destruct (decide (nr ∈ l)), (decide (nr ∈ n :: l)); set_solver.
Qed.

(** The rules on device descriptors add nothing where every [ioctl] is allowed. *)
Lemma ioctl_filter_verdict fds nr x : addable -> forall ctx : C,
  (forall y, sc_verdict ctx "ioctl" y = SCMP_ACT_ALLOW) ->
  (seccomp_core_add_ioctl_filter fds ctx).1 = 0 /\
  sc_verdict (seccomp_core_add_ioctl_filter fds ctx).2 nr x = sc_verdict ctx nr x.
Proof.
  intros Hadd ctx Hio.
  assert (Hstep : forall v (c : C), (forall y, sc_verdict c "ioctl" y = SCMP_ACT_ALLOW) ->
    forall nr x, sc_verdict (sc_rule_add SCMP_ACT_ALLOW "ioctl" v c).2 nr x = sc_verdict c nr x).
  { intros v c Hc nr' x'. destruct (decide (nr' = "ioctl")) as [->|Hne].
    - rewrite Hc. by apply law_rule_allowed.
    - by apply law_rule_other. }
  unfold seccomp_core_add_ioctl_filter. destruct fds as [|fd fds].
  - unfold seccomp_core_allow. pose proof (Hadd "ioctl" None ctx) as Hn. specialize (Hstep None ctx Hio nr x).
    destruct (sc_rule_add SCMP_ACT_ALLOW "ioctl" None ctx) as [rc c]. simpl in *. by rewrite Hn.
  - generalize (fd :: fds) as l. clear fd fds. intros l. revert ctx Hio.
    induction l as [|fd l IH]; intros ctx Hio; [done|]. cbn [ioctl_rules].
    pose proof (Hadd "ioctl" (Some (u32 fd)) ctx) as Hn. pose proof (Hstep (Some (u32 fd)) ctx Hio) as Hs.
    destruct (sc_rule_add SCMP_ACT_ALLOW "ioctl" (Some (u32 fd)) ctx) as [rc c]. cbn [fst snd] in *. rewrite Hn. cbn [Z.ltb Z.compare].
    destruct (IH c) as [H1 H2]; [intros y; by rewrite Hs|]. by rewrite H2, Hs.
Qed.

Lemma ioctl_common : "ioctl" ∈ common_syscalls.
Proof. apply (bool_decide_unpack _). vm_compute. exact I. Qed.

Lemma incl_common l : bool_decide (Forall (fun nr => nr ∈ common_syscalls) l) = true ->
  forall nr, nr ∈ l -> nr ∈ common_syscalls.
Proof. intros Hl%bool_decide_eq_true nr Hnr. by apply (proj1 (Forall_forall _ _) Hl). Qed.

Lemma policy_verdict t fds nr x (ctx : C) : addable ->
  (policy_apply t fds ctx).1 = 0 /\
  sc_verdict (policy_apply t fds ctx).2 nr x =
    if decide (nr ∈ profile t) then SCMP_ACT_ALLOW else sc_verdict ctx nr x.
Proof.
  intros Hadd. set (common := allow_all common_syscalls ctx).
  assert (Hc : forall nr x, sc_verdict common nr x = if decide (nr ∈ common_syscalls) then SCMP_ACT_ALLOW else sc_verdict ctx nr x).
  { intros. by apply allow_all_verdict. }
  assert (Hio : forall y, sc_verdict common "ioctl" y = SCMP_ACT_ALLOW).
  { intros y. rewrite Hc, decide_True; [done|exact ioctl_common]. }
  destruct (ioctl_filter_verdict fds nr x Hadd common Hio) as [F1 F2]. rewrite Hc in F2.
  destruct t; cbn [policy_apply profile]; unfold seccomp_policy_audio_apply, seccomp_policy_sensor_apply,
    seccomp_policy_camera_apply, seccomp_policy_network_apply, seccomp_policy_minimal_apply,
    seccomp_core_apply_common, seccomp_core_allow_networking; cbn [fst snd Z.ltb Z.compare]; fold common; try done.
  - destruct (seccomp_core_add_ioctl_filter fds common) as [rc c]. cbn [fst snd] in *. rewrite F1. cbn [Z.ltb Z.compare fst snd].
    split; [done|]. rewrite allow_all_verdict, F2 by done.
    destruct (decide (nr ∈ ["mlock"; "munlock"])) as [Hm|]; [|done].
    rewrite decide_True; [done|]. revert Hm. apply incl_common. vm_compute. reflexivity.
  - split; [done|]. rewrite !allow_all_verdict, Hc by done.
    destruct (decide (nr ∈ ["ioctl"; "setsockopt"; "getsockopt"; "poll"; "ppoll"; "select"])) as [Hm|].
    + rewrite decide_True; [done|]. apply elem_of_app. left. revert Hm. apply incl_common. vm_compute. reflexivity.
    + clear. generalize common_syscalls networking_syscalls. intros l1 l2.
      destruct (decide (nr ∈ l2)), (decide (nr ∈ l1)), (decide (nr ∈ l1 ++ l2)); set_solver.
Qed.

(** C28: If no rule is refused, the filter that a service loads gives each system call,
    whatever its arguments, exactly this: the calls of its profile are allowed; any
    other call is trapped if monitoring was set up before, and otherwise only logged,
    so that without monitoring every call is executed.  The profiles of all services
    have the common calls, [execve], [fork], [socket] and [ioctl] on any descriptor
    among them. *)
Theorem seccomp_filter_exact openfd mem nnp cfg s s' (c : C) : addable ->
  seccomp_apply_config openfd mem nnp (Some cfg) s = (0, s', Some c) ->
  (forall nr x, sc_verdict c nr x =
     if decide (nr ∈ profile (type cfg)) then SCMP_ACT_ALLOW
     else if monitoring_enabled s then SCMP_ACT_TRAP else SCMP_ACT_LOG) /\
  (monitoring_enabled s = false -> forall nr x, executes (sc_verdict c nr x) = true) /\
  (forall nr x, nr ∈ ["execve"; "fork"; "socket"; "ioctl"] -> sc_verdict c nr x = SCMP_ACT_ALLOW).
Proof.
  intros Hadd Ha. unfold seccomp_apply_config in Ha.
  set (s1 := if enable_arg_filtering cfg then _ else s) in Ha.
  assert (Hm : monitoring_enabled s1 = monitoring_enabled s).
  { unfold s1, seccomp_core_setup_device_fds. by repeat case_match. }
  destruct (sc_init (if monitoring_enabled s1 then SCMP_ACT_TRAP else SCMP_ACT_LOG)) as [c0|] eqn:Hinit; [|done].
  assert (Hva : forall nr x, sc_verdict (seccomp_core_validate_architecture c0).2 nr x =
     if monitoring_enabled s then SCMP_ACT_TRAP else SCMP_ACT_LOG).
  { intros nr x. rewrite <- Hm. rewrite <- (law_init _ c0 nr x Hinit). unfold seccomp_core_validate_architecture.
    pose proof (law_arch_add sc_arch_native c0 nr x) as Hadd'. destruct (sc_arch_add sc_arch_native c0) as [rc c1].
    cbn [snd] in Hadd'. destruct ((rc <? 0) && negb (rc =? - EEXIST)); cbn [snd]; [done|]. by rewrite law_arch_remove. }
  destruct (seccomp_core_validate_architecture c0) as [rc1 c1]. destruct (rc1 <? 0); [done|].
  pose proof (fun nr x => policy_verdict (type cfg) (allowed_fds s1) nr x c1 Hadd) as Hpol.
  destruct (policy_apply (type cfg) (allowed_fds s1) c1) as [rc2 c2]. destruct (negb (rc2 =? 0)); [done|].
  destruct (nnp <? 0); [done|]. destruct (negb (sc_load c2 =? 0)); [done|]. injection Ha as _ <-.
  assert (Hv : forall nr x, sc_verdict c2 nr x = if decide (nr ∈ profile (type cfg)) then SCMP_ACT_ALLOW
     else if monitoring_enabled s then SCMP_ACT_TRAP else SCMP_ACT_LOG).
  { intros nr x. destruct (Hpol nr x) as [_ Hp]. cbn [snd] in *. by rewrite Hp, Hva. }
  split_and!; [done| |].
  - intros Hoff nr x. rewrite Hv, Hoff. by case_decide.
  - intros nr x Hnr. rewrite Hv, decide_True; [done|].
    assert (Hc : nr ∈ common_syscalls) by (revert Hnr; apply incl_common; vm_compute; reflexivity).
    destruct (type cfg); cbn [profile]; try exact Hc. apply elem_of_app. by left.
Qed.
End laws.

(** ** On concrete inputs *)

(** Contexts as lists of rules, the last one that applies counts. *)
Record rules := mk_rules { default_action : action; added : list (action * string * option Z) }.

Definition rule_applies (nr : string) (x : Z) (r : action * string * option Z) : bool :=
  let '(_, n, v) := r in String.eqb n nr && match v with Some y => y =? x | None => true end.

Definition rules_verdict (c : rules) (nr : string) (x : Z) : action :=
  match List.find (rule_applies nr x) (added c) with
  | Some (a, _, _) => a
  | None => default_action c
  end.

#[local] Instance rules_seccomp : Seccomp rules := {
  sc_init a := Some (mk_rules a []);
  sc_arch_native := 0xC000003E;
  sc_arch_add _ c := (- EEXIST, c);
  sc_arch_remove _ c := (0, c);
  sc_rule_add a nr v c := (0, mk_rules (default_action c) ((a, nr, v) :: added c));
  sc_load _ := 0;
  sc_verdict := rules_verdict
}.

#[local] Instance rules_laws : SeccompLaws rules.
Proof.
  constructor; cbn -[rules_verdict]; try done.
  - by intros a c nr x [= <-].
  - intros a nr x c _. unfold rules_verdict. cbn. by rewrite String.eqb_refl.
  - intros nr v x c Hv. unfold rules_verdict in *. cbn -[rule_applies]. by destruct (rule_applies nr x _).
  - intros a nr v nr' x c Hne. unfold rules_verdict. cbn. by rewrite (proj2 (String.eqb_neq _ _)).
Qed.

Definition no_device (path : string) : Z := -1.

Lemma seccomp_filter_exact_witness :
  exists c, seccomp_apply no_device true 0 SERVICE_TYPE_MINIMAL seccomp_state0 = (0, seccomp_state0, Some c) /\
    sc_verdict c "execve" 0 = SCMP_ACT_ALLOW /\ sc_verdict c "ptrace" 0 = SCMP_ACT_LOG.
Proof.
  destruct (seccomp_apply no_device true 0 SERVICE_TYPE_MINIMAL seccomp_state0) as [[rc s'] [c|]] eqn:Ha;
    [|vm_compute in Ha; discriminate Ha].
  assert (Hrs : rc = 0 /\ s' = seccomp_state0) by (vm_compute in Ha; injection Ha as <- <- _; split; reflexivity).
  destruct Hrs as [-> ->]. exists c. split; [reflexivity|].
  destruct (seccomp_filter_exact (H:=rules_laws) no_device true 0 _ _ _ c (fun nr v c => eq_refl) Ha) as (H1 & _ & H3).
  split; [apply H3; apply (bool_decide_unpack _); vm_compute; exact I|]. rewrite H1. vm_compute. reflexivity.
Defined.
