(* ===== verification/CText.v ===== *)
(** * Text as the C library treats it

    Lines of [fgets], trimming, [strchr], case folding and the conversions to numbers,
    shared by the readers of configuration files. *)

From S2P Require Import Prelude.

(** ** Characters and cases *)

Definition newline : ascii := "010"%char.
Definition is_char (d c : ascii) : bool := Ascii.eqb c d.

Definition tolower (c : ascii) : ascii :=
  if (65 <=? byte_of c) && (byte_of c <=? 90) then ascii_of_N (Z.to_N (byte_of c + 32)) else c.
Definition toupper (c : ascii) : ascii :=
  if (97 <=? byte_of c) && (byte_of c <=? 122) then ascii_of_N (Z.to_N (byte_of c - 32)) else c.

Fixpoint smap (f : ascii -> ascii) (s : string) : string :=
  match s with EmptyString => EmptyString | String c s' => String (f c) (smap f s') end.

Definition lower : string -> string := smap tolower.
Definition upper : string -> string := smap toupper.

(** [strcasecmp (a, b) == 0]. *)
Definition strcaseeq (a b : string) : bool := String.eqb (lower a) (lower b).

(** ** Cutting *)

(** The text before and after the first [d], if there is one ([strchr]). *)
Fixpoint cut (d : ascii) (s : string) : option (string * string) :=
  match s with
  | EmptyString => None
  | String c s' => if Ascii.eqb c d then Some (EmptyString, s')
                   else (fun '(a, b) => (String c a, b)) <$> cut d s'
  end.

(** The text before the first [d], all of it if there is none. *)
Definition before (d : ascii) (s : string) : string :=
  match cut d s with Some (a, _) => a | None => s end.

Fixpoint ltrim (p : ascii -> bool) (s : string) : string :=
  match s with String c s' => if p c then ltrim p s' else s | EmptyString => EmptyString end.

Fixpoint rtrim (p : ascii -> bool) (s : string) : string :=
  match s with
  | EmptyString => EmptyString
  | String c s' => match rtrim p s' with
                   | EmptyString => if p c then EmptyString else String c EmptyString
                   | t => String c t
                   end
  end.

Definition trim (s : string) : string := rtrim isspace (ltrim isspace s).

(** The lines that successive calls of [fgets (line, size, f)] give, with [room] = size - 1
    places; [left]: the places left in the line begun in [acc]. *)
Fixpoint fgets_from (room left : nat) (acc : string) (text : string) : list string :=
  match text with
  | EmptyString => match acc with EmptyString => [] | _ => [acc] end
  | String c text' =>
      let acc' := (acc ++ String c EmptyString)%string in
      match left with
      | O | S O => acc' :: fgets_from room room EmptyString text'
      | S left' => if Ascii.eqb c newline then acc' :: fgets_from room room EmptyString text'
                   else fgets_from room left' acc' text'
      end
  end.

Definition fgets_lines (size : nat) (text : string) : list string :=
  fgets_from (size - 1) (size - 1) EmptyString text.

(** ** Numbers *)

(** The digits at the start of a text, below the base: their value and how many they are. *)
Fixpoint digits (base : Z) (s : string) (acc : Z) (n : nat) : Z * nat :=
  match s with
  | String c s' => let d := byte_of c - 48 in
                   if (0 <=? d) && (d <? base) then digits base s' (acc * base + d) (S n) else (acc, n)
  | EmptyString => (acc, n)
  end.

(** A sign and digits after white space; [None]: no digits ([*endptr == s]). *)
Definition strto (base : Z) (s : string) : option Z :=
  let s := ltrim isspace s in
  let '(neg, s) := match s with
                   | String c s' => if Ascii.eqb c "-" then (true, s')
                                    else if Ascii.eqb c "+" then (false, s') else (false, s)
                   | EmptyString => (false, s)
                   end in
  let '(v, n) := digits base s 0 0 in
  match n with O => None | S _ => Some (if neg : bool then - v else v) end.

(** [strtol]: values out of range are the nearest [long]. *)
Definition strtol (base : Z) (s : string) : option Z :=
  (fun v => Z.max (- 2 ^ 63) (Z.min (2 ^ 63 - 1) v)) <$> strto base s.

(** [strtoul]: magnitudes out of range are the greatest [unsigned long], a minus sign negates. *)
Definition strtoul (base : Z) (s : string) : option Z :=
  (fun v => if 2 ^ 64 <=? Z.abs v then 2 ^ 64 - 1 else u64 v) <$> strto base s.

Definition atoi (s : string) : Z := i32 (default 0 (strtol 10 s)).

(** ** Lemmas *)

Lemma string_length_app (a b : string) : String.length (a ++ b) = (String.length a + String.length b)%nat.
Proof. induction a as [|c a IH]; [done|]. apply (f_equal S). exact IH. Qed.

Lemma append_cons c a b : (String c a ++ b)%string = String c (a ++ b).
Proof. reflexivity. Qed.

Lemma append_nil b : ("" ++ b)%string = b.
Proof. reflexivity. Qed.

Lemma list_ascii_app a b :
  list_ascii_of_string (a ++ b) = list_ascii_of_string a ++ list_ascii_of_string b.
Proof. induction a as [|c a IH]; [done|]. apply (f_equal (cons c)). exact IH. Qed.

Lemma append_assoc (a b c : string) : ((a ++ b) ++ c)%string = (a ++ (b ++ c))%string.
Proof. induction a as [|x a IH]; [done|]. apply (f_equal (String x)). exact IH. Qed.

Lemma append_empty (a : string) : (a ++ "")%string = a.
Proof. induction a as [|x a IH]; [done|]. apply (f_equal (String x)). exact IH. Qed.

(** Every character satisfies [p]. *)
Definition all (p : ascii -> Prop) (s : string) : Prop := Forall p (list_ascii_of_string s).

Lemma all_cons p c s : all p (String c s) <-> p c /\ all p s.
Proof. apply Forall_cons. Qed.

Lemma all_app p a b : all p (a ++ b) <-> all p a /\ all p b.
Proof. unfold all. rewrite list_ascii_app. apply Forall_app. Qed.

Lemma all_impl (p q : ascii -> Prop) s : all p s -> (forall c, p c -> q c) -> all q s.
Proof. intros Hp Hq. eapply Forall_impl; [exact Hp|exact Hq]. Qed.

Lemma smap_length f s : String.length (smap f s) = String.length s.
Proof. induction s; simpl; congruence. Qed.

Lemma smap_id f s : all (fun c => f c = c) s -> smap f s = s.
Proof.
  induction s as [|c s IH]; [done|]. rewrite all_cons. intros [Hc Hs]. simpl. by rewrite Hc, IH.
Qed.

Lemma byte_of_ascii b : 0 <= b < 256 -> byte_of (ascii_of_N (Z.to_N b)) = b.
Proof. intros Hb. unfold byte_of. rewrite N_ascii_embedding by lia. lia. Qed.

Lemma tolower_idem c : tolower (tolower c) = tolower c.
Proof.
  unfold tolower at 2. destruct ((65 <=? byte_of c) && (byte_of c <=? 90)) eqn:Hc;
    [|unfold tolower; by rewrite Hc].
  apply andb_true_iff in Hc as [H1%Z.leb_le H2%Z.leb_le]. unfold tolower.
  rewrite (byte_of_ascii (byte_of c + 32)) by lia.
  destruct (Z.leb_spec (byte_of c + 32) 90); [lia|]. rewrite andb_false_r.
  destruct ((65 <=? byte_of c) && (byte_of c <=? 90)) eqn:Hd; [done|].
  apply andb_false_iff in Hd as [Hd%Z.leb_gt|Hd%Z.leb_gt]; lia.
Qed.

Lemma lower_idem s : lower (lower s) = lower s.
Proof. induction s as [|c s IH]; [done|]. cbn. by rewrite tolower_idem, IH. Qed.

Lemma lower_strncpy n s : lower (strncpy_z n s) = strncpy_z n (lower s).
Proof. revert s. induction n as [|n IH]; intros [|c s]; try done. cbn. by rewrite IH. Qed.

Lemma strcaseeq_lower a b : strcaseeq a b = true <-> lower a = lower b.
Proof. apply String.eqb_eq. Qed.

Lemma cut_app d a b : all (fun c => c <> d) a -> cut d (a ++ String d b) = Some (a, b).
Proof.
  induction a as [|c a IH]; intros Ha.
  - rewrite append_nil. cbn -[Ascii.eqb]. by rewrite Ascii.eqb_refl.
  - apply all_cons in Ha as [Hc Ha]. rewrite append_cons. cbn -[Ascii.eqb].
    destruct (Ascii.eqb_spec c d) as [->|_]; [done|]. by rewrite IH.
Qed.

Lemma cut_none d a : all (fun c => c <> d) a -> cut d a = None.
Proof.
  induction a as [|c a IH]; intros Ha; [done|]. apply all_cons in Ha as [Hc Ha]. cbn -[Ascii.eqb].
  destruct (Ascii.eqb_spec c d) as [->|_]; [done|]. by rewrite IH.
Qed.

Lemma before_none d a : all (fun c => c <> d) a -> before d a = a.
Proof. intros Ha. unfold before. by rewrite cut_none. Qed.

Lemma rtrim_app p a t : all (fun c => p c = true) t -> rtrim p (a ++ t) = rtrim p a.
Proof.
  intros Ht. assert (Hn : rtrim p t = ""%string).
  { induction t as [|c t IH]; [done|]. apply all_cons in Ht as [Hc Ht]. cbn. by rewrite IH, Hc. }
  induction a as [|c a IH]; [done|]. rewrite append_cons. cbn. by rewrite IH.
Qed.

Lemma ltrim_app p t a : all (fun c => p c = true) t -> ltrim p (t ++ a) = ltrim p a.
Proof.
  induction t as [|c t IH]; intros Ht; [done|]. apply all_cons in Ht as [Hc Ht]. rewrite append_cons. cbn. rewrite Hc. by apply IH.
Qed.

(** Neither end is white space. *)
Definition trimmed (s : string) : Prop := trim s = s /\ ltrim isspace s = s.

Lemma trim_around a s b : trimmed s -> all (fun c => isspace c = true) a -> all (fun c => isspace c = true) b ->
  s <> ""%string -> trim (a ++ s ++ b) = s.
Proof.
  intros [Ht Hl] Ha Hb Hne. unfold trim. rewrite ltrim_app by done.
  assert (Hl2 : ltrim isspace (s ++ b) = (s ++ b)%string).
  { destruct s as [|c s]; [done|]. rewrite append_cons. cbn in *. destruct (isspace c) eqn:Hc; [|done]. exfalso.
    clear -Hl. assert (Hlen : forall t, (String.length (ltrim isspace t) <= String.length t)%nat).
    { induction t as [|x t IH]; [done|]. cbn. destruct (isspace x); [cbn; lia|done]. }
    specialize (Hlen s). rewrite Hl in Hlen. cbn in Hlen. lia. }
  rewrite Hl2, rtrim_app by done. unfold trim in Ht. by rewrite Hl in Ht.
Qed.

(** One line of a text is one line of [fgets], if there is room for it. *)
Lemma fgets_line room l rest : all (fun c => c <> newline) l -> forall acc left,
  (String.length l < left)%nat ->
  fgets_from room left acc (l ++ String newline rest) =
    (acc ++ l ++ String newline "")%string :: fgets_from room room "" rest.
Proof.
  induction l as [|c l IH]; intros Hl acc left Hroom.
  - destruct left as [|[|left]]; cbn in Hroom; try lia; [|]; done.
  - apply all_cons in Hl as [Hc Hl]. cbn in Hroom. destruct left as [|[|left]]; try lia.
    rewrite append_cons. cbn -[Ascii.eqb newline append]. destruct (Ascii.eqb_spec c newline); [done|].
    rewrite IH by (done || lia). f_equal. by rewrite append_assoc.
Qed.

Lemma digits_app base a b acc n :
  all (fun c => 0 <= byte_of c - 48 < base) a ->
  digits base (a ++ b) acc n =
    let '(v, k) := digits base a acc n in digits base b v k.
Proof.
  revert acc n. induction a as [|c a IH]; intros acc n Ha; [done|]. apply all_cons in Ha as [Hc Ha].
  rewrite append_cons. cbn -[byte_of Z.mul Z.sub Z.leb Z.ltb Z.add]. assert (Hb : (0 <=? byte_of c - 48) && (byte_of c - 48 <? base) = true) by lia. rewrite Hb. by apply IH.
Qed.

Lemma rtrim_fixed p a t : rtrim p t = t -> t <> ""%string -> rtrim p (a ++ t) = (a ++ t)%string.
Proof.
  intros Ht Hne. induction a as [|c a IH]; [done|]. rewrite append_cons. cbn. rewrite IH.
  by destruct a, t.
Qed.

Lemma nonspace_trimmed s : all (fun c => isspace c = false) s -> trimmed s.
Proof.
  intros Hs. assert (Hl : ltrim isspace s = s).
  { destruct s as [|c s]; [done|]. apply all_cons in Hs as [Hc _]. cbn. by rewrite Hc. }
  split; [|done]. unfold trim. rewrite Hl. clear Hl. induction s as [|c s IH]; [done|].
  apply all_cons in Hs as [Hc Hs]. cbn. rewrite IH, Hc by done. by destruct s.
Qed.

(** A text is trimmed if it begins with a word and ends with a trimmed one. *)
Lemma trimmed_app a b : trimmed a -> trimmed b -> a <> ""%string -> b <> ""%string ->
  forall m, trimmed (a ++ m ++ b).
Proof.
  intros [_ Ha] [Hb Hb2] Hne1 Hne2 m. assert (Hl : ltrim isspace (a ++ m ++ b) = (a ++ m ++ b)%string).
  { destruct a as [|c a]; [done|]. rewrite append_cons. cbn in *. destruct (isspace c); [|done]. exfalso.
    clear -Ha. assert (Hlen : forall t, (String.length (ltrim isspace t) <= String.length t)%nat).
    { induction t as [|x t IH]; [done|]. cbn. destruct (isspace x); [cbn; lia|done]. }
    specialize (Hlen a). rewrite Ha in Hlen. cbn in Hlen. lia. }
  split; [|done]. unfold trim in *. rewrite Hl. rewrite <- append_assoc.
  apply rtrim_fixed; [|done]. by rewrite Hb2 in Hb.
Qed.

(** ** Numbers in decimal *)

Definition digit (d : Z) : ascii := ascii_of_N (Z.to_N (48 + d)).

Lemma byte_digit d : 0 <= d < 10 -> byte_of (digit d) = 48 + d.
Proof. intros Hd. apply byte_of_ascii. lia. Qed.

(** The digits of a number in front of a text; [fuel]: more than it has. *)
Fixpoint decimal_from (fuel : nat) (n : Z) (acc : string) : string :=
  match fuel with
  | O => acc
  | S f => let acc := String (digit (n mod 10)) acc in
           if n <? 10 then acc else decimal_from f (n / 10) acc
  end.

Definition decimal (z : Z) : string :=
  if z <? 0 then String "-" (decimal_from 20 (- z) "") else decimal_from 20 z "".

Definition is_digit (c : ascii) : Prop := 48 <= byte_of c <= 57.

Lemma decimal_from_spec fuel : forall n acc, 0 <= n < 10 ^ Z.of_nat fuel ->
  exists ds, decimal_from fuel n acc = (ds ++ acc)%string /\ all is_digit ds /\
    (String.length ds <= fuel)%nat /\ ((0 < fuel)%nat -> ds <> ""%string) /\
    forall v k rest, exists k', digits 10 (ds ++ rest) v k = digits 10 rest (v * 10 ^ Z.of_nat (String.length ds) + n) k' /\
      ((0 < fuel)%nat -> (0 < k')%nat).
Proof.
  induction fuel as [|f IH]; intros n acc Hn.
  - exists ""%string. repeat (apply conj); [done|constructor|done|intros; lia|]. intros v k rest. exists k. change (10 ^ Z.of_nat 0) with 1 in *.
    split; [|lia]. rewrite append_nil. f_equal. cbn [String.length]. change (10 ^ Z.of_nat 0) with 1. lia.
  - cbn [decimal_from]. pose proof (Z.mod_pos_bound n 10 ltac:(lia)) as Hm.
    assert (Hd : forall rest v k, digits 10 (String (digit (n mod 10)) rest) v k = digits 10 rest (v * 10 + n mod 10) (S k)).
    { intros rest v k. cbn [digits]. rewrite byte_digit by lia.
      replace (48 + n mod 10 - 48) with (n mod 10) by lia.
      assert (Hb : (0 <=? n mod 10) && (n mod 10 <? 10) = true) by lia. by rewrite Hb. }
    assert (Hdig : is_digit (digit (n mod 10))) by (unfold is_digit; rewrite byte_digit; lia).
    destruct (Z.ltb_spec n 10) as [Hlt|Hge].
    + exists (String (digit (n mod 10)) ""). rewrite Z.mod_small in * by lia. split_and!; try done; [by apply Forall_singleton|cbn; lia|].
      intros v k rest. exists (S k). split; [|lia]. rewrite append_cons, append_nil, Hd.
      change (10 ^ Z.of_nat (String.length (String (digit n) ""))) with 10. done.
    + destruct (IH (n / 10) (String (digit (n mod 10)) acc)) as (ds & Hds & Hall & Hlen & Hne & Hdg).
      { rewrite Nat2Z.inj_succ, Z.pow_succ_r in Hn by lia. split; [apply Z.div_pos; lia|apply Z.div_lt_upper_bound; lia]. }
      exists (ds ++ String (digit (n mod 10)) "")%string. split_and!.
      * by rewrite Hds, append_assoc.
      * apply all_app. split; [done|by apply Forall_singleton].
      * rewrite string_length_app. cbn. lia.
      * intros _. by destruct ds.
      * intros v k rest. destruct (Hdg v k (String (digit (n mod 10)) rest)) as (k' & Hk & _). exists (S k'). split; [|lia].
        rewrite append_assoc, append_cons, append_nil, Hk, Hd. f_equal. rewrite string_length_app. cbn [String.length].
        rewrite Nat2Z.inj_add, Z.pow_add_r by lia. change (10 ^ Z.of_nat 1) with 10.
        pose proof (Z.div_mod n 10 ltac:(lia)). lia.
Qed.

(** A printed number is plain text. *)
Definition num_char (c : ascii) : Prop := is_digit c \/ c = "-"%char.

Lemma decimal_plain z : - 10 ^ 20 < z < 10 ^ 20 ->
  all num_char (decimal z) /\ decimal z <> ""%string /\ (String.length (decimal z) <= 21)%nat.
Proof.
  intros Hz. unfold decimal. destruct (Z.ltb_spec z 0).
  - destruct (decimal_from_spec 20 (- z) "") as (ds & Hd & Ha & Hl & _); [change (Z.of_nat 20) with 20; lia|].
    rewrite Hd, append_empty. split_and!; [|done|cbn; lia]. apply all_cons. split; [by right|]. eapply all_impl; [exact Ha|]. by left.
  - destruct (decimal_from_spec 20 z "") as (ds & Hd & Ha & Hl & Hne & _); [change (Z.of_nat 20) with 20; lia|].
    rewrite Hd, append_empty. split_and!; [eapply all_impl; [exact Ha|by left]|apply Hne; lia|lia].
Qed.

Lemma num_char_nonspace c : num_char c -> isspace c = false.
Proof.
  intros [Hc| ->]; [|done]. unfold isspace, is_digit in *. apply orb_false_iff. split; [lia|].
  apply andb_false_iff. right. lia.
Qed.

Lemma digit_first c s : is_digit c -> strto 10 (String c s) =
  let '(v, n) := digits 10 (String c s) 0 0 in match n with O => None | S _ => Some v end.
Proof.
  intros Hc. unfold strto. cbn [ltrim]. rewrite num_char_nonspace by (by left).
  assert (Hn : forall d, byte_of d < 48 -> Ascii.eqb c d = false).
  { intros d Hd. apply Ascii.eqb_neq. intros ->. unfold is_digit in Hc. lia. }
  rewrite (Hn "-"%char), (Hn "+"%char) by (vm_compute; reflexivity). done.
Qed.

Lemma strto_decimal z : - 10 ^ 20 < z < 10 ^ 20 -> strto 10 (decimal z) = Some z.
Proof.
  intros Hz. unfold decimal. destruct (Z.ltb_spec z 0).
  - destruct (decimal_from_spec 20 (- z) "") as (ds & Hd & Ha & Hl & Hne & Hdg); [change (Z.of_nat 20) with 20; lia|].
    rewrite Hd, append_empty. unfold strto. cbn [ltrim]. rewrite num_char_nonspace by (by right). cbn [Ascii.eqb Bool.eqb].
    destruct (Hdg 0 0%nat ""%string) as (k' & Hk & Hpos). rewrite append_empty in Hk. rewrite Hk. cbn [digits].
    destruct k'; [lia|]. f_equal. lia.
  - destruct (decimal_from_spec 20 z "") as (ds & Hd & Ha & Hl & Hne & Hdg); [change (Z.of_nat 20) with 20; lia|].
    rewrite Hd, append_empty. destruct (Hdg 0 0%nat ""%string) as (k' & Hk & Hpos). rewrite append_empty in Hk.
    destruct ds as [|c ds]; [by destruct Hne; [lia|]|]. apply all_cons in Ha as [Hc _].
    rewrite digit_first, Hk by done. cbn [digits]. destruct k'; [lia|]. f_equal; lia.
Qed.

Lemma atoi_decimal z : - 2 ^ 31 <= z < 2 ^ 31 -> atoi (decimal z) = z.
Proof.
  intros Hz. unfold atoi, strtol. rewrite strto_decimal by lia. cbn [fmap option_fmap option_map default from_option id].
  rewrite Z.min_r, Z.max_r by lia. by apply i32_small.
Qed.

(** ** Whole texts *)

Definition line_end : string := String newline "".

(** Lines without line ends, short enough for the buffer, are read one by one. *)
Lemma fgets_all size ls : Forall (fun l => all (fun c => c <> newline) l /\ (S (String.length l) < size)%nat) ls ->
  fgets_lines size (String.concat "" ((fun l => l ++ line_end)%string <$> ls)) = (fun l => l ++ line_end)%string <$> ls.
Proof.
  intros Hf. unfold fgets_lines. induction Hf as [|l ls [Hl Hlen] _ IH]; [done|]. cbn [fmap list_fmap].
  assert (Hc : forall a r, String.concat "" (a :: r) = (a ++ String.concat "" r)%string).
  { intros a r. cbn. destruct r; [by rewrite append_empty|done]. }
  rewrite Hc, append_assoc. change (line_end ++ ?r)%string with (String newline r).
  rewrite fgets_line by (done || lia). rewrite append_nil. f_equal. exact IH.
Qed.

(** A key, a separator and a trimmed value, with a line end behind them. *)
Lemma trim_setting k d v : trimmed k -> k <> ""%string -> isspace d = false -> trimmed v ->
  trim ((k ++ String d v) ++ line_end) = (k ++ String d v)%string.
Proof.
  intros [_ Hk] Hne Hd [Hv Hv2]. assert (Hl : forall t, ltrim isspace (k ++ t) = (k ++ t)%string).
  { intros t. destruct k as [|c k]; [done|]. rewrite append_cons. cbn in *. destruct (isspace c) eqn:Hc; [|done]. exfalso.
    assert (Hlen : forall t, (String.length (ltrim isspace t) <= String.length t)%nat).
    { clear. induction t as [|x t IH]; [done|]. cbn. destruct (isspace x); [cbn; lia|done]. }
    specialize (Hlen k). rewrite Hk in Hlen. cbn in Hlen. lia. }
  unfold trim. rewrite append_assoc, Hl, <- append_assoc, rtrim_app by (by repeat constructor).
  unfold trim in Hv. rewrite Hv2 in Hv. apply rtrim_fixed; [|done]. cbn. rewrite Hv, Hd. by destruct v.
Qed.
