(* ===== verification/Management.v ===== *)
(** * The management interface (lifecycle/sm_management.c)

    HTTP requests on the loopback interface, authenticated by an HMAC: the parser, the
    check of the digest, the three endpoints, the reply, and the life of the worker.  It
    is a client of [Crypto], [Registry] and [Metrics]. *)

From S2P Require Import Prelude CText Crypto Protocol Registry Metrics.

(** ** Requests *)

(** [dev/core/service_manager/lifecycle/sm_management.c:40-46 http_request_t] the body is
    never set. *)
Record http_request_t := mk_http { method : string; path : string; auth_header : string; content_length : Z }.

Definition return_char : ascii := "013"%char.
Definition crlf : string := String return_char (String newline "").

(** The text without a last [d], if it has one. *)
Definition chop (d : ascii) (s : string) : string :=
  match String.length s with
  | O => s
  | S n => if String.eqb (String.substring n 1 s) (String d "") then String.substring 0 n s else s
  end.

(** Where [pat] first is ([strstr]). *)
Fixpoint find_text (pat s : string) : option nat :=
  if String.prefix pat s then Some O
  else match s with EmptyString => None | String _ s' => S <$> find_text pat s' end.

(** [%ns] of [sscanf]: the word and what follows it; None: there is none. *)
Fixpoint word_of (n : nat) (s : string) : string * string :=
  match n, s with
  | S n', String c s' => if isspace c then (EmptyString, s) else let '(w, r) := word_of n' s' in (String c w, r)
  | _, _ => (EmptyString, s)
  end.
Definition scan_word (n : nat) (s : string) : option (string * string) :=
  match word_of n (ltrim isspace s) with (EmptyString, _) => None | r => Some r end.

(** The text after [n] characters. *)
Definition past (n : nat) (s : string) : string := String.substring n (String.length s - n) s.

(** [strncasecmp (s, pat, strlen (pat)) == 0]. *)
Definition starts_with (pat s : string) : bool := String.prefix (lower pat) (lower s).

(** [dev/core/service_manager/lifecycle/sm_management.c:110-132 parse_http_request, a header]
    [line]: without its end; [cur]: the text from it on, where white space is skipped
    beyond the line; a value that is not in the line has no length there. *)
Definition header (line cur : string) (req : http_request_t) : http_request_t :=
  let line := chop return_char line in
  let req :=
    if starts_with "Authorization:" cur then
      let value := ltrim isspace (past 14 line) in
      if (0 <? String.length value)%nat && (String.length value <? 255)%nat
      then mk_http (method req) (path req) value (content_length req) else req
    else req in
  if starts_with "Content-Length:" cur
  then mk_http (method req) (path req) (auth_header req) (atoi (past 15 cur))
  else req.

(** [dev/core/service_manager/lifecycle/sm_management.c:99-134 parse_http_request, the loop]
    [left]: how far the end of the headers is; [fuel] at least [left] is enough. *)
Fixpoint headers (fuel left : nat) (cur : string) (req : http_request_t) : http_request_t :=
  match fuel with
  | O => req
  | S fuel =>
      if Nat.eqb left 0 then req
      else match cut newline cur with
           | None => req
           | Some (line, rest) =>
               let req := if (String.length line <? 2)%nat then req else header line cur req in
               headers fuel (left - S (String.length line)) rest req
           end
  end.

(** [dev/core/service_manager/lifecycle/sm_management.c:64-135 parse_http_request] *)
Definition parse_http_request (raw : string) : option http_request_t :=
  '(first, rest) ← cut newline raw;
  if (511 <? String.length first)%nat then None
  else
    '(m, line) ← scan_word 15 (chop return_char first);
    '(p, _) ← scan_word 255 line;
    left ← match find_text (crlf ++ crlf) rest with
           | Some n => Some n
           | None => find_text (String newline (String newline "")) rest
           end;
    Some (headers left left rest (mk_http m p "" 0)).

(** ** Authentication *)

Definition hex_value (c : ascii) : option Z :=
  let b := byte_of c in
  if (48 <=? b) && (b <=? 57) then Some (b - 48)
  else if (97 <=? b) && (b <=? 102) then Some (b - 87)
  else if (65 <=? b) && (b <=? 70) then Some (b - 55)
  else None.

(** [%2hhx] of [sscanf] (of the GNU library, where a lone "0x" is 0): two characters after
    white space, of which the first may be a sign. *)
Definition scan_hh (s : string) : option Z :=
  match ltrim isspace s with
  | String a s' =>
      match hex_value a, s' with
      | Some h, String b _ => match hex_value b with Some l => Some (16 * h + l) | None => Some h end
      | Some h, EmptyString => Some h
      | None, String b _ =>
          if Ascii.eqb a "-" then (fun l => u8 (- l)) <$> hex_value b
          else if Ascii.eqb a "+" then hex_value b else None
      | None, EmptyString => None
      end
  | EmptyString => None
  end.

Fixpoint scan_bytes (s : string) : option (list Z) :=
  match s with
  | String _ (String _ s') => b ← scan_hh s; l ← scan_bytes s'; Some (b :: l)
  | _ => Some []
  end.

(** [dev/core/service_manager/lifecycle/sm_management.c:138-152 hex_to_bytes] *)
Definition hex_to_bytes (hex_str : string) (max_len : nat) : option (list Z) :=
  let len := String.length hex_str in
  if negb (Nat.eqb (len mod 2) 0) || (max_len <? len / 2)%nat then None else scan_bytes hex_str.

(** What is signed: METHOD|PATH|BODY. *)
Definition auth_data (req : http_request_t) (body : option string) : list Z :=
  ascii_bytes (method req ++ "|" ++ path req ++ "|" ++ default "" body)%string.

(** [dev/core/service_manager/lifecycle/sm_management.c:155-221 verify_request_auth] [mem]: the
    allocation succeeds. *)
Definition verify_request_auth (mem : bool) (ks : key_state) (req : http_request_t) (body : option string) : Z :=
  if String.eqb (auth_header req) "" then -1
  else if negb (String.prefix "HMAC-SHA256 " (auth_header req)) then -1
  else
    match hex_to_bytes (past 12 (auth_header req)) SM_HMAC_SIZE with
    | None => -1
    | Some digest =>
        if negb (Nat.eqb (length digest) SM_HMAC_SIZE) then -1
        else if negb mem then -1
        else
          match sm_crypto_get_key ks with
          | None => -1
          | Some key => if sm_hmac_verify (Some key) (Some (auth_data req body)) digest =? 0 then 0 else -1
          end
    end.

(** ** Replies *)

Definition MGMT_BODY_SIZE : Z := 8192.

(** [snprintf (buf + pos, max_len - pos, "%s", s)] on the text of [buf]; the result is added
    to [pos] by the caller.  None: [pos] is beyond the end, so that the size is huge and the
    call writes outside the buffer. *)
Definition print_at (max_len : Z) (text : string) (pos : Z) (s : string) : option (string * Z) :=
  if max_len <? pos then None
  else if pos =? max_len then Some (text, Z.of_nat (String.length s))
  else Some ((String.substring 0 (Z.to_nat pos) text ++ strncpy_z (Z.to_nat (max_len - pos - 1)) s)%string,
             Z.of_nat (String.length s)).

Definition quote : string := String "034" "".
Definition json_string (s : string) : string := quote ++ s ++ quote.
Definition json_field (k v : string) : string := json_string k ++ ":" ++ v.

(** [dev/core/service_manager/lifecycle/sm_management.c:224-240 handle_status] *)
Definition handle_status (m : sm_metrics_t) : string :=
  "{" ++ json_field "status" (json_string "running")
  ++ "," ++ json_field "requests" (decimal (m_total_requests m))
  ++ "," ++ json_field "errors" (decimal (m_total_errors m))
  ++ "," ++ json_field "ratelimit_hits" (decimal (m_total_ratelimit_hits m))
  ++ "," ++ json_field "avg_latency_us" (decimal (m_avg_latency_us m))
  ++ "," ++ json_field "peak_qps" (decimal (m_peak_qps m)) ++ "}".

(** [dev/core/service_manager/lifecycle/sm_management.c:243-262 handle_metrics] *)
Definition handle_metrics (m : sm_metrics_t) : string :=
  "{" ++ json_field "total_requests" (decimal (m_total_requests m))
  ++ "," ++ json_field "register" (decimal (m_total_register m))
  ++ "," ++ json_field "lookup" (decimal (m_total_lookup m))
  ++ "," ++ json_field "heartbeat" (decimal (m_total_heartbeat m))
  ++ "," ++ json_field "unregister" (decimal (m_total_unregister m))
  ++ "," ++ json_field "errors" (decimal (m_total_errors m))
  ++ "," ++ json_field "auth_failures" (decimal (m_total_auth_failures m))
  ++ "," ++ json_field "ratelimit_hits" (decimal (m_total_ratelimit_hits m)) ++ "}".

Definition status_code (s : service_status_t) : Z :=
  match s with SERVICE_RUNNING => 0 | SERVICE_STOPPED => 1 | SERVICE_CRASHED => 2 | SERVICE_DEAD => 3 end.

(** One service. *)
Definition service_json (e : service_entry_t) : string :=
  "{" ++ json_field "name" (json_string (name e)) ++ "," ++ json_field "pid" (decimal (pid e)) ++ ","
  ++ json_field "status" (decimal (status_code (status e))) ++ "}".

Definition truncated_json : string := "{" ++ json_field "name" (json_string "...(truncated)") ++ "}".

(** [dev/core/service_manager/lifecycle/sm_management.c:284-303 handle_services, the loop]
    [i]: services before; [n]: services that may still be printed. *)
Fixpoint print_services (max_len : Z) (n i : nat) (l : list service_entry_t) (text : string) (pos : Z)
    : option (string * Z) :=
  match n, l with
  | S n, e :: l =>
      if max_len - 100 <=? pos then print_at max_len text pos truncated_json
      else
        '(text, k) ← (if Nat.eqb i 0 then Some (text, 0) else print_at max_len text pos ",");
        let pos := pos + k in
        '(text, k) ← print_at max_len text pos (service_json e);
        print_services max_len n (S i) l text (pos + k)
  | _, _ => Some (text, pos)
  end.

(** [dev/core/service_manager/lifecycle/sm_management.c:265-309 handle_services] [mem]: memory
    for the copy; None: the buffer is overrun. *)
Definition handle_services (mem : bool) (s : registry_state) (max_len : Z) : option (Z * string) :=
  match sm_registry_get_all true mem s with
  | (_, None) => Some (500, "{" ++ json_field "error" (json_string "failed to get services") ++ "}")%string
  | (_, Some services) =>
      '(text, pos) ← print_at max_len "" 0 ("{" ++ json_string "services" ++ ":[")%string;
      let max_services := Z.max 1 ((max_len - 64) / 100) in
      '(text, pos) ← print_services max_len (Z.to_nat max_services) 0 services text pos;
      '(text, _) ← print_at max_len text pos "}]";
      Some (200, text)
  end.

(** [dev/core/service_manager/lifecycle/sm_management.c:323-329 send_http_response, status] *)
Definition status_text (c : Z) : string :=
  if c =? 400 then "400 Bad Request" else if c =? 401 then "401 Unauthorized" else if c =? 403 then "403 Forbidden"
  else if c =? 404 then "404 Not Found" else if c =? 405 then "405 Method Not Allowed"
  else if c =? 500 then "500 Internal Server Error" else "200 OK".

(** [dev/core/service_manager/lifecycle/sm_management.c:321-343 send_http_response] what is sent. *)
Definition http_response (code : Z) (body : string) : string :=
  strncpy_z (Z.to_nat 4095)
    ("HTTP/1.1 " ++ decimal code ++ " " ++ status_text code ++ crlf
     ++ "Content-Type: application/json" ++ crlf
     ++ "Content-Length: " ++ decimal (Z.of_nat (String.length body)) ++ crlf
     ++ "Connection: close" ++ crlf ++ crlf ++ body)%string.

(** What the interface answers from. *)
Record mgmt_env := mk_mgmt_env {
  mg_auth_mem : bool; mg_copy_mem : bool; mg_key : key_state; mg_metrics : sm_metrics_t; mg_registry : registry_state
}.

Definition error_json (t : string) : string := "{" ++ json_field "error" (json_string t) ++ "}".

(** [dev/core/service_manager/lifecycle/sm_management.c:369-384 process_management_request, the
    routing] None: the services overran their buffer. *)
Definition endpoint (e : mgmt_env) (m p : string) : option (Z * string) :=
  if String.eqb m "GET" && String.eqb p "/status" then Some (200, strncpy_z (Z.to_nat 8191) (handle_status (mg_metrics e)))
  else if String.eqb m "GET" && String.eqb p "/metrics"
       then Some (200, strncpy_z (Z.to_nat 8191) (handle_metrics (mg_metrics e)))
  else if String.eqb m "GET" && String.eqb p "/services"
       then handle_services (mg_copy_mem e) (mg_registry e) MGMT_BODY_SIZE
  else Some (404, strncpy_z (Z.to_nat 8191) (error_json ("endpoint not found: " ++ m ++ " " ++ p))).

(** [dev/core/service_manager/lifecycle/sm_management.c:354-386 process_management_request, the
    reply] *)
Definition answer (e : mgmt_env) (raw : string) : option (Z * string) :=
  match parse_http_request raw with
  | None => Some (400, error_json "malformed request")
  | Some req =>
      if verify_request_auth (mg_auth_mem e) (mg_key e) req None <? 0 then Some (401, error_json "authentication failed")
      else endpoint e (method req) (path req)
  end.

(** [dev/core/service_manager/lifecycle/sm_management.c:346-387 process_management_request] what is
    received, at most 4095 bytes, and what is sent; None: nothing. *)
Definition process_management_request (e : mgmt_env) (received : list Z) : option string :=
  match take 4095 received with
  | [] => None
  | l => '(code, body) ← answer e (c_string l); Some (http_response code body)
  end.

(** ** The worker *)

(** [dev/core/service_manager/lifecycle/sm_management.c:390-391 mgmt_fd, mgmt_running] *)
Record mgmt_state := mk_mgmt { mgmt_fd : Z; mgmt_running : bool }.
Definition mgmt0 : mgmt_state := mk_mgmt (-1) false.

(** [dev/core/service_manager/lifecycle/sm_management.c:467-493 sm_management_start] [created]: the
    thread. *)
Definition sm_management_start (created : bool) (s : mgmt_state) : Z * mgmt_state :=
  if mgmt_running s then (-1, s)
  else if created then (0, mk_mgmt (mgmt_fd s) true) else (-1, mk_mgmt (mgmt_fd s) false).

(** [dev/core/service_manager/lifecycle/sm_management.c:398-427 management_worker, the socket] the
    results of socket, bind and listen; false: the thread ends. *)
Definition worker_listen (sock bind listen : Z) (s : mgmt_state) : bool * mgmt_state :=
  if sock <? 0 then (false, mk_mgmt sock (mgmt_running s))
  else if (bind <? 0) || (listen <? 0) then (false, mk_mgmt (-1) (mgmt_running s))
  else (true, mk_mgmt sock (mgmt_running s)).

(** A round of the worker: [accept4] failed, or a client and what it sent; whether the
    interface was stopped meanwhile. *)
Record mgmt_round := mk_round { client : option (mgmt_env * list Z); stopped : bool }.

(** [dev/core/service_manager/lifecycle/sm_management.c:440-462 management_worker, the loop] what is
    sent to each client; every client's socket is closed after its request. *)
Fixpoint worker_rounds (rs : list mgmt_round) (s : mgmt_state) : list (option string) * mgmt_state :=
  match rs with
  | [] => ([], s)
  | r :: rs =>
      if negb (mgmt_running s) then ([], s)
      else
        let out := match client r with
                   | Some (e, bytes) => [process_management_request e bytes]
                   | None => []
                   end in
        let s := if stopped r then mk_mgmt (-1) false else s in
        let '(more, s) := worker_rounds rs s in (out ++ more, s)
  end.

(** [dev/core/service_manager/lifecycle/sm_management.c:495-505 sm_management_stop] *)
Definition sm_management_stop (s : mgmt_state) : mgmt_state := mk_mgmt (-1) false.

(** ** A client's request *)

Definition hex_digit (z : Z) : ascii := ascii_of_N (Z.to_N (if z <? 10 then 48 + z else 87 + z)).
Fixpoint print_hex (l : list Z) : string :=
  match l with [] => EmptyString | b :: l => String (hex_digit (b / 16)) (String (hex_digit (b mod 16)) (print_hex l)) end.

Definition request_text (m p v body : string) : string :=
  m ++ " " ++ p ++ " HTTP/1.1" ++ crlf ++ "Authorization: " ++ v ++ crlf ++ crlf ++ body.
Definition signed_request (m p : string) (digest : list Z) (body : string) : string :=
  request_text m p ("HMAC-SHA256 " ++ print_hex digest) body.

(** A word: no white space, not empty. *)
Definition word (n : nat) (w : string) : Prop :=
  all (fun c => isspace c = false) w /\ w <> ""%string /\ (String.length w <= n)%nat.

Lemma word_of_word n w r : all (fun c => isspace c = false) w -> (String.length w <= n)%nat ->
  (forall c r', r = String c r' -> isspace c = true) -> word_of n (w ++ r) = (w, r).
Proof.
  revert n. induction w as [|c w IH]; intros n Hw Hn Hr.
  - rewrite append_nil. destruct n as [|n], r as [|c r]; try done. cbn [word_of]. by rewrite (Hr c r eq_refl).
  - rewrite append_cons. cbn [String.length] in Hn. destruct n as [|n]; [lia|]. apply all_cons in Hw as [Hc Hw].
    cbn [word_of]. rewrite Hc, IH by (done || lia). done.
Qed.

Lemma ltrim_word w r : all (fun c => isspace c = false) w -> w <> ""%string -> ltrim isspace (w ++ r) = (w ++ r)%string.
Proof. destruct w as [|c w]; intros Hw Hne; [done|]. rewrite append_cons. cbn [ltrim]. apply all_cons in Hw as [-> _]. done. Qed.

Lemma scan_word_word n w r : word n w -> (forall c r', r = String c r' -> isspace c = true) ->
  scan_word n (w ++ r) = Some (w, r).
Proof.
  intros (Hw & Hne & Hn) Hr. unfold scan_word. rewrite ltrim_word, word_of_word by done. by destruct w.
Qed.

Lemma substring_first s t : String.substring 0 (String.length s) (s ++ t) = s.
Proof. induction s as [|c s IH]; [by destruct t|]. rewrite append_cons. cbn [String.length String.substring]. by rewrite IH. Qed.

Lemma substring_second n s t : String.substring (String.length s) n (s ++ t) = String.substring 0 n t.
Proof. induction s as [|c s IH]; [done|]. rewrite append_cons. cbn [String.length String.substring]. apply IH. Qed.

Lemma chop_last d s : chop d (s ++ String d "") = s.
Proof.
  unfold chop. rewrite string_length_app. cbn [String.length]. rewrite Nat.add_1_r, substring_second. cbn [String.substring].
  by rewrite String.eqb_refl, substring_first.
Qed.

Lemma past_app a b : past (String.length a) (a ++ b) = b.
Proof.
  unfold past. rewrite string_length_app, substring_second.
  replace (String.length a + String.length b - String.length a)%nat with (String.length b) by lia.
  rewrite <- (append_empty b) at 2. apply substring_first.
Qed.

Lemma hex_digit_value z : 0 <= z < 16 -> hex_value (hex_digit z) = Some z /\ isspace (hex_digit z) = false.
Proof.
  intros Hz. assert (Hin : z ∈ seqZ 0 16) by (apply elem_of_seqZ; lia). revert z Hin Hz.
  refine (fun z Hin _ => proj1 (Forall_forall (fun z => hex_value (hex_digit z) = Some z /\ isspace (hex_digit z) = false) _) _ z Hin).
  by repeat constructor.
Qed.

Lemma scan_hex_printed l : bytes l -> scan_bytes (print_hex l) = Some l.
Proof.
  induction 1 as [|b l Hb Hl IH]; [done|]. cbn [print_hex scan_bytes].
  destruct (hex_digit_value (b / 16)) as [Hh Hsp]; [split; [apply Z.div_pos|apply Z.div_lt_upper_bound]; lia|].
  destruct (hex_digit_value (b mod 16)) as [Hl' _]; [by apply Z.mod_pos_bound|].
  unfold scan_hh. cbn [ltrim]. rewrite Hsp, Hh, Hl', IH. cbn. do 2 f_equal. symmetry. by apply Z.div_mod.
Qed.

Lemma length_hex l : String.length (print_hex l) = (2 * length l)%nat.
Proof. induction l as [|b l IH]; [done|]. cbn [print_hex String.length length]. rewrite IH. lia. Qed.

Lemma hex_to_bytes_printed l n : bytes l -> (length l <= n)%nat -> hex_to_bytes (print_hex l) n = Some l.
Proof.
  intros Hl Hn. unfold hex_to_bytes. rewrite length_hex, Nat.mul_comm, Nat.Div0.mod_mul, Nat.div_mul by done.
  destruct (Nat.ltb_spec n (length l)); [lia|]. by apply scan_hex_printed.
Qed.

(** A header value: on one line, not starting with white space. *)
Definition header_value (v : string) : Prop :=
  all (fun c => c <> newline /\ c <> return_char) v /\ ltrim isspace v = v /\ (0 < String.length v < 255)%nat.

Lemma find_here pat s : String.prefix pat s = true -> find_text pat s = Some 0%nat.
Proof. destruct s; cbn [find_text]; by intros ->. Qed.

Lemma find_after d pat a b : all (fun c => c <> d) a -> String.prefix (String d pat) b = true ->
  find_text (String d pat) (a ++ b) = Some (String.length a).
Proof.
  intros Ha Hb. induction a as [|c a IH]; [by apply find_here|]. apply all_cons in Ha as [Hc Ha].
  rewrite append_cons. cbn [find_text String.length]. cbn [String.prefix].
  destruct (ascii_dec d c) as [->|_]; [done|]. by rewrite IH.
Qed.

Lemma headers_step fuel left cur line rest req : left <> 0%nat -> cut newline cur = Some (line, rest) ->
  headers (S fuel) left cur req =
    headers fuel (left - S (String.length line)) rest
      (if (String.length line <? 2)%nat then req else header line cur req).
Proof. intros Hl Hc. cbn [headers]. destruct (Nat.eqb_spec left 0); [done|]. by rewrite Hc. Qed.

Lemma headers_end fuel cur req : headers fuel 0 cur req = req.
Proof. by destruct fuel. Qed.

Lemma header_value_read m p v cur : header_value v ->
  header ("Authorization: " ++ v ++ String return_char "") ("Authorization: " ++ cur) (mk_http m p "" 0) = mk_http m p v 0.
Proof.
  intros (Hv & Htrim & Hlen). unfold header. rewrite <- append_assoc, chop_last.
  change (starts_with "Authorization:" _) with true. change (starts_with "Content-Length:" _) with false. cbv iota zeta.
  change ("Authorization: " ++ v)%string with ("Authorization:" ++ String " " v)%string.
  change 14%nat with (String.length "Authorization:"). rewrite past_app. cbn [ltrim].
  change (isspace " ") with true. cbv iota. rewrite Htrim.
  rewrite (proj2 (Nat.ltb_lt 0 _)) by lia. by rewrite (proj2 (Nat.ltb_lt _ 255)) by lia.
Qed.

Lemma header_line_read m p v b : header_value v ->
  let left := (15 + String.length v)%nat in
  headers left left ("Authorization: " ++ v ++ crlf ++ crlf ++ b) (mk_http m p "" 0) = mk_http m p v 0.
Proof.
  intros Hv left. set (line := ("Authorization: " ++ v ++ String return_char "")%string).
  assert (Hl : String.length line = (16 + String.length v)%nat).
  { subst line. rewrite !string_length_app. cbn. lia. }
  assert (Hcut : cut newline ("Authorization: " ++ v ++ crlf ++ crlf ++ b) = Some (line, crlf ++ b)%string).
  { replace ("Authorization: " ++ v ++ crlf ++ crlf ++ b)%string with (line ++ String newline (crlf ++ b))%string
      by (subst line; by rewrite !append_assoc).
    apply cut_app. apply all_app. split; [by repeat constructor|]. apply all_app. split; [|by repeat constructor].
    eapply all_impl; [exact (proj1 Hv)|]. by intros c []. }
  subst left. change (15 + String.length v)%nat with (S (14 + String.length v)) at 1.
  rewrite (headers_step _ _ _ line (crlf ++ b)%string _) by done. rewrite Hl.
  replace (15 + String.length v - S (16 + String.length v))%nat with 0%nat by lia. rewrite headers_end.
  by apply header_value_read.
Qed.

Lemma parse_request_text m p v b : word 15 m -> word 255 p -> header_value v ->
  parse_http_request (request_text m p v b) = Some (mk_http m p v 0).
Proof.
  intros Hm Hp Hv. pose proof Hm as (Hms & _ & Hml). pose proof Hp as (Hps & _ & Hpl).
  assert (Hno : forall w, all (fun c => isspace c = false) w -> all (fun c => c <> newline) w).
  { intros w Hw. eapply all_impl; [exact Hw|]. by intros c Hc ->. }
  set (first := (m ++ " " ++ p ++ " HTTP/1.1")%string).
  assert (Hraw : request_text m p v b = ((first ++ String return_char "") ++ String newline ("Authorization: " ++ v ++ crlf ++ crlf ++ b))%string).
  { unfold request_text, first. by rewrite !append_assoc. }
  unfold parse_http_request. rewrite Hraw, cut_app.
  2: { apply all_app. split; [|by repeat constructor]. apply all_app. split; [by apply Hno|].
       apply all_cons. split; [done|]. apply all_app. split; [by apply Hno|by repeat constructor]. }
  cbn [mbind option_bind]. rewrite string_length_app, chop_last.
  assert (Hlen : (String.length first <= 280)%nat).
  { unfold first. rewrite !string_length_app. cbn [String.length]. lia. }
  rewrite (proj2 (Nat.ltb_ge _ _)) by (cbn [String.length]; lia). unfold first.
  rewrite (scan_word_word 15 m) by (done || by intros ? ? [= <- _]). cbn [mbind option_bind].
  change (" " ++ ?x)%string with (String " " x). unfold scan_word. cbn [ltrim append]. change (isspace " ") with true. cbv iota.
  fold (scan_word 255 (p ++ " HTTP/1.1")). rewrite (scan_word_word 255 p) by (done || by intros ? ? [= <- _]).
  cbn [mbind option_bind].
  assert (Hend : find_text (crlf ++ crlf) ("Authorization: " ++ v ++ crlf ++ crlf ++ b) = Some (15 + String.length v)%nat).
  { rewrite <- append_assoc. change (crlf ++ crlf ++ b)%string with (String return_char (String newline (crlf ++ b))).
    change (crlf ++ crlf)%string with (String return_char (String newline crlf)).
    rewrite find_after; [by rewrite string_length_app| |exact (prefix_app_true (crlf ++ crlf) b)]. apply all_app. split; [by repeat constructor|].
    eapply all_impl; [exact (proj1 Hv)|]. by intros c []. }
  rewrite Hend. cbn [mbind option_bind]. by rewrite header_line_read.
Qed.

Lemma hex_header l : length l = SM_HMAC_SIZE -> bytes l -> header_value ("HMAC-SHA256 " ++ print_hex l).
Proof.
  intros Hl Hb. split_and!.
  - apply all_app. split; [by repeat constructor|]. clear Hl. induction Hb as [|b l Hb Hl IH]; [by constructor|].
    assert (Hd : forall z, 0 <= z < 16 -> hex_digit z <> newline /\ hex_digit z <> return_char).
    { intros z Hz. destruct (hex_digit_value z Hz) as [_ Hsp]. split; intros He; by rewrite He in Hsp. }
    cbn [print_hex]. rewrite !all_cons. split; [apply Hd|split; [apply Hd|done]].
    + split; [apply Z.div_pos|apply Z.div_lt_upper_bound]; lia.
    + by apply Z.mod_pos_bound.
  - done.
  - rewrite string_length_app, length_hex, Hl. unfold SM_HMAC_SIZE. cbn. lia.
  - rewrite string_length_app, length_hex, Hl. unfold SM_HMAC_SIZE. cbn. lia.
Qed.

Lemma verify_signed ks m p c l : length l = SM_HMAC_SIZE -> bytes l ->
  let req := mk_http m p ("HMAC-SHA256 " ++ print_hex l) c in
  verify_request_auth true ks req None =
    match sm_crypto_get_key ks with
    | Some key => if bool_decide (l = rfc_hmac key (auth_data req None)) then 0 else -1
    | None => -1
    end.
Proof.
  intros Hl Hb req. unfold verify_request_auth. subst req. cbn [auth_header].
  change (String.eqb _ "") with false. rewrite prefix_app_true. cbv iota. cbn [negb].
  change 12%nat with (String.length "HMAC-SHA256 "). rewrite past_app, hex_to_bytes_printed by (done || by rewrite Hl).
  rewrite Hl. change (negb (Nat.eqb _ _)) with false. cbv iota. cbn [negb].
  destruct (sm_crypto_get_key ks) as [key|]; [|done]. set (data := auth_data _ _).
  destruct (verify_iff key data l Hb Hl) as [Hok _]. destruct (Z.eqb_spec (sm_hmac_verify (Some key) (Some data) l) 0) as [He|He].
  - rewrite bool_decide_true; [done|]. by apply Hok.
  - rewrite bool_decide_false; [done|]. intros Heq. by apply He, Hok.
Qed.

Lemma hex_value_range c v : hex_value c = Some v -> 0 <= v < 16.
Proof. unfold hex_value. repeat case_match; intros [= <-]; lia. Qed.

Lemma scan_hh_range s v : scan_hh s = Some v -> 0 <= v < 256.
Proof.
  unfold scan_hh. destruct (ltrim isspace s) as [|a [|b r]]; [done|..].
  - destruct (hex_value a) eqn:Ha; [|done]. intros [= <-]. apply hex_value_range in Ha. lia.
  - destruct (hex_value a) eqn:Ha, (hex_value b) eqn:Hb; cbn; repeat case_match; intros [= <-];
      try apply hex_value_range in Ha; try apply hex_value_range in Hb; try lia; apply wrap_range; lia.
Qed.

Lemma hex_bytes_from n : forall s l, (String.length s <= n)%nat -> scan_bytes s = Some l -> bytes l.
Proof.
  induction n as [|n IH]; intros s l Hn Hs; [destruct s; [|cbn in Hn; lia]; by injection Hs as <-; constructor|].
  destruct s as [|a [|b r]]; [by injection Hs as <-; constructor..|]. cbn [scan_bytes] in Hs.
  destruct (scan_hh (String a (String b r))) as [v|] eqn:Hv; [|done].
  destruct (scan_bytes r) as [k|] eqn:Hk; [|done]. injection Hs as <-. constructor; [by eapply scan_hh_range|].
  apply (IH r); [cbn [String.length] in Hn; lia|done].
Qed.

Lemma hex_bytes s l : scan_bytes s = Some l -> bytes l.
Proof. by apply (hex_bytes_from (String.length s)). Qed.

(** A request that is let through carries the digest. *)
Lemma verified mem ks req body : 0 <= verify_request_auth mem ks req body ->
  exists key digest, sm_crypto_get_key ks = Some key /\
    hex_to_bytes (past 12 (auth_header req)) SM_HMAC_SIZE = Some digest /\ digest = rfc_hmac key (auth_data req body).
Proof.
  unfold verify_request_auth. repeat (case_match; [done|]). destruct (hex_to_bytes _ _) as [l|] eqn:Hx; [|done].
  destruct (Nat.eqb_spec (length l) SM_HMAC_SIZE) as [Hl|]; [|done]. cbn [negb]. destruct mem; [|done]. cbn [negb].
  destruct (sm_crypto_get_key ks) as [key|]; [|done].
  destruct (Z.eqb_spec (sm_hmac_verify (Some key) (Some (auth_data req body)) l) 0) as [He|]; [|done]. intros _.
  exists key, l. split_and!; [done..|]. apply verify_iff; [|done|done]. unfold hex_to_bytes in Hx.
  destruct (_ || _); [done|]. by eapply hex_bytes.
Qed.

(** ** The theorems *)

(** C29: The interface answers from its endpoints, or says that there is none, exactly for
    the requests that carry the HMAC of their method and path under the daemon's key:
    whatever text arrives, an answer other than 400 and 401 means that the digest it
    carries is that HMAC; and a request that a client signs is answered by the endpoint it
    names if its digest is that HMAC, and with 401 otherwise.  What follows the headers is
    neither read nor signed. *)
Theorem management_authenticated e :
  (forall raw code body, answer e raw = Some (code, body) -> code <> 400 -> code <> 401 ->
     exists req key digest, parse_http_request raw = Some req /\ sm_crypto_get_key (mg_key e) = Some key /\
       hex_to_bytes (past 12 (auth_header req)) SM_HMAC_SIZE = Some digest /\
       digest = rfc_hmac key (auth_data req None)) /\
  (forall m p digest body, word 15 m -> word 255 p -> length digest = SM_HMAC_SIZE -> bytes digest -> mg_auth_mem e = true ->
     answer e (signed_request m p digest body) =
       match sm_crypto_get_key (mg_key e) with
       | Some key => if bool_decide (digest = rfc_hmac key (ascii_bytes (m ++ "|" ++ p ++ "|")))
                     then endpoint e m p else Some (401, error_json "authentication failed")
       | None => Some (401, error_json "authentication failed")
       end).
Proof.
  split.
  - intros raw code body Ha H400 H401. unfold answer in Ha. destruct (parse_http_request raw) as [req|]; [|by simplify_eq].
    destruct (Z.ltb_spec (verify_request_auth (mg_auth_mem e) (mg_key e) req None) 0) as [|Hv]; [by simplify_eq|].
    destruct (verified _ _ _ _ Hv) as (key & digest & Hk & Hd & Hm). by exists req, key, digest.
  - intros m p digest body Hm Hp Hl Hb Hmem. unfold answer, signed_request.
    rewrite parse_request_text by (done || by apply hex_header). rewrite Hmem, verify_signed by done.
    destruct (sm_crypto_get_key (mg_key e)) as [key|]; [|done]. unfold auth_data. cbn [method path default].
    rewrite append_empty. by destruct (bool_decide _).
Qed.

(** ** The list of services *)

Lemma decimal_from_length k : forall fuel n acc, 0 <= n < 10 ^ Z.of_nat k -> (0 < k <= fuel)%nat ->
  (String.length (decimal_from fuel n acc) <= k + String.length acc)%nat.
Proof.
  induction k as [|k IH]; intros fuel n acc Hn Hk; [lia|]. destruct fuel as [|f]; [lia|]. cbn [decimal_from].
  destruct (Z.ltb_spec n 10) as [Hlt|Hge]; [cbn [String.length]; lia|].
  destruct k as [|k]; [change (10 ^ Z.of_nat 1) with 10 in Hn; lia|].
  etransitivity; [apply IH|cbn [String.length]; lia]; [|lia].
  rewrite Nat2Z.inj_succ, Z.pow_succ_r in Hn by lia. split; [apply Z.div_pos; lia|apply Z.div_lt_upper_bound; lia].
Qed.

Lemma decimal_length k z : 0 <= z < 10 ^ Z.of_nat k -> (0 < k <= 20)%nat -> (String.length (decimal z) <= k)%nat.
Proof.
  intros Hz Hk. unfold decimal. destruct (Z.ltb_spec z 0); [lia|].
  pose proof (decimal_from_length k 20 z "" Hz Hk) as Hl. cbn [String.length] in Hl. lia.
Qed.

(** An entry as the registry holds it: its name has at most 63 characters; the kernel's
    process ids have at most seven digits. *)
Definition listable (e : service_entry_t) : Prop := (String.length (name e) <= 63)%nat /\ 0 <= pid e < 10 ^ 7.

Lemma service_json_length e : listable e -> (String.length (service_json e) <= 99)%nat.
Proof.
  intros [Hn Hp]. unfold service_json, json_field, json_string, quote. rewrite !string_length_app. cbn [String.length].
  pose proof (decimal_length 7 (pid e)) as Hd. change (Z.of_nat 7) with 7 in Hd. specialize (Hd Hp ltac:(lia)).
  pose proof (decimal_length 1 (status_code (status e))) as Hs. change (10 ^ Z.of_nat 1) with 10 in Hs.
  assert (0 <= status_code (status e) < 10) by (destruct (status e); cbn; lia). specialize (Hs ltac:(done) ltac:(lia)). lia.
Qed.

Lemma print_at_end max_len text s : Z.of_nat (String.length text) + Z.of_nat (String.length s) < max_len ->
  print_at max_len text (Z.of_nat (String.length text)) s = Some ((text ++ s)%string, Z.of_nat (String.length s)).
Proof.
  intros Hl. unfold print_at. rewrite (proj2 (Z.ltb_ge _ _)) by lia. rewrite (proj2 (Z.eqb_neq _ _)) by lia.
  rewrite Nat2Z.id, strncpy_z_short by lia.
  pose proof (substring_first text "") as Ht. rewrite append_empty in Ht. by rewrite Ht.
Qed.

Fixpoint joined (i : nat) (l : list service_entry_t) : string :=
  match l with
  | [] => ""
  | e :: l => (if Nat.eqb i 0 then "" else ",") ++ service_json e ++ joined (S i) l
  end.

Lemma print_services_all max_len n : forall i l text, Forall listable l ->
  Z.of_nat (String.length text) + 100 * Z.of_nat n < max_len ->
  let text' := (text ++ joined i (take n l))%string in
  print_services max_len n i l text (Z.of_nat (String.length text)) = Some (text', Z.of_nat (String.length text')) /\
  Z.of_nat (String.length text') <= Z.of_nat (String.length text) + 100 * Z.of_nat n.
Proof.
  induction n as [|n IH]; intros i l text Hl Hfit; [cbn [take joined print_services]; rewrite append_empty; split; [done|lia]|].
  destruct l as [|e l]; [cbn [take joined print_services]; rewrite append_empty; split; [done|lia]|].
  apply Forall_cons in Hl as [He Hl]. pose proof (service_json_length e He) as Hj.
  cbn [take joined print_services]. rewrite (proj2 (Z.leb_gt _ _)) by lia.
  set (sep := if Nat.eqb i 0 then ""%string else ","%string).
  assert (Hsep : (String.length sep <= 1)%nat) by (subst sep; case_match; cbn; lia).
  assert (Hcomma : (if Nat.eqb i 0 then Some (text, 0) else print_at max_len text (Z.of_nat (String.length text)) ",")
    = Some ((text ++ sep)%string, Z.of_nat (String.length sep))).
  { subst sep. destruct (Nat.eqb i 0); [by rewrite append_empty|]. apply print_at_end. cbn [String.length]. lia. }
  rewrite Hcomma. cbn [mbind option_bind].
  rewrite <- Nat2Z.inj_add, <- string_length_app, print_at_end by (rewrite string_length_app; lia). cbn [mbind option_bind].
  rewrite <- Nat2Z.inj_add, <- string_length_app.
  destruct (IH (S i) l ((text ++ sep) ++ service_json e)%string Hl) as [-> Hb];
    [rewrite !string_length_app; lia|].
  split; [|by rewrite !string_length_app in *; lia]. rewrite !append_assoc. done.
Qed.

(** C34: The list of services fits its buffer of 8192 bytes: for any registry whose entries
    are as the registry keeps them, and copied, the text is that of the first 81 services
    in the registry's order, nothing is cut and nothing written behind the buffer. *)
Theorem services_in_bounds mem s : registry_count s = 0%nat \/ mem = true ->
  Forall listable (take (registry_count s) (registry s)) ->
  let text := ("{" ++ json_string "services" ++ ":[" ++ joined 0 (take 81 (take (registry_count s) (registry s))) ++ "}]")%string in
  handle_services mem s MGMT_BODY_SIZE = Some (200, text) /\ Z.of_nat (String.length text) < MGMT_BODY_SIZE.
Proof.
  intros Hmem Hl. set (services := take _ (registry s)) in *. cbv zeta.
  assert (Hall : sm_registry_get_all true mem s = (SM_OK, Some services)).
  { unfold sm_registry_get_all. cbn [negb]. subst services. destruct (Nat.eqb_spec (registry_count s) 0) as [->|Hne]; [done|].
    destruct Hmem as [Hz| ->]; done. }
  unfold handle_services. rewrite Hall. set (start := ("{" ++ json_string "services" ++ ":[")%string).
  pose proof (print_at_end MGMT_BODY_SIZE "" start ltac:(done)) as Hs. rewrite append_nil in Hs.
  change (Z.of_nat (String.length "")) with 0 in Hs. rewrite Hs. cbn [mbind option_bind].
  change (Z.to_nat (Z.max 1 ((MGMT_BODY_SIZE - 64) / 100))) with 81%nat.
  destruct (print_services_all MGMT_BODY_SIZE 81 0 services start Hl ltac:(done)) as [-> Hb]. cbn [mbind option_bind].
  assert (Hlast : Z.of_nat (String.length (start ++ joined 0 (take 81 services))) + Z.of_nat 2 < MGMT_BODY_SIZE).
  { unfold MGMT_BODY_SIZE. change (Z.of_nat (String.length start)) with 13 in Hb. lia. }
  rewrite (print_at_end _ _ "}]") by exact Hlast. cbn [mbind option_bind].
  assert (Heq : ((start ++ joined 0 (take 81 services)) ++ "}]")%string
    = ("{" ++ json_string "services" ++ ":[" ++ joined 0 (take 81 services) ++ "}]")%string).
  { subst start. by rewrite !append_assoc. }
  split; [by rewrite Heq|]. rewrite <- Heq, string_length_app. cbn [String.length]. lia.
Qed.

(** ** Witnesses and what else there is to know *)

Definition mgmt_key : key_state := mk_key (seqZ 0 32) true.
Definition no_metrics : sm_metrics_t := mk_report 0 0 0 0 0 0 0 0 0 0 0.
Definition one_service : registry_state :=
  mk_reg [mk_entry "camera" "" "" 4321 0 0 0 SVC_TIER_NORMAL 100 0 SERVICE_RUNNING 0 0 0] 1 [] 0 [].
Definition mgmt_example : mgmt_env := mk_mgmt_env true true mgmt_key no_metrics one_service.
Definition good_digest : list Z := rfc_hmac (seqZ 0 32) (ascii_bytes "GET|/status|").

Lemma management_authenticated_witness :
  let e := mgmt_example in
  (exists b, answer e (signed_request "GET" "/status" good_digest "") = Some (200, b)) /\
  (exists req key digest, parse_http_request (signed_request "GET" "/status" good_digest "") = Some req /\
     sm_crypto_get_key (mg_key e) = Some key /\
     hex_to_bytes (past 12 (auth_header req)) SM_HMAC_SIZE = Some digest /\ digest = rfc_hmac key (auth_data req None)).
Proof.
  destruct (management_authenticated mgmt_example) as [Hsafe Hserved].
  assert (Hb : bytes good_digest) by (apply (bool_decide_unpack _); vm_compute; exact I).
  pose proof (Hserved "GET"%string "/status"%string good_digest ""%string) as Ha.
  cbv zeta. assert (Hans : exists b, answer mgmt_example (signed_request "GET" "/status" good_digest "") = Some (200, b)).
  { eexists. rewrite Ha; [vm_compute; reflexivity|..|exact Hb|reflexivity].
    - split_and!; [by repeat constructor|done|cbn; lia].
    - split_and!; [by repeat constructor|done|cbn; lia].
    - vm_compute. reflexivity. }
  split; [exact Hans|]. destruct Hans as [b Hans]. by eapply (Hsafe _ 200 b).
Defined.

Lemma services_in_bounds_witness :
  handle_services true one_service MGMT_BODY_SIZE =
    Some (200, "{" ++ json_string "services" ++ ":[" ++ joined 0 (registry one_service) ++ "}]")%string.
Proof.
  refine (proj1 (services_in_bounds true one_service _ _)); [by right|]. repeat constructor; cbn; lia.
Defined.

(** The text is not JSON: the brackets close in the wrong order. *)
Lemma services_not_json mem s : registry_count s = 0%nat ->
  handle_services mem s MGMT_BODY_SIZE = Some (200, "{" ++ json_string "services" ++ ":[}]")%string.
Proof.
  intros Hs. unfold handle_services, sm_registry_get_all. rewrite Hs. by vm_compute.
Qed.

(** A reply has at most 4095 bytes, head included, whatever length it announces. *)
Lemma response_cut code body : (String.length (http_response code body) <= Z.to_nat 4095)%nat.
Proof. apply strncpy_z_length. Qed.

(** A worker that could not listen leaves the interface marked as running: it cannot be
    started again. *)
Lemma failed_worker_blocks_restart sock bind listen s created : sock < 0 \/ bind < 0 \/ listen < 0 ->
  let s1 := (sm_management_start true s).2 in
  mgmt_running s = false ->
  (worker_listen sock bind listen s1).1 = false /\
  (sm_management_start created (worker_listen sock bind listen s1).2).1 = -1.
Proof.
  intros Hf s1 Hs. subst s1. unfold sm_management_start. rewrite Hs. cbn [snd]. unfold worker_listen.
  destruct (Z.ltb_spec sock 0); [done|]. destruct (Z.ltb_spec bind 0); [done|]. destruct (Z.ltb_spec listen 0); [done|lia].
Qed.
