(* ===== verification/MonServer.v ===== *)
(** * The monitor's wire format and its server (monitoring/protocol, monitoring/daemon)

    Framed messages over a stream (monitor_wire_format.h), and the monitoring daemon's
    table of clients with the broadcast of snapshots (daemon/monitord_server.c).  A call
    that writes returns, waits for ever, or ends the process: a write to a peer that has left
    raises SIGPIPE. *)

From S2P Require Import Prelude.

(** ** Frames *)

(** [dev/monitoring/protocol/monitor_ipc_protocol.h:64-71 mon_msg_header_t] *)
Record mon_msg_header_t := mk_hdr { magic : Z; type : Z; version : Z; flags : Z; length_ : Z; seq_ : Z }.

(** [dev/monitoring/protocol/monitor_protocol_ver.h:15-24 MON_PROTOCOL_VERSION] *)
Definition MON_PROTOCOL_VERSION : Z := 1.
Definition MON_MSG_MAGIC : Z := 0x4D4F4E00.
Definition MON_MAX_PAYLOAD_BYTES : Z := 16 * 1024 * 1024.

Definition MON_MSG_SNAPSHOT_RESP : Z := 0x11.
Definition MON_MSG_GOODBYE : Z := 0xFF.
Definition MON_WIRE_OK : Z := 0.
Definition MON_WIRE_ERR_IO : Z := -1.
Definition MON_WIRE_ERR_EOF : Z := -2.
Definition MON_WIRE_ERR_FRAME : Z := -3.
Definition MON_WIRE_ERR_SIZE : Z := -4.
Definition MON_WIRE_ERR_AGAIN : Z := -5.

Definition HDR : nat := 16.

(** The packed structure in memory, little endian. *)
Definition header_bytes (h : mon_msg_header_t) : list Z :=
  le_bytes 4 (magic h) ++ le_bytes 1 (type h) ++ le_bytes 1 (version h) ++ le_bytes 2 (flags h)
  ++ le_bytes 4 (length_ h) ++ le_bytes 4 (seq_ h).
Definition header_of (l : list Z) : mon_msg_header_t :=
  mk_hdr (le_val (take 4 l)) (le_val (take 1 (drop 4 l))) (le_val (take 1 (drop 5 l))) (le_val (take 2 (drop 6 l)))
    (le_val (take 4 (drop 8 l))) (le_val (take 4 (drop 12 l))).

(** ** Reading and writing *)

(** What a call of [read] does: it moves up to so many bytes, or fails with EINTR, EAGAIN or
    another error.  The answers of the calls to come are a list; when it ends the call that is
    made next does not return. *)
Inductive io_answer := Moves (n : nat) | Interrupted | Again | Failed.

(** The same of [write]; [PeerGone]: the peer has closed the connection, EPIPE. *)
Inductive write_answer := Writes (n : nat) | WriteInterrupted | WriteFailed | PeerGone.

(** What becomes of a call that writes. *)
Inductive outcome (A : Type) := Returns (x : A) | Blocked | Killed.
Arguments Returns {A}. Arguments Blocked {A}. Arguments Killed {A}.
#[export] Instance outcome_bind : MBind outcome := fun A B f m =>
  match m with Returns x => f x | Blocked => Blocked | Killed => Killed end.

(** [dev/monitoring/daemon/monitord_main.c:147-149 main, the signals] SIGINT and SIGTERM have
    handlers; SIGPIPE keeps its default, which ends the process. *)
Definition sigpipe_ignored : bool := false.

(** [dev/monitoring/protocol/monitor_wire_format.h:38-50 mon_write_all] whether all was
    written, the bytes that were, the answers left. *)
Fixpoint mon_write_all (ans : list write_answer) (buf : list Z) : outcome (bool * list Z * list write_answer) :=
  match buf with
  | [] => Returns (true, [], ans)
  | _ :: _ =>
      match ans with
      | [] => Blocked
      | WriteInterrupted :: ans => mon_write_all ans buf
      | WriteFailed :: ans => Returns (false, [], ans)
      | PeerGone :: ans => if sigpipe_ignored then Returns (false, [], ans) else Killed
      | Writes n :: ans =>
          '(ok, sent, ans) ← mon_write_all ans (drop n buf); Returns (ok, take n buf ++ sent, ans)
      end
  end.

(** [dev/monitoring/protocol/monitor_wire_format.h:64-84 mon_read_all] [n] bytes from [stream];
    [got]: some were read already.  A read that moves nothing means that the peer closed. *)
Fixpoint mon_read_all (ans : list io_answer) (got : bool) (n : nat) (stream : list Z)
    : option (Z * list Z * list Z * list io_answer) :=
  match n with
  | O => Some (MON_WIRE_OK, [], stream, ans)
  | S _ =>
      match ans with
      | [] => None
      | Interrupted :: ans => mon_read_all ans got n stream
      | Again :: ans => if got then mon_read_all ans got n stream else Some (MON_WIRE_ERR_AGAIN, [], stream, ans)
      | Failed :: ans => Some (MON_WIRE_ERR_IO, [], stream, ans)
      | Moves k :: ans =>
          match take (k `min` n) stream with
          | [] => Some (MON_WIRE_ERR_EOF, [], stream, ans)
          | (_ :: _) as l => '(rc, more, rest, ans) ← mon_read_all ans true (n - length l) (drop (length l) stream);
                 Some (rc, l ++ more, rest, ans)
          end
      end
  end.

Definition snapshot_header (type payload_len seq : Z) : mon_msg_header_t :=
  mk_hdr MON_MSG_MAGIC (u8 type) MON_PROTOCOL_VERSION 0 payload_len seq.

(** [dev/monitoring/protocol/monitor_wire_format.h:97-114 mon_send_msg] the result, what went
    out, the answers left. *)
Definition mon_send_msg (ans : list write_answer) (type seq : Z) (payload : list Z)
    : outcome (Z * list Z * list write_answer) :=
  '(ok, sent, ans) ← mon_write_all ans (header_bytes (snapshot_header type (Z.of_nat (length payload)) seq));
  if negb (ok : bool) then Returns (MON_WIRE_ERR_IO, sent, ans)
  else
    '(ok, more, ans) ← mon_write_all ans payload;
    Returns (if (ok : bool) then MON_WIRE_OK else MON_WIRE_ERR_IO, sent ++ more, ans).

(** [dev/monitoring/protocol/monitor_wire_format.h:123-132 mon_recv_header] *)
Definition mon_recv_header (ans : list io_answer) (stream : list Z)
    : option (Z * mon_msg_header_t * list Z * list io_answer) :=
  '(rc, l, rest, ans) ← mon_read_all ans false HDR stream;
  let h := header_of l in
  Some (if negb (rc =? MON_WIRE_OK) then rc
        else if negb (magic h =? MON_MSG_MAGIC) then MON_WIRE_ERR_FRAME
        else if negb (version h =? MON_PROTOCOL_VERSION) then MON_WIRE_ERR_FRAME
        else if MON_MAX_PAYLOAD_BYTES <? length_ h then MON_WIRE_ERR_SIZE
        else MON_WIRE_OK, h, rest, ans).

(** [dev/monitoring/protocol/monitor_wire_format.h:143-159 mon_recv_msg] the result, the header, the
    payload, the stream left, the answers left. *)
Definition mon_recv_msg (ans : list io_answer) (buf_size : Z) (stream : list Z)
    : option (Z * mon_msg_header_t * list Z * list Z * list io_answer) :=
  '(rc, h, rest, ans) ← mon_recv_header ans stream;
  if negb (rc =? MON_WIRE_OK) then Some (rc, h, [], rest, ans)
  else if length_ h =? 0 then Some (MON_WIRE_OK, h, [], rest, ans)
  else if buf_size <? length_ h then Some (MON_WIRE_ERR_SIZE, h, [], rest, ans)
  else
    '(rc, l, rest, ans) ← mon_read_all ans false (Z.to_nat (length_ h)) rest;
    Some (rc, h, if rc =? MON_WIRE_OK then l else [], rest, ans).

(** [dev/monitoring/protocol/monitor_wire_format.h:165-176 mon_discard_payload] in chunks of 256;
    [fuel]: more than the number of chunks. *)
Fixpoint mon_discard_payload (fuel : nat) (ans : list io_answer) (remaining : nat) (stream : list Z)
    : option (Z * list Z * list io_answer) :=
  match fuel, remaining with
  | _, O => Some (MON_WIRE_OK, stream, ans)
  | O, _ => None
  | S fuel, S _ =>
      '(rc, _, rest, ans) ← mon_read_all ans false (remaining `min` 256) stream;
      if negb (rc =? MON_WIRE_OK) then Some (rc, rest, ans)
      else mon_discard_payload fuel ans (remaining - remaining `min` 256) rest
  end.

(** ** The server *)

Definition MAX_CLIENTS : nat := 16.

(** [dev/monitoring/daemon/monitord_server.c:19-23 client_conn_t] *)
Record client_conn_t := mk_conn { fd : Z; last_seq : Z; active : bool }.

(** [dev/monitoring/daemon/monitord_server.c:25-35 struct monitord_server] the table, with the
    open connections and what was sent on each. *)
Record monitord_server := mk_server { clients : list client_conn_t; streams : gmap Z (list Z) }.

Definition server0 : monitord_server := mk_server (replicate MAX_CLIENTS (mk_conn 0 0 false)) ∅.

Definition free_slot (c : client_conn_t) : Prop := active c = false.
#[export] Instance free_slot_dec c : Decision (free_slot c).
Proof. unfold free_slot. apply _. Defined.

(** [dev/monitoring/daemon/monitord_server.c:37-67 accept_thread_fn, a connection] *)
Definition accept_client (client_fd : Z) (s : monitord_server) : monitord_server :=
  match list_find free_slot (clients s) with
  | Some (i, _) => mk_server (<[i := mk_conn client_fd 0 true]> (clients s)) (<[client_fd := []]> (streams s))
  | None => s       (** the connection is closed *)
  end.

(** [dev/monitoring/daemon/monitord_server.c:153-168 monitord_server_broadcast_snapshot, the loop]
    [ans]: the answers of the writes to a descriptor. *)
Fixpoint broadcast_from (ans : Z -> list write_answer) (snap : list Z) (snapshot_seq : Z) (cs : list client_conn_t)
    (out : gmap Z (list Z)) : outcome (Z * list client_conn_t * gmap Z (list Z)) :=
  match cs with
  | [] => Returns (0, [], out)
  | c :: cs =>
      if negb (active c) then
        '(n, cs, out) ← broadcast_from ans snap snapshot_seq cs out; Returns (n, c :: cs, out)
      else
        '(rc, sent, _) ← mon_send_msg (ans (fd c)) MON_MSG_SNAPSHOT_RESP 0 snap;
        let '(k, c, out) :=
          if rc =? 0 then (1, mk_conn (fd c) snapshot_seq true, <[fd c := default [] (out !! fd c) ++ sent]> out)
          else (0, mk_conn (fd c) (last_seq c) false, delete (fd c) out) in
        '(n, cs, out) ← broadcast_from ans snap snapshot_seq cs out; Returns (k + n, c :: cs, out)
  end.

(** [dev/monitoring/daemon/monitord_server.c:147-171 monitord_server_broadcast_snapshot] *)
Definition monitord_server_broadcast_snapshot (ans : Z -> list write_answer) (snap : list Z) (snapshot_seq : Z)
    (s : monitord_server) : outcome (Z * monitord_server) :=
  '(n, cs, out) ← broadcast_from ans snap snapshot_seq (clients s) (streams s); Returns (n, mk_server cs out).

(** [dev/monitoring/daemon/monitord_server.c:123-145 monitord_server_stop] what is left of the
    connections. *)
Definition monitord_server_stop (s : monitord_server) : monitord_server :=
  mk_server ((fun c => mk_conn (fd c) (last_seq c) false) <$> clients s)
    (foldr (fun c out => if active c then delete (fd c) out else out) (streams s) (clients s)).

(** [dev/monitoring/protocol/monitor_wire_format.h:183-188 mon_send_goodbye] what is sent before the
    socket is closed. *)
Definition mon_send_goodbye (ans : list write_answer) (seq : Z) : outcome (list Z) :=
  '(_, sent, _) ← mon_send_msg ans MON_MSG_GOODBYE seq []; Returns sent.

(** ** Messages arrive *)

(** The answers of a connection that lives: no errors, and a call that moves bytes moves
    some. *)
Definition lively (a : io_answer) : Prop := match a with Failed | Moves O => False | _ => True end.
Definition moves (ans : list io_answer) : nat := length (List.filter (fun a => match a with Moves _ => true | _ => false end) ans).

Lemma read_all_spec ans : forall got l rest, Forall lively ans ->
  match mon_read_all ans got (length l) (l ++ rest) with
  | None => (moves ans < length l)%nat
  | Some (rc, l', rest', ans') =>
      Forall lively ans' /\ (moves ans <= moves ans' + length l)%nat /\
      ((rc = MON_WIRE_OK /\ l' = l /\ rest' = rest) \/ (got = false /\ rc = MON_WIRE_ERR_AGAIN /\ l' = [] /\ rest' = l ++ rest))
  end.
Proof.
  induction ans as [|a ans IH]; intros got l rest Hans.
  - destruct l; cbn [length mon_read_all app]; [|change (moves []) with 0%nat; lia].
    split_and!; [constructor|lia|by left].
  - destruct l as [|x l]; [destruct got; (split_and!; [done|lia|by left])|].
    apply Forall_cons in Hans as [Ha Hans].
    change (length (x :: l)) with (S (length l)). cbn [mon_read_all].
    destruct a as [k| | |]; [| | |done].
    + destruct k as [|k]; [done|]. cbn [Nat.min app take].
      assert (Hm : (k `min` length l <= length l)%nat) by lia. revert Hm. generalize (k `min` length l)%nat. intros m Hm.
      replace (take m (l ++ rest)) with (take m l) by (rewrite take_app_le by lia; done).
      assert (Hlen : length (x :: take m l) = S m) by (cbn [length]; rewrite length_take; lia).
      rewrite Hlen. cbn [Nat.sub drop].
      replace (length l - m)%nat with (length (drop m l)) by (by rewrite length_drop).
      replace (drop m (l ++ rest)) with (drop m l ++ rest) by (by rewrite drop_app_le by lia).
      specialize (IH true (drop m l) rest Hans). assert (Hmv : moves (Moves (S k) :: ans) = S (moves ans)) by done.
      rewrite length_drop in *.
      destruct (mon_read_all ans true _ _) as [[[[rc l'] rest'] ans']|]; cbn [mbind option_bind]; [|lia].
      destruct IH as (Hl & Hc & [(-> & -> & ->)|(? & _)]); [|done]. split_and!; [done|lia|]. left. split_and!; [done| |done].
      f_equal. apply take_drop.
    + change (moves (Interrupted :: ans)) with (moves ans). exact (IH got (x :: l) rest Hans).
    + change (moves (Again :: ans)) with (moves ans). destruct got; [exact (IH true (x :: l) rest Hans)|].
      split_and!; [done|lia|by right].
Qed.

Lemma header_read h : 0 <= magic h < 2 ^ 32 -> 0 <= type h < 2 ^ 8 -> 0 <= version h < 2 ^ 8 -> 0 <= flags h < 2 ^ 16 ->
  0 <= length_ h < 2 ^ 32 -> 0 <= seq_ h < 2 ^ 32 -> header_of (header_bytes h) = h /\ length (header_bytes h) = HDR.
Proof.
  intros Hm Ht Hv Hf Hl Hs. split; [|unfold header_bytes; by rewrite !length_app, !length_le_bytes].
  destruct h as [m t v f n s]. cbn [magic type version flags length_ seq_] in *.
  unfold header_of, header_bytes. cbn [magic type version flags length_ seq_].
  assert (Hval : forall k x, 0 <= x < 2 ^ (8 * Z.of_nat k) -> le_val (le_bytes k x) = x)
    by (intros; rewrite le_val_le_bytes; by apply Z.mod_small).
  assert (Hparts : forall a b c d e g : list Z, length a = 4%nat -> length b = 1%nat -> length c = 1%nat -> length d = 2%nat ->
    length e = 4%nat -> length g = 4%nat ->
    let l := a ++ b ++ c ++ d ++ e ++ g in
    take 4 l = a /\ take 1 (drop 4 l) = b /\ take 1 (drop 5 l) = c /\ take 2 (drop 6 l) = d /\ take 4 (drop 8 l) = e /\
    take 4 (drop 12 l) = g).
  { intros a b c d e g ? ? ? ? ? ? l. subst l. do 4 (destruct a as [|? a]; [done|]). destruct a; [|done].
    destruct b as [|? [|]], c as [|? [|]], d as [|? [|? [|]]]; try done.
    do 4 (destruct e as [|? e]; [done|]). destruct e; [|done]. do 4 (destruct g as [|? g]; [done|]). by destruct g. }
  destruct (Hparts (le_bytes 4 m) (le_bytes 1 t) (le_bytes 1 v) (le_bytes 2 f) (le_bytes 4 n) (le_bytes 4 s))
    as (-> & -> & -> & -> & -> & ->); [by rewrite length_le_bytes..|]. by rewrite !Hval.
Qed.

Definition frame (type seq : Z) (payload : list Z) : list Z :=
  header_bytes (snapshot_header type (Z.of_nat (length payload)) seq) ++ payload.

Lemma snapshot_header_read t n seq : 0 <= n < 2 ^ 32 -> 0 <= seq < 2 ^ 32 ->
  header_of (header_bytes (snapshot_header t n seq)) = snapshot_header t n seq /\
  length (header_bytes (snapshot_header t n seq)) = HDR.
Proof.
  intros Hn Hs. apply header_read; try done; cbn [magic type version flags]; try done. apply wrap_range. lia.
Qed.

(** A message arrives as it was sent: whatever pieces the kernel hands over, with
    interruptions and pauses, a receiver with room for it gets exactly the header and the
    payload and leaves exactly what follows; or it is told to try again, with nothing read
    of the message or with its header read; and it returns once the kernel has moved bytes
    often enough. *)
Theorem message_received ans buf_size type seq payload rest :
  Forall lively ans -> Z.of_nat (length payload) <= MON_MAX_PAYLOAD_BYTES -> Z.of_nat (length payload) <= buf_size ->
  0 <= seq < 2 ^ 32 ->
  match mon_recv_msg ans buf_size (frame type seq payload ++ rest) with
  | None => (moves ans < HDR + length payload)%nat
  | Some (rc, h, l, rest', _) =>
      (rc = MON_WIRE_OK /\ h = snapshot_header type (Z.of_nat (length payload)) seq /\ l = payload /\ rest' = rest) \/
      (rc = MON_WIRE_ERR_AGAIN /\ l = [] /\ (rest' = frame type seq payload ++ rest \/ rest' = payload ++ rest))
  end.
Proof.
  intros Hans Hmax Hbuf Hseq. set (h := snapshot_header type (Z.of_nat (length payload)) seq).
  assert (H32 : 0 <= Z.of_nat (length payload) < 2 ^ 32) by (unfold MON_MAX_PAYLOAD_BYTES in Hmax; lia).
  destruct (snapshot_header_read type _ seq H32 Hseq) as [Hh Hlen]. fold h in Hh, Hlen.
  unfold mon_recv_msg, mon_recv_header. unfold frame. fold h. rewrite <- app_assoc.
  pose proof (read_all_spec ans false (header_bytes h) (payload ++ rest) Hans) as Hread. rewrite Hlen in Hread.
  destruct (mon_read_all ans false HDR _) as [[[[rc l] rest1] ans1]|]; cbn [mbind option_bind]; [|lia].
  destruct Hread as (Hans1 & Hc & [(-> & -> & ->)|(_ & -> & -> & ->)]).
  2: { change (MON_WIRE_ERR_AGAIN =? MON_WIRE_OK) with false. cbn [negb]. right. split_and!; [done|done|by left]. }
  rewrite Hh. change (negb (MON_WIRE_OK =? MON_WIRE_OK)) with false. change (negb (magic h =? _)) with false.
  change (negb (version h =? _)) with false. cbv iota. change (length_ h) with (Z.of_nat (length payload)).
  rewrite (proj2 (Z.ltb_ge _ _)) by done. change (negb (MON_WIRE_OK =? MON_WIRE_OK)) with false. cbv iota.
  destruct (Z.eqb_spec (Z.of_nat (length payload)) 0) as [Hz|Hnz].
  { destruct payload; [|simpl in Hz; lia]. left. by split_and!. }
  rewrite (proj2 (Z.ltb_ge _ _)) by done. rewrite Nat2Z.id.
  pose proof (read_all_spec ans1 false payload rest Hans1) as Hread.
  destruct (mon_read_all ans1 false _ _) as [[[[rc l] rest2] ans2]|]; cbn [mbind option_bind]; [|lia].
  destruct Hread as (_ & _ & [(-> & -> & ->)|(_ & -> & -> & ->)]); [by left|]. right. split_and!; [done|done|by right].
Qed.

(** ** The server's connections *)

Definition active_fds (cs : list client_conn_t) : list Z := fd <$> List.filter active cs.
Definition snapshot_frame (snap : list Z) : list Z := frame MON_MSG_SNAPSHOT_RESP 0 snap.

Record server_inv (s : monitord_server) : Prop := {
  sv_size : length (clients s) = MAX_CLIENTS;
  sv_once : NoDup (active_fds (clients s));
  sv_open : dom (streams s) = list_to_set (active_fds (clients s))
}.

Lemma active_app a b : active_fds (a ++ b) = active_fds a ++ active_fds b.
Proof. unfold active_fds. by rewrite List.filter_app, fmap_app. Qed.

Lemma server0_inv : server_inv server0.
Proof. split; [done|constructor|]. cbn. by rewrite dom_empty_L. Qed.

(** A new connection has a slot of its own, or is closed. *)
Lemma accept_spec f s : server_inv s -> f ∉ dom (streams s) ->
  server_inv (accept_client f s) /\
  (streams (accept_client f s) = <[f := []]> (streams s) \/ streams (accept_client f s) = streams s).
Proof.
  intros [Hlen Hnd Hdom] Hf. unfold accept_client. destruct (list_find free_slot (clients s)) as [[i c]|] eqn:Hfind.
  2: { split; [by split|by right]. }
  apply list_find_Some in Hfind as (Hi & Hc & _). split; [|by left].
  assert (Hsplit : clients s = take i (clients s) ++ c :: drop (S i) (clients s)) by (symmetry; by apply take_drop_middle).
  assert (Hins : active_fds (<[i := mk_conn f 0 true]> (clients s)) =
    active_fds (take i (clients s)) ++ f :: active_fds (drop (S i) (clients s))).
  { rewrite (insert_take_drop _ _ _) by (by eapply lookup_lt_Some). by rewrite active_app. }
  assert (Hold : active_fds (clients s) = active_fds (take i (clients s)) ++ active_fds (drop (S i) (clients s))).
  { rewrite Hsplit at 1. rewrite active_app. unfold active_fds at 2. cbn. by rewrite Hc. }
  split; cbn [clients streams].
  - by rewrite length_insert.
  - rewrite Hins. rewrite Hold in Hnd. rewrite Hdom, Hold in Hf. apply NoDup_app in Hnd as (H1 & H2 & H3).
    apply NoDup_app. rewrite NoDup_cons. set_solver.
  - rewrite Hins, dom_insert_L, Hdom, Hold. rewrite !list_to_set_app_L. cbn. set_solver.
Qed.

Lemma write_all_spec ans : forall buf sent ans', mon_write_all ans buf = Returns (true, sent, ans') -> sent = buf.
Proof.
  induction ans as [|a ans IH]; intros buf sent ans'; (destruct buf as [|x buf]; [by intros [= <- <-]|]); [done|].
  cbn [mon_write_all].
  destruct a as [n| | |]; [|by apply IH|done|done].
  destruct (mon_write_all ans (drop n (x :: buf))) as [[[ok more] ans1]| |] eqn:Hw; [|done|done]. cbn.
  intros [= -> <- <-]. apply IH in Hw. subst more. apply take_drop.
Qed.

Lemma send_spec ans type seq payload sent ans' : mon_send_msg ans type seq payload = Returns (MON_WIRE_OK, sent, ans') ->
  sent = frame type seq payload.
Proof.
  unfold mon_send_msg. destruct (mon_write_all ans _) as [[[[] s1] a1]| |] eqn:H1; cbn [mbind outcome_bind negb]; [|done..].
  destruct (mon_write_all a1 payload) as [[[[] s2] a2]| |] eqn:H2; cbn; [|done..]. intros [= <- <-].
  apply write_all_spec in H1. apply write_all_spec in H2. by subst.
Qed.

(** Answers that let a write go on, and the bytes they account for. *)
Definition moving (a : write_answer) : Prop := match a with Writes _ | WriteInterrupted => True | _ => False end.
Fixpoint written (ans : list write_answer) : nat :=
  match ans with [] => 0 | Writes n :: ans => n + written ans | _ :: ans => written ans end.

(** Before a call that meets a peer that has left all went well. *)
Definition peer_left (ans : list write_answer) : Prop := exists used rest, ans = used ++ PeerGone :: rest /\ Forall moving used.

Lemma peer_left_after used ans : Forall moving used -> peer_left ans -> peer_left (used ++ ans).
Proof. intros Hu (u & rest & -> & Hm). exists (used ++ u), rest. by rewrite <- app_assoc, Forall_app. Qed.

Lemma write_all_outcome ans : forall buf,
  match mon_write_all ans buf with
  | Returns (true, _, ans') => exists used, ans = used ++ ans' /\ Forall moving used
  | Returns (false, _, _) => True
  | Blocked => Forall moving ans
  | Killed => peer_left ans
  end.
Proof.
  induction ans as [|a ans IH]; intros buf; (destruct buf as [|x buf]; [by exists []|]); [constructor|].
  cbn [mon_write_all]. destruct a as [n| | |]; [| |done|by exists [], ans].
  - specialize (IH (drop n (x :: buf))).
    destruct (mon_write_all ans (drop n (x :: buf))) as [[[[] sent] ans']| |]; cbn [mbind outcome_bind]; [|done| |].
    + destruct IH as (used & -> & Hu). exists (Writes n :: used). split; [done|by constructor].
    + by constructor.
    + apply (peer_left_after [Writes n]); [by repeat constructor|done].
  - specialize (IH (x :: buf)). destruct (mon_write_all ans (x :: buf)) as [[[[] sent] ans']| |]; [|done| |].
    + destruct IH as (used & -> & Hu). exists (WriteInterrupted :: used). split; [done|by constructor].
    + by constructor.
    + apply (peer_left_after [WriteInterrupted]); [by repeat constructor|done].
Qed.

Lemma send_outcome ans type seq payload :
  match mon_send_msg ans type seq payload with
  | Returns _ => True
  | Blocked => Forall moving ans
  | Killed => peer_left ans
  end.
Proof.
  unfold mon_send_msg. pose proof (write_all_outcome ans (header_bytes (snapshot_header type (Z.of_nat (length payload)) seq))) as H1.
  destruct (mon_write_all ans _) as [[[[] sent] ans1]| |]; cbn [mbind outcome_bind negb]; [|done..].
  destruct H1 as (used & -> & Hu). pose proof (write_all_outcome ans1 payload) as H2.
  destruct (mon_write_all ans1 payload) as [[[ok more] ans2]| |]; cbn [mbind outcome_bind]; [done| |].
  - by apply Forall_app.
  - by apply peer_left_after.
Qed.

(** Conversely: a peer that leaves before a frame is out. *)
Lemma write_gone used rest : forall buf, Forall moving used -> (written used < length buf)%nat ->
  mon_write_all (used ++ PeerGone :: rest) buf = Killed.
Proof.
  induction used as [|a used IH]; intros buf Hu Hw; (destruct buf as [|x buf]; [simpl in Hw; lia|]); [done|].
  apply Forall_cons in Hu as [Ha Hu]. destruct a as [n| | |]; [| |done..].
  - change (mon_write_all _ (x :: buf)) with ('(ok, sent, ans) ← mon_write_all (used ++ PeerGone :: rest) (drop n (x :: buf));
      Returns (ok, take n (x :: buf) ++ sent, ans)).
    rewrite IH; [done|done|]. rewrite length_drop. cbn [written] in Hw. lia.
  - by apply (IH (x :: buf)).
Qed.

Lemma write_through used tl : forall buf, Forall moving used -> (length buf <= written used)%nat ->
  exists used' sent, mon_write_all (used ++ tl) buf = Returns (true, sent, used' ++ tl) /\ Forall moving used' /\
    (written used' + length buf <= written used)%nat.
Proof.
  induction used as [|a used IH]; intros buf Hu Hw.
  { destruct buf; [|simpl in Hw; lia]. exists [], []. by destruct tl. }
  destruct buf as [|x buf]; [exists (a :: used), []; split_and!; [done|done|cbn [length]; lia]|].
  apply Forall_cons in Hu as [Ha Hu]. destruct a as [n| | |]; [| |done..].
  - destruct (IH (drop n (x :: buf)) Hu) as (u & sent & He & Hm & Hl); [rewrite length_drop; cbn [written] in Hw; lia|].
    exists u, (take n (x :: buf) ++ sent). split_and!; [|done|rewrite length_drop in Hl; cbn [written]; lia].
    change (mon_write_all _ (x :: buf)) with ('(ok, sent, ans) ← mon_write_all (used ++ tl) (drop n (x :: buf));
      Returns (ok, take n (x :: buf) ++ sent, ans)). by rewrite He.
  - apply (IH (x :: buf) Hu Hw).
Qed.

Lemma send_gone used rest type seq payload : Forall moving used -> (written used < HDR + length payload)%nat ->
  mon_send_msg (used ++ PeerGone :: rest) type seq payload = Killed.
Proof.
  intros Hu Hw. unfold mon_send_msg. set (hd := header_bytes _).
  assert (Hlen : length hd = HDR) by (unfold hd, header_bytes; by rewrite !length_app, !length_le_bytes).
  destruct (decide (written used < HDR)%nat) as [Hlt|Hge]; [by rewrite write_gone by (rewrite ?Hlen; done)|].
  destruct (write_through used (PeerGone :: rest) hd Hu) as (u & sent & -> & Hm & Hl); [lia|]. cbn [mbind outcome_bind negb].
  rewrite write_gone; [done|done|lia].
Qed.

(** A broadcast appends the snapshot to the streams of the clients that stay, closes the
    others', and counts those that stay. *)
Lemma broadcast_spec ans snap n0 cs : forall out n cs' out',
  NoDup (active_fds cs) -> list_to_set (active_fds cs) ⊆ dom out ->
  broadcast_from ans snap n0 cs out = Returns (n, cs', out') ->
  length cs' = length cs /\ active_fds cs' `sublist_of` active_fds cs /\ n = Z.of_nat (length (active_fds cs')) /\
  forall x, out' !! x = if decide (x ∈ active_fds cs') then (fun l => l ++ snapshot_frame snap) <$> out !! x
                        else if decide (x ∈ active_fds cs) then None else out !! x.
Proof.
  induction cs as [|c cs IH]; intros out n cs' out' Hnd Hin Hb; cbn [broadcast_from] in Hb.
  { injection Hb as <- <- <-. split_and!; [done|constructor|done|]. intros x. by rewrite !decide_False by set_solver. }
  unfold active_fds in Hnd, Hin |- *. cbn [List.filter] in *. destruct (active c) eqn:Hc; cbn [negb] in Hb.
  2: { destruct (broadcast_from ans snap n0 cs out) as [[[n1 cs1] out1]| |] eqn:Hr; [|done..]. cbn in Hb. injection Hb as <- <- <-.
       destruct (IH _ _ _ _ Hnd Hin Hr) as (H1 & H2 & H3 & H4). cbn [List.filter length]. rewrite Hc.
       split_and!; [by f_equal|done..]. }
  rewrite fmap_cons in Hnd, Hin |- *. apply NoDup_cons in Hnd as [Hfd Hnd]. fold (active_fds cs) in *.
  destruct (mon_send_msg (ans (fd c)) MON_MSG_SNAPSHOT_RESP 0 snap) as [[[rc sent] a']| |] eqn:Hs; [|done..].
  cbn [mbind outcome_bind] in Hb.
  set (out1 := if rc =? 0 then <[fd c := default [] (out !! fd c) ++ sent]> out else delete (fd c) out).
  set (c1 := if rc =? 0 then mk_conn (fd c) n0 true else mk_conn (fd c) (last_seq c) false).
  assert (Hb1 : exists n1 cs1, broadcast_from ans snap n0 cs out1 = Returns (n1, cs1, out') /\ cs' = c1 :: cs1 /\
    n = (if rc =? 0 then 1 else 0) + n1).
  { subst out1 c1. destruct (rc =? 0);
      (destruct (broadcast_from ans snap n0 cs _) as [[[n1 cs1] o1]| |]; [|done..]; cbn in Hb; injection Hb as <- <- <-; by do 2 eexists). }
  clear Hb. destruct Hb1 as (n1 & cs1 & Hr & -> & ->).
  assert (Hin1 : (list_to_set (active_fds cs) : gset Z) ⊆ dom out1).
  { subst out1. destruct (rc =? 0); [rewrite dom_insert_L|rewrite dom_delete_L]; set_solver. }
  destruct (IH out1 n1 cs1 out' Hnd Hin1 Hr) as (H1 & H2 & -> & H4).
  assert (Hsub : forall x, x ∈ active_fds cs1 -> x ∈ active_fds cs) by (intros x Hx; by eapply elem_of_sublist).
  cbn [length]. fold (active_fds cs1).
  assert (Hact : fd <$> List.filter active (c1 :: cs1) = if rc =? 0 then fd c :: active_fds cs1 else active_fds cs1).
  { subst c1. by destruct (rc =? 0). }
  rewrite Hact. destruct (Z.eqb_spec rc 0) as [->|Hrc].
  - apply send_spec in Hs. subst sent. split_and!; [by f_equal|by apply sublist_skip|cbn [length]; lia|].
    intros x. rewrite H4. subst out1. destruct (decide (x = fd c)) as [->|Hne].
    + rewrite !decide_False by auto. rewrite decide_True by set_solver. rewrite lookup_insert_eq.
      assert (Hd : fd c ∈ dom out) by set_solver. apply elem_of_dom in Hd as [l Hl]. by rewrite Hl.
    + rewrite lookup_insert_ne by done.
      destruct (decide (x ∈ active_fds cs1)); [by rewrite decide_True by set_solver|].
      rewrite (decide_False (P := x ∈ fd c :: active_fds cs1)) by set_solver.
      destruct (decide (x ∈ active_fds cs)); [by rewrite decide_True by set_solver|by rewrite decide_False by set_solver].
  - split_and!; [by f_equal|by apply sublist_cons|lia|].
    intros x. rewrite H4. subst out1. destruct (decide (x = fd c)) as [->|Hne].
    + rewrite !decide_False by auto. by rewrite decide_True, lookup_delete_eq by set_solver.
    + rewrite lookup_delete_ne by done. destruct (decide (x ∈ active_fds cs1)); [done|].
      destruct (decide (x ∈ active_fds cs)); [by rewrite decide_True by set_solver|by rewrite decide_False by set_solver].
Qed.

(** What ends a broadcast otherwise is the write to one of the clients, and a client that has
    left ends it. *)
Lemma broadcast_outcome ans snap n0 cs : forall out,
  match broadcast_from ans snap n0 cs out with
  | Returns _ => forall f used rest, f ∈ active_fds cs -> ans f = used ++ PeerGone :: rest -> Forall moving used ->
      (HDR + length snap <= written used)%nat
  | Blocked => exists f, f ∈ active_fds cs /\ Forall moving (ans f)
  | Killed => exists f, f ∈ active_fds cs /\ peer_left (ans f)
  end.
Proof.
  induction cs as [|c cs IH]; intros out; cbn [broadcast_from].
  { intros f used rest Hf. by apply not_elem_of_nil in Hf. }
  unfold active_fds. cbn [List.filter]. destruct (active c) eqn:Hc; cbn [negb].
  2: { specialize (IH out). by destruct (broadcast_from ans snap n0 cs out) as [[[??]?]| |]. }
  rewrite fmap_cons. fold (active_fds cs). pose proof (send_outcome (ans (fd c)) MON_MSG_SNAPSHOT_RESP 0 snap) as Hs.
  destruct (mon_send_msg (ans (fd c)) MON_MSG_SNAPSHOT_RESP 0 snap) as [[[rc sent] a']| |] eqn:Hsend; cbn [mbind outcome_bind];
    [|exists (fd c); split; [left|done]..].
  set (out1 := if rc =? 0 then <[fd c := default [] (out !! fd c) ++ sent]> out else delete (fd c) out).
  assert (Hall : match broadcast_from ans snap n0 cs out1 with
    | Returns _ => forall f used rest, f ∈ fd c :: active_fds cs -> ans f = used ++ PeerGone :: rest -> Forall moving used ->
        (HDR + length snap <= written used)%nat
    | Blocked => exists f, f ∈ fd c :: active_fds cs /\ Forall moving (ans f)
    | Killed => exists f, f ∈ fd c :: active_fds cs /\ peer_left (ans f)
    end).
  { specialize (IH out1). destruct (broadcast_from ans snap n0 cs out1) as [x| |];
      [|destruct IH as (f & Hf & Hl); exists f; split; [by right|done]..].
    intros f used rest Hf Ha Hu. apply elem_of_cons in Hf as [->|Hf]; [|by eapply IH].
    destruct (decide (HDR + length snap <= written used)%nat) as [|Hlt]; [done|].
    rewrite Ha, send_gone in Hsend by (done || lia). done. }
  subst out1. by destruct (rc =? 0); (destruct (broadcast_from ans snap n0 cs _) as [[[??]?]| |]).
Qed.

(** A history: connections that are made, with descriptors that are not in use, and
    snapshots that are broadcast, each with the answers of the writes to each client. *)
Inductive server_event :=
| Connect (f : Z)
| Snapshot (snap : list Z) (seq : Z) (ans : Z -> list write_answer).

(** The server's state after a history, and for each open connection the snapshots that were
    broadcast since it was made.  The kernel hands out no descriptor that is open. *)
Fixpoint serve (es : list server_event) (s : monitord_server) (since : gmap Z (list (list Z)))
    : outcome (monitord_server * gmap Z (list (list Z))) :=
  match es with
  | [] => Returns (s, since)
  | Connect f :: es =>
      if decide (f ∈ dom (streams s)) then serve es s since
      else
        let s' := accept_client f s in
        serve es s' (if decide (f ∈ dom (streams s')) then <[f := []]> since else since)
  | Snapshot snap seq ans :: es =>
      '(_, s') ← monitord_server_broadcast_snapshot ans snap seq s;
      serve es s' (map_imap (fun f l => if decide (f ∈ dom (streams s')) then Some (l ++ [snap]) else None) since)
  end.

Definition all_frames (snaps : list (list Z)) : list Z := concat (snapshot_frame <$> snaps).

Lemma all_frames_snoc l x : all_frames (l ++ [x]) = all_frames l ++ snapshot_frame x.
Proof. unfold all_frames. rewrite fmap_app, concat_app. cbn. by rewrite app_nil_r. Qed.

Definition delivered (s : monitord_server) (since : gmap Z (list (list Z))) : Prop :=
  server_inv s /\ streams s = all_frames <$> since.

Lemma connect_delivered f s since : delivered s since -> f ∉ dom (streams s) ->
  delivered (accept_client f s)
    (if decide (f ∈ dom (streams (accept_client f s))) then <[f := []]> since else since).
Proof.
  intros [Hinv Hs] Hf. destruct (accept_spec f s Hinv Hf) as [Hinv' [Hs'|Hs']]; (split; [done|]); rewrite Hs'.
  - rewrite decide_True by set_solver. rewrite fmap_insert. by rewrite Hs.
  - by rewrite decide_False.
Qed.

Lemma snapshot_delivered ans snap seq s since n s' : delivered s since ->
  monitord_server_broadcast_snapshot ans snap seq s = Returns (n, s') ->
  delivered s' (map_imap (fun f l => if decide (f ∈ dom (streams s')) then Some (l ++ [snap]) else None) since) /\
  n = Z.of_nat (length (active_fds (clients s'))).
Proof.
  intros [[Hsz Hnd Hdom] Hs] Hb. unfold monitord_server_broadcast_snapshot in Hb.
  destruct (broadcast_from ans snap seq (clients s) (streams s)) as [[[k cs] out]| |] eqn:Hr; [|done..].
  injection Hb as <- <-. cbn [clients streams].
  destruct (broadcast_spec _ _ _ _ _ _ _ _ Hnd ltac:(by rewrite Hdom) Hr) as (Hlen & Hsub & Hn & Hout).
  assert (Hin : forall x, x ∈ active_fds cs -> is_Some (streams s !! x)).
  { intros x Hx. apply elem_of_dom. rewrite Hdom. apply elem_of_list_to_set. by eapply elem_of_sublist. }
  assert (Hdom' : dom out = list_to_set (active_fds cs)).
  { apply set_eq. intros x. rewrite elem_of_dom, elem_of_list_to_set, Hout. split.
    - intros [l Hl]. destruct (decide (x ∈ active_fds cs)); [done|]. exfalso.
      destruct (decide (x ∈ active_fds (clients s))) as [|Hnot]; [done|].
      apply Hnot. apply (elem_of_list_to_set (C:=gset Z)). rewrite <- Hdom. apply elem_of_dom. by exists l.
    - intros Hx. rewrite decide_True by done. destruct (Hin x Hx) as [l ->]. by eexists. }
  split; [|done]. split.
  - split; cbn [clients streams]; [by rewrite Hlen|by eapply sublist_NoDup|done].
  - cbn [streams]. apply map_eq. intros x. rewrite lookup_fmap, map_lookup_imap.
    destruct (decide (x ∈ dom out)) as [Hx|Hx].
    + pose proof Hx as Hx'. rewrite Hdom', elem_of_list_to_set in Hx'. rewrite Hout, decide_True by done.
      rewrite Hs, lookup_fmap. destruct (since !! x) as [l|]; [|done]. cbn [mbind option_bind fmap option_fmap option_map]. by rewrite all_frames_snoc.
    + rewrite (not_elem_of_dom_1 _ _ Hx). by destruct (since !! x).
Qed.

Lemma stop_closes s : server_inv s -> streams (monitord_server_stop s) = ∅.
Proof.
  intros [_ _ Hdom]. unfold monitord_server_stop. cbn [streams]. apply dom_empty_inv_L.
  assert (Hdel : forall cs (out : gmap Z (list Z)), dom (foldr (fun c out => if active c then delete (fd c) out else out) out cs)
    = dom out ∖ list_to_set (active_fds cs)).
  { intros cs out. induction cs as [|c cs IH]; [cbn; set_solver|]. cbn [foldr]. unfold active_fds. cbn [List.filter].
    destruct (active c); [|exact IH]. rewrite dom_delete_L, IH, fmap_cons. fold (active_fds cs). cbn. set_solver. }
  rewrite Hdel, Hdom. set_solver.
Qed.

(** The broadcast of a history that ended it, with what was there before. *)
Definition ends_in (es : list server_event) (s0 : monitord_server) since0 (why : list write_answer -> Prop) : Prop :=
  exists es1 snap seq ans es2 s since f, es = es1 ++ Snapshot snap seq ans :: es2 /\
    serve es1 s0 since0 = Returns (s, since) /\ f ∈ dom (streams s) /\ why (ans f).

Lemma ends_later e es s0 since0 s1 since1 why : (forall es, serve (e :: es) s0 since0 = serve es s1 since1) ->
  ends_in es s1 since1 why -> ends_in (e :: es) s0 since0 why.
Proof.
  intros He (es1 & snap & seq & ans & es2 & s & since & f & -> & Hs & Hf). exists (e :: es1), snap, seq, ans, es2, s, since, f.
  by rewrite He.
Qed.

Lemma serve_spec es : forall s since, delivered s since ->
  match serve es s since with
  | Returns (s', since') => delivered s' since'
  | Killed => ends_in es s since peer_left
  | Blocked => ends_in es s since (Forall moving)
  end.
Proof.
  induction es as [|[f|snap seq ans] es IH]; intros s since Hd; cbn [serve]; [done| |].
  - destruct (decide (f ∈ dom (streams s))) as [Hf|Hf].
    + specialize (IH s since Hd). destruct (serve es s since) as [[??]| |]; [done|..];
        (eapply ends_later; [|exact IH]; intros l; cbn [serve]; by rewrite decide_True).
    + pose proof (connect_delivered f s since Hd Hf) as Hd'. specialize (IH _ _ Hd').
      destruct (serve es (accept_client f s) _) as [[??]| |]; [done|..];
        (eapply ends_later; [|exact IH]; intros l; cbn [serve]; by rewrite decide_False).
  - pose proof (broadcast_outcome ans snap seq (clients s) (streams s)) as Ho. unfold monitord_server_broadcast_snapshot in *.
    assert (Hopen : forall f, f ∈ active_fds (clients s) -> f ∈ dom (streams s)).
    { intros f Hf. destruct Hd as [[_ _ ->] _]. by apply elem_of_list_to_set. }
    destruct (broadcast_from ans snap seq (clients s) (streams s)) as [[[n cs] out]| |] eqn:Hb; cbn [mbind outcome_bind].
    + assert (Hd' := snapshot_delivered ans snap seq s since n (mk_server cs out) Hd).
      unfold monitord_server_broadcast_snapshot in Hd'. rewrite Hb in Hd'. destruct (Hd' eq_refl) as [Hd1 _]. specialize (IH _ _ Hd1).
      destruct (serve es _ _) as [[??]| |]; [done|..];
        (eapply ends_later; [|exact IH]; intros l; cbn [serve]; unfold monitord_server_broadcast_snapshot; by rewrite Hb).
    + destruct Ho as (f & Hf & Ha). exists [], snap, seq, ans, es, s, since, f. by auto.
    + destruct Ho as (f & Hf & Ha). exists [], snap, seq, ans, es, s, since, f. by auto.
Qed.

(** C30: Whatever clients connect and whatever snapshots are broadcast, as long as the daemon
    lives and its writes return: the bytes on each open connection are exactly the frames of
    the snapshots that were broadcast since it was made, one after the other and whole; the
    open connections are exactly those of the sixteen slots in use, each in one slot; and
    stopping the server closes them all.  But no broadcast returns once the peer of an open
    connection has left before its frame is out: the write raises SIGPIPE, which ends the
    daemon.  The daemon is ended only by such a write to an open connection, and it hangs only
    in a write to an open connection that does not return. *)
Theorem server_delivers es :
  match serve es server0 ∅ with
  | Returns (s, since) =>
      streams s = all_frames <$> since /\ server_inv s /\ streams (monitord_server_stop s) = ∅ /\
      forall snap seq ans f used rest, f ∈ dom (streams s) -> ans f = used ++ PeerGone :: rest -> Forall moving used ->
        (written used < HDR + length snap)%nat -> forall r, monitord_server_broadcast_snapshot ans snap seq s <> Returns r
  | Killed => exists es1 snap seq ans es2 s since f, es = es1 ++ Snapshot snap seq ans :: es2 /\
      serve es1 server0 ∅ = Returns (s, since) /\ f ∈ dom (streams s) /\
      exists used rest, ans f = used ++ PeerGone :: rest /\ Forall moving used
  | Blocked => exists es1 snap seq ans es2 s since f, es = es1 ++ Snapshot snap seq ans :: es2 /\
      serve es1 server0 ∅ = Returns (s, since) /\ f ∈ dom (streams s) /\ Forall moving (ans f)
  end.
Proof.
  assert (H0 : delivered server0 ∅) by (split; [apply server0_inv|by rewrite fmap_empty]).
  pose proof (serve_spec es server0 ∅ H0) as Hs. destruct (serve es server0 ∅) as [[s since]| |]; [|exact Hs..].
  destruct Hs as [Hinv Hs]. split_and!; [done|done|by apply stop_closes|].
  intros snap seq ans f used rest Hf Ha Hu Hw r Hb. destruct Hinv as [_ _ Hdom].
  rewrite Hdom, elem_of_list_to_set in Hf. unfold monitord_server_broadcast_snapshot in Hb.
  pose proof (broadcast_outcome ans snap seq (clients s) (streams s)) as Ho.
  destruct (broadcast_from _ _ _ _ _); [|done..]. specialize (Ho f used rest Hf Ha Hu). lia.
Qed.

(** ** Witnesses and what else there is to know *)

Lemma message_received_witness :
  mon_recv_msg [Moves 7; Interrupted; Again; Moves 100; Moves 2; Again; Moves 9] 64 (frame 0x10 5 [1; 2; 3] ++ [9; 9])
    = Some (MON_WIRE_OK, snapshot_header 0x10 3 5, [1; 2; 3], [9; 9], []).
Proof.
  pose proof (message_received [Moves 7; Interrupted; Again; Moves 100; Moves 2; Again; Moves 9] 64 0x10 5 [1; 2; 3] [9; 9]
    ltac:(by repeat constructor) ltac:(done) ltac:(done) ltac:(done)) as Hr.
  vm_compute in Hr |- *. destruct Hr as [(_ & _ & _ & _)|(Hr & _)]; [reflexivity|done].
Defined.

Definition writes_all (f : Z) : list write_answer := [Writes 5; WriteInterrupted; Writes 1000; Writes 1000].
Definition client_8_fails (f : Z) : list write_answer := if f =? 8 then [Writes 5; WriteFailed] else writes_all f.
Definition client_8_left (f : Z) : list write_answer := if f =? 8 then [Writes 5; PeerGone] else writes_all f.
Definition server_history : list server_event :=
  [Connect 7; Snapshot [1; 2] 0 writes_all; Connect 8; Snapshot [3; 4; 5] 1 writes_all; Snapshot [6] 2 client_8_fails].

(** A connection that fails in another way is closed and the others go on; one whose peer has
    left ends the daemon. *)
Lemma server_delivers_witness : exists s since, serve server_history server0 ∅ = Returns (s, since) /\
  streams s = all_frames <$> since /\ streams s !! 7 = Some (all_frames [[1; 2]; [3; 4; 5]; [6]]) /\ streams s !! 8 = None.
Proof.
  pose proof (server_delivers server_history) as Hd.
  destruct (serve server_history server0 ∅) as [[s since]| |] eqn:Hr; [|by vm_compute in Hr..].
  exists s, since. destruct Hd as (Hs & _ & _).
  assert (Hv : match serve server_history server0 ∅ with
    | Returns (_, since) => since !! 7 = Some [[1; 2]; [3; 4; 5]; [6]] /\ since !! 8 = None | _ => False end) by by vm_compute.
  rewrite Hr in Hv. destruct Hv as [H7 H8]. split_and!; [done|done|..]; rewrite Hs, lookup_fmap; by rewrite ?H7, ?H8.
Defined.

Example gone_client_kills :
  serve [Connect 7; Connect 8; Snapshot [1] 0 client_8_left; Connect 9] server0 ∅ = Killed.
Proof. vm_compute. reflexivity. Qed.

(** A pause between header and payload loses the header: the receiver is told to try again
    and then reads the payload as a header. *)
Lemma pause_loses_header :
  let r := mon_recv_msg [Moves 16; Again; Moves 16] 64 (frame 0x11 0 (replicate 16 1)) in
  exists h rest, r = Some (MON_WIRE_ERR_AGAIN, h, [], rest, [Moves 16]) /\
    (fun '(rc, _, _, _, _) => rc) <$> mon_recv_msg [Moves 16] 64 rest = Some MON_WIRE_ERR_FRAME.
Proof. do 2 eexists. split; vm_compute; reflexivity. Qed.

(** A client that stops reading stops the daemon: a broadcast does not return while the
    write to it does not. *)
Lemma slow_client_blocks ans snap seq c cs out : active c = true ->
  mon_send_msg (ans (fd c)) MON_MSG_SNAPSHOT_RESP 0 snap = Blocked -> broadcast_from ans snap seq (c :: cs) out = Blocked.
Proof. intros Hc Hs. cbn [broadcast_from]. by rewrite Hc, Hs. Qed.
