(* ===== verification/Logs.v ===== *)
(** * The daemon's logs (observability/sm_logging.c, sm_audit.c, sm_structured_log.c)

    The rotating log with its guard against re-entrance, the audit log of one line for a
    record with its fields escaped, and the messages in JSON.  The files are a map from
    names to contents. *)

From S2P Require Import Prelude CText.

(** ** The audit log *)

(** [dev/core/service_manager/observability/sm_audit.h:13-21 audit_action_t] *)
Inductive audit_action_t :=
  AUDIT_REGISTER | AUDIT_UNREGISTER | AUDIT_HEARTBEAT | AUDIT_LOOKUP | AUDIT_CRASH | AUDIT_RESTART | AUDIT_AUTH_FAIL.

(** [dev/core/service_manager/observability/sm_audit.c:52-64 action_name] *)
Definition action_name (a : audit_action_t) : string :=
  match a with
  | AUDIT_REGISTER => "REGISTER" | AUDIT_UNREGISTER => "UNREGISTER" | AUDIT_HEARTBEAT => "HEARTBEAT"
  | AUDIT_LOOKUP => "LOOKUP" | AUDIT_CRASH => "CRASH" | AUDIT_RESTART => "RESTART" | AUDIT_AUTH_FAIL => "AUTH_FAIL"
  end.

Definition pipe : ascii := "|"%char.
Definition backslash : ascii := "\"%char.
Definition cr : ascii := "013"%char.

(** The letter behind the backslash for a character that is escaped. *)
Definition escape_letter (c : ascii) : option ascii :=
  if Ascii.eqb c pipe then Some "p"%char
  else if Ascii.eqb c newline then Some "n"%char
  else if Ascii.eqb c cr then Some "r"%char
  else if Ascii.eqb c backslash then Some backslash
  else None.

(** [dev/core/service_manager/observability/sm_audit.c:90-130 escape_audit_field, the loop] [room]: the
    places left before the terminator. *)
Fixpoint escape_from (room : nat) (input : string) : string :=
  match input, room with
  | EmptyString, _ | _, O => EmptyString
  | String c input, S room =>
      match escape_letter c with
      | Some l => match room with
                  | O => EmptyString
                  | S room => String backslash (String l (escape_from room input))
                  end
      | None => String (if byte_of c <? 32 then "?"%char else c) (escape_from room input)
      end
  end.

(** [dev/core/service_manager/observability/sm_audit.c:82-133 escape_audit_field] for buffers of at least
    two bytes. *)
Definition escape_audit_field (input : option string) (outlen : nat) : string :=
  match input with None => EmptyString | Some s => escape_from (outlen - 1) s end.

(** A record. *)
Record audit_record := mk_audit {
  r_time : Z; r_action : audit_action_t; r_service : option string; r_svc_pid : Z; r_actor : Z; r_uid : Z; r_result : Z;
  r_details : option string
}.

(** The fields with bars between them. *)
Fixpoint joined_by (d : ascii) (l : list string) : string :=
  match l with
  | [] => EmptyString
  | [w] => w
  | w :: l => w ++ String d (joined_by d l)
  end.

Definition audit_fields (r : audit_record) : list string :=
  [decimal (r_time r); action_name (r_action r); escape_audit_field (r_service r) 128; decimal (r_svc_pid r);
   decimal (r_actor r); decimal (r_uid r); decimal (r_result r); escape_audit_field (r_details r) 256].

(** [dev/core/service_manager/observability/sm_audit.c:142-155 sm_audit_log, the line] *)
Definition audit_line (r : audit_record) : string :=
  strncpy_z (Z.to_nat 511) (joined_by pipe (audit_fields r) ++ line_end).

Definition AUDIT_LOG_FILE : string := "/var/log/servicemanager-audit.log".
Definition AUDIT_LOG_MAX_SIZE : Z := 10 * 1024 * 1024.

(** The directory: names and contents. *)
Abbreviation files := (gmap string string).
Definition size_of (s : string) : Z := Z.of_nat (String.length s).

(** [dev/core/service_manager/observability/sm_audit.c:20-22 audit_fd] whether it is open (on the log
    file), with the files. *)
Record audit_state := mk_audit_state { audit_open : bool; last_rotation_check : Z; a_files : files }.

(** A file with one more text; one that is not there is created by [open]. *)
Definition append (nm text : string) (f : files) : files := <[nm := (default ""%string (f !! nm) ++ text)%string]> f.
Definition create (nm : string) (f : files) : files := append nm "" f.
(** [rename (old, new)]. *)
Definition rename (old new : string) (f : files) : files :=
  match f !! old with Some c => <[new := c]> (delete old f) | None => f end.

(** [dev/core/service_manager/observability/sm_audit.c:24-50 audit_rotate_if_needed] [reopen]: [open]
    succeeds. *)
Definition audit_rotate_if_needed (now : Z) (reopen : bool) (s : audit_state) : audit_state :=
  if now - last_rotation_check s <? 60 then s
  else
    let s := mk_audit_state (audit_open s) now (a_files s) in
    match a_files s !! AUDIT_LOG_FILE with
    | None => s
    | Some c =>
        if size_of c <=? AUDIT_LOG_MAX_SIZE then s
        else
          let f := rename AUDIT_LOG_FILE (AUDIT_LOG_FILE ++ "." ++ decimal now) (a_files s) in
          mk_audit_state reopen now (if reopen then create AUDIT_LOG_FILE f else f)
    end.

(** [dev/core/service_manager/observability/sm_audit.c:66-76 sm_audit_init] *)
Definition sm_audit_init (opened : bool) (s : audit_state) : Z * audit_state :=
  if opened then (0, mk_audit_state true (last_rotation_check s) (create AUDIT_LOG_FILE (a_files s)))
  else (-1, mk_audit_state false (last_rotation_check s) (a_files s)).

(** [dev/core/service_manager/observability/sm_audit.c:135-167 sm_audit_log] *)
Definition sm_audit_log (reopen : bool) (r : audit_record) (s : audit_state) : audit_state :=
  if negb (audit_open s) then s
  else
    let s := audit_rotate_if_needed (r_time r) reopen s in
    if audit_open s
    then mk_audit_state true (last_rotation_check s) (append AUDIT_LOG_FILE (audit_line r) (a_files s)) else s.

(** [dev/core/service_manager/observability/sm_audit.c:174-180 sm_audit_cleanup] *)
Definition sm_audit_cleanup (s : audit_state) : audit_state := mk_audit_state false (last_rotation_check s) (a_files s).

(** ** The log *)

Definition SM_LOG_FILE : string := "/var/log/middleware/servicemanager.log".
Definition SM_LOG_MAX_SIZE : Z := 10 * 1024 * 1024.
Definition SM_LOG_BACKUP_COUNT : nat := 5.
Definition backup (i : nat) : string := SM_LOG_FILE ++ "." ++ decimal (Z.of_nat i).

(** [dev/core/service_manager/observability/sm_logging.c:32-42 log_fd] and its fellows: open or not, the
    level, whether syslog is open, the files, and what syslog and stderr were told. *)
Record log_state := mk_log {
  log_open : bool; log_level : Z; syslog_open : bool; l_files : files; syslogged : list string; on_stderr : list string
}.

(** [dev/core/service_manager/observability/sm_logging.c:46-51 level_name] *)
Definition level_name (level : Z) : string :=
  if level =? 0 then "DEBUG" else if level =? 1 then "INFO" else if level =? 2 then "WARN" else if level =? 3 then "ERROR"
  else if level =? 4 then "CRIT" else "UNKNOWN".

(** [dev/core/service_manager/observability/sm_logging.c:70-76 sanitize_log_buffer] *)
Definition sanitize_log_buffer : string -> string :=
  smap (fun c => if (byte_of c <? 32) || (byte_of c =? 127) then " "%char else c).

(** [dev/core/service_manager/observability/sm_logging.c:93-97 log_rotate_locked, the backups] from number
    [i] - 1 down to 0. *)
Fixpoint shift_backups (i : nat) (f : files) : files :=
  match i with O => f | S i => shift_backups i (rename (backup i) (backup (S i)) f) end.

(** [dev/core/service_manager/observability/sm_logging.c:83-108 log_rotate_locked] *)
Definition log_rotate_locked (reopen : bool) (s : log_state) : log_state :=
  if size_of (default ""%string (l_files s !! SM_LOG_FILE)) <? SM_LOG_MAX_SIZE then s
  else
    let f := shift_backups (SM_LOG_BACKUP_COUNT - 1) (l_files s) in
    let f := rename SM_LOG_FILE (backup 0) f in
    mk_log reopen (log_level s) (syslog_open s) (if reopen then create SM_LOG_FILE f else f) (syslogged s) (on_stderr s).

(** [dev/core/service_manager/observability/sm_logging.c:149-194 sm_log] [in_log]: the thread is in it
    already; [ts], [pid]: time and process as printed; [text]: the formatted message, of
    which 4095 bytes are kept. *)
Definition sm_log (in_log reopen : bool) (ts : string) (pid level : Z) (text : string) (s : log_state) : log_state :=
  if level <? log_level s then s
  else if in_log then s
  else
    let buf := sanitize_log_buffer (strncpy_z (Z.to_nat 4095) text) in
    let head := ("[" ++ level_name level ++ "] [" ++ decimal pid ++ "] " ++ buf)%string in
    let line := (ts ++ " " ++ head ++ line_end)%string in
    let s := if syslog_open s
             then mk_log (log_open s) (log_level s) true (l_files s) (syslogged s ++ [head]) (on_stderr s) else s in
    let s := if log_open s then
               let s := log_rotate_locked reopen s in
               if log_open s
               then mk_log true (log_level s) (syslog_open s) (append SM_LOG_FILE line (l_files s)) (syslogged s) (on_stderr s) else s
             else s in
    if 4 <=? level then mk_log (log_open s) (log_level s) (syslog_open s) (l_files s) (syslogged s) (on_stderr s ++ [line]) else s.

(** [dev/core/service_manager/observability/sm_logging.c:112-132 sm_logging_init] [opened]: the file is;
    [ts], [pid]: for its first message. *)
Definition sm_logging_init (opened reopen : bool) (ts : string) (pid : Z) (s : log_state) : Z * log_state :=
  if negb opened
  then (-1, mk_log false (log_level s) true (l_files s) (syslogged s ++ ["cannot open log file"%string]) (on_stderr s))
  else (0, sm_log false reopen ts pid 1 ("logging initialized (file=" ++ SM_LOG_FILE ++ ")")
             (mk_log true (log_level s) true (create SM_LOG_FILE (l_files s)) (syslogged s) (on_stderr s))).

(** [dev/core/service_manager/observability/sm_logging.c:200-218 sm_logging_close] *)
Definition sm_logging_close (ts : string) (pid : Z) (s : log_state) : log_state :=
  mk_log false (log_level s) false
    (if log_open s then append SM_LOG_FILE (ts ++ " [INFO] [" ++ decimal pid ++ "] logging shutdown" ++ line_end) (l_files s) else l_files s)
    (if syslog_open s then syslogged s ++ ["logging shutdown"%string] else syslogged s) (on_stderr s).

(** [dev/core/service_manager/observability/sm_logging.c:220-225 sm_set_log_level] *)
Definition sm_set_log_level (level : Z) (s : log_state) : log_state :=
  mk_log (log_open s) level (syslog_open s) (l_files s) (syslogged s) (on_stderr s).

(** ** Messages in JSON *)

Definition quote_char : ascii := "034"%char.

(** What stands for a character in a string of JSON, None: it is left out. *)
Definition json_escape (c : ascii) : option string :=
  if Ascii.eqb c quote_char then Some (String backslash (String quote_char ""))
  else if Ascii.eqb c backslash then Some (String backslash (String backslash ""))
  else if Ascii.eqb c newline then Some "\n"%string
  else if Ascii.eqb c cr then Some "\r"%string
  else if Ascii.eqb c "009"%char then Some "\t"%string
  else if byte_of c <? 32 then None else Some (String c "").

(** [dev/core/service_manager/observability/sm_structured_log.c:14-57 json_escape_string] [room]: the places
    left before the terminator; a character that is written as two is left out when there
    is one. *)
Fixpoint json_escape_string (room : nat) (input : string) : string :=
  match input, room with
  | EmptyString, _ | _, O => EmptyString
  | String c input, S r =>
      match json_escape c with
      | None => json_escape_string (S r) input
      | Some e => if (String.length e <=? S r)%nat then (e ++ json_escape_string (S r - String.length e) input)%string
                  else json_escape_string (S r) input
      end
  end.

Definition json_level (level : Z) : string :=
  if level =? 0 then "DEBUG" else if level =? 1 then "INFO" else if level =? 2 then "WARN" else if level =? 3 then "ERROR" else "CRIT".
Definition jstr (s : string) : string := String quote_char (s ++ String quote_char "").

(** [dev/core/service_manager/observability/sm_structured_log.c:59-83 sm_log_json] the message that is
    logged. *)
Definition sm_log_json (now level : Z) (component message extra : option string) : string :=
  strncpy_z (Z.to_nat 1023)
    ("{" ++ jstr "ts" ++ ":" ++ decimal now ++ "," ++ jstr "level" ++ ":"
     ++ jstr (json_level level)
     ++ "," ++ jstr "component" ++ ":" ++ jstr (json_escape_string 127 (default ""%string component))
     ++ "," ++ jstr "msg" ++ ":" ++ jstr (json_escape_string 255 (default ""%string message))
     ++ match extra with Some e => "," ++ e | None => "" end ++ "}")%string.

(** [dev/core/service_manager/observability/sm_structured_log.c:85-106 sm_log_service_event] *)
Definition sm_log_service_event (now : Z) (action nm : option string) (pid result : Z) (details : option string) : string :=
  sm_log_json now 1 (Some "service"%string) (Some "service_event"%string)
    (Some (strncpy_z (Z.to_nat 511)
      (jstr "action" ++ ":" ++ jstr (json_escape_string 63 (default ""%string action)) ++ "," ++ jstr "service" ++ ":"
       ++ jstr (json_escape_string 63 (default ""%string nm)) ++ "," ++ jstr "pid" ++ ":" ++ decimal pid ++ "," ++ jstr "result" ++ ":"
       ++ decimal result ++ "," ++ jstr "details" ++ ":" ++ jstr (json_escape_string 127 (default ""%string details)))%string)).

(** [dev/core/service_manager/observability/sm_structured_log.c:108-120 sm_log_ratelimit_event] *)
Definition sm_log_ratelimit_event (now pid : Z) (service : option string) (tokens_left : Z) : string :=
  sm_log_json now 2 (Some "ratelimit"%string) (Some "limit_hit"%string)
    (Some (strncpy_z (Z.to_nat 255)
      (jstr "pid" ++ ":" ++ decimal pid ++ "," ++ jstr "service" ++ ":" ++ jstr (json_escape_string 63 (default ""%string service)) ++ ","
       ++ jstr "tokens" ++ ":" ++ decimal tokens_left)%string)).

(** ** One line for a record *)

(** A text split at every [d]. *)
Fixpoint split_on (d : ascii) (s : string) : list string :=
  match s with
  | EmptyString => [EmptyString]
  | String c s => if Ascii.eqb c d then EmptyString :: split_on d s
                  else match split_on d s with w :: l => String c w :: l | [] => [String c EmptyString] end
  end.

(** What a reader of the log makes of a field. *)
Fixpoint unescape (s : string) : string :=
  match s with
  | String c s1 =>
      match s1 with
      | String l s2 =>
          if Ascii.eqb c backslash
          then String (if Ascii.eqb l "p" then pipe else if Ascii.eqb l "n" then newline else if Ascii.eqb l "r" then cr else l) (unescape s2)
          else String c (unescape s1)
      | EmptyString => s
      end
  | EmptyString => s
  end.

(** The places that a text takes when it is escaped. *)
Fixpoint escaped_size (s : string) : nat :=
  match s with
  | EmptyString => 0
  | String c s => match escape_letter c with Some _ => 2 | None => 1 end + escaped_size s
  end.

(** Text of characters that are kept or escaped. *)
Definition escapable (s : string) : Prop := all (fun c => escape_letter c <> None \/ 32 <= byte_of c) s.

Definition safe (c : ascii) : Prop := c <> pipe /\ c <> newline /\ c <> cr.

Lemma escape_letter_safe c l : escape_letter c = Some l -> safe l.
Proof. unfold escape_letter. repeat case_match; intros [= <-]; done. Qed.

Lemma escape_letter_none c : escape_letter c = None -> safe c /\ c <> backslash.
Proof.
  unfold escape_letter. destruct (Ascii.eqb_spec c pipe), (Ascii.eqb_spec c newline), (Ascii.eqb_spec c cr), (Ascii.eqb_spec c backslash); done.
Qed.

Lemma escape_cons c s room : escape_from (S room) (String c s) =
  match escape_letter c with
  | Some l => match room with O => EmptyString | S room => String backslash (String l (escape_from room s)) end
  | None => String (if byte_of c <? 32 then "?"%char else c) (escape_from room s)
  end.
Proof. done. Qed.

(** Whatever the input, no bar, newline or return is left, and the field fits. *)
Lemma escape_safe s : forall room, all safe (escape_from room s) /\ (String.length (escape_from room s) <= room)%nat.
Proof.
  induction s as [|c s IH]; intros room; [destruct room; (split; [constructor|cbn; lia])|].
  destruct room as [|room]; [split; [constructor|done]|]. rewrite escape_cons. destruct (escape_letter c) as [l|] eqn:Hl.
  - destruct room as [|room]; [split; [constructor|cbn; lia]|]. destruct (IH room) as [H1 H2].
    split; [|cbn [String.length]; lia]. apply all_cons. split; [done|]. apply all_cons. split; [by eapply escape_letter_safe|done].
  - destruct (IH room) as [H1 H2]. split; [|cbn [String.length]; lia]. apply all_cons. split; [|done].
    destruct (byte_of c <? 32); [done|]. by apply escape_letter_none.
Qed.

Lemma unescape_plain c s : c <> backslash -> unescape (String c s) = String c (unescape s).
Proof. intros Hc. destruct s as [|l s]; [done|]. cbn [unescape]. by apply Ascii.eqb_neq in Hc as ->. Qed.

Lemma unescape_letter c l s : escape_letter c = Some l -> unescape (String backslash (String l s)) = String c (unescape s).
Proof.
  unfold escape_letter. destruct (Ascii.eqb_spec c pipe) as [->|]; [by intros [= <-]|].
  destruct (Ascii.eqb_spec c newline) as [->|]; [by intros [= <-]|]. destruct (Ascii.eqb_spec c cr) as [->|]; [by intros [= <-]|].
  destruct (Ascii.eqb_spec c backslash) as [->|]; [by intros [= <-]|done].
Qed.

Lemma unescape_escape s : forall room, escapable s -> (escaped_size s <= room)%nat -> unescape (escape_from room s) = s.
Proof.
  induction s as [|c s IH]; intros room Hs Hr; [by destruct room|]. apply all_cons in Hs as [Hc Hs]. cbn [escaped_size] in *.
  destruct room as [|room]; [destruct (escape_letter c); lia|]. rewrite escape_cons. destruct (escape_letter c) as [l|] eqn:Hl.
  - destruct room as [|room]; [lia|]. rewrite (unescape_letter c) by done. f_equal. apply IH; [done|lia].
  - destruct Hc as [?|Hc]; [done|]. assert (Hb : (byte_of c <? 32) = false) by lia. rewrite Hb.
    rewrite unescape_plain by by apply escape_letter_none. f_equal. apply IH; [done|lia].
Qed.

Lemma split_on_app d a b : all (fun c => c <> d) a -> split_on d (a ++ String d b) = a :: split_on d b.
Proof.
  intros Ha. induction a as [|c a IH].
  - rewrite append_nil. cbn [split_on]. by rewrite Ascii.eqb_refl.
  - apply all_cons in Ha as [Hc Ha]. rewrite append_cons. cbn [split_on]. apply Ascii.eqb_neq in Hc as ->. by rewrite IH.
Qed.

Lemma split_on_last d a : all (fun c => c <> d) a -> split_on d a = [a].
Proof.
  intros Ha. induction a as [|c a IH]; [done|]. apply all_cons in Ha as [Hc Ha]. cbn [split_on]. apply Ascii.eqb_neq in Hc as ->.
  by rewrite IH.
Qed.

Lemma split_joined d l : l <> [] -> Forall (all (fun c => c <> d)) l -> split_on d (joined_by d l) = l.
Proof.
  induction l as [|w l IH]; intros Hne Hl; [done|]. apply Forall_cons in Hl as [Hw Hl]. cbn [joined_by].
  destruct l as [|w' l]; [by apply split_on_last|]. rewrite split_on_app by done. by rewrite IH.
Qed.

Lemma joined_all (p : ascii -> Prop) d l : p d -> Forall (all p) l -> all p (joined_by d l).
Proof.
  intros Hd. induction l as [|w l IH]; intros Hl; [constructor|]. apply Forall_cons in Hl as [Hw Hl]. cbn [joined_by].
  destruct l as [|w' l]; [done|]. apply all_app. split; [done|]. apply all_cons. split; [done|by apply IH].
Qed.

Lemma joined_length d l : String.length (joined_by d l) = (list_sum (String.length <$> l) + (length l - 1))%nat.
Proof.
  induction l as [|w l IH]; [done|]. destruct l as [|w' l]; [cbn; lia|].
  change (joined_by d (w :: w' :: l)) with (w ++ String d (joined_by d (w' :: l)))%string.
  rewrite string_length_app. cbn [String.length]. rewrite IH. cbn [fmap list_fmap list_sum foldr length]. lia.
Qed.

(** Numbers as the system gives them. *)
Definition audit_ranges (r : audit_record) : Prop :=
  0 <= r_time r < 2 ^ 63 /\ Forall (fun z => - 2 ^ 31 <= z < 2 ^ 31) [r_svc_pid r; r_actor r; r_uid r; r_result r].

Lemma decimal_safe z : - 10 ^ 20 < z < 10 ^ 20 -> all safe (decimal z) /\ (String.length (decimal z) <= 21)%nat.
Proof.
  intros Hz. destruct (decimal_plain z Hz) as (Ha & _ & Hl). split; [|done]. eapply all_impl; [exact Ha|].
  intros c [Hc| ->]; [|done]. unfold safe, is_digit in *. split_and!; intros ->; vm_compute in Hc; by destruct Hc.
Qed.

Lemma field_safe f n : all safe (escape_audit_field f n) /\ (String.length (escape_audit_field f n) <= n - 1)%nat.
Proof. destruct f as [s|]; [apply escape_safe|]. split; [constructor|cbn; lia]. Qed.

Lemma action_safe a : all safe (action_name a) /\ (String.length (action_name a) <= 10)%nat.
Proof. destruct a; (split; [repeat constructor; done|cbn; lia]). Qed.

Lemma fields_safe r : audit_ranges r -> Forall (all safe) (audit_fields r) /\
  (list_sum (String.length <$> audit_fields r) <= 497)%nat.
Proof.
  intros [Ht Hz]. rewrite !Forall_cons in Hz. destruct Hz as (H1 & H2 & H3 & H4 & _).
  destruct (decimal_safe (r_time r)) as [T1 T2]; [lia|]. destruct (decimal_safe (r_svc_pid r)) as [A1 A2]; [lia|].
  destruct (decimal_safe (r_actor r)) as [B1 B2]; [lia|]. destruct (decimal_safe (r_uid r)) as [C1 C2]; [lia|].
  destruct (decimal_safe (r_result r)) as [D1 D2]; [lia|]. destruct (action_safe (r_action r)) as [N1 N2].
  destruct (field_safe (r_service r) 128) as [S1 S2]. destruct (field_safe (r_details r) 256) as [E1 E2].
  unfold audit_fields. rewrite !Forall_cons. split; [repeat (split; [assumption|]); apply Forall_nil_2|].
  cbn [fmap list_fmap list_sum foldr]. lia.
Qed.

(** C36: A record of the audit log is one line that says what it was given, whatever the names
    and details of clients are: it is not cut, its only newline is at its end, and split at
    the bars it has exactly the eight fields, so that no client can forge a record or a
    field; and a service's name or details without control characters but newline and
    return, if it fits when it is escaped, is read back exactly. *)
Theorem audit_one_record r : audit_ranges r ->
  exists body, audit_line r = (body ++ line_end)%string /\ all (fun c => c <> newline) body /\ split_on pipe body = audit_fields r /\
    (forall s, r_service r = Some s -> escapable s -> (escaped_size s <= 127)%nat -> unescape (nth 2 (split_on pipe body) ""%string) = s) /\
    (forall s, r_details r = Some s -> escapable s -> (escaped_size s <= 255)%nat -> unescape (nth 7 (split_on pipe body) ""%string) = s).
Proof.
  intros Hr. destruct (fields_safe r Hr) as [Hs Hl]. exists (joined_by pipe (audit_fields r)).
  assert (Hsplit : split_on pipe (joined_by pipe (audit_fields r)) = audit_fields r).
  { apply split_joined; [done|]. eapply Forall_impl; [exact Hs|]. intros w Hw. eapply all_impl; [exact Hw|]. by intros c []. }
  rewrite Hsplit. split_and!; [| |done| |].
  - unfold audit_line. apply strncpy_z_short. rewrite string_length_app, joined_length.
    change (length (audit_fields r) - 1)%nat with 7%nat. change (String.length line_end) with 1%nat. lia.
  - apply joined_all; [done|]. eapply Forall_impl; [exact Hs|]. intros w Hw. eapply all_impl; [exact Hw|]. by intros c (_ & ? & _).
  - intros s Hsv He Hf. cbn [audit_fields nth]. rewrite Hsv. by apply unescape_escape.
  - intros s Hsv He Hf. cbn [audit_fields nth]. rewrite Hsv. by apply unescape_escape.
Qed.

Definition forged : audit_record :=
  mk_audit 1700000000 AUDIT_AUTH_FAIL (Some ("gpio|x" ++ line_end ++ "0|REGISTER|root")%string) 7 8 1000 (-1) None.

Lemma audit_one_record_witness :
  audit_line forged = ("1700000000|AUTH_FAIL|gpio\px\n0\pREGISTER\proot|7|8|1000|-1|" ++ line_end)%string /\
  exists body, audit_line forged = (body ++ line_end)%string /\ length (split_on pipe body) = 8%nat.
Proof.
  split; [vm_compute; reflexivity|]. destruct (audit_one_record forged) as (body & H1 & _ & H2 & _).
  { split; [cbn; lia|]. repeat constructor; cbn; lia. }
  exists body. split; [exact H1|]. rewrite H2. reflexivity.
Defined.

(** ** The log *)

(** A message makes one line, whatever it holds. *)
Lemma sanitized_one_line s : all (fun c => c <> newline /\ c <> cr /\ 32 <= byte_of c) (sanitize_log_buffer s).
Proof.
  unfold sanitize_log_buffer. induction s as [|c s IH]; [constructor|]. cbn [smap]. apply all_cons. split; [|done].
  destruct ((byte_of c <? 32) || (byte_of c =? 127)) eqn:Hc; [by vm_compute|].
  apply orb_false_iff in Hc as [Hc _]. apply Z.ltb_ge in Hc. split_and!; [..|done]; intros ->; by vm_compute in Hc.
Qed.

Lemma rename_ne nm a b f : nm <> a -> nm <> b -> rename a b f !! nm = f !! nm.
Proof. intros Ha Hb. unfold rename. destruct (f !! a); [|done]. rewrite lookup_insert_ne, lookup_delete_ne by done. done. Qed.

Lemma shift_other nm i f : (forall k, (k <= i)%nat -> nm <> backup k) -> shift_backups i f !! nm = f !! nm.
Proof.
  revert f. induction i as [|i IH]; intros f Hne; [done|]. cbn [shift_backups]. rewrite IH by (intros; apply Hne; lia).
  apply rename_ne; apply Hne; lia.
Qed.

Lemma log_not_backup i : SM_LOG_FILE <> backup i.
Proof.
  unfold backup. intros H. apply (f_equal String.length) in H. rewrite !string_length_app in H. cbn [String.length] in H. lia.
Qed.

(** A rotation moves the whole log to the first backup and begins an empty one. *)
Lemma rotation_keeps s c : l_files s !! SM_LOG_FILE = Some c -> SM_LOG_MAX_SIZE <= size_of c ->
  let s' := log_rotate_locked true s in
  l_files s' !! backup 0 = Some c /\ l_files s' !! SM_LOG_FILE = Some ""%string /\ log_open s' = true.
Proof.
  intros Hc Hsize s'. subst s'. unfold log_rotate_locked. rewrite Hc. cbn [default from_option id].
  destruct (Z.ltb_spec (size_of c) SM_LOG_MAX_SIZE); [lia|]. cbn [l_files log_open].
  assert (Hs : shift_backups (SM_LOG_BACKUP_COUNT - 1) (l_files s) !! SM_LOG_FILE = Some c).
  { rewrite shift_other; [done|]. intros k _. apply log_not_backup. }
  unfold create, append, rename. rewrite Hs. pose proof (log_not_backup 0) as Hne. split_and!; [| |done].
  - rewrite lookup_insert_ne by done. by rewrite lookup_insert_eq.
  - rewrite lookup_insert_eq, lookup_insert_ne by done. by rewrite lookup_delete_eq.
Qed.

(** A message logged while the same thread is in the logger is lost, whatever its level. *)
Lemma nested_message_lost reopen ts pid level text s : sm_log true reopen ts pid level text s = s.
Proof. unfold sm_log. by destruct (level <? log_level s). Qed.

(** A quotation mark for which only one place is left is dropped while the text behind it goes
    on: the message that is logged is another one. *)
Example json_drops_inside :
  json_escape_string 3 ("ab" ++ String quote_char "c") = "abc"%string /\ json_escape_string 5 ("ab" ++ String quote_char "c") = ("ab" ++ String backslash (String quote_char "c"))%string.
Proof. by vm_compute. Qed.
