(* ===== verification/Plugins.v ===== *)
(** * The plugin system (enterprise/sm_plugin.c)

    The table of plugins with its calls, the libraries that are loaded, and the execution
    of a script in a child process with a deadline. *)

From S2P Require Import Prelude.

Definition MAX_PLUGINS : nat := 64.
Definition DEFAULT_PLUGIN_TIMEOUT : Z := 30.

(** [dev/core/service_manager/enterprise/sm_plugin.c:29-39 plugin_entry_t] *)
Record plugin_entry_t := mk_plugin {
  name : string; path : string; type : Z; is_script : bool; enabled : bool;
  execution_count : Z; failure_count : Z; library_handle : Z; function_ptr : Z
}.
Definition zero_plugin : plugin_entry_t := mk_plugin "" "" 0 false false 0 0 0 0.

(** [dev/core/service_manager/enterprise/sm_plugin.c:41-50 plugin_system_t] with what the process
    holds: the handles of loaded libraries, one for each [dlopen], and its children that
    were not waited for. *)
Record plugin_system_t := mk_sys {
  plugins : list plugin_entry_t; plugin_dir : string; timeout_seconds : Z; initialized : bool;
  loaded : list Z; children : list Z
}.
Definition plugin_count (s : plugin_system_t) : nat := length (plugins s).
Definition plugin_system0 : plugin_system_t := mk_sys [] "" 0 false [] [].

Definition with_plugins l (s : plugin_system_t) : plugin_system_t :=
  mk_sys l (plugin_dir s) (timeout_seconds s) (initialized s) (loaded s) (children s).
Definition with_loaded l (s : plugin_system_t) : plugin_system_t :=
  mk_sys (plugins s) (plugin_dir s) (timeout_seconds s) (initialized s) l (children s).
Definition with_children l (s : plugin_system_t) : plugin_system_t :=
  mk_sys (plugins s) (plugin_dir s) (timeout_seconds s) (initialized s) (loaded s) l.

(** A multiset of handles or children without one [x]. *)
Fixpoint remove_one (x : Z) (l : list Z) : list Z :=
  match l with [] => [] | y :: l => if x =? y then l else y :: remove_one x l end.

Definition named (nm : string) (p : plugin_entry_t) : bool := String.eqb (name p) nm.

(** ** The table *)

(** [dev/core/service_manager/enterprise/sm_plugin.c:54-85 sm_plugin_init] [lock]: the mutex is
    created. *)
Definition sm_plugin_init (lock : bool) (dir : option string) (s : plugin_system_t) : Z * plugin_system_t :=
  if initialized s then (0, s)
  else
    match dir with
    | None => (-1, s)
    | Some d =>
        let s0 := mk_sys [] "" 0 false (loaded s) (children s) in
        if negb lock then (-1, s0)
        else (0, mk_sys [] (strncpy_z 255 d) DEFAULT_PLUGIN_TIMEOUT true (loaded s) (children s))
    end.

(** [dev/core/service_manager/enterprise/sm_plugin.c:87-135 sm_plugin_register_script]
    [executable]: what [access] says of a path. *)
Definition sm_plugin_register_script (executable : string -> bool) (nm script : option string) (t : Z)
    (s : plugin_system_t) : Z * plugin_system_t :=
  if negb (initialized s) then (-1, s)
  else
    match nm, script with
    | Some nm, Some script =>
        if negb (executable script) then (-1, s)
        else if (MAX_PLUGINS <=? plugin_count s)%nat then (-1, s)
        else if existsb (named nm) (plugins s) then (-1, s)
        else (0, with_plugins (plugins s ++ [mk_plugin (strncpy_z 63 nm) (strncpy_z 255 script) t true true 0 0 0 0]) s)
    | _, _ => (-1, s)
    end.

(** [dev/core/service_manager/enterprise/sm_plugin.c:137-187 sm_plugin_register_library] [dlopen],
    [dlsym]: the handle and the function, 0 for none. *)
Definition sm_plugin_register_library (dlopen : string -> Z) (dlsym : Z -> string -> Z) (nm lib entry : option string)
    (s : plugin_system_t) : Z * plugin_system_t :=
  if negb (initialized s) then (-1, s)
  else
    match nm, lib, entry with
    | Some nm, Some lib, Some entry =>
        let handle := dlopen lib in
        if handle =? 0 then (-1, s)
        else
          let s := with_loaded (handle :: loaded s) s in
          let closed := with_loaded (remove_one handle (loaded s)) s in
          let func := dlsym handle entry in
          if func =? 0 then (-1, closed)
          else if (MAX_PLUGINS <=? plugin_count s)%nat then (-1, closed)
          else (0, with_plugins (plugins s ++ [mk_plugin (strncpy_z 63 nm) (strncpy_z 255 lib) 0 false true 0 0 handle func]) s)
    | _, _, _ => (-1, s)
    end.

(** The first plugin of that name, changed. *)
Fixpoint change_first (nm : string) (f : plugin_entry_t -> plugin_entry_t) (l : list plugin_entry_t)
    : option (list plugin_entry_t) :=
  match l with
  | [] => None
  | p :: l => if named nm p then Some (f p :: l) else (cons p) <$> change_first nm f l
  end.

Definition set_enabled (b : bool) (p : plugin_entry_t) : plugin_entry_t :=
  mk_plugin (name p) (path p) (type p) (is_script p) b (execution_count p) (failure_count p) (library_handle p) (function_ptr p).

(** [dev/core/service_manager/enterprise/sm_plugin.c:337-353 sm_plugin_enable] *)
Definition sm_plugin_enable (nm : option string) (s : plugin_system_t) : Z * plugin_system_t :=
  match nm with
  | None => (-1, s)
  | Some nm => match change_first nm (set_enabled true) (plugins s) with
               | Some l => (0, with_plugins l s)
               | None => (-1, s)
               end
  end.

(** [dev/core/service_manager/enterprise/sm_plugin.c:355-371 sm_plugin_disable] *)
Definition sm_plugin_disable (nm : option string) (s : plugin_system_t) : Z * plugin_system_t :=
  match nm with
  | None => (-1, s)
  | Some nm => match change_first nm (set_enabled false) (plugins s) with
               | Some l => (0, with_plugins l s)
               | None => (-1, s)
               end
  end.

(** [dev/core/service_manager/enterprise/sm_plugin.c:322-335 sm_plugin_set_execution_timeout] *)
Definition sm_plugin_set_execution_timeout (t : Z) (s : plugin_system_t) : Z * plugin_system_t :=
  if (t <=? 0) || (300 <? t) then (-1, s)
  else (0, mk_sys (plugins s) (plugin_dir s) t (initialized s) (loaded s) (children s)).

(** ** Running a script *)

(** What [waitpid (.., WNOHANG)] says: the child runs, it ended (by [exit] or by a signal),
    an error. *)
Inductive wait_status := Exited (code : Z) | Signalled.
Inductive wait_result := Running | Ended (st : wait_status) | WaitFailed.

(** [dev/core/service_manager/enterprise/sm_plugin.c:247-263 sm_plugin_execute, the loop] the clock and
    the child at each round; None: the list was too short. *)
Fixpoint await (rounds : list (Z * wait_result)) (deadline : Z) : option (option wait_status) :=
  match rounds with
  | [] => None
  | (now, r) :: rounds =>
      if negb (now <? deadline) then Some None
      else match r with
           | Ended st => Some (Some st)
           | WaitFailed => Some None
           | Running => await rounds deadline
           end
  end.

(** What is outside of one execution: the child's id (negative: [fork] failed), the clock
    at its start, the rounds of the wait. *)
Record exec_env := mk_exec { forked : Z; start : Z; rounds : list (Z * wait_result) }.

(** [dev/core/service_manager/enterprise/sm_plugin.c:225-279 sm_plugin_execute, a script] the exit code;
    None: it has not returned.  A child that did not end in time is killed, and waited for. *)
Definition run_script (o : exec_env) (timeout : Z) (s : plugin_system_t) : option (option Z * plugin_system_t) :=
  if forked o <? 0 then Some (None, s)
  else
    let s := with_children (forked o :: children s) s in
    let reaped s := with_children (remove_one (forked o) (children s)) s in
    st ← await (rounds o) (start o + timeout);
    Some (match st with
          | Some (Exited code) => (Some code, reaped s)
          | Some Signalled => (Some (-1), reaped s)
          | None => (Some (-1), reaped s)
          end).

Definition count_run (failed : bool) (p : plugin_entry_t) : plugin_entry_t :=
  mk_plugin (name p) (path p) (type p) (is_script p) (enabled p) (u64 (execution_count p + 1))
    (if failed then u64 (failure_count p + 1) else failure_count p) (library_handle p) (function_ptr p).

(** [dev/core/service_manager/enterprise/sm_plugin.c:189-299 sm_plugin_execute] a failed [fork]
    returns before anything is counted. *)
Definition sm_plugin_execute (o : exec_env) (nm : option string) (s : plugin_system_t) : option (Z * plugin_system_t) :=
  match nm with
  | None => Some (-1, s)
  | Some nm =>
      if negb (initialized s) then Some (-1, s)
      else
        match List.find (named nm) (plugins s) with
        | None => Some (-1, s)
        | Some p =>
            if negb (enabled p) then Some (-1, s)
            else
              '(code, s) ← (if is_script p then run_script o (timeout_seconds s) s else Some (Some 0, s));
              Some (match code with
                    | None => (-1, s)
                    | Some code =>
                        (code, match change_first nm (count_run (negb (code =? 0))) (plugins s) with
                               | Some l => with_plugins l s
                               | None => s
                               end)
                    end)
        end
  end.

(** [dev/core/service_manager/enterprise/sm_plugin.c:301-320 sm_plugin_execute_async] the result, what the
    callback is told. *)
Definition sm_plugin_execute_async (o : exec_env) (nm : option string) (callback : bool) (s : plugin_system_t)
    : option (Z * option Z * plugin_system_t) :=
  match nm with
  | None => Some (-1, None, s)
  | Some _ => if negb (initialized s) then Some (-1, None, s)
              else '(rc, s) ← sm_plugin_execute o nm s; Some (0, if callback then Some rc else None, s)
  end.

(** [dev/core/service_manager/enterprise/sm_plugin.h:40-48 sm_plugin_info_t] *)
Record sm_plugin_info_t := mk_info {
  i_name : string; i_path : string; i_type : Z; i_is_script : bool; i_enabled : bool; i_executions : Z; i_failures : Z
}.

(** [dev/core/service_manager/enterprise/sm_plugin.c:373-396 sm_plugin_get_info] *)
Definition sm_plugin_get_info (nm : option string) (s : plugin_system_t) : sm_plugin_info_t :=
  match nm ≫= (fun nm => List.find (named nm) (plugins s)) with
  | Some p => mk_info (strncpy_z 63 (name p)) (strncpy_z 255 (path p)) (type p) (is_script p) (enabled p)
                (execution_count p) (failure_count p)
  | None => mk_info "" "" 0 false false 0 0
  end.

(** [dev/core/service_manager/enterprise/sm_plugin.c:407-413 sm_plugin_list, the loop] [text]: what the
    buffer holds; each name is cut to the room that is left, and the offset advances by its
    whole length. *)
Fixpoint list_names (size : Z) (l : list plugin_entry_t) (text : string) (offset : Z) (count : nat) : nat * string :=
  match l with
  | [] => (count, text)
  | p :: l =>
      if offset <? size - 1 then
        let out := ((if (0 <? count)%nat then "," else "") ++ name p)%string in
        list_names size l (text ++ strncpy_z (Z.to_nat (size - offset - 1)) out)%string
          (offset + Z.of_nat (String.length out)) (S count)
      else (count, text)
  end.

(** [dev/core/service_manager/enterprise/sm_plugin.c:398-418 sm_plugin_list] the count and the text,
    None: the buffer is not written. *)
Definition sm_plugin_list (buffer : bool) (size : Z) (s : plugin_system_t) : Z * option string :=
  if negb buffer || (size <=? 0) then (-1, None)
  else let '(n, text) := list_names size (plugins s) "" 0 0 in
       (Z.of_nat n, match n with O => None | _ => Some text end).

(** [dev/core/service_manager/enterprise/sm_plugin.c:420-441 sm_plugin_cleanup] *)
Definition sm_plugin_cleanup (s : plugin_system_t) : Z * plugin_system_t :=
  if negb (initialized s) then (0, s)
  else
    let unload (l : list Z) (p : plugin_entry_t) :=
      if negb (is_script p) && negb (library_handle p =? 0) then remove_one (library_handle p) l else l in
    (0, mk_sys [] "" 0 false (foldl unload (loaded s) (plugins s)) (children s)).

(** ** Traces of calls *)

(** A call with what its environment answers. *)
Inductive plugin_call :=
  | Init (lock : bool) (dir : option string)
  | RegisterScript (executable : string -> bool) (nm script : option string) (t : Z)
  | RegisterLibrary (dlopen : string -> Z) (dlsym : Z -> string -> Z) (nm lib entry : option string)
  | Enable (nm : option string) | Disable (nm : option string) | SetTimeout (t : Z)
  | Execute (o : exec_env) (nm : option string)
  | ExecuteAsync (o : exec_env) (nm : option string) (callback : bool)
  | Cleanup.

Definition call (c : plugin_call) (s : plugin_system_t) : option plugin_system_t :=
  match c with
  | Init lock dir => Some (sm_plugin_init lock dir s).2
  | RegisterScript ex nm sc t => Some (sm_plugin_register_script ex nm sc t s).2
  | RegisterLibrary dlo dls nm lib en => Some (sm_plugin_register_library dlo dls nm lib en s).2
  | Enable nm => Some (sm_plugin_enable nm s).2
  | Disable nm => Some (sm_plugin_disable nm s).2
  | SetTimeout t => Some (sm_plugin_set_execution_timeout t s).2
  | Execute o nm => snd <$> sm_plugin_execute o nm s
  | ExecuteAsync o nm cb => snd <$> sm_plugin_execute_async o nm cb s
  | Cleanup => Some (sm_plugin_cleanup s).2
  end.

Fixpoint calls (cs : list plugin_call) (s : plugin_system_t) : option plugin_system_t :=
  match cs with [] => Some s | c :: cs => s ← call c s; calls cs s end.

(** The clock of an execution comes to 300 seconds after its start, the longest timeout. *)
Definition in_time (c : plugin_call) : Prop :=
  match c with
  | Execute o _ | ExecuteAsync o _ _ => exists r, r ∈ rounds o /\ start o + 300 <= r.1
  | _ => True
  end.

(** ** Invariant *)

Definition is_library (p : plugin_entry_t) : bool := negb (is_script p) && negb (library_handle p =? 0).
Definition handles (l : list plugin_entry_t) : list Z := library_handle <$> List.filter is_library l.

(** Names fit, scripts have no handle; the loaded libraries are those of the table, and
    every child has been waited for. *)
Record plugins_inv (s : plugin_system_t) : Prop := mk_plugins_inv {
  inv_count : (plugin_count s <= MAX_PLUGINS)%nat;
  inv_names : Forall (fun p => String.length (name p) <= 63 /\ String.length (path p) <= 255)%nat (plugins s);
  inv_timeout : timeout_seconds s <= 300;
  inv_off : initialized s = false -> plugins s = [];
  inv_loaded : loaded s ≡ₚ handles (plugins s);
  inv_children : children s = []
}.

Lemma remove_one_perm x l : x ∈ l -> l ≡ₚ x :: remove_one x l.
Proof.
  induction l as [|y l IH]; [by rewrite elem_of_nil|]. rewrite elem_of_cons. cbn [remove_one].
  destruct (Z.eqb_spec x y) as [->|Hne]; [done|]. intros [?|Hx]; [done|]. rewrite (IH Hx) at 1. apply Permutation_swap.
Qed.

Lemma remove_one_head x l : remove_one x (x :: l) = l.
Proof. cbn [remove_one]. by rewrite Z.eqb_refl. Qed.

Lemma remove_one_proper x l l' : l ≡ₚ l' -> remove_one x l ≡ₚ remove_one x l'.
Proof.
  induction 1 as [|y l l' Hl IH|y z l|l1 l2 l3 _ IH1 _ IH2]; cbn [remove_one]; [done| | |by etrans].
  - destruct (x =? y); [done|by rewrite IH].
  - destruct (Z.eqb_spec x y), (Z.eqb_spec x z); subst; try done. apply Permutation_swap.
Qed.

Lemma change_first_spec nm f l l' : change_first nm f l = Some l' ->
  exists a p b, l = a ++ p :: b /\ l' = a ++ f p :: b /\ named nm p = true /\ Forall (fun q => named nm q = false) a.
Proof.
  revert l'. induction l as [|q l IH]; intros l'; [done|]. cbn [change_first].
  destruct (named nm q) eqn:Hq; [intros [= <-]; by exists [], q, l|].
  destruct (change_first nm f l) as [l0|]; [|done]. intros [= <-]. destruct (IH _ eq_refl) as (a & p & b & -> & -> & Hp & Ha).
  exists (q :: a), p, b. repeat split; try done. by constructor.
Qed.

(** What a change of a plugin keeps. *)
Definition keeps (f : plugin_entry_t -> plugin_entry_t) : Prop :=
  forall p, name (f p) = name p /\ path (f p) = path p /\ is_script (f p) = is_script p /\ library_handle (f p) = library_handle p.

Lemma handles_app l l' : handles (l ++ l') = handles l ++ handles l'.
Proof. unfold handles. by rewrite List.filter_app, fmap_app. Qed.

Lemma handles_keep f p l : keeps f -> handles (f p :: l) = handles (p :: l).
Proof.
  intros Hf. destruct (Hf p) as (_ & _ & Hs & Hh). assert (Hi : is_library (f p) = is_library p) by (unfold is_library; by rewrite Hs, Hh).
  unfold handles. cbn [List.filter]. rewrite Hi. destruct (is_library p); [|done]. by rewrite !fmap_cons, Hh.
Qed.

Lemma change_first_inv nm f l s : keeps f -> plugins_inv s -> change_first nm f (plugins s) = Some l ->
  plugins_inv (with_plugins l s).
Proof.
  intros Hf [Hn Hnm Ht Hoff Hl Hc] (a & p & b & Hs & -> & _ & _)%change_first_spec. destruct (Hf p) as (E1 & E2 & _ & _).
  unfold plugin_count in *. rewrite Hs in *.
  constructor; cbn -[handles]; try done.
  - revert Hn. by rewrite !length_app.
  - rewrite Forall_app, Forall_cons in *. by rewrite E1, E2.
  - intros H. specialize (Hoff H). by destruct a.
  - by rewrite Hl, !handles_app, (handles_keep f p b).
Qed.

Lemma with_children_inv l s : plugins_inv s -> l = [] -> plugins_inv (with_children l s).
Proof. intros [] ->. by constructor. Qed.

(** ** The wait for a child *)

(** A wait whose clock passes the deadline ends; the result is the child's, if it ended
    before. *)
Lemma await_returns rs deadline : (exists r, r ∈ rs /\ deadline <= r.1) -> is_Some (await rs deadline).
Proof.
  induction rs as [|[now w] rs IH]; intros (r & Hr & Hd); [by apply elem_of_nil in Hr|]. cbn [await].
  destruct (Z.ltb_spec now deadline); cbn [negb]; [|by eexists].
  destruct w; try by eexists. apply IH. exists r. split; [|done].
  apply elem_of_cons in Hr as [->|]; [cbn in Hd; lia|done].
Qed.

Lemma run_script_spec o t s code s' : run_script o t s = Some (code, s') ->
  s' = with_children (children s) s.
Proof.
  unfold run_script. destruct (forked o <? 0); [intros [= _ <-]; by destruct s|].
  destruct (await _ _) as [st|]; [|done]. cbn. rewrite Z.eqb_refl.
  by destruct st as [[]|]; intros [= _ <-].
Qed.

(** ** Every call keeps the invariant *)

Lemma add_inv p s : plugins_inv s -> initialized s = true -> (plugin_count s < MAX_PLUGINS)%nat ->
  (String.length (name p) <= 63 /\ String.length (path p) <= 255)%nat -> handles [p] = [] ->
  plugins_inv (with_plugins (plugins s ++ [p]) s).
Proof.
  intros [Hn Hnm Ht Hoff Hl Hc] Hi Hlt Hp Hh. constructor; cbn -[handles]; try done.
  - unfold plugin_count in *. cbn. rewrite length_app. cbn. lia.
  - by rewrite Forall_app, Forall_singleton.
  - by rewrite Hi.
  - by rewrite Hl, handles_app, Hh, app_nil_r.
Qed.

Lemma close_inv h s : plugins_inv s -> plugins_inv (with_loaded (remove_one h (loaded (with_loaded (h :: loaded s) s))) (with_loaded (h :: loaded s) s)).
Proof. intros []. constructor; cbn -[handles remove_one]; rewrite ?remove_one_head; done. Qed.

Lemma plugin_init_inv lock dir s : plugins_inv s -> plugins_inv (sm_plugin_init lock dir s).2.
Proof.
  intros Hs. unfold sm_plugin_init. destruct (initialized s) eqn:Hi; [done|]. destruct dir as [d|]; [|done].
  destruct Hs as [Hn Hnm Ht Hoff Hl Hc]. rewrite Hoff in Hl by done.
  destruct lock; cbn; constructor; cbn; try done; unfold plugin_count, DEFAULT_PLUGIN_TIMEOUT; cbn; lia.
Qed.

Lemma register_script_inv ex nm sc t s : plugins_inv s -> plugins_inv (sm_plugin_register_script ex nm sc t s).2.
Proof.
  intros Hs. unfold sm_plugin_register_script. destruct (initialized s) eqn:Hi; [|done].
  destruct nm as [nm|], sc as [sc|]; try done. cbn [negb]. destruct (ex sc); [|done]. cbn [negb].
  destruct (Nat.leb_spec MAX_PLUGINS (plugin_count s)); [done|]. destruct (existsb _ _); [done|].
  apply add_inv; try done. split; apply strncpy_z_length.
Qed.

Lemma register_library_inv dlo dls nm lib en s : plugins_inv s ->
  plugins_inv (sm_plugin_register_library dlo dls nm lib en s).2.
Proof.
  intros Hs. unfold sm_plugin_register_library. destruct (initialized s) eqn:Hi; [|done].
  destruct nm as [nm|], lib as [lib|], en as [en|]; try done. cbn -[MAX_PLUGINS remove_one with_loaded plugin_count].
  destruct (Z.eqb_spec (dlo lib) 0) as [|Hh]; [done|]. destruct (_ =? 0); [by apply close_inv|].
  destruct (Nat.leb_spec MAX_PLUGINS (plugin_count (with_loaded (dlo lib :: loaded s) s))); [by apply close_inv|].
  destruct Hs as [Hn Hnm Ht Hoff Hl Hc]. constructor; cbn -[handles]; try done.
  - revert H. unfold plugin_count. cbn. rewrite length_app. cbn. lia.
  - rewrite Forall_app, Forall_singleton. split; [done|]. split; apply strncpy_z_length.
  - by rewrite Hi.
  - rewrite handles_app, Hl. unfold handles at 3, is_library. cbn. apply Z.eqb_neq in Hh. rewrite Hh. cbn. apply Permutation_cons_append.
Qed.

Lemma enable_inv b nm s : plugins_inv s ->
  plugins_inv (match nm with
               | None => (-1, s)
               | Some nm => match change_first nm (set_enabled b) (plugins s) with
                            | Some l => (0, with_plugins l s) | None => (-1, s) end
               end).2.
Proof.
  intros Hs. destruct nm as [nm|]; [|done]. destruct (change_first _ _ _) eqn:Hc; [|done].
  eapply change_first_inv; [|done|done]. by intros [].
Qed.

Lemma timeout_inv t s : plugins_inv s -> plugins_inv (sm_plugin_set_execution_timeout t s).2.
Proof.
  intros Hs. unfold sm_plugin_set_execution_timeout. destruct (Z.leb_spec t 0), (Z.ltb_spec 300 t); cbn; try done.
  destruct Hs. by constructor.
Qed.

Lemma execute_inv o nm s rc s' : plugins_inv s -> sm_plugin_execute o nm s = Some (rc, s') -> plugins_inv s'.
Proof.
  intros Hs. unfold sm_plugin_execute. destruct nm as [nm|]; [|by intros [= _ <-]].
  destruct (initialized s); [|by intros [= _ <-]]. destruct (List.find _ _) as [p|]; [|by intros [= _ <-]].
  destruct (enabled p); [|by intros [= _ <-]]. cbn [negb].
  assert (Hrun : forall code s1, (if is_script p then run_script o (timeout_seconds s) s else Some (Some 0, s)) = Some (code, s1) ->
                 plugins_inv s1).
  { intros code s1. destruct (is_script p); [|by intros [= _ <-]].
    intros ->%run_script_spec. apply with_children_inv; [done|]. by destruct Hs. }
  destruct (if is_script p then _ else _) as [[code s1]|]; [|done]. cbn. specialize (Hrun _ _ eq_refl).
  destruct code as [code|]; [|by intros [= _ <-]]. intros [= _ <-].
  destruct (change_first _ _ _) eqn:Hc; [|done]. eapply change_first_inv; [|done|done]. by intros [].
Qed.

Lemma execute_returns o nm s : plugins_inv s -> (exists r, r ∈ rounds o /\ start o + 300 <= r.1) ->
  is_Some (sm_plugin_execute o nm s).
Proof.
  intros Hs (r & Hr & Ht). unfold sm_plugin_execute. destruct nm as [nm|]; [|by eexists].
  destruct (initialized s); [|by eexists]. destruct (List.find _ _) as [p|]; [|by eexists].
  destruct (enabled p); [|by eexists]. cbn [negb]. destruct (is_script p); [|by eexists].
  unfold run_script. destruct (forked o <? 0); [by eexists|].
  edestruct (await_returns (rounds o) (start o + timeout_seconds s)) as [st ->].
  { exists r. split; [done|]. destruct Hs. lia. }
  cbn. by destruct st as [[]|]; eexists.
Qed.

Lemma cleanup_loaded s : plugins_inv s -> loaded (sm_plugin_cleanup s).2 = [] /\ plugins (sm_plugin_cleanup s).2 = [].
Proof.
  intros [Hn Hnm Ht Hoff Hl Hc]. unfold sm_plugin_cleanup. destruct (initialized s); cbn -[handles].
  - split; [|done]. apply Permutation_nil_r. clear -Hl. revert Hl. generalize (loaded s).
    induction (plugins s) as [|p l IH]; intros h Hh; [done|]. cbn [foldl]. apply IH.
    revert Hh. unfold handles. cbn [List.filter]. fold (is_library p). destruct (is_library p); [|done].
    rewrite fmap_cons. intros Hh. by rewrite (remove_one_proper _ _ _ Hh), remove_one_head.
  - rewrite Hoff in * by done. split; [|done]. by apply Permutation_nil_r.
Qed.

Lemma call_inv c s : plugins_inv s -> in_time c -> exists s', call c s = Some s' /\ plugins_inv s'.
Proof.
  intros Hs. destruct c as [l d|e n sc t|dlo dls n li en|n|n|t|o n|o n cb|]; cbn [call in_time]; intros Hin.
  - eexists; split; [done|by apply plugin_init_inv].
  - eexists; split; [done|by apply register_script_inv].
  - eexists; split; [done|by apply register_library_inv].
  - eexists; split; [done|by apply (enable_inv true)].
  - eexists; split; [done|by apply (enable_inv false)].
  - eexists; split; [done|by apply timeout_inv].
  - destruct (execute_returns o n s Hs Hin) as [[rc s'] Hx]. rewrite Hx. eexists; split; [done|by eapply execute_inv].
  - destruct (execute_returns o n s Hs Hin) as [[rc s'] Hx]. unfold sm_plugin_execute_async.
    destruct n as [n|]; [|by eexists]. destruct (initialized s); [|by eexists]. cbn [negb]. rewrite Hx.
    eexists; split; [done|by eapply execute_inv].
  - eexists; split; [done|]. destruct (cleanup_loaded s Hs) as [Hl Hp]. destruct Hs as [Hn Hnm Ht Hoff Hlo Hc].
    revert Hl Hp. unfold sm_plugin_cleanup. destruct (initialized s); cbn -[handles]; [|by constructor].
    intros -> _. constructor; cbn; unfold plugin_count; cbn; try done; lia.
Qed.

Lemma plugin_system0_inv : plugins_inv plugin_system0.
Proof. constructor; cbn; unfold plugin_count; cbn; try done; lia. Qed.

(** After any sequence of calls of the plugin interface in which the clock of every
    execution comes to five minutes after its start: all calls returned; every child that
    was started has been waited for, whether it ended, failed or was killed at its deadline;
    the libraries that are loaded are exactly the ones in the table, so a registration that
    failed unloaded what it had loaded; the table and its texts are within their bounds;
    and a cleanup unloads every library. *)
Theorem plugins_leave_nothing cs : Forall in_time cs ->
  exists s, calls cs plugin_system0 = Some s /\ children s = [] /\ loaded s ≡ₚ handles (plugins s) /\
    (plugin_count s <= MAX_PLUGINS)%nat /\
    Forall (fun p => String.length (name p) <= 63 /\ String.length (path p) <= 255)%nat (plugins s) /\
    loaded (sm_plugin_cleanup s).2 = [].
Proof.
  intros Hcs. enough (exists s, calls cs plugin_system0 = Some s /\ plugins_inv s) as (s & -> & Hs).
  { exists s. destruct (cleanup_loaded s Hs) as [Hl _]. by destruct Hs. }
  assert (H0 := plugin_system0_inv). revert H0. generalize plugin_system0.
  induction Hcs as [|c cs Hc _ IH]; intros s Hs; [by exists s|]. cbn [calls].
  destruct (call_inv c s Hs Hc) as (s' & -> & Hs'). by apply IH.
Qed.

(** ** What an execution does *)

(** A script that ends before its deadline gives its code, one that is killed or does not
    end gives -1; the counters of the first plugin of that name advance. *)
Lemma execution_result o nm p s st : initialized s = true -> List.find (named nm) (plugins s) = Some p -> enabled p = true ->
  is_script p = true -> 0 <= forked o -> await (rounds o) (start o + timeout_seconds s) = Some st ->
  exists s', sm_plugin_execute o (Some nm) s = Some (match st with Some (Exited code) => code | _ => -1 end, s') /\
    List.find (named nm) (plugins s') =
      Some (count_run (negb (match st with Some (Exited code) => code | _ => -1 end =? 0)) p).
Proof.
  intros Hi Hf He Hs Hk Hw. unfold sm_plugin_execute, run_script. rewrite Hi, Hf, He, Hs, Hw. cbn [negb].
  destruct (Z.ltb_spec (forked o) 0); [lia|].
  assert (Hfirst : forall f, keeps f -> exists l, change_first nm f (plugins s) = Some l /\ List.find (named nm) l = Some (f p)).
  { intros f Hkeep. clear -Hf Hkeep. revert Hf. induction (plugins s) as [|q l IH]; [done|]. cbn [List.find change_first].
    destruct (named nm q) eqn:Hq.
    - intros [= ->]. eexists. split; [done|]. cbn [List.find]. unfold named in *. destruct (Hkeep p) as (-> & _). by rewrite Hq.
    - intros Hf. destruct (IH Hf) as (l' & -> & Hl). eexists. split; [done|]. cbn [List.find]. by rewrite Hq. }
  destruct st as [[code|]|]; cbn; match goal with |- context [count_run ?b] =>
    destruct (Hfirst (count_run b)) as (l & -> & Hl); [by intros []|] end; by eexists.
Qed.

(** A library registered under the name of a plugin is added behind it and cannot be
    reached: all calls find the first one. *)
Lemma shadowed_library dlo dls nm p lib en s : List.find (named nm) (plugins s) = Some p ->
  sm_plugin_get_info (Some nm) (sm_plugin_register_library dlo dls (Some nm) lib en s).2 = sm_plugin_get_info (Some nm) s.
Proof.
  intros Hf. unfold sm_plugin_register_library. destruct (initialized s), lib as [lib|], en as [en|]; try done. cbn [negb].
  destruct (dlo lib =? 0); [done|]. destruct (dls (dlo lib) en =? 0); [done|].
  destruct (MAX_PLUGINS <=? _)%nat; [done|]. unfold sm_plugin_get_info. cbn -[MAX_PLUGINS strncpy_z].
  enough (List.find (named nm) (plugins s ++ [mk_plugin (strncpy_z 63 nm) (strncpy_z 255 lib) 0 false true 0 0 (dlo lib) (dls (dlo lib) en)])
          = Some p) as -> by by rewrite Hf.
  revert Hf. clear. induction (plugins s) as [|q l IH]; [done|]. cbn [List.find app]. by destruct (named nm q).
Qed.

(** A script whose name is longer than the field is stored under its first 63 characters:
    it is not found by its own name, and may be registered again. *)
Lemma long_name_lost nm p : (63 < String.length nm)%nat -> name p = strncpy_z 63 nm -> named nm p = false.
Proof.
  intros Hn Hp. unfold named. rewrite Hp. apply String.eqb_neq. intros Heq. pose proof (strncpy_z_length 63 nm). rewrite Heq in H. lia.
Qed.

Definition sample_run : plugin_call :=
  Execute (mk_exec 100 1000 [(1000, Running); (1004, Running); (1005, Running); (1300, Running)]) (Some "check").

Definition sample_calls : list plugin_call :=
  [Init true (Some "/etc/plugins"%string);
   RegisterScript (fun _ => true) (Some "check"%string) (Some "/etc/plugins/check.sh"%string) 1;
   RegisterLibrary (fun _ => 77) (fun _ _ => 5) (Some "lib"%string) (Some "/lib/a.so"%string) (Some "run"%string);
   RegisterLibrary (fun _ => 78) (fun _ _ => 0) (Some "bad"%string) (Some "/lib/b.so"%string) (Some "run"%string);
   SetTimeout 5; sample_run].

Lemma plugins_leave_nothing_witness :
  exists s, calls sample_calls plugin_system0 = Some s /\ children s = [] /\
    loaded s ≡ₚ handles (plugins s) /\ (plugin_count s <= MAX_PLUGINS)%nat /\
    Forall (fun p => String.length (name p) <= 63 /\ String.length (path p) <= 255)%nat (plugins s) /\
    loaded (sm_plugin_cleanup s).2 = [].
Proof.
  apply (plugins_leave_nothing sample_calls). repeat constructor.
  exists (1300, Running). split; [|cbn; lia]. cbn. rewrite !elem_of_cons. tauto.
Defined.

(** The script did not end within its five seconds: it failed; one library is loaded. *)
Example sample_state : exists s, calls sample_calls plugin_system0 = Some s /\
  execution_count (nth 0 (plugins s) zero_plugin) = 1 /\ failure_count (nth 0 (plugins s) zero_plugin) = 1 /\ loaded s = [77].
Proof. eexists. by vm_compute. Qed.
