(* ===== verification/Discovery.v ===== *)
(** * Service discovery (enterprise/sm_discovery.c)

    The table of services that publications keep, the subscriptions, and the callbacks,
    which run after the lock is released: each is a step of its own. *)

From S2P Require Import Prelude.

Definition MAX_SERVICES : nat := 64.
Definition MAX_EVENT_MASK : Z := 0x3F.
Definition SM_EVENT_SERVICE_REGISTERED : Z := 1.
Definition SM_EVENT_SERVICE_DEREGISTERED : Z := 2.
Definition SM_EVENT_SERVICE_UPDATED : Z := 5.

(** [dev/core/service_manager/enterprise/sm_discovery.c:20-27 subscription_t] the identifier is the
    place; callback 0: NULL. *)
Record subscription_t := mk_sub {
  filter_service_name : string; event_mask : Z; callback : Z; userdata : Z; sub_active : bool
}.

(** [dev/core/service_manager/enterprise/sm_discovery.c:29-36 registered_service_t] *)
Record registered_service_t := mk_service {
  service_name : string; socket_path : string; svc_pid : Z; svc_priority : Z; registration_time_ns : Z; last_event : Z
}.

(** [dev/core/service_manager/enterprise/sm_discovery.c:38-49 discovery_system_t] the arrays up to
    their counts. *)
Record discovery_system_t := mk_discovery {
  subscriptions : list subscription_t; max_subscribers : Z; services : list registered_service_t;
  total_events_published : Z; g_discovery_initialized : bool
}.
Definition discovery0 : discovery_system_t := mk_discovery [] 0 [] 0 false.
Definition subscriber_count (d : discovery_system_t) : Z := Z.of_nat (length (subscriptions d)).
Definition service_count (d : discovery_system_t) : nat := length (services d).

(** [dev/core/service_manager/enterprise/sm_discovery.h:22-29 sm_discovery_event_notification_t] *)
Record sm_discovery_event_notification_t := mk_note {
  n_event_type : Z; n_timestamp_ns : Z; n_service_name : string; n_socket_path : string; n_pid : Z; n_priority : Z
}.

(** [dev/core/service_manager/enterprise/sm_discovery.c:61-100 sm_discovery_init] the lock and the two
    allocations succeed. *)
Definition sm_discovery_init (lock mem1 mem2 : bool) (max : Z) (d : discovery_system_t) : Z * discovery_system_t :=
  if g_discovery_initialized d then (-1, d)
  else if (max <=? 0) || (1024 <? max) then (-1, d)
  else if negb (lock && mem1 && mem2) then (-1, discovery0)
  else (0, mk_discovery [] max [] 0 true).

(** [dev/core/service_manager/enterprise/sm_discovery.c:145-151 sm_discovery_publish, the table, REGISTERED] *)
Definition add_service (nm path : string) (pid prio now : Z) (l : list registered_service_t) : list registered_service_t :=
  l ++ [mk_service (strncpy_z 63 nm) (strncpy_z 255 path) pid prio now SM_EVENT_SERVICE_REGISTERED].

(** [dev/core/service_manager/enterprise/sm_discovery.c:153-161 sm_discovery_publish, the table, DEREGISTERED] *)
Fixpoint drop_service (nm : string) (l : list registered_service_t) : list registered_service_t :=
  match l with
  | [] => []
  | s :: l => if String.eqb (service_name s) nm then l else s :: drop_service nm l
  end.

(** [dev/core/service_manager/enterprise/sm_discovery.c:162-169 sm_discovery_publish, the table, other events] *)
Fixpoint touch_service (nm : string) (ev : Z) (l : list registered_service_t) : list registered_service_t :=
  match l with
  | [] => []
  | s :: l => if String.eqb (service_name s) nm
              then mk_service (service_name s) (socket_path s) (svc_pid s) (svc_priority s) (registration_time_ns s) ev :: l
              else s :: touch_service nm ev l
  end.

(** [dev/core/service_manager/enterprise/sm_discovery.c:186-200 sm_discovery_publish, who is called] *)
Definition interested (ev : Z) (nm : string) (s : subscription_t) : bool :=
  sub_active s
  && ((event_mask s =? 0) || negb (Z.land (event_mask s) ev =? 0))
  && (String.eqb (filter_service_name s) "" || String.eqb (filter_service_name s) nm)
  && negb (callback s =? 0).

(** A call that is to be made: the callback, its data and the notification. *)
Definition delivery : Type := Z * Z * sm_discovery_event_notification_t.

Definition with_services l n (d : discovery_system_t) : discovery_system_t :=
  mk_discovery (subscriptions d) (max_subscribers d) l n (g_discovery_initialized d).

(** [dev/core/service_manager/enterprise/sm_discovery.c:102-214 sm_discovery_publish] up to the
    unlock; the calls are made after it, in this order. *)
Definition sm_discovery_publish (now ev : Z) (nm path : option string) (pid prio : Z) (d : discovery_system_t)
    : Z * discovery_system_t * list delivery :=
  if negb (g_discovery_initialized d) then (-1, d, [])
  else
    match nm with
    | None => (-1, d, [])
    | Some nm =>
        if String.eqb nm "" then (-1, d, [])
        else if (ev <? SM_EVENT_SERVICE_REGISTERED) || (SM_EVENT_SERVICE_UPDATED <? ev) then (-1, d, [])
        else
          let prio := if (prio <? 0) || (2 <? prio) then 1 else prio in
          let note := mk_note ev now (strncpy_z 63 nm) (strncpy_z 255 (default ""%string path)) pid prio in
          if (ev =? SM_EVENT_SERVICE_REGISTERED) && (MAX_SERVICES <=? service_count d)%nat then (-1, d, [])
          else
            let table := if ev =? SM_EVENT_SERVICE_REGISTERED then add_service nm (default ""%string path) pid prio now (services d)
                         else if ev =? SM_EVENT_SERVICE_DEREGISTERED then drop_service nm (services d)
                         else touch_service nm ev (services d) in
            let calls := (fun s => (callback s, userdata s, note)) <$> List.filter (interested ev nm) (take (Z.to_nat 1024) (subscriptions d)) in
            (0, with_services table (u64 (total_events_published d + 1)) d, calls)
    end.

(** [dev/core/service_manager/enterprise/sm_discovery.c:216-263 sm_discovery_subscribe] *)
Definition sm_discovery_subscribe (filter : option string) (mask cb data : Z) (d : discovery_system_t) : Z * discovery_system_t :=
  if negb (g_discovery_initialized d) then (-1, d)
  else if cb =? 0 then (-1, d)
  else if negb (Z.land mask (Z.lnot MAX_EVENT_MASK) =? 0) then (-1, d)
  else if max_subscribers d <=? subscriber_count d then (-1, d)
  else (subscriber_count d,
        mk_discovery (subscriptions d ++ [mk_sub (strncpy_z 63 (default ""%string filter)) mask cb data true])
          (max_subscribers d) (services d) (total_events_published d) true).

(** [dev/core/service_manager/enterprise/sm_discovery.c:265-280 sm_discovery_unsubscribe] *)
Definition sm_discovery_unsubscribe (id : Z) (d : discovery_system_t) : Z * discovery_system_t :=
  if negb (g_discovery_initialized d) then (-1, d)
  else if (id <? 0) || (subscriber_count d <=? id) then (-1, d)
  else (0, mk_discovery
             (alter (fun s => mk_sub (filter_service_name s) (event_mask s) (callback s) (userdata s) false) (Z.to_nat id) (subscriptions d))
             (max_subscribers d) (services d) (total_events_published d) true).

(** [dev/core/service_manager/enterprise/sm_discovery.h:73-79 sm_discovery_service_t] *)
Definition sm_discovery_service_t : Type := string * string * Z * Z * Z.

(** [dev/core/service_manager/enterprise/sm_discovery.c:282-328 sm_discovery_query_services] [mem]: the
    allocation succeeds; None: NULL, with the count 0. *)
Definition sm_discovery_query_services (mem : bool) (filter : option string) (d : discovery_system_t)
    : option (list sm_discovery_service_t) :=
  if negb (g_discovery_initialized d) then None
  else
    let wanted s := match filter with
                    | None => true
                    | Some f => String.eqb f "" || String.eqb (service_name s) f
                    end in
    match List.filter wanted (services d) with
    | [] => Some []
    | l => if mem then Some ((fun s => (strncpy_z 63 (service_name s), strncpy_z 255 (socket_path s), svc_pid s, svc_priority s,
                                         registration_time_ns s)) <$> l)
           else None
    end.

(** [dev/core/service_manager/enterprise/sm_discovery.c:337-350 sm_discovery_get_stats] subscribers,
    publications, services. *)
Definition sm_discovery_get_stats (d : discovery_system_t) : Z * Z * Z :=
  if g_discovery_initialized d
  then (subscriber_count d, i32 (total_events_published d), Z.of_nat (service_count d)) else (0, 0, 0).

(** [dev/core/service_manager/enterprise/sm_discovery.c:352-365 sm_discovery_cleanup] *)
Definition sm_discovery_cleanup (d : discovery_system_t) : discovery_system_t :=
  if g_discovery_initialized d then discovery0 else d.

(** ** Histories *)

(** An accepted publication, with the subscriptions it met. *)
Record publication := mk_pub {
  p_event : Z; p_name : string; p_path : string; p_pid : Z; p_prio : Z; p_now : Z; p_subs : list subscription_t
}.

(** The calls of all threads, and the callbacks that the k-th accepted publication makes. *)
Inductive disc_call :=
  | Publish (now ev : Z) (nm path : option string) (pid prio : Z)
  | Subscribe (filter : option string) (mask cb data : Z)
  | Unsubscribe (id : Z)
  | Deliver (k : nat).

Record disc_sys := mk_dsys {
  disc : discovery_system_t; published : list publication; pending : list (list delivery); made : list (list delivery)
}.

Definition clip (prio : Z) : Z := if (prio <? 0) || (2 <? prio) then 1 else prio.

Definition disc_step (c : disc_call) (s : disc_sys) : disc_sys :=
  match c with
  | Publish now ev nm path pid prio =>
      let '(rc, d, calls) := sm_discovery_publish now ev nm path pid prio (disc s) in
      if rc =? 0
      then mk_dsys d (published s ++ [mk_pub ev (default ""%string nm) (default ""%string path) pid (clip prio) now (subscriptions (disc s))])
             (pending s ++ [calls]) (made s ++ [[]])
      else mk_dsys d (published s) (pending s) (made s)
  | Subscribe f mask cb data => mk_dsys (sm_discovery_subscribe f mask cb data (disc s)).2 (published s) (pending s) (made s)
  | Unsubscribe id => mk_dsys (sm_discovery_unsubscribe id (disc s)).2 (published s) (pending s) (made s)
  | Deliver k =>
      match pending s !! k with
      | Some (x :: l) => mk_dsys (disc s) (published s) (<[k := l]> (pending s)) (alter (fun m => m ++ [x]) k (made s))
      | _ => s
      end
  end.

Definition disc_run (cs : list disc_call) (s : disc_sys) : disc_sys := fold_left (fun s c => disc_step c s) cs s.
Definition disc_start (max : Z) : disc_sys := mk_dsys (sm_discovery_init true true true max discovery0).2 [] [] [].

(** Names that fit. *)
Definition short_name (c : disc_call) : Prop :=
  match c with Publish _ _ (Some nm) _ _ _ => (String.length nm <= 63)%nat | _ => True end.

(** ** What is promised *)

(** The services of one name: a queue of the registrations; a deregistration takes the
    oldest, another event is noted there. *)
Definition queue_step (nm : string) (q : list registered_service_t) (p : publication) : list registered_service_t :=
  if negb (String.eqb (p_name p) nm) then q
  else if p_event p =? SM_EVENT_SERVICE_REGISTERED
       then q ++ [mk_service nm (strncpy_z 255 (p_path p)) (p_pid p) (p_prio p) (p_now p) SM_EVENT_SERVICE_REGISTERED]
  else match q with
       | [] => []
       | s :: q => if p_event p =? SM_EVENT_SERVICE_DEREGISTERED then q
                   else mk_service (service_name s) (socket_path s) (svc_pid s) (svc_priority s) (registration_time_ns s) (p_event p) :: q
       end.
Definition queue_of (nm : string) (ps : list publication) : list registered_service_t := fold_left (queue_step nm) ps [].

Definition listed (s : registered_service_t) : sm_discovery_service_t :=
  (service_name s, strncpy_z 255 (socket_path s), svc_pid s, svc_priority s, registration_time_ns s).

Definition note_of (p : publication) : sm_discovery_event_notification_t :=
  mk_note (p_event p) (p_now p) (p_name p) (strncpy_z 255 (p_path p)) (p_pid p) (p_prio p).
Definition calls_of (p : publication) : list delivery :=
  (fun s => (callback s, userdata s, note_of p)) <$> List.filter (interested (p_event p) (p_name p)) (p_subs p).

(** ** Proofs *)

Definition of_name (nm : string) (s : registered_service_t) : bool := String.eqb (service_name s) nm.

Lemma drop_other nm nm' l : nm <> nm' -> List.filter (of_name nm) (drop_service nm' l) = List.filter (of_name nm) l.
Proof.
  intros Hne. induction l as [|s l IH]; [done|]. cbn [drop_service List.filter].
  destruct (String.eqb_spec (service_name s) nm') as [Hs|].
  - unfold of_name at 2. destruct (String.eqb_spec (service_name s) nm); [congruence|done].
  - cbn [List.filter]. by rewrite IH.
Qed.

Lemma drop_same nm l : List.filter (of_name nm) (drop_service nm l) = tail (List.filter (of_name nm) l).
Proof.
  induction l as [|s l IH]; [done|]. cbn [drop_service List.filter]. unfold of_name at 2.
  destruct (String.eqb (service_name s) nm) eqn:Hs; [done|]. cbn [List.filter]. unfold of_name at 1. by rewrite Hs.
Qed.

Lemma touch_other nm nm' ev l : nm <> nm' -> List.filter (of_name nm) (touch_service nm' ev l) = List.filter (of_name nm) l.
Proof.
  intros Hne. induction l as [|s l IH]; [done|]. cbn [touch_service List.filter].
  destruct (String.eqb_spec (service_name s) nm') as [Hs|]; cbn [List.filter]; [|by rewrite IH].
  assert (Hf : of_name nm s = false) by (apply String.eqb_neq; congruence).
  unfold of_name at 1. cbn [service_name]. fold (of_name nm s). by rewrite Hf.
Qed.

Lemma touch_same nm ev l : List.filter (of_name nm) (touch_service nm ev l) =
  match List.filter (of_name nm) l with
  | [] => []
  | s :: q => mk_service (service_name s) (socket_path s) (svc_pid s) (svc_priority s) (registration_time_ns s) ev :: q
  end.
Proof.
  induction l as [|s l IH]; [done|]. cbn [touch_service List.filter]. unfold of_name at 2.
  destruct (String.eqb (service_name s) nm) eqn:Hs; cbn [List.filter]; unfold of_name at 1; cbn [service_name]; by rewrite Hs.
Qed.

Lemma length_drop_service nm l : (length (drop_service nm l) <= length l)%nat.
Proof. induction l as [|s l IH]; [done|]. cbn [drop_service]. destruct (String.eqb _ _); cbn [length]; lia. Qed.

Lemma length_touch_service nm ev l : length (touch_service nm ev l) = length l.
Proof. induction l as [|s l IH]; [done|]. cbn [touch_service]. destruct (String.eqb _ _); cbn [length]; by rewrite ?IH. Qed.

(** The table seen as queues. *)
Record disc_inv (s : disc_sys) : Prop := mk_disc_inv {
  di_on : g_discovery_initialized (disc s) = true;
  di_subs : subscriber_count (disc s) <= max_subscribers (disc s) <= 1024;
  di_count : (service_count (disc s) <= MAX_SERVICES)%nat;
  di_names : Forall (fun x => String.length (service_name x) <= 63)%nat (services (disc s));
  di_queues : forall nm, List.filter (of_name nm) (services (disc s)) = queue_of nm (published s);
  di_calls : zip_with app (made s) (pending s) = calls_of <$> published s;
  di_made : length (made s) = length (published s);
  di_pending : length (pending s) = length (published s)
}.

Lemma start_disc_inv max : 0 < max <= 1024 -> disc_inv (disc_start max).
Proof.
  intros Hm. unfold disc_start, sm_discovery_init. cbn.
  destruct (Z.leb_spec max 0), (Z.ltb_spec 1024 max); try lia. constructor; cbn; try done; unfold subscriber_count, service_count, MAX_SERVICES; cbn; lia.
Qed.

Lemma queue_snoc nm ps p : queue_of nm (ps ++ [p]) = queue_step nm (queue_of nm ps) p.
Proof. unfold queue_of. by rewrite fold_left_app. Qed.

(** What an accepted publication does to the table. *)
Definition table_step (p : publication) (l : list registered_service_t) : list registered_service_t :=
  if p_event p =? SM_EVENT_SERVICE_REGISTERED then add_service (p_name p) (p_path p) (p_pid p) (p_prio p) (p_now p) l
  else if p_event p =? SM_EVENT_SERVICE_DEREGISTERED then drop_service (p_name p) l
  else touch_service (p_name p) (p_event p) l.

Lemma table_step_queues nm p l : (String.length (p_name p) <= 63)%nat ->
  List.filter (of_name nm) (table_step p l) = queue_step nm (List.filter (of_name nm) l) p.
Proof.
  intros Hlen. unfold table_step, queue_step. destruct (String.eqb_spec (p_name p) nm) as [<-|Hne]; cbn [negb].
  - destruct (p_event p =? SM_EVENT_SERVICE_REGISTERED).
    + unfold add_service. rewrite List.filter_app. cbn [List.filter]. unfold of_name at 2. cbn [service_name].
      by rewrite strncpy_z_short, String.eqb_refl.
    + destruct (p_event p =? SM_EVENT_SERVICE_DEREGISTERED); [rewrite drop_same|rewrite touch_same];
        by destruct (List.filter _ _).
  - assert (Hne' : nm <> p_name p) by congruence. destruct (p_event p =? SM_EVENT_SERVICE_REGISTERED).
    + unfold add_service. rewrite List.filter_app. cbn [List.filter]. unfold of_name at 2. cbn [service_name].
      rewrite strncpy_z_short by done. apply String.eqb_neq in Hne as ->. by rewrite app_nil_r.
    + destruct (p_event p =? SM_EVENT_SERVICE_DEREGISTERED); [by apply drop_other|by apply touch_other].
Qed.

Lemma drop_names nm l : Forall (fun x => String.length (service_name x) <= 63)%nat l ->
  Forall (fun x => String.length (service_name x) <= 63)%nat (drop_service nm l).
Proof. induction 1; [constructor|]. cbn [drop_service]. destruct (String.eqb _ _); [done|by constructor]. Qed.

Lemma touch_names nm ev l : Forall (fun x => String.length (service_name x) <= 63)%nat l ->
  Forall (fun x => String.length (service_name x) <= 63)%nat (touch_service nm ev l).
Proof. induction 1; [constructor|]. cbn [touch_service]. destruct (String.eqb _ _); by constructor. Qed.

Lemma table_step_names p l : Forall (fun x => String.length (service_name x) <= 63)%nat l ->
  Forall (fun x => String.length (service_name x) <= 63)%nat (table_step p l).
Proof.
  intros Hl. unfold table_step. destruct (_ =? _).
  - apply Forall_app. split; [done|]. apply Forall_singleton, strncpy_z_length.
  - destruct (_ =? _); [by apply drop_names|by apply touch_names].
Qed.

Lemma table_step_count p l : (length l <= MAX_SERVICES)%nat ->
  (p_event p =? SM_EVENT_SERVICE_REGISTERED) && (MAX_SERVICES <=? length l)%nat = false ->
  (length (table_step p l) <= MAX_SERVICES)%nat.
Proof.
  intros Hl Hfull. unfold table_step. destruct (p_event p =? SM_EVENT_SERVICE_REGISTERED).
  - apply Nat.leb_gt in Hfull. unfold add_service. rewrite length_app. cbn [length]. lia.
  - destruct (_ =? _); [pose proof (length_drop_service (p_name p) l)|rewrite length_touch_service]; lia.
Qed.

(** A publication is refused and changes nothing, or it is accepted. *)
Lemma publish_cases now ev nm path pid prio s : disc_inv s -> short_name (Publish now ev nm path pid prio) ->
  disc_step (Publish now ev nm path pid prio) s = s \/
  exists p n, (String.length (p_name p) <= 63)%nat /\ p_subs p = subscriptions (disc s) /\
    (p_event p =? SM_EVENT_SERVICE_REGISTERED) && (MAX_SERVICES <=? service_count (disc s))%nat = false /\
    disc_step (Publish now ev nm path pid prio) s =
      mk_dsys (with_services (table_step p (services (disc s))) n (disc s)) (published s ++ [p]) (pending s ++ [calls_of p]) (made s ++ [[]]).
Proof.
  intros Hs Hshort. cbn [disc_step short_name] in *. unfold sm_discovery_publish. destruct Hs as [-> Hsubs _ _ _ _ _ _]. cbn [negb].
  destruct nm as [nm|]; [|left; by destruct s]. destruct (String.eqb nm ""); [left; by destruct s|].
  destruct (_ || _); [left; by destruct s|].
  destruct ((ev =? SM_EVENT_SERVICE_REGISTERED) && _) eqn:Hfull; [left; by destruct s|]. right.
  exists (mk_pub ev nm (default ""%string path) pid (clip prio) now (subscriptions (disc s))), (u64 (total_events_published (disc s) + 1)).
  split_and!; [done..|]. cbn [default]. unfold calls_of, note_of, table_step. cbn [p_event p_name p_path p_pid p_prio p_now p_subs].
  rewrite (strncpy_z_short 63 nm) by done. rewrite take_ge; [done|]. unfold subscriber_count in Hsubs. lia.
Qed.

Lemma accepted_inv s p n : disc_inv s -> (String.length (p_name p) <= 63)%nat ->
  (p_event p =? SM_EVENT_SERVICE_REGISTERED) && (MAX_SERVICES <=? service_count (disc s))%nat = false ->
  disc_inv (mk_dsys (with_services (table_step p (services (disc s))) n (disc s)) (published s ++ [p]) (pending s ++ [calls_of p]) (made s ++ [[]])).
Proof.
  intros [Hon Hsubs Hcount Hnames Hq Hcalls Hm Hp] Hlen Hfull.
  constructor; cbn [disc published pending made with_services g_discovery_initialized subscriptions max_subscribers services];
    [done|done| | | | | |].
  - by apply table_step_count.
  - by apply table_step_names.
  - intros nm. by rewrite table_step_queues, queue_snoc, Hq.
  - rewrite zip_with_app by congruence. rewrite Hcalls, fmap_app. done.
  - rewrite !length_app. cbn [length]. lia.
  - rewrite !length_app. cbn [length]. lia.
Qed.

Lemma deliver_zip k x l m p : m !! k <> None -> p !! k = Some (x :: l) ->
  zip_with app (alter (fun m => m ++ [x]) k m) (<[k := l]> p) = zip_with app m (p : list (list delivery)).
Proof.
  revert k p. induction m as [|a m IH]; intros k p Hm Hp; [done|]. destruct p as [|b p]; [done|]. destruct k as [|k]; cbn in *.
  - injection Hp as ->. by rewrite <- app_assoc.
  - f_equal. by apply IH.
Qed.

Lemma disc_step_inv c s : disc_inv s -> short_name c -> disc_inv (disc_step c s).
Proof.
  intros Hs Hshort. destruct c as [now ev nm path pid prio|f mask cb data|id|k].
  - destruct (publish_cases now ev nm path pid prio s Hs Hshort) as [->|(p & n & Hlen & _ & Hfull & ->)]; [done|].
    by apply accepted_inv.
  - cbn [disc_step]. destruct Hs as [Hon Hsubs Hcount Hnames Hq Hcalls Hm Hp]. unfold sm_discovery_subscribe. rewrite Hon. cbn [negb].
    destruct (cb =? 0); [by constructor|]. destruct (negb _); [by constructor|].
    destruct (Z.leb_spec (max_subscribers (disc s)) (subscriber_count (disc s))); [by constructor|].
    constructor; try done. unfold subscriber_count in *. cbn. rewrite length_app. cbn [length]. lia.
  - cbn [disc_step]. destruct Hs as [Hon Hsubs Hcount Hnames Hq Hcalls Hm Hp]. unfold sm_discovery_unsubscribe. rewrite Hon. cbn [negb].
    destruct (_ || _); [by constructor|]. constructor; try done. unfold subscriber_count in *. cbn. by rewrite length_alter.
  - cbn [disc_step]. destruct (pending s !! k) as [[|x l]|] eqn:Hk; [done| |done].
    destruct Hs as [Hon Hsubs Hcount Hnames Hq Hcalls Hm Hp].
    constructor; cbn [disc published pending made]; try done; [|by rewrite length_alter|by rewrite length_insert].
    rewrite deliver_zip; [done| |done]. apply lookup_lt_Some in Hk. intros Hn. apply lookup_ge_None in Hn. lia.
Qed.

Lemma disc_run_inv cs : forall s, disc_inv s -> Forall short_name cs -> disc_inv (disc_run cs s).
Proof.
  induction cs as [|c cs IH]; intros s Hs Hcs; [done|]. apply Forall_cons in Hcs as [Hc Hcs]. apply IH; [by apply disc_step_inv|done].
Qed.

(** Whatever the threads call and however the callbacks interleave with it: the services
    listed under a name are, in order, the queue of its accepted registrations from which
    every deregistration takes the oldest; there are at most 64 services in all; and each
    accepted publication calls, once and in the order of their identifiers, exactly the
    subscriptions that were active and interested when it was made: what was called so far
    and what is still to be called is that list. *)
Theorem discovery_queues max cs : 0 < max <= 1024 -> Forall short_name cs ->
  let s := disc_run cs (disc_start max) in
  (forall nm, nm <> ""%string ->
     sm_discovery_query_services true (Some nm) (disc s) = Some (listed <$> queue_of nm (published s))) /\
  (service_count (disc s) <= MAX_SERVICES)%nat /\
  (forall k p, published s !! k = Some p ->
     exists m r, made s !! k = Some m /\ pending s !! k = Some r /\ m ++ r = calls_of p).
Proof.
  intros Hmax Hcs s. destruct (disc_run_inv cs _ (start_disc_inv max Hmax) Hcs) as [Hon Hsubs Hcount Hnames Hq Hcalls Hm Hp].
  fold s in Hon, Hsubs, Hcount, Hnames, Hq, Hcalls, Hm, Hp. split_and!; [|done|].
  - intros nm Hnm. unfold sm_discovery_query_services. rewrite Hon. cbn [negb]. apply String.eqb_neq in Hnm. rewrite Hnm.
    cbn [orb]. change (fun s0 : registered_service_t => String.eqb (service_name s0) nm) with (of_name nm).
    assert (Hshort : Forall (fun x => String.length (service_name x) <= 63)%nat (queue_of nm (published s))).
    { rewrite <- Hq, Forall_forall. intros x Hx. apply list_elem_of_In, filter_In in Hx as [Hx _].
      rewrite Forall_forall in Hnames. by apply Hnames, list_elem_of_In. }
    rewrite Hq. destruct (queue_of nm (published s)) as [|x q]; [done|]. f_equal. apply list_fmap_ext.
    intros i y Hy. unfold listed. by rewrite strncpy_z_short by (by eapply (Forall_lookup_1 _ _ _ _ Hshort)).
  - intros k p Hk. pose proof (lookup_lt_Some _ _ _ Hk) as Hlt.
    destruct (lookup_lt_is_Some_2 (made s) k) as [m Hmk]; [lia|]. destruct (lookup_lt_is_Some_2 (pending s) k) as [r Hrk]; [lia|].
    exists m, r. split_and!; [done..|]. apply (f_equal (fun l => l !! k)) in Hcalls.
    rewrite list_lookup_fmap, Hk, lookup_zip_with, Hmk, Hrk in Hcalls. by injection Hcalls.
Qed.

(** ** What else there is to know *)

(** Event types are numbers and not bits, but the mask is tested with a bitwise and: who
    asks for READY (3) is also called for REGISTERED (1), DEREGISTERED (2) and UPDATED (5). *)
Lemma mask_is_not_flags nm cb data : cb <> 0 ->
  (fun ev => interested ev nm (mk_sub "" 3 cb data true)) <$> [1; 2; 3; 4; 5] = [true; true; true; false; true].
Proof. intros Hcb%Z.eqb_neq. cbn. unfold interested. cbn. by rewrite Hcb. Qed.

Definition churn : list disc_call :=
  [Subscribe None 0 7 1; Publish 5 1 (Some "gpio"%string) (Some "/run/g"%string) 10 9; Unsubscribe 0; Deliver 0;
   Publish 6 1 (Some "gpio"%string) None 11 0; Subscribe None 0 8 2; Publish 7 2 (Some "gpio"%string) None 0 0].

Lemma discovery_queues_witness :
  let s := disc_run churn (disc_start 1) in
  sm_discovery_query_services true (Some "gpio"%string) (disc s) = Some [("gpio"%string, ""%string, 11, 0, 6)] /\
  (service_count (disc s) <= MAX_SERVICES)%nat.
Proof.
  intros s. destruct (discovery_queues 1 churn ltac:(lia) ltac:(repeat constructor; cbn; lia)) as (Hq & Hc & _).
  split; [|exact Hc]. specialize (Hq "gpio"%string ltac:(done)). fold s in Hq. rewrite Hq. vm_compute. reflexivity.
Defined.

(** A callback may run after its subscription was removed and the removal returned. *)
Lemma called_after_unsubscribe : exists m, made (disc_run churn (disc_start 1)) !! 0%nat = Some [m] /\ m.1.1 = 7 /\
  (disc_step (Unsubscribe 0) (disc_run (take 2 churn) (disc_start 1))) = disc_run (take 3 churn) (disc_start 1).
Proof. eexists. by vm_compute. Qed.

(** Places are never used again: the second subscription of a table of one is refused
    although the first was removed. *)
Lemma places_not_reused s f mask cb data id : max_subscribers s <= subscriber_count s ->
  (sm_discovery_subscribe f mask cb data (sm_discovery_unsubscribe id s).2).1 = -1.
Proof.
  intros Hfull. unfold sm_discovery_unsubscribe, sm_discovery_subscribe.
  destruct (g_discovery_initialized s) eqn:Hon; cbn [negb snd]; [|by rewrite Hon].
  destruct (_ || _); cbn [snd]; rewrite ?Hon; cbn [negb g_discovery_initialized]; destruct (cb =? 0); try done; destruct (negb _); try done;
    unfold subscriber_count in *; cbn; rewrite ?length_alter; by destruct (Z.leb_spec (max_subscribers s) (Z.of_nat (length (subscriptions s)))); try lia.
Qed.
