(* ===== verification/Resources.v ===== *)
(** * Resource monitoring of the daemon (enterprise/sm_monitoring.c)

    Samples of the process's memory, processor time and descriptors in a ring of 128,
    peaks, averages and alerts.  What the kernel's files say is an argument. *)

From S2P Require Import Prelude CText Float64.

Definition MAX_SAMPLES : nat := 128.
#[global] Arguments MAX_SAMPLES : simpl never.
Definition MEMORY_LEAK_MIN_SAMPLES : nat := 5.
(** [MEMORY_LEAK_THRESHOLD_GROWTH], 1.05. *)
Definition MEMORY_LEAK_THRESHOLD_GROWTH : double := d_lit 105 2.

(** [dev/core/service_manager/enterprise/sm_monitoring.h:31-38 sm_alert_type_t] *)
Definition SM_ALERT_NONE : Z := 0.
Definition SM_ALERT_HIGH_MEMORY : Z := 1.
Definition SM_ALERT_HIGH_FD_COUNT : Z := 3.
Definition SM_ALERT_MEMORY_LEAK : Z := 4.

(** [dev/core/service_manager/enterprise/sm_monitoring.h:41-47 sm_monitoring_alert_t] *)
Record sm_monitoring_alert_t := mk_alert { alert_type : Z; a_timestamp : Z; value : double; threshold : double }.

(** [dev/core/service_manager/enterprise/sm_monitoring.h:50-57 sm_monitoring_sample_t] *)
Record sm_monitoring_sample_t := mk_sample {
  s_timestamp : Z; cpu_percent : double; rss_bytes : Z; vms_bytes : Z; open_fds : Z; max_fds : Z
}.
Definition zero_sample : sm_monitoring_sample_t := mk_sample 0 d0 0 0 0 0.
#[export] Instance sample_inhabited : Inhabited sm_monitoring_sample_t := populate zero_sample.
Definition zero_alert : sm_monitoring_alert_t := mk_alert 0 0 d0 d0.

(** [dev/core/service_manager/enterprise/sm_monitoring.c:29-52 monitoring_context_t] *)
Record monitoring_context_t := mk_mon {
  m_name : string; samples : list sm_monitoring_sample_t; sample_count : nat; sample_idx : nat;
  last_alert : sm_monitoring_alert_t; total_alerts : Z; memory_threshold_bytes : Z; fd_threshold : Z;
  peak_rss_bytes : Z; peak_cpu_percent : double; peak_open_fds : Z; memory_growth_rate : double;
  monitoring_started_time : Z; m_initialized : bool
}.
Definition monitoring0 : monitoring_context_t :=
  mk_mon "" (replicate MAX_SAMPLES zero_sample) 0 0 zero_alert 0 0 0 0 d0 0 d0 0 false.

(** ** The kernel's files *)

(** [dev/core/service_manager/enterprise/sm_monitoring.c:58-74 count_open_fds] the names in
    /proc/self/fd; None: it cannot be opened. *)
Definition count_open_fds (names : option (list string)) : Z :=
  match names with
  | None => -1
  | Some l =>
      let count := Z.of_nat (length (List.filter (fun nm => match nm with
                     | String c _ => (48 <=? byte_of c) && (byte_of c <=? 57)
                     | EmptyString => false
                     end) l)) in
      if 0 <? count then count - 1 else 0
  end.

(** [dev/core/service_manager/enterprise/sm_monitoring.c:76-114 parse_proc_stat] [stat]: the number
    of fields that were read, and the times in user and system mode; [clk]: ticks per
    second.  None: an error. *)
Definition parse_proc_stat (stat : option (Z * Z * Z)) (clk : Z) : option double :=
  '(ret, utime, stime) ← stat;
  if ret <? 15 then None
  else
    let clk := if clk <=? 0 then 100 else clk in
    let cpu := dmul (ddiv (d_of_Z (u64 (utime + stime))) (d_of_Z clk)) (d_of_Z 10) in
    Some (if dlt (d_of_Z 100) cpu then d_of_Z 100 else cpu).

(** [sscanf (line, "key %lu", &v)]: the number behind the key, or what was there before. *)
Definition scan_kb (key line : string) (v : Z) : Z :=
  if String.prefix key line
  then default v (strtoul 10 (String.substring (String.length key) (String.length line) line)) else v.

(** [dev/core/service_manager/enterprise/sm_monitoring.c:116-134 read_proc_status] *)
Definition read_proc_status (text : option string) : option (Z * Z) :=
  text ← text;
  let '(rss_kb, vms_kb) :=
    fold_left (fun '(rss, vms) line => (scan_kb "VmRSS:" line rss, scan_kb "VmSize:" line vms)) (fgets_lines 256 text) (0, 0) in
  Some (u64 (rss_kb * 1024), u64 (vms_kb * 1024)).

(** What a sample finds. *)
Record sample_env := mk_env {
  e_now : Z; e_stat : option (Z * Z * Z); e_clk : Z; e_status : option string; e_fds : option (list string); e_max : Z
}.

(** [dev/core/service_manager/enterprise/sm_monitoring.c:201-214 sm_monitoring_sample, the sample] *)
Definition take_sample (e : sample_env) : sm_monitoring_sample_t :=
  let '(rss, vms) := default (0, 0) (read_proc_status (e_status e)) in
  mk_sample (e_now e) (default d0 (parse_proc_stat (e_stat e) (e_clk e))) rss vms
    (let n := count_open_fds (e_fds e) in if n <? 0 then 0 else n) (i32 (e_max e)).

(** ** Alerts *)

(** [dev/core/service_manager/enterprise/sm_monitoring.c:139-151 set_alert] the alert and the
    number of alerts. *)
Definition set_alert (now type v t : Z) (a : sm_monitoring_alert_t) (total : Z) : sm_monitoring_alert_t * Z :=
  if negb (alert_type a =? SM_ALERT_NONE) && (type <=? alert_type a) then (a, total)
  else (mk_alert type now (d_of_Z v) (d_of_Z t), u64 (total + 1)).

(** The growth of the memory against the oldest sample, when there are five and it grew. *)
Definition growth (count : nat) (oldest s : sm_monitoring_sample_t) : option double :=
  if (MEMORY_LEAK_MIN_SAMPLES <=? count)%nat && (0 <? rss_bytes oldest) && (rss_bytes oldest <? rss_bytes s)
  then Some (ddiv (d_of_Z (rss_bytes s)) (d_of_Z (rss_bytes oldest))) else None.

Definition leaking (count : nat) (oldest s : sm_monitoring_sample_t) : bool :=
  match growth count oldest s with Some r => dlt MEMORY_LEAK_THRESHOLD_GROWTH r | None => false end.
Definition high_memory (limit : Z) (s : sm_monitoring_sample_t) : bool :=
  (0 <? limit) && (u64 (limit * 8) / 10 <? rss_bytes s).
Definition high_fds (limit : Z) (s : sm_monitoring_sample_t) : bool :=
  (0 <? limit) && (Z.quot (limit * 8) 10 <? open_fds s).

(** [dev/core/service_manager/enterprise/sm_monitoring.c:223-265 sm_monitoring_sample, the checks] *)
Definition check_sample (count : nat) (oldest s : sm_monitoring_sample_t) (m : monitoring_context_t) : sm_monitoring_alert_t * Z :=
  let now := s_timestamp s in
  let a := mk_alert SM_ALERT_NONE (a_timestamp (last_alert m)) (value (last_alert m)) (threshold (last_alert m)) in
  let '(a, total) :=
    if leaking count oldest s
    then set_alert now SM_ALERT_MEMORY_LEAK (rss_bytes s)
           (d_trunc (dmul (d_of_Z (rss_bytes oldest)) MEMORY_LEAK_THRESHOLD_GROWTH)) a (total_alerts m)
    else (a, total_alerts m) in
  let '(a, total) :=
    if high_memory (memory_threshold_bytes m) s
    then set_alert now SM_ALERT_HIGH_MEMORY (rss_bytes s) (memory_threshold_bytes m) a total else (a, total) in
  if high_fds (fd_threshold m) s
  then set_alert now SM_ALERT_HIGH_FD_COUNT (open_fds s) (fd_threshold m) a total else (a, total).

(** ** Operations *)

(** [dev/core/service_manager/enterprise/sm_monitoring.c:155-181 sm_monitoring_init] *)
Definition sm_monitoring_init (lock : bool) (now : Z) (nm : option string) (m : monitoring_context_t) : Z * monitoring_context_t :=
  if m_initialized m then (0, m)
  else if negb lock then (-1, monitoring0)
  else (0, mk_mon (strncpy_z 63 (default ""%string nm)) (replicate MAX_SAMPLES zero_sample) 0 0 zero_alert 0
             (512 * 1024 * 1024) 256 0 d0 0 d0 now true).

(** [dev/core/service_manager/enterprise/sm_monitoring.c:183-268 sm_monitoring_sample] *)
Definition sm_monitoring_sample (e : sample_env) (m : monitoring_context_t) : Z * monitoring_context_t :=
  if negb (m_initialized m) then (-1, m)
  else
    let '(idx, count) := if (sample_count m <? MAX_SAMPLES)%nat then (sample_count m, S (sample_count m))
                         else (((sample_idx m + 1) mod MAX_SAMPLES)%nat, sample_count m) in
    let s := take_sample e in
    let l := <[idx := s]> (samples m) in
    let oldest := l !!! (if (count <? MAX_SAMPLES)%nat then 0%nat else ((idx + 1) mod MAX_SAMPLES)%nat) in
    let '(a, total) := check_sample count oldest s m in
    (0, mk_mon (m_name m) l count idx a total (memory_threshold_bytes m) (fd_threshold m)
          (Z.max (peak_rss_bytes m) (rss_bytes s))
          (if dlt (peak_cpu_percent m) (cpu_percent s) then cpu_percent s else peak_cpu_percent m)
          (Z.max (peak_open_fds m) (open_fds s))
          (default (memory_growth_rate m) (growth count oldest s)) (monitoring_started_time m) true).

Definition with_limits mem fds (m : monitoring_context_t) : monitoring_context_t :=
  mk_mon (m_name m) (samples m) (sample_count m) (sample_idx m) (last_alert m) (total_alerts m) mem fds
    (peak_rss_bytes m) (peak_cpu_percent m) (peak_open_fds m) (memory_growth_rate m) (monitoring_started_time m) (m_initialized m).

(** [dev/core/service_manager/enterprise/sm_monitoring.c:271-285 sm_monitoring_set_memory_threshold] *)
Definition sm_monitoring_set_memory_threshold (n : Z) (m : monitoring_context_t) : Z * monitoring_context_t :=
  if (0 <? n) && (n <? 1024 * 1024) then (-1, m) else (0, with_limits n (fd_threshold m) m).

(** [dev/core/service_manager/enterprise/sm_monitoring.c:288-300 sm_monitoring_set_fd_threshold] *)
Definition sm_monitoring_set_fd_threshold (n : Z) (m : monitoring_context_t) : Z * monitoring_context_t :=
  if (0 <? n) && (n <? 10) then (-1, m) else (0, with_limits (memory_threshold_bytes m) n m).

(** [dev/core/service_manager/enterprise/sm_monitoring.h:60-84 sm_monitoring_stats_t] *)
Record sm_monitoring_stats_t := mk_stats {
  t_count : nat; t_peak_rss : Z; t_current_rss : Z; t_avg_rss : double; t_growth : double; t_peak_cpu : double;
  t_avg_cpu : double; t_peak_fds : Z; t_current_fds : Z; t_started : Z; t_alerts : Z; t_last_alert : Z
}.
Definition zero_stats : sm_monitoring_stats_t := mk_stats 0 0 0 d0 d0 d0 d0 0 0 0 0 0.

Definition average (n : nat) (sum : double) : double := ddiv sum (d_of_Z (Z.of_nat n)).

(** [dev/core/service_manager/enterprise/sm_monitoring.c:302-339 sm_monitoring_get_stats] *)
Definition sm_monitoring_get_stats (m : monitoring_context_t) : sm_monitoring_stats_t :=
  if negb (m_initialized m) then zero_stats
  else
    let n := sample_count m in
    let latest := samples m !!! sample_idx m in
    let some {A} (a b : A) : A := if (0 <? n)%nat then a else b in
    mk_stats n (peak_rss_bytes m) (some (rss_bytes latest) 0)
      (some (average n (d_of_Z (fold_left (fun a s => u64 (a + rss_bytes s)) (take n (samples m)) 0))) d0)
      (memory_growth_rate m) (peak_cpu_percent m)
      (some (average n (fold_left (fun a s => dadd a (cpu_percent s)) (take n (samples m)) d0)) d0)
      (peak_open_fds m) (some (open_fds latest) 0) (monitoring_started_time m) (total_alerts m) (alert_type (last_alert m)).

(** [dev/core/service_manager/enterprise/sm_monitoring.c:341-352 sm_monitoring_get_last_sample] *)
Definition sm_monitoring_get_last_sample (m : monitoring_context_t) : sm_monitoring_sample_t :=
  if m_initialized m && (0 <? sample_count m)%nat then samples m !!! sample_idx m else zero_sample.

(** [dev/core/service_manager/enterprise/sm_monitoring.c:354-364 sm_monitoring_get_last_alert] *)
Definition sm_monitoring_get_last_alert (m : monitoring_context_t) : sm_monitoring_alert_t :=
  if m_initialized m then last_alert m else zero_alert.

(** [dev/core/service_manager/enterprise/sm_monitoring.c:366-379 sm_monitoring_cleanup] *)
Definition sm_monitoring_cleanup (m : monitoring_context_t) : Z * monitoring_context_t :=
  (0, if m_initialized m then monitoring0 else m).

(** ** Histories *)

Inductive monitor_call := Sample (e : sample_env) | SetMemory (n : Z) | SetFds (n : Z).

Definition monitor_step (m : monitoring_context_t) (c : monitor_call) : monitoring_context_t :=
  match c with
  | Sample e => (sm_monitoring_sample e m).2
  | SetMemory n => (sm_monitoring_set_memory_threshold n m).2
  | SetFds n => (sm_monitoring_set_fd_threshold n m).2
  end.
Definition monitor_run (cs : list monitor_call) (m : monitoring_context_t) : monitoring_context_t := fold_left monitor_step cs m.
Definition taken (cs : list monitor_call) : list sm_monitoring_sample_t :=
  omap (fun c => match c with Sample e => Some (take_sample e) | _ => None end) cs.

Definition lastn {A} (n : nat) (l : list A) : list A := drop (length l - n) l.

(** The ring from its oldest sample on. *)
Definition window (m : monitoring_context_t) : list sm_monitoring_sample_t :=
  ring_contents (samples m) (if (sample_count m <? MAX_SAMPLES)%nat then 0 else (sample_idx m + 1) mod MAX_SAMPLES) (sample_count m).

(** The alert that a sample deserves: a leak before descriptors before memory. *)
Definition verdict (mem fds : Z) (w : list sm_monitoring_sample_t) (s : sm_monitoring_sample_t) : Z :=
  if leaking (length w) (default zero_sample (head w)) s then SM_ALERT_MEMORY_LEAK
  else if high_fds fds s then SM_ALERT_HIGH_FD_COUNT
  else if high_memory mem s then SM_ALERT_HIGH_MEMORY
  else SM_ALERT_NONE.

Definition highest (f : sm_monitoring_sample_t -> Z) (xs : list sm_monitoring_sample_t) : Z := foldr (fun x a => Z.max (f x) a) 0 xs.

Lemma highest_nonneg f xs : 0 <= highest f xs.
Proof. induction xs as [|x xs IH]; cbn; [lia|]. fold (highest f xs). lia. Qed.

Lemma highest_app f xs x : highest f (xs ++ [x]) = Z.max (highest f xs) (f x).
Proof.
  induction xs as [|y xs IH]; [cbn; lia|]. cbn [highest app foldr]. fold (highest f (xs ++ [x])). fold (highest f xs). lia.
Qed.

(** The state after samples [xs]. *)
Record mon_inv (xs : list sm_monitoring_sample_t) (m : monitoring_context_t) : Prop := mk_mon_inv {
  mi_on : m_initialized m = true;
  mi_size : length (samples m) = MAX_SAMPLES;
  mi_count : sample_count m = (length xs `min` MAX_SAMPLES)%nat;
  mi_idx : (sample_idx m < MAX_SAMPLES)%nat;
  mi_idx_count : (sample_count m < MAX_SAMPLES)%nat -> sample_idx m = (sample_count m - 1)%nat;
  mi_window : window m = lastn MAX_SAMPLES xs;
  mi_last : xs <> [] -> Some (samples m !!! sample_idx m) = last xs;
  mi_rss : peak_rss_bytes m = highest rss_bytes xs;
  mi_fds : peak_open_fds m = highest open_fds xs
}.

Lemma lastn_short {A} n (l : list A) : (length l <= n)%nat -> lastn n l = l.
Proof. intros Hl. unfold lastn. by replace (length l - n)%nat with 0%nat by lia. Qed.

Lemma lastn_full {A} n (l : list A) x : (0 < n <= length l)%nat -> lastn n (l ++ [x]) = tail (lastn n l) ++ [x].
Proof.
  intros Hl. unfold lastn. rewrite length_app. cbn [length].
  replace (length l + 1 - n)%nat with (S (length l - n)) by lia. rewrite drop_app_le by lia. f_equal.
  rewrite <- (drop_drop l (length l - n) 1), Nat.add_1_r || (replace (S (length l - n)) with (length l - n + 1)%nat by lia; rewrite <- drop_drop).
  by destruct (drop (length l - n) l).
Qed.

(** One more sample in the ring: the new window, and where its head is. *)
Lemma ring_sample xs m s : mon_inv xs m ->
  let '(idx, count) := if (sample_count m <? MAX_SAMPLES)%nat then (sample_count m, S (sample_count m))
                       else (((sample_idx m + 1) mod MAX_SAMPLES)%nat, sample_count m) in
  let l := <[idx := s]> (samples m) in
  let start := if (count <? MAX_SAMPLES)%nat then 0%nat else ((idx + 1) mod MAX_SAMPLES)%nat in
  (idx < MAX_SAMPLES)%nat /\ count = (length (xs ++ [s]) `min` MAX_SAMPLES)%nat /\ (0 < count)%nat /\
  ((count < MAX_SAMPLES)%nat -> idx = (count - 1)%nat) /\
  ring_contents l start count = lastn MAX_SAMPLES (xs ++ [s]).
Proof.
  intros [Hon Hsize Hcount Hidx Hic Hw _ _ _]. assert (H128 : MAX_SAMPLES <> 0%nat) by done. unfold window in Hw.
  rewrite length_app. cbn [length]. destruct (Nat.ltb_spec (sample_count m) MAX_SAMPLES) as [Hlt|Hge].
  - assert (Hlen : length xs = sample_count m) by lia. split_and!; [done|lia|lia|lia|].
    assert (Hst : (if (S (sample_count m) <? MAX_SAMPLES)%nat then 0%nat else ((sample_count m + 1) mod MAX_SAMPLES)%nat) = 0%nat).
    { destruct (Nat.ltb_spec (S (sample_count m)) MAX_SAMPLES); [done|].
      replace (sample_count m + 1)%nat with MAX_SAMPLES by lia. by apply Nat.Div0.mod_same. }
    rewrite Hst. rewrite (lastn_short MAX_SAMPLES (xs ++ [s])) by (rewrite length_app; cbn [length]; lia).
    rewrite (lastn_short MAX_SAMPLES xs) in Hw by lia. rewrite <- Hw.
    pose proof (ring_contents_push (samples m) 0 (sample_count m) s ltac:(lia)) as Hp.
    rewrite Nat.add_0_l, Nat.mod_small in Hp by lia. exact Hp.
  - assert (Hc : sample_count m = MAX_SAMPLES) by lia. set (st := ((sample_idx m + 1) mod MAX_SAMPLES)%nat) in *.
    assert (Hst : (st < MAX_SAMPLES)%nat) by (by apply Nat.mod_upper_bound).
    rewrite Hc in *. rewrite Nat.ltb_irrefl in *. split_and!; [done|lia|lia|lia|].
    rewrite lastn_full by lia. rewrite <- Hw.
    replace MAX_SAMPLES with (S (MAX_SAMPLES - 1)) at 2 3 by lia.
    rewrite (ring_contents_pop (samples m)) by (intros He; rewrite He in Hsize; cbn in Hsize; lia). cbn [tail].
    rewrite <- (ring_contents_push (samples m)) by lia. rewrite Hsize.
    replace ((((st + 1) mod MAX_SAMPLES) + (MAX_SAMPLES - 1)) mod MAX_SAMPLES)%nat with st; [done|].
    rewrite Nat.Div0.add_mod_idemp_l. replace (st + 1 + (MAX_SAMPLES - 1))%nat with (st + 1 * MAX_SAMPLES)%nat by lia.
    rewrite Nat.Div0.mod_add. symmetry. by apply Nat.mod_small.
Qed.

Lemma init_mon_inv now nm m : m_initialized m = false -> mon_inv [] (sm_monitoring_init true now nm m).2.
Proof. intros Hm. unfold sm_monitoring_init. rewrite Hm. constructor; try done; cbn; unfold MAX_SAMPLES; lia. Qed.

Lemma limits_mon_inv xs m a b : mon_inv xs m -> mon_inv xs (with_limits a b m).
Proof. intros []. by constructor. Qed.

(** Alerts only replace ones of lower rank. *)
Lemma check_sample_type count oldest s m w : length w = count -> head w = Some oldest ->
  alert_type (check_sample count oldest s m).1 = verdict (memory_threshold_bytes m) (fd_threshold m) w s.
Proof.
  intros Hw Hh. unfold check_sample, verdict. rewrite Hw, Hh. change (default zero_sample (Some oldest)) with oldest.
  by destruct (leaking count oldest s), (high_memory _ s), (high_fds _ s).
Qed.

Lemma sample_mon_inv xs m e : mon_inv xs m ->
  let m' := (sm_monitoring_sample e m).2 in
  mon_inv (xs ++ [take_sample e]) m' /\
  alert_type (last_alert m') = verdict (memory_threshold_bytes m) (fd_threshold m) (window m') (take_sample e).
Proof.
  intros Hm. pose proof (ring_sample xs m (take_sample e) Hm) as Hr.
  destruct Hm as [Hon Hsize Hcount Hidx Hic Hw Hlast Hrss Hfds]. unfold sm_monitoring_sample. rewrite Hon. cbn [negb].
  destruct (if (sample_count m <? MAX_SAMPLES)%nat then _ else _) as [idx count].
  cbv zeta in Hr |- *. destruct Hr as (Hi & Hc & Hpos & Hic' & Hwin).
  set (l := <[idx := take_sample e]> (samples m)) in *.
  set (start := if (count <? MAX_SAMPLES)%nat then 0%nat else ((idx + 1) mod MAX_SAMPLES)%nat) in *.
  assert (Hl : length l = MAX_SAMPLES) by (subst l; by rewrite length_insert).
  assert (Hhead : head (ring_contents l start count) = Some (l !!! start)).
  { destruct count as [|n]; [lia|]. rewrite ring_contents_pop by (intros He; by rewrite He in Hl).
    cbn [head]. rewrite Nat.mod_small; [done|]. rewrite Hl. subst start.
    destruct (S n <? MAX_SAMPLES)%nat; [unfold MAX_SAMPLES; lia|by apply Nat.mod_upper_bound]. }
  pose proof (check_sample_type count (l !!! start) (take_sample e) m _ (length_ring_contents _ _ _) Hhead) as Ha.
  destruct (check_sample count (l !!! start) (take_sample e) m) as [a total]. cbn [snd fst] in *. split; [|exact Ha].
  constructor; cbn [m_initialized samples sample_count sample_idx peak_rss_bytes peak_open_fds]; try done.
  - intros _. rewrite last_snoc. f_equal. subst l. apply list_lookup_total_insert_eq. lia.
  - by rewrite highest_app, Hrss.
  - by rewrite highest_app, Hfds.
Qed.

Lemma monitor_step_inv xs m c : mon_inv xs m -> mon_inv (xs ++ taken [c]) (monitor_step m c).
Proof.
  intros Hm. destruct c as [e|n|n]; cbn [monitor_step taken omap list_omap].
  - by apply sample_mon_inv.
  - rewrite app_nil_r. unfold sm_monitoring_set_memory_threshold. destruct (_ && _); [done|by apply limits_mon_inv].
  - rewrite app_nil_r. unfold sm_monitoring_set_fd_threshold. destruct (_ && _); [done|by apply limits_mon_inv].
Qed.

Lemma monitor_run_inv cs : forall xs m, mon_inv xs m -> mon_inv (xs ++ taken cs) (monitor_run cs m).
Proof.
  induction cs as [|c cs IH]; intros xs m Hm; [unfold taken; cbn; by rewrite app_nil_r|].
  change (taken (c :: cs)) with (omap (fun c => match c with Sample e => Some (take_sample e) | _ => None end) ([c] ++ cs)).
  rewrite omap_app. rewrite app_assoc. cbn [monitor_run fold_left]. apply IH. by apply monitor_step_inv.
Qed.

(** The sums of the statistics are those of the window. *)
Lemma sum_u64 (l : list sm_monitoring_sample_t) : forall a, u64 (fold_left (fun a s => u64 (a + rss_bytes s)) l a) = u64 (a + zsum rss_bytes l).
Proof.
  induction l as [|s l IH]; intros a; cbn [fold_left zsum fold_right]; [by rewrite Z.add_0_r|].
  fold (zsum rss_bytes l). rewrite IH, wrap_add. f_equal. lia.
Qed.

Lemma rss_sum_nonneg l : Forall (fun s => 0 <= rss_bytes s) l -> 0 <= zsum rss_bytes l.
Proof. induction 1 as [|s l Hs _ IH]; [done|]. cbn [zsum fold_right]. fold (zsum rss_bytes l). lia. Qed.

Lemma window_perm xs m : mon_inv xs m -> window m ≡ₚ take (sample_count m) (samples m).
Proof.
  intros [Hon Hsize Hcount Hidx Hic Hw _ _ _]. unfold window. destruct (Nat.ltb_spec (sample_count m) MAX_SAMPLES).
  - by rewrite ring_contents_0 by lia.
  - assert (Hc : sample_count m = length (samples m)) by lia. rewrite Hc, take_ge by lia. apply ring_contents_all.
Qed.

Lemma take_sample_rss e : 0 <= rss_bytes (take_sample e).
Proof.
  unfold take_sample, read_proc_status. destruct (e_status e) as [t|]; cbn -[fgets_lines wrap]; [|done].
  destruct (fold_left _ _ _) as [rss vms]. cbn [default id rss_bytes from_option]. by apply wrap_range.
Qed.

Lemma taken_rss cs : Forall (fun s => 0 <= rss_bytes s) (taken cs).
Proof. induction cs as [|[e|n|n] cs IH]; [constructor| |exact IH..]. constructor; [apply take_sample_rss|exact IH]. Qed.

(** After any samples and changes of the limits, in any order, since the start: the ring
    holds, oldest first, exactly the last 128 samples; the statistics give their number, the
    last one's memory and descriptors, the mean of the memory of exactly these samples, and
    the peaks of all samples ever taken; and the alert after a sample is the gravest that
    the sample deserves against the oldest of the window and the limits then in force, or
    none. *)
Theorem monitoring_window now nm cs e :
  let m0 := monitor_run cs (sm_monitoring_init true now nm monitoring0).2 in
  let m := monitor_run [Sample e] m0 in
  let xs := taken cs ++ [take_sample e] in
  let st := sm_monitoring_get_stats m in
  window m = lastn MAX_SAMPLES xs /\ sm_monitoring_get_last_sample m = take_sample e /\
  t_count st = (length xs `min` MAX_SAMPLES)%nat /\ t_current_rss st = rss_bytes (take_sample e) /\
  t_current_fds st = open_fds (take_sample e) /\
  t_peak_rss st = highest rss_bytes xs /\ t_peak_fds st = highest open_fds xs /\
  (zsum rss_bytes (window m) < 2 ^ 64 ->
     t_avg_rss st = average (length (window m)) (d_of_Z (zsum rss_bytes (window m)))) /\
  alert_type (sm_monitoring_get_last_alert m) = verdict (memory_threshold_bytes m0) (fd_threshold m0) (window m) (take_sample e).
Proof.
  intros m0 m xs st. pose proof (monitor_run_inv cs [] _ (init_mon_inv now nm monitoring0 eq_refl)) as H0. fold m0 in H0.
  destruct (sample_mon_inv _ _ e H0) as [Hm Ha]. change (sm_monitoring_sample e m0).2 with m in Hm, Ha.
  change ([] ++ taken cs) with (taken cs) in Hm. fold xs in Hm.
  pose proof (window_perm _ _ Hm) as Hperm. destruct Hm as [Hon Hsize Hcount Hidx Hic Hw Hlast Hrss Hfds].
  assert (Hpos : (0 <? sample_count m)%nat = true).
  { apply Nat.ltb_lt. rewrite Hcount. subst xs. rewrite length_app. cbn [length]. unfold MAX_SAMPLES. lia. }
  assert (Hl : samples m !!! sample_idx m = take_sample e).
  { assert (Hx : xs <> []) by (subst xs; by destruct (taken cs)). specialize (Hlast Hx). subst xs. rewrite last_snoc in Hlast. by injection Hlast. }
  subst st. unfold sm_monitoring_get_stats, sm_monitoring_get_last_sample, sm_monitoring_get_last_alert. rewrite Hon, Hpos, Hl. cbn [negb andb].
  cbn [t_count t_current_rss t_current_fds t_peak_rss t_peak_fds t_avg_rss]. split_and!; try done.
  intros Hsum. assert (Hnn : Forall (fun s => 0 <= rss_bytes s) (window m)).
  { rewrite Hw. apply Forall_drop, Forall_app. split; [apply taken_rss|]. apply Forall_singleton, take_sample_rss. }
  unfold average. assert (Hlen : length (window m) = sample_count m) by apply length_ring_contents. rewrite Hlen.
  do 2 f_equal. rewrite (zsum_perm _ _ _ Hperm) in *.
  assert (Hnn' : 0 <= zsum rss_bytes (take (sample_count m) (samples m))).
  { rewrite Hperm in Hnn. by apply rss_sum_nonneg. }
  generalize (sum_u64 (take (sample_count m) (samples m)) 0). rewrite Z.add_0_l, (wrap_small 64 (zsum _ _)) by lia.
  intros <-. symmetry. apply wrap_small.
  clear. assert (Hg : forall l a, 0 <= a < 2 ^ 64 -> 0 <= fold_left (fun a s => u64 (a + rss_bytes s)) l a < 2 ^ 64).
  { induction l as [|s l IH]; intros a Ha; [done|]. cbn [fold_left]. apply IH. by apply wrap_range. }
  by apply Hg.
Qed.

(** ** What else there is to know *)

Definition sample_at (t : Z) (kb : string) : sample_env :=
  mk_env t (Some (22, 30, 20)) 100 (Some ("VmSize: 9000 kB" ++ line_end ++ "VmRSS:  " ++ kb ++ " kB" ++ line_end)%string)
    (Some ["."; ".."; "0"; "1"; "2"; "3"]%string) 1024.
Definition grows : list monitor_call :=
  [Sample (sample_at 1 "4000"); Sample (sample_at 2 "4010"); SetMemory 5; SetFds 20; Sample (sample_at 3 "4020"); Sample (sample_at 4 "4100")].

Lemma monitoring_window_witness :
  let m0 := monitor_run grows (sm_monitoring_init true 0 (Some "servicemanager"%string) monitoring0).2 in
  let m := monitor_run [Sample (sample_at 5 "4300")] m0 in
  length (window m) = 5%nat /\ t_peak_rss (sm_monitoring_get_stats m) = 4300 * 1024 /\
  t_avg_rss (sm_monitoring_get_stats m) = average 5 (d_of_Z (20430 * 1024)) /\
  alert_type (sm_monitoring_get_last_alert m) = SM_ALERT_MEMORY_LEAK.
Proof.
  destruct (monitoring_window 0 (Some "servicemanager"%string) grows (sample_at 5 "4300")) as (Hw & _ & _ & _ & _ & Hp & _ & Ha & Hv).
  cbv zeta. rewrite Hw in Ha |- *. rewrite Hp, Hv, Hw. split_and!; [by vm_compute..| |by vm_compute].
  rewrite Ha by by vm_compute. by vm_compute.
Defined.

(** The figure for the processor is ten times the seconds used since the process began: after
    ten of them it is 100 for ever. *)
Lemma cpu_is_not_a_rate : parse_proc_stat (Some (22, 900, 100)) 100 = Some (d_of_Z 100) /\
  parse_proc_stat (Some (22, 90000, 0)) 100 = Some (d_of_Z 100) /\ parse_proc_stat (Some (22, 3, 2)) 100 = Some (d_lit 5 1).
Proof. by vm_compute. Qed.

(** A sample whose memory shrank leaves the growth rate of an earlier one in the statistics. *)
Lemma growth_stays count oldest s : rss_bytes s <= rss_bytes oldest -> growth count oldest s = None.
Proof. intros Hs. unfold growth. destruct (Z.ltb_spec (rss_bytes oldest) (rss_bytes s)); [lia|]. by rewrite andb_false_r. Qed.
