(* ===== verification/Watchdog.v ===== *)
(** * The watchdog (enterprise/sm_watchdog.c)

    The device, the thread that keeps it quiet, and the calls of the other threads, one
    access of the shared state after the other. *)

From S2P Require Import Prelude.

Definition WATCHDOG_DEFAULT_TIMEOUT : Z := 30.
Definition WATCHDOG_KEEPALIVE_INTERVAL_S : Z := 5.

(** The keepalive thread: at the test of the loop, asleep, between a failed keepalive and its
    count, ended. *)
Inductive keeper := AtTest | Asleep | Counting | Ended.

(** [dev/core/service_manager/enterprise/sm_watchdog.c:30-41 watchdog_context_t] with the thread, the
    time that the device waits for and the descriptors that are open.  [keepalive_thread]:
    None: the zero of the cleared structure. *)
Record watchdog_context_t := mk_wd {
  watchdog_fd : Z; keepalive_thread : option keeper; thread_running : bool; initialized : bool;
  total_keepalives : Z; total_failures : Z; last_keepalive_time : Z;
  device_timeout : Z; open_fds : list Z
}.
Definition watchdog0 : watchdog_context_t := mk_wd 0 None false false 0 0 0 0 [].

(** [dev/core/service_manager/enterprise/sm_watchdog.c:74-125 sm_watchdog_init] [lock]: the mutex;
    [fd]: the result of [open]; [set]: the device takes the timeout; [created]: the thread. *)
Definition sm_watchdog_init (lock : bool) (fd : Z) (set created : bool) (w : watchdog_context_t) : Z * watchdog_context_t :=
  if initialized w then (0, w)
  else
    let w := mk_wd 0 None false false 0 0 0 (device_timeout w) (open_fds w) in
    if negb lock then (-1, w)
    else if fd <? 0 then (0, mk_wd fd None false true 0 0 0 (device_timeout w) (open_fds w))
    else
      let timeout := if set then WATCHDOG_DEFAULT_TIMEOUT else device_timeout w in
      if negb created then (-1, mk_wd (-1) None true false 0 0 0 timeout (open_fds w))
      else (0, mk_wd fd (Some AtTest) true true 0 0 0 timeout (fd :: open_fds w)).

(** [dev/core/service_manager/enterprise/sm_watchdog.c:127-151 sm_watchdog_set_timeout] *)
Definition sm_watchdog_set_timeout (set : bool) (t : Z) (w : watchdog_context_t) : Z * watchdog_context_t :=
  if negb (initialized w) then (-1, w)
  else if (t <=? 0) || (3600 <? t) then (-1, w)
  else if watchdog_fd w <? 0 then (0, w)
  else if negb set then (-1, w)
  else (0, mk_wd (watchdog_fd w) (keepalive_thread w) (thread_running w) true (total_keepalives w) (total_failures w)
             (last_keepalive_time w) t (open_fds w)).

Definition with_counts k f t (w : watchdog_context_t) : watchdog_context_t :=
  mk_wd (watchdog_fd w) (keepalive_thread w) (thread_running w) (initialized w) k f t (device_timeout w) (open_fds w).
Definition with_keeper th (w : watchdog_context_t) : watchdog_context_t :=
  mk_wd (watchdog_fd w) th (thread_running w) (initialized w) (total_keepalives w) (total_failures w)
    (last_keepalive_time w) (device_timeout w) (open_fds w).

(** [dev/core/service_manager/enterprise/sm_watchdog.c:153-174 sm_watchdog_keepalive] [wrote]: the
    device takes the byte. *)
Definition sm_watchdog_keepalive (wrote : bool) (now : Z) (w : watchdog_context_t) : Z * watchdog_context_t :=
  if negb (initialized w) || (watchdog_fd w <? 0) then (0, w)
  else if negb wrote then (-1, with_counts (total_keepalives w) (u64 (total_failures w + 1)) (last_keepalive_time w) w)
  else (0, with_counts (u64 (total_keepalives w + 1)) (total_failures w) now w).

(** [dev/core/service_manager/enterprise/sm_watchdog.c:45-72 watchdog_thread_main] one step of the
    thread; a failed keepalive is counted once by the call and once by the loop. *)
Definition watchdog_thread_main (wrote : bool) (now : Z) (w : watchdog_context_t) : watchdog_context_t :=
  match keepalive_thread w with
  | Some AtTest => with_keeper (Some (if thread_running w then Asleep else Ended)) w
  | Some Asleep =>
      let '(rc, w) := sm_watchdog_keepalive wrote now w in
      with_keeper (Some (if rc =? 0 then AtTest else Counting)) w
  | Some Counting =>
      with_keeper (Some AtTest) (with_counts (total_keepalives w) (u64 (total_failures w + 1)) (last_keepalive_time w) w)
  | Some Ended | None => w
  end.

(** [dev/core/service_manager/enterprise/sm_watchdog.c:176-193 sm_watchdog_get_stats] keepalives,
    failures, the last time, the descriptor, whether it runs. *)
Definition sm_watchdog_get_stats (w : watchdog_context_t) : Z * Z * Z * Z * bool :=
  if initialized w
  then (total_keepalives w, total_failures w, last_keepalive_time w, watchdog_fd w, thread_running w) else (0, 0, 0, 0, false).

(** [dev/core/service_manager/enterprise/sm_watchdog.c:195-202 sm_watchdog_cleanup, the stop] *)
Definition cleanup_stop (w : watchdog_context_t) : watchdog_context_t :=
  if initialized w
  then mk_wd (watchdog_fd w) (keepalive_thread w) false true (total_keepalives w) (total_failures w) (last_keepalive_time w)
         (device_timeout w) (open_fds w) else w.

(** [dev/core/service_manager/enterprise/sm_watchdog.c:204-223 sm_watchdog_cleanup, from the join on]
    None: the join has not returned, or there is no thread to join, which C leaves
    undefined. *)
Definition cleanup_join (w : watchdog_context_t) : option watchdog_context_t :=
  if negb (initialized w) then Some w
  else match keepalive_thread w with
       | Some Ended => Some (mk_wd 0 None false false 0 0 0 (device_timeout w)
                               (if 0 <=? watchdog_fd w then List.remove Z.eq_dec (watchdog_fd w) (open_fds w) else open_fds w))
       | _ => None
       end.

(** ** What it does *)

(** The steps of the thread with what the device and the clock say. *)
Definition thread_steps (l : list (bool * Z)) (w : watchdog_context_t) : watchdog_context_t :=
  fold_left (fun w '(wrote, now) => watchdog_thread_main wrote now w) l w.

(** A stop ends the thread within three of its steps, whatever the device says, and the
    join then returns with the device closed and the state cleared. *)
Lemma cleanup_ends w a b c t1 t2 t3 th : initialized w = true -> 0 <= watchdog_fd w -> keepalive_thread w = Some th ->
  exists w', cleanup_join (thread_steps [(a, t1); (b, t2); (c, t3)] (cleanup_stop w)) = Some w' /\
    initialized w' = false /\ thread_running w' = false /\ keepalive_thread w' = None /\ watchdog_fd w ∉ open_fds w'.
Proof.
  intros Hi Hfd Hth. unfold cleanup_stop. rewrite Hi. destruct w as [fd k r i tk tf lt dt op]. cbn in *. subst i k.
  assert (Hnot : forall l, fd ∉ List.remove Z.eq_dec fd l).
  { intros l Hin%list_elem_of_In. by apply (remove_In Z.eq_dec l fd). }
  destruct (Z.leb_spec 0 fd) as [Hle|]; [|lia]. assert (Hlt : (fd <? 0) = false) by lia.
  destruct th, a, b, c; unfold watchdog_thread_main, sm_watchdog_keepalive, cleanup_join; cbn; rewrite ?Hlt; cbn;
    rewrite ?Hlt; cbn; apply Z.leb_le in Hle; rewrite ?Hle; eexists; split_and!; done || apply Hnot.
Qed.

(** Every failed keepalive of the thread is counted twice, one of another thread once. *)
Lemma thread_failures_twice w t1 t2 : initialized w = true -> 0 <= watchdog_fd w -> keepalive_thread w = Some Asleep ->
  0 <= total_failures w < 2 ^ 63 ->
  total_failures (thread_steps [(false, t1); (false, t2)] w) = total_failures w + 2 /\
  total_failures (sm_watchdog_keepalive false t1 w).2 = total_failures w + 1.
Proof.
  intros Hi Hfd Hth Hf. destruct w as [fd k r i tk tf lt dt op]. cbn in *. subst. assert (Hlt : (fd <? 0) = false) by lia.
  unfold watchdog_thread_main, sm_watchdog_keepalive. cbn. rewrite Hlt. cbn -[wrap].
  split; [|apply wrap_small; lia]. rewrite wrap_add, wrap_small; lia.
Qed.

(** Without a device the initialisation succeeds, and the cleanup then joins a thread that
    was never created. *)
Lemma no_device_no_join fd set created w : initialized w = false -> fd < 0 ->
  let '(rc, w') := sm_watchdog_init true fd set created w in
  rc = 0 /\ keepalive_thread w' = None /\ forall l, cleanup_join (thread_steps l (cleanup_stop w')) = None.
Proof.
  intros Hi Hfd. unfold sm_watchdog_init. rewrite Hi. cbn [negb]. assert (Hlt : (fd <? 0) = true) by lia. rewrite Hlt.
  split_and!; [done..|]. intros l. unfold cleanup_stop. cbn [initialized].
  enough (Hs : forall w0, initialized w0 = true -> keepalive_thread w0 = None -> cleanup_join (thread_steps l w0) = None) by by apply Hs.
  induction l as [|[a t] l IH]; intros w0 H1 H2; [unfold cleanup_join; cbn; by rewrite H1, H2|].
  cbn [thread_steps fold_left]. unfold watchdog_thread_main at 2. rewrite H2. by apply IH.
Qed.

(** A timeout below the five seconds between two keepalives is accepted. *)
Lemma short_timeout_accepted w t : initialized w = true -> 0 <= watchdog_fd w -> 0 < t < WATCHDOG_KEEPALIVE_INTERVAL_S ->
  (sm_watchdog_set_timeout true t w).1 = 0 /\ device_timeout (sm_watchdog_set_timeout true t w).2 < WATCHDOG_KEEPALIVE_INTERVAL_S.
Proof.
  intros Hi Hfd Ht. unfold sm_watchdog_set_timeout, WATCHDOG_KEEPALIVE_INTERVAL_S in *. rewrite Hi.
  destruct (Z.leb_spec t 0), (Z.ltb_spec 3600 t), (Z.ltb_spec (watchdog_fd w) 0); try lia. cbn. lia.
Qed.
