(* ===== verification/Collectors.v ===== *)
(** * The monitor's collectors (monitoring/collectors)

    The framework of collector_base.c, a thread per collector with its state machine, and the
    two collectors that look at processes, collector_processes.c and collector_sm.c. *)

From S2P Require Import Prelude CText Float64.

(** ** A collector *)

(** [dev/monitoring/protocol/monitor_ipc_protocol.h:92-99 collector_state_t] *)
Inductive collector_state_t := WAITING | CONNECTING | SYNCING | LIVE | STALE | OFFLINE.

Definition COLLECTOR_TABLE_MAX : nat := 16.
Definition MON_STAGGER_DELAY_MS : Z := 200.

(** [dev/monitoring/collectors/collector_base.h:61-91 struct collector] [has_connect], [has_tick],
    [has_disconnect]: the callbacks are set. *)
Record collector_t := mk_col {
  c_name : string; c_index : Z; interval_ms : Z; retry_ms : Z; last_update_ms : Z; c_state : collector_state_t;
  last_state_change_ms : Z; last_offline_ms : Z; collect_count : Z; error_count : Z; consecutive_errors : Z;
  has_connect : bool; has_tick : bool; has_disconnect : bool
}.

(** [dev/monitoring/collectors/collector_base.c:30-33 collector_set_state] *)
Definition collector_set_state (now : Z) (st : collector_state_t) (c : collector_t) : collector_t :=
  mk_col (c_name c) (c_index c) (interval_ms c) (retry_ms c) (last_update_ms c) st now (last_offline_ms c)
    (collect_count c) (error_count c) (consecutive_errors c) (has_connect c) (has_tick c) (has_disconnect c).

(** [dev/monitoring/collectors/collector_base.c:35-49 collector_sleep_ms] [flags]: the stop flag as it
    is read, before each chunk of at most 50 ms and at the end; None: the list is too
    short. *)
Fixpoint collector_sleep_ms (slept ms : Z) (flags : list bool) : option bool :=
  match flags with
  | [] => None
  | stop :: flags =>
      if slept <? ms then
        if stop : bool then Some true
        else collector_sleep_ms (slept + (if ms - slept <? 50 then ms - slept else 50)) ms flags
      else Some stop
  end.

(** The calls a thread makes, with the results of the callbacks. *)
Inductive collector_call := Connect (rc : Z) | Tick (rc : Z) | Disconnect.
Definition disconnect (c : collector_t) : list collector_call := if has_disconnect c then [Disconnect] else [].

(** What a turn of the loop meets: the stop flag at its test, the results of the callbacks,
    the readings of the clock in their order, the stop flag while it sleeps. *)
Record turn := mk_turn { t_stop : bool; t_connect : Z; t_tick : Z; t_clock : nat -> Z; t_sleep : list bool }.

(** [dev/monitoring/collectors/collector_base.c:103-122 collector_thread, the tick] the collector and
    the calls that were made. *)
Definition run_tick (e : turn) (c : collector_t) : collector_t * list collector_call :=
  if negb (has_tick c) then (c, [])
  else if t_tick e =? 0 then
    let c := mk_col (c_name c) (c_index c) (interval_ms c) (retry_ms c) (t_clock e 2) (c_state c) (last_state_change_ms c)
               (last_offline_ms c) (u64 (collect_count c + 1)) (error_count c) 0 (has_connect c) (has_tick c) (has_disconnect c) in
    (match c_state c with STALE => collector_set_state (t_clock e 3) LIVE c | _ => c end, [Tick 0])
  else
    let c := mk_col (c_name c) (c_index c) (interval_ms c) (retry_ms c) (last_update_ms c) (c_state c) (last_state_change_ms c)
               (last_offline_ms c) (collect_count c) (u64 (error_count c + 1)) (u32 (consecutive_errors c + 1))
               (has_connect c) (has_tick c) (has_disconnect c) in
    if 3 <=? consecutive_errors c then
      (mk_col (c_name c) (c_index c) (interval_ms c) (retry_ms c) (last_update_ms c) OFFLINE (t_clock e 3) (t_clock e 2)
         (collect_count c) (error_count c) (consecutive_errors c) (has_connect c) (has_tick c) (has_disconnect c),
       Tick (t_tick e) :: disconnect c)
    else (c, [Tick (t_tick e)]).

(** [dev/monitoring/collectors/collector_base.c:72-140 collector_thread, the switch] whether the thread
    goes on, the collector, the calls; None: it sleeps on. *)
Definition collector_turn (e : turn) (c : collector_t) : option (bool * collector_t * list collector_call) :=
  match c_state c with
  | WAITING =>
      stop ← collector_sleep_ms 0 (retry_ms c) (t_sleep e);
      Some (if stop : bool then (false, c, []) else (true, collector_set_state (t_clock e 0) CONNECTING c, []))
  | CONNECTING | SYNCING =>
      if negb (has_connect c) then Some (true, collector_set_state (t_clock e 0) LIVE c, [])
      else if t_connect e =? 0 then Some (true, collector_set_state (t_clock e 0) LIVE c, [Connect 0])
      else
        stop ← collector_sleep_ms 0 (retry_ms c) (t_sleep e);
        Some (negb stop, c, [Connect (t_connect e)])
  | LIVE | STALE =>
      let late := match c_state c with
                  | LIVE => negb (last_update_ms c =? 0) && (u64 (interval_ms c) * 3 <? u64 (t_clock e 0 - last_update_ms c))
                  | _ => false
                  end in
      let c := if late then collector_set_state (t_clock e 1) STALE c else c in
      let '(c, calls) := run_tick e c in
      _ ← match t_sleep e with
          | true :: _ => Some true       (** stopped: it does not sleep *)
          | flags => collector_sleep_ms 0 (interval_ms c) (tail flags)
          end;
      Some (true, c, calls)
  | OFFLINE =>
      stop ← collector_sleep_ms 0 (retry_ms c) (t_sleep e);
      Some (if stop : bool then (false, c, disconnect c) else (true, collector_set_state (t_clock e 0) WAITING c, disconnect c))
  end.

(** [dev/monitoring/collectors/collector_base.c:71-141 collector_thread, the loop] *)
Fixpoint collector_loop (es : list turn) (c : collector_t) : option (collector_t * list collector_call) :=
  match es with
  | [] => None
  | e :: es =>
      if t_stop e then Some (c, [])
      else
        '(on, c, calls) ← collector_turn e c;
        if negb on then Some (c, calls)
        else '(c, more) ← collector_loop es c; Some (c, calls ++ more)
  end.

(** [dev/monitoring/collectors/collector_base.c:59-149 collector_thread] [stagger]: the stop flag while
    the start is delayed; [now0], [now1]: the times of the first and the last change of
    state. *)
Definition collector_thread (stagger : list bool) (now0 now1 : Z) (es : list turn) (c : collector_t)
    : option (collector_t * list collector_call) :=
  stopped ← collector_sleep_ms 0 (c_index c * MON_STAGGER_DELAY_MS) stagger;
  '(c, calls) ← (if stopped : bool then Some (c, []) else collector_loop es (collector_set_state now0 CONNECTING c));
  Some (collector_set_state now1 OFFLINE c, calls ++ disconnect c).

(** ** The table *)

(** [dev/monitoring/collectors/collector_base.c:154-163 collector_register] *)
Definition collector_register (c : collector_t) (t : list collector_t) : Z * list collector_t :=
  if (COLLECTOR_TABLE_MAX <=? length t)%nat then (-1, t)
  else (0, t ++ [mk_col (c_name c) (Z.of_nat (length t)) (interval_ms c) (if retry_ms c =? 0 then 2000 else retry_ms c)
                   (last_update_ms c) WAITING (last_state_change_ms c) (last_offline_ms c) (collect_count c) (error_count c)
                   (consecutive_errors c) (has_connect c) (has_tick c) (has_disconnect c)]).

(** [dev/monitoring/collectors/collector_base.c:165-184 collector_start_all] [create]: memory and a
    thread for each; the code and how many threads run. *)
Fixpoint collector_start_all (create : nat -> bool * bool) (i : nat) (t : list collector_t) : Z * nat :=
  match t with
  | [] => (0, i)
  | _ :: t => let '(mem, thread) := create i in
              if negb mem then (-1, i) else if negb thread then (-1, i) else collector_start_all create (S i) t
  end.

(** What becomes of a thread at the stop. *)
Inductive stopped := Joined | Cancelled | GivenUp.

(** [dev/monitoring/collectors/collector_base.c:186-216 collector_stop_all] [start]: the clock at first;
    for each thread the clock and whether it ends within what is left. *)
Definition collector_stop_all (timeout_ms start : Z) (threads : list (Z * bool)) : list stopped :=
  let deadline := u64 (start + timeout_ms) in
  (fun '(now, ends) =>
     if 0 <? timeout_ms
     then if deadline <=? now then Cancelled else if ends : bool then Joined else GivenUp
     else Joined) <$> threads.

Definition is_offline (s : collector_state_t) : bool := match s with LIVE | STALE => false | _ => true end.
Definition count_state (p : collector_state_t -> bool) (l : list collector_t) : Z :=
  Z.of_nat (length (List.filter (fun c => p (c_state c)) l)).

(** [dev/monitoring/collectors/collector_base.c:220-261 collector_get_info_all] what is written of each,
    and how many are live, stale and offline. *)
Definition collector_get_info_all (max : nat) (t : list collector_t) : list (string * collector_state_t * Z * Z * Z * Z * Z) * Z * Z * Z :=
  let l := take max t in
  ((fun c => (strncpy_z 31 (c_name c), c_state c, interval_ms c, last_update_ms c, collect_count c, error_count c, last_offline_ms c)) <$> l,
   count_state (fun s => match s with LIVE => true | _ => false end) l,
   count_state (fun s => match s with STALE => true | _ => false end) l,
   count_state is_offline l).

(** ** The contract of the callbacks *)

(** What the callbacks may rely on: connected or not, and the failed ticks since the last
    disconnect or success. *)
Record link := mk_link { connected : bool; fails : Z }.

(** A connection is made only when there is none, a tick only over one, and at most three
    ticks fail in a row. *)
Fixpoint accepts (l : link) (calls : list collector_call) : option link :=
  match calls with
  | [] => Some l
  | Connect rc :: calls => if connected l then None else accepts (mk_link (rc =? 0) (fails l)) calls
  | Tick rc :: calls =>
      if negb (connected l) then None
      else if rc =? 0 then accepts (mk_link true 0) calls
      else if 3 <=? fails l then None else accepts (mk_link true (fails l + 1)) calls
  | Disconnect :: calls => accepts (mk_link false 0) calls
  end.

Definition succeeded (calls : list collector_call) : Z :=
  Z.of_nat (length (List.filter (fun c => match c with Tick 0 => true | _ => false end) calls)).
Definition failed (calls : list collector_call) : Z :=
  Z.of_nat (length (List.filter (fun c => match c with Tick 0 => false | Tick _ => true | _ => false end) calls)).

Definition is_up (s : collector_state_t) : bool := match s with LIVE | STALE => true | _ => false end.

(** Long enough sleeps for the flag to be read at their end. *)
Definition rested (c : collector_t) (e : turn) : Prop :=
  (2 <= length (t_sleep e))%nat /\ retry_ms c <= 50 * (Z.of_nat (length (t_sleep e)) - 2) /\ interval_ms c <= 50 * (Z.of_nat (length (t_sleep e)) - 2).

Record linked (l : link) (c : collector_t) : Prop := mk_linked {
  lk_connect : has_connect c = true; lk_tick : has_tick c = true; lk_disconnect : has_disconnect c = true;
  lk_up : connected l = is_up (c_state c);
  lk_fails : 0 <= fails l <= consecutive_errors c;
  lk_down : is_up (c_state c) = false -> fails l = 0;
  lk_three : fails l < 3;
  lk_counts : 0 <= collect_count c < 2 ^ 64 /\ 0 <= error_count c < 2 ^ 64
}.

(** What a turn changes of the collector. *)
Record advanced (c c' : collector_t) (calls : list collector_call) : Prop := mk_advanced {
  ad_same : (has_connect c', has_tick c', has_disconnect c') = (has_connect c, has_tick c, has_disconnect c) /\
            retry_ms c' = retry_ms c /\ interval_ms c' = interval_ms c;
  ad_collect : collect_count c' = u64 (collect_count c + succeeded calls);
  ad_errors : error_count c' = u64 (error_count c + failed calls);
  ad_consecutive : consecutive_errors c' <= consecutive_errors c + 1
}.

Lemma sleep_returns ms flags : forall slept, ms - slept <= 50 * (Z.of_nat (length flags) - 1) -> flags <> [] ->
  is_Some (collector_sleep_ms slept ms flags).
Proof.
  induction flags as [|f flags IH]; intros slept Hlen Hne; [done|]. cbn [collector_sleep_ms length] in *.
  destruct (Z.ltb_spec slept ms); [|by eexists]. destruct f; [by eexists|].
  apply IH; [destruct (Z.ltb_spec (ms - slept) 50); lia|]. intros ->. cbn [length] in Hlen. lia.
Qed.

Lemma accepts_app l a b : accepts l (a ++ b) = accepts l a ≫= fun l => accepts l b.
Proof.
  revert l. induction a as [|x a IH]; intros l; [done|]. cbn [app accepts].
  destruct x as [rc|rc|]; [destruct (connected l)|destruct (connected l), (rc =? 0), (3 <=? fails l)|]; cbn [negb]; done || apply IH.
Qed.

Lemma succeeded_app a b : succeeded (a ++ b) = succeeded a + succeeded b.
Proof. unfold succeeded. rewrite List.filter_app, length_app. lia. Qed.
Lemma failed_app a b : failed (a ++ b) = failed a + failed b.
Proof. unfold failed. rewrite List.filter_app, length_app. lia. Qed.

Lemma failed_tick rc : rc <> 0 -> succeeded [Tick rc] = 0 /\ failed [Tick rc] = 1 /\
  succeeded [Tick rc; Disconnect] = 0 /\ failed [Tick rc; Disconnect] = 1.
Proof. by destruct rc. Qed.

(** A turn without a tick: nothing is counted. *)
Lemma quiet_turn c s now calls : succeeded calls = 0 -> failed calls = 0 ->
  0 <= collect_count c < 2 ^ 64 -> 0 <= error_count c < 2 ^ 64 -> advanced c (collector_set_state now s c) calls.
Proof.
  intros H1 H2 Hc He. constructor; cbn; [done|rewrite H1|rewrite H2|lia]; rewrite Z.add_0_r; symmetry; by apply wrap_small.
Qed.
Lemma quiet_same c calls : succeeded calls = 0 -> failed calls = 0 ->
  0 <= collect_count c < 2 ^ 64 -> 0 <= error_count c < 2 ^ 64 -> advanced c c calls.
Proof.
  intros H1 H2 Hc He. constructor; [done|rewrite H1|rewrite H2|lia]; rewrite Z.add_0_r; symmetry; by apply wrap_small.
Qed.

(** The tick: it is made over the connection, and the third failure in a row ends it. *)
Lemma tick_linked e c l : linked l c -> is_up (c_state c) = true -> consecutive_errors c + 1 < 2 ^ 32 ->
  let '(c', calls) := run_tick e c in
  exists l', accepts l calls = Some l' /\ linked l' c' /\ advanced c c' calls.
Proof.
  intros [Hcn Htk Hds Hup Hf Hdown H3 [Hcc Hec]] Hs Hb. unfold run_tick. rewrite Htk. cbn [negb]. rewrite Hs in Hup.
  destruct (Z.eqb_spec (t_tick e) 0) as [Ht|Ht].
  - eexists. cbn [accepts]. rewrite Hup. cbn [negb Z.eqb]. split; [done|].
    assert (Hr : 0 <= u64 (collect_count c + 1) < 2 ^ 64) by (by apply wrap_range).
    destruct (c_state c) eqn:Hst; try done; (split; [constructor; cbn; rewrite ?Hst; done || lia|
      constructor; cbn; [by rewrite Htk|done|rewrite Z.add_0_r; symmetry; by apply wrap_small|lia]]).
  - destruct (failed_tick (t_tick e) Ht) as (S1 & F1 & S2 & F2). cbn [consecutive_errors].
    rewrite (wrap_small 32) by lia. assert (Hr : 0 <= u64 (error_count c + 1) < 2 ^ 64) by (by apply wrap_range).
    destruct (Z.leb_spec 3 (consecutive_errors c + 1)); cbn [has_disconnect disconnect].
    + unfold disconnect. cbn [has_disconnect]. rewrite Hds. eexists. cbn [accepts]. rewrite Hup. apply Z.eqb_neq in Ht as Ht'. rewrite Ht'. cbn [negb].
      destruct (Z.leb_spec 3 (fails l)); [lia|]. split; [done|]. split; [constructor; cbn; done || lia|].
      constructor; cbn [has_connect has_tick has_disconnect retry_ms interval_ms collect_count error_count consecutive_errors];
        [by rewrite ?Htk, ?Hds|rewrite S2, Z.add_0_r; symmetry; by apply wrap_small|by rewrite F2|lia].
    + eexists. cbn [accepts]. rewrite Hup. apply Z.eqb_neq in Ht as Ht'. rewrite Ht'. cbn [negb].
      destruct (Z.leb_spec 3 (fails l)); [lia|]. split; [done|].
      split; [constructor; cbn; rewrite ?Hs; done || lia|].
      constructor; cbn [has_connect has_tick has_disconnect retry_ms interval_ms collect_count error_count consecutive_errors];
        [by rewrite ?Htk|rewrite S1, Z.add_0_r; symmetry; by apply wrap_small|by rewrite F1|lia].
Qed.

(** A turn keeps the contract, and says whether the connection is up at its end. *)
Lemma turn_linked e c l on c' calls : linked l c -> consecutive_errors c + 1 < 2 ^ 32 ->
  collector_turn e c = Some (on, c', calls) ->
  exists l', accepts l calls = Some l' /\ linked l' c' /\ advanced c c' calls /\ (on = false -> connected l' = false).
Proof.
  intros Hl Hb Ht. pose proof Hl as [Hcn Htk Hds Hup Hf Hdown H3 [Hcc Hec]]. unfold collector_turn in Ht.
  assert (Hset : forall s now, is_up s = is_up (c_state c) -> linked l (collector_set_state now s c)).
  { intros s now Hs. constructor; cbn; rewrite ?Hs; done. }
  destruct (c_state c) eqn:Hst.
  - destruct (collector_sleep_ms 0 (retry_ms c) (t_sleep e)) as [[|]|]; [| |done]; cbn in Ht; injection Ht as <- <- <-; exists l.
    + split_and!; [done|done|by apply quiet_same|by intros _; rewrite Hup].
    + split_and!; [done|by apply Hset|by apply quiet_turn|done].
  - rewrite Hcn in Ht. cbn [negb] in Ht. destruct (Z.eqb_spec (t_connect e) 0) as [Hc|Hc].
    + injection Ht as <- <- <-. eexists. cbn [accepts]. rewrite Hup. cbn. split_and!; [done| |by apply quiet_turn|done].
      constructor; cbn; done || (by rewrite Hdown by done) || lia.
    + destruct (collector_sleep_ms 0 (retry_ms c) (t_sleep e)) as [st|]; [|done]. cbn in Ht. injection Ht as <- <- <-.
      eexists. cbn [accepts]. rewrite Hup. apply Z.eqb_neq in Hc. rewrite Hc. cbn [is_up].
      split_and!; [done| |by apply quiet_same|done]. by constructor; cbn; rewrite ?Hst.
  - rewrite Hcn in Ht. cbn [negb] in Ht. destruct (Z.eqb_spec (t_connect e) 0) as [Hc|Hc].
    + injection Ht as <- <- <-. eexists. cbn [accepts]. rewrite Hup. cbn. split_and!; [done| |by apply quiet_turn|done].
      constructor; cbn; done || (by rewrite Hdown by done) || lia.
    + destruct (collector_sleep_ms 0 (retry_ms c) (t_sleep e)) as [st|]; [|done]. cbn in Ht. injection Ht as <- <- <-.
      eexists. cbn [accepts]. rewrite Hup. apply Z.eqb_neq in Hc. rewrite Hc. cbn [is_up].
      split_and!; [done| |by apply quiet_same|done]. by constructor; cbn; rewrite ?Hst.
  - set (late := negb (last_update_ms c =? 0) && _) in Ht.
    assert (Hl1 : linked l (if late then collector_set_state (t_clock e 1) STALE c else c)) by (destruct late; [by apply Hset|done]).
    assert (Hup1 : is_up (c_state (if late then collector_set_state (t_clock e 1) STALE c else c)) = true) by (destruct late; cbn; by rewrite ?Hst).
    pose proof (tick_linked e _ l Hl1 Hup1 ltac:(destruct late; done)) as Htick.
    destruct (run_tick e _) as [c1 cs]. destruct Htick as (l' & Ha & Hl' & Had).
    assert (Hres : c' = c1 /\ calls = cs /\ on = true).
    { destruct (t_sleep e) as [|[|] fl]; cbn in Ht; [done|by injection Ht|]. destruct (collector_sleep_ms _ _ fl); [by injection Ht|done]. }
    destruct Hres as (-> & -> & ->). exists l'. split_and!; [done|done| |done].
    destruct late; [|done]. destruct Had as [A1 A2 A3 A4]. by constructor.
  - pose proof (tick_linked e c l Hl ltac:(by rewrite Hst) Hb) as Htick.
    destruct (run_tick e c) as [c1 cs]. destruct Htick as (l' & Ha & Hl' & Had).
    assert (Hres : c' = c1 /\ calls = cs /\ on = true).
    { destruct (t_sleep e) as [|[|] fl]; cbn in Ht; [done|by injection Ht|]. destruct (collector_sleep_ms _ _ fl); [by injection Ht|done]. }
    destruct Hres as (-> & -> & ->). by exists l'.
  - unfold disconnect in Ht. rewrite Hds in Ht. assert (Hl0 : linked (mk_link false 0) c) by (constructor; rewrite ?Hst; cbn; done || lia).
    destruct (collector_sleep_ms 0 (retry_ms c) (t_sleep e)) as [[|]|]; [| |done]; cbn in Ht; injection Ht as <- <- <-; exists (mk_link false 0).
    + split_and!; [done|done|by apply quiet_same|done].
    + split_and!; [done| |by apply quiet_turn|done]. constructor; cbn; done || lia.
Qed.

Lemma run_tick_interval e c : interval_ms (run_tick e c).1 = interval_ms c.
Proof.
  unfold run_tick. destruct (has_tick c); [|done]. cbn [negb]. destruct (t_tick e =? 0); [by destruct (c_state c)|].
  by destruct (3 <=? _).
Qed.

Record loop_done (l : link) (c c' : collector_t) (calls : list collector_call) : Prop := mk_loop_done {
  ld_calls : exists l', accepts l calls = Some l';
  ld_disconnect : has_disconnect c' = true;
  ld_collect : collect_count c' = u64 (collect_count c + succeeded calls);
  ld_errors : error_count c' = u64 (error_count c + failed calls)
}.

Lemma loop_linked es : forall c l, linked l c -> consecutive_errors c + Z.of_nat (length es) < 2 ^ 32 ->
  match collector_loop es c with
  | Some (c', calls) => loop_done l c c' calls
  | None => True
  end /\ (Forall (rested c) es -> Exists (fun e => t_stop e = true) es -> is_Some (collector_loop es c)).
Proof.
  induction es as [|e es IH]; intros c l Hl Hb; [split; [done|]; intros _ Hx; by inversion Hx|]. cbn [collector_loop length] in *.
  destruct (t_stop e) eqn:Hstop.
  { split; [|by eexists]. destruct Hl as [Hcn Htk Hds Hup Hf Hdown H3 [Hcc Hec]].
    constructor; [by exists l|done|..]; unfold succeeded, failed; cbn; rewrite Z.add_0_r; symmetry; by apply wrap_small. }
  destruct (collector_turn e c) as [[[on c1] cs]|] eqn:Ht; cbn [mbind option_bind].
  2: { split; [done|]. intros Hr _. exfalso. apply Forall_cons in Hr as [(R0 & R1 & R2) _]. revert Ht. unfold collector_turn.
       destruct (sleep_returns (retry_ms c) (t_sleep e) 0) as [st1 S1]; [lia|intros H0; rewrite H0 in R0; cbn in R0; lia|].
       rewrite S1. destruct (t_sleep e) as [|f fl] eqn:Hfl; [done|].
       destruct (sleep_returns (interval_ms c) fl 0) as [st2 S2]; [cbn [length] in R2; lia|intros ->; cbn in R0; lia|].
       destruct (c_state c).
       - by destruct st1.
       - destruct (has_connect c); cbn; [|done]. by destruct (t_connect e =? 0).
       - destruct (has_connect c); cbn; [|done]. by destruct (t_connect e =? 0).
       - match goal with |- context [run_tick e ?x] => pose proof (run_tick_interval e x) as Hi; destruct (run_tick e x) as [c2 cs2] end.
         cbn. destruct f; [done|]. replace (interval_ms c2) with (interval_ms c); [by rewrite S2|].
         cbn in Hi. rewrite Hi. by destruct (_ && _).
       - pose proof (run_tick_interval e c) as Hi. destruct (run_tick e c) as [c2 cs2]. cbn in *.
         destruct f; [done|]. by rewrite Hi, S2.
       - by destruct st1. }
  destruct (turn_linked e c l on c1 cs Hl ltac:(lia) Ht) as (l1 & Ha1 & Hl1 & Had & Hon).
  destruct on; cbn [negb].
  - destruct Had as [(A1 & A1' & A1'') A2 A3 A4]. destruct (IH c1 l1 Hl1 ltac:(lia)) as [IH1 IH2]. split.
    + destruct (collector_loop es c1) as [[c2 more]|]; cbn [mbind option_bind]; [|done].
      destruct IH1 as [[l2 Hl2] B1 B2 B3]. constructor; [exists l2; by rewrite accepts_app, Ha1|done|..].
      * rewrite B2, A2, wrap_add, succeeded_app. f_equal. lia.
      * rewrite B3, A3, wrap_add, failed_app. f_equal. lia.
    + intros Hr Hx. apply Forall_cons in Hr as [_ Hr]. apply Exists_cons in Hx as [Hx|Hx]; [congruence|].
      destruct IH2 as [[c2 more] ->]; [|done|by eexists]. eapply Forall_impl; [exact Hr|]. unfold rested. by rewrite A1', A1''.
  - split; [|by eexists]. destruct Had as [(A1 & _) A2 A3 A4]. destruct Hl1. constructor; [by exists l1|done..].
Qed.

(** C37: What a collector's thread does with its callbacks, whatever they return and whenever it
    is stopped: it connects only when it is not connected, ticks only over a connection, and
    after at most three failed ticks in a row disconnects; its last call is a disconnect and
    its last state OFFLINE; its counters have advanced by the ticks that succeeded and that
    failed; and once a stop is seen at the loop's test, if the sleeps end, the thread has
    ended. *)
Theorem collector_contract stagger now0 now1 es c :
  has_connect c = true -> has_tick c = true -> has_disconnect c = true ->
  0 <= collect_count c < 2 ^ 64 -> 0 <= error_count c < 2 ^ 64 -> 0 <= consecutive_errors c ->
  consecutive_errors c + Z.of_nat (length es) < 2 ^ 32 ->
  match collector_thread stagger now0 now1 es c with
  | Some (c', calls) =>
      accepts (mk_link false 0) calls = Some (mk_link false 0) /\ last calls = Some Disconnect /\ c_state c' = OFFLINE /\
      collect_count c' = u64 (collect_count c + succeeded calls) /\ error_count c' = u64 (error_count c + failed calls)
  | None => True
  end /\
  (stagger <> [] -> c_index c * MON_STAGGER_DELAY_MS <= 50 * (Z.of_nat (length stagger) - 1) ->
   Forall (rested c) es -> Exists (fun e => t_stop e = true) es -> is_Some (collector_thread stagger now0 now1 es c)).
Proof.
  intros Hcn Htk Hds Hcc Hec Hc0 Hb. unfold collector_thread.
  set (c0 := collector_set_state now0 CONNECTING c).
  destruct (loop_linked es c0 (mk_link false 0)) as [H1 H2]; [constructor; cbn; done || lia|done|]. split.
  - destruct (collector_sleep_ms 0 _ stagger) as [[|]|]; cbn [mbind option_bind]; [| |done].
    + unfold disconnect. rewrite Hds. cbn. unfold succeeded, failed. cbn. rewrite !Z.add_0_r.
      split_and!; [done..|symmetry; by apply wrap_small|symmetry; by apply wrap_small].
    + destruct (collector_loop es c0) as [[c1 calls]|]; cbn [mbind option_bind]; [|done].
      destruct H1 as [[l' Hl] Hd Hcol Herr]. unfold disconnect. rewrite Hd. rewrite accepts_app, Hl, last_snoc, succeeded_app, failed_app.
      cbn -[wrap]. unfold succeeded at 2, failed at 2. cbn -[wrap]. rewrite !Z.add_0_r. done.
  - intros Hs Hst Hr Hx. destruct (sleep_returns (c_index c * MON_STAGGER_DELAY_MS) stagger 0) as [st ->]; [lia|done|].
    cbn [mbind option_bind]. destruct st; [by eexists|]. destruct (H2 Hr Hx) as [[c1 calls] ->]. by eexists.
Qed.

(** ** What else there is to know *)

Definition tick_turn (rc : Z) : turn := mk_turn false 0 rc (fun _ => 7) [false; false; false].
Definition stop_turn : turn := mk_turn true 0 0 (fun _ => 9) [].
Definition sample_collector : collector_t := mk_col "sm" 0 50 50 0 WAITING 0 0 0 0 0 true true true.
Definition bad_day : list turn :=
  [tick_turn 0; tick_turn (-1); tick_turn (-1); tick_turn (-1); tick_turn 0; tick_turn 0; tick_turn 0; tick_turn (-1); stop_turn].

Lemma collector_contract_witness :
  exists c' calls, collector_thread [false] 1 2 bad_day sample_collector = Some (c', calls) /\
    accepts (mk_link false 0) calls = Some (mk_link false 0) /\ c_state c' = OFFLINE /\ error_count c' = u64 (0 + failed calls).
Proof.
  destruct (collector_contract [false] 1 2 bad_day sample_collector) as [H _];
    [done|done|done|cbn; lia|cbn; lia|cbn; lia|cbn; lia|].
  destruct (collector_thread [false] 1 2 bad_day sample_collector) as [[c' calls]|] eqn:Ht; [|by vm_compute in Ht].
  destruct H as (H1 & _ & H2 & _ & H3). exists c', calls. split; [reflexivity|]. split; [exact H1|]. split; [exact H2|exact H3].
Defined.

(** Three failures are followed by two disconnects, and a new connection does not forget them:
    its first failure ends it. *)
Lemma errors_survive_reconnect :
  snd <$> collector_thread [false] 1 2 bad_day sample_collector =
  Some [Connect 0; Tick (-1); Tick (-1); Tick (-1); Disconnect; Disconnect; Connect 0; Tick (-1); Disconnect; Disconnect].
Proof. by vm_compute. Qed.

(** With a time limit the stop may leave threads that run on; the state they use is then
    destroyed. *)
Lemma stop_may_leave_threads start now : start < now < 2 ^ 64 - 5000 -> 0 <= start -> now < start + 5000 ->
  collector_stop_all 5000 start [(now, false); (start + 5000, true)] = [GivenUp; Cancelled].
Proof.
  intros H1 H2 H3. unfold collector_stop_all. rewrite wrap_small by lia. cbn [fmap list_fmap]. change (0 <? 5000) with true. cbn match.
  destruct (Z.leb_spec (start + 5000) now), (Z.leb_spec (start + 5000) (start + 5000)); try lia. done.
Qed.

(** Every collector listed is counted once. *)
Lemma info_counts max t : let '(l, live, stale, offline) := collector_get_info_all max t in
  live + stale + offline = Z.of_nat (length l).
Proof.
  unfold collector_get_info_all, count_state. rewrite length_fmap. induction (take max t) as [|c l IH]; [done|].
  cbn [List.filter length]. destruct (c_state c); cbn [is_offline length]; lia.
Qed.
