(* ===== verification/ProcessCollectors.v ===== *)
(** * The collectors of processes (collectors/collector_processes.c, collectors/collector_sm.c)

    The search of /proc for a service by its command line, the use of the processor between
    two looks, and the ticks that fill the table of services.  What /proc holds is an
    argument. *)

From S2P Require Import Prelude CText Float64.

(** A directory entry of /proc: its name and what is read of its cmdline up to the first NUL
    (None: it cannot be opened, or is empty). *)
Definition proc_listing : Type := list (string * option string).

(** [strstr]. *)
Definition contains (pat s : string) : bool := match String.index 0 pat s with Some _ => true | None => false end.
Definition numeric_first (nm : string) : bool :=
  match nm with String c _ => (48 <=? byte_of c) && (byte_of c <=? 57) | EmptyString => false end.

(** [dev/monitoring/collectors/collector_processes.c:28-55 find_process_by_name] None for the list: /proc
    cannot be opened. *)
Definition find_process_by_name (nm : string) (proc : option proc_listing) : Z :=
  match proc ≫= List.find (fun '(entry, cmd) => numeric_first entry && match cmd with Some t => contains nm t | None => false end) with
  | Some (entry, _) => atoi entry
  | None => 0
  end.

(** [dev/monitoring/collectors/collector_sm.c:23-51 find_servicemanager_pid] *)
Definition find_servicemanager_pid (proc : option proc_listing) : Z :=
  match proc ≫= List.find (fun '(entry, cmd) => numeric_first entry &&
          match cmd with Some t => contains "sm_daemon" t || contains "servicemanager" t || contains "bankai" t | None => false end) with
  | Some (entry, _) => atoi entry
  | None => 0
  end.

(** Arithmetic on [float]. *)
Definition fmul (a b : double) : double := to_float (dmul a b).
Definition fdiv (a b : double) : double := to_float (ddiv a b).
Definition f_of_Z (z : Z) : double := binary_normalize 24 128 z 0 false.

(** The earlier times in user mode and system mode, and the earlier clock. *)
Definition prev_times : Type := Z * Z * Z.

(** The use of the processor in percent, from ticks used and passed. *)
Definition usage (proc_delta time_delta : Z) : double := fdiv (fmul (f_of_Z 100) (f_of_Z proc_delta)) (f_of_Z time_delta).

(** [dev/monitoring/collectors/collector_processes.c:58-104 read_process_stats] [stat]: None when it
    cannot be opened, Some None when it cannot be parsed, else times and pages; [uptime]:
    what is read of /proc/uptime.  The code, and memory, usage and earlier times after it. *)
Definition read_process_stats (stat : option (option (Z * Z * Z))) (page clk : Z) (uptime : option double)
    (rss : Z) (cpu : double) (prev : prev_times) : Z * Z * double * prev_times :=
  match stat with
  | None => (-1, rss, cpu, prev)
  | Some None => (0, rss, cpu, prev)
  | Some (Some (utime, stime, pages)) =>
      let '(pu, ps, pt) := prev in
      let now := (fun u => u64 (d_trunc (dmul u (d_of_Z clk)))) <$> uptime in
      let cpu := if 0 <? pt
                 then match now with
                      | Some t => if 0 <? u64 (t - pt) then usage (u64 (u64 (utime + stime) - u64 (pu + ps))) (u64 (t - pt)) else cpu
                      | None => cpu
                      end
                 else d0 in
      (0, u64 (pages * page), cpu, (utime, stime, default pt now))
  end.

(** [dev/monitoring/collectors/collector_sm.c:54-106 read_proc_stats] the same on the collector's own
    earlier times. *)
Definition read_proc_stats := read_process_stats.

(** A slot of the services table, as far as these collectors fill it. *)
Record service_slot := mk_slot {
  s_name : string; s_pid : Z; running : bool; cpu_pct : double; s_rss : Z; health_score : Z;
  sandbox_ok : bool; caps_ok : bool; verify_ok : bool; seccomp_ok : bool
}.

(** What the kernel answers during a tick. *)
Record proc_env := mk_proc {
  p_list : option proc_listing; p_stat : Z -> option (option (Z * Z * Z)); p_page : Z; p_clk : Z; p_uptime : option double
}.

Definition g_svc_procs : list string := ["audio_service"; "gpio_service"; "sensor_service"]%string.
Definition g_svc_labels : list string := ["AudioSvc"; "GPIOSvc"; "SensorSvc"]%string.

(** [dev/monitoring/collectors/collector_processes.c:119-147 processes_tick, a service] *)
Definition process_slot (e : proc_env) (label proc : string) (prev : prev_times) : service_slot * prev_times :=
  let pid := find_process_by_name proc (p_list e) in
  if 0 <? pid then
    let '(_, rss, cpu, prev) := read_process_stats (p_stat e pid) (p_page e) (p_clk e) (p_uptime e) 0 d0 prev in
    (mk_slot label (u32 pid) true cpu rss 100 true true true true, prev)
  else (mk_slot label 0 false d0 0 0 true true true true, prev).

(** [dev/monitoring/collectors/collector_processes.c:112-152 processes_tick] the slots 1 to 3 and the
    earlier times. *)
Definition processes_tick (e : proc_env) (prevs : list prev_times) : list service_slot * list prev_times :=
  let r := zip_with (fun p prev => process_slot e p.1 p.2 prev) (zip g_svc_labels g_svc_procs) prevs in (fst <$> r, snd <$> r).

(** [dev/monitoring/collectors/collector_sm.c:18-20 sm_pid] with the metrics that the collector writes. *)
Record sm_view := mk_view { sm_pid : Z; sm_prev : prev_times; v_rss : Z; v_cpu : double; registered_services : Z }.

(** [dev/monitoring/collectors/collector_sm.c:108-115 sm_connect] *)
Definition sm_connect (proc : option proc_listing) (v : sm_view) : Z * sm_view :=
  (0, mk_view (find_servicemanager_pid proc) (sm_prev v) (v_rss v) (v_cpu v) (registered_services v)).

(** [dev/monitoring/collectors/collector_sm.c:145-177 sm_tick, the services] how many of the four have a
    process. *)
Definition running_count (proc : option proc_listing) : Z :=
  Z.of_nat (length (List.filter (fun s => match proc with
    | Some l => existsb (fun '(entry, cmd) => numeric_first entry && match cmd with Some t => contains s t | None => false end) l
    | None => false
    end) ["audio_service"; "camera_service"; "gpio_service"; "sensor_service"]%string)).

(** [dev/monitoring/collectors/collector_sm.c:117-202 sm_tick] [alive]: a signal 0 reaches a process;
    [socket]: one of the three paths exists. *)
Definition sm_tick (e : proc_env) (alive : Z -> bool) (socket : bool) (v : sm_view) : service_slot * sm_view :=
  let pid := if (sm_pid v =? 0) || negb (alive (sm_pid v)) then find_servicemanager_pid (p_list e) else sm_pid v in
  let v := mk_view pid (sm_prev v) (v_rss v) (v_cpu v) (registered_services v) in
  let v := if 0 <? pid then
             let '(rc, rss, cpu, prev) := read_proc_stats (p_stat e pid) (p_page e) (p_clk e) (p_uptime e) 0 d0 (sm_prev v) in
             mk_view pid prev (if rc =? 0 then rss else v_rss v) (if rc =? 0 then cpu else v_cpu v)
               (if socket then running_count (p_list e) else registered_services v)
           else v in
  (mk_slot "ServiceManager" (u32 pid) (0 <? pid) (v_cpu v) (v_rss v) (if 0 <? pid then 100 else 0) true true true true, v).

(** [dev/monitoring/collectors/collector_sm.c:204-210 sm_disconnect] *)
Definition sm_disconnect (v : sm_view) : Z * sm_view := (0, mk_view 0 (sm_prev v) (v_rss v) (v_cpu v) (registered_services v)).

(** ** What they show *)

(** A service is shown as running, with full health, exactly if the first process in /proc
    whose command contains its name has a positive number; nothing else enters the score,
    and the four security marks are always set. *)
Lemma slot_meaning e label proc prev : let '(s, _) := process_slot e label proc prev in
  (running s = true <-> 0 < find_process_by_name proc (p_list e)) /\ (health_score s = 100 <-> running s = true) /\
  sandbox_ok s = true /\ caps_ok s = true /\ verify_ok s = true /\ seccomp_ok s = true.
Proof.
  unfold process_slot. destruct (Z.ltb_spec 0 (find_process_by_name proc (p_list e))).
  - destruct (read_process_stats _ _ _ _ _ _ _) as [[[rc rss] cpu] p]. split_and!; done || (split; done || lia).
  - split_and!; done || (split; done || lia).
Qed.

Lemma find_first_none proc nm : (forall entry t, (entry, Some t) ∈ proc -> numeric_first entry = true -> contains nm t = false) ->
  find_process_by_name nm (Some proc) = 0.
Proof.
  intros Hno. unfold find_process_by_name. cbn [mbind option_bind].
  destruct (List.find _ proc) as [[entry cmd]|] eqn:Hf; [|done]. exfalso.
  apply find_some in Hf as [Hin Hb]. apply list_elem_of_In in Hin. apply andb_true_iff in Hb as [Hn Hc].
  destruct cmd as [t|]; [|done]. by rewrite (Hno _ _ Hin Hn) in Hc.
Qed.

(** A service that is not running is shown so. *)
Lemma absent_not_running e label proc prev l : p_list e = Some l ->
  (forall entry t, (entry, Some t) ∈ l -> numeric_first entry = true -> contains proc t = false) ->
  (process_slot e label proc prev).1 = mk_slot label 0 false d0 0 0 true true true true.
Proof. intros Hl Hno. unfold process_slot. rewrite Hl, find_first_none by done. done. Qed.

(** Any program that mentions the name is taken for the service: here an editor. *)
Example editor_is_the_service :
  find_process_by_name "audio_service" (Some [("1", Some "/sbin/init"); ("self", Some "audio_service");
    ("77", Some "/usr/bin/vim-audio_service.c"); ("90", Some "/usr/bin/audio_service")]%string) = 77.
Proof. by vm_compute. Qed.

(** After a restart of the service the new process has used less time than the earlier one
    had: the difference wraps around, and the usage shown is beyond all bounds. *)
Example restart_usage_wraps :
  let '(_, _, cpu, _) := read_process_stats (Some (Some (3, 2, 10))) 4096 100 (Some (d_of_Z 1000)) 0 d0 (500, 200, 99900) in
  dlt (d_of_Z (10 ^ 19)) cpu = true.
Proof. by vm_compute. Qed.
