(* ===== verification/HalDevice.v ===== *)
(** * Hardware devices behind one interface (hal/interface)

    The hardware layers (GpioHal, SensorHal, CameraHal, AudioHal) are drivers
    behind one table of operations.  Here: the state monad the layers are written in,
    the kernel's calls on files as a class, the resources of a process, the driver
    interface with its laws, and what every lawful driver keeps: it gives back what it
    took, whatever its client calls. *)

From S2P Require Import Prelude HalRegistry.

(** ** A state monad *)

Definition M (S A : Type) : Type := S -> A * S.

#[export] Instance M_ret {S} : MRet (M S) := fun A x s => (x, s).
#[export] Instance M_bind {S} : MBind (M S) := fun A B f m s => let '(x, s') := m s in f x s'.

(** What holds after a call. *)
Definition triple {S A} (P : S -> Prop) (m : M S A) (Q : A -> S -> Prop) : Prop :=
  forall s, P s -> Q (m s).1 (m s).2.

Section triples.
Context {S A B : Type}.
Implicit Types P : S -> Prop.

Lemma triple_ret P (x : A) : triple P (mret x) (fun y s => y = x /\ P s).
Proof. by intros s Hs. Qed.

Lemma triple_bind P (Q : A -> S -> Prop) (R : B -> S -> Prop) m f :
  triple P m Q -> (forall x, triple (Q x) (f x) R) -> triple P (m ≫= f) R.
Proof.
  intros Hm Hf s Hs. specialize (Hm s Hs). unfold mbind, M_bind.
  destruct (m s) as [x s']. by apply Hf.
Qed.

Lemma triple_pre P P' (Q : A -> S -> Prop) m : triple P m Q -> (forall s, P' s -> P s) -> triple P' m Q.
Proof. intros Hm Hp s Hs. by apply Hm, Hp. Qed.

Lemma triple_post P (Q Q' : A -> S -> Prop) m :
  triple P m Q -> (forall x s, Q x s -> Q' x s) -> triple P m Q'.
Proof. intros Hm Hq s Hs. by apply Hq, Hm. Qed.

Lemma triple_pure (φ : Prop) P (Q : A -> S -> Prop) m : (φ -> triple P m Q) -> triple (fun s => φ /\ P s) m Q.
Proof. intros Hm s [Hφ Hs]. by apply Hm. Qed.

(** A call that keeps [P], whatever it answers. *)
Definition keeps P (m : M S A) : Prop := triple P m (fun _ => P).

Lemma keeps_ret P (x : A) : keeps P (mret x).
Proof. by intros s Hs. Qed.
End triples.

Lemma keeps_bind {S A B} (P : S -> Prop) (m : M S A) (f : A -> M S B) :
  keeps P m -> (forall x, keeps P (f x)) -> keeps P (m ≫= f).
Proof. intros Hm Hf. eapply triple_bind; [apply Hm|intros x; apply Hf]. Qed.

Lemma triple_seq {S A B} (P Q : S -> Prop) (R : B -> S -> Prop) (m : M S A) (f : A -> M S B) :
  triple P m (fun _ => Q) -> (forall x, triple Q (f x) R) -> triple P (m ≫= f) R.
Proof. intros. by eapply triple_bind. Qed.

(** ** The error codes the layers add *)

(** [dev/hal/interface/hal_interface.h:96-108 hal_error_t] *)
Definition HAL_ERROR_NO_DEVICE : Z := -2.
Definition HAL_ERROR_IO : Z := -4.
Definition HAL_ERROR_TIMEOUT : Z := -7.
Definition HAL_ERROR_NOT_SUPPORT : Z := -8.

(** [dev/hal/interface/hal_interface.h:168-171 HAL_CAP_READ] *)
Definition HAL_CAP_READ : Z := Z.shiftl 1 0.
Definition HAL_CAP_WRITE : Z := Z.shiftl 1 1.
Definition HAL_CAP_CONTROL : Z := Z.shiftl 1 2.

(** ** What a process holds *)

Inductive resource := Fd (fd : Z) | Mapping (addr : Z) | Pcm (handle : Z) | Block (addr : Z).

#[export] Instance resource_eq : EqDecision resource.
Proof. solve_decision. Defined.
#[export] Instance resource_countable : Countable resource.
Proof.
  refine (inj_countable'
    (fun r => match r with
              | Fd z => (0%nat, z) | Mapping z => (1%nat, z) | Pcm z => (2%nat, z) | Block z => (3%nat, z) end)
    (fun p => match p with
              | (O, z) => Fd z | (1%nat, z) => Mapping z | (2%nat, z) => Pcm z | (_, z) => Block z end) _).
  by intros [].
Defined.

(** ** The kernel's calls on files

    What they answer is the kernel's business: the calls are the operations of a class
    over an abstract state [W] of the world.  A failing call answers minus its errno. *)
Class Kernel (W : Type) := {
  k_open : string -> M W Z;
  k_close : Z -> M W unit;
  k_read : Z -> nat -> M W (Z * string);      (** the result and the bytes read *)
  k_write : Z -> string -> M W Z;
  k_rewind : Z -> M W unit;                   (** [lseek(fd, 0, SEEK_SET)] *)
  k_access : string -> M W Z;
  k_poll : Z -> Z -> M W Z;                   (** timeout in milliseconds *)
  k_realpath : string -> M W (option string)
}.

(** Whether an allocation succeeds, each time it is asked for. *)
Definition ask {W} (f : W -> bool) : M W bool := fun w => (f w, w).

(** What a process holds in a state of the world. *)
Class Ledger (W : Type) := held : W -> gset resource.

Definition quiet {W} `{Ledger W} {A} (m : M W A) : Prop := forall w, held (m w).2 = held w.

(** POSIX: [open] hands out a descriptor that was not open, [close] gives it back, the
    other calls do neither. *)
Class KernelLaws (W : Type) `{Ledger W} `{Kernel W} : Prop := {
  open_fresh p w : 0 <= (k_open p w).1 -> Fd (k_open p w).1 ∉ held w /\
    held (k_open p w).2 = {[Fd (k_open p w).1]} ∪ held w;
  open_failed p w : (k_open p w).1 < 0 -> held (k_open p w).2 = held w;
  close_back fd w : held (k_close fd w).2 = held w ∖ {[Fd fd]};
  read_quiet fd n : quiet (k_read fd n);
  write_quiet fd s : quiet (k_write fd s);
  rewind_quiet fd : quiet (k_rewind fd);
  access_quiet p : quiet (k_access p);
  poll_quiet fd t : quiet (k_poll fd t);
  realpath_quiet p : quiet (k_realpath p)
}.

Create HintDb hal.
#[export] Hint Resolve read_quiet write_quiet rewind_quiet access_quiet poll_quiet realpath_quiet : hal.

Section quiet.
Context {W : Type} `{Ledger W}.

Lemma quiet_ret {A} (x : A) : quiet (mret x : M W A).
Proof. done. Qed.

Lemma quiet_ask (f : W -> bool) : quiet (ask f).
Proof. done. Qed.

Lemma quiet_bind {A B} (m : M W A) (f : A -> M W B) : quiet m -> (forall x, quiet (f x)) -> quiet (m ≫= f).
Proof.
  intros Hm Hf w. specialize (Hm w). unfold mbind, M_bind. destruct (m w) as [x w']. simpl in *.
  by rewrite Hf.
Qed.

(** A descriptor that is opened, used and closed again. *)
Lemma quiet_bracket {A} `{Kernel W} `{!KernelLaws W} p (x : A) (f : Z -> M W A) :
  (forall fd, quiet (f fd)) ->
  quiet (k_open p ≫= fun fd => if fd <? 0 then mret x else f fd ≫= fun y => k_close fd ≫= fun _ => mret y).
Proof.
  intros Hf w. unfold mbind, M_bind, mret, M_ret.
  pose proof (open_fresh p w) as Ho. pose proof (open_failed p w) as He.
  destruct (k_open p w) as [fd w1]. simpl in *. case_match; simpl; [apply He; lia|].
  specialize (Hf fd w1). destruct (f fd w1) as [y w2]. simpl in *.
  pose proof (close_back fd w2) as Hc. destruct (k_close fd w2) as [[] w3]. simpl in *.
  destruct Ho as [Hfresh Ho]; [lia|]. rewrite Hc, Hf, Ho. set_solver.
Qed.
End quiet.
#[export] Hint Resolve quiet_ret quiet_ask : hal.
#[export] Hint Extern 3 (quiet (mbind _ _)) => apply quiet_bind; [|intro] : hal.
#[export] Hint Extern 3 (quiet (if ?b then _ else _)) => destruct b : hal.
#[export] Hint Extern 3 (quiet (match ?b with _ => _ end)) => destruct b : hal.

(** ** A device *)

(** [dev/hal/interface/hal_interface.h:236-249 hw_device_t] the fields the layers use;
    the common ones are in [HalRegistry]. *)
Record hw (P : Type) := mk_hw {
  h_name : string;
  h_type : Z;
  h_state : hal_device_state_t;
  h_fd : Z;
  h_caps : Z;
  h_priv : option P          (** [priv], None for NULL *)
}.
Arguments mk_hw {P}. Arguments h_name {P}. Arguments h_type {P}. Arguments h_state {P}.
Arguments h_fd {P}. Arguments h_caps {P}. Arguments h_priv {P}.

(** The device with the world around it. *)
Record st (P W : Type) := mk_st { dev : hw P; world : W }.
Arguments mk_st {P W}. Arguments dev {P W}. Arguments world {P W}.

Section device.
Context {P W : Type}.
Notation DM := (M (st P W)).

Definition call {A} (m : M W A) : DM A := fun s => let '(x, w) := m (world s) in (x, mk_st (dev s) w).

Definition set_priv (p : option P) : DM unit := fun s =>
  (tt, mk_st (mk_hw (h_name (dev s)) (h_type (dev s)) (h_state (dev s)) (h_fd (dev s)) (h_caps (dev s)) p)
         (world s)).
Definition set_fd (fd : Z) : DM unit := fun s =>
  (tt, mk_st (mk_hw (h_name (dev s)) (h_type (dev s)) (h_state (dev s)) fd (h_caps (dev s)) (h_priv (dev s)))
         (world s)).
Definition set_state (x : hal_device_state_t) : DM unit := fun s =>
  (tt, mk_st (mk_hw (h_name (dev s)) (h_type (dev s)) x (h_fd (dev s)) (h_caps (dev s)) (h_priv (dev s)))
         (world s)).
Definition get_state : DM hal_device_state_t := fun s => (h_state (dev s), s).

(** [if (!device_ptr->priv) return e;] *)
Definition with_priv {A} (e : A) (f : P -> DM A) : DM A := fun s =>
  match h_priv (dev s) with None => (e, s) | Some p => f p s end.
End device.

(** An argument that is passed by address: NULL is 0. *)
Record arg (A : Type) := mk_arg { a_addr : Z; a_cell : A }.
Arguments mk_arg {A}. Arguments a_addr {A}. Arguments a_cell {A}.

(** The loop of the four functions [validate_control_arg]: the first row of the table
    that has the command decides. *)
Fixpoint check_arg (specs : list (Z * Z)) (cmd addr : Z) : Z :=
  match specs with
  | [] => -1
  | (c, size) :: specs' =>
      if negb (c =? cmd) then check_arg specs' cmd addr
      else if size =? 0 then 0
      else if addr =? 0 then -1
      else if negb (addr mod 4 =? 0) then -1
      else 0
  end.

(** ** The driver interface *)

Class HalDriver (P Req W : Type) := {
  drv_open : M (st P W) Z;
  drv_close : M (st P W) Z;
  drv_start : M (st P W) Z;
  drv_stop : M (st P W) Z;
  drv_request : Req -> M (st P W) unit;   (** read, write, control, get_info *)
  drv_cleanup : M (st P W) unit
}.

(** [dev/hal/interface/hal_interface.c:187-198 hal_device_unref, the last owner] *)
Definition hal_device_last_unref {P Req W} `{HalDriver P Req W} : M (st P W) unit :=
  x ← get_state;
  _ ← (if bool_decide (x = HAL_STATE_ACTIVE) then drv_stop else mret 0);
  y ← get_state;
  _ ← (if bool_decide (y <> HAL_STATE_CLOSED) then drv_close else mret 0);
  drv_cleanup.

Section driver.
Context {P Req W : Type} `{Ledger W} `{HalDriver P Req W} (owned : P -> gset resource).

(** The process holds [B] and what the device owns; a closed device owns nothing. *)
Definition balanced (B : gset resource) (s : st P W) : Prop :=
  exists p, h_priv (dev s) = Some p /\ held (world s) = B ∪ owned p /\ B ## owned p /\
            (h_state (dev s) = HAL_STATE_CLOSED -> owned p = ∅).

Definition closed (B : gset resource) (s : st P W) : Prop :=
  balanced B s /\ h_state (dev s) = HAL_STATE_CLOSED.

(** What a driver promises. *)
Class HalDriverLaws : Prop := {
  open_balanced B : triple (closed B) drv_open (fun _ => balanced B);
  close_closes B : triple (balanced B) drv_close (fun _ => closed B);
  start_balanced B : keeps (balanced B) drv_start;
  stop_balanced B : keeps (balanced B) drv_stop;
  request_balanced B r : keeps (balanced B) (drv_request r);
  cleanup_gives_back B : triple (closed B) drv_cleanup (fun _ s => held (world s) = B)
}.

(** What a client does with a device. *)
Inductive drv_call := DoOpen | DoClose | DoStart | DoStop | Do (r : Req).

Definition drv_step (c : drv_call) : M (st P W) unit :=
  match c with
  | DoOpen => drv_open ≫= fun _ => mret tt
  | DoClose => drv_close ≫= fun _ => mret tt
  | DoStart => drv_start ≫= fun _ => mret tt
  | DoStop => drv_stop ≫= fun _ => mret tt
  | Do r => drv_request r
  end.

Fixpoint drv_run (cs : list drv_call) : M (st P W) unit :=
  match cs with
  | [] => mret tt
  | c :: cs => drv_step c ≫= fun _ => drv_run cs
  end.

(** The documented precondition of [open]: the device is in [HAL_STATE_CLOSED]. *)
Fixpoint opens_closed (cs : list drv_call) (s : st P W) : bool :=
  match cs with
  | [] => true
  | c :: cs =>
      match c with DoOpen => bool_decide (h_state (dev s) = HAL_STATE_CLOSED) | _ => true end &&
      opens_closed cs (drv_step c s).2
  end.

Context `{!HalDriverLaws}.

Lemma step_balanced B c s : balanced B s -> opens_closed [c] s = true -> balanced B (drv_step c s).2.
Proof.
  intros Hs Ho. assert (Hd : forall m : M (st P W) Z, balanced B (m s).2 ->
    balanced B ((m ≫= fun _ => mret tt) s).2).
  { intros m. unfold mbind, M_bind. by destruct (m s). }
  destruct c; simpl in *.
  - apply andb_prop in Ho as [Ho _]. apply bool_decide_eq_true in Ho.
    apply Hd, open_balanced. by split.
  - apply Hd. apply (close_closes B s Hs).
  - by apply Hd, start_balanced.
  - by apply Hd, stop_balanced.
  - by apply request_balanced.
Qed.

Lemma run_balanced B cs : forall s, balanced B s -> opens_closed cs s = true -> balanced B (drv_run cs s).2.
Proof.
  induction cs as [|c cs IH]; intros s Hs Ho; [done|].
  simpl in Ho. apply andb_prop in Ho as [Hc Ho].
  assert (Hb : balanced B (drv_step c s).2).
  { apply step_balanced; [done|]. simpl. by rewrite Hc. }
  simpl. unfold mbind, M_bind. destruct (drv_step c s) as [[] s1]. by apply IH.
Qed.

(** The last owner's teardown closes whatever is open. *)
Lemma last_unref_balanced B :
  triple (balanced B) hal_device_last_unref (fun _ s => held (world s) = B).
Proof.
  unfold hal_device_last_unref.
  eapply triple_seq; [intros s Hs; exact Hs|]. intros x.
  eapply triple_seq.
  { case_bool_decide; [apply (stop_balanced B)|apply (keeps_ret (balanced B))]. }
  intros _.
  eapply (triple_bind _ (fun y s => balanced B s /\ h_state (dev s) = y)); [by intros s Hs|]. intros y.
  eapply triple_seq; [|intros _; apply cleanup_gives_back].
  case_bool_decide as Hy.
  - eapply triple_pre; [apply close_closes|]. by intros s [].
  - intros s [Hs Hst]. split; [done|]. simpl. destruct y; try done; by destruct Hy.
Qed.

(** Whatever the client does, the last owner finds the process as it was. *)
Lemma driver_no_leak B cs s : closed B s -> opens_closed cs s = true ->
  held (world (hal_device_last_unref (drv_run cs s).2).2) = B.
Proof. intros [Hs _] Ho. by apply last_unref_balanced, run_balanced. Qed.
End driver.
Arguments drv_call : clear implicits.
#[export] Hint Mode HalDriverLaws + + + - - - : typeclass_instances.

(** ** Rules for the drivers' code *)

Section rules.
Context {P W : Type} `{Ledger W} (owned : P -> gset resource) (B : gset resource).
Notation bal := (balanced (P:=P) (W:=W) owned B).

(** The same, with the private data at hand. *)
Definition bal_at (p : P) (s : st P W) : Prop := bal s /\ h_priv (dev s) = Some p.

Lemma keeps_call {A} (m : M W A) : quiet m -> keeps bal (call m).
Proof.
  intros Hm s (p & Hp & Hh & Hd & Hc). specialize (Hm (world s)).
  unfold call. destruct (m (world s)) as [x w]. simpl in *. exists p. simpl. by rewrite Hm.
Qed.

Lemma bal_with_priv {A} (e : A) f Q :
  (forall p, triple (bal_at p) (f p) Q) -> triple bal (with_priv e f) Q.
Proof.
  intros Hf s Hs. pose proof Hs as (p & Hp & _). unfold with_priv. rewrite Hp. by apply Hf.
Qed.

Lemma keeps_with_priv {A} (e : A) f : (forall p, triple (bal_at p) (f p) (fun _ => bal)) ->
  keeps bal (with_priv e f).
Proof. apply bal_with_priv. Qed.

(** Changing what the device does not own. *)
Lemma keeps_set_priv p p' : owned p' = owned p ->
  triple (bal_at p) (set_priv (Some p')) (fun _ => bal_at p').
Proof.
  intros Ho s [(q & Hq & Hh & Hd & Hc) Hp]. simplify_eq/=. split; [|done].
  exists p'. rewrite Ho. simpl. naive_solver.
Qed.

Lemma keeps_set_fd fd : keeps bal (set_fd fd).
Proof. by intros s Hs. Qed.

Lemma keeps_set_open x : x <> HAL_STATE_CLOSED -> keeps bal (set_state x).
Proof. intros Hst s (p & Hp & Hh & Hd & Hc). by exists p. Qed.

Lemma keeps_get_state {A} (f : hal_device_state_t -> M (st P W) A) :
  (forall x, keeps bal (f x)) -> keeps bal (get_state ≫= f).
Proof. intros Hf. apply keeps_bind; [by intros s Hs|done]. Qed.
End rules.

Section at_rules.
Context {P W : Type} `{Ledger W} (owned : P -> gset resource) (B : gset resource).
Notation bal := (balanced (P:=P) (W:=W) owned B).
Notation bal_at := (bal_at (P:=P) (W:=W) owned B).

Lemma at_call {A} (m : M W A) p : quiet m -> keeps (bal_at p) (call m).
Proof.
  intros Hm s [Hs Hp]. split; [by apply keeps_call|].
  unfold call. by destruct (m (world s)).
Qed.

Lemma at_weaken {A} (m : M (st P W) A) p : keeps (bal_at p) m -> triple (bal_at p) m (fun _ => bal).
Proof. intros Hm s Hs. by apply (Hm s Hs). Qed.

Lemma at_bal {A} (m : M (st P W) A) p : keeps bal m -> triple (bal_at p) m (fun _ => bal).
Proof. intros Hm s [Hs _]. by apply Hm. Qed.

Lemma at_seq {A C} (m : M (st P W) A) (f : A -> M (st P W) C) p Q :
  keeps (bal_at p) m -> (forall x, triple (bal_at p) (f x) Q) -> triple (bal_at p) (m ≫= f) Q.
Proof. intros. by eapply triple_seq. Qed.

Lemma at_set {C} p p' (f : unit -> M (st P W) C) Q : owned p' = owned p ->
  (forall x, triple (bal_at p') (f x) Q) -> triple (bal_at p) (set_priv (Some p') ≫= f) Q.
Proof. intros Ho Hf. eapply triple_seq; [by apply keeps_set_priv|done]. Qed.

Lemma at_set_fd fd p : keeps (bal_at p) (set_fd fd).
Proof. by intros s [Hs Hp]. Qed.

Lemma at_set_open x p : x <> HAL_STATE_CLOSED -> keeps (bal_at p) (set_state x).
Proof. intros Hx s [Hs Hp]. split; [by apply keeps_set_open|done]. Qed.

Lemma closed_with_priv {A} (e : A) f Q :
  (forall p, owned p = ∅ -> triple (bal_at p) (f p) Q) -> triple (closed owned B) (with_priv e f) Q.
Proof.
  intros Hf s [(p & Hp & Hh & Hd & Hc) Hst]. unfold with_priv. rewrite Hp. apply Hf; [by apply Hc|].
  split; [|done]. by exists p.
Qed.

(** The device holds a new resource [r] that the private data do not name yet. *)
Definition taken (p : P) (r : resource) (s : st P W) : Prop :=
  h_priv (dev s) = Some p /\ held (world s) = {[r]} ∪ B /\ r ∉ B.

Lemma taken_recorded p p' r : owned p' = {[r]} ->
  triple (taken p r) (set_priv (Some p')) (fun _ => taken p' r).
Proof. intros Ho s (Hp & Hh & Hr). done. Qed.

Lemma taken_set_fd p r fd : triple (taken p r) (set_fd fd) (fun _ => taken p r).
Proof. by intros s Hs. Qed.

Lemma taken_open p r x : owned p = {[r]} -> x <> HAL_STATE_CLOSED ->
  triple (taken p r) (set_state x) (fun _ => bal).
Proof.
  intros Ho Hx s (Hp & Hh & Hr). exists p. simpl. rewrite Ho, Hh. set_solver.
Qed.

(** A descriptor is taken and recorded, or the open fails. *)
Lemma at_open {C} `{Kernel W, !KernelLaws W} path p (f : Z -> M (st P W) C) Q :
  owned p = ∅ ->
  (forall fd, 0 <= fd ->
     triple (taken p (Fd fd)) (f fd) Q) ->
  (forall fd, fd < 0 -> triple (bal_at p) (f fd) Q) ->
  triple (bal_at p) (call (k_open path) ≫= f) Q.
Proof.
  intros Ho Hok Hfail s [(q & Hq & Hh & Hd & Hc) Hp].
  assert (q = p) as -> by congruence. clear Hq. rewrite Ho in *. rewrite union_empty_r_L in Hh.
  pose proof (open_fresh path (world s)) as Hf1. pose proof (open_failed path (world s)) as Hf2.
  unfold mbind, M_bind, call. destruct (k_open path (world s)) as [fd w]. simpl in *. rewrite Hh in *.
  destruct (decide (0 <= fd)) as [Hfd|Hfd].
  - apply Hok; [done|]. split; [done|]. simpl. destruct Hf1; [done|]. naive_solver.
  - apply Hfail; [lia|]. split; [|done]. exists p. simpl. rewrite Ho.
    rewrite (Hf2 ltac:(lia)). set_solver.
Qed.
(** Everything was given back; what is left is to say so. *)
Definition given_back (s : st P W) : Prop := held (world s) = B.

Lemma given_call {A} (m : M W A) : quiet m -> keeps given_back (call m).
Proof. intros Hm s Hs. specialize (Hm (world s)). unfold call. destruct (m (world s)). simpl in *. unfold given_back. by rewrite <- Hs, <- Hm. Qed.

Lemma given_set_fd fd : keeps given_back (set_fd fd).
Proof. by intros s Hs. Qed.

Lemma given_set_priv p : keeps given_back (set_priv p).
Proof. by intros s Hs. Qed.

Lemma given_closed {A} p fd (x : A) : owned p = ∅ ->
  triple given_back (_ ← set_priv (Some p); _ ← set_fd fd; _ ← set_state HAL_STATE_CLOSED; mret x)
    (fun _ => closed owned B).
Proof. intros Ho s Hs. split; [|done]. exists p. simpl. rewrite Ho, Hs. set_solver. Qed.

Lemma bal_given p s : bal_at p s -> owned p = ∅ -> given_back s.
Proof. intros [(q & Hq & Hh & _) Hp] Ho. assert (q = p) as -> by congruence. unfold given_back. rewrite Hh, Ho. set_solver. Qed.

(** A descriptor is closed. *)
Lemma at_close `{Kernel W, !KernelLaws W} p fd : owned p = {[Fd fd]} ->
  triple (bal_at p) (call (k_close fd)) (fun _ => given_back).
Proof.
  intros Ho s [(q & Hq & Hh & Hd & _) Hp]. assert (q = p) as -> by congruence.
  pose proof (close_back fd (world s)) as Hb. unfold call, given_back.
  destruct (k_close fd (world s)) as [[] w]. simpl in *. rewrite Hb, Hh, Ho. set_solver.
Qed.
End at_rules.

#[export] Hint Extern 2 (keeps (bal_at _ _ _) (call _)) => apply at_call : hal.
#[export] Hint Extern 2 (keeps (bal_at _ _ _) (set_fd _)) => apply at_set_fd : hal.
#[export] Hint Extern 2 (keeps _ (mret _)) => apply keeps_ret : hal.
#[export] Hint Extern 2 (keeps (balanced _ _) (call _)) => apply keeps_call : hal.
#[export] Hint Extern 2 (keeps (balanced _ _) (set_fd _)) => apply keeps_set_fd : hal.
#[export] Hint Extern 2 (keeps (balanced _ _) (set_state _)) => apply keeps_set_open : hal.
#[export] Hint Extern 3 (keeps (bal_at _ _ _) (mbind _ _)) => apply keeps_bind; [|intro] : hal.
#[export] Hint Extern 3 (triple (bal_at _ _ _) (mbind _ _) (fun _ => balanced _ _)) =>
  apply at_seq; [|intro] : hal.
#[export] Hint Extern 4 (triple (bal_at _ _ _) _ (fun _ => balanced _ _)) => apply at_bal : hal.
#[export] Hint Extern 3 (keeps (balanced _ _) (mbind _ _)) => apply keeps_bind; [|intro] : hal.
#[export] Hint Extern 3 (keeps (balanced _ _) (with_priv _ _)) => apply keeps_with_priv; intro : hal.
#[export] Hint Extern 3 (keeps (balanced _ _) (if ?b then _ else _)) => destruct b : hal.
#[export] Hint Extern 3 (keeps (bal_at _ _ _) (if ?b then _ else _)) => destruct b : hal.

(** ** Calls that take and give back

    A driver's helper that works on the private data and the world: it takes what the
    new private data own, or gives back what the old ones owned. *)
Section transfer.
Context {P W : Type} `{Ledger W} (owned : P -> gset resource) (B : gset resource).
Notation bal := (balanced (P:=P) (W:=W) owned B).
Notation bal_at := (bal_at (P:=P) (W:=W) owned B).

Definition acquires {A} (m : M W (A * P)) : Prop := forall w,
  held (m w).2 = owned (m w).1.2 ∪ held w /\ owned (m w).1.2 ## held w.

Definition releases (p : P) (m : M W P) : Prop := forall w,
  owned (m w).1 = ∅ /\ held (m w).2 = held w ∖ owned p.

Lemma acquires_quiet {A C} (m : M W C) (f : C -> M W (A * P)) :
  quiet m -> (forall x, acquires (f x)) -> acquires (m ≫= f).
Proof.
  intros Hm Hf w. specialize (Hm w). unfold mbind, M_bind. destruct (m w) as [x w']. simpl in *.
  rewrite <- Hm. apply Hf.
Qed.

Lemma acquires_quiet_such {A C} (φ : C -> Prop) (m : M W C) (f : C -> M W (A * P)) :
  quiet m -> (forall w, φ (m w).1) -> (forall x, φ x -> acquires (f x)) -> acquires (m ≫= f).
Proof.
  intros Hm Hφ Hf w. specialize (Hm w). specialize (Hφ w). unfold mbind, M_bind.
  destruct (m w) as [x w']. simpl in *. rewrite <- Hm. by apply Hf.
Qed.

Lemma acquires_ret {A} (x : A) p : owned p = ∅ -> acquires (mret (x, p)).
Proof. intros Ho w. simpl. rewrite Ho. set_solver. Qed.

Lemma acquires_open {A} `{Kernel W, !KernelLaws W} path (f : Z -> M W (A * P)) :
  (forall fd, 0 <= fd -> exists x p, f fd = mret (x, p) /\ owned p = {[Fd fd]}) ->
  (forall fd, fd < 0 -> acquires (f fd)) -> acquires (k_open path ≫= f).
Proof.
  intros Hok Hfail w. pose proof (open_fresh path w) as Ho1. pose proof (open_failed path w) as Ho2.
  unfold mbind, M_bind. destruct (k_open path w) as [fd w']. simpl in *.
  destruct (decide (0 <= fd)) as [Hfd|Hfd].
  - destruct (Hok fd Hfd) as (x & p & -> & Hp), (Ho1 Hfd) as [Ho3 Ho4]. simpl. rewrite Hp. set_solver.
  - rewrite <- Ho2 by lia. apply Hfail. lia.
Qed.

Lemma acquires_map {A C} (m : M W (A * P)) (g : A * P -> C * P) :
  acquires m -> (forall w, owned (g (m w).1).2 = owned (m w).1.2) -> acquires (m ≫= fun r => mret (g r)).
Proof.
  intros Hm Hg w. specialize (Hm w). specialize (Hg w). unfold mbind, M_bind.
  destruct (m w) as [r w']. simpl in *. by rewrite Hg.
Qed.

Lemma at_acquire {A C} (m : M W (A * P)) p (f : A * P -> M (st P W) C) Q x :
  acquires m -> owned p = ∅ -> x <> HAL_STATE_CLOSED ->
  (forall r, triple (bal_at r.2) (f r) Q) ->
  triple (fun s => bal_at p s /\ h_state (dev s) = x)
    (call m ≫= fun r => set_priv (Some r.2) ≫= fun _ => f r) Q.
Proof.
  intros Hm Ho Hx Hf s [[(q & Hq & Hh & Hd & Hc) Hp] Hs]. assert (q = p) as -> by congruence.
  specialize (Hm (world s)). unfold mbind, M_bind, call.
  destruct (m (world s)) as [r w]. simpl in *. apply Hf. split; [|done].
  destruct Hm as [Hm1 Hm2]. exists r.2. rewrite Hh, Ho in *. simpl. rewrite Hs. set_solver.
Qed.

Lemma at_acquire_open {A C} (m : M W (A * P)) p (f : A * P -> M (st P W) C) Q x :
  acquires m -> owned p = ∅ -> x <> HAL_STATE_CLOSED ->
  (forall r, triple (bal_at r.2) (f r) Q) ->
  triple (bal_at p) (call m ≫= fun r => set_priv (Some r.2) ≫= fun _ => set_state x ≫= fun _ => f r) Q.
Proof.
  intros Hm Ho Hx Hf s [(q & Hq & Hh & Hd & Hc) Hp]. assert (q = p) as -> by congruence.
  specialize (Hm (world s)). unfold mbind, M_bind, call.
  destruct (m (world s)) as [r w]. simpl in *. apply Hf. split; [|done].
  destruct Hm as [Hm1 Hm2]. exists r.2. rewrite Hh, Ho in *. simpl. set_solver.
Qed.

(** An open that may fail: then the new private data own nothing. *)
Lemma at_acquire_result (m : M W (Z * P)) p (fd : P -> Z) x :
  acquires m -> owned p = ∅ -> x <> HAL_STATE_CLOSED ->
  (forall w, (m w).1.1 <> 0 -> owned (m w).1.2 = ∅) ->
  triple (bal_at p)
    (r ← call m; _ ← set_priv (Some r.2);
     if r.1 =? 0 then _ ← set_fd (fd r.2); _ ← set_state x; mret 0 else mret r.1)
    (fun _ => bal).
Proof.
  intros Hm Ho Hx Hf s [(q & Hq & Hh & Hd & Hc) Hp]. assert (q = p) as -> by congruence.
  specialize (Hm (world s)). specialize (Hf (world s)). unfold mbind, M_bind, call.
  destruct (m (world s)) as [r w]. simpl in *. destruct Hm as [Hm1 Hm2].
  destruct (Z.eqb_spec r.1 0) as [Hr|Hr]; exists r.2; simpl; rewrite Hh, Ho in *; set_solver.
Qed.

Lemma at_release {C} (m : M W P) p (f : P -> M (st P W) C) Q :
  releases p m -> (forall p', owned p' = ∅ -> triple (bal_at p') (f p') Q) ->
  triple (bal_at p) (call m ≫= fun p' => set_priv (Some p') ≫= fun _ => f p') Q.
Proof.
  intros Hm Hf s [(q & Hq & Hh & Hd & Hc) Hp]. assert (q = p) as -> by congruence.
  specialize (Hm (world s)). unfold mbind, M_bind, call.
  destruct (m (world s)) as [p' w]. simpl in *. destruct Hm as [Hm1 Hm2]. apply Hf; [done|].
  split; [|done]. exists p'. simpl. rewrite Hm1, Hm2, Hh. set_solver.
Qed.

Lemma at_closed {A} p fd (x : A) : owned p = ∅ ->
  triple (bal_at p) (_ ← set_fd fd; _ ← set_state HAL_STATE_CLOSED; mret x) (fun _ => closed owned B).
Proof.
  intros Ho s [(q & Hq & Hh & Hd & Hc) Hp]. assert (q = p) as -> by congruence.
  split; [|done]. by exists p.
Qed.

Lemma at_gone p : owned p = ∅ -> triple (bal_at p) (set_priv None) (fun _ s => held (world s) = B).
Proof.
  intros Ho s [(q & Hq & Hh & Hd & Hc) Hp]. assert (q = p) as -> by congruence. simpl.
  rewrite Hh, Ho. set_solver.
Qed.

Lemma at_get_state {C} p (f : hal_device_state_t -> M (st P W) C) Q :
  (forall x, triple (fun s => bal_at p s /\ h_state (dev s) = x) (f x) Q) ->
  triple (bal_at p) (get_state ≫= f) Q.
Proof. intros Hf. eapply triple_bind; [|apply Hf]. by intros s Hs. Qed.
End transfer.

(** One case of a command's switch at a time. *)
Ltac triple_cases :=
  repeat match goal with |- triple _ (if ?b then _ else _) _ => destruct b end.

(** ** A kernel to run the drivers on

    Files are attributes that keep what was written last; descriptors are handed out in
    increasing order.  The theorems hold for every [Kernel] with the laws; this one
    shows that there are such. *)
Record toy := mk_toy { t_fds : list (Z * string); t_files : gmap string string }.

Definition toy_next (fds : list (Z * string)) : Z := 1 + foldr (fun p m => Z.max p.1 m) 2 fds.
Definition toy_path (fd : Z) (w : toy) : option string :=
  snd <$> find (fun p : Z * string => p.1 =? fd) (t_fds w).

#[export] Instance toy_kernel : Kernel toy := {
  k_open p w := match t_files w !! p with
                | Some _ => let fd := toy_next (t_fds w) in (fd, mk_toy ((fd, p) :: t_fds w) (t_files w))
                | None => (-2, w)
                end;
  k_close fd w := (tt, mk_toy (List.filter (fun p : Z * string => negb (p.1 =? fd)) (t_fds w)) (t_files w));
  k_read fd n w := match toy_path fd w ≫= fun p => t_files w !! p with
                   | Some s => ((Z.of_nat (String.length (strncpy_z n s)), strncpy_z n s), w)
                   | None => ((-9, ""), w)
                   end;
  k_write fd s w := match toy_path fd w with
                    | Some p => (Z.of_nat (String.length s), mk_toy (t_fds w) (<[p := s]> (t_files w)))
                    | None => (-9, w)
                    end;
  k_rewind fd w := (tt, w);
  k_access p w := (match t_files w !! p with Some _ => 0 | None => -2 end, w);
  k_poll fd t w := (1, w);
  k_realpath p w := (match t_files w !! p with Some _ => Some p | None => None end, w)
}.
#[export] Instance toy_ledger : Ledger toy := fun w => list_to_set ((fun p => Fd p.1) <$> t_fds w).

Lemma toy_next_above fds p : p ∈ fds -> p.1 < toy_next fds.
Proof.
  unfold toy_next. intros Hp. induction Hp as [p l|p q l Hin IH]; simpl; lia.
Qed.

Lemma toy_next_pos fds : 2 < toy_next fds.
Proof. unfold toy_next. induction fds; simpl in *; lia. Qed.

Lemma toy_held fd w : Fd fd ∈ held w <-> exists p, (fd, p) ∈ t_fds w.
Proof.
  unfold held, toy_ledger. rewrite elem_of_list_to_set, list_elem_of_fmap. split.
  - intros ([f p] & Heq & Hin). simplify_eq/=. by exists p.
  - intros [p Hp]. by exists (fd, p).
Qed.

#[export] Instance toy_laws : KernelLaws toy.
Proof.
  split; try (intros; intros w; simpl; repeat case_match; done).
  - intros p w. simpl. case_match; simpl; [|lia]. intros _. split; [|done].
    rewrite toy_held. intros [q Hq]. apply toy_next_above in Hq. simpl in Hq. lia.
  - intros p w. simpl. case_match; simpl; [|done]. intros Hn.
    pose proof (toy_next_pos (t_fds w)). lia.
  - intros fd w. simpl. unfold held, toy_ledger. simpl. apply set_eq. intros r.
    rewrite elem_of_difference, !elem_of_list_to_set, elem_of_singleton, !list_elem_of_fmap. split.
    + intros ([f p] & -> & Hin). apply list_elem_of_In, filter_In in Hin as [Hin Hf]. simpl in *.
      split; [|intros [=]; lia]. exists (f, p). by rewrite list_elem_of_In.
    + intros [([f p] & -> & Hin) Hne]. exists (f, p). split; [done|].
      apply list_elem_of_In, filter_In. rewrite <- list_elem_of_In. split; [done|]. simpl.
      simpl in Hne. destruct (Z.eqb_spec f fd); [by subst|done].
Qed.
