(* ===== verification/GpioHal.v ===== *)
(** * General-purpose pins (hal/layers/gpio/gpio_hal.c)

    The sysfs backend: export, direction, edge, and the value file that stays open. *)

From S2P Require Import Prelude CText HalRegistry HalDevice.

(** [dev/hal/layers/gpio/gpio_hal.h:104-110 gpio_config_t] the enumerations are C ints. *)
Record gpio_config_t := mk_gpio_cfg {
  c_pin : Z; c_direction : Z; c_initial : Z; c_edge : Z; c_pull : Z
}.

(** [dev/hal/layers/gpio/gpio_hal.h:45-74 gpio_direction_t] *)
Definition GPIO_DIR_INPUT : Z := 0.
Definition GPIO_DIR_OUTPUT : Z := 1.
Definition GPIO_VALUE_LOW : Z := 0.
Definition GPIO_VALUE_HIGH : Z := 1.
Definition GPIO_EDGE_NONE : Z := 0.
Definition GPIO_EDGE_RISING : Z := 1.
Definition GPIO_EDGE_FALLING : Z := 2.
Definition GPIO_EDGE_BOTH : Z := 3.

(** [dev/hal/layers/gpio/gpio_hal.h:143-152 gpio_cmd_t] *)
Definition GPIO_CMD_SET_DIRECTION : Z := 0x4000.
Definition GPIO_CMD_GET_DIRECTION : Z := 0x4001.
Definition GPIO_CMD_SET_VALUE : Z := 0x4002.
Definition GPIO_CMD_GET_VALUE : Z := 0x4003.
Definition GPIO_CMD_SET_EDGE : Z := 0x4004.
Definition GPIO_CMD_GET_EDGE : Z := 0x4005.
Definition GPIO_CMD_WAIT_EDGE : Z := 0x4006.
Definition GPIO_CMD_TOGGLE : Z := 0x4007.

(** [dev/hal/layers/gpio/gpio_hal.c:52-57 gpio_priv_t] *)
Record gpio_priv_t := mk_gpio {
  pin_number : Z; config : gpio_config_t; value_fd : Z; exported : bool
}.

Definition with_config (c : gpio_config_t) (p : gpio_priv_t) : gpio_priv_t :=
  mk_gpio (pin_number p) c (value_fd p) (exported p).
Definition with_value_fd (fd : Z) (p : gpio_priv_t) : gpio_priv_t :=
  mk_gpio (pin_number p) (config p) fd (exported p).
Definition with_exported (e : bool) (p : gpio_priv_t) : gpio_priv_t :=
  mk_gpio (pin_number p) (config p) (value_fd p) e.

(** [dev/hal/layers/gpio/gpio_hal.c:72-81 GPIO_CMD_SPECS] *)
Definition GPIO_CMD_SPECS : list (Z * Z) :=
  [(GPIO_CMD_SET_DIRECTION, 4); (GPIO_CMD_GET_DIRECTION, 4); (GPIO_CMD_SET_VALUE, 4);
   (GPIO_CMD_GET_VALUE, 4); (GPIO_CMD_SET_EDGE, 4); (GPIO_CMD_GET_EDGE, 4);
   (GPIO_CMD_WAIT_EDGE, 4); (GPIO_CMD_TOGGLE, 0)].

(** [dev/hal/layers/gpio/gpio_hal.c:96-98 validate_gpio_pin] *)
Definition GPIO_PIN_NUMBER_MAX : Z := 1023.
Definition validate_gpio_pin (pin : Z) : Z := if pin <=? GPIO_PIN_NUMBER_MAX then 0 else -1.

(** [dev/hal/layers/gpio/gpio_hal.c:114-128 validate_control_arg] *)
Definition gpio_validate_control_arg : Z -> Z -> Z := check_arg GPIO_CMD_SPECS.

Definition GPIO_BASE_PATH : string := "/sys/class/gpio".
Definition gpio_path (pin : Z) (attribute : string) : string :=
  GPIO_BASE_PATH +:+ "/gpio" +:+ decimal pin +:+ attribute.

(** [dev/hal/layers/gpio/gpio_hal.c:210-226 gpio_open, the edge string] *)
Definition edge_str (edge : Z) : string :=
  if edge =? GPIO_EDGE_RISING then "rising"
  else if edge =? GPIO_EDGE_FALLING then "falling"
  else if edge =? GPIO_EDGE_BOTH then "both"
  else "none".

Section gpio.
Context {W : Type} `{Kernel W}.
Notation DM := (M (st gpio_priv_t W)).

(** [dev/hal/layers/gpio/gpio_hal.c:142-152 sysfs_write] *)
Definition sysfs_write (path value : string) : M W Z :=
  k_open path ≫= fun fd =>
  if fd <? 0 then mret (-1)
  else (k_write fd value ≫= fun written =>
        mret (if written =? Z.of_nat (String.length value) then 0 else -1)) ≫= fun rc =>
       k_close fd ≫= fun _ => mret rc.

(** [dev/hal/layers/gpio/gpio_hal.c:172-243 gpio_open] *)
Definition gpio_open : DM Z :=
  with_priv HAL_ERROR_INVALID (fun p =>
    let pin := pin_number p in
    ex ← call (sysfs_write (GPIO_BASE_PATH +:+ "/export") (decimal pin));
    acc ← (if negb (ex =? 0) then call (k_access (gpio_path pin "")) else mret 0);
    if negb (acc =? 0) then mret HAL_ERROR_NO_DEVICE
    else
      let p := with_exported true p in
      let c := config p in
      _ ← set_priv (Some p);
      _ ← call (sysfs_write (gpio_path pin "/direction")
                  (if c_direction c =? GPIO_DIR_INPUT then "in" else "out"));
      _ ← (if c_direction c =? GPIO_DIR_OUTPUT
           then call (sysfs_write (gpio_path pin "/value")
                        (if c_initial c =? GPIO_VALUE_HIGH then "1" else "0"))
           else mret 0);
      _ ← (if negb (c_edge c =? GPIO_EDGE_NONE)
           then call (sysfs_write (gpio_path pin "/edge") (edge_str (c_edge c)))
           else mret 0);
      fd ← call (k_open (gpio_path pin "/value"));
      _ ← set_priv (Some (with_value_fd fd p));
      if fd <? 0 then mret HAL_ERROR_IO
      else
        _ ← set_fd fd;
        _ ← set_state HAL_STATE_OPEN;
        mret HAL_SUCCESS).

(** The two steps [gpio_close] and [gpio_priv_cleanup] share: the descriptor, the pin. *)
Definition close_value (p : gpio_priv_t) : DM gpio_priv_t :=
  if 0 <=? value_fd p
  then _ ← call (k_close (value_fd p)); mret (with_value_fd (-1) p)
  else mret p.
Definition unexport (p : gpio_priv_t) : DM Z :=
  if exported p then call (sysfs_write (GPIO_BASE_PATH +:+ "/unexport") (decimal (pin_number p)))
  else mret 0.

(** [dev/hal/layers/gpio/gpio_hal.c:255-277 gpio_close] *)
Definition gpio_close : DM Z :=
  with_priv HAL_ERROR_INVALID (fun p =>
    p ← close_value p;
    _ ← unexport p;
    _ ← set_priv (Some (with_exported false p));
    _ ← set_fd (-1);
    _ ← set_state HAL_STATE_CLOSED;
    mret HAL_SUCCESS).

(** [dev/hal/layers/gpio/gpio_hal.c:285-292 gpio_start] *)
Definition gpio_start : DM Z :=
  x ← get_state;
  if negb (bool_decide (x = HAL_STATE_OPEN)) then mret HAL_ERROR_INVALID
  else _ ← set_state HAL_STATE_ACTIVE; mret HAL_SUCCESS.

(** [dev/hal/layers/gpio/gpio_hal.c:300-305 gpio_stop] *)
Definition gpio_stop : DM Z :=
  _ ← set_state HAL_STATE_OPEN; mret HAL_SUCCESS.

(** [dev/hal/layers/gpio/gpio_hal.c:319-336 gpio_read] [buf]: the buffer is not NULL; the
    second result is the byte stored there. *)
Definition gpio_read (buf : bool) (size : Z) : DM (Z * option Z) :=
  with_priv (HAL_ERROR_INVALID, None) (fun p =>
    if negb buf || (size <? 1) then mret (HAL_ERROR_INVALID, None)
    else
      _ ← call (k_rewind (value_fd p));
      r ← call (k_read (value_fd p) 3);
      if r.1 <=? 0 then mret (HAL_ERROR_IO, None)
      else mret (1, Some (match r.2 with String c _ => if Ascii.eqb c "1" then 1 else 0 | "" => 0 end))).

(** [dev/hal/layers/gpio/gpio_hal.c:349-361 gpio_write] [data]: the first byte, None for a
    NULL buffer. *)
Definition gpio_write (data : option Z) (size : Z) : DM Z :=
  with_priv HAL_ERROR_INVALID (fun p =>
    match data with
    | None => mret HAL_ERROR_INVALID
    | Some b =>
        if size <? 1 then mret HAL_ERROR_INVALID
        else
          _ ← call (k_rewind (value_fd p));
          n ← call (k_write (value_fd p) (if negb (b =? 0) then "1" else "0"));
          mret (if n =? 1 then 1 else HAL_ERROR_IO)
    end).

(** [dev/hal/layers/gpio/gpio_hal.c:613-620 gpio_hal_set_value] *)
Definition gpio_hal_set_value (v : Z) : DM Z :=
  rc ← gpio_write (Some (if v =? GPIO_VALUE_HIGH then 1 else 0)) 1;
  mret (if 0 <? rc then HAL_SUCCESS else HAL_ERROR_IO).

(** [dev/hal/layers/gpio/gpio_hal.c:632-643 gpio_hal_get_value] [old]: what the caller's
    variable holds; the second result is what it holds afterwards. *)
Definition gpio_hal_get_value (old : Z) : DM (Z * Z) :=
  r ← gpio_read true 1;
  mret (if r.1 <=? 0 then (HAL_ERROR_IO, old)
        else (HAL_SUCCESS, if negb (default 0 r.2 =? 0) then GPIO_VALUE_HIGH else GPIO_VALUE_LOW)).

(** [dev/hal/layers/gpio/gpio_hal.c:655-667 gpio_hal_toggle] *)
Definition gpio_hal_toggle : DM Z :=
  r ← gpio_hal_get_value 0;
  if negb (r.1 =? HAL_SUCCESS) then mret r.1
  else gpio_hal_set_value (if r.2 =? GPIO_VALUE_HIGH then GPIO_VALUE_LOW else GPIO_VALUE_HIGH).

(** [dev/hal/layers/gpio/gpio_hal.c:684-709 gpio_hal_wait_interrupt] *)
Definition gpio_hal_wait_interrupt (timeout_ms : Z) : DM Z :=
  with_priv HAL_ERROR_INVALID (fun p =>
    _ ← call (k_rewind (value_fd p));
    _ ← call (k_read (value_fd p) 4);
    ret ← call (k_poll (value_fd p) (if timeout_ms =? 0 then -1 else i32 timeout_ms));
    mret (if ret <? 0 then HAL_ERROR_IO
          else if ret =? 0 then HAL_ERROR_TIMEOUT
          else HAL_SUCCESS)).

(** [dev/hal/layers/gpio/gpio_hal.c:376-443 gpio_control] *)
Definition gpio_control (cmd : Z) (a : arg Z) : DM (Z * arg Z) :=
  with_priv (HAL_ERROR_INVALID, a) (fun p =>
    let c := config p in
    let out v := mk_arg (a_addr a) v in
    if negb (gpio_validate_control_arg cmd (a_addr a) =? 0) then mret (HAL_ERROR_INVALID, a)
    else if cmd =? GPIO_CMD_SET_DIRECTION then
      let dir := a_cell a in
      _ ← set_priv (Some (with_config (mk_gpio_cfg (c_pin c) dir (c_initial c) (c_edge c) (c_pull c)) p));
      _ ← call (sysfs_write (gpio_path (pin_number p) "/direction")
                  (if dir =? GPIO_DIR_INPUT then "in" else "out"));
      mret (HAL_SUCCESS, a)
    else if cmd =? GPIO_CMD_GET_DIRECTION then mret (HAL_SUCCESS, out (c_direction c))
    else if cmd =? GPIO_CMD_SET_VALUE then rc ← gpio_hal_set_value (a_cell a); mret (rc, a)
    else if cmd =? GPIO_CMD_GET_VALUE then
      r ← gpio_hal_get_value (a_cell a); mret (r.1, out r.2)
    else if cmd =? GPIO_CMD_SET_EDGE then
      let edge := a_cell a in
      _ ← set_priv (Some (with_config (mk_gpio_cfg (c_pin c) (c_direction c) (c_initial c) edge (c_pull c)) p));
      _ ← call (sysfs_write (gpio_path (pin_number p) "/edge") (edge_str edge));
      mret (HAL_SUCCESS, a)
    else if cmd =? GPIO_CMD_GET_EDGE then mret (HAL_SUCCESS, out (c_edge c))
    else if cmd =? GPIO_CMD_WAIT_EDGE then rc ← gpio_hal_wait_interrupt (a_cell a); mret (rc, a)
    else if cmd =? GPIO_CMD_TOGGLE then rc ← gpio_hal_toggle; mret (rc, a)
    else mret (HAL_ERROR_NOT_SUPPORT, a)).

(** [dev/hal/layers/gpio/gpio_hal.h:122-127 gpio_info_t] *)
Record gpio_info_t := mk_gpio_info { i_pin : Z; i_direction : Z; i_value : Z; i_edge : Z }.

(** [dev/hal/layers/gpio/gpio_hal.c:454-467 gpio_get_info] [old]: the caller's structure,
    None for NULL. *)
Definition gpio_get_info (old : option gpio_info_t) : DM (Z * option gpio_info_t) :=
  with_priv (HAL_ERROR_INVALID, old) (fun p =>
    match old with
    | None => mret (HAL_ERROR_INVALID, None)
    | Some i =>
        r ← gpio_hal_get_value (i_value i);
        mret (HAL_SUCCESS, Some (mk_gpio_info (pin_number p) (c_direction (config p)) r.2 (c_edge (config p))))
    end).

(** [dev/hal/layers/gpio/gpio_hal.c:481-500 gpio_priv_cleanup] *)
Definition gpio_priv_cleanup : DM unit :=
  with_priv tt (fun p =>
    p ← close_value p;
    _ ← unexport p;
    set_priv None).
End gpio.

(** [dev/hal/layers/gpio/gpio_hal.c:527-535 gpio_hal_default_config] *)
Definition gpio_hal_default_config (pin : Z) : gpio_config_t :=
  mk_gpio_cfg pin GPIO_DIR_OUTPUT GPIO_VALUE_LOW GPIO_EDGE_NONE 0.

(** [dev/hal/layers/gpio/gpio_hal.c:551-592 gpio_hal_create] [nm], [cfg]: None for NULL;
    [mem], [lock], [mem']: the allocations and the lock succeed. *)
Definition gpio_hal_create (nm : option string) (cfg : option gpio_config_t) (mem lock mem' : bool)
    : option (hw gpio_priv_t) :=
  match nm, cfg with
  | Some nm, Some cfg =>
      if negb (validate_gpio_pin (c_pin cfg) =? 0) then None
      else if negb mem || negb lock || negb mem' then None
      else Some (mk_hw (strncpy_z 63 nm) 4 HAL_STATE_CLOSED (-1)
                   (Z.lor (Z.lor HAL_CAP_READ HAL_CAP_WRITE) HAL_CAP_CONTROL)
                   (Some (mk_gpio (c_pin cfg) cfg (-1) false)))
  | _, _ => None
  end.

(** ** The driver *)

Inductive gpio_req :=
| GRead (buf : bool) (size : Z)
| GWrite (data : option Z) (size : Z)
| GControl (cmd : Z) (a : arg Z)
| GInfo (old : option gpio_info_t).

(** [dev/hal/layers/gpio/gpio_hal.c:504-514 gpio_ops] *)
#[export] Instance gpio_ops {W} `{Kernel W} : HalDriver gpio_priv_t gpio_req W := {
  drv_open := gpio_open; drv_close := gpio_close; drv_start := gpio_start; drv_stop := gpio_stop;
  drv_request r := match r with
                   | GRead b n => gpio_read b n ≫= fun _ => mret tt
                   | GWrite d n => gpio_write d n ≫= fun _ => mret tt
                   | GControl c a => gpio_control c a ≫= fun _ => mret tt
                   | GInfo o => gpio_get_info o ≫= fun _ => mret tt
                   end;
  drv_cleanup := gpio_priv_cleanup
}.

Definition gpio_owned (p : gpio_priv_t) : gset resource :=
  if 0 <=? value_fd p then {[Fd (value_fd p)]} else ∅.

Section laws.
Context {W : Type} `{Ledger W} `{Kernel W} `{!KernelLaws W}.

Lemma sysfs_write_quiet path value : quiet (sysfs_write path value).
Proof. apply quiet_bracket. auto with hal. Qed.
Hint Resolve sysfs_write_quiet : hal.

Notation bal := (balanced (W:=W) gpio_owned).

Lemma gpio_read_balanced B b n : keeps (bal B) (gpio_read b n).
Proof. unfold gpio_read. auto 10 with hal. Qed.

Lemma gpio_write_balanced B d n : keeps (bal B) (gpio_write d n).
Proof. unfold gpio_write. apply keeps_with_priv. intros p. destruct d; auto 10 with hal. Qed.
Hint Resolve gpio_read_balanced gpio_write_balanced : hal.

Lemma gpio_get_balanced B v : keeps (bal B) (gpio_hal_get_value v).
Proof. unfold gpio_hal_get_value. auto with hal. Qed.
Hint Resolve gpio_get_balanced : hal.

Lemma gpio_set_balanced B v : keeps (bal B) (gpio_hal_set_value v).
Proof. unfold gpio_hal_set_value. auto with hal. Qed.
Hint Resolve gpio_set_balanced : hal.

Lemma gpio_toggle_balanced B : keeps (bal B) gpio_hal_toggle.
Proof. unfold gpio_hal_toggle. auto with hal. Qed.

Lemma gpio_wait_balanced B t : keeps (bal B) (gpio_hal_wait_interrupt t).
Proof. unfold gpio_hal_wait_interrupt. auto 10 with hal. Qed.
Hint Resolve gpio_toggle_balanced gpio_wait_balanced : hal.

Lemma gpio_control_balanced B c a : keeps (bal B) (gpio_control c a).
Proof.
  unfold gpio_control. apply keeps_with_priv. intros p.
  repeat case_match; first
    [ apply at_set; [done|]; intros _; auto 10 with hal
    | apply at_bal; auto 10 with hal ].
Qed.

Lemma gpio_info_balanced B o : keeps (bal B) (gpio_get_info o).
Proof.
  unfold gpio_get_info. apply keeps_with_priv. intros p. apply at_bal. destruct o; auto 10 with hal.
Qed.

Lemma gpio_open_balanced B : triple (closed gpio_owned B) gpio_open (fun _ => bal B).
Proof.
  apply closed_with_priv. intros p Hp.
  apply at_seq; [auto with hal|]. intros ex. apply at_seq; [auto with hal|]. intros acc.
  case_match; [apply at_bal; auto with hal|].
  apply at_set; [done|]. intros _. do 3 (apply at_seq; [auto with hal|]; intros _).
  eapply (at_open gpio_owned B); [exact Hp|intros fd Hfd|intros fd Hfd].
  - assert (Ho : gpio_owned (with_value_fd fd (with_exported true p)) = {[Fd fd]}).
    { unfold gpio_owned. simpl. by destruct (Z.leb_spec 0 fd); [|lia]. }
    eapply triple_seq; [by apply (taken_recorded gpio_owned)|]. intros _.
    replace (fd <? 0) with false by lia.
    eapply triple_seq; [apply taken_set_fd|]. intros _.
    eapply triple_seq; [by apply (taken_open gpio_owned)|]. intros _. apply keeps_ret.
  - apply at_set; [|intros _].
    { trans (∅ : gset resource); [|by rewrite <- Hp]. unfold gpio_owned. simpl.
      by destruct (Z.leb_spec 0 fd); [lia|]. }
    replace (fd <? 0) with true by lia. apply at_bal. auto with hal.
Qed.

(** The descriptor is closed and no longer named. *)
Lemma close_value_gives_back B p :
  triple (bal_at gpio_owned B p) (close_value p) (fun p' s => gpio_owned p' = ∅ /\ given_back B s).
Proof.
  unfold close_value. destruct (Z.leb_spec 0 (value_fd p)) as [Hfd|Hfd].
  - eapply triple_seq; [apply (at_close gpio_owned B)|].
    + unfold gpio_owned. by destruct (Z.leb_spec 0 (value_fd p)); [|lia].
    + intros _ s Hs. done.
  - intros s Hs. assert (Ho : gpio_owned p = ∅).
    { unfold gpio_owned. by destruct (Z.leb_spec 0 (value_fd p)); [lia|]. }
    split; [done|]. by eapply bal_given.
Qed.

Lemma unexport_given B p : keeps (given_back (P:=gpio_priv_t) B) (unexport p).
Proof. unfold unexport. destruct (exported p); [apply given_call; auto with hal|apply keeps_ret]. Qed.

Lemma gpio_close_closes B : triple (bal B) gpio_close (fun _ => closed gpio_owned B).
Proof.
  apply bal_with_priv. intros p.
  eapply triple_bind; [apply close_value_gives_back|]. intros p'.
  apply triple_pure. intros Ho.
  eapply triple_seq; [apply unexport_given|]. intros _. by apply (given_closed gpio_owned B).
Qed.

Lemma gpio_cleanup_gives_back B :
  triple (closed gpio_owned B) gpio_priv_cleanup (fun _ s => held (world s) = B).
Proof.
  eapply triple_pre with (P := bal B); [|by intros s []].
  apply bal_with_priv. intros p.
  eapply triple_bind; [apply close_value_gives_back|]. intros p'. apply triple_pure. intros Ho.
  eapply triple_seq; [apply unexport_given|]. intros _. apply given_set_priv.
Qed.

#[export] Instance gpio_laws : HalDriverLaws (W:=W) gpio_owned.
Proof.
  split; intros B; simpl.
  - apply gpio_open_balanced.
  - apply gpio_close_closes.
  - unfold gpio_start. apply keeps_get_state. intros x. auto 10 with hal.
  - unfold gpio_stop. auto 10 with hal.
  - intros []; auto using gpio_control_balanced, gpio_info_balanced with hal.
  - apply gpio_cleanup_gives_back.
Qed.
End laws.

(** ** What the driver keeps *)

(** A device just created, in a world. *)
Definition fresh_gpio {W} (nm : string) (cfg : gpio_config_t) (w : W) : option (st gpio_priv_t W) :=
  (fun d => mk_st d w) <$> gpio_hal_create (Some nm) (Some cfg) true true true.

Lemma fresh_gpio_closed {W} `{Ledger W} `{Kernel W} nm cfg (w : W) s : fresh_gpio nm cfg w = Some s ->
  closed gpio_owned (held w) s /\ world s = w.
Proof.
  unfold fresh_gpio, gpio_hal_create. simpl. case_match; [done|]. intros [= <-]. repeat split; simpl.
  eexists. split; [done|]. simpl. unfold gpio_owned. simpl. set_solver.
Qed.

(** Whatever a client does with a pin — open, close, start, stop, read, write,
    control, in any order and with any arguments, as long as it opens the device only
    when it is closed — when the last reference goes the process holds exactly the
    descriptors it held before, however the kernel answers. *)
Theorem gpio_no_leak {W} `{Ledger W} `{Kernel W} `{!KernelLaws W} nm cfg (w : W) s cs :
  fresh_gpio nm cfg w = Some s -> opens_closed cs s = true ->
  held (world (hal_device_last_unref (drv_run cs s).2).2) = held w.
Proof.
  intros Hs Ho. destruct (fresh_gpio_closed _ _ _ _ Hs) as [Hc _].
  by apply (driver_no_leak gpio_owned).
Qed.

Section pin.
Context {W : Type} `{Kernel W} (level : Z -> W -> bool).
(** The kernel's value file: reading gives the level of the pin, writing "1" or "0" sets it. *)
Hypothesis rewind_level : forall fd fd' w, level fd (k_rewind fd' w).2 = level fd w.
Hypothesis read_level : forall fd w, 0 < (k_read fd 3 w).1.1 ->
  (exists c t, (k_read fd 3 w).1.2 = String c t /\ Ascii.eqb c "1" = level fd w) /\
  level fd (k_read fd 3 w).2 = level fd w.
Hypothesis write_level : forall fd v w, v = "1"%string \/ v = "0"%string -> (k_write fd v w).1 = 1 ->
  level fd (k_write fd v w).2 = String.eqb v "1".

(** A toggle that reports success has inverted the level of the pin. *)
Theorem gpio_toggle_flips s p s' : h_priv (dev s) = Some p ->
  gpio_hal_toggle s = (HAL_SUCCESS, s') ->
  level (value_fd p) (world s') = negb (level (value_fd p) (world s)) /\ dev s' = dev s.
Proof.
  intros Hp. unfold gpio_hal_toggle, gpio_hal_get_value, gpio_read, gpio_hal_set_value, gpio_write, with_priv.
  unfold mbind, M_bind, mret, M_ret, call. rewrite Hp. simpl.
  pose proof (rewind_level (value_fd p) (value_fd p) (world s)) as Hrw.
  destruct (k_rewind (value_fd p) (world s)) as [[] w1]. simpl in *.
  pose proof (read_level (value_fd p) w1) as Hr.
  destruct (k_read (value_fd p) 3 w1) as [[n t] w2]. simpl in *.
  destruct (Z.leb_spec n 0) as [Hn|Hn]; simpl; [done|].
  destruct Hr as [(c & t' & -> & Hc) Hr]; [done|]. rewrite Hc.
  rewrite Hp. simpl.
  pose proof (rewind_level (value_fd p) (value_fd p) w2) as Hrw'.
  destruct (k_rewind (value_fd p) w2) as [[] w3]. simpl in *.
  pose proof (fun v => write_level (value_fd p) v w3) as Hw.
  destruct (level (value_fd p) w1) eqn:Hl; simpl in *; rewrite <- Hrw.
  all: match goal with |- context [k_write ?fd ?v ?w] =>
    specialize (Hw v ltac:(auto)); destruct (k_write fd v w) as [m w4]; simpl in * end.
  all: destruct (Z.eqb_spec m 1) as [->|]; simpl; [|done].
  all: intros [= <-]; simpl; split; [|done].
  all: by rewrite Hw.
Qed.
End pin.

(** A wait of 2^31 milliseconds or more is handed to [poll] as a negative number: it
    has no timeout. *)
Lemma long_wait_is_forever {W} `{Kernel W} s p t : h_priv (dev s) = Some p -> 2 ^ 31 <= t < 2 ^ 32 ->
  exists n, n < 0 /\
  (gpio_hal_wait_interrupt (W:=W) t s).1 =
    let w := (k_read (value_fd p) 4 (k_rewind (value_fd p) (world s)).2).2 in
    let ret := (k_poll (value_fd p) n w).1 in
    if ret <? 0 then HAL_ERROR_IO else if ret =? 0 then HAL_ERROR_TIMEOUT else HAL_SUCCESS.
Proof.
  intros Hp Ht. exists (i32 t). split.
  - unfold i32. rewrite <- (Z.mod_unique (t + 2 ^ 31) (2 ^ 32) 1 (t - 2 ^ 31)) by lia. lia.
  - unfold gpio_hal_wait_interrupt, with_priv, mbind, M_bind, call. rewrite Hp.
    replace (t =? 0) with false by lia.
    destruct (k_rewind (value_fd p) (world s)) as [[] w1]. simpl.
    destruct (k_read (value_fd p) 4 w1) as [r w2]. simpl.
    by destruct (k_poll (value_fd p) (i32 t) w2) as [ret w3].
Qed.

(** A stop opens a device that is closed: it is then started and used without descriptor. *)
Lemma stop_opens_closed {W} `{Kernel W} s : h_state (dev s) = HAL_STATE_CLOSED ->
  h_state (dev (gpio_start (gpio_stop (W:=W) s).2).2) = HAL_STATE_ACTIVE.
Proof. by intros. Qed.

(** A world with pin 17, and what is done to it. *)
Definition gpio_world : toy :=
  mk_toy [(3, "/run/log"%string)]
    (list_to_map ((fun p => (p, ""%string)) <$>
       ["/sys/class/gpio/export"; "/sys/class/gpio/unexport"; "/sys/class/gpio/gpio17";
        "/sys/class/gpio/gpio17/direction"; "/sys/class/gpio/gpio17/value"; "/sys/class/gpio/gpio17/edge"])).
Definition gpio17 : st gpio_priv_t toy :=
  default (mk_st (mk_hw "" 0 HAL_STATE_CLOSED 0 0 None) gpio_world)
    (fresh_gpio "led" (gpio_hal_default_config 17) gpio_world).

(** A second open of the same device leaves the first descriptor open for good. *)
Lemma reopen_leaks :
  Fd 4 ∈ held (world (hal_device_last_unref (drv_run (Req:=gpio_req) [DoOpen; DoOpen; DoClose] gpio17).2).2) /\
  Fd 4 ∉ held gpio_world.
Proof. split; refine (bool_decide_unpack _ _); by vm_compute. Qed.

Lemma gpio_no_leak_witness :
  (fresh_gpio "led" (gpio_hal_default_config 17) gpio_world = Some gpio17 /\
   opens_closed [DoOpen; DoStart; Do (GControl GPIO_CMD_TOGGLE (mk_arg 0 0)); Do (GRead true 1)] gpio17 = true) /\
  held (world (hal_device_last_unref (drv_run
    [DoOpen; DoStart; Do (GControl GPIO_CMD_TOGGLE (mk_arg 0 0)); Do (GRead true 1)] gpio17).2).2) = held gpio_world.
Proof.
  split; [by vm_compute|].
  apply (gpio_no_leak "led" (gpio_hal_default_config 17)); by vm_compute.
Defined.

(** The level of the pin behind a descriptor of the world above. *)
Definition toy_level (fd : Z) (w : toy) : bool :=
  match toy_path fd w ≫= fun p => t_files w !! p with
  | Some (String c _) => Ascii.eqb c "1"
  | _ => false
  end.

Lemma gpio_toggle_flips_witness :
  gpio_hal_toggle (gpio_open gpio17).2 = (HAL_SUCCESS, (gpio_hal_toggle (gpio_open gpio17).2).2) /\
  (toy_level 4 (world (gpio_hal_toggle (gpio_open gpio17).2).2) = negb (toy_level 4 (world (gpio_open gpio17).2)) /\
   dev (gpio_hal_toggle (gpio_open gpio17).2).2 = dev (gpio_open gpio17).2).
Proof.
  split; [by vm_compute|].
  refine (gpio_toggle_flips toy_level _ _ _ (gpio_open gpio17).2
            (mk_gpio 17 (gpio_hal_default_config 17) 4 true) _ _ _); [done| | |by vm_compute|by vm_compute].
  - intros fd w. unfold toy_level. simpl. destruct (toy_path fd w) as [p|] eqn:Hp; simpl; [|done].
    destruct (t_files w !! p) as [[|c t]|] eqn:Hf; simpl; try done.
    intros _. rewrite Hp. simpl. rewrite Hf. split; [|done]. by exists c, (strncpy_z 2 t).
  - intros fd v w Hv. unfold toy_level. simpl. destruct (toy_path fd w) as [p|] eqn:Hp; simpl; [|done].
    intros _. unfold toy_path in *. simpl. rewrite Hp. simpl. rewrite lookup_insert_eq. by destruct Hv as [-> | ->].
Defined.
