(* ===== verification/SensorHal.v ===== *)
(** * Sensors (hal/layers/sensors/sensor_hal.c)

    The Industrial I/O backend: identifier check, text attributes, the layout of a
    buffer scan, reading in both modes, calibration. *)

From stdpp Require Import sorting.
From S2P Require Import Prelude CText Float64 HalRegistry HalDevice.

(** ** float *)

Definition fadd : double -> double -> double := SFadd 24 128.
Definition fmul : double -> double -> double := SFmul 24 128.
Definition f_of_Z (z : Z) : double := binary_normalize 24 128 z 0 false.
Definition f_finite (f : double) : bool :=
  match f with S754_zero _ | S754_finite _ _ _ => true | _ => false end.

(** The float with given bits. *)
Definition f_of_bits (z : Z) : double :=
  let s := Z.testbit z 31 in
  let e := Z.land (Z.shiftr z 23) 255 in
  let m := Z.land z (2 ^ 23 - 1) in
  if e =? 255 then (if m =? 0 then S754_infinity s else S754_nan)
  else match (if e =? 0 then m else m + 2 ^ 23) with
       | Zpos p => S754_finite s p (Z.max e 1 - 150)
       | _ => S754_zero s
       end.

(** ** Data *)

(** [dev/hal/layers/sensors/sensor_hal.h:44-53 sensor_type_t] *)
Definition SENSOR_TYPE_ACCEL : Z := 1.
Definition SENSOR_TYPE_GYRO : Z := 2.
Definition SENSOR_TYPE_MAGNET : Z := 3.
Definition SENSOR_TYPE_LIGHT : Z := 4.
Definition SENSOR_TYPE_PROXIMITY : Z := 5.
Definition SENSOR_TYPE_PRESSURE : Z := 6.
Definition SENSOR_TYPE_TEMPERATURE : Z := 7.
Definition SENSOR_TYPE_HUMIDITY : Z := 8.

(** [dev/hal/layers/sensors/sensor_hal.h:99-104 sensor_config_t] *)
Record sensor_config_t := mk_sensor_cfg {
  s_type : Z; sampling_rate_hz : Z; s_scale : Z; enable_buffer : Z
}.

(** [dev/hal/layers/sensors/sensor_hal.h:71-76 sensor_data_3axis_t] *)
Record sensor_data_3axis_t := mk_data3 { d_x : double; d_y : double; d_z : double; d_time : Z }.

(** [dev/hal/layers/sensors/sensor_hal.h:84-87 sensor_data_1axis_t] *)
Record sensor_data_1axis_t := mk_data1 { d_value : double; d1_time : Z }.

(** [dev/hal/layers/sensors/sensor_hal.h:118-122 sensor_offsets_t] *)
Record sensor_offsets_t := mk_offsets { o_x : double; o_y : double; o_z : double }.

(** [dev/hal/layers/sensors/sensor_hal.h:161-170 sensor_cmd_t] *)
Definition SENSOR_CMD_SET_RATE : Z := 0x2000.
Definition SENSOR_CMD_GET_RATE : Z := 0x2001.
Definition SENSOR_CMD_ENABLE_BUFFER : Z := 0x2002.
Definition SENSOR_CMD_CALIBRATE : Z := 0x2003.
Definition SENSOR_CMD_GET_CONFIG : Z := 0x2004.
Definition SENSOR_CMD_SET_SCALE : Z := 0x2005.
Definition SENSOR_CMD_GET_OFFSETS : Z := 0x2006.
Definition SENSOR_CMD_SET_OFFSETS : Z := 0x2007.

(** [dev/hal/layers/sensors/sensor_hal.c:63-70 iio_scan_layout_t] *)
Record iio_scan_layout_t := mk_layout {
  x_byte_offset : Z; y_byte_offset : Z; z_byte_offset : Z; ts_byte_offset : Z;
  stride : Z; has_timestamp : bool
}.

(** [dev/hal/layers/sensors/sensor_hal.c:87-97 sensor_priv_t] *)
Record sensor_priv_t := mk_sensor {
  iio_sysfs_path : string;
  iio_dev_node : string;
  s_config : sensor_config_t;
  scale_value : double;
  offsets : sensor_offsets_t;
  buffer_fd : Z;
  scan_layout : iio_scan_layout_t
}.

Definition with_s_config c p :=
  mk_sensor (iio_sysfs_path p) (iio_dev_node p) c (scale_value p) (offsets p) (buffer_fd p) (scan_layout p).
Definition with_scale v p :=
  mk_sensor (iio_sysfs_path p) (iio_dev_node p) (s_config p) v (offsets p) (buffer_fd p) (scan_layout p).
Definition with_offsets o p :=
  mk_sensor (iio_sysfs_path p) (iio_dev_node p) (s_config p) (scale_value p) o (buffer_fd p) (scan_layout p).
Definition with_buffer_fd fd p :=
  mk_sensor (iio_sysfs_path p) (iio_dev_node p) (s_config p) (scale_value p) (offsets p) fd (scan_layout p).
Definition with_layout l p :=
  mk_sensor (iio_sysfs_path p) (iio_dev_node p) (s_config p) (scale_value p) (offsets p) (buffer_fd p) l.

(** [dev/hal/layers/sensors/sensor_hal.c:112-121 SENSOR_CMD_SPECS] *)
Definition SENSOR_CMD_SPECS : list (Z * Z) :=
  [(SENSOR_CMD_SET_RATE, 4); (SENSOR_CMD_GET_RATE, 4); (SENSOR_CMD_ENABLE_BUFFER, 4);
   (SENSOR_CMD_CALIBRATE, 0); (SENSOR_CMD_GET_CONFIG, 16); (SENSOR_CMD_SET_SCALE, 4);
   (SENSOR_CMD_GET_OFFSETS, 12); (SENSOR_CMD_SET_OFFSETS, 12)].

(** [dev/hal/layers/sensors/sensor_hal.c:185-199 validate_control_arg] *)
Definition sensor_validate_control_arg : Z -> Z -> Z := check_arg SENSOR_CMD_SPECS.

(** [dev/hal/layers/sensors/sensor_hal.c:44-45 IIO_BASE_PATH] *)
Definition IIO_BASE_PATH : string := "/sys/bus/iio/devices".
Definition IIO_DEV_PREFIX : string := "/dev/iio:".

(** [dev/hal/layers/sensors/sensor_hal.c:326-338 iio_channel_prefix] *)
Definition iio_channel_prefix (type : Z) : string :=
  if type =? SENSOR_TYPE_ACCEL then "in_accel"
  else if type =? SENSOR_TYPE_GYRO then "in_anglvel"
  else if type =? SENSOR_TYPE_MAGNET then "in_magn"
  else if type =? SENSOR_TYPE_LIGHT then "in_illuminance"
  else if type =? SENSOR_TYPE_PROXIMITY then "in_proximity"
  else if type =? SENSOR_TYPE_PRESSURE then "in_pressure"
  else if type =? SENSOR_TYPE_TEMPERATURE then "in_temp"
  else if type =? SENSOR_TYPE_HUMIDITY then "in_humidity"
  else "in_unknown".

(** [dev/hal/layers/sensors/sensor_hal.c:917-929 sensor_hal_type_string] *)
Definition sensor_hal_type_string (type : Z) : string :=
  if type =? SENSOR_TYPE_ACCEL then "accelerometer"
  else if type =? SENSOR_TYPE_GYRO then "gyroscope"
  else if type =? SENSOR_TYPE_MAGNET then "magnetometer"
  else if type =? SENSOR_TYPE_LIGHT then "light"
  else if type =? SENSOR_TYPE_PROXIMITY then "proximity"
  else if type =? SENSOR_TYPE_PRESSURE then "pressure"
  else if type =? SENSOR_TYPE_TEMPERATURE then "temperature"
  else if type =? SENSOR_TYPE_HUMIDITY then "humidity"
  else "unknown".

(** [dev/hal/layers/sensors/sensor_hal.c:940-947 sensor_hal_default_config] *)
Definition sensor_hal_default_config (type : Z) : sensor_config_t := mk_sensor_cfg type 100 1 0.

(** ** The layout of a scan *)

(** [dev/hal/layers/sensors/sensor_hal.c:410-418 compute_iio_scan_layout, the sort] One
    element (index, axis) goes down to its place. *)
Fixpoint sift (j : nat) (a : list (Z * Z)) : list (Z * Z) :=
  match j with
  | O => a
  | S i =>
      let lo := nth i a (0, 0) in
      let hi := nth j a (0, 0) in
      if hi.1 <? lo.1 then sift i (<[i := hi]> (<[j := lo]> a)) else a
  end.
Definition sort_axes (ix iy iz : Z) : list (Z * Z) := sift 2 (sift 1 [(ix, 0); (iy, 1); (iz, 2)]).

(** [dev/hal/layers/sensors/sensor_hal.c:420-430 compute_iio_scan_layout, the offsets] *)
Definition place (l : iio_scan_layout_t) (slot_axis : Z * Z) : iio_scan_layout_t :=
  let '(slot, axis) := slot_axis in
  let off := slot * 2 in
  if axis =? 0 then mk_layout off (y_byte_offset l) (z_byte_offset l) (ts_byte_offset l) (stride l) (has_timestamp l)
  else if axis =? 1 then mk_layout (x_byte_offset l) off (z_byte_offset l) (ts_byte_offset l) (stride l) (has_timestamp l)
  else if axis =? 2 then mk_layout (x_byte_offset l) (y_byte_offset l) off (ts_byte_offset l) (stride l) (has_timestamp l)
  else l.
(** [dev/hal/layers/sensors/sensor_hal.c:409-443 compute_iio_scan_layout, the layout]
    [ts]: there is a timestamp channel. *)
Definition layout_of (ix iy iz : Z) (ts : bool) (l : iio_scan_layout_t) : iio_scan_layout_t :=
  let l := fold_left place (combine [0; 1; 2] (snd <$> sort_axes ix iy iz)) l in
  let after_axes := 3 * 2 in
  if ts then
    let off := Z.land (after_axes + 7) (Z.lnot 7) in
    mk_layout (x_byte_offset l) (y_byte_offset l) (z_byte_offset l) off (off + 8) true
  else mk_layout (x_byte_offset l) (y_byte_offset l) (z_byte_offset l) 0 after_axes false.

Definition i16 (z : Z) : Z := (z + 2 ^ 15) mod 2 ^ 16 - 2 ^ 15.

(** [dev/hal/layers/sensors/sensor_hal.c:690-704 sensor_read, one scan] [now]: the clock, used
    when the scan has no timestamp. *)
Definition decode_scan (p : sensor_priv_t) (scan : list Z) (now : Z) : sensor_data_3axis_t :=
  let l := scan_layout p in
  let raw off := i16 (le_val (take 2 (drop (Z.to_nat off) scan))) in
  let value off o := fadd (fmul (f_of_Z (raw off)) (scale_value p)) o in
  mk_data3 (value (x_byte_offset l) (o_x (offsets p)))
           (value (y_byte_offset l) (o_y (offsets p)))
           (value (z_byte_offset l) (o_z (offsets p)))
           (if has_timestamp l then le_val (take 8 (drop (Z.to_nat (ts_byte_offset l)) scan)) else now).

Section sensor.
Context {W : Type} `{Kernel W}.
(** C's [strtof]: the value, whether characters were consumed, whether errno was set. *)
Context (strtof : string -> double * bool * bool).
Notation DM := (M (st sensor_priv_t W)).

(** The text a buffer holds: up to the first NUL. *)
Definition c_text (s : string) : string := before "000"%char s.

(** The last byte of what was read, if it is a newline, becomes the terminator. *)
Definition strip_newline (s : string) : string :=
  match get (pred (String.length s)) s with
  | Some c => if Ascii.eqb c newline then substring 0 (pred (String.length s)) s else s
  | None => s
  end.

(** [dev/hal/layers/sensors/sensor_hal.c:215-232 read_sysfs_text] None for -1. *)
Definition read_sysfs_text (path : string) (size : nat) : M W (option string) :=
  k_open path ≫= fun fd =>
  if fd <? 0 then mret None
  else (k_read fd (size - 1) ≫= fun r =>
        mret (if r.1 <=? 0 then None else Some (c_text (strip_newline r.2)))) ≫= fun t =>
       k_close fd ≫= fun _ => mret t.

(** [dev/hal/layers/sensors/sensor_hal.c:244-254 write_sysfs_text] *)
Definition write_sysfs_text (path value : string) : M W Z :=
  k_open path ≫= fun fd =>
  if fd <? 0 then mret (-1)
  else (k_write fd value ≫= fun written =>
        mret (if written =? Z.of_nat (String.length value) then 0 else -1)) ≫= fun rc =>
       k_close fd ≫= fun _ => mret rc.

(** Where [strtol] stops. *)
Definition strto_end (base : Z) (s : string) : string :=
  let s := ltrim isspace s in
  let s := match s with
           | String c s' => if Ascii.eqb c "-" || Ascii.eqb c "+" then s' else s
           | EmptyString => s
           end in
  substring (digits base s 0 0).2 (String.length s) s.

(** [dev/hal/layers/sensors/sensor_hal.c:273-283 read_sysfs_int, the text] *)
Definition parse_int (t : string) : option Z :=
  match strto 10 t with
  | None => None
  | Some v =>
      if negb ((- 2 ^ 63 <=? v) && (v <? 2 ^ 63)) then None
      else if negb (match strto_end 10 t with String c _ => Ascii.eqb c newline | "" => true end) then None
      else if (2 ^ 31 - 1 <? v) || (v <? - 2 ^ 31) then None
      else Some v
  end.

(** [dev/hal/layers/sensors/sensor_hal.c:268-284 read_sysfs_int] None for -1. *)
Definition read_sysfs_int (path : string) : M W (option Z) :=
  read_sysfs_text path 32 ≫= fun t => mret (t ≫= parse_int).

(** [dev/hal/layers/sensors/sensor_hal.c:298-313 read_sysfs_float] None for -1. *)
Definition read_sysfs_float (path : string) : M W (option double) :=
  read_sysfs_text path 64 ≫= fun t =>
  mret (t ≫= fun t => let '(v, some, err) := strtof t in
                     if err : bool then None
                     else if negb some then None
                     else if negb (f_finite v) then None
                     else Some v).

(** [dev/hal/layers/sensors/sensor_hal.c:352-365 read_sysfs_axis] None for -1. *)
Definition read_sysfs_axis (p : sensor_priv_t) (axis : string) : M W (option double) :=
  read_sysfs_int (iio_sysfs_path p +:+ "/" +:+ iio_channel_prefix (s_type (s_config p)) +:+ "_" +:+ axis +:+ "_raw")
  ≫= fun raw => mret ((fun v => fmul (f_of_Z v) (scale_value p)) <$> raw).

(** [dev/hal/layers/sensors/sensor_hal.c:386-444 compute_iio_scan_layout] the result and the
    changed private data. *)
Definition compute_iio_scan_layout (p : sensor_priv_t) (prefix : string) : M W (Z * sensor_priv_t) :=
  let index_of name := read_sysfs_int (iio_sysfs_path p +:+ "/scan_elements/" +:+ name +:+ "_index") in
  ix ← index_of (prefix +:+ "_x"%string);
  iy ← index_of (prefix +:+ "_y"%string);
  iz ← index_of (prefix +:+ "_z"%string);
  its ← index_of "timestamp"%string;
  let l := scan_layout p in
  let ts := match its with Some _ => true | None => false end in
  let idx o := default (-1) o in
  mret (if (idx ix <? 0) || (idx iy <? 0) || (idx iz <? 0)
        then (-1, with_layout (mk_layout (x_byte_offset l) (y_byte_offset l) (z_byte_offset l)
                                 (ts_byte_offset l) (stride l) ts) p)
        else (0, with_layout (layout_of (idx ix) (idx iy) (idx iz) ts l) p)).

(** [dev/hal/layers/sensors/sensor_hal.c:465-505 open_iio_buffer] *)
Definition open_iio_buffer (p : sensor_priv_t) (prefix : string) : M W (Z * sensor_priv_t) :=
  let base := iio_sysfs_path p in
  _ ← write_sysfs_text (base +:+ "/scan_elements/" +:+ prefix +:+ "_x_en") "1";
  _ ← write_sysfs_text (base +:+ "/scan_elements/" +:+ prefix +:+ "_y_en") "1";
  _ ← write_sysfs_text (base +:+ "/scan_elements/" +:+ prefix +:+ "_z_en") "1";
  _ ← write_sysfs_text (base +:+ "/scan_elements/timestamp_en") "1";
  r ← compute_iio_scan_layout p prefix;
  let '(rc, p) := r : Z * sensor_priv_t in
  if negb (rc =? 0) then mret (-1, p)
  else
    _ ← write_sysfs_text (base +:+ "/buffer/length") "64";
    _ ← write_sysfs_text (base +:+ "/buffer/enable") "1";
    fd ← k_open (iio_dev_node p);
    let p := with_buffer_fd fd p in
    if fd <? 0 then _ ← write_sysfs_text (base +:+ "/buffer/enable") "0"; mret (-1, p)
    else mret (0, p).

(** [dev/hal/layers/sensors/sensor_hal.c:515-524 close_iio_buffer] *)
Definition close_iio_buffer (p : sensor_priv_t) : M W sensor_priv_t :=
  p' ← (if 0 <=? buffer_fd p then _ ← k_close (buffer_fd p); mret (with_buffer_fd (-1) p) else mret p);
  _ ← write_sysfs_text (iio_sysfs_path p +:+ "/buffer/enable") "0";
  mret p'.

(** [dev/hal/layers/sensors/sensor_hal.c:556-588 sensor_open] *)
Definition sensor_open : DM Z :=
  with_priv HAL_ERROR_INVALID (fun p =>
    let prefix := iio_channel_prefix (s_type (s_config p)) in
    v ← call (read_sysfs_float (iio_sysfs_path p +:+ "/" +:+ prefix +:+ "_scale"));
    let p := with_scale (default (f_of_Z 1) v) p in
    _ ← set_priv (Some p);
    _ ← call (write_sysfs_text (iio_sysfs_path p +:+ "/sampling_frequency")
                (decimal (sampling_rate_hz (s_config p))));
    r ← call (if negb (enable_buffer (s_config p) =? 0)
              then r ← open_iio_buffer p prefix;
                   mret (r.1, if negb (r.1 =? 0) then with_buffer_fd (-1) r.2 else r.2)
              else mret (0, p));
    _ ← set_priv (Some r.2);
    _ ← set_state HAL_STATE_OPEN;
    mret HAL_SUCCESS).

(** [dev/hal/layers/sensors/sensor_hal.c:596-606 sensor_close] *)
Definition sensor_close : DM Z :=
  with_priv HAL_ERROR_INVALID (fun p =>
    p ← call (close_iio_buffer p);
    _ ← set_priv (Some p);
    _ ← set_state HAL_STATE_CLOSED;
    mret HAL_SUCCESS).

(** [dev/hal/layers/sensors/sensor_hal.c:614-622 sensor_start] *)
Definition sensor_start : DM Z :=
  x ← get_state;
  if negb (bool_decide (x = HAL_STATE_OPEN)) then mret HAL_ERROR_INVALID
  else _ ← set_state HAL_STATE_ACTIVE; mret HAL_SUCCESS.

(** [dev/hal/layers/sensors/sensor_hal.c:630-636 sensor_stop] *)
Definition sensor_stop : DM Z :=
  _ ← set_state HAL_STATE_OPEN; mret HAL_SUCCESS.

Definition is_3axis (p : sensor_priv_t) : bool :=
  let t := s_type (s_config p) in
  (t =? SENSOR_TYPE_ACCEL) || (t =? SENSOR_TYPE_GYRO) || (t =? SENSOR_TYPE_MAGNET).

(** What a caller's buffer is: one of the two structures, with its size. *)
Inductive sensor_buffer := B3 (d : sensor_data_3axis_t) | B1 (d : sensor_data_1axis_t).
Definition b_size (b : sensor_buffer) : Z := match b with B3 _ => 24 | B1 _ => 16 end.

(** The value of an axis and the time stored at the beginning of either structure: in the
    larger one the time falls on the third axis. *)
Definition put1 (v : double) (time : Z) (b : sensor_buffer) : sensor_buffer :=
  match b with
  | B1 _ => B1 (mk_data1 v time)
  | B3 d => B3 (mk_data3 v (d_y d) (f_of_bits (u32 time)) (d_time d))
  end.

(** [dev/hal/layers/sensors/sensor_hal.c:707-713 sensor_read, three files] The axes are
    stored one by one; the offsets are added at the end. *)
Definition read_files (p : sensor_priv_t) (d : sensor_data_3axis_t) (now : Z)
    : M W (Z * sensor_data_3axis_t) :=
  x ← read_sysfs_axis p "x";
  match x with
  | None => mret (HAL_ERROR_IO, d)
  | Some x =>
      y ← read_sysfs_axis p "y";
      match y with
      | None => mret (HAL_ERROR_IO, mk_data3 x (d_y d) (d_z d) (d_time d))
      | Some y =>
          z ← read_sysfs_axis p "z";
          match z with
          | None => mret (HAL_ERROR_IO, mk_data3 x y (d_z d) (d_time d))
          | Some z =>
              let o := offsets p in
              mret (24, mk_data3 (fadd x (o_x o)) (fadd y (o_y o)) (fadd z (o_z o)) now)
          end
      end
  end.

(** [dev/hal/layers/sensors/sensor_hal.c:657-728 sensor_read] [buf]: the caller's buffer, None
    for NULL; [now]: the monotonic clock. *)
Definition sensor_read (buf : option sensor_buffer) (now : Z) : DM (Z * option sensor_buffer) :=
  with_priv (HAL_ERROR_INVALID, buf) (fun p =>
    x ← get_state;
    match buf with
    | None => mret (HAL_ERROR_INVALID, None)
    | Some b =>
        if negb (bool_decide (x = HAL_STATE_ACTIVE)) then mret (HAL_ERROR_INVALID, buf)
        else if is_3axis p then
          match b with
          | B1 _ => mret (HAL_ERROR_INVALID, buf)    (** [buffer_size] is too small *)
          | B3 d =>
              if 0 <=? buffer_fd p then
                let n := stride (scan_layout p) in
                if 64 <? n then mret (HAL_ERROR_INVALID, buf)
                else
                  r ← call (k_read (buffer_fd p) (Z.to_nat n));
                  mret (if r.1 <? 0 then (if r.1 =? -11 then HAL_ERROR_TIMEOUT else HAL_ERROR_IO, buf)
                        else if r.1 <? n then (HAL_ERROR_IO, buf)
                        else (24, Some (B3 (decode_scan p (ascii_bytes r.2) now))))
              else
                r ← call (read_files p d now);
                mret (r.1, Some (B3 r.2))
          end
        else
          v ← call (read_sysfs_axis p "input");
          mret (match v with
                | None => (HAL_ERROR_IO, buf)
                | Some v => (16, Some (put1 v now b))
                end)
    end).

(** What a control argument points to, under each type a command may give it. *)
Record sensor_cell := mk_scell {
  c_int : Z;                        (** [uint32_t] or [int] *)
  c_float : double;
  c_offsets : sensor_offsets_t;
  c_config : sensor_config_t
}.

(** [dev/hal/layers/sensors/sensor_hal.c:761-845 sensor_control] *)
Definition sensor_control (cmd : Z) (a : arg sensor_cell) : DM (Z * arg sensor_cell) :=
  with_priv (HAL_ERROR_INVALID, a) (fun p =>
    let c := s_config p in
    let v := a_cell a in
    let ok := (HAL_SUCCESS, a) in
    if negb (sensor_validate_control_arg cmd (a_addr a) =? 0) then mret (HAL_ERROR_INVALID, a)
    else if cmd =? SENSOR_CMD_SET_RATE then
      _ ← set_priv (Some (with_s_config (mk_sensor_cfg (s_type c) (c_int v) (s_scale c) (enable_buffer c)) p));
      _ ← call (write_sysfs_text (iio_sysfs_path p +:+ "/sampling_frequency") (decimal (c_int v)));
      mret ok
    else if cmd =? SENSOR_CMD_GET_RATE then
      mret (HAL_SUCCESS, mk_arg (a_addr a) (mk_scell (sampling_rate_hz c) (c_float v) (c_offsets v) (c_config v)))
    else if cmd =? SENSOR_CMD_ENABLE_BUFFER then
      let p := with_s_config (mk_sensor_cfg (s_type c) (sampling_rate_hz c) (s_scale c) (c_int v)) p in
      _ ← set_priv (Some p);
      x ← get_state;
      if negb (c_int v =? 0) && (buffer_fd p <? 0) && negb (bool_decide (x = HAL_STATE_CLOSED)) then
        r ← call (open_iio_buffer p (iio_channel_prefix (s_type c)));
        _ ← set_priv (Some r.2);
        mret ok
      else if (c_int v =? 0) && (0 <=? buffer_fd p) then
        p' ← call (close_iio_buffer p);
        _ ← set_priv (Some p');
        mret ok
      else mret ok
    else if cmd =? SENSOR_CMD_CALIBRATE then
      if is_3axis p then
        x ← call (read_sysfs_axis p "x");
        y ← call (read_sysfs_axis p "y");
        z ← call (read_sysfs_axis p "z");
        let neg o := SFopp (default (f_of_Z 0) o) in
        _ ← set_priv (Some (with_offsets (mk_offsets (neg x) (neg y) (neg z)) p));
        mret ok
      else mret ok
    else if cmd =? SENSOR_CMD_GET_CONFIG then
      mret (HAL_SUCCESS, mk_arg (a_addr a) (mk_scell (c_int v) (c_float v) (c_offsets v) c))
    else if cmd =? SENSOR_CMD_SET_SCALE then
      if negb (f_finite (c_float v)) || SFeqb (c_float v) (f_of_Z 0) then mret (HAL_ERROR_INVALID, a)
      else _ ← set_priv (Some (with_scale (c_float v) p)); mret ok
    else if cmd =? SENSOR_CMD_GET_OFFSETS then
      mret (HAL_SUCCESS, mk_arg (a_addr a) (mk_scell (c_int v) (c_float v) (offsets p) (c_config v)))
    else if cmd =? SENSOR_CMD_SET_OFFSETS then
      _ ← set_priv (Some (with_offsets (c_offsets v) p)); mret ok
    else mret (HAL_ERROR_NOT_SUPPORT, a)).

(** [dev/hal/layers/sensors/sensor_hal.h:137-145 sensor_info_t] *)
Record sensor_info_t := mk_sinfo {
  iio_device_path : string; i_type : Z; i_rate : Z; resolution : double; max_range : double;
  fifo_size : Z; buffer_mode_active : bool
}.

(** [dev/hal/layers/sensors/sensor_hal.c:854-872 sensor_get_info] [out]: the pointer is not NULL. *)
Definition sensor_get_info (out : bool) : DM (Z * option sensor_info_t) :=
  with_priv (HAL_ERROR_INVALID, None) (fun p =>
    if negb out then mret (HAL_ERROR_INVALID, None)
    else mret (HAL_SUCCESS,
               Some (mk_sinfo (strncpy_z 63 (iio_sysfs_path p)) (s_type (s_config p))
                       (sampling_rate_hz (s_config p)) (scale_value p) (f_of_Z 0) 0 (0 <=? buffer_fd p)))).

(** [dev/hal/layers/sensors/sensor_hal.c:885-893 sensor_priv_cleanup] *)
Definition sensor_priv_cleanup : DM unit :=
  with_priv tt (fun p =>
    p ← call (close_iio_buffer p);
    _ ← set_priv (Some p);
    set_priv None).

(** [dev/hal/layers/sensors/sensor_hal.c:137-169 validate_iio_device_id] *)
Definition validate_iio_device_id (id : option string) : M W Z :=
  match id with
  | None => mret (-1)
  | Some id =>
      if negb (String.prefix "iio:device" id) then mret (-1)
      else
        let ds := substring 10 (String.length id - 10) id in
        let n := String.length ds in
        if Nat.eqb n 0 || Nat.ltb 4 n then mret (-1)
        else if negb (forallb (fun c => (48 <=? byte_of c) && (byte_of c <=? 57)) (list_ascii_of_string ds))
        then mret (-1)
        else
          r ← k_realpath (IIO_BASE_PATH +:+ "/" +:+ id);
          mret (match r with
                | None => -1
                | Some r => if String.prefix IIO_BASE_PATH r then 0 else -1
                end)
  end.

(** [dev/hal/layers/sensors/sensor_hal.c:964-1013 sensor_hal_create] NULL is None; [mem],
    [lock], [mem']: the allocations and the lock succeed. *)
Definition sensor_hal_create (nm id : option string) (cfg : option sensor_config_t) (mem lock mem' : bool)
    : M W (option (hw sensor_priv_t)) :=
  match nm, id, cfg with
  | Some nm, Some id, Some cfg =>
      rc ← validate_iio_device_id (Some id);
      mret (if negb (rc =? 0) then None
            else if negb mem || negb lock || negb mem' then None
            else Some (mk_hw (strncpy_z 63 nm) 2 HAL_STATE_CLOSED (-1) (Z.lor HAL_CAP_READ HAL_CAP_CONTROL)
                   (Some (mk_sensor (IIO_BASE_PATH +:+ "/" +:+ id) (IIO_DEV_PREFIX +:+ id) cfg
                            (f_of_Z 1) (mk_offsets (f_of_Z 0) (f_of_Z 0) (f_of_Z 0)) (-1)
                            (mk_layout 0 0 0 0 0 false)))))
  | _, _, _ => mret None
  end.

(** [dev/hal/layers/sensors/sensor_hal.c:1037-1045 sensor_hal_read_3axis] *)
Definition sensor_hal_read_3axis (out : option sensor_data_3axis_t) (now : Z) : DM (Z * option sensor_data_3axis_t) :=
  match out with
  | None => mret (HAL_ERROR_INVALID, None)
  | Some d =>
      r ← sensor_read (Some (B3 d)) now;
      mret (if r.1 <? 0 then r.1 else HAL_SUCCESS,
            match r.2 with Some (B3 d) => Some d | _ => None end)
  end.

(** [dev/hal/layers/sensors/sensor_hal.c:1056-1064 sensor_hal_read_1axis] *)
Definition sensor_hal_read_1axis (out : option sensor_data_1axis_t) (now : Z) : DM (Z * option sensor_data_1axis_t) :=
  match out with
  | None => mret (HAL_ERROR_INVALID, None)
  | Some d =>
      r ← sensor_read (Some (B1 d)) now;
      mret (if r.1 <? 0 then r.1 else HAL_SUCCESS,
            match r.2 with Some (B1 d) => Some d | _ => None end)
  end.
End sensor.

(** ** The driver *)

Inductive sensor_req :=
| SRead (buf : option sensor_buffer) (now : Z)
| SControl (cmd : Z) (a : arg sensor_cell)
| SInfo (out : bool).

Definition sensor_owned (p : sensor_priv_t) : gset resource :=
  if 0 <=? buffer_fd p then {[Fd (buffer_fd p)]} else ∅.

Section laws.
Context {W : Type} `{Ledger W} `{Kernel W} `{!KernelLaws W} (strtof : string -> double * bool * bool).

(** [dev/hal/layers/sensors/sensor_hal.c:897-907 sensor_ops] *)
#[local] Instance sensor_ops : HalDriver sensor_priv_t sensor_req W := {
  drv_open := sensor_open strtof; drv_close := sensor_close;
  drv_start := sensor_start; drv_stop := sensor_stop;
  drv_request r := match r with
                   | SRead b now => sensor_read b now ≫= fun _ => mret tt
                   | SControl c a => sensor_control c a ≫= fun _ => mret tt
                   | SInfo o => sensor_get_info o ≫= fun _ => mret tt
                   end;
  drv_cleanup := sensor_priv_cleanup
}.

Notation bal := (balanced (W:=W) sensor_owned).

Lemma read_text_quiet path n : quiet (read_sysfs_text path n).
Proof. apply quiet_bracket. auto with hal. Qed.
Lemma write_text_quiet path v : quiet (write_sysfs_text path v).
Proof. apply quiet_bracket. auto with hal. Qed.
Hint Resolve read_text_quiet write_text_quiet : hal.

Lemma read_int_quiet path : quiet (read_sysfs_int path).
Proof. unfold read_sysfs_int. auto with hal. Qed.
Lemma read_float_quiet path : quiet (read_sysfs_float strtof path).
Proof. unfold read_sysfs_float. auto with hal. Qed.
Hint Resolve read_int_quiet read_float_quiet : hal.
Lemma read_axis_quiet p axis : quiet (read_sysfs_axis p axis).
Proof. unfold read_sysfs_axis. auto with hal. Qed.
Hint Resolve read_axis_quiet : hal.
Lemma read_files_quiet p d now : quiet (read_files p d now).
Proof. unfold read_files. auto 20 with hal. Qed.
Hint Resolve read_files_quiet : hal.

Lemma owned_none p : buffer_fd p < 0 -> sensor_owned p = ∅.
Proof. intros Hp. unfold sensor_owned. by destruct (Z.leb_spec 0 (buffer_fd p)); [lia|]. Qed.
Lemma owned_fd p fd : 0 <= fd -> sensor_owned (with_buffer_fd fd p) = {[Fd fd]}.
Proof. intros Hp. unfold sensor_owned. simpl. by destruct (Z.leb_spec 0 fd); [|lia]. Qed.

Lemma compute_quiet p prefix : quiet (compute_iio_scan_layout p prefix).
Proof. unfold compute_iio_scan_layout. auto 10 with hal. Qed.

Lemma compute_result p prefix w : exists rc l, (compute_iio_scan_layout p prefix w).1 = (rc, with_layout l p).
Proof.
  unfold compute_iio_scan_layout, mbind, M_bind, mret, M_ret.
  do 4 (match goal with |- context [read_sysfs_int ?x ?w] => destruct (read_sysfs_int x w) end).
  simpl. case_match; eauto.
Qed.

Lemma open_buffer_acquires p prefix : buffer_fd p < 0 -> acquires sensor_owned (open_iio_buffer p prefix).
Proof.
  intros Hp. unfold open_iio_buffer.
  do 4 (apply acquires_quiet; [auto with hal|]; intros _).
  apply acquires_quiet_such with (φ := fun r => exists rc l, r = (rc, with_layout l p));
    [apply compute_quiet|apply compute_result|].
  intros r (rc & l & ->). case_match; [by apply acquires_ret, owned_none|].
  do 2 (apply acquires_quiet; [auto with hal|]; intros _).
  apply acquires_open; [done|..]; intros fd Hfd.
  - replace (fd <? 0) with false by lia. do 2 eexists. split; [done|]. by apply owned_fd.
  - replace (fd <? 0) with true by lia. apply acquires_quiet; [auto with hal|].
    intros _. by apply acquires_ret, owned_none.
Qed.

Lemma open_buffer_failed p prefix w : buffer_fd p < 0 ->
  (open_iio_buffer p prefix w).1.1 <> 0 -> buffer_fd (open_iio_buffer p prefix w).1.2 < 0.
Proof.
  intros Hp. unfold open_iio_buffer, mbind, M_bind, mret, M_ret.
  do 4 (match goal with |- context [write_sysfs_text ?x ?v ?w] => destruct (write_sysfs_text x v w) end).
  match goal with |- context [compute_iio_scan_layout p prefix ?w] =>
    pose proof (compute_result p prefix w) as Hc; destruct (compute_iio_scan_layout p prefix w) as [[rc p'] w9] end.
  destruct Hc as (rc' & l & [= -> ->]). case_match; [done|].
  do 2 (match goal with |- context [write_sysfs_text ?x ?v ?w] => destruct (write_sysfs_text x v w) end).
  match goal with |- context [k_open ?x ?w] => destruct (k_open x w) as [fd w8] end.
  destruct (Z.ltb_spec fd 0); [|done].
  match goal with |- context [write_sysfs_text ?x ?v ?w] => destruct (write_sysfs_text x v w) end. done.
Qed.

Lemma close_buffer_releases p : releases sensor_owned p (close_iio_buffer p).
Proof.
  intros w. unfold close_iio_buffer, mbind, M_bind, mret, M_ret, sensor_owned.
  assert (Hw : forall path v, quiet (write_sysfs_text path v)) by auto with hal. 
  destruct (Z.leb_spec 0 (buffer_fd p)) as [Hp|Hp]; simpl.
  - pose proof (close_back (buffer_fd p) w) as Hc. destruct (k_close (buffer_fd p) w) as [[] w1].
    simpl in *. match goal with |- context [write_sysfs_text ?x ?v w1] => specialize (Hw x v w1); destruct (write_sysfs_text x v w1) end.
    simpl in *. by rewrite Hw, Hc.
  - match goal with |- context [write_sysfs_text ?x ?v w] => specialize (Hw x v w); destruct (write_sysfs_text x v w) end.
    simpl in *. rewrite Hw. destruct (Z.leb_spec 0 (buffer_fd p)); [lia|]. set_solver.
Qed.

Lemma sensor_open_balanced B : triple (closed sensor_owned B) (sensor_open strtof) (fun _ => bal B).
Proof.
  apply closed_with_priv. intros p Hp.
  apply at_seq; [auto with hal|]. intros v. apply at_set; [done|]. intros _.
  apply at_seq; [auto with hal|]. intros _.
  assert (Hfd : buffer_fd p < 0).
  { unfold sensor_owned in Hp. destruct (Z.leb_spec 0 (buffer_fd p)); [set_solver|done]. }
  apply at_acquire_open with (f := fun _ => mret HAL_SUCCESS); [|done|done|].
  - case_match; [|by apply acquires_ret, owned_none].
    apply acquires_map with (g := fun r : Z * sensor_priv_t => (r.1, if negb (r.1 =? 0) then with_buffer_fd (-1) r.2 else r.2));
      [by apply open_buffer_acquires|].
    intros w. pose proof (open_buffer_failed (with_scale (default (f_of_Z 1) v) p)
      (iio_channel_prefix (s_type (s_config p))) w Hfd) as Hf. revert Hf.
    destruct (open_iio_buffer _ _ w) as [[rc p'] w']. simpl. intros Hf.
    destruct (Z.eqb_spec rc 0); simpl; [done|]. rewrite !owned_none; auto; simpl; lia.
  - intros r. apply at_bal. auto with hal.
Qed.

Lemma sensor_read_balanced B b now : keeps (bal B) (sensor_read b now).
Proof.
  unfold sensor_read. apply keeps_with_priv. intros p. apply at_bal. apply keeps_get_state. intros x.
  destruct b as [[]|]; auto 20 with hal.
Qed.

Lemma sensor_enable_balanced B p en (x : Z * arg sensor_cell) :
  triple (bal_at sensor_owned B p)
    (x0 ← get_state;
     if negb (en =? 0) && (buffer_fd p <? 0) && negb (bool_decide (x0 = HAL_STATE_CLOSED)) then
       r ← call (open_iio_buffer p (iio_channel_prefix (s_type (s_config p))));
       _ ← set_priv (Some r.2);
       mret x
     else if (en =? 0) && (0 <=? buffer_fd p) then
       p' ← call (close_iio_buffer p);
       _ ← set_priv (Some p');
       mret x
     else mret x)
    (fun _ => bal B).
Proof.
  apply at_get_state. intros x0.
  destruct (negb (en =? 0) && _ && _) eqn:He.
  - rewrite !andb_true_iff, !negb_true_iff, bool_decide_eq_false in He. destruct He as [[_ Hfd] Hx].
    apply at_acquire with (f := fun _ => mret x); [| |done|].
    + apply open_buffer_acquires. lia.
    + apply owned_none. lia.
    + intros r. apply at_bal. auto with hal.
  - eapply triple_pre with (P := bal_at sensor_owned B p); [|by intros s []].
    case_match; [|apply at_bal; auto with hal].
    apply at_release with (f := fun _ => mret x); [apply close_buffer_releases|].
    intros p' _. apply at_bal. auto with hal.
Qed.

Lemma sensor_control_balanced B c a : keeps (bal B) (sensor_control c a).
Proof.
  unfold sensor_control. apply keeps_with_priv. intros p. cbv zeta. triple_cases; try (apply at_bal; auto 10 with hal; fail);
    try (apply at_set; [done|]; intros _; apply at_bal; auto 10 with hal; fail).
  - apply at_set; [done|]. intros _.
    exact (sensor_enable_balanced B (with_s_config (mk_sensor_cfg _ _ _ (c_int (a_cell a))) p)
             (c_int (a_cell a)) (HAL_SUCCESS, a)).
  - do 3 (apply at_seq; [auto with hal|]; intros ?). apply at_set; [done|]. intros _.
    apply at_bal. auto with hal.
Qed.

#[local] Instance sensor_laws : HalDriverLaws (W:=W) sensor_owned.
Proof.
  split; intros B; simpl.
  - apply sensor_open_balanced.
  - apply bal_with_priv. intros p.
    apply at_release with (f := fun _ => _ ← set_state HAL_STATE_CLOSED; mret HAL_SUCCESS);
      [apply close_buffer_releases|].
    intros p' Hp'. intros s [Hs Hp]. split; [|done]. destruct Hs as (q & Hq & Hh & Hd & Hc).
    exists q. assert (q = p') as -> by congruence. done.
  - unfold sensor_start. apply keeps_get_state. intros x. auto 10 with hal.
  - unfold sensor_stop. auto 10 with hal.
  - intros []; auto using sensor_control_balanced, sensor_read_balanced with hal.
    unfold sensor_get_info. apply keeps_bind; [|intros; apply keeps_ret]. apply keeps_with_priv.
    intros p. apply at_bal. auto with hal.
  - eapply triple_pre with (P := bal B); [|by intros s []]. apply bal_with_priv. intros p.
    apply at_release with (f := fun _ => set_priv None); [apply close_buffer_releases|].
    intros p' Hp'. by apply at_gone.
Qed.
End laws.

(** ** What the driver keeps *)

Definition fresh_sensor {W} (nm id : string) (cfg : sensor_config_t) (w : W) : st sensor_priv_t W :=
  mk_st (mk_hw (strncpy_z 63 nm) 2 HAL_STATE_CLOSED (-1) (Z.lor HAL_CAP_READ HAL_CAP_CONTROL)
           (Some (mk_sensor (IIO_BASE_PATH +:+ "/" +:+ id) (IIO_DEV_PREFIX +:+ id) cfg
                    (f_of_Z 1) (mk_offsets (f_of_Z 0) (f_of_Z 0) (f_of_Z 0)) (-1)
                    (mk_layout 0 0 0 0 0 false)))) w.

(** What [sensor_hal_create] makes is such a device, and creating one takes nothing. *)
Lemma create_fresh {W} `{Kernel W} nm id cfg mem lock mem' (w : W) d :
  (sensor_hal_create (Some nm) (Some id) (Some cfg) mem lock mem' w).1 = Some d ->
  mk_st d w = fresh_sensor nm id cfg w.
Proof.
  unfold sensor_hal_create, mbind, M_bind, mret, M_ret.
  destruct (validate_iio_device_id (Some id) w) as [rc w']. simpl.
  destruct (negb (rc =? 0)); [done|]. destruct (negb mem || negb lock || negb mem'); [done|].
  by intros [= <-].
Qed.

Lemma create_quiet {W} `{Ledger W} `{Kernel W} `{!KernelLaws W} nm id cfg mem lock mem' (w : W) :
  held (sensor_hal_create (Some nm) (Some id) (Some cfg) mem lock mem' w).2 = held w /\
  forall d, (sensor_hal_create (Some nm) (Some id) (Some cfg) mem lock mem' w).1 = Some d ->
    closed sensor_owned (held w) (mk_st d (sensor_hal_create (Some nm) (Some id) (Some cfg) mem lock mem' w).2).
Proof.
  assert (Hq : quiet (validate_iio_device_id (W:=W) (Some id))) by (unfold validate_iio_device_id; auto 10 with hal).
  specialize (Hq w). unfold sensor_hal_create, mbind, M_bind, mret, M_ret.
  destruct (validate_iio_device_id (Some id) w) as [rc w']. cbn [snd] in Hq.
  destruct (negb (rc =? 0)); [done|]. destruct (negb mem || negb lock || negb mem'); [done|].
  split; [done|]. intros d [= <-]. split; [|done]. eexists. split; [done|].
  cbn. unfold sensor_owned. cbn. rewrite Hq. set_solver.
Qed.

(** Whatever a client does with a sensor — open, close, start, stop, read, switch the
    hardware buffer on and off, in any order, opening it only when closed — when the last
    reference goes the process holds exactly the descriptors it held before, however the
    kernel and [strtof] answer. *)
Theorem sensor_no_leak {W} `{Ledger W} `{Kernel W} `{!KernelLaws W} strtof nm id cfg (w : W) cs :
  let drv := sensor_ops strtof in
  let s := fresh_sensor nm id cfg w in
  opens_closed (Req:=sensor_req) cs s = true ->
  held (world (hal_device_last_unref (drv_run cs s).2).2) = held w.
Proof.
  intros drv s Ho. pose proof (sensor_laws strtof) as Hlaws.
  apply (driver_no_leak sensor_owned); [|done]. split; [|done]. eexists. split; [done|].
  simpl. unfold sensor_owned. simpl. set_solver.
Qed.

(** ** Scans *)

(** What the kernel documents of a scan element in the file [type] of its channel, as in
    le:s12/16>>4: byte order, sign, bits, bits of storage, shift.  The elements of the enabled
    channels follow each other in the order of the channels' indices, each on a multiple of
    its own size; the timestamp is a channel like the others.  The code reads no [type]. *)
Record iio_type := mk_type { big_endian : bool; signed : bool; bits : Z; storage : nat; shift : Z }.

Definition element (t : iio_type) (v : Z) : list Z :=
  let l := le_bytes (storage t) (Z.shiftl (v mod 2 ^ bits t) (shift t)) in if big_endian t then rev l else l.
Fixpoint iio_pack (pos : nat) (channels : list (iio_type * Z)) : list Z :=
  match channels with
  | [] => []
  | (t, v) :: channels =>
      let pad := ((storage t - pos mod storage t) mod storage t)%nat in
      replicate pad 0 ++ element t v ++ iio_pack (pos + pad + storage t) channels
  end.

(** The types the code takes for granted: le:s16/16>>0 for an axis, le:s64/64>>0 for the
    timestamp, which comes last. *)
Definition axis_type : iio_type := mk_type false true 16 2 0.
Definition time_type : iio_type := mk_type false true 64 8 0.
Definition iio_scan (channels : list (Z * Z)) (ts : option Z) : list Z :=
  iio_pack 0 (((fun c => (axis_type, c.2)) <$> channels) ++ match ts with Some t => [(time_type, t)] | None => [] end).

Lemma axis_element v : element axis_type v = le_bytes 2 (u16 v).
Proof. unfold element, axis_type, u16, wrap. cbn [big_endian storage bits shift]. by rewrite Z.shiftl_0_r. Qed.

Lemma time_element v : 0 <= v < 2 ^ 64 -> element time_type v = le_bytes 8 v.
Proof. intros Hv. unfold element, time_type. cbn [big_endian storage bits shift]. by rewrite Z.shiftl_0_r, Z.mod_small. Qed.

Lemma iio_scan_three c1 c2 c3 ts : (forall t, ts = Some t -> 0 <= t < 2 ^ 64) ->
  iio_scan [c1; c2; c3] ts =
    flat_map (fun c => le_bytes 2 (u16 c.2)) [c1; c2; c3] ++
    match ts with Some t => [0; 0] ++ le_bytes 8 t | None => [] end.
Proof.
  intros Ht. unfold iio_scan. cbn [fmap list_fmap app flat_map iio_pack]. rewrite !axis_element. cbn -[le_bytes element].
  destruct ts as [t|]; cbn -[le_bytes element]; [|done]. rewrite time_element by auto. by rewrite app_nil_r.
Qed.

Lemma i16_le v : - 2 ^ 15 <= v < 2 ^ 15 -> i16 (le_val (le_bytes 2 (u16 v))) = v.
Proof.
  intros Hv. rewrite le_val_le_bytes. unfold i16, u16, wrap.
  change (2 ^ (8 * Z.of_nat 2)) with (2 ^ 16). rewrite Z.mod_mod by lia.
  rewrite Zplus_mod_idemp_l, Z.mod_small by lia. lia.
Qed.

Lemma perm3 {A} (l : list A) a b c : l ≡ₚ [a; b; c] ->
  l = [a; b; c] \/ l = [a; c; b] \/ l = [b; a; c] \/ l = [b; c; a] \/ l = [c; a; b] \/ l = [c; b; a].
Proof.
  intros Hp. assert (Hl : l ∈ permutations [a; b; c]) by (by apply permutations_Permutation).
  simpl in Hl. set_unfold in Hl. naive_solver.
Qed.

(** Each axis lies at twice the number of axes with a smaller index. *)
Definition rank (i j k : Z) : Z := 2 * (Z.b2z (j <? i) + Z.b2z (k <? i)).

Lemma layout_ranks ix iy iz ts l : ix <> iy -> iy <> iz -> ix <> iz ->
  layout_of ix iy iz ts l =
    mk_layout (rank ix iy iz) (rank iy ix iz) (rank iz ix iy) (if ts then 8 else 0) (if ts then 16 else 6) ts.
Proof.
  intros Hxy Hyz Hxz.
  assert (Hf : forall a b, a <> b -> (a <? b) = negb (b <? a)) by (intros a b Hab; lia).
  unfold layout_of, sort_axes, rank.
  rewrite (Hf ix iy), (Hf iy iz), (Hf ix iz) by done.
  destruct (iy <? ix) eqn:E1, (iz <? iy) eqn:E2, (iz <? ix) eqn:E3; try lia;
    cbn [sift nth fst snd insert list_insert]; rewrite ?E1; cbn [sift nth fst snd insert list_insert];
    rewrite ?E2, ?E3; cbn [sift nth fst snd insert list_insert]; rewrite ?E3; by destruct ts.
Qed.

Lemma scan_slots c1 c2 c3 ts : (forall t, ts = Some t -> 0 <= t < 2 ^ 64) -> let s := iio_scan [c1; c2; c3] ts in
  length s = (if ts then 16 else 6)%nat /\
  take 2 (drop 0 s) = le_bytes 2 (u16 c1.2) /\ take 2 (drop 2 s) = le_bytes 2 (u16 c2.2) /\
  take 2 (drop 4 s) = le_bytes 2 (u16 c3.2) /\
  (forall t, ts = Some t -> take 8 (drop 8 s) = le_bytes 8 t).
Proof.
  intros Ht. cbv zeta. rewrite iio_scan_three by done. cbn [flat_map]. rewrite !le_bytes_S.
  split; [by destruct ts|]. repeat split. intros t ->. by rewrite !le_bytes_S.
Qed.

(** C39: A scan of the layout the code assumes - three axes of type le:s16/16>>0 in the order
    of their distinct indices, with or without a timestamp of type le:s64/64>>0 behind them -
    packed as the kernel documents it, is read back exactly: each axis gets its own value
    (scaled and offset), and the time is the one in the scan.  Scans of other types the kernel
    documents are misread ([other_types_misread]). *)
Theorem scan_read_back p ix iy iz rx ry rz ts l now channels :
  Forall (fun r => - 2 ^ 15 <= r < 2 ^ 15) [rx; ry; rz] ->
  (forall t, ts = Some t -> 0 <= t < 2 ^ 64) ->
  channels ≡ₚ [(ix, rx); (iy, ry); (iz, rz)] ->
  StronglySorted Z.lt (fst <$> channels) ->
  let value r o := fadd (fmul (f_of_Z r) (scale_value p)) o in
  let layout := layout_of ix iy iz (match ts with Some _ => true | None => false end) l in
  Z.of_nat (length (iio_scan channels ts)) = stride layout /\
  decode_scan (with_layout layout p) (iio_scan channels ts) now =
    mk_data3 (value rx (o_x (offsets p))) (value ry (o_y (offsets p))) (value rz (o_z (offsets p)))
             (match ts with Some t => t | None => now end).
Proof.
  intros Hr Hts Hp Hs value layout.
  rewrite !Forall_cons in Hr. destruct Hr as (Hx & Hy & Hz & _).
  assert (Ht : forall t, ts = Some t -> le_val (le_bytes 8 t) = t).
  { intros t ->. rewrite le_val_le_bytes. apply Z.mod_small. by apply Hts. }
  pose proof (i16_le rx Hx) as Ex. pose proof (i16_le ry Hy) as Ey. pose proof (i16_le rz Hz) as Ez.
  subst layout value.
  apply perm3 in Hp as [-> | [-> | [-> | [-> | [-> | ->]]]]]; simpl in Hs;
    rewrite !StronglySorted_cons, !Forall_cons in Hs; destruct Hs as [[H1 [H2 _]] [[H3 _] _]];
    (rewrite layout_ranks by lia); unfold rank.
  all: repeat match goal with |- context [?a <? ?b] =>
         first [replace (a <? b) with true by lia | replace (a <? b) with false by lia] end.
  all: match goal with |- context [iio_scan [?a; ?b; ?c] ?t] =>
         destruct (scan_slots a b c t Hts) as (S0 & S1 & S2 & S3 & S4) end; cbn [snd] in *.
  all: split; [rewrite S0; by destruct ts|].
  all: unfold decode_scan; cbn [scan_layout with_layout x_byte_offset y_byte_offset z_byte_offset
         ts_byte_offset stride has_timestamp scale_value offsets].
  all: repeat match goal with |- context [Z.to_nat (2 * ?x)] =>
         let n := eval vm_compute in (Z.to_nat (2 * x)) in change (Z.to_nat (2 * x)) with n end.
  all: rewrite S1, S2, S3, Ex, Ey, Ez; f_equal.
  all: destruct ts as [t|]; [|done]; change (Z.to_nat 8) with 8%nat; erewrite S4 by done; by apply Ht.
Qed.

(** The type of a channel is never read: a big-endian axis has its bytes swapped, one of
    twelve bits at the top of sixteen is read as sixteen times its value, the upper half of an
    unsigned axis as negative, and a timestamp with the lowest index puts everything out of
    place. *)
Lemma other_types_misread p now :
  let at_0_1_2 ts := with_layout (layout_of 0 1 2 ts (mk_layout 0 0 0 0 0 false)) p in
  let value r o := fadd (fmul (f_of_Z r) (scale_value p)) o in
  let three t x y z := iio_pack 0 [(t, x); (t, y); (t, z)] in
  let read x y z := mk_data3 (value x (o_x (offsets p))) (value y (o_y (offsets p))) (value z (o_z (offsets p))) now in
  decode_scan (at_0_1_2 false) (three (mk_type true true 16 2 0) 1 2 3) now = read 256 512 768 /\
  decode_scan (at_0_1_2 false) (three (mk_type false true 12 2 4) 1 2 (-3)) now = read 16 32 (-48) /\
  decode_scan (at_0_1_2 false) (three (mk_type false false 16 2 0) 1 2 65535) now = read 1 2 (-1) /\
  decode_scan (at_0_1_2 true)
    (iio_pack 0 [(time_type, 5); (axis_type, 1); (axis_type, 2); (axis_type, 3)] ++ [0; 0]) now =
    mk_data3 (value 5 (o_x (offsets p))) (value 0 (o_y (offsets p))) (value 0 (o_z (offsets p))) (1 + 2 * 2 ^ 16 + 3 * 2 ^ 32).
Proof. cbv zeta. repeat split; reflexivity. Qed.

(** ** Calibration *)

Lemma fadd_opp v : f_finite v = true -> exists s, fadd v (SFopp v) = S754_zero s.
Proof.
  destruct v as [s|s| |s m e]; try done; intros _.
  - by destruct s; eexists.
  - exists false. unfold fadd, SFopp, SFadd. rewrite Z.min_id.
    assert (Hz : forall z, cond_Zopp s z + cond_Zopp (negb s) z = 0) by (intros z; destruct s; simpl; lia).
    rewrite Hz. done.
Qed.

(** What the three files would give now. *)
Definition axes {W} `{Kernel W} (p : sensor_priv_t) : M W (option (double * double * double)) :=
  x ← read_sysfs_axis p "x"; y ← read_sysfs_axis p "y"; z ← read_sysfs_axis p "z";
  mret (match x, y, z with Some x, Some y, Some z => Some (x, y, z) | _, _, _ => None end).

Definition is_zero (v : double) : Prop := exists s, v = S754_zero s.

(** After a calibration, a reading in file mode that finds the same raw values is zero
    on every axis, as long as the scaled values are finite. *)
Theorem calibrated_reads_zero {W} `{Kernel W} (s : st sensor_priv_t W) p a x y z w' now :
  h_priv (dev s) = Some p -> is_3axis p = true ->
  (axes p (world s)).1 = Some (x, y, z) -> Forall (fun v => f_finite v = true) [x; y; z] ->
  let s1 := (sensor_control SENSOR_CMD_CALIBRATE a s).2 in
  let p' := with_offsets (mk_offsets (SFopp x) (SFopp y) (SFopp z)) p in
  h_priv (dev s1) = Some p' /\
  ((axes p' w').1 = Some (x, y, z) ->
   forall d, exists d', (read_files p' d now w').1 = (24, d') /\
     is_zero (d_x d') /\ is_zero (d_y d') /\ is_zero (d_z d') /\ d_time d' = now).
Proof.
  intros Hp H3 Hax Hf s1 p'. rewrite !Forall_cons in Hf. destruct Hf as (Fx & Fy & Fz & _). split.
  - subst s1. unfold sensor_control, with_priv. rewrite Hp. cbn [negb]. rewrite H3.
    unfold axes in Hax. unfold mbind, M_bind, mret, M_ret, call in *.
    cbn -[read_sysfs_axis] in *.
    destruct (read_sysfs_axis p "x" (world s)) as [[vx|] w1]; cbn -[read_sysfs_axis] in *;
    destruct (read_sysfs_axis p "y" w1) as [[vy|] w2]; cbn -[read_sysfs_axis] in *;
    destruct (read_sysfs_axis p "z" w2) as [[vz|] w3]; cbn in *; by simplify_eq.
  - clear Hax. unfold axes, read_files, mbind, M_bind, mret, M_ret.
    intros Hax d. revert Hax.
    destruct (read_sysfs_axis p' "x" w') as [[vx|] w1]; cbn -[read_sysfs_axis fadd];
    destruct (read_sysfs_axis p' "y" w1) as [[vy|] w2]; cbn -[read_sysfs_axis fadd];
    destruct (read_sysfs_axis p' "z" w2) as [[vz|] w3]; cbn -[fadd]; intros Hax; simplify_eq.
    eexists. split; [done|]. cbn -[fadd]. repeat split; by apply fadd_opp.
Qed.

(** ** Devices that are never found *)

(** The node that [sensor_hal_create] records for an identifier [iio:device0] is
    [/dev/iio:iio:device0]; the header and the kernel call it [/dev/iio:device0]. *)
Lemma node_doubles_prefix {W} `{Kernel W} nm id cfg mem lock mem' (w : W) d p :
  (sensor_hal_create (Some nm) (Some id) (Some cfg) mem lock mem' w).1 = Some d -> h_priv d = Some p ->
  iio_dev_node p = ("/dev/iio:" +:+ id)%string /\ iio_dev_node p <> ("/dev/" +:+ id)%string.
Proof.
  intros Hd Hp. apply create_fresh in Hd. injection Hd as ->. injection Hp as <-. split; [done|].
  intros Hn. apply (f_equal String.length) in Hn. simpl in Hn. unfold IIO_DEV_PREFIX in Hn.
  rewrite !string_length_app in Hn. simpl in Hn. lia.
Qed.

(** An identifier whose entry in [/sys/bus/iio/devices] is a symbolic link to another
    place, as it is on a running kernel, is refused. *)
Lemma linked_device_refused {W} `{Kernel W} id (w : W) target :
  (k_realpath (IIO_BASE_PATH +:+ "/" +:+ id) w).1 = Some target -> String.prefix IIO_BASE_PATH target = false ->
  (validate_iio_device_id (Some id) w).1 = -1.
Proof.
  intros Hr Ht. unfold validate_iio_device_id. do 3 (case_match; [done|]).
  unfold mbind, M_bind, mret, M_ret. destruct (k_realpath _ w) as [r w1]. simpl in *. subst r.
  by rewrite Ht.
Qed.

(** ** Witnesses *)

Definition iio_world : toy :=
  mk_toy [(3, "/run/log"%string)]
    (list_to_map
       [("/sys/bus/iio/devices/iio:device0/in_accel_x_raw", "100");
        ("/sys/bus/iio/devices/iio:device0/in_accel_y_raw", "-20");
        ("/sys/bus/iio/devices/iio:device0/in_accel_z_raw", "981");
        ("/sys/bus/iio/devices/iio:device0/scan_elements/in_accel_x_index", "0");
        ("/sys/bus/iio/devices/iio:device0/scan_elements/in_accel_y_index", "1");
        ("/sys/bus/iio/devices/iio:device0/scan_elements/in_accel_z_index", "2");
        ("/sys/bus/iio/devices/iio:device0/scan_elements/timestamp_index", "3");
        ("/sys/bus/iio/devices/iio:device0/buffer/enable", "0");
        ("/dev/iio:iio:device0", "")]%string).

Definition accel : st sensor_priv_t toy :=
  fresh_sensor "imu" "iio:device0" (mk_sensor_cfg SENSOR_TYPE_ACCEL 50 1 1) iio_world.

Definition no_float (s : string) : double * bool * bool := (f_of_Z 0, false, false).

Lemma sensor_no_leak_witness :
  let cs := [DoOpen; DoStart; Do (SControl SENSOR_CMD_ENABLE_BUFFER (mk_arg 8 (mk_scell 0 (f_of_Z 0) (mk_offsets (f_of_Z 0) (f_of_Z 0) (f_of_Z 0)) (mk_sensor_cfg 1 1 1 1)))); Do (SRead None 5)] in
  (opens_closed (H0:=sensor_ops no_float) cs accel = true) /\
  held (world (hal_device_last_unref (H:=sensor_ops no_float) (drv_run (H0:=sensor_ops no_float) cs accel).2).2) = held iio_world.
Proof.
  split; [by vm_compute|].
  refine (sensor_no_leak no_float "imu" "iio:device0" (mk_sensor_cfg SENSOR_TYPE_ACCEL 50 1 1) iio_world _ _).
  by vm_compute.
Defined.

Lemma scan_read_back_witness :
  let p := mk_sensor "" "" (mk_sensor_cfg 1 1 1 1) (f_of_Z 2) (mk_offsets (f_of_Z 0) (f_of_Z 0) (f_of_Z 1)) 5 (mk_layout 0 0 0 0 0 false) in
  [(1, -7); (4, 300); (6, 12)] ≡ₚ [(4, 300); (6, 12); (1, -7)] /\
  decode_scan (with_layout (layout_of 4 6 1 true (mk_layout 0 0 0 0 0 false)) p)
    (iio_scan [(1, -7); (4, 300); (6, 12)] (Some 77)) 0 =
    mk_data3 (fadd (fmul (f_of_Z 300) (f_of_Z 2)) (f_of_Z 0)) (fadd (fmul (f_of_Z 12) (f_of_Z 2)) (f_of_Z 0))
      (fadd (fmul (f_of_Z (-7)) (f_of_Z 2)) (f_of_Z 1)) 77.
Proof.
  intros p. assert (Hp : [(1, -7); (4, 300); (6, 12)] ≡ₚ [(4, 300); (6, 12); (1, -7)]).
  { apply (Permutation_cons_append [(4, 300); (6, 12)]). }
  split; [exact Hp|].
  apply (scan_read_back p 4 6 1 300 12 (-7) (Some 77) (mk_layout 0 0 0 0 0 false) 0 [(1, -7); (4, 300); (6, 12)]).
  - repeat constructor; lia.
  - intros t [= <-]. lia.
  - exact Hp.
  - simpl. repeat constructor; lia.
Defined.

Definition imu : sensor_priv_t :=
  mk_sensor "/sys/bus/iio/devices/iio:device0" "/dev/iio:iio:device0" (mk_sensor_cfg 1 50 1 1) (f_of_Z 1)
    (mk_offsets (f_of_Z 0) (f_of_Z 0) (f_of_Z 0)) (-1) (mk_layout 0 0 0 0 0 false).
Definition no_arg : arg sensor_cell :=
  mk_arg 0 (mk_scell 0 (f_of_Z 0) (mk_offsets (f_of_Z 0) (f_of_Z 0) (f_of_Z 0)) (mk_sensor_cfg 1 1 1 1)).
Definition imu_calibrated : sensor_priv_t :=
  with_offsets (mk_offsets (SFopp (f_of_Z 100)) (SFopp (f_of_Z (-20))) (SFopp (f_of_Z 981))) imu.

Lemma calibrated_reads_zero_witness :
  h_priv (dev (sensor_control SENSOR_CMD_CALIBRATE no_arg accel).2) = Some imu_calibrated /\
  exists d', (read_files imu_calibrated (mk_data3 (f_of_Z 0) (f_of_Z 0) (f_of_Z 0) 0) 5 iio_world).1 = (24, d') /\
    is_zero (d_x d') /\ is_zero (d_y d') /\ is_zero (d_z d') /\ d_time d' = 5.
Proof.
  destruct (calibrated_reads_zero accel imu no_arg (f_of_Z 100) (f_of_Z (-20)) (f_of_Z 981) iio_world 5) as [Hp Hr];
    [done|by vm_compute|by vm_compute|by repeat constructor|].
  split; [exact Hp|]. apply Hr. by vm_compute.
Defined.
