(* ===== verification/CameraHal.v ===== *)
(** * Cameras (hal/layers/camera/camera_hal.c)

    The V4L2 backend: negotiation, the ring of mapped buffers, streaming, frames. *)

From S2P Require Import Prelude HalRegistry HalDevice.

(** [dev/hal/layers/camera/camera_hal.h:76-82 camera_config_t] *)
Record camera_config_t := mk_cam_cfg {
  width : Z; height : Z; format : Z; fps : Z; buffer_count : Z
}.

(** [dev/hal/layers/camera/camera_hal.h:33-39 camera_format_t] *)
Definition CAMERA_FORMAT_YUYV : Z := 1.
Definition CAMERA_FORMAT_MJPEG : Z := 2.
Definition CAMERA_FORMAT_RGB24 : Z := 3.
Definition CAMERA_FORMAT_NV12 : Z := 4.
Definition CAMERA_FORMAT_H264 : Z := 5.

(** [dev/hal/layers/camera/camera_hal.h:138-145 camera_cmd_t] *)
Definition CAMERA_CMD_SET_RESOLUTION : Z := 0x3000.
Definition CAMERA_CMD_SET_FPS : Z := 0x3001.
Definition CAMERA_CMD_SET_FORMAT : Z := 0x3002.
Definition CAMERA_CMD_GET_CONFIG : Z := 0x3009.
Definition CAMERA_CMD_GET_FRAME : Z := 0x3007.
Definition CAMERA_CMD_RETURN_FRAME : Z := 0x3008.

(** [dev/hal/layers/camera/camera_hal.h:99-105 camera_frame_t] *)
Record camera_frame_t := mk_frame {
  f_data : Z; f_size : Z; f_timestamp : Z; f_sequence : Z; f_buffer_index : Z
}.

(** [dev/hal/layers/camera/camera_hal.c:57-60 camera_mmap_buffer_t] *)
Record camera_mmap_buffer_t := mk_mbuf { user_addr : Z; byte_length : Z }.
Definition MAP_FAILED : Z := -1.

(** [dev/hal/layers/camera/camera_hal.c:75-84 camera_priv_t] [mmap_buffers]: None for NULL. *)
Record camera_priv_t := mk_camera {
  v4l2_path : string;
  v4l2_fd : Z;
  config : camera_config_t;
  mmap_buffers : option (list camera_mmap_buffer_t);
  mmap_buffer_count : Z;
  frame_count : Z;
  dropped_frames : Z;
  streaming : bool
}.

Definition with_fd fd p := mk_camera (v4l2_path p) fd (config p) (mmap_buffers p) (mmap_buffer_count p)
  (frame_count p) (dropped_frames p) (streaming p).
Definition with_config c p := mk_camera (v4l2_path p) (v4l2_fd p) c (mmap_buffers p) (mmap_buffer_count p)
  (frame_count p) (dropped_frames p) (streaming p).
Definition with_buffers b n p := mk_camera (v4l2_path p) (v4l2_fd p) (config p) b n
  (frame_count p) (dropped_frames p) (streaming p).
Definition with_streaming s p := mk_camera (v4l2_path p) (v4l2_fd p) (config p) (mmap_buffers p)
  (mmap_buffer_count p) (frame_count p) (dropped_frames p) s.
Definition with_frame_count n p := mk_camera (v4l2_path p) (v4l2_fd p) (config p) (mmap_buffers p)
  (mmap_buffer_count p) n (dropped_frames p) (streaming p).

(** [dev/hal/layers/camera/camera_hal.c:99-106 CAMERA_CMD_SPECS] *)
Definition CAMERA_CMD_SPECS : list (Z * Z) :=
  [(CAMERA_CMD_SET_RESOLUTION, 4); (CAMERA_CMD_SET_FPS, 4); (CAMERA_CMD_SET_FORMAT, 4);
   (CAMERA_CMD_GET_CONFIG, 20); (CAMERA_CMD_GET_FRAME, 32); (CAMERA_CMD_RETURN_FRAME, 32)].

(** [dev/hal/layers/camera/camera_hal.c:157-171 validate_control_arg] *)
Definition camera_validate_control_arg : Z -> Z -> Z := check_arg CAMERA_CMD_SPECS.

Definition fourcc (a b c d : ascii) : Z :=
  byte_of a + Z.shiftl (byte_of b) 8 + Z.shiftl (byte_of c) 16 + Z.shiftl (byte_of d) 24.

(** [dev/hal/layers/camera/camera_hal.c:184-199 v4l2_fmt_from_hal] *)
Definition v4l2_fmt_from_hal (f : Z) : Z :=
  if f =? CAMERA_FORMAT_YUYV then fourcc "Y" "U" "Y" "V"
  else if f =? CAMERA_FORMAT_MJPEG then fourcc "M" "J" "P" "G"
  else if f =? CAMERA_FORMAT_RGB24 then fourcc "R" "G" "B" "3"
  else if f =? CAMERA_FORMAT_NV12 then fourcc "N" "V" "1" "2"
  else if f =? CAMERA_FORMAT_H264 then fourcc "H" "2" "6" "4"
  else fourcc "Y" "U" "Y" "V".

(** [dev/hal/layers/camera/camera_hal.c:739-754 camera_hal_format_string] *)
Definition camera_hal_format_string (f : Z) : string :=
  if f =? CAMERA_FORMAT_YUYV then "YUYV"
  else if f =? CAMERA_FORMAT_MJPEG then "MJPEG"
  else if f =? CAMERA_FORMAT_RGB24 then "RGB24"
  else if f =? CAMERA_FORMAT_NV12 then "NV12"
  else if f =? CAMERA_FORMAT_H264 then "H264"
  else "UNKNOWN".

(** [dev/hal/layers/camera/camera_hal.c:679-687 camera_hal_default_config] *)
Definition camera_hal_default_config : camera_config_t := mk_cam_cfg 640 480 CAMERA_FORMAT_YUYV 30 4.

(** [dev/hal/layers/camera/camera_hal.c:700-731 camera_hal_get_resolution] *)
Definition camera_hal_get_resolution (preset : Z) : Z * Z :=
  if preset =? 0 then (320, 240)
  else if preset =? 1 then (640, 480)
  else if preset =? 2 then (1280, 720)
  else if preset =? 3 then (1920, 1080)
  else if preset =? 4 then (3840, 2160)
  else (640, 480).

(** ** The video calls of the kernel *)

(** What VIDIOC_DQBUF fills in. *)
Record v4l2_buf := mk_vbuf { vb_index : Z; vb_used : Z; vb_sec : Z; vb_usec : Z; vb_sequence : Z }.

Class V4l2 (W : Type) := {
  v_querycap : Z -> M W (Z * Z);                   (** the capabilities *)
  v_s_fmt : Z -> Z -> Z -> Z -> M W (Z * (Z * Z)); (** the size the driver chose *)
  v_s_parm : Z -> Z -> M W Z;
  v_reqbufs : Z -> Z -> M W (Z * Z);               (** how many buffers it gives *)
  v_querybuf : Z -> Z -> M W (Z * (Z * Z));        (** length and offset *)
  v_mmap : Z -> Z -> Z -> M W Z;
  v_munmap : Z -> Z -> M W unit;
  v_qbuf : Z -> Z -> M W Z;
  v_dqbuf : Z -> M W (Z * v4l2_buf);
  v_streamon : Z -> M W Z;
  v_streamoff : Z -> M W Z
}.

(** [mmap] maps at a new address or fails, [munmap] gives the mapping back. *)
Class V4l2Laws (W : Type) `{Ledger W} `{V4l2 W} : Prop := {
  querycap_quiet fd : quiet (v_querycap fd);
  s_fmt_quiet fd w h f : quiet (v_s_fmt fd w h f);
  s_parm_quiet fd n : quiet (v_s_parm fd n);
  reqbufs_quiet fd n : quiet (v_reqbufs fd n);
  querybuf_quiet fd i : quiet (v_querybuf fd i);
  qbuf_quiet fd i : quiet (v_qbuf fd i);
  dqbuf_quiet fd : quiet (v_dqbuf fd);
  streamon_quiet fd : quiet (v_streamon fd);
  streamoff_quiet fd : quiet (v_streamoff fd);
  mmap_fresh fd len off w : (v_mmap fd len off w).1 <> MAP_FAILED ->
    (v_mmap fd len off w).1 <> 0 /\ Mapping (v_mmap fd len off w).1 ∉ held w /\
    held (v_mmap fd len off w).2 = {[Mapping (v_mmap fd len off w).1]} ∪ held w;
  mmap_failed fd len off w : (v_mmap fd len off w).1 = MAP_FAILED -> held (v_mmap fd len off w).2 = held w;
  munmap_back a len w : held (v_munmap a len w).2 = held w ∖ {[Mapping a]}
}.
#[export] Hint Resolve querycap_quiet s_fmt_quiet s_parm_quiet reqbufs_quiet querybuf_quiet qbuf_quiet
  dqbuf_quiet streamon_quiet streamoff_quiet : hal.

Definition V4L2_CAP_VIDEO_CAPTURE : Z := 0x1.
Definition V4L2_CAP_STREAMING : Z := 0x4000000.

Section camera.
Context {W : Type} `{Kernel W} `{V4l2 W}.
Notation DM := (M (st camera_priv_t W)).

(** [dev/hal/layers/camera/camera_hal.c:125-143 camera_hal_validate_device_path] *)
Definition camera_hal_validate_device_path (path : option string) : M W Z :=
  match path with
  | None => mret (-1)
  | Some path =>
      r ← k_realpath path;
      mret (match r with
            | None => -1
            | Some r => if String.prefix "/dev/" r then 0 else -1
            end)
  end.

(** [dev/hal/layers/camera/camera_hal.c:217-254 configure_v4l2_format] *)
Definition configure_v4l2_format (p : camera_priv_t) : M W (Z * camera_priv_t) :=
  let c := config p in
  r ← v_s_fmt (v4l2_fd p) (width c) (height c) (v4l2_fmt_from_hal (format c));
  if r.1 <? 0 then mret (HAL_ERROR_IO, p)
  else
    let '(w, h) := r.2 in
    let c := if negb (w =? width c) || negb (h =? height c)
             then mk_cam_cfg w h (format c) (fps c) (buffer_count c) else c in
    _ ← v_s_parm (v4l2_fd p) (fps c);
    mret (HAL_SUCCESS, with_config c p).

(** [dev/hal/layers/camera/camera_hal.c:296-319 allocate_mmap_buffers, the loop] [n] buffers
    are left, the next has index [i]. *)
Fixpoint map_buffers (fd : Z) (n i : nat) (bufs : list camera_mmap_buffer_t)
    : M W (Z * list camera_mmap_buffer_t) :=
  match n with
  | O => mret (HAL_SUCCESS, bufs)
  | S n =>
      q ← v_querybuf fd (Z.of_nat i);
      if q.1 <? 0 then mret (HAL_ERROR_IO, bufs)
      else
        let '(len, off) := q.2 in
        a ← v_mmap fd len off;
        if a =? MAP_FAILED then mret (HAL_ERROR_IO, <[i := mk_mbuf 0 len]> bufs)
        else map_buffers fd n (S i) (<[i := mk_mbuf a len]> bufs)
  end.

(** [dev/hal/layers/camera/camera_hal.c:274-323 allocate_mmap_buffers] [mem]: the array can
    be allocated, in the state of the world at that call. *)
Definition allocate_mmap_buffers (mem : W -> bool) (p : camera_priv_t) : M W (Z * camera_priv_t) :=
  r ← v_reqbufs (v4l2_fd p) (buffer_count (config p));
  if r.1 <? 0 then mret (HAL_ERROR_IO, p)
  else
    let n := r.2 in
    if n <? 2 then mret (HAL_ERROR_NO_MEMORY, p)
    else
      ok ← ask mem;
      if negb ok then mret (HAL_ERROR_NO_MEMORY, with_buffers None n p)
      else
        b ← map_buffers (v4l2_fd p) (Z.to_nat n) 0 (replicate (Z.to_nat n) (mk_mbuf 0 0));
        mret (b.1, with_buffers (Some b.2) n p).

(** [dev/hal/layers/camera/camera_hal.c:337-343 release_mmap_buffers, the loop] *)
Fixpoint unmap_all (bufs : list camera_mmap_buffer_t) : M W unit :=
  match bufs with
  | [] => mret tt
  | b :: bufs =>
      _ ← (if negb (user_addr b =? 0) && negb (user_addr b =? MAP_FAILED)
           then v_munmap (user_addr b) (byte_length b) else mret tt);
      unmap_all bufs
  end.

(** [dev/hal/layers/camera/camera_hal.c:333-348 release_mmap_buffers] *)
Definition release_mmap_buffers (p : camera_priv_t) : M W camera_priv_t :=
  match mmap_buffers p with
  | None => mret p
  | Some bufs =>
      _ ← unmap_all (take (Z.to_nat (mmap_buffer_count p)) bufs);
      mret (with_buffers None 0 p)
  end.

Definition close_fd (rc : Z) (p : camera_priv_t) : M W (Z * camera_priv_t) :=
  _ ← k_close (v4l2_fd p); mret (rc, with_fd (-1) p).

(** [dev/hal/layers/camera/camera_hal.c:387-424 camera_open, once the device is open] *)
Definition setup_camera (mem : W -> bool) (p : camera_priv_t) : M W (Z * camera_priv_t) :=
  cap ← v_querycap (v4l2_fd p);
  if cap.1 <? 0 then close_fd HAL_ERROR_NO_DEVICE p
  else if Z.land cap.2 V4L2_CAP_VIDEO_CAPTURE =? 0 then close_fd HAL_ERROR_NO_DEVICE p
  else if Z.land cap.2 V4L2_CAP_STREAMING =? 0 then close_fd HAL_ERROR_NOT_SUPPORT p
  else
    c ← configure_v4l2_format p;
    if negb (c.1 =? HAL_SUCCESS) then close_fd c.1 c.2
    else
      a ← allocate_mmap_buffers mem c.2;
      if negb (a.1 =? HAL_SUCCESS) then
        p ← release_mmap_buffers a.2;
        close_fd a.1 p
      else mret (HAL_SUCCESS, a.2).

(** [dev/hal/layers/camera/camera_hal.c:374-386 camera_open, the device node] *)
Definition open_camera (mem : W -> bool) (p : camera_priv_t) : M W (Z * camera_priv_t) :=
  v ← camera_hal_validate_device_path (Some (v4l2_path p));
  if negb (v =? 0) then mret (HAL_ERROR_INVALID, p)
  else
    fd ← k_open (v4l2_path p);
    let p := with_fd fd p in
    if fd <? 0 then mret (HAL_ERROR_NO_DEVICE, p)
    else setup_camera mem p.

(** [dev/hal/layers/camera/camera_hal.c:368-430 camera_open] *)
Definition camera_open (mem : W -> bool) : DM Z :=
  with_priv HAL_ERROR_INVALID (fun p =>
    r ← call (open_camera mem p);
    _ ← set_priv (Some r.2);
    if r.1 =? 0 then
      _ ← set_fd (v4l2_fd r.2);
      _ ← set_state HAL_STATE_OPEN;
      mret 0
    else mret r.1).

(** [dev/hal/layers/camera/camera_hal.c:444-451 camera_close, the resources] *)
Definition close_camera (p : camera_priv_t) : M W camera_priv_t :=
  p ← release_mmap_buffers p;
  p ← (if 0 <=? v4l2_fd p then _ ← k_close (v4l2_fd p); mret (with_fd (-1) p) else mret p);
  mret (with_streaming false p).

(** [dev/hal/layers/camera/camera_hal.c:438-456 camera_close] *)
Definition camera_close : DM Z :=
  with_priv HAL_ERROR_INVALID (fun p =>
    p ← call (close_camera p);
    _ ← set_priv (Some p);
    _ ← set_fd (-1);
    _ ← set_state HAL_STATE_CLOSED;
    mret HAL_SUCCESS).

(** [dev/hal/layers/camera/camera_hal.c:476-488 camera_start, the loop] [n] buffers are left,
    the next has index [i]. *)
Fixpoint queue_buffers (fd : Z) (n i : nat) : M W Z :=
  match n with
  | O => mret HAL_SUCCESS
  | S n =>
      rc ← v_qbuf fd (Z.of_nat i);
      if rc <? 0 then mret HAL_ERROR_IO else queue_buffers fd n (S i)
  end.

(** [dev/hal/layers/camera/camera_hal.c:468-500 camera_start] *)
Definition camera_start : DM Z :=
  with_priv HAL_ERROR_INVALID (fun p =>
    x ← get_state;
    if negb (bool_decide (x = HAL_STATE_OPEN)) then mret HAL_ERROR_INVALID
    else
      rc ← call (queue_buffers (v4l2_fd p) (Z.to_nat (mmap_buffer_count p)) 0);
      if negb (rc =? HAL_SUCCESS) then mret rc
      else
        on ← call (v_streamon (v4l2_fd p));
        if on <? 0 then mret HAL_ERROR_IO
        else
          _ ← set_priv (Some (with_streaming true p));
          _ ← set_state HAL_STATE_ACTIVE;
          mret HAL_SUCCESS).

(** [dev/hal/layers/camera/camera_hal.c:511-529 camera_stop] *)
Definition camera_stop : DM Z :=
  with_priv HAL_ERROR_INVALID (fun p =>
    off ← (if streaming p then call (v_streamoff (v4l2_fd p)) else mret 0);
    if off <? 0 then mret HAL_ERROR_IO
    else
      _ ← set_priv (Some (with_streaming false p));
      _ ← set_state HAL_STATE_OPEN;
      mret HAL_SUCCESS).

(** [dev/hal/layers/camera/camera_hal.c:534-540 camera_read] *)
Definition camera_read : DM Z := mret HAL_ERROR_NOT_SUPPORT.
(** [dev/hal/layers/camera/camera_hal.c:545-551 camera_write] *)
Definition camera_write : DM Z := mret HAL_ERROR_NOT_SUPPORT.

(** [dev/hal/layers/camera/camera_hal.c:840-884 camera_hal_capture_frame] [out]: the caller's
    descriptor, None for NULL. *)
Definition camera_hal_capture_frame (out : option camera_frame_t) (timeout_ms : Z)
    : DM (Z * option camera_frame_t) :=
  with_priv (HAL_ERROR_INVALID, out) (fun p =>
    x ← get_state;
    match out with
    | None => mret (HAL_ERROR_INVALID, None)
    | Some _ =>
        if negb (bool_decide (x = HAL_STATE_ACTIVE)) then mret (HAL_ERROR_INVALID, out)
        else
          ready ← (if 0 <? timeout_ms then call (k_poll (v4l2_fd p) (i32 timeout_ms)) else mret 1);
          if ready =? 0 then mret (HAL_ERROR_TIMEOUT, out)
          else if ready <? 0 then mret (HAL_ERROR_IO, out)
          else
            r ← call (v_dqbuf (v4l2_fd p));
            if r.1 <? 0 then mret (if r.1 =? -11 then HAL_ERROR_TIMEOUT else HAL_ERROR_IO, out)
            else
              let b := r.2 in
              let m := default (mk_mbuf 0 0) (mmap_buffers p ≫= fun l => l !! Z.to_nat (vb_index b)) in
              _ ← set_priv (Some (with_frame_count (u32 (frame_count p + 1)) p));
              mret (HAL_SUCCESS,
                    Some (mk_frame (user_addr m) (vb_used b)
                            (u64 (u64 (vb_sec b) * 1000000 + u64 (vb_usec b)))
                            (vb_sequence b) (vb_index b)))
    end).

(** [dev/hal/layers/camera/camera_hal.c:897-921 camera_hal_return_frame] *)
Definition camera_hal_return_frame (frame : option camera_frame_t) : DM Z :=
  match frame with
  | None => mret HAL_ERROR_GENERIC
  | Some f =>
      with_priv HAL_ERROR_GENERIC (fun p =>
        if mmap_buffer_count p <=? f_buffer_index f then mret HAL_ERROR_GENERIC
        else
          rc ← call (v_qbuf (v4l2_fd p) (f_buffer_index f));
          mret (if rc <? 0 then HAL_ERROR_IO else HAL_SUCCESS))
  end.

(** What a control argument points to, under each type a command may give it. *)
Record camera_cell := mk_ccell { cc_int : Z; cc_config : camera_config_t; cc_frame : camera_frame_t }.

(** [dev/hal/layers/camera/camera_hal.c:570-609 camera_control] *)
Definition camera_control (cmd : Z) (a : arg camera_cell) : DM (Z * arg camera_cell) :=
  with_priv (HAL_ERROR_INVALID, a) (fun p =>
    let c := config p in
    let v := a_cell a in
    let store c := _ ← set_priv (Some (with_config c p)); mret (HAL_SUCCESS, a) in
    if negb (camera_validate_control_arg cmd (a_addr a) =? 0) then mret (HAL_ERROR_INVALID, a)
    else if cmd =? CAMERA_CMD_SET_RESOLUTION then
      let '(w, h) := camera_hal_get_resolution (cc_int v) in
      store (mk_cam_cfg w h (format c) (fps c) (buffer_count c))
    else if cmd =? CAMERA_CMD_SET_FPS then
      store (mk_cam_cfg (width c) (height c) (format c) (cc_int v) (buffer_count c))
    else if cmd =? CAMERA_CMD_SET_FORMAT then
      store (mk_cam_cfg (width c) (height c) (cc_int v) (fps c) (buffer_count c))
    else if cmd =? CAMERA_CMD_GET_CONFIG then
      mret (HAL_SUCCESS, mk_arg (a_addr a) (mk_ccell (cc_int v) c (cc_frame v)))
    else if cmd =? CAMERA_CMD_GET_FRAME then
      r ← camera_hal_capture_frame (Some (cc_frame v)) 0;
      mret (r.1, mk_arg (a_addr a) (mk_ccell (cc_int v) (cc_config v) (default (cc_frame v) r.2)))
    else if cmd =? CAMERA_CMD_RETURN_FRAME then
      rc ← camera_hal_return_frame (Some (cc_frame v));
      mret (rc, a)
    else mret (HAL_ERROR_NOT_SUPPORT, a)).

(** [dev/hal/layers/camera/camera_hal.h:118-124 camera_info_t] *)
Record camera_info_t := mk_cinfo {
  v4l2_device : string; i_config : camera_config_t; i_frames : Z; i_dropped : Z; i_streaming : bool
}.

(** [dev/hal/layers/camera/camera_hal.c:618-634 camera_get_info] [out]: the pointer is not NULL. *)
Definition camera_get_info (out : bool) : DM (Z * option camera_info_t) :=
  with_priv (HAL_ERROR_INVALID, None) (fun p =>
    if negb out then mret (HAL_ERROR_INVALID, None)
    else mret (HAL_SUCCESS, Some (mk_cinfo (strncpy_z 63 (v4l2_path p)) (config p) (frame_count p)
                                    (dropped_frames p) (streaming p)))).

(** [dev/hal/layers/camera/camera_hal.c:646-653 camera_priv_cleanup] *)
Definition camera_priv_cleanup : DM unit :=
  with_priv tt (fun p =>
    p ← call (release_mmap_buffers p);
    _ ← set_priv (Some p);
    set_priv None).
End camera.

(** [dev/hal/layers/camera/camera_hal.c:770-811 camera_hal_create] NULL is None; [mem], [lock],
    [mem']: the allocations and the lock succeed. *)
Definition camera_hal_create (nm path : option string) (cfg : option camera_config_t) (mem lock mem' : bool)
    : option (hw camera_priv_t) :=
  match nm, path, cfg with
  | Some nm, Some path, Some cfg =>
      if negb mem || negb lock || negb mem' then None
      else Some (mk_hw (strncpy_z 63 nm) 3 HAL_STATE_CLOSED (-1) HAL_CAP_CONTROL
                   (Some (mk_camera (strncpy_z 63 path) (-1) cfg None 0 0 0 false)))
  | _, _, _ => None
  end.

(** ** The driver *)

Inductive camera_req :=
| CRead | CWrite
| CCapture (out : option camera_frame_t) (timeout_ms : Z)
| CReturn (frame : option camera_frame_t)
| CControl (cmd : Z) (a : arg camera_cell)
| CInfo (out : bool).

Definition mapped (b : camera_mmap_buffer_t) : gset resource :=
  if negb (user_addr b =? 0) && negb (user_addr b =? MAP_FAILED) then {[Mapping (user_addr b)]} else ∅.
Definition mappings (bufs : list camera_mmap_buffer_t) : gset resource := ⋃ (mapped <$> bufs).

Definition bufs_owned (p : camera_priv_t) : gset resource :=
  match mmap_buffers p with
  | Some bufs => mappings (take (Z.to_nat (mmap_buffer_count p)) bufs)
  | None => ∅
  end.
Definition camera_owned (p : camera_priv_t) : gset resource :=
  (if 0 <=? v4l2_fd p then {[Fd (v4l2_fd p)]} else ∅) ∪ bufs_owned p.

Section laws.
Context {W : Type} `{Ledger W} `{Kernel W} `{!KernelLaws W} `{V4l2 W} `{!V4l2Laws W} (mem : W -> bool).

(** [dev/hal/layers/camera/camera_hal.c:657-667 camera_ops] *)
#[local] Instance camera_ops : HalDriver camera_priv_t camera_req W := {
  drv_open := camera_open mem; drv_close := camera_close;
  drv_start := camera_start; drv_stop := camera_stop;
  drv_request r := match r with
                   | CRead => camera_read ≫= fun _ => mret tt
                   | CWrite => camera_write ≫= fun _ => mret tt
                   | CCapture o t => camera_hal_capture_frame o t ≫= fun _ => mret tt
                   | CReturn f => camera_hal_return_frame f ≫= fun _ => mret tt
                   | CControl c a => camera_control c a ≫= fun _ => mret tt
                   | CInfo o => camera_get_info o ≫= fun _ => mret tt
                   end;
  drv_cleanup := camera_priv_cleanup
}.

Notation bal := (balanced (W:=W) camera_owned).

(** Unmapping gives back the mappings of the buffers and nothing else. *)
Lemma unmap_all_back bufs : forall w, held (unmap_all bufs w).2 = held w ∖ mappings bufs.
Proof.
  unfold mappings. induction bufs as [|b bufs IH]; intros w; [simpl; set_solver|].
  cbn [unmap_all fmap list_fmap union_list]. unfold mbind, M_bind, mret, M_ret.
  unfold mapped at 1. destruct (negb _ && negb _).
  - pose proof (munmap_back (user_addr b) (byte_length b) w) as Hm.
    destruct (v_munmap (user_addr b) (byte_length b) w) as [[] w1]. simpl in *. rewrite IH, Hm. set_solver.
  - rewrite IH. set_solver.
Qed.

Lemma release_back p : forall w,
  (release_mmap_buffers p w).1 = with_buffers None (match mmap_buffers p with None => mmap_buffer_count p | Some _ => 0 end) p /\
  held (release_mmap_buffers p w).2 = held w ∖ bufs_owned p.
Proof.
  intros w. unfold release_mmap_buffers, bufs_owned. destruct (mmap_buffers p) as [bufs|] eqn:Hb.
  - unfold mbind, M_bind, mret, M_ret.
    pose proof (unmap_all_back (take (Z.to_nat (mmap_buffer_count p)) bufs) w) as Hu.
    destruct (unmap_all _ w) as [[] w1]. simpl in *. split; [done|]. by rewrite Hu.
  - simpl. split; [|set_solver]. destruct p; simpl in *; by subst.
Qed.

Lemma close_releases p : releases camera_owned p (close_camera p).
Proof.
  intros w. unfold close_camera, mbind, M_bind, mret, M_ret.
  pose proof (release_back p w) as [Hr1 Hr2]. destruct (release_mmap_buffers p w) as [p1 w1]. simpl in *. subst p1.
  simpl. unfold camera_owned at 2. destruct (Z.leb_spec 0 (v4l2_fd p)) as [Hfd|Hfd].
  - pose proof (close_back (v4l2_fd p) w1) as Hc. destruct (k_close (v4l2_fd p) w1) as [[] w2]. simpl in *.
    rewrite Hc, Hr2. split; [unfold camera_owned; simpl; set_solver|set_solver].
  - simpl. rewrite Hr2. split; [|set_solver]. unfold camera_owned. simpl.
    destruct (Z.leb_spec 0 (v4l2_fd p)); [lia|]. set_solver.
Qed.

Lemma mappings_insert (bufs : list camera_mmap_buffer_t) i b b' : bufs !! i = Some b -> mapped b = ∅ ->
  mappings (<[i := b']> bufs) = mapped b' ∪ mappings bufs.
Proof.
  unfold mappings. revert i. induction bufs as [|c bufs IH]; intros [|i] Hb Hm; simplify_eq/=.
  - set_solver.
  - rewrite (IH i) by done. set_solver.
Qed.

(** The buffers from index [i] on are not mapped yet. *)
Definition unmapped_from (i : nat) (bufs : list camera_mmap_buffer_t) : Prop :=
  forall j b, (i <= j)%nat -> bufs !! j = Some b -> mapped b = ∅.

Lemma map_buffers_takes R fd n : forall i bufs w,
  length bufs = (i + n)%nat -> unmapped_from i bufs ->
  held w = mappings bufs ∪ R -> mappings bufs ## R ->
  let r := map_buffers fd n i bufs w in
  held r.2 = mappings r.1.2 ∪ R /\ mappings r.1.2 ## R /\ length r.1.2 = length bufs /\
  (r.1.1 = HAL_SUCCESS \/ r.1.1 = HAL_ERROR_IO).
Proof.
  induction n as [|n IH]; intros i bufs w Hl Hu Hh Hd; [by simpl; auto|].
  destruct (lookup_lt_is_Some_2 bufs i) as [b Hb]; [lia|].
  pose proof (Hu i b (le_n i) Hb) as Hb0. cbn [map_buffers]. unfold mbind, M_bind, mret, M_ret.
  pose proof (querybuf_quiet fd (Z.of_nat i) w) as Hq. destruct (v_querybuf fd (Z.of_nat i) w) as [q w1].
  simpl in Hq. destruct (q.1 <? 0); [simpl; rewrite Hq; auto|]. destruct q.2 as [len off].
  pose proof (mmap_fresh fd len off w1) as Hm. pose proof (mmap_failed fd len off w1) as Hf.
  destruct (v_mmap fd len off w1) as [a w2]. simpl in Hm, Hf.
  destruct (Z.eqb_spec a MAP_FAILED) as [->|Ha].
  - assert (Hz : mapped (mk_mbuf 0 len) = ∅) by done. simpl.
    rewrite (mappings_insert bufs i b), Hz, union_empty_l_L, Hf, Hq, length_insert by done. auto.
  - destruct (Hm Ha) as (Ha0 & Hfresh & Hw2).
    assert (Hmb : mapped (mk_mbuf a len) = {[Mapping a]}).
    { unfold mapped. simpl. destruct (Z.eqb_spec a 0); [done|]. by destruct (Z.eqb_spec a MAP_FAILED). }
    specialize (IH (S i) (<[i := mk_mbuf a len]> bufs) w2). rewrite length_insert in IH.
    rewrite (mappings_insert bufs i b), Hmb in IH by done.
    apply IH; [lia| |rewrite Hw2, Hq, Hh; set_solver|rewrite Hq, Hh in Hfresh; set_solver].
    intros j c Hj Hc. rewrite list_lookup_insert_ne in Hc by lia. apply (Hu j); [lia|done].
Qed.

Lemma close_fd_back rc p w R : held w = {[Fd (v4l2_fd p)]} ∪ R -> Fd (v4l2_fd p) ∉ R ->
  (close_fd rc p w).1 = (rc, with_fd (-1) p) /\ held (close_fd rc p w).2 = R.
Proof.
  intros Hh Hd. unfold close_fd, mbind, M_bind, mret, M_ret.
  pose proof (close_back (v4l2_fd p) w) as Hc. destruct (k_close (v4l2_fd p) w) as [[] w1]. simpl in *.
  split; [done|]. rewrite Hc, Hh. set_solver.
Qed.

Lemma configure_result p w : (exists c, (configure_v4l2_format p w).1.2 = with_config c p) /\
  held (configure_v4l2_format p w).2 = held w.
Proof.
  unfold configure_v4l2_format, mbind, M_bind, mret, M_ret.
  pose proof (s_fmt_quiet (v4l2_fd p) (width (config p)) (height (config p)) (v4l2_fmt_from_hal (format (config p))) w) as H1q.
  destruct (v_s_fmt _ _ _ _ w) as [r w1]. simpl in H1q. destruct (r.1 <? 0); simpl.
  - split; [exists (config p); by destruct p|done].
  - destruct r.2 as [rw rh].
    match goal with |- context [v_s_parm ?a ?b w1] =>
      pose proof (s_parm_quiet a b w1) as H2q; destruct (v_s_parm a b w1) as [r2 w2] end.
    simpl in *. split; [eauto|]. by rewrite H2q.
Qed.

Lemma mappings_zero n : mappings (replicate n (mk_mbuf 0 0)) = ∅.
Proof. unfold mappings. induction n as [|n IH]; [done|]. rewrite replicate_S, fmap_cons, union_list_cons, IH. set_solver. Qed.

Lemma allocate_takes p w : bufs_owned p = ∅ -> let r := allocate_mmap_buffers mem p w in
  held r.2 = bufs_owned r.1.2 ∪ held w /\ bufs_owned r.1.2 ## held w /\ v4l2_fd r.1.2 = v4l2_fd p.
Proof.
  intros Hp. unfold allocate_mmap_buffers, mbind, M_bind, mret, M_ret.
  pose proof (reqbufs_quiet (v4l2_fd p) (buffer_count (config p)) w) as Hq.
  destruct (v_reqbufs _ _ w) as [r w1]. simpl in Hq.
  destruct (r.1 <? 0); [simpl; rewrite Hp, Hq; set_solver|].
  destruct (Z.ltb_spec r.2 2) as [Hn|Hn]; [simpl; rewrite Hp, Hq; set_solver|].
  unfold ask. destruct (mem w1); simpl.
  - pose proof (map_buffers_takes (held w1) (v4l2_fd p) (Z.to_nat r.2) 0
      (replicate (Z.to_nat r.2) (mk_mbuf 0 0)) w1) as Hm.
    rewrite mappings_zero, length_replicate in Hm.
    destruct Hm as (Hm1 & Hm2 & Hm3 & _); [done| |set_solver|set_solver|].
    { intros j b _ Hb. apply lookup_replicate in Hb as [-> _]. done. }
    destruct (map_buffers _ _ _ _ w1) as [b w2]. simpl in *. unfold bufs_owned. simpl.
    rewrite take_ge by lia. rewrite Hq in *. done.
  - unfold bufs_owned. simpl. rewrite Hq. set_solver.
Qed.

Lemma owned_closed p : bufs_owned p = ∅ -> camera_owned (with_fd (-1) p) = ∅.
Proof. intros Hp. unfold camera_owned. simpl. unfold bufs_owned in *. simpl. rewrite Hp. set_solver. Qed.

Lemma setup_takes p w R : 0 <= v4l2_fd p -> bufs_owned p = ∅ ->
  held w = {[Fd (v4l2_fd p)]} ∪ R -> Fd (v4l2_fd p) ∉ R ->
  let r := setup_camera mem p w in
  held r.2 = camera_owned r.1.2 ∪ R /\ camera_owned r.1.2 ## R /\ (r.1.1 <> 0 -> camera_owned r.1.2 = ∅).
Proof.
  intros Hfd Hb Hh Hd. unfold setup_camera, mbind, M_bind, mret, M_ret.
  assert (Hclose : forall rc q w', v4l2_fd q = v4l2_fd p -> bufs_owned q = ∅ -> held w' = {[Fd (v4l2_fd p)]} ∪ R ->
    held (close_fd rc q w').2 = camera_owned (close_fd rc q w').1.2 ∪ R /\
    camera_owned (close_fd rc q w').1.2 ## R /\ ((close_fd rc q w').1.1 <> 0 -> camera_owned (close_fd rc q w').1.2 = ∅)).
  { intros rc q w' Hq Hbq Hw. rewrite <- Hq in Hw, Hd. destruct (close_fd_back rc q w' R Hw Hd) as [-> ->].
    simpl. rewrite (owned_closed q) by done. set_solver. }
  pose proof (querycap_quiet (v4l2_fd p) w) as Hq. destruct (v_querycap (v4l2_fd p) w) as [cap w1].
  simpl in Hq. rewrite <- Hq in Hh.
  do 3 (case_match; [by apply Hclose|]).
  destruct (configure_result p w1) as [[c Hc] Hcq]. destruct (configure_v4l2_format p w1) as [[rc p1] w2].
  simpl in Hc, Hcq. subst p1. rewrite <- Hcq in Hh. cbn [fst snd].
  destruct (negb (rc =? HAL_SUCCESS)); [by apply Hclose|].
  destruct (allocate_takes (with_config c p) w2 Hb) as (Ha1 & Ha2 & Ha3).
  destruct (allocate_mmap_buffers mem (with_config c p) w2) as [[ra p2] w3]. cbn [fst snd] in *.
  destruct (negb (ra =? HAL_SUCCESS)).
  - destruct (release_back p2 w3) as [Hr1 Hr2]. destruct (release_mmap_buffers p2 w3) as [p3 w4].
    cbn [fst snd] in *. subst p3. apply Hclose; [done|done|]. rewrite Hr2, Ha1, Hh in *. set_solver.
  - simpl. assert (Ho : camera_owned p2 = {[Fd (v4l2_fd p)]} ∪ bufs_owned p2).
    { unfold camera_owned. rewrite Ha3. simpl. by destruct (Z.leb_spec 0 (v4l2_fd p)); [|lia]. }
    rewrite Ho, Ha1, Hh in *. set_solver.
Qed.

Lemma validate_quiet path : quiet (camera_hal_validate_device_path path).
Proof. unfold camera_hal_validate_device_path. auto with hal. Qed.

(** Opening takes what the device then owns; when it fails it takes nothing. *)
Lemma open_camera_takes p w : camera_owned p = ∅ -> let r := open_camera mem p w in
  held r.2 = camera_owned r.1.2 ∪ held w /\ camera_owned r.1.2 ## held w /\
  (r.1.1 <> 0 -> camera_owned r.1.2 = ∅).
Proof.
  intros Hp. assert (Hb : bufs_owned p = ∅) by (unfold camera_owned in Hp; set_solver).
  unfold open_camera, mbind, M_bind, mret, M_ret.
  pose proof (validate_quiet (Some (v4l2_path p)) w) as Hv.
  destruct (camera_hal_validate_device_path (Some (v4l2_path p)) w) as [v w1]. simpl in Hv. rewrite <- Hv.
  destruct (negb (v =? 0)); [simpl; rewrite Hp; set_solver|].
  pose proof (open_fresh (v4l2_path p) w1) as Ho1. pose proof (open_failed (v4l2_path p) w1) as Ho2.
  destruct (k_open (v4l2_path p) w1) as [fd w2]. simpl in Ho1, Ho2.
  destruct (Z.ltb_spec fd 0) as [Hfd|Hfd].
  - simpl. assert (Ho : camera_owned (with_fd fd p) = ∅).
    { unfold camera_owned, bufs_owned in *. simpl in *. destruct (Z.leb_spec 0 fd); [lia|]. set_solver. }
    rewrite Ho, Ho2 by done. set_solver.
  - destruct (Ho1 Hfd) as [Hfresh Hw]. by apply (setup_takes (with_fd fd p)).
Qed.

Lemma queue_quiet fd n : forall i, quiet (queue_buffers fd n i).
Proof. induction n as [|n IH]; intros i; simpl; auto with hal. Qed.
Hint Resolve queue_quiet : hal.

Lemma capture_balanced B o t : keeps (bal B) (camera_hal_capture_frame o t).
Proof.
  unfold camera_hal_capture_frame. apply keeps_with_priv. intros p.
  apply at_get_state. intros x. eapply triple_pre with (P := bal_at camera_owned B p); [|by intros s []].
  destruct o; [|apply at_bal; auto with hal]. triple_cases; [apply at_bal; auto with hal|].
  apply at_seq; [auto with hal|]. intros ready. triple_cases; try (apply at_bal; auto with hal; fail).
  apply at_seq; [auto with hal|]. intros r. triple_cases; [apply at_bal; auto with hal|].
  apply at_set; [done|]. intros _. apply at_bal. auto with hal.
Qed.

Lemma return_balanced B f : keeps (bal B) (camera_hal_return_frame f).
Proof. destruct f; simpl; auto 10 with hal. Qed.
Hint Resolve capture_balanced return_balanced : hal.

Lemma camera_control_balanced B c a : keeps (bal B) (camera_control c a).
Proof.
  unfold camera_control. apply keeps_with_priv. intros p. cbv zeta.
  destruct (camera_hal_get_resolution _) as [w h].
  triple_cases; try (apply at_bal; auto with hal; fail);
    apply at_set; try done; intros _; apply at_bal; auto with hal.
Qed.

#[local] Instance camera_laws : HalDriverLaws (W:=W) camera_owned.
Proof.
  split; intros B; simpl.
  - apply closed_with_priv. intros p Hp.
    apply (at_acquire_result camera_owned B); [|done|done|].
    + intros w. by destruct (open_camera_takes p w Hp) as (H1q & H2q & _).
    + intros w. by destruct (open_camera_takes p w Hp) as (_ & _ & H3q).
  - apply bal_with_priv. intros p.
    apply at_release with (f := fun _ => _ ← set_fd (-1); _ ← set_state HAL_STATE_CLOSED; mret HAL_SUCCESS);
      [apply close_releases|]. intros p' Hp'. by apply at_closed.
  - unfold camera_start. apply keeps_with_priv. intros p. apply at_get_state. intros x.
    eapply triple_pre with (P := bal_at camera_owned B p); [|by intros s []].
    triple_cases; [apply at_bal; auto with hal|].
    apply at_seq; [auto with hal|]. intros rc. triple_cases; [apply at_bal; auto with hal|].
    apply at_seq; [auto with hal|]. intros on. triple_cases; [apply at_bal; auto with hal|].
    apply at_set; [done|]. intros _. apply at_bal. auto with hal.
  - unfold camera_stop. apply keeps_with_priv. intros p.
    apply at_seq; [auto with hal|]. intros off. triple_cases; [apply at_bal; auto with hal|].
    apply at_set; [done|]. intros _. apply at_bal. auto with hal.
  - intros []; unfold camera_read, camera_write, camera_get_info; auto using camera_control_balanced with hal.
  - apply closed_with_priv. intros p Hp.
    assert (Hb : bufs_owned p = ∅) by (unfold camera_owned in Hp; set_solver).
    apply at_release with (f := fun _ => set_priv None); [|intros p' Hp'; by apply at_gone].
    intros w. destruct (release_back p w) as [Hr1 Hr2]. rewrite Hr1, Hr2, Hb, Hp. split; [|done].
    unfold camera_owned, bufs_owned in *. simpl in *. set_solver.
Qed.
(** A successful loop maps every buffer. *)
Lemma map_buffers_all fd n : forall i bufs w, length bufs = (i + n)%nat ->
  (forall j b, (j < i)%nat -> bufs !! j = Some b -> mapped b = {[Mapping (user_addr b)]}) ->
  (map_buffers fd n i bufs w).1.1 = HAL_SUCCESS ->
  Forall (fun b => mapped b = {[Mapping (user_addr b)]}) (map_buffers fd n i bufs w).1.2.
Proof.
  induction n as [|n IH]; intros i bufs w Hl Hu; cbn [map_buffers]; unfold mbind, M_bind, mret, M_ret.
  - intros _. apply Forall_lookup. intros j b Hb. apply (Hu j); [|done].
    cbn [fst snd] in Hb. apply lookup_lt_Some in Hb. lia.
  - destruct (v_querybuf fd (Z.of_nat i) w) as [q w1]. destruct (q.1 <? 0); [done|].
    destruct q.2 as [len off]. pose proof (mmap_fresh fd len off w1) as Hm.
    destruct (v_mmap fd len off w1) as [a w2]. simpl in Hm.
    destruct (Z.eqb_spec a MAP_FAILED) as [|Ha]; [done|]. destruct (Hm Ha) as [Ha0 _].
    apply IH; [rewrite length_insert; lia|]. intros j b Hj Hb.
    destruct (decide (j = i)) as [->|].
    + rewrite list_lookup_insert_eq in Hb by lia. injection Hb as <-. unfold mapped. simpl.
      destruct (Z.eqb_spec a 0); [done|]. by destruct (Z.eqb_spec a MAP_FAILED).
    + rewrite list_lookup_insert_ne in Hb by done. apply (Hu j); [lia|done].
Qed.

(** A camera that is set up has its descriptor and at least two buffers, all mapped. *)
Definition camera_ready (p : camera_priv_t) : Prop :=
  exists bufs, mmap_buffers p = Some bufs /\ 2 <= mmap_buffer_count p /\ mmap_buffer_count p = Z.of_nat (length bufs) /\
    Forall (fun b => mapped b = {[Mapping (user_addr b)]}) bufs.

Lemma allocate_ready p w : (allocate_mmap_buffers mem p w).1.1 = HAL_SUCCESS ->
  camera_ready (allocate_mmap_buffers mem p w).1.2.
Proof.
  unfold allocate_mmap_buffers, mbind, M_bind, mret, M_ret.
  destruct (v_reqbufs _ _ w) as [r w1]. destruct (r.1 <? 0); [done|].
  destruct (Z.ltb_spec r.2 2) as [|Hn]; [done|]. unfold ask. destruct (mem w1); [|done].
  set (z := replicate (Z.to_nat r.2) (mk_mbuf 0 0)). assert (Hz : length z = Z.to_nat r.2) by apply length_replicate.
  pose proof (map_buffers_all (v4l2_fd p) (Z.to_nat r.2) 0 z w1 Hz) as Ha.
  assert (Hl : length (map_buffers (v4l2_fd p) (Z.to_nat r.2) 0 z w1).1.2 = length z).
  { destruct (map_buffers_takes (held w1) (v4l2_fd p) (Z.to_nat r.2) 0 z w1) as (_ & _ & Hl & _); try done.
    - intros j b _ Hb. by apply lookup_replicate in Hb as [-> _].
    - unfold z. rewrite mappings_zero. set_solver.
    - unfold z. rewrite mappings_zero. set_solver. }
  cbn [negb]. destruct (map_buffers _ _ _ z w1) as [b w2]. cbn [fst snd] in *. intros Hb. exists b.2. cbn [mmap_buffers mmap_buffer_count with_buffers].
  split_and!; [done|lia|lia|]. apply Ha; [intros; lia|done].
Qed.

Lemma close_fd_fields rc p w : (close_fd rc p w).1 = (rc, with_fd (-1) p).
Proof. unfold close_fd, mbind, M_bind, mret, M_ret. by destruct (k_close (v4l2_fd p) w) as [[] w1]. Qed.

Lemma setup_fields p w : mmap_buffers p = None -> let r := setup_camera mem p w in
  r.1.1 <> HAL_SUCCESS /\ v4l2_fd r.1.2 < 0 /\ mmap_buffers r.1.2 = None \/
  r.1.1 = HAL_SUCCESS /\ v4l2_fd r.1.2 = v4l2_fd p /\ camera_ready r.1.2.
Proof.
  intros Hp. unfold setup_camera, mbind, M_bind.
  destruct (v_querycap (v4l2_fd p) w) as [cap w1].
  assert (Hclose : forall rc q w, rc <> HAL_SUCCESS -> mmap_buffers q = None ->
    (close_fd rc q w).1.1 <> HAL_SUCCESS /\ v4l2_fd (close_fd rc q w).1.2 < 0 /\ mmap_buffers (close_fd rc q w).1.2 = None).
  { intros rc q w' Hrc Hq. by rewrite close_fd_fields. }
  do 3 (case_match; [left; by apply Hclose|]).
  destruct (configure_result p w1) as [[c Hc] _]. destruct (configure_v4l2_format p w1) as [[rc p1] w2].
  cbn [fst snd] in *. subst p1. destruct (Z.eqb_spec rc HAL_SUCCESS) as [|Hrc]; cbn [negb]; [|left; by apply Hclose].
  pose proof (allocate_ready (with_config c p) w2) as Ha.
  assert (Hfd : v4l2_fd (allocate_mmap_buffers mem (with_config c p) w2).1.2 = v4l2_fd p).
  { destruct (allocate_takes (with_config c p) w2) as (_ & _ & Hf); [|exact Hf].
    unfold bufs_owned. simpl. by rewrite Hp. }
  destruct (allocate_mmap_buffers mem (with_config c p) w2) as [[ra p2] w3]. cbn [fst snd] in *.
  destruct (Z.eqb_spec ra HAL_SUCCESS) as [->|Hra]; cbn [negb]; [right; simpl; auto|left].
  pose proof (release_back p2 w3) as [Hr _]. destruct (release_mmap_buffers p2 w3) as [p3 w4].
  cbn [fst] in Hr. subst p3. by apply Hclose.
Qed.

Lemma open_camera_fields p w : mmap_buffers p = None -> v4l2_fd p < 0 -> let r := open_camera mem p w in
  r.1.1 <> HAL_SUCCESS /\ v4l2_fd r.1.2 < 0 /\ mmap_buffers r.1.2 = None \/
  r.1.1 = HAL_SUCCESS /\ 0 <= v4l2_fd r.1.2 /\ camera_ready r.1.2.
Proof.
  intros Hp Hfd. unfold open_camera, mbind, M_bind.
  destruct (camera_hal_validate_device_path (Some (v4l2_path p)) w) as [v w1].
  destruct (negb (v =? 0)); [left; simpl; auto|].
  destruct (k_open (v4l2_path p) w1) as [fd w2]. destruct (Z.ltb_spec fd 0) as [Hn|Hn]; [left; simpl; auto|].
  destruct (setup_fields (with_fd fd p) w2 Hp) as [?|(Hs & Hf & Hr)]; [by left|right].
  rewrite Hf. by split.
Qed.
End laws.

(** ** What the driver keeps *)

(** C38: Whatever a client does with a camera — open, close, start, stop, capture and
    return frames, control, in any order and opening it only when closed — when the last
    reference goes the process holds exactly the descriptors and the mappings it held
    before, however the driver of the kernel answers and whether or not memory is
    available. *)
Theorem camera_no_leak {W} `{Ledger W} `{Kernel W} `{!KernelLaws W} `{V4l2 W} `{!V4l2Laws W}
    mem nm path cfg (w : W) d cs :
  let drv := camera_ops mem in
  camera_hal_create (Some nm) (Some path) (Some cfg) true true true = Some d ->
  opens_closed (Req:=camera_req) cs (mk_st d w) = true ->
  held (world (hal_device_last_unref (drv_run cs (mk_st d w)).2).2) = held w.
Proof.
  intros drv [= <-] Ho. pose proof (camera_laws mem) as Hlaws.
  apply (driver_no_leak camera_owned); [|done]. split; [|done]. eexists. split; [done|].
  simpl. unfold camera_owned, bufs_owned. simpl. set_solver.
Qed.

(** An open that fails leaves nothing behind — neither descriptor nor mapping — and
    the device as it was; one that succeeds holds the device node and at least two
    buffers, all mapped. *)
Theorem camera_open_all_or_nothing {W} `{Ledger W} `{Kernel W} `{!KernelLaws W} `{V4l2 W} `{!V4l2Laws W}
    mem p (s : st camera_priv_t W) :
  h_priv (dev s) = Some p -> v4l2_fd p < 0 -> mmap_buffers p = None ->
  let rc := (camera_open mem s).1 in
  let s' := (camera_open mem s).2 in
  exists p', h_priv (dev s') = Some p' /\
  ((rc <> HAL_SUCCESS /\ held (world s') = held (world s) /\ h_state (dev s') = h_state (dev s) /\
    v4l2_fd p' < 0 /\ mmap_buffers p' = None) \/
   (rc = HAL_SUCCESS /\ h_state (dev s') = HAL_STATE_OPEN /\ 0 <= v4l2_fd p' /\ camera_ready p' /\
    held (world s') = camera_owned p' ∪ held (world s) /\ camera_owned p' ## held (world s))).
Proof.
  intros Hp Hfd Hb. assert (Ho : camera_owned p = ∅).
  { unfold camera_owned, bufs_owned. rewrite Hb. destruct (Z.leb_spec 0 (v4l2_fd p)); [lia|]. set_solver. }
  destruct (open_camera_takes mem p (world s) Ho) as (Ht1 & Ht2 & Ht3).
  pose proof (open_camera_fields mem p (world s) Hb Hfd) as Hf. revert Ht1 Ht2 Ht3 Hf.
  unfold camera_open, with_priv, mbind, M_bind, call. rewrite Hp.
  destruct (open_camera mem p (world s)) as [[rc p'] w']. cbn [fst snd].
  intros Ht1 Ht2 Ht3 Hf. exists p'.
  destruct Hf as [(Hrc & Hn & Hm)|(-> & Hn & Hr)].
  - destruct (Z.eqb_spec rc 0) as [|]; [done|]. simpl. split; [done|]. left.
    rewrite Ht1, Ht3 by done. rewrite union_empty_l_L. auto.
  - simpl. split; [done|]. right. auto 10.
Qed.

(** What a successful capture did: perhaps a poll, and the dequeue of a buffer. *)
Lemma capture_success {W} `{Kernel W} `{V4l2 W} s p out t f (s1 : st camera_priv_t W) :
  h_priv (dev s) = Some p -> camera_hal_capture_frame out t s = ((HAL_SUCCESS, Some f), s1) ->
  exists w0, (w0 = world s \/ w0 = (k_poll (v4l2_fd p) (i32 t) (world s)).2) /\
    0 <= (v_dqbuf (v4l2_fd p) w0).1.1 /\
    f_buffer_index f = vb_index (v_dqbuf (v4l2_fd p) w0).1.2 /\
    f_data f = user_addr (default (mk_mbuf 0 0) (mmap_buffers p ≫= fun l => l !! Z.to_nat (f_buffer_index f))) /\
    world s1 = (v_dqbuf (v4l2_fd p) w0).2 /\
    h_priv (dev s1) = Some (with_frame_count (u32 (frame_count p + 1)) p).
Proof.
  intros Hp. unfold camera_hal_capture_frame, with_priv. rewrite Hp.
  unfold get_state, mbind, M_bind, mret, M_ret, call. destruct out as [o|]; [|done].
  destruct (negb _); [by intros [=]|]. destruct (0 <? t).
  - destruct (k_poll (v4l2_fd p) (i32 t) (world s)) as [ready w0] eqn:Hk. cbn [world].
    destruct (ready =? 0); [by intros [=]|]. destruct (ready <? 0); [by intros [=]|]. cbn [world].
    destruct (v_dqbuf (v4l2_fd p) w0) as [[n b] w1] eqn:Hd. cbn [fst snd].
    destruct (Z.ltb_spec n 0); [by destruct (n =? -11); intros [=]|].
    intros [= <- <-]. exists w0. rewrite Hd. cbn. auto 10.
  - change (1 =? 0) with false. change (1 <? 0) with false. cbn beta iota.
    destruct (v_dqbuf (v4l2_fd p) (world s)) as [[n b] w1] eqn:Hd. cbn [fst snd].
    destruct (Z.ltb_spec n 0); [by destruct (n =? -11); intros [=]|].
    intros [= <- <-]. exists (world s). rewrite Hd. cbn. auto 10.
Qed.

Section frames.
Context {W : Type} `{Kernel W} `{V4l2 W} (queued : W -> gset Z).
(** VIDIOC_DQBUF takes a buffer out of the driver's queue, VIDIOC_QBUF puts it back. *)
Hypothesis dqbuf_takes : forall fd w, 0 <= (v_dqbuf fd w).1.1 ->
  vb_index (v_dqbuf fd w).1.2 ∈ queued w /\
  queued (v_dqbuf fd w).2 = queued w ∖ {[vb_index (v_dqbuf fd w).1.2]}.
Hypothesis qbuf_gives : forall fd i w, 0 <= (v_qbuf fd i w).1 -> queued (v_qbuf fd i w).2 = {[i]} ∪ queued w.
Hypothesis poll_keeps : forall fd t w, queued (k_poll fd t w).2 = queued w.

(** While a client has a captured frame the driver does not have its buffer; returning
    the frame puts exactly that buffer back. *)
Theorem frame_is_lent s p out timeout f s1 rc s2 :
  h_priv (dev s) = Some p ->
  (forall i, i ∈ queued (world s) -> 0 <= i < mmap_buffer_count p) ->
  camera_hal_capture_frame out timeout s = ((HAL_SUCCESS, Some f), s1) ->
  camera_hal_return_frame (Some f) s1 = (rc, s2) ->
  f_buffer_index f ∉ queued (world s1) /\
  (rc = HAL_SUCCESS /\ queued (world s2) = queued (world s) \/ rc = HAL_ERROR_IO).
Proof.
  intros Hp Hi Hc Hr.
  destruct (capture_success s p out timeout f s1 Hp Hc) as (w0 & Hw0 & Hn & Hf & _ & Hw1 & Hp1).
  assert (Hq : queued w0 = queued (world s)) by (destruct Hw0 as [-> | ->]; auto).
  destruct (dqbuf_takes _ _ Hn) as [Hin Hout]. rewrite <- Hf, <- Hw1 in *. rewrite Hq in *.
  split; [rewrite Hout; set_solver|].
  revert Hr. unfold camera_hal_return_frame, with_priv, mbind, M_bind, mret, M_ret, call. rewrite Hp1.
  cbn [mmap_buffer_count with_frame_count v4l2_fd]. specialize (Hi _ Hin).
  destruct (Z.leb_spec (mmap_buffer_count p) (f_buffer_index f)); [lia|].
  pose proof (qbuf_gives (v4l2_fd p) (f_buffer_index f) (world s1)) as Hg.
  destruct (v_qbuf _ _ (world s1)) as [m w2]. cbn [fst snd] in *.
  destruct (Z.ltb_spec m 0); intros [= <- <-]; [by right|left]. split; [done|].
  cbn [world]. rewrite Hg, Hout by done. apply set_eq. intros i.
  rewrite elem_of_union, elem_of_difference, elem_of_singleton. destruct (decide (i = f_buffer_index f)); naive_solver.
Qed.
End frames.

(** ** A camera to run the driver on *)

Record cam_world := mk_cw { cw_files : toy; cw_maps : list Z; cw_queue : gset Z }.

Definition lift {A} (m : M toy A) : M cam_world A := fun w =>
  let '(x, t) := m (cw_files w) in (x, mk_cw t (cw_maps w) (cw_queue w)).
Definition next_map (l : list Z) : Z := 4096 + foldr Z.max 0 l.

#[export] Instance cam_kernel : Kernel cam_world := {
  k_open p := lift (k_open p); k_close fd := lift (k_close fd); k_read fd n := lift (k_read fd n);
  k_write fd s := lift (k_write fd s); k_rewind fd := lift (k_rewind fd); k_access p := lift (k_access p);
  k_poll fd t := lift (k_poll fd t); k_realpath p := lift (k_realpath p)
}.
#[export] Instance cam_ledger : Ledger cam_world := fun w =>
  held (cw_files w) ∪ list_to_set (Mapping <$> cw_maps w).
#[export] Instance cam_v4l2 : V4l2 cam_world := {
  v_querycap fd := mret (0, Z.lor V4L2_CAP_VIDEO_CAPTURE V4L2_CAP_STREAMING);
  v_s_fmt fd w h f := mret (0, (w, h));
  v_s_parm fd n := mret 0;
  v_reqbufs fd n := mret (0, n);
  v_querybuf fd i := mret (0, (614400, i * 614400));
  v_mmap fd len off w := let a := next_map (cw_maps w) in (a, mk_cw (cw_files w) (a :: cw_maps w) (cw_queue w));
  v_munmap a len w := (tt, mk_cw (cw_files w) (List.filter (fun b => negb (b =? a)) (cw_maps w)) (cw_queue w));
  v_qbuf fd i w := (0, mk_cw (cw_files w) (cw_maps w) ({[i]} ∪ cw_queue w));
  v_dqbuf fd w := match elements (cw_queue w) with
                  | [] => ((-11, mk_vbuf 0 0 0 0 0), w)
                  | i :: _ => ((0, mk_vbuf i 614400 1 2 3), mk_cw (cw_files w) (cw_maps w) (cw_queue w ∖ {[i]}))
                  end;
  v_streamon fd := mret 0;
  v_streamoff fd := mret 0
}.

Lemma lift_held {A} (m : M toy A) w : held (lift m w).2 = held (m (cw_files w)).2 ∪ list_to_set (Mapping <$> cw_maps w).
Proof. unfold lift. by destruct (m (cw_files w)). Qed.
Lemma lift_fst {A} (m : M toy A) w : (lift m w).1 = (m (cw_files w)).1.
Proof. unfold lift. by destruct (m (cw_files w)). Qed.
Lemma lift_quiet {A} (m : M toy A) : quiet m -> quiet (lift m).
Proof. intros Hm w. rewrite lift_held, Hm. done. Qed.

Lemma fd_not_mapped fd l : Fd fd ∉ (list_to_set (Mapping <$> l) : gset resource).
Proof. rewrite elem_of_list_to_set, list_elem_of_fmap. by intros (a & ? & _). Qed.
Lemma map_in a l : Mapping a ∈ (list_to_set (Mapping <$> l) : gset resource) <-> a ∈ l.
Proof.
  rewrite elem_of_list_to_set, list_elem_of_fmap. split; [by intros (b & [= ->] & Hb)|eauto].
Qed.
Lemma map_not_held a (w : toy) : Mapping a ∉ held w.
Proof. unfold held, toy_ledger. rewrite elem_of_list_to_set, list_elem_of_fmap. by intros (x & ? & _). Qed.

#[export] Instance cam_laws : KernelLaws cam_world.
Proof.
  split; [intros p w|intros p w|intros fd w| | | | | |]; try (intros; apply lift_quiet; first
    [apply read_quiet|apply write_quiet|apply rewind_quiet|apply access_quiet|apply poll_quiet|apply realpath_quiet]).
  - change (k_open p w) with (lift (k_open p) w). rewrite lift_fst, lift_held. intros Hp.
    destruct (open_fresh p (cw_files w) Hp) as [Hf Hh]. rewrite Hh.
    change (held w) with (held (cw_files w) ∪ list_to_set (Mapping <$> cw_maps w)). split; [|set_solver].
    rewrite elem_of_union. intros [|Hm]; [done|]. by apply fd_not_mapped in Hm.
  - change (k_open p w) with (lift (k_open p) w). rewrite lift_fst, lift_held. intros Hp. by rewrite open_failed.
  - change (k_close fd w) with (lift (k_close fd) w). rewrite lift_held, close_back.
    change (held w) with (held (cw_files w) ∪ list_to_set (Mapping <$> cw_maps w)). pose proof (fd_not_mapped fd (cw_maps w)). set_solver.
Qed.

Lemma next_above l a : a ∈ l -> a < next_map l.
Proof. unfold next_map. intros Ha. induction Ha; simpl; lia. Qed.
Lemma next_pos l : 0 < next_map l.
Proof. unfold next_map. induction l; simpl; lia. Qed.

#[export] Instance cam_v4l2_laws : V4l2Laws cam_world.
Proof.
  split; simpl; intros; try done.
  - intros w. simpl. by destruct (elements (cw_queue w)).
  - pose proof (next_pos (cw_maps w)). unfold held, cam_ledger. simpl. split_and!; [lia| |].
    + rewrite elem_of_union, map_in. intros [Hm|Hm]; [by apply map_not_held in Hm|].
      apply next_above in Hm. lia.
    + set_solver.
  - pose proof (next_pos (cw_maps w)). unfold MAP_FAILED in *. lia.
  - unfold held, cam_ledger. simpl. apply set_eq. intros r.
    rewrite elem_of_difference, !elem_of_union, elem_of_singleton.
    destruct r as [fd|b|h|h].
    + pose proof (fd_not_mapped fd (cw_maps w)). pose proof (fd_not_mapped fd (List.filter (fun b => negb (b =? a)) (cw_maps w))). naive_solver.
    + rewrite !map_in, !list_elem_of_In, filter_In, <- !list_elem_of_In.
      pose proof (map_not_held b (cw_files w)). destruct (Z.eqb_spec b a); naive_solver.
    + rewrite !elem_of_list_to_set, !list_elem_of_fmap. naive_solver.
    + rewrite !elem_of_list_to_set, !list_elem_of_fmap. naive_solver.
Qed.

Definition cam0 : cam_world := mk_cw (mk_toy [(3, "/run/log"%string)] {["/dev/video0"%string := ""%string]}) [] ∅.
Definition webcam : hw camera_priv_t :=
  mk_hw "cam" 3 HAL_STATE_CLOSED (-1) HAL_CAP_CONTROL
    (Some (mk_camera "/dev/video0" (-1) camera_hal_default_config None 0 0 0 false)).

Lemma camera_no_leak_witness :
  let cs := [DoOpen; DoStart; Do (CCapture (Some (mk_frame 0 0 0 0 0)) 0)] in
  opens_closed (H0:=camera_ops (fun _ => true)) cs (mk_st webcam cam0) = true /\
  held (world (hal_device_last_unref (H:=camera_ops (fun _ => true)) (drv_run (H0:=camera_ops (fun _ => true)) cs (mk_st webcam cam0)).2).2) = held cam0.
Proof.
  split; [by vm_compute|].
  refine (camera_no_leak (fun _ => true) "cam" "/dev/video0" camera_hal_default_config cam0 webcam _ _ _); by vm_compute.
Defined.

Lemma camera_open_all_or_nothing_witness :
  (camera_open (fun _ => true) (mk_st webcam cam0)).1 = HAL_SUCCESS /\
  exists p', h_priv (dev (camera_open (fun _ => true) (mk_st webcam cam0)).2) = Some p' /\
  (((camera_open (fun _ => true) (mk_st webcam cam0)).1 <> HAL_SUCCESS /\
    held (world (camera_open (fun _ => true) (mk_st webcam cam0)).2) = held cam0 /\
    h_state (dev (camera_open (fun _ => true) (mk_st webcam cam0)).2) = HAL_STATE_CLOSED /\
    v4l2_fd p' < 0 /\ mmap_buffers p' = None) \/
   ((camera_open (fun _ => true) (mk_st webcam cam0)).1 = HAL_SUCCESS /\
    h_state (dev (camera_open (fun _ => true) (mk_st webcam cam0)).2) = HAL_STATE_OPEN /\ 0 <= v4l2_fd p' /\ camera_ready p' /\
    held (world (camera_open (fun _ => true) (mk_st webcam cam0)).2) = camera_owned p' ∪ held cam0 /\
    camera_owned p' ## held cam0)).
Proof.
  split; [by vm_compute|].
  refine (camera_open_all_or_nothing (fun _ => true) (mk_camera "/dev/video0" (-1) camera_hal_default_config None 0 0 0 false)
    (mk_st webcam cam0) _ _ _); done.
Defined.

Definition cam_active : st camera_priv_t cam_world := (camera_start (camera_open (fun _ => true) (mk_st webcam cam0)).2).2.
Definition cam_frame : camera_frame_t :=
  default (mk_frame 0 0 0 0 0) (camera_hal_capture_frame (Some (mk_frame 0 0 0 0 0)) 0 cam_active).1.2.
Definition cam_lent : st camera_priv_t cam_world := (camera_hal_capture_frame (Some (mk_frame 0 0 0 0 0)) 0 cam_active).2.

Lemma frame_is_lent_witness :
  (camera_hal_return_frame (Some cam_frame) cam_lent).1 = HAL_SUCCESS /\
  (f_buffer_index cam_frame ∉ cw_queue (world cam_lent) /\
   ((camera_hal_return_frame (Some cam_frame) cam_lent).1 = HAL_SUCCESS /\
      cw_queue (world (camera_hal_return_frame (Some cam_frame) cam_lent).2) = cw_queue (world cam_active) \/
    (camera_hal_return_frame (Some cam_frame) cam_lent).1 = HAL_ERROR_IO)).
Proof.
  split; [by vm_compute|].
  refine (frame_is_lent cw_queue _ _ _ cam_active
    (default (mk_camera "" 0 camera_hal_default_config None 0 0 0 false) (h_priv (dev cam_active)))
    (Some (mk_frame 0 0 0 0 0)) 0 cam_frame cam_lent _ _ _ _ _ _).
  - intros fd w. simpl. destruct (elements (cw_queue w)) as [|i l] eqn:He; simpl; [lia|]. intros _.
    split; [|done]. apply elem_of_elements. rewrite He. by left.
  - intros fd i w _. done.
  - intros fd t w. done.
  - by vm_compute.
  - refine (bool_decide_unpack (set_Forall (fun i => 0 <= i < _) _) _). by vm_compute.
  - by vm_compute.
  - by destruct (camera_hal_return_frame (Some cam_frame) cam_lent).
Defined.
