(* ===== verification/AudioHal.v ===== *)
(** * Audio (hal/layers/audio/audio_hal.c)

    The ALSA backend: negotiation of the hardware parameters, the streams, volume.  When
    the program is compiled without ALSA the source brings its own stubs. *)

From S2P Require Import Prelude HalRegistry HalDevice.

(** [dev/hal/layers/audio/audio_hal.h:29-32 audio_direction_t] *)
Definition AUDIO_DIRECTION_PLAYBACK : Z := 0.
Definition AUDIO_DIRECTION_CAPTURE : Z := 1.

(** [dev/hal/layers/audio/audio_hal.h:47-52 audio_format_t] *)
Definition AUDIO_FORMAT_S16_LE : Z := 0.
Definition AUDIO_FORMAT_S24_LE : Z := 1.
Definition AUDIO_FORMAT_S32_LE : Z := 2.
Definition AUDIO_FORMAT_FLOAT : Z := 3.

(** [dev/hal/layers/audio/audio_hal.h:115-123 audio_cmd_t] *)
Definition AUDIO_CMD_SET_VOLUME : Z := 0x1000.
Definition AUDIO_CMD_GET_VOLUME : Z := 0x1001.
Definition AUDIO_CMD_SET_MUTE : Z := 0x1002.
Definition AUDIO_CMD_GET_MUTE : Z := 0x1003.
Definition AUDIO_CMD_GET_CONFIG : Z := 0x1005.
Definition AUDIO_CMD_DRAIN : Z := 0x1006.
Definition AUDIO_CMD_RECOVER : Z := 0x1007.

(** [dev/hal/layers/audio/audio_hal.h:72-79 audio_config_t] *)
Record audio_config_t := mk_audio_cfg {
  direction : Z; sample_rate : Z; channels : Z; format : Z; period_size : Z; buffer_size : Z
}.

(** [dev/hal/layers/audio/audio_hal.c:175-182 audio_priv_t] [pcm_handle]: 0 for NULL. *)
Record audio_priv_t := mk_audio {
  alsa_device_id : string;
  pcm_handle : Z;
  config : audio_config_t;
  bytes_per_frame : Z;
  volume : Z;
  muted : bool
}.

Definition with_handle h p :=
  mk_audio (alsa_device_id p) h (config p) (bytes_per_frame p) (volume p) (muted p).
Definition with_rate r p := let c := config p in
  mk_audio (alsa_device_id p) (pcm_handle p)
    (mk_audio_cfg (direction c) r (channels c) (format c) (period_size c) (buffer_size c))
    (bytes_per_frame p) (volume p) (muted p).
Definition with_volume v p :=
  mk_audio (alsa_device_id p) (pcm_handle p) (config p) (bytes_per_frame p) v (muted p).
Definition with_muted m p :=
  mk_audio (alsa_device_id p) (pcm_handle p) (config p) (bytes_per_frame p) (volume p) m.

(** [dev/hal/layers/audio/audio_hal.c:201-209 AUDIO_CMD_SPECS] *)
Definition AUDIO_CMD_SPECS : list (Z * Z) :=
  [(AUDIO_CMD_SET_VOLUME, 4); (AUDIO_CMD_GET_VOLUME, 4); (AUDIO_CMD_SET_MUTE, 4);
   (AUDIO_CMD_GET_MUTE, 4); (AUDIO_CMD_GET_CONFIG, 24); (AUDIO_CMD_DRAIN, 0); (AUDIO_CMD_RECOVER, 0)].

(** [dev/hal/layers/audio/audio_hal.c:225-239 validate_control_arg] *)
Definition audio_validate_control_arg : Z -> Z -> Z := check_arg AUDIO_CMD_SPECS.

(** The ALSA formats the layer uses; their numbers differ between ALSA and the stubs. *)
Inductive snd_pcm_format_t := SND_PCM_FORMAT_S16_LE | SND_PCM_FORMAT_S24_LE | SND_PCM_FORMAT_S32_LE | SND_PCM_FORMAT_FLOAT_LE.

(** [dev/hal/layers/audio/audio_hal.c:250-263 alsa_format_from_hal] *)
Definition alsa_format_from_hal (f : Z) : snd_pcm_format_t :=
  if f =? AUDIO_FORMAT_S16_LE then SND_PCM_FORMAT_S16_LE
  else if f =? AUDIO_FORMAT_S24_LE then SND_PCM_FORMAT_S24_LE
  else if f =? AUDIO_FORMAT_S32_LE then SND_PCM_FORMAT_S32_LE
  else if f =? AUDIO_FORMAT_FLOAT then SND_PCM_FORMAT_FLOAT_LE
  else SND_PCM_FORMAT_S16_LE.

(** What ALSA documents of a sample in memory ([snd_pcm_format_physical_width], in bytes):
    24 bits lie in the low bytes of four; three packed bytes are another format, S24_3LE. *)
Definition alsa_sample_bytes (f : snd_pcm_format_t) : Z :=
  match f with SND_PCM_FORMAT_S16_LE => 2 | _ => 4 end.
Definition alsa_frame_bytes (f n : Z) : Z := alsa_sample_bytes (alsa_format_from_hal f) * n.

(** [dev/hal/layers/audio/audio_hal.c:723-732 audio_hal_default_config] *)
Definition audio_hal_default_config (dir : Z) : audio_config_t :=
  mk_audio_cfg dir 44100 2 AUDIO_FORMAT_S16_LE 1024 4096.

(** [dev/hal/layers/audio/audio_hal.c:744-764 audio_hal_bytes_per_frame] *)
Definition audio_hal_bytes_per_frame (f n : Z) : Z :=
  let bytes_per_sample :=
    if f =? AUDIO_FORMAT_S16_LE then 2
    else if f =? AUDIO_FORMAT_S24_LE then 3
    else if f =? AUDIO_FORMAT_S32_LE then 4
    else if f =? AUDIO_FORMAT_FLOAT then 4
    else 2 in
  u32 (bytes_per_sample * n).

(** [dev/hal/layers/audio/audio_hal.c:774-787 audio_hal_format_string] *)
Definition audio_hal_format_string (f : Z) : string :=
  if f =? AUDIO_FORMAT_S16_LE then "S16_LE"
  else if f =? AUDIO_FORMAT_S24_LE then "S24_LE"
  else if f =? AUDIO_FORMAT_S32_LE then "S32_LE"
  else if f =? AUDIO_FORMAT_FLOAT then "FLOAT"
  else "UNKNOWN".

(** ** The sound library *)

Class Alsa (W : Type) := {
  snd_pcm_open : string -> Z -> M W (Z * Z);                  (** the handle *)
  snd_pcm_close : Z -> M W Z;
  snd_pcm_drain : Z -> M W Z;
  snd_pcm_drop : Z -> M W Z;
  snd_pcm_prepare : Z -> M W Z;
  snd_pcm_hw_params_malloc : M W (Z * Z);                     (** the block *)
  snd_pcm_hw_params_free : Z -> M W unit;
  snd_pcm_hw_params_any : Z -> Z -> M W Z;
  snd_pcm_hw_params_set_access : Z -> Z -> M W Z;
  snd_pcm_hw_params_set_format : Z -> Z -> snd_pcm_format_t -> M W Z;
  snd_pcm_hw_params_set_channels : Z -> Z -> Z -> M W Z;
  snd_pcm_hw_params_set_rate_near : Z -> Z -> Z -> M W (Z * Z);
  snd_pcm_hw_params_set_period_size_near : Z -> Z -> Z -> M W (Z * Z);
  snd_pcm_hw_params_set_buffer_size_near : Z -> Z -> Z -> M W (Z * Z);
  snd_pcm_hw_params : Z -> Z -> M W Z;
  snd_pcm_readi : Z -> Z -> M W (Z * list Z);                 (** frames read, the bytes *)
  snd_pcm_writei : Z -> list Z -> Z -> M W Z
}.

(** A handle or a parameter block is new when it is given out and gone when it is given
    back; nothing else changes what the process holds. *)
Class AlsaLaws (W : Type) `{Ledger W} `{Alsa W} : Prop := {
  pcm_open_fresh n s w : 0 <= (snd_pcm_open n s w).1.1 ->
    (snd_pcm_open n s w).1.2 <> 0 /\ Pcm (snd_pcm_open n s w).1.2 ∉ held w /\
    held (snd_pcm_open n s w).2 = {[Pcm (snd_pcm_open n s w).1.2]} ∪ held w;
  pcm_open_failed n s w : (snd_pcm_open n s w).1.1 < 0 -> held (snd_pcm_open n s w).2 = held w;
  pcm_close_back h w : held (snd_pcm_close h w).2 = held w ∖ {[Pcm h]};
  params_fresh w : 0 <= (snd_pcm_hw_params_malloc w).1.1 ->
    Block (snd_pcm_hw_params_malloc w).1.2 ∉ held w /\
    held (snd_pcm_hw_params_malloc w).2 = {[Block (snd_pcm_hw_params_malloc w).1.2]} ∪ held w;
  params_failed w : (snd_pcm_hw_params_malloc w).1.1 < 0 -> held (snd_pcm_hw_params_malloc w).2 = held w;
  params_back b w : held (snd_pcm_hw_params_free b w).2 = held w ∖ {[Block b]};
  drain_quiet h : quiet (snd_pcm_drain h);
  drop_quiet h : quiet (snd_pcm_drop h);
  prepare_quiet h : quiet (snd_pcm_prepare h);
  any_quiet h b : quiet (snd_pcm_hw_params_any h b);
  access_hw_quiet h b : quiet (snd_pcm_hw_params_set_access h b);
  format_quiet h b f : quiet (snd_pcm_hw_params_set_format h b f);
  channels_quiet h b n : quiet (snd_pcm_hw_params_set_channels h b n);
  rate_quiet h b n : quiet (snd_pcm_hw_params_set_rate_near h b n);
  period_quiet h b n : quiet (snd_pcm_hw_params_set_period_size_near h b n);
  buffer_quiet h b n : quiet (snd_pcm_hw_params_set_buffer_size_near h b n);
  commit_quiet h b : quiet (snd_pcm_hw_params h b);
  readi_quiet h n : quiet (snd_pcm_readi h n);
  writei_quiet h d n : quiet (snd_pcm_writei h d n)
}.
#[export] Hint Resolve drain_quiet drop_quiet prepare_quiet any_quiet access_hw_quiet format_quiet
  channels_quiet rate_quiet period_quiet buffer_quiet commit_quiet readi_quiet writei_quiet : hal.

(** [dev/hal/layers/audio/audio_hal.c:56-155 the stubs without ALSA] *)
Definition alsa_stubs (W : Type) : Alsa W := {|
  snd_pcm_open n s := mret (-1, 0);
  snd_pcm_close h := mret 0;
  snd_pcm_drain h := mret 0;
  snd_pcm_drop h := mret 0;
  snd_pcm_prepare h := mret 0;
  snd_pcm_hw_params_malloc := mret (-1, 0);
  snd_pcm_hw_params_free b := mret tt;
  snd_pcm_hw_params_any h b := mret (-1);
  snd_pcm_hw_params_set_access h b := mret (-1);
  snd_pcm_hw_params_set_format h b f := mret (-1);
  snd_pcm_hw_params_set_channels h b n := mret (-1);
  snd_pcm_hw_params_set_rate_near h b n := mret (-1, n);
  snd_pcm_hw_params_set_period_size_near h b n := mret (-1, n);
  snd_pcm_hw_params_set_buffer_size_near h b n := mret (-1, n);
  snd_pcm_hw_params h b := mret (-1);
  snd_pcm_readi h n := mret (-1, []);
  snd_pcm_writei h d n := mret (-1)
|}.

Section audio.
Context {W : Type} `{Alsa W}.
Notation DM := (M (st audio_priv_t W)).

(** [dev/hal/layers/audio/audio_hal.c:282-296 secure_clear_capture_buffer] [mem]: the buffer
    can be allocated, in the state of the world at that call. *)
Definition secure_clear_capture_buffer (mem : W -> bool) (p : audio_priv_t) : M W unit :=
  ok ← ask mem;
  if negb ok then mret tt
  else
    let zero_buf := replicate (Z.to_nat (u64 (period_size (config p) * bytes_per_frame p))) 0 in
    let write := snd_pcm_writei (pcm_handle p) zero_buf (period_size (config p)) in
    _ ← write; _ ← write; _ ← write; _ ← write; mret tt.

(** [goto fail_io] when a call fails. *)
Definition or_fail {A} (hw : Z) (p : audio_priv_t) (rc : A -> Z) (m : M W A) (k : A -> M W (Z * audio_priv_t))
    : M W (Z * audio_priv_t) :=
  x ← m;
  if rc x <? 0 then _ ← snd_pcm_hw_params_free hw; mret (HAL_ERROR_IO, p) else k x.

(** [dev/hal/layers/audio/audio_hal.c:317-384 configure_alsa_hw_params] *)
Definition configure_alsa_hw_params (p : audio_priv_t) : M W (Z * audio_priv_t) :=
  let h := pcm_handle p in
  let c := config p in
  b ← snd_pcm_hw_params_malloc;
  if b.1 <? 0 then mret (HAL_ERROR_NO_MEMORY, p)
  else
    let hw := b.2 in
    or_fail hw p id (snd_pcm_hw_params_any h hw) (fun _ =>
    or_fail hw p id (snd_pcm_hw_params_set_access h hw) (fun _ =>
    or_fail hw p id (snd_pcm_hw_params_set_format h hw (alsa_format_from_hal (format c))) (fun _ =>
    or_fail hw p id (snd_pcm_hw_params_set_channels h hw (channels c)) (fun _ =>
    or_fail hw p fst (snd_pcm_hw_params_set_rate_near h hw (sample_rate c)) (fun r =>
    let p := if negb (r.2 =? sample_rate c) then with_rate r.2 p else p in
    or_fail hw p fst (snd_pcm_hw_params_set_period_size_near h hw (period_size c)) (fun _ =>
    or_fail hw p fst (snd_pcm_hw_params_set_buffer_size_near h hw (buffer_size c)) (fun _ =>
    or_fail hw p id (snd_pcm_hw_params h hw) (fun _ =>
    _ ← snd_pcm_hw_params_free hw;
    rc ← snd_pcm_prepare h;
    mret (if rc <? 0 then HAL_ERROR_IO else HAL_SUCCESS, p))))))))).

(** [dev/hal/layers/audio/audio_hal.c:406-421 audio_open, the stream] *)
Definition open_stream (p : audio_priv_t) : M W (Z * audio_priv_t) :=
  let stream := if direction (config p) =? AUDIO_DIRECTION_PLAYBACK then 0 else 1 in
  r ← snd_pcm_open (alsa_device_id p) stream;
  if r.1 <? 0 then mret (HAL_ERROR_NO_DEVICE, p)
  else
    c ← configure_alsa_hw_params (with_handle r.2 p);
    if negb (c.1 =? HAL_SUCCESS) then
      _ ← snd_pcm_close (pcm_handle c.2);
      mret (c.1, with_handle 0 c.2)
    else mret (HAL_SUCCESS, c.2).

(** [dev/hal/layers/audio/audio_hal.c:399-426 audio_open] *)
Definition audio_open : DM Z :=
  with_priv HAL_ERROR_INVALID (fun p =>
    r ← call (open_stream p);
    _ ← set_priv (Some r.2);
    if r.1 =? 0 then _ ← set_state HAL_STATE_OPEN; mret 0 else mret r.1).

(** [dev/hal/layers/audio/audio_hal.c:445-452 audio_close, the stream] *)
Definition close_stream (mem : W -> bool) (p : audio_priv_t) : M W audio_priv_t :=
  if pcm_handle p =? 0 then mret p
  else
    _ ← (if direction (config p) =? AUDIO_DIRECTION_CAPTURE
         then secure_clear_capture_buffer mem p else mret tt);
    _ ← snd_pcm_drain (pcm_handle p);
    _ ← snd_pcm_close (pcm_handle p);
    mret (with_handle 0 p).

(** [dev/hal/layers/audio/audio_hal.c:439-457 audio_close] *)
Definition audio_close (mem : W -> bool) : DM Z :=
  with_priv HAL_ERROR_INVALID (fun p =>
    p ← call (close_stream mem p);
    _ ← set_priv (Some p);
    _ ← set_state HAL_STATE_CLOSED;
    mret HAL_SUCCESS).

(** [dev/hal/layers/audio/audio_hal.c:469-478 audio_start] *)
Definition audio_start : DM Z :=
  with_priv HAL_ERROR_INVALID (fun _ =>
    x ← get_state;
    if negb (bool_decide (x = HAL_STATE_OPEN)) then mret HAL_ERROR_INVALID
    else _ ← set_state HAL_STATE_ACTIVE; mret HAL_SUCCESS).

(** [dev/hal/layers/audio/audio_hal.c:490-504 audio_stop] *)
Definition audio_stop : DM Z :=
  with_priv HAL_ERROR_INVALID (fun p =>
    _ ← (if negb (pcm_handle p =? 0)
         then _ ← call (snd_pcm_drop (pcm_handle p)); call (snd_pcm_prepare (pcm_handle p))
         else mret 0);
    _ ← set_state HAL_STATE_OPEN;
    mret HAL_SUCCESS).

(** The common part of [audio_read] and [audio_write]: the number of frames, the call,
    recovery from an overrun or underrun (-EPIPE is -32).  None: the division by
    [bytes_per_frame] stops the process. *)
Definition transfer {A} (p : audio_priv_t) (size : Z) (io : Z -> M W A) (rc : A -> Z) : DM (option (Z * option A)) :=
  if bytes_per_frame p =? 0 then mret None
  else
    x ← call (io (size / bytes_per_frame p));
    if rc x <? 0 then
      _ ← (if rc x =? -32 then call (snd_pcm_prepare (pcm_handle p)) else mret 0);
      mret (Some (HAL_ERROR_IO, None))
    else mret (Some (rc x * bytes_per_frame p, Some x)).

(** [dev/hal/layers/audio/audio_hal.c:519-542 audio_read] [buf]: the buffer is not NULL.  The
    result and the bytes. *)
Definition audio_read (buf : bool) (size : Z) : DM (option (Z * option (Z * list Z))) :=
  with_priv (Some (HAL_ERROR_INVALID, None)) (fun p =>
    x ← get_state;
    if negb buf then mret (Some (HAL_ERROR_INVALID, None))
    else if negb (bool_decide (x = HAL_STATE_ACTIVE)) then mret (Some (HAL_ERROR_INVALID, None))
    else if negb (direction (config p) =? AUDIO_DIRECTION_CAPTURE) then mret (Some (HAL_ERROR_NOT_SUPPORT, None))
    else transfer p size (snd_pcm_readi (pcm_handle p)) fst).

(** [dev/hal/layers/audio/audio_hal.c:557-580 audio_write] [data]: None for NULL. *)
Definition audio_write (data : option (list Z)) (size : Z) : DM (option (Z * option Z)) :=
  with_priv (Some (HAL_ERROR_INVALID, None)) (fun p =>
    x ← get_state;
    match data with
    | None => mret (Some (HAL_ERROR_INVALID, None))
    | Some d =>
        if negb (bool_decide (x = HAL_STATE_ACTIVE)) then mret (Some (HAL_ERROR_INVALID, None))
        else if negb (direction (config p) =? AUDIO_DIRECTION_PLAYBACK) then mret (Some (HAL_ERROR_NOT_SUPPORT, None))
        else transfer p size (snd_pcm_writei (pcm_handle p) d) id
    end).

(** What a control argument points to. *)
Record audio_cell := mk_acell { ac_int : Z; ac_config : audio_config_t }.

(** [dev/hal/layers/audio/audio_hal.c:600-649 audio_control] *)
Definition audio_control (cmd : Z) (a : arg audio_cell) : DM (Z * arg audio_cell) :=
  with_priv (HAL_ERROR_INVALID, a) (fun p =>
    let v := a_cell a in
    let out v := (HAL_SUCCESS, mk_arg (a_addr a) v) in
    if negb (audio_validate_control_arg cmd (a_addr a) =? 0) then mret (HAL_ERROR_INVALID, a)
    else if cmd =? AUDIO_CMD_SET_VOLUME then
      _ ← set_priv (Some (with_volume (if 100 <? ac_int v then 100 else ac_int v) p));
      mret (HAL_SUCCESS, a)
    else if cmd =? AUDIO_CMD_GET_VOLUME then mret (out (mk_acell (volume p) (ac_config v)))
    else if cmd =? AUDIO_CMD_SET_MUTE then
      _ ← set_priv (Some (with_muted (negb (ac_int v =? 0)) p));
      mret (HAL_SUCCESS, a)
    else if cmd =? AUDIO_CMD_GET_MUTE then mret (out (mk_acell (Z.b2z (muted p)) (ac_config v)))
    else if cmd =? AUDIO_CMD_GET_CONFIG then mret (out (mk_acell (ac_int v) (config p)))
    else if cmd =? AUDIO_CMD_DRAIN then
      if pcm_handle p =? 0 then mret (HAL_ERROR_INVALID, a)
      else _ ← call (snd_pcm_drain (pcm_handle p)); mret (HAL_SUCCESS, a)
    else if cmd =? AUDIO_CMD_RECOVER then
      if pcm_handle p =? 0 then mret (HAL_ERROR_INVALID, a)
      else _ ← call (snd_pcm_prepare (pcm_handle p)); mret (HAL_SUCCESS, a)
    else mret (HAL_ERROR_NOT_SUPPORT, a)).

(** [dev/hal/layers/audio/audio_hal.h:92-98 audio_info_t] *)
Record audio_info_t := mk_ainfo {
  i_device_name : string; i_config : audio_config_t; i_bytes_per_frame : Z; current_volume : Z; is_muted : bool
}.

(** [dev/hal/layers/audio/audio_hal.c:658-673 audio_get_info] [out]: the pointer is not NULL. *)
Definition audio_get_info (out : bool) : DM (Z * option audio_info_t) :=
  with_priv (HAL_ERROR_INVALID, None) (fun p =>
    if negb out then mret (HAL_ERROR_INVALID, None)
    else mret (HAL_SUCCESS, Some (mk_ainfo (strncpy_z 63 (alsa_device_id p)) (config p)
                                    (bytes_per_frame p) (volume p) (muted p)))).

(** [dev/hal/layers/audio/audio_hal.c:688-694 audio_priv_cleanup] *)
Definition audio_priv_cleanup : DM unit := with_priv tt (fun _ => set_priv None).
End audio.

(** [dev/hal/layers/audio/audio_hal.c:805-846 audio_hal_create] NULL is None; [mem], [lock],
    [mem']: the allocations and the lock succeed. *)
Definition audio_hal_create (nm id : option string) (cfg : option audio_config_t) (mem lock mem' : bool)
    : option (hw audio_priv_t) :=
  match nm, id, cfg with
  | Some nm, Some id, Some cfg =>
      if negb mem || negb lock || negb mem' then None
      else Some (mk_hw (strncpy_z 63 nm) 1 HAL_STATE_CLOSED (-1)
                   (Z.lor (Z.lor HAL_CAP_READ HAL_CAP_WRITE) HAL_CAP_CONTROL)
                   (Some (mk_audio (strncpy_z 63 id) 0 cfg
                            (audio_hal_bytes_per_frame (format cfg) (channels cfg)) 100 false)))
  | _, _, _ => None
  end.

(** ** The driver *)

Inductive audio_req :=
| ARead (buf : bool) (size : Z)
| AWrite (data : option (list Z)) (size : Z)
| AControl (cmd : Z) (a : arg audio_cell)
| AInfo (out : bool).

Definition audio_owned (p : audio_priv_t) : gset resource :=
  if pcm_handle p =? 0 then ∅ else {[Pcm (pcm_handle p)]}.

(** [dev/hal/layers/audio/audio_hal.c:698-708 audio_ops] [mem]: the zero buffer of a close
    can be allocated. *)
Definition audio_ops {W} `{Alsa W} (mem : W -> bool) : HalDriver audio_priv_t audio_req W := {|
  drv_open := audio_open; drv_close := audio_close mem;
  drv_start := audio_start; drv_stop := audio_stop;
  drv_request r := match r with
                   | ARead b n => audio_read b n ≫= fun _ => mret tt
                   | AWrite d n => audio_write d n ≫= fun _ => mret tt
                   | AControl c a => audio_control c a ≫= fun _ => mret tt
                   | AInfo o => audio_get_info o ≫= fun _ => mret tt
                   end;
  drv_cleanup := audio_priv_cleanup
|}.

Section result.
Context {W : Type} `{Alsa W}.

(** The negotiation changes the sample rate at most. *)
Lemma or_fail_result {A} (φ : audio_priv_t -> Prop) hw p rc (m : M W A) k :
  φ p -> (forall x w, φ (k x w).1.2) -> forall w, φ (or_fail hw p rc m k w).1.2.
Proof.
  intros Hp Hk w. unfold or_fail, mbind, M_bind, mret, M_ret. destruct (m w) as [x w1].
  destruct (rc x <? 0); [|apply Hk]. by destruct (snd_pcm_hw_params_free hw w1).
Qed.

Lemma configure_rate p w : exists r, (configure_alsa_hw_params p w).1.2 = with_rate r p.
Proof.
  assert (Hsame : with_rate (sample_rate (config p)) p = p) by (by destruct p as [? ? []]).
  unfold configure_alsa_hw_params, mbind, M_bind, mret, M_ret.
  destruct (snd_pcm_hw_params_malloc w) as [b w1].
  destruct (b.1 <? 0); [exists (sample_rate (config p)); by rewrite Hsame|].
  set (φ := fun q => exists r, q = with_rate r p).
  assert (Hp : φ p) by (by exists (sample_rate (config p))).
  match goal with |- context [or_fail ?h ?q ?rc ?m ?k ?w] =>
    enough (Hφ : φ (or_fail h q rc m k w).1.2) by exact Hφ end.
  do 4 (apply or_fail_result; [done|]; intros ? ?).
  apply or_fail_result; [done|]; intros r ?.
  assert (Hq : φ (if negb (r.2 =? sample_rate (config p)) then with_rate r.2 p else p)) by (case_match; [by exists r.2|done]).
  do 3 (apply or_fail_result; [done|]; intros ? ?).
  destruct (snd_pcm_hw_params_free b.2 _) as [[] w9]. by destruct (snd_pcm_prepare _ w9).
Qed.

(** A negotiation that succeeds or fails, and an open that fails, leave the handle closed
    or open as they report. *)
Lemma open_stream_fields p w : pcm_handle p = 0 -> let r := open_stream p w in
  exists h rate, r.1.2 = with_handle h (with_rate rate p) /\ (r.1.1 <> 0 -> h = 0).
Proof.
  intros Hp. assert (Hsame : with_handle 0 (with_rate (sample_rate (config p)) p) = p).
  { destruct p as [? ? []]; simpl in *; by subst. }
  unfold open_stream, mbind, M_bind, mret, M_ret.
  destruct (snd_pcm_open _ _ w) as [r w1]. destruct (r.1 <? 0).
  { exists 0, (sample_rate (config p)). by rewrite Hsame. }
  destruct (configure_rate (with_handle r.2 p) w1) as [rate Hr].
  destruct (configure_alsa_hw_params (with_handle r.2 p) w1) as [[rc q] w2]. cbn [fst snd] in *. subst q.
  destruct (Z.eqb_spec rc HAL_SUCCESS) as [->|Hrc]; cbn [negb].
  - exists r.2, rate. done.
  - destruct (snd_pcm_close _ w2). exists 0, rate. done.
Qed.

(** ** Types

    What the private data of an audio device always satisfy. *)
Definition audio_wf (p : audio_priv_t) : Prop :=
  bytes_per_frame p = audio_hal_bytes_per_frame (format (config p)) (channels (config p)) /\
  volume p <= 100.
Definition wf (s : st audio_priv_t W) : Prop :=
  match h_priv (dev s) with Some p => audio_wf p | None => True end.

Lemma wf_call {A} (m : M W A) : keeps wf (call m).
Proof. intros s Hs. unfold call. by destruct (m (world s)). Qed.
Lemma wf_set p : audio_wf p -> keeps wf (set_priv (Some p)).
Proof. intros Hp s Hs. exact Hp. Qed.
Lemma wf_none : keeps wf (set_priv None).
Proof. by intros s Hs. Qed.
Lemma wf_state x : keeps wf (set_state x).
Proof. by intros s Hs. Qed.
Lemma wf_with {A} (e : A) (f : audio_priv_t -> M (st audio_priv_t W) A) :
  (forall p, audio_wf p -> keeps wf (f p)) -> keeps wf (with_priv e f).
Proof.
  intros Hf s Hs. unfold with_priv. unfold wf in Hs. destruct (h_priv (dev s)) as [p|] eqn:Hp; [|unfold wf; simpl; by rewrite Hp].
  apply Hf; [done|]. unfold wf. by rewrite Hp.
Qed.
Lemma wf_get {A} (f : hal_device_state_t -> M (st audio_priv_t W) A) :
  (forall x, keeps wf (f x)) -> keeps wf (get_state ≫= f).
Proof. intros Hf. apply keeps_bind; [by intros s Hs|done]. Qed.
Hint Resolve wf_call wf_set wf_none wf_state keeps_ret : wf.
Hint Extern 3 (keeps wf (mbind _ get_state)) => apply wf_get; intro : wf.
Hint Extern 4 (keeps wf (mbind _ _)) => apply keeps_bind; [|intro] : wf.
Hint Extern 3 (keeps wf (if ?b then _ else _)) => destruct b : wf.

Lemma wf_acquire p r : audio_wf p -> (exists h rate, r = with_handle h (with_rate rate p)) -> audio_wf r.
Proof. intros [Hb Hv] (h & rate & ->). split; [exact Hb|exact Hv]. Qed.

Lemma open_stream_wf p w : audio_wf p -> audio_wf (open_stream p w).1.2.
Proof.
  intros Hp. apply (wf_acquire p); [done|]. destruct (decide (pcm_handle p = 0)) as [H0|H0].
  - destruct (open_stream_fields p w H0) as (h & rate & Hr & _). eauto.
  - unfold open_stream, mbind, M_bind, mret, M_ret.
    destruct (snd_pcm_open _ _ w) as [r w1]. destruct (r.1 <? 0).
    { exists (pcm_handle p), (sample_rate (config p)). by destruct p as [? ? []]. }
    destruct (configure_rate (with_handle r.2 p) w1) as [rate Hr].
    destruct (configure_alsa_hw_params (with_handle r.2 p) w1) as [[rc q] w2]. cbn [fst snd] in *. subst q.
    case_match; [destruct (snd_pcm_close _ w2)|]; eexists _, rate; done.
Qed.

Lemma transfer_wf {A} p size io (rc : A -> Z) : keeps wf (transfer p size io rc).
Proof. unfold transfer. auto 10 with wf. Qed.
Hint Resolve transfer_wf : wf.

Lemma control_wf c a : keeps wf (audio_control c a).
Proof.
  unfold audio_control. apply wf_with. intros p Hp. cbv zeta. destruct Hp as [Hb Hv].
  assert (Hset : audio_wf (with_volume (if 100 <? ac_int (a_cell a) then 100 else ac_int (a_cell a)) p)).
  { split; [exact Hb|]. simpl. destruct (Z.ltb_spec 100 (ac_int (a_cell a))); lia. }
  assert (Hmute : audio_wf (with_muted (negb (ac_int (a_cell a) =? 0)) p)) by by split.
  auto 20 with wf.
Qed.

(** C40: Typing: whatever is done with an audio device, in any state and with any arguments
    — also after errors — its frame size is the one its format and channels give and its
    volume is at most 100. *)
Theorem audio_well_formed mem nm id cfg d w cs :
  audio_hal_create (Some nm) (Some id) (Some cfg) true true true = Some d ->
  wf (drv_run (H0:=audio_ops mem) cs (mk_st d w)).2.
Proof.
  intros [= <-]. assert (Hwf : forall s, wf s -> wf (drv_run (H0:=audio_ops mem) cs s).2).
  2: { apply Hwf. split; simpl; [done|lia]. }
  induction cs as [|c cs IH]; [done|]. apply (keeps_bind wf); [|intros _; exact IH].
  destruct c as [| | | |r]; simpl.
  - apply keeps_bind; [|intros; apply keeps_ret]. apply wf_with. intros p Hp.
    intros s Hs. unfold mbind, M_bind, call. pose proof (open_stream_wf p (world s) Hp) as Ho.
    destruct (open_stream p (world s)) as [r w1]. simpl in *. by destruct (r.1 =? 0).
  - apply keeps_bind; [|intros; apply keeps_ret]. apply wf_with. intros p Hp.
    intros s Hs. unfold mbind, M_bind, call.
    assert (Hc : audio_wf (close_stream mem p (world s)).1).
    { unfold close_stream, mbind, M_bind, mret, M_ret. destruct (pcm_handle p =? 0); [done|].
      destruct ((if direction (config p) =? AUDIO_DIRECTION_CAPTURE then secure_clear_capture_buffer mem p else fun s => (tt, s)) (world s)) as [[] w1]. destruct (snd_pcm_drain _ w1) as [x w2].
      by destruct (snd_pcm_close _ w2). }
    by destruct (close_stream mem p (world s)).
  - apply keeps_bind; [|intros; apply keeps_ret]. apply wf_with. intros p Hp. auto 10 with wf.
  - apply keeps_bind; [|intros; apply keeps_ret]. apply wf_with. intros p Hp. auto 10 with wf.
  - destruct r as [b n|d n|c a|o]; simpl; (apply keeps_bind; [|intros; apply keeps_ret]).
    + apply wf_with. intros p Hp. auto 10 with wf.
    + apply wf_with. intros p Hp. apply wf_get. intros x. destruct d; auto 10 with wf.
    + apply control_wf.
    + apply wf_with. intros p Hp. auto 10 with wf.
Qed.
End result.

Section laws.
Context {W : Type} `{Ledger W} `{Alsa W} `{!AlsaLaws W} (mem : W -> bool).
#[local] Existing Instance audio_ops.
Notation bal := (balanced (W:=W) audio_owned).

(** Code that ends with the parameter block given back. *)
Definition gives_block {A} (hw : Z) (R : gset resource) (m : M W A) : Prop := forall w,
  held w = {[Block hw]} ∪ R -> Block hw ∉ R -> held (m w).2 = R.

Lemma or_fail_gives {A} hw R p (rc : A -> Z) m k :
  quiet m -> (forall x, gives_block hw R (k x)) -> gives_block hw R (or_fail hw p rc m k).
Proof.
  intros Hm Hk w Hh Hd. unfold or_fail, mbind, M_bind, mret, M_ret. specialize (Hm w).
  destruct (m w) as [x w1]. simpl in Hm. destruct (rc x <? 0).
  - pose proof (params_back hw w1) as Hb. destruct (snd_pcm_hw_params_free hw w1). simpl in *.
    rewrite Hb, Hm, Hh. set_solver.
  - apply Hk; [by rewrite Hm|done].
Qed.

Lemma configure_quiet p : quiet (configure_alsa_hw_params p).
Proof.
  intros w. unfold configure_alsa_hw_params. unfold mbind at 1, M_bind at 1.
  pose proof (params_fresh w) as Hf. pose proof (params_failed w) as Hn.
  destruct (snd_pcm_hw_params_malloc w) as [b w1]. cbn [fst snd] in *.
  destruct (Z.ltb_spec b.1 0) as [Hb|Hb]; [by apply Hn|]. destruct (Hf Hb) as [Hfresh Hw1].
  match goal with |- held (?m w1).2 = _ => enough (Hg : gives_block b.2 (held w) m) by by apply Hg end.
  do 8 (apply or_fail_gives; [auto with hal|]; intros ?).
  intros w2 Hh Hd. unfold mbind, M_bind, mret, M_ret.
  pose proof (params_back b.2 w2) as Hp. destruct (snd_pcm_hw_params_free b.2 w2) as [[] w3]. simpl in Hp.
  match goal with |- context [snd_pcm_prepare ?h w3] =>
    pose proof (prepare_quiet h w3) as Hq; destruct (snd_pcm_prepare h w3) end.
  simpl in *. rewrite Hq, Hp, Hh. set_solver.
Qed.

Lemma audio_owned_none p : pcm_handle p = 0 -> audio_owned p = ∅.
Proof. unfold audio_owned. by intros ->. Qed.
Lemma audio_owned_some p h : pcm_handle p = h -> h <> 0 -> audio_owned p = {[Pcm h]}.
Proof. intros <- Hh. unfold audio_owned. by destruct (Z.eqb_spec (pcm_handle p) 0). Qed.

Lemma open_stream_takes p w : pcm_handle p = 0 -> let r := open_stream p w in
  held r.2 = audio_owned r.1.2 ∪ held w /\ audio_owned r.1.2 ## held w /\ (r.1.1 <> 0 -> audio_owned r.1.2 = ∅).
Proof.
  intros Hp. unfold open_stream, mbind, M_bind, mret, M_ret.
  set (stream := if _ =? _ then 0 else 1).
  pose proof (pcm_open_fresh (alsa_device_id p) stream w) as Hf.
  pose proof (pcm_open_failed (alsa_device_id p) stream w) as Hn.
  destruct (snd_pcm_open (alsa_device_id p) stream w) as [r w1]. cbn [fst snd] in *.
  destruct (Z.ltb_spec r.1 0) as [Hr|Hr].
  { simpl. rewrite audio_owned_none, Hn by done. set_solver. }
  destruct (Hf Hr) as (Hr0 & Hfresh & Hw1).
  pose proof (configure_quiet (with_handle r.2 p) w1) as Hc.
  destruct (configure_rate (with_handle r.2 p) w1) as [rate Hrate].
  destruct (configure_alsa_hw_params (with_handle r.2 p) w1) as [[rc q] w2]. cbn [fst snd] in *. subst q.
  destruct (Z.eqb_spec rc HAL_SUCCESS) as [->|Hrc]; cbn [negb].
  - cbn [fst snd]. rewrite (audio_owned_some _ r.2), Hc, Hw1 by done. set_solver.
  - pose proof (pcm_close_back r.2 w2) as Hb. cbn [pcm_handle with_rate with_handle].
    destruct (snd_pcm_close r.2 w2) as [x w3]. cbn [fst snd] in *.
    rewrite audio_owned_none, Hb, Hc, Hw1 by done. set_solver.
Qed.

Lemma clear_quiet p : quiet (secure_clear_capture_buffer mem p).
Proof. unfold secure_clear_capture_buffer. auto 10 with hal. Qed.

Lemma close_stream_releases p : releases audio_owned p (close_stream mem p).
Proof.
  intros w. unfold close_stream. destruct (Z.eqb_spec (pcm_handle p) 0) as [H0z|H0z].
  { simpl. rewrite audio_owned_none by done. set_solver. }
  rewrite (audio_owned_some p (pcm_handle p)) by done.
  assert (Hq : quiet (if direction (config p) =? AUDIO_DIRECTION_CAPTURE
    then secure_clear_capture_buffer mem p else mret tt)) by (case_match; [apply clear_quiet|apply quiet_ret]).
  specialize (Hq w). unfold mbind, M_bind, mret, M_ret in *.
  destruct ((if direction (config p) =? AUDIO_DIRECTION_CAPTURE
    then secure_clear_capture_buffer mem p else fun s => (tt, s)) w) as [[] w1]. cbn [fst snd] in *.
  pose proof (drain_quiet (pcm_handle p) w1) as Hd. destruct (snd_pcm_drain (pcm_handle p) w1) as [x w2].
  pose proof (pcm_close_back (pcm_handle p) w2) as Hc. destruct (snd_pcm_close (pcm_handle p) w2) as [y w3].
  cbn [fst snd] in *. rewrite Hc, Hd, Hq. split; [by apply audio_owned_none|done].
Qed.

Lemma transfer_balanced {A} B p size (io : Z -> M W A) rc : (forall n, quiet (io n)) -> keeps (bal B) (transfer p size io rc).
Proof. intros Hio. unfold transfer. auto 10 with hal. Qed.

Lemma audio_read_balanced B b n : keeps (bal B) (audio_read b n).
Proof.
  apply keeps_with_priv. intros p. apply at_bal. apply keeps_get_state. intros x.
  do 3 (case_match; [apply keeps_ret|]). apply transfer_balanced. intros; apply readi_quiet.
Qed.

Lemma audio_control_balanced B c a : keeps (bal B) (audio_control c a).
Proof.
  unfold audio_control. apply keeps_with_priv. intros p. cbv zeta.
  triple_cases; try (apply at_bal; auto with hal; fail);
    apply at_set; try done; intros _; apply at_bal; auto with hal.
Qed.

Lemma audio_laws : HalDriverLaws (H0:=audio_ops mem) audio_owned.
Proof.
  split; intros B; simpl.
  - apply closed_with_priv. intros p Hp.
    assert (H0z : pcm_handle p = 0).
    { unfold audio_owned in Hp. destruct (Z.eqb_spec (pcm_handle p) 0); [done|set_solver]. }
    intros s Hs. pose proof (at_acquire_result audio_owned B (open_stream p) p (fun _ => h_fd (dev s)) HAL_STATE_OPEN) as Ha.
    destruct Ha with (s := s) as (q & Hq & Hh & Hd & Hc); try done.
    + intros w. by destruct (open_stream_takes p w H0z) as (Ht1 & Ht2 & _).
    + intros w. by destruct (open_stream_takes p w H0z) as (_ & _ & Ht3).
    + revert Hq Hh Hd Hc. unfold mbind, M_bind, call. destruct (open_stream p (world s)) as [r w1]. cbn.
      destruct (r.1 =? 0); cbn; intros; exists q; auto.
  - apply bal_with_priv. intros p.
    apply at_release with (f := fun _ => _ ← set_state HAL_STATE_CLOSED; mret HAL_SUCCESS);
      [apply close_stream_releases|]. intros p' Hp' s [(q & Hq & Hh & Hd & Hc) Hp].
    assert (q = p') as -> by congruence. split; [|done]. by exists p'.
  - apply keeps_with_priv. intros p. apply at_bal. apply keeps_get_state. intros x. auto 10 with hal.
  - unfold audio_stop. auto 10 with hal.
  - intros [b n|d n|c a|o]; (apply keeps_bind; [|intros; apply keeps_ret]).
    + apply audio_read_balanced.
    + apply keeps_with_priv. intros p. apply at_bal. apply keeps_get_state. intros x.
      destruct d; [|apply keeps_ret]. do 2 (case_match; [apply keeps_ret|]).
      apply transfer_balanced. intros; apply writei_quiet.
    + apply audio_control_balanced.
    + apply keeps_with_priv. intros p. apply at_bal. auto with hal.
  - apply closed_with_priv. intros p Hp. by apply at_gone.
Qed.
End laws.

(** ** What the driver keeps *)

(** Whatever a client does with an audio device, in any order and opening it only when
    closed, when the last reference goes the process holds exactly what it held before:
    no stream and no parameter block is lost, however ALSA answers. *)
Theorem audio_no_leak {W} `{Ledger W} `{Alsa W} `{!AlsaLaws W} mem nm id cfg (w : W) d cs :
  let drv := audio_ops mem in
  audio_hal_create (Some nm) (Some id) (Some cfg) true true true = Some d ->
  opens_closed (Req:=audio_req) cs (mk_st d w) = true ->
  held (world (hal_device_last_unref (drv_run cs (mk_st d w)).2).2) = held w.
Proof.
  intros drv [= <-] Ho. pose proof (audio_laws mem) as Hlaws.
  apply (driver_no_leak audio_owned); [|done]. split; [|done]. eexists. split; [done|].
  simpl. unfold audio_owned. simpl. set_solver.
Qed.

(** A read never reports more bytes than the buffer has, as long as ALSA reads no more
    frames than it was asked for; and the division is defined for every format with at
    least one and fewer than 2^30 channels. *)
Theorem audio_read_bounds {W} `{Alsa W} (s : st audio_priv_t W) p size :
  (forall h n w, 0 <= n -> (snd_pcm_readi h n w).1.1 <= n) ->
  h_priv (dev s) = Some p -> audio_wf p -> 0 < channels (config p) < 2 ^ 30 -> 0 <= size ->
  exists n out, (audio_read true size s).1 = Some (n, out) /\ n <= size.
Proof.
  intros Hr Hp [Hb _] Hc Hsz.
  assert (Hpos : 0 < bytes_per_frame p).
  { rewrite Hb. unfold audio_hal_bytes_per_frame. cbv zeta.
    repeat case_match; rewrite wrap_small; lia. }
  unfold audio_read, with_priv. rewrite Hp. unfold get_state, mbind, M_bind, mret, M_ret. cbn [negb].
  destruct (negb (bool_decide _)); [do 2 eexists; split; [done|unfold HAL_ERROR_INVALID; lia]|].
  destruct (negb (_ =? _)); [do 2 eexists; split; [done|unfold HAL_ERROR_NOT_SUPPORT; lia]|].
  unfold transfer, mbind, M_bind, mret, M_ret, call. replace (bytes_per_frame p =? 0) with false by lia.
  specialize (Hr (pcm_handle p) (size / bytes_per_frame p) (world s) (Z.div_pos _ _ Hsz Hpos)).
  destruct (snd_pcm_readi _ _ (world s)) as [x w1]. cbn [fst snd] in *.
  destruct (x.1 <? 0).
  - destruct (x.1 =? -32); [cbn [world]; destruct (snd_pcm_prepare (pcm_handle p) w1)|];
      (do 2 eexists; split; [done|unfold HAL_ERROR_IO; lia]).
  - do 2 eexists. split; [done|]. pose proof (Z.mul_div_le size (bytes_per_frame p) Hpos). nia.
Qed.

(** A stop opens a closed device; it can then be started, and a capture reads through the
    NULL handle. *)
Lemma stopped_closed_reads_null {W} `{Alsa W} (s : st audio_priv_t W) p size :
  h_priv (dev s) = Some p -> pcm_handle p = 0 -> direction (config p) = AUDIO_DIRECTION_CAPTURE ->
  bytes_per_frame p <> 0 -> h_state (dev s) = HAL_STATE_CLOSED ->
  let s' := (audio_start (audio_stop s).2).2 in
  h_state (dev s') = HAL_STATE_ACTIVE /\
  (0 <= (snd_pcm_readi 0 (size / bytes_per_frame p) (world s')).1.1 ->
   (audio_read true size s').1 =
     Some ((snd_pcm_readi 0 (size / bytes_per_frame p) (world s')).1.1 * bytes_per_frame p,
           Some (snd_pcm_readi 0 (size / bytes_per_frame p) (world s')).1)).
Proof.
  intros Hp Hh Hd Hb Hst. unfold audio_stop, audio_start, audio_read, with_priv.
  do 4 (rewrite ?Hp, ?Hh, ?Hd; simpl). split; [done|]. rewrite ?Hp, ?Hd. simpl.
  unfold transfer, mbind, M_bind, mret, M_ret, call. rewrite Hh.
  destruct (Z.eqb_spec (bytes_per_frame p) 0); [done|]. simpl.
  destruct (snd_pcm_readi 0 _ (world s)) as [x w1]. simpl. intros Hx.
  by destruct (Z.ltb_spec x.1 0); [lia|].
Qed.

(** The layer's frame is ALSA's for every format but 24 bits. *)
Lemma frame_of_alsa f n : 0 < n < 2 ^ 30 ->
  audio_hal_bytes_per_frame f n = alsa_frame_bytes f n <-> f <> AUDIO_FORMAT_S24_LE.
Proof.
  intros Hn. unfold audio_hal_bytes_per_frame, alsa_frame_bytes, alsa_format_from_hal,
    AUDIO_FORMAT_S16_LE, AUDIO_FORMAT_S24_LE, AUDIO_FORMAT_S32_LE, AUDIO_FORMAT_FLOAT. cbv zeta.
  repeat (match goal with |- context [f =? ?c] => destruct (Z.eqb_spec f c) as [->|] end);
    cbn [alsa_sample_bytes]; unfold u32; rewrite Z.mod_small by lia; lia.
Qed.

(** With 24 bits a read asks ALSA for as many frames as fit at three bytes a sample, and
    ALSA fills in four: from twelve bytes a channel on, the buffer is overrun. *)
Lemma s24_overruns n size : 0 < n < 2 ^ 30 -> 12 * n <= size ->
  size < size / audio_hal_bytes_per_frame AUDIO_FORMAT_S24_LE n * alsa_frame_bytes AUDIO_FORMAT_S24_LE n.
Proof.
  intros Hn Hs. change (alsa_frame_bytes AUDIO_FORMAT_S24_LE n) with (4 * n).
  assert (Hb : audio_hal_bytes_per_frame AUDIO_FORMAT_S24_LE n = 3 * n) by (unfold audio_hal_bytes_per_frame, u32; apply Z.mod_small; cbn [Z.eqb AUDIO_FORMAT_S24_LE AUDIO_FORMAT_S16_LE Pos.eqb]; lia).
  rewrite Hb. pose proof (Z.div_mod size (3 * n) ltac:(lia)). pose proof (Z.mod_pos_bound size (3 * n) ltac:(lia)).
  assert (4 <= size / (3 * n)) by (apply Z.div_le_lower_bound; lia). nia.
Qed.

(** Compiled without ALSA, no audio device ever opens: every open reports
    HAL_ERROR_NO_DEVICE and leaves device and world as they are. *)
Theorem stub_audio_never_opens {W} (s : st audio_priv_t W) p : h_priv (dev s) = Some p ->
  (audio_open (H:=alsa_stubs W) s).1 = HAL_ERROR_NO_DEVICE /\
  h_state (dev (audio_open (H:=alsa_stubs W) s).2) = h_state (dev s) /\
  h_priv (dev (audio_open (H:=alsa_stubs W) s).2) = Some p /\
  world (audio_open (H:=alsa_stubs W) s).2 = world s.
Proof. intros Hp. unfold audio_open, with_priv. rewrite Hp. simpl. done. Qed.

(** ** Witnesses *)

(** A sound card: handles and parameter blocks that are out, silence to read. *)
Record card := mk_card { streams : list Z; blocks : list Z }.
#[export] Instance card_ledger : Ledger card := fun w =>
  list_to_set (Pcm <$> streams w) ∪ list_to_set (Block <$> blocks w).

Definition fresh_id (l : list Z) : Z := 1 + foldr Z.max 0 l.
Definition drop_id (x : Z) (l : list Z) : list Z := List.filter (fun y => negb (y =? x)) l.

#[export] Instance card_alsa : Alsa card := {
  snd_pcm_open n s w := let h := fresh_id (streams w) in ((0, h), mk_card (h :: streams w) (blocks w));
  snd_pcm_close h w := (0, mk_card (drop_id h (streams w)) (blocks w));
  snd_pcm_drain h := mret 0; snd_pcm_drop h := mret 0; snd_pcm_prepare h := mret 0;
  snd_pcm_hw_params_malloc w := let b := fresh_id (blocks w) in ((0, b), mk_card (streams w) (b :: blocks w));
  snd_pcm_hw_params_free b w := (tt, mk_card (streams w) (drop_id b (blocks w)));
  snd_pcm_hw_params_any h b := mret 0; snd_pcm_hw_params_set_access h b := mret 0;
  snd_pcm_hw_params_set_format h b f := mret 0; snd_pcm_hw_params_set_channels h b n := mret 0;
  snd_pcm_hw_params_set_rate_near h b n := mret (0, 48000);
  snd_pcm_hw_params_set_period_size_near h b n := mret (0, n);
  snd_pcm_hw_params_set_buffer_size_near h b n := mret (0, n);
  snd_pcm_hw_params h b := mret 0;
  snd_pcm_readi h n := mret (n, []); snd_pcm_writei h d n := mret n
}.

Lemma fresh_above l x : x ∈ l -> x < fresh_id l.
Proof. unfold fresh_id. intros Hx. induction Hx; simpl; lia. Qed.
Lemma fresh_pos l : 0 < fresh_id l.
Proof. unfold fresh_id. induction l; simpl; lia. Qed.
Lemma elem_drop x y l : y ∈ drop_id x l <-> y ∈ l /\ y <> x.
Proof.
  unfold drop_id. rewrite !list_elem_of_In, filter_In. destruct (Z.eqb_spec y x); naive_solver.
Qed.
Lemma in_card w r : r ∈ held w <->
  match r with Pcm h => h ∈ streams w | Block b => b ∈ blocks w | _ => False end.
Proof.
  unfold held, card_ledger. rewrite elem_of_union, !elem_of_list_to_set, !list_elem_of_fmap.
  destruct r; naive_solver.
Qed.

#[export] Instance card_laws : AlsaLaws card.
Proof.
  split; simpl; intros; try done; try lia.
  - pose proof (fresh_pos (streams w)). split_and!; [lia| |].
    + rewrite in_card. intros Hi. apply fresh_above in Hi. lia.
    + unfold held, card_ledger. simpl. set_solver.
  - apply set_eq. intros r. rewrite elem_of_difference, !in_card, elem_of_singleton. simpl.
    destruct r; rewrite ?elem_drop; naive_solver.
  - split.
    + rewrite in_card. intros Hi. apply fresh_above in Hi. lia.
    + unfold held, card_ledger. simpl. set_solver.
  - apply set_eq. intros r. rewrite elem_of_difference, !in_card, elem_of_singleton. simpl.
    destruct r; rewrite ?elem_drop; naive_solver.
Qed.

Definition mic : hw audio_priv_t :=
  mk_hw "mic" 1 HAL_STATE_CLOSED (-1) 7
    (Some (mk_audio "default" 0 (audio_hal_default_config AUDIO_DIRECTION_CAPTURE) 4 100 false)).

Lemma audio_no_leak_witness :
  let cs := [DoOpen; DoStart; Do (ARead true 4096)] in
  opens_closed (H0:=audio_ops (fun _ => true)) cs (mk_st mic (mk_card [7] [])) = true /\
  held (world (hal_device_last_unref (H:=audio_ops (fun _ => true)) (drv_run (H0:=audio_ops (fun _ => true)) cs (mk_st mic (mk_card [7] []))).2).2)
    = held (mk_card [7] []).
Proof.
  split; [by vm_compute|].
  refine (audio_no_leak (fun _ => true) "mic" "default" (audio_hal_default_config AUDIO_DIRECTION_CAPTURE) (mk_card [7] []) mic _ _ _);
    by vm_compute.
Defined.

Lemma audio_well_formed_witness :
  audio_hal_create (Some "mic"%string) (Some "default"%string)
    (Some (audio_hal_default_config AUDIO_DIRECTION_CAPTURE)) true true true = Some mic /\
  wf (drv_run (H0:=audio_ops (fun _ => true)) [DoOpen; Do (AControl AUDIO_CMD_SET_VOLUME (mk_arg 16 (mk_acell 900 (audio_hal_default_config 1))))]
        (mk_st mic (mk_card [] []))).2.
Proof.
  split; [by vm_compute|].
  refine (audio_well_formed (fun _ => true) "mic" "default" (audio_hal_default_config AUDIO_DIRECTION_CAPTURE) mic (mk_card [] []) _ _).
  by vm_compute.
Defined.

Lemma audio_read_bounds_witness :
  let s := (drv_run (H0:=audio_ops (fun _ => true)) [DoOpen; DoStart] (mk_st mic (mk_card [] []))).2 in
  exists n out, (audio_read true 4099 s).1 = Some (n, out) /\ n <= 4099.
Proof.
  intros s.
  refine (audio_read_bounds s (mk_audio "default" 1 (mk_audio_cfg 1 48000 2 0 1024 4096) 4 100 false) 4099 _ _ _ _ _);
    [simpl; lia|by vm_compute|split; [done|simpl; lia]|simpl; lia|lia].
Defined.

Lemma stub_audio_never_opens_witness :
  (audio_open (H:=alsa_stubs card) (mk_st mic (mk_card [] []))).1 = HAL_ERROR_NO_DEVICE /\
  h_state (dev (audio_open (H:=alsa_stubs card) (mk_st mic (mk_card [] []))).2) = HAL_STATE_CLOSED /\
  h_priv (dev (audio_open (H:=alsa_stubs card) (mk_st mic (mk_card [] []))).2) = h_priv mic /\
  world (audio_open (H:=alsa_stubs card) (mk_st mic (mk_card [] []))).2 = mk_card [] [].
Proof. by refine (stub_audio_never_opens (mk_st mic (mk_card [] [])) _ _). Defined.
