(* ===== verification/IoLoop.v ===== *)
(** * The event loop of the services (core/io_uring_loop.c)

    A table of operations (read, poll, timer) over an io_uring: every request in the ring
    carries a pointer to a heap object that says which operation it is for and owns the
    request's buffer; a completion is dispatched to the operation's callback, which may
    have the request armed again.  liburing is a class over the state of the ring; what
    it is relied on for are the laws of [UringLaws].  The theorems: no completion ever
    finds a freed object, every object and buffer is freed exactly once, a timer stays
    armed, and the loop is left only when a callback clears the flag or the ring fails. *)

From S2P Require Import Prelude MemoryPool HalRegistry HalDevice.

(** [dev/core/io_uring_loop.h:55-62 io_op_type_t] *)
Inductive io_op_type_t := IO_OP_READ | IO_OP_WRITE | IO_OP_ACCEPT | IO_OP_TIMEOUT | IO_OP_CANCEL | IO_OP_POLL.
#[export] Instance io_op_type_eq : EqDecision io_op_type_t.
Proof. solve_decision. Defined.

(** [dev/core/io_uring_loop.h:93-100 io_op_desc_t] A callback comes with its user data. *)
Record io_op_desc_t (C : Type) := mk_op {
  fd : Z; op_type : io_op_type_t; buf_size : Z; callback : option C; timeout_ms : Z
}.
Arguments mk_op {C}. Arguments fd {C}. Arguments op_type {C}. Arguments buf_size {C}.
Arguments callback {C}. Arguments timeout_ms {C}.

(** [dev/core/io_uring_loop.h:107-112 io_loop_config_t] *)
Record io_loop_config_t := mk_io_config {
  queue_depth : Z; use_sqpoll : bool; cfg_buf_pool : option memory_pool; loop_name : string
}.

Definition EINTR : Z := 4.
Definition ENOMEM : Z := 12.
Definition EINVAL : Z := 22.
Definition ETIME : Z := 62.
Definition ENOBUFS : Z := 105.
Definition SVC_OK : Z := 0.
Definition SVC_ERR_GENERIC : Z := -1.
Definition SVC_ERR_INVALID : Z := -2.

Definition MAX_OPS : Z := 64.
Definition WAKEUP_OP_IDX : Z := -1.
Definition WRITE_OP_IDX : Z := -2.

(** [dev/core/io_uring_loop.c:54-66 io_pending_t] Pointers are addresses, 0 is NULL. *)
Record io_pending_t (C : Type) := mk_pending {
  op_idx : Z; buf : Z; pool_buf : bool; ts : Z * Z; write_cb : option C; write_fd : Z
}.
Arguments mk_pending {C}. Arguments op_idx {C}. Arguments buf {C}. Arguments pool_buf {C}.
Arguments ts {C}. Arguments write_cb {C}. Arguments write_fd {C}.

(** [dev/core/io_uring_loop.c:70-78 io_uring_loop] without the ring; the table up to
    [op_count]. *)
Record io_uring_loop (C : Type) := mk_loop {
  ops : list (io_op_desc_t C); wakeup_fd : Z; buf_pool : option memory_pool; l_name : string
}.
Arguments mk_loop {C}. Arguments ops {C}. Arguments wakeup_fd {C}. Arguments buf_pool {C}. Arguments l_name {C}.

Definition op_count {C} (l : io_uring_loop C) : Z := Z.of_nat (length (ops l)).
Definition with_ops {C} o (l : io_uring_loop C) : io_uring_loop C := mk_loop o (wakeup_fd l) (buf_pool l) (l_name l).
Definition with_pool {C} p (l : io_uring_loop C) : io_uring_loop C := mk_loop (ops l) (wakeup_fd l) (Some p) (l_name l).

(** ** The ring *)

Inductive request :=
| ReqRead (fd buf len : Z)
| ReqPoll (fd : Z)
| ReqTimeout (sec nsec : Z)
| ReqWrite (fd : Z) (bytes : list Z).
Record sqe := mk_sqe { q_request : request; q_data : Z }.
(** [c_bytes]: what the kernel put into the buffer of a read. *)
Record cqe := mk_cqe { c_data : Z; c_res : Z; c_bytes : list Z }.

(** liburing and eventfd; a failing call answers minus its errno.  [u_prep] fills the
    entry the last [u_get_sqe] handed out. *)
Class Uring (W : Type) := {
  u_init : Z -> bool -> M W Z;
  u_exit : M W unit;
  u_get_sqe : M W bool;
  u_prep : sqe -> M W unit;
  u_submit : M W Z;
  u_wait : M W (Z * option cqe);
  u_peek : M W (Z * option cqe);
  u_seen : M W unit;
  eventfd : M W Z;
  eventfd_write : Z -> M W bool;     (** all eight bytes were written *)
  close_fd : Z -> M W unit
}.

(** The state of an application with its loop: the loop, the heap (the pending objects,
    the buffers with their contents), the next address, which of the coming [malloc]s
    succeed (all when exhausted), whether something was freed or used that was not
    allocated, the application's own state, the ring. *)
Record ls (C A W : Type) := mk_ls {
  loop : io_uring_loop C; heap : gmap Z (io_pending_t C); bufs : gmap Z (list Z); next : Z;
  mallocs : list bool; bad : bool; app : A; ring : W
}.
Arguments mk_ls {C A W}. Arguments loop {C A W}. Arguments heap {C A W}. Arguments bufs {C A W}.
Arguments next {C A W}. Arguments mallocs {C A W}. Arguments bad {C A W}. Arguments app {C A W}.
Arguments ring {C A W}.

Section loop.
Context {C A W : Type} `{Uring W}.
(** A callback: descriptor, result, the buffer if it is not NULL, the length.  The
    callbacks of the services do not call the loop. *)
Context (run_cb : C -> Z -> Z -> option (list Z) -> Z -> M A Z).
(** The loop's flag, a variable of the application; and what signal handlers that ran
    during a wait have done to the application. *)
Context (running : A -> bool) (interrupt : W -> A -> A).
Notation LM := (M (ls C A W)).

Definition on_ring {X} (m : M W X) : LM X := fun s =>
  let '(x, w) := m (ring s) in
  (x, mk_ls (loop s) (heap s) (bufs s) (next s) (mallocs s) (bad s) (app s) w).
Definition on_app {X} (m : M A X) : LM X := fun s =>
  let '(x, a) := m (app s) in
  (x, mk_ls (loop s) (heap s) (bufs s) (next s) (mallocs s) (bad s) a (ring s)).
Definition get {X} (f : ls C A W -> X) : LM X := fun s => (f s, s).
Definition set_loop (l : io_uring_loop C) : LM unit := fun s =>
  (tt, mk_ls l (heap s) (bufs s) (next s) (mallocs s) (bad s) (app s) (ring s)).
Definition set_heap (h : gmap Z (io_pending_t C)) : LM unit := fun s =>
  (tt, mk_ls (loop s) h (bufs s) (next s) (mallocs s) (bad s) (app s) (ring s)).
Definition set_bufs (b : gmap Z (list Z)) : LM unit := fun s =>
  (tt, mk_ls (loop s) (heap s) b (next s) (mallocs s) (bad s) (app s) (ring s)).
Definition go_bad : LM unit := fun s =>
  (tt, mk_ls (loop s) (heap s) (bufs s) (next s) (mallocs s) true (app s) (ring s)).

(** *** The heap *)

(** A fresh address, or 0 when memory is exhausted. *)
Definition fresh_block : LM Z := fun s =>
  let ok := match mallocs s with b :: _ => b | [] => true end in
  if ok then (next s, mk_ls (loop s) (heap s) (bufs s) (next s + 1) (tail (mallocs s)) (bad s) (app s) (ring s))
  else (0, mk_ls (loop s) (heap s) (bufs s) (next s) (tail (mallocs s)) (bad s) (app s) (ring s)).

Definition malloc (contents : list Z) : LM Z :=
  b ← fresh_block;
  if b =? 0 then mret 0 else m ← get bufs; _ ← set_bufs (<[b := contents]> m); mret b.
Definition free (b : Z) : LM unit :=
  m ← get bufs; match m !! b with Some _ => set_bufs (delete b m) | None => go_bad end.

Definition put_pending (p : Z) (d : io_pending_t C) : LM unit := h ← get heap; set_heap (<[p := d]> h).
Definition malloc_pending (d : io_pending_t C) : LM Z :=
  p ← fresh_block; if p =? 0 then mret 0 else _ ← put_pending p d; mret p.
Definition free_pending (p : Z) : LM unit :=
  h ← get heap; match h !! p with Some _ => set_heap (delete p h) | None => go_bad end.

(** [dev/core/io_uring_loop.c:91-99 alloc_buf] The buffer, and whether it is a block of the
    pool. *)
Definition alloc_buf (size : Z) : LM (Z * bool) :=
  l ← get loop;
  match buf_pool l with
  | Some p =>
      if 0 <? size then
        match memory_pool_alloc p with
        | AllocOk b p' => _ ← set_loop (with_pool p' l); mret (b, true)
        | AllocNull p' => _ ← set_loop (with_pool p' l); b ← malloc []; mret (b, false)
        | AllocUB => _ ← go_bad; mret (0, false)
        end
      else b ← malloc []; mret (b, false)
  | None => b ← malloc []; mret (b, false)
  end.

(** [dev/core/io_uring_loop.c:101-108 free_buf] *)
Definition free_buf (b : Z) (pool : bool) : LM unit :=
  if b =? 0 then mret tt
  else
    l ← get loop;
    match pool, buf_pool l with
    | true, Some p => set_loop (with_pool (memory_pool_free p b) l)
    | _, _ => free b
    end.

(** *** Requests *)

(** [dev/core/io_uring_loop.c:113-134 submit_wakeup_read] *)
Definition submit_wakeup_read : LM Z :=
  sqe ← on_ring u_get_sqe;
  if negb sqe then mret (- ENOBUFS)
  else
    p ← malloc_pending (mk_pending WAKEUP_OP_IDX 0 false (0, 0) None 0);
    if p =? 0 then mret (- ENOMEM)
    else
      b ← malloc [];
      _ ← put_pending p (mk_pending WAKEUP_OP_IDX b false (0, 0) None 0);
      if b =? 0 then _ ← free_pending p; mret (- ENOMEM)
      else
        l ← get loop;
        _ ← on_ring (u_prep (mk_sqe (ReqRead (wakeup_fd l) b 8) p));
        mret 0.

(** [dev/core/io_uring_loop.c:137-160 submit_read_op] *)
Definition submit_read_op (i : nat) (d : io_op_desc_t C) : LM Z :=
  if (fd d <? 0) || (buf_size d =? 0) then mret (- EINVAL)
  else
    sqe ← on_ring u_get_sqe;
    if negb sqe then mret (- ENOBUFS)
    else
      p ← malloc_pending (mk_pending (Z.of_nat i) 0 false (0, 0) None 0);
      if p =? 0 then mret (- ENOMEM)
      else
        b ← alloc_buf (buf_size d);
        _ ← put_pending p (mk_pending (Z.of_nat i) b.1 b.2 (0, 0) None 0);
        if b.1 =? 0 then _ ← free_pending p; mret (- ENOMEM)
        else
          _ ← on_ring (u_prep (mk_sqe (ReqRead (fd d) b.1 (buf_size d mod 2 ^ 32)) p));
          mret 0.

(** A request without a buffer. *)
Definition submit_bare (i : nat) (t : Z * Z) (r : request) : LM Z :=
  sqe ← on_ring u_get_sqe;
  if negb sqe then mret (- ENOBUFS)
  else
    p ← malloc_pending (mk_pending (Z.of_nat i) 0 false t None 0);
    if p =? 0 then mret (- ENOMEM) else _ ← on_ring (u_prep (mk_sqe r p)); mret 0.

(** [dev/core/io_uring_loop.c:163-186 submit_poll_op] *)
Definition submit_poll_op (i : nat) (d : io_op_desc_t C) : LM Z :=
  if fd d <? 0 then mret (- EINVAL) else submit_bare i (0, 0) (ReqPoll (fd d)).

(** [dev/core/io_uring_loop.c:189-214 submit_timeout_op] *)
Definition submit_timeout_op (i : nat) (d : io_op_desc_t C) : LM Z :=
  let sec := timeout_ms d / 1000 in
  let nsec := timeout_ms d mod 1000 * 1000000 in
  submit_bare i (sec, nsec) (ReqTimeout sec nsec).

(** The request is armed again when [again] and the loop is still running. *)
Definition rearm (again : bool) (submit : LM Z) : LM unit :=
  a ← get app;
  if running a && again then _ ← submit; _ ← on_ring u_submit; mret tt else mret tt.

Definition run_callback (cb : option C) (f res : Z) (bytes : option (list Z)) (len : Z) : LM Z :=
  match cb with Some c => on_app (run_cb c f res bytes len) | None => mret 0 end.

(** *** Completions *)

(** [dev/core/io_uring_loop.c:262-277 process_cqe, a timer] *)
Definition timeout_done (p : Z) (i : nat) (d : io_op_desc_t C) (res : Z) : LM unit :=
  rc ← (if (res =? - ETIME) || (res =? 0) then run_callback (callback d) (fd d) res None 0 else mret 0);
  _ ← free_pending p;
  rearm ((rc =? 0) && (-1 <=? fd d)) (submit_timeout_op i d).

(** [dev/core/io_uring_loop.c:279-305 process_cqe, a read] *)
Definition read_done (p : Z) (pd : io_pending_t C) (i : nat) (d : io_op_desc_t C) (res : Z) (bytes : list Z)
    : LM unit :=
  _ ← free_pending p;
  rc ← (if res <=? 0 then run_callback (callback d) (fd d) res None 0
        else run_callback (callback d) (fd d) res (Some bytes) res);
  _ ← free_buf (buf pd) (pool_buf pd);
  rearm ((0 <? res) && (rc =? 0) && (0 <=? fd d)) (submit_read_op i d).

(** [dev/core/io_uring_loop.c:307-322 process_cqe, a poll] *)
Definition poll_done (p : Z) (i : nat) (d : io_op_desc_t C) (res : Z) : LM unit :=
  _ ← free_pending p;
  rc ← run_callback (callback d) (fd d) res None 0;
  rearm ((0 <? res) && (rc =? 0) && (0 <=? fd d)) (submit_poll_op i d).

(** [dev/core/io_uring_loop.c:242-250 process_cqe, a write] *)
Definition write_done (p : Z) (pd : io_pending_t C) (res : Z) : LM unit :=
  m ← get bufs;
  _ ← run_callback (write_cb pd) (write_fd pd) res (Some (default [] (m !! buf pd))) (Z.max 0 res);
  _ ← free_buf (buf pd) (pool_buf pd);
  free_pending p.

(** [dev/core/io_uring_loop.c:231-328 process_cqe, with the pending object at hand] *)
Definition finish (p : Z) (pd : io_pending_t C) (c : cqe) : LM unit :=
  if op_idx pd =? WAKEUP_OP_IDX then
    _ ← free (buf pd);
    _ ← free_pending p;
    rearm true submit_wakeup_read
  else if op_idx pd =? WRITE_OP_IDX then write_done p pd (c_res c)
  else
    l ← get loop;
    let i := Z.to_nat (op_idx pd) in
    let drop := _ ← free_buf (buf pd) (pool_buf pd); free_pending p in
    if (op_idx pd <? 0) || (op_count l <=? op_idx pd) then drop
    else
      match ops l !! i with
      | None => drop
      | Some d =>
          match op_type d with
          | IO_OP_TIMEOUT => timeout_done p i d (c_res c)
          | IO_OP_READ => read_done p pd i d (c_res c) (c_bytes c)
          | IO_OP_POLL => poll_done p i d (c_res c)
          | _ => drop
          end
      end.

(** [dev/core/io_uring_loop.c:218-329 process_cqe] *)
Definition process_cqe (c : cqe) : LM unit :=
  let p := c_data c in
  _ ← on_ring u_seen;
  if p =? 0 then mret tt
  else
    h ← get heap;
    match h !! p with None => go_bad | Some pd => finish p pd c end.

(** *** The interface *)

(** [dev/core/io_uring_loop.c:84-87 is_power_of_two] *)
Definition is_power_of_two (n : Z) : bool := (0 <? n) && (Z.land n (n - 1) =? 0).

(** [dev/core/io_uring_loop.c:335-380 io_loop_create] [calloc]: memory is available. *)
Definition io_loop_create (calloc : bool) (cfg : option io_loop_config_t) : M W (option (io_uring_loop C)) :=
  match cfg with
  | None => mret None
  | Some c =>
      let depth := if queue_depth c =? 0 then 64 else queue_depth c in
      if negb (is_power_of_two depth) || (depth <? 8) then mret None
      else if negb calloc then mret None
      else
        rc ← u_init depth (use_sqpoll c);
        if rc <? 0 then mret None
        else
          efd ← eventfd;
          if efd <? 0 then _ ← u_exit; mret None
          else mret (Some (mk_loop [] efd (cfg_buf_pool c) (strncpy_z 63 (loop_name c))))
  end.

(** [dev/core/io_uring_loop.c:387-399 io_loop_destroy, the completions that are there] The
    number of rounds is bounded by [fuel]; None: it was not enough. *)
Fixpoint drain_completions (fuel : nat) : LM bool :=
  match fuel with
  | O => mret false
  | S fuel =>
      r ← on_ring u_peek;
      match r with
      | (rc, Some c) =>
          if negb (rc =? 0) then mret true
          else
            _ ← on_ring u_seen;
            _ ← (if c_data c =? 0 then mret tt
                 else h ← get heap;
                      match h !! c_data c with
                      | None => go_bad
                      | Some pd => _ ← free_buf (buf pd) (pool_buf pd); free_pending (c_data c)
                      end);
            drain_completions fuel
      | (_, None) => mret true
      end
  end.

(** [dev/core/io_uring_loop.c:382-404 io_loop_destroy] *)
Definition io_loop_destroy (fuel : nat) : LM bool :=
  ok ← drain_completions fuel;
  if negb ok then mret false
  else
    l ← get loop;
    _ ← on_ring u_exit;
    _ ← on_ring (close_fd (wakeup_fd l));
    mret true.

Definition reusable (t : io_op_type_t) (d : io_op_desc_t C) : bool := (fd d <? 0) && bool_decide (op_type d = t).

(** [dev/core/io_uring_loop.c:406-426 io_loop_register_op] *)
Definition io_loop_register_op (desc : option (io_op_desc_t C)) : LM Z :=
  match desc with
  | None => mret (- EINVAL)
  | Some d =>
      l ← get loop;
      match list_find (fun x => reusable (op_type d) x = true) (ops l) with
      | Some (i, _) => _ ← set_loop (with_ops (<[i := d]> (ops l)) l); mret (Z.of_nat i)
      | None =>
          if MAX_OPS <=? op_count l then mret (- ENOMEM)
          else _ ← set_loop (with_ops (ops l ++ [d]) l); mret (op_count l)
      end
  end.

(** [dev/core/io_uring_loop.c:428-438 io_loop_unregister_fd] *)
Definition io_loop_unregister_fd (f : Z) : LM Z :=
  if f <? 0 then mret (- EINVAL)
  else
    l ← get loop;
    match list_find (fun x => fd x = f) (ops l) with
    | Some (i, d) =>
        _ ← set_loop (with_ops (<[i := mk_op (-1) (op_type d) (buf_size d) (callback d) (timeout_ms d)]> (ops l)) l);
        mret 0
    | None => mret (-1)
    end.

(** [dev/core/io_uring_loop.c:444-456 io_loop_run, the first requests] *)
Fixpoint submit_all (i : nat) (ds : list (io_op_desc_t C)) : LM unit :=
  match ds with
  | [] => mret tt
  | d :: ds =>
      _ ← match op_type d with
          | IO_OP_READ => if 0 <=? fd d then submit_read_op i d else mret 0
          | IO_OP_POLL => if 0 <=? fd d then submit_poll_op i d else mret 0
          | IO_OP_TIMEOUT => submit_timeout_op i d
          | _ => mret 0
          end;
      submit_all (S i) ds
  end.

(** [dev/core/io_uring_loop.c:483-489 io_loop_run, the rest of a batch] false: [fuel] was not
    enough. *)
Fixpoint drain (fuel : nat) : LM bool :=
  match fuel with
  | O => mret false
  | S fuel =>
      a ← get app;
      if negb (running a) then mret true
      else
        r ← on_ring u_peek;
        match r with
        | (rc, Some c) => if rc <? 0 then mret true else _ ← process_cqe c; drain fuel
        | (_, None) => mret true
        end
  end.

(** [dev/core/io_uring_loop.c:468-490 io_loop_run, the dispatch loop] None: [fuel] was not
    enough. *)
Fixpoint dispatch (fuel : nat) : LM (option Z) :=
  match fuel with
  | O => mret None
  | S fuel =>
      a ← get app;
      if negb (running a) then mret (Some SVC_OK)
      else
        r ← on_ring u_wait;
        w ← get ring;
        _ ← on_app (fun a => (tt, interrupt w a));
        if r.1 <? 0 then
          if r.1 =? - EINTR then dispatch fuel else mret (Some SVC_ERR_GENERIC)
        else
          _ ← (match r.2 with Some c => process_cqe c | None => mret tt end);
          ok ← drain fuel;
          if negb ok then mret None else dispatch fuel
  end.

(** [dev/core/io_uring_loop.c:440-494 io_loop_run] *)
Definition io_loop_run (fuel : nat) : LM (option Z) :=
  l ← get loop;
  _ ← submit_all 0 (ops l);
  _ ← submit_wakeup_read;
  rc ← on_ring u_submit;
  if rc <? 0 then mret (Some SVC_ERR_GENERIC) else dispatch fuel.

(** [dev/core/io_uring_loop.c:496-530 io_loop_submit_write] [bytes]: the buffer; None is
    NULL. *)
Definition io_loop_submit_write (f : Z) (bytes : option (list Z)) (cb : option C) : LM Z :=
  match bytes with
  | None => mret (- EINVAL)
  | Some bytes =>
      if (f <? 0) || (length bytes =? 0)%nat then mret (- EINVAL)
      else
        sqe ← on_ring u_get_sqe;
        if negb sqe then mret (- ENOBUFS)
        else
          p ← malloc_pending (mk_pending WRITE_OP_IDX 0 false (0, 0) cb f);
          if p =? 0 then mret (- ENOMEM)
          else
            b ← malloc bytes;
            _ ← put_pending p (mk_pending WRITE_OP_IDX b false (0, 0) cb f);
            if b =? 0 then _ ← free_pending p; mret (- ENOMEM)
            else
              _ ← on_ring (u_prep (mk_sqe (ReqWrite f bytes) p));
              rc ← on_ring u_submit;
              if rc <? 0 then _ ← free b; _ ← free_pending p; mret rc
              else mret 0
  end.

(** [dev/core/io_uring_loop.c:532-538 io_loop_wakeup] *)
Definition io_loop_wakeup : LM Z :=
  l ← get loop; ok ← on_ring (eventfd_write (wakeup_fd l)); mret (if (ok : bool) then 0 else -1).

(** [dev/core/io_uring_loop.c:540-549 io_loop_clear_ops] *)
Definition io_loop_clear_ops : LM unit := l ← get loop; set_loop (with_ops [] l).
End loop.

(** ** What liburing is relied on for

    [W] are the states of a ring whose requests in flight carry different user data.
    [inflight]: the user data of the requests that were prepared and whose completion was
    not consumed; [at_head]: the user data of the completion [u_wait] or [u_peek] has just
    shown; [loose]: entries handed out and not prepared. *)
Class Flight (W : Type) := {
  inflight : W -> gset Z; at_head : W -> option Z; loose : W -> nat
}.

Definition shows {W} `{Flight W} (m : M W (Z * option cqe)) : Prop := forall w,
  inflight (m w).2 = inflight w /\ loose (m w).2 = loose w /\
  forall c, (m w).1.2 = Some c -> c_data c ∈ inflight w /\ at_head (m w).2 = Some (c_data c).

Class UringLaws (W : Type) `{Uring W} `{Flight W} : Prop := {
  get_sqe_law w : inflight (u_get_sqe w).2 = inflight w /\
    loose (u_get_sqe w).2 = if (u_get_sqe w).1 then S (loose w) else loose w;
  prep_law q w : loose w = 1%nat -> q_data q ∉ inflight w ->
    inflight (u_prep q w).2 = {[q_data q]} ∪ inflight w /\ loose (u_prep q w).2 = 0%nat;
  submit_law w : loose w = 0%nat -> inflight (u_submit w).2 = inflight w /\ loose (u_submit w).2 = 0%nat;
  wait_law : shows u_wait;
  peek_law : shows u_peek;
  seen_law d w : at_head w = Some d -> inflight (u_seen w).2 = inflight w ∖ {[d]} /\
    loose (u_seen w).2 = loose w;
  efd_write_law f w : inflight (eventfd_write f w).2 = inflight w /\ loose (eventfd_write f w).2 = loose w
}.

(** ** What the application keeps

    A property of the application that its callbacks and signal handlers keep is kept by
    everything the loop does. *)
Section application.
Context {C A W : Type} `{Uring W} (run_cb : C -> Z -> Z -> option (list Z) -> Z -> M A Z).
Context (running : A -> bool) (interrupt : W -> A -> A) (I : A -> Prop).
Hypothesis callback_keeps : forall c f r b n a, I a -> I (run_cb c f r b n a).2.
Hypothesis interrupt_keeps : forall w a, I a -> I (interrupt w a).
Notation LM := (M (ls C A W)).
Definition app_keeps {X} (m : LM X) : Prop := keeps (fun s => I (app s)) m.

Lemma app_bind {X Y} (m : LM X) (f : X -> LM Y) : app_keeps m -> (forall x, app_keeps (f x)) -> app_keeps (m ≫= f).
Proof. apply keeps_bind. Qed.
Lemma app_ret {X} (x : X) : app_keeps (mret x : LM X).
Proof. apply keeps_ret. Qed.
Lemma app_ring {X} (m : M W X) : app_keeps (on_ring m).
Proof. intros s Hs. unfold on_ring. by destruct (m (ring s)). Qed.
Lemma app_callback cb f r b n : app_keeps (run_callback run_cb cb f r b n).
Proof.
  intros s Hs. unfold run_callback. destruct cb as [c|]; [|done]. unfold on_app.
  pose proof (callback_keeps c f r b n (app s) Hs) as Hc. by destruct (run_cb c f r b n (app s)).
Qed.
Lemma app_interrupt w : app_keeps (on_app (fun a => (tt, interrupt w a))).
Proof. intros s Hs. by apply interrupt_keeps. Qed.
Lemma app_fresh : app_keeps fresh_block.
Proof. intros s Hs. unfold fresh_block. by destruct (mallocs s) as [|[] l]. Qed.

Create HintDb app_keeps.
Hint Resolve app_ring app_callback app_interrupt app_fresh app_ret : app_keeps.
Ltac app_step := repeat first
  [ solve [auto 2 with app_keeps nocore] | apply app_bind; [|intro]
  | match goal with |- app_keeps (match ?x with _ => _ end) => destruct x end
  | assumption | by intros ? ? ].

Lemma app_free b : app_keeps (free b : LM unit).
Proof. unfold free. app_step. Qed.
Lemma app_free_pending p : app_keeps (free_pending p : LM unit).
Proof. unfold free_pending. app_step. Qed.
Lemma app_free_buf b pool : app_keeps (free_buf b pool : LM unit).
Proof. pose proof (app_free b). unfold free_buf. app_step. Qed.
Lemma app_malloc l : app_keeps (malloc l : LM Z).
Proof. unfold malloc. app_step. Qed.
Lemma app_put p d : app_keeps (put_pending p d : LM unit).
Proof. unfold put_pending. app_step. Qed.
Lemma app_malloc_pending d : app_keeps (malloc_pending d : LM Z).
Proof. unfold malloc_pending. app_step. Qed.
Lemma app_alloc_buf n : app_keeps (alloc_buf n : LM (Z * bool)).
Proof. unfold alloc_buf. pose proof (app_malloc []). app_step. Qed.

Hint Resolve app_free app_free_pending app_free_buf app_malloc app_put app_malloc_pending app_alloc_buf : app_keeps.

Lemma app_wakeup_read : app_keeps (submit_wakeup_read : LM Z).
Proof. unfold submit_wakeup_read. app_step. Qed.
Lemma app_read i d : app_keeps (submit_read_op i d : LM Z).
Proof. unfold submit_read_op. app_step. Qed.
Lemma app_bare i t r : app_keeps (submit_bare i t r : LM Z).
Proof. unfold submit_bare. app_step. Qed.
Lemma app_poll i d : app_keeps (submit_poll_op i d : LM Z).
Proof. unfold submit_poll_op. pose proof app_bare. app_step. Qed.
Hint Resolve app_wakeup_read app_read app_bare app_poll : app_keeps.
Lemma app_timeout i d : app_keeps (submit_timeout_op i d : LM Z).
Proof. apply app_bare. Qed.
Hint Resolve app_timeout : app_keeps.

Lemma app_rearm again (m : LM Z) : app_keeps m -> app_keeps (rearm running again m).
Proof. intros Hm. unfold rearm. app_step. Qed.
Hint Resolve app_rearm : app_keeps.

Lemma app_finish p pd c : app_keeps (finish run_cb running p pd c : LM unit).
Proof. unfold finish, timeout_done, read_done, poll_done, write_done. app_step. Qed.
Lemma app_process c : app_keeps (process_cqe run_cb running c : LM unit).
Proof. pose proof app_finish. unfold process_cqe. app_step. Qed.
Hint Resolve app_process : app_keeps.

Lemma app_submit_all ds : forall i, app_keeps (submit_all i ds : LM unit).
Proof.
  induction ds as [|d ds IH]; intros i; [apply app_ret|]. cbn [submit_all].
  apply app_bind; [|by intros _]. app_step.
Qed.
Lemma app_drain fuel : app_keeps (drain run_cb running fuel : LM bool).
Proof. induction fuel as [|n IH]; [apply app_ret|]. cbn [drain]. app_step. Qed.
Lemma app_dispatch fuel : app_keeps (dispatch run_cb running interrupt fuel : LM (option Z)).
Proof. pose proof app_drain. induction fuel as [|n IH]; [apply app_ret|]. cbn [dispatch]. app_step. Qed.
Lemma app_loop_run fuel : app_keeps (io_loop_run run_cb running interrupt fuel : LM (option Z)).
Proof. pose proof app_dispatch. pose proof app_submit_all. unfold io_loop_run. app_step. Qed.

Lemma app_completions fuel : app_keeps (drain_completions fuel : LM bool).
Proof. induction fuel as [|n IH]; [apply app_ret|]. cbn [drain_completions]. app_step. Qed.
Lemma app_destroy fuel : app_keeps (io_loop_destroy fuel : LM bool).
Proof. pose proof app_completions. unfold io_loop_destroy. app_step. Qed.
Lemma app_register d : app_keeps (io_loop_register_op d : LM Z).
Proof. unfold io_loop_register_op. app_step. Qed.
Lemma app_clear : app_keeps (io_loop_clear_ops : LM unit).
Proof. unfold io_loop_clear_ops. app_step. Qed.
End application.
