(* ===== verification/IoHeap.v ===== *)
(** * Who owns what in the event loop

    The heap of the loop of IoLoop.v: every pending object is in the ring or in the hands
    of the running code, and so is every buffer; no completion finds a freed object. *)

From S2P Require Import Prelude MemoryPool HalRegistry HalDevice IoLoop.

(** ** The ownership of the heap *)

Section ownership.
Context {C A W : Type} `{Uring W} `{Flight W} `{!UringLaws W}.
Notation LM := (M (ls C A W)).
Implicit Types (s : ls C A W) (d : io_pending_t C) (X : gmap Z (io_pending_t C)) (B : gset (bool * Z))
  (O : list (io_op_desc_t C)).

(** Objects in the ring that the code at hand does not touch. *)
Context (F : gmap Z (io_pending_t C)).

(** The buffer a pending object names, if any: a block of the pool or from [malloc]. *)
Definition buffer_of d : gset (bool * Z) := if buf d =? 0 then ∅ else {[(pool_buf d, buf d)]}.

Definition alive s (blocks : list Z) (b : bool * Z) : Prop :=
  if b.1 then b.2 ∈ blocks else is_Some (bufs s !! b.2).
Definition owned s (b : bool * Z) : Prop :=
  exists p d, p ∈ inflight (ring s) /\ heap s !! p = Some d /\ b ∈ buffer_of d.
Definition pool_live (p : option memory_pool) (blocks : list Z) : Prop :=
  match p with Some p => live_inv (p, blocks) | None => blocks = [] end.

(** Which objects may be in the ring: the branch of [process_cqe] that will get one frees
    its buffer. *)
Definition fits O d : Prop :=
  (op_idx d = WAKEUP_OP_IDX -> buf d <> 0 /\ pool_buf d = false) /\
  (forall o, buf d <> 0 -> 0 <= op_idx d -> O !! Z.to_nat (op_idx d) = Some o ->
     op_type o <> IO_OP_POLL /\ op_type o <> IO_OP_TIMEOUT).

(** With the table [O]: the objects [X] and the buffers [Bs] are in the hands of the
    running code, all others in the ring. *)
Record inv O X B (n : nat) s : Prop := {
  iv_bad : bad s = false;
  iv_mem : Forall (eq true) (mallocs s);
  iv_loose : loose (ring s) = n;
  iv_ops : ops (loop s) = O;
  iv_local : X ⊆ heap s;
  iv_heap : dom (heap s) = dom X ∪ inflight (ring s);
  iv_sep : dom X ## inflight (ring s);
  iv_next : 0 < next s;
  iv_fresh : forall p, p ∈ dom (heap s) \/ p ∈ dom (bufs s) -> 0 < p < next s;
  iv_alive : exists blocks, pool_live (buf_pool (loop s)) blocks /\
    forall b, alive s blocks b <-> b ∈ B \/ owned s b;
  iv_once : forall p q d e b, p ∈ inflight (ring s) -> q ∈ inflight (ring s) ->
    heap s !! p = Some d -> heap s !! q = Some e -> b ∈ buffer_of d -> b ∈ buffer_of e -> p = q;
  iv_mine : forall b, b ∈ B -> ~ owned s b;
  iv_fits : forall p d, p ∈ inflight (ring s) -> heap s !! p = Some d -> fits O d;
  iv_frame : F ⊆ heap s /\ dom F ⊆ inflight (ring s)
}.

Lemma buffer_some d b : b ∈ buffer_of d <-> buf d <> 0 /\ b = (pool_buf d, buf d).
Proof. unfold buffer_of. destruct (Z.eqb_spec (buf d) 0); set_solver. Qed.

(** What only touches the application or the answers of the ring. *)
Lemma inv_same O X B n s s' : inv O X B n s ->
  bad s' = bad s -> mallocs s' = mallocs s -> loose (ring s') = loose (ring s) -> loop s' = loop s ->
  heap s' = heap s -> bufs s' = bufs s -> next s' = next s -> inflight (ring s') = inflight (ring s) ->
  inv O X B n s'.
Proof.
  intros [] E1 E2 E3 E4 E5 E6 E7 E8.
  split; unfold alive, owned in *; rewrite ?E1, ?E2, ?E3, ?E4, ?E5, ?E6, ?E7, ?E8; done.
Qed.

Lemma app_inv {Y} O X B n (m : M A Y) : keeps (inv O X B n) (on_app m).
Proof.
  intros s Hs. unfold on_app. destruct (m (app s)) as [y a]. simpl. by apply (inv_same _ _ _ _ s).
Qed.

(** The objects in the hands of the running code may be changed at will. *)
Lemma inv_local O X X' B n s s' : inv O X B n s ->
  bad s' = bad s -> Forall (eq true) (mallocs s') -> loose (ring s') = loose (ring s) -> loop s' = loop s ->
  bufs s' = bufs s -> inflight (ring s') = inflight (ring s) -> next s <= next s' ->
  (forall p, p ∈ inflight (ring s) -> heap s' !! p = heap s !! p) ->
  X' ⊆ heap s' -> dom (heap s') = dom X' ∪ inflight (ring s) -> dom X' ## inflight (ring s) ->
  (forall p, p ∈ dom X' -> 0 < p < next s') -> inv O X' B n s'.
Proof.
  intros [Hb Hm Hl Ho Hx Hh Hsep Hn Hf Ha H1 Hmine Hfit Hfr] E1 E2 E3 E4 E5 E6 E7 Hlook Hx' Hd Hs' Hf'.
  assert (Hown : forall b, owned s' b <-> owned s b).
  { intros b. unfold owned. rewrite E6. split; intros (p & d & Hp & He & Hin); exists p, d;
      [rewrite <- Hlook by done|rewrite Hlook by done]; done. }
  split; unfold alive in *; rewrite ?E1, ?E3, ?E4, ?E5, ?E6; try done.
  - lia.
  - intros p. rewrite Hd, elem_of_union. intros [[Hp|Hp]|Hp]; [by apply Hf'| |];
      cut (0 < p < next s); [lia| |lia|]; apply Hf; [set_solver|by right].
  - destruct Ha as (bl & Hp & Ha). exists bl. split; [done|]. intros b. by rewrite Ha, Hown.
  - intros p q d e b Hp Hq. rewrite !Hlook by done. eauto.
  - intros b Hb'. rewrite Hown. auto.
  - intros p d Hp. rewrite Hlook by done. eauto.
  - destruct Hfr as [Hsub Hdom]. split; [|done]. apply map_subseteq_spec. intros p d Hp.
    rewrite Hlook; [by eapply lookup_weaken|]. apply Hdom. by eapply elem_of_dom_2.
Qed.

(** *** Objects *)

Lemma fresh_ok O X B n :
  triple (inv O X B n) (fresh_block : LM Z) (fun p s => 0 < p /\ p ∉ dom (heap s) /\ p ∉ dom (bufs s) /\
    p < next s /\ inv O X B n s).
Proof.
  intros s Hs. pose proof Hs as [Hb Hm Hl Ho Hx Hh Hsep Hn Hf Ha H1 Hmine Hfit Hfr].
  assert (Hok : match mallocs s with b :: _ => b | [] => true end = true).
  { destruct Hm as [|b l <- _]; done. }
  unfold fresh_block. rewrite Hok. simpl. split; [lia|]. split; [intros Hin; specialize (Hf _ (or_introl Hin)); lia|].
  split; [intros Hin; specialize (Hf _ (or_intror Hin)); lia|]. split; [lia|].
  apply (inv_local _ X _ _ _ s); simpl; try done; [|lia|].
  - destruct Hm; simpl; [constructor|done].
  - intros p Hp. cut (0 < p < next s); [lia|]. apply Hf. set_solver.
Qed.

Lemma local_set O X B n s p d h : inv O X B n s -> p ∉ inflight (ring s) -> 0 < p < next s ->
  h = <[p := d]> (heap s) ->
  inv O (<[p := d]> X) B n
    (mk_ls (loop s) h (bufs s) (next s) (mallocs s) (bad s) (app s) (ring s)).
Proof.
  intros Hs Hp Hr ->. pose proof Hs as [Hb Hm Hl Ho Hx Hh Hsep Hn Hf Ha H1 Hmine Hfit Hfr].
  apply (inv_local _ X _ _ _ s); simpl; try done.
  - intros q Hq. apply lookup_insert_ne. set_solver.
  - by apply insert_mono.
  - rewrite !dom_insert_L, Hh. set_solver.
  - rewrite dom_insert_L. set_solver.
  - intros q. rewrite dom_insert_L, elem_of_union, elem_of_singleton. intros [->|Hq]; [lia|].
    apply Hf. set_solver.
Qed.

Lemma malloc_pending_inv O X B n d :
  triple (inv O X B n) (malloc_pending d)
    (fun p s => p <> 0 /\ X !! p = None /\ inv O (<[p := d]> X) B n s).
Proof.
  unfold malloc_pending. eapply triple_bind; [apply fresh_ok|]. intros p s (Hp & Hh & _ & Hlt & Hs).
  destruct (Z.eqb_spec p 0); [lia|]. unfold put_pending, get, set_heap, mbind, M_bind, mret, M_ret. simpl.
  pose proof (iv_heap _ _ _ _ _ Hs) as Hd. split; [lia|]. split.
  - apply not_elem_of_dom. set_solver.
  - apply local_set; [done|set_solver|lia|done].
Qed.

Lemma put_pending_inv O X B n p d e : X !! p = Some e ->
  triple (inv O X B n) (put_pending p d) (fun _ s => inv O (<[p := d]> X) B n s).
Proof.
  intros Hp s Hs. apply elem_of_dom_2 in Hp.
  pose proof (iv_heap _ _ _ _ _ Hs) as Hd. pose proof (iv_sep _ _ _ _ _ Hs).
  unfold put_pending, get, set_heap, mbind, M_bind. simpl. apply local_set; [done|set_solver| |done].
  apply (iv_fresh _ _ _ _ _ Hs). set_solver.
Qed.

Lemma free_pending_inv O X B n p e : X !! p = Some e ->
  triple (inv O X B n) (free_pending p) (fun _ s => inv O (delete p X) B n s).
Proof.
  intros Hp s Hs. pose proof Hs as [Hb Hm Hl Ho Hx Hh Hsep Hn Hf Ha H1 Hmine Hfit Hfr].
  unfold free_pending, get, set_heap, mbind, M_bind. rewrite (lookup_weaken _ _ _ _ Hp Hx). simpl.
  apply elem_of_dom_2 in Hp as Hd.
  apply (inv_local _ X _ _ _ s); simpl; try done.
  - intros q Hq. apply lookup_delete_ne. set_solver.
  - by apply delete_mono.
  - rewrite !dom_delete_L, Hh. set_solver.
  - rewrite dom_delete_L. set_solver.
  - intros q. rewrite dom_delete_L. intros Hq. apply Hf. set_solver.
Qed.

(** *** Buffers *)

Lemma inv_buffers O X B B' n s s' bl : inv O X B n s -> bad s' = bad s -> Forall (eq true) (mallocs s') ->
  ring s' = ring s -> heap s' = heap s -> ops (loop s') = ops (loop s) -> next s <= next s' ->
  (forall b, b ∈ dom (bufs s') -> 0 < b < next s') ->
  pool_live (buf_pool (loop s')) bl ->
  (forall b, alive s' bl b <-> b ∈ B' \/ owned s b) -> (forall b, b ∈ B' -> ~ owned s b) ->
  inv O X B' n s'.
Proof.
  intros [Hb Hm Hl Ho Hx Hh Hsep Hn Hf Ha H1 Hmine Hfit Hfr] E1 E2 E3 E4 E5 E6 Hbuf Hp Hal Hmine'.
  split; unfold owned in *; rewrite ?E1, ?E3, ?E4, ?E5; try done.
  - lia.
  - intros p [Hin|Hin]; [|by apply Hbuf]. specialize (Hf p (or_introl Hin)). lia.
  - exists bl. split; [done|]. unfold alive in *. done.
Qed.

Lemma malloc_inv O X B n c :
  triple (inv O X B n) (malloc c : LM Z) (fun b s => b <> 0 /\ (false, b) ∉ B /\ inv O X ({[(false, b)]} ∪ B) n s).
Proof.
  unfold malloc. eapply triple_bind; [apply fresh_ok|]. intros b s (Hp & _ & Hd & Hlt & Hs).
  destruct (Z.eqb_spec b 0); [lia|]. unfold set_bufs, get, mbind, M_bind, mret, M_ret. simpl.
  pose proof Hs as [Hb Hm Hl Ho Hx Hh Hsep Hn Hf Ha H1 Hmine Hfit Hfr]. destruct Ha as (bl & Hpl & Ha).
  assert (Hnew : ~ alive s bl (false, b)) by (unfold alive; simpl; by rewrite <- elem_of_dom).
  assert (HnB : (false, b) ∉ B) by (intros Hin; apply Hnew, Ha; by left).
  split; [lia|]. split; [done|]. apply (inv_buffers _ _ B _ _ s _ bl); simpl; try done; try lia.
  - intros x. rewrite dom_insert_L, elem_of_union, elem_of_singleton. intros [->|Hx']; [lia|]. apply Hf. by right.
  - intros [k a]. specialize (Ha (k, a)). unfold alive in *. destruct k; simpl in *; [rewrite Ha; set_solver|].
    destruct (decide (a = b)) as [->|Hne].
    + rewrite lookup_insert_eq. split; [set_solver|]. by eexists.
    + rewrite lookup_insert_ne by done. rewrite Ha. set_solver.
  - intros x. rewrite elem_of_union, elem_of_singleton. intros [->|Hx']; [|by apply Hmine].
    intros Hown. apply Hnew, Ha. by right.
Qed.

Lemma io_free_inv O X B n b : (false, b) ∈ B ->
  triple (inv O X B n) (free b : LM unit) (fun _ s => inv O X (B ∖ {[(false, b)]}) n s).
Proof.
  intros Hb s Hs. pose proof Hs as [Hbad Hm Hl Ho Hx Hh Hsep Hn Hf Ha H1 Hmine Hfit Hfr].
  destruct Ha as (bl & Hpl & Ha).
  assert (Hal : alive s bl (false, b)) by (apply Ha; by left).
  unfold free, get, set_bufs, mbind, M_bind. destruct Hal as [c Hc]. simpl in Hc. rewrite Hc. simpl.
  apply (inv_buffers _ _ B _ _ s _ bl); simpl; try done; try lia.
  - intros x. rewrite dom_delete_L. intros Hx'. apply Hf. set_solver.
  - intros [k a]. specialize (Ha (k, a)). unfold alive in *. destruct k; simpl in *; [rewrite Ha; set_solver|].
    destruct (decide (a = b)) as [->|Hne].
    + rewrite lookup_delete_eq. split; [by intros [? ?]|]. intros [?|Hown]; [set_solver|].
      by destruct (Hmine _ Hb).
    + rewrite lookup_delete_ne by done. rewrite Ha. set_solver.
  - intros x Hx'. apply Hmine. set_solver.
Qed.

Lemma pool_addr_pos p bl b : live_inv (p, bl) -> b ∈ bl -> 0 < b.
Proof.
  intros [Hp _ Hu] Hb. simpl in *. apply Hu in Hb as (i & _ & _ & ->). unfold block_addr.
  pose proof (pi_base _ Hp). pose proof (pi_bsz _ Hp). nia.
Qed.

Lemma io_pool_step_inv O X B B' n s p p' bl bl' : inv O X B n s -> buf_pool (loop s) = Some p ->
  (forall b, alive s bl b <-> b ∈ B \/ owned s b) -> live_inv (p', bl') ->
  (forall b, (b.1 = true /\ b.2 ∈ bl' \/ b.1 = false /\ is_Some (bufs s !! b.2)) <-> b ∈ B' \/ owned s b) ->
  (forall b, b ∈ B' -> ~ owned s b) ->
  inv O X B' n (set_loop (with_pool p' (loop s)) s).2.
Proof.
  intros Hs Hp Hal Hl' Hal' Hm'. pose proof Hs as [].
  apply (inv_buffers _ _ B _ _ s _ bl'); simpl; try done; try lia.
  - intros x Hx. apply iv_fresh0. by right.
  - intros [k a]. specialize (Hal' (k, a)). unfold alive. simpl in *. destruct k; rewrite <- Hal'; naive_solver.
Qed.

Lemma triple_get {Y Z} (f : ls C A W -> Y) (k : Y -> LM Z) P Q :
  (forall y, triple (fun s => P s /\ f s = y) (k y) Q) -> triple P (get f ≫= k) Q.
Proof. intros Hk s Hs. by apply (Hk (f s)). Qed.

Lemma triple_get_as {Y Z} (f : ls C A W -> Y) (φ : Y -> Prop) (k : Y -> LM Z) P Q :
  (forall s, P s -> φ (f s)) -> (forall y, φ y -> triple P (k y) Q) -> triple P (get f ≫= k) Q.
Proof. intros Hf Hk s Hs. by apply (Hk (f s)); [apply Hf|]. Qed.

Lemma alloc_buf_inv O X B n size :
  triple (inv O X B n) (alloc_buf size : LM (Z * bool))
    (fun b s => b.1 <> 0 /\ (b.2, b.1) ∉ B /\ inv O X ({[(b.2, b.1)]} ∪ B) n s).
Proof.
  assert (Hmal : triple (inv O X B n) (b ← malloc []; mret (b, false) : LM (Z * bool))
    (fun b s => b.1 <> 0 /\ (b.2, b.1) ∉ B /\ inv O X ({[(b.2, b.1)]} ∪ B) n s)).
  { eapply triple_bind; [apply malloc_inv|]. by intros b s Hs. }
  unfold alloc_buf. apply triple_get. intros l.
  destruct (buf_pool l) as [p|] eqn:Hp; [|by eapply triple_pre; [apply Hmal|intros s []]].
  destruct (0 <? size); [|by eapply triple_pre; [apply Hmal|intros s []]].
  intros s [Hs <-].
  destruct (iv_alive _ _ _ _ _ Hs) as (bl & Hpl & Ha). rewrite Hp in Hpl. simpl in Hpl.
  pose proof (alloc_ok p (lv_pool _ Hpl)) as Hok.
  destruct (memory_pool_alloc p) as [p'|b p'|] eqn:Hal; [| |done].
  - assert (Hl' : live_inv (p', bl)) by (eapply history_step_inv, h_alloc_fail; done).
    apply Hmal. change (inv O X B n (set_loop (with_pool p' (loop s)) s).2).
    eapply io_pool_step_inv; try done; [|by eapply iv_mine].
    intros [k a]. rewrite <- Ha. unfold alive. simpl. destruct k; naive_solver.
  - assert (Hl' : live_inv (p', b :: bl)) by (eapply history_step_inv, h_alloc; done).
    assert (Hnew : b ∉ bl) by (apply NoDup_cons; apply (lv_nodup _ Hl')).
    assert (Hna : ~ alive s bl (true, b)) by done.
    assert (0 < b) by (eapply pool_addr_pos; [done|left]).
    split; [simpl; lia|]. split; [intros Hin; apply Hna, Ha; by left|].
    eapply io_pool_step_inv; try done.
    + intros [k a]. specialize (Ha (k, a)). unfold alive in Ha. simpl in *.
      rewrite elem_of_cons, elem_of_union, elem_of_singleton. destruct k; [|naive_solver].
      split; [intros [[_ [->|?]]|[? _]]; naive_solver|].
      intros [[[= ->]|?]|?]; left; naive_solver.
    + intros x. rewrite elem_of_union, elem_of_singleton. intros [->|Hx]; [|by eapply iv_mine].
      intros Hown. apply Hna, Ha. by right.
Qed.

Lemma free_buf_inv O X B n d : buffer_of d ⊆ B ->
  triple (inv O X B n) (free_buf (buf d) (pool_buf d) : LM unit)
    (fun _ s => inv O X (B ∖ buffer_of d) n s).
Proof.
  intros Hsub. unfold free_buf, buffer_of in *. destruct (Z.eqb_spec (buf d) 0) as [_|Hnz].
  { intros s Hs. simpl. by rewrite difference_empty_L. }
  assert (Hin : (pool_buf d, buf d) ∈ B) by set_solver. clear Hsub.
  apply triple_get. intros l.
  destruct (pool_buf d) eqn:Hpb; [|eapply triple_pre; [by apply io_free_inv|by intros s []]].
  intros s [Hs <-].
  destruct (iv_alive _ _ _ _ _ Hs) as (bl & Hpl & Ha).
  assert (Hb : buf d ∈ bl) by (by apply (Ha (true, buf d)); left).
  destruct (buf_pool (loop s)) as [p|] eqn:Hp; [|simpl in Hpl; subst; by apply not_elem_of_nil in Hb].
  simpl in Hpl.
  assert (Hl' := history_step_inv _ _ Hpl (h_free p bl (buf d))).
  eapply io_pool_step_inv; try done.
  - intros [k a]. specialize (Ha (k, a)). unfold alive in Ha. simpl in *.
    rewrite elem_of_difference, elem_of_singleton, list_elem_of_In, List.filter_In, <- list_elem_of_In.
    pose proof (iv_mine _ _ _ _ _ Hs _ Hin) as Hno.
    destruct k; simpl; [|naive_solver]. rewrite negb_true_iff, Z.eqb_neq.
    destruct (decide (a = buf d)) as [->|Hne]; [naive_solver|].
    assert ((true, a) <> (true, buf d)) by congruence. naive_solver.
  - intros x Hx. eapply iv_mine; [done|]. set_solver.
Qed.

(** *** The ring *)

Lemma ring_same {Y} O X B n k (m : M W Y) :
  (forall w, loose w = n -> inflight (m w).2 = inflight w /\ loose (m w).2 = k (m w).1) ->
  triple (inv O X B n) (on_ring m : LM Y) (fun y s => inv O X B (k y) s).
Proof.
  intros Hm s Hs. specialize (Hm (ring s) (iv_loose _ _ _ _ _ Hs)). unfold on_ring.
  destruct (m (ring s)) as [y w]. simpl in *. destruct Hm as [Hi Hl]. destruct Hs.
  split; unfold alive, owned in *; simpl; rewrite ?Hi; done.
Qed.

Lemma get_sqe_inv O X B n :
  triple (inv O X B n) (on_ring u_get_sqe : LM bool) (fun ok s => inv O X B (if ok then S n else n) s).
Proof.
  apply ring_same. intros w <-. destruct (get_sqe_law w) as [Hi Hl]. split; [done|].
  rewrite Hl. by destruct (u_get_sqe w).1.
Qed.

Lemma submit_inv O X B : keeps (inv O X B 0) (on_ring u_submit : LM Z).
Proof. apply (ring_same _ _ _ _ (fun _ => 0%nat)), submit_law. Qed.

Lemma prep_inv O X B r p d : X !! p = Some d -> buffer_of d ⊆ B -> fits O d ->
  triple (inv O X B 1) (on_ring (u_prep (mk_sqe r p)) : LM unit)
    (fun _ s => inv O (delete p X) (B ∖ buffer_of d) 0 s).
Proof.
  intros Hp Hsub Hfits s [Hb Hm Hl Ho Hx Hh Hsep Hn Hf Ha H1 Hmine Hfit Hfr]. unfold on_ring.
  assert (Hpx : p ∈ dom X) by by eapply elem_of_dom_2.
  destruct (prep_law (mk_sqe r p) (ring s) Hl) as [Hi Hl']; [simpl; set_solver|]. simpl in Hi.
  destruct (u_prep (mk_sqe r p) (ring s)) as [[] w]. simpl in *.
  assert (Hhp : heap s !! p = Some d) by by eapply lookup_weaken.
  assert (Hown : forall b, (exists q e, q ∈ inflight w /\ heap s !! q = Some e /\ b ∈ buffer_of e) <->
    b ∈ buffer_of d \/ owned s b).
  { intros b. unfold owned. rewrite Hi. split.
    - intros (q & e & Hq & He & Hb'). apply elem_of_union in Hq as [Hq%elem_of_singleton|Hq]; [|right; eauto].
      subst. rewrite Hhp in He. simplify_eq. by left.
    - intros [Hb'|(q & e & Hq & He & Hb')]; [exists p, d|exists q, e]; set_solver. }
  assert (Hno : forall q e b, q ∈ inflight (ring s) -> heap s !! q = Some e -> b ∈ buffer_of d -> b ∉ buffer_of e).
  { intros q e b Hq He Hb' Hbe. apply (Hmine b); [set_solver|]. by exists q, e. }
  split; simpl; try done.
  - etrans; [apply delete_subseteq|done].
  - rewrite Hi, Hh, dom_delete_L. apply set_eq. intros q. destruct (decide (q = p)); set_solver.
  - rewrite Hi, dom_delete_L. set_solver.
  - destruct Ha as (bl & Hpl & Ha). exists bl. split; [done|]. intros b. unfold alive in *. simpl.
    rewrite Ha. unfold owned at 2. simpl. rewrite Hown. destruct (decide (b ∈ buffer_of d)); set_solver.
  - rewrite Hi. intros q q' e e' b Hq Hq' He He' Hbe Hbe'.
    apply elem_of_union in Hq as [Hq%elem_of_singleton|Hq], Hq' as [Hq'%elem_of_singleton|Hq']; subst; [done| | |eauto].
    + rewrite Hhp in He. simplify_eq. by destruct (Hno _ _ _ Hq' He' Hbe).
    + rewrite Hhp in He'. simplify_eq. by destruct (Hno _ _ _ Hq He Hbe').
  - intros b Hb'. unfold owned. simpl. rewrite Hown. intros [?|Hob]; [set_solver|].
    apply (Hmine b); set_solver.
  - rewrite Hi. intros q e Hq He. apply elem_of_union in Hq as [Hq%elem_of_singleton|Hq]; [|eauto].
    subst. rewrite Hhp in He. by simplify_eq.
  - rewrite Hi. split; [apply Hfr|]. destruct Hfr. set_solver.
Qed.

Lemma seen_inv O X B n p d : p ∉ dom F ->
  triple (fun s => inv O X B n s /\ at_head (ring s) = Some p /\ p ∈ inflight (ring s) /\ heap s !! p = Some d)
    (on_ring u_seen : LM unit)
    (fun _ s => inv O (<[p := d]> X) (buffer_of d ∪ B) n s /\ heap s !! p = Some d /\ fits O d).
Proof.
  intros HpF s ([Hb Hm Hl Ho Hx Hh Hsep Hn Hf Ha H1 Hmine Hfit Hfr] & Hhead & Hp & Hhp). unfold on_ring.
  destruct (seen_law p (ring s) Hhead) as [Hi Hl'].
  destruct (u_seen (ring s)) as [[] w]. simpl in *. split; [|eauto].
  assert (Hown : forall b, (exists q e, q ∈ inflight w /\ heap s !! q = Some e /\ b ∈ buffer_of e) <->
    owned s b /\ b ∉ buffer_of d).
  { intros b. unfold owned. rewrite Hi. split.
    - intros (q & e & Hq & He & Hb'). split; [exists q, e; set_solver|].
      intros Hbd. assert (q = p) by (eapply H1; try done; set_solver). set_solver.
    - intros [(q & e & Hq & He & Hb') Hbd]. exists q, e. split; [|done].
      assert (q <> p) by (intros ->; rewrite Hhp in He; by simplify_eq). set_solver. }
  assert (Hpown : forall b, b ∈ buffer_of d -> owned s b) by (intros b Hb'; by exists p, d).
  split; simpl; try done.
  - by rewrite Hl'.
  - by apply insert_subseteq_l.
  - rewrite Hi, Hh, dom_insert_L. apply set_eq. intros q. destruct (decide (q = p)); set_solver.
  - rewrite Hi, dom_insert_L. set_solver.
  - destruct Ha as (bl & Hpl & Ha). exists bl. split; [done|]. intros b. unfold alive in *. simpl.
    rewrite Ha. unfold owned at 2. simpl. rewrite Hown. specialize (Hpown b).
    destruct (decide (b ∈ buffer_of d)); set_solver.
  - rewrite Hi. intros q q' e e' b Hq Hq'. apply H1; set_solver.
  - intros b Hb'. unfold owned. simpl. rewrite Hown. intros [Hob Hnd]. apply (Hmine b); set_solver.
  - rewrite Hi. intros q e Hq. apply Hfit. set_solver.
  - rewrite Hi. split; [apply Hfr|]. destruct Hfr. set_solver.
Qed.

(** *** Requests *)

(** Between two calls everything is in the ring. *)
Definition settled O : ls C A W -> Prop := inv O ∅ ∅ 0.

(** A request that is given what the running code has just allocated. *)
Lemma prep_settles O p d r B : B = buffer_of d -> fits O d ->
  triple (inv O {[p := d]} B 1) (on_ring (u_prep (mk_sqe r p)) : LM unit) (fun _ => settled O).
Proof.
  intros -> Hf. eapply triple_post; [by apply prep_inv; [apply lookup_singleton_eq|..]|].
  intros [] s. by rewrite delete_singleton_eq, difference_diag_L.
Qed.

Lemma wakeup_settles O : keeps (settled O) (submit_wakeup_read : LM Z).
Proof.
  unfold submit_wakeup_read. eapply triple_bind; [apply get_sqe_inv|]. intros [].
  2: { by intros s Hs. }
  simpl. eapply triple_bind; [apply malloc_pending_inv|]. intros p.
  apply triple_pure. intros Hp. apply triple_pure. intros _.
  destruct (Z.eqb_spec p 0); [done|].
  eapply triple_bind; [apply malloc_inv|]. intros b.
  apply triple_pure. intros Hb. apply triple_pure. intros _.
  eapply triple_seq; [eapply put_pending_inv, lookup_insert_eq|]. intros _.
  destruct (Z.eqb_spec b 0); [done|]. rewrite insert_insert_eq.
  apply triple_get. intros l. eapply triple_pre; [|by intros s [Hs _]; exact Hs].
  eapply triple_seq; [|intros _; apply keeps_ret].
  apply prep_settles; [|by split].
  unfold buffer_of. simpl. destruct (Z.eqb_spec b 0); [done|]. set_solver.
Qed.

Lemma read_settles O i o : O !! i = Some o -> op_type o = IO_OP_READ ->
  keeps (settled O) (submit_read_op i o : LM Z).
Proof.
  intros Ho Ht. unfold submit_read_op. case_match; [apply keeps_ret|].
  eapply triple_bind; [apply get_sqe_inv|]. intros [].
  2: { by intros s Hs. }
  simpl. eapply triple_bind; [apply malloc_pending_inv|]. intros p.
  apply triple_pure. intros Hp. apply triple_pure. intros _.
  destruct (Z.eqb_spec p 0); [done|].
  eapply triple_bind; [apply alloc_buf_inv|]. intros [b k].
  apply triple_pure. intros Hb. apply triple_pure. intros _. simpl in *.
  eapply triple_seq; [eapply put_pending_inv, lookup_insert_eq|]. intros _.
  destruct (Z.eqb_spec b 0); [done|]. rewrite insert_insert_eq.
  eapply triple_seq; [|intros _; apply keeps_ret]. apply prep_settles.
  - unfold buffer_of. simpl. destruct (Z.eqb_spec b 0); [done|]. set_solver.
  - split; simpl; [unfold WAKEUP_OP_IDX; lia|]. intros o' _ _. rewrite Nat2Z.id, Ho. intros [= <-].
    by rewrite Ht.
Qed.

Lemma bare_settles O i t r : keeps (settled O) (submit_bare i t r : LM Z).
Proof.
  unfold submit_bare. eapply triple_bind; [apply get_sqe_inv|]. intros [].
  2: { by intros s Hs. }
  simpl. eapply triple_bind; [apply malloc_pending_inv|]. intros p.
  apply triple_pure. intros Hp. apply triple_pure. intros _.
  destruct (Z.eqb_spec p 0); [done|].
  eapply triple_seq; [|intros _; apply keeps_ret]. apply prep_settles; [done|].
  split; simpl; [unfold WAKEUP_OP_IDX; lia|done].
Qed.

Lemma poll_settles O i o : keeps (settled O) (submit_poll_op i o : LM Z).
Proof. unfold submit_poll_op. case_match; [apply keeps_ret|apply bare_settles]. Qed.

Lemma timeout_settles O i o : keeps (settled O) (submit_timeout_op i o : LM Z).
Proof. apply bare_settles. Qed.

Context (run_cb : C -> Z -> Z -> option (list Z) -> Z -> M A Z) (running : A -> bool).

Lemma callback_inv O X B n cb f res bytes len :
  keeps (inv O X B n) (run_callback run_cb cb f res bytes len : LM Z).
Proof. unfold run_callback. case_match; [apply app_inv|apply keeps_ret]. Qed.

Lemma rearm_settles O again m : keeps (settled O) m -> keeps (settled O) (rearm running again m : LM unit).
Proof.
  intros Hm. unfold rearm. apply triple_get. intros a. eapply triple_pre; [|by intros s [Hs _]; exact Hs].
  destruct (running a && again); [|apply keeps_ret].
  eapply triple_seq; [apply Hm|]. intros _. eapply triple_seq; [apply submit_inv|]. intros _. apply keeps_ret.
Qed.

(** *** Completions *)

(** A completion has been shown and not been consumed. *)
Definition shown O (c : cqe) s : Prop :=
  settled O s /\ at_head (ring s) = Some (c_data c) /\ c_data c ∈ inflight (ring s).

Lemma free_all O p d B : B = buffer_of d ->
  triple (inv O {[p := d]} B 0) (_ ← free_buf (buf d) (pool_buf d); free_pending p : LM unit)
    (fun _ => settled O).
Proof.
  intros ->. eapply triple_seq; [by apply free_buf_inv|]. intros _. rewrite difference_diag_L.
  eapply triple_post; [eapply free_pending_inv, lookup_singleton_eq|].
  intros [] s. by rewrite delete_singleton_eq.
Qed.

Lemma free_object O p d B : triple (inv O {[p := d]} B 0) (free_pending p : LM unit) (fun _ => inv O ∅ B 0).
Proof.
  eapply triple_post; [eapply free_pending_inv, lookup_singleton_eq|].
  intros [] s. by rewrite delete_singleton_eq.
Qed.

Lemma write_settles O p d res : triple (inv O {[p := d]} (buffer_of d) 0)
  (write_done run_cb p d res : LM unit) (fun _ => settled O).
Proof.
  unfold write_done. apply triple_get. intros m. eapply triple_pre; [|by intros s [Hs _]; exact Hs].
  eapply triple_seq; [apply callback_inv|]. intros _. by apply free_all.
Qed.

Lemma read_done_settles O p d i o res bytes : O !! i = Some o -> op_type o = IO_OP_READ ->
  triple (inv O {[p := d]} (buffer_of d) 0) (read_done run_cb running p d i o res bytes : LM unit)
    (fun _ => settled O).
Proof.
  intros Ho Ht. unfold read_done. eapply triple_seq; [apply free_object|]. intros _.
  eapply triple_seq; [case_match; apply callback_inv|]. intros rc.
  eapply triple_seq; [by apply free_buf_inv|]. intros _. rewrite difference_diag_L.
  by apply rearm_settles, read_settles.
Qed.

Lemma poll_done_settles O p d i o res : buffer_of d = ∅ ->
  triple (inv O {[p := d]} (buffer_of d) 0) (poll_done run_cb running p i o res : LM unit) (fun _ => settled O).
Proof.
  intros ->. unfold poll_done. eapply triple_seq; [apply free_object|]. intros _.
  eapply triple_seq; [apply callback_inv|]. intros rc. apply rearm_settles, poll_settles.
Qed.

Lemma timeout_done_settles O p d i o res : buffer_of d = ∅ ->
  triple (inv O {[p := d]} (buffer_of d) 0) (timeout_done run_cb running p i o res : LM unit)
    (fun _ => settled O).
Proof.
  intros ->. unfold timeout_done.
  eapply triple_seq; [case_match; [apply callback_inv|apply keeps_ret]|]. intros rc.
  eapply triple_seq; [apply free_object|]. intros _. apply rearm_settles, timeout_settles.
Qed.

Lemma finish_settles O p d c : fits O d ->
  triple (inv O {[p := d]} (buffer_of d) 0) (finish run_cb running p d c : LM unit) (fun _ => settled O).
Proof.
  intros [Hwake Hbuf]. unfold finish. destruct (Z.eqb_spec (op_idx d) WAKEUP_OP_IDX) as [Hw|_].
  { destruct (Hwake Hw) as [Hnz Hk]. unfold buffer_of.
    destruct (Z.eqb_spec (buf d) 0); [done|]. rewrite Hk.
    eapply triple_seq; [apply io_free_inv; set_solver|]. intros _. rewrite difference_diag_L.
    eapply triple_seq; [apply free_object|]. intros _. apply rearm_settles, wakeup_settles. }
  destruct (op_idx d =? WRITE_OP_IDX); [apply write_settles|].
  apply (triple_get_as _ (fun l => ops l = O)); [apply iv_ops|]. intros l ->.
  assert (Hdrop := free_all O p d _ eq_refl). cbv zeta.
  case_match; [exact Hdrop|]. case_match eqn:Ho; [|exact Hdrop].
  assert (Hnone : op_type i = IO_OP_POLL \/ op_type i = IO_OP_TIMEOUT -> buffer_of d = ∅).
  { intros Ht. unfold buffer_of. destruct (Z.eqb_spec (buf d) 0); [done|].
    bool_to_prop. destruct (Hbuf _ n ltac:(lia) eq_refl). naive_solver. }
  destruct (op_type i) eqn:Ht; try exact Hdrop.
  - by apply read_done_settles.
  - apply timeout_done_settles; auto.
  - apply poll_done_settles; auto.
Qed.

Lemma process_settles O c : c_data c ∉ dom F -> triple (shown O c) (process_cqe run_cb running c : LM unit) (fun _ => settled O).
Proof.
  unfold process_cqe. intros HF s (Hs & Hhead & Hin).
  assert (Hdom : c_data c ∈ dom (heap s)) by (rewrite (iv_heap _ _ _ _ _ Hs); set_solver).
  assert (Hpos : 0 < c_data c) by (apply (iv_fresh _ _ _ _ _ Hs); by left).
  apply elem_of_dom in Hdom as [d Hd].
  pose proof (seen_inv O ∅ ∅ 0 (c_data c) d HF s ltac:(done)) as Hseen.
  unfold mbind at 1, M_bind at 1. destruct (on_ring u_seen s) as [[] s1]. simpl in Hseen.
  destruct Hseen as (Hs1 & Hd1 & Hfit). rewrite union_empty_r_L, insert_empty in Hs1.
  destruct (Z.eqb_spec (c_data c) 0); [lia|].
  change ((get heap ≫= ?k) s1) with (k (heap s1) s1). cbv beta. rewrite Hd1. by apply finish_settles.
Qed.
End ownership.

(** A loop that was just created. *)
Section fresh.
Context {C A W : Type} `{Uring W} `{Flight W}.
Lemma fresh_settled l (a : A) w : ops l = [] -> pool_live (buf_pool l) [] -> inflight w = ∅ -> loose w = 0%nat ->
  settled ∅ [] (mk_ls l ∅ ∅ 1 [] false a w : ls C A W).
Proof.
  intros Ho Hp Hi Hl. split; unfold alive, owned; simpl; rewrite ?Hi; try done.
  - intros p. set_solver.
  - exists []. split; [done|]. intros [k b]. simpl. split.
    + destruct k; [by intros ?%not_elem_of_nil|by intros [? ?]].
    + intros [?|(p & d & Hp' & _)]; set_solver.
Qed.

End fresh.

(** ** Timers *)

Section timers.
Context {C A W : Type} `{Uring W} `{Flight W} `{!UringLaws W}.
Context (run_cb : C -> Z -> Z -> option (list Z) -> Z -> M A Z) (running : A -> bool).
Notation LM := (M (ls C A W)).
Notation inv := (inv (∅ : gmap Z (io_pending_t C))).
Notation settled := (settled (∅ : gmap Z (io_pending_t C))).
Notation shown := (shown (∅ : gmap Z (io_pending_t C))).
Implicit Types (s : ls C A W) (d : io_pending_t C) (O : list (io_op_desc_t C)).

Definition armed (i : nat) s : Prop :=
  exists p d, p ∈ inflight (ring s) /\ heap s !! p = Some d /\ op_idx d = Z.of_nat i.

Lemma bare_arms O i t r : (forall w, (u_get_sqe w).1 = true) ->
  triple (settled O) (submit_bare i t r : LM Z) (fun _ s => settled O s /\ armed i s).
Proof.
  intros Hsqe s Hs. split; [by apply bare_settles|].
  unfold submit_bare, mbind at 1, M_bind at 1.
  assert (Hs1 := get_sqe_inv _ _ _ _ _ s Hs).
  assert (Hok : (on_ring (A:=A) (C:=C) u_get_sqe s).1 = true).
  { specialize (Hsqe (ring s)). unfold on_ring. by destruct (u_get_sqe (ring s)). }
  destruct (on_ring u_get_sqe s) as [ok s1]. simpl in *. subst ok. simpl.
  pose proof (malloc_pending_inv _ _ _ _ _ (mk_pending (Z.of_nat i) 0 false t None 0) s1 Hs1) as Hm.
  unfold mbind, M_bind. destruct (malloc_pending _ s1) as [p s2]. simpl in Hm.
  destruct Hm as (Hp & _ & Hs2). destruct (Z.eqb_spec p 0); [done|].
  assert (Hh : heap s2 !! p = Some (mk_pending (Z.of_nat i) 0 false t None 0)).
  { eapply lookup_weaken; [|apply (iv_local _ _ _ _ _ _ Hs2)]. apply lookup_insert_eq. }
  assert (Hnew : p ∉ inflight (ring s2)).
  { pose proof (iv_sep _ _ _ _ _ _ Hs2) as Hsep. rewrite dom_insert_L in Hsep. set_solver. }
  destruct (prep_law (mk_sqe r p) (ring s2) (iv_loose _ _ _ _ _ _ Hs2) Hnew) as [Hi _].
  unfold on_ring. destruct (u_prep _ (ring s2)) as [[] w]. simpl in *.
  unfold armed. simpl. rewrite Hi. exists p. eexists. split; [set_solver|]. by split; [exact Hh|].
Qed.

Lemma timeout_rearms O p d i o res :
  (forall w, (u_get_sqe w).1 = true) -> buffer_of d = ∅ -> -1 <= fd o ->
  (forall cb r a, callback o = Some cb ->
     (run_cb cb (fd o) r None 0 a).1 = 0 /\ (running a = true -> running (run_cb cb (fd o) r None 0 a).2 = true)) ->
  triple (fun s => inv O {[p := d]} (buffer_of d) 0 s /\ running (app s) = true)
    (timeout_done run_cb running p i o res : LM unit) (fun _ s => armed i s).
Proof.
  intros Hsqe Hb Hfd Hcb. unfold timeout_done. rewrite Hb.
  eapply (triple_bind _ (fun rc s => rc = 0 /\ inv O {[p := d]} ∅ 0 s /\ running (app s) = true)).
  { case_match; [|by intros s []]. unfold run_callback. destruct (callback o) as [cb|] eqn:Hc; [|by intros s []].
    intros s [Hs Hr]. pose proof (app_inv _ O {[p := d]} ∅ 0 (run_cb cb (fd o) res None 0) s Hs) as Hs'.
    destruct (Hcb cb res (app s) eq_refl) as [Hrc Hr2]. unfold on_app in *.
    destruct (run_cb cb (fd o) res None 0 (app s)) as [rc a]. simpl in *. auto. }
  intros rc. apply triple_pure. intros ->.
  eapply (triple_seq _ (fun s => settled O s /\ running (app s) = true)).
  { intros s [Hs Hr]. split; [by apply (free_object _ O p d ∅)|]. unfold free_pending.
    change ((get heap ≫= ?k) s) with (k (heap s) s). cbv beta. by destruct (heap s !! p). }
  intros _. unfold rearm.
  apply (triple_get_as _ (fun a => running a = true)); [by intros s []|]. intros a ->.
  rewrite (proj2 (Z.leb_le (-1) (fd o)) Hfd). simpl.
  eapply (triple_seq _ (fun s => settled O s /\ armed i s)).
  { eapply triple_pre; [by apply bare_arms|]. by intros s []. }
  intros _. eapply (triple_seq _ (fun s => armed i s)); [|intros _; apply keeps_ret].
  intros s [Hs (q & e & Hq & He & Hi)]. unfold on_ring, armed.
  destruct (submit_law (ring s) (iv_loose _ _ _ _ _ _ Hs)) as [Hif _].
  destruct (u_submit (ring s)) as [rc w]. simpl in *. rewrite Hif. by exists q, e.
Qed.

(** A timer whose callback reports success is in the ring after every completion that
    is processed, its own or another, as long as the ring has room, memory lasts and the
    loop's flag stays set: the heartbeats, which a timer sends, never stop. *)
Theorem timer_stays_armed O i o c s :
  (forall w, (u_get_sqe w).1 = true) ->
  O !! i = Some o -> op_type o = IO_OP_TIMEOUT -> -1 <= fd o ->
  (forall cb r a, callback o = Some cb ->
     (run_cb cb (fd o) r None 0 a).1 = 0 /\ (running a = true -> running (run_cb cb (fd o) r None 0 a).2 = true)) ->
  shown O c s -> running (app s) = true -> armed i s ->
  armed i (process_cqe run_cb running c s).2.
Proof.
  intros Hsqe Ho Ht Hfd Hcb Hs Hrun (p & d & Hp & Hd & Hidx).
  destruct (decide (c_data c = p)) as [Hcp|Hne].
  2: { set (F := {[p := d]} : gmap Z (io_pending_t C)).
    assert (HF : IoHeap.shown F O c s).
    { destruct Hs as ([] & ? & ?). split; [|done]. split; try done. subst F.
      split; [by apply map_singleton_subseteq_l|]. rewrite dom_singleton_L. set_solver. }
    assert (Hnf : c_data c ∉ dom F) by (subst F; set_solver).
    pose proof (process_settles F run_cb running O c Hnf s HF) as Hs'.
    destruct (iv_frame _ _ _ _ _ _ Hs') as [Hsub Hdom]. exists p, d. subst F.
    split; [set_solver|]. split; [|done]. by apply map_singleton_subseteq_l. }
  destruct Hs as (Hset & Hhead & _). rewrite Hcp in Hhead. unfold process_cqe. rewrite Hcp.
  assert (Hno : p ∉ dom (∅ : gmap Z (io_pending_t C))) by set_solver.
  pose proof (seen_inv _ O ∅ ∅ 0 p d Hno s (conj Hset (conj Hhead (conj Hp Hd)))) as Hseen.
  assert (Hpos : 0 < p).
  { apply (iv_fresh _ _ _ _ _ _ Hset). left. rewrite (iv_heap _ _ _ _ _ _ Hset). set_solver. }
  assert (Hrun1 : running (app (on_ring (A:=A) (C:=C) u_seen s).2) = true).
  { unfold on_ring. by destruct (u_seen (ring s)). }
  unfold mbind at 1, M_bind at 1. destruct (on_ring u_seen s) as [[] s1]. simpl in Hseen, Hrun1.
  destruct Hseen as (Hs1 & Hd1 & [_ Hfit]). rewrite union_empty_r_L, insert_empty in Hs1.
  destruct (Z.eqb_spec p 0); [lia|].
  change ((get heap ≫= ?k) s1) with (k (heap s1) s1). cbv beta. rewrite Hd1.
  assert (Hbuf : buffer_of d = ∅).
  { unfold buffer_of. destruct (Z.eqb_spec (buf d) 0); [done|]. exfalso.
    destruct (Hfit o) as [_ Hc]; try done; [lia|]. by rewrite Hidx, Nat2Z.id. }
  unfold finish. destruct (Z.eqb_spec (op_idx d) WAKEUP_OP_IDX); [unfold WAKEUP_OP_IDX in *; lia|].
  destruct (Z.eqb_spec (op_idx d) WRITE_OP_IDX); [unfold WRITE_OP_IDX in *; lia|].
  change ((get loop ≫= ?k) s1) with (k (loop s1) s1). cbv beta zeta.
  rewrite (iv_ops _ _ _ _ _ _ Hs1), Hidx, Nat2Z.id, Ho, Ht.
  unfold op_count. rewrite (iv_ops _ _ _ _ _ _ Hs1). apply lookup_lt_Some in Ho.
  rewrite (proj2 (Z.ltb_ge _ 0)), (proj2 (Z.leb_gt _ _)) by lia. simpl.
  by apply (timeout_rearms O p d).
Qed.

End timers.

(** ** The loop

    Here the ring's completions come in any order, so nothing is framed. *)
Section dispatching.
Context {C A W : Type} `{Uring W} `{Flight W} `{!UringLaws W}.
Context (run_cb : C -> Z -> Z -> option (list Z) -> Z -> M A Z) (running : A -> bool) (interrupt : W -> A -> A).
Notation LM := (M (ls C A W)).
Notation inv := (inv (∅ : gmap Z (io_pending_t C))).
Notation settled := (settled (∅ : gmap Z (io_pending_t C))).
Notation shown := (shown (∅ : gmap Z (io_pending_t C))).
Implicit Types (s : ls C A W) (d : io_pending_t C) (O : list (io_op_desc_t C)).

(** *** The dispatch loop *)

Lemma shows_settles O m : shows m ->
  triple (settled O) (on_ring m : LM (Z * option cqe))
    (fun r s => settled O s /\ forall c, r.2 = Some c -> shown O c s).
Proof.
  intros Hm s Hs. destruct (Hm (ring s)) as (Hi & Hl & Hc).
  assert (Hs' : settled O (on_ring m s).2).
  { apply (ring_same _ O ∅ ∅ 0 (fun _ => 0%nat) m); [|done]. intros w Hw. destruct (Hm w) as (? & ? & _).
    split; congruence. }
  split; [done|]. intros c Hc'. unfold on_ring in *. destruct (m (ring s)) as [[rc o] w]. simpl in *.
  destruct (Hc c Hc') as [Hin Hhead]. split; [done|]. simpl. by rewrite Hi.
Qed.

Lemma submit_all_settles O ds : forall i, (forall j o, ds !! j = Some o -> O !! (i + j)%nat = Some o) ->
  keeps (settled O) (submit_all i ds : LM unit).
Proof.
  induction ds as [|o ds IH]; intros i Hd; [apply keeps_ret|]. simpl.
  eapply triple_seq; [|intros _; apply IH; intros j o' He; rewrite Nat.add_succ_l, <- Nat.add_succ_r; by apply Hd].
  destruct (op_type o) eqn:Ht; try apply keeps_ret; try apply timeout_settles; case_match;
    try apply keeps_ret; [|apply poll_settles].
  apply read_settles; [|done]. rewrite <- (Nat.add_0_r i). by apply Hd.
Qed.

Lemma drain_settles O fuel : keeps (settled O) (drain run_cb running fuel : LM bool).
Proof.
  induction fuel as [|fuel IH]; [apply keeps_ret|]. simpl.
  apply triple_get. intros a. eapply triple_pre; [|by intros s [Hs _]; exact Hs].
  destruct (negb _); [apply keeps_ret|].
  eapply triple_bind; [apply shows_settles, peek_law|]. intros [rc [c|]].
  - destruct (rc <? 0); [by intros s [Hs _]|].
    eapply triple_seq; [|intros _; exact IH].
    eapply triple_pre; [by apply process_settles|]. simpl. intros s [_ Hs]. by apply Hs.
  - by intros s [Hs _].
Qed.

Lemma dispatch_settles O fuel : keeps (settled O) (dispatch run_cb running interrupt fuel : LM (option Z)).
Proof.
  induction fuel as [|fuel IH]; [apply keeps_ret|]. simpl.
  apply triple_get. intros a. eapply triple_pre; [|by intros s [Hs _]; exact Hs].
  destruct (negb _); [apply keeps_ret|].
  eapply triple_bind; [apply shows_settles, wait_law|]. intros [rc o].
  apply triple_get. intros w. eapply triple_pre; [|by intros s [Hs _]; exact Hs].
  eapply (triple_seq _ (fun s => settled O s /\ forall c, o = Some c -> shown O c s)).
  { intros s [Hs Hc]. split; [by apply app_inv|]. intros c Ho. destruct (Hc c Ho) as (_ & Hh & Hi).
    split; [by apply app_inv|done]. }
  intros _. simpl. destruct (rc <? 0).
  { destruct (rc =? - EINTR); [|by intros s [Hs _]]. eapply triple_pre; [exact IH|by intros s []]. }
  eapply triple_seq.
  { destruct o as [c|]; [|by intros s [Hs _]; exact Hs].
    eapply triple_pre; [by apply process_settles|]. intros s [_ Hs]. by apply Hs. }
  intros _. eapply triple_seq; [apply drain_settles|]. intros []; [exact IH|apply keeps_ret].
Qed.

Lemma run_settles O fuel : keeps (settled O) (io_loop_run run_cb running interrupt fuel : LM (option Z)).
Proof.
  unfold io_loop_run. apply (triple_get_as _ (fun l => ops l = O)); [apply iv_ops|]. intros l ->.
  eapply triple_seq; [by apply submit_all_settles|]. intros _.
  eapply triple_seq; [apply wakeup_settles|]. intros _.
  eapply triple_seq; [apply submit_inv|]. intros rc. case_match; [apply keeps_ret|apply dispatch_settles].
Qed.

(** *** The table *)

Lemma settled_ops O O' s : settled O s ->
  (forall p d, heap s !! p = Some d -> fits O d -> fits O' d) ->
  settled O' (set_loop (with_ops O' (loop s)) s).2.
Proof. intros [] Hf. split; try done. intros p d Hp Hd. simpl in *. eauto. Qed.

Lemma fits_same O i o o' d : O !! i = Some o -> op_type o' = op_type o -> fits O d -> fits (<[i := o']> O) d.
Proof.
  intros Ho Ht [Hw Hf]. split; [done|]. intros x Hnz Hpos. rewrite list_lookup_insert.
  case_decide as Hd; [|by apply Hf]. intros [= <-]. rewrite Ht. destruct Hd as [-> _]. by apply Hf.
Qed.

(** What a client may do with a loop; the loop's flag and the callbacks decide how long
    [Run] runs. *)
Inductive io_call :=
| Register (d : io_op_desc_t C)
| Unregister (f : Z)
| Clear
| Run (fuel : nat)
| Write (f : Z) (bytes : list Z) (cb : option C)
| Wakeup
| Own (f : A -> A).   (** the client changes its own state *)

Definition io_step (c : io_call) : LM unit :=
  match c with
  | Register d => _ ← io_loop_register_op (Some d); mret tt
  | Unregister f => _ ← io_loop_unregister_fd f; mret tt
  | Clear => io_loop_clear_ops
  | Run fuel => _ ← io_loop_run run_cb running interrupt fuel; mret tt
  | Write f bytes cb => _ ← io_loop_submit_write f (Some bytes) cb; mret tt
  | Wakeup => _ ← io_loop_wakeup; mret tt
  | Own f => on_app (fun a => (tt, f a))
  end.
Fixpoint io_calls (cs : list io_call) : LM unit :=
  match cs with [] => mret tt | c :: cs => _ ← io_step c; io_calls cs end.

(** A request with a buffer that outlived its entry of the table. *)
Definition outlived s (d : io_pending_t C) : bool := negb (buf d =? 0) && (op_count (loop s) <=? op_idx d).
Definition without_buffer (t : io_op_type_t) : bool := bool_decide (t = IO_OP_POLL \/ t = IO_OP_TIMEOUT).

(** The one restriction: no poll or timer is registered while a read that was cleared
    from the table is still in the ring. *)
Definition allowed (c : io_call) s : bool :=
  match c with
  | Register d => negb (without_buffer (op_type d)) || forallb (fun p => negb (outlived s p.2)) (map_to_list (heap s))
  | _ => true
  end.
Fixpoint all_allowed (cs : list io_call) s : bool :=
  match cs with [] => true | c :: cs => allowed c s && all_allowed cs (io_step c s).2 end.

Lemma register_settles (d : io_op_desc_t C) O s : settled O s -> allowed (Register d) s = true ->
  exists O', settled O' (io_loop_register_op (Some d) s).2.
Proof.
  intros Hs Ha. unfold io_loop_register_op. change ((get loop ≫= ?k) s) with (k (loop s) s). cbv beta.
  rewrite (iv_ops _ _ _ _ _ _ Hs). destruct (list_find _ O) as [[i o]|] eqn:Hfind.
  - apply list_find_Some in Hfind as (Hi & Hr & _).
    apply andb_true_iff in Hr as [_ Hr%bool_decide_eq_true].
    exists (<[i := d]> O). apply settled_ops with O; [done|]. intros p e _. by eapply fits_same.
  - destruct (MAX_OPS <=? _); [by exists O|]. exists (O ++ [d]). apply settled_ops with O; [done|].
    intros p e He [Hw Hf]. split; [done|]. intros o Hnz Hpos Ho.
    apply lookup_app_Some in Ho as [Ho|[Hge Ho]]; [by eapply Hf|].
    apply list_lookup_singleton_Some in Ho as [Heq <-].
    unfold allowed in Ha. apply orb_true_iff in Ha as [Ha|Ha].
    + unfold without_buffer in Ha. rewrite negb_true_iff, bool_decide_eq_false in Ha. naive_solver.
    + rewrite forallb_forall in Ha. specialize (Ha (p, e)). rewrite <- list_elem_of_In, elem_of_map_to_list in Ha.
      specialize (Ha He). unfold outlived, op_count in Ha. simpl in Ha.
      rewrite (iv_ops _ _ _ _ _ _ Hs) in Ha. destruct (Z.eqb_spec (buf e) 0); [done|]. simpl in Ha.
      apply negb_true_iff, Z.leb_gt in Ha. lia.
Qed.

Lemma unregister_settles f O s : settled O s -> exists O', settled O' (io_loop_unregister_fd f s).2.
Proof.
  intros Hs. unfold io_loop_unregister_fd. destruct (f <? 0); [by exists O|].
  change ((get loop ≫= ?k) s) with (k (loop s) s). cbv beta.
  rewrite (iv_ops _ _ _ _ _ _ Hs). destruct (list_find _ O) as [[i o]|] eqn:Hfind; [|by exists O].
  apply list_find_Some in Hfind as (Hi & _ & _).
  eexists. apply settled_ops with O; [done|]. intros p e _. by eapply fits_same.
Qed.

Lemma write_op_settles O f bytes cb : (forall w, 0 <= (u_submit w).1) ->
  keeps (settled O) (io_loop_submit_write f (Some bytes) cb : LM Z).
Proof.
  intros Hsub. unfold io_loop_submit_write. case_match; [apply keeps_ret|].
  eapply triple_bind; [apply get_sqe_inv|]. intros [].
  2: { by intros s Hs. }
  simpl. eapply triple_bind; [apply malloc_pending_inv|]. intros p.
  apply triple_pure. intros Hp. apply triple_pure. intros _.
  destruct (Z.eqb_spec p 0); [done|].
  eapply triple_bind; [apply malloc_inv|]. intros b.
  apply triple_pure. intros Hb. apply triple_pure. intros _.
  eapply triple_seq; [eapply put_pending_inv, lookup_insert_eq|]. intros _.
  destruct (Z.eqb_spec b 0); [done|]. rewrite insert_insert_eq.
  eapply triple_seq.
  { apply prep_settles; [|by split]. unfold buffer_of. simpl. destruct (Z.eqb_spec b 0); [done|]. set_solver. }
  intros _. eapply (triple_bind _ (fun rc s => 0 <= rc /\ settled O s)).
  { intros s Hs. split; [|by apply submit_inv]. unfold on_ring. specialize (Hsub (ring s)).
    by destruct (u_submit (ring s)). }
  intros rc. apply triple_pure. intros Hrc. destruct (Z.ltb_spec rc 0); [lia|]. apply keeps_ret.
Qed.

Lemma wakeup_op_settles O : keeps (settled O) (io_loop_wakeup : LM Z).
Proof.
  unfold io_loop_wakeup. apply triple_get. intros l. eapply triple_pre; [|by intros s [Hs _]; exact Hs].
  eapply triple_seq; [|intros ok; apply keeps_ret].
  apply (ring_same _ _ _ _ _ (fun _ => 0%nat)). intros w Hw.
  destruct (efd_write_law (wakeup_fd l) w) as [? ?]. split; congruence.
Qed.

Lemma step_settles O c s : (forall w, 0 <= (u_submit w).1) -> settled O s -> allowed c s = true ->
  exists O', settled O' (io_step c s).2.
Proof.
  intros Hsub Hs Ha. assert (Hd : forall Y (m : LM Y) O', settled O' (m s).2 ->
    exists O', settled O' ((_ ← m; mret tt : LM unit) s).2).
  { intros Y m O' Hm. exists O'. unfold mbind, M_bind. by destruct (m s). }
  destruct c as [d|f| |fuel|f bytes cb| |f].
  - destruct (register_settles d O s Hs Ha) as [O' ?]. by apply (Hd _ _ O').
  - destruct (unregister_settles f O s Hs) as [O' ?]. by apply (Hd _ _ O').
  - exists []. apply settled_ops with O; [done|]. intros p d _ [Hw _]. split; [done|].
    intros o _ _ Ho. by rewrite lookup_nil in Ho.
  - apply (Hd _ _ O). by apply run_settles.
  - apply (Hd _ _ O). by apply write_op_settles.
  - apply (Hd _ _ O). by apply wakeup_op_settles.
  - exists O. by apply app_inv.
Qed.

Lemma calls_settle cs : (forall w, 0 <= (u_submit w).1) -> forall O s,
  settled O s -> all_allowed cs s = true -> exists O', settled O' (io_calls cs s).2.
Proof.
  intros Hsub. induction cs as [|c cs IH]; intros O s Hs Ha; [by exists O|].
  simpl in Ha. apply andb_prop in Ha as [Hc Ha]. simpl. unfold mbind, M_bind.
  destruct (step_settles O c s Hsub Hs Hc) as [O' Hs']. destruct (io_step c s) as [[] s']. by eapply IH.
Qed.

Lemma owned_once O s blocks : settled O s ->
  (forall b, alive s blocks b <-> b ∈ (∅ : gset (bool * Z)) \/ owned s b) ->
  forall b, alive s blocks b <-> exists! p, exists d, heap s !! p = Some d /\ b ∈ buffer_of d.
Proof.
  intros Hs Ha b. rewrite Ha.
  assert (Hin : forall p d, heap s !! p = Some d -> p ∈ inflight (ring s)).
  { intros p d Hp. apply elem_of_dom_2 in Hp. rewrite (iv_heap _ _ _ _ _ _ Hs) in Hp. set_solver. }
  split.
  - intros [?|(p & d & Hp & Hd & Hb)]; [set_solver|]. exists p. split; [by exists d|].
    intros q (e & He & Hbe). eapply (iv_once _ _ _ _ _ _ Hs); eauto.
  - intros (p & (d & Hd & Hb) & _). right. exists p, d. eauto.
Qed.

(** C17: Whatever a client registers, clears, writes and runs, and in whatever order and
    with whatever results the ring completes the requests, if every submission succeeds, every
    allocation succeeds, and no poll or timer is registered while a read that was cleared from
    the table is still in the ring ([refused_write_dangles] and [failed_malloc_resubmits] are
    what happens otherwise): no completion finds a freed object and nothing is freed twice; the
    live objects are exactly those of the requests in flight; and every live buffer, from
    [malloc] or from the pool, belongs to exactly one of them. *)
Theorem pendings_safe cs l (a : A) w :
  (forall w, 0 <= (u_submit w).1) ->
  ops l = [] -> pool_live (buf_pool l) [] -> inflight w = ∅ -> loose w = 0%nat ->
  all_allowed cs (mk_ls l ∅ ∅ 1 [] false a w) = true ->
  let s := (io_calls cs (mk_ls l ∅ ∅ 1 [] false a w)).2 in
  bad s = false /\ dom (heap s) = inflight (ring s) /\
  exists blocks, pool_live (buf_pool (loop s)) blocks /\
    forall b, alive s blocks b <-> exists! p, exists d, heap s !! p = Some d /\ b ∈ buffer_of d.
Proof.
  intros Hsub Ho Hp Hi Hl Hall s.
  destruct (calls_settle cs Hsub [] _ (fresh_settled l a w Ho Hp Hi Hl) Hall) as [O Hs]. fold s in Hs.
  split; [apply Hs|]. split; [rewrite (iv_heap _ _ _ _ _ _ Hs); set_solver|].
  destruct (iv_alive _ _ _ _ _ _ Hs) as (bl & Hpl & Ha). exists bl. split; [done|].
  by eapply owned_once.
Qed.

(** *** How the loop ends *)

Section ending.
Hypothesis cb_runs : forall cb f r b n a, running a = true -> running (run_cb cb f r b n a).2 = true.
Hypothesis handlers_run : forall w a, running a = true -> running (interrupt w a) = true.
Definition goes_on s : Prop := running (app s) = true.


Lemma goes_on_get {X Y} (f : ls C A W -> X) (k : X -> LM Y) :
  (forall x, keeps goes_on (k x)) -> keeps goes_on (get f ≫= k).
Proof. intros Hk. apply keeps_bind; [|done]. by intros s Hs. Qed.

Lemma goes_on_ring {Y} (m : M W Y) : keeps goes_on (on_ring m).
Proof. intros s Hs. unfold on_ring. by destruct (m (ring s)). Qed.

Lemma goes_on_fresh : keeps goes_on (fresh_block : LM Z).
Proof. intros s Hs. unfold fresh_block. by destruct (match mallocs s with b :: _ => b | [] => true end). Qed.

Lemma goes_on_callback cb f r b n : keeps goes_on (run_callback run_cb cb f r b n : LM Z).
Proof.
  intros s Hs. unfold run_callback. destruct cb as [c|]; [|done]. unfold on_app, goes_on in *.
  pose proof (cb_runs c f r b n (app s) Hs). by destruct (run_cb c f r b n (app s)).
Qed.

Ltac goes_on :=
  repeat first
    [ apply goes_on_ring | apply goes_on_fresh | apply goes_on_callback | apply keeps_ret
    | apply goes_on_get; intro | apply keeps_bind; [|intro] | assumption
    | progress cbv zeta
    | match goal with
      | |- keeps _ (if ?b then _ else _) => destruct b
      | |- keeps _ (match ?b with _ => _ end) => destruct b
      | |- keeps _ (set_loop _) => by intros ? ?
      | |- keeps _ (set_heap _) => by intros ? ?
      | |- keeps _ (set_bufs _) => by intros ? ?
      | |- keeps _ go_bad => by intros ? ?
      end ].

Lemma malloc_goes_on c : keeps goes_on (malloc c : LM Z).
Proof. unfold malloc. goes_on. Qed.
Lemma malloc_pending_goes_on d : keeps goes_on (malloc_pending d : LM Z).
Proof. unfold malloc_pending, put_pending. goes_on. Qed.
Lemma free_goes_on b : keeps goes_on (free b : LM unit).
Proof. unfold free. goes_on. Qed.
Lemma free_pending_goes_on p : keeps goes_on (free_pending p : LM unit).
Proof. unfold free_pending. goes_on. Qed.
Lemma put_pending_goes_on p d : keeps goes_on (put_pending p d : LM unit).
Proof. unfold put_pending. goes_on. Qed.
Lemma free_buf_goes_on b k : keeps goes_on (free_buf b k : LM unit).
Proof. unfold free_buf. pose proof (free_goes_on b). goes_on. Qed.
Lemma alloc_buf_goes_on n : keeps goes_on (alloc_buf n : LM (Z * bool)).
Proof. unfold alloc_buf. pose proof (malloc_goes_on []). goes_on. Qed.

Ltac goes_on_all :=
  repeat first
    [ apply malloc_goes_on | apply malloc_pending_goes_on | apply free_goes_on | apply free_pending_goes_on
    | apply put_pending_goes_on | apply free_buf_goes_on | apply alloc_buf_goes_on | progress goes_on ].

Lemma wakeup_goes_on : keeps goes_on (submit_wakeup_read : LM Z).
Proof. unfold submit_wakeup_read. goes_on_all. Qed.
Lemma bare_goes_on i t r : keeps goes_on (submit_bare i t r : LM Z).
Proof. unfold submit_bare. goes_on_all. Qed.
Lemma read_goes_on i o : keeps goes_on (submit_read_op i o : LM Z).
Proof. unfold submit_read_op. goes_on_all. Qed.
Lemma poll_goes_on i o : keeps goes_on (submit_poll_op i o : LM Z).
Proof. unfold submit_poll_op. case_match; [apply keeps_ret|apply bare_goes_on]. Qed.
Lemma timeout_goes_on i o : keeps goes_on (submit_timeout_op i o : LM Z).
Proof. apply bare_goes_on. Qed.
Lemma rearm_goes_on again m : keeps goes_on m -> keeps goes_on (rearm running again m : LM unit).
Proof. intros Hm. unfold rearm. goes_on. Qed.

Lemma process_goes_on c : keeps goes_on (process_cqe run_cb running c : LM unit).
Proof.
  unfold process_cqe, finish, write_done, timeout_done, read_done, poll_done.
  repeat first [ apply rearm_goes_on | apply wakeup_goes_on | apply read_goes_on | apply poll_goes_on
    | apply timeout_goes_on | apply free_goes_on | apply free_pending_goes_on | apply free_buf_goes_on
    | progress goes_on ].
Qed.

Lemma submit_all_goes_on ds : forall i, keeps goes_on (submit_all i ds : LM unit).
Proof.
  induction ds as [|o ds IH]; intros i; [apply keeps_ret|]. simpl. apply keeps_bind; [|intros _; apply IH].
  destruct (op_type o); try apply keeps_ret; [|apply timeout_goes_on|]; case_match;
    try apply keeps_ret; [apply read_goes_on|apply poll_goes_on].
Qed.

Lemma drain_goes_on fuel : keeps goes_on (drain run_cb running fuel : LM bool).
Proof.
  induction fuel as [|fuel IH]; [apply keeps_ret|]. simpl. apply goes_on_get. intros a.
  case_match; [apply keeps_ret|]. apply keeps_bind; [apply goes_on_ring|]. intros [rc [c|]]; [|apply keeps_ret].
  case_match; [apply keeps_ret|]. apply keeps_bind; [apply process_goes_on|]. by intros _.
Qed.

Lemma dispatch_never_ends fuel :
  (forall w, (u_wait w).1.1 = - EINTR \/ 0 <= (u_wait w).1.1) ->
  triple goes_on (dispatch run_cb running interrupt fuel : LM (option Z)) (fun r _ => r = None).
Proof.
  intros Hwait. induction fuel as [|fuel IH]; [by intros s Hs|]. simpl.
  apply (triple_get_as _ (fun a => running a = true)); [by intros s Hs|]. intros a ->. simpl.
  eapply (triple_bind _ (fun r s => (r.1 = - EINTR \/ 0 <= r.1) /\ goes_on s)).
  { intros s Hs. split; [|by apply goes_on_ring]. specialize (Hwait (ring s)). unfold on_ring.
    by destruct (u_wait (ring s)). }
  intros [rc o]. apply triple_pure. simpl. intros Hrc. apply triple_get. intros w.
  eapply triple_pre; [|by intros s [Hs _]; exact Hs].
  eapply (triple_seq _ goes_on); [intros s Hs; unfold goes_on; simpl; by apply handlers_run|]. intros _. simpl.
  destruct (Z.ltb_spec rc 0).
  { destruct Hrc as [->|]; [|lia]. rewrite Z.eqb_refl. exact IH. }
  eapply (triple_seq _ goes_on); [destruct o; [apply process_goes_on|apply keeps_ret]|]. intros _.
  eapply (triple_seq _ goes_on); [apply drain_goes_on|]. intros []; [exact IH|by intros s _].
Qed.

(** The loop is left only when a callback or a signal handler clears its flag, or when the
    ring fails: as long as neither happens it runs for ever. *)
Lemma loop_never_ends fuel s :
  (forall w, 0 <= (u_submit w).1) -> (forall w, (u_wait w).1.1 = - EINTR \/ 0 <= (u_wait w).1.1) ->
  running (app s) = true -> (io_loop_run run_cb running interrupt fuel s).1 = None.
Proof.
  intros Hsub Hwait Hrun.
  cut (triple goes_on (io_loop_run run_cb running interrupt fuel : LM (option Z)) (fun r _ => r = None)).
  { intros Hall. by apply Hall. }
  unfold io_loop_run. apply triple_get. intros l. eapply triple_pre; [|by intros s' [Hs _]; exact Hs].
  eapply (triple_seq _ goes_on); [apply submit_all_goes_on|]. intros _.
  eapply (triple_seq _ goes_on); [apply wakeup_goes_on|]. intros _.
  eapply (triple_bind _ (fun rc s => 0 <= rc /\ goes_on s)).
  { intros s' Hs. split; [|by apply goes_on_ring]. specialize (Hsub (ring s')). unfold on_ring.
    by destruct (u_submit (ring s')). }
  intros rc. apply triple_pure. intros Hrc. destruct (Z.ltb_spec rc 0); [lia|]. by apply dispatch_never_ends.
Qed.
End ending.
End dispatching.

(** ** A ring to run the loop on

    Requests complete in the order they were submitted, at once, but for reads of the
    eventfd (descriptor 9), which wait for a write.  An entry that was handed out and not
    prepared still holds what the slot held before.  [busy]: the kernel refuses as many
    submissions as [refusals] says. *)
Record toy_ring := mk_ring {
  slots : list sqe; sq_tail : nat; sq : list (bool * sqe); kernel : list sqe; cq : list cqe;
  efd : bool; refusals : nat
}.

Definition no_request : sqe := mk_sqe (ReqPoll (-1)) 0.
Definition ready (w : toy_ring) (q : sqe) : bool :=
  match q_request q with ReqRead f _ _ => negb (f =? 9) || efd w | _ => true end.
Definition completion (q : sqe) : cqe :=
  match q_request q with
  | ReqRead f _ len => if f =? 9 then mk_cqe (q_data q) 8 [] else mk_cqe (q_data q) 1 [7]
  | ReqPoll _ => mk_cqe (q_data q) 1 []
  | ReqTimeout _ _ => mk_cqe (q_data q) (- ETIME) []
  | ReqWrite _ b => mk_cqe (q_data q) (Z.of_nat (length b)) []
  end.
Fixpoint pick (f : sqe -> bool) (l : list sqe) : option (sqe * list sqe) :=
  match l with
  | [] => None
  | q :: l => if f q then Some (q, l) else match pick f l with Some (x, r) => Some (x, q :: r) | None => None end
  end.
Fixpoint fill (q : sqe) (l : list (bool * sqe)) : list (bool * sqe) :=
  match l with
  | [] => []
  | (false, _) :: l => (true, q) :: l
  | e :: l => e :: fill q l
  end.
Definition other (d : Z) (x : Z) : bool := negb (x =? d).

Definition toy_uring (busy : bool) : Uring toy_ring := {|
  u_init _ _ w := (0, w);
  u_exit w := (tt, w);
  u_get_sqe w := (true, mk_ring (slots w) (S (sq_tail w))
    (sq w ++ [(false, nth (sq_tail w mod 8) (slots w) no_request)]) (kernel w) (cq w) (efd w) (refusals w));
  u_prep q w := (tt, mk_ring (<[(pred (sq_tail w) mod 8)%nat := q]> (slots w)) (sq_tail w) (fill q (sq w)) (kernel w)
    (cq w) (efd w) (refusals w));
  u_submit w := match busy, refusals w with
    | true, S n => (-16, mk_ring (slots w) (sq_tail w) (sq w) (kernel w) (cq w) (efd w) n)
    | _, n => (Z.of_nat (length (sq w)),
        mk_ring (slots w) (sq_tail w) [] (kernel w ++ (snd <$> sq w)) (cq w) (efd w) n)
    end;
  u_wait w := match cq w with
    | c :: _ => ((0, Some c), w)
    | [] => match pick (ready w) (kernel w) with
        | Some (q, l) => ((0, Some (completion q)),
            mk_ring (slots w) (sq_tail w) (sq w) l [completion q] (efd w) (refusals w))
        | None => ((- EINTR, None), w)
        end
    end;
  u_peek w := match cq w with c :: _ => ((0, Some c), w) | [] => ((-11, None), w) end;
  u_seen w := match cq w with
    | c :: l => (tt, mk_ring (slots w) (sq_tail w)
        (List.filter (fun e : bool * sqe => negb e.1 || other (c_data c) (q_data e.2)) (sq w))
        (List.filter (fun q => other (c_data c) (q_data q)) (kernel w))
        (List.filter (fun x => other (c_data c) (c_data x)) l) (efd w) (refusals w))
    | [] => (tt, w)
    end;
  eventfd w := (9, w);
  eventfd_write f w := (true, mk_ring (slots w) (sq_tail w) (sq w) (kernel w) (cq w) (efd w || (f =? 9)) (refusals w));
  close_fd _ w := (tt, w)
|}.

Definition prepared (l : list (bool * sqe)) : list Z := (fun e => q_data e.2) <$> List.filter fst l.
#[export] Instance toy_flight : Flight toy_ring := {
  inflight w := list_to_set (prepared (sq w) ++ (q_data <$> kernel w) ++ (c_data <$> cq w));
  at_head w := c_data <$> head (cq w);
  loose w := length (List.filter (fun e : bool * sqe => negb e.1) (sq w))
}.

Lemma pick_some f l q r : pick f l = Some (q, r) -> l ≡ₚ q :: r.
Proof.
  revert r. induction l as [|x l IH]; intros r; [done|]. simpl. destruct (f x); [by intros [= -> ->]|].
  destruct (pick f l) as [[y r']|] eqn:Hp; [|done]. intros [= -> <-]. rewrite (IH _ eq_refl). by constructor.
Qed.

Lemma completion_data q : c_data (completion q) = q_data q.
Proof. unfold completion. repeat case_match; done. Qed.

Lemma fill_one q l : length (List.filter (fun e : bool * sqe => negb e.1) l) = 1%nat ->
  prepared (fill q l) ≡ₚ q_data q :: prepared l /\
  length (List.filter (fun e : bool * sqe => negb e.1) (fill q l)) = 0%nat.
Proof.
  unfold prepared. induction l as [|[[] x] l IH]; simpl; [done| |].
  - intros Hl. destruct (IH Hl) as [Hp Hn]. split; [|done]. rewrite Hp. apply perm_swap.
  - intros [= Hl]. split; [done|done].
Qed.

Lemma other_data {X} (f : X -> Z) d l x :
  x ∈ f <$> List.filter (fun y => other d (f y)) l <-> x ∈ f <$> l /\ x <> d.
Proof.
  induction l as [|y l IH]; simpl; [set_solver|]. unfold other in *.
  destruct (Z.eqb_spec (f y) d) as [<-|]; simpl; rewrite ?elem_of_cons, IH; naive_solver.
Qed.

Lemma other_prepared d l x :
  x ∈ prepared (List.filter (fun e : bool * sqe => negb e.1 || other d (q_data e.2)) l) <-> x ∈ prepared l /\ x <> d.
Proof.
  unfold prepared. induction l as [|[[] y] l IH]; simpl; [set_solver| |exact IH]. unfold other in *.
  destruct (Z.eqb_spec (q_data y) d) as [<-|]; simpl; rewrite ?elem_of_cons, IH; naive_solver.
Qed.

Lemma other_loose d l :
  length (List.filter (fun e : bool * sqe => negb e.1)
    (List.filter (fun e : bool * sqe => negb e.1 || other d (q_data e.2)) l)) =
  length (List.filter (fun e : bool * sqe => negb e.1) l).
Proof.
  induction l as [|[[] y] l IH]; simpl; [done| |by rewrite IH]. by destruct (other d (q_data y)).
Qed.

#[export] Instance toy_ring_laws busy : @UringLaws toy_ring (toy_uring busy) toy_flight.
Proof.
  split.
  - intros w. simpl. unfold prepared. rewrite !List.filter_app. simpl. rewrite app_nil_r, length_app. simpl.
    split; [done|lia].
  - intros q w Hl _. simpl in *. destruct (fill_one q (sq w) Hl) as [Hp Hn]. split; [|done].
    rewrite Hp. simpl. done.
  - intros w Hl. simpl in *. assert (Hall : prepared (sq w) = q_data <$> (snd <$> sq w)).
    { unfold prepared. clear -Hl. revert Hl. induction (sq w) as [|[[] x] l IH]; simpl; [done| |done].
      intros Hl. f_equal. by apply IH. }
    destruct busy; [destruct (refusals w)|]; simpl; (split; [|done]); try done;
      rewrite Hall, fmap_app; apply set_eq; intros x; rewrite !elem_of_list_to_set, !elem_of_app; naive_solver.
  - intros w. simpl. destruct (cq w) as [|c l] eqn:Hc.
    + destruct (pick _ _) as [[q r]|] eqn:Hp; simpl; rewrite ?Hc; [|done].
      apply pick_some in Hp. split; [|split; [done|]].
      * rewrite Hp. simpl. rewrite completion_data. apply set_eq. intros x.
        rewrite !elem_of_list_to_set, !elem_of_app, !elem_of_cons. simpl.
        rewrite elem_of_nil, app_nil_r. change (list_fmap sqe Z q_data r) with (q_data <$> r). tauto.
      * intros c [= <-]. rewrite completion_data. split; [|done]. rewrite Hp.
        rewrite elem_of_list_to_set, !elem_of_app. right. left. by left.
    + simpl. rewrite Hc. split; [done|]. split; [done|]. intros c' [= <-]. split; [|by simpl; rewrite ?Hc].
      rewrite elem_of_list_to_set, !elem_of_app. right. right. by left.
  - intros w. simpl. destruct (cq w) as [|c l] eqn:Hc; simpl; rewrite Hc; [done|].
    split; [done|]. split; [done|]. intros c' [= <-]. split; [|by simpl; rewrite ?Hc].
    rewrite elem_of_list_to_set, !elem_of_app. right. right. by left.
  - intros d w. simpl. destruct (cq w) as [|c l]; simpl; [done|]. intros [= <-].
    split; [|apply other_loose].
    apply set_eq. intros x. rewrite elem_of_difference, !elem_of_list_to_set, !elem_of_app, elem_of_singleton.
    rewrite other_prepared, !other_data, elem_of_cons. naive_solver.
  - done.
Qed.

(** *** Runs *)

(** A client whose flag is a number of callbacks that may still run, and that notes the
    descriptors its callbacks are given. *)
Definition note (_ : unit) (f r : Z) (b : option (list Z)) (n : Z) : M (nat * list Z) Z :=
  fun a => (0, (pred a.1, a.2 ++ [f])).
Definition more (a : nat * list Z) : bool := (0 <? a.1)%nat.
Definition no_signals (_ : toy_ring) (a : nat * list Z) : nat * list Z := a.
Definition ring0 (n : nat) : toy_ring := mk_ring (replicate 8 no_request) 0 [] [] [] false n.
Definition loop0 : io_uring_loop unit := mk_loop [] 9 (Some pool0) "toy".
Definition timer : io_op_desc_t unit := mk_op (-1) IO_OP_TIMEOUT 0 (Some tt) 1000.
Definition start (mem : list bool) (n : nat) : ls unit (nat * list Z) toy_ring :=
  mk_ls loop0 ∅ ∅ 1 mem false (3%nat, []) (ring0 n).

Definition client : list (@io_call unit (nat * list Z)) :=
  [Register timer; Register (mk_op 5 IO_OP_READ 8 (Some tt) 0); Run 10; Unregister 5;
   Own (fun a => (2%nat, a.2)); Write 6 [1; 2] None; Wakeup; Run 10; Clear].

Lemma pendings_safe_witness :
  let s := (@io_calls _ _ _ (toy_uring false) note more no_signals client (start [] 0)).2 in
  (app s).2 = [-1; 5; -1; -1; -1] /\ bad s = false /\ dom (heap s) = inflight (ring s).
Proof.
  split; [vm_compute; reflexivity|].
  destruct (@pendings_safe _ _ _ (toy_uring false) _ (toy_ring_laws false) note more no_signals client loop0
    (3%nat, []) (ring0 0)) as (Hb & Hd & _); try reflexivity.
  - intros w. simpl. lia.
  - apply live_empty; apply pool0_inv.
  - exact (conj Hb Hd).
Defined.

Definition always (_ : nat * list Z) : bool := true.
(** The client's loop when the first completion is shown. *)
Definition shown_timer : ls unit (nat * list Z) toy_ring :=
  (@on_ring _ _ _ _ (@u_wait _ (toy_uring false))
    (@io_calls _ _ _ (toy_uring false) note always no_signals [Register timer; Run 0] (start [] 0)).2).2.

Lemma timer_stays_armed_witness :
  let s := (@process_cqe _ _ _ (toy_uring false) note always (mk_cqe 1 (- ETIME) []) shown_timer).2 in
  (app s).2 = [-1] /\ armed 0 s.
Proof.
  split; [vm_compute; reflexivity|].
  apply (@timer_stays_armed _ _ _ (toy_uring false) _ (toy_ring_laws false) note always [timer] 0 timer);
    try reflexivity; simpl; try lia.
  - intros cb r a _. done.
  - split; [|split; [reflexivity|]].
    + destruct (@calls_settle _ _ _ (toy_uring false) _ (toy_ring_laws false) note always no_signals
        [Register timer; Run 0] ltac:(intros w; simpl; lia) [] (start [] 0)
        (@fresh_settled unit (nat * list Z) toy_ring toy_flight loop0 (3%nat, []) (ring0 0) eq_refl
           (live_empty _ (proj1 pool0_inv) (proj2 pool0_inv)) ltac:(reflexivity) eq_refl) ltac:(vm_compute; reflexivity)) as [O Hs].
      assert (HO : O = [timer]) by (rewrite <- (iv_ops _ _ _ _ _ _ Hs); reflexivity).
      rewrite <- HO.
      assert (Hw := @wait_law _ (toy_uring false) _ (toy_ring_laws false)). unfold shown_timer.
      exact (proj1 (shows_settles O _ Hw _ Hs)).
    + vm_compute. set_solver.
  - exists 1, (mk_pending 0 0 false (1, 0) None 0). split; [vm_compute; set_solver|]. by vm_compute.
Defined.

(** ** What the restrictions are for *)

(** A write whose submission the kernel refuses is freed, but its entry stays in the queue:
    the next submission sends it, and its completion finds a freed object. *)
Lemma refused_write_dangles :
  let s := @start [] 1 in
  let s1 := @io_loop_submit_write _ (nat * list Z) _ (toy_uring true) 6 (Some [1; 2]) None s in
  let s2 := (@io_calls _ _ _ (toy_uring true) note more no_signals [Run 3] s1.2).2 in
  s1.1 = -16 /\ heap s1.2 = ∅ /\ bad s1.2 = false /\ bad s2 = true.
Proof. vm_compute. repeat split. Qed.

(** The entry of the queue is taken before the object is allocated: when that fails, the
    entry is submitted with what the slot held eight requests ago, here the timer's first
    object, which was freed long since. *)
Lemma failed_malloc_resubmits :
  let mem := replicate 9 true ++ [false] in
  bad (@io_calls _ _ _ (toy_uring false) note always no_signals [Register timer; Run 10] (start mem 0)).2 = true.
Proof. by vm_compute. Qed.

(** The header promises that the callback is not called once its descriptor is
    unregistered; a request in flight still calls it, with descriptor -1. *)
Lemma unregistered_still_called :
  (app (@io_calls _ _ _ (toy_uring false) note more no_signals
    [Register (mk_op 5 IO_OP_POLL 0 (Some tt) 0); Register (mk_op 6 IO_OP_POLL 0 (Some tt) 0);
     Own (fun _ => (1%nat, [])); Run 5; Unregister 6; Own (fun a => (1%nat, a.2)); Run 5] (start [] 0)).2).2 = [5; -1].
Proof. by vm_compute. Qed.

(** A second timer takes the first one's entry of the table, because a timer's descriptor
    is -1, which marks an entry as free. *)
Lemma second_timer_replaces {C A W} (s : ls C A W) ds d e :
  ops (loop s) = d :: ds -> op_type d = IO_OP_TIMEOUT -> fd d < 0 -> op_type e = IO_OP_TIMEOUT ->
  ops (loop (io_loop_register_op (Some e) s).2) = e :: ds.
Proof.
  intros Hd Ht Hf He. unfold io_loop_register_op.
  change ((get loop ≫= ?k) s) with (k (loop s) s). cbv beta. rewrite Hd. simpl.
  rewrite decide_True; [done|]. unfold reusable. rewrite He, Ht, bool_decide_eq_true_2 by done.
  by apply Z.ltb_lt in Hf as ->.
Qed.

(** *** The depth of the ring *)

Lemma is_power_of_two_spec n : is_power_of_two n = true <-> exists k, 0 <= k /\ n = 2 ^ k.
Proof.
  unfold is_power_of_two. rewrite andb_true_iff, Z.ltb_lt, Z.eqb_eq. split.
  - intros [Hn Hl]. exists (Z.log2 n). split; [apply Z.log2_nonneg|].
    destruct (Z.log2_spec n Hn) as [Hlo Hhi].
    destruct (decide (n = 2 ^ Z.log2 n)) as [|Hne]; [done|]. exfalso.
    assert (Hlog : Z.log2 (n - 1) = Z.log2 n).
    { apply Z.log2_unique; [apply Z.log2_nonneg|]. lia. }
    assert (Hbit : Z.testbit (Z.land n (n - 1)) (Z.log2 n) = true).
    { rewrite Z.land_spec, Z.bit_log2 by done. rewrite <- Hlog.
      apply Z.bit_log2. pose proof (Z.log2_nonneg n).
      assert (0 < 2 ^ Z.log2 n) by (apply Z.pow_pos_nonneg; lia). lia. }
    by rewrite Hl, Z.bits_0 in Hbit.
  - intros (k & Hk & ->). split; [apply Z.pow_pos_nonneg; lia|].
    replace (2 ^ k - 1) with (Z.ones k) by (rewrite Z.ones_equiv; lia).
    rewrite Z.land_ones by done. apply Z.mod_same. apply Z.pow_nonzero; lia.
Qed.
