(* ===== verification/Sandbox.v ===== *)
(** * The sandbox of a service (security/sandbox)

    Control group, namespaces, a root of its own: what [sandbox_apply_config] does to the
    process, as a program over the system calls, which are the operations of a class.  A
    journal records the calls that succeeded; what a successful sandbox did, and in which
    order, is read off it.  Messages to the log are left out. *)

From S2P Require Import Prelude CText HalDevice.

(** ** The system *)

(** The calls whose result alone matters. *)
Inductive syscall :=
| Mkdir (path : string) (mode : Z)
| Rmdir (path : string)
| Unlink (path : string)
| Mount (src : option string) (target : string) (fs : option string) (flags : Z) (data : option string)
| Umount2 (path : string) (flags : Z)
| Mknod (path : string) (mode dev : Z)
| PivotRoot (new old : string)
| Chdir (path : string)
| Unshare (flags : Z)
| Setns (fd : Z)
| Access (path : string)
| Usleep (us : Z).

#[export] Instance syscall_eq : EqDecision syscall.
Proof. solve_decision. Defined.

(** A call that fails answers minus its errno. *)
Class System (W : Type) := {
  sys : syscall -> M W Z;
  s_open : string -> Z -> M W Z;      (** with flags *)
  s_write : Z -> string -> M W Z;
  s_close : Z -> M W unit;
  s_socket : M W Z;
  s_ioctl : Z -> Z -> M W Z;          (** request *)
  s_getpid : Z
}.

Definition EEXIST : Z := 17.
Definition O_RDONLY : Z := 0.
Definition O_WRONLY : Z := 1.
Definition O_CREAT : Z := 64.
Definition O_CLOEXEC : Z := 524288.
Definition CLONE_NEWNS : Z := Z.shiftl 1 17.
Definition CLONE_NEWUTS : Z := Z.shiftl 1 26.
Definition CLONE_NEWIPC : Z := Z.shiftl 1 27.
Definition CLONE_NEWUSER : Z := Z.shiftl 1 28.
Definition CLONE_NEWPID : Z := Z.shiftl 1 29.
Definition CLONE_NEWNET : Z := Z.shiftl 1 30.
Definition MS_RDONLY : Z := 1.
Definition MS_NOSUID : Z := 2.
Definition MS_NODEV : Z := 4.
Definition MS_NOEXEC : Z := 8.
Definition MS_REMOUNT : Z := 32.
Definition MS_BIND : Z := 4096.
Definition MS_REC : Z := 16384.
Definition MS_PRIVATE : Z := Z.shiftl 1 18.
Definition MNT_DETACH : Z := 2.
Definition S_IFCHR_0666 : Z := Z.lor 8192 438.
Definition SIOCGIFFLAGS : Z := 35091.
Definition SIOCSIFFLAGS : Z := 35092.
Definition PATH_MAX : nat := 4096.

Definition snprintf (size : nat) (s : string) : string := strncpy_z (size - 1) s.
Definition strlen (s : string) : Z := Z.of_nat (String.length s).
Definition makedev (major minor : Z) : Z := major * 256 + minor.

(** ** Configurations *)

(** [dev/security/sandbox/sandbox.h:7-13 resource_limits_t] *)
Record resource_limits_t := mk_limits {
  memory_limit_mb : Z; cpu_quota_percent : Z; cpu_weight : Z; io_weight : Z; pids_limit : Z
}.
(** [dev/security/sandbox/sandbox.h:15-20 network_config_t] without the two lists, which
    nothing reads. *)
Record network_config_t := mk_net { enable_loopback : bool; enable_internet : bool }.
(** [dev/security/sandbox/sandbox.h:22-27 filesystem_binding_t] *)
Record filesystem_binding_t := mk_binding {
  host_path : option string; container_path : option string; read_only : bool; optional : bool
}.
(** [dev/security/sandbox/sandbox.h:29-53 sandbox_config_t] without the fields for
    persistent namespaces, which nothing reads. *)
Record sandbox_config_t := mk_sandbox {
  enable_pid_ns : bool; enable_net_ns : bool; enable_mount_ns : bool; enable_ipc_ns : bool;
  enable_user_ns : bool; enable_uts_ns : bool; real_uid : Z; real_gid : Z;
  chroot_path : option string; limits : resource_limits_t; enable_cgroups : bool;
  cgroup_name : option string; network : network_config_t; bindings : list filesystem_binding_t
}.

(** [dev/security/sandbox/sandbox_core.c:131-164 sandbox_core_default_config] *)
Definition sandbox_core_default_config : sandbox_config_t :=
  mk_sandbox true true true true false true 1000 1000 None (mk_limits 512 50 100 100 10) true None
    (mk_net true false) [].

(** [dev/security/sandbox/sandbox_core.c:25-35 service_configs] *)
Definition service_configs : list (string * resource_limits_t * bool) :=
  [ ("audio"%string, mk_limits 512 25 100 100 10, false);
    ("camera"%string, mk_limits 1024 50 200 200 5, false);
    ("sensor"%string, mk_limits 256 10 50 50 5, false);
    ("network"%string, mk_limits 512 30 100 100 20, true) ].

(** [dev/security/sandbox/sandbox_core.c:166-194 sandbox_core_get_service_config] *)
Definition sandbox_core_get_service_config (pid : Z) (service_name : option string) : sandbox_config_t :=
  let c := sandbox_core_default_config in
  match service_name with
  | None => c
  | Some nm =>
      match List.find (fun x => String.eqb x.1.1 nm) service_configs with
      | None => c
      | Some (_, l, net) =>
          mk_sandbox (enable_pid_ns c) (negb net) (enable_mount_ns c) (enable_ipc_ns c) (enable_user_ns c)
            (enable_uts_ns c) (real_uid c) (real_gid c) (chroot_path c) l true
            (Some (snprintf 64 ("middleware_" ++ nm ++ "_" ++ decimal pid))) (mk_net true net) (bindings c)
      end
  end.

(** [strstr(s, t) != NULL] *)
Fixpoint contains (t s : string) : bool :=
  String.prefix t s || match s with EmptyString => false | String _ s => contains t s end.

(** [dev/security/sandbox/sandbox_core.c:37-58 sandbox_core_validate_config] *)
Definition sandbox_core_validate_config (cfg : option sandbox_config_t) : Z :=
  match cfg with
  | None => -1
  | Some c =>
      if negb (enable_pid_ns c) && negb (enable_net_ns c) && negb (enable_mount_ns c) && negb (enable_ipc_ns c) &&
         negb (enable_cgroups c) then -1
      else if (real_uid c =? 0) || (real_gid c =? 0) then -1
      else if match chroot_path c with Some p => contains ".." p | None => false end then -1
      else if 100 <? cpu_quota_percent (limits c) then -1
      else if 10000 <? cpu_weight (limits c) then -1
      else
        match cgroup_name c with
        | Some nm => if enable_cgroups c && (contains "/" nm || contains ".." nm) then -1 else 0
        | None => 0
        end
  end.

Section sandbox.
Context {W : Type} `{System W}.

(** ** Control groups *)

Definition CGROUP_ROOT : string := "/sys/fs/cgroup".

(** A file is opened, written and closed; -1 if it does not open or not all is written. *)
Definition write_file (path : string) (flags : Z) (value : string) : M W Z :=
  fd ← s_open path flags;
  if fd <? 0 then mret (-1)
  else
    written ← s_write fd value;
    _ ← s_close fd;
    mret (if written =? strlen value then 0 else -1).

Definition cgroup_file (cgroup file : string) : string :=
  snprintf PATH_MAX (CGROUP_ROOT ++ "/" ++ cgroup ++ "/" ++ file).

(** [dev/security/sandbox/sandbox_cgroup.c:17-30 write_cgroup_file] *)
Definition write_cgroup_file (cgroup file value : string) : M W Z :=
  write_file (cgroup_file cgroup file) O_WRONLY value.

(** [dev/security/sandbox/sandbox_cgroup.c:41-67 sandbox_cgroup_create, one limit] *)
Definition set_limit (cgroup : string) (l : bool * string * string) : M W unit :=
  if l.1.1 then _ ← write_cgroup_file cgroup l.1.2 l.2; mret tt else mret tt.

(** [dev/security/sandbox/sandbox_cgroup.c:41-67 sandbox_cgroup_create, the limits] what is
    written where, and when. *)
Definition limit_files (l : resource_limits_t) : list (bool * string * string) :=
  [ (0 <? memory_limit_mb l, "memory.max"%string, decimal (u64 (memory_limit_mb l * 1024 * 1024)));
    ((0 <? cpu_quota_percent l) && (cpu_quota_percent l <=? 100), "cpu.max"%string,
     (decimal (cpu_quota_percent l * 1000) ++ " 100000")%string);
    (0 <? cpu_weight l, "cpu.weight"%string, decimal (cpu_weight l));
    (0 <? io_weight l, "io.weight"%string, decimal (io_weight l));
    (0 <? pids_limit l, "pids.max"%string, decimal (pids_limit l)) ].

Fixpoint set_limits (cgroup : string) (ls : list (bool * string * string)) : M W unit :=
  match ls with
  | [] => mret tt
  | l :: ls => _ ← set_limit cgroup l; set_limits cgroup ls
  end.

Definition cgroup_dir (cgroup : string) : string := snprintf PATH_MAX (CGROUP_ROOT ++ "/" ++ cgroup).

(** [mkdir(path, mode) < 0 && errno != EEXIST] *)
Definition mkdir_fails (rc : Z) : bool := (rc <? 0) && negb (rc =? - EEXIST).

(** [dev/security/sandbox/sandbox_cgroup.c:32-70 sandbox_cgroup_create] *)
Definition sandbox_cgroup_create (cgroup : option string) (l : option resource_limits_t) : M W Z :=
  match cgroup, l with
  | Some cgroup, Some l =>
      rc ← sys (Mkdir (cgroup_dir cgroup) 493);
      if mkdir_fails rc then mret (-1)
      else _ ← set_limits cgroup (limit_files l); mret 0
  | _, _ => mret (-1)
  end.

(** [dev/security/sandbox/sandbox_cgroup.c:72-79 sandbox_cgroup_add_process] *)
Definition sandbox_cgroup_add_process (cgroup : option string) (pid : Z) : M W Z :=
  match cgroup with
  | None => mret (-1)
  | Some cgroup => write_cgroup_file cgroup "cgroup.procs" (decimal pid)
  end.

(** [dev/security/sandbox/sandbox_cgroup.c:81-93 sandbox_cgroup_destroy] *)
Definition sandbox_cgroup_destroy (cgroup : option string) : M W Z :=
  match cgroup with
  | None => mret (-1)
  | Some cgroup =>
      _ ← write_cgroup_file cgroup "cgroup.kill" "1";
      _ ← sys (Usleep 100000);
      rc ← sys (Rmdir (cgroup_dir cgroup));
      mret (if rc <? 0 then -1 else 0)
  end.

(** ** The file system *)

Definition SANDBOX_ROOT : string := "/tmp/sandbox_root".
Definition OLD_ROOT_NAME : string := ".old_root".

(** [mknod(path, mode, dev) < 0 && errno != EEXIST] for the three devices, in a row. *)
Fixpoint make_nodes (dev_path : string) (nodes : list (string * Z)) : M W Z :=
  match nodes with
  | [] => mret 0
  | (nm, dev) :: nodes =>
      rc ← sys (Mknod (snprintf PATH_MAX (dev_path ++ "/" ++ nm)) S_IFCHR_0666 dev);
      if mkdir_fails rc then mret (-1) else make_nodes dev_path nodes
  end.

(** [dev/security/sandbox/sandbox_mount.c:21-48 create_minimal_dev] *)
Definition create_minimal_dev (root : string) : M W Z :=
  let dev_path := snprintf PATH_MAX (root ++ "/dev") in
  rc ← sys (Mkdir dev_path 493);
  if mkdir_fails rc then mret (-1)
  else
    rc ← sys (Mount (Some "tmpfs"%string) dev_path (Some "tmpfs"%string) (Z.lor MS_NOSUID MS_NOEXEC)
                (Some "mode=0755"%string));
    if rc <? 0 then mret (-1)
    else if Nat.ltb (PATH_MAX - 10) (String.length dev_path) then mret (-1)
    else make_nodes dev_path [("null"%string, makedev 1 3); ("zero"%string, makedev 1 5); ("urandom"%string, makedev 1 9)].

(** [dev/security/sandbox/sandbox_mount.c:50-66 apply_pivot_root] *)
Definition apply_pivot_root (new_root : string) : M W Z :=
  let old_root := snprintf PATH_MAX (new_root ++ "/" ++ OLD_ROOT_NAME) in
  rc ← sys (Mkdir old_root 448);
  if mkdir_fails rc then mret (-1)
  else
    rc ← sys (PivotRoot new_root old_root);
    if rc <? 0 then mret (-1)
    else
      rc ← sys (Chdir "/");
      if rc <? 0 then mret (-1)
      else
        let old_inside := snprintf PATH_MAX ("/" ++ OLD_ROOT_NAME) in
        _ ← sys (Umount2 old_inside MNT_DETACH);
        _ ← sys (Rmdir old_inside);
        mret 0.

Fixpoint make_dirs (root : string) (dirs : list string) : M W unit :=
  match dirs with
  | [] => mret tt
  | d :: dirs => _ ← sys (Mkdir (snprintf PATH_MAX (root ++ "/" ++ d)) 493); make_dirs root dirs
  end.

(** [dev/security/sandbox/sandbox_mount.c:68-89 sandbox_mount_setup_filesystem] *)
Definition sandbox_mount_setup_filesystem (requested_root : option string) : M W Z :=
  let root := default SANDBOX_ROOT requested_root in
  rc ← sys (Mkdir root 493);
  if mkdir_fails rc then mret (-1)
  else
    rc ← sys (Mount (Some "tmpfs"%string) root (Some "tmpfs"%string) (Z.lor MS_NODEV MS_NOSUID)
                (Some "mode=0755"%string));
    if rc <? 0 then mret (-1)
    else
      _ ← make_dirs root ["tmp"%string; "proc"%string; "sys"%string];
      rc ← create_minimal_dev root;
      if rc <? 0 then mret (-1)
      else
        rc ← apply_pivot_root root;
        if rc <? 0 then mret (-1)
        else
          _ ← sys (Mount (Some "proc"%string) "/proc" (Some "proc"%string)
                     (Z.lor (Z.lor MS_NOSUID MS_NOEXEC) MS_NODEV) (Some "hidepid=2"%string));
          mret 0.

(** [dev/security/sandbox/sandbox_mount.c:91-112 sandbox_mount_add_binding] *)
Definition sandbox_mount_add_binding (b : option filesystem_binding_t) : M W Z :=
  match b with
  | None => mret (-1)
  | Some b =>
      match host_path b, container_path b with
      | Some host, Some container =>
          rc ← sys (Access host);
          if negb (rc =? 0) then mret (if optional b then 0 else -1)
          else
            rc ← sys (Mkdir container 493);
            if mkdir_fails rc then mret (-1)
            else
              rc ← sys (Mount (Some host) container None MS_BIND None);
              if rc <? 0 then mret (-1)
              else if read_only b then
                rc ← sys (Mount None container None
                       (Z.lor (Z.lor (Z.lor (Z.lor MS_REMOUNT MS_BIND) MS_RDONLY) MS_NOSUID) MS_NODEV) None);
                mret (if rc <? 0 then -1 else 0)
              else mret 0
      | _, _ => mret (-1)
      end
  end.

(** [dev/security/sandbox/sandbox_mount.c:114-119 sandbox_mount_remove_binding] *)
Definition sandbox_mount_remove_binding (container : option string) : M W Z :=
  match container with
  | None => mret (-1)
  | Some p => rc ← sys (Umount2 p MNT_DETACH); mret (if rc <? 0 then -1 else 0)
  end.

(** ** The network *)

(** [dev/security/sandbox/sandbox_network.c:18-46 bring_up_loopback] *)
Definition bring_up_loopback : M W Z :=
  sock ← s_socket;
  if sock <? 0 then mret (-1)
  else
    rc ← s_ioctl sock SIOCGIFFLAGS;
    if rc <? 0 then _ ← s_close sock; mret (-1)
    else
      rc ← s_ioctl sock SIOCSIFFLAGS;
      if rc <? 0 then _ ← s_close sock; mret (-1)
      else _ ← s_close sock; mret 0.

(** [dev/security/sandbox/sandbox_network.c:48-65 sandbox_network_isolate] *)
Definition sandbox_network_isolate (n : option network_config_t) : M W Z :=
  match n with
  | None => mret (-1)
  | Some n => if enable_loopback n then _ ← bring_up_loopback; mret 0 else mret 0
  end.

(** [dev/security/sandbox/sandbox_network.c:67-73 sandbox_network_allow_host] *)
Definition sandbox_network_allow_host (hostname : option string) : Z :=
  match hostname with None => -1 | Some _ => 0 end.

(** [dev/security/sandbox/sandbox_network.c:75-81 sandbox_network_allow_port] *)
Definition sandbox_network_allow_port (port : Z) : Z := if port =? 0 then -1 else 0.

(** ** Namespaces *)

Definition proc_file (file : string) : string :=
  snprintf PATH_MAX ("/proc/" ++ decimal s_getpid ++ "/" ++ file).
Definition id_map (id : Z) : string := snprintf 256 ("0 " ++ decimal id ++ " 1").

(** [dev/security/sandbox/sandbox_core.c:60-93 sandbox_core_setup_user_namespace] *)
Definition sandbox_core_setup_user_namespace (uid gid : Z) : M W Z :=
  rc ← write_file (proc_file "uid_map") (Z.lor O_WRONLY O_CLOEXEC) (id_map uid);
  if negb (rc =? 0) then mret (-1)
  else
    _ ← write_file (proc_file "setgroups") (Z.lor O_WRONLY O_CLOEXEC) "deny";
    write_file (proc_file "gid_map") (Z.lor O_WRONLY O_CLOEXEC) (id_map gid).

(** [dev/security/sandbox/sandbox_core.c:103-109 sandbox_core_apply_namespaces, the flags] *)
Definition ns_flags (c : sandbox_config_t) : Z :=
  let flag (b : bool) f flags := if b then Z.lor flags f else flags in
  flag (enable_uts_ns c) CLONE_NEWUTS (flag (enable_user_ns c) CLONE_NEWUSER
    (flag (enable_ipc_ns c) CLONE_NEWIPC (flag (enable_mount_ns c) CLONE_NEWNS
    (flag (enable_net_ns c) CLONE_NEWNET (flag (enable_pid_ns c) CLONE_NEWPID 0))))).

(** [dev/security/sandbox/sandbox_core.c:95-129 sandbox_core_apply_namespaces] *)
Definition sandbox_core_apply_namespaces (cfg : option sandbox_config_t) : M W Z :=
  match cfg with
  | None => mret (-1)
  | Some c =>
      if sandbox_core_validate_config cfg <? 0 then mret (-1)
      else
        rc ← sys (Unshare (ns_flags c));
        if rc <? 0 then mret (-1)
        else
          rc ← (if enable_user_ns c then sandbox_core_setup_user_namespace (real_uid c) (real_gid c) else mret 0);
          if rc <? 0 then mret (-1)
          else if enable_mount_ns c then
            _ ← sys (Mount None "/" None (Z.lor MS_PRIVATE MS_REC) None);
            rc ← sandbox_mount_setup_filesystem (chroot_path c);
            mret (if rc <? 0 then -1 else 0)
          else mret 0
  end.

(** *** Namespaces kept by name *)

Definition PERSISTENT_NS_DIR : string := "/run/middleware/ns".
Definition NS_PATH_MAX : nat := 256.
Definition ns_dir (nm : string) : string := snprintf NS_PATH_MAX (PERSISTENT_NS_DIR ++ "/" ++ nm).
Definition bad_ns_name (nm : string) : bool := (strlen nm =? 0) || (64 <? strlen nm).

(** [dev/security/sandbox/sandbox_core.c:212-220 sandbox_core_create_persistent_namespace, ns_map] *)
Definition ns_map : list (Z * string) :=
  [ (CLONE_NEWPID, "pid"%string); (CLONE_NEWNET, "net"%string); (CLONE_NEWNS, "mnt"%string);
    (CLONE_NEWIPC, "ipc"%string); (CLONE_NEWUTS, "uts"%string); (CLONE_NEWUSER, "user"%string) ].

(** [dev/security/sandbox/sandbox_core.c:222-240 sandbox_core_create_persistent_namespace, the loop] *)
Fixpoint bind_namespaces (dir : string) (types : Z) (l : list (Z * string)) : M W Z :=
  match l with
  | [] => mret 0
  | (flag, file) :: l =>
      if Z.land types flag =? 0 then bind_namespaces dir types l
      else
        let src := snprintf NS_PATH_MAX ("/proc/self/ns/" ++ file) in
        let dst := snprintf NS_PATH_MAX (dir ++ "/" ++ file) in
        fd ← s_open dst (Z.lor (Z.lor O_CREAT O_WRONLY) O_CLOEXEC);
        if mkdir_fails fd then mret (-1)
        else
          _ ← (if 0 <=? fd then s_close fd else mret tt);
          rc ← sys (Mount (Some src) dst None MS_BIND None);
          if rc <? 0 then mret (-1) else bind_namespaces dir types l
  end.

(** [dev/security/sandbox/sandbox_core.c:196-244 sandbox_core_create_persistent_namespace] *)
Definition sandbox_core_create_persistent_namespace (nm : option string) (types : Z) : M W Z :=
  match nm with
  | None => mret (-1)
  | Some nm =>
      if bad_ns_name nm then mret (-1)
      else
        rc ← sys (Mkdir PERSISTENT_NS_DIR 493);
        if mkdir_fails rc then mret (-1)
        else
          rc ← sys (Mkdir (ns_dir nm) 493);
          if mkdir_fails rc then mret (-1) else bind_namespaces (ns_dir nm) types ns_map
  end.

(** [dev/security/sandbox/sandbox_core.c:255-268 sandbox_core_join_persistent_namespace, the loop] *)
Fixpoint join_namespaces (dir : string) (files : list string) : M W Z :=
  match files with
  | [] => mret 0
  | file :: files =>
      fd ← s_open (snprintf NS_PATH_MAX (dir ++ "/" ++ file)) (Z.lor O_RDONLY O_CLOEXEC);
      if fd <? 0 then join_namespaces dir files
      else
        rc ← sys (Setns fd);
        if rc <? 0 then _ ← s_close fd; mret (-1)
        else _ ← s_close fd; join_namespaces dir files
  end.

(** [dev/security/sandbox/sandbox_core.c:246-272 sandbox_core_join_persistent_namespace] *)
Definition sandbox_core_join_persistent_namespace (nm : option string) : M W Z :=
  match nm with
  | None => mret (-1)
  | Some nm =>
      if bad_ns_name nm then mret (-1)
      else join_namespaces (ns_dir nm)
             ["user"%string; "mnt"%string; "pid"%string; "net"%string; "ipc"%string; "uts"%string]
  end.

(** [dev/security/sandbox/sandbox_core.c:283-289 sandbox_core_destroy_persistent_namespace, the loop] *)
Fixpoint drop_namespaces (dir : string) (files : list string) : M W unit :=
  match files with
  | [] => mret tt
  | file :: files =>
      let path := snprintf NS_PATH_MAX (dir ++ "/" ++ file) in
      _ ← sys (Umount2 path MNT_DETACH);
      _ ← sys (Unlink path);
      drop_namespaces dir files
  end.

(** [dev/security/sandbox/sandbox_core.c:274-294 sandbox_core_destroy_persistent_namespace] *)
Definition sandbox_core_destroy_persistent_namespace (nm : option string) : M W Z :=
  match nm with
  | None => mret (-1)
  | Some nm =>
      if bad_ns_name nm then mret (-1)
      else
        _ ← drop_namespaces (ns_dir nm)
              ["pid"%string; "net"%string; "mnt"%string; "ipc"%string; "uts"%string; "user"%string];
        _ ← sys (Rmdir (ns_dir nm));
        mret 0
  end.

(** ** All of it *)

Fixpoint add_bindings (bs : list filesystem_binding_t) : M W unit :=
  match bs with
  | [] => mret tt
  | b :: bs => _ ← sandbox_mount_add_binding (Some b); add_bindings bs
  end.

(** [dev/security/sandbox/sandbox.c:15-21 sandbox_apply_config, the control group] *)
Definition join_cgroup (c : sandbox_config_t) (cgroup : string) : M W Z :=
  rc ← sandbox_cgroup_create (Some cgroup) (Some (limits c));
  if rc <? 0 then mret (-1)
  else
    rc ← sandbox_cgroup_add_process (Some cgroup) s_getpid;
    if rc <? 0 then _ ← sandbox_cgroup_destroy (Some cgroup); mret (-1)
    else mret 0.

(** The group a configuration asks for: [cfg->enable_cgroups && cfg->cgroup_name]. *)
Definition wanted_cgroup (c : sandbox_config_t) : option string :=
  if enable_cgroups c then cgroup_name c else None.

(** [dev/security/sandbox/sandbox.c:11-38 sandbox_apply_config] *)
Definition sandbox_apply_config (cfg : option sandbox_config_t) : M W Z :=
  if sandbox_core_validate_config cfg <? 0 then mret (-1)
  else
    match cfg with
    | None => mret (-1)
    | Some c =>
        rc ← match wanted_cgroup c with Some cgroup => join_cgroup c cgroup | None => mret 0 end;
        if rc <? 0 then mret (-1)
        else
          rc ← sandbox_core_apply_namespaces cfg;
          if rc <? 0 then
            _ ← match wanted_cgroup c with
                | Some cgroup => _ ← sandbox_cgroup_destroy (Some cgroup); mret tt
                | None => mret tt
                end;
            mret (-1)
          else
            _ ← add_bindings (bindings c);
            _ ← (if enable_net_ns c && enable_internet (network c)
                 then sandbox_network_isolate (Some (network c)) else mret 0);
            mret 0
    end.

(** [dev/security/sandbox/sandbox.c:40-43 sandbox_apply] *)
Definition sandbox_apply (cfg : option sandbox_config_t) : M W Z := sandbox_core_apply_namespaces cfg.
End sandbox.

(** ** What was done

    The journal of a process: the calls that succeeded and what was written, completely, to
    which file, in their order. *)
Inductive sys_event := Did (c : syscall) | Wrote (path text : string).

Class Journal (W : Type) := {
  journal : W -> list sys_event;
  fd_path : W -> Z -> string      (** the file a descriptor was opened on *)
}.

Class JournalLaws (W : Type) `{System W} `{Journal W} : Prop := {
  sys_logged c w : journal (sys c w).2 = journal w ++ if 0 <=? (sys c w).1 then [Did c] else [];
  open_logged p f w : journal (s_open p f w).2 = journal w /\
    (0 <= (s_open p f w).1 -> fd_path (s_open p f w).2 (s_open p f w).1 = p);
  write_logged fd s w : journal (s_write fd s w).2 =
    journal w ++ if (s_write fd s w).1 =? strlen s then [Wrote (fd_path w fd) s] else [];
  close_logged fd w : journal (s_close fd w).2 = journal w;
  socket_logged w : journal (s_socket w).2 = journal w;
  ioctl_logged fd r w : journal (s_ioctl fd r w).2 = journal w
}.

Section journal.
Context {W : Type} `{JournalLaws W}.

(** What a program adds to the journal. *)
Definition emits {A} (m : M W A) (Q : A -> list sys_event -> Prop) : Prop :=
  forall w, exists l, journal (m w).2 = journal w ++ l /\ Q (m w).1 l.

Lemma emits_ret {A} (x : A) (Q : A -> list sys_event -> Prop) : Q x [] -> emits (mret x) Q.
Proof. intros Hq w. exists []. by rewrite app_nil_r. Qed.

Lemma emits_bind {A B} (m : M W A) (f : A -> M W B) P Q :
  emits m P -> (forall x l, P x l -> emits (f x) (fun y l' => Q y (l ++ l'))) -> emits (m ≫= f) Q.
Proof.
  intros Hm Hf w. destruct (Hm w) as (l & Hl & Hp). unfold mbind, M_bind. destruct (m w) as [x w1]. simpl in *.
  destruct (Hf x l Hp w1) as (l' & Hl' & Hq). exists (l ++ l'). by rewrite Hl', Hl, app_assoc.
Qed.

Lemma emits_weaken {A} (m : M W A) (P Q : A -> list sys_event -> Prop) :
  emits m P -> (forall x l, P x l -> Q x l) -> emits m Q.
Proof. intros Hm Hpq w. destruct (Hm w) as (l & Hl & Hp). eauto. Qed.

Lemma emits_sys c : emits (sys c) (fun rc l => l = if 0 <=? rc then [Did c] else []).
Proof. intros w. eexists. split; [apply sys_logged|done]. Qed.

Lemma emits_quiet {A} (m : M W A) : (forall w, journal (m w).2 = journal w) -> emits m (fun _ l => l = []).
Proof. intros Hm w. exists []. by rewrite Hm, app_nil_r. Qed.

(** A file is either written completely or reported. *)
Lemma emits_write_file p f s :
  emits (write_file p f s) (fun rc l => rc = 0 /\ l = [Wrote p s] \/ rc = -1 /\ l = []).
Proof.
  intros w. unfold write_file, mbind, M_bind, mret, M_ret.
  destruct (open_logged p f w) as [Ho Hp]. destruct (s_open p f w) as [fd w1]. simpl in *.
  destruct (Z.ltb_spec fd 0); [exists []; rewrite app_nil_r; simpl; by split; [|right]|].
  pose proof (write_logged fd s w1) as Hw. destruct (s_write fd s w1) as [n w2]. simpl in *.
  pose proof (close_logged fd w2) as Hc. destruct (s_close fd w2) as [[] w3]. simpl in *.
  rewrite Hc, Hw, Ho, Hp by done. destruct (n =? strlen s); [by exists [Wrote p s]; split; [|left]|].
  exists []. by split; [|right].
Qed.

(** Either a program reports an error or its events contain, in this order, [ev]. *)
Definition in_order (ev : list sys_event) (rc : Z) (l : list sys_event) : Prop := rc = 0 /\ ev `sublist_of` l \/ rc = -1.

Lemma emits_any {A} (m : M W A) (Q : A -> list sys_event -> Prop) (f : A -> M W Z) ev :
  emits m Q -> (forall x, emits (f x) (in_order ev)) -> emits (m ≫= f) (in_order ev).
Proof.
  intros Hm Hf. eapply emits_bind; [exact Hm|]. intros x l _. eapply emits_weaken; [apply Hf|].
  intros y l' [[? Hs]|?]; [left|by right]. split; [done|]. by apply sublist_inserts_l.
Qed.

(** A first event, then the others. *)
Lemma emits_then (m : M W Z) (f : Z -> M W Z) ev ev' :
  emits m (in_order ev) -> emits (f 0) (in_order ev') -> (emits (f (-1)) (fun rc _ => rc = -1)) ->
  emits (m ≫= f) (in_order (ev ++ ev')).
Proof.
  intros Hm Hok Hbad. eapply emits_bind; [exact Hm|]. intros x l [[-> Hs]| ->].
  - eapply emits_weaken; [exact Hok|]. intros y l' [[? Hs']|?]; [left|by right].
    split; [done|]. by apply sublist_app.
  - eapply emits_weaken; [exact Hbad|]. intros. by right.
Qed.

Lemma emits_sys_then c (f : Z -> M W Z) ev :
  (forall rc, 0 <= rc -> emits (f rc) (in_order ev)) -> (forall rc, rc < 0 -> emits (f rc) (fun rc _ => rc = -1)) ->
  emits (sys c ≫= f) (in_order (Did c :: ev)).
Proof.
  intros Hok Hbad. eapply emits_bind; [apply emits_sys|]. intros rc l ->.
  destruct (Z.leb_spec 0 rc) as [Hrc|Hrc].
  - eapply emits_weaken; [by apply Hok|]. intros y l' [[? Hs]|?]; [left|by right]. split; [done|]. by apply sublist_skip.
  - eapply emits_weaken; [by apply Hbad|]. intros. by right.
Qed.

Lemma emits_done rc : rc = 0 \/ rc = -1 -> emits (mret rc) (in_order []).
Proof. intros Hrc. apply emits_ret. destruct Hrc as [->| ->]; [left|by right]. split; [done|]. apply sublist_nil_l. Qed.

Lemma emits_error ev : emits (mret (-1)) (in_order ev).
Proof. apply emits_ret. by right. Qed.

Lemma emits_reports : emits (mret (-1)) (fun rc _ => rc = -1).
Proof. by apply emits_ret. Qed.

(** Programs whose events do not matter. *)
Lemma emits_skip {A} (m : M W A) : (forall w, exists l, journal (m w).2 = journal w ++ l) -> emits m (fun _ _ => True).
Proof. intros Hm w. destruct (Hm w) as [l Hl]. by exists l. Qed.

Definition runs {A} (m : M W A) : Prop := emits m (fun _ _ => True).

Lemma runs_bind {A B} (m : M W A) (f : A -> M W B) : runs m -> (forall x, runs (f x)) -> runs (m ≫= f).
Proof. intros Hm Hf. eapply emits_bind; [exact Hm|]. intros x l _. apply Hf. Qed.
Lemma runs_ret {A} (x : A) : runs (mret x).
Proof. by apply emits_ret. Qed.
Lemma runs_sys c : runs (sys c).
Proof. by eapply emits_weaken; [apply emits_sys|]. Qed.
Lemma runs_write_file p f s : runs (write_file p f s).
Proof. by eapply emits_weaken; [apply emits_write_file|]. Qed.
Lemma runs_close fd : runs (s_close fd).
Proof. by eapply emits_weaken; [apply emits_quiet, close_logged|]. Qed.
Lemma runs_socket : runs s_socket.
Proof. by eapply emits_weaken; [apply emits_quiet, socket_logged|]. Qed.
Lemma runs_ioctl fd r : runs (s_ioctl fd r).
Proof. by eapply emits_weaken; [apply emits_quiet; intros; apply ioctl_logged|]. Qed.

Ltac runs :=
  repeat first
    [ apply runs_ret | apply runs_sys | apply runs_write_file | apply runs_close | apply runs_socket | apply runs_ioctl
    | apply runs_bind; [|intro]
    | match goal with
      | |- runs (if ?b then _ else _) => destruct b
      | |- runs (match ?b with _ => _ end) => destruct b
      end ].

Lemma runs_dirs d dirs : runs (make_dirs d dirs).
Proof. induction dirs as [|x dirs IH]; simpl; runs. exact IH. Qed.
Lemma runs_limits g ls : runs (set_limits g ls).
Proof. induction ls as [|x ls IH]; simpl; [apply runs_ret|]. unfold set_limit, write_cgroup_file. runs; exact IH. Qed.
Lemma runs_binding b : runs (sandbox_mount_add_binding b).
Proof. unfold sandbox_mount_add_binding. runs. Qed.
Lemma runs_bindings bs : runs (add_bindings bs).
Proof.
  induction bs as [|b bs IH]; cbn [add_bindings]; [apply runs_ret|].
  apply runs_bind; [apply runs_binding|intros; exact IH].
Qed.
Lemma runs_network n : runs (sandbox_network_isolate n).
Proof. unfold sandbox_network_isolate, bring_up_loopback. runs. Qed.
Lemma runs_minimal_dev r : runs (create_minimal_dev r).
Proof. unfold create_minimal_dev. cbn [make_nodes]. runs. Qed.
Lemma runs_destroy g : runs (sandbox_cgroup_destroy g).
Proof. unfold sandbox_cgroup_destroy, write_cgroup_file. runs. Qed.

(** *** The parts of the sandbox *)

Definition cgroup_events (c : sandbox_config_t) : list sys_event :=
  match wanted_cgroup c with
  | Some g => [Wrote (cgroup_file g "cgroup.procs") (decimal s_getpid)]
  | None => []
  end.
Definition user_events (c : sandbox_config_t) : list sys_event :=
  if enable_user_ns c then [Wrote (proc_file "uid_map") (id_map (real_uid c)); Wrote (proc_file "gid_map") (id_map (real_gid c))]
  else [].
Definition pivot_events (root : string) : list sys_event :=
  [Did (PivotRoot root (snprintf PATH_MAX (root ++ "/" ++ OLD_ROOT_NAME))); Did (Chdir "/")].
Definition mount_events (c : sandbox_config_t) : list sys_event :=
  if enable_mount_ns c then
    Did (Mount (Some "tmpfs"%string) (default SANDBOX_ROOT (chroot_path c)) (Some "tmpfs"%string)
           (Z.lor MS_NODEV MS_NOSUID) (Some "mode=0755"%string))
    :: pivot_events (default SANDBOX_ROOT (chroot_path c))
  else [].

Lemma pivot_in_order r : emits (apply_pivot_root r) (in_order (pivot_events r)).
Proof.
  unfold apply_pivot_root, pivot_events. cbv zeta. eapply emits_any; [apply emits_sys|]. intros rc.
  case_match; [apply emits_error|]. apply emits_sys_then.
  2: { intros rc' Hrc. rewrite (proj2 (Z.ltb_lt _ _) Hrc). apply emits_reports. }
  intros rc' Hrc. rewrite (proj2 (Z.ltb_ge _ _) Hrc). apply emits_sys_then.
  2: { intros ? Hr. rewrite (proj2 (Z.ltb_lt _ _) Hr). apply emits_reports. }
  intros rc2 Hr. rewrite (proj2 (Z.ltb_ge _ _) Hr). eapply emits_any; [apply runs_sys|]. intros _.
  eapply emits_any; [apply runs_sys|]. intros _. apply emits_done. by left.
Qed.

Lemma setup_in_order r :
  emits (sandbox_mount_setup_filesystem r)
    (in_order (Did (Mount (Some "tmpfs"%string) (default SANDBOX_ROOT r) (Some "tmpfs"%string) (Z.lor MS_NODEV MS_NOSUID)
                      (Some "mode=0755"%string)) :: pivot_events (default SANDBOX_ROOT r))).
Proof.
  unfold sandbox_mount_setup_filesystem. cbv zeta. eapply emits_any; [apply emits_sys|]. intros rc.
  case_match; [apply emits_error|]. apply emits_sys_then.
  2: { intros rc' Hrc. rewrite (proj2 (Z.ltb_lt _ _) Hrc). apply emits_reports. }
  intros rc' Hrc. rewrite (proj2 (Z.ltb_ge _ _) Hrc). eapply emits_any; [apply runs_dirs|]. intros _.
  eapply emits_any; [apply runs_minimal_dev|]. intros rc2. case_match; [apply emits_error|].
  rewrite <- (app_nil_r (pivot_events _)). apply emits_then; [apply pivot_in_order| |apply emits_reports].
  simpl. eapply emits_any; [apply runs_sys|]. intros _. apply emits_done. by left.
Qed.

Lemma write_in_order p f s : emits (write_file p f s) (in_order [Wrote p s]).
Proof.
  eapply emits_weaken; [apply emits_write_file|]. intros rc l [[-> ->]|[-> ->]]; [left|by right]. by split.
Qed.

Lemma user_in_order c : emits (sandbox_core_setup_user_namespace (real_uid c) (real_gid c))
  (in_order [Wrote (proc_file "uid_map") (id_map (real_uid c)); Wrote (proc_file "gid_map") (id_map (real_gid c))]).
Proof.
  unfold sandbox_core_setup_user_namespace. apply (emits_then _ _ [_] [_]); [apply write_in_order| |apply emits_reports].
  simpl. eapply emits_any; [apply runs_write_file|]. intros _. apply write_in_order.
Qed.

Lemma namespaces_in_order c : emits (sandbox_core_apply_namespaces (Some c))
  (in_order (Did (Unshare (ns_flags c)) :: user_events c ++ mount_events c)).
Proof.
  unfold sandbox_core_apply_namespaces. case_match; [apply emits_error|]. apply emits_sys_then.
  2: { intros rc Hrc. rewrite (proj2 (Z.ltb_lt _ _) Hrc). apply emits_reports. }
  intros rc Hrc. rewrite (proj2 (Z.ltb_ge _ _) Hrc). apply emits_then.
  - unfold user_events. destruct (enable_user_ns c); [apply user_in_order|]. apply emits_done. by left.
  - simpl. unfold mount_events. destruct (enable_mount_ns c); [|apply emits_done; by left].
    eapply emits_any; [apply runs_sys|]. intros _. rewrite <- (app_nil_r (_ :: _)).
    apply emits_then; [apply setup_in_order|apply emits_done; by left|apply emits_reports].
  - simpl. apply emits_reports.
Qed.

Lemma cgroup_in_order c g : wanted_cgroup c = Some g -> emits (join_cgroup c g) (in_order (cgroup_events c)).
Proof.
  intros Hg. unfold join_cgroup, cgroup_events. rewrite Hg. unfold sandbox_cgroup_create.
  eapply emits_any.
  { apply runs_bind; [apply runs_sys|]. intros rc. case_match; [apply runs_ret|].
    apply runs_bind; [apply runs_limits|intros; apply runs_ret]. }
  intros rc. case_match; [apply emits_error|]. rewrite <- (app_nil_r [_]).
  apply emits_then; [apply write_in_order|apply emits_done; by left|].
  change (-1 <? 0) with true. cbv iota. eapply emits_bind; [apply runs_destroy|]. intros _ l _. apply emits_reports.
Qed.

End journal.

(** ** What is held *)

Section resources.
Context {W : Type} `{Ledger W} `{System W}.

(** A call that hands out a descriptor that was not open, or fails. *)
Definition acquires (m : M W Z) : Prop := forall w,
  (0 <= (m w).1 -> Fd (m w).1 ∉ held w /\ held (m w).2 = {[Fd (m w).1]} ∪ held w) /\
  ((m w).1 < 0 -> held (m w).2 = held w).

(** A program that gives a descriptor back. *)
Definition releases {A} (fd : Z) (m : M W A) : Prop := forall w, held (m w).2 = held w ∖ {[Fd fd]}.

Class SystemLaws : Prop := {
  sys_quiet c : quiet (sys c);
  s_write_quiet fd s : quiet (s_write fd s);
  s_ioctl_quiet fd r : quiet (s_ioctl fd r);
  s_open_acquires p f : acquires (s_open p f);
  s_socket_acquires : acquires s_socket;
  s_close_releases fd : releases fd (s_close fd)
}.
Context `{!SystemLaws}.

Lemma releases_after {A B} fd (m : M W A) (f : A -> M W B) :
  quiet m -> (forall x, releases fd (f x)) -> releases fd (m ≫= f).
Proof.
  intros Hm Hf w. specialize (Hm w). unfold mbind, M_bind. destruct (m w) as [x w1]. simpl in *. by rewrite (Hf x w1), Hm.
Qed.

Lemma releases_then {A B} fd (m : M W A) (f : A -> M W B) :
  releases fd m -> (forall x, quiet (f x)) -> releases fd (m ≫= f).
Proof.
  intros Hm Hf w. specialize (Hm w). unfold mbind, M_bind. destruct (m w) as [x w1]. simpl in *. by rewrite (Hf x w1), Hm.
Qed.

Lemma quiet_acquire {A} (m : M W Z) (f : Z -> M W A) : acquires m ->
  (forall fd, 0 <= fd -> releases fd (f fd)) -> (forall fd, fd < 0 -> quiet (f fd)) -> quiet (m ≫= f).
Proof.
  intros Hm Hf Hn w. destruct (Hm w) as [Hok Hbad]. unfold mbind, M_bind. destruct (m w) as [fd w1]. simpl in *.
  destruct (Z_lt_le_dec fd 0) as [Hlt|Hge].
  - by rewrite (Hn fd Hlt w1), Hbad.
  - destruct (Hok Hge) as [Hfresh Hh]. rewrite (Hf fd Hge w1), Hh. set_solver.
Qed.

Lemma write_file_quiet p f s : quiet (write_file p f s).
Proof.
  unfold write_file. apply quiet_acquire; [apply s_open_acquires|intros fd Hfd..].
  - rewrite (proj2 (Z.ltb_ge _ _) Hfd). apply releases_after; [apply s_write_quiet|]. intros n.
    apply releases_then; [apply s_close_releases|intros; apply quiet_ret].
  - rewrite (proj2 (Z.ltb_lt _ _) Hfd). apply quiet_ret.
Qed.

Lemma loopback_quiet : quiet bring_up_loopback.
Proof.
  unfold bring_up_loopback. apply quiet_acquire; [apply s_socket_acquires|intros fd Hfd..].
  2: { rewrite (proj2 (Z.ltb_lt _ _) Hfd). apply quiet_ret. }
  assert (Hc : forall x : Z, releases fd (s_close fd ≫= fun _ => mret x)).
  { intros x. apply releases_then; [apply s_close_releases|intros; apply quiet_ret]. }
  rewrite (proj2 (Z.ltb_ge _ _) Hfd). apply releases_after; [apply s_ioctl_quiet|]. intros rc.
  case_match; [done|]. apply releases_after; [apply s_ioctl_quiet|]. intros rc'. by case_match.
Qed.
Hint Resolve sys_quiet s_write_quiet s_ioctl_quiet write_file_quiet loopback_quiet : hal.

Lemma dirs_quiet d dirs : quiet (make_dirs d dirs).
Proof. induction dirs; simpl; auto with hal. Qed.
Lemma limits_quiet g ls : quiet (set_limits g ls).
Proof. induction ls; simpl; unfold set_limit, write_cgroup_file; auto with hal. Qed.
Lemma binding_quiet b : quiet (sandbox_mount_add_binding b).
Proof. unfold sandbox_mount_add_binding. auto 30 with hal. Qed.
Lemma bindings_quiet bs : quiet (add_bindings bs).
Proof. induction bs; cbn [add_bindings]; auto using binding_quiet with hal. Qed.
Lemma destroy_quiet g : quiet (sandbox_cgroup_destroy g).
Proof. unfold sandbox_cgroup_destroy, write_cgroup_file. auto 20 with hal. Qed.
Hint Resolve dirs_quiet limits_quiet bindings_quiet destroy_quiet : hal.

Lemma dev_quiet r : quiet (create_minimal_dev r).
Proof. unfold create_minimal_dev. cbn [make_nodes]. auto 40 with hal. Qed.
Lemma pivot_quiet r : quiet (apply_pivot_root r).
Proof. unfold apply_pivot_root. auto 40 with hal. Qed.
Hint Resolve dev_quiet pivot_quiet : hal.
Lemma setup_quiet r : quiet (sandbox_mount_setup_filesystem r).
Proof. unfold sandbox_mount_setup_filesystem. auto 40 with hal. Qed.
Hint Resolve setup_quiet : hal.
Lemma namespaces_quiet c : quiet (sandbox_core_apply_namespaces c).
Proof. unfold sandbox_core_apply_namespaces, sandbox_core_setup_user_namespace. auto 40 with hal. Qed.
Lemma cgroup_quiet c g : quiet (join_cgroup c g).
Proof.
  unfold join_cgroup, sandbox_cgroup_create, sandbox_cgroup_add_process, write_cgroup_file. auto 40 with hal.
Qed.
Lemma isolate_quiet n : quiet (sandbox_network_isolate n).
Proof. unfold sandbox_network_isolate. auto with hal. Qed.
Hint Resolve namespaces_quiet cgroup_quiet isolate_quiet : hal.

Lemma bind_quiet d t l : quiet (bind_namespaces d t l).
Proof.
  induction l as [|[flag file] l IH]; cbn [bind_namespaces]; [apply quiet_ret|]. case_match; [done|]. cbv zeta.
  apply quiet_acquire; [apply s_open_acquires|intros fd Hfd..].
  - unfold mkdir_fails. rewrite (proj2 (Z.ltb_ge _ _) Hfd), (proj2 (Z.leb_le _ _) Hfd). simpl.
    apply releases_then; [apply s_close_releases|]. auto with hal.
  - case_match; [apply quiet_ret|]. rewrite (proj2 (Z.leb_gt _ _) Hfd). auto with hal.
Qed.

Lemma join_quiet d l : quiet (join_namespaces d l).
Proof.
  induction l as [|file l IH]; cbn [join_namespaces]; [apply quiet_ret|].
  apply quiet_acquire; [apply s_open_acquires|intros fd Hfd..].
  - rewrite (proj2 (Z.ltb_ge _ _) Hfd). apply releases_after; [apply sys_quiet|]. intros rc.
    case_match; (apply releases_then; [apply s_close_releases|]); auto with hal.
  - by rewrite (proj2 (Z.ltb_lt _ _) Hfd).
Qed.

(** The sandbox and the named namespaces keep no descriptor: on every path, the failing
    ones included, the process holds afterwards what it held before. *)
Theorem sandbox_no_leak cfg nm types :
  quiet (sandbox_apply_config cfg) /\ quiet (sandbox_core_create_persistent_namespace nm types) /\
  quiet (sandbox_core_join_persistent_namespace nm).
Proof.
  split_and!.
  - unfold sandbox_apply_config. auto 40 with hal.
  - unfold sandbox_core_create_persistent_namespace. auto 40 using bind_quiet with hal.
  - unfold sandbox_core_join_persistent_namespace. auto 40 using join_quiet with hal.
Qed.
End resources.
Arguments SystemLaws W {_ _}.

(** ** A system to run it on

    Files open, calls succeed but for those [refuses] names. *)
Record boxed := mk_boxed { b_files : toy; b_log : list sys_event }.
Definition b_path (fd : Z) (w : boxed) : string := default ""%string (toy_path fd (b_files w)).

Definition box (refuses : syscall -> bool) : System boxed := {|
  sys c w := if refuses c then (-1, w) else (0, mk_boxed (b_files w) (b_log w ++ [Did c]));
  s_open p _ w := let t := b_files w in
    (toy_next (t_fds t), mk_boxed (mk_toy ((toy_next (t_fds t), p) :: t_fds t) (t_files t)) (b_log w));
  s_write fd s w := (strlen s, mk_boxed (b_files w) (b_log w ++ [Wrote (b_path fd w) s]));
  s_close fd w := (tt, mk_boxed (k_close fd (b_files w)).2 (b_log w));
  s_socket w := let t := b_files w in
    (toy_next (t_fds t), mk_boxed (mk_toy ((toy_next (t_fds t), "socket"%string) :: t_fds t) (t_files t)) (b_log w));
  s_ioctl _ _ w := (0, w);
  s_getpid := 100
|}.
#[export] Instance box_journal : Journal boxed := { journal := b_log; fd_path w fd := b_path fd w }.
#[export] Instance box_ledger : Ledger boxed := fun w => held (b_files w).

#[export] Instance box_logged r : JournalLaws boxed (H:=box r).
Proof.
  split; try (intros; simpl; done).
  - intros c w. simpl. destruct (r c); simpl; [by rewrite app_nil_r|done].
  - intros p f w. simpl. split; [done|]. intros _. unfold b_path, toy_path. simpl. by rewrite Z.eqb_refl.
  - intros fd s w. simpl. by rewrite Z.eqb_refl.
Qed.

Lemma box_acquires (w : toy) p : let fd := toy_next (t_fds w) in
  Fd fd ∉ held w /\ held (mk_toy ((fd, p) :: t_fds w) (t_files w)) = {[Fd fd]} ∪ held w.
Proof.
  split; [|done]. rewrite toy_held. intros [q Hq]. apply toy_next_above in Hq. simpl in Hq. lia.
Qed.

#[export] Instance box_laws r : SystemLaws boxed (H0:=box r).
Proof.
  split; try (intros; intros w; simpl; repeat case_match; done).
  - intros p f w. simpl. pose proof (toy_next_pos (t_fds (b_files w))). split; [|lia]. intros _. apply box_acquires.
  - intros w. simpl. pose proof (toy_next_pos (t_fds (b_files w))). split; [|lia]. intros _. apply box_acquires.
  - intros fd w. apply (close_back fd (b_files w)).
Qed.

Definition box0 : boxed := mk_boxed (mk_toy [] ∅) [].
Definition audio_sandbox : sandbox_config_t := sandbox_core_get_service_config 100 (Some "audio"%string).


Lemma sandbox_no_leak_witness :
  (sandbox_apply_config (H:=box (fun _ => false)) (Some audio_sandbox) box0).1 = 0 /\
  held (sandbox_apply_config (H:=box (fun _ => false)) (Some audio_sandbox) box0).2 = held box0.
Proof.
  split; [by vm_compute|].
  exact (proj1 (sandbox_no_leak (H0:=box (fun _ => false)) (Some audio_sandbox) None 0) box0).
Defined.

(** ** What the configurations of the services do *)

(** The four are valid. *)
Lemma service_configs_valid pid nm : 0 <= pid < 2 ^ 31 -> nm ∈ ["audio"; "camera"; "sensor"; "network"]%string ->
  contains "/" (default "" (cgroup_name (sandbox_core_get_service_config pid (Some nm)))) = false ->
  contains ".." (default "" (cgroup_name (sandbox_core_get_service_config pid (Some nm)))) = false ->
  sandbox_core_validate_config (Some (sandbox_core_get_service_config pid (Some nm))) = 0.
Proof.
  intros Hp Hn H1 H2.
  repeat (apply elem_of_cons in Hn as [->|Hn]); [..|by apply not_elem_of_nil in Hn];
    cbn -[contains snprintf append decimal] in *; by rewrite H1, H2.
Qed.

(** The loopback interface, which every one of them enables, is never brought up: that
    needs a network namespace with access to the internet, and no configuration has both. *)
Lemma loopback_never_up pid nm : let c := sandbox_core_get_service_config pid nm in
  enable_loopback (network c) = true /\ enable_net_ns c && enable_internet (network c) = false.
Proof.
  destruct nm as [nm|]; [|done]. cbv zeta. unfold sandbox_core_get_service_config.
  destruct (List.find _ service_configs) as [[[n l] net]|]; [|done]. by destruct net.
Qed.

(** Each service gets an empty root without the devices it serves, and binds nothing. *)
Lemma empty_root pid nm : let c := sandbox_core_get_service_config pid nm in
  enable_mount_ns c = true /\ chroot_path c = None /\ bindings c = [].
Proof.
  destruct nm as [nm|]; [|done]. cbv zeta. unfold sandbox_core_get_service_config.
  by destruct (List.find _ service_configs) as [[[n l] net]|].
Qed.

(** When a later step fails, the process kills the control group it has just joined, and
    with it itself: -1 is never returned where the kernel does what "1" in cgroup.kill
    asks for. *)
Lemma failed_sandbox_kills_itself :
  let no_ns c := match c with Unshare _ => true | _ => false end in
  let r := sandbox_apply_config (H:=box no_ns) (Some audio_sandbox) box0 in
  r.1 = -1 /\
  [Wrote "/sys/fs/cgroup/middleware_audio_100/cgroup.procs" "100";
   Wrote "/sys/fs/cgroup/middleware_audio_100/cgroup.kill" "1"] `sublist_of` journal r.2.
Proof.
  split; [by vm_compute|]. vm_compute. repeat first [apply sublist_nil_l|apply sublist_skip|apply sublist_cons].
Qed.

(** A binding that must be there and cannot be mounted is passed over. *)
Lemma binding_failure_ignored :
  let b := mk_binding (Some "/dev/snd"%string) (Some "/dev/snd"%string) false false in
  let no_dev c := match c with Access _ => true | _ => false end in
  (sandbox_mount_add_binding (H:=box no_dev) (Some b) box0).1 = -1 /\
  (sandbox_apply_config (H:=box no_dev)
     (Some (mk_sandbox true false false false false false 1 1 None (mk_limits 0 0 0 0 0) false None (mk_net false false) [b]))
     box0).1 = 0.
Proof. split; by vm_compute. Qed.
