(* ===== verification/SecurityManager.v ===== *)
(** * The security manager (security/core/security_manager.c)

    Four layers put around a service: the key for verification, the sandbox, the
    capabilities, the filter of system calls.  Against the manager a layer is a class of
    operations on the world; the instance below puts the models of the layers ([Verify],
    [Sandbox], [Capabilities], [Seccomp]) behind it.  Messages to the log are left out. *)

From S2P Require Import Prelude CText HalDevice Verify Capabilities Seccomp Sandbox.

(** [dev/security/core/security_manager.h:9-16 security_state_t] *)
Inductive security_state_t :=
| SEC_STATE_UNINITIALIZED | SEC_STATE_SANDBOX_APPLIED | SEC_STATE_CAPABILITIES_APPLIED
| SEC_STATE_SECCOMP_APPLIED | SEC_STATE_VERIFY_INITIALIZED | SEC_STATE_FULLY_SECURED.
#[export] Instance security_state_eq : EqDecision security_state_t.
Proof. solve_decision. Defined.

(** [dev/security/core/security_manager.h:18-27 security_full_config_t] *)
Record security_full_config_t := mk_full {
  sandbox : sandbox_config_t; capabilities : capabilities_config_t; seccomp : seccomp_config_t;
  verify_key_file : option string;
  skip_sandbox : Z; skip_capabilities : Z; skip_seccomp : Z; skip_verify : Z
}.

(** [dev/security/core/security_manager.h:29-36 security_manager_t] *)
Record security_manager_t := mk_mgr {
  sec_state : security_state_t; sandbox_applied : bool; capabilities_applied : bool; seccomp_applied : bool;
  verify_initialized : bool; verify_ctx : verify_context_t
}.

(** What a layer does, for the manager. *)
Class Layers (W : Type) := {
  verify_key : string -> verify_context_t -> M W (Z * verify_context_t);
  apply_sandbox : sandbox_config_t -> M W Z;
  destroy_cgroup : option string -> M W Z;
  apply_capabilities : capabilities_config_t -> M W Z;
  apply_seccomp : seccomp_config_t -> M W Z;
  seccomp_cleanup : M W unit
}.

(** [dev/security/core/security_manager.c:12-18 security_manager_init] *)
Definition security_manager_init : security_manager_t :=
  mk_mgr SEC_STATE_UNINITIALIZED false false false false zero_ctx.

Section manager.
Context {W : Type} `{Layers W}.

(** The manager's functions take the manager and give it back changed. *)
Notation MM := (M (security_manager_t * W)).

Definition get_mgr : MM security_manager_t := fun s => (s.1, s).
Definition set_mgr (m : security_manager_t) : MM unit := fun s => (tt, (m, s.2)).
Definition layer {A} (m : M W A) : MM A := fun s => let '(x, w) := m s.2 in (x, (s.1, w)).

(** [dev/security/core/security_manager.c:20-34 security_manager_apply_sandbox] *)
Definition security_manager_apply_sandbox (cfg : sandbox_config_t) : MM Z :=
  m ← get_mgr;
  if seccomp_applied m then mret (-1)
  else
    rc ← layer (apply_sandbox cfg);
    if rc <? 0 then mret (-1)
    else
      _ ← set_mgr (mk_mgr SEC_STATE_SANDBOX_APPLIED true (capabilities_applied m) (seccomp_applied m)
                     (verify_initialized m) (verify_ctx m));
      mret 0.

(** [dev/security/core/security_manager.c:36-50 security_manager_apply_capabilities] *)
Definition security_manager_apply_capabilities (cfg : capabilities_config_t) : MM Z :=
  m ← get_mgr;
  if seccomp_applied m then mret (-1)
  else
    rc ← layer (apply_capabilities cfg);
    if rc <? 0 then mret (-1)
    else
      _ ← set_mgr (mk_mgr SEC_STATE_CAPABILITIES_APPLIED (sandbox_applied m) true (seccomp_applied m)
                     (verify_initialized m) (verify_ctx m));
      mret 0.

(** [dev/security/core/security_manager.c:52-63 security_manager_apply_seccomp] *)
Definition security_manager_apply_seccomp (cfg : seccomp_config_t) : MM Z :=
  m ← get_mgr;
  rc ← layer (apply_seccomp cfg);
  if rc <? 0 then mret (-1)
  else
    _ ← set_mgr (mk_mgr SEC_STATE_SECCOMP_APPLIED (sandbox_applied m) (capabilities_applied m) true
                   (verify_initialized m) (verify_ctx m));
    mret 0.

(** [dev/security/core/security_manager.c:65-76 security_manager_init_verify] *)
Definition security_manager_init_verify (key_file : option string) : MM Z :=
  match key_file with
  | None => mret (-1)
  | Some f =>
      m ← get_mgr;
      r ← layer (verify_key f (verify_ctx m));
      if r.1 <? 0 then
        _ ← set_mgr (mk_mgr (sec_state m) (sandbox_applied m) (capabilities_applied m) (seccomp_applied m)
                       (verify_initialized m) r.2);
        mret (-1)
      else
        _ ← set_mgr (mk_mgr SEC_STATE_VERIFY_INITIALIZED (sandbox_applied m) (capabilities_applied m)
                       (seccomp_applied m) true r.2);
        mret 0
  end.

(** [dev/security/core/security_manager.c:119-136 security_manager_apply_all, rollback] *)
Definition rollback (cfg : security_full_config_t) : MM Z :=
  m ← get_mgr;
  _ ← (if sandbox_applied m
       then match wanted_cgroup (sandbox cfg) with
            | Some g => layer (destroy_cgroup (Some g))
            | None => mret 0
            end
       else mret 0);
  _ ← set_mgr (mk_mgr SEC_STATE_UNINITIALIZED false false false false
                 (if verify_initialized m then verify_cleanup (verify_ctx m) else verify_ctx m));
  mret (-1).

Definition wants_verify (c : security_full_config_t) : bool :=
  (skip_verify c =? 0) && match verify_key_file c with Some _ => true | None => false end.

(** [dev/security/core/security_manager.c:78-137 security_manager_apply_all] *)
Definition security_manager_apply_all (cfg : option security_full_config_t) : MM Z :=
  match cfg with
  | None => mret (-1)
  | Some c =>
      rc ← (if wants_verify c then security_manager_init_verify (verify_key_file c) else mret 0);
      if rc <? 0 then rollback c
      else
        rc ← (if skip_sandbox c =? 0 then security_manager_apply_sandbox (sandbox c) else mret 0);
        if rc <? 0 then rollback c
        else
          rc ← (if skip_capabilities c =? 0 then security_manager_apply_capabilities (capabilities c) else mret 0);
          if rc <? 0 then rollback c
          else
            rc ← (if skip_seccomp c =? 0 then security_manager_apply_seccomp (seccomp c) else mret 0);
            if rc <? 0 then rollback c
            else
              m ← get_mgr;
              _ ← set_mgr (mk_mgr SEC_STATE_FULLY_SECURED (sandbox_applied m) (capabilities_applied m)
                             (seccomp_applied m) (verify_initialized m) (verify_ctx m));
              mret 0
  end.

(** [dev/security/core/security_manager.c:224-236 security_manager_cleanup] *)
Definition security_manager_cleanup : MM unit :=
  _ ← layer seccomp_cleanup;
  set_mgr security_manager_init.
End manager.

(** [dev/security/core/security_manager.c:139-143 security_manager_get_state] *)
Definition security_manager_get_state (m : option security_manager_t) : security_state_t :=
  match m with None => SEC_STATE_UNINITIALIZED | Some m => sec_state m end.

(** [dev/security/core/security_manager.c:153-166 security_manager_default_config, the filter] *)
Definition service_seccomp (nm : string) : service_type_t :=
  if String.eqb nm "audio" then SERVICE_TYPE_AUDIO
  else if String.eqb nm "camera" then SERVICE_TYPE_CAMERA
  else if String.eqb nm "sensor" then SERVICE_TYPE_SENSOR
  else if String.eqb nm "network" then SERVICE_TYPE_NETWORK
  else SERVICE_TYPE_MINIMAL.

(** [dev/security/core/security_manager.c:145-175 security_manager_default_config] *)
Definition security_manager_default_config (pid : Z) (getgrnam : string -> option Z)
    (dynamic : list service_capabilities_t) (nm : string) : security_full_config_t :=
  mk_full (sandbox_core_get_service_config pid (Some nm)) (capabilities_policy_get_config getgrnam dynamic nm)
    (seccomp_get_default_config (service_seccomp nm)) None 0 0 0 1.

(** ** The configuration file *)

(** [sscanf (line, "%63[^=]=%127[^\n]", key, value) == 2]: the two texts. *)
Definition scan_setting (line : string) : option (string * string) :=
  match cut "=" line with
  | Some (k, rest) =>
      let v := strncpy_z 127 (before newline rest) in
      if (String.eqb k "" || Nat.ltb 63 (String.length k) || String.eqb v "")%bool then None else Some (k, v)
  | None => None
  end.

Definition with_skips (c : security_full_config_t) (a b s v : Z) : security_full_config_t :=
  mk_full (sandbox c) (capabilities c) (seccomp c) (verify_key_file c) a b s v.
Definition with_limits (c : security_full_config_t) (l : resource_limits_t) : security_full_config_t :=
  let s := sandbox c in
  mk_full (mk_sandbox (enable_pid_ns s) (enable_net_ns s) (enable_mount_ns s) (enable_ipc_ns s) (enable_user_ns s)
             (enable_uts_ns s) (real_uid s) (real_gid s) (chroot_path s) l (enable_cgroups s) (cgroup_name s)
             (network s) (bindings s))
    (capabilities c) (seccomp c) (verify_key_file c) (skip_sandbox c) (skip_capabilities c) (skip_seccomp c)
    (skip_verify c).

(** [dev/security/core/security_manager.c:196-216 security_manager_load_config, one setting] *)
Definition security_setting (k v : string) (c : security_full_config_t) : security_full_config_t :=
  let l := limits (sandbox c) in
  if String.eqb k "skip_sandbox"
  then with_skips c (atoi v) (skip_capabilities c) (skip_seccomp c) (skip_verify c)
  else if String.eqb k "skip_capabilities"
  then with_skips c (skip_sandbox c) (atoi v) (skip_seccomp c) (skip_verify c)
  else if String.eqb k "skip_seccomp"
  then with_skips c (skip_sandbox c) (skip_capabilities c) (atoi v) (skip_verify c)
  else if String.eqb k "skip_verify"
  then with_skips c (skip_sandbox c) (skip_capabilities c) (skip_seccomp c) (atoi v)
  else if String.eqb k "verify_key_file"
  then mk_full (sandbox c) (capabilities c) (seccomp c) (Some v) (skip_sandbox c) (skip_capabilities c)
         (skip_seccomp c) (skip_verify c)
  else if String.eqb k "memory_limit_mb"
  then with_limits c (mk_limits (u64 (default 0 (strtol 10 v))) (cpu_quota_percent l) (cpu_weight l) (io_weight l)
         (pids_limit l))
  else if String.eqb k "cpu_quota_percent"
  then with_limits c (mk_limits (memory_limit_mb l) (u32 (atoi v)) (cpu_weight l) (io_weight l) (pids_limit l))
  else if String.eqb k "pids_limit"
  then with_limits c (mk_limits (memory_limit_mb l) (cpu_quota_percent l) (cpu_weight l) (io_weight l)
         (u32 (atoi v)))
  else c.

(** [dev/security/core/security_manager.c:193-217 security_manager_load_config, one line] *)
Definition security_line (c : security_full_config_t) (line : string) : security_full_config_t :=
  match line with
  | String ch _ =>
      if Ascii.eqb ch "#" || Ascii.eqb ch newline then c
      else match scan_setting line with Some (k, v) => security_setting k v c | None => c end
  | EmptyString => c
  end.

(** [dev/security/core/security_manager.c:177-222 security_manager_load_config] [file]: the
    text of a file that opens. *)
Definition security_manager_load_config (file : string -> option string) (p : option string)
    (c : security_full_config_t) : Z * security_full_config_t :=
  match p with
  | None => (-1, c)
  | Some p =>
      match file p with
      | None => (-1, c)
      | Some text => (0, fold_left security_line (fgets_lines 256 text) c)
      end
  end.

(** ** All layers or none *)

Section all_layers.
Context {W : Type} `{Layers W}.

(** The calls a configuration asks for, in the order in which they must come. *)
Definition layer_calls (c : security_full_config_t) (v : verify_context_t) : list (M W Z) :=
  (match verify_key_file c with
   | Some f => if skip_verify c =? 0 then [r ← verify_key f v; mret r.1] else []
   | None => []
   end) ++
  (if skip_sandbox c =? 0 then [apply_sandbox (sandbox c)] else []) ++
  (if skip_capabilities c =? 0 then [apply_capabilities (capabilities c)] else []) ++
  (if skip_seccomp c =? 0 then [apply_seccomp (seccomp c)] else []).

(** One after the other, up to the first that fails. *)
Fixpoint all_succeed (calls : list (M W Z)) : M W bool :=
  match calls with
  | [] => mret true
  | m :: calls => rc ← m; if rc <? 0 then mret false else all_succeed calls
  end.

Lemma all_succeed_app l1 l2 w : all_succeed (l1 ++ l2) w =
  let '(ok, w') := all_succeed l1 w in if (ok : bool) then all_succeed l2 w' else (false, w').
Proof.
  revert w. induction l1 as [|m l1 IH]; intros w; [done|]. simpl. unfold mbind, M_bind.
  destruct (m w) as [rc w']. by destruct (rc <? 0).
Qed.

(** What a manager's step does when its layer may still be applied. *)
Definition stepped (go : bool) (call : M W Z) (m' : security_manager_t) (p : M (security_manager_t * W) Z) m w : Prop :=
  if go then
    let '(rc, w') := call w in
    if rc <? 0 then exists m1, (sandbox_applied m1, seccomp_applied m1) = (sandbox_applied m, seccomp_applied m) /\
                      p (m, w) = (-1, (m1, w'))
    else p (m, w) = (0, (m', w'))
  else p (m, w) = (0, (m, w)).

Definition has_sandbox (m : security_manager_t) := mk_mgr SEC_STATE_SANDBOX_APPLIED true (capabilities_applied m)
  (seccomp_applied m) (verify_initialized m) (verify_ctx m).
Definition has_capabilities (m : security_manager_t) := mk_mgr SEC_STATE_CAPABILITIES_APPLIED (sandbox_applied m) true
  (seccomp_applied m) (verify_initialized m) (verify_ctx m).
Definition has_seccomp (m : security_manager_t) := mk_mgr SEC_STATE_SECCOMP_APPLIED (sandbox_applied m)
  (capabilities_applied m) true (verify_initialized m) (verify_ctx m).

Lemma sandbox_stepped c m w : seccomp_applied m = false ->
  stepped (skip_sandbox c =? 0) (apply_sandbox (sandbox c)) (has_sandbox m)
    (if skip_sandbox c =? 0 then security_manager_apply_sandbox (sandbox c) else mret 0) m w.
Proof.
  intros Hm. unfold stepped, security_manager_apply_sandbox, get_mgr, layer, mbind, M_bind. case_match; [|done].
  simpl. rewrite Hm. simpl. destruct (apply_sandbox (sandbox c) w) as [rc w']. destruct (rc <? 0); [exists m; by rewrite Hm|].
  unfold set_mgr, has_sandbox, has_capabilities. simpl. by rewrite Hm.
Qed.

Lemma capabilities_stepped c m w : seccomp_applied m = false ->
  stepped (skip_capabilities c =? 0) (apply_capabilities (capabilities c)) (has_capabilities m)
    (if skip_capabilities c =? 0 then security_manager_apply_capabilities (capabilities c) else mret 0) m w.
Proof.
  intros Hm. unfold stepped, security_manager_apply_capabilities, get_mgr, layer, mbind, M_bind. case_match; [|done].
  simpl. rewrite Hm. simpl. destruct (apply_capabilities (capabilities c) w) as [rc w']. destruct (rc <? 0); [exists m; by rewrite Hm|].
  unfold set_mgr, has_sandbox, has_capabilities. simpl. by rewrite Hm.
Qed.

Lemma seccomp_stepped c m w :
  stepped (skip_seccomp c =? 0) (apply_seccomp (seccomp c)) (has_seccomp m)
    (if skip_seccomp c =? 0 then security_manager_apply_seccomp (seccomp c) else mret 0) m w.
Proof.
  unfold stepped, security_manager_apply_seccomp, get_mgr, layer, mbind, M_bind. case_match; [|done].
  simpl. destruct (apply_seccomp (seccomp c) w) as [rc w']. by destruct (rc <? 0); [exists m|].
Qed.

(** Undoing: the control group of an applied sandbox is destroyed; nothing else is done to
    the process. *)
Definition undone (c : security_full_config_t) (m : security_manager_t) (w : W) : W :=
  if sandbox_applied m then
    match wanted_cgroup (sandbox c) with Some g => (destroy_cgroup (Some g) w).2 | None => w end
  else w.

Definition unsecured (m : security_manager_t) : Prop :=
  sec_state m = SEC_STATE_UNINITIALIZED /\ sandbox_applied m = false /\ capabilities_applied m = false /\
  seccomp_applied m = false /\ verify_initialized m = false.

Lemma rollback_spec c m w :
  (rollback c (m, w)).1 = -1 /\ (rollback c (m, w)).2.2 = undone c m w /\ unsecured (rollback c (m, w)).2.1.
Proof.
  unfold rollback, undone, get_mgr, set_mgr, layer, mbind, M_bind, mret, M_ret. simpl.
  destruct (sandbox_applied m); [|done]. destruct (wanted_cgroup _); [|done]. simpl.
  by destruct (destroy_cgroup _ w).
Qed.

(** What a manager has applied when all calls have succeeded. *)
Definition secured (c : security_full_config_t) (m m' : security_manager_t) : Prop :=
  sec_state m' = SEC_STATE_FULLY_SECURED /\
  sandbox_applied m' = (skip_sandbox c =? 0) || sandbox_applied m /\
  capabilities_applied m' = (skip_capabilities c =? 0) || capabilities_applied m /\
  seccomp_applied m' = (skip_seccomp c =? 0) /\
  verify_initialized m' = wants_verify c || verify_initialized m.

Lemma verify_stepped c m w :
  let go := wants_verify c in
  let '(ok, w') := all_succeed (match verify_key_file c with
     | Some f => if skip_verify c =? 0 then [r ← verify_key f (verify_ctx m); mret r.1] else []
     | None => []
     end) w in
  let '(rc, (m1, w1)) := (if go then security_manager_init_verify (verify_key_file c) else mret 0) (m, w) in
  w1 = w' /\ rc = (if (ok : bool) then 0 else -1) /\
  (sandbox_applied m1, capabilities_applied m1, seccomp_applied m1) =
    (sandbox_applied m, capabilities_applied m, seccomp_applied m) /\
  (ok = true -> verify_initialized m1 = go || verify_initialized m).
Proof.
  cbv zeta. unfold wants_verify, security_manager_init_verify.
  destruct (verify_key_file c) as [f|]; [|by rewrite andb_false_r]. rewrite andb_true_r.
  destruct (skip_verify c =? 0); [|done]. simpl. unfold get_mgr, set_mgr, layer, mbind, M_bind, mret, M_ret. simpl.
  destruct (verify_key f (verify_ctx m) w) as [[rc v] w']. simpl. by destruct (rc <? 0).
Qed.

Definition failed (c : security_full_config_t) (m : security_manager_t) (w : W)
    (r : Z * (security_manager_t * W)) : Prop :=
  r.1 = -1 /\ unsecured r.2.1 /\
  (r.2.2 = w \/ sandbox_applied m || (skip_sandbox c =? 0) = true /\
     r.2.2 = (destroy_cgroup (wanted_cgroup (sandbox c)) w).2 /\ wanted_cgroup (sandbox c) <> None).

(** A rest of the program does the rest of the calls. *)
Definition meets c m0 (k : M (security_manager_t * W) Z) m (calls : list (M W Z)) : Prop := forall w,
  let r := k (m, w) in
  let a := all_succeed calls w in
  if a.1 then r.1 = 0 /\ r.2.2 = a.2 /\ secured c m0 r.2.1 else failed c m0 a.2 r.

Definition may_undo c m0 (m : security_manager_t) : Prop :=
  sandbox_applied m = true -> sandbox_applied m0 || (skip_sandbox c =? 0) = true.

Lemma rollback_failed c m0 m w : may_undo c m0 m -> failed c m0 w (rollback c (m, w)).
Proof.
  intros Hs. destruct (rollback_spec c m w) as (H1 & H2 & H3). split_and!; [done..|]. rewrite H2. unfold undone.
  destruct (sandbox_applied m) eqn:Hm; [|by left]. destruct (wanted_cgroup _) eqn:Hg; [right|by left].
  by rewrite Hs.
Qed.

Lemma meets_step c m0 (go : bool) call m' p k m calls :
  (forall w, stepped go call m' p m w) -> may_undo c m0 m -> meets c m0 k (if go then m' else m) calls ->
  meets c m0 (rc ← p; if rc <? 0 then rollback c else k) m ((if go then [call] else []) ++ calls).
Proof.
  intros Hp Hm Hk w. cbv zeta. rewrite all_succeed_app. specialize (Hp w). unfold stepped in Hp.
  unfold mbind, M_bind. destruct go; simpl.
  - unfold mbind, M_bind. destruct (call w) as [rc w']. destruct (rc <? 0).
    + destruct Hp as (m1 & Hm1 & ->). simpl. apply rollback_failed. injection Hm1 as Hs _. unfold may_undo. by rewrite Hs.
    + rewrite Hp. simpl. apply Hk.
  - rewrite Hp. simpl. apply Hk.
Qed.

Lemma bind_run {S A B} (p : M S A) (f : A -> M S B) s : (p ≫= f) s = let '(x, s') := p s in f x s'.
Proof. done. Qed.

(** C20: Applying the whole configuration is doing, in the order key, sandbox, capabilities,
    filter, exactly the calls the configuration does not skip, up to the first that fails.
    If none fails 0 is returned and the manager says what is in place.  Otherwise -1 is
    returned, the manager says that nothing is in place, and of what was done only the
    control group is destroyed. *)
Theorem apply_all_exact c m w : seccomp_applied m = false ->
  let r := security_manager_apply_all (Some c) (m, w) in
  let a := all_succeed (layer_calls c (verify_ctx m)) w in
  if a.1 then r.1 = 0 /\ r.2.2 = a.2 /\ secured c m r.2.1 else failed c m a.2 r.
Proof.
  intros Hm. cbv zeta. pose proof (verify_stepped c m w) as Hv. unfold layer_calls. rewrite all_succeed_app.
  cbv zeta in Hv. destruct (all_succeed (match verify_key_file c with Some _ => _ | None => _ end) w) as [ok w1].
  unfold security_manager_apply_all. rewrite bind_run.
  destruct ((if wants_verify c then security_manager_init_verify (verify_key_file c) else mret 0) (m, w))
    as [rc [m1 w1']].
  destruct Hv as (-> & -> & [= Hs Hc Hse] & Hvi).
  assert (Hu : may_undo c m m1) by (unfold may_undo; rewrite Hs; by intros ->).
  destruct ok; [|by apply rollback_failed]. specialize (Hvi eq_refl). rewrite Hm in Hse.
  change (0 <? 0) with false. cbv iota. apply (meets_step c m _ _ (has_sandbox m1)); [by intros; apply sandbox_stepped|done|].
  set (m2 := if skip_sandbox c =? 0 then has_sandbox m1 else m1).
  assert (Hu2 : may_undo c m m2).
  { unfold m2. destruct (skip_sandbox c =? 0) eqn:E; [|done]. intros _. by rewrite E, orb_true_r. }
  assert (Hs2 : seccomp_applied m2 = false) by (unfold m2; by case_match).
  apply (meets_step c m _ _ (has_capabilities m2)); [by intros; apply capabilities_stepped|done|].
  set (m3 := if skip_capabilities c =? 0 then has_capabilities m2 else m2).
  assert (Hu3 : may_undo c m m3) by (unfold m3; by case_match).
  rewrite <- (app_nil_r (if skip_seccomp c =? 0 then _ else _)).
  apply (meets_step c m _ _ (has_seccomp m3)); [intros; apply seccomp_stepped|done|].
  intros w'. simpl. split_and!; [done..|]. unfold secured. simpl. unfold m3, m2.
  destruct (skip_sandbox c =? 0), (skip_capabilities c =? 0), (skip_seccomp c =? 0); simpl;
    by rewrite ?Hs, ?Hc, ?Hse, ?Hvi.
Qed.
End all_layers.

(** A manager that has its filter in place cannot be applied again: the sandbox is refused,
    and the manager then says that nothing is in place, of which nothing but the control
    group is true. *)
Lemma reapply_forgets {W} `{Layers W} c m w : seccomp_applied m = true -> skip_verify c <> 0 -> skip_sandbox c = 0 ->
  let r := security_manager_apply_all (Some c) (m, w) in
  r.1 = -1 /\ unsecured r.2.1 /\ r.2.2 = undone c m w.
Proof.
  intros Hm Hv Hs. assert (Hr : security_manager_apply_all (Some c) (m, w) = rollback c (m, w)).
  { unfold security_manager_apply_all, wants_verify. rewrite (proj2 (Z.eqb_neq _ _) Hv), Hs. cbn [andb Z.eqb].
    unfold security_manager_apply_sandbox, get_mgr, mbind, M_bind, mret, M_ret. cbn [Z.ltb Z.compare fst].
    by rewrite Hm. }
  rewrite Hr. cbv zeta. destruct (rollback_spec c m w) as (? & ? & ?). by split_and!.
Qed.

(** ** The layers as they are *)

(** What the calls need from outside: the bytes of a key file, whether its lock can be
    made, the descriptors of the devices, memory, the result of PR_SET_NO_NEW_PRIVS. *)
Record sec_env := mk_secenv {
  key_bytes : string -> option (list Z); key_lock : bool; device_fd : string -> Z; device_mem : bool; no_new_privs : Z
}.

(** A process: what the sandbox sees of it, its credentials, the filter module, its filter. *)
Record host (W K C : Type) := mk_host {
  h_system : W; h_creds : K; h_seccomp : seccomp_state; h_filter : option C
}.
Arguments mk_host {W K C}. Arguments h_system {W K C}. Arguments h_creds {W K C}. Arguments h_seccomp {W K C}.
Arguments h_filter {W K C}.

Section host.
Context {W K C : Type} `{System W} `{Capabilities.Kernel K} `{Seccomp C} (o : sec_env).

Definition in_system (m : M W Z) : M (host W K C) Z := fun h =>
  let '(rc, w) := m (h_system h) in (rc, mk_host w (h_creds h) (h_seccomp h) (h_filter h)).

#[local] Instance host_layers : Layers (host W K C) := {
  verify_key f v h := (verify_init_from_file (key_bytes o f) (key_lock o) v, h);
  apply_sandbox c := in_system (sandbox_apply_config (Some c));
  destroy_cgroup g := in_system (sandbox_cgroup_destroy g);
  apply_capabilities c h :=
    let '(rc, k) := capabilities_core_apply_config (Some c) (h_creds h) in
    (rc, mk_host (h_system h) k (h_seccomp h) (h_filter h));
  apply_seccomp c h :=
    let '(rc, s, f) := seccomp_apply_config (device_fd o) (device_mem o) (no_new_privs o) (Some c) (h_seccomp h) in
    (rc, mk_host (h_system h) (h_creds h) s (match f with Some f => Some f | None => h_filter h end));
  seccomp_cleanup h :=
    (tt, mk_host (h_system h) (h_creds h)
           (seccomp_core_cleanup_monitoring (seccomp_core_cleanup_device_fds (h_seccomp h)).1).1 (h_filter h))
}.

(** A filter is reported only when one is loaded. *)
Lemma filter_loaded c h : 0 <= (apply_seccomp c h).1 -> exists f, h_filter (apply_seccomp c h).2 = Some f.
Proof.
  simpl. unfold seccomp_apply_config. repeat (case_match; simplify_eq/=); try lia; eauto.
Qed.
End host.

(** ** The audio service with its layers *)

Definition sec_env0 : sec_env :=
  mk_secenv (fun _ => Some (repeat 7 32)) true (fun _ => -1) true 0.
Definition audio_security : security_full_config_t := security_manager_default_config 100 (fun _ => None) [] "audio".
Definition host0 : host boxed creds rules := mk_host box0 root_creds seccomp_state0 None.
Definition layers0 : Layers (host boxed creds rules) :=
  host_layers (H:=box (fun _ => false)) (H0:=Capabilities.linux) (H1:=rules_seccomp) sec_env0.

Lemma apply_all_exact_witness :
  let r := security_manager_apply_all (H:=layers0) (Some audio_security) (security_manager_init, host0) in
  (all_succeed (layer_calls (H:=layers0) audio_security zero_ctx) host0).1 = true /\
  r.1 = 0 /\ secured audio_security security_manager_init r.2.1.
Proof.
  pose proof (apply_all_exact (H:=layers0) audio_security security_manager_init host0 eq_refl) as Ha.
  assert (Hok : (all_succeed (layer_calls (H:=layers0) audio_security zero_ctx) host0).1 = true) by (by vm_compute).
  cbv zeta in *. change (verify_ctx security_manager_init) with zero_ctx in Ha. rewrite Hok in Ha.
  destruct Ha as (H1 & _ & H2). by split_and!.
Defined.

(** The steps undone: what a failing filter leaves of root is nothing, though the manager
    says that nothing was done. *)
Lemma rollback_keeps_capabilities_dropped :
  let o := mk_secenv (fun _ => None) true (fun _ => -1) true (-1) in
  let r := security_manager_apply_all
             (H:=host_layers (H:=box (fun _ => false)) (H0:=Capabilities.linux) (H1:=rules_seccomp) o)
             (Some audio_security) (security_manager_init, host0) in
  r.1 = -1 /\ unsecured r.2.1 /\ cr_uid (h_creds r.2.2) <> cr_uid root_creds.
Proof. split_and!; by vm_compute. Qed.
