(* ===== verification/ServiceIpc.v ===== *)
(** * Services and the daemon (services/common/service_ipc.c)

    The side of a service: every call opens a connection, signs one message with the key
    of the verification library (Verify), sends it, reads the four-byte reply and closes.
    The peer is an argument that carries a state of its own, so that the theorems put the
    daemon of Handlers behind it.  A NULL context is left out. *)

From S2P Require Import Prelude CText Verify Registry Crypto Protocol RateLimit Handlers.

Definition SVC_OK : Z := 0.
Definition SVC_ERR_INVALID : Z := -2.
Definition SVC_ERR_IPC : Z := -11.
Definition SVC_ERR_NOMEM : Z := -13.

Definition SM_SOCKET_PATH : string := "/run/middleware/servicemanager.sock"%string.
Definition SVC_MSG_REGISTER : Z := 1.
Definition SVC_MSG_HEARTBEAT : Z := 3.
Definition SVC_MSG_UNREGISTER : Z := 4.

(** [dev/services/common/service_ipc.h:50-55 svc_auth_token_t] *)
Record svc_auth_token_t := mk_svctok {
  tok_data : list Z; tok_len : Z; tok_permissions : Z; tok_expires_at : Z
}.

(** [dev/services/common/service_ipc.h:69-82 svc_ipc_t] *)
Record svc_ipc_t := mk_ipc {
  ipc_fd : Z;
  ipc_name : string;
  ipc_socket_path : string;
  verify_key_path : string;
  auth_token : svc_auth_token_t;
  last_nonce : Z;
  last_heartbeat : Z;
  reconnect_backoff_sec : Z;
  reconnect_backoff_max : Z;
  registered : bool;
  verify_ctx : option verify_context_t
}.

Definition no_token : svc_auth_token_t := mk_svctok (replicate 64 0) 0 0 0.

(** [dev/services/common/service_ipc.c:193-220 service_ipc_init] [mem]: the allocation;
    [file]: the bytes of a file that opens; [lock]: the mutex could be initialised. *)
Definition service_ipc_init (service_name key_path : option string) (mem : bool)
    (file : string -> option (list Z)) (lock : bool) (ipc : svc_ipc_t) : Z * svc_ipc_t :=
  match service_name with
  | None => (SVC_ERR_INVALID, ipc)
  | Some nm =>
      let fresh kp v := mk_ipc (-1) (strncpy_z 63 nm) (strncpy_z 255 SM_SOCKET_PATH) kp no_token
                          0 0 1 30 false v in
      match key_path with
      | None | Some EmptyString => (SVC_OK, fresh ""%string None)
      | Some kp =>
          if negb mem then (SVC_ERR_NOMEM, fresh ""%string None)
          else let '(rc, v) := verify_init_from_file (file kp) lock zero_ctx in
               if negb (rc =? 0) then (SVC_OK, fresh ""%string None)
               else (SVC_OK, fresh (strncpy_z 255 kp) (Some v))
      end
  end.

(** [dev/services/common/service_ipc.c:62-74 fill_header] *)
Definition fill_header (type payload_len now pid nonce : Z) : sm_hdr_t :=
  mk_hdr SM_PROTOCOL_MAGIC SM_PROTOCOL_VERSION type payload_len (u32 now) (u32 pid) nonce
    (replicate 32 0).

(** [dev/services/common/service_ipc.c:83-106 sign_message] *)
Definition sign_message (mem : bool) (ipc : svc_ipc_t) (hdr : sm_hdr_t) (payload : list Z)
    : Z * sm_hdr_t :=
  match verify_ctx ipc with
  | None => (0, hdr)
  | Some vctx =>
      if negb mem then (-1, hdr)
      else match hmac_sign (key_of vctx) (header_bytes hdr ++ payload) with
           | None => (-1, hdr)
           | Some mac => (0, mk_hdr (magic hdr) (version hdr) (msg_type hdr) (msg_length hdr)
                               (timestamp hdr) (client_pid hdr) (nonce hdr) mac)
           end
  end.

(** What the system answers during a call.  [peer path]: a socket was made and connected
    to the path; the conversation takes what was sent and gives, unless sending failed, what is
    received until the peer closes or time is up. *)
Record call_env (W : Type) := mk_call {
  ce_now : Z; ce_getpid : Z; ce_nonce : Z; ce_mem : bool;
  peer : string -> bool;
  conversation : sm_hdr_t -> list Z -> W -> option (list (list Z)) * W
}.
Arguments mk_call {W}.
Arguments ce_now {W}.
Arguments ce_getpid {W}.
Arguments ce_nonce {W}.
Arguments ce_mem {W}.
Arguments peer {W}.
Arguments conversation {W}.

Section calls.
Context {W : Type}.
Implicit Types (o : call_env W) (ipc : svc_ipc_t) (w : W).

(** [dev/services/common/service_ipc.c:168-189 open_sm_connection] *)
Definition open_sm_connection o ipc : bool := peer o (strncpy_z 107 (ipc_socket_path ipc)).

(** [dev/services/common/service_ipc.c:135-149 recv_exact]
    [chunks]: what arrives, in the portions in which the calls of [recv] get it, until
    the peer closes or time is up. *)
Fixpoint recv_exact (chunks : list (list Z)) (len : nat) : option (list Z) :=
  match len with
  | O => Some []
  | S _ =>
      match chunks with
      | [] | [] :: _ => None
      | c :: chunks' => if Nat.leb (length c) len
                        then app c <$> recv_exact chunks' (len - length c)
                        else Some (take len c)
      end
  end.

(** [dev/services/common/service_ipc.c:156-162 recv_reply_fd] *)
Definition recv_reply_fd (bs : list (list Z)) : option Z :=
  (fun b => i32 (le_val b)) <$> recv_exact bs 4.

(** The context after a call that came as far as its header. *)
Definition with_nonce o ipc : svc_ipc_t :=
  mk_ipc (-1) (ipc_name ipc) (ipc_socket_path ipc) (verify_key_path ipc) (auth_token ipc)
    (ce_nonce o) (last_heartbeat ipc) (reconnect_backoff_sec ipc) (reconnect_backoff_max ipc)
    (registered ipc) (verify_ctx ipc).
Definition set_registered ipc (b : bool) : svc_ipc_t :=
  mk_ipc (ipc_fd ipc) (ipc_name ipc) (ipc_socket_path ipc) (verify_key_path ipc) (auth_token ipc)
    (last_nonce ipc) (last_heartbeat ipc) (reconnect_backoff_sec ipc) (reconnect_backoff_max ipc)
    b (verify_ctx ipc).
Definition set_heartbeat ipc (t : Z) : svc_ipc_t :=
  mk_ipc (ipc_fd ipc) (ipc_name ipc) (ipc_socket_path ipc) (verify_key_path ipc) (auth_token ipc)
    (last_nonce ipc) t (reconnect_backoff_sec ipc) (reconnect_backoff_max ipc)
    (registered ipc) (verify_ctx ipc).

Definition svc_socket (nm : string) : string := ("/run/" ++ nm ++ ".sock")%string.
Definition svc_ring (nm : string) : string := ("/dev/shm/" ++ nm ++ "_ring")%string.

(** [dev/services/common/service_ipc.c:40-45 svc_register_payload_t] as
    service_ipc_register fills it. *)
Definition svc_register_payload (nm : string) (pid : Z) : list Z :=
  register_payload nm (svc_socket nm) (svc_ring nm) pid.

(** [dev/services/common/service_ipc.c:231-283 service_ipc_register] *)
Definition service_ipc_register o (pid : Z) ipc w : Z * svc_ipc_t * W :=
  if negb (open_sm_connection o ipc) then (SVC_ERR_IPC, ipc, w)
  else
    let req := svc_register_payload (ipc_name ipc) pid in
    let hdr := fill_header SVC_MSG_REGISTER 580 (ce_now o) pid (ce_nonce o) in
    let ipc := with_nonce o ipc in
    let '(rc, hdr) := sign_message (ce_mem o) ipc hdr req in
    if negb (rc =? 0) then (SVC_ERR_IPC, ipc, w)
    else
      let '(answer, w) := conversation o hdr req w in
      match answer with
      | None => (SVC_ERR_IPC, ipc, w)
      | Some bs =>
          match recv_reply_fd bs with
          | None => (SVC_ERR_IPC, ipc, w)
          | Some code => if negb (code =? SM_OK) then (SVC_ERR_IPC, ipc, w)
                         else (SVC_OK, set_registered ipc true, w)
          end
      end.

(** [dev/services/common/service_ipc.c:285-320 service_ipc_heartbeat] [later]: the clock
    after the reply. *)
Definition service_ipc_heartbeat o (later : Z) ipc w : Z * svc_ipc_t * W :=
  if negb (open_sm_connection o ipc) then (SVC_ERR_IPC, ipc, w)
  else
    let req := name_payload (ipc_name ipc) in
    let hdr := fill_header SVC_MSG_HEARTBEAT 64 (ce_now o) (ce_getpid o) (ce_nonce o) in
    let ipc := with_nonce o ipc in
    let hdr := (sign_message (ce_mem o) ipc hdr req).2 in
    let '(answer, w) := conversation o hdr req w in
    let rc := match answer with
              | None => SVC_ERR_IPC
              | Some bs => match recv_reply_fd bs with
                           | None => SVC_ERR_IPC
                           | Some code => if negb (code =? SM_OK) then SVC_ERR_IPC else SVC_OK
                           end
              end in
    (rc, if rc =? SVC_OK then set_heartbeat ipc later else ipc, w).

(** [dev/services/common/service_ipc.c:322-326 service_ipc_ping] *)
Definition service_ipc_ping := service_ipc_heartbeat.

(** [dev/services/common/service_ipc.c:328-352 service_ipc_unregister] *)
Definition service_ipc_unregister o ipc w : Z * svc_ipc_t * W :=
  if negb (open_sm_connection o ipc) then (SVC_OK, ipc, w)
  else
    let req := name_payload (ipc_name ipc) in
    let hdr := fill_header SVC_MSG_UNREGISTER 64 (ce_now o) (ce_getpid o) (ce_nonce o) in
    let ipc := with_nonce o ipc in
    let hdr := (sign_message (ce_mem o) ipc hdr req).2 in
    let '(_, w) := conversation o hdr req w in
    (SVC_OK, set_registered ipc false, w).
End calls.

(** [dev/services/common/service_ipc.c:354-366 service_ipc_disconnect] the descriptors
    closed. *)
Definition service_ipc_disconnect (ipc : svc_ipc_t) : svc_ipc_t * list Z :=
  (mk_ipc (if 0 <=? ipc_fd ipc then -1 else ipc_fd ipc) (ipc_name ipc) (ipc_socket_path ipc)
     (verify_key_path ipc) (auth_token ipc) (last_nonce ipc) (last_heartbeat ipc)
     (reconnect_backoff_sec ipc) (reconnect_backoff_max ipc) (registered ipc) None,
   if 0 <=? ipc_fd ipc then [ipc_fd ipc] else []).

(** [dev/services/common/service_ipc.c:222-229 service_ipc_connect] *)
Definition service_ipc_connect (ipc : svc_ipc_t) : Z := SVC_OK.

(** [dev/services/common/service_ipc.c:376-380 service_ipc_is_connected] *)
Definition service_ipc_is_connected (ipc : svc_ipc_t) : bool := registered ipc.

(** ** The daemon as the peer *)

(** [dev/core/service_manager/infrastructure/sm_handlers.c:64-90 send_reply, send_reply_lookup] the
    bytes a client receives before the daemon closes. *)
Definition reply_bytes (r : reply) : list Z :=
  match r with
  | NoReply => []
  | Reply c => le_int32 c
  | ReplyLookup sp rn pid => cbuf 256 sp ++ cbuf 256 rn ++ le_int32 pid
  end.

(** The conversation with a daemon: what was sent is one request, its reply arrives in
    the portions that [chop] makes of it. *)
Definition with_daemon (e : env) (chop : list Z -> list (list Z)) (hdr : sm_hdr_t) (p : list Z)
    (s : server) : option (list (list Z)) * server :=
  let '(r, s') := sm_handle_client e (Received hdr (Some p)) s in (Some (chop (reply_bytes r)), s').

(** Nothing is lost, added or reordered on the way. *)
Definition chops (chop : list Z -> list (list Z)) : Prop :=
  forall bs, concat (chop bs) = bs /\ Forall (fun c => c <> []) (chop bs).

(** ** Replies *)

Lemma recv_exact_concat chunks : Forall (fun c => c <> []) chunks -> forall len,
  recv_exact chunks len = if Nat.ltb (length (concat chunks)) len then None else Some (take len (concat chunks)).
Proof.
  induction 1 as [|c chunks Hc _ IH]; intros len; [by destruct len|].
  destruct len as [|len]; [done|]. destruct c as [|x c]; [done|]. cbn [recv_exact concat].
  set (c0 := x :: c). set (n := S len).
  destruct (Nat.leb_spec (length c0) n) as [Hle|Hlt].
  - rewrite IH, length_app, take_app_ge by lia.
    destruct (Nat.ltb_spec (length (concat chunks)) (n - length c0)),
      (Nat.ltb_spec (length c0 + length (concat chunks)) n); try lia; done.
  - rewrite length_app, take_app_le by lia.
    destruct (Nat.ltb_spec (length c0 + length (concat chunks)) n); [lia|done].
Qed.

Lemma reply_received chop c : chops chop -> - 2 ^ 31 <= c < 2 ^ 31 ->
  recv_reply_fd (chop (reply_bytes (Reply c))) = Some c.
Proof.
  intros Hch Hc. destruct (Hch (reply_bytes (Reply c))) as [Hcat Hne].
  unfold recv_reply_fd. rewrite (recv_exact_concat _ Hne), Hcat. cbn [reply_bytes].
  unfold le_int32. rewrite length_le_bytes. cbn [Nat.ltb Nat.leb fmap option_fmap option_map].
  rewrite take_ge by (by rewrite length_le_bytes). f_equal. rewrite <- (i32_le_bytes c Hc) at 2.
  rewrite !le_val_le_bytes. f_equal. apply Z.mod_mod. lia.
Qed.

(** ** The paths of a valid name *)

Lemma strstr_cons pat c s : strstr pat (String c s) = String.prefix pat (String c s) || strstr pat s.
Proof. reflexivity. Qed.

(** A doubled character cannot begin in a text without it. *)
Lemma strstr_doubled d nm rest :
  Forall (fun c => c <> d) (list_ascii_of_string nm) ->
  strstr (String d (String d "")) (nm ++ rest) = strstr (String d (String d "")) rest.
Proof.
  induction nm as [|c nm IH]; intros Hf; [done|]. cbn in Hf. apply Forall_cons in Hf as [Hc Hf].
  change (String c nm ++ rest)%string with (String c (nm ++ rest)). rewrite strstr_cons, IH by done.
  cbn [String.prefix]. by destruct (ascii_dec d c) as [->|].
Qed.

Lemma strstr_single d c s : c <> d ->
  strstr (String d (String d "")) (String d (String c s)) = strstr (String d (String d "")) (String c s).
Proof.
  intros Hne. rewrite strstr_cons. cbn [String.prefix]. destruct (ascii_dec d d) as [_|]; [|done].
  by destruct (ascii_dec d c).
Qed.

Lemma name_chars_not d nm : name_char_ok d = false -> sm_validate_service_name (Some nm) = SM_OK ->
  Forall (fun c => c <> d) (list_ascii_of_string nm).
Proof.
  intros Hd Hn. apply name_ok_iff in Hn as [_ Hf]. eapply Forall_impl; [exact Hf|].
  intros c Hc ->. congruence.
Qed.

Lemma svc_paths_valid nm : sm_validate_service_name (Some nm) = SM_OK ->
  sm_validate_socket_path (Some (svc_socket nm)) = SM_OK /\
  sm_validate_socket_path (Some (svc_ring nm)) = SM_OK.
Proof.
  intros Hn. pose proof (proj1 (name_ok_iff nm) Hn) as [Hl _]. unfold SM_MAX_NAME in Hl.
  pose proof (name_chars_not "." nm eq_refl Hn) as Hdot. pose proof (name_chars_not "/" nm eq_refl Hn) as Hsl.
  assert (Hgo : forall pre post, (String.length pre + String.length post < 190)%nat ->
    has_prefix "/" pre = true -> existsb (fun q => has_prefix q (pre ++ nm ++ post)%string) allowed_prefixes = true ->
    strstr ".." (pre ++ nm ++ post)%string = strstr ".." (nm ++ post)%string ->
    strstr "//" (pre ++ nm ++ post)%string = strstr "//" (nm ++ post)%string ->
    strstr ".." post = false -> strstr "//" post = false ->
    sm_validate_socket_path (Some (pre ++ nm ++ post)%string) = SM_OK).
  { intros pre post Hlen Hs Hpre E1 E2 F1 F2.
    rewrite (strstr_doubled "." nm post Hdot), F1 in E1. rewrite (strstr_doubled "/" nm post Hsl), F2 in E2.
    destruct pre as [|c pre]; [done|]. unfold sm_validate_socket_path.
    set (p := (String c pre ++ nm ++ post)%string) in *. assert (Hp : p = String c (pre ++ nm ++ post)%string) by done.
    rewrite Hp, <- Hp, E1, E2, Hpre. unfold SM_MAX_PATH.
    assert (String.length p = String.length (String c pre) + (String.length nm + String.length post))%nat
      by (unfold p; by rewrite !string_length_app).
    destruct (Nat.leb_spec 256 (String.length p)); [lia|].
    
    destruct (Ascii.eqb_spec c "/") as [->|Hc]; [done|exfalso]. apply String.eqb_eq in Hs. by injection Hs as ->. }
  destruct nm as [|c nm]; [simpl in Hl; lia|]. cbn in Hdot, Hsl. apply Forall_cons in Hdot as [Hc1 _]. apply Forall_cons in Hsl as [Hc2 _].
  split; apply Hgo; try reflexivity; try (simpl; lia).
  all: eapply eq_trans; [|by apply (strstr_single "/" c)]; reflexivity.
Qed.

(** ** Through the wire *)

(** The key a service signs with. *)
Definition service_key (ipc : svc_ipc_t) : option (list Z) := key_of <$> verify_ctx ipc.

(** A service signs what the client library signs with the same key. *)
Lemma signed_message ipc type now pid nc p : Z.of_nat (length p) < 2 ^ 32 ->
  sign_message true ipc (fill_header type (Z.of_nat (length p)) now pid nc) p =
    (0, client_message (service_key ipc) type now pid (Some nc) p).
Proof.
  intros Hl. unfold sign_message, service_key, client_message, fill_header. rewrite (wrap_small 32 (Z.of_nat (length p))) by lia.
  destruct (verify_ctx ipc) as [v|]; [|done]. cbn [negb fmap option_fmap option_map]. unfold hmac_sign.
  by rewrite !hmac_is_rfc.
Qed.

(** The daemon and a service read the same key from a file of at least 32 bytes. *)
Lemma shared_key_file bs a run tmp ks ks' nm kp ipc0 ipc file :
  (32 <= length bs)%nat -> pa_read a = Some (take 32 bs) -> length (g_key ks) = SM_HMAC_KEY_SIZE ->
  sm_crypto_init (Some a) run tmp ks = (0, ks') ->
  kp <> ""%string -> file kp = Some bs ->
  service_ipc_init (Some nm) (Some kp) true file true ipc0 = (SVC_OK, ipc) ->
  sm_crypto_get_key ks' = service_key ipc /\ service_key ipc = Some (take 32 bs).
Proof.
  intros Hl Hr Hk Hc Hne Hf Hi.
  assert (Hlen : length (take 32 bs) = 32%nat) by (rewrite length_take; lia).
  unfold sm_crypto_init in Hc. cbn [try_paths] in Hc. rewrite Hr in Hc. cbn [default] in Hc.
  unfold SM_HMAC_KEY_SIZE in *. cbn [from_option id] in Hc. rewrite Hlen in Hc. cbn [Nat.eqb] in Hc.
  injection Hc as <-. rewrite splice_full by lia.
  destruct kp as [|c kp]; [done|]. cbn [service_ipc_init negb] in Hi. rewrite Hf in Hi.
  unfold verify_init_from_file in Hi. rewrite Hlen in Hi. cbn [Nat.eqb verify_init] in Hi.
  rewrite Hlen in Hi. cbn in Hi. injection Hi as <-. unfold service_key. cbn [verify_ctx fmap option_fmap option_map].
  unfold key_of. cbn [master_key master_key_len]. unfold sm_crypto_get_key. cbn [g_key g_key_loaded].
  assert (Ht : forall r, take 32 (take 32 bs ++ r) = take 32 bs).
  { intros r. rewrite (take_app_le _ _ 32) by (rewrite Hlen; lia). apply take_ge. rewrite Hlen. lia. }
  by rewrite Ht.
Qed.

(** A message of a service reaches the handler of its type. *)
Section session.
Context (e : env) (s : server) (o : call_env server) (chop : list Z -> list (list Z)) (ipc : svc_ipc_t).
Hypothesis Hchop : chops chop.
Hypothesis Hpeer : open_sm_connection o ipc = true.
Hypothesis Hconv : conversation o = with_daemon e chop.
Hypothesis Hmem : ce_mem o = true.
Hypothesis Hkey : sm_crypto_get_key (sv_key s) = service_key ipc.
Hypothesis Hclock : clocks_ok (ce_now o) (e_now e).
Hypothesis Hadm : admitted e s.
Hypothesis Hlim : within_limits e (ipc_name ipc) s.
Hypothesis Hname : sm_validate_service_name (Some (ipc_name ipc)) = SM_OK.

Lemma message_served type pid p : sm_validate_message_size (Z.of_nat (length p)) type = SM_OK ->
  conversation o (client_message (service_key ipc) type (ce_now o) pid (Some (ce_nonce o)) p) p s =
    let '(r, s') := dispatch e type p (after_admission e s) in (Some (chop (reply_bytes r)), s').
Proof.
  intros Hsz. rewrite Hconv. unfold with_daemon. rewrite (handle_admitted _ _ _ p); [|done|].
  - by destruct (client_message_fields (service_key ipc) type (ce_now o) pid (Some (ce_nonce o)) p)
      as (_ & _ & -> & _).
  - by apply client_message_accepted.
Qed.

Lemma register_read pid :
  let buf := svc_register_payload (ipc_name ipc) pid ++ e_junk e in
  c_string buf = ipc_name ipc /\ c_string (drop 64 buf) = svc_socket (ipc_name ipc) /\
  c_string (drop 320 buf) = svc_ring (ipc_name ipc).
Proof.
  destruct (svc_paths_valid _ Hname) as [Hs Hr]. destruct (validated_path _ Hs) as [Hs1 _].
  destruct (validated_path _ Hr) as [Hr1 _]. destruct (validated_name _ Hname) as [Hn1 _].
  pose proof (valid_name_no_nul _ Hname) as Hnn.
  assert (Hns : no_nul (svc_socket (ipc_name ipc)) /\ no_nul (svc_ring (ipc_name ipc))).
  { unfold svc_socket, svc_ring, no_nul. rewrite !list_ascii_app. split; repeat apply Forall_app_2; try done;
      repeat constructor; by vm_compute. }
  destruct Hns as [Hns Hnr]. unfold svc_register_payload, register_payload. cbv zeta. rewrite <- !app_assoc.
  split_and!.
  - rewrite cbuf_read by (done || lia). exact Hn1.
  - rewrite drop_app_length' by (by rewrite length_cbuf by lia). rewrite cbuf_read by (done || lia). exact Hs1.
  - rewrite app_assoc, drop_app_length' by (by rewrite length_app, !length_cbuf by lia).
    rewrite cbuf_read by (done || lia). exact Hr1.
Qed.

Lemma add_code alive t1 t2 en r : -8 <= (sm_registry_add alive t1 t2 en r).1 <= 0.
Proof.
  unfold sm_registry_add. repeat case_match; cbn [fst];
    unfold SM_OK, SM_ERR_INVALID, SM_ERR_EXISTS, SM_ERR_FULL; lia.
Qed.

(** What the daemon's registry answers to the three requests of the service. *)
Definition served (type : Z) : Z * registry_state :=
  if type =? SVC_MSG_REGISTER then
    sm_registry_add (e_alive e) (e_t1 e) (e_t2 e)
      (Some (make_entry e (ipc_name ipc) (svc_socket (ipc_name ipc)) (svc_ring (ipc_name ipc)))) (sv_reg s)
  else if type =? SVC_MSG_HEARTBEAT then
    sm_registry_update_heartbeat (Some (ipc_name ipc)) (e_t1 e) (sv_reg s)
  else sm_registry_remove_if_owner (Some (ipc_name ipc)) (e_peer_pid e) (sv_reg s).

Lemma served_code type : - 2 ^ 31 <= (served type).1 < 2 ^ 31.
Proof.
  destruct registry_codes as [Hh Hr]. unfold served.
  destruct (type =? SVC_MSG_REGISTER); [|destruct (type =? SVC_MSG_HEARTBEAT)].
  - pose proof (add_code (e_alive e) (e_t1 e) (e_t2 e) (Some (make_entry e (ipc_name ipc) (svc_socket (ipc_name ipc))
      (svc_ring (ipc_name ipc)))) (sv_reg s)). lia.
  - specialize (Hh (Some (ipc_name ipc)) (e_t1 e) (sv_reg s)). lia.
  - specialize (Hr (Some (ipc_name ipc)) (e_peer_pid e) (sv_reg s)). lia.
Qed.

Lemma served_dispatch type p :
  (type = SVC_MSG_REGISTER /\ (exists pid, p = svc_register_payload (ipc_name ipc) pid)) \/
  (type ∈ [SVC_MSG_HEARTBEAT; SVC_MSG_UNREGISTER] /\ p = name_payload (ipc_name ipc)) ->
  exists s', dispatch e type p (after_admission e s) = (Reply (served type).1, s') /\
    sv_reg s' = (served type).2 /\ sv_key s' = sv_key s.
Proof.
  intros Hp. destruct (after_admission_reg e s) as (Hreg & Hk & _).
  pose proof (limit_check_reg e (ipc_name ipc) (after_admission e s)) as Hlr. rewrite Hreg in Hlr.
  destruct (limit_check_rate e (ipc_name ipc) (after_admission e s)) as [_ Hlk]. rewrite Hk in Hlk.
  unfold within_limits in Hlim. destruct (svc_paths_valid _ Hname) as [Hs Hr].
  pose proof (name_read e (ipc_name ipc) Hname) as Hn.
  destruct Hp as [[-> [pid ->]]|[Ht ->]].
  - destruct (register_read pid) as (R1 & R2 & R3). unfold dispatch, served. cbv zeta in *. rewrite R1, R2, R3.
    cbn [Z.eqb Pos.eqb SVC_MSG_REGISTER SM_MSG_REGISTER]. unfold sm_handle_register.
    destruct (limit_check e _ _) as [rc s1]. cbn [fst snd] in *. subst rc. rewrite Hname, Hs, Hr, Hlr, !Z.eqb_refl.
    cbn [Z.ltb Z.compare negb]. destruct (sm_registry_add _ _ _ _ _) as [c r]. by eexists.
  - rewrite !elem_of_cons, elem_of_nil in Ht. unfold dispatch, served. rewrite Hn.
    destruct Ht as [->|[->|[]]]; cbn [Z.eqb Pos.eqb SVC_MSG_REGISTER SM_MSG_REGISTER SVC_MSG_HEARTBEAT
      SM_MSG_LOOKUP SM_MSG_HEARTBEAT SVC_MSG_UNREGISTER SM_MSG_UNREGISTER];
      unfold sm_handle_heartbeat, sm_handle_unregister; destruct (limit_check e _ _) as [rc s1];
      cbn [fst snd] in *; subst rc; rewrite Hname, Hlr, !Z.eqb_refl; cbn [Z.ltb Z.compare negb].
    + destruct (sm_registry_update_heartbeat _ _ _). by eexists.
    + destruct (sm_registry_remove_if_owner _ _ _). by eexists.
Qed.

(** C7: A service with a valid name and the daemon's key: registration and heartbeat
    succeed exactly if the registry accepts the service under its name, with the credentials of
    its process and the paths /run/NAME.sock and /dev/shm/NAME_ring, or knows it; unregistration
    always reports success and removes it if the registry does; the daemon is left with exactly
    the registry so computed and its key, in whatever portions the reply arrives. *)
Theorem service_requests_served pid later :
  let ipc1 := with_nonce o ipc in
  let ok type := (served type).1 =? SM_OK in
  let left type s' := sv_reg s' = (served type).2 /\ sv_key s' = sv_key s in
  (exists s', left SVC_MSG_REGISTER s' /\ service_ipc_register o pid ipc s =
     if ok SVC_MSG_REGISTER then (SVC_OK, set_registered ipc1 true, s') else (SVC_ERR_IPC, ipc1, s')) /\
  (exists s', left SVC_MSG_HEARTBEAT s' /\ service_ipc_heartbeat o later ipc s =
     if ok SVC_MSG_HEARTBEAT then (SVC_OK, set_heartbeat ipc1 later, s') else (SVC_ERR_IPC, ipc1, s')) /\
  (exists s', left SVC_MSG_UNREGISTER s' /\ service_ipc_unregister o ipc s =
     (SVC_OK, set_registered ipc1 false, s')).
Proof.
  cbv zeta. unfold service_ipc_register, service_ipc_heartbeat, service_ipc_unregister. rewrite Hpeer, Hmem. cbn [negb].
  assert (Hnl : Z.of_nat (length (name_payload (ipc_name ipc))) = 64) by (unfold name_payload; by rewrite length_cbuf by lia).
  assert (Hrl : Z.of_nat (length (svc_register_payload (ipc_name ipc) pid)) = 580).
  { unfold svc_register_payload, register_payload, le_int32.
    by rewrite !length_app, !length_cbuf, length_le_bytes by lia. }
  assert (Hgo : forall type pid' p, (type = SVC_MSG_REGISTER /\ (exists pid, p = svc_register_payload (ipc_name ipc) pid)) \/
    (type ∈ [SVC_MSG_HEARTBEAT; SVC_MSG_UNREGISTER] /\ p = name_payload (ipc_name ipc)) ->
    sm_validate_message_size (Z.of_nat (length p)) type = SM_OK ->
    exists s', (sv_reg s' = (served type).2 /\ sv_key s' = sv_key s) /\
      conversation o (client_message (service_key ipc) type (ce_now o) pid' (Some (ce_nonce o)) p) p s =
        (Some (chop (reply_bytes (Reply (served type).1))), s')).
  { intros type pid' p Hp Hsz. destruct (served_dispatch type p Hp) as (s' & Hd & Hl). exists s'. split; [done|].
    by rewrite message_served, Hd. }
  split_and!.
  - destruct (Hgo SVC_MSG_REGISTER pid (svc_register_payload (ipc_name ipc) pid)) as (s' & Hl & Hc); [by left; eauto|by rewrite Hrl|].
    exists s'. split; [done|]. rewrite <- Hrl, signed_message by lia. change (service_key (with_nonce o ipc)) with (service_key ipc).
    cbn [negb Z.eqb]. rewrite Hc, reply_received by (done || apply served_code). by destruct (_ =? SM_OK).
  - destruct (Hgo SVC_MSG_HEARTBEAT (ce_getpid o) (name_payload (ipc_name ipc))) as (s' & Hl & Hc); [by right; set_solver|by rewrite Hnl|].
    exists s'. split; [done|]. rewrite <- Hnl, signed_message by lia. change (service_key (with_nonce o ipc)) with (service_key ipc).
    cbn [snd]. rewrite Hc, reply_received by (done || apply served_code). by destruct (_ =? SM_OK).
  - destruct (Hgo SVC_MSG_UNREGISTER (ce_getpid o) (name_payload (ipc_name ipc))) as (s' & Hl & Hc); [by right; set_solver|by rewrite Hnl|].
    exists s'. split; [done|]. rewrite <- Hnl, signed_message by lia. change (service_key (with_nonce o ipc)) with (service_key ipc).
    cbn [snd]. by rewrite Hc.
Qed.
End session.

(** ** What is announced and does not happen *)

(** No call stores a token; the one of the context stays empty. *)
Lemma token_never_set {W} (o : call_env W) pid later ipc w :
  auth_token (service_ipc_register o pid ipc w).1.2 = auth_token ipc /\
  auth_token (service_ipc_heartbeat o later ipc w).1.2 = auth_token ipc /\
  auth_token (service_ipc_unregister o ipc w).1.2 = auth_token ipc.
Proof.
  unfold service_ipc_register, service_ipc_heartbeat, service_ipc_unregister.
  split_and!; repeat (case_match; try done); done.
Qed.

(** A heartbeat that could not be signed for lack of memory is sent all the same. *)
Lemma unsigned_heartbeat_sent {W} (o : call_env W) later ipc w v :
  open_sm_connection o ipc = true -> ce_mem o = false -> verify_ctx ipc = Some v ->
  conversation o (fill_header SVC_MSG_HEARTBEAT 64 (ce_now o) (ce_getpid o) (ce_nonce o))
    (name_payload (ipc_name ipc)) w = (None, w) ->
  service_ipc_heartbeat o later ipc w = (SVC_ERR_IPC, with_nonce o ipc, w).
Proof.
  intros Ho Hm Hv Hc. unfold service_ipc_heartbeat, sign_message. cbn [verify_ctx with_nonce].
  rewrite Ho, Hm, Hv. cbn [negb snd]. by rewrite Hc.
Qed.

(** ** On concrete inputs *)

Definition bytewise (bs : list Z) : list (list Z) := (fun b => [b]) <$> bs.

Lemma bytewise_chops : chops bytewise.
Proof.
  intros bs. unfold bytewise. split; [|induction bs; by constructor].
  induction bs as [|b bs IH]; [done|]. apply (f_equal (cons b)). exact IH.
Qed.

Definition blank_ipc : svc_ipc_t := mk_ipc 0 "" "" "" no_token 0 0 0 0 false None.

(** The camera service with the key of [server0] in its key file. *)
Definition camera_ipc : svc_ipc_t :=
  (service_ipc_init (Some "camera"%string) (Some "/etc/key"%string) true
     (fun _ => Some key0) true blank_ipc).2.

Definition camera_call : call_env server :=
  mk_call 1000 100 42 true (fun _ => true) (with_daemon env0 bytewise).

Lemma service_requests_served_witness :
  exists s', service_ipc_heartbeat camera_call 1001 camera_ipc server0 =
    (SVC_OK, set_heartbeat (with_nonce camera_call camera_ipc) 1001, s').
Proof.
  destruct (service_requests_served env0 server0 camera_call bytewise camera_ipc bytewise_chops
    eq_refl eq_refl eq_refl ltac:(vm_compute; reflexivity) clocks_same admitted0 ltac:(vm_compute; reflexivity) ltac:(vm_compute; reflexivity)
    100 1001) as (_ & (s' & _ & Hh) & _).
  exists s'. assert (Hok : ((served env0 server0 camera_ipc SVC_MSG_HEARTBEAT).1 =? SM_OK) = true) by (vm_compute; reflexivity).
  rewrite Hok in Hh. exact Hh.
Defined.
