(* ===== verification/ServiceBase.v ===== *)
(** * What every service daemon starts with (services/common/service_base.c)

    The PID file that keeps a service from running twice, the signal handlers that set
    the two global flags, the log file, the steps that make a process a daemon.  The file
    system holds the PID files' texts; the results of system calls are arguments. *)

From S2P Require Import Prelude CText ServiceIpc.

(** [dev/services/common/service_base.h:58-74 svc_error_t] *)
Definition SVC_ERR_GENERIC : Z := -1.
Definition SVC_ERR_FORK : Z := -3.
Definition SVC_ERR_SETSID : Z := -4.
Definition SVC_ERR_CHDIR : Z := -5.
Definition SVC_ERR_PIDFILE : Z := -6.
Definition SVC_ERR_SIGNAL : Z := -7.
Definition SVC_ERR_ALREADY : Z := -8.
Definition SVC_ERR_HAL : Z := -9.
Definition SVC_ERR_SECURITY : Z := -10.
Definition SVC_ERR_CONFIG : Z := -12.
Definition SVC_ERR_TIMEOUT : Z := -14.

(** [dev/services/common/service_base.c:217-237 svc_error_string] *)
Definition svc_error_string (err : Z) : string :=
  if err =? SVC_OK then "success"
  else if err =? SVC_ERR_GENERIC then "generic error"
  else if err =? SVC_ERR_INVALID then "invalid argument"
  else if err =? SVC_ERR_FORK then "fork failed"
  else if err =? SVC_ERR_SETSID then "setsid failed"
  else if err =? SVC_ERR_CHDIR then "chdir failed"
  else if err =? SVC_ERR_PIDFILE then "PID file error"
  else if err =? SVC_ERR_SIGNAL then "sigaction failed"
  else if err =? SVC_ERR_ALREADY then "duplicate instance"
  else if err =? SVC_ERR_HAL then "HAL error"
  else if err =? SVC_ERR_SECURITY then "security module error"
  else if err =? SVC_ERR_IPC then "IPC error"
  else if err =? SVC_ERR_CONFIG then "config error"
  else if err =? SVC_ERR_NOMEM then "out of memory"
  else if err =? SVC_ERR_TIMEOUT then "timeout"
  else "unknown error".

(** [dev/services/common/service_base.h:78-85 svc_state_t] *)
Inductive svc_state_t :=
| SVC_STATE_INIT | SVC_STATE_STARTING | SVC_STATE_RUNNING | SVC_STATE_STOPPING | SVC_STATE_STOPPED | SVC_STATE_ERROR.
#[export] Instance svc_state_eq : EqDecision svc_state_t.
Proof. solve_decision. Defined.

(** [dev/services/common/service_base.h:89-102 svc_context_t] *)
Record svc_context_t := mk_ctx {
  name : string; version : string; exe_path : string; pid_path : string; config_path : string; log_path : string;
  pid : Z; state : svc_state_t; foreground : bool; verbose : bool; start_time : Z; error_count : Z
}.
Definition with_state (x : svc_state_t) (c : svc_context_t) : svc_context_t :=
  mk_ctx (name c) (version c) (exe_path c) (pid_path c) (config_path c) (log_path c) (pid c) x (foreground c)
    (verbose c) (start_time c) (error_count c).

(** ** The PID file *)

(** What the system says: the directory variable, the calling process, which processes
    live, which files may be written. *)
Record pid_env := mk_penv {
  svc_pid_dir : option string; getpid : Z; alive : Z -> bool; writable : string -> bool
}.

(** The PID files by their paths. *)
Abbreviation files := (gmap string string).

(** [dev/services/common/service_base.c:45-49 _pid_dir] *)
Definition pid_dir (o : pid_env) : string :=
  match svc_pid_dir o with Some (String c d) => String c d | _ => "/run" end.

Definition pid_file (o : pid_env) (nm : string) : string :=
  strncpy_z 255 (pid_dir o ++ "/" ++ nm ++ ".pid").

(** [dev/services/common/service_base.c:53-73 service_base_init] [exe]: the target of
    /proc/self/exe, if it can be read. *)
Definition service_base_init (o : pid_env) (now : Z) (exe : option string) (nm : option string) (c : svc_context_t)
    : Z * svc_context_t :=
  match nm with
  | None | Some EmptyString => (SVC_ERR_INVALID, c)
  | Some nm =>
      (SVC_OK, mk_ctx (strncpy_z 63 nm) "2.0.0" (strncpy_z 255 (default ""%string exe)) (pid_file o nm) "" ""
                 0 SVC_STATE_INIT false false now 0)
  end.

(** [fscanf (f, "%d", &stored)]: the number at the start, as an int. *)
Definition scan_pid (text : string) : option Z := i32 <$> strtol 10 text.

(** [dev/services/common/service_base.c:155-171 service_base_write_pid, the check] [true]:
    another instance runs; otherwise a file that was there is gone. *)
Definition check_pid (o : pid_env) (p : string) (fs : files) : bool * files :=
  match fs !! p with
  | None => (false, fs)
  | Some text =>
      if match scan_pid text with Some stored => (1 <? stored) && alive o stored | None => false end
      then (true, fs)
      else (false, if writable o p then delete p fs else fs)
  end.

(** [dev/services/common/service_base.c:173-181 service_base_write_pid, the new file] *)
Definition create_pid (o : pid_env) (p : string) (fs : files) : Z * files :=
  if writable o p then (SVC_OK, <[p := (decimal (getpid o) ++ line_end)%string]> fs)
  else (SVC_ERR_PIDFILE, fs).

(** [dev/services/common/service_base.c:147-182 service_base_write_pid] *)
Definition service_base_write_pid (o : pid_env) (svc_name : option string) (fs : files) : Z * files :=
  match svc_name with
  | None | Some EmptyString => (SVC_ERR_INVALID, fs)
  | Some nm =>
      let p := pid_file o nm in
      let '(running, fs) := check_pid o p fs in
      if running then (SVC_ERR_ALREADY, fs) else create_pid o p fs
  end.

(** [dev/services/common/service_base.c:184-190 service_base_remove_pid] *)
Definition service_base_remove_pid (o : pid_env) (svc_name : option string) (fs : files) : files :=
  match svc_name with
  | None => fs
  | Some nm => let p := pid_file o nm in if writable o p then delete p fs else fs
  end.

(** ** Signals *)

Definition SIGHUP : Z := 1.
Definition SIGINT : Z := 2.
Definition SIGPIPE : Z := 13.
Definition SIGTERM : Z := 15.

(** What is done with a signal: the default (these four end the process), one of the two
    handlers, nothing. *)
Inductive disposition := Default | SigTerm | SigHup | Ignore.

(** [dev/services/common/service_base.c:24-26 g_running, g_reload, g_log_file] with the
    process's dispositions. *)
Record svc_globals := mk_globals {
  g_running : bool; g_reload : bool; g_log_file : option string; dispositions : gmap Z disposition
}.
Definition globals0 : svc_globals := mk_globals true false None ∅.

(** [dev/services/common/service_base.c:30-40 _sig_term, _sig_hup] what a signal does; None:
    the process ends. *)
Definition deliver (sig : Z) (g : svc_globals) : option svc_globals :=
  match default Default (dispositions g !! sig) with
  | Default => None
  | SigTerm => Some (mk_globals false (g_reload g) (g_log_file g) (dispositions g))
  | SigHup => Some (mk_globals (g_running g) true (g_log_file g) (dispositions g))
  | Ignore => Some g
  end.

Definition sigaction (ok : Z -> bool) (sig : Z) (d : disposition) (g : svc_globals) : option svc_globals :=
  if ok sig then Some (mk_globals (g_running g) (g_reload g) (g_log_file g) (<[sig := d]> (dispositions g))) else None.

(** [dev/services/common/service_base.c:192-215 service_base_install_signals] [ok]: the call
    for the signal succeeds. *)
Definition service_base_install_signals (ok : Z -> bool) (g : svc_globals) : Z * svc_globals :=
  match sigaction ok SIGTERM SigTerm g with
  | None => (SVC_ERR_SIGNAL, g)
  | Some g =>
      match sigaction ok SIGINT SigTerm g with
      | None => (SVC_ERR_SIGNAL, g)
      | Some g =>
          match sigaction ok SIGHUP SigHup g with
          | None => (SVC_ERR_SIGNAL, g)
          | Some g =>
              match sigaction ok SIGPIPE Ignore g with
              | None => (SVC_ERR_SIGNAL, g)
              | Some g => (SVC_OK, g)
              end
          end
      end
  end.

(** ** The log *)

Definition set_log (f : option string) (g : svc_globals) : svc_globals :=
  mk_globals (g_running g) (g_reload g) f (dispositions g).

(** [dev/services/common/service_base.c:123-135 service_base_open_log] [opens]: the file can
    be opened for appending. *)
Definition service_base_open_log (opens : string -> bool) (log : option string) (g : svc_globals) : svc_globals :=
  match log with
  | Some (String c p) => set_log (if opens (String c p) then Some (String c p) else None) g
  | _ => g
  end.

(** [dev/services/common/service_base.c:137-145 service_base_close_log] *)
Definition service_base_close_log (g : svc_globals) : svc_globals := set_log None g.

(** ** Becoming a daemon *)

(** What the calls answer, in their order; the descriptor of /dev/null. *)
Record fork_env := mk_forks { fork1 : Z; setsid : Z; fork2 : Z; chdir : Z; devnull : Z }.

(** What the process is: in a session of its own, working in the root directory, with an
    empty mask, its three standard streams on /dev/null. *)
Record process := mk_process {
  new_session : bool; cwd_root : bool; umask0 : bool; streams_null : bool
}.

(** How the call ends in this process: it exits with status 0, or goes on. *)
Inductive outcome (A : Type) := Exits | Goes (x : A).
Arguments Exits {A}.
Arguments Goes {A}.

(** [dev/services/common/service_base.c:75-121 service_base_daemonize] *)
Definition service_base_daemonize (o : fork_env) (p : process) : outcome (Z * process) :=
  if fork1 o <? 0 then Goes (SVC_ERR_FORK, p)
  else if 0 <? fork1 o then Exits
  else if setsid o <? 0 then Goes (SVC_ERR_SETSID, p)
  else
    let p := mk_process true (cwd_root p) (umask0 p) (streams_null p) in
    if fork2 o <? 0 then Goes (SVC_ERR_FORK, p)
    else if 0 <? fork2 o then Exits
    else if chdir o <? 0 then Goes (SVC_ERR_CHDIR, p)
    else
      Goes (SVC_OK, mk_process true true true ((0 <=? devnull o) || streams_null p)).

(** ** One instance *)

(** The text of a PID file is read back. *)
Lemma scan_printed p : 0 <= p < 2 ^ 31 -> scan_pid (decimal p ++ line_end) = Some p.
Proof.
  intros Hp. unfold scan_pid, strtol, decimal. destruct (Z.ltb_spec p 0); [lia|].
  destruct (decimal_from_spec 20 p "") as (ds & Hd & Ha & Hl & Hne & Hdg); [change (Z.of_nat 20) with 20; lia|].
  rewrite Hd, append_empty. destruct (Hdg 0 0%nat line_end) as (k & Hk & Hpos).
  destruct ds as [|c ds]; [by destruct Hne; [lia|]|]. apply all_cons in Ha as [Hc _].
  rewrite append_cons in *. rewrite digit_first, Hk by done. simpl digits.
  destruct k; [lia|]. simpl. f_equal. rewrite Z.min_r, Z.max_r by lia. apply i32_small. lia.
Qed.

(** What the check does with a file that names a process. *)
Lemma check_named o p fs q : 1 < q < 2 ^ 31 -> fs !! p = Some (decimal q ++ line_end)%string ->
  check_pid o p fs = if alive o q then (true, fs) else (false, if writable o p then delete p fs else fs).
Proof.
  intros Hq Hf. unfold check_pid. rewrite Hf, scan_printed by lia.
  rewrite (proj2 (Z.ltb_lt 1 q)) by lia. by destruct (alive o q).
Qed.

Lemma pid_file_dir o o' nm : svc_pid_dir o' = svc_pid_dir o -> pid_file o' nm = pid_file o nm.
Proof. unfold pid_file, pid_dir. by intros ->. Qed.

Lemma write_pid_ok o nm fs fs' : service_base_write_pid o (Some nm) fs = (SVC_OK, fs') ->
  nm <> EmptyString /\ fs' = <[pid_file o nm := (decimal (getpid o) ++ line_end)%string]> fs.
Proof.
  unfold service_base_write_pid, check_pid, create_pid. destruct nm as [|c nm]; [done|].
  intros Hw. split; [done|]. repeat (case_match; simplify_eq/=); try done; by rewrite ?insert_delete_eq.
Qed.

(** As long as the process that wrote a service's PID file lives, every further start
    of the service is refused and leaves the file as it is; once it is dead, the next start
    takes the file over. *)
Theorem one_instance o o' nm fs fs' :
  1 < getpid o < 2 ^ 31 -> svc_pid_dir o' = svc_pid_dir o ->
  service_base_write_pid o (Some nm) fs = (SVC_OK, fs') ->
  (alive o' (getpid o) = true -> service_base_write_pid o' (Some nm) fs' = (SVC_ERR_ALREADY, fs')) /\
  (alive o' (getpid o) = false -> writable o' (pid_file o nm) = true ->
     service_base_write_pid o' (Some nm) fs' =
       (SVC_OK, <[pid_file o nm := (decimal (getpid o') ++ line_end)%string]> fs)).
Proof.
  intros Hp Hdir Hw. apply write_pid_ok in Hw as [Hne ->].
  unfold service_base_write_pid. destruct nm as [|c nm]; [done|].
  rewrite (pid_file_dir o o') by done.
  rewrite (check_named o' _ _ (getpid o)) by (done || by rewrite lookup_insert_eq).
  split; intros ->; [done|]. intros Hwr. unfold create_pid. rewrite Hwr. f_equal.
  by rewrite delete_insert_eq, insert_delete_eq.
Qed.

(** Two starts at once: the file is checked before it is written, without a lock, so both
    may find no instance and both start; the file names the last. *)
Lemma racing_starts o1 o2 p fs : fs !! p = None -> writable o1 p = true -> writable o2 p = true ->
  let '(r1, fs1) := check_pid o1 p fs in
  let '(r2, fs2) := check_pid o2 p fs1 in
  let '(rc1, fs3) := create_pid o1 p fs2 in
  let '(rc2, fs4) := create_pid o2 p fs3 in
  r1 = false /\ r2 = false /\ rc1 = SVC_OK /\ rc2 = SVC_OK /\
  fs4 = <[p := (decimal (getpid o2) ++ line_end)%string]> fs.
Proof.
  intros Hf Hw1 Hw2. unfold check_pid, create_pid. rewrite Hf, Hf, Hw1, Hw2.
  by rewrite insert_insert_eq.
Qed.

(** ** Signals *)

(** With the handlers in place no signal of the four ends the process; SIGTERM and SIGINT
    clear [g_running], SIGHUP sets [g_reload], and nothing else. *)
Lemma signals_set_flags ok g g' : service_base_install_signals ok g = (SVC_OK, g') ->
  deliver SIGTERM g' = Some (mk_globals false (g_reload g) (g_log_file g) (dispositions g')) /\
  deliver SIGINT g' = Some (mk_globals false (g_reload g) (g_log_file g) (dispositions g')) /\
  deliver SIGHUP g' = Some (mk_globals (g_running g) true (g_log_file g) (dispositions g')) /\
  deliver SIGPIPE g' = Some g'.
Proof.
  unfold service_base_install_signals, sigaction. repeat case_match; try done. simplify_eq/=.
  intros [= <-]. unfold deliver, SIGTERM, SIGINT, SIGHUP, SIGPIPE. simpl. by simplify_map_eq.
Qed.

(** Exactly the grandchild goes on after a success, in its own session, at the root, with
    its streams on /dev/null if that opens; every process that has a child exits. *)
Lemma daemonize_survivor o p rc p' : service_base_daemonize o p = Goes (rc, p') -> rc = SVC_OK ->
  fork1 o = 0 /\ fork2 o = 0 /\ new_session p' = true /\ cwd_root p' = true /\
  streams_null p' = (0 <=? devnull o) || streams_null p.
Proof.
  unfold service_base_daemonize. repeat case_match; intros [= <- <-] Hrc; try done.
  split_and!; (lia || done).
Qed.

(** ** Witnesses *)

Definition penv (me : Z) (live : list Z) : pid_env :=
  mk_penv None me (fun p => bool_decide (p ∈ live)) (fun _ => true).

Lemma one_instance_witness :
  service_base_write_pid (penv 4100 [4100]) (Some "gpio_service"%string) {["/run/gpio_service.pid"%string := "77"%string]} =
    (SVC_OK, {["/run/gpio_service.pid"%string := ("4100" ++ line_end)%string]}) /\
  service_base_write_pid (penv 4200 [4100; 4200]) (Some "gpio_service"%string)
    {["/run/gpio_service.pid"%string := ("4100" ++ line_end)%string]} =
    (SVC_ERR_ALREADY, {["/run/gpio_service.pid"%string := ("4100" ++ line_end)%string]}).
Proof.
  assert (Hw : service_base_write_pid (penv 4100 [4100]) (Some "gpio_service"%string)
      {["/run/gpio_service.pid"%string := "77"%string]} =
    (SVC_OK, {["/run/gpio_service.pid"%string := ("4100" ++ line_end)%string]})) by reflexivity.
  split; [exact Hw|].
  exact (proj1 (one_instance (penv 4100 [4100]) (penv 4200 [4100; 4200]) _ _ _
    ltac:(simpl; lia) eq_refl Hw) eq_refl).
Defined.
