(* ===== verification/ServiceConfig.v ===== *)
(** * Configuration of services (services/common/service_config.c)

    The INI reader of the services: a file is the text that [fgets] reads, the
    configuration the entries in the order in which they were added.  [getenv] is an
    argument.  A buffer filled by [strncpy] to its last place is not terminated: [junk]
    is what stands behind it on the stack. *)

From S2P Require Import Prelude CText.

Definition CFG_MAX_KEY_LEN : nat := 64.
Definition CFG_MAX_VALUE_LEN : nat := 256.
Definition CFG_MAX_LINE : nat := 512.
Definition CFG_MAX_ENTRIES : nat := 16 * 64.

(** [dev/services/common/service_config.h:34-38 cfg_entry_t] *)
Record cfg_entry_t := mk_centry { section : string; key : string; value : string }.

(** [dev/services/common/service_config.h:40-45 service_config_t] *)
Record service_config_t := mk_scfg {
  entries : list cfg_entry_t; path : string; svc_prefix : string
}.

(** ** Entries *)

(** [dev/services/common/service_config.c:58-67 find_entry] the index of the entry. *)
Fixpoint find_entry (es : list cfg_entry_t) (sec k : string) : option nat :=
  match es with
  | [] => None
  | e :: es' => if strcaseeq (section e) sec && strcaseeq (key e) k then Some O
                else S <$> find_entry es' sec k
  end.

(** An assignment of its value to an entry. *)
Definition set_value (v : string) (e : cfg_entry_t) : cfg_entry_t :=
  mk_centry (section e) (key e) (strncpy_z (CFG_MAX_VALUE_LEN - 1) v).

Definition cfg_update (v : string) (i : nat) (es : list cfg_entry_t) : list cfg_entry_t :=
  alter (set_value v) i es.

(** [dev/services/common/service_config.c:125-140 parse_file, update or add] [k]: the
    text in [key_buf]. *)
Definition put_entry (sec k v : string) (es : list cfg_entry_t) : list cfg_entry_t :=
  match find_entry es sec k with
  | Some i => cfg_update v i es
  | None =>
      if Nat.leb CFG_MAX_ENTRIES (length es) then es
      else es ++ [mk_centry (strncpy_z (CFG_MAX_KEY_LEN - 1) sec) (strncpy_z (CFG_MAX_KEY_LEN - 1) k)
                    (strncpy_z (CFG_MAX_VALUE_LEN - 1) v)]
  end.

(** What a line says. *)
Inductive cfg_line :=
| Skipped
| Section (name : string)
| Assign (k v : string).

(** [dev/services/common/service_config.c:88-124 parse_file, one line] *)
Definition parse_line (line : string) : cfg_line :=
  let s := trim line in
  match s with
  | EmptyString => Skipped
  | String c rest =>
      if Ascii.eqb c "#" || Ascii.eqb c ";" then Skipped
      else if Ascii.eqb c "[" then
        match cut "]" s with
        | None => Skipped
        | Some (String _ nm, _) => Section (lower (strncpy_z (CFG_MAX_KEY_LEN - 1) (trim nm)))
        | Some (EmptyString, _) => Skipped
        end
      else
        match cut "=" s with
        | None => Skipped
        | Some (k, v) => Assign (trim k) (trim (before ";" (trim v)))
        end
  end.

(** The text in [key_buf] after [strncpy] and [str_lower]. *)
Definition key_buf (junk k : string) : string :=
  lower (strncpy_z (CFG_MAX_KEY_LEN - 1) k ++
         if Nat.leb (CFG_MAX_KEY_LEN - 1) (String.length k) then junk else EmptyString).

(** [dev/services/common/service_config.c:88-142 parse_file, the loop] the current section
    and the entries; [junk]: the bytes behind [key_buf] at each line. *)
Fixpoint parse_lines (junk : nat -> string) (lines : list string) (n : nat) (cur : string)
    (es : list cfg_entry_t) : list cfg_entry_t :=
  match lines with
  | [] => es
  | l :: lines' =>
      match parse_line l with
      | Skipped => parse_lines junk lines' (S n) cur es
      | Section nm => parse_lines junk lines' (S n) nm es
      | Assign k v => parse_lines junk lines' (S n) cur (put_entry cur (key_buf (junk n) k) v es)
      end
  end.

(** [dev/services/common/service_config.c:82-143 parse_file] *)
Definition parse_file (junk : nat -> string) (text : string) (es : list cfg_entry_t) : list cfg_entry_t :=
  parse_lines junk (fgets_lines CFG_MAX_LINE text) 0 EmptyString es.

(** ** The environment *)

Definition underscore (c : ascii) : ascii := if Ascii.eqb c "." || Ascii.eqb c "-" then "_"%char else c.

(** A buffer of 64 places filled by [strncpy] from an entry, in upper case, dots and
    hyphens replaced. *)
Definition env_part (junk s : string) : string :=
  smap underscore (upper (strncpy_z 63 s ++ if Nat.leb 63 (String.length s) then junk else EmptyString)).

Definition env_name (junk1 junk2 prefix sec k : string) : string :=
  strncpy_z 255 (prefix ++ "_" ++ env_part junk1 sec ++ "_" ++ env_part junk2 k).

(** [dev/services/common/service_config.c:151-175 apply_env_overrides, one entry] *)
Definition env_override (getenv : string -> option string) (junk1 junk2 prefix : string)
    (e : cfg_entry_t) : cfg_entry_t :=
  match getenv (env_name junk1 junk2 prefix (section e) (key e)) with
  | Some v => set_value v e
  | None => e
  end.

(** [dev/services/common/service_config.c:147-176 apply_env_overrides] *)
Definition apply_env_overrides (getenv : string -> option string) (junk1 junk2 : string)
    (prefix : string) (es : list cfg_entry_t) : list cfg_entry_t :=
  match prefix with
  | EmptyString => es
  | _ => env_override getenv junk1 junk2 prefix <$> es
  end.

(** ** Interface *)

(** What surrounds a load: the environment and the bytes behind the buffers. *)
Record load_env := mk_lenv {
  getenv : string -> option string; junk_key : nat -> string; junk_sec_env : string; junk_key_env : string
}.

(** [dev/services/common/service_config.c:180-201 service_config_load] [file]: the text of
    a file that opens. *)
Definition service_config_load (o : load_env) (file : string -> option string) (p : option string)
    (prefix : option string) (cfg : service_config_t) : Z * service_config_t :=
  match p with
  | None => (-1, cfg)
  | Some p =>
      let pre := default EmptyString (strncpy_z 63 <$> prefix) in
      match file p with
      | None => (-1, mk_scfg [] (strncpy_z 255 p) pre)
      | Some text =>
          (0, mk_scfg (apply_env_overrides (getenv o) (junk_sec_env o) (junk_key_env o) pre
                         (parse_file (junk_key o) text [])) (strncpy_z 255 p) pre)
      end
  end.

(** [dev/services/common/service_config.c:203-211 service_config_reload] *)
Definition service_config_reload (o : load_env) (file : string -> option string)
    (cfg : service_config_t) : Z * service_config_t :=
  service_config_load o file (Some (path cfg)) (Some (svc_prefix cfg)) cfg.

(** [dev/services/common/service_config.c:218-225 service_config_get_string] *)
Definition service_config_get_string (cfg : service_config_t) (sec k : string)
    (def : option string) : option string :=
  match find_entry (entries cfg) sec k with
  | Some i => match value <$> entries cfg !! i with
              | Some EmptyString | None => def
              | Some v => Some v
              end
  | None => def
  end.

(** [dev/services/common/service_config.c:227-235 service_config_get_int] *)
Definition service_config_get_int (cfg : service_config_t) (sec k : string) (def : Z) : Z :=
  match service_config_get_string cfg sec k None with
  | None => def
  | Some s => match strtol 10 s with Some v => i32 v | None => def end
  end.

(** [dev/services/common/service_config.c:237-246 service_config_get_uint32] *)
Definition service_config_get_uint32 (cfg : service_config_t) (sec k : string) (def : Z) : Z :=
  match service_config_get_string cfg sec k None with
  | None => def
  | Some s => match strtoul 10 s with Some v => u32 v | None => def end
  end.

(** [dev/services/common/service_config.c:248-256 service_config_get_bool] *)
Definition service_config_get_bool (cfg : service_config_t) (sec k : string) (def : Z) : Z :=
  match service_config_get_string cfg sec k None with
  | None => def
  | Some s => if String.eqb s "1" || strcaseeq s "true" || strcaseeq s "yes" then 1 else 0
  end.

(** [dev/services/common/service_config.c:258-273 service_config_validate] *)
Fixpoint service_config_validate (cfg : service_config_t) (required : list (string * string)) : Z :=
  match required with
  | [] => 0
  | (sec, k) :: required' =>
      match service_config_get_string cfg sec k None with
      | None | Some EmptyString => -1
      | Some _ => service_config_validate cfg required'
      end
  end.

(** [dev/services/common/service_config.c:275-289 service_config_set] *)
Definition service_config_set (sec k v : string) (cfg : service_config_t) : service_config_t :=
  mk_scfg (put_entry sec k v (entries cfg)) (path cfg) (svc_prefix cfg).

(** ** Entries as a map *)

(** The value a search finds. *)
Definition entry_value (es : list cfg_entry_t) (sec k : string) : option string :=
  i ← find_entry es sec k; value <$> es !! i.

Definition same_key (e : cfg_entry_t) (sec k : string) : bool := strcaseeq (section e) sec && strcaseeq (key e) k.

Lemma entry_value_cons e es sec k :
  entry_value (e :: es) sec k = if same_key e sec k then Some (value e) else entry_value es sec k.
Proof.
  unfold entry_value, same_key. cbn [find_entry]. destruct (_ && _); [done|]. by destruct (find_entry es sec k).
Qed.

Lemma same_key_spec e sec k :
  same_key e sec k = true <-> (lower (section e), lower (key e)) = (lower sec, lower k).
Proof.
  unfold same_key. rewrite andb_true_iff, !strcaseeq_lower. split; [by intros [-> ->]|by intros [= -> ->]].
Qed.

Lemma same_key_ext e sec k sec' k' : (lower sec, lower k) = (lower sec', lower k') ->
  same_key e sec k = same_key e sec' k'.
Proof. intros [= Hs Hk]. unfold same_key, strcaseeq. by rewrite Hs, Hk. Qed.

Lemma entry_value_app es e sec k :
  entry_value (es ++ [e]) sec k =
    match entry_value es sec k with
    | Some v => Some v
    | None => if same_key e sec k then Some (value e) else None
    end.
Proof.
  induction es as [|d es IH]; [by rewrite app_nil_l, entry_value_cons|].
  cbn [app]. rewrite !entry_value_cons. by destruct (same_key d sec k).
Qed.

Lemma entry_value_update es sec k i v sec' k' : find_entry es sec k = Some i ->
  entry_value (cfg_update v i es) sec' k' =
    if decide ((lower sec, lower k) = (lower sec', lower k')) then Some (strncpy_z 255 v)
    else entry_value es sec' k'.
Proof.
  revert i. induction es as [|e es IH]; intros i Hi; [done|]. cbn [find_entry] in Hi.
  fold (same_key e sec k) in Hi. destruct (same_key e sec k) eqn:He.
  - injection Hi as <-. cbn [cfg_update alter list_alter]. rewrite !entry_value_cons.
    change (same_key (set_value v e) sec' k') with (same_key e sec' k'). cbn [set_value value].
    case_decide as Hd; [by rewrite <- (same_key_ext e sec k sec' k' Hd), He|].
    destruct (same_key e sec' k') eqn:He'; [|done]. apply same_key_spec in He, He'. congruence.
  - destruct (find_entry es sec k) as [j|] eqn:Hj; [|done]. injection Hi as <-.
    cbn [cfg_update alter list_alter]. rewrite !entry_value_cons. specialize (IH j eq_refl).
    unfold cfg_update in IH. rewrite IH.
    case_decide as Hd; [by rewrite <- (same_key_ext e sec k sec' k' Hd), He|done].
Qed.

Lemma entry_value_none es sec k : find_entry es sec k = None <-> entry_value es sec k = None.
Proof.
  induction es as [|e es IH]; [done|]. rewrite entry_value_cons. cbn [find_entry]. fold (same_key e sec k).
  destruct (same_key e sec k); [done|]. rewrite <- IH. by destruct (find_entry es sec k).
Qed.

(** Putting an entry is an assignment to the map, if there is room. *)
Lemma put_entry_value es sec k v sec' k' :
  (String.length sec <= 63)%nat -> (String.length k <= 63)%nat -> (length es < CFG_MAX_ENTRIES)%nat ->
  entry_value (put_entry sec k v es) sec' k' =
    if decide ((lower sec, lower k) = (lower sec', lower k')) then Some (strncpy_z 255 v)
    else entry_value es sec' k'.
Proof.
  intros Hs Hk Hl. unfold put_entry. destruct (find_entry es sec k) as [i|] eqn:Hf; [by apply entry_value_update|].
  destruct (Nat.leb_spec CFG_MAX_ENTRIES (length es)); [lia|]. rewrite entry_value_app.
  unfold CFG_MAX_KEY_LEN, CFG_MAX_VALUE_LEN. rewrite !strncpy_z_short by (simpl; lia).
  set (e := mk_centry _ _ _). assert (He : same_key e sec' k' = true <-> (lower sec, lower k) = (lower sec', lower k'))
    by apply same_key_spec.
  case_decide as Hd.
  - apply He in Hd as Hd'. rewrite Hd'. apply entry_value_none in Hf. unfold entry_value in *.
    assert (Hfe : forall es, find_entry es sec' k' = find_entry es sec k).
    { clear -Hd. intros es. induction es as [|x es IH]; [done|]. cbn [find_entry]. fold (same_key x sec' k') (same_key x sec k).
      by rewrite (same_key_ext x sec k sec' k' Hd), IH. }
    rewrite Hfe, Hf. done.
  - destruct (same_key e sec' k'); [by destruct Hd; apply He|]. by destruct (entry_value es sec' k').
Qed.

Lemma put_entry_length es sec k v : (length (put_entry sec k v es) <= S (length es))%nat.
Proof.
  unfold put_entry, cfg_update. destruct (find_entry es sec k).
  - rewrite length_alter. lia.
  - destruct (Nat.leb _ _); [lia|]. rewrite length_app. simpl. lia.
Qed.

(** ** What a file says *)

(** The assignments of a text in order, keys in lower case, values as they are kept. *)
Fixpoint assignments (cur : string) (lines : list string) : list (string * string * string) :=
  match lines with
  | [] => []
  | l :: lines' =>
      match parse_line l with
      | Skipped => assignments cur lines'
      | Section nm => assignments nm lines'
      | Assign k v => (cur, lower k, strncpy_z 255 v) :: assignments cur lines'
      end
  end.

Definition file_assignments (text : string) : list (string * string * string) :=
  assignments EmptyString (fgets_lines CFG_MAX_LINE text).

(** The last assignment to a key counts. *)
Definition assign_all (l : list (string * string * string)) (m : gmap (string * string) string) :=
  fold_left (fun m '(sec, k, v) => <[(sec, k) := v]> m) l m.

Definition file_map (text : string) : gmap (string * string) string := assign_all (file_assignments text) ∅.

(** Names that fit their buffers with a terminator. *)
Definition names_fit (l : list (string * string * string)) : Prop :=
  Forall (fun '(sec, k, _) => (String.length sec < 63)%nat /\ (String.length k < 63)%nat) l.

(** The entries hold the map [m], in lower case, with names that fit. *)
Record holds (es : list cfg_entry_t) (m : gmap (string * string) string) : Prop := {
  holds_value : forall sec k, entry_value es sec k = m !! (lower sec, lower k);
  holds_lower : Forall (fun e => lower (section e) = section e /\ lower (key e) = key e /\
                  (String.length (section e) < 63)%nat /\ (String.length (key e) < 63)%nat) es
}.

Lemma put_entry_holds es m sec k v : holds es m -> lower sec = sec -> lower k = k ->
  (String.length sec < 63)%nat -> (String.length k < 63)%nat -> (length es < CFG_MAX_ENTRIES)%nat ->
  holds (put_entry sec k v es) (<[(sec, k) := strncpy_z 255 v]> m).
Proof.
  intros [Hv Hl] Es Ek Hs Hk Hroom. constructor.
  - intros sec' k'. rewrite put_entry_value, Hv, Es, Ek by (done || lia). rewrite lookup_insert. done.
  - unfold put_entry. destruct (find_entry es sec k) as [i|].
    + unfold cfg_update. apply Forall_alter; [done|]. intros e He _. by apply (proj1 (Forall_lookup _ _) Hl i e).
    + destruct (Nat.leb _ _); [done|]. apply Forall_app_2; [done|]. apply Forall_singleton. cbn [section key].
      unfold CFG_MAX_KEY_LEN. rewrite !strncpy_z_short by (simpl; lia). done.
Qed.

Lemma section_lower l nm : parse_line l = Section nm -> lower nm = nm.
Proof.
  unfold parse_line. intros Hp. repeat (case_match; try done). injection Hp as <-. apply lower_idem.
Qed.

Lemma parse_lines_holds junk lines : forall n cur es m, lower cur = cur ->
  names_fit (assignments cur lines) -> (length es + length (assignments cur lines) <= CFG_MAX_ENTRIES)%nat ->
  holds es m -> holds (parse_lines junk lines n cur es) (assign_all (assignments cur lines) m).
Proof.
  induction lines as [|l lines IH]; intros n cur es m Hc Hf Hlen Hh; [done|].
  cbn [parse_lines assignments] in *. destruct (parse_line l) as [|nm|k v] eqn:Hp; [by apply IH| |].
  - apply IH; try done. by eapply section_lower.
  - apply Forall_cons in Hf as [[Hs Hk] Hf]. cbn [length] in Hlen.
    unfold lower in Hk at 1. rewrite smap_length in Hk.
    assert (Hkb : key_buf (junk n) k = lower k).
    { unfold key_buf, CFG_MAX_KEY_LEN. destruct (Nat.leb_spec (64 - 1) (String.length k)); [lia|].
      rewrite append_empty, strncpy_z_short by (simpl; lia). done. }
    rewrite Hkb. unfold assign_all. cbn [fold_left]. apply IH; try done.
    + pose proof (put_entry_length es cur (lower k) v). lia.
    + apply put_entry_holds; try done; [apply lower_idem|unfold lower; by rewrite smap_length|lia].
Qed.

(** The environment variable that overrides an entry. *)
Definition variable (prefix sec k : string) : string := env_name "" "" prefix sec k.

Lemma env_override_value getenv0 j1 j2 prefix es sec k :
  Forall (fun e => lower (section e) = section e /\ lower (key e) = key e /\
            (String.length (section e) < 63)%nat /\ (String.length (key e) < 63)%nat) es ->
  entry_value (env_override getenv0 j1 j2 prefix <$> es) sec k =
    (fun v => match getenv0 (variable prefix (lower sec) (lower k)) with
              | Some x => strncpy_z 255 x | None => v end) <$> entry_value es sec k.
Proof.
  induction 1 as [|e es (Es & Ek & Hs & Hk) _ IH]; [done|]. cbn [fmap list_fmap]. rewrite !entry_value_cons.
  assert (Hsame : same_key (env_override getenv0 j1 j2 prefix e) sec k = same_key e sec k)
    by (unfold env_override; destruct (getenv0 (env_name j1 j2 prefix (section e) (key e))); reflexivity).
  rewrite Hsame. destruct (same_key e sec k) eqn:He; [|exact IH]. apply same_key_spec in He as [= <- <-].
  rewrite Es, Ek. cbn [fmap option_fmap option_map]. unfold env_override, variable.
  assert (Hpart : forall j x, (String.length x < 63)%nat -> env_part j x = env_part "" x).
  { intros j x Hx. unfold env_part. by destruct (Nat.leb_spec 63 (String.length x)); [lia|]. }
  unfold env_name. rewrite (Hpart j1), (Hpart j2) by done.
  by destruct (getenv0 (strncpy_z 255 _)).
Qed.

(** C23: A configuration file is read as a map: if its names fit their buffers and it has
    at most 1024 assignments, then loading it succeeds, and a look-up, in whatever case,
    gives the value of the last assignment to that key, unless a variable of the
    environment named PREFIX_SECTION_KEY replaces it; a missing key and an empty value give
    the default. *)
Theorem config_is_map o file p prefix cfg text : file p = Some text ->
  names_fit (file_assignments text) -> (length (file_assignments text) <= CFG_MAX_ENTRIES)%nat ->
  exists cfg', service_config_load o file (Some p) (Some prefix) cfg = (0, cfg') /\
    forall sec k def, service_config_get_string cfg' sec k def =
      match file_map text !! (lower sec, lower k) with
      | None => def
      | Some v =>
          let v' := if decide (prefix = EmptyString) then v
                    else match getenv o (variable (strncpy_z 63 prefix) (lower sec) (lower k)) with
                         | Some x => strncpy_z 255 x | None => v end in
          if decide (v' = EmptyString) then def else Some v'
      end.
Proof.
  intros Hfile Hf Hl. unfold service_config_load. rewrite Hfile. eexists. split; [done|]. intros sec k def.
  assert (Hh : holds (parse_file (junk_key o) text []) (file_map text)).
  { unfold parse_file, file_map, file_assignments. apply parse_lines_holds; try done. }
  destruct Hh as [Hv Hlow]. unfold service_config_get_string. cbn [entries].
  set (es := apply_env_overrides _ _ _ _ _).
  assert (Hev : entry_value es sec k = (fun v => if decide (prefix = EmptyString) then v
      else match getenv o (variable (strncpy_z 63 prefix) (lower sec) (lower k)) with
           | Some x => strncpy_z 255 x | None => v end) <$> file_map text !! (lower sec, lower k)).
  { rewrite <- Hv. unfold es, apply_env_overrides. cbn [default from_option fmap option_fmap option_map id].
    destruct (decide (prefix = EmptyString)) as [->|Hne]; [by destruct (entry_value _ _ _)|].
    destruct (strncpy_z 63 prefix) as [|c pre] eqn:Hpre; [by destruct prefix|].
    rewrite env_override_value by exact Hlow. by destruct (entry_value _ _ _). }
  unfold entry_value in Hev. destruct (file_map text !! (lower sec, lower k)) as [v|]; cbn [fmap option_fmap option_map] in Hev.
  - destruct (find_entry es sec k) as [i|]; [|done]. cbn [mbind option_bind] in Hev. rewrite Hev.
    cbv zeta. generalize (if decide (prefix = EmptyString) then v else match getenv o (variable (strncpy_z 63 prefix) (lower sec) (lower k)) with
      | Some x => strncpy_z 255 x | None => v end). intros v'. clear Hev. by destruct v'.
  - destruct (find_entry es sec k) as [i|]; [|done]. cbn [mbind option_bind] in Hev. by rewrite Hev.
Qed.

(** ** A printed configuration is read back *)

Definition print_entry (kv : string * string) : string := (kv.1 ++ " = " ++ kv.2 ++ line_end)%string.

Definition print_section (s : string * list (string * string)) : string :=
  ("[" ++ s.1 ++ "]" ++ line_end ++ String.concat "" (print_entry <$> s.2))%string.

Definition print_config (secs : list (string * list (string * string))) : string :=
  String.concat "" (print_section <$> secs).

Definition plain (c : ascii) : Prop :=
  tolower c = c /\ isspace c = false /\ c <> "="%char /\ c <> ";"%char /\ c <> "#"%char /\
  c <> "["%char /\ c <> "]"%char /\ c <> newline.

Definition name_fits (s : string) : Prop := s <> EmptyString /\ all plain s /\ (String.length s < 63)%nat.

Definition value_fits (v : string) : Prop :=
  v <> EmptyString /\ trimmed v /\ all (fun c => c <> ";"%char /\ c <> newline) v /\ (String.length v <= 255)%nat.

Definition section_fits (s : string * list (string * string)) : Prop :=
  name_fits s.1 /\ Forall (fun kv => name_fits kv.1 /\ value_fits kv.2) s.2.

Definition listed (secs : list (string * list (string * string))) : list (string * string * string) :=
  s ← secs; (fun kv => (s.1, kv.1, kv.2)) <$> s.2.

Lemma name_trimmed s : all plain s -> trimmed s.
Proof. intros Hs. apply nonspace_trimmed. eapply all_impl; [exact Hs|]. by intros c (_ & Hc & _). Qed.

Lemma name_lower s : all plain s -> lower s = s.
Proof. intros Hs. apply smap_id. eapply all_impl; [exact Hs|]. by intros c (Hc & _). Qed.

Lemma newline_space : all (fun c => isspace c = true) line_end.
Proof. by repeat constructor. Qed.

Lemma trim_line s : trimmed s -> s <> EmptyString -> trim (s ++ line_end) = s.
Proof. intros Ht Hne. apply (trim_around "" s line_end Ht); [constructor|apply newline_space|done]. Qed.

Lemma parse_section_line nm : name_fits nm -> parse_line ("[" ++ nm ++ "]" ++ line_end) = Section nm.
Proof.
  intros (Hne & Hp & Hl). unfold parse_line.
  replace ("[" ++ nm ++ "]" ++ line_end)%string with (("[" ++ nm ++ "]") ++ line_end)%string by (by rewrite !append_assoc).
  rewrite trim_line; [|by apply (trimmed_app "[" "]"); [apply nonspace_trimmed; by repeat constructor..| |]|done].
  change ("[" ++ nm ++ "]")%string with (String "[" (nm ++ "]")). cbn -[cut trim lower strncpy_z].
  change (String "[" (nm ++ "]")) with (String "[" nm ++ String "]" "")%string.
  rewrite cut_app; [|apply all_cons; split; [done|]; eapply all_impl; [exact Hp|]; unfold plain; tauto].
  destruct (name_trimmed nm Hp) as [-> _]. unfold CFG_MAX_KEY_LEN. rewrite strncpy_z_short by (simpl; lia).
  by rewrite name_lower.
Qed.

Lemma parse_entry_line k v : name_fits k -> value_fits v -> parse_line (print_entry (k, v)) = Assign k v.
Proof.
  intros (Hk & Hp & _) (Hv & Ht & Hc & _). unfold print_entry, parse_line. cbn [fst snd].
  replace (k ++ " = " ++ v ++ line_end)%string with ((k ++ " = " ++ v) ++ line_end)%string by (by rewrite !append_assoc).
  pose proof (name_trimmed k Hp) as Htk.
  rewrite trim_line; [|by apply trimmed_app|by destruct k].
  assert (Heq : (k ++ " = " ++ v = (k ++ " ") ++ String "=" (" " ++ v))%string) by (by rewrite append_assoc).
  rewrite Heq, cut_app; [|apply all_app; split; [eapply all_impl; [exact Hp|]; unfold plain; tauto|by repeat constructor]].
  rewrite <- Heq. destruct k as [|c k]; [done|]. rewrite append_cons. pose proof Hp as Hp'.
  apply all_cons in Hp' as [(_ & _ & _ & H1 & H2 & H3 & _) _].
  rewrite (proj2 (Ascii.eqb_neq c "#")), (proj2 (Ascii.eqb_neq c ";")), (proj2 (Ascii.eqb_neq c "[")) by done. cbn [orb].
  assert (Hsp : all (fun c => isspace c = true) " ") by (by repeat constructor).
  assert (E1 : trim (String c k ++ " ") = String c k).
  { change (trim ("" ++ String c k ++ " ") = String c k). apply trim_around; try done. constructor. }
  assert (E2 : trim (" " ++ v) = v).
  { rewrite <- (append_empty v) at 1. apply (trim_around " " v ""); try done. constructor. }
  rewrite E1, E2, before_none; [|eapply all_impl; [exact Hc|]; by intros x []].
  by destruct Ht as [-> _].
Qed.

Lemma fgets_printed l rest : all (fun c => c <> newline) l -> (String.length l < 511)%nat ->
  fgets_lines CFG_MAX_LINE (l ++ line_end ++ rest) = (l ++ line_end)%string :: fgets_lines CFG_MAX_LINE rest.
Proof.
  intros Hl Hlen. unfold fgets_lines, CFG_MAX_LINE. change (line_end ++ rest)%string with (String newline rest).
  rewrite (fgets_line (512 - 1)) by (done || simpl; lia). done.
Qed.

Lemma concat_cons (a : string) l : String.concat "" (a :: l) = (a ++ String.concat "" l)%string.
Proof. cbn. destruct l; [by rewrite append_empty|done]. Qed.

Lemma no_newline s : all plain s -> all (fun c => c <> newline) s.
Proof. intros Hs. eapply all_impl; [exact Hs|]. unfold plain. tauto. Qed.

Lemma assignments_entries sec kvs rest : Forall (fun kv => name_fits kv.1 /\ value_fits kv.2) kvs ->
  assignments sec (fgets_lines CFG_MAX_LINE (String.concat "" (print_entry <$> kvs) ++ rest)) =
    ((fun kv => (sec, kv.1, kv.2)) <$> kvs) ++ assignments sec (fgets_lines CFG_MAX_LINE rest).
Proof.
  induction 1 as [|[k v] kvs [Hk Hv] _ IH]; [done|]. cbn [fmap list_fmap]. rewrite concat_cons, append_assoc.
  pose proof Hk as (Hk1 & Hk2 & Hk3). pose proof Hv as (Hv1 & Hv2 & Hv3 & Hv4). cbn [fst snd] in *.
  assert (Hline : (print_entry (k, v) ++ String.concat "" (print_entry <$> kvs) ++ rest)%string =
    ((k ++ " = " ++ v) ++ line_end ++ String.concat "" (print_entry <$> kvs) ++ rest)%string)
    by (unfold print_entry; cbn [fst snd]; by rewrite !append_assoc).
  rewrite Hline, fgets_printed.
  - cbn [assignments]. assert (Hp : parse_line ((k ++ " = " ++ v) ++ line_end) = Assign k v).
    { rewrite <- (parse_entry_line k v Hk Hv). unfold print_entry. cbn [fst snd]. by rewrite !append_assoc. }
    rewrite Hp, IH, name_lower, strncpy_z_short by done. done.
  - apply all_app. split; [by apply no_newline|]. apply all_app. split; [by repeat constructor|].
    eapply all_impl; [exact Hv3|]. by intros c [].
  - rewrite !string_length_app. simpl. lia.
Qed.

Lemma assignments_printed secs : forall cur, Forall section_fits secs ->
  assignments cur (fgets_lines CFG_MAX_LINE (print_config secs)) = listed secs.
Proof.
  induction secs as [|[nm kvs] secs IH]; intros cur Hf; [done|]. apply Forall_cons in Hf as [[Hn Hk] Hf].
  unfold print_config in *. cbn [fmap list_fmap]. rewrite concat_cons. unfold print_section at 1. cbn [fst snd] in *.
  pose proof Hn as (Hn1 & Hn2 & Hn3).
  assert (Hline : (("[" ++ nm ++ "]" ++ line_end ++ String.concat "" (print_entry <$> kvs)) ++ String.concat "" (print_section <$> secs) =
    ("[" ++ nm ++ "]") ++ line_end ++ String.concat "" (print_entry <$> kvs) ++ String.concat "" (print_section <$> secs))%string)
    by (by rewrite !append_assoc).
  rewrite Hline, fgets_printed.
  - cbn [assignments]. assert (Hp : parse_line (("[" ++ nm ++ "]") ++ line_end) = Section nm).
    { rewrite <- (parse_section_line nm Hn). by rewrite !append_assoc. }
    rewrite Hp, assignments_entries, (IH nm Hf) by done. done.
  - apply all_app. split; [by repeat constructor|]. apply all_app. split; [by apply no_newline|by repeat constructor].
  - rewrite !string_length_app. simpl. lia.
Qed.

Lemma assign_all_app l l' m : assign_all (l ++ l') m = assign_all l' (assign_all l m).
Proof. apply fold_left_app. Qed.

Lemma assign_all_other l sec k : (forall v, (sec, k, v) ∉ l) -> forall m, assign_all l m !! (sec, k) = m !! (sec, k).
Proof.
  induction l as [|[[s k0] v] l IH]; intros Hn m; [done|]. unfold assign_all in *. cbn [fold_left].
  rewrite IH; [|intros v' Hv; apply (Hn v'); by right].
  apply lookup_insert_ne. intros [= -> ->]. apply (Hn v). by left.
Qed.

(** With every key assigned once, each has its own value. *)
Lemma assign_all_once l sec k v m : NoDup (l.*1) -> (sec, k, v) ∈ l -> assign_all l m !! (sec, k) = Some v.
Proof.
  intros Hnd Hin. apply list_elem_of_split in Hin as (l1 & l2 & ->). rewrite assign_all_app.
  change (assign_all ((sec, k, v) :: l2)) with (fun m => assign_all l2 (<[(sec, k) := v]> m)).
  cbv beta. rewrite assign_all_other; [apply lookup_insert_eq|].
  intros v' Hv'. rewrite fmap_app in Hnd. apply NoDup_app in Hnd as (_ & _ & Hnd). cbn in Hnd.
  apply NoDup_cons in Hnd as [Hnd _]. apply Hnd. apply list_elem_of_fmap. by exists (sec, k, v').
Qed.

Lemma listed_fits secs : Forall section_fits secs ->
  Forall (fun '(sec, k, v) => lower sec = sec /\ lower k = k /\ (String.length sec < 63)%nat /\
            (String.length k < 63)%nat /\ v <> EmptyString) (listed secs).
Proof.
  intros Hf. apply Forall_forall. intros [[sec k] v] Hin. unfold listed in Hin.
  apply list_elem_of_bind in Hin as ([nm kvs] & Hin & Hs).
  apply (proj1 (Forall_forall _ _) Hf) in Hs as [(Hn1 & Hn2 & Hn3) Hk].
  apply list_elem_of_fmap in Hin as ([k' v'] & [= -> -> ->] & Hin). cbn [fst snd] in *.
  apply (proj1 (Forall_forall _ _) Hk) in Hin as [(K1 & K2 & K3) (V1 & _)]. cbn [fst snd] in *.
  split_and!; try done; by apply name_lower.
Qed.

(** A configuration that was printed, section by section, is read back: with at most
    1024 entries, each key once, and names and values of the allowed characters and sizes,
    loading succeeds, each key has exactly its value, and no other key has one. *)
Theorem print_load o file p cfg secs : file p = Some (print_config secs) ->
  Forall section_fits secs -> NoDup ((listed secs).*1) -> (length (listed secs) <= CFG_MAX_ENTRIES)%nat ->
  exists cfg', service_config_load o file (Some p) None cfg = (0, cfg') /\
    (forall sec k v def, (sec, k, v) ∈ listed secs -> service_config_get_string cfg' sec k def = Some v) /\
    (forall sec k def, (lower sec, lower k) ∉ (listed secs).*1 -> service_config_get_string cfg' sec k def = def).
Proof.
  intros Hfile Hf Hnd Hl. unfold service_config_load. rewrite Hfile. eexists. split; [done|].
  pose proof (listed_fits secs Hf) as Hlf.
  assert (Hh : holds (parse_file (junk_key o) (print_config secs) []) (assign_all (listed secs) ∅)).
  { unfold parse_file. rewrite <- (assignments_printed secs EmptyString Hf). apply parse_lines_holds;
      rewrite ?(assignments_printed secs EmptyString Hf); try done.
    eapply Forall_impl; [exact Hlf|]. intros [[sec k] v] (_ & _ & ? & ? & _). done. }
  destruct Hh as [Hv _]. cbn [default from_option fmap option_fmap option_map apply_env_overrides].
  set (es := parse_file _ _ _) in *. split.
  - intros sec k v def Hin. specialize (Hv sec k).
    apply (proj1 (Forall_forall _ _) Hlf) in Hin as Hfit. destruct Hfit as (Es & Ek & _ & _ & Hne).
    rewrite Es, Ek, (assign_all_once _ sec k v ∅ Hnd Hin) in Hv.
    unfold entry_value in Hv. unfold service_config_get_string. cbn [entries].
    destruct (find_entry es sec k) as [i|]; [|done]. cbn [mbind option_bind] in Hv. rewrite Hv. by destruct v.
  - intros sec k def Hno. specialize (Hv sec k). rewrite assign_all_other, lookup_empty in Hv.
    2: { intros v Hin. apply Hno. apply list_elem_of_fmap. by exists (lower sec, lower k, v). }
    apply entry_value_none in Hv. unfold service_config_get_string. cbn [entries]. by rewrite Hv.
Qed.

(** ** Reloading *)

(** A reload whose file cannot be opened leaves an empty configuration: every look-up then
    gives its default. *)
Lemma failed_reload_forgets o file cfg sec k def : file (path cfg) = None ->
  (service_config_reload o file cfg).1 = -1 /\
  service_config_get_string (service_config_reload o file cfg).2 sec k def = def.
Proof. intros Hf. unfold service_config_reload, service_config_load. by rewrite Hf. Qed.

(** A number that fits a [long] but not an [int] is cut, not replaced by the default. *)
Lemma large_int_is_cut : service_config_get_int
  (mk_scfg [mk_centry "hardware" "sample_rate" "4294975296"] "" "") "hardware" "sample_rate" 44100 = 8000.
Proof. vm_compute. reflexivity. Qed.

(** ** On concrete inputs *)

Definition demo_secs : list (string * list (string * string)) :=
  [("server", [("socket_path", "/run/sm.sock"); ("log_file", "/var/log/a b.log")]);
   ("hardware", [("device", "hw:0")])]%string.

Definition plain_env : load_env := mk_lenv (fun _ => None) (fun _ => EmptyString) EmptyString EmptyString.
Definition demo_env : load_env :=
  mk_lenv (fun v => if String.eqb v "AUDIO_SERVICE_HARDWARE_DEVICE" then Some "hw:1"%string else None)
    (fun _ => EmptyString) EmptyString EmptyString.

Lemma config_is_map_witness : exists cfg',
  service_config_load demo_env (fun _ => Some (print_config demo_secs)) (Some "/etc/a.conf"%string)
    (Some "AUDIO_SERVICE"%string) (mk_scfg [] "" "") = (0, cfg') /\
  service_config_get_string cfg' "Hardware" "DEVICE" None = Some "hw:1"%string /\
  service_config_get_string cfg' "server" "log_file" None = Some "/var/log/a b.log"%string.
Proof.
  destruct (config_is_map demo_env (fun _ => Some (print_config demo_secs)) "/etc/a.conf" "AUDIO_SERVICE"
    (mk_scfg [] "" "") (print_config demo_secs) eq_refl) as (cfg' & Hl & Hg).
  - apply (bool_decide_unpack _). vm_compute. exact I.
  - vm_compute. lia.
  - exists cfg'. split; [exact Hl|]. rewrite !Hg. vm_compute. split; reflexivity.
Defined.

Lemma print_load_witness : exists cfg',
  service_config_load plain_env (fun _ => Some (print_config demo_secs)) (Some "/etc/a.conf"%string)
    None (mk_scfg [] "" "") = (0, cfg') /\
  service_config_get_string cfg' "server" "socket_path" None = Some "/run/sm.sock"%string.
Proof.
  destruct (print_load plain_env (fun _ => Some (print_config demo_secs)) "/etc/a.conf" (mk_scfg [] "" "") demo_secs eq_refl)
    as (cfg' & Hl & Hg & _).
  - repeat constructor; cbn; try done; try lia; apply (bool_decide_unpack _); vm_compute; exact I.
  - apply (bool_decide_unpack _). vm_compute. exact I.
  - vm_compute. lia.
  - exists cfg'. split; [exact Hl|]. apply Hg. left.
Defined.
