(* ===== verification/ServiceLoop.v ===== *)
(** * The service daemons' event loop (services/*_service_loop.c)

    The four services share their loop: a poll on the device, if it has a descriptor, and a
    one-second timer that reloads the configuration and sends a heartbeat to the daemon.
    What differs is a class: what is done when the device is ready and which settings a
    reload changes.  The state puts together the models of the event loop, the hardware
    device, the configuration, the client of the daemon and the signal flags. *)

From S2P Require Import Prelude MemoryPool HalRegistry HalDevice ServiceIpc ServiceConfig ServiceBase IoLoop IoHeap.

Definition LOOP_TIMEOUT_MS : Z := 1000.
Definition URING_QUEUE_DEPTH : Z := 64.

(** The state of a service while its loop runs: the process's flags, the context (a part
    common to all, the service's own settings and data), the configuration, the client of
    the daemon with the daemon behind it ([D]), the device ([P]) with the kernel behind it
    ([K]), how many reloads and heartbeats there were, the loop's flag. *)
Record svc (P K E D : Type) := mk_svc {
  globals : svc_globals; base : svc_context_t; cfg : service_config_t; ipc : svc_ipc_t; daemon : D;
  hal_device : option (hw P); kernel_of : K; own : E;
  reloads : nat; beats : nat; loop_running : bool
}.
Arguments mk_svc {P K E D}. Arguments globals {P K E D}. Arguments base {P K E D}. Arguments cfg {P K E D}.
Arguments ipc {P K E D}. Arguments daemon {P K E D}. Arguments hal_device {P K E D}.
Arguments kernel_of {P K E D}. Arguments own {P K E D}. Arguments reloads {P K E D}. Arguments beats {P K E D}.
Arguments loop_running {P K E D}.

(** What comes from outside: the environment and the text of the file at the n-th reload,
    the daemon's side of the n-th heartbeat. *)
Record svc_env (D : Type) := mk_svc_env {
  load_env_at : nat -> load_env; file_at : nat -> string -> option string; beat_at : nat -> call_env D * Z
}.
Arguments mk_svc_env {D}. Arguments load_env_at {D}. Arguments file_at {D}. Arguments beat_at {D}.

Section state.
Context {P K E D : Type}.
Notation SM := (M (svc P K E D)).

Definition with_globals g (a : svc P K E D) : svc P K E D :=
  mk_svc g (base a) (cfg a) (ipc a) (daemon a) (hal_device a) (kernel_of a) (own a) (reloads a) (beats a) (loop_running a).
Definition with_base b (a : svc P K E D) : svc P K E D :=
  mk_svc (globals a) b (cfg a) (ipc a) (daemon a) (hal_device a) (kernel_of a) (own a) (reloads a) (beats a) (loop_running a).
Definition with_own e (a : svc P K E D) : svc P K E D :=
  mk_svc (globals a) (base a) (cfg a) (ipc a) (daemon a) (hal_device a) (kernel_of a) e (reloads a) (beats a) (loop_running a).
Definition with_loop_running b (a : svc P K E D) : svc P K E D :=
  mk_svc (globals a) (base a) (cfg a) (ipc a) (daemon a) (hal_device a) (kernel_of a) (own a) (reloads a) (beats a) b.

(** A call on the device; [e] if there is none. *)
Definition on_device {X} (e : X) (m : M (st P K) X) : SM X := fun a =>
  match hal_device a with
  | None => (e, a)
  | Some d => let '(x, s) := m (mk_st d (kernel_of a)) in
      (x, mk_svc (globals a) (base a) (cfg a) (ipc a) (daemon a) (Some (dev s)) (world s) (own a) (reloads a) (beats a)
            (loop_running a))
  end.
Definition get_own {X} (f : E -> SM X) : SM X := fun a => f (own a) a.
Definition set_own (e : E) : SM unit := fun a => (tt, with_own e a).
Definition count_error : SM unit := fun a =>
  let b := base a in
  (tt, with_base (mk_ctx (name b) (version b) (exe_path b) (pid_path b) (config_path b) (log_path b) (pid b) (state b)
     (foreground b) (verbose b) (start_time b) (u64 (error_count b + 1))) a).

Definition on_daemon (o : call_env D) (later : Z) : SM Z := fun a =>
  let '(rc, i, d) := service_ipc_heartbeat o later (ipc a) (daemon a) in
  (rc, mk_svc (globals a) (base a) (cfg a) i d (hal_device a) (kernel_of a) (own a) (reloads a) (S (beats a))
         (loop_running a)).
End state.

(** ** What a service adds *)

Class Service (P K E D : Type) := {
  on_hal_data : Z -> M (svc P K E D) Z;       (** [result] *)
  settings : service_config_t -> E -> E       (** what a successful reload does *)
}.

(** Which callback an operation of the loop has. *)
Inductive event := HalData | HealthTimeout.

Section service.
Context {P K E D R : Type} `{Service P K E D} `{Uring R} (env : svc_env D).
(** The signals that were handled during a wait of the ring. *)
Context (signals : R -> list Z).
Notation SM := (M (svc P K E D)).
Notation LM := (M (ls event (svc P K E D) R)).

(** [dev/services/audio_service/audio_service_loop.c:64-78 apply_config_reload] The four services': the configuration is read again, in place; the settings
    change if that succeeds. *)
Definition apply_config_reload : SM unit := fun a =>
  let '(rc, c) := service_config_reload (load_env_at env (reloads a)) (file_at env (reloads a)) (cfg a) in
  (tt, mk_svc (globals a) (base a) c (ipc a) (daemon a) (hal_device a) (kernel_of a)
         (if rc =? 0 then settings c (own a) else own a) (S (reloads a)) (beats a) (loop_running a)).

(** [dev/services/audio_service/audio_service_loop.c:114-131 on_health_timeout] The four services'. *)
Definition on_health_timeout : SM Z := fun a =>
  let '(_, a) := if g_reload (globals a) then
                   let '(_, a) := apply_config_reload a in
                   let g := globals a in
                   (tt, with_globals (mk_globals (g_running g) false (g_log_file g) (dispositions g)) a)
                 else (tt, a) in
  let '(o, later) := beat_at env (beats a) in
  let '(_, a) := on_daemon o later a in
  (0, a).

Definition callbacks (e : event) (f result : Z) (buf : option (list Z)) (len : Z) : SM Z :=
  match e with HalData => on_hal_data result | HealthTimeout => on_health_timeout end.

(** A signal with a handler; one without would end the process, which runs its loop with
    all four handlers in place. *)
Definition handle (sig : Z) (a : svc P K E D) : svc P K E D :=
  match deliver sig (globals a) with Some g => with_globals g a | None => a end.
Definition interrupted (w : R) (a : svc P K E D) : svc P K E D := foldl (fun a sig => handle sig a) a (signals w).

(** [dev/services/audio_service/audio_service_loop.c:177-186 audio_service_loop_run, hal_op] *)
Definition poll_op (f : Z) : io_op_desc_t event := mk_op f IO_OP_POLL 0 (Some HalData) 0.

(** [dev/services/audio_service/audio_service_loop.c:189-197 audio_service_loop_run, to_op] *)
Definition timer_op : io_op_desc_t event := mk_op (-1) IO_OP_TIMEOUT 0 (Some HealthTimeout) LOOP_TIMEOUT_MS.

(** [dev/services/audio_service/audio_service_loop.c:171-204 audio_service_loop_run, while] The loop of the four [*_service_loop_run]: [while (g_running)].  false: [fuel], for the
    rounds and for each run, was not enough. *)
Fixpoint rounds (n fuel : nat) : LM bool :=
  match n with
  | O => mret false
  | S n =>
      a ← get app;
      if negb (g_running (globals a)) then mret true
      else
        _ ← on_app (fun a => (tt, with_loop_running true a));
        _ ← (match hal_device a with
             | Some d => if 0 <=? h_fd d then io_loop_register_op (Some (poll_op (h_fd d))) else mret 0
             | None => mret 0
             end);
        _ ← io_loop_register_op (Some timer_op);
        rc ← io_loop_run callbacks loop_running interrupted fuel;
        match rc with
        | None => mret false
        | Some _ => _ ← io_loop_clear_ops; rounds n fuel
        end
  end.

(** [dev/services/audio_service/audio_service_loop.c:147-158 audio_service_loop_run] Their frame: the event loop is created, run and destroyed.  [pool]: the pool for its
    buffers; [mem], [mallocs]: memory for the loop and for its objects.  None: [fuel] was
    not enough; the state is that of the service and the ring. *)
Definition service_loop (nm : string) (pool : option memory_pool) (mem : bool) (mallocs : list bool) (n fuel : nat)
    (a : svc P K E D) (w : R) : (option Z * svc P K E D) * R :=
  let '(l, w) := io_loop_create mem (Some (mk_io_config URING_QUEUE_DEPTH false pool nm)) w in
  match l with
  | None => ((Some SVC_ERR_GENERIC, a), w)
  | Some l =>
      let '(ok, s) := rounds n fuel (mk_ls l ∅ ∅ 1 mallocs false a w) in
      if negb ok then ((None, app s), ring s)
      else
        let '(ok, s) := io_loop_destroy fuel s in
        ((if (ok : bool) then Some SVC_OK else None, app s), ring s)
  end.

(** ** What a service's loop keeps doing *)

(** The callbacks of a service leave the loop's flag alone. *)
Class KeepsRunning : Prop := hal_data_runs r a : loop_running (on_hal_data r a).2 = loop_running a.
Context `{!KeepsRunning}.

Lemma beat_runs a : loop_running (on_health_timeout a).2 = loop_running a /\ (on_health_timeout a).1 = 0.
Proof.
  unfold on_health_timeout, apply_config_reload, on_daemon.
  destruct (g_reload _); [destruct (service_config_reload _ _ _)|]; simpl;
    destruct (beat_at _ _); destruct (service_ipc_heartbeat _ _ _ _) as [[??]?]; done.
Qed.

Lemma callbacks_run e f r b n a : loop_running a = true -> loop_running (callbacks e f r b n a).2 = true.
Proof. intros Ha. destruct e; simpl; [by rewrite hal_data_runs|by rewrite (proj1 (beat_runs a))]. Qed.

Lemma handle_runs sig a : loop_running (handle sig a) = loop_running a.
Proof. unfold handle. by destruct (deliver _ _). Qed.

Lemma interrupted_runs w a : loop_running a = true -> loop_running (interrupted w a) = true.
Proof.
  unfold interrupted. revert a. induction (signals w) as [|sig l IH]; intros a Ha; [done|].
  simpl. apply IH. by rewrite handle_runs.
Qed.

(** A heartbeat is sent at each tick, and a reload asked for since the last tick is done
    once, whatever its result. *)
Lemma beat_step a : let a' := (on_health_timeout a).2 in
  beats a' = S (beats a) /\ reloads a' = (if g_reload (globals a) then S (reloads a) else reloads a) /\
  g_reload (globals a') = false.
Proof.
  unfold on_health_timeout, apply_config_reload, on_daemon.
  destruct (g_reload (globals a)) eqn:Hg; [destruct (service_config_reload _ _ _)|]; simpl;
    destruct (beat_at _ _); destruct (service_ipc_heartbeat _ _ _ _) as [[??]?]; done.
Qed.

Lemma register_goes_on d : keeps (goes_on loop_running) (io_loop_register_op d : LM Z).
Proof.
  unfold io_loop_register_op. destruct d as [d|]; [|apply keeps_ret]. apply keeps_bind; [by intros s Hs|].
  intros l. case_match; [destruct p|case_match; [apply keeps_ret|]];
    (apply keeps_bind; [by intros s Hs|intros _; apply keeps_ret]).
Qed.

Lemma rounds_never_end n fuel (s : ls event (svc P K E D) R) :
  (forall w : R, 0 <= (u_submit w).1) -> (forall w : R, (u_wait w).1.1 = - EINTR \/ 0 <= (u_wait w).1.1) ->
  g_running (globals (app s)) = true -> (rounds n fuel s).1 = false.
Proof.
  intros Hsub Hwait Hrun. destruct n as [|n]; [done|].
  cut (triple (fun s : ls event (svc P K E D) R => g_running (globals (app s)) = true) (rounds (S n) fuel)
         (fun r _ => r = false)).
  { intros Hall. by apply Hall. }
  clear s Hrun. cbn [rounds].
  apply (triple_get_as _ (fun a => g_running (globals a) = true)); [by intros s|]. intros a ->. cbn [negb].
  eapply (triple_seq _ (goes_on loop_running)); [by intros s _|]. intros _.
  eapply (triple_seq _ (goes_on loop_running)).
  { destruct (hal_device a) as [d|]; [destruct (0 <=? h_fd d); [apply register_goes_on|]|]; apply keeps_ret. }
  intros _. eapply (triple_seq _ (goes_on loop_running)); [apply register_goes_on|]. intros _.
  eapply (triple_bind _ (fun r _ => r = None)).
  { intros s Hs. apply loop_never_ends; [intros; by apply callbacks_run|intros; by apply interrupted_runs|done..]. }
  by intros r s ->.
Qed.

(** A service does not stop: once its loop runs it runs for ever, whatever signals
    arrive (SIGTERM, SIGINT and SIGHUP included), whatever the device and the daemon do,
    as long as the ring takes and returns requests.  SIGTERM and SIGINT clear a flag that
    is read between two runs of the event loop only, and no run ends, since nothing clears
    the flag the event loop reads. *)
Theorem service_never_stops nm pool mem mallocs n fuel a (w : R) l :
  (forall w : R, 0 <= (u_submit w).1) -> (forall w : R, (u_wait w).1.1 = - EINTR \/ 0 <= (u_wait w).1.1) ->
  (io_loop_create (C:=event) mem (Some (mk_io_config URING_QUEUE_DEPTH false pool nm)) w).1 = Some l ->
  g_running (globals a) = true ->
  (service_loop nm pool mem mallocs n fuel a w).1.1 = None.
Proof.
  intros Hsub Hwait Hl Hrun. unfold service_loop. destruct (io_loop_create _ _ w) as [o w']. simpl in Hl. subst o.
  pose proof (rounds_never_end n fuel (mk_ls l ∅ ∅ 1 mallocs false a w') Hsub Hwait Hrun) as Hend.
  destruct (rounds _ _ _) as [ok s]. simpl in Hend. by subst ok.
Qed.
End service.

(** ** What a service's loop keeps of the device *)

(** A property of the device and the kernel that the callback for the device keeps is kept
    by the loop. *)
Section device.
Context {P K E D R : Type} `{Service P K E D} `{Uring R} (env : svc_env D) (signals : R -> list Z).
Context (I : option (hw P) -> K -> Prop).
Definition on_hardware (a : svc P K E D) : Prop := I (hal_device a) (kernel_of a).
Hypothesis hal_data_keeps : forall r a, on_hardware a -> on_hardware (on_hal_data r a).2.

Lemma beat_hardware a : hal_device (on_health_timeout env a).2 = hal_device a /\
  kernel_of (on_health_timeout env a).2 = kernel_of a.
Proof.
  unfold on_health_timeout, apply_config_reload, on_daemon.
  destruct (g_reload _); [destruct (service_config_reload _ _ _)|]; simpl;
    destruct (beat_at _ _); destruct (service_ipc_heartbeat _ _ _ _) as [[??]?]; done.
Qed.

Lemma callbacks_hardware e f r b n a : on_hardware a -> on_hardware (callbacks env e f r b n a).2.
Proof.
  intros Ha. destruct e; cbn [callbacks]; [by apply hal_data_keeps|].
  unfold on_hardware in *. by destruct (beat_hardware a) as [-> ->].
Qed.

Lemma interrupted_hardware w a : on_hardware a -> on_hardware (interrupted signals w a).
Proof.
  unfold interrupted. revert a. induction (signals w) as [|sig l IH]; intros a Ha; [done|].
  simpl. apply IH. unfold handle. by destruct (deliver _ _).
Qed.

Lemma rounds_hardware n fuel : app_keeps (W:=R) on_hardware (rounds env signals n fuel).
Proof.
  induction n as [|n IH]; [by apply app_ret|]. cbn [rounds].
  apply app_bind; [by intros s Hs|]. intros a. destruct (negb _); [by apply app_ret|].
  apply app_bind; [by intros s Hs|]. intros _. apply app_bind.
  { destruct (hal_device a) as [d|]; [|by apply app_ret]. destruct (_ <=? _); [by apply app_register|by apply app_ret]. }
  intros _. apply app_bind; [by apply app_register|]. intros _.
  apply app_bind; [apply app_loop_run; [apply callbacks_hardware|apply interrupted_hardware]|].
  intros [rc|]; [|by apply app_ret]. apply app_bind; [by apply app_clear|by intros _].
Qed.

Lemma service_loop_hardware nm pool mem mallocs n fuel a w : on_hardware a ->
  on_hardware (service_loop env signals nm pool mem mallocs n fuel a w).1.2.
Proof.
  intros Ha. unfold service_loop. destruct (io_loop_create _ _ w) as [[l|] w']; [|done].
  set (s0 := mk_ls _ _ _ _ _ _ _ _). pose proof (rounds_hardware n fuel s0 Ha) as Hr.
  destruct (rounds _ _ _ _ _) as [ok s]. cbn [snd] in Hr. destruct ok; [|done]. cbn [negb].
  pose proof (app_destroy (W:=R) on_hardware fuel s Hr) as Hd.
  by destruct (io_loop_destroy fuel s).
Qed.
End device.
