(* ===== verification/ServiceMain.v ===== *)
(** * The life of a service (services/*_service_main.c, *_service_security.c)

    The four services start and stop in the same eleven steps.  Here they are, over a class
    of what a service adds to them: its names, what its configuration says and may say, its
    security profile, its device.  The steps of the base, the configuration, the client of
    the daemon, the security manager, the device and the event loop are the models of those
    components.  What the theorems rely on of a service's hardware is the class [ServiceLaws];
    the four services prove it. *)

From S2P Require Import Prelude CText MemoryPool HalRegistry HalDevice ServiceIpc ServiceBase ServiceConfig IoLoop.
From S2P Require Import Sandbox SecurityManager ServiceLoop.

Definition EXIT_SUCCESS : Z := 0.
Definition EXIT_FAILURE : Z := 1.

(** ** The security profile *)

(** What the default profile of a service depends on: the process's id, the groups of the
    system, the policies registered at run time. *)
Record profile_env := mk_profile_env {
  pe_pid : Z; pe_getgrnam : string -> option Z; pe_dynamic : list Capabilities.service_capabilities_t
}.

Section security.
Context {K : Type} `{Layers K}.

(** [dev/services/audio_service/audio_service_security.c:29-49 audio_service_apply_security, the settings]
    what the service's configuration changes in its profile; the four files agree. *)
Definition security_settings (cfg : service_config_t) (s : security_full_config_t) : security_full_config_t :=
  let s := match service_config_get_string cfg "security" "verify_key_file" None with
           | Some k => mk_full (sandbox s) (capabilities s) (seccomp s) (Some k) (skip_sandbox s)
                         (skip_capabilities s) (skip_seccomp s) 0
           | None => s
           end in
  with_skips s (service_config_get_bool cfg "security" "skip_sandbox" (skip_sandbox s))
    (service_config_get_bool cfg "security" "skip_capabilities" (skip_capabilities s))
    (service_config_get_bool cfg "security" "skip_seccomp" (skip_seccomp s))
    (service_config_get_bool cfg "security" "skip_verify" (skip_verify s)).

(** [dev/services/audio_service/audio_service_security.c:51-77 audio_service_apply_security, the layers]
    with the default profile of [nm]. *)
Definition apply_profile (o : profile_env) (nm : string) (cfg : service_config_t) : M K Z := fun k =>
  let profile := security_manager_default_config (pe_pid o) (pe_getgrnam o) (pe_dynamic o) nm in
  let '(rc, s) := security_manager_apply_all (Some (security_settings cfg profile)) (security_manager_init, k) in
  if negb (rc =? 0) then let '(_, s) := security_manager_cleanup s in (SVC_ERR_SECURITY, s.2) else (SVC_OK, s.2).
End security.

(** ** What the services share *)

(** The allocations and the lock of a layer's create function succeed. *)
Record hal_mem := mk_hal_mem { mem_device : bool; mem_lock : bool; mem_priv : bool }.

(** What an event loop is run with: the outside, the signals during a wait, memory for the
    loop and its objects, bounds for its rounds. *)
Record loop_env (D R : Type) := mk_loop_env {
  le_env : svc_env D; le_signals : R -> list Z; le_mem : bool; le_mallocs : list bool; le_rounds : nat; le_fuel : nat
}.
Arguments mk_loop_env {D R}. Arguments le_env {D R}. Arguments le_signals {D R}. Arguments le_mem {D R}.
Arguments le_mallocs {D R}. Arguments le_rounds {D R}. Arguments le_fuel {D R}.

Section shared.
Context {P Req K E D R : Type} `{HalDriver P Req K}.

(** [dev/services/audio_service/audio_service_hal.c:42-50 audio_service_hal_init, the open] and the same of the
    others: a device that does not open is destroyed. *)
Definition open_or_destroy (d : hw P) : M K (Z * option (hw P)) := fun k =>
  let '(rc, s) := drv_open (mk_st d k) in
  if negb (rc =? 0) then let '(_, s) := hal_device_last_unref s in ((SVC_ERR_HAL, None), world s)
  else ((SVC_OK, Some (dev s)), world s).

Definition with_device d k (a : svc P K E D) : svc P K E D :=
  mk_svc (globals a) (base a) (cfg a) (ipc a) (daemon a) d k (own a) (reloads a) (beats a) (loop_running a).

(** [dev/services/audio_service/audio_service_hal.c:56-72 audio_service_hal_start] and the same of the others. *)
Definition hal_start : M (svc P K E D) Z := fun a =>
  match hal_device a with
  | None => (SVC_ERR_INVALID, a)
  | Some _ => let '(rc, a) := on_device 0 drv_start a in
      (if negb (rc =? 0) then SVC_ERR_HAL else SVC_OK, a)
  end.

(** [dev/services/audio_service/audio_service_hal.c:110-126 audio_service_hal_stop] and the same of the others. *)
Definition hal_stop : M (svc P K E D) Z := fun a =>
  match hal_device a with
  | None => (SVC_ERR_INVALID, a)
  | Some _ => let '(rc, a) := on_device 0 drv_stop a in
      (if negb (rc =? 0) then SVC_ERR_HAL else SVC_OK, a)
  end.

(** [dev/services/audio_service/audio_service_hal.c:128-145 audio_service_hal_cleanup] and the
    same of the others; the layers' destroy functions are [hal_device_unref]. *)
Definition hal_cleanup : M (svc P K E D) unit := fun a =>
  match hal_device a with
  | None => (tt, a)
  | Some _ =>
      let '(_, a) := on_device 0 drv_stop a in
      let '(_, a) := on_device 0 drv_close a in
      let '(_, a) := on_device tt hal_device_last_unref a in
      (tt, with_device None (kernel_of a) a)
  end.

Context `{Service P K E D} `{Uring R}.

(** A service's loop with all it is run with. *)
Definition run_loop (l : loop_env D R) (nm : string) (pool : option memory_pool) (a : svc P K E D) (w : R)
    : (option Z * svc P K E D) * R :=
  service_loop (le_env l) (le_signals l) nm pool (le_mem l) (le_mallocs l) (le_rounds l) (le_fuel l) a w.
End shared.

(** ** What a service adds *)

Class ServiceMain (P Req K E D R : Type) := {
  sm_driver :: HalDriver P Req K;
  sm_service :: Service P K E D;
  sm_name : string; sm_prefix : string; sm_log : string;
  required_keys : list (string * string);
  take_config : service_config_t -> E -> option E;     (** None: a value out of range *)
  apply_security : service_config_t -> M K Z;
  hal_init : E -> M K (Z * option (hw P));
  frame_pool_config : E -> option memory_pool_config_t;
  ipc_pool_config : memory_pool_config_t;
  loop_run : option memory_pool -> svc P K E D -> R -> (option Z * svc P K E D) * R
}.

(** ** What the theorems rely on

    The hardware's side of a service, over what the process holds: a device whose driver is
    lawful, an initialisation that gives back what it took if it fails, a loop that keeps
    the device and the process's resources in balance.  [ServiceLaws] is proved for the four
    services. *)
Section hardware.
Context {P Req K E D : Type} `{Ledger K, !HalDriver P Req K} (owned : P -> gset resource).

(** The process holds [B] and what the device owns, if there is one. *)
Definition hardware_ok (B : gset resource) (d : option (hw P)) (k : K) : Prop :=
  match d with Some d => balanced owned B (mk_st d k) | None => held k = B end.
Notation device_ok B := (on_hardware (D:=D) (E:=E) (hardware_ok B)).

(** What an initialisation may answer. *)
Definition init_ok (r : Z * option (hw P) * K) (B : gset resource) : Prop :=
  match r with
  | (rc, Some d, k) => rc = SVC_OK /\ balanced owned B (mk_st d k)
  | (rc, None, k) => rc <> SVC_OK /\ held k = B
  end.

Lemma on_device_ok {X} (e : X) m B a : keeps (balanced owned B) m -> device_ok B a -> device_ok B (on_device e m a).2.
Proof.
  intros Hm. unfold on_hardware, hardware_ok, on_device. destruct (hal_device a) as [d|] eqn:Hd; [|cbn [snd]; by rewrite Hd].
  intros Ha. specialize (Hm _ Ha). destruct (m (mk_st d (kernel_of a))) as [x [d' k']]. exact Hm.
Qed.

Context `{!HalDriverLaws owned}.

Lemma open_or_destroy_ok B d k : closed owned B (mk_st d k) -> init_ok (open_or_destroy d k) B.
Proof.
  intros Hd. unfold open_or_destroy. pose proof (open_balanced owned B (mk_st d k) Hd) as Ho.
  destruct (drv_open (mk_st d k)) as [rc [d' k']]. cbn [snd] in Ho. destruct (negb (rc =? 0)); [|by split].
  pose proof (last_unref_balanced owned B _ Ho) as Hu. destruct (hal_device_last_unref _) as [[] s]. by split.
Qed.

(** A device that is stopped and closed has given everything back. *)
Lemma drop_started_ok (a : svc P K E D) B : device_ok B a ->
  held (kernel_of (on_device 0 drv_close (on_device 0 drv_stop a).2).2) = B.
Proof.
  intros Ha. pose proof (on_device_ok 0 drv_stop B a (stop_balanced owned B) Ha) as Hs.
  set (a1 := (on_device 0 drv_stop a).2) in *. clearbody a1. unfold on_hardware, hardware_ok, on_device in *.
  destruct (hal_device a1) as [d|]; [|done]. pose proof (close_closes owned B _ Hs) as [Hc Hst].
  destruct (drv_close _) as [rc [d' k']]. destruct Hc as (q & _ & Hh & _ & Hn). cbn in *.
  rewrite Hh, Hn by done. set_solver.
Qed.
End hardware.

(** The loop keeps the hardware if the callback for the device does. *)
Lemma run_loop_ok {P K E D R} `{Ledger K, !Service P K E D, !Uring R} (owned : P -> gset resource) B l nm pool a (w : R) :
  (forall r a, on_hardware (hardware_ok owned B) a -> on_hardware (hardware_ok owned B) (on_hal_data r a).2) ->
  on_hardware (hardware_ok owned B) a -> on_hardware (hardware_ok owned B) (run_loop l nm pool a w).1.2.
Proof. intros Hcb Ha. unfold run_loop. by apply service_loop_hardware. Qed.

Class ServiceLaws (P Req K E D R : Type) `{ServiceMain P Req K E D R, Ledger K} (owned : P -> gset resource) : Prop := {
  sl_driver :: HalDriverLaws owned;
  hal_init_ok e k : init_ok owned (hal_init e k) (held k);
  loop_run_ok B pool a r : on_hardware (hardware_ok owned B) a ->
    on_hardware (hardware_ok owned B) (loop_run pool a r).1.2
}.

(** The process of a service: its state, the PID files, what it is to the system, its
    pools and how many regions of memory are mapped for them, whether its profile is in place,
    the ring of its event loop. *)
Record proc (P K E D R : Type) := mk_proc {
  service : svc P K E D; pid_files : files; unix : process;
  frame_pool : option memory_pool; ipc_pool : option memory_pool; pool_regions : Z; security_applied : bool;
  io_ring : R
}.
Arguments mk_proc {P K E D R}. Arguments service {P K E D R}. Arguments pid_files {P K E D R}.
Arguments unix {P K E D R}. Arguments frame_pool {P K E D R}. Arguments ipc_pool {P K E D R}.
Arguments pool_regions {P K E D R}. Arguments security_applied {P K E D R}. Arguments io_ring {P K E D R}.

(** What comes from outside: the options [getopt_long] returns (the letter, its argument;
    any other letter for an error), the environment and the text of the configuration, the
    clock, the process's own path, the system's answers about PID files, forks, log files
    and signals, what the client's set-up needs, the daemon's side of the two requests, the
    answers to the pools' mappings. *)
Record main_env (D : Type) := mk_menv {
  options : list (ascii * string); m_load : load_env; m_file : string -> option string; m_now : Z;
  m_exe : option string; m_pids : pid_env; m_forks : fork_env; m_log : string -> bool; m_signals : Z -> bool;
  m_key_mem : bool; m_key_file : string -> option (list Z); m_lock : bool;
  m_register : call_env D; m_unregister : call_env D; m_frame_map : mmap_answers; m_ipc_map : mmap_answers
}.
Arguments mk_menv {D}. Arguments options {D}. Arguments m_load {D}. Arguments m_file {D}. Arguments m_now {D}. Arguments m_exe {D}.
Arguments m_pids {D}. Arguments m_forks {D}. Arguments m_log {D}. Arguments m_signals {D}. Arguments m_key_mem {D}.
Arguments m_key_file {D}. Arguments m_lock {D}. Arguments m_register {D}. Arguments m_unregister {D}.
Arguments m_frame_map {D}. Arguments m_ipc_map {D}.

(** ** The arguments *)

Inductive args := Quit (status : Z) | Args (config : option string) (foreground verbose : bool).

(** [dev/services/audio_service/audio_service_main.c:112-121 main, Step 1] *)
Fixpoint parse_args (opts : list (ascii * string)) (config : option string) (fg vb : bool) : args :=
  match opts with
  | [] => Args config fg vb
  | (opt, optarg) :: opts =>
      if Ascii.eqb opt "c" then parse_args opts (Some optarg) fg vb
      else if Ascii.eqb opt "f" then parse_args opts config true vb
      else if Ascii.eqb opt "v" then parse_args opts config fg true
      else if Ascii.eqb opt "h" then Quit EXIT_SUCCESS
      else Quit EXIT_FAILURE
  end.

Section main.
Context {P Req K E D R : Type} `{ServiceMain P Req K E D R} (o : main_env D).
Notation PM := (M (proc P K E D R)).

Definition look {X} (f : proc P K E D R -> X) : PM X := fun p => (f p, p).
Definition set_service (s : svc P K E D) : PM unit := fun p =>
  (tt, mk_proc s (pid_files p) (unix p) (frame_pool p) (ipc_pool p) (pool_regions p) (security_applied p) (io_ring p)).
Definition set_pids (f : files) : PM unit := fun p =>
  (tt, mk_proc (service p) f (unix p) (frame_pool p) (ipc_pool p) (pool_regions p) (security_applied p) (io_ring p)).
(** The descriptor, the data and the bitmap of a pool are three regions; a creation that
    fails unmaps those it has mapped, a destruction unmaps all. *)
Definition regions_of (p : option memory_pool) : Z := match p with Some _ => 3 | None => 0 end.
Definition unmapped_of (p : option memory_pool) : Z := match memory_pool_destroy p with Some _ => 3 | None => 0 end.

Definition set_pools (f i : option memory_pool) (n : Z) : PM unit := fun p =>
  (tt, mk_proc (service p) (pid_files p) (unix p) f i n (security_applied p) (io_ring p)).
Definition new_pools (f i : option memory_pool) : PM unit := fun p =>
  set_pools f i (pool_regions p + regions_of f + regions_of i) p.
(** [dev/services/audio_service/audio_service_main.c:72-74 do_shutdown, the pools] *)
Definition destroy_pools : PM unit := fun p =>
  set_pools None None (pool_regions p - unmapped_of (frame_pool p) - unmapped_of (ipc_pool p)) p.

(** A change of a part of the service's state. *)
Definition on_service (f : svc P K E D -> svc P K E D) : PM unit := fun p => set_service (f (service p)) p.
Definition with_cfg c (a : svc P K E D) : svc P K E D :=
  mk_svc (globals a) (base a) c (ipc a) (daemon a) (hal_device a) (kernel_of a) (own a) (reloads a) (beats a)
    (loop_running a).
Definition with_ipc i d (a : svc P K E D) : svc P K E D :=
  mk_svc (globals a) (base a) (cfg a) i d (hal_device a) (kernel_of a) (own a) (reloads a) (beats a) (loop_running a).

(** ** Stopping *)

(** [dev/services/audio_service/audio_service_main.c:78-87 do_shutdown, Step 11a] the device
    is stopped and closed if it was started; [hal_device_destroy], which every device meets,
    destroys its lock and gives nothing back. *)
Definition drop_device (hal_started : bool) : M (svc P K E D) unit := fun a =>
  let '(_, a) := if hal_started then
                   let '(_, a) := on_device 0 drv_stop a in on_device 0 drv_close a
                 else (0, a) in
  (tt, with_device None (kernel_of a) a).

(** [dev/services/audio_service/audio_service_main.c:89-93 do_shutdown, Step 11b] *)
Definition leave_daemon (a : svc P K E D) : svc P K E D :=
  if service_ipc_is_connected (ipc a) then
    let '(_, i, d) := service_ipc_unregister (m_unregister o) (ipc a) (daemon a) in
    with_ipc (service_ipc_disconnect i).1 d a
  else a.

Definition set_svc_state (x : svc_state_t) (a : svc P K E D) : svc P K E D := with_base (with_state x (base a)) a.

(** [dev/services/audio_service/audio_service_main.c:67-101 do_shutdown] *)
Definition do_shutdown (hal_started : bool) : PM unit :=
  _ ← on_service (set_svc_state SVC_STATE_STOPPING);
  _ ← destroy_pools;
  _ ← on_service (fun a => (drop_device hal_started a).2);
  _ ← on_service leave_daemon;
  f ← look pid_files;
  _ ← set_pids (service_base_remove_pid (m_pids o) (Some sm_name) f);
  _ ← on_service (fun a => with_globals (service_base_close_log (globals a)) a);
  on_service (set_svc_state SVC_STATE_STOPPED).

(** ** Starting *)

(** [dev/services/audio_service/audio_service_main.c:220-230 main, Step 7, the attempts] *)
Fixpoint connects (attempts : nat) (i : svc_ipc_t) : bool :=
  match attempts with
  | O => false
  | S n => if service_ipc_connect i =? SVC_OK then true else connects n i
  end.
Definition SM_CONNECT_RETRIES : nat := 3.

(** [dev/services/audio_service/audio_service_main.c:211-245 main, Step 7] *)
Definition join_daemon : PM bool :=
  a ← look service;
  let sock := default SM_SOCKET_PATH (service_config_get_string (cfg a) "server" "socket_path" (Some SM_SOCKET_PATH)) in
  let vkey := service_config_get_string (cfg a) "security" "verify_key_file" None in
  let i := (service_ipc_init (Some sm_name) vkey (m_key_mem o) (m_key_file o) (m_lock o) (ipc a)).2 in
  let i := mk_ipc (ipc_fd i) (ipc_name i) (strncpy_z 255 sock) (verify_key_path i) (auth_token i) (last_nonce i)
             (last_heartbeat i) (reconnect_backoff_sec i) (reconnect_backoff_max i) (registered i) (ServiceIpc.verify_ctx i) in
  _ ← on_service (with_ipc i (daemon a));
  if negb (connects SM_CONNECT_RETRIES i) then mret false
  else
    let '(rc, i, d) := service_ipc_register (m_register o) (pid (base a)) i (daemon a) in
    _ ← on_service (with_ipc i d);
    mret (rc =? SVC_OK).

(** [dev/services/audio_service/audio_service_main.c:246-253 main, Step 8] *)
Definition secure : PM bool :=
  a ← look service;
  let '(rc, k) := apply_security (cfg a) (kernel_of a) in
  _ ← on_service (with_device (hal_device a) k);
  if negb (rc =? SVC_OK) then mret false
  else fun p => (true, mk_proc (service p) (pid_files p) (unix p) (frame_pool p) (ipc_pool p) (pool_regions p) true (io_ring p)).

(** [dev/services/audio_service/audio_service_main.c:255-270 main, Step 9] *)
Definition open_device : PM bool :=
  a ← look service;
  if negb (service_config_get_bool (cfg a) "security" "skip_hal_init" 0 =? 0) then mret true
  else
    let '(rc, d, k) := hal_init (own a) (kernel_of a) in
    _ ← on_service (with_device (match d with Some d => Some d | None => hal_device a end) k);
    if negb (rc =? SVC_OK) then mret false
    else
      a ← look service;
      let '(rc, a) := hal_start a in
      _ ← set_service a;
      mret (rc =? SVC_OK).

(** [dev/services/audio_service/audio_service_main.c:272-293 main, Step 9b] *)
Definition create_pools : PM unit :=
  a ← look service;
  new_pools (match frame_pool_config (own a) with
             | Some c => memory_pool_create (m_frame_map o) (Some c)
             | None => None
             end) (memory_pool_create (m_ipc_map o) (Some ipc_pool_config)).

(** [dev/services/audio_service/audio_service_main.c:204-295 main, Steps 6 to 9b] false: a
    step failed. *)
Definition start_up : PM bool :=
  a ← look service;
  let '(rc, g) := service_base_install_signals (m_signals o) (globals a) in
  _ ← on_service (with_globals g);
  if negb (rc =? SVC_OK) then mret false
  else
    ok ← join_daemon;
    if negb ok then mret false
    else
      ok ← secure;
      if negb ok then mret false
      else
        ok ← open_device;
        if negb ok then mret false
        else
          _ ← create_pools;
          _ ← on_service (set_svc_state SVC_STATE_RUNNING);
          mret true.

(** [dev/services/audio_service/audio_service_main.c:204-307 main, Steps 6 to 11] a failing
    step is followed by [do_shutdown (.., 0)]; None: the loop has not ended. *)
Definition live : PM (option Z) :=
  ok ← start_up;
  if negb ok then _ ← do_shutdown false; mret (Some EXIT_FAILURE)
  else fun p =>
    let '(rc, a, r) := loop_run (ipc_pool p) (service p) (io_ring p) in
    let p := mk_proc a (pid_files p) (unix p) (frame_pool p) (ipc_pool p) (pool_regions p) (security_applied p) r in
    match rc with
    | None => (None, p)
    | Some rc => (_ ← do_shutdown true; mret (Some (if rc =? SVC_OK then EXIT_SUCCESS else EXIT_FAILURE))) p
    end.

(** [dev/services/audio_service/audio_service_main.c:183-200 main, Step 4] *)
Definition claim_name : PM bool :=
  _ ← on_service (fun a => with_globals (service_base_open_log (m_log o) (Some (log_path (base a))) (globals a)) a);
  f ← look pid_files;
  let '(rc, f) := service_base_write_pid (m_pids o) (Some sm_name) f in
  _ ← set_pids f;
  if negb (rc =? SVC_OK) then
    _ ← on_service (fun a => with_globals (service_base_close_log (globals a)) a);
    mret false
  else
    _ ← on_service (fun a =>
          let b := base a in
          with_base (mk_ctx (name b) (version b) (exe_path b) (pid_path b) (config_path b) (log_path b)
            (getpid (m_pids o)) (state b) (foreground b) (verbose b) (start_time b) (error_count b)) a);
    mret true.

(** [dev/services/audio_service/audio_service_main.c:127-173 main, Step 2] the configuration
    and what the context takes from it; false: it is refused. *)
Definition configure (path : string) (fg vb : bool) : PM bool :=
  a ← look service;
  let '(rc, c) := service_config_load (m_load o) (m_file o) (Some path) (Some sm_prefix) (cfg a) in
  _ ← on_service (with_cfg c);
  if negb (rc =? 0) then mret false
  else if negb (service_config_validate c required_keys =? 0) then mret false
  else
    let b := (service_base_init (m_pids o) (m_now o) (m_exe o) (Some sm_name) (base a)).2 in
    let log := default sm_log (service_config_get_string c "server" "log_file" (Some sm_log)) in
    _ ← on_service (with_base (mk_ctx (name b) (version b) (exe_path b) (pid_path b) (strncpy_z 255 path)
                      (strncpy_z 255 log) (pid b) (state b) fg vb (start_time b) (error_count b)));
    match take_config c (own a) with
    | None => mret false
    | Some e => _ ← on_service (with_own e); mret true
    end.

(** [dev/services/audio_service/audio_service_main.c:105-307 main] the exit status; None: the
    loop has not ended. *)
Definition main : PM (option Z) :=
  match parse_args (options o) None false false with
  | Quit status => mret (Some status)
  | Args None _ _ => mret (Some EXIT_FAILURE)
  | Args (Some path) fg vb =>
      ok ← configure path fg vb;
      if negb ok then mret (Some EXIT_FAILURE)
      else fun p =>
        match (if fg then Goes (SVC_OK, unix p) else service_base_daemonize (m_forks o) (unix p)) with
        | Exits => (Some EXIT_SUCCESS, p)
        | Goes (rc, u) =>
            let p := mk_proc (service p) (pid_files p) u (frame_pool p) (ipc_pool p) (pool_regions p) (security_applied p) (io_ring p) in
            if negb (rc =? SVC_OK) then (Some EXIT_FAILURE, p)
            else (ok ← claim_name; if negb ok then mret (Some EXIT_FAILURE) else live) p
        end
  end.
End main.

(** ** What a service leaves behind *)

Ltac open_monad := unfold mbind, M_bind, mret, M_ret, look, on_service, set_service, set_pids, set_pools, new_pools, destroy_pools in *.

Section life.
Context {P Req K E D R : Type} `{ServiceMain P Req K E D R} (o : main_env D).
Implicit Types p : proc P K E D R.

(** What a process holds, and its hardware. *)
Definition view p := (pid_files p, (frame_pool p, ipc_pool p, pool_regions p), hal_device (service p), kernel_of (service p), security_applied p).

(** No pools, no device, nothing secured. *)
Record fresh_proc p : Prop := {
  fp_pools : (frame_pool p, ipc_pool p) = (None, None);
  fp_device : hal_device (service p) = None;
  fp_security : security_applied p = false
}.

Definition my_pid_file : string := pid_file (m_pids o) sm_name.

Lemma on_service_view (f : svc P K E D -> svc P K E D) p : hal_device (f (service p)) = hal_device (service p) ->
  kernel_of (f (service p)) = kernel_of (service p) -> view (on_service f p).2 = view p.
Proof. intros Hd Hk. unfold view. simpl. by rewrite Hd, Hk. Qed.

Lemma leave_daemon_view (a : svc P K E D) : hal_device (leave_daemon o a) = hal_device a /\ kernel_of (leave_daemon o a) = kernel_of a /\
  cfg (leave_daemon o a) = cfg a.
Proof. unfold leave_daemon. case_match; [|done]. by destruct (service_ipc_unregister _ _ _) as [[??]?]. Qed.

(** One step at a time. *)
Definition put_service (a : svc P K E D) p : proc P K E D R :=
  mk_proc a (pid_files p) (unix p) (frame_pool p) (ipc_pool p) (pool_regions p) (security_applied p) (io_ring p).

Lemma service_step {X} f (k : unit -> M (proc P K E D R) X) p :
  (on_service f ≫= k) p = k tt (put_service (f (service p)) p).
Proof. done. Qed.
Lemma pids_step {X} f (k : unit -> M (proc P K E D R) X) p : (set_pids f ≫= k) p =
  k tt (mk_proc (service p) f (unix p) (frame_pool p) (ipc_pool p) (pool_regions p) (security_applied p) (io_ring p)).
Proof. done. Qed.
Lemma pools_step {X} (k : unit -> M (proc P K E D R) X) p : (destroy_pools ≫= k) p =
  k tt (mk_proc (service p) (pid_files p) (unix p) None None
          (pool_regions p - unmapped_of (frame_pool p) - unmapped_of (ipc_pool p)) (security_applied p) (io_ring p)).
Proof. done. Qed.
Lemma look_step {X Y} (f : proc P K E D R -> Y) (k : Y -> M (proc P K E D R) X) p : (look f ≫= k) p = k (f p) p.
Proof. done. Qed.

Definition stopping_device (started : bool) p : svc P K E D :=
  (drop_device started (set_svc_state SVC_STATE_STOPPING (service p))).2.

(** Whatever was there before a shutdown, this is there after it. *)
Lemma shutdown_spec (started : bool) p : let p1 := (do_shutdown o started p).2 in
  pid_files p1 = service_base_remove_pid (m_pids o) (Some sm_name) (pid_files p) /\
  frame_pool p1 = None /\ ipc_pool p1 = None /\ hal_device (service p1) = None /\
  g_log_file (globals (service p1)) = None /\ state (base (service p1)) = SVC_STATE_STOPPED /\
  security_applied p1 = security_applied p /\ cfg (service p1) = cfg (stopping_device started p) /\
  kernel_of (service p1) = kernel_of (stopping_device started p) /\
  pool_regions p1 = pool_regions p - regions_of (frame_pool p) - regions_of (ipc_pool p).
Proof.
  cbv zeta. unfold do_shutdown.
  rewrite service_step, pools_step, service_step, service_step, look_step, pids_step, service_step.
  cbn [service pid_files unix frame_pool ipc_pool pool_regions security_applied io_ring put_service].
  change (drop_device started (set_svc_state SVC_STATE_STOPPING (service p))).2 with (stopping_device started p).
  pose proof (leave_daemon_view (stopping_device started p)) as (Hd & Hk & Hc).
  assert (Hdev : hal_device (stopping_device started p) = None).
  { unfold stopping_device, drop_device. by destruct (if started then _ else _) as [? ?]. }
  set (a := leave_daemon o _) in *. clearbody a. rewrite <- Hd in Hdev. split_and!; try done.
  by destruct (frame_pool p), (ipc_pool p).
Qed.

(** A shutdown of a service that was not started leaves the hardware alone, also a device that
    was opened. *)
Lemma stopping_nothing p :
  kernel_of (stopping_device false p) = kernel_of (service p) /\ cfg (stopping_device false p) = cfg (service p).
Proof. done. Qed.

Lemma configure_view path fg vb p : view (configure o path fg vb p).2 = view p.
Proof.
  unfold configure. open_monad. destruct (service_config_load _ _ _ _ _) as [rc c].
  destruct (negb (rc =? 0)); [done|]. destruct (negb _); [done|]. cbn -[take_config].
  by destruct (take_config _ _).
Qed.

(** The daemon is joined without touching the hardware. *)
Lemma join_daemon_view p : view (join_daemon o p).2 = view p /\ cfg (service (join_daemon o p).2) = cfg (service p).
Proof.
  unfold join_daemon. open_monad. cbn -[service_ipc_init service_ipc_register connects].
  destruct (negb _); [done|]. by destruct (service_ipc_register _ _ _ _) as [[rc i] d].
Qed.

(** What the profile did to the hardware's side of the process: nothing, or what a failed
    call of it did. *)
Definition unsecured_kernel p p1 : Prop :=
  kernel_of (service p1) = kernel_of (service p) \/
  exists rc, rc <> SVC_OK /\ apply_security (cfg (service p1)) (kernel_of (service p)) = (rc, kernel_of (service p1)).

Lemma secure_spec p : let '(ok, p1) := secure p in
  pid_files p1 = pid_files p /\
  (if (ok : bool) then security_applied p1 = true
   else security_applied p1 = security_applied p /\ hal_device (service p1) = hal_device (service p) /\ unsecured_kernel p p1).
Proof.
  unfold secure. open_monad. destruct (apply_security _ _) as [rc k] eqn:Hs.
  destruct (Z.eqb_spec rc SVC_OK) as [->|Hrc]; [done|]. simpl. split_and!; [done..|]. right. by exists rc.
Qed.

Lemma open_device_keeps p : pid_files (open_device p).2 = pid_files p /\
  security_applied (open_device p).2 = security_applied p.
Proof.
  unfold open_device. open_monad. case_match; [done|]. destruct (hal_init _ _) as [[rc d] k].
  cbn -[hal_start]. case_match; [done|]. by destruct (hal_start _).
Qed.

Lemma start_up_spec p : let '(ok, p1) := start_up o p in
  pid_files p1 = pid_files p /\
  (security_applied p1 = true \/
   (ok = false /\ security_applied p1 = security_applied p) /\ hal_device (service p1) = hal_device (service p) /\
   unsecured_kernel p p1).
Proof.
  unfold start_up. rewrite look_step.
  destruct (service_base_install_signals _ _) as [rc g]. rewrite service_step.
  set (p0 := put_service _ p). assert (H0 : view p0 = view p) by done.
  destruct (negb _); [split; [done|]; right; split_and!; try done; by left|].
  rewrite bind_run. pose proof (join_daemon_view p0) as [Hj Hc]. destruct (join_daemon o p0) as [ok p1].
  simpl in Hj, Hc. rewrite H0 in Hj. unfold view in Hj. injection Hj as Hf Hp1 Hp2 Hp3 Hd Hk Hs.
  destruct ok; simpl; [|split; [done|]; right; split_and!; try done; by left].
  rewrite bind_run. pose proof (secure_spec p1) as Hsec. destruct (secure p1) as [ok p2]. destruct Hsec as [Hf2 Hsec].
  destruct ok; simpl.
  2: { destruct Hsec as (Hs2 & Hd2 & Hu). split; [by rewrite Hf2|]. right. split_and!; [done|by rewrite Hs2|by rewrite Hd2|].
    unfold unsecured_kernel in *. by rewrite Hk in Hu. }
  rewrite bind_run. pose proof (open_device_keeps p2) as [Hf3 Hs3]. destruct (open_device p2) as [ok p3].
  simpl in Hf3, Hs3. rewrite Hsec in Hs3. rewrite Hf2, Hf in Hf3. destruct ok; (split; [done|by left]).
Qed.

(** What is left when the service has ended. *)
Definition ended p p1 : Prop :=
  (frame_pool p1, ipc_pool p1) = (None, None) /\ hal_device (service p1) = None /\
  g_log_file (globals (service p1)) = None /\ state (base (service p1)) = SVC_STATE_STOPPED /\
  pid_files p1 = service_base_remove_pid (m_pids o) (Some sm_name) (pid_files p).

(** The hardware has been left alone, unless the profile is in place. *)
Definition guarded p p1 : Prop := security_applied p1 = true \/ unsecured_kernel p p1.

Lemma live_spec p : fresh_proc p -> let '(st, p1) := live o p in
  guarded p p1 /\
  match st with
  | Some _ => ended p p1
  | None => exists pool a r, (loop_run pool a r).1.1 = None
  end.
Proof.
  intros [Hp Hd Hs]. unfold live. rewrite bind_run. pose proof (start_up_spec p) as Hst.
  destruct (start_up o p) as [ok p1]. destruct Hst as [Hf Hg]. destruct ok; cbn [negb].
  - destruct Hg as [Hg|[[? _] _]]; [|done].
    destruct (loop_run (ipc_pool p1) (service p1) (io_ring p1)) as [[rc a] r] eqn:Hl.
    destruct rc as [rc|]; [|split; [by left|]; exists (ipc_pool p1), (service p1), (io_ring p1); by rewrite Hl].
    set (p2 := mk_proc _ _ _ _ _ _ _ _). pose proof (shutdown_spec true p2) as Hsh. cbv zeta in Hsh.
    rewrite bind_run. destruct (do_shutdown o true p2) as [[] p3]. cbn [fst snd] in Hsh.
    destruct Hsh as (Hf3 & Hp1 & Hp2 & Hd3 & Hl3 & Hst3 & Hs3 & _). split; [left; by rewrite Hs3|].
    split_and!; [by rewrite Hp1, Hp2|done..|]. by rewrite Hf3, <- Hf.
  - pose proof (shutdown_spec false p1) as Hsh. cbv zeta in Hsh. rewrite bind_run.
    destruct (do_shutdown o false p1) as [[] p3]. cbn [fst snd] in Hsh.
    destruct Hsh as (Hf3 & Hp1 & Hp2 & Hd3 & Hl3 & Hst3 & Hs3 & Hc3 & Hk3 & _). split.
    + destruct Hg as [Hg|(_ & Hd1 & Hu)]; [left; by rewrite Hs3|]. right. rewrite Hd in Hd1.
      unfold unsecured_kernel in *. destruct (stopping_nothing p1) as [Hk Hc].
      by rewrite Hk3, Hk, Hc3, Hc.
    + split_and!; [by rewrite Hp1, Hp2|done..|]. by rewrite Hf3, Hf.
Qed.

(** The PID file is written, or nothing happened. *)
Lemma write_pid_writable f : writable (m_pids o) my_pid_file = true ->
  let '(rc, f1) := service_base_write_pid (m_pids o) (Some sm_name) f in
  if rc =? SVC_OK then f1 = <[my_pid_file := (decimal (getpid (m_pids o)) ++ line_end)%string]> f else f1 = f.
Proof.
  intros Hw. unfold service_base_write_pid, my_pid_file in *. destruct sm_name as [|c nm] eqn:Hn; [done|].
  rewrite <- Hn in *. unfold check_pid, create_pid.
  repeat (case_match; simplify_eq/=); try done; by rewrite ?insert_delete_eq.
Qed.

Lemma claim_spec p : let '(ok, p1) := claim_name o p in
  let '(rc, f) := service_base_write_pid (m_pids o) (Some sm_name) (pid_files p) in
  ok = (rc =? SVC_OK) /\ view p1 = (f, (frame_pool p, ipc_pool p, pool_regions p), hal_device (service p), kernel_of (service p), security_applied p).
Proof.
  unfold claim_name. rewrite service_step, look_step.
  change (pid_files (put_service _ p)) with (pid_files p).
  destruct (service_base_write_pid _ _ _) as [rc f]. rewrite pids_step. by destruct (rc =? SVC_OK).
Qed.

(** The PID files are as they were or, if this process wrote its own, without that; another
    instance's is refused by [service_base_write_pid] and stays. *)
Definition own_pid_only p p1 : Prop :=
  pid_files p1 = pid_files p \/
  (service_base_write_pid (m_pids o) (Some sm_name) (pid_files p)).1 = SVC_OK /\
  pid_files p1 = delete my_pid_file (pid_files p).

Lemma main_spec p : writable (m_pids o) my_pid_file = true -> fresh_proc p -> let '(st, p1) := main o p in
  guarded p p1 /\
  match st with
  | Some _ => (frame_pool p1, ipc_pool p1) = (None, None) /\ hal_device (service p1) = None /\
      own_pid_only p p1
  | None => exists pool a r, (loop_run pool a r).1.1 = None
  end.
Proof.
  intros Hw Hp. pose proof Hp as [Hpool Hd Hs].
  assert (Hsame : forall p1, view p1 = view p -> guarded p p1 /\
    (frame_pool p1, ipc_pool p1) = (None, None) /\ hal_device (service p1) = None /\
    own_pid_only p p1).
  { intros p1 Hv. unfold view in Hv. injection Hv as Hf Hp1 Hp2 Hp3 Hd1 Hk1 Hs1.
    split_and!; [by right; left|by rewrite Hp1, Hp2|by rewrite Hd1|by left]. }
  unfold main. destruct (parse_args _ _ _ _) as [st|[path|] fg vb]; [by apply Hsame..| |by apply Hsame].
  match goal with |- context [mbind ?f (configure o path fg vb) p] => rewrite (bind_run (configure o path fg vb) f p) end.
  pose proof (configure_view path fg vb p) as Hc.
  destruct (configure o path fg vb p) as [ok p1]. cbn [snd] in Hc. destruct ok; cbn [negb]; [|by apply Hsame].
  destruct (if fg then _ else _) as [|[rc u]]; [by apply Hsame|]. cbv zeta.
  destruct (negb (rc =? SVC_OK)); [by apply Hsame|]. set (p2 := mk_proc _ _ u _ _ _ _ _).
  assert (Hv2 : view p2 = view p) by done. clearbody p2. rewrite bind_run.
  pose proof (claim_spec p2) as Hcl. destruct (claim_name o p2) as [ok p3].
  pose proof (write_pid_writable (pid_files p2) Hw) as Hwp.
  destruct (service_base_write_pid _ _ (pid_files p2)) as [rc2 f] eqn:Hwr. destruct Hcl as [-> Hv3].
  unfold view in Hv2. injection Hv2 as Hf2 Hq1 Hq2 Hq3 Hd2 Hk2 Hs2.
  unfold view in Hv3. injection Hv3 as Hf3 Hr1 Hr2 Hr3 Hd3 Hk3 Hs3.
  destruct (Z.eqb_spec rc2 SVC_OK) as [->|Hrc]; cbn [negb].
  - assert (Hfresh : fresh_proc p3).
    { split; [by rewrite Hr1, Hr2, Hq1, Hq2|by rewrite Hd3, Hd2|by rewrite Hs3, Hs2]. }
    pose proof (live_spec p3 Hfresh) as Hl. destruct (live o p3) as [st p4]. destruct Hl as [Hg Hl]. split.
    + destruct Hg as [Hg|Hu]; [by left|right]. unfold unsecured_kernel in *. by rewrite Hk3, Hk2 in Hu.
    + destruct st; [|done]. destruct Hl as (H1 & H2 & _ & _ & H3). split_and!; [done..|]. right.
      split; [by rewrite <- Hf2, Hwr|]. rewrite H3, Hf3, Hwp, <- Hf2. unfold service_base_remove_pid. fold my_pid_file. rewrite Hw.
      by rewrite delete_insert_eq.
  - apply Hsame. unfold view. by rewrite Hf3, Hwp, Hr1, Hr2, Hr3, Hd3, Hk3, Hs3, Hf2, Hq1, Hq2, Hq3, Hd2, Hk2, Hs2.
Qed.

(** C19: No hardware is touched before the security profile is in place: a process whose
    profile was not applied ends with the hardware's side of the process as it found it, but
    for what the failed application of the profile itself did. *)
Theorem hardware_after_security p : writable (m_pids o) my_pid_file = true -> fresh_proc p ->
  let p1 := (main o p).2 in
  security_applied p1 = false ->
  kernel_of (service p1) = kernel_of (service p) \/
  exists rc, rc <> SVC_OK /\ apply_security (cfg (service p1)) (kernel_of (service p)) = (rc, kernel_of (service p1)).
Proof.
  intros Hw Hp. cbv zeta. pose proof (main_spec p Hw Hp) as Hm. destruct (main o p) as [st p1].
  destruct Hm as [[Hg|Hg] _]; cbn [snd]; intros Hs; [by rewrite Hs in Hg|done].
Qed.
End life.

(** ** What a service holds *)

Section release.
Context {P Req K E D R : Type} `{ServiceMain P Req K E D R, Ledger K} (owned : P -> gset resource).
Context `{!ServiceLaws P Req K E D R owned} (o : main_env D).
Implicit Types p : proc P K E D R.
Notation device_ok B a := (on_hardware (hardware_ok owned B) a).

(** The device was initialised from [k0] and could not be started: it is what [k1] holds
    more than [k0]. *)
Definition failed_start (k0 k1 : K) : Prop :=
  exists e d k q, hal_init e k0 = (SVC_OK, Some d, k) /\ (drv_start (mk_st d k)).1 <> 0 /\
    k1 = world (drv_start (mk_st d k)).2 /\ held k1 = held k0 ∪ owned q /\ held k0 ## owned q.

(** Nothing was done yet, or the profile was applied, which left [k0], and then nothing is
    held or a start failed. *)
Definition released (k k1 : K) : Prop :=
  k1 = k \/
  exists c rc k0, apply_security c k = (rc, k0) /\ (held k1 = held k0 \/ failed_start k0 k1).

Lemma secure_kernel p : let '(ok, p1) := secure p in
  hal_device (service p1) = hal_device (service p) /\ (frame_pool p1, ipc_pool p1, pool_regions p1) = (frame_pool p, ipc_pool p, pool_regions p) /\
  exists c rc, apply_security c (kernel_of (service p)) = (rc, kernel_of (service p1)).
Proof.
  unfold secure. open_monad. destruct (apply_security _ _) as [rc k] eqn:Hs.
  by destruct (negb (rc =? SVC_OK)); (split_and!; [done..|]; eexists _, rc).
Qed.

Lemma open_device_ok p : hal_device (service p) = None -> let '(ok, p1) := open_device p in
  (frame_pool p1, ipc_pool p1, pool_regions p1) = (frame_pool p, ipc_pool p, pool_regions p) /\
  let k0 := kernel_of (service p) in
  if (ok : bool) then device_ok (held k0) (service p1)
  else held (kernel_of (service p1)) = held k0 \/ failed_start k0 (kernel_of (service p1)).
Proof.
  intros Hd. unfold open_device. rewrite look_step. unfold on_hardware, hardware_ok.
  destruct (negb _); [split; [done|]; cbn; by rewrite Hd|]. pose proof (hal_init_ok (own (service p)) (kernel_of (service p))) as Hi.
  destruct (hal_init _ _) as [[rc d] k] eqn:Hinit. rewrite service_step. unfold init_ok in Hi. destruct d as [d|].
  2: { destruct Hi as [Hrc Hh]. destruct (Z.eqb_spec rc SVC_OK); [done|]. split; [done|]. by left. }
  destruct Hi as [-> Hb]. cbn [negb Z.eqb SVC_OK]. rewrite look_step. unfold hal_start, on_device, with_device.
  cbn [service put_service hal_device kernel_of].
  pose proof (start_balanced owned _ _ Hb) as Hs. destruct (drv_start (mk_st d k)) as [rc s] eqn:Hst.
  cbn [snd] in Hs. destruct (Z.eqb_spec rc 0) as [->|Hrc]; (split; [done|]).
  - cbn. by destruct s.
  - right. destruct Hs as (q & _ & Hh & Hdis & _). exists (own (service p)), d, k, q. by rewrite Hst.
Qed.

Lemma start_up_ok p : hal_device (service p) = None -> (frame_pool p, ipc_pool p) = (None, None) ->
  let '(ok, p1) := start_up o p in
  pool_regions p1 = pool_regions p + regions_of (frame_pool p1) + regions_of (ipc_pool p1) /\
  if (ok : bool) then exists c rc k0, apply_security c (kernel_of (service p)) = (rc, k0) /\ device_ok (held k0) (service p1)
  else released (kernel_of (service p)) (kernel_of (service p1)).
Proof.
  intros Hd [= Hfp Hip]. unfold start_up. rewrite look_step.
  destruct (service_base_install_signals _ _) as [rc g]. rewrite service_step.
  set (p0 := put_service _ p). assert (H0v : view p0 = view p) by done.
  destruct (negb _); [unfold p0; cbn; rewrite Hfp, Hip; split; [cbn; lia|by left]|].
  rewrite bind_run. pose proof (join_daemon_view o p0) as [Hj _]. destruct (join_daemon o p0) as [ok p1].
  cbn [snd] in Hj. rewrite H0v in Hj. unfold view in Hj. injection Hj as _ Hp1 Hp2 Hn Hd1 Hk _. rewrite Hd in Hd1.
  rewrite Hfp in Hp1. rewrite Hip in Hp2.
  destruct ok; cbn [negb]; [|cbn; rewrite Hp1, Hp2, Hn, Hk; split; [cbn; lia|by left]].
  rewrite bind_run. pose proof (secure_kernel p1) as Hsec. destruct (secure p1) as [ok p2].
  destruct Hsec as (Hd2 & [= Hq1 Hq2 Hq3] & c & rc' & Hap). rewrite Hd1 in Hd2. rewrite Hk in Hap.
  rewrite Hp1 in Hq1. rewrite Hp2 in Hq2. rewrite Hn in Hq3.
  destruct ok; cbn [negb].
  2: { cbn. rewrite Hq1, Hq2, Hq3. split; [cbn; lia|]. right. exists c, rc', (kernel_of (service p2)). split; [done|by left]. }
  rewrite bind_run. pose proof (open_device_ok p2 Hd2) as Hop. destruct (open_device p2) as [ok p3].
  destruct Hop as [[= Hr1 Hr2 Hr3] Hop]. rewrite Hq1 in Hr1. rewrite Hq2 in Hr2. rewrite Hq3 in Hr3.
  destruct ok; cbn [negb].
  2: { cbn. rewrite Hr1, Hr2, Hr3. split; [cbn; lia|]. right. by exists c, rc', (kernel_of (service p2)). }
  split; [|by exists c, rc', (kernel_of (service p2))].
  unfold create_pools, new_pools, on_service, set_service, set_pools, mbind, M_bind, mret, M_ret, look. cbn -[memory_pool_create].
  by rewrite Hr3.
Qed.

Lemma live_ok p : fresh_proc p -> let '(st, p1) := live o p in
  match st with
  | Some _ => pool_regions p1 = pool_regions p /\ released (kernel_of (service p)) (kernel_of (service p1))
  | None => True
  end.
Proof.
  intros [Hp Hd _]. unfold live. rewrite bind_run. pose proof (start_up_ok p Hd Hp) as Hst.
  destruct (start_up o p) as [ok p1]. destruct Hst as [Hn Hst]. destruct ok; cbn [negb].
  - destruct Hst as (c & rc & k0 & Hap & Hdev). pose proof (loop_run_ok (held k0) (ipc_pool p1) _ (io_ring p1) Hdev) as Hl.
    destruct (loop_run (ipc_pool p1) (service p1) (io_ring p1)) as [[rc' a] r]. cbn [fst snd] in Hl. destruct rc' as [rc'|]; [|done].
    set (p2 := mk_proc _ _ _ _ _ _ _ _). pose proof (shutdown_spec o true p2) as Hsh. cbv zeta in Hsh.
    rewrite bind_run. destruct (do_shutdown o true p2) as [[] p3]. cbn [fst snd] in Hsh.
    destruct Hsh as (_ & _ & _ & _ & _ & _ & _ & _ & Hk & Hr). cbn [pool_regions frame_pool ipc_pool p2] in Hr.
    split; [rewrite Hr, Hn; lia|]. right. exists c, rc, k0. split; [done|]. left.
    rewrite Hk. unfold stopping_device, drop_device. unfold p2. cbn [service].
    change (on_hardware (hardware_ok owned (held k0)) (set_svc_state SVC_STATE_STOPPING a)) in Hl.
    pose proof (drop_started_ok owned _ _ Hl) as Hdrop. set (b := set_svc_state SVC_STATE_STOPPING a) in *. clearbody b.
    destruct (on_device 0 drv_stop b) as [? b1]. cbn [snd] in Hdrop. by destruct (on_device 0 drv_close b1).
  - pose proof (shutdown_spec o false p1) as Hsh. cbv zeta in Hsh. rewrite bind_run.
    destruct (do_shutdown o false p1) as [[] p3]. cbn [fst snd] in Hsh.
    destruct Hsh as (_ & _ & _ & _ & _ & _ & _ & _ & Hk & Hr). split; [rewrite Hr, Hn; lia|]. by rewrite Hk.
Qed.

Lemma main_ok p : fresh_proc p -> let '(st, p1) := main o p in
  match st with
  | Some _ => pool_regions p1 = pool_regions p /\ released (kernel_of (service p)) (kernel_of (service p1))
  | None => True
  end.
Proof.
  intros [Hpool Hd Hs].
  assert (Hsame : forall p1, view p1 = view p -> pool_regions p1 = pool_regions p /\
    released (kernel_of (service p)) (kernel_of (service p1))).
  { intros p1 Hv. unfold view in Hv. injection Hv as _ _ _ Hn _ Hk _. split; [done|by left]. }
  unfold main. destruct (parse_args _ _ _ _) as [st|[path|] fg vb]; [by apply Hsame..| |by apply Hsame].
  match goal with |- context [mbind ?f (configure o path fg vb) p] => rewrite (bind_run (configure o path fg vb) f p) end.
  pose proof (configure_view o path fg vb p) as Hc.
  destruct (configure o path fg vb p) as [ok p1]. cbn [snd] in Hc. destruct ok; cbn [negb]; [|by apply Hsame].
  destruct (if fg then _ else _) as [|[rc u]]; [by apply Hsame|]. cbv zeta.
  destruct (negb (rc =? SVC_OK)); [by apply Hsame|]. set (p2 := mk_proc _ _ u _ _ _ _ _).
  assert (Hv2 : view p2 = view p) by done. clearbody p2. rewrite bind_run.
  pose proof (claim_spec o p2) as Hcl. destruct (claim_name o p2) as [ok p3].
  destruct (service_base_write_pid _ _ _) as [rc2 f]. destruct Hcl as [_ Hv3].
  unfold view in Hv2. injection Hv2 as _ Hq1 Hq2 Hq3 Hd2 Hk2 Hs2.
  unfold view in Hv3. injection Hv3 as _ Hr1 Hr2 Hr3 Hd3 Hk3 Hs3.
  rewrite <- Hk2, <- Hk3, <- Hq3, <- Hr3. destruct ok; cbn [negb]; [|split; [done|by left]].
  apply live_ok. split; [by rewrite Hr1, Hr2, Hq1, Hq2|by rewrite Hd3, Hd2|by rewrite Hs3, Hs2].
Qed.

End release.
