(* ===== verification/GpioService.v ===== *)
(** * The GPIO service (services/gpio_service)

    One pin behind the common life and loop of the services: [ServiceMain] and
    [ServiceLoop] with the layer [GpioHal]. *)

From S2P Require Import Prelude CText MemoryPool HalRegistry HalDevice GpioHal ServiceIpc ServiceBase ServiceConfig.
From S2P Require Import IoLoop IoHeap Capabilities Sandbox SecurityManager ServiceLoop ServiceMain.

(** [dev/services/gpio_service/gpio_service.h:27-44 gpio_service_ctx_t] the pin's part of the context. *)
Record gpio_settings := mk_gpio_settings {
  chip : string; s_pin : Z; s_direction : Z; s_initial : Z; s_edge : Z; interrupt_timeout_ms : Z
}.

Section gpio_service.
Context {K D R : Type} `{HalDevice.Kernel K} `{Layers K} `{Uring R}.
Context (mem : hal_mem) (profile : profile_env) (loop : loop_env D R).
Notation gpio_svc := (svc gpio_priv_t K gpio_settings D).
Notation SM := (M gpio_svc).

(** [dev/services/gpio_service/gpio_service_hal.c:14-43 gpio_service_hal_init] *)
Definition gpio_service_hal_init (c : gpio_settings) : M K (Z * option (hw gpio_priv_t)) :=
  let g := gpio_hal_default_config (s_pin c) in
  let g := mk_gpio_cfg (c_pin g) (s_direction c) (s_initial c) (s_edge c) (c_pull g) in
  match gpio_hal_create (Some "gpio_service"%string) (Some g) (mem_device mem) (mem_lock mem) (mem_priv mem) with
  | None => mret (SVC_ERR_HAL, None)
  | Some d => open_or_destroy d
  end.

(** [dev/services/gpio_service/gpio_service_hal.c:45-60 gpio_service_hal_start] *)
Definition gpio_service_hal_start : SM Z := hal_start.

(** [dev/services/gpio_service/gpio_service_hal.c:62-68 gpio_service_hal_set_value] *)
Definition gpio_service_hal_set_value (v : Z) : SM Z := fun a =>
  match hal_device a with
  | None => (SVC_ERR_INVALID, a)
  | Some _ => let '(rc, a) := on_device 0 (gpio_hal_set_value v) a in
      (if rc =? HAL_SUCCESS then SVC_OK else SVC_ERR_HAL, a)
  end.

(** [dev/services/gpio_service/gpio_service_hal.c:70-79 gpio_service_hal_get_value] [value]:
    what the caller's variable holds, and then holds. *)
Definition gpio_service_hal_get_value (value : Z) : SM (Z * Z) := fun a =>
  match hal_device a with
  | None => ((SVC_ERR_INVALID, value), a)
  | Some _ =>
      let '(rc, v, a) := on_device (0, 0) (gpio_hal_get_value 0) a in
      (if negb (rc =? HAL_SUCCESS) then (SVC_ERR_HAL, value) else (SVC_OK, v), a)
  end.

(** [dev/services/gpio_service/gpio_service_hal.c:81-94 gpio_service_hal_wait_interrupt]
    [addr]: where the argument is. *)
Definition gpio_service_hal_wait_interrupt (addr timeout_ms : Z) : SM Z := fun a =>
  match hal_device a with
  | None => (SVC_ERR_INVALID, a)
  | Some _ =>
      let '(rc, _, a) := on_device (0, mk_arg 0 0) (gpio_control 0 (mk_arg addr timeout_ms)) a in
      (if rc =? HAL_SUCCESS then SVC_OK else if rc =? HAL_ERROR_TIMEOUT then SVC_ERR_TIMEOUT else SVC_ERR_HAL, a)
  end.

(** [dev/services/gpio_service/gpio_service_hal.c:96-111 gpio_service_hal_stop] *)
Definition gpio_service_hal_stop : SM Z := hal_stop.

(** [dev/services/gpio_service/gpio_service_hal.c:113-127 gpio_service_hal_cleanup] *)
Definition gpio_service_hal_cleanup : SM unit := hal_cleanup.

(** [dev/services/gpio_service/gpio_service_loop.c:86-107 on_hal_data] *)
Definition gpio_on_hal_data (result : Z) : SM Z :=
  if result <=? 0 then mret (if result <? 0 then -1 else 0)
  else
    _ ← gpio_service_hal_get_value 0;
    _ ← on_device 0 (gpio_hal_wait_interrupt 0);
    mret 0.

(** [dev/services/gpio_service/gpio_service_loop.c:62-78 apply_config_reload] *)
Definition gpio_settings_reload (cfg : service_config_t) (c : gpio_settings) : gpio_settings :=
  let new_timeout := service_config_get_uint32 cfg "hardware" "interrupt_timeout_ms" (u32 (interrupt_timeout_ms c)) in
  if negb (new_timeout =? u32 (interrupt_timeout_ms c))
  then mk_gpio_settings (chip c) (s_pin c) (s_direction c) (s_initial c) (s_edge c) (i32 new_timeout)
  else c.

#[local] Instance gpio_service : Service gpio_priv_t K gpio_settings D :=
  {| on_hal_data := gpio_on_hal_data; settings := gpio_settings_reload |}.

(** [dev/services/gpio_service/gpio_service_loop.c:128-186 gpio_service_loop_run] the buffers
    of its loop come from no pool. *)
Definition gpio_service_loop_run (a : gpio_svc) (w : R) : (option Z * gpio_svc) * R :=
  run_loop loop "gpio_svc" None a w.

(** [dev/services/gpio_service/gpio_service_security.c:15-62 gpio_service_apply_security] *)
Definition gpio_service_apply_security (cfg : service_config_t) : M K Z := apply_profile profile "gpio" cfg.

(** [dev/services/gpio_service/gpio_service_main.c:51-57 REQUIRED_KEYS] *)
Definition gpio_required_keys : list (string * string) :=
  [ ("server", "socket_path"); ("server", "log_file"); ("hardware", "chip"); ("security", "verify_key_file") ]%string.

(** [dev/services/gpio_service/gpio_service_main.c:139-142 main, edge] *)
Definition edge_of (s : string) : Z :=
  if strcaseeq s "rising" then 1 else if strcaseeq s "falling" then 2 else if strcaseeq s "both" then 3 else 0.

(** [dev/services/gpio_service/gpio_service_main.c:134-153 main, Step 2] *)
Definition gpio_populate (cfg : service_config_t) (c : gpio_settings) : option gpio_settings :=
  let text k d := default d (service_config_get_string cfg "hardware" k (Some d)) in
  let number k d := service_config_get_uint32 cfg "hardware" k d in
  Some (mk_gpio_settings (strncpy_z 63 (text "chip" "gpiochip0")%string) (number "pin_number"%string 0)
    (i32 (number "direction"%string 1)) (i32 (number "initial_value"%string 0))
    (edge_of (text "edge" "none")%string) (i32 (number "interrupt_timeout_ms"%string 5000))).

(** [dev/services/gpio_service/gpio_service_main.c:89-274 main] what it adds to the common life. *)
#[local] Instance gpio_service_main : ServiceMain gpio_priv_t gpio_req K gpio_settings D R := {|
  sm_name := "gpio_service"; sm_prefix := "GPIO_SERVICE"; sm_log := "/var/log/gpio_service.log";
  required_keys := gpio_required_keys;
  take_config := gpio_populate;
  apply_security := gpio_service_apply_security;
  hal_init := gpio_service_hal_init;
  frame_pool_config _ := None;
  ipc_pool_config := mk_config 512 64 0 (Some "gpio_ipc_pool"%string);
  loop_run _ := gpio_service_loop_run
|}.

(** ** What it does *)

#[local] Instance gpio_keeps_running : KeepsRunning (P:=gpio_priv_t) (K:=K) (E:=gpio_settings) (D:=D).
Proof.
  intros r a. unfold on_hal_data, gpio_service, gpio_on_hal_data, gpio_service_hal_get_value. case_match; [done|].
  unfold mbind, M_bind, mret, M_ret, on_device. destruct (hal_device a) as [d|] eqn:Hd; [|by rewrite Hd].
  destruct (gpio_hal_get_value 0 _) as [[rc v] s]. simpl. by destruct (gpio_hal_wait_interrupt 0 _).
Qed.

(** What the service promises of its pin. *)
#[local] Instance gpio_service_laws `{Ledger K, !HalDevice.KernelLaws K} :
  ServiceLaws gpio_priv_t gpio_req K gpio_settings D R gpio_owned.
Proof.
  split; [apply _| |].
  - intros c k. unfold hal_init, gpio_service_main, gpio_service_hal_init, gpio_hal_create.
    destruct (negb _); [by split|]. destruct (_ || _); [by split|].
    refine (open_or_destroy_ok gpio_owned _ _ _ _). split; [|done]. eexists. split; [done|].
    cbn. unfold gpio_owned. cbn. set_solver.
  - intros B pool a r. apply run_loop_ok. clear a r. intros r. unfold on_hal_data, gpio_service, gpio_on_hal_data.
    destruct (r <=? 0); [by apply keeps_ret|]. apply keeps_bind; [|intros _; apply keeps_bind; [|intros _; by apply keeps_ret]];
      intros a Ha; [|apply on_device_ok; [by apply gpio_wait_balanced|done]].
    unfold gpio_service_hal_get_value. destruct (hal_device a); [|done].
    pose proof (on_device_ok gpio_owned (0, 0) (gpio_hal_get_value 0) B a (gpio_get_balanced B 0) Ha) as Hg.
    by destruct (on_device _ _ a) as [[??]?].
Qed.

(** An interrupt cannot be waited for through the service: the command it uses does not
    exist. *)
Lemma wait_interrupt_refused addr t a d p : hal_device a = Some d -> h_priv d = Some p ->
  (gpio_service_hal_wait_interrupt addr t a).1 = SVC_ERR_HAL.
Proof.
  intros Hd Hp. unfold gpio_service_hal_wait_interrupt, on_device, gpio_control, with_priv. rewrite Hd.
  cbn [dev]. rewrite Hp. done.
Qed.

(** Behind an edge the loop waits, without a limit, for the next one: no timer is served,
    and no heartbeat sent, until it comes. *)
Lemma edge_waits_for_next r a d p : 0 < r -> hal_device a = Some d -> h_priv d = Some p ->
  exists w, kernel_of (gpio_on_hal_data r a).2 = (k_poll (value_fd p) (-1) w).2.
Proof.
  intros Hr Hd Hp. unfold gpio_on_hal_data. destruct (Z.leb_spec r 0); [lia|].
  unfold gpio_service_hal_get_value, on_device, mbind, M_bind. rewrite Hd.
  unfold gpio_hal_get_value, gpio_read, gpio_hal_wait_interrupt, with_priv, call, mbind, M_bind, mret, M_ret. cbn [dev].
  rewrite Hp. simpl. destruct (k_rewind (value_fd p) (kernel_of a)) as [[] w1]. simpl.
  destruct (k_read (value_fd p) 3 w1) as [[n t] w2]. simpl.
  destruct (n <? 0); simpl;
  (destruct (_ <=? 0); simpl; rewrite ?Hp; destruct (k_rewind (value_fd p) w2) as [[] w3]; simpl;
    destruct (k_read (value_fd p) 4 w3) as [[m t'] w4]; simpl;
    exists w4; by destruct (k_poll (value_fd p) (-1) w4)).
Qed.
End gpio_service.

(** ** A pin served

    The world of [GpioHal] with layers that agree or, without [agrees], a sandbox that
    fails; a daemon that accepts whatever it is asked; memory for the event loop or none. *)
Definition toy_layers (agrees : bool) : Layers toy := {|
  verify_key _ v w := ((0, v), w);
  apply_sandbox _ w := (if agrees then 0 else -1, w);
  destroy_cgroup _ w := (0, w);
  apply_capabilities _ w := (0, w);
  apply_seccomp _ w := (0, w);
  seccomp_cleanup w := (tt, w)
|}.

Definition accepting : call_env unit := mk_call 1000 100 42 true (fun _ => true) (fun _ _ d => (Some [repeat 0 4], d)).
Definition gpio_conf : string :=
"[server]
socket_path = /run/sm.sock
log_file = /var/log/gpio.log
[hardware]
chip = gpiochip0
pin_number = 17
edge = both
[security]
verify_key_file = /etc/key
".
Definition plain_env : load_env := mk_lenv (fun _ => None) (fun _ => ""%string) "" "".
Definition svc_env0 : svc_env unit := mk_svc_env (fun _ => plain_env) (fun _ _ => Some gpio_conf) (fun _ => (accepting, 1001)).
Definition ring0 : toy_ring := mk_ring (replicate 8 no_request) 0 [] [] [] false 0.
Definition term_at_every_wait (w : toy_ring) : list Z := [SIGTERM].

Definition gpio_env : main_env unit :=
  mk_menv [("f"%char, ""%string); ("c"%char, "/etc/gpio.conf"%string)] plain_env (fun _ => Some gpio_conf) 5 None
    (mk_penv None 100 (fun _ => false) (fun _ => true)) (mk_forks 0 0 0 0 0) (fun _ => true) (fun _ => true) true
    (fun _ => Some (repeat 7 32)) true accepting accepting (mk_mmap true (Some 4096) true) (mk_mmap true (Some 8192) true).

Definition gpio_main (agrees loop_mem : bool) : ServiceMain gpio_priv_t gpio_req toy gpio_settings unit toy_ring :=
  gpio_service_main (H0:=toy_layers agrees) (H1:=toy_uring false) (mk_hal_mem true true true)
    (mk_profile_env 100 (fun _ => None) []) (mk_loop_env svc_env0 term_at_every_wait loop_mem [] 3 20).

Definition gpio_proc : proc gpio_priv_t toy gpio_settings unit toy_ring :=
  mk_proc (mk_svc globals0 (mk_ctx "" "" "" "" "" "" 0 SVC_STATE_INIT false false 0 0) (mk_scfg [] "" "") blank_ipc tt
             None gpio_world (mk_gpio_settings "" 0 0 0 0 0) 0 0 false)
    ∅ (mk_process false false false false) None None 0 false ring0.

Lemma gpio_fresh : fresh_proc gpio_proc.
Proof. by split. Qed.

(** The service comes up, sends its heartbeats and does not end, though SIGTERM arrives at
    every wait. *)
Example gpio_runs : let r := ServiceMain.main (H:=gpio_main true true) gpio_env gpio_proc in
  r.1 = None /\ security_applied r.2 = true /\ g_running (globals (service r.2)) = false /\
  pid_files r.2 !! "/run/gpio_service.pid"%string = Some ("100" ++ line_end)%string /\
  (h_fd <$> hal_device (service r.2)) = Some 4 /\ (3 <= beats (service r.2))%nat.
Proof. vm_compute. repeat split; lia. Qed.

(** What the law class asks of this service in the sample world. *)
#[local] Instance gpio_main_laws agrees loop_mem :
  ServiceLaws gpio_priv_t gpio_req toy gpio_settings unit toy_ring (H:=gpio_main agrees loop_mem) gpio_owned.
Proof. unfold gpio_main. apply gpio_service_laws, toy_laws. Defined.


Lemma hardware_after_security_witness :
  let p1 := (ServiceMain.main (H:=gpio_main false true) gpio_env gpio_proc).2 in
  security_applied p1 = false /\
  (kernel_of (service p1) = gpio_world \/
   exists rc, rc <> SVC_OK /\
     apply_security (ServiceMain:=gpio_main false true) (cfg (service p1)) gpio_world = (rc, kernel_of (service p1))).
Proof.
  assert (Hs : security_applied (ServiceMain.main (H:=gpio_main false true) gpio_env gpio_proc).2 = false) by (by vm_compute).
  split; [exact Hs|]. exact (hardware_after_security (H:=gpio_main false true) gpio_env gpio_proc eq_refl gpio_fresh Hs).
Defined.

Lemma service_never_stops_witness :
  let a := with_globals (service_base_install_signals (fun _ => true) globals0).2 (service gpio_proc) in
  let E := gpio_service (H:=toy_kernel) (D:=unit) in
  g_running (globals a) = true /\
  (service_loop (H:=E) (H0:=toy_uring false) svc_env0 term_at_every_wait "gpio_svc" None true [] 3 20 a ring0).1.1 = None.
Proof.
  cbv zeta. split; [reflexivity|].
  eapply (service_never_stops (H:=gpio_service (H:=toy_kernel)) (H0:=toy_uring false) svc_env0 term_at_every_wait
            (H1:=gpio_keeps_running (H:=toy_kernel))).
  - intros w. simpl. lia.
  - intros w. simpl. destruct (cq w); [destruct (pick _ _) as [[q l]|]|]; simpl; auto; right; lia.
  - vm_compute. reflexivity.
  - reflexivity.
Defined.
