(* ===== verification/AudioService.v ===== *)
(** * The audio service (services/audio_service)

    Sound behind the common life and loop of the services: [ServiceMain] and
    [ServiceLoop] with the layer [AudioHal], and the shared ring of the frames that were
    read, a [RingBuffer]. *)

From S2P Require Import Prelude Queue CText RecentLog RingBuffer MemoryPool HalRegistry HalDevice AudioHal.
From S2P Require Import ServiceIpc ServiceBase ServiceConfig IoLoop Capabilities Sandbox SecurityManager ServiceLoop ServiceMain.

Definition PCM_FRAME_BYTES : Z := 4096.
Definition RING_CAPACITY : Z := 64.
Definition RING_ITEM_SIZE : Z := PCM_FRAME_BYTES.
Definition audio_ring_name : string := "audio_service".

(** ** The ring of frames *)

(** [dev/services/audio_service/audio_service_loop.c:103-110 on_hal_data, the ring] a frame goes into the
    ring; the oldest gives way. *)
Definition put_frame (rb : option ring_buffer_t) (pcm_buf : list Z) : option ring_buffer_t :=
  match rb with
  | None => None
  | Some _ =>
      let '(rc, b, _) := ring_buffer_write rb (Some pcm_buf) in
      if rc =? RB_ERROR_FULL then
        let '(_, b, _) := ring_buffer_read b true in
        let '(_, b, _) := ring_buffer_write b (Some pcm_buf) in b
      else b
  end.

(** A ring of the service's size. *)
Definition frame_ring (b : ring_buffer_t) : Prop := rb_inv b /\ ncap b = 64%nat /\ nisz b = 4096%nat.

(** The ring as a log of the last frames. *)
Lemma put_frame_recent b it : frame_ring b -> length it = 4096%nat ->
  exists b', put_frame (Some b) it = Some b' /\ frame_ring b' /\ contents b' = last_n 63 (contents b ++ [it]).
Proof.
  intros (Hb & Hcap & Hsz) Hit. unfold put_frame.
  destruct (decide (length (contents b) = (ncap b - 1)%nat)) as [Hfull|Hroom].
  - rewrite write_full by done. cbn -[ring_buffer_read ring_buffer_write].
    assert (Hne : contents b <> []) by (intros Hn; rewrite Hn, Hcap in Hfull; done).
    destruct (read_ok b Hb Hne) as (b1 & x & -> & Hb1 & Hc & Hcap1 & Hsz1).
    rewrite Hc in Hfull. cbn [length] in Hfull.
    destruct (write_ok b1 it Hb1) as (b2 & -> & Hb2 & Hc2 & Hcap2 & Hsz2); [congruence|lia|].
    exists b2. split; [done|]. split; [split_and!; [done|congruence..]|]. rewrite Hc2, Hc. unfold last_n.
    rewrite length_app. cbn [length app]. by replace (S (length (contents b1)) + 1 - 63)%nat with 1%nat by lia.
  - destruct (write_ok b it Hb) as (b1 & -> & Hb1 & Hc1 & Hcap1 & Hsz1); [congruence|done|].
    exists b1. split; [done|]. split; [split_and!; [done|congruence..]|]. rewrite Hc1. symmetry. apply last_n_all.
    pose proof (length_contents_lt b Hb). rewrite length_app. cbn [length]. lia.
Qed.

(** A ring that was created for the service is empty. *)
Lemma created_frame_ring o m h m' :
  ring_buffer_create o m (Some audio_ring_name) RING_CAPACITY RING_ITEM_SIZE = (Some h, m') ->
  exists b, objs m' !! rb h = Some b /\ frame_ring b /\ contents b = [].
Proof.
  assert (Hnew : forall d, length d = Z.to_nat (RING_CAPACITY * RING_ITEM_SIZE) ->
    let b := mk_rb 0 0 RING_CAPACITY RING_ITEM_SIZE d in frame_ring b /\ contents b = []).
  { intros d Hd b. assert (Hb : rb_inv b).
    { subst b. split; cbn [capacity item_size head tail data]; [done..|].
      rewrite Hd. unfold ncap, nisz. cbn [capacity item_size]. rewrite Z2Nat.inj_mul by (unfold RING_CAPACITY, RING_ITEM_SIZE, PCM_FRAME_BYTES; lia). reflexivity. }
    split; [split_and!; [done| |]|]; [unfold ncap; subst b; cbn [capacity]; reflexivity
      |unfold nisz; subst b; cbn [item_size]; reflexivity|by apply empty_test]. }
  unfold ring_buffer_create. change (_ || _) with false. change (RING_BUFFER_MAX_CAPACITY <? _) with false.
  change (RING_BUFFER_MAX_ITEM_SIZE <? _) with false. cbv iota zeta.
  set (m1 := if bool_decide _ then shm_unlink _ _ else m).
  pose proof (length_replicate (Z.to_nat (RING_CAPACITY * RING_ITEM_SIZE)) 0) as Hd. apply Hnew in Hd.
  set (d := replicate _ _) in *. clearbody d. unfold make_handle.
  repeat case_match; intros Hc; simplify_eq; eexists; cbn [objs rb];
    rewrite lookup_insert_eq; by split.
Qed.

(** ** The service *)

(** [dev/services/audio_service/audio_service.h:41-61 audio_service_ctx_t] the sound's part of the
    context, with the ring of the loop and the shared memory it is in. *)
Record audio_settings := mk_audio_settings {
  alsa_device : string; s_rate : Z; s_channels : Z; s_format : Z; s_period : Z; s_buffer : Z; s_direction : Z;
  ring_handle : option rb_handle_t; shared : shm
}.
Definition with_ring h m (c : audio_settings) : audio_settings :=
  mk_audio_settings (alsa_device c) (s_rate c) (s_channels c) (s_format c) (s_period c) (s_buffer c) (s_direction c) h m.

(** The ring the handle maps. *)
Definition mapped (c : audio_settings) : option ring_buffer_t :=
  match ring_handle c with None => None | Some h => objs (shared c) !! rb h end.

Definition keep_frame (pcm_buf : list Z) (c : audio_settings) : audio_settings :=
  match ring_handle c, put_frame (mapped c) pcm_buf with
  | Some h, Some b => with_ring (Some h) (mk_shm (<[rb h := b]> (objs (shared c))) (names (shared c)) (next_obj (shared c))) c
  | _, _ => c
  end.

Lemma keep_frame_recent c b it : mapped c = Some b -> frame_ring b -> length it = 4096%nat ->
  exists b', mapped (keep_frame it c) = Some b' /\ frame_ring b' /\ contents b' = last_n 63 (contents b ++ [it]).
Proof.
  intros Hm Hb Hit. destruct (put_frame_recent b it Hb Hit) as (b' & Hp & Hb' & Hc). exists b'.
  split_and!; [|done..]. unfold keep_frame. rewrite Hm, Hp. unfold mapped in *. destruct (ring_handle c) as [h|]; [|done].
  cbn. by rewrite lookup_insert_eq.
Qed.

Section audio_service.
Context {K D R : Type} `{Alsa K} `{Layers K} `{Uring R}.
Context (zeros : K -> bool) (mem : hal_mem) (profile : profile_env) (loop : loop_env D R).
(** What the stack holds where the callback's buffer is; the shared memory's answers. *)
Context (stack : list Z) (shm_answers : os_answers).
Notation audio_svc := (svc audio_priv_t K audio_settings D).
Notation SM := (M audio_svc).
#[local] Instance audio_driver : HalDriver audio_priv_t audio_req K := audio_ops zeros.

(** [dev/services/audio_service/audio_service_hal.c:19-54 audio_service_hal_init] *)
Definition audio_service_hal_init (c : audio_settings) : M K (Z * option (hw audio_priv_t)) :=
  let acfg := mk_audio_cfg (direction (audio_hal_default_config (s_direction c))) (s_rate c) (s_channels c)
                (s_format c) (s_period c) (s_buffer c) in
  match audio_hal_create (Some "audio_service"%string) (Some (alsa_device c)) (Some acfg) (mem_device mem)
          (mem_lock mem) (mem_priv mem) with
  | None => mret (SVC_ERR_HAL, None)
  | Some d => open_or_destroy d
  end.

(** [dev/services/audio_service/audio_service_hal.c:56-72 audio_service_hal_start] *)
Definition audio_service_hal_start : SM Z := hal_start.

(** [dev/services/audio_service/audio_service_hal.c:74-90 audio_service_hal_read] the result and
    the bytes; None: the division by zero of the layer, which no format and number of
    channels the service accepts leads to. *)
Definition audio_service_hal_read (size : Z) : SM (option (Z * list Z)) := fun a =>
  match hal_device a with
  | None => (Some (SVC_ERR_INVALID, []), a)
  | Some _ =>
      let '(r, a) := on_device (Some (HAL_ERROR_INVALID, None)) (audio_read true size) a in
      (match r with
       | None => None
       | Some (ret, bytes) => if ret <? 0 then Some (SVC_ERR_HAL, []) else Some (ret, default [] (snd <$> bytes))
       end, a)
  end.

(** [dev/services/audio_service/audio_service_hal.c:92-108 audio_service_hal_write] None: as above. *)
Definition audio_service_hal_write (data : list Z) (size : Z) : SM (option Z) := fun a =>
  match hal_device a with
  | None => (Some SVC_ERR_INVALID, a)
  | Some _ =>
      let '(r, a) := on_device (Some (HAL_ERROR_INVALID, None)) (audio_write (Some data) size) a in
      (match r with None => None | Some (ret, _) => Some (if ret <? 0 then SVC_ERR_HAL else ret) end, a)
  end.

(** [dev/services/audio_service/audio_service_hal.c:110-126 audio_service_hal_stop] *)
Definition audio_service_hal_stop : SM Z := hal_stop.

(** [dev/services/audio_service/audio_service_hal.c:128-145 audio_service_hal_cleanup] *)
Definition audio_service_hal_cleanup : SM unit := hal_cleanup.

(** The callback's buffer after a read: what was read, then what was there. *)
Definition pcm_frame (bytes : list Z) : list Z :=
  let n := Z.to_nat PCM_FRAME_BYTES in take n bytes ++ drop (length bytes) stack.

(** [dev/services/audio_service/audio_service_loop.c:86-112 on_hal_data] *)
Definition audio_on_hal_data (result : Z) : SM Z :=
  if result <=? 0 then mret (if result <? 0 then -1 else 0)
  else
    r ← audio_service_hal_read PCM_FRAME_BYTES;
    match r with
    | Some (n, bytes) => if n <=? 0 then mret 0
                         else _ ← get_own (fun c => set_own (keep_frame (pcm_frame bytes) c)); mret 0
    | None => mret 0
    end.

(** [dev/services/audio_service/audio_service_loop.c:64-78 apply_config_reload] *)
Definition audio_settings_reload (cfg : service_config_t) (c : audio_settings) : audio_settings :=
  let new_rate := service_config_get_uint32 cfg "hardware" "sample_rate" (s_rate c) in
  if negb (new_rate =? s_rate c) && (8000 <=? new_rate) && (new_rate <=? 192000)
  then mk_audio_settings (alsa_device c) new_rate (s_channels c) (s_format c) (s_period c) (s_buffer c) (s_direction c)
         (ring_handle c) (shared c)
  else c.

#[local] Instance audio_service : Service audio_priv_t K audio_settings D :=
  {| on_hal_data := audio_on_hal_data; settings := audio_settings_reload |}.

(** [dev/services/audio_service/audio_service_loop.c:135-209 audio_service_loop_run] the loop
    between the creation of the ring and its end. *)
Definition audio_service_loop_run (pool : option memory_pool) (a : audio_svc) (w : R) : (option Z * audio_svc) * R :=
  let '(h, m) := ring_buffer_create shm_answers (shared (own a)) (Some audio_ring_name) RING_CAPACITY RING_ITEM_SIZE in
  let '(rc, a, w) := run_loop loop "audio_svc" pool (with_own (with_ring h m (own a)) a) w in
  match rc with
  | None => (None, a, w)
  | Some _ =>
      let '(h, m) := ring_buffer_destroy (shared (own a)) (ring_handle (own a)) (Some audio_ring_name) in
      (rc, with_own (with_ring h m (own a)) a, w)
  end.

(** [dev/services/audio_service/audio_service_security.c:19-79 audio_service_apply_security] *)
Definition audio_service_apply_security (cfg : service_config_t) : M K Z := apply_profile profile "audio" cfg.

(** [dev/services/audio_service/audio_service_main.c:56-62 REQUIRED_KEYS] *)
Definition audio_required_keys : list (string * string) :=
  [ ("server", "socket_path"); ("server", "log_file"); ("hardware", "device"); ("security", "verify_key_file") ]%string.

(** [dev/services/audio_service/audio_service_main.c:141-164 main, Step 2] *)
Definition audio_populate (cfg : service_config_t) (c : audio_settings) : option audio_settings :=
  let number k d := service_config_get_uint32 cfg "hardware" k d in
  let device := default "hw:0"%string (service_config_get_string cfg "hardware" "device" (Some "hw:0"%string)) in
  let c := mk_audio_settings (strncpy_z 63 device) (number "sample_rate"%string 44100) (number "channels"%string 2)
             (s_format c) (number "period_size"%string 1024) (number "buffer_size"%string 4096) (s_direction c)
             (ring_handle c) (shared c) in
  if (s_rate c <? 8000) || (192000 <? s_rate c) then None
  else if negb (s_channels c =? 1) && negb (s_channels c =? 2) then None
  else Some c.

(** [dev/services/audio_service/audio_service_main.c:274-282 main, Step 9b] *)
Definition audio_pool_config (c : audio_settings) : option memory_pool_config_t :=
  Some (mk_config (u64 (s_period c * s_channels c * 2)) 8 0 (Some "audio_frame_pool"%string)).

(** [dev/services/audio_service/audio_service_main.c:105-307 main] what it adds to the common life. *)
#[local] Instance audio_service_main : ServiceMain audio_priv_t audio_req K audio_settings D R := {|
  sm_name := "audio_service"; sm_prefix := "AUDIO_SERVICE"; sm_log := "/var/log/audio_service.log";
  required_keys := audio_required_keys;
  take_config := audio_populate;
  apply_security := audio_service_apply_security;
  hal_init := audio_service_hal_init;
  frame_pool_config := audio_pool_config;
  ipc_pool_config := mk_config 512 64 0 (Some "audio_ipc_pool"%string);
  loop_run := audio_service_loop_run
|}.

(** ** What it does *)

Lemma read_keeps n a : own (audio_service_hal_read n a).2 = own a /\
  loop_running (audio_service_hal_read n a).2 = loop_running a.
Proof.
  unfold audio_service_hal_read, on_device. destruct (hal_device a); [|done].
  by destruct (audio_read true n _) as [[[??]|] s].
Qed.

(** What a callback reads. *)
Definition heard (result : Z) (a : audio_svc) : list (list Z) :=
  if result <=? 0 then []
  else match (audio_service_hal_read PCM_FRAME_BYTES a).1 with
       | Some (n, bytes) => if n <=? 0 then [] else [pcm_frame bytes]
       | None => []
       end.
Fixpoint all_heard (rs : list Z) (a : audio_svc) : list (list Z) :=
  match rs with [] => [] | r :: rs => heard r a ++ all_heard rs (audio_on_hal_data r a).2 end.

Lemma callback_own r a : own (audio_on_hal_data r a).2 = foldl (fun c f => keep_frame f c) (own a) (heard r a) /\
  loop_running (audio_on_hal_data r a).2 = loop_running a.
Proof.
  unfold audio_on_hal_data, heard. case_match; [done|]. unfold mbind, M_bind, mret, M_ret.
  destruct (read_keeps PCM_FRAME_BYTES a) as [Ho Hl].
  destruct (audio_service_hal_read PCM_FRAME_BYTES a) as [[[n bytes]|] a']; cbn [fst snd] in *; [|done].
  destruct (n <=? 0); [done|]. unfold get_own, set_own, with_own. cbn. by rewrite Ho.
Qed.

#[local] Instance audio_keeps_running : KeepsRunning (P:=audio_priv_t) (K:=K) (E:=audio_settings) (D:=D).
Proof. intros r a. apply callback_own. Qed.

(** What the service promises of its sound. *)
#[local] Instance audio_service_laws `{Ledger K, !AlsaLaws K} :
  ServiceLaws audio_priv_t audio_req K audio_settings D R audio_owned.
Proof.
  pose proof (audio_laws (W:=K) zeros) as Hlaws. split; [exact Hlaws| |].
  - intros c k. unfold hal_init, audio_service_main, audio_service_hal_init, audio_hal_create.
    destruct (_ || _); [by split|]. refine (open_or_destroy_ok audio_owned _ _ _ _).
    split; [|done]. eexists. split; [done|]. cbn. unfold audio_owned. cbn. set_solver.
  - intros B pool a r Ha. unfold loop_run, audio_service_main, audio_service_loop_run.
    destruct (ring_buffer_create _ _ _ _ _) as [h m].
    assert (Hl : on_hardware (hardware_ok audio_owned B) (run_loop loop "audio_svc" pool (with_own (with_ring h m (own a)) a) r).1.2).
    { apply run_loop_ok; [|exact Ha]. clear a r Ha. intros r. unfold on_hal_data, audio_service, audio_on_hal_data.
      destruct (r <=? 0); [by apply keeps_ret|]. apply keeps_bind.
      - intros a Ha. unfold audio_service_hal_read. destruct (hal_device a); [|done].
        pose proof (on_device_ok audio_owned (Some (HAL_ERROR_INVALID, None)) _ B a (audio_read_balanced B true PCM_FRAME_BYTES) Ha) as Hr.
        by destruct (on_device _ _ a).
      - intros [[n bytes]|]; [|by apply keeps_ret]. destruct (n <=? 0); [by apply keeps_ret|]. by intros a Ha. }
    destruct (run_loop _ _ _ _ _) as [[[rc|] a'] r']; [|done]. by destruct (ring_buffer_destroy _ _ _).
Qed.

Lemma length_pcm_frame bytes : length stack = 4096%nat -> length (pcm_frame bytes) = 4096%nat.
Proof.
  intros Hs. unfold pcm_frame. change (Z.to_nat PCM_FRAME_BYTES) with 4096%nat.
  rewrite length_app, length_take, length_drop, Hs. lia.
Qed.

(** Whatever the callbacks read, the ring holds the last 63 frames, of those it held before
    and those that were read, as long as nobody else reads it. *)
Lemma ring_keeps_last rs a b : length stack = 4096%nat -> mapped (own a) = Some b -> frame_ring b ->
  exists b', mapped (own (foldl (fun a r => (audio_on_hal_data r a).2) a rs)) = Some b' /\ frame_ring b' /\
    contents b' = last_n 63 (contents b ++ all_heard rs a).
Proof.
  intros Hst. revert a b. induction rs as [|r rs IH]; intros a b Hm Hb.
  - exists b. split_and!; [done..|]. cbn [all_heard]. rewrite app_nil_r. symmetry. apply last_n_all.
    destruct Hb as (Hb & Hcap & _). pose proof (length_contents_lt b Hb). lia.
  - cbn [foldl all_heard].
    assert (Hstep : exists b', mapped (own (audio_on_hal_data r a).2) = Some b' /\ frame_ring b' /\
      contents b' = last_n 63 (contents b ++ heard r a)).
    { destruct (callback_own r a) as [-> _]. assert (Hlast : contents b = last_n 63 (contents b ++ [])).
      { rewrite app_nil_r. symmetry. apply last_n_all. destruct Hb as (Hb & Hcap & _).
        pose proof (length_contents_lt b Hb). lia. }
      unfold heard. repeat case_match; cbn [foldl]; try (by exists b).
      apply keep_frame_recent; [done..|]. by apply length_pcm_frame. }
    destruct Hstep as (b1 & Hm1 & Hb1 & Hc1). destruct (IH _ _ Hm1 Hb1) as (b2 & Hm2 & Hb2 & Hc2).
    exists b2. split_and!; [done..|]. rewrite Hc2, Hc1, last_n_app. by rewrite app_assoc.
Qed.

(** The layer never sets the descriptor of its device, so the loop never polls it: nothing
    is read in a running service. *)
Lemma open_fd (d : hw audio_priv_t) k : h_fd (dev (audio_open (mk_st d k)).2) = h_fd d.
Proof.
  unfold audio_open, with_priv. cbn [dev]. destruct (h_priv d) as [p|]; [|done].
  unfold mbind, M_bind, call. destruct (open_stream p _) as [r k']. cbn. by destruct (r.1 =? 0).
Qed.

Lemma audio_never_polled c k d k' : audio_service_hal_init c k = (SVC_OK, Some d, k') -> h_fd d = -1.
Proof.
  unfold audio_service_hal_init, audio_hal_create. destruct (_ || _); [done|].
  unfold open_or_destroy. cbn [drv_open audio_driver audio_ops].
  set (d0 := mk_hw _ _ _ _ _ _). pose proof (open_fd d0 k) as Hfd. destruct (audio_open (mk_st d0 k)) as [rc s].
  destruct (negb (rc =? 0)); [by destruct (hal_device_last_unref s)|]. intros [= <- <-]. exact Hfd.
Qed.
End audio_service.
