(* ===== verification/CameraService.v ===== *)
(** * The camera service (services/camera_service)

    Frames behind the common life and loop of the services: [ServiceMain] and
    [ServiceLoop] with the layer [CameraHal] and a queue of the last frames. *)

From S2P Require Import Prelude CText RecentLog MemoryPool HalRegistry HalDevice CameraHal ServiceIpc ServiceBase ServiceConfig.
From S2P Require Import IoLoop Capabilities Sandbox SecurityManager ServiceLoop ServiceMain.

Definition FRAME_QUEUE_DEPTH : Z := 8.
Definition CAPTURE_TIMEOUT_MS : Z := 100.

(** ** The frame queue *)

(** [dev/services/camera_service/camera_service_loop.c:48-51 frame_queue_t] *)
Record frame_queue_t := mk_fq { frames : list camera_frame_t; fq_head : Z; fq_tail : Z; fq_count : Z }.

Definition no_frame : camera_frame_t := mk_frame 0 0 0 0 0.
Definition fq_init : frame_queue_t := mk_fq (replicate (Z.to_nat FRAME_QUEUE_DEPTH) no_frame) 0 0 0.

(** [dev/services/camera_service/camera_service_loop.c:53-59 fq_push] *)
Definition fq_push (q : frame_queue_t) (f : camera_frame_t) : frame_queue_t :=
  let fs := <[Z.to_nat (fq_tail q) := f]> (frames q) in
  let tail := (fq_tail q + 1) mod FRAME_QUEUE_DEPTH in
  if fq_count q <? FRAME_QUEUE_DEPTH then mk_fq fs (fq_head q) tail (fq_count q + 1)
  else mk_fq fs ((fq_head q + 1) mod FRAME_QUEUE_DEPTH) tail (fq_count q).

#[export] Instance frame_inhabited : Inhabited camera_frame_t := populate no_frame.

(** The frames of a queue, the oldest first. *)
Definition fq_frames (q : frame_queue_t) : list camera_frame_t :=
  (fun i => frames q !!! ((Z.to_nat (fq_head q) + i) mod 8)%nat) <$> seq 0 (Z.to_nat (fq_count q)).

(** The queue after exactly these frames. *)
Record fq_holds (q : frame_queue_t) (l : list camera_frame_t) : Prop := {
  fh_log : ring_log (frames q) (Z.to_nat (fq_tail q)) l;
  fh_length : length (frames q) = 8%nat;
  fh_tail : 0 <= fq_tail q < 8;
  fh_count : fq_count q = Z.of_nat (8 `min` length l);
  fh_head : fq_head q = Z.of_nat ((length l - 8) mod 8)
}.

Lemma fq_holds_nil : fq_holds fq_init [].
Proof. split; try done. by apply ring_log_nil; simpl; lia. Qed.

Lemma next_slot z : 0 <= z < 8 -> Z.to_nat ((z + 1) mod FRAME_QUEUE_DEPTH) = ((Z.to_nat z + 1) mod 8)%nat.
Proof.
  intros Hz. unfold FRAME_QUEUE_DEPTH. rewrite Z2Nat.inj_mod by lia. f_equal. lia.
Qed.

#[export] Instance fq_log : RecentLog frame_queue_t camera_frame_t := {
  log_cap _ := 8%nat; log_ok _ _ := True; log_push f q := fq_push q f;
  log_recent n q := last_n n (fq_frames q); log_holds := fq_holds
}.

Lemma fq_frames_holds q l : fq_holds q l -> fq_frames q = last_n 8 l.
Proof.
  intros [Hlog Hlen Ht Hc Hh]. unfold fq_frames. rewrite Hc, Nat2Z.id, Hh, Nat2Z.id.
  assert (Hn : exists n, n = (8 `min` length l)%nat) by eauto. destruct Hn as [n Hn]. rewrite <- Hn.
  replace (last_n 8 l) with (last_n n l).
  2: { unfold last_n. f_equal. lia. }
  apply list_eq. intros i. destruct (decide (i < n)%nat) as [Hi|Hi].
  - rewrite list_lookup_fmap, lookup_seq_lt by done. cbn [fmap option_fmap option_map].
    rewrite lookup_last_n by lia. rewrite Nat.add_0_l.
    rewrite Nat.Div0.add_mod_idemp_l. destruct Hlog as [_ _ Hat]. rewrite Hlen in Hat.
    replace (length l - 8 + i)%nat with (length l - n + i)%nat by lia.
    rewrite Hat by lia. symmetry. apply list_lookup_lookup_total_lt. lia.
  - rewrite !lookup_ge_None_2; [done|rewrite length_last_n; lia|]. rewrite length_fmap, length_seq. lia.
Qed.

#[export] Instance fq_log_laws : RecentLogLaws frame_queue_t camera_frame_t.
Proof.
  split; cbn [log_holds log_ok log_push log_cap log_recent fq_log].
  - intros q l f [Hlog Hlen Ht Hc Hh] _. split; [|done].
    pose proof (ring_log_push _ _ _ f Hlog) as Hp. rewrite Hlen in Hp.
    unfold fq_push. rewrite Hc. unfold FRAME_QUEUE_DEPTH at 1 2 3. destruct (Z.ltb_spec (Z.of_nat (8 `min` length l)) 8).
    + split; cbn [frames fq_head fq_tail fq_count]; rewrite ?length_insert, ?length_app; cbn [length]; try done;
        try (apply Z.mod_pos_bound; lia).
      * by rewrite next_slot.
      * lia.
      * rewrite Hh. f_equal. by replace (length l + 1 - 8)%nat with 0%nat by lia; replace (length l - 8)%nat with 0%nat by lia.
    + split; cbn [frames fq_head fq_tail fq_count]; rewrite ?length_insert, ?length_app; cbn [length]; try done;
        try (apply Z.mod_pos_bound; lia).
      * by rewrite next_slot.
      * lia.
      * rewrite Hh. replace (length l + 1 - 8)%nat with (length l - 8 + 1)%nat by lia.
        rewrite Nat2Z.inj_mod, Nat2Z.inj_mod, Zplus_mod_idemp_l, Nat2Z.inj_add. done.
  - intros q l n Hq. rewrite (fq_frames_holds q l Hq). unfold last_n. rewrite drop_drop, length_drop. f_equal. lia.
Qed.

Lemma fq_pushes fs : forall q l, fq_holds q l -> fq_holds (fold_left fq_push fs q) (l ++ fs).
Proof.
  induction fs as [|f fs IH]; intros q l Hq; [by rewrite app_nil_r|]. simpl.
  replace (l ++ f :: fs) with ((l ++ [f]) ++ fs) by (by rewrite <- app_assoc). apply IH.
  exact (proj1 (log_push_holds (L:=fq_log) q l f Hq I)).
Qed.

(** The queue keeps the last eight frames. *)
Lemma frame_queue_keeps_last fs : fq_frames (fold_left fq_push fs fq_init) = last_n 8 fs.
Proof. apply fq_frames_holds. exact (fq_pushes fs fq_init [] fq_holds_nil). Qed.

(** ** The service *)

(** [dev/services/camera_service/camera_service.h:30-48 camera_service_ctx_t] the camera's part of the context,
    with the queue of the loop. *)
Record camera_settings := mk_camera_settings {
  v4l2_device : string; s_width : Z; s_height : Z; s_fps : Z; s_buffers : Z; s_format : Z; fq : frame_queue_t
}.
Definition with_fq q (c : camera_settings) : camera_settings :=
  mk_camera_settings (v4l2_device c) (s_width c) (s_height c) (s_fps c) (s_buffers c) (s_format c) q.

Section camera_service.
Context {K D R : Type} `{HalDevice.Kernel K} `{V4l2 K} `{Layers K} `{Uring R}.
Context (calloc : K -> bool) (mem : hal_mem) (profile : profile_env) (loop : loop_env D R).
Notation camera_svc := (svc camera_priv_t K camera_settings D).
Notation SM := (M camera_svc).
#[local] Instance camera_driver : HalDriver camera_priv_t camera_req K := camera_ops calloc.

(** [dev/services/camera_service/camera_service_hal.c:18-55 camera_service_hal_init] *)
Definition camera_service_hal_init (c : camera_settings) : M K (Z * option (hw camera_priv_t)) :=
  let cfg := mk_cam_cfg (s_width c) (s_height c) (s_format c) (s_fps c) (s_buffers c) in
  rc ← camera_hal_validate_device_path (Some (v4l2_device c));
  if negb (rc =? HAL_SUCCESS) then mret (SVC_ERR_HAL, None)
  else
    match camera_hal_create (Some "camera_service"%string) (Some (v4l2_device c)) (Some cfg) (mem_device mem)
            (mem_lock mem) (mem_priv mem) with
    | None => mret (SVC_ERR_HAL, None)
    | Some d => open_or_destroy d
    end.

(** [dev/services/camera_service/camera_service_hal.c:57-72 camera_service_hal_start] *)
Definition camera_service_hal_start : SM Z := hal_start.

(** [dev/services/camera_service/camera_service_hal.c:74-109 camera_service_hal_capture] [malloc]:
    a buffer, 0 for none, when there is no pool; the result, the frame and what is left of
    the pool.  Nothing is said of a pool whose allocation is undefined (the third case). *)
Definition camera_service_hal_capture (pool : option memory_pool) (malloc : Z)
    : SM (Z * option (Z * Z * Z) * option memory_pool) := fun a =>
  match hal_device a with
  | None => ((SVC_ERR_INVALID, None, pool), a)
  | Some _ =>
      let '(b, pool) := match pool with
                        | Some p => match memory_pool_alloc p with
                                    | AllocOk ptr p => (ptr, Some p)
                                    | AllocNull p => (0, Some p)
                                    | AllocUB => (0, Some p)
                                    end
                        | None => (malloc, None)
                        end in
      if b =? 0 then ((SVC_ERR_HAL, None, pool), a)
      else
        let '(got, a) := on_device 0 camera_read a in
        if got <=? 0 then
          ((SVC_ERR_HAL, None, match pool with Some p => Some (memory_pool_free p b) | None => None end), a)
        else ((SVC_OK, Some (b, got, 0), pool), a)
  end.

(** [dev/services/camera_service/camera_service_hal.c:111-122 camera_service_hal_return] *)
Definition camera_service_hal_return : SM Z := fun a =>
  match hal_device a with
  | None => (SVC_ERR_INVALID, a)
  | Some _ => let '(rc, a) := on_device 0 camera_write a in (if 0 <=? rc then SVC_OK else SVC_ERR_HAL, a)
  end.

(** [dev/services/camera_service/camera_service_hal.c:124-139 camera_service_hal_stop] *)
Definition camera_service_hal_stop : SM Z := hal_stop.

(** [dev/services/camera_service/camera_service_hal.c:141-155 camera_service_hal_cleanup] *)
Definition camera_service_hal_cleanup : SM unit := hal_cleanup.

(** [dev/services/camera_service/camera_service_loop.c:105-129 on_hal_data] *)
Definition camera_on_hal_data (result : Z) : SM Z :=
  if result <=? 0 then mret (if result <? 0 then -1 else 0)
  else
    r ← on_device (HAL_ERROR_INVALID, None) (camera_hal_capture_frame (Some no_frame) CAPTURE_TIMEOUT_MS);
    if negb (r.1 =? HAL_SUCCESS) then _ ← count_error; mret 0
    else
      let f := default no_frame r.2 in
      _ ← get_own (fun c => set_own (with_fq (fq_push (fq c) f) c));
      _ ← on_device 0 (camera_hal_return_frame (Some f));
      mret 0.

(** [dev/services/camera_service/camera_service_loop.c:83-97 apply_config_reload] *)
Definition camera_settings_reload (cfg : service_config_t) (c : camera_settings) : camera_settings :=
  let new_fps := service_config_get_uint32 cfg "hardware" "fps" (s_fps c) in
  if negb (new_fps =? s_fps c) && (0 <? new_fps) && (new_fps <=? 240)
  then mk_camera_settings (v4l2_device c) (s_width c) (s_height c) new_fps (s_buffers c) (s_format c) (fq c)
  else c.

#[local] Instance camera_service : Service camera_priv_t K camera_settings D :=
  {| on_hal_data := camera_on_hal_data; settings := camera_settings_reload |}.

(** [dev/services/camera_service/camera_service_loop.c:150-211 camera_service_loop_run] *)
Definition camera_service_loop_run (pool : option memory_pool) (a : camera_svc) (w : R) : (option Z * camera_svc) * R :=
  run_loop loop "camera_svc" pool (with_own (with_fq fq_init (own a)) a) w.

(** [dev/services/camera_service/camera_service_security.c:15-58 camera_service_apply_security] *)
Definition camera_service_apply_security (cfg : service_config_t) : M K Z := apply_profile profile "camera" cfg.

(** [dev/services/camera_service/camera_service_main.c:51-59 REQUIRED_KEYS] *)
Definition camera_required_keys : list (string * string) :=
  [ ("server", "socket_path"); ("server", "log_file"); ("hardware", "device"); ("hardware", "width");
    ("hardware", "height"); ("security", "verify_key_file") ]%string.

(** [dev/services/camera_service/camera_service_main.c:149-151 main, format] *)
Definition format_of (s : string) : Z := if strcaseeq s "MJPEG" then 1 else 0.

(** [dev/services/camera_service/camera_service_main.c:136-162 main, Step 2] *)
Definition camera_populate (cfg : service_config_t) (c : camera_settings) : option camera_settings :=
  let text k d := default d (service_config_get_string cfg "hardware" k (Some d)) in
  let number k d := service_config_get_uint32 cfg "hardware" k d in
  let c := mk_camera_settings (strncpy_z 63 (text "device" "/dev/video0")%string) (number "width"%string 640)
             (number "height"%string 480) (number "fps"%string 30) (number "buffer_count"%string 4)
             (format_of (text "format" "YUYV")%string) (fq c) in
  if (s_width c =? 0) || (s_height c =? 0) then None
  else if (s_fps c =? 0) || (240 <? s_fps c) then None
  else Some c.

(** [dev/services/camera_service/camera_service_main.c:257-264 main, Step 9b] *)
Definition camera_pool_config (c : camera_settings) : option memory_pool_config_t :=
  Some (mk_config (u64 (s_width c * s_height c * 2)) (if 0 <? s_buffers c then s_buffers c else 4) 0
          (Some "camera_frame_pool"%string)).

(** [dev/services/camera_service/camera_service_main.c:91-292 main] what it adds to the common life. *)
#[local] Instance camera_service_main : ServiceMain camera_priv_t camera_req K camera_settings D R := {|
  sm_name := "camera_service"; sm_prefix := "CAMERA_SERVICE"; sm_log := "/var/log/camera_service.log";
  required_keys := camera_required_keys;
  take_config := camera_populate;
  apply_security := camera_service_apply_security;
  hal_init := camera_service_hal_init;
  frame_pool_config := camera_pool_config;
  ipc_pool_config := mk_config 512 64 0 (Some "camera_ipc_pool"%string);
  loop_run := camera_service_loop_run
|}.

(** ** What it does *)

#[local] Instance camera_keeps_running : KeepsRunning (P:=camera_priv_t) (K:=K) (E:=camera_settings) (D:=D).
Proof.
  intros r a. unfold on_hal_data, camera_service, camera_on_hal_data. case_match; [done|].
  unfold get_own, set_own, mbind, M_bind, mret, M_ret, on_device. destruct (hal_device a) as [d|] eqn:Hd; [|done].
  destruct (camera_hal_capture_frame _ _ _) as [[rc f] s]. simpl. destruct (negb _); [done|].
  simpl. by destruct (with_priv _ _ _).
Qed.

(** What the service promises of its camera. *)
#[local] Instance camera_service_laws `{Ledger K, !HalDevice.KernelLaws K, !V4l2Laws K} :
  ServiceLaws camera_priv_t camera_req K camera_settings D R camera_owned.
Proof.
  pose proof (camera_laws (W:=K) calloc) as Hlaws. split; [exact Hlaws| |].
  - intros c k. unfold hal_init, camera_service_main, camera_service_hal_init. unfold mbind at 1, M_bind.
    pose proof (validate_quiet (Some (v4l2_device c)) k) as Hq.
    destruct (camera_hal_validate_device_path _ k) as [rc k1]. cbn [snd] in Hq. rewrite <- Hq.
    destruct (negb _); [by split|]. unfold camera_hal_create. destruct (_ || _); [by split|].
    refine (open_or_destroy_ok camera_owned _ _ _ _). split; [|done]. eexists. split; [done|].
    cbn. unfold camera_owned, bufs_owned. cbn. set_solver.
  - intros B pool a r Ha. apply run_loop_ok; [|exact Ha]. clear a r Ha. intros r. unfold on_hal_data, camera_service, camera_on_hal_data.
    destruct (r <=? 0); [by apply keeps_ret|].
    apply keeps_bind; [intros a Ha; apply on_device_ok; [by apply capture_balanced|done]|]. intros f.
    destruct (negb _); [by intros a Ha|]. apply keeps_bind; [by intros a Ha|]. intros _.
    apply keeps_bind; [|by intros _; apply keeps_ret]. intros a Ha. apply on_device_ok; [by apply return_balanced|done].
Qed.

(** The two functions of the service for single frames cannot work: the layer does not
    support what they call. *)
Lemma capture_refused pool malloc a : (camera_service_hal_capture pool malloc a).1.1.1 <> SVC_OK /\
  (camera_service_hal_return a).1 <> SVC_OK.
Proof.
  unfold camera_service_hal_capture, camera_service_hal_return, on_device. destruct (hal_device a); [|done]. simpl.
  destruct pool as [p|]; [destruct (memory_pool_alloc p)|]; simpl; repeat case_match; simplify_eq/=; done.
Qed.

(** MJPEG is asked for and YUYV is set. *)
Lemma mjpeg_is_yuyv : v4l2_fmt_from_hal (format_of "MJPEG") = v4l2_fmt_from_hal CAMERA_FORMAT_YUYV.
Proof. done. Qed.
End camera_service.

(** A frame in the queue is not the service's any more: its buffer is the driver's again
    when it is put there. *)
Lemma queued_frame_given_back :
  let a := mk_svc globals0 (mk_ctx "" "" "" "" "" "" 0 SVC_STATE_RUNNING false false 0 0) (mk_scfg [] "" "") blank_ipc tt
             (Some (dev cam_active)) (world cam_active) (mk_camera_settings "" 640 480 30 4 0 fq_init) 0 0 true in
  let a' := (camera_on_hal_data (D:=unit) 1 a).2 in
  exists f, fq_frames (fq (own a')) = [f] /\ f_data f <> 0 /\ f_buffer_index f ∈ cw_queue (kernel_of a').
Proof.
  eexists. split; [vm_compute; reflexivity|]. split; [done|]. refine (bool_decide_unpack _ _). by vm_compute.
Qed.
