(* ===== verification/SensorService.v ===== *)
(** * The sensor service (services/sensor_service)

    One sensor behind the common life and loop of the services: [ServiceMain] and
    [ServiceLoop] with the layer [SensorHal] and a store for the latest reading. *)

From S2P Require Import Prelude CText Float64 MemoryPool HalRegistry HalDevice SensorHal ServiceIpc ServiceBase ServiceConfig.
From S2P Require Import IoLoop Capabilities Sandbox SecurityManager ServiceLoop ServiceMain.

(** [dev/services/sensor_service/sensor_service_loop.c:45-51 sensor_latest_t] without its
    mutex, which only the callback takes. *)
Record sensor_latest_t := mk_latest {
  axis : sensor_data_3axis_t; scalar : sensor_data_1axis_t; l_is_3axis : bool; l_timestamp : Z
}.

Definition latest0 : sensor_latest_t :=
  mk_latest (mk_data3 (f_of_Z 0) (f_of_Z 0) (f_of_Z 0) 0) (mk_data1 (f_of_Z 0) 0) false 0.

(** [dev/services/sensor_service/sensor_service.h:28-44 sensor_service_ctx_t] the sensor's part of the
    context, with [g_latest]; [ticks]: how often the clocks were read. *)
Record sensor_settings := mk_sensor_settings {
  iio_device : string; s_rate : Z; s_sensor_type : Z; s_enable_buffer : Z; g_latest : sensor_latest_t; ticks : nat
}.

Section sensor_service.
Context {K D R : Type} `{HalDevice.Kernel K} `{Layers K} `{Uring R}.
Context (strtof : string -> double * bool * bool).
Context (mem : hal_mem) (profile : profile_env) (loop : loop_env D R).
(** The monotonic clock and [time] at the n-th reading. *)
Context (clocks : nat -> Z * Z).
Notation sensor_svc := (svc sensor_priv_t K sensor_settings D).
Notation SM := (M sensor_svc).
#[local] Instance sensor_driver : HalDriver sensor_priv_t sensor_req K := sensor_ops strtof.

(** [dev/services/sensor_service/sensor_service_hal.c:14-45 sensor_service_hal_init] *)
Definition sensor_service_hal_init (c : sensor_settings) : M K (Z * option (hw sensor_priv_t)) :=
  let s := sensor_hal_default_config (s_sensor_type c) in
  let s := mk_sensor_cfg (s_type s) (s_rate c) (s_scale s) (s_enable_buffer c) in
  d ← sensor_hal_create (Some "sensor_service"%string) (Some (iio_device c)) (Some s) (mem_device mem) (mem_lock mem)
        (mem_priv mem);
  match d with
  | None => mret (SVC_ERR_HAL, None)
  | Some d => open_or_destroy d
  end.

(** [dev/services/sensor_service/sensor_service_hal.c:47-62 sensor_service_hal_start] *)
Definition sensor_service_hal_start : SM Z := hal_start.

(** [dev/services/sensor_service/sensor_service_hal.c:64-81 sensor_service_hal_read_3axis] [now]: the
    monotonic clock; [data]: what is on the stack. *)
Definition sensor_service_hal_read_3axis (now : Z) (data out : sensor_data_3axis_t) : SM (Z * sensor_data_3axis_t) := fun a =>
  match hal_device a with
  | None => ((SVC_ERR_INVALID, out), a)
  | Some _ =>
      let '(rc, d, a) := on_device (0, None) (sensor_hal_read_3axis (Some data) now) a in
      (if negb (rc =? HAL_SUCCESS) then (SVC_ERR_HAL, out) else (SVC_OK, default data d), a)
  end.

(** [dev/services/sensor_service/sensor_service_hal.c:83-98 sensor_service_hal_read_scalar] *)
Definition sensor_service_hal_read_scalar (now : Z) (data : sensor_data_1axis_t) (value : double) (timestamp : option Z)
    : SM (Z * double * option Z) := fun a =>
  match hal_device a with
  | None => ((SVC_ERR_INVALID, value, timestamp), a)
  | Some _ =>
      let '(rc, d, a) := on_device (0, None) (sensor_hal_read_1axis (Some data) now) a in
      (if negb (rc =? HAL_SUCCESS) then (SVC_ERR_HAL, value, timestamp)
       else (SVC_OK, d_value (default data d), (fun _ => d1_time (default data d)) <$> timestamp), a)
  end.

(** [dev/services/sensor_service/sensor_service_hal.c:100-115 sensor_service_hal_stop] *)
Definition sensor_service_hal_stop : SM Z := hal_stop.

(** [dev/services/sensor_service/sensor_service_hal.c:117-131 sensor_service_hal_cleanup] *)
Definition sensor_service_hal_cleanup : SM unit := hal_cleanup.

Definition set_latest (l : sensor_latest_t) (c : sensor_settings) : sensor_settings :=
  mk_sensor_settings (iio_device c) (s_rate c) (s_sensor_type c) (s_enable_buffer c) l (S (ticks c)).

(** [dev/services/sensor_service/sensor_service_loop.c:100-130 on_hal_data] *)
Definition sensor_on_hal_data (result : Z) : SM Z := fun a =>
  if result <=? 0 then (if result <? 0 then -1 else 0, a)
  else
    match hal_device a with
    | None => (0, a)
    | Some _ =>
        let c := own a in
        let l := g_latest c in
        let '(now, wall) := clocks (ticks c) in
        if (1 <=? s_sensor_type c) && (s_sensor_type c <=? 3) then
          let '(_, d, a) := on_device (0, None) (sensor_hal_read_3axis (Some (axis l)) now) a in
          (0, with_own (set_latest (mk_latest (default (axis l) d) (scalar l) true wall) c) a)
        else
          let '(_, d, a) := on_device (0, None) (sensor_hal_read_1axis (Some (scalar l)) now) a in
          (0, with_own (set_latest (mk_latest (axis l) (default (scalar l) d) false wall) c) a)
    end.

(** [dev/services/sensor_service/sensor_service_loop.c:78-92 apply_config_reload] *)
Definition sensor_settings_reload (cfg : service_config_t) (c : sensor_settings) : sensor_settings :=
  let new_rate := service_config_get_uint32 cfg "hardware" "sampling_rate_hz" (s_rate c) in
  if negb (new_rate =? s_rate c) && (0 <? new_rate)
  then mk_sensor_settings (iio_device c) new_rate (s_sensor_type c) (s_enable_buffer c) (g_latest c) (ticks c)
  else c.

#[local] Instance sensor_service : Service sensor_priv_t K sensor_settings D :=
  {| on_hal_data := sensor_on_hal_data; settings := sensor_settings_reload |}.

(** [dev/services/sensor_service/sensor_service_loop.c:151-208 sensor_service_loop_run] the buffers of
    its loop come from no pool. *)
Definition sensor_service_loop_run (a : sensor_svc) (w : R) : (option Z * sensor_svc) * R :=
  run_loop loop "sensor_svc" None a w.

(** [dev/services/sensor_service/sensor_service_security.c:15-58 sensor_service_apply_security] *)
Definition sensor_service_apply_security (cfg : service_config_t) : M K Z := apply_profile profile "sensor" cfg.

(** [dev/services/sensor_service/sensor_service_main.c:51-58 REQUIRED_KEYS] *)
Definition sensor_required_keys : list (string * string) :=
  [ ("server", "socket_path"); ("server", "log_file"); ("hardware", "device_path"); ("hardware", "sensor_type");
    ("security", "verify_key_file") ]%string.

(** [dev/services/sensor_service/sensor_service_main.c:139-149 main, sensor_type] *)
Definition type_of (s : string) : option Z :=
  if strcaseeq s "accel" then Some 1 else if strcaseeq s "gyro" then Some 2 else if strcaseeq s "mag" then Some 3
  else None.

(** [dev/services/sensor_service/sensor_service_main.c:129-149 main, Step 2] *)
Definition sensor_populate (cfg : service_config_t) (c : sensor_settings) : option sensor_settings :=
  let text k d := default d (service_config_get_string cfg "hardware" k (Some d)) in
  t ← type_of (text "sensor_type" "accel")%string;
  Some (mk_sensor_settings (strncpy_z 63 (text "device_path" "iio:device0")%string)
          (service_config_get_uint32 cfg "hardware" "sampling_rate_hz" 100) t
          (service_config_get_bool cfg "hardware" "enable_buffer" 0) (g_latest c) (ticks c)).

Definition sizeof_sensor_reading_t : Z := 32.

(** [dev/services/sensor_service/sensor_service_main.c:90-282 main] what it adds to the common life. *)
#[local] Instance sensor_service_main : ServiceMain sensor_priv_t sensor_req K sensor_settings D R := {|
  sm_name := "sensor_service"; sm_prefix := "SENSOR_SERVICE"; sm_log := "/var/log/sensor_service.log";
  required_keys := sensor_required_keys;
  take_config := sensor_populate;
  apply_security := sensor_service_apply_security;
  hal_init := sensor_service_hal_init;
  frame_pool_config _ := Some (mk_config sizeof_sensor_reading_t 32 0 (Some "sensor_reading_pool"%string));
  ipc_pool_config := mk_config 512 64 0 (Some "sensor_ipc_pool"%string);
  loop_run _ := sensor_service_loop_run
|}.

(** ** What it does *)

#[local] Instance sensor_keeps_running : KeepsRunning (P:=sensor_priv_t) (K:=K) (E:=sensor_settings) (D:=D).
Proof.
  intros r a. unfold on_hal_data, sensor_service, sensor_on_hal_data, on_device. case_match; [done|].
  destruct (hal_device a) as [d|] eqn:Hd; [|done]. destruct (clocks _) as [now wall].
  case_match; [destruct (sensor_hal_read_3axis _ _ _) as [[??]?]|destruct (sensor_hal_read_1axis _ _ _) as [[??]?]];
    done.
Qed.

(** What the service promises of its sensor. *)
Lemma sensor_3axis_balanced `{Ledger K, !HalDevice.KernelLaws K} B d now :
  keeps (balanced sensor_owned B) (sensor_hal_read_3axis (Some d) now).
Proof. apply keeps_bind; [by apply sensor_read_balanced|intros r; apply keeps_ret]. Qed.
Lemma sensor_1axis_balanced `{Ledger K, !HalDevice.KernelLaws K} B d now :
  keeps (balanced sensor_owned B) (sensor_hal_read_1axis (Some d) now).
Proof. apply keeps_bind; [by apply sensor_read_balanced|intros r; apply keeps_ret]. Qed.

#[local] Instance sensor_service_laws `{Ledger K, !HalDevice.KernelLaws K} :
  ServiceLaws sensor_priv_t sensor_req K sensor_settings D R sensor_owned.
Proof.
  pose proof (sensor_laws (W:=K) strtof) as Hlaws. split; [exact Hlaws| |].
  - intros c k. unfold hal_init, sensor_service_main, sensor_service_hal_init. unfold mbind at 1, M_bind.
    pose proof (create_quiet "sensor_service" (iio_device c)
      (mk_sensor_cfg (s_type (sensor_hal_default_config (s_sensor_type c))) (s_rate c)
         (s_scale (sensor_hal_default_config (s_sensor_type c))) (s_enable_buffer c))
      (mem_device mem) (mem_lock mem) (mem_priv mem) k) as [Hq Hc].
    destruct (sensor_hal_create _ _ _ _ _ _ k) as [[d|] k1]; [|by split]. cbn [snd] in *. rewrite <- Hq.
    refine (open_or_destroy_ok sensor_owned _ _ _ _). rewrite Hq. by apply (Hc d).
  - intros B pool a r. apply run_loop_ok. clear a r. intros r a Ha. unfold on_hal_data, sensor_service, sensor_on_hal_data.
    destruct (r <=? 0); [done|]. destruct (hal_device a) eqn:Hd; [|done]. destruct (clocks _) as [now wall].
    destruct (_ && _);
      [pose proof (on_device_ok sensor_owned (0, None) _ B a (sensor_3axis_balanced B (axis (g_latest (own a))) now) Ha) as Hr
      |pose proof (on_device_ok sensor_owned (0, None) _ B a (sensor_1axis_balanced B (scalar (g_latest (own a))) now) Ha) as Hr];
      by destruct (on_device _ _ a) as [[??]?].
Qed.

(** The service accepts the three sensors with three axes only. *)
Lemma three_axes_only cfg c c' : sensor_populate cfg c = Some c' -> 1 <= s_sensor_type c' <= 3.
Proof.
  unfold sensor_populate, type_of. repeat case_match; intros Hc; simplify_option_eq; cbn; lia.
Qed.

(** A reading that fails is stored with the time of a fresh one: nothing in the store tells
    it from a reading that was taken. *)
Lemma failed_reading_looks_fresh r a d rc o s : 0 < r -> hal_device a = Some d -> 1 <= s_sensor_type (own a) <= 3 ->
  sensor_hal_read_3axis (Some (axis (g_latest (own a)))) (clocks (ticks (own a))).1 (mk_st d (kernel_of a)) = ((rc, o), s) ->
  let l := g_latest (own (sensor_on_hal_data r a).2) in
  l_is_3axis l = true /\ l_timestamp l = (clocks (ticks (own a))).2 /\ (sensor_on_hal_data r a).1 = 0.
Proof.
  intros Hr Hd Ht Hread. unfold sensor_on_hal_data. rewrite (proj2 (Z.leb_gt _ _) Hr), Hd.
  rewrite (proj2 (Z.leb_le 1 _)) by lia. rewrite (proj2 (Z.leb_le _ 3)) by lia. cbn [andb].
  destruct (clocks _) as [now wall]. unfold on_device. cbn [fst] in Hread. rewrite Hd, Hread. done.
Qed.

(** The layer never sets the descriptor of its device, so the loop never polls it: nothing
    is read in a running service. *)
Lemma sensor_open_fd (d : hw sensor_priv_t) (k : K) : h_fd (dev (sensor_open strtof (mk_st d k)).2) = h_fd d.
Proof.
  unfold sensor_open, with_priv. cbn [dev]. destruct (h_priv d) as [p|]; [|done].
  unfold mbind, M_bind, call. destruct (read_sysfs_float _ _ _) as [v k1]. cbn -[write_sysfs_text open_iio_buffer].
  destruct (write_sysfs_text _ _ _) as [? k2]. cbn -[open_iio_buffer].
  destruct (negb _); [|done]. by destruct (open_iio_buffer _ _ _).
Qed.

Lemma sensor_never_polled c k d k' : sensor_service_hal_init c k = (SVC_OK, Some d, k') -> h_fd d = -1.
Proof.
  unfold sensor_service_hal_init, sensor_hal_create, mbind, M_bind. destruct (validate_iio_device_id _ k) as [rc k1].
  cbn -[sensor_open]. destruct (negb (rc =? 0)); [done|]. destruct (_ || _); [done|].
  unfold open_or_destroy. cbn [drv_open sensor_driver sensor_ops].
  set (d0 := mk_hw _ _ _ _ _ _). pose proof (sensor_open_fd d0 k1) as Hfd.
  destruct (sensor_open strtof (mk_st d0 k1)) as [rc' s].
  destruct (negb (rc' =? 0)); [by destruct (hal_device_last_unref s)|]. intros [= <- <-]. exact Hfd.
Qed.
End sensor_service.
