(* ===== verification/DaemonConfig.v ===== *)
(** * Configuration of the daemons (lifecycle/sm_config.c, monitoring/daemon/monitord_config.c)

    The two INI readers that the service manager and the monitoring daemon have of their
    own.  A file is the text [fgets] reads from it; a file that cannot be opened is [None]. *)

From S2P Require Import Prelude CText Float64.

(** ** The service manager *)

(** [dev/core/service_manager/lifecycle/sm_config.h:16-57 sm_config_t] *)
Record sm_config_t := mk_smcfg {
  max_services : Z;
  max_restarts : Z;
  heartbeat_timeout : Z;
  message_timeout_sec : Z;
  rate_pid_capacity : Z;
  rate_pid_refill : double;
  rate_global_capacity : Z;
  rate_global_refill : double;
  log_file : string;
  log_level : Z;
  log_max_size_mb : Z;
  log_backup_count : Z;
  socket_path : string;
  socket_mode : Z;
  socket_backlog : Z;
  health_check_interval : Z;
  health_restart_delay : Z;
  management_port : Z;
  enable_management : Z;
  thread_pool_size : Z;
  work_queue_size : Z;
  enable_persistence : Z;
  persistence_file : string;
  verify_key_file : string
}.

Definition with_num (f : string) (v : Z) (c : sm_config_t) : sm_config_t :=
  mk_smcfg
    (if String.eqb f "max_services" then v else max_services c)
    (if String.eqb f "max_restarts" then v else max_restarts c)
    (if String.eqb f "heartbeat_timeout" then v else heartbeat_timeout c)
    (if String.eqb f "message_timeout_sec" then v else message_timeout_sec c)
    (if String.eqb f "rate_pid_capacity" then v else rate_pid_capacity c)
    (rate_pid_refill c)
    (if String.eqb f "rate_global_capacity" then v else rate_global_capacity c)
    (rate_global_refill c)
    (log_file c)
    (if String.eqb f "log_level" then v else log_level c)
    (if String.eqb f "log_max_size_mb" then v else log_max_size_mb c)
    (if String.eqb f "log_backup_count" then v else log_backup_count c)
    (socket_path c)
    (if String.eqb f "socket_mode" then v else socket_mode c)
    (if String.eqb f "socket_backlog" then v else socket_backlog c)
    (if String.eqb f "health_check_interval" then v else health_check_interval c)
    (if String.eqb f "health_restart_delay" then v else health_restart_delay c)
    (if String.eqb f "management_port" then v else management_port c)
    (if String.eqb f "enable_management" then v else enable_management c)
    (if String.eqb f "thread_pool_size" then v else thread_pool_size c)
    (if String.eqb f "work_queue_size" then v else work_queue_size c)
    (if String.eqb f "enable_persistence" then v else enable_persistence c)
    (persistence_file c)
    (verify_key_file c).

Definition with_text (f : string) (v : string) (c : sm_config_t) : sm_config_t :=
  mk_smcfg
    (max_services c)
    (max_restarts c)
    (heartbeat_timeout c)
    (message_timeout_sec c)
    (rate_pid_capacity c)
    (rate_pid_refill c)
    (rate_global_capacity c)
    (rate_global_refill c)
    (if String.eqb f "log_file" then v else log_file c)
    (log_level c)
    (log_max_size_mb c)
    (log_backup_count c)
    (if String.eqb f "socket_path" then v else socket_path c)
    (socket_mode c)
    (socket_backlog c)
    (health_check_interval c)
    (health_restart_delay c)
    (management_port c)
    (enable_management c)
    (thread_pool_size c)
    (work_queue_size c)
    (enable_persistence c)
    (if String.eqb f "persistence_file" then v else persistence_file c)
    (if String.eqb f "verify_key_file" then v else verify_key_file c).

(** [dev/core/service_manager/lifecycle/sm_config.c:19-59 sm_config_default] *)
Definition sm_config_default : sm_config_t :=
  mk_smcfg 32 3 10 5 10 (d_of_Z 10) 50 (d_of_Z 50)
    "/var/log/middleware/servicemanager.log" 1 10 5
    "/run/middleware/servicemanager.sock" 432 32 3 2 9999 0 4 64 1
    "/var/lib/middleware/registry.dat" "".

(** [dev/core/service_manager/lifecycle/sm_config.c:63-71 parse_octal_or_decimal] *)
Definition parse_octal_or_decimal (v : string) : Z :=
  match v with
  | String "0" (String c _) =>
      if (48 <=? byte_of c) && (byte_of c <=? 55) then i32 (default 0 (strtol 8 v)) else atoi v
  | _ => atoi v
  end.

(** The settings a file can make: section, key, and what is done with the value. *)
Inductive setting := Num (f : string) | Octal (f : string) | Text (f : string).

(** [dev/core/service_manager/lifecycle/sm_config.c:119-158 sm_config_load, settings] *)
Definition sm_setting (sec k : string) : option setting :=
  if String.eqb sec "limits" then
    if String.eqb k "max_services" then Some (Num "max_services")
    else if String.eqb k "max_restarts" then Some (Num "max_restarts")
    else if String.eqb k "heartbeat_timeout" then Some (Num "heartbeat_timeout") else None
  else if String.eqb sec "logging" then
    if String.eqb k "level" then Some (Num "log_level")
    else if String.eqb k "max_size_mb" then Some (Num "log_max_size_mb")
    else if String.eqb k "file" then Some (Text "log_file") else None
  else if String.eqb sec "socket" then
    if String.eqb k "path" then Some (Text "socket_path")
    else if String.eqb k "mode" then Some (Octal "socket_mode") else None
  else if String.eqb sec "rate_limit" then
    if String.eqb k "pid_capacity" then Some (Num "rate_pid_capacity")
    else if String.eqb k "global_capacity" then Some (Num "rate_global_capacity") else None
  else if String.eqb sec "management" then
    if String.eqb k "enable" then Some (Num "enable_management")
    else if String.eqb k "port" then Some (Num "management_port") else None
  else if String.eqb sec "threadpool" then
    if String.eqb k "size" then Some (Num "thread_pool_size")
    else if String.eqb k "queue_size" then Some (Num "work_queue_size") else None
  else if String.eqb sec "security" then
    if String.eqb k "verify_key_file" then Some (Text "verify_key_file") else None
  else None.

Definition apply_setting (s : setting) (v : string) (c : sm_config_t) : sm_config_t :=
  match s with
  | Num f => with_num f (atoi v) c
  | Octal f => with_num f (parse_octal_or_decimal v) c
  | Text f => with_text f (strncpy_z 255 v) c
  end.

(** All but the last character. *)
Fixpoint chop_last (s : string) : string :=
  match s with
  | EmptyString | String _ EmptyString => EmptyString
  | String c s' => String c (chop_last s')
  end.

Fixpoint last_char (s : string) : option ascii :=
  match s with
  | EmptyString => None
  | String c EmptyString => Some c
  | String _ s' => last_char s'
  end.

(** [dev/core/service_manager/lifecycle/sm_config.c:99-159 sm_config_load, one line] the
    current section and the configuration. *)
Definition sm_line (st : string * sm_config_t) (line : string) : string * sm_config_t :=
  let '(sec, c) := st in
  let p := trim line in
  match p with
  | EmptyString => st
  | String a rest =>
      if Ascii.eqb a ";" || Ascii.eqb a "#" then st
      else if Ascii.eqb a "[" && match last_char p with Some b => Ascii.eqb b "]" | None => false end
      then (chop_last (strncpy_z 62 rest), c)
      else match cut "=" p with
           | None => st
           | Some (k, v) => match sm_setting sec (trim k) with
                            | Some s => (sec, apply_setting s (trim v) c)
                            | None => st
                            end
           end
  end.

(** [dev/core/service_manager/lifecycle/sm_config.c:228-242 sm_config_validate] *)
Definition sm_config_validate (cfg : option sm_config_t) : Z :=
  match cfg with
  | None => -1
  | Some c =>
      if (max_services c <? 1) || (1024 <? max_services c) then -1
      else if max_restarts c <? 0 then -1
      else if heartbeat_timeout c <? 1 then -1
      else if (thread_pool_size c <? 1) || (64 <? thread_pool_size c) then -1
      else if (work_queue_size c <? 4) || (4096 <? work_queue_size c) then -1
      else 0
  end.

(** [dev/core/service_manager/lifecycle/sm_config.c:16-17 g_config] and [g_config_loaded]. *)
Record config_state := mk_cst { g_config : sm_config_t; g_config_loaded : bool }.

(** What the file says, applied to the defaults. *)
Definition sm_parse (text : string) : sm_config_t :=
  (fold_left sm_line (fgets_lines 512 text) (EmptyString, sm_config_default)).2.

(** [dev/core/service_manager/lifecycle/sm_config.c:82-171 sm_config_load] *)
Definition sm_config_load (file : string -> option string) (filename : option string)
    (s : config_state) : Z * config_state :=
  match file (default "/etc/servicemanager.conf"%string filename) with
  | None => (0, mk_cst sm_config_default true)
  | Some text =>
      let c := sm_parse text in
      if sm_config_validate (Some c) <? 0 then (-1, mk_cst c (g_config_loaded s))
      else (0, mk_cst c true)
  end.

(** [dev/core/service_manager/lifecycle/sm_config.c:173-179 sm_config_get] *)
Definition sm_config_get (s : config_state) : sm_config_t * config_state :=
  let s := if g_config_loaded s then s else mk_cst sm_config_default true in (g_config s, s).

(** [dev/core/service_manager/lifecycle/sm_config.c:181-195 sm_config_set_int] *)
Definition sm_config_set_int (k : option string) (v : Z) (s : config_state) : Z * config_state :=
  match k with
  | None => (-1, s)
  | Some k =>
      if existsb (String.eqb k) ["max_services"; "max_restarts"; "heartbeat_timeout"]%string
      then (0, mk_cst (with_num k v (g_config s)) (g_config_loaded s)) else (-1, s)
  end.

(** [dev/core/service_manager/lifecycle/sm_config.c:197-226 sm_config_set_string] *)
Definition sm_config_set_string (sec k v : option string) (s : config_state) : Z * config_state :=
  match sec, k, v with
  | Some sec, Some k, Some v =>
      let set f := (0, mk_cst (with_text f (strncpy_z 255 v) (g_config s)) (g_config_loaded s)) in
      if String.eqb sec "logging" then if String.eqb k "file" then set "log_file"%string else (-1, s)
      else if String.eqb sec "socket" then if String.eqb k "path" then set "socket_path"%string else (-1, s)
      else if String.eqb sec "persistence" then
        if String.eqb k "file" then set "persistence_file"%string else (-1, s)
      else (-1, s)
  | _, _, _ => (-1, s)
  end.

(** ** The monitoring daemon *)

(** [dev/monitoring/daemon/monitord_config.h:29-46 monitord_config_t] *)
Record monitord_config_t := mk_mcfg {
  refresh_interval_ms : Z; snapshot_interval_ms : Z; unix_socket_path : string; http_port : Z;
  http_bind_addr : string; m_log_level : string; log_path : string; alert_log_path : string;
  webhook_url : string
}.

(** [dev/monitoring/daemon/monitord_config.c:13-31 set_defaults] *)
Definition set_defaults : monitord_config_t :=
  mk_mcfg 1000 1000 "/tmp/middleware_monitor.sock" 9090 "0.0.0.0" "INFO" "/tmp/monitord.log"
    "/tmp/monitord_alerts.log" "".

(** [dev/monitoring/daemon/monitord_config.c:39-67 monitord_config_load, the search] the first
    path that opens, with its text. *)
Definition find_config (file : string -> option string) (home : option string) (path : option string)
    : option (string * string) :=
  let try p := (fun text => (p, text)) <$> file p in
  match path with
  | None => None
  | Some p =>
      match try p with
      | Some r => Some r
      | None =>
          match try "/etc/middleware/monitord.ini"%string with
          | Some r => Some r
          | None => match home with
                    | Some h => try (strncpy_z 511 (h ++ "/.config/monitord.ini"))
                    | None => None
                    end
          end
      end
  end.

Definition is_blank (c : ascii) : bool := Ascii.eqb c " " || Ascii.eqb c "009".
Definition is_line_end (c : ascii) : bool := Ascii.eqb c "010" || Ascii.eqb c "013" || Ascii.eqb c " ".

(** Trailing characters go, the first one stays. *)
Definition rtrim_value (v : string) : string :=
  match v with EmptyString => EmptyString | String c v' => String c (rtrim is_line_end v') end.

(** [dev/monitoring/daemon/monitord_config.c:77-109 monitord_config_load, one line] *)
Definition monitord_line (c : monitord_config_t) (line : string) : monitord_config_t :=
  match line with
  | String a _ =>
      if Ascii.eqb a "#" || Ascii.eqb a ";" || Ascii.eqb a "010" then c
      else
        match cut "=" line with
        | None => c
        | Some (k, v) =>
            let k := ltrim is_blank k in
            let v := rtrim_value (ltrim is_blank v) in
            if String.eqb k "refresh_interval_ms" then
              mk_mcfg (u32 (atoi v)) (snapshot_interval_ms c) (unix_socket_path c) (http_port c) (http_bind_addr c)
                (m_log_level c) (log_path c) (alert_log_path c) (webhook_url c)
            else if String.eqb k "http_port" then
              mk_mcfg (refresh_interval_ms c) (snapshot_interval_ms c) (unix_socket_path c) (u16 (atoi v)) (http_bind_addr c)
                (m_log_level c) (log_path c) (alert_log_path c) (webhook_url c)
            else if String.eqb k "unix_socket_path" then
              mk_mcfg (refresh_interval_ms c) (snapshot_interval_ms c) (strncpy_z 255 v) (http_port c) (http_bind_addr c)
                (m_log_level c) (log_path c) (alert_log_path c) (webhook_url c)
            else if String.eqb k "webhook_url" then
              mk_mcfg (refresh_interval_ms c) (snapshot_interval_ms c) (unix_socket_path c) (http_port c) (http_bind_addr c)
                (m_log_level c) (log_path c) (alert_log_path c) (strncpy_z 511 v)
            else c
        end
  | EmptyString => c
  end.

(** [dev/monitoring/daemon/monitord_config.c:33-113 monitord_config_load] [g]: the path
    remembered; the result, the configuration and the path. *)
Definition monitord_config_load (file : string -> option string) (home : option string)
    (path : option string) (g : string) : Z * monitord_config_t * string :=
  match find_config file home path with
  | None => (0, set_defaults, g)
  | Some (p, text) => (0, fold_left monitord_line (fgets_lines 512 text) set_defaults, strncpy_z 511 p)
  end.

(** [dev/monitoring/daemon/monitord_config.c:115-121 monitord_config_reload] *)
Definition monitord_config_reload (file : string -> option string) (home : option string)
    (config : monitord_config_t) (g : string) : Z * monitord_config_t * string :=
  match g with
  | EmptyString => (-1, config, g)
  | _ => monitord_config_load file home (Some g) g
  end.

(** ** The configuration in use *)

Definition loads (fs : list ((string -> option string) * option string)) (s : config_state) : config_state :=
  fold_left (fun s f => (sm_config_load f.1 f.2 s).2) fs s.

Definition fresh_config (c : sm_config_t) : config_state := mk_cst c false.

Lemma default_valid : sm_config_validate (Some sm_config_default) = 0.
Proof. reflexivity. Qed.

Lemma validate_cases c : sm_config_validate c = 0 \/ sm_config_validate c = -1.
Proof. unfold sm_config_validate. repeat (case_match; try (by left); try (by right)). Qed.

(** The bounds that a valid configuration keeps. *)
Lemma validate_iff c : sm_config_validate (Some c) = 0 <->
  1 <= max_services c <= 1024 /\ 0 <= max_restarts c /\ 1 <= heartbeat_timeout c /\
  1 <= thread_pool_size c <= 64 /\ 4 <= work_queue_size c <= 4096.
Proof.
  unfold sm_config_validate. split.
  - intros Hv. repeat (case_match; [done|]).
    repeat match goal with H : (_ || _) = false |- _ => apply orb_false_iff in H as [? ?] end. lia.
  - intros (H1 & H2 & H3 & H4 & H5).
    repeat (match goal with |- context [if ?b then _ else _] => destruct b eqn:?; [lia|] end). done.
Qed.

(** Once something was loaded, something stays loaded. *)
Lemma load_loaded file nm s :
  g_config_loaded (sm_config_load file nm s).2 =
    g_config_loaded s || ((sm_config_load file nm s).1 =? 0).
Proof.
  unfold sm_config_load. destruct (file _); [|by rewrite orb_true_r].
  destruct (validate_cases (Some (sm_parse s0))) as [->| ->]; cbn; [by rewrite orb_true_r|by rewrite orb_false_r].
Qed.

(** However often the daemon loads its configuration, after the last load it runs with: if
    that succeeded, what the file says, or the defaults where there is none, and every value is in
    its range; if it failed and no load ever succeeded, the defaults; but if it
    failed after a successful one, the refused configuration, a value out of range included. *)
Theorem configuration_in_use c0 pre file nm :
  let s := loads pre (fresh_config c0) in
  let said := match file (default "/etc/servicemanager.conf"%string nm) with
              | Some text => sm_parse text | None => sm_config_default end in
  let used := (sm_config_get (sm_config_load file nm s).2).1 in
  let rc := (sm_config_load file nm s).1 in
  (rc = 0 -> used = said /\ sm_config_validate (Some used) = 0) /\
  (rc <> 0 -> rc = -1 /\
     if existsb (fun i => (sm_config_load (pre !!! i).1 (pre !!! i).2 (loads (take i pre) (fresh_config c0))).1 =? 0)
          (seq 0 (length pre))
     then used = said /\ sm_config_validate (Some used) = -1
     else used = sm_config_default).
Proof.
  cbv zeta. set (s := loads pre (fresh_config c0)).
  assert (Hld : g_config_loaded s =
    existsb (fun i => (sm_config_load (pre !!! i).1 (pre !!! i).2 (loads (take i pre) (fresh_config c0))).1 =? 0)
      (seq 0 (length pre))).
  { unfold s. clear. induction pre as [|f pre IH] using rev_ind; [done|].
    unfold loads in *. rewrite fold_left_app. cbn [fold_left]. rewrite load_loaded, IH.
    rewrite length_app, Nat.add_comm. cbn [length Nat.add]. rewrite seq_S, existsb_app. cbn [existsb Nat.add].
    rewrite orb_false_r. f_equal.
    - apply existsb_ext_in. intros i Hi. apply elem_of_seq in Hi.
      by rewrite take_app_le, lookup_total_app_l by lia.
    - rewrite lookup_total_app_r, Nat.sub_diag, take_app_length by lia. done. }
  rewrite <- Hld. clear Hld. unfold sm_config_load, sm_config_get.
  destruct (file _) as [text|]; cbn [fst snd g_config g_config_loaded]; [|done].
  destruct (validate_cases (Some (sm_parse text))) as [Hv|Hv]; rewrite Hv; cbn [Z.ltb Z.compare fst snd g_config_loaded]; [done|].
  split; [done|]. intros _. split; [done|]. by destruct (g_config_loaded s).
Qed.

(** ** A printed configuration is read back *)

Inductive ini := Header (s : string) | Entry (k v : string).

Definition render (i : ini) : string :=
  match i with Header s => ("[" ++ s ++ "]")%string | Entry k v => (k ++ "=" ++ v)%string end.

Definition ini_text (l : list ini) : string :=
  String.concat "" ((fun i => render i ++ line_end)%string <$> l).

(** What a line does to the configuration. *)
Definition interp (st : string * sm_config_t) (i : ini) : string * sm_config_t :=
  match i with
  | Header s => (s, st.2)
  | Entry k v => match sm_setting st.1 k with
                 | Some s => (st.1, apply_setting s v st.2)
                 | None => st
                 end
  end.

Definition word_char (c : ascii) : Prop :=
  isspace c = false /\ c <> "="%char /\ c <> ";"%char /\ c <> "#"%char /\ c <> "["%char /\ c <> newline.

Definition word (s : string) : Prop := s <> EmptyString /\ all word_char s /\ (String.length s <= 62)%nat.

Definition text_ok (v : string) : Prop :=
  trimmed v /\ all (fun c => c <> newline) v /\ (String.length v <= 255)%nat.

Definition ini_ok (i : ini) : Prop := match i with Header s => word s | Entry k v => word k /\ text_ok v end.

Lemma word_trimmed s : all word_char s -> trimmed s.
Proof. intros Hs. apply nonspace_trimmed. eapply all_impl; [exact Hs|]. by intros c []. Qed.

Lemma last_char_app s c : last_char (s ++ String c "") = Some c.
Proof.
  induction s as [|a s IH]; [done|]. rewrite append_cons. cbn. rewrite IH.
  by destruct (s ++ String c "")%string eqn:He; [destruct s|].
Qed.

Lemma chop_last_app s c : chop_last (s ++ String c "") = s.
Proof.
  induction s as [|a s IH]; [done|]. rewrite append_cons. cbn. rewrite IH.
  by destruct (s ++ String c "")%string eqn:He; [destruct s|].
Qed.

Lemma header_line s st : word s -> (String.length s <= 61)%nat -> sm_line st (render (Header s) ++ line_end) = (s, st.2).
Proof.
  intros (Hne & Hw & _) Hl. destruct st as [sec c]. cbn [render]. unfold sm_line.
  assert (Ht : trim (("[" ++ s ++ "]") ++ line_end) = ("[" ++ s ++ "]")%string).
  { apply (trim_around "" ("[" ++ s ++ "]") line_end); [|constructor|by repeat constructor|done].
    apply trimmed_app; try done; apply nonspace_trimmed; by repeat constructor. }
  rewrite Ht. change ("[" ++ s ++ "]")%string with (String "[" (s ++ "]")). cbn [Ascii.eqb Bool.eqb orb].
  change (String "[" (s ++ "]")) with (String "[" s ++ String "]" "")%string. rewrite last_char_app. cbn [Ascii.eqb Bool.eqb andb].
  rewrite strncpy_z_short by (rewrite string_length_app; cbn; lia). by rewrite (chop_last_app s "]").
Qed.

Lemma entry_line k v st : word k -> text_ok v ->
  sm_line st (render (Entry k v) ++ line_end) = interp st (Entry k v).
Proof.
  intros (Hne & Hw & _) (Htv & Hnl & _). destruct st as [sec c]. cbn [render interp fst snd]. unfold sm_line.
  pose proof (word_trimmed k Hw) as Htk. change (k ++ "=" ++ v)%string with (k ++ String "=" v)%string.
  rewrite trim_setting by done.
  assert (Hcut : cut "=" (k ++ String "=" v) = Some (k, v))
    by (apply cut_app; eapply all_impl; [exact Hw|]; unfold word_char; tauto).
  rewrite Hcut. destruct k as [|a k]; [done|]. rewrite append_cons.
  pose proof Hw as Hw'. apply all_cons in Hw' as [(_ & _ & H1 & H2 & H3 & _) _].
  rewrite (proj2 (Ascii.eqb_neq a ";")), (proj2 (Ascii.eqb_neq a "#")), (proj2 (Ascii.eqb_neq a "[")) by done.
  cbn [orb andb]. destruct Htk as [-> _]. destruct Htv as [-> _]. reflexivity.
Qed.

(** Every setting a file can make, in the order of the reader. *)
Definition sm_script (c : sm_config_t) : list ini :=
  [Header "limits"; Entry "max_services" (decimal (max_services c));
   Entry "max_restarts" (decimal (max_restarts c)); Entry "heartbeat_timeout" (decimal (heartbeat_timeout c));
   Header "logging"; Entry "level" (decimal (log_level c)); Entry "max_size_mb" (decimal (log_max_size_mb c));
   Entry "file" (log_file c);
   Header "socket"; Entry "path" (socket_path c); Entry "mode" (decimal (socket_mode c));
   Header "rate_limit"; Entry "pid_capacity" (decimal (rate_pid_capacity c));
   Entry "global_capacity" (decimal (rate_global_capacity c));
   Header "management"; Entry "enable" (decimal (enable_management c)); Entry "port" (decimal (management_port c));
   Header "threadpool"; Entry "size" (decimal (thread_pool_size c)); Entry "queue_size" (decimal (work_queue_size c));
   Header "security"; Entry "verify_key_file" (verify_key_file c)].

Definition sm_print (c : sm_config_t) : string := ini_text (sm_script c).

Definition int32 (z : Z) : Prop := - 2 ^ 31 <= z < 2 ^ 31.

(** The settings have values that their types hold; the rest has its defaults. *)
Definition printable (c : sm_config_t) : Prop :=
  Forall int32 [max_services c; max_restarts c; heartbeat_timeout c; log_level c; log_max_size_mb c;
    socket_mode c; rate_pid_capacity c; rate_global_capacity c; enable_management c; management_port c;
    thread_pool_size c; work_queue_size c] /\
  Forall text_ok [log_file c; socket_path c; verify_key_file c] /\
  let d := sm_config_default in
  message_timeout_sec c = message_timeout_sec d /\ rate_pid_refill c = rate_pid_refill d /\
  rate_global_refill c = rate_global_refill d /\ log_backup_count c = log_backup_count d /\
  socket_backlog c = socket_backlog d /\ health_check_interval c = health_check_interval d /\
  health_restart_delay c = health_restart_delay d /\ enable_persistence c = enable_persistence d /\
  persistence_file c = persistence_file d.

Lemma decimal_text z : int32 z -> text_ok (decimal z).
Proof.
  intros Hz. unfold int32 in Hz. destruct (decimal_plain z) as (Ha & _ & Hl); [lia|]. split_and!.
  - apply nonspace_trimmed. eapply all_impl; [exact Ha|]. apply num_char_nonspace.
  - eapply all_impl; [exact Ha|]. intros c Hc ->. by apply num_char_nonspace in Hc.
  - lia.
Qed.

(** Decimals do not begin with a zero and another digit. *)
Lemma octal_decimal z : int32 z -> parse_octal_or_decimal (decimal z) = z.
Proof.
  intros Hz. unfold int32 in Hz. rewrite <- (atoi_decimal z Hz) at 2. unfold decimal.
  destruct (Z.ltb_spec z 0); [done|].
  assert (Hf : forall fuel n acc, 0 < n < 10 ^ Z.of_nat fuel -> exists c t,
    decimal_from fuel n acc = String c t /\ 49 <= byte_of c <= 57).
  { induction fuel as [|f IH]; intros n acc Hn; [change (10 ^ Z.of_nat 0) with 1 in Hn; lia|]. cbn [decimal_from].
    destruct (Z.ltb_spec n 10).
    - do 2 eexists. split; [done|]. rewrite byte_digit, Z.mod_small by (rewrite ?Z.mod_small; lia). lia.
    - apply IH. rewrite Nat2Z.inj_succ, Z.pow_succ_r in Hn by lia.
      split; [apply Z.div_str_pos; lia|apply Z.div_lt_upper_bound; lia]. }
  destruct (Z.eq_dec z 0) as [->|Hnz]; [reflexivity|].
  destruct (Hf 20%nat z ""%string) as (c & t & Hd & Hc); [change (Z.of_nat 20) with 20; lia|].
  rewrite Hd. unfold parse_octal_or_decimal. destruct (ascii_dec c "0") as [->|Hne]; [exfalso; change (byte_of "0") with 48 in Hc; lia|].
  destruct c as [[] [] [] [] [] [] [] []]; try done.
Qed.

Lemma word_check s : negb (String.eqb s "") && Nat.leb (String.length s) 62 &&
  forallb (fun c => bool_decide (isspace c = false /\ c ∉ ["="; ";"; "#"; "["; newline]%char)) (list_ascii_of_string s) = true ->
  word s.
Proof.
  intros [[H1 H2%Nat.leb_le]%andb_true_iff H3]%andb_true_iff. split_and!; [|clear H1 H2|done].
  - intros ->. done.
  - unfold all. apply Forall_forall. intros c Hc. rewrite forallb_forall in H3.
    apply list_elem_of_In, H3, bool_decide_eq_true in Hc as [Hs Hn]. rewrite !not_elem_of_cons in Hn. unfold word_char. tauto.
Qed.

Lemma script_ok c : printable c -> Forall ini_ok (sm_script c).
Proof.
  intros (Hn & Ht & _). rewrite !Forall_cons in Hn. rewrite !Forall_cons in Ht. destruct_and!.
  unfold sm_script. repeat apply Forall_cons_2; try apply Forall_nil_2;
    match goal with
    | |- ini_ok (Header _) => apply word_check; vm_compute; reflexivity
    | |- ini_ok (Entry _ (decimal _)) => split; [apply word_check; vm_compute; reflexivity|apply decimal_text; assumption]
    | |- ini_ok (Entry _ _) => split; [apply word_check; vm_compute; reflexivity|assumption]
    end.
Qed.

Lemma script_lines c : printable c -> forall st,
  fold_left sm_line (fgets_lines 512 (sm_print c)) st = fold_left interp (sm_script c) st.
Proof.
  intros Hp. pose proof (script_ok c Hp) as Hok. unfold sm_print, ini_text.
  change ((fun i => (render i ++ line_end)%string) <$> sm_script c)
    with (((fun l => (l ++ line_end)%string) ∘ render) <$> sm_script c).
  rewrite list_fmap_compose, fgets_all.
  - rewrite <- list_fmap_compose. assert (Hs : Forall (fun i => match i with Header s => (String.length s <= 61)%nat | _ => True end) (sm_script c))
      by (repeat constructor).
    revert Hok Hs. generalize (sm_script c). intros l Hok Hs. induction l as [|i l IH]; intros st; [done|].
    apply Forall_cons in Hok as [Hi Hok], Hs as [Hs1 Hs]. cbn [fmap list_fmap fold_left compose].
    destruct i as [s|k v]; [rewrite header_line by done|rewrite entry_line by apply Hi]; by apply IH.
  - apply Forall_fmap. eapply Forall_impl; [exact Hok|]. intros i Hi. cbn [compose].
    destruct i as [s|k v]; cbn [render].
    + destruct Hi as (_ & Hw & Hl). split; [|rewrite !string_length_app; cbn; lia].
      apply all_app. split; [by repeat constructor|]. apply all_app. split; [|by repeat constructor].
      eapply all_impl; [exact Hw|]. unfold word_char. tauto.
    + destruct Hi as [(_ & Hw & Hl) (_ & Hnl & Hlv)]. split; [|rewrite !string_length_app; cbn; lia].
      apply all_app. split; [eapply all_impl; [exact Hw|]; unfold word_char; tauto|].
      apply all_app. split; [by repeat constructor|done].
Qed.

(** A configuration written with all its settings is read back exactly, and loading the
    file succeeds exactly if the values are in their ranges. *)
Theorem config_print_load c file nm s : printable c ->
  file (default "/etc/servicemanager.conf"%string nm) = Some (sm_print c) ->
  sm_config_load file nm s =
    if sm_config_validate (Some c) =? 0 then (0, mk_cst c true) else (-1, mk_cst c (g_config_loaded s)).
Proof.
  intros Hp Hf. assert (Hc : sm_parse (sm_print c) = c).
  { unfold sm_parse. rewrite script_lines by done. destruct Hp as (Hn & Ht & Hd). cbv zeta in Hd.
    rewrite !Forall_cons in Hn. rewrite !Forall_cons in Ht. destruct_and!.
    cbn -[atoi decimal parse_octal_or_decimal strncpy_z d_of_Z sm_config_default].
    rewrite !atoi_decimal, octal_decimal by assumption.
    repeat match goal with H : text_ok ?t |- _ => destruct H as (_ & _ & H) end.
    rewrite !strncpy_z_short by assumption.
    lazy beta iota zeta delta -[sm_config_default].
    destruct c. repeat match goal with H : _ = _ sm_config_default |- _ =>
      lazy beta iota zeta delta -[sm_config_default] in H; rewrite <- H; clear H end. reflexivity. }
  unfold sm_config_load. rewrite Hf, Hc. by destruct (validate_cases (Some c)) as [-> | ->].
Qed.

(** ** The monitor's configuration *)

(** Settings written as the header shows them, with a space before the equals sign, are not
    recognised: such a file has no effect. *)
Lemma spaced_settings_ignored file home p g text : file p = Some text ->
  Forall (fun l => match cut "=" l with Some (k, _) => last_char k = Some " "%char | None => True end)
    (fgets_lines 512 text) ->
  monitord_config_load file home (Some p) g = (0, set_defaults, strncpy_z 511 p).
Proof.
  intros Hf Hl. unfold monitord_config_load. cbn [find_config]. rewrite Hf. cbn [fmap option_fmap option_map].
  assert (Hgo : forall c, fold_left monitord_line (fgets_lines 512 text) c = c); [|by rewrite Hgo].
  induction Hl as [|l ls Hl _ IH]; intros c; [done|]. cbn [fold_left].
  assert (Hc : monitord_line c l = c); [|by rewrite Hc].
  unfold monitord_line. destruct l as [|a l]; [done|]. destruct (_ || _); [done|].
  destruct (cut "=" (String a l)) as [[k v]|]; [|done].
  assert (Hlast : forall k, last_char k = Some " "%char -> ltrim is_blank k = EmptyString \/ last_char (ltrim is_blank k) = Some " "%char).
  { clear. induction k as [|c k IH]; [done|]. intros Hk. cbn [ltrim]. destruct (is_blank c); [|by right].
    destruct k as [|d k]; [by left|]. apply IH. exact Hk. }
  destruct (Hlast k Hl) as [-> | Hk]; [done|].
  repeat (match goal with |- context [String.eqb ?x ?y] => destruct (String.eqb_spec x y) as [Heq|_]; [rewrite Heq in Hk; done|] end).
  done.
Qed.

(** Without a path no file is looked for. *)
Lemma no_path_no_file file home g : monitord_config_load file home None g = (0, set_defaults, g).
Proof. reflexivity. Qed.

(** A reload whose file is gone replaces the configuration by the defaults, with result 0. *)
Lemma lost_file_defaults config c0 g0 :
  monitord_config_reload (fun _ => None) None config (String c0 g0) = (0, set_defaults, String c0 g0).
Proof. reflexivity. Qed.

(** ** On concrete inputs *)

Definition broken_file (nm : string) : option string :=
  Some ("[threadpool]" ++ line_end ++ "size = 100" ++ line_end)%string.
Definition no_file (nm : string) : option string := None.

Lemma configuration_in_use_witness :
  let s := loads [(no_file, None)] (fresh_config sm_config_default) in
  let c := (sm_config_get (sm_config_load broken_file None s).2).1 in
  thread_pool_size c = 100 /\ sm_config_validate (Some c) = -1.
Proof.
  cbv zeta. destruct (configuration_in_use sm_config_default [(no_file, None)] broken_file None) as [_ H].
  cbv zeta in H. destruct H as [_ H]; [vm_compute; discriminate|].
  match type of H with (if ?b then _ else _) => assert (Hb : b = true) by (vm_compute; reflexivity); rewrite Hb in H end.
  destruct H as [He Hv]. split; [|exact Hv]. rewrite He. vm_compute. reflexivity.
Defined.

Definition sample_config : sm_config_t :=
  with_text "verify_key_file" "/etc/sm.key" (with_num "thread_pool_size" 8 sm_config_default).

Lemma config_print_load_witness :
  sm_config_load (fun _ => Some (sm_print sample_config)) None (fresh_config sm_config_default) =
    (0, mk_cst sample_config true).
Proof.
  rewrite (config_print_load sample_config (fun _ => Some (sm_print sample_config)) None _).
  - reflexivity.
  - split; [|split].
    + repeat (apply Forall_cons_2; [vm_compute; split; [discriminate|reflexivity]|]). constructor.
    + repeat (apply Forall_cons_2; [split; [split; reflexivity|split; [|vm_compute; lia]];
        apply (bool_decide_unpack _); vm_compute; exact I|]). constructor.
    + cbv zeta. repeat split.
  - reflexivity.
Defined.
