(* ===== verification/Daemon.v ===== *)
(** * The daemon's main function (lifecycle/sm_main.c, enterprise/sm_main_integration.c)

    [sm_run]: the start in its fixed order, the main loop, the clean-up, over the
    components that have state here: configuration, registry with its file, work queue.
    What other initialisations answer, and the events of epoll, are arguments. *)

From S2P Require Import Prelude Queue WorkerPool WorkQueue Registry Persistence Health CText DaemonConfig.

(** ** The enterprise features *)

(** [dev/core/service_manager/enterprise/sm_main_integration.c:29-40 feature_state_t] one flag
    for each of the ten features, in the order of the structure. *)
Definition feature_state : Type := list bool.
Definition no_features : feature_state := replicate 10 false.

(** [dev/core/service_manager/enterprise/sm_main_integration.c:44-171 sm_main_init_all_features] [ok i]: the i-th initialisation succeeds; the last, the command
    line, has none. *)
Definition sm_main_init_all_features (ok : nat -> bool) (f : feature_state) : Z * feature_state :=
  let works i := ok i || Nat.eqb i 9 in
  let failures := length (List.filter (fun i => negb (works i)) (seq 0 10)) in
  (if Nat.leb failures 3 then 0 else -1,
   imap (fun i b => b || works i) f).

(** [dev/core/service_manager/enterprise/sm_main_integration.c:173-268 sm_main_cleanup_all_features] the features whose clean-up is called, in order. *)
Definition sm_main_cleanup_all_features (f : feature_state) : list nat * feature_state :=
  (List.filter (fun i => nth i f false) (seq 0 10), no_features).

(** ** Starting *)

Inductive action :=
| LoggingInit
| SetResourceLimits | LoadConfig | CryptoInit | DropPrivileges | SetupSignals | RegistryInit
| RateLimitInit | MetricsInit | AuditInit | ClearTables | LoadRegistry | SocketSetup
| ThreadPoolInit | InitFeatures | SetupSeccomp | StartManagement | EpollCreate | SignalFdCreate
| AddServerFd | AddSignalFd.
#[export] Instance action_dec : EqDecision action.
Proof. solve_decision. Defined.

(** What the system and the parts without state here answer. *)
Record start_env := mk_start {
  succeeds : action -> bool;
  config_file : option string;          (** [--config] *)
  files : string -> option string;      (** configuration files *)
  feature_ok : nat -> bool;
  ncpu : Z; pool_mem1 : bool; pool_mem2 : bool; thread_starts : nat -> bool;
  pid_alive : Z -> bool; load_clock : nat -> Z;
  save_opens : bool; save_mem : bool; save_room : nat
}.

Record daemon := mk_daemon {
  d_config : config_state;
  d_registry : registry_state;
  d_file : option (list Z);             (** the registry's file *)
  d_pool : option (work_queue_t * nat);
  d_features : feature_state;
  d_managed : option Z                  (** the port of the management interface *)
}.

Definition set_config c (d : daemon) := mk_daemon c (d_registry d) (d_file d) (d_pool d) (d_features d) (d_managed d).
Definition set_registry r (d : daemon) := mk_daemon (d_config d) r (d_file d) (d_pool d) (d_features d) (d_managed d).
Definition set_pool p (d : daemon) := mk_daemon (d_config d) (d_registry d) (d_file d) p (d_features d) (d_managed d).
Definition set_features f (d : daemon) := mk_daemon (d_config d) (d_registry d) (d_file d) (d_pool d) f (d_managed d).
Definition set_managed p (d : daemon) := mk_daemon (d_config d) (d_registry d) (d_file d) (d_pool d) (d_features d) p.

(** [dev/core/service_manager/lifecycle/sm_main.c:306-453 sm_run, the calls] whether a call
    succeeds and what it does to the state. *)
Definition act (o : start_env) (a : action) (d : daemon) : bool * daemon :=
  match a with
  | LoadConfig =>
      let '(rc, c) := sm_config_load (files o) (config_file o) (d_config d) in (0 <=? rc, set_config c d)
  | RegistryInit => (succeeds o a, set_registry sm_registry_init d)
  | LoadRegistry =>
      let '(rc, r) := sm_persistence_load (pid_alive o) (load_clock o) (d_file d) (d_registry d) in
      (0 <=? rc, set_registry r d)
  | ThreadPoolInit =>
      let '(cfg, c) := sm_config_get (d_config d) in
      let '(rc, p) := threadpool_init (Some (thread_pool_size cfg, work_queue_size cfg)) (ncpu o)
                        (pool_mem1 o) (pool_mem2 o) (thread_starts o) in
      (0 <=? rc, set_pool p (set_config c d))
  | InitFeatures =>
      let '(rc, f) := sm_main_init_all_features (feature_ok o) (d_features d) in (0 <=? rc, set_features f d)
  | StartManagement =>
      let '(cfg, c) := sm_config_get (d_config d) in
      let d := set_config c d in
      if enable_management cfg =? 0 then (true, d)
      else if succeeds o a then (true, set_managed (Some (management_port cfg)) d) else (false, d)
  | SetupSignals | ClearTables => (true, d)
  | _ => (succeeds o a, d)
  end.

(** [dev/core/service_manager/lifecycle/sm_main.c:306-453 sm_run, the order] *)
Definition start_plan : list action :=
  [LoggingInit; SetResourceLimits; LoadConfig; CryptoInit; DropPrivileges; SetupSignals; RegistryInit;
   RateLimitInit; MetricsInit; AuditInit; ClearTables; LoadRegistry; SocketSetup; ThreadPoolInit; InitFeatures;
   SetupSeccomp; StartManagement; EpollCreate; SignalFdCreate; AddServerFd; AddSignalFd].

(** A failure of these is only logged. *)
Definition only_logged (a : action) : bool :=
  match a with LoadConfig | AuditInit | LoadRegistry | InitFeatures | StartManagement => true | _ => false end.

(** [dev/core/service_manager/lifecycle/sm_main.c:270-293 cleanup] *)
Definition cleanup (o : start_env) (d : daemon) : daemon :=
  let d := set_features (sm_main_cleanup_all_features (d_features d)).2 (set_pool None d) in
  let file := (sm_persistence_save (save_opens o) (save_mem o) (save_room o) (d_registry d) (d_file d)).2 in
  mk_daemon (d_config d) (sm_registry_cleanup (d_registry d)) file (d_pool d) (d_features d) None.

(** [dev/core/service_manager/lifecycle/sm_main.c:306-309 sm_run, the first failure] without a
    log the start is given up as it stands; every later failure goes through [cleanup]. *)
Definition gives_up (o : start_env) (a : action) (d : daemon) : daemon :=
  match a with LoggingInit => d | _ => cleanup o d end.

(** [dev/core/service_manager/lifecycle/sm_main.c:298-456 sm_run, up to the loop] [None]: the
    main loop begins; [Some -1]: given up. *)
Fixpoint start (o : start_env) (plan : list action) (d : daemon) : option Z * daemon :=
  match plan with
  | [] => (None, d)
  | a :: plan' =>
      let '(ok, d) := act o a d in
      if ok || only_logged a then start o plan' d else (Some (-1), gives_up o a d)
  end.

(** ** The main loop *)

(** What one descriptor of [epoll_wait] brings.  [WorkerTurn]: not an event of the loop; a worker
    thread takes from the queue. *)
Inductive event :=
| SignalRead (signo : option Z)    (** the signal read, [None]: a short read *)
| Incoming (fd : option Z)         (** what [accept4] gives *)
| OtherEvent
| WorkerTurn.

Definition SIGHUP : Z := 1.
Definition SIGINT : Z := 2.
Definition SIGTERM : Z := 15.

(** The loop's state; [handled]: the connections workers took; [accepted]: ghost, every
    accepted connection with whether it was queued. *)
Record loop_state := mk_loop {
  running : bool; queue : work_queue_t; config : config_state; registry : registry_state;
  last_health_check : Z; dropped : list Z; signalled : list (Z * signal);
  handled : list Z; accepted : list (Z * bool); checks : list Z
}.

(** [dev/core/service_manager/lifecycle/sm_main.c:472-524 sm_run, one event] *)
Definition on_event (file : string -> option string) (ev : event) (s : loop_state) : loop_state :=
  match ev with
  | SignalRead (Some n) =>
      if (n =? SIGTERM) || (n =? SIGINT) then
        mk_loop false (queue s) (config s) (registry s) (last_health_check s) (dropped s) (signalled s)
          (handled s) (accepted s) (checks s)
      else if n =? SIGHUP then
        mk_loop (running s) (queue s)
          (sm_config_load file (Some "/etc/servicemanager.conf"%string) (config s)).2 (registry s)
          (last_health_check s) (dropped s) (signalled s) (handled s) (accepted s) (checks s)
      else s
  | Incoming (Some fd) =>
      let '(rc, q) := wq_push fd (queue s) in
      let full := rc <? 0 in
      mk_loop (running s) q (config s) (registry s) (last_health_check s)
        (if full then dropped s ++ [fd] else dropped s) (signalled s) (handled s)
        (accepted s ++ [(fd, negb full)]) (checks s)
  | WorkerTurn =>
      match worker_take (queue s) with
      | Got fd q => mk_loop (running s) q (config s) (registry s) (last_health_check s) (dropped s)
                      (signalled s) (handled s ++ [fd]) (accepted s) (checks s)
      | _ => s
      end
  | _ => s
  end.

Definition SM_HEALTH_CHECK_INTERVAL : Z := 3.

(** What the system answers in one round: the events or the error of [epoll_wait], then the
    clock, and what the health pass needs. *)
Record round := mk_round {
  polled : list event + bool;     (** [inr interrupted] *)
  r_file : string -> option string; r_now : Z;
  r_alive : Z -> bool; r_clk : nat -> Z; r_mem : bool
}.

(** [dev/core/service_manager/lifecycle/sm_main.c:526-530 sm_run, the health pass] *)
Definition health_turn (r : round) (s : loop_state) : loop_state :=
  if SM_HEALTH_CHECK_INTERVAL <=? r_now r - last_health_check s then
    let '(reg, sigs) := sm_health_check (r_alive r) (r_now r) (r_clk r) (r_mem r) (registry s) in
    mk_loop (running s) (queue s) (config s) reg (r_now r) (dropped s) (signalled s ++ sigs) (handled s)
      (accepted s) (checks s ++ [r_now r])
  else s.

(** [dev/core/service_manager/lifecycle/sm_main.c:460-531 sm_run, the loop] one round for each
    element; the loop ends when the flag is cleared or [epoll_wait] fails. *)
Fixpoint main_loop (rs : list round) (s : loop_state) : loop_state :=
  match rs with
  | [] => s
  | r :: rs' =>
      if negb (running s) then s
      else match polled r with
           | inr true => main_loop rs' s
           | inr false => s
           | inl evs => main_loop rs' (health_turn r (fold_left (fun s ev => on_event (r_file r) ev s) evs s))
           end
  end.

(** ** What a start leaves *)

Definition acts (o : start_env) (l : list action) (d : daemon) : daemon :=
  fold_left (fun d a => (act o a d).2) l d.

Lemma start_failed o plan : forall d rc d', start o plan d = (Some rc, d') ->
  rc = -1 /\ exists done a rest, plan = done ++ a :: rest /\ only_logged a = false /\
    (act o a (acts o done d)).1 = false /\ d' = gives_up o a (acts o (done ++ [a]) d).
Proof.
  induction plan as [|a plan IH]; intros d rc d' Hs; [done|]. cbn [start] in Hs.
  destruct (act o a d) as [ok d1] eqn:Ha. destruct (ok || only_logged a) eqn:Hok.
  - apply IH in Hs as (-> & done & b & rest & -> & Hb & Hf & ->). split; [done|].
    exists (a :: done), b, rest. unfold acts in *. cbn [app fold_left]. rewrite Ha. done.
  - apply orb_false_iff in Hok as [-> Hl]. injection Hs as <- <-. split; [done|].
    exists [], a, plan. unfold acts. cbn [app fold_left]. by rewrite Ha.
Qed.

Lemma start_succeeded o plan : forall d d', start o plan d = (None, d') ->
  d' = acts o plan d /\
  forall done a rest, plan = done ++ a :: rest -> only_logged a = false -> (act o a (acts o done d)).1 = true.
Proof.
  induction plan as [|a plan IH]; intros d d' Hs; cbn [start] in Hs.
  - injection Hs as <-. split; [done|]. intros [|? ?] ? ? [=].
  - destruct (act o a d) as [ok d1] eqn:Ha. destruct (ok || only_logged a) eqn:Hok; [|done].
    apply IH in Hs as [-> Hs]. split; [unfold acts; cbn [fold_left]; by rewrite Ha|].
    intros [|x done] b rest [= <- Heq] Hb; unfold acts in *; cbn [fold_left].
    + rewrite Ha. cbn [fst]. by rewrite Hb, orb_false_r in Hok.
    + rewrite Ha. by apply (Hs done b rest).
Qed.

(** What a call does to the registry and to the configuration. *)
Definition reg_act (o : start_env) (file : option (list Z)) (r : registry_state) (a : action) : registry_state :=
  match a with
  | RegistryInit => sm_registry_init
  | LoadRegistry => (sm_persistence_load (pid_alive o) (load_clock o) file r).2
  | _ => r
  end.

Definition config_act (o : start_env) (c : config_state) (a : action) : config_state :=
  match a with
  | LoadConfig => (sm_config_load (files o) (config_file o) c).2
  | ThreadPoolInit | StartManagement => (sm_config_get c).2
  | _ => c
  end.

Lemma act_parts o a d : d_registry (act o a d).2 = reg_act o (d_file d) (d_registry d) a /\
  d_file (act o a d).2 = d_file d /\ d_config (act o a d).2 = config_act o (d_config d) a.
Proof.
  destruct a; cbn [act reg_act config_act]; try done.
  - by destruct (sm_config_load _ _ _).
  - by destruct (sm_persistence_load _ _ _ _).
  - destruct (sm_config_get _). by destruct (threadpool_init _ _ _ _ _).
  - destruct (sm_config_get _). destruct (_ =? 0); [done|]. by destruct (succeeds _ _).
Qed.

Lemma acts_parts o l : forall d, d_registry (acts o l d) = fold_left (reg_act o (d_file d)) l (d_registry d) /\
  d_file (acts o l d) = d_file d /\ d_config (acts o l d) = fold_left (config_act o) l (d_config d).
Proof.
  induction l as [|a l IH]; intros d; [done|]. unfold acts in *. cbn [fold_left].
  destruct (act_parts o a d) as (Hr & Hf & Hc). destruct (IH (act o a d).2) as (Hr' & Hf' & Hc').
  by rewrite Hr', Hf', Hc', Hr, Hf, Hc.
Qed.

Lemma acts_pool o l : forall d, ThreadPoolInit ∉ l -> d_pool (acts o l d) = d_pool d.
Proof.
  induction l as [|a l IH]; intros d Hl; [done|]. apply not_elem_of_cons in Hl as [Ha Hl].
  unfold acts in *. cbn [fold_left]. rewrite IH by done. destruct a; cbn [act]; try done.
  - by destruct (sm_config_load _ _ _).
  - by destruct (sm_persistence_load _ _ _ _).
  - destruct (sm_config_get _) as [cfg c]. destruct (enable_management cfg =? 0); [done|]. by destruct (succeeds _ _).
Qed.

Lemma saved_live room r file : sm_persistence_save true true room r file = (0, Some (take room (file_of (live r)))).
Proof.
  unfold sm_persistence_save, sm_registry_get_all, live. cbn [negb].
  destruct (Nat.eqb_spec (registry_count r) 0) as [->|]; done.
Qed.

(** The registry a start has loaded, if its file could be read. *)
Definition loaded_registry (o : start_env) (file : option (list Z)) : registry_state :=
  (sm_persistence_load (pid_alive o) (load_clock o) file sm_registry_init).2.

(** C10: A start that fails reports -1.  If it is the log that cannot be set up, nothing is
    cleaned up and nothing is saved: the file is as it was.  Every other failure is cleaned up,
    and the clean-up saves the registry as it is then: a failure after the registry was loaded
    keeps the saved services, but an earlier one, such as missing limits, key or privileges,
    replaces the file by one without any service. *)
Theorem failed_start_saves o d rc d' : registry_count (d_registry d) = 0%nat ->
  save_opens o = true -> save_mem o = true -> start o start_plan d = (Some rc, d') ->
  rc = -1 /\ exists done a rest, start_plan = done ++ a :: rest /\ only_logged a = false /\
    (act o a (acts o done d)).1 = false /\
    (if decide (a = LoggingInit) then d' = d
     else d_file d' = Some (take (save_room o) (file_of
           (if decide (LoadRegistry ∈ done) then live (loaded_registry o (d_file d)) else []))) /\
         d_pool d' = None /\ d_managed d' = None /\ d_features d' = no_features /\
         registry_count (d_registry d') = 0%nat).
Proof.
  intros H0 Hopen Hmem Hs. apply start_failed in Hs as (-> & done & a & rest & Hp & Ha & Hf & ->).
  split; [done|]. exists done, a, rest. split_and!; try done.
  destruct (decide (a = LoggingInit)) as [->|Hl].
  { unfold start_plan in Hp. destruct done as [|? done]; [done|]. injection Hp as _ Hp.
    repeat (destruct done as [|? done]; [discriminate Hp|injection Hp as _ Hp]). by destruct done. }
  assert (Hg : forall d, gives_up o a d = cleanup o d) by (intros; by destruct a). rewrite Hg. clear Hg.
  split_and!; try done. unfold cleanup. cbn [d_file d_registry set_features set_pool].
  rewrite Hopen, Hmem, saved_live. cbn [snd]. do 3 f_equal.
  destruct (acts_parts o (done ++ [a]) d) as (-> & _ & _).
  assert (Hlive : live (d_registry d) = []) by (unfold live; by rewrite H0).
  destruct init_inv as [_ Hinit]. unfold start_plan in Hp.
  repeat (destruct done as [|? done]; [injection Hp as <- _; try discriminate Ha; try done; cbn [app fold_left reg_act];
    rewrite ?decide_True by set_solver; rewrite ?decide_False by set_solver; done|];
    injection Hp as <- Hp). by destruct done.
Qed.

Lemma threadpool_result cfg ncpu m1 m2 create rc q n :
  threadpool_init cfg ncpu m1 m2 create = (rc, Some (q, n)) ->
  rc = 0 /\ wq_inv q /\ items q = [] /\ shutdown q = false /\
  capacity q = match cfg with
               | Some (_, k) => if (4 <=? k) && (k <=? MAX_WORK_QUEUE_SIZE) then k else DEFAULT_WORK_QUEUE_SIZE
               | None => DEFAULT_WORK_QUEUE_SIZE end /\
  n = Z.to_nat (match cfg with
                | Some (k, _) => if (0 <? k) && (k <=? MAX_THREAD_POOL_SIZE) then k else default_pool_size ncpu
                | None => default_pool_size ncpu end).
Proof.
  unfold threadpool_init. set (size := match cfg with Some (_, k) => _ | None => _ end).
  assert (Hs : 0 < size <= MAX_WORK_QUEUE_SIZE).
  { unfold size, DEFAULT_WORK_QUEUE_SIZE, MAX_WORK_QUEUE_SIZE. destruct cfg as [[? k]|]; [|lia].
    destruct ((4 <=? k) && (k <=? 4096)) eqn:Hk; lia. }
  unfold wq_init. destruct m1; [|done]. destruct m2; cbn [negb]; [|done]. destruct (forallb _ _); [|done].
  intros [= <- <- <-]. split_and!; try done. constructor; cbn [capacity fds head tail count items]; try lia.
  - by rewrite length_replicate.
  - by rewrite Z.mod_small by lia.
  - constructor.
Qed.

(** C9: A daemon that starts serves with a configuration whose values are all in range, namely
    what its file says, or the defaults where there is no file or a value is out of range; with
    exactly the configured number of workers and an empty queue of the configured size; with the
    saved services, and with the saved file untouched. *)
Theorem started_as_configured o d d' : g_config_loaded (d_config d) = false -> start o start_plan d = (None, d') ->
  let said := match files o (default "/etc/servicemanager.conf"%string (config_file o)) with
              | Some text => if sm_config_validate (Some (sm_parse text)) =? 0 then sm_parse text else sm_config_default
              | None => sm_config_default end in
  let c := g_config (d_config d') in
  c = said /\ sm_config_validate (Some c) = 0 /\
  (exists q, d_pool d' = Some (q, Z.to_nat (thread_pool_size c)) /\ wq_inv q /\ items q = [] /\
     shutdown q = false /\ capacity q = work_queue_size c) /\
  d_registry d' = loaded_registry o (d_file d) /\ d_file d' = d_file d.
Proof.
  intros Hnl Hs said c. apply start_succeeded in Hs as [-> Hok].
  destruct (acts_parts o start_plan d) as (Hr & Hf & Hc).
  set (c1 := (sm_config_get (sm_config_load (files o) (config_file o) (d_config d)).2).2).
  assert (Hg : forall c, g_config_loaded c = true -> (sm_config_get c).2 = c /\ (sm_config_get c).1 = g_config c)
    by (intros [? []]; done).
  assert (Hc1 : g_config_loaded c1 = true /\ g_config c1 = said /\ sm_config_validate (Some said) = 0).
  { unfold c1, said, sm_config_load, sm_config_get. destruct (files o _) as [text|]; [|done].
    destruct (validate_cases (Some (sm_parse text))) as [Hv|Hv]; rewrite Hv; cbn [Z.ltb Z.compare Z.eqb snd g_config_loaded g_config];
      rewrite ?Hnl; split_and!; done. }
  destruct Hc1 as (Hl1 & He1 & Hv1). destruct (Hg c1 Hl1) as [Hg1 Hg2].
  assert (Hcfg : d_config (acts o start_plan d) = c1).
  { rewrite Hc. unfold start_plan. cbn [fold_left config_act]. fold c1. exact Hg1. }
  assert (Hcc : c = said) by (unfold c; by rewrite Hcfg).
  split_and!; [done|by rewrite Hcc| |exact Hr|done].
  set (before := [LoggingInit; SetResourceLimits; LoadConfig; CryptoInit; DropPrivileges; SetupSignals; RegistryInit; RateLimitInit;
    MetricsInit; AuditInit; ClearTables; LoadRegistry; SocketSetup]).
  specialize (Hok before ThreadPoolInit _ eq_refl eq_refl). destruct (acts_parts o before d) as (_ & _ & Hcb).
  set (d1 := acts o before d) in *.
  assert (Hpool : d_pool (acts o start_plan d) = d_pool (act o ThreadPoolInit d1).2).
  { apply (acts_pool o [InitFeatures; SetupSeccomp; StartManagement; EpollCreate; SignalFdCreate; AddServerFd; AddSignalFd]
      (act o ThreadPoolInit d1).2). set_solver. }
  assert (Hget : (sm_config_get (d_config d1)).1 = said).
  { rewrite Hcb. unfold before. cbn [fold_left config_act].
    change ((sm_config_get (sm_config_load (files o) (config_file o) (d_config d)).2).1) with (g_config c1). exact He1. }
  rewrite Hpool. cbn [act] in *. destruct (sm_config_get (d_config d1)) as [cfg cs]. cbn [fst] in Hget. subst cfg.
  destruct (threadpool_init _ _ _ _ _) as [rc p] eqn:Ht. cbn [fst snd d_pool set_pool] in *.
  destruct p as [[q n]|].
  - apply threadpool_result in Ht as (-> & Hi & Hit & Hsh & Hcap & Hn). exists q. rewrite Hcc.
    apply validate_iff in Hv1 as (_ & _ & _ & Hw & Hq). unfold MAX_THREAD_POOL_SIZE, MAX_WORK_QUEUE_SIZE in *.
    assert (E1 : (0 <? thread_pool_size said) && (thread_pool_size said <=? 64) = true) by lia.
    assert (E2 : (4 <=? work_queue_size said) && (work_queue_size said <=? 4096) = true) by lia.
    rewrite E1 in Hn. rewrite E2 in Hcap. by rewrite Hn.
  - exfalso. unfold threadpool_init, wq_init in Ht. repeat (case_match; simplify_eq; try done).
Qed.

(** ** The loop *)

(** Times at least the interval apart, beginning at [t]. *)
Fixpoint spaced (t : Z) (l : list Z) : Prop :=
  match l with [] => True | u :: l' => t + SM_HEALTH_CHECK_INTERVAL <= u /\ spaced u l' end.

Lemma last_cons_default (x : Z) l : forall t, List.last (x :: l) t = List.last l x.
Proof.
  revert x. induction l as [|y l IH]; intros x t; [done|].
  change (List.last (x :: y :: l) t) with (List.last (y :: l) t). by rewrite !IH.
Qed.

Lemma spaced_snoc l : forall t u, spaced t l -> List.last l t + SM_HEALTH_CHECK_INTERVAL <= u -> spaced t (l ++ [u]).
Proof.
  induction l as [|x l IH]; intros t u Hs Hu; [done|]. destruct Hs as [H1 Hs]. split; [done|].
  apply IH; [done|]. by rewrite last_cons_default in Hu.
Qed.

Definition kept (l : list (Z * bool)) : list Z := (List.filter snd l).*1.
Definition refused (l : list (Z * bool)) : list Z := (List.filter (fun a => negb a.2) l).*1.

Lemma kept_snoc l fd b : kept (l ++ [(fd, b)]) = if b : bool then kept l ++ [fd] else kept l.
Proof. unfold kept. rewrite List.filter_app, fmap_app. destruct b; cbn; [done|by rewrite app_nil_r]. Qed.

Lemma refused_snoc l fd b : refused (l ++ [(fd, b)]) = if b : bool then refused l else refused l ++ [fd].
Proof. unfold refused. rewrite List.filter_app, fmap_app. destruct b; cbn; [by rewrite app_nil_r|done]. Qed.

Record loop_inv (t0 : Z) (s : loop_state) : Prop := {
  li_queue : wq_inv (queue s);
  li_open : shutdown (queue s) = false;
  li_kept : handled s ++ items (queue s) = kept (accepted s);
  li_dropped : dropped s = refused (accepted s);
  li_checks : spaced t0 (checks s) /\ last_health_check s = List.last (checks s) t0;
  li_registry : reg_inv (registry s)
}.

(** [accept4] gives descriptors. *)
Definition event_ok (ev : event) : Prop := match ev with Incoming (Some fd) => 0 <= fd | _ => True end.
Definition round_ok (r : round) : Prop :=
  (match polled r with inl evs => Forall event_ok evs | inr _ => True end) /\ r_mem r = true.

Lemma on_event_inv t0 file ev s : event_ok ev -> loop_inv t0 s -> loop_inv t0 (on_event file ev s).
Proof.
  intros Hev [Hq Ho Hk Hd Hc Hr]. destruct ev as [[n|]|[fd|]| |]; cbn [on_event]; try by constructor.
  - destruct (_ || _); [by constructor|]. destruct (n =? SIGHUP); by constructor.
  - cbn in Hev. destruct (decide (count (queue s) < capacity (queue s))) as [Hroom|Hfull].
    + destruct (push_room (queue s) fd Hq Hev Hroom) as (q' & Hp & Hq' & Hit & Hcap & Hsh). rewrite Hp.
      cbn [Z.ltb Z.compare negb]. constructor; cbn [queue handled accepted dropped checks last_health_check registry]; try done.
      * by rewrite Hsh.
      * by rewrite Hit, kept_snoc, app_assoc, Hk.
      * by rewrite refused_snoc.
    + rewrite push_full by done. cbn [Z.ltb Z.compare negb].
      constructor; cbn [queue handled accepted dropped checks last_health_check registry]; try done.
      * by rewrite kept_snoc.
      * by rewrite refused_snoc, Hd.
  - unfold worker_take. destruct (decide (count (queue s) = 0)) as [H0|Hne].
    + rewrite pop_empty, Ho by done. by constructor.
    + destruct (pop_some (queue s) Hne) as (fd & q' & Hp). rewrite Hp.
      destruct (pop_items (queue s) fd q' Hq Hne Hp) as (Hfd & Hq' & Hit & _ & Hsh).
      destruct (Z.ltb_spec fd 0); [lia|]. constructor; cbn [queue handled accepted dropped checks last_health_check registry]; try done.
      * by rewrite Hsh.
      * rewrite Hit in Hk. by rewrite <- app_assoc.
Qed.

Lemma events_inv t0 file evs : Forall event_ok evs -> forall s, loop_inv t0 s ->
  loop_inv t0 (fold_left (fun s ev => on_event file ev s) evs s).
Proof.
  induction 1 as [|ev evs Hev _ IH]; intros s Hs; [done|]. cbn [fold_left]. apply IH. by apply on_event_inv.
Qed.

Lemma health_turn_inv t0 r s : r_mem r = true -> loop_inv t0 s -> loop_inv t0 (health_turn r s).
Proof.
  intros Hm [Hq Ho Hk Hd [Hs Hl] Hr]. unfold health_turn.
  destruct (Z.leb_spec SM_HEALTH_CHECK_INTERVAL (r_now r - last_health_check s)); [|by constructor].
  rewrite Hm. pose proof (health_check_live (r_alive r) (r_now r) (r_clk r) (registry s) Hr) as Hh.
  destruct (sm_health_check _ _ _ _ _) as [reg sigs]. cbn [fst snd] in Hh.
  constructor; cbn [queue handled accepted dropped checks last_health_check registry]; try done.
  - split; [apply spaced_snoc; [done|rewrite <- Hl; lia]|]. by rewrite last_last.
  - apply Hh.
Qed.

Lemma main_loop_inv t0 rs : Forall round_ok rs -> forall s, loop_inv t0 s -> loop_inv t0 (main_loop rs s).
Proof.
  induction 1 as [|r rs [Hp Hm] _ IH]; intros s Hs; [done|]. cbn [main_loop].
  destruct (negb (running s)); [done|]. destruct (polled r) as [evs|[]]; [|by apply IH|done].
  apply IH, health_turn_inv; [done|]. by apply events_inv.
Qed.

Lemma stopped_stays file evs : forall s, running s = false ->
  running (fold_left (fun s ev => on_event file ev s) evs s) = false.
Proof.
  induction evs as [|ev evs IH]; intros s Hs; [done|]. cbn [fold_left]. apply IH.
  destruct ev as [[n|]|[fd|]| |]; cbn [on_event]; try done.
  - destruct (_ || _); [done|]. by destruct (n =? SIGHUP).
  - by destruct (wq_push fd (queue s)).
  - by destruct (worker_take (queue s)).
Qed.

Lemma stop_signal file evs sig : sig = SIGTERM \/ sig = SIGINT -> SignalRead (Some sig) ∈ evs -> forall s,
  running (fold_left (fun s ev => on_event file ev s) evs s) = false.
Proof.
  intros Hsig. induction evs as [|ev evs IH]; intros Hin s; [by apply elem_of_nil in Hin|]. cbn [fold_left].
  apply elem_of_cons in Hin as [<-|Hin]; [|by apply IH]. apply stopped_stays. cbn [on_event].
  by destruct Hsig as [-> | ->].
Qed.

(** C8: However events, signals and worker threads alternate: the connections that workers took and
    those in the queue are, in this order, exactly the accepted ones that were queued; every other
    accepted connection was closed; a connection is refused exactly when the queue is full; health
    passes are at least three seconds apart; the registry stays well-formed; and a round that
    reads SIGTERM or SIGINT is the last one. *)
Theorem main_loop_conserves rs q c reg t0 :
  wq_inv q -> items q = [] -> shutdown q = false -> reg_inv reg -> Forall round_ok rs ->
  let s := main_loop rs (mk_loop true q c reg t0 [] [] [] [] []) in
  handled s ++ items (queue s) = kept (accepted s) /\ dropped s = refused (accepted s) /\
  (forall file fd, 0 <= fd -> accepted (on_event file (Incoming (Some fd)) s) =
     accepted s ++ [(fd, bool_decide (Z.of_nat (length (items (queue s))) <> capacity (queue s)))]) /\
  spaced t0 (checks s) /\ reg_inv (registry s) /\
  (forall r evs sig rs', polled r = inl evs -> SignalRead (Some sig) ∈ evs -> sig = SIGTERM \/ sig = SIGINT ->
     main_loop (r :: rs') s = main_loop [r] s).
Proof.
  intros Hq Hit Hsh Hreg Hrs s.
  assert (Hi : loop_inv t0 s).
  { apply main_loop_inv; [done|]. constructor; cbn [queue handled accepted dropped checks last_health_check registry]; try done. }
  destruct Hi as [Hq' Ho Hk Hd [Hc _] Hr]. split_and!; try done.
  - intros file fd Hfd. cbn [on_event]. rewrite length_items. pose proof (wq_count _ Hq') as Hn.
    destruct (decide (count (queue s) < capacity (queue s))) as [Hroom|Hfull].
    + destruct (push_room (queue s) fd Hq' Hfd Hroom) as (q' & Hp & _). rewrite Hp.
      cbn [Z.ltb Z.compare negb accepted]. rewrite bool_decide_eq_true_2 by lia. done.
    + rewrite push_full by done. cbn [Z.ltb Z.compare negb accepted]. rewrite bool_decide_eq_false_2 by lia. done.
  - intros r evs sig rs' Hp Hin Hsig. cbn [main_loop]. destruct (negb (running s)); [done|]. rewrite Hp.
    set (s1 := health_turn r _).
    assert (Hs1 : running s1 = false).
    { unfold s1, health_turn. pose proof (stop_signal (r_file r) evs sig Hsig Hin s) as Hst.
      destruct (_ <=? _); [|done]. by destruct (sm_health_check _ _ _ _ _). }
    destruct rs' as [|r' rs']; [done|]. cbn [main_loop]. by rewrite Hs1.
Qed.

(** A hang-up signal reads the built-in path whatever file the daemon was started with; if that
    does not exist, the defaults replace the configuration. *)
Lemma hup_forgets_config file s : file "/etc/servicemanager.conf"%string = None ->
  config (on_event file (SignalRead (Some SIGHUP)) s) = mk_cst sm_config_default true.
Proof. intros Hf. cbn. unfold sm_config_load. cbn [default from_option id]. by rewrite Hf. Qed.

(** ** On concrete inputs *)

Definition sample_start (bad : action) : start_env :=
  mk_start (fun a => negb (bool_decide (a = bad))) None (fun _ => None) (fun _ => true) 4 true true (fun _ => true)
    (fun _ => true) (fun _ => 77) true true 5000.

Definition before_start : daemon :=
  mk_daemon (fresh_config sm_config_default) sm_registry_init (Some (file_of (live reg2))) None no_features None.

(** Without a key the saved services are lost; without a log they are not. *)
Example log_or_key :
  start (sample_start LoggingInit) start_plan before_start = (Some (-1), before_start) /\
  d_file (start (sample_start CryptoInit) start_plan before_start).2 = Some (file_of []) /\ live reg2 <> [].
Proof. split; [reflexivity|]. split; [vm_compute; reflexivity|]. vm_compute; discriminate. Qed.

Lemma failed_start_saves_witness :
  exists done a rest, start_plan = done ++ a :: rest /\
    (if decide (a = LoggingInit) then (start (sample_start CryptoInit) start_plan before_start).2 = before_start
     else d_file (start (sample_start CryptoInit) start_plan before_start).2 = Some (take 5000 (file_of
      (if decide (LoadRegistry ∈ done)
       then live (loaded_registry (sample_start CryptoInit) (d_file before_start)) else [])))).
Proof.
  destruct (start (sample_start CryptoInit) start_plan before_start) as [rc d'] eqn:Hs.
  destruct rc as [rc|]; [|vm_compute in Hs; discriminate Hs].
  destruct (failed_start_saves (sample_start CryptoInit) before_start rc d' eq_refl eq_refl eq_refl Hs)
    as (_ & done & a & rest & Hp & _ & _ & Hd).
  exists done, a, rest. split; [exact Hp|]. destruct (decide (a = LoggingInit)); [exact Hd|exact (proj1 Hd)].
Defined.

Lemma started_as_configured_witness :
  exists d', start (sample_start SetupSignals) start_plan before_start = (None, d') /\
    g_config (d_config d') = sm_config_default /\ d_file d' = Some (file_of (live reg2)).
Proof.
  destruct (start (sample_start SetupSignals) start_plan before_start) as [rc d'] eqn:Hs.
  destruct rc as [rc|]; [vm_compute in Hs; discriminate Hs|].
  destruct (started_as_configured (sample_start SetupSignals) before_start d' eq_refl Hs) as (Hc & _ & _ & _ & Hf).
  exists d'. split; [reflexivity|]. split; [exact Hc|exact Hf].
Defined.

Definition sample_rounds : list round :=
  [mk_round (inl [Incoming (Some 7); Incoming (Some 8); WorkerTurn]) (fun _ => None) 103 (fun _ => true) (fun _ => 103) true;
   mk_round (inr true) (fun _ => None) 104 (fun _ => true) (fun _ => 104) true;
   mk_round (inl [SignalRead (Some SIGTERM); Incoming (Some 9)]) (fun _ => None) 105 (fun _ => true) (fun _ => 105) true].

Definition sample_queue : work_queue_t := mk_wq (replicate 4 0) 4 0 0 0 false.

Lemma main_loop_conserves_witness :
  let s := main_loop sample_rounds (mk_loop true sample_queue (fresh_config sm_config_default) sm_registry_init 100 [] [] [] [] []) in
  handled s ++ items (queue s) = [7; 8; 9] /\ handled s = [7] /\ dropped s = [].
Proof.
  cbv zeta. set (s := main_loop _ _).
  destruct (main_loop_conserves sample_rounds sample_queue (fresh_config sm_config_default) sm_registry_init 100) as (Hk & Hd & _).
  - constructor; cbn; unfold MAX_WORK_QUEUE_SIZE; try lia; try reflexivity. constructor.
  - reflexivity.
  - reflexivity.
  - apply init_inv.
  - repeat constructor; cbn; lia.
  - fold s in Hk, Hd. rewrite Hk, Hd. vm_compute. split_and!; reflexivity.
Defined.
