(* ===== verification/CallbackQueue.v ===== *)
(** * The callbacks of the client proxies (proxy/base/proxy_thread_pool.cpp)

    A ring of slots without a lock: any number of threads post callbacks, one thread runs
    them.  Every access of the shared state is one step; the calls of [post] under way are
    numbered in the order in which they claimed their slots, so that a thread is no more
    than the number of its call. *)

From S2P Require Import Prelude.

(** ** The capacity *)

(** [dev/proxy/base/proxy_thread_pool.cpp:14-20 nextPow2] *)
Definition nextPow2 (n : Z) : Z :=
  if n =? 0 then 1
  else
    let n := n - 1 in
    let n := Z.lor n (Z.shiftr n 1) in
    let n := Z.lor n (Z.shiftr n 2) in
    let n := Z.lor n (Z.shiftr n 4) in
    let n := Z.lor n (Z.shiftr n 8) in
    let n := Z.lor n (Z.shiftr n 16) in
    let n := Z.lor n (Z.shiftr n 32) in
    u64 (n + 1).

(** [dev/proxy/base/proxy_thread_pool.cpp:27-27 ProxyThreadPool::ProxyThreadPool] *)
Definition ring_capacity (queue_depth : Z) : Z :=
  nextPow2 (if queue_depth <? 16 then 16 else queue_depth).

(** ** Slots and threads *)

(** What is posted: a function of the program, or the sentinel of [stop]. *)
Inductive callback := Callback (id : Z) | Sentinel.

(** [dev/proxy/base/proxy_thread_pool.h:91-94 Slot] *)
Record slot_t := mk_slot { fn : option callback; ready : bool }.

(** Where a call of [post] stands that has claimed its slot: the loop with its count, the
    three accesses of an overflow, the two of the store. *)
Inductive post_at := Spinning (spin : Z) | Emptying | Unreadying | Reporting | Storing | Publishing.

(** Where the consumer stands: the two tests of its loop, the test of the slot, and the
    accesses of taking a callback and running it. *)
Inductive consumer_at :=
  | AtRunning | AtPending | AtSlot | Taking
  | Clearing (f : option callback) | Advancing (f : option callback) | Running (f : option callback)
  | Ended.

#[export] Instance callback_eq_dec : EqDecision callback.
Proof. solve_decision. Defined.

#[export] Instance consumer_at_eq_dec : EqDecision consumer_at.
Proof. solve_decision. Defined.

(** [dev/proxy/base/proxy_thread_pool.h:97-103 ProxyThreadPool] with, for the proofs, the
    callbacks in the order of their claims, the number of advances of the tail, the
    callbacks that were run, the reported overflows, and whether a slot was ever claimed
    while as many claims as there are slots were outstanding. *)
Record pool := mk_pool {
  slots : list slot_t; mask : Z; head : Z; tail : Z; running : bool;
  posts : gmap nat post_at; consumer : consumer_at;
  claimed : list callback; taken : nat; delivered : list callback; overflows : nat; crowded : bool
}.

(** [dev/proxy/base/proxy_thread_pool.cpp:24-35 ProxyThreadPool::ProxyThreadPool] *)
Definition ProxyThreadPool (queue_depth : Z) : pool :=
  let cap := ring_capacity queue_depth in
  mk_pool (replicate (Z.to_nat cap) (mk_slot None false)) (cap - 1) 0 0 true ∅ AtRunning [] 0 [] 0 false.

Definition place (s : pool) (idx : Z) : nat := Z.to_nat (Z.land idx (mask s)).

Definition slot_at (s : pool) (idx : Z) : slot_t := default (mk_slot None false) (slots s !! place s idx).

Definition set_slot (idx : Z) (x : slot_t) (s : pool) : pool :=
  mk_pool (<[place s idx := x]> (slots s)) (mask s) (head s) (tail s) (running s) (posts s) (consumer s)
    (claimed s) (taken s) (delivered s) (overflows s) (crowded s).

Definition set_post (n : nat) (p : option post_at) (s : pool) : pool :=
  mk_pool (slots s) (mask s) (head s) (tail s) (running s) (partial_alter (fun _ => p) n (posts s))
    (consumer s) (claimed s) (taken s) (delivered s) (overflows s) (crowded s).

Definition set_consumer (c : consumer_at) (s : pool) : pool :=
  mk_pool (slots s) (mask s) (head s) (tail s) (running s) (posts s) c
    (claimed s) (taken s) (delivered s) (overflows s) (crowded s).

(** ** The accesses *)

(** [dev/proxy/base/proxy_thread_pool.cpp:47-49 ProxyThreadPool::post, claim] *)
Definition claim (f : callback) (s : pool) : pool :=
  let n := length (claimed s) in
  mk_pool (slots s) (mask s) (u64 (head s + 1)) (tail s) (running s) (<[n := Spinning 0]> (posts s))
    (consumer s) (claimed s ++ [f]) (taken s) (delivered s) (overflows s)
    (crowded s || (length (slots s) <=? n - taken s)%nat).

(** [dev/proxy/base/proxy_thread_pool.cpp:55-71 ProxyThreadPool::post, loop and store] the
    next access of call [n]. *)
Definition post_access (n : nat) (p : post_at) (s : pool) : pool :=
  let idx := u64 (Z.of_nat n) in
  match p with
  | Spinning spin =>
      if ready (slot_at s idx)
      then set_post n (Some (if 64 <? spin + 1 then Emptying else Spinning (spin + 1))) s
      else set_post n (Some Storing) s
  | Emptying => set_post n (Some Unreadying) (set_slot idx (mk_slot None (ready (slot_at s idx))) s)
  | Unreadying => set_post n (Some Reporting) (set_slot idx (mk_slot (fn (slot_at s idx)) false) s)
  | Reporting =>
      set_post n (Some Storing)
        (mk_pool (slots s) (mask s) (head s) (tail s) (running s) (posts s) (consumer s)
           (claimed s) (taken s) (delivered s) (S (overflows s)) (crowded s))
  | Storing => set_post n (Some Publishing) (set_slot idx (mk_slot (claimed s !! n) (ready (slot_at s idx))) s)
  | Publishing => set_post n None (set_slot idx (mk_slot (fn (slot_at s idx)) true) s)
  end.

(** [dev/proxy/base/proxy_thread_pool.cpp:74-78 ProxyThreadPool::pending] *)
Definition pending (s : pool) : Z := if tail s <? head s then head s - tail s else 0.

(** [dev/proxy/base/proxy_thread_pool.cpp:80-89 ProxyThreadPool::stop] without the sentinel,
    which is an ordinary post: whether the sentinel is posted and the thread joined. *)
Definition stop (s : pool) : bool * pool :=
  (running s,
   mk_pool (slots s) (mask s) (head s) (tail s) false (posts s) (consumer s)
     (claimed s) (taken s) (delivered s) (overflows s) (crowded s)).

(** [dev/proxy/base/proxy_thread_pool.cpp:93-114 ProxyThreadPool::consumerLoop] one access. *)
Definition consume_access (s : pool) : pool :=
  match consumer s with
  | AtRunning => set_consumer (if running s then AtSlot else AtPending) s
  | AtPending => set_consumer (if 0 <? pending s then AtSlot else Ended) s
  | AtSlot => set_consumer (if ready (slot_at s (tail s)) then Taking else AtRunning) s
  | Taking =>
      set_consumer (Clearing (fn (slot_at s (tail s))))
        (set_slot (tail s) (mk_slot None (ready (slot_at s (tail s)))) s)
  | Clearing f => set_consumer (Advancing f) (set_slot (tail s) (mk_slot (fn (slot_at s (tail s))) false) s)
  | Advancing f =>
      mk_pool (slots s) (mask s) (head s) (u64 (tail s + 1)) (running s) (posts s) (Running f)
        (claimed s) (S (taken s)) (delivered s) (overflows s) (crowded s)
  | Running f =>
      mk_pool (slots s) (mask s) (head s) (tail s) (running s) (posts s) AtRunning
        (claimed s) (taken s) (delivered s ++ option_list f) (overflows s) (crowded s)
  | Ended => s
  end.

(** A schedule is a list of moves: a thread begins a post, call [n] makes its next access,
    the consumer makes its next access, a thread stops the pool. *)
Inductive move := Post (f : callback) | Access (n : nat) | Consume | Stop.

Definition step (s : pool) (m : move) : pool :=
  match m with
  | Post f => claim f s
  | Access n => match posts s !! n with Some p => post_access n p s | None => s end
  | Consume => consume_access s
  | Stop => snd (stop s)
  end.

Definition run (l : list move) (s : pool) : pool := fold_left step l s.

(** ** The capacity is a power of two *)

(** Bit [i] of [x] says whether [n] has a one among its [m] bits from [i]. *)
Definition smeared (n m x : Z) : Prop :=
  forall i, 0 <= i -> (Z.testbit x i = true <-> exists j, 0 <= j < m /\ Z.testbit n (i + j) = true).

Lemma smear n m k x : 0 <= m -> k = m + m -> smeared n m x -> smeared n k (Z.lor x (Z.shiftr x m)).
Proof.
  intros Hm -> H i Hi. rewrite Z.lor_spec, Z.shiftr_spec, orb_true_iff, (H i), (H (i + m)) by lia. split.
  - intros [(j & ? & ?) | (j & ? & Hj)].
    + exists j. split; [lia | done].
    + exists (m + j). split; [lia | by replace (i + (m + j)) with (i + m + j) by lia].
  - intros (j & ? & Hj). destruct (Z_lt_dec j m).
    + left. exists j. split; [lia | done].
    + right. exists (j - m). split; [lia | by replace (i + m + (j - m)) with (i + j) by lia].
Qed.

Lemma smeared_ones n x : 0 < n < 2 ^ 64 -> smeared n 64 x -> x = Z.ones (Z.log2 n + 1).
Proof.
  intros Hn H. apply Z.bits_inj'. intros i Hi.
  assert (Z.log2 n < 64) by (apply Z.log2_lt_pow2; lia). pose proof (Z.log2_nonneg n).
  rewrite Z.testbit_ones_nonneg by lia. apply eq_true_iff_eq. rewrite (H i), Z.ltb_lt by done. split.
  - intros (j & ? & Hj). destruct (Z_lt_dec i (Z.log2 n + 1)); [done |].
    rewrite Z.bits_above_log2 in Hj by lia. done.
  - intros. exists (Z.log2 n - i). split; [lia |].
    replace (i + (Z.log2 n - i)) with (Z.log2 n) by lia. apply Z.bit_log2. lia.
Qed.

(** The least power of two that is not below the argument. *)
Lemma nextPow2_up n : 0 < n <= 2 ^ 63 -> nextPow2 n = 2 ^ Z.log2_up n.
Proof.
  intros Hn. destruct (decide (n = 1)) as [-> | Hne]; [done |].
  unfold nextPow2. destruct (Z.eqb_spec n 0); [lia |]. cbv zeta.
  set (m := n - 1). assert (0 < m < 2 ^ 63) by lia.
  assert (H1 : smeared m 1 m).
  { intros i Hi. split; [intros; exists 0; split; [lia | by rewrite Z.add_0_r] |].
    intros (j & ? & Hj). assert (j = 0) as -> by lia. by rewrite Z.add_0_r in Hj. }
  apply (smear _ 1 2) in H1; [| lia | lia]. apply (smear _ 2 4) in H1; [| lia | lia].
  apply (smear _ 4 8) in H1; [| lia | lia]. apply (smear _ 8 16) in H1; [| lia | lia].
  apply (smear _ 16 32) in H1; [| lia | lia]. apply (smear _ 32 64) in H1; [| lia | lia].
  rewrite (smeared_ones m _ ltac:(lia) H1) by done. clear H1.
  assert (Z.log2 m < 63) by (apply Z.log2_lt_pow2; lia). pose proof (Z.log2_nonneg m).
  unfold Z.log2_up. destruct (Z.compare_spec 1 n); try lia.
  replace (Z.pred n) with m by lia. rewrite Z.ones_equiv, <- Z.add_1_r.
  replace (Z.pred (2 ^ (Z.log2 m + 1)) + 1) with (2 ^ (Z.log2 m + 1)) by lia.
  apply wrap_small. split; [lia |]. apply Z.pow_lt_mono_r; lia.
Qed.

(** What keeps the slots apart: their number is a power of two and the mask one less. *)
Definition ring (s : pool) : Prop :=
  exists k, (k <= 63)%nat /\ length (slots s) = (2 ^ k)%nat /\ mask s = 2 ^ Z.of_nat k - 1.

Lemma ring_pos s : ring s -> length (slots s) <> 0%nat.
Proof. intros (k & ? & -> & ?). apply Nat.pow_nonzero. lia. Qed.

(** The 64-bit index of call [i] leads to the place [i] modulo the capacity, also when the
    index wraps around. *)
Lemma place_index s i : ring s -> place s (u64 (Z.of_nat i)) = (i mod length (slots s))%nat.
Proof.
  intros (k & Hk & Hl & Hm). unfold place. rewrite Hl, Hm.
  replace (2 ^ Z.of_nat k - 1) with (Z.ones (Z.of_nat k)) by (rewrite Z.ones_equiv; lia).
  rewrite Z.land_ones by lia. unfold wrap.
  rewrite <- Znumtheory.Zmod_div_mod; try lia.
  - replace (2 ^ Z.of_nat k) with (Z.of_nat (2 ^ k)) by (by rewrite Nat2Z.inj_pow).
    rewrite <- Nat2Z.inj_mod. apply Nat2Z.id.
  - exists (2 ^ (64 - Z.of_nat k)). rewrite <- Z.pow_add_r by lia. f_equal. lia.
Qed.

Lemma slot_set s i j x : ring s -> forall t, (t <= i < t + length (slots s))%nat ->
  (t <= j < t + length (slots s))%nat ->
  slot_at (set_slot (u64 (Z.of_nat i)) x s) (u64 (Z.of_nat j))
  = if decide (i = j) then x else slot_at s (u64 (Z.of_nat j)).
Proof.
  intros Hr t Hi Hj. pose proof (ring_pos _ Hr). unfold slot_at.
  change (place (set_slot _ x s) (u64 (Z.of_nat j))) with (place s (u64 (Z.of_nat j))).
  unfold set_slot. simpl. rewrite !place_index by done. case_decide as E.
  - subst. rewrite list_lookup_insert_eq; [done |]. by apply Nat.mod_upper_bound.
  - rewrite list_lookup_insert_ne; [done |]. intros E'. apply E.
    replace i with (t + (i - t))%nat in E' by lia. replace j with (t + (j - t))%nat in E' by lia.
    apply mod_inj in E'; lia.
Qed.

(** ** The invariant while the ring is not overfull *)

(** What the slot of claim [i] holds: nothing ready before the claim and while its call is
    under way, the callback until the consumer has it. *)
Definition slot_ok (s : pool) (i : nat) : Prop :=
  let x := slot_at s (u64 (Z.of_nat i)) in
  match posts s !! i with
  | Some Publishing => x = mk_slot (claimed s !! i) false
  | Some _ => ready x = false
  | None =>
      if decide (length (claimed s) <= i)%nat then ready x = false
      else match consumer s, decide (i = taken s) with
           | Clearing _, left _ => ready x = true
           | Advancing _, left _ => ready x = false
           | _, _ => x = mk_slot (claimed s !! i) true
           end
  end.

Definition consumer_ok (s : pool) : Prop :=
  let posted := (taken s < length (claimed s))%nat /\ posts s !! taken s = None in
  match consumer s with
  | Taking => posted
  | Clearing f | Advancing f => posted /\ f = claimed s !! taken s
  | Running f => exists t, taken s = S t /\ f = claimed s !! t /\ (t < length (claimed s))%nat
  | _ => True
  end.

(** How many callbacks have been run. *)
Definition finished (s : pool) : nat :=
  match consumer s with Running _ => taken s - 1 | _ => taken s end.

Record calm (s : pool) : Prop := mk_calm {
  calm_ring : ring s;
  calm_head : head s = u64 (Z.of_nat (length (claimed s)));
  calm_tail : tail s = u64 (Z.of_nat (taken s));
  calm_window : (taken s <= length (claimed s) <= taken s + length (slots s))%nat;
  calm_overflows : overflows s = 0%nat;
  calm_posts : forall i p, posts s !! i = Some p ->
    (taken s <= i < length (claimed s))%nat /\ (p = Spinning 0 \/ p = Storing \/ p = Publishing);
  calm_slots : forall i, (taken s <= i < taken s + length (slots s))%nat -> slot_ok s i;
  calm_consumer : consumer_ok s;
  calm_delivered : delivered s = take (finished s) (claimed s)
}.

Lemma calm_claim f s : calm s -> crowded (claim f s) = false -> calm (claim f s).
Proof.
  intros [Hr Hh Ht Hw Ho Hp Hs Hc Hd] Hcr. unfold claim in *. simpl in *.
  apply orb_false_iff in Hcr as [_ Hn]. apply Nat.leb_gt in Hn.
  assert (Hnone : posts s !! length (claimed s) = None).
  { destruct (posts s !! length (claimed s)) eqn:E; [| done]. apply Hp in E. lia. }
  constructor; simpl; try done; rewrite ?length_app; simpl.
  - rewrite Hh, wrap_add. f_equal. lia.
  - lia.
  - intros i p. rewrite lookup_insert_Some. intros [[<- <-] | [Hne Hi]].
    + split; [lia | by left].
    + apply Hp in Hi as [? ?]. split; [lia | done].
  - intros i Hi. specialize (Hs i Hi). unfold slot_ok in *. simpl.
    destruct (decide (i = length (claimed s))) as [-> | Hne].
    + rewrite lookup_insert_eq. rewrite Hnone, decide_True in Hs by lia. done.
    + rewrite lookup_insert_ne, length_app by done. simpl.
      destruct (decide (i < length (claimed s))%nat).
      * rewrite lookup_app_l by done. rewrite decide_False by lia.
        by rewrite decide_False in Hs by lia.
      * rewrite decide_True by lia. rewrite decide_True in Hs by lia.
        destruct (posts s !! i) eqn:E; [apply Hp in E; lia | done].
  - unfold consumer_ok in *. simpl. rewrite length_app. simpl.
    destruct (consumer s); try done.
    1-3: rewrite ?lookup_insert_ne, ?lookup_app_l by lia; intuition lia.
    destruct Hc as (t & ? & ? & ?). exists t. rewrite lookup_app_l by done. split_and!; [done | done | lia].
  - rewrite Hd. unfold finished. simpl. rewrite take_app_le; [done |]. destruct (consumer s); lia.
Qed.

(** An access of call [n] that leaves the slots of the other claims alone. *)
Lemma calm_post n p q x s :
  calm s -> posts s !! n = Some p -> q = None \/ q = Some Storing \/ q = Some Publishing ->
  let s1 := match x with Some x => set_slot (u64 (Z.of_nat n)) x s | None => s end in
  slot_ok (set_post n q s1) n -> calm (set_post n q s1).
Proof.
  intros [Hr Hh Ht Hw Ho Hp Hs Hc Hd] Hn Hq s1 Hok. destruct (Hp _ _ Hn) as [Hwin _].
  assert (Hsl : forall i, (taken s <= i < taken s + length (slots s))%nat -> i <> n ->
    slot_at (set_post n q s1) (u64 (Z.of_nat i)) = slot_at s (u64 (Z.of_nat i))).
  { intros i Hi Hin. unfold s1. destruct x as [x |]; [| done].
    change (slot_at (set_post n q (set_slot (u64 (Z.of_nat n)) x s)) (u64 (Z.of_nat i)))
      with (slot_at (set_slot (u64 (Z.of_nat n)) x s) (u64 (Z.of_nat i))).
    rewrite (slot_set s n i x Hr (taken s)) by lia. by rewrite decide_False. }
  assert (Hlen : length (slots s1) = length (slots s)).
  { unfold s1. destruct x; [simpl; by rewrite length_insert | done]. }
  assert (s1 = mk_pool (slots s1) (mask s) (head s) (tail s) (running s) (posts s) (consumer s)
    (claimed s) (taken s) (delivered s) (overflows s) (crowded s)) as E by (unfold s1; by destruct x, s).
  clearbody s1. rewrite E in *. clear E. simpl in *.
  constructor; simpl; rewrite ?Hlen; try done.
  - destruct Hr as (k & ? & ? & ?). exists k. simpl. rewrite Hlen. done.
  - intros i r Hi. destruct (decide (i = n)) as [-> | ?].
    + rewrite lookup_partial_alter_eq in Hi. split; [lia |].
      destruct Hq as [-> | [-> | ->]]; [done | |]; injection Hi as <-; by auto.
    + rewrite lookup_partial_alter_ne in Hi by done. eauto.
  - intros i Hi. destruct (decide (i = n)) as [-> | ?]; [done |].
    specialize (Hs i Hi). unfold slot_ok in *. simpl in *. rewrite Hsl by done.
    by rewrite lookup_partial_alter_ne.
  - unfold consumer_ok in *. simpl in *. destruct (consumer s); try done.
    1-3: assert (n <> taken s) by (intros ->; rewrite Hn in Hc; intuition congruence);
      by rewrite lookup_partial_alter_ne.
Qed.

Lemma calm_access n p s : calm s -> posts s !! n = Some p -> calm (post_access n p s).
Proof.
  intros H Hn. pose proof H as [Hr Hh Ht Hw Ho Hp Hs Hc Hd].
  destruct (Hp _ _ Hn) as [Hwin Hph].
  assert (Hin : (taken s <= n < taken s + length (slots s))%nat) by lia.
  pose proof (Hs n Hin) as Hok. unfold slot_ok in Hok. rewrite Hn in Hok.
  destruct Hph as [-> | [-> | ->]]; simpl.
  - rewrite Hok. apply (calm_post n (Spinning 0) (Some Storing) None); [done | done | by auto |].
    unfold slot_ok. simpl. by rewrite lookup_partial_alter_eq.
  - apply (calm_post n Storing (Some Publishing) (Some _)); [done | done | by auto |].
    unfold slot_ok. simpl. rewrite lookup_partial_alter_eq.
    change (slot_at (set_post n (Some Publishing) ?s1)) with (slot_at s1).
    rewrite (slot_set s n n _ Hr (taken s)), decide_True by done. by rewrite Hok.
  - apply (calm_post n Publishing None (Some _)); [done | done | by auto |].
    unfold slot_ok. simpl. rewrite lookup_partial_alter_eq, decide_False by lia.
    change (slot_at (set_post n None ?s1)) with (slot_at s1).
    rewrite (slot_set s n n _ Hr (taken s)), decide_True, Hok by done. simpl.
    unfold consumer_ok in Hc. destruct (consumer s); try done.
    all: case_decide; [subst; rewrite Hn in Hc; intuition congruence | done].
Qed.

(** A consumer that only moves between its tests. *)
Lemma calm_set_consumer c s : calm s ->
  (forall f, consumer s <> Clearing f) -> (forall f, consumer s <> Advancing f) ->
  (forall f, consumer s <> Running f) ->
  c = Taking /\ consumer_ok (set_consumer Taking s) \/ c = AtRunning \/ c = AtPending \/ c = AtSlot \/ c = Ended ->
  calm (set_consumer c s).
Proof.
  intros [Hr Hh Ht Hw Ho Hp Hs Hc Hd] H1 H2 H3 Hcase.
  constructor; try done.
  - intros i Hi. specialize (Hs i Hi). unfold slot_ok in *. simpl.
    change (slot_at (set_consumer c s)) with (slot_at s).
    destruct (posts s !! i); [done |]. case_decide; [done |].
    assert (slot_at s (u64 (Z.of_nat i)) = mk_slot (claimed s !! i) true) as ->
      by (destruct (consumer s); try done; naive_solver).
    destruct Hcase as [[-> ?] | [-> | [-> | [-> | ->]]]]; done.
  - destruct Hcase as [[-> ?] | [-> | [-> | [-> | ->]]]]; done.
  - simpl. rewrite Hd. f_equal. unfold finished. simpl.
    destruct (consumer s) eqn:E; try (by exfalso; eapply H3);
      destruct Hcase as [[-> ?] | [-> | [-> | [-> | ->]]]]; done.
Qed.

(** The slot that is ready at the tail holds the callback of the tail. *)
Lemma ready_posted s : calm s -> ready (slot_at s (tail s)) = true ->
  (taken s < length (claimed s))%nat /\ posts s !! taken s = None.
Proof.
  intros H Hre. rewrite (calm_tail _ H) in Hre. pose proof (ring_pos _ (calm_ring _ H)).
  pose proof (calm_slots _ H (taken s) ltac:(lia)) as Hok. unfold slot_ok in Hok.
  destruct (posts s !! taken s) as [[]|]; try congruence; [by rewrite Hok in Hre |].
  case_decide; [congruence | split; [lia | done]].
Qed.

(** A consumer that works on the slot at the tail. *)
Lemma calm_tail_slot c x s : calm s ->
  (taken s < length (claimed s))%nat -> posts s !! taken s = None ->
  (consumer s = Taking /\ c = Clearing (claimed s !! taken s) /\ ready x = true
   \/ consumer s = Clearing (claimed s !! taken s) /\ c = Advancing (claimed s !! taken s) /\ ready x = false) ->
  calm (set_consumer c (set_slot (tail s) x s)).
Proof.
  intros [Hr Hh Ht Hw Ho Hp Hs Hc Hd] Hlt Hnone Hcase. pose proof (ring_pos _ Hr).
  constructor; simpl; rewrite ?length_insert; try done.
  - destruct Hr as (k & ? & ? & ?). exists k. simpl. by rewrite length_insert.
  - intros i Hi. specialize (Hs i Hi). unfold slot_ok in *. simpl. rewrite Ht.
    change (slot_at (set_consumer c ?s1)) with (slot_at s1).
    rewrite (slot_set s (taken s) i x Hr (taken s)) by lia.
    destruct (decide (taken s = i)) as [<- | Hne].
    + rewrite Hnone, decide_False by lia.
      destruct Hcase as [(? & -> & ?) | (? & -> & ?)]; by rewrite decide_True.
    + destruct (posts s !! i); [done |]. case_decide; [done |].
      destruct Hcase as [(E & -> & ?) | (E & -> & ?)]; rewrite E in Hs;
        rewrite ?decide_False in Hs by done; by rewrite decide_False.
  - unfold consumer_ok. simpl. by destruct Hcase as [(? & -> & ?) | (? & -> & ?)].
  - rewrite Hd. unfold finished. simpl.
    by destruct Hcase as [(-> & -> & ?) | (-> & -> & ?)].
Qed.

(** The place of the tail is the place of the claim that is a whole turn ahead. *)
Lemma slot_turn s i : ring s ->
  slot_at s (u64 (Z.of_nat (i + length (slots s)))) = slot_at s (u64 (Z.of_nat i)).
Proof.
  intros Hr. pose proof (ring_pos _ Hr). unfold slot_at. rewrite !place_index by done.
  replace (i + length (slots s))%nat with (i + 1 * length (slots s))%nat by lia. by rewrite Nat.Div0.mod_add.
Qed.

Lemma calm_advance s : calm s -> consumer s = Advancing (claimed s !! taken s) ->
  (taken s < length (claimed s))%nat -> posts s !! taken s = None -> calm (consume_access s).
Proof.
  intros [Hr Hh Ht Hw Ho Hp Hs Hc Hd] E Hlt Hn. pose proof (ring_pos _ Hr).
  unfold consume_access. rewrite E. constructor; simpl; try done.
  - rewrite Ht, wrap_add. f_equal. lia.
  - lia.
  - intros i p Hi. destruct (decide (i = taken s)) as [-> | ?]; [congruence |].
    apply Hp in Hi as [? ?]. split; [lia | done].
  - intros i Hi. destruct (decide (i = taken s + length (slots s))%nat) as [-> | Hne].
    + unfold slot_ok. simpl. destruct (posts s !! (_ + _)%nat) eqn:Ep; [apply Hp in Ep; lia |].
      rewrite decide_True by lia. change (slot_at (mk_pool ?a ?b ?c ?d ?e ?f ?g ?h ?i ?j ?k ?l)) with (slot_at s).
      rewrite slot_turn by done. specialize (Hs (taken s) ltac:(lia)). unfold slot_ok in Hs.
      rewrite Hn, E, decide_False, decide_True in Hs by lia. done.
    + specialize (Hs i ltac:(lia)). unfold slot_ok in *. rewrite E in Hs. simpl.
      destruct (posts s !! i); [done |]. case_decide; [done |]. by rewrite decide_False in Hs by lia.
  - unfold consumer_ok. simpl. by exists (taken s).
  - rewrite Hd. unfold finished. rewrite E. simpl. by rewrite Nat.sub_0_r.
Qed.

Lemma calm_consume s : calm s -> calm (consume_access s).
Proof.
  intros H. pose proof H as [Hr Hh Ht Hw Ho Hp Hs Hc Hd]. unfold consume_access.
  destruct (consumer s) eqn:E; try done.
  - apply calm_set_consumer; rewrite ?E; try done. destruct (running s); auto.
  - apply calm_set_consumer; rewrite ?E; try done. destruct (_ <? _); auto.
  - apply calm_set_consumer; rewrite ?E; try done. destruct (ready _) eqn:Er; [| by auto].
    left. split; [done |]. by apply ready_posted in Er.
  - unfold consumer_ok in Hc. rewrite E in Hc. destruct Hc as [Hlt Hn].
    pose proof (Hs (taken s) ltac:(pose proof (ring_pos _ Hr); lia)) as Hok. unfold slot_ok in Hok.
    rewrite Hn, decide_False, E, <- Ht in Hok by lia. rewrite Hok. simpl.
    apply calm_tail_slot; try done. left. done.
  - unfold consumer_ok in Hc. rewrite E in Hc. destruct Hc as [[Hlt Hn] ->].
    apply calm_tail_slot; try done. right. done.
  - unfold consumer_ok in Hc. rewrite E in Hc. destruct Hc as [[Hlt Hn] ->].
    pose proof (calm_advance s H E Hlt Hn) as Ha. unfold consume_access in Ha. by rewrite E in Ha.
  - unfold consumer_ok in Hc. rewrite E in Hc. destruct Hc as (t & Et & -> & Hlt).
    destruct (lookup_lt_is_Some_2 _ _ Hlt) as [f Hf].
    constructor; try done.
    + intros i Hi. specialize (Hs i Hi). unfold slot_ok in *. by rewrite E in Hs.
    + simpl. rewrite Hd, Hf. unfold finished. rewrite E, Et. simpl.
      by rewrite Nat.sub_0_r, (take_S_r _ _ _ Hf).
Qed.

(** ** Schedules *)

Lemma crowded_step s m : crowded (step s m) = false -> crowded s = false.
Proof.
  destruct m as [f | n | |]; simpl; [by intros [??]%orb_false_iff | | | done].
  - destruct (posts s !! n) as [[]|]; simpl; try done. by destruct (ready _).
  - unfold consume_access. by destruct (consumer s).
Qed.

Lemma crowded_run l s : crowded (run l s) = false -> crowded s = false.
Proof. revert s. induction l as [| m l IH]; intros s H; [done |]. apply IH, crowded_step in H. done. Qed.

Lemma calm_step s m : calm s -> crowded (step s m) = false -> calm (step s m).
Proof.
  intros H Hcr. destruct m as [f | n | |]; simpl in *.
  - by apply calm_claim.
  - destruct (posts s !! n) eqn:E; [by apply calm_access | done].
  - by apply calm_consume.
  - by destruct H; constructor.
Qed.

Lemma calm_run l s : calm s -> crowded (run l s) = false -> calm (run l s).
Proof.
  revert s. induction l as [| m l IH]; intros s H Hcr; [done |].
  apply IH; [| done]. apply calm_step; [done |]. by apply (crowded_run l).
Qed.

Lemma calm_init d : 0 <= d <= 2 ^ 63 -> calm (ProxyThreadPool d).
Proof.
  intros Hd. unfold ProxyThreadPool, ring_capacity.
  set (n := if d <? 16 then 16 else d).
  assert (0 < n <= 2 ^ 63) by (unfold n; destruct (Z.ltb_spec d 16); lia).
  rewrite nextPow2_up by done. pose proof (Z.log2_up_nonneg n).
  assert (Z.log2_up n <= 63) by (apply Z.log2_up_le_pow2; lia).
  constructor; simpl; try done; [| lia |].
  - exists (Z.to_nat (Z.log2_up n)). split_and!; [lia | | simpl; by rewrite Z2Nat.id].
    simpl. rewrite length_replicate. apply Nat2Z.inj. rewrite Nat2Z.inj_pow, !Z2Nat.id by lia. done.
  - intros i Hi. unfold slot_ok. simpl. rewrite lookup_empty.
    unfold slot_at. simpl. destruct (replicate _ _ !! _) eqn:E; [| done]. apply lookup_replicate in E as [-> _]. done.
Qed.

Lemma calm_after d l : 0 <= d <= 2 ^ 63 -> crowded (run l (ProxyThreadPool d)) = false ->
  calm (run l (ProxyThreadPool d)).
Proof. intros. apply calm_run; [by apply calm_init | done]. Qed.

Lemma run_app l l' s : run (l ++ l') s = run l' (run l s).
Proof. apply fold_left_app. Qed.

Lemma ended_stays k s : consumer s = Ended -> run (replicate k Consume) s = s.
Proof. intros E. induction k as [| k IH]; [done |]. simpl. unfold consume_access. by rewrite E. Qed.

(** ** What the queue promises *)

(** C33: As long as no slot is claimed while as many claims as there are slots are outstanding,
    callbacks are run one after the other in the order in which [post] claimed their slots,
    each once, whatever the interleaving of the posting threads with the consumer; nothing is
    dropped and no overflow is reported. *)
Theorem callbacks_in_order d l : 0 <= d <= 2 ^ 63 ->
  let s := run l (ProxyThreadPool d) in crowded s = false ->
  delivered s = take (finished s) (claimed s) /\
  (finished s <= length (claimed s) <= finished s + length (slots s) + 1)%nat /\ overflows s = 0%nat.
Proof.
  intros Hd s Hcr. pose proof (calm_after d l Hd Hcr) as H. fold s in H. clearbody s.
  destruct H as [_ _ _ Hw ? _ _ Hc ?]. split_and!; try done.
  all: unfold consumer_ok, finished in *; destruct (consumer s); lia.
Qed.

(** The callbacks that are outstanding are counted right until 2^64 were posted. *)
Lemma pending_exact s : calm s -> Z.of_nat (length (claimed s)) < 2 ^ 64 ->
  pending s = Z.of_nat (length (claimed s) - taken s).
Proof.
  intros [_ Hh Ht Hw _ _ _ _ _] Hn. unfold pending.
  rewrite Hh, Ht, !wrap_small by lia. destruct (Z.ltb_spec (Z.of_nat (taken s)) (Z.of_nat (length (claimed s)))); lia.
Qed.

(** How many accesses a stopped consumer still makes. *)
Definition work_left (s : pool) : nat :=
  let r := (length (claimed s) - taken s)%nat in
  match consumer s with
  | AtRunning => 8 * r + 3 | AtPending => 8 * r + 2
  | AtSlot => if decide (r = 0)%nat then 4 else 8 * r + 1
  | Taking => 8 * r | Clearing _ => 8 * r - 1 | Advancing _ => 8 * r - 2 | Running _ => 8 * r + 4
  | Ended => 0
  end.

(** The pool is stopped and no post is under way; a consumer that ended left nothing. *)
Definition closing (s : pool) : Prop :=
  calm s /\ posts s = ∅ /\ running s = false /\ Z.of_nat (length (claimed s)) < 2 ^ 64 /\
  (consumer s = Ended -> taken s = length (claimed s)).

Lemma slot_posted s : calm s -> posts s = ∅ -> (taken s < length (claimed s))%nat ->
  consumer s = AtSlot -> ready (slot_at s (tail s)) = true.
Proof.
  intros H Hp Hlt E. pose proof (ring_pos _ (calm_ring _ H)).
  pose proof (calm_slots _ H (taken s) ltac:(lia)) as Hok. unfold slot_ok in Hok.
  rewrite Hp, lookup_empty, decide_False, E in Hok by lia. by rewrite (calm_tail _ H), Hok.
Qed.

Lemma closing_consume s : closing s -> consumer s <> Ended ->
  closing (consume_access s) /\ claimed (consume_access s) = claimed s /\
  (work_left (consume_access s) < work_left s)%nat.
Proof.
  intros (H & Hp & Hr & Hn & He) Hne. pose proof (calm_window _ H). pose proof (calm_consumer _ H) as Hc.
  pose proof (pending_exact s H Hn) as Hpe. pose proof (ready_posted s H) as Hre.
  pose proof (slot_posted s H Hp) as Hsp. split.
  { unfold closing. split; [by apply calm_consume |]. unfold consume_access.
    destruct (consumer s); try done; simpl; split_and!; try done.
    1, 3: destruct (running s); simplify_eq; try done.
    all: try (destruct (Z.ltb_spec 0 (pending s)); [done | intros; lia]).
    all: by destruct (ready _). }
  unfold consume_access, work_left, consumer_ok in *.
  destruct (consumer s) eqn:E; try done; simpl; split; try done.
  - rewrite Hr. lia.
  - rewrite Hpe. destruct (Z.ltb_spec 0 (Z.of_nat (length (claimed s) - taken s))); [| lia].
    case_decide; lia.
  - destruct (ready (slot_at s (tail s))) eqn:Er.
    + destruct (Hre eq_refl). case_decide; lia.
    + case_decide; [lia |]. discriminate Hsp; [lia | done].
  - lia.
  - lia.
  - lia.
  - lia.
Qed.

Lemma closing_ends s : closing s ->
  exists k, (k <= work_left s)%nat /\
  let s' := run (replicate k Consume) s in consumer s' = Ended /\ delivered s' = claimed s.
Proof.
  remember (work_left s) as w eqn:Ew. revert s Ew.
  induction w as [w IH] using lt_wf_ind. intros s -> Hcl.
  destruct (decide (consumer s = Ended)) as [E | Hne].
  - exists 0%nat. destruct Hcl as (H & _ & _ & _ & He). split; [lia |]. split; [exact E |].
    simpl. rewrite (calm_delivered _ H). unfold finished. rewrite E, He by done. apply firstn_all.
  - destruct (closing_consume s Hcl Hne) as (Hcl' & <- & Hlt).
    destruct (IH _ Hlt _ eq_refl Hcl') as (k & Hk & Hr). exists (S k). split; [lia | exact Hr].
Qed.

(** A pool that is stopped, with no post under way, runs everything that was posted and
    then its consumer ends, within eight accesses for a callback and a few more, so that
    [stop] returns; provided that the ring was never overfull and nothing was posted after the
    consumer had ended. *)
Lemma stop_delivers d l : 0 <= d <= 2 ^ 63 ->
  let s := run l (ProxyThreadPool d) in
  crowded s = false -> posts s = ∅ -> running s = false ->
  Z.of_nat (length (claimed s)) < 2 ^ 64 -> (consumer s = Ended -> taken s = length (claimed s)) ->
  exists k : nat, (k <= 8 * (length (claimed s) - taken s) + 4)%nat /\
    let s' := run (replicate k Consume) s in consumer s' = Ended /\ delivered s' = claimed s.
Proof.
  intros Hd s Hcr Hp Hr Hn He. pose proof (calm_after d l Hd Hcr) as H. fold s in H.
  destruct (closing_ends s) as (k & Hk & Hs); [done |]. exists k. split; [| exact Hs].
  clearbody s. unfold work_left in Hk. destruct (consumer s); try lia. case_decide; lia.
Qed.

(** ** Concrete schedules *)

(** A post that is carried out at once, with as many tests of the slot as it may need. *)
Definition whole_post (n : nat) (f : callback) : list move := Post f :: replicate 70 (Access n).

Definition posts_in_turn (n : nat) : list move :=
  concat ((fun i => whole_post i (Callback (Z.of_nat i))) <$> seq 0 n).

Lemma callbacks_in_order_witness :
  0 <= 5 <= 2 ^ 63 /\
  let s := run (posts_in_turn 16 ++ replicate 40 Consume) (ProxyThreadPool 5) in
  crowded s = false /\ delivered s = take (finished s) (claimed s) /\ length (delivered s) = 6%nat.
Proof.
  split; [lia |]. intros s. assert (Hc : crowded s = false) by (vm_compute; reflexivity).
  split; [exact Hc |].
  split; [exact (proj1 (callbacks_in_order 5 (posts_in_turn 16 ++ replicate 40 Consume) ltac:(lia) Hc)) |].
  vm_compute. reflexivity.
Defined.

Definition stop_schedule : list move :=
  posts_in_turn 9 ++ replicate 3 Consume ++ [Stop] ++ whole_post 9 Sentinel.

Lemma stop_delivers_witness :
  0 <= 5 <= 2 ^ 63 /\
  let s := run stop_schedule (ProxyThreadPool 5) in
  crowded s = false /\ posts s = ∅ /\ running s = false /\ consumer s = Clearing (Some (Callback 0)) /\
  exists k : nat, let s' := run (replicate k Consume) s in
    consumer s' = Ended /\ delivered s' = (Callback ∘ Z.of_nat <$> seq 0 9) ++ [Sentinel].
Proof.
  split; [lia |]. cbv zeta. do 4 (split; [vm_compute; reflexivity |]).
  destruct (stop_delivers 5 stop_schedule) as (k & _ & He & Hd);
    [lia | vm_compute; reflexivity | vm_compute; reflexivity | vm_compute; reflexivity
    | vm_compute; reflexivity | vm_compute; discriminate |].
  exists k. split; [exact He |]. etransitivity; [exact Hd |]. vm_compute. reflexivity.
Defined.

(** ** When the ring is overfull *)

(** The consumer waits for a slot that nobody will fill, although callbacks are counted as
    pending. *)
Definition wedged (s : pool) : Prop :=
  posts s = ∅ /\ 0 < pending s /\ ready (slot_at s (tail s)) = false /\
  (consumer s = AtRunning \/ consumer s = AtPending \/ consumer s = AtSlot).

Lemma wedged_consume s : wedged s -> wedged (consume_access s) /\ delivered (consume_access s) = delivered s /\
  overflows (consume_access s) = overflows s.
Proof.
  intros (Hp & Hpe & Hr & Hc). unfold wedged, consume_access.
  destruct Hc as [E | [E | E]]; rewrite E; simpl.
  - by destruct (running s); auto 8.
  - rewrite (proj2 (Z.ltb_lt 0 (pending s)) Hpe). by auto 8.
  - rewrite Hr. by auto 8.
Qed.

Lemma wedged_forever k s : wedged s ->
  let s' := run (replicate k Consume) s in consumer s' <> Ended /\ delivered s' = delivered s /\
    overflows s' = overflows s.
Proof.
  revert s. induction k as [| k IH]; intros s H.
  - split; [| done]. simpl. destruct H as (_ & _ & _ & [-> | [-> | ->]]); done.
  - destruct (wedged_consume s H) as (H' & <- & <-). exact (IH _ H').
Qed.

(** One post more than the ring holds, while the consumer does not run; then the consumer
    runs all it finds, and the pool is stopped. *)
Definition overflow_schedule : list move :=
  posts_in_turn 17 ++ replicate 96 Consume ++ [Stop] ++ whole_post 17 Sentinel.

(** An overflow drops the oldest callback, runs the newest before the others, and leaves the
    consumer behind a slot that stays empty: [stop] never returns, and its sentinel is
    not reached. *)
Lemma overflow_wedges k :
  let s := run (overflow_schedule ++ replicate k Consume) (ProxyThreadPool 5) in
  overflows s = 1%nat /\ consumer s <> Ended /\
  delivered s = Callback 16 :: (Callback ∘ Z.of_nat <$> seq 1 15).
Proof.
  rewrite run_app. set (w := run overflow_schedule (ProxyThreadPool 5)).
  assert (Hw : wedged w) by (split_and!; [vm_compute; reflexivity .. | left; vm_compute; reflexivity]).
  assert (Ho : overflows w = 1%nat) by (vm_compute; reflexivity).
  assert (Hd : delivered w = Callback 16 :: (Callback ∘ Z.of_nat <$> seq 1 15)) by (vm_compute; reflexivity).
  clearbody w. destruct (wedged_forever k w Hw) as (? & ? & ?). split_and!; congruence.
Qed.

(** A thread that is held up between its claim and its store is overtaken by the one that
    claims the slot a turn later, though nothing overflows. *)
Lemma held_up_overtaken :
  let s := run ([Post (Callback 0)] ++
                concat ((fun i => whole_post i (Callback (Z.of_nat i))) <$> seq 1 16) ++
                replicate 6 Consume) (ProxyThreadPool 5) in
  delivered s = [Callback 16] /\ overflows s = 0%nat.
Proof. vm_compute. split; reflexivity. Qed.

(** A callback that is posted after the consumer has ended is never run. *)
Lemma posted_after_end_lost k :
  let s := run ([Stop; Consume; Consume] ++ whole_post 0 (Callback 0) ++ replicate k Consume) (ProxyThreadPool 5) in
  consumer s = Ended /\ delivered s = [] /\ claimed s = [Callback 0].
Proof.
  rewrite app_assoc, run_app. set (w := run (_ ++ _) _).
  assert (He : consumer w = Ended) by (vm_compute; reflexivity).
  assert (Hd : delivered w = [] /\ claimed w = [Callback 0]) by (split; vm_compute; reflexivity).
  clearbody w. rewrite ended_stays by done. done.
Qed.
