(* ===== verification/ProxyConn.v ===== *)
(** * The connection of a client proxy (proxy/base/proxy_connection.cpp, security/proxy_auth.cpp)

    Framed messages over a stream socket, signed with the verification library (Verify), the
    payloads received into blocks of a MemoryPool.  What the kernel answers is an
    argument: the portions in which the bytes of the stream arrive, the results of the calls
    on sockets, the two clocks, [malloc]. *)

From S2P Require Import Prelude MemoryPool Registry Crypto Verify Protocol.

(** [dev/proxy/base/proxy_result.h:37-56 ProxyError] *)
Inductive ProxyError :=
  | NotConnected | AlreadyConnected | ConnectionRefused | ConnectionTimeout | AuthFailed
  | ServiceNotFound | ShmCreateFailed | ShmSizeMismatch | SendFailed | RecvFailed
  | InvalidResponse | TimedOut | DaemonCrashed | BufferFull | InvalidArgument | PermissionDenied
  | InternalError.

(** [dev/proxy/base/proxy_result.h:97-128 Result] without the text of the detail. *)
Definition result (A : Type) : Type := A + ProxyError.

(** ** Authentication *)

(** [dev/proxy/security/proxy_auth.cpp:55-89 ProxyAuth::init] [path]: the configured key file, empty
    for none; [mem], [lock]: the allocation, the mutex; [file]: the bytes of a file that opens. *)
Definition ProxyAuth_init (path : string) (mem lock : bool) (file : string -> option (list Z))
    : result verify_context_t :=
  if negb mem then inr InternalError
  else
    let '(rc, ctx) :=
      if String.eqb path "" then verify_init (Some (replicate 32 0)) lock zero_ctx
      else verify_init_from_file (file path) lock zero_ctx in
    if rc =? 0 then inl ctx else inr AuthFailed.

(** [dev/proxy/security/proxy_auth.cpp:108-116 ProxyAuth::check] *)
Definition ProxyAuth_check (now : Z) (mem : bool) (data : list Z) (auth : message_auth_t)
    (ctx : verify_context_t) : bool * verify_context_t :=
  let '(rc, ctx') := verify_check_message now mem (Some data) (Some auth) ctx in (rc =? 0, ctx').

(** What a call that signs a message finds: the clocks, the process, the random nonce, the two
    allocations, and how the write ends. *)
Inductive write_answer := Written (n : Z) | PeerGone | WriteFailed.

Record send_env := mk_send {
  se_time : Z; se_getpid : Z; se_now1 : Z; se_now2 : Z; se_nonce : Z; se_mem : bool; se_buffer : bool;
  se_written : write_answer
}.

(** [dev/proxy/security/proxy_auth.cpp:91-106 ProxyAuth::sign] *)
Definition ProxyAuth_sign (e : send_env) (data : list Z) (ctx : verify_context_t)
    : result message_auth_t * verify_context_t :=
  match verify_sign_message (se_now1 e) (se_now2 e) (se_nonce e) (se_mem e) (Some data) ctx with
  | (0, ctx', Some auth) => (inl auth, ctx')
  | (_, ctx', _) => (inr AuthFailed, ctx')
  end.

(** ** The stream *)

(** What one [recv] meets: bytes (none: the peer has closed), a signal, the timeout, an
    error. *)
Inductive arrival := Bytes (l : list Z) | Interrupted | WouldBlock | Broken.

(** [dev/proxy/base/proxy_connection.cpp:244-265 ProxyConnection::readExact] the bytes read, the
    error, and what is left of the stream. *)
Fixpoint readExact (s : list arrival) (n : nat) : list Z * option ProxyError * list arrival :=
  match n with
  | O => ([], None, s)
  | S _ =>
      match s with
      | [] => ([], Some TimedOut, [])
      | Interrupted :: s' => readExact s' n
      | WouldBlock :: s' => ([], Some TimedOut, s')
      | Broken :: s' => ([], Some RecvFailed, s')
      | Bytes [] :: s' => ([], Some DaemonCrashed, s)
      | Bytes l :: s' =>
          if Nat.leb (length l) n
          then let '(got, err, s'') := readExact s' (n - length l) in (l ++ got, err, s'')
          else (take n l, None, Bytes (drop n l) :: s')
      end
  end.

(** The 56 bytes of a header in memory. *)
Definition wire_header (h : sm_hdr_t) : list Z := header_bytes h ++ hmac h.

Definition field (off n : nat) (bs : list Z) : Z :=
  wrap (8 * Z.of_nat n) (le_val (take n (drop off bs))).

Definition parse_header (bs : list Z) : sm_hdr_t :=
  mk_hdr (field 0 4 bs) (field 4 2 bs) (field 6 2 bs) (field 8 4 bs) (field 12 4 bs) (field 16 4 bs)
    (field 20 4 bs) (take 32 (drop 24 bs)).

(** ** The connection *)

(** [dev/proxy/base/proxy_connection.h:189-195 ProxyConnection] [auth_] is there when it is ready;
    the last field holds the descriptors that were opened and not closed. *)
Record ProxyConnection := mk_conn {
  auth_ : option verify_context_t;
  fd_ : Z;
  connected_ : bool;
  seq_ : Z;
  recv_pool_ : option memory_pool;
  open_fds : list Z
}.

Implicit Types c : ProxyConnection.

Definition set_auth a c := mk_conn a (fd_ c) (connected_ c) (seq_ c) (recv_pool_ c) (open_fds c).
Definition set_connected b c := mk_conn (auth_ c) (fd_ c) b (seq_ c) (recv_pool_ c) (open_fds c).
Definition set_seq n c := mk_conn (auth_ c) (fd_ c) (connected_ c) n (recv_pool_ c) (open_fds c).
Definition set_pool p c := mk_conn (auth_ c) (fd_ c) (connected_ c) (seq_ c) (Some p) (open_fds c).

(** [close(fd_); fd_ = -1] *)
Definition close_fd c :=
  mk_conn (auth_ c) (-1) (connected_ c) (seq_ c) (recv_pool_ c) (List.filter (fun f => negb (f =? fd_ c)) (open_fds c)).

(** [dev/core/service_manager/infrastructure/sm_protocol.h:73-73 SM_MAX_MESSAGE_SIZE] *)
Definition SM_MAX_MESSAGE_SIZE : Z := sizeof_sm_hdr_t + SM_MAX_PAYLOAD_SIZE.

(** [dev/proxy/base/proxy_connection.cpp:41-59 ProxyConnection::ProxyConnection] *)
Definition ProxyConnection_new (o : mmap_answers) (callback_queue_depth : Z) : ProxyConnection :=
  mk_conn None (-1) false 0
    (memory_pool_create o (Some (mk_config SM_MAX_MESSAGE_SIZE (u64 (callback_queue_depth * 2)) 0
                                   (Some "proxy_recv_pool"%string))))
    [].

(** [dev/proxy/base/proxy_connection.cpp:69-71 ProxyConnection::setAuth] *)
Definition setAuth (a : verify_context_t) c : ProxyConnection := set_auth (Some a) c.

(** [dev/proxy/base/proxy_connection.cpp:154-160 ProxyConnection::disconnect] *)
Definition disconnect c : ProxyConnection :=
  set_connected false (if 0 <=? fd_ c then close_fd c else c).

(** [dev/proxy/base/proxy_connection.cpp:162-164 ProxyConnection::isConnected] *)
Definition isConnected c : bool := connected_ c && (0 <=? fd_ c).

(** [dev/proxy/base/proxy_connection.cpp:172-240 ProxyConnection::send] the result, the bytes given
    to [writev], the connection.  A null payload with a length is left out. *)
Definition send (e : send_env) (type : Z) (payload : list Z) c
    : result unit * option (list Z) * ProxyConnection :=
  if negb (isConnected c) then (inr NotConnected, None, c)
  else
    let c := set_seq (u32 (seq_ c + 1)) c in
    let hdr mac := mk_hdr SM_PROTOCOL_MAGIC SM_PROTOCOL_VERSION type (Z.of_nat (length payload))
                     (u32 (se_time e)) (u32 (se_getpid e)) (seq_ c) mac in
    let zeros := replicate 32 0 in
    let write mac c :=
      let bs := wire_header (hdr mac) ++ payload in
      match se_written e with
      | Written _ => (inl tt, Some bs, c)
      | PeerGone => (inr DaemonCrashed, Some bs, set_connected false c)
      | WriteFailed => (inr SendFailed, Some bs, set_connected false c)
      end in
    match auth_ c with
    | None => write zeros c
    | Some ctx =>
        let data := header_bytes (hdr zeros) ++ payload in
        if Nat.ltb 512 (length data) && negb (se_buffer e) then (inr InternalError, None, c)
        else match ProxyAuth_sign e data ctx with
             | (inr err, ctx') => (inr err, None, set_auth (Some ctx') c)
             | (inl auth, ctx') => write (auth_hmac auth) (set_auth (Some ctx') c)
             end
    end.

(** [dev/proxy/base/proxy_connection.h:46-52 ProxyMessage] *)
Record ProxyMessage := mk_msg {
  pm_type : Z; pm_nonce : Z; pm_payload : Z; pm_payload_len : Z; pm_block : Z
}.

(** What a call that receives finds: the clocks of the header check and of the replay check,
    the allocations. *)
Record recv_env := mk_recv { re_time : Z; re_mono : Z; re_mem : bool; re_buffer : bool }.

(** [dev/proxy/base/proxy_connection.cpp:309-336 ProxyConnection::recvMessage, step 4] whether
    the message is let through. *)
Definition hmac_passes (e : recv_env) (hdr : sm_hdr_t) (payload : list Z) (a : option verify_context_t)
    : bool * option verify_context_t :=
  match a with
  | None => (true, None)
  | Some ctx =>
      let data := header_bytes hdr ++ payload in
      if Nat.ltb 512 (length data) && negb (re_buffer e) then (true, Some ctx)
      else let '(ok, ctx') := ProxyAuth_check (re_mono e) (re_mem e) data
                                (mk_auth (hmac hdr) (timestamp hdr) (nonce hdr) 0) ctx in
           (ok, Some ctx')
  end.

(** The bytes that are read into a block. *)
Definition fill_block (p : memory_pool) (blk : Z) (bs : list Z) : memory_pool :=
  set_mem p (splice (Z.to_nat (blk - base p)) bs (mem p)).

(** [dev/proxy/base/proxy_connection.cpp:267-348 ProxyConnection::recvMessage] [None]: the pool's
    allocation leaves its memory. *)
Definition recvMessage (e : recv_env) (s : list arrival) c
    : option (result ProxyMessage * list arrival * ProxyConnection) :=
  if negb (isConnected c) then Some (inr NotConnected, s, c)
  else match recv_pool_ c with
  | None => Some (inr InternalError, s, c)
  | Some pool =>
    match readExact s 56 with
    | (_, Some err, s1) => Some (inr err, s1, set_connected false c)
    | (bs, None, s1) =>
      let hdr := parse_header bs in
      if negb (sm_validate_header (Some hdr) (sizeof_sm_hdr_t + msg_length hdr) (re_time e) =? 0)
      then Some (inr InvalidResponse, s1, close_fd (set_connected false c))
      else
        let finish payload blk s2 c2 :=
          let '(ok, a') := hmac_passes e hdr payload (auth_ c2) in
          let c3 := set_auth a' c2 in
          if ok then Some (inl (mk_msg (msg_type hdr) (nonce hdr) blk (msg_length hdr) blk), s2, c3)
          else
            let c4 := match recv_pool_ c3 with
                      | Some p => if negb (blk =? 0) then set_pool (memory_pool_free p blk) c3 else c3
                      | None => c3
                      end in
            Some (inr AuthFailed, s2, close_fd (set_connected false c4)) in
        if 0 <? msg_length hdr then
          match memory_pool_alloc pool with
          | AllocUB => None
          | AllocNull p' => Some (inr BufferFull, s1, set_pool p' c)
          | AllocOk blk p' =>
              match readExact s1 (Z.to_nat (msg_length hdr)) with
              | (got, Some err, s2) =>
                  Some (inr err, s2,
                        set_pool (memory_pool_free (fill_block p' blk got) blk) (set_connected false c))
              | (got, None, s2) => finish got blk s2 (set_pool (fill_block p' blk got) c)
              end
          end
        else finish [] 0 s1 c
    end
  end.

(** [dev/proxy/base/proxy_connection.cpp:350-357 ProxyConnection::releaseBuffer] *)
Definition releaseBuffer (m : ProxyMessage) c : ProxyMessage * ProxyConnection :=
  (mk_msg (pm_type m) (pm_nonce m) 0 0 0,
   match recv_pool_ c with
   | Some p => if negb (pm_block m =? 0) then set_pool (memory_pool_free p (pm_block m)) c else c
   | None => c
   end).

(** [dev/proxy/base/proxy_connection.cpp:361-368 ProxyConnection::sendHandshakeHello] *)
Definition sendHandshakeHello (e : send_env) c : result unit * option (list Z) * ProxyConnection :=
  send e SM_MSG_HEARTBEAT (cbuf 64 "proxy") c.

(** [dev/proxy/base/proxy_connection.cpp:370-387 ProxyConnection::recvHandshakeWelcome] *)
Definition recvHandshakeWelcome (e : recv_env) (s : list arrival) c : option (list arrival * ProxyConnection) :=
  match recvMessage e s c with
  | None => None
  | Some (inl m, s', c') => Some (s', snd (releaseBuffer m c'))
  | Some (inr _, s', c') => Some (s', c')
  end.

(** What the calls on the socket answer while a connection is set up: the descriptor, the
    timeouts, [connect]. *)
Inductive connect_answer := Accepted | Refused | Unreached.

Record connect_env := mk_connect {
  ce_socket : Z; ce_timeouts1 : bool; ce_connect : connect_answer; ce_timeouts2 : bool;
  ce_hello : send_env; ce_welcome : recv_env
}.

(** [dev/proxy/base/proxy_connection.cpp:75-137 ProxyConnection::connect] [s]: what the daemon
    sends on the new connection. *)
Definition connect (e : connect_env) (s : list arrival) (socket_path : string) c
    : option (result unit * list arrival * ProxyConnection) :=
  if connected_ c then Some (inr AlreadyConnected, s, c)
  else if ce_socket e <? 0 then
    Some (inr InternalError, s,
          mk_conn (auth_ c) (ce_socket e) (connected_ c) (seq_ c) (recv_pool_ c) (open_fds c))
  else
    let c := mk_conn (auth_ c) (ce_socket e) (connected_ c) (seq_ c) (recv_pool_ c)
               (ce_socket e :: open_fds c) in
    if negb (ce_timeouts1 e) then Some (inr InternalError, s, close_fd c)
    else if Nat.leb 108 (String.length socket_path) then Some (inr InvalidArgument, s, close_fd c)
    else match ce_connect e with
    | Refused => Some (inr ConnectionRefused, s, close_fd c)
    | Unreached => Some (inr ConnectionTimeout, s, close_fd c)
    | Accepted =>
        if negb (ce_timeouts2 e) then Some (inr InternalError, s, close_fd c)
        else
          match sendHandshakeHello (ce_hello e) (set_seq 0 (set_connected true c)) with
          | (inr err, _, c') => Some (inr err, s, disconnect c')
          | (inl _, _, c') =>
              match recvHandshakeWelcome (ce_welcome e) s c' with
              | None => None
              | Some (s', c'') => Some (inl tt, s', c'')
              end
          end
    end.

(** ** Reading the stream *)

(** The bytes that arrive before the peer closes or something fails. *)
Fixpoint stream_bytes (s : list arrival) : list Z :=
  match s with
  | Bytes [] :: _ | [] | WouldBlock :: _ | Broken :: _ => []
  | Interrupted :: s' => stream_bytes s'
  | Bytes l :: s' => l ++ stream_bytes s'
  end.

(** However the bytes are portioned, [readExact] takes the first of them. *)
Lemma readExact_takes s : forall n, (n <= length (stream_bytes s))%nat ->
  exists s', readExact s n = (take n (stream_bytes s), None, s') /\ stream_bytes s' = drop n (stream_bytes s).
Proof.
  induction s as [| a s IH]; intros n Hn.
  - simpl in *. assert (n = 0%nat) as -> by lia. by exists [].
  - destruct n as [| n]; [exists (a :: s); by rewrite take_0, drop_0 |].
    destruct a as [[| x l] | | |]; simpl in Hn; try lia.
    + set (xl := x :: l) in *.
      assert (Hx : (S n <= length xl + length (stream_bytes s))%nat) by (rewrite length_app in Hn; unfold xl; simpl; lia).
      change (readExact (Bytes xl :: s) (S n)) with
        (if Nat.leb (length xl) (S n)
         then let '(got, err, s'') := readExact s (S n - length xl) in (xl ++ got, err, s'')
         else (take (S n) xl, None, Bytes (drop (S n) xl) :: s)).
      change (stream_bytes (Bytes xl :: s)) with (xl ++ stream_bytes s). clearbody xl.
      destruct (Nat.leb_spec (length xl) (S n)).
      * destruct (IH (S n - length xl)%nat) as (s' & -> & Hs').
        { lia. }
        exists s'. rewrite take_app, drop_app, (take_ge xl), (drop_ge xl) by lia. by rewrite Hs'.
      * exists (Bytes (drop (S n) xl) :: s). rewrite take_app_le, drop_app_le by lia. split; [done |].
        destruct (drop (S n) xl) eqn:E; [| done]. apply (f_equal length) in E. rewrite length_drop in E. simpl length in E. lia.
    + by apply IH.
Qed.

(** The bytes read, whatever arrives, are no more than were asked for. *)
Lemma readExact_length s : forall n, (length (readExact s n).1.1 <= n)%nat.
Proof.
  induction s as [| a s IH]; intros [| n]; simpl; try lia.
  destruct a as [[| x l] | | |]; simpl; try lia; [| apply IH].
  destruct (Nat.leb_spec (length l) n).
  - specialize (IH (n - length l)%nat). destruct (readExact s (n - length l)) as [[got err] s'']. simpl in *.
    rewrite length_app. lia.
  - simpl. rewrite length_take. lia.
Qed.

Definition header_ok (h : sm_hdr_t) : Prop :=
  0 <= magic h < 2 ^ 32 /\ 0 <= version h < 2 ^ 16 /\ 0 <= msg_type h < 2 ^ 16 /\
  0 <= msg_length h < 2 ^ 32 /\ 0 <= timestamp h < 2 ^ 32 /\ 0 <= client_pid h < 2 ^ 32 /\
  0 <= nonce h < 2 ^ 32 /\ length (hmac h) = 32%nat.

Lemma le_read n v : 0 <= v < 2 ^ (8 * Z.of_nat n) -> wrap (8 * Z.of_nat n) (le_val (le_bytes n v)) = v.
Proof. intros H. rewrite le_val_le_bytes. unfold wrap. rewrite Z.mod_mod by lia. by apply Z.mod_small. Qed.

Lemma length_wire_header h : length (hmac h) = 32%nat -> length (wire_header h) = 56%nat.
Proof. intros H. unfold wire_header, header_bytes. rewrite !length_app, !length_le_bytes, H. done. Qed.

(** A header is read back as it was written. *)
Lemma parse_wire_header h : header_ok h -> parse_header (wire_header h) = h.
Proof.
  intros (Hm & Hv & Ht & Hl & Hts & Hp & Hn & Hh). destruct h as [m v t l ts p n mac]. simpl in *.
  unfold parse_header. f_equal.
  - exact (le_read 4 m Hm).
  - exact (le_read 2 v Hv).
  - exact (le_read 2 t Ht).
  - exact (le_read 4 l Hl).
  - exact (le_read 4 ts Hts).
  - exact (le_read 4 p Hp).
  - exact (le_read 4 n Hn).
  - change (take 32 mac = mac). apply take_ge. lia.
Qed.

(** ** The blocks of the messages *)

(** The first [n] bytes at an address of the pool. *)
Definition content (p : memory_pool) (ptr : Z) (n : nat) : list Z :=
  take n (drop (Z.to_nat (ptr - base p)) (mem p)).

(** The blocks in use are those of the messages that are held, and each still has its
    payload. *)
Record pool_holds (p : memory_pool) (held : list (Z * list Z)) : Prop := {
  ph_live : live_inv (p, held.*1);
  ph_size : SM_MAX_PAYLOAD_SIZE <= block_size (config p);
  ph_content : forall ptr bs, (ptr, bs) ∈ held -> content p ptr (length bs) = bs /\ (length bs <= nbsz p)%nat
}.

Lemma content_slot p i n : pool_inv p -> (i < nblocks p)%nat -> (n <= nbsz p)%nat ->
  content p (block_addr p i) n = take n (slot (nbsz p) i (mem p)).
Proof.
  intros Hi Hn Hs. destruct (block_off p i Hi Hn) as (_ & _ & Ho).
  unfold content, slot, block_addr. rewrite take_take, Nat.min_l by done. do 2 f_equal.
  rewrite <- Ho. f_equal. lia.
Qed.

Lemma block_nonzero p i : pool_inv p -> block_addr p i <> 0.
Proof. intros []. unfold block_addr. nia. Qed.

(** A held block is a block of the pool. *)
Lemma held_block p held ptr bs : pool_holds p held -> (ptr, bs) ∈ held ->
  exists i, (i < nblocks p)%nat /\ in_use p i = true /\ ptr = block_addr p i.
Proof. intros [Hl _ _] Hin. apply (lv_used _ Hl). simpl. apply list_elem_of_fmap. by exists (ptr, bs). Qed.

(** A block is taken and filled. *)
Lemma holds_alloc p held blk p' got :
  pool_holds p held -> memory_pool_alloc p = AllocOk blk p' -> (length got <= nbsz p)%nat ->
  pool_holds (fill_block p' blk got) ((blk, got) :: held) /\ blk <> 0 /\ blk ∉ held.*1.
Proof.
  intros H Ha Hg. pose proof H as [Hl Hsz Hc]. pose proof (lv_pool _ Hl) as Hp. simpl in Hp.
  pose proof (alloc_ok p Hp) as Ho. rewrite Ha in Ho. destruct Ho as (i & -> & [Ht Hp' _ Hother]).
  pose proof (live_alloc p _ p' i Hl Hp' Ht) as Hl'. pose proof Ht as [Hr Hfree Hused Hcfg Hbase].
  assert (Hnb : nblocks p' = nblocks p) by (unfold nblocks; by rewrite Hcfg).
  assert (Hsb : nbsz p' = nbsz p) by (unfold nbsz; by rewrite Hcfg).
  assert (Haddr : forall j, block_addr p' j = block_addr p j) by (intros; unfold block_addr; by rewrite Hcfg, Hbase).
  destruct (block_off p' i Hp' ltac:(lia)) as (_ & _ & Ho).
  assert (Hoff : Z.to_nat (block_addr p i - base p') = (i * nbsz p)%nat).
  { rewrite <- Haddr, <- Hsb, <- Ho. f_equal. unfold block_addr. lia. }
  assert (Hlen : ((i + 1) * nbsz p <= length (mem p'))%nat) by (rewrite (pi_mem _ Hp'), Hnb, Hsb; nia).
  assert (Hm : length (mem (fill_block p' (block_addr p i) got)) = length (mem p')).
  { simpl. apply length_splice. rewrite Hoff. lia. }
  assert (Hpf : pool_inv (fill_block p' (block_addr p i) got)).
  { destruct Hp'. constructor; try done. by rewrite Hm. }
  split; [| split; [by apply block_nonzero |]].
  2:{ pose proof (lv_nodup _ Hl') as Hnd. simpl in Hnd. by apply NoDup_cons in Hnd as [? _]. }
  constructor.
  - by apply (live_ext p').
  - simpl. by rewrite Hcfg.
  - intros ptr bs [[= -> ->] | Hin]%elem_of_cons.
    + split; [| unfold nbsz in *; simpl; by rewrite Hcfg].
      unfold content. simpl. rewrite Hoff. unfold splice. rewrite drop_app_length' by (rewrite length_take; lia).
      apply take_app_length.
    + destruct (Hc _ _ Hin) as [Hcon Hbl]. split; [| unfold nbsz in *; simpl; by rewrite Hcfg].
      destruct (held_block p held ptr bs H Hin) as (j & Hj & Hju & ->).
      assert (j <> i) by congruence.
      rewrite content_slot in Hcon by done. rewrite <- (Haddr j).
      change (block_addr p' j) with (block_addr (fill_block p' (block_addr p i) got) j).
      rewrite content_slot; [| done | simpl; unfold nblocks in *; simpl; by rewrite Hcfg | unfold nbsz in *; simpl; by rewrite Hcfg].
      change (nbsz (fill_block p' _ got)) with (nbsz p'). rewrite Hsb. simpl. rewrite Hoff.
      rewrite (slot_splice_ne (nbsz p) i j); [| done | lia | lia | done]. by rewrite Hother.
Qed.

Lemma holds_null p held p' :
  pool_holds p held -> memory_pool_alloc p = AllocNull p' -> pool_holds p' held /\ nused p = nblocks p.
Proof.
  intros [Hl Hsz Hc] Ha. pose proof (alloc_ok p (lv_pool _ Hl)) as Ho. rewrite Ha in Ho.
  destruct Ho as (Hfull & Hp' & Hb & Hm & _ & Hcfg & Hbase). split; [| done]. constructor.
  - by apply (live_ext p).
  - by rewrite Hcfg.
  - intros ptr bs Hin. unfold content, nbsz. rewrite Hcfg, Hbase, Hm. by apply Hc.
Qed.

(** Giving a held block back keeps the others. *)
Lemma holds_free p held blk : pool_holds p held -> blk ∈ held.*1 ->
  pool_holds (memory_pool_free p blk) (List.filter (fun h => negb (h.1 =? blk)) held).
Proof.
  intros [Hl Hsz Hc] Hin. pose proof (lv_pool _ Hl) as Hp. simpl in Hp.
  apply (lv_used _ Hl) in Hin as (i & Hi & Hu & ->). simpl in *.
  destruct (free_success p i Hp Hi Hu) as (Ht & Hp' & Hm).
  pose proof (live_free p _ _ i Hl Hp' Ht) as Hl'. pose proof Ht as [_ _ _ Hcfg Hbase]. constructor.
  - replace (List.filter _ held).*1 with (List.filter (fun q => negb (q =? block_addr p i)) held.*1); [done |].
    clear. induction held as [| [q b] held IH]; simpl; [done |]. destruct (negb (q =? block_addr p i)); simpl; [f_equal |]; exact IH.
  - by rewrite <- Hcfg.
  - intros ptr bs [Hin _]%list_elem_of_In%List.filter_In. apply list_elem_of_In in Hin.
    unfold content, nbsz. rewrite <- Hcfg, <- Hbase, Hm. by apply Hc.
Qed.

(** A pool that was just created holds nothing. *)
Lemma holds_created o depth a : mmap_data o = Some a -> 0 < a -> 0 <= depth < 2 ^ 30 -> a < 2 ^ 48 ->
  forall p, recv_pool_ (ProxyConnection_new o depth) = Some p -> pool_holds p [].
Proof.
  intros Ho Ha Hd Ht p Hp. unfold ProxyConnection_new, recv_pool_ in Hp.
  assert (Hw : u64 (depth * 2) = depth * 2) by (apply wrap_small; lia). rewrite Hw in Hp.
  destruct (create_inv _ _ _ a Hp Ho) as [Hi Hu]; simpl.
  - lia.
  - change (align8 SM_MAX_MESSAGE_SIZE) with 1080. lia.
  - done.
  - change (align8 SM_MAX_MESSAGE_SIZE) with 1080. lia.
  - constructor; [by apply live_empty | | by intros ? ? ?%not_elem_of_nil].
    unfold memory_pool_create in Hp. destruct (_ <? 8); [done |].
    repeat (case_match; try done). simplify_eq/=. vm_compute. discriminate.
Qed.

(** ** Receiving *)

Lemma readExact_full s : forall n got s', readExact s n = (got, None, s') -> length got = n.
Proof.
  induction s as [| a s IH]; intros [| n] got s' H; cbn [readExact] in H; try (injection H as <-); try done.
  destruct a as [[| x l] | | |]; try done; [| by eapply IH].
  set (xl := x :: l) in *. clearbody xl. destruct (Nat.leb_spec (length xl) (S n)).
  - destruct (readExact s (S n - length xl)) as [[g err] s''] eqn:E.
    injection H as <- -> ->. apply IH in E. rewrite length_app. lia.
  - injection H as <- <-. rewrite length_take. lia.
Qed.

(** A header that is let through announces a payload that fits a block. *)
Lemma valid_length h size now : sm_validate_header (Some h) size now = 0 ->
  msg_length h <> 0 /\ msg_length h <= SM_MAX_PAYLOAD_SIZE.
Proof.
  unfold sm_validate_header. repeat (case_match; try done). bool_to_prop. lia.
Qed.

Lemma holds_release p held blk got : pool_holds p ((blk, got) :: held) -> blk ∉ held.*1 ->
  pool_holds (memory_pool_free p blk) held.
Proof.
  intros H Hn. pose proof (holds_free p _ blk H ltac:(left)) as Hf. simpl in Hf.
  rewrite Z.eqb_refl in Hf. simpl in Hf.
  rewrite filter_id in Hf; [done |]. intros [q b] Hq. apply negb_true_iff, Z.eqb_neq. simpl. intros ->.
  apply Hn, list_elem_of_fmap. by exists (blk, b).
Qed.

Definition payload_of (m : ProxyMessage) c : list Z :=
  match recv_pool_ c with
  | Some p => content p (pm_payload m) (Z.to_nat (pm_payload_len m))
  | None => []
  end.

(** A message and the bytes its payload had. *)
Definition msg_ok (h : ProxyMessage * list Z) : Prop :=
  pm_payload h.1 = pm_block h.1 /\ pm_block h.1 <> 0 /\ Z.to_nat (pm_payload_len h.1) = length h.2.

(** Whatever arrives, [recvMessage] stays inside its pool; a message that is handed out has a
    block of its own, and every other outcome leaves the blocks as they were. *)
Lemma recv_holds e s c p held : recv_pool_ c = Some p -> pool_holds p held ->
  exists r s' c' p', recvMessage e s c = Some (r, s', c') /\ recv_pool_ c' = Some p' /\
    match r with
    | inl m => pool_holds p' ((pm_block m, payload_of m c') :: held) /\ msg_ok (m, payload_of m c')
    | inr _ => pool_holds p' held
    end.
Proof.
  intros Hpool Hh. unfold recvMessage. rewrite Hpool.
  destruct (negb (isConnected c)); [eauto 10 |].
  destruct (readExact s 56) as [[bs [err |]] s1]; [eauto 10 |].
  destruct (negb (_ =? 0)) eqn:Hv; [by eauto 10 |]. apply negb_false_iff, Z.eqb_eq in Hv.
  set (hdr := parse_header bs) in *. destruct (valid_length _ _ _ Hv) as [Hne Hle].
  assert (Hpos : 0 <= msg_length hdr).
  { apply wrap_range. lia. }
  clearbody hdr.
  destruct (Z.ltb_spec 0 (msg_length hdr)); [| lia].
  destruct (memory_pool_alloc p) as [p' | blk p' |] eqn:Ha.
  { destruct (holds_null p held p' Hh Ha). by eauto 10. }
  2:{ pose proof (alloc_ok p (lv_pool _ (ph_live _ _ Hh))) as Ho. by rewrite Ha in Ho. }
  pose proof (readExact_length s1 (Z.to_nat (msg_length hdr))) as Hgl.
  destruct (readExact s1 (Z.to_nat (msg_length hdr))) as [[got err] s2] eqn:Er. simpl in Hgl.
  assert (Hgot : (length got <= nbsz p)%nat) by (unfold nbsz; pose proof (ph_size _ _ Hh); unfold SM_MAX_PAYLOAD_SIZE in *; lia).
  destruct (holds_alloc p held blk p' got Hh Ha Hgot) as (Hf & Hnz & Hnew).
  pose proof (holds_release _ _ _ _ Hf Hnew) as Hrel.
  destruct err as [err |]; [by eauto 10 |].
  destruct (hmac_passes e hdr got _) as [ok a']. simpl. destruct ok.
  - do 4 eexists. split; [reflexivity |]. split; [reflexivity |]. split.
    all: unfold payload_of, msg_ok; simpl; rewrite <- (readExact_full _ _ _ _ Er);
      by destruct (ph_content _ _ Hf blk got ltac:(left)) as [-> _].
  - apply Z.eqb_neq in Hnz. rewrite Hnz. simpl. by eauto 10.
Qed.

(** C32: A message that arrives whole, in whatever portions, with a header that is valid and an
    authentication that passes, is handed out with its type, nonce and payload, in a block no
    other message has; what follows it stays on the stream. *)
Theorem message_delivered e s c p held h payload rest :
  recv_pool_ c = Some p -> pool_holds p held -> (length held < nblocks p)%nat -> isConnected c = true ->
  header_ok h -> sm_validate_header (Some h) (sizeof_sm_hdr_t + msg_length h) (re_time e) = 0 ->
  Z.of_nat (length payload) = msg_length h ->
  (hmac_passes e h payload (auth_ c)).1 = true ->
  stream_bytes s = wire_header h ++ payload ++ rest ->
  exists m s' c' p', recvMessage e s c = Some (inl m, s', c') /\ recv_pool_ c' = Some p' /\
    pm_type m = msg_type h /\ pm_nonce m = nonce h /\ payload_of m c' = payload /\
    pool_holds p' ((pm_block m, payload) :: held) /\ stream_bytes s' = rest /\ isConnected c' = true.
Proof.
  intros Hpool Hh Hroom Hc Hok Hv Hlen Hauth Hs.
  pose proof (length_wire_header h) as Hw. pose proof (parse_wire_header h Hok) as Hparse.
  destruct Hok as (_ & _ & _ & Hml & _ & _ & _ & Hmac). specialize (Hw Hmac).
  destruct (readExact_takes s 56) as (s1 & Hr1 & Hs1); [rewrite Hs, length_app; lia |].
  rewrite Hs, take_app_length', drop_app_length' in * by done.
  destruct (valid_length _ _ _ Hv) as [Hne Hle].
  unfold recvMessage. rewrite Hc, Hpool. cbn [negb]. rewrite Hr1, Hparse, Hv. cbn [negb Z.eqb].
  destruct (Z.ltb_spec 0 (msg_length h)); [| lia].
  pose proof (alloc_ok p (lv_pool _ (ph_live _ _ Hh))) as Ho.
  destruct (memory_pool_alloc p) as [p' | blk p' |] eqn:Ha; [| | done].
  { destruct (holds_null p held p' Hh Ha) as [_ Hfull].
    pose proof (live_length _ _ (ph_live _ _ Hh)) as Hl. rewrite length_fmap in Hl. lia. }
  destruct (readExact_takes s1 (Z.to_nat (msg_length h))) as (s2 & Hr2 & Hs2);
    [rewrite Hs1, length_app; lia |].
  rewrite Hs1, take_app_length', drop_app_length' in * by lia. rewrite Hr2.
  assert (Hgot : (length payload <= nbsz p)%nat).
  { unfold nbsz. pose proof (ph_size _ _ Hh). unfold SM_MAX_PAYLOAD_SIZE in *. lia. }
  destruct (holds_alloc p held blk p' payload Hh Ha Hgot) as (Hf & Hnz & Hnew).
  cbn [auth_ set_pool]. destruct (hmac_passes e h payload (auth_ c)) as [ok a']. simpl in Hauth. subst ok.
  do 4 eexists. split; [reflexivity |]. split; [reflexivity |]. split_and!; try done.
  unfold payload_of. simpl. replace (Z.to_nat (msg_length h)) with (length payload) by lia.
  by destruct (ph_content _ _ Hf blk payload ltac:(left)).
Qed.

(** ** Every sequence of calls *)

(** The calls on a connection; a message is released by its place among the held ones. *)
Inductive proxy_call :=
  | CAuth (a : verify_context_t)
  | CConnect (e : connect_env) (s : list arrival) (path : string)
  | CSend (e : send_env) (type : Z) (payload : list Z)
  | CRecv (e : recv_env)
  | CRelease (k : nat)
  | CDisconnect.

(** The connection, what is still to arrive, and the messages that are held, each with the
    bytes its payload had when it was handed out. *)
Record session := mk_session {
  ss_conn : ProxyConnection; ss_stream : list arrival; ss_held : list (ProxyMessage * list Z)
}.

Definition session_call (x : session) (k : proxy_call) : option session :=
  let c := ss_conn x in let s := ss_stream x in let held := ss_held x in
  match k with
  | CAuth a => Some (mk_session (setAuth a c) s held)
  | CConnect e s' path =>
      match connect e s' path c with
      | Some (_, s'', c') => Some (mk_session c' s'' held)
      | None => None
      end
  | CSend e type payload => Some (mk_session (snd (send e type payload c)) s held)
  | CRecv e =>
      match recvMessage e s c with
      | Some (inl m, s', c') => Some (mk_session c' s' ((m, payload_of m c') :: held))
      | Some (inr _, s', c') => Some (mk_session c' s' held)
      | None => None
      end
  | CRelease i =>
      match held !! i with
      | Some (m, _) => Some (mk_session (snd (releaseBuffer m c)) s
                               (List.filter (fun h => negb (pm_block h.1 =? pm_block m)) held))
      | None => Some x
      end
  | CDisconnect => Some (mk_session (disconnect c) s held)
  end.

Fixpoint session_run (x : session) (l : list proxy_call) : option session :=
  match l with
  | [] => Some x
  | k :: l' => match session_call x k with Some x' => session_run x' l' | None => None end
  end.

Definition blocks_of (held : list (ProxyMessage * list Z)) : list (Z * list Z) :=
  (fun h => (pm_block h.1, h.2)) <$> held.

Definition session_ok (x : session) : Prop :=
  match recv_pool_ (ss_conn x) with
  | Some p => pool_holds p (blocks_of (ss_held x)) /\ Forall msg_ok (ss_held x)
  | None => ss_held x = []
  end.

Lemma blocks_held m bs held : (m, bs) ∈ held -> (pm_block m, bs) ∈ blocks_of held.
Proof. intros H. apply list_elem_of_fmap. by exists (m, bs). Qed.

Lemma held_payload x : session_ok x -> Forall (fun h => payload_of h.1 (ss_conn x) = h.2) (ss_held x).
Proof.
  unfold session_ok, payload_of. destruct (recv_pool_ (ss_conn x)) as [p |]; [| by intros ->].
  intros [Hp Hm]. apply Forall_forall. intros [m bs] Hin.
  destruct (proj1 (Forall_forall _ _) Hm _ Hin) as (E1 & _ & E2). simpl in *. rewrite E1, E2.
  by apply (ph_content _ _ Hp), blocks_held.
Qed.

Lemma blocks_filter blk held :
  blocks_of (List.filter (fun h => negb (pm_block h.1 =? blk)) held)
  = List.filter (fun h => negb (h.1 =? blk)) (blocks_of held).
Proof.
  unfold blocks_of. induction held as [| [m b] held IH]; simpl; [done |].
  destruct (negb (pm_block m =? blk)); simpl; [f_equal |]; exact IH.
Qed.

Lemma send_pool e t pl c : recv_pool_ (send e t pl c).2 = recv_pool_ c.
Proof.
  unfold send. destruct (negb _); [done |]. simpl. destruct (auth_ c).
  - destruct (_ && _); [done |]. destruct (ProxyAuth_sign _ _ _) as [[]]; [| done]. by destruct (se_written e).
  - by destruct (se_written e).
Qed.

Lemma recv_no_pool e s c : recv_pool_ c = None -> exists r, recvMessage e s c = Some (inr r, s, c).
Proof. intros H. unfold recvMessage. rewrite H. destruct (negb _); eauto. Qed.

Lemma welcome_holds e s c p held : recv_pool_ c = Some p -> pool_holds p held ->
  exists s' c' p', recvHandshakeWelcome e s c = Some (s', c') /\ recv_pool_ c' = Some p' /\ pool_holds p' held.
Proof.
  intros Hp Hh. destruct (recv_holds e s c p held Hp Hh) as (r & s' & c' & p' & Hr & Hp' & H).
  unfold recvHandshakeWelcome. rewrite Hr. destruct r as [m | err]; [| by eauto 10].
  destruct H as (H & _ & Hnz & _). simpl in Hnz. unfold releaseBuffer. rewrite Hp'. simpl.
  apply Z.eqb_neq in Hnz. rewrite Hnz. simpl. do 3 eexists. split; [reflexivity |]. split; [reflexivity |].
  pose proof (lv_nodup _ (ph_live _ _ H)) as Hnd. simpl in Hnd. apply NoDup_cons in Hnd as [Hnew _].
  by apply holds_release in H.
Qed.

(** The pool of a connection that is set up. *)
Definition keeps_pool c (held : list (Z * list Z)) (o : option (result unit * list arrival * ProxyConnection)) : Prop :=
  exists r s' c', o = Some (r, s', c') /\
    match recv_pool_ c with
    | Some p => pool_holds p held -> exists p', recv_pool_ c' = Some p' /\ pool_holds p' held
    | None => recv_pool_ c' = None
    end.

Lemma connect_keeps e s path c held :
  match recv_pool_ c with Some p => pool_holds p held | None => True end ->
  keeps_pool c held (connect e s path c).
Proof.
  intros H. unfold connect.
  assert (Hsame : forall r s' c', recv_pool_ c' = recv_pool_ c -> keeps_pool c held (Some (r, s', c'))).
  { intros r s' c' E. exists r, s', c'. split; [done |]. rewrite E. destruct (recv_pool_ c); eauto. }
  destruct (connected_ c); [by apply Hsame |]. destruct (_ <? 0); [by apply Hsame |].
  destruct (negb (ce_timeouts1 e)); [by apply Hsame |]. destruct (Nat.leb _ _); [by apply Hsame |].
  destruct (ce_connect e); [| by apply Hsame | by apply Hsame].
  destruct (negb (ce_timeouts2 e)); [by apply Hsame |].
  set (c1 := set_seq 0 _). unfold sendHandshakeHello.
  pose proof (send_pool (ce_hello e) SM_MSG_HEARTBEAT (cbuf 64 "proxy") c1) as Hp.
  change (recv_pool_ c1) with (recv_pool_ c) in Hp.
  destruct (send _ _ _ c1) as [[[[] | err] bs] c2]; simpl in Hp.
  - destruct (recv_pool_ c) as [p |] eqn:Ec.
    + destruct (welcome_holds (ce_welcome e) s c2 p held Hp H) as (s' & c' & p' & -> & Hc' & Hh').
      unfold keeps_pool. rewrite Ec. by eauto 10.
    + unfold recvHandshakeWelcome. destruct (recv_no_pool (ce_welcome e) s c2 Hp) as [r ->].
      by apply Hsame; congruence.
  - apply Hsame. unfold disconnect. simpl. by destruct (0 <=? fd_ c2).
Qed.

Lemma session_step x k : session_ok x -> exists x', session_call x k = Some x' /\ session_ok x'.
Proof.
  intros H. unfold session_ok in H. destruct k as [a | e s path | e ty pl | e | i |]; simpl.
  - by eauto.
  - destruct (connect_keeps e s path (ss_conn x) (blocks_of (ss_held x))) as (r & s' & c' & -> & Hc).
    { destruct (recv_pool_ (ss_conn x)); [by destruct H | done]. }
    eexists. split; [reflexivity |]. unfold session_ok. simpl.
    destruct (recv_pool_ (ss_conn x)); [| by rewrite Hc].
    destruct H as [Hh Hf]. by destruct (Hc Hh) as (p' & -> & ?).
  - eexists. split; [reflexivity |]. unfold session_ok. simpl. by rewrite send_pool.
  - destruct (recv_pool_ (ss_conn x)) as [p |] eqn:Ep.
    + destruct H as [Hh Hf].
      destruct (recv_holds e (ss_stream x) (ss_conn x) p _ Ep Hh) as (r & s' & c' & p' & -> & Hp' & Hr).
      destruct r as [m | err]; eexists; (split; [reflexivity |]); unfold session_ok; simpl; rewrite Hp'; [| done].
      destruct Hr as [Hr Hm]. split; [done | by constructor].
    + destruct (recv_no_pool e (ss_stream x) (ss_conn x) Ep) as [r ->].
      eexists. split; [reflexivity |]. unfold session_ok. simpl. by rewrite Ep.
  - destruct (ss_held x !! i) as [[m bs] |] eqn:Ei; [| by eauto].
    destruct (recv_pool_ (ss_conn x)) as [p |] eqn:Ep; [| by rewrite H in Ei].
    destruct H as [Hh Hf]. pose proof (Forall_lookup_1 _ _ _ _ Hf Ei) as (_ & Hnz & _). simpl in Hnz.
    eexists. split; [reflexivity |]. unfold session_ok. simpl.
    rewrite (proj2 (Z.eqb_neq _ _) Hnz). simpl. split.
    + assert (Hin : pm_block m ∈ (blocks_of (ss_held x)).*1).
      { apply list_elem_of_lookup_2, blocks_held in Ei. apply list_elem_of_fmap. by exists (pm_block m, bs). }
      rewrite blocks_filter. by apply holds_free.
    + apply Forall_forall. intros h [Hh' _]%list_elem_of_In%List.filter_In.
      apply list_elem_of_In in Hh'. by apply (proj1 (Forall_forall _ _) Hf).
  - eexists. split; [reflexivity |]. unfold session_ok, disconnect. simpl. by destruct (0 <=? fd_ (ss_conn x)).
Qed.

Lemma session_runs l : forall x, session_ok x -> exists x', session_run x l = Some x' /\ session_ok x'.
Proof.
  induction l as [| k l IH]; intros x H; [by exists x |].
  destruct (session_step x k H) as (x1 & E & H1). simpl. rewrite E. by apply IH.
Qed.

Definition session0 (o : mmap_answers) (depth : Z) : session := mk_session (ProxyConnection_new o depth) [] [].

(** C31: Whatever is called on a proxy's connection, in whatever order, and whatever the daemon
    sends, the connection stays inside its memory; every message that was handed out and not
    released has its own block with the bytes it was handed out with; and no other block
    is in use. *)
Theorem payloads_intact o depth a l : mmap_data o = Some a -> 0 < a < 2 ^ 48 -> 0 <= depth < 2 ^ 30 ->
  exists x, session_run (session0 o depth) l = Some x /\
    Forall (fun h => payload_of h.1 (ss_conn x) = h.2) (ss_held x) /\
    NoDup ((fun h => pm_block h.1) <$> ss_held x) /\
    match recv_pool_ (ss_conn x) with
    | Some p => used_blocks (stats p) = Z.of_nat (length (ss_held x))
    | None => ss_held x = []
    end.
Proof.
  intros Ho Ha Hd. destruct (session_runs l (session0 o depth)) as (x & Hx & H).
  { unfold session_ok, session0. cbn [ss_conn ss_held].
    destruct (recv_pool_ (ProxyConnection_new o depth)) as [p |] eqn:Ep; [| done].
    split; [| constructor]. apply (holds_created o depth a); [done | lia | lia | lia | done]. }
  exists x. split; [done |]. split; [by apply held_payload |]. unfold session_ok in H.
  destruct (recv_pool_ (ss_conn x)) as [p |]; [| rewrite H; split; [constructor | done]].
  destruct H as [Hh _]. pose proof (ph_live _ _ Hh) as Hl.
  assert (E : (blocks_of (ss_held x)).*1 = (fun h => pm_block h.1) <$> ss_held x) by (unfold blocks_of; by rewrite <- list_fmap_compose).
  rewrite <- E. split; [exact (lv_nodup _ Hl) |].
  pose proof (pi_used _ (lv_pool _ Hl)) as Hu. simpl in Hu.
  rewrite Hu, <- (live_length _ _ Hl), E, length_fmap. done.
Qed.

(** ** What differs from what is announced *)

(** The replay check of the verification library compares the header's time, seconds since
    1970, with the time since the machine was started, and answers with the number that stands
    for a valid MAC: every message passes, whatever its MAC. *)
Lemma forged_message_passes path mem lock file ctx e h payload :
  ProxyAuth_init path mem lock file = inl ctx ->
  0 < re_mono e -> re_mono e + TIMESTAMP_WINDOW < timestamp h ->
  (hmac_passes e h payload (Some ctx)).1 = true.
Proof.
  intros Hi Hm Ht. unfold hmac_passes. destruct (_ && _); [done |].
  assert (Hc : enable_timestamp_check ctx = true /\ replay_ctx ctx = mk_replay 0 0 TIMESTAMP_WINDOW true true).
  { unfold ProxyAuth_init in Hi. destruct (negb mem); [done |].
    assert (Hv : forall key rc v, verify_init key lock zero_ctx = (rc, v) -> (rc =? 0) = true -> v = ctx ->
      enable_timestamp_check ctx = true /\ replay_ctx ctx = mk_replay 0 0 TIMESTAMP_WINDOW true true).
    { unfold verify_init, replay_context_init. intros key rc v Hv Hrc <-.
      destruct key as [key |]; [| by simplify_eq]. destruct (_ || _); [by simplify_eq |].
      destruct lock; simplify_eq/=; done. }
    destruct (String.eqb path "").
    - destruct (verify_init _ _ _) as [rc v] eqn:E. destruct (rc =? 0) eqn:Er; [| done]. simplify_eq. by eapply Hv.
    - unfold verify_init_from_file in Hi. destruct (file path); [| done]. destruct (Nat.eqb _ _); [done |].
      destruct (verify_init _ _ _) as [rc v] eqn:E. destruct (rc =? 0) eqn:Er; [| done]. simplify_eq. by eapply Hv. }
  destruct Hc as [He Hr]. unfold ProxyAuth_check, verify_check_message.
  destruct (header_bytes h ++ payload) eqn:Eb.
  { apply (f_equal length) in Eb. unfold header_bytes in Eb. rewrite !length_app, !length_le_bytes in Eb. done. }
  assert (Hrc : replay_check (mk_replay 0 0 TIMESTAMP_WINDOW true true) (re_mono e) (timestamp h) 0 = 0).
  { unfold replay_check, TIMESTAMP_WINDOW in *. simpl. destruct (Z.eqb_spec (re_mono e) 0); [lia |].
    destruct (Z.ltb_spec (timestamp h) (re_mono e)); [lia |].
    destruct (Z.ltb_spec (re_mono e) (timestamp h)); [| lia]. simpl.
    destruct (Z.ltb_spec 30 (timestamp h - re_mono e)); [done | lia]. }
  cbn [length Nat.eqb]. cbn [Verify.timestamp sequence]. rewrite He, Hr, Hrc. done.
Qed.

(** A proxy signs its own clock, a random nonce and a sequence number before the message, and
    sends none of them: the daemon takes the message exactly if two different texts have the
    same MAC. *)
Lemma proxy_signature_differs e type payload c ctx bs c' :
  auth_ c = Some ctx -> send e type payload c = (inl tt, Some bs, c') ->
  rate_limit_per_sec ctx = 0 -> se_mem e = true -> Z.of_nat (length payload) <= SM_MAX_PAYLOAD_SIZE ->
  exists h, bs = wire_header h ++ payload /\
    let sq := u32 (last_sequence (replay_ctx ctx) + 1) in
    (sm_validate_header_hmac (Some h) (Some payload) (Some (key_of ctx)) = SM_OK <->
     rfc_hmac (key_of ctx) (sign_data (se_now2 e) (se_nonce e) sq (header_bytes h ++ payload)) =
     rfc_hmac (key_of ctx) (header_bytes h ++ payload)).
Proof.
  intros Ha Hs Hr Hmem Hl. unfold send in Hs. destruct (negb _); [done |]. simpl in Hs. rewrite Ha in Hs.
  destruct (_ && _); [done |].
  set (h mac := mk_hdr SM_PROTOCOL_MAGIC SM_PROTOCOL_VERSION type (Z.of_nat (length payload))
         (u32 (se_time e)) (u32 (se_getpid e)) (u32 (seq_ c + 1)) mac) in *.
  assert (Hne : header_bytes (h (replicate 32 0)) ++ payload <> []).
  { intros E. apply (f_equal length) in E. unfold header_bytes in E. rewrite !length_app, !length_le_bytes in E. done. }
  unfold ProxyAuth_sign in Hs. rewrite Hmem, sign_unlimited in Hs by done. simpl in Hs.
  set (mac := rfc_hmac _ _) in Hs. exists (h mac). split.
  { destruct (se_written e); by simplify_eq. }
  intros sq.
  assert (Hb : bytes mac /\ length mac = SM_HMAC_SIZE) by (unfold mac; split; [apply fips_bytes | apply length_fips]).
  assert (Em : mac = rfc_hmac (key_of ctx) (sign_data (se_now2 e) (se_nonce e) sq (header_bytes (h mac) ++ payload)))
    by reflexivity.
  clearbody mac. rewrite <- Em.
  destruct (hdr_hmac (h mac) payload (key_of ctx)) as [Hiff _];
    [cbn [msg_length h]; lia | reflexivity | apply Hb | apply Hb |].
  exact Hiff.
Qed.

(** A message that finds the pool exhausted is refused, but its payload stays on the stream: the
    next call takes it for a header. *)
Lemma exhausted_pool_desyncs e s c p held h rest :
  recv_pool_ c = Some p -> pool_holds p held -> nused p = nblocks p -> isConnected c = true ->
  header_ok h -> sm_validate_header (Some h) (sizeof_sm_hdr_t + msg_length h) (re_time e) = 0 ->
  stream_bytes s = wire_header h ++ rest ->
  exists s' c', recvMessage e s c = Some (inr BufferFull, s', c') /\ stream_bytes s' = rest /\
    isConnected c' = true.
Proof.
  intros Hpool Hh Hfull Hc Hok Hv Hs. pose proof (parse_wire_header h Hok) as Hparse.
  pose proof Hok as (_ & _ & _ & Hml & _ & _ & _ & Hmac). pose proof (length_wire_header h Hmac) as Hw.
  destruct (readExact_takes s 56) as (s1 & Hr1 & Hs1); [rewrite Hs, length_app; lia |].
  rewrite Hs, take_app_length', drop_app_length' in * by done. destruct (valid_length _ _ _ Hv) as [Hne _].
  unfold recvMessage. rewrite Hc, Hpool. cbn [negb]. rewrite Hr1, Hparse, Hv. cbn [negb Z.eqb].
  destruct (Z.ltb_spec 0 (msg_length h)); [| lia].
  pose proof (alloc_ok p (lv_pool _ (ph_live _ _ Hh))) as Ho.
  destruct (memory_pool_alloc p) as [p' | blk p' |] eqn:Ha; [by eauto 10 | | done].
  destruct Ho as (i & -> & [Ht _ _ _]). pose proof (taken_count _ _ _ Ht) as Hct. destruct Ht as [_ _ _ Hcfg _].
  exfalso. pose proof (count_true_le (in_use p') (nblocks p')) as Hle. fold (nused p') in Hle.
  unfold nblocks in *. rewrite Hcfg in Hle. lia.
Qed.

(** ** On concrete inputs *)

Definition demo_maps : mmap_answers := mk_mmap true (Some 4096) true.

Definition demo_recv : recv_env := mk_recv 1700000000 5000 true true.
Definition demo_send : send_env := mk_send 1700000000 77 5000 5000 9 true true (Written 120).

Definition demo_header : sm_hdr_t :=
  mk_hdr SM_PROTOCOL_MAGIC SM_PROTOCOL_VERSION 3 4 1700000000 42 7 (replicate 32 0).

Definition demo_stream : list arrival :=
  [Bytes (take 10 (wire_header demo_header)); Interrupted; Bytes (drop 10 (wire_header demo_header) ++ [1; 2]);
   Bytes [3; 4; 99]].

Definition demo_pool : memory_pool :=
  default (mk_pool 0 [] [] 0 (mk_config 0 0 0 None) (mk_stats 0 0 0 0 0 0 0) 0 0 "")
    (recv_pool_ (ProxyConnection_new demo_maps 1)).

(** A connection on descriptor 5. *)
Definition demo_conn : ProxyConnection := mk_conn None 5 true 1 (Some demo_pool) [5].

Lemma demo_pool_holds : pool_holds demo_pool [].
Proof. apply (holds_created demo_maps 1 4096); [done | lia | lia | lia |]. vm_compute. reflexivity. Qed.

Lemma message_delivered_witness :
  recv_pool_ demo_conn = Some demo_pool /\ (0 < nblocks demo_pool)%nat /\
  stream_bytes demo_stream = wire_header demo_header ++ [1; 2; 3; 4] ++ [99] /\
  exists m s' c', recvMessage demo_recv demo_stream demo_conn = Some (inl m, s', c') /\
    payload_of m c' = [1; 2; 3; 4] /\ stream_bytes s' = [99].
Proof.
  assert (Hs : stream_bytes demo_stream = wire_header demo_header ++ [1; 2; 3; 4] ++ [99]) by (vm_compute; reflexivity).
  assert (Hr : (0 < nblocks demo_pool)%nat) by (apply Nat.ltb_lt; vm_compute; reflexivity).
  split; [reflexivity |]. split; [exact Hr |]. split; [exact Hs |].
  destruct (message_delivered demo_recv demo_stream demo_conn demo_pool [] demo_header [1; 2; 3; 4] [99])
    as (m & s' & c' & p' & H & _ & _ & _ & Hp & _ & Hr' & _).
  - reflexivity.
  - exact demo_pool_holds.
  - exact Hr.
  - reflexivity.
  - split_and!; try (vm_compute; reflexivity); vm_compute; try discriminate; done.
  - vm_compute. reflexivity.
  - reflexivity.
  - reflexivity.
  - exact Hs.
  - exists m, s', c'. split; [exact H |]. split; [exact Hp | exact Hr'].
Defined.

Lemma payloads_intact_witness :
  mmap_data demo_maps = Some 4096 /\
  exists x, session_run (session0 demo_maps 1)
              [CConnect (mk_connect 5 true Accepted true demo_send demo_recv) demo_stream "/run/x.sock"; CRecv demo_recv]
            = Some x /\
    Forall (fun h => payload_of h.1 (ss_conn x) = h.2) (ss_held x).
Proof.
  split; [reflexivity |].
  destruct (payloads_intact demo_maps 1 4096
    [CConnect (mk_connect 5 true Accepted true demo_send demo_recv) demo_stream "/run/x.sock"; CRecv demo_recv])
    as (x & Hx & Hf & _); [reflexivity | lia | lia |].
  exists x. split; [exact Hx | exact Hf].
Defined.

(** A daemon that says nothing for a second after the hello: the connection is reported as set
    up, but is not; the next one is opened without closing it, and its descriptor is lost. *)
Lemma silent_daemon_leaks :
  let e fd := mk_connect fd true Accepted true demo_send demo_recv in
  exists c1 c2,
    connect (e 5) [] "/run/x.sock" demo_conn = Some (inr AlreadyConnected, [], demo_conn) /\
    connect (e 5) [] "/run/x.sock" (disconnect demo_conn) = Some (inl tt, [], c1) /\
    isConnected c1 = false /\
    connect (e 6) [] "/run/x.sock" c1 = Some (inl tt, [], c2) /\ open_fds (disconnect c2) = [5].
Proof.
  intros e. unfold demo_conn.
  exists (mk_conn None 5 false 1 (Some demo_pool) [5]), (mk_conn None 6 false 1 (Some demo_pool) [6; 5]).
  generalize demo_pool. intros p.
  split_and!; vm_compute; reflexivity.
Qed.
