(* ===== verification/ServiceProxy.v ===== *)
(** * The client proxies (proxy/base/service_proxy.cpp, proxy/discovery/service_discovery.cpp)

    Requests and their replies, the events of the socket, the loss of the connection and
    the attempts to get it back, and the question to the daemon where a service is.  Every
    piece of code between two waits is one step; callbacks are posted to a CallbackQueue. *)

From S2P Require Import Prelude MemoryPool Registry Crypto Verify Protocol RateLimit Handlers ProxyConn.

(** ** The state *)

(** [dev/proxy/base/service_proxy.h:239-266 ServiceProxy] [sp_reply]: the stored reply while it is
    ready; [sp_watched]: the socket is in the set of the event loop; the last field holds
    the calls of the user's callbacks that were posted. *)
Inductive posted := Lost (e : ProxyError) | Restored.

Record ServiceProxy := mk_proxy {
  connection_ : ProxyConnection;
  connected : bool; stopping : bool; reconnecting : bool;
  sp_watched : bool;
  sp_reply : option ProxyMessage;
  callbacks : list posted
}.

Implicit Types x : ServiceProxy.

(** A descriptor that is closed leaves the event loop. *)
Definition with_conn c x :=
  mk_proxy c (connected x) (stopping x) (reconnecting x) (sp_watched x && (0 <=? fd_ c)) (sp_reply x) (callbacks x).
Definition with_reply r x :=
  mk_proxy (connection_ x) (connected x) (stopping x) (reconnecting x) (sp_watched x) r (callbacks x).

(** What a connection attempt finds: the key file and the allocation for it, the path of the
    service's socket, the answers of the socket, what arrives, and whether the subclass takes
    the connection. *)
Record attempt := mk_attempt {
  at_key : result verify_context_t; at_path : result string; at_connect : connect_env;
  at_stream : list arrival; at_taken : result unit
}.

(** [dev/proxy/base/service_proxy.cpp:104-134 ServiceProxy::doConnect] *)
Definition doConnect (a : attempt) x : option (result unit * list arrival * ServiceProxy) :=
  match match auth_ (connection_ x) with
        | Some _ => inl (connection_ x)
        | None => match at_key a with inl ctx => inl (setAuth ctx (connection_ x)) | inr e => inr e end
        end with
  | inr e => Some (inr e, at_stream a, x)
  | inl c =>
      match at_path a with
      | inr e => Some (inr e, at_stream a, with_conn c x)
      | inl path =>
          match connect (at_connect a) (at_stream a) path c with
          | None => None
          | Some (inr e, s, c') => Some (inr e, s, with_conn c' x)
          | Some (inl _, s, c') =>
              match at_taken a with
              | inr e => Some (inr e, s, with_conn (ProxyConn.disconnect c') x)
              | inl _ => Some (inl tt, s,
                               mk_proxy c' true (stopping x) (reconnecting x) (sp_watched x) (sp_reply x) (callbacks x))
              end
          end
      end
  end.

(** [dev/proxy/base/service_proxy.cpp:75-93 ServiceProxy::connect] with the beginning of the io
    thread (:219-227), which puts the socket into the event loop. *)
Definition connect_proxy (a : attempt) x : option (result unit * list arrival * ServiceProxy) :=
  if connected x then Some (inr AlreadyConnected, at_stream a, x)
  else match doConnect a x with
  | Some (inl _, s, x') =>
      Some (inl tt, s, mk_proxy (connection_ x') (connected x') false (reconnecting x')
                         (0 <=? fd_ (connection_ x')) (sp_reply x') (callbacks x'))
  | other => other
  end.

(** [dev/proxy/base/service_proxy.cpp:138-155 ServiceProxy::disconnect] *)
Definition disconnect_proxy x : ServiceProxy :=
  mk_proxy (ProxyConn.disconnect (connection_ x)) false true (reconnecting x) false (sp_reply x) (callbacks x).

(** [dev/proxy/base/service_proxy.cpp:163-169 ServiceProxy::sendMessage] *)
Definition sendMessage (e : send_env) (type : Z) (payload : list Z) x : result unit * ServiceProxy :=
  if negb (connected x) then (inr NotConnected, x)
  else let '(r, _, c) := send e type payload (connection_ x) in (r, with_conn c x).

(** [dev/proxy/base/service_proxy.cpp:171-188 ServiceProxy::sendRequestWaitReply, before the wait] *)
Definition request_send (e : send_env) (type : Z) (payload : list Z) x : result unit * ServiceProxy :=
  if negb (connected x) then (inr NotConnected, x)
  else let '(r, _, c) := send e type payload (connection_ x) in (r, with_conn c (with_reply None x)).

(** [dev/proxy/base/service_proxy.cpp:190-202 ServiceProxy::sendRequestWaitReply, the wait] when it
    is over. *)
Definition request_wait x : result ProxyMessage * ServiceProxy :=
  match sp_reply x with
  | Some m => (inl m, with_reply None x)
  | None => (inr TimedOut, x)
  end.

(** [dev/proxy/base/service_proxy.cpp:269-286 ServiceProxy::doDisconnect] closing the descriptor
    takes it out of the event loop; whether the attempts to connect again begin. *)
Definition doDisconnect (max_attempts : Z) (reason : ProxyError) x : bool * ServiceProxy :=
  let begin := negb (stopping x) && negb (max_attempts =? 0) && negb (reconnecting x) in
  (begin,
   mk_proxy (ProxyConn.disconnect (connection_ x)) false (stopping x) (reconnecting x || begin)
     false (sp_reply x) (callbacks x ++ if connected x then [Lost reason] else [])).

(** [dev/proxy/base/service_proxy.cpp:234-265 ServiceProxy::onSocketEvent] [hup]: the event says
    that the peer is gone or the socket broken. *)
Definition onSocketEvent (max_attempts : Z) (hup : bool) (e : recv_env) (s : list arrival) x
    : option (list arrival * ServiceProxy) :=
  if hup then Some (s, snd (doDisconnect max_attempts DaemonCrashed x))
  else match recvMessage e s (connection_ x) with
  | None => None
  | Some (inr DaemonCrashed, s', c) => Some (s', snd (doDisconnect max_attempts DaemonCrashed (with_conn c x)))
  | Some (inr RecvFailed, s', c) => Some (s', snd (doDisconnect max_attempts RecvFailed (with_conn c x)))
  | Some (inr _, s', c) => Some (s', with_conn c x)
  | Some (inl m, s', c) =>
      match sp_reply x with
      | None => Some (s', with_conn c (with_reply (Some m) x))
      | Some _ => Some (s', with_conn (snd (releaseBuffer m c)) x)
      end
  end.

(** [dev/proxy/base/service_proxy.cpp:300-311 ServiceProxy::startReconnectLoop, an attempt] *)
Definition reconnect (a : attempt) x : option (result unit * list arrival * ServiceProxy) :=
  match doConnect a x with
  | Some (inl _, s, x') =>
      Some (inl tt, s, mk_proxy (connection_ x') (connected x') (stopping x') false (sp_watched x')
                         (sp_reply x') (callbacks x' ++ [Restored]))
  | other => other
  end.

(** [dev/proxy/base/service_proxy.cpp:288-319 ServiceProxy::startReconnectLoop] the waits and how
    the loop ends, for the results of its attempts as long as the proxy is not stopped: [None]
    when the results are used up. *)
Fixpoint reconnect_loop (max reconnect_max backoff attempts : Z) (results : list bool)
    : list Z * option bool :=
  if (0 <? max) && (max <=? attempts) then ([], Some false)
  else match results with
  | [] => ([], None)
  | ok :: results' =>
      if (ok : bool) then ([backoff], Some true)
      else let '(waits, r) := reconnect_loop max reconnect_max (Z.min (backoff * 2) reconnect_max)
                                (attempts + 1) results' in (backoff :: waits, r)
  end.

(** ** Where a service is *)

(** One [recv] with [MSG_WAITALL], which a signal, the timeout or the end of the stream cuts
    short. *)
Fixpoint recv_waitall (s : list arrival) (n : nat) : list Z * list arrival :=
  match n, s with
  | O, _ | _, [] => ([], s)
  | _, Bytes [] :: _ => ([], s)
  | _, Bytes l :: s' =>
      if Nat.leb (length l) n
      then let '(got, s'') := recv_waitall s' (n - length l) in (l ++ got, s'')
      else (take n l, Bytes (drop n l) :: s')
  | _, _ :: s' => ([], s')
  end.

(** What the calls of a lookup answer: whether the daemon was reached, and both writes done. *)
Record lookup_env := mk_lookup { lk_reached : bool; lk_header_sent : bool; lk_payload_sent : bool }.

(** [dev/proxy/discovery/service_discovery.cpp:52-131 ServiceDiscovery::findService] [s]: what the daemon
    answers.  The result holds the two names and the process. *)
Definition findService (e : lookup_env) (s : list arrival) : result (string * string * Z) :=
  if negb (lk_reached e) then inr ServiceNotFound
  else if negb (lk_header_sent e) then inr SendFailed
  else if negb (lk_payload_sent e) then inr SendFailed
  else
    let '(hdr, s1) := recv_waitall s 56 in
    if negb (Nat.eqb (length hdr) 56) then inr RecvFailed
    else
      let len := msg_length (parse_header hdr) in
      if len =? 0 then inr ServiceNotFound
      else if sizeof_lookup_reply <=? len then
        let '(reply, s2) := recv_waitall s1 (Z.to_nat sizeof_lookup_reply) in
        if negb (Z.of_nat (length reply) =? sizeof_lookup_reply) then inr RecvFailed
        else if nth 0 reply 0 =? 0 then inr ServiceNotFound
        else inl (c_string (take 256 reply), c_string (take 256 (drop 256 reply)), i32 (le_val (drop 512 reply)))
      else inr ServiceNotFound.

(** [dev/proxy/discovery/service_discovery.cpp:135-158 ServiceDiscovery::waitForService] [tries]: the
    clock at each turn and what [findService] answers then. *)
Fixpoint waitForService (deadline : Z) (tries : list (Z * result (string * string * Z)))
    : result (string * string * Z) :=
  match tries with
  | [] => inr TimedOut
  | (now, r) :: tries' =>
      if now <? deadline then
        match r with
        | inr ServiceNotFound | inr ConnectionRefused => waitForService deadline tries'
        | _ => r
        end
      else inr TimedOut
  end.

(** ** The attempts to connect again *)

Lemma loop_waits max rmax results : forall b n waits r, 0 < b -> 0 < rmax ->
  reconnect_loop max rmax b n results = (waits, r) ->
  forall k w, waits !! k = Some w -> w = if decide (k = 0%nat) then b else Z.min (b * 2 ^ Z.of_nat k) rmax.
Proof.
  induction results as [| ok results IH]; intros b n waits r Hb Hm H k w Hw; simpl in H.
  { destruct (_ && _); by simplify_eq. }
  destruct (_ && _); [by simplify_eq |]. destruct ok; simplify_eq.
  { destruct k; [by simplify_eq/= | done]. }
  destruct (reconnect_loop max rmax (Z.min (b * 2) rmax) (n + 1) results) as [ws r'] eqn:E. simplify_eq.
  destruct k as [| k]; [by simplify_eq/= |]. rewrite decide_False by done. simpl in Hw.
  rewrite (IH (Z.min (b * 2) rmax) (n + 1) ws r ltac:(lia) Hm E k w Hw).
  rewrite Nat2Z.inj_succ, Z.pow_succ_r by lia. pose proof (Z.pow_pos_nonneg 2 (Z.of_nat k) ltac:(lia) ltac:(lia)).
  case_decide; [subst; change (2 ^ Z.of_nat 0) with 1; lia | nia].
Qed.

Lemma loop_ends max rmax results : forall b n, 0 < max -> n <= max ->
  let '(waits, r) := reconnect_loop max rmax b n results in
  Z.of_nat (length waits) <= max - n /\
  r = if existsb id (take (Z.to_nat (max - n)) results) then Some true
      else if max - n <=? Z.of_nat (length results) then Some false else None.
Proof.
  induction results as [| ok results IH]; intros b n Hmax Hn; simpl.
  - destruct (Z.ltb_spec 0 max); [| lia]. rewrite take_nil. simpl.
    destruct (Z.leb_spec max n); simpl; (split; [lia |]); destruct (Z.leb_spec (max - n) (Z.of_nat 0)); done || lia.
  - destruct (Z.ltb_spec 0 max); [| lia]. destruct (Z.leb_spec max n); simpl.
    + replace (Z.to_nat (max - n)) with 0%nat by lia. simpl.
      split; [lia |]. zcases; done || lia.
    + replace (Z.to_nat (max - n)) with (S (Z.to_nat (max - (n + 1)))) by lia. simpl.
      destruct ok; simpl; [split; [lia | done] |].
      specialize (IH (Z.min (b * 2) rmax) (n + 1) Hmax ltac:(lia)).
      destruct (reconnect_loop max rmax (Z.min (b * 2) rmax) (n + 1) results) as [ws r].
      destruct IH as [IH1 ->]. simpl. split; [lia |]. destruct (existsb id _); [done |].
      zcases; done || lia.
Qed.

(** The waits before the attempts double up to the maximum; with a limit the loop makes at
    most so many attempts, and ends with the first success or, after the limit, without;
    without a limit it ends with the first success only. *)
Lemma reconnect_backoff max rmax b results : 0 < b -> 0 < rmax ->
  let '(waits, r) := reconnect_loop max rmax b 0 results in
  (forall k w, waits !! k = Some w -> w = if decide (k = 0%nat) then b else Z.min (b * 2 ^ Z.of_nat k) rmax) /\
  (0 < max -> Z.of_nat (length waits) <= max /\
     r = if existsb id (take (Z.to_nat max) results) then Some true
         else if max <=? Z.of_nat (length results) then Some false else None).
Proof.
  intros Hb Hr. destruct (reconnect_loop max rmax b 0 results) as [waits r] eqn:E. split.
  - exact (loop_waits _ _ _ _ _ _ _ Hb Hr E).
  - intros Hm. pose proof (loop_ends max rmax results b 0 Hm ltac:(lia)) as H. rewrite E, Z.sub_0_r in H. exact H.
Qed.

(** ** A connection that was lost *)

(** What is done with a proxy from then on; an event is delivered only while the socket is in
    the event loop. *)
Inductive proxy_use :=
  | USend (e : send_env) (type : Z) (payload : list Z)
  | URequest (e : send_env) (type : Z) (payload : list Z)
  | UWait
  | UEvent (max_attempts : Z) (hup : bool) (e : recv_env) (s : list arrival)
  | UReconnect (a : attempt).

(** What the waits of requests answer. *)
Definition use_step (k : proxy_use) x : option (list (result ProxyMessage) * ServiceProxy) :=
  match k with
  | USend e t p => Some ([], snd (sendMessage e t p x))
  | URequest e t p => Some ([], snd (request_send e t p x))
  | UWait => let '(r, x') := request_wait x in Some ([r], x')
  | UEvent max hup e s =>
      if sp_watched x then match onSocketEvent max hup e s x with Some (_, x') => Some ([], x') | None => None end
      else Some ([], x)
  | UReconnect a => match reconnect a x with Some (_, _, x') => Some ([], x') | None => None end
  end.

Fixpoint use_run (l : list proxy_use) x : option (list (result ProxyMessage) * ServiceProxy) :=
  match l with
  | [] => Some ([], x)
  | k :: l' =>
      match use_step k x with
      | None => None
      | Some (out, x') =>
          match use_run l' x' with Some (outs, x'') => Some (out ++ outs, x'') | None => None end
      end
  end.

Definition pool_fine x : Prop :=
  match recv_pool_ (connection_ x) with Some p => exists held, pool_holds p held | None => True end.

Definition deaf x : Prop := sp_watched x = false /\ sp_reply x = None /\ pool_fine x.

Lemma pool_fine_conn c x : recv_pool_ c = recv_pool_ (connection_ x) -> pool_fine x -> pool_fine (with_conn c x).
Proof. unfold pool_fine. simpl. simpl; by intros ->. Qed.

Lemma doConnect_keeps a x : pool_fine x ->
  exists r s x', doConnect a x = Some (r, s, x') /\ pool_fine x' /\ sp_reply x' = sp_reply x /\
    (sp_watched x = false -> sp_watched x' = false).
Proof.
  intros Hp. unfold doConnect.
  set (k := match auth_ (connection_ x) with Some _ => _ | None => _ end).
  assert (Hk : forall c, k = inl c -> recv_pool_ c = recv_pool_ (connection_ x)).
  { unfold k. intros c. destruct (auth_ _); [by intros [= <-] |]. destruct (at_key a); by intros [= <-]. }
  destruct k as [c | e]; [| by do 3 eexists; split; [reflexivity |]]. specialize (Hk c eq_refl).
  destruct (at_path a) as [path | e].
  2:{ do 3 eexists. split; [reflexivity |]. split; [by apply pool_fine_conn |]. split; [done |]. simpl; by intros ->. }
  assert (Hc : exists held, keeps_pool c held (connect (at_connect a) (at_stream a) path c) /\
                match recv_pool_ c with Some p => pool_holds p held | None => True end).
  { unfold pool_fine in Hp. rewrite <- Hk in Hp. destruct (recv_pool_ c) eqn:E.
    - destruct Hp as [held Hh]. exists held. split; [apply connect_keeps; by rewrite E | done].
    - exists []. split; [apply connect_keeps; by rewrite E | done]. }
  destruct Hc as (held & (r & s' & c' & -> & Hc) & Hh).
  assert (Hf : forall c'', recv_pool_ c'' = recv_pool_ c' -> forall y, connection_ y = c'' -> pool_fine y).
  { intros c'' E y Ey. unfold pool_fine. rewrite Ey, E. destruct (recv_pool_ c); [| by rewrite Hc].
    destruct (Hc Hh) as (p' & -> & ?). by eexists. }
  destruct r as [[] | e].
  - destruct (at_taken a); do 3 eexists; (split; [reflexivity |]).
    + split; [by eapply Hf |]. done.
    + split; [| split; [done | simpl; by intros ->]]. eapply Hf; [| done]. unfold ProxyConn.disconnect. simpl. by destruct (0 <=? fd_ c').
  - do 3 eexists. split; [reflexivity |]. split; [by eapply Hf |]. split; [done | simpl; by intros ->].
Qed.

Lemma fine_send e ty pl x : pool_fine x -> pool_fine (with_conn (send e ty pl (connection_ x)).2 x).
Proof. intros H. apply pool_fine_conn; [apply send_pool | done]. Qed.

Lemma deaf_step k x : deaf x -> exists outs x', use_step k x = Some (outs, x') /\ deaf x' /\
  Forall (fun r => r = inr TimedOut) outs.
Proof.
  intros (Hw & Hr & Hp). destruct k as [e ty pl | e ty pl | | max hup e s | a]; simpl.
  - unfold sendMessage. destruct (negb (connected x)); [by do 2 eexists |].
    pose proof (fine_send e ty pl x Hp) as Hf. destruct (send e ty pl (connection_ x)) as [[r bs] c]. simpl in *.
    do 2 eexists. split; [reflexivity |]. split; [| done]. split_and!; simpl; [by rewrite Hw | done | done].
  - unfold request_send. destruct (negb (connected x)); [by do 2 eexists |].
    pose proof (fine_send e ty pl x Hp) as Hf. destruct (send e ty pl (connection_ x)) as [[r bs] c]. simpl in *.
    do 2 eexists. split; [reflexivity |]. split; [| done]. split_and!; simpl; [by rewrite Hw | done | exact Hf].
  - unfold request_wait. rewrite Hr. do 2 eexists. split; [reflexivity |]. split; [done | by repeat constructor].
  - rewrite Hw. by do 2 eexists.
  - unfold reconnect. destruct (doConnect_keeps a x Hp) as (r & s & x' & -> & Hp' & Hr' & Hw').
    specialize (Hw' Hw). destruct r as [[] |]; do 2 eexists; (split; [reflexivity |]); (split; [| done]);
      split_and!; simpl; congruence || done.
Qed.

(** Once the connection was lost, the reconnection does not bring the proxy back: a lost
    socket leaves the event loop, and an attempt that succeeds does not put the new one in.
    Whatever is sent, asked and attempted from then on, every request ends with a
    time-out, although the proxy reports that it is connected again. *)
Lemma reconnected_is_deaf max reason x l :
  sp_reply x = None -> pool_fine x ->
  exists outs x', use_run l (snd (doDisconnect max reason x)) = Some (outs, x') /\
    Forall (fun r => r = inr TimedOut) outs /\ sp_watched x' = false.
Proof.
  intros Hr Hp. assert (Hd : deaf (snd (doDisconnect max reason x))).
  { split_and!; simpl; try done. unfold pool_fine in *. simpl. unfold ProxyConn.disconnect. simpl. by destruct (0 <=? _). }
  revert Hd. generalize (snd (doDisconnect max reason x)). clear. induction l as [| k l IH]; intros y Hd.
  - exists [], y. split; [done |]. split; [constructor | apply Hd].
  - destruct (deaf_step k y Hd) as (outs & y' & E & Hd' & Ho). destruct (IH y' Hd') as (outs' & y'' & E' & Ho' & Hw).
    exists (outs ++ outs'), y''. simpl. rewrite E, E'. split; [done |]. split; [| done]. by apply Forall_app.
Qed.

(** ** The lookup *)

Lemma recv_waitall_full s : forall n, length (recv_waitall s n).1 = n ->
  (n + length (stream_bytes (recv_waitall s n).2) = length (stream_bytes s))%nat.
Proof.
  induction s as [| a s IH]; intros [| n] H; cbn [recv_waitall fst snd length] in *; try lia.
  destruct a as [[| x l] | | |]; try done.
  assert (Hs : stream_bytes (Bytes (x :: l) :: s) = (x :: l) ++ stream_bytes s) by done. rewrite Hs.
  set (xl := x :: l) in *. assert (Hx : xl <> []) by done. clearbody xl.
  destruct (Nat.leb_spec (length xl) (S n)).
  - specialize (IH (S n - length xl)%nat). destruct (recv_waitall s (S n - length xl)) as [got s'']. simpl in *.
    rewrite length_app in *. lia.
  - cbn [fst snd] in *. destruct (drop (S n) xl) as [| y d] eqn:E; apply (f_equal length) in E; rewrite length_drop in E.
    + simpl in E. lia.
    + change (stream_bytes (Bytes (y :: d) :: s)) with ((y :: d) ++ stream_bytes s). rewrite !length_app, <- E. lia.
Qed.

(** What the daemon writes for a reply of its handlers. *)
Definition reply_bytes (r : reply) : list Z :=
  match r with
  | NoReply => []
  | Reply code => le_bytes 4 code
  | ReplyLookup sp rn pid => cbuf 256 sp ++ cbuf 256 rn ++ le_bytes 4 pid
  end.

(** The daemon answers with the bare structure, the proxy expects a header before it: whatever
    the daemon replies, and in whatever portions it arrives, no service is ever found. *)
Lemma discovery_never_succeeds e s r : stream_bytes s = reply_bytes r ->
  exists err, findService e s = inr err.
Proof.
  intros Hs. assert (Hl : (length (stream_bytes s) <= 516)%nat).
  { rewrite Hs. destruct r; unfold reply_bytes; [simpl; lia | rewrite length_le_bytes; lia |].
    rewrite !length_app, !length_cbuf, length_le_bytes by lia. lia. }
  unfold findService. do 3 (destruct (negb _); [by eauto |]).
  pose proof (recv_waitall_full s 56) as Hf. destruct (recv_waitall s 56) as [hdr s1]. simpl in Hf.
  destruct (Nat.eqb_spec (length hdr) 56) as [E |]; [| by eauto]. specialize (Hf E). simpl.
  destruct (_ =? 0); [by eauto |]. destruct (_ <=? _); [| by eauto].
  pose proof (recv_waitall_full s1 (Z.to_nat sizeof_lookup_reply)) as Hf'.
  destruct (recv_waitall s1 (Z.to_nat sizeof_lookup_reply)) as [rep s2]. simpl in Hf'.
  destruct (Z.eqb_spec (Z.of_nat (length rep)) sizeof_lookup_reply) as [E' |]; [| by eauto].
  unfold sizeof_lookup_reply in *. change (Z.to_nat (256 + 256 + 4)) with 516%nat in *.
  specialize (Hf' ltac:(lia)). lia.
Qed.

(** What is waited for is the first answer that is not a service missing. *)
Lemma wait_first deadline pre now r post :
  Forall (fun t => t.1 < deadline /\ (t.2 = inr ServiceNotFound \/ t.2 = inr ConnectionRefused)) pre ->
  now < deadline -> r <> inr ServiceNotFound -> r <> inr ConnectionRefused ->
  waitForService deadline (pre ++ (now, r) :: post) = r.
Proof.
  intros Hp Hn H1 H2. induction Hp as [| [t q] pre [Ht Hq] _ IH]; simpl in *.
  - rewrite (proj2 (Z.ltb_lt _ _) Hn). destruct r as [| []]; done.
  - rewrite (proj2 (Z.ltb_lt _ _) Ht). by destruct Hq as [-> | ->].
Qed.

(** ** On concrete inputs *)

Definition demo_proxy : ServiceProxy := mk_proxy demo_conn true false false true None [].

Lemma reconnected_is_deaf_witness :
  sp_reply demo_proxy = None /\ pool_fine demo_proxy /\
  exists outs x', use_run [UReconnect (mk_attempt (inl zero_ctx) (inl "/run/x.sock"%string)
                             (mk_connect 6 true Accepted true demo_send demo_recv) demo_stream (inl tt));
                   URequest demo_send 2 [1]; UEvent (-1) false demo_recv demo_stream; UWait]
                  (snd (doDisconnect (-1) DaemonCrashed demo_proxy)) = Some (outs, x') /\
    Forall (fun r => r = inr TimedOut) outs.
Proof.
  assert (Hp : pool_fine demo_proxy) by (exists []; exact demo_pool_holds).
  split; [reflexivity |]. split; [exact Hp |].
  destruct (reconnected_is_deaf (-1) DaemonCrashed demo_proxy
    [UReconnect (mk_attempt (inl zero_ctx) (inl "/run/x.sock"%string)
                             (mk_connect 6 true Accepted true demo_send demo_recv) demo_stream (inl tt));
                   URequest demo_send 2 [1]; UEvent (-1) false demo_recv demo_stream; UWait]
    eq_refl Hp) as (outs & x' & H & Ho & _).
  exists outs, x'. split; [exact H | exact Ho].
Defined.

(** The reply of a request that timed out is taken for the reply of the next one; a message
    that came between two requests keeps its block for ever. *)
Lemma late_reply_taken :
  let first := mk_msg 2 1 4096 4 4096 in
  forall e ty pl x, connected x = true -> sp_reply x = None ->
  (request_wait (with_reply (Some first) (snd (request_send e ty pl x)))).1 = inl first /\
  sp_reply (snd (request_send e ty pl (with_reply (Some first) x))) = None.
Proof.
  intros first e ty pl x Hc Hr. split; [done |].
  unfold request_send. simpl. rewrite Hc. simpl. by destruct (send e ty pl (connection_ x)) as [[]].
Qed.
