(* ===== verification/ShmReader.v ===== *)
(** * Shared memory of the client proxies (proxy/base/proxy_shared_memory.cpp, audio and camera readers)

    The region with what it holds of the system, and the readers of the rings of audio and
    camera frames that a service would keep in it.  The other side may write to the
    header at any time: every read of it is an argument. *)

From S2P Require Import Prelude MemoryPool Registry Crypto Verify Protocol ProxyConn.

(** ** The region *)

(** What of the system is held. *)
Inductive holding := Descriptor (fd : Z) | Mapping (addr size : Z).

#[export] Instance holding_eq_dec : EqDecision holding.
Proof. solve_decision. Defined.

(** [dev/proxy/base/proxy_shared_memory.h:95-100 ProxyShmRegion] with, for the proofs, what is held and
    the names that exist in the system. *)
Record ProxyShmRegion := mk_region {
  ptr_ : option Z; size_ : Z; shm_fd_ : Z; name_ : string; owner_ : bool;
  holdings : list holding; names : list string
}.

(** [dev/proxy/base/proxy_shared_memory.cpp:18-20 ProxyShmRegion::ProxyShmRegion] *)
Definition region0 (ns : list string) : ProxyShmRegion := mk_region None 0 (-1) "" false [] ns.

Definition release (h : holding) (l : list holding) : list holding := List.filter (fun k => negb (bool_decide (k = h))) l.
Definition unlink (n : string) (ns : list string) : list string := List.filter (fun m => negb (String.eqb m n)) ns.

(** What the system answers: the descriptor, [ftruncate] or [fstat] with the size, the
    address. *)
Record shm_env := mk_shm { sh_open : Z; sh_stat : option Z; sh_map : option Z }.

(** [dev/proxy/base/proxy_shared_memory.cpp:48-84 ProxyShmRegion::create] [sh_open] is negative if the name
    exists. *)
Definition shm_create (e : shm_env) (n : string) (size_bytes : Z) (r : ProxyShmRegion) : result unit * ProxyShmRegion :=
  match ptr_ r with
  | Some _ => (inr AlreadyConnected, r)
  | None =>
      if sh_open e <? 0 then (inr ShmCreateFailed, r)
      else match sh_stat e, sh_map e with
      | Some _, Some a =>
          (inl tt, mk_region (Some a) size_bytes (sh_open e) n true
                     (Mapping a size_bytes :: Descriptor (sh_open e) :: holdings r) (n :: names r))
      | _, _ => (inr ShmCreateFailed, r)
      end
  end.

(** [dev/proxy/base/proxy_shared_memory.cpp:88-130 ProxyShmRegion::open] *)
Definition shm_open (e : shm_env) (n : string) (min_size : Z) (r : ProxyShmRegion) : result unit * ProxyShmRegion :=
  match ptr_ r with
  | Some _ => (inr AlreadyConnected, r)
  | None =>
      if sh_open e <? 0 then (inr ShmCreateFailed, r)
      else match sh_stat e with
      | None => (inr ShmCreateFailed, r)
      | Some actual =>
          if actual <? min_size then (inr ShmSizeMismatch, r)
          else match sh_map e with
          | None => (inr ShmCreateFailed, r)
          | Some a => (inl tt, mk_region (Some a) actual (sh_open e) n false
                                 (Mapping a actual :: Descriptor (sh_open e) :: holdings r) (names r))
          end
      end
  end.

(** [dev/proxy/base/proxy_shared_memory.cpp:134-149 ProxyShmRegion::close] *)
Definition shm_close (unlinked : bool) (r : ProxyShmRegion) : ProxyShmRegion :=
  let l := match ptr_ r with Some a => release (Mapping a (size_ r)) (holdings r) | None => holdings r end in
  let l := if 0 <=? shm_fd_ r then release (Descriptor (shm_fd_ r)) l else l in
  let ns := if unlinked && negb (String.eqb (name_ r) "") then unlink (name_ r) (names r) else names r in
  mk_region None 0 (-1) "" false l ns.

(** The calls on a region, the last one by its destructor. *)
Inductive shm_call :=
  | ShmCreate (e : shm_env) (n : string) (size : Z)
  | ShmOpen (e : shm_env) (n : string) (min_size : Z)
  | ShmClose (unlinked : bool).

Definition shm_step (r : ProxyShmRegion) (k : shm_call) : ProxyShmRegion :=
  match k with
  | ShmCreate e n size => snd (shm_create e n size r)
  | ShmOpen e n m => snd (shm_open e n m r)
  | ShmClose u => shm_close u r
  end.

(** [dev/proxy/base/proxy_shared_memory.cpp:22-24 ProxyShmRegion::~ProxyShmRegion] *)
Definition shm_destroy (r : ProxyShmRegion) : ProxyShmRegion := shm_close (owner_ r) r.

(** A region holds its mapping and its descriptor, and nothing else; a name it created is in
    the system while it owns it. *)
Record region_ok (r : ProxyShmRegion) : Prop := {
  ro_held : holdings r = match ptr_ r with Some a => [Mapping a (size_ r); Descriptor (shm_fd_ r)] | None => [] end;
  ro_fd : 0 <= shm_fd_ r <-> ptr_ r <> None;
  ro_owner : owner_ r = true -> ptr_ r <> None
}.

Lemma region_step r k : region_ok r -> region_ok (shm_step r k).
Proof.
  intros H. pose proof H as [Hh Hf Ho]. destruct k as [e n size | e n m | u]; simpl.
  - unfold shm_create. destruct (ptr_ r) eqn:E; [done |].
    destruct (Z.ltb_spec (sh_open e) 0); [done |].
    destruct (sh_stat e), (sh_map e); try done. constructor; simpl; [by rewrite Hh | split; [done | lia] | done].
  - unfold shm_open. destruct (ptr_ r) eqn:E; [done |]. destruct (Z.ltb_spec (sh_open e) 0); [done |].
    destruct (sh_stat e); [| done]. destruct (_ <? _); [done |].
    destruct (sh_map e); [| done]. constructor; simpl; [by rewrite Hh | split; [done | lia] | done].
  - constructor; simpl; [| split; [lia | done] | done]. rewrite Hh. destruct (ptr_ r) as [a |] eqn:E.
    + destruct (Z.leb_spec 0 (shm_fd_ r)) as [| Hlt]; [| assert (Hx := proj2 Hf ltac:(done)); lia].
      unfold release. simpl. rewrite bool_decide_eq_true_2 by done. simpl. by rewrite bool_decide_eq_true_2.
    + destruct (Z.leb_spec 0 (shm_fd_ r)) as [Hge |]; [by apply Hf in Hge | done].
Qed.

(** Whatever is called on a region, its destruction leaves no mapping and no descriptor. *)
Lemma region_releases l ns : holdings (shm_destroy (fold_left shm_step l (region0 ns))) = [].
Proof.
  assert (H : forall l r, region_ok r -> region_ok (fold_left shm_step l r)).
  { clear. induction l as [| k l IH]; intros r H; [done |]. by apply IH, region_step. }
  assert (H0 : region_ok (region0 ns)) by (constructor; simpl; [done | split; [lia | done] | done]).
  apply (H l) in H0. destruct (region_step _ (ShmClose (owner_ (fold_left shm_step l (region0 ns)))) H0) as [Hh _ _].
  exact Hh.
Qed.

(** ** The ring of audio frames *)

Definition AUDIO_SHM_MAGIC : Z := 0xA0D10B0F.
Definition AUDIO_SHM_VERSION : Z := 1.
Definition sizeof_AudioShmHeader : Z := 76.

(** [dev/proxy/audio/audio_frame.h:65-82 AudioShmHeader] *)
Record AudioShmHeader := mk_ahdr {
  a_magic : Z; a_version : Z; a_slot_count : Z; a_slot_size : Z; a_sample_rate : Z;
  a_channels : Z; a_bit_depth : Z; a_frames_per_slot : Z; a_write_index : Z; a_read_index : Z
}.

(** [dev/proxy/audio/audio_shm_reader.h:75-77 AudioShmReader] [rd_open]: the header pointer is set. *)
Record ShmReader := mk_reader { rd_shm : ProxyShmRegion; rd_open : bool; rd_ri : Z }.

(** [dev/proxy/audio/audio_shm_reader.cpp:18-49 AudioShmReader::open] [h]: the header in the region. *)
Definition audio_shm_open (e : shm_env) (shm_name : string) (h : AudioShmHeader) (r : ShmReader) : result unit * ShmReader :=
  match shm_open e shm_name sizeof_AudioShmHeader (rd_shm r) with
  | (inr err, shm) => (inr err, mk_reader shm (rd_open r) (rd_ri r))
  | (inl _, shm) =>
      let refuse := (inr ShmSizeMismatch, mk_reader (shm_close false shm) (rd_open r) (rd_ri r)) in
      if negb (a_magic h =? AUDIO_SHM_MAGIC) then refuse
      else if negb (a_version h =? AUDIO_SHM_VERSION) then refuse
      else if size_ shm <? u64 (sizeof_AudioShmHeader + u64 (a_slot_count h * a_slot_size h)) then refuse
      else (inl tt, mk_reader shm true (a_read_index h))
  end.

(** [dev/proxy/audio/audio_shm_reader.cpp:53-56 AudioShmReader::close] *)
Definition audio_shm_close (r : ShmReader) : ShmReader := mk_reader (shm_close false (rd_shm r)) false (rd_ri r).

(** [dev/proxy/audio/audio_shm_reader.cpp:63-70 AudioShmReader::pollReady] *)
Definition audio_pollReady (wi : Z) (r : ShmReader) : bool := rd_open r && negb (wi =? rd_ri r).

(** [dev/proxy/audio/audio_frame.h:35-53 AudioFrame] [af_data]: the distance from the region's start. *)
Record AudioFrame := mk_aframe {
  af_sequence : Z; af_rate : Z; af_channels : Z; af_bits : Z; af_count : Z; af_data : Z; af_bytes : Z
}.

(** [dev/proxy/audio/audio_shm_reader.cpp:74-114 AudioShmReader::readFrame] [h]: the header as it is read;
    [None]: a division by zero.  The frame goes to the callback. *)
Definition audio_readFrame (h : AudioShmHeader) (r : ShmReader)
    : option (result AudioFrame * ShmReader) :=
  if negb (rd_open r) then Some (inr NotConnected, r)
  else if a_write_index h =? rd_ri r then Some (inr TimedOut, r)
  else if a_slot_count h =? 0 then None
  else
    let slot_idx := rd_ri r mod a_slot_count h in
    let base := sizeof_AudioShmHeader + u32 (slot_idx * a_slot_size h) in
    Some (inl (mk_aframe (a_write_index h) (a_sample_rate h) (a_channels h) (a_bit_depth h)
                 (a_frames_per_slot h) base
                 (u64 (u64 (a_frames_per_slot h * a_channels h) * (a_bit_depth h / 8)))),
          mk_reader (rd_shm r) true (u32 (rd_ri r + 1))).

(** [dev/proxy/audio/audio_proxy.cpp:66-92 AudioProxy::onShmFrameReady] the frames that are read while the
    daemon does not write, for as many turns as [fuel] allows. *)
Fixpoint drain (fuel : nat) (h : AudioShmHeader) (r : ShmReader) : option (list AudioFrame * ShmReader) :=
  match fuel with
  | O => None
  | S fuel' =>
      if negb (audio_pollReady (a_write_index h) r) then Some ([], r)
      else match audio_readFrame h r with
      | None => None
      | Some (inr _, r') => Some ([], r')
      | Some (inl f, r') =>
          match drain fuel' h r' with Some (fs, r'') => Some (f :: fs, r'') | None => None end
      end
  end.

Definition u32s (z : Z) : Prop := 0 <= z < 2 ^ 32.

(** A frame that fits its slot, in a ring of less than 4 GB with the layout that was checked
    when the region was opened, lies in the region. *)
Lemma frame_in_region e nm h0 r0 r h f r' :
  audio_shm_open e nm h0 r0 = (inl tt, r) -> u32s (a_slot_count h0) -> u32s (a_slot_size h0) -> u32s (a_read_index h0) ->
  a_slot_count h = a_slot_count h0 -> a_slot_size h = a_slot_size h0 ->
  0 <= a_frames_per_slot h -> 0 <= a_channels h -> 0 <= a_bit_depth h ->
  a_slot_count h * a_slot_size h < 2 ^ 32 ->
  a_frames_per_slot h * a_channels h * (a_bit_depth h / 8) <= a_slot_size h ->
  audio_readFrame h r = Some (inl f, r') ->
  sizeof_AudioShmHeader <= af_data f /\ af_data f + af_bytes f <= size_ (rd_shm r).
Proof.
  unfold u32s. intros Ho Hc Hz Hri Ec Es Hf Hch Hb Hring Hfit Hr. unfold audio_shm_open in Ho.
  destruct (shm_open _ _ _ _) as [[[] | err] shm]; [| done].
  destruct (negb _); [done |]. destruct (negb _); [done |].
  destruct (Z.ltb_spec (size_ shm) (u64 (sizeof_AudioShmHeader + u64 (a_slot_count h0 * a_slot_size h0)))) as [| Hsz]; [done |].
  simplify_eq. rewrite <- Ec, <- Es in *.
  assert (0 <= a_slot_count h * a_slot_size h) by nia.
  rewrite (wrap_small 64 (a_slot_count h * a_slot_size h)) in Hsz by lia.
  unfold sizeof_AudioShmHeader in *. rewrite wrap_small in Hsz by lia.
  unfold audio_readFrame in Hr. simpl in Hr. destruct (_ =? _); [done |].
  destruct (Z.eqb_spec (a_slot_count h) 0); [done |]. simplify_eq. simpl.
  pose proof (Z.mod_pos_bound (a_read_index h0) (a_slot_count h) ltac:(lia)) as Hm.
  set (i := a_read_index h0 mod a_slot_count h) in *.
  assert (0 <= i * a_slot_size h) by nia.
  assert (i * a_slot_size h + a_slot_size h <= a_slot_count h * a_slot_size h) by nia.
  rewrite (wrap_small 32 (i * a_slot_size h)) by lia.
  assert (0 <= a_bit_depth h / 8) by (apply Z.div_pos; lia).
  set (m := a_frames_per_slot h * a_channels h) in *. assert (0 <= m) by (unfold m; nia).
  unfold sizeof_AudioShmHeader. split; [lia |].
  assert (Hw : u64 (u64 m * (a_bit_depth h / 8)) <= m * (a_bit_depth h / 8)).
  { unfold wrap. etransitivity; [apply Z.mod_le; [| lia] |].
    - apply Z.mul_nonneg_nonneg; [apply Z.mod_pos_bound; lia | lia].
    - apply Z.mul_le_mono_nonneg_r; [lia |]. apply Z.mod_le; lia. }
  lia.
Qed.

(** The header's frame size is not compared with the slot's: a frame may reach beyond the
    region; and no slots are accepted, and divided by. *)
Lemma frame_beyond_region :
  let h := mk_ahdr AUDIO_SHM_MAGIC AUDIO_SHM_VERSION 2 1024 48000 2 16 1024 1 0 in
  let e := mk_shm 7 (Some 2124) (Some 65536) in
  exists r r' f, audio_shm_open e "/ring" h (mk_reader (region0 ["/ring"%string]) false 0) = (inl tt, r) /\
    audio_readFrame h r = Some (inl f, r') /\ size_ (rd_shm r) < af_data f + af_bytes f.
Proof. do 3 eexists. split; [reflexivity |]. split; [reflexivity |]. vm_compute. reflexivity. Qed.

Lemma no_slots_divide :
  let h := mk_ahdr AUDIO_SHM_MAGIC AUDIO_SHM_VERSION 0 1024 48000 2 16 256 1 0 in
  let e := mk_shm 7 (Some 76) (Some 65536) in
  exists r, audio_shm_open e "/ring" h (mk_reader (region0 ["/ring"%string]) false 0) = (inl tt, r) /\
    audio_readFrame h r = None.
Proof. eexists. split; reflexivity. Qed.

(** While the daemon does not write, the reader delivers as many frames as its index is behind,
    modulo 2^32, each from the next slot, and all with the same sequence number. *)
Lemma drain_exact h : 0 < a_slot_count h -> u32s (a_write_index h) ->
  forall n r fuel, rd_open r = true -> u32s (rd_ri r) ->
  n = Z.to_nat (u32 (a_write_index h - rd_ri r)) -> (n < fuel)%nat ->
  exists fs r', drain fuel h r = Some (fs, r') /\ rd_ri r' = a_write_index h /\ length fs = n /\
    forall k f, fs !! k = Some f -> af_sequence f = a_write_index h /\
      af_data f = sizeof_AudioShmHeader + u32 (u32 (rd_ri r + Z.of_nat k) mod a_slot_count h * a_slot_size h).
Proof.
  intros Hc Hw. induction n as [| n IH]; intros r fuel Ho Hri Hn Hfuel; (destruct fuel as [| fuel]; [lia |]);
    cbn [drain]; unfold audio_pollReady; rewrite Ho; unfold u32s in *.
  - assert (E : a_write_index h = rd_ri r) by (unfold wrap in Hn; pose proof (Z.mod_pos_bound (a_write_index h - rd_ri r) (2 ^ 32) ltac:(lia)); 
      assert (Hz : (a_write_index h - rd_ri r) mod 2 ^ 32 = 0) by lia;
      apply Z.mod_divide in Hz; [destruct Hz as [q Hq]; lia | lia]).
    rewrite E, Z.eqb_refl. simpl. exists [], r. split_and!; try done.
  - assert (Hne : a_write_index h <> rd_ri r) by (intros E; rewrite E, Z.sub_diag in Hn; done).
    rewrite (proj2 (Z.eqb_neq _ _) Hne). simpl. unfold audio_readFrame. rewrite Ho, (proj2 (Z.eqb_neq _ _) Hne).
    destruct (Z.eqb_spec (a_slot_count h) 0); [lia |]. cbn [negb].
    set (r1 := mk_reader (rd_shm r) true (u32 (rd_ri r + 1))).
    destruct (IH r1 fuel) as (fs & r' & E & Hr' & Hlen & Hfs).
    + done.
    + apply wrap_range. lia.
    + simpl. unfold wrap in *. rewrite Zminus_mod_idemp_r.
      replace (a_write_index h - (rd_ri r + 1)) with (a_write_index h - rd_ri r - 1) by lia.
      rewrite <- Zminus_mod_idemp_l. rewrite Z.mod_small; [lia |].
      pose proof (Z.mod_pos_bound (a_write_index h - rd_ri r) (2 ^ 32) ltac:(lia)). lia.
    + lia.
    + rewrite E. eexists _, r'. split; [reflexivity |]. split; [done |]. split; [simpl; lia |].
      intros [| k] f Hf; simpl in Hf.
      * simplify_eq. simpl. split; [done |]. rewrite Z.add_0_r, (wrap_small 32 (rd_ri r)) by done. done.
      * destruct (Hfs _ _ Hf) as [Hs Hd]. split; [done |]. rewrite Hd. unfold r1. cbn [rd_ri].
        rewrite wrap_add. by replace (rd_ri r + Z.of_nat (S k)) with (rd_ri r + 1 + Z.of_nat k) by lia.
Qed.

(** The sequence number, announced as a counter of frames, is the daemon's index at the time of
    the reading: the frames read together share it. *)
Lemma sequence_repeats :
  let h := mk_ahdr AUDIO_SHM_MAGIC AUDIO_SHM_VERSION 4 1024 48000 2 16 256 3 0 in
  let e := mk_shm 7 (Some 4172) (Some 65536) in
  exists r r' fs, audio_shm_open e "/ring" h (mk_reader (region0 ["/ring"%string]) false 0) = (inl tt, r) /\
    drain 4 h r = Some (fs, r') /\ (af_sequence <$> fs) = [3; 3; 3] /\ (af_data <$> fs) = [76; 1100; 2124].
Proof. do 3 eexists. split; [reflexivity |]. split; [reflexivity |]. split; reflexivity. Qed.

(** ** The ring of camera frames *)

Definition CAMERA_SHM_MAGIC : Z := 0xCA10F1A0.
Definition CAMERA_SHM_VERSION : Z := 1.
Definition sizeof_CameraShmHeader : Z := 76.

(** [dev/proxy/camera/camera_frame.h:51-65 CameraShmHeader] *)
Record CameraShmHeader := mk_chdr {
  c_magic : Z; c_version : Z; c_slot_count : Z; c_slot_size : Z; c_width : Z; c_height : Z; c_fps : Z;
  c_format : Z; c_write_index : Z; c_read_index : Z
}.

(** [dev/proxy/camera/camera_shm_reader.cpp:14-41 CameraShmReader::open] *)
Definition camera_shm_open (e : shm_env) (shm_name : string) (h : CameraShmHeader) (r : ShmReader) : result unit * ShmReader :=
  match shm_open e shm_name sizeof_CameraShmHeader (rd_shm r) with
  | (inr err, shm) => (inr err, mk_reader shm (rd_open r) (rd_ri r))
  | (inl _, shm) =>
      let refuse := (inr ShmSizeMismatch, mk_reader (shm_close false shm) (rd_open r) (rd_ri r)) in
      if negb (c_magic h =? CAMERA_SHM_MAGIC) then refuse
      else if negb (c_version h =? CAMERA_SHM_VERSION) then refuse
      else if size_ shm <? u64 (sizeof_CameraShmHeader + u64 (c_slot_count h * c_slot_size h)) then refuse
      else (inl tt, mk_reader shm true (c_read_index h))
  end.

(** [dev/proxy/camera/camera_frame.h:20-47 CameraFrame] *)
Record CameraFrame := mk_cframe {
  cf_sequence : Z; cf_width : Z; cf_height : Z; cf_fps : Z; cf_format : Z; cf_data : Z; cf_bytes : Z
}.

(** [dev/proxy/camera/camera_shm_reader.cpp:57-99 CameraShmReader::readFrame] [first]: the first four
    bytes of the slot. *)
Definition camera_readFrame (h : CameraShmHeader) (first : Z) (r : ShmReader)
    : option (result CameraFrame * ShmReader) :=
  if negb (rd_open r) then Some (inr NotConnected, r)
  else if c_write_index h =? rd_ri r then Some (inr TimedOut, r)
  else if c_slot_count h =? 0 then None
  else
    let slot_idx := rd_ri r mod c_slot_count h in
    let base := sizeof_CameraShmHeader + u32 (slot_idx * c_slot_size h) in
    let pixels := u64 (c_width h * c_height h) in
    let '(data, n) :=
      if c_format h =? 0 then (base, u64 (pixels * 2))
      else if c_format h =? 2 then (base, u64 (pixels * 3))
      else (base + 4, first) in
    Some (inl (mk_cframe (c_write_index h) (c_width h) (c_height h) (c_fps h) (c_format h) data n),
          mk_reader (rd_shm r) true (u32 (rd_ri r + 1))).

(** The length of a compressed frame is taken from the slot as it is: the four bytes of a slot
    decide how far beyond the region the application reads. *)
Lemma mjpeg_length_unchecked :
  let h := mk_chdr CAMERA_SHM_MAGIC CAMERA_SHM_VERSION 1 1024 640 480 30 1 1 0 in
  let e := mk_shm 7 (Some 1100) (Some 65536) in
  exists r r' f, camera_shm_open e "/ring" h (mk_reader (region0 ["/ring"%string]) false 0) = (inl tt, r) /\
    camera_readFrame h 0xFFFFFFFF r = Some (inl f, r') /\ size_ (rd_shm r) < cf_data f + cf_bytes f.
Proof. do 3 eexists. split; [reflexivity |]. split; [reflexivity |]. vm_compute. reflexivity. Qed.
