(* ===== verification/SystemMonitor.v ===== *)
(** * The stand-alone monitor (monitoring/middleware_monitor.c)

    A thread looks at /proc and a few well-known files once a second, derives alerts and log
    entries, and publishes the result under a lock; another thread draws it.  Here is the
    first, round by round.  What the kernel answers is an argument; a log message is its
    format with its arguments, the rendering by [vsnprintf] is left out, and so is the
    drawing.  Of the structures, the fields that a round writes or reads are modelled; the
    others are zero from the [memset] at its start. *)

From S2P Require Import Prelude CText Float64 RecentLog Alerts ProcessCollectors.

Definition MAX_SERVICES : nat := 16.
Definition MAX_LOG_LINES : nat := 512.
Definition MAX_ALERTS : nat := 64.
Definition MAX_URING_INST : nat := 8.
Definition SPARKLINE_LEN : nat := 32.
#[global] Arguments MAX_SERVICES : simpl never.
#[global] Arguments MAX_LOG_LINES : simpl never.

(** ** Log entries *)

(** [dev/monitoring/middleware_monitor.c:111-111 log_level_t] *)
Inductive log_level_t := LL_DEBUG | LL_INFO | LL_WARN | LL_ERROR.

(** [dev/monitoring/middleware_monitor.c:112-117 log_cat_t] *)
Inductive log_cat_t :=
| LC_SYSTEM | LC_SERVICE | LC_HAL | LC_MEMORY | LC_IO | LC_SECURITY | LC_HEALTH | LC_NET
| LC_URING | LC_RINGBUF | LC_IPC | LC_WATCHDOG | LC_PROXY | LC_SM | LC_TRACE | LC_COLLECTOR.

(** The arguments of a format. *)
Inductive fmt_arg := AStr (s : string) | AInt (z : Z) | AFlt (d : double).
Definition message : Type := string * list fmt_arg.

(** [dev/monitoring/middleware_monitor.c:119-124 log_entry_t] *)
Record log_entry_t := mk_entry { e_ts : Z; e_level : log_level_t; e_cat : log_cat_t; e_msg : message }.
Definition zero_entry : log_entry_t := mk_entry 0 LL_DEBUG LC_SYSTEM (""%string, []).
#[export] Instance entry_inhabited : Inhabited log_entry_t := populate zero_entry.

(** [log_entries], [log_head] and [log_count] of the data. *)
Record log_ring := mk_ring { lr_entries : list log_entry_t; lr_head : nat; lr_count : nat }.

(** [dev/monitoring/middleware_monitor.c:826-840 add_logex] *)
Definition add_logex (e : log_entry_t) (r : log_ring) : log_ring :=
  let idx := ((lr_head r + lr_count r) mod MAX_LOG_LINES)%nat in
  if Nat.ltb (lr_count r) MAX_LOG_LINES then mk_ring (<[idx := e]> (lr_entries r)) (lr_head r) (S (lr_count r))
  else mk_ring (<[idx := e]> (lr_entries r)) ((lr_head r + 1) mod MAX_LOG_LINES) (lr_count r).

(** [dev/monitoring/middleware_monitor.c:2660-2665 draw_panel_logs, the entries] those that are drawn in
    [avail_rows] rows, oldest first. *)
Definition log_shown (avail_rows : nat) (r : log_ring) : list log_entry_t :=
  let start := if Nat.ltb avail_rows (lr_count r) then (lr_count r - avail_rows)%nat else 0%nat in
  (fun i => lr_entries r !!! ((lr_head r + i) mod MAX_LOG_LINES)%nat) <$> seq start (lr_count r - start).

(** [dev/monitoring/middleware_monitor.c:2669-2670 draw_panel_logs, the category] the label of an entry;
    there are labels for the first eight. *)
Definition shown_category (c : log_cat_t) : log_cat_t :=
  match c with
  | LC_SYSTEM | LC_SERVICE | LC_HAL | LC_MEMORY | LC_IO | LC_SECURITY | LC_HEALTH | LC_NET => c
  | _ => LC_SYSTEM
  end.

(** ** Processor, memory, load *)

(** [dev/monitoring/middleware_monitor.c:409-411 cpu_stat_t] user, nice, sys, idle, iowait, irq,
    softirq, steal. *)
Definition cpu_stat_t : Type := list Z.
Definition cs (s : cpu_stat_t) (i : nat) : Z := default 0 (s !! i).
Definition cs_idle (s : cpu_stat_t) := cs s 3.
Definition cs_iowait (s : cpu_stat_t) := cs s 4.
Definition i64 (z : Z) : Z := (z + 2 ^ 63) mod 2 ^ 64 - 2 ^ 63.
Definition cs_total (s : cpu_stat_t) : Z := i64 (fold_right Z.add 0 (take 8 s)).

(** The numbers that successive [%ld] of [sscanf] read, at most [n]. *)
Fixpoint scan_longs (n : nat) (s : string) : list Z :=
  match n with
  | O => []
  | S n' =>
      let s := ltrim isspace s in
      let '(neg, s) := match s with
                       | String c s' => if Ascii.eqb c "-" then (true, s')
                                        else if Ascii.eqb c "+" then (false, s') else (false, s)
                       | EmptyString => (false, s)
                       end in
      let '(v, k) := digits 10 s 0 0 in
      match k with
      | O => []
      | _ => Z.max (- 2 ^ 63) (Z.min (2 ^ 63 - 1) (if neg : bool then - v else v)) :: scan_longs n' (String.substring k (String.length s) s)
      end
  end.

(** [dev/monitoring/middleware_monitor.c:534-553 read_cpu_stat] [stat]: the text of /proc/stat; fields that
    are not in the line keep what was in [s]. *)
Definition read_cpu_stat (stat : option string) (s : cpu_stat_t) : Z * cpu_stat_t :=
  match stat with
  | None => (-1, s)
  | Some text =>
      match List.find (fun l => String.prefix "cpu " l) (fgets_lines 256 text) with
      | None => (-1, s)
      | Some l => let vs := scan_longs 8 (String.substring 3 (String.length l) l) in
                  (if Nat.leb 4 (length vs) then 0 else -1, vs ++ drop (length vs) s)
      end
  end.

Definition f100 : double := f_of_Z 100.
Definition f1 : double := f_of_Z 1.
Definition fsub (a b : double) : double := to_float (dsub a b).

(** Into the range 0 to 100, as the code does after each computation. *)
Definition clamp_pct (p : double) : double :=
  let p := if dlt p d0 then d0 else p in if dlt f100 p then f100 else p.

(** [dev/monitoring/middleware_monitor.c:556-569 cpu_delta_pct] *)
Definition cpu_delta_pct (s1 s2 : cpu_stat_t) : double :=
  let idle_d := i64 (cs_idle s2 - cs_idle s1) in
  let total_d := i64 (cs_total s2 - cs_total s1) in
  if total_d <=? 0 then d0
  else clamp_pct (fmul (fsub f1 (fdiv (f_of_Z idle_d) (f_of_Z total_d))) f100).

(** [dev/monitoring/middleware_monitor.c:572-583 cpu_iowait_pct] *)
Definition cpu_iowait_pct (s1 s2 : cpu_stat_t) : double :=
  let iowait_d := i64 (cs_iowait s2 - cs_iowait s1) in
  let total_d := i64 (cs_total s2 - cs_total s1) in
  if total_d <=? 0 then d0
  else clamp_pct (fmul (fdiv (f_of_Z iowait_d) (f_of_Z total_d)) f100).

(** [sscanf (line, "%63s %ld", key, &val)], when it reads both. *)
Fixpoint token (n : nat) (s : string) : string * string :=
  match n, s with
  | S n', String c s' => if isspace c then (EmptyString, s) else (fun p => (String c p.1, p.2)) (token n' s')
  | _, _ => (EmptyString, s)
  end.
Definition key_value (line : string) : option (string * Z) :=
  let '(key, rest) := token 63 (ltrim isspace line) in
  if String.eqb key "" then None
  else match scan_longs 1 rest with v :: _ => Some (key, v) | [] => None end.

Record meminfo := mk_mem { ram_total_kb : Z; ram_used_kb : Z; ram_free_kb : Z; swap_total_kb : Z; swap_used_kb : Z }.

Definition mem_line (a : meminfo * Z) (line : string) : meminfo * Z :=
  let '(m, avail) := a in
  match key_value line with
  | None => a
  | Some (key, val) =>
      if String.eqb key "MemTotal:" then (mk_mem val (ram_used_kb m) (ram_free_kb m) (swap_total_kb m) (swap_used_kb m), avail)
      else if String.eqb key "MemAvailable:" then (m, val)
      else if String.eqb key "MemFree:" then (mk_mem (ram_total_kb m) (ram_used_kb m) val (swap_total_kb m) (swap_used_kb m), avail)
      else if String.eqb key "SwapTotal:" then (mk_mem (ram_total_kb m) (ram_used_kb m) (ram_free_kb m) val (swap_used_kb m), avail)
      else if String.eqb key "SwapFree:" then
        (mk_mem (ram_total_kb m) (ram_used_kb m) (ram_free_kb m) (swap_total_kb m) (i64 (swap_total_kb m - val)), avail)
      else a
  end.

(** [dev/monitoring/middleware_monitor.c:589-614 read_meminfo] *)
Definition read_meminfo (text : option string) (m : meminfo) : meminfo :=
  match text with
  | None => m
  | Some t =>
      let '(m, avail) := fold_left mem_line (fgets_lines 256 t) (mk_mem 0 (ram_used_kb m) 0 0 0, 0) in
      mk_mem (ram_total_kb m) (i64 (ram_total_kb m - (if 0 <? avail then avail else ram_free_kb m)))
        (ram_free_kb m) (swap_total_kb m) (swap_used_kb m)
  end.

(** ** Processes *)

(** What /proc has of a process.  [None]: the file or directory cannot be opened. *)
Record proc_entry := mk_pe {
  pe_name : string;                          (** the name in /proc *)
  pe_comm : option string;
  pe_cmdline : option string;
  pe_stat : option (option (Z * Z));         (** times, if [fscanf] reads them *)
  pe_alive : bool;                           (** [access] finds the stat file *)
  pe_status : option string;
  pe_fds : option (list string);             (** names in fd *)
  pe_fdinfo : option (list (string * option string))
}.

Definition is_end (c : ascii) : bool := Ascii.eqb c newline || Ascii.eqb c "013"%char.

(** [dev/monitoring/middleware_monitor.c:638-652 read_proc_cmdline] *)
Definition read_proc_cmdline (p : proc_entry) (bufsz : nat) : option string :=
  match pe_cmdline p with
  | None => None
  | Some t => let t := String.substring 0 (bufsz - 1) t in
              if String.eqb t "" then None else Some (smap (fun c => if Ascii.eqb c "000" then " "%char else c) t)
  end.

(** [dev/monitoring/middleware_monitor.c:655-666 read_proc_comm] *)
Definition read_proc_comm (p : proc_entry) (bufsz : nat) : option string :=
  match pe_comm p with
  | None => None
  | Some t => match fgets_lines bufsz t with
              | [] => None
              | l :: _ => let l := rtrim is_end l in if String.eqb l "" then None else Some l
              end
  end.

(** [dev/monitoring/middleware_monitor.c:668-687 read_proc_status] resident and virtual size, threads. *)
Definition read_proc_status (p : proc_entry) : Z * Z * Z :=
  match pe_status p with
  | None => (0, 0, 0)
  | Some t => fold_left (fun '(rss, vsz, thr) line => match key_value line with
      | Some (key, val) => if String.eqb key "VmRSS:" then (val, vsz, thr)
                           else if String.eqb key "VmSize:" then (rss, val, thr)
                           else if String.eqb key "Threads:" then (rss, vsz, i32 val) else (rss, vsz, thr)
      | None => (rss, vsz, thr)
      end) (fgets_lines 256 t) (0, 0, 0)
  end.

(** [dev/monitoring/middleware_monitor.c:689-702 count_proc_fds] *)
Definition count_proc_fds (p : proc_entry) : Z :=
  match pe_fds p with
  | None => -1
  | Some l => Z.of_nat (length (List.filter (fun n => negb (String.prefix "." n)) l))
  end.

(** [dev/monitoring/middleware_monitor.c:175-208 service_data_t] *)
Record service_data_t := mk_sd {
  sd_name : string; sd_pid : Z; sd_running : bool; sd_cpu : double; sd_rss : Z; sd_vsz : Z;
  sd_fds : Z; sd_threads : Z; sd_restarts : Z; sd_health : Z; sd_seccomp : Z; sd_hmac : Z;
  prev_utime : Z; prev_stime : Z; prev_uptime_ticks : Z
}.

(** [dev/monitoring/middleware_monitor.c:705-748 proc_cpu_pct] [uptime]: the file can be read, and the
    variable after [fscanf]; [hz]: ticks per second.  The percentage, and the service with the
    new earlier times. *)
Definition proc_cpu_pct (stat : option (option (Z * Z))) (uptime : option double) (hz : Z) (svc : service_data_t)
    : double * service_data_t :=
  match stat, uptime with
  | Some (Some (utime, stime)), Some up =>
      let uptime_ticks := u64 (d_trunc (dmul up (d_of_Z hz))) in
      let proc_delta := u64 (u64 (utime + stime) - u64 (prev_utime svc + prev_stime svc)) in
      let sys_delta := u64 (uptime_ticks - prev_uptime_ticks svc) in
      let pct := if (0 <? prev_uptime_ticks svc) && (0 <? sys_delta) then usage proc_delta sys_delta else d0 in
      (clamp_pct pct,
       mk_sd (sd_name svc) (sd_pid svc) (sd_running svc) (sd_cpu svc) (sd_rss svc) (sd_vsz svc) (sd_fds svc)
         (sd_threads svc) (sd_restarts svc) (sd_health svc) (sd_seccomp svc) (sd_hmac svc) utime stime uptime_ticks)
  | _, _ => (d0, svc)
  end.

Definition set_cpu (pct : double) (s : service_data_t) : service_data_t :=
  mk_sd (sd_name s) (sd_pid s) (sd_running s) pct (sd_rss s) (sd_vsz s) (sd_fds s) (sd_threads s) (sd_restarts s)
    (sd_health s) (sd_seccomp s) (sd_hmac s) (prev_utime s) (prev_stime s) (prev_uptime_ticks s).
Definition set_health (h : Z) (s : service_data_t) : service_data_t :=
  mk_sd (sd_name s) (sd_pid s) (sd_running s) (sd_cpu s) (sd_rss s) (sd_vsz s) (sd_fds s) (sd_threads s) (sd_restarts s)
    h (sd_seccomp s) (sd_hmac s) (prev_utime s) (prev_stime s) (prev_uptime_ticks s).

(** [dev/monitoring/middleware_monitor.c:754-772 compute_health] *)
Definition compute_health (s : service_data_t) : Z :=
  if negb (sd_running s) then 0
  else
    let score := 100 in
    let score := if dlt (d_of_Z 95) (sd_cpu s) then score - 50 else if dlt (d_of_Z 80) (sd_cpu s) then score - 20 else score in
    let score := if sd_rss s =? 0 then score - 10 else score in
    let score := if 5 <? sd_restarts s then score - 50
                 else if 0 <? sd_restarts s then score - i32 (sd_restarts s * 10) else score in
    let score := if 500 <? sd_fds s then score - 20 else if 200 <? sd_fds s then score - 10 else score in
    if score <? 0 then 0 else score.

(** [dev/monitoring/middleware_monitor.c:809-821 KNOWN_SERVICES] *)
Definition KNOWN_SERVICES : list string :=
  ["servicemanager"; "bankai"; "audio_hal"; "camera_hal"; "sensor_hal"; "gpio_hal"; "audio_service";
   "camera_service"; "sensor_service"; "gpio_service"; "security_manager"; "middleware_monitord"]%string.

(** The text after the last slash. *)
Fixpoint base_name (s : string) : string :=
  match cut "/" s with
  | None => s
  | Some _ => match s with String _ s' => base_name s' | EmptyString => EmptyString end
  end.

(** [dev/monitoring/middleware_monitor.c:869-911 scan_processes, the name] *)
Definition matched_name (p : proc_entry) (comm : string) : option string :=
  match List.find (fun k => String.eqb comm k || (Nat.ltb 15 (String.length k) && strncmp_eq 15 comm k)) KNOWN_SERVICES with
  | Some k => Some k
  | None =>
      if existsb (String.eqb comm) ["bash"; "sh"; "dash"; "python"]%string then
        match read_proc_cmdline p 512 with
        | Some cmd => let base := base_name (String.substring 0 63 (before " " cmd)) in
                      List.find (String.eqb base) KNOWN_SERVICES
        | None => None
        end
      else None
  end.

(** What the rest of the system answers in a round. *)
Record sys_env := mk_env {
  v_proc : option (list proc_entry); v_own : Z; v_uptime : option double; v_hz : Z;
  v_stat : option string; v_meminfo : option string; v_load : option (double * double * double); v_cores : Z;
  v_size : string -> option (Z * bool);        (** [stat]: size, and whether it is a socket *)
  v_connect : string -> option (Z * Z);        (** no socket, or what [connect] returns and [errno] *)
  v_time : Z;
  v_junk : cpu_stat_t                          (** what [cpu_now] has on the stack *)
}.

(** [dev/monitoring/middleware_monitor.c:925-944 scan_processes, the entry] *)
Definition scanned (v : sys_env) (p : proc_entry) (pid : Z) (nm : string) : service_data_t :=
  let '(rss, vsz, thr) := read_proc_status p in
  let svc := mk_sd (strncpy_z 63 nm) pid true d0 rss vsz (count_proc_fds p) thr 0 0 0 0 0 0 0 in
  let '(pct, svc) := proc_cpu_pct (pe_stat p) (v_uptime v) (v_hz v) svc in
  let svc := set_cpu pct svc in
  set_health (compute_health svc) svc.

(** [dev/monitoring/middleware_monitor.c:848-947 scan_processes, the loop] *)
Fixpoint scan_from (v : sys_env) (l : list proc_entry) (acc : list service_data_t) : list service_data_t :=
  match l with
  | [] => acc
  | p :: l' =>
      if Nat.leb MAX_SERVICES (length acc) then acc
      else
        let pid := atoi (pe_name p) in
        if negb (numeric_first (pe_name p)) || (pid <=? 0) || (pid =? v_own v) then scan_from v l' acc
        else match read_proc_comm p 64 with
             | None => scan_from v l' acc
             | Some comm =>
                 match matched_name p comm with
                 | None => scan_from v l' acc
                 | Some nm =>
                     if existsb (fun s => sd_pid s =? pid) acc || negb (pe_alive p) then scan_from v l' acc
                     else scan_from v l' (acc ++ [scanned v p pid nm])
                 end
             end
  end.

(** [dev/monitoring/middleware_monitor.c:848-947 scan_processes] *)
Definition scan_processes (v : sys_env) (old : list service_data_t) : list service_data_t :=
  match v_proc v with None => old | Some l => scan_from v l [] end.

(** [dev/monitoring/middleware_monitor.c:950-965 merge_prev_service_state] *)
Definition merge_prev_service_state (news olds : list service_data_t) : list service_data_t :=
  (fun ns => match List.find (fun os => (sd_pid ns =? sd_pid os) && String.eqb (sd_name ns) (sd_name os)) olds with
             | Some os => mk_sd (sd_name ns) (sd_pid ns) (sd_running ns) (sd_cpu ns) (sd_rss ns) (sd_vsz ns) (sd_fds ns)
                            (sd_threads ns) (sd_restarts os) (sd_health ns) (sd_seccomp ns) (sd_hmac ns)
                            (prev_utime os) (prev_stime os) (prev_uptime_ticks os)
             | None => ns
             end) <$> news.

(** ** Subsystems *)

(** [dev/monitoring/middleware_monitor.c:214-228 uring_data_t] *)
Record uring_data_t := mk_ud { ud_name : string; ud_active : bool; sq_entries : Z; cq_entries : Z; ud_fill : double }.

(** [dev/monitoring/middleware_monitor.c:234-246 ringbuf_data_t] *)
Record ringbuf_data_t := mk_rd { rd_name : string; rd_active : bool; rd_capacity : Z; rd_fill : double; rd_drops : Z }.

(** [dev/monitoring/middleware_monitor.c:252-267 ipc_chan_data_t] *)
Record ipc_chan_data_t := mk_id { id_name : string; id_active : bool; id_type : string }.

(** [dev/monitoring/middleware_monitor.c:273-285 pool_data_t] *)
Record pool_data_t := mk_pd {
  pd_name : string; pd_active : bool; pd_block : Z; pd_total : Z; pd_used : Z; pd_free : Z; pd_usage : double; pd_fails : Z
}.

(** [dev/monitoring/middleware_monitor.c:291-302 watchdog_entry_data_t] *)
Record watchdog_entry_data_t := mk_wd {
  wd_name : string; wd_active : bool; wd_heartbeat_ms : Z; wd_interval_ms : Z; wd_alive : bool; wd_restarts : Z; wd_escalation : Z
}.

(** [dev/monitoring/middleware_monitor.c:314-338 proxy_data_t] *)
Record proxy_data_t := mk_px { px_active : bool; px_pid : Z; px_rss : Z }.

(** [dev/monitoring/middleware_monitor.c:344-384 sm_detail_data_t] *)
Record sm_detail_data_t := mk_smd {
  smd_available : bool; smd_pid : Z; smd_cpu : double; smd_rss : Z; smd_registered : Z; smd_history : list double
}.
Definition no_sm : sm_detail_data_t := mk_smd false 0 d0 0 0 [].

(** The sizes of the rings in the description of a descriptor: whether it is an io_uring, and the
    entries read so far. *)
Definition fdinfo_line (a : bool * Z * Z) (line : string) : bool * Z * Z :=
  let '(is_uring, sq, cq) := a in
  let num := String.substring 14 (String.length line) line in
  (is_uring || String.prefix "io_uring" line,
   if String.prefix "SqRingEntries:" line then default sq (u32 <$> strtoul 10 num) else sq,
   if String.prefix "CqRingEntries:" line then default cq (u32 <$> strtoul 10 num) else cq).

(** [dev/monitoring/middleware_monitor.c:1141-1173 collect_io_uring, a process] *)
Fixpoint fdinfo_urings (pid : Z) (l : list (string * option string)) (acc : list uring_data_t) : list uring_data_t :=
  match l with
  | [] => acc
  | (fd, text) :: l' =>
      if Nat.leb MAX_URING_INST (length acc) then acc
      else match text with
           | Some t =>
               if String.prefix "." fd then fdinfo_urings pid l' acc
               else
                 let '(is_uring, sq, cq) := fold_left fdinfo_line (fgets_lines 128 t) (false, 0, 0) in
                 if is_uring || (0 <? sq) then
                   fdinfo_urings pid l' (acc ++ [mk_ud (strncpy_z 31 ("pid" +:+ fmt_d pid +:+ "-fd" +:+ String.substring 0 8 fd)) true
                     (if sq =? 0 then 64 else sq) (if cq =? 0 then 128 else cq) d0])
                 else fdinfo_urings pid l' acc
           | None => fdinfo_urings pid l' acc
           end
  end.

(** [dev/monitoring/middleware_monitor.c:1124-1175 collect_io_uring] *)
Definition collect_io_uring (v : sys_env) : list uring_data_t :=
  fold_left (fun acc p =>
      if Nat.leb MAX_URING_INST (length acc) || negb (numeric_first (pe_name p)) then acc
      else match pe_fdinfo p with Some l => fdinfo_urings (atoi (pe_name p)) l acc | None => acc end)
    (default [] (v_proc v)) [].

(** [dev/monitoring/middleware_monitor.c:1178-1198 collect_ring_buffers] *)
Definition collect_ring_buffers (v : sys_env) : list ringbuf_data_t :=
  omap (fun nm => match v_size v ("/dev/shm/" +:+ nm) with
                  | Some (size, _) => Some (mk_rd nm true (u32 (if 0 <? size then Z.quot size 64 else 256)) d0 0)
                  | None => None
                  end) ["sm_ring"; "audio_ring"; "camera_ring"; "sensor_ring"; "gpio_ring"]%string.

(** [dev/monitoring/middleware_monitor.c:1201-1223 collect_ipc_channels] *)
Definition collect_ipc_channels (v : sys_env) : list ipc_chan_data_t :=
  (fun p => mk_id p.2 (match v_size v p.1 with Some (_, sock) => sock | None => false end) "unix_sock")
  <$> [("/tmp/servicemanager.sock", "SM main"); ("/tmp/audio_hal.sock", "audio HAL");
       ("/tmp/camera_hal.sock", "camera HAL"); ("/tmp/sensor_hal.sock", "sensor HAL");
       ("/tmp/gpio_hal.sock", "gpio HAL"); ("/tmp/security_manager.sock", "security mgr")]%string.

(** [dev/monitoring/middleware_monitor.c:1226-1249 collect_memory_pools] *)
Definition collect_memory_pools (v : sys_env) : list pool_data_t :=
  omap (fun nm => match v_size v ("/dev/shm/" +:+ nm) with
                  | Some (size, _) =>
                      let total := u32 (Z.quot size 64) in
                      let used := total / 2 in
                      Some (mk_pd nm true 64 total used (total - used)
                              (if 0 <? total then fdiv (fmul f100 (f_of_Z used)) (f_of_Z total) else d0) 0)
                  | None => None
                  end) ["sm_pool"; "audio_pool"; "msg_pool"]%string.

(** [dev/monitoring/middleware_monitor.c:1257-1271 collect_watchdog, a service] *)
Definition watched (v : sys_env) (s : service_data_t) : watchdog_entry_data_t :=
  mk_wd (strncpy_z 31 (sd_name s)) true (u64 (u64 (v_time v) * 1000)) 5000 (sd_running s) (u32 (sd_restarts s))
    (if sd_health s <? 50 then 2 else if sd_health s <? 70 then 1 else 0).

(** [dev/monitoring/middleware_monitor.c:1252-1272 collect_watchdog] the entries and the sum of the
    restarts. *)
Definition collect_watchdog (v : sys_env) (services : list service_data_t) : list watchdog_entry_data_t * Z :=
  let ws := watched v <$> services in (ws, fold_left (fun a w => u32 (a + wd_restarts w)) ws 0).

(** [dev/monitoring/middleware_monitor.c:1275-1303 collect_proxy] *)
Definition collect_proxy (v : sys_env) : proxy_data_t :=
  match List.find (fun p => numeric_first (pe_name p) &&
           match read_proc_comm p 32 with
           | Some comm => existsb (String.eqb comm) ["proxy"; "middleware_proxy"]%string
           | None => false
           end) (default [] (v_proc v)) with
  | Some p => let '(rss, _, _) := read_proc_status p in mk_px true (atoi (pe_name p)) rss
  | None => mk_px false 0 0
  end.

Definition log_note (v : sys_env) (lvl : log_level_t) (cat : log_cat_t) (m : message) : log_entry_t :=
  mk_entry (v_time v) lvl cat m.

(** [dev/monitoring/middleware_monitor.c:1306-1337 collect_sm_detail] the details, and what is logged. *)
Definition collect_sm_detail (v : sys_env) (ok : bool) (path : string) (services : list service_data_t)
    (sm : sm_detail_data_t) : sm_detail_data_t * list log_entry_t :=
  let prev_avail := smd_available sm in
  let found := List.find (fun s => String.eqb (sd_name s) "servicemanager" || String.eqb (sd_name s) "bankai") services in
  let n := Z.of_nat (length services) in
  (match found with
   | Some s => mk_smd ok (sd_pid s) (sd_cpu s) (sd_rss s) n [sd_cpu s]
   | None => mk_smd ok 0 d0 0 n []
   end,
   if negb prev_avail && ok then [log_note v LL_INFO LC_SM ("SM socket reconnected  %s"%string, [AStr path])]
   else if prev_avail && negb ok then [log_note v LL_WARN LC_SM ("SM socket connection lost"%string, [])]
   else []).

(** [dev/monitoring/middleware_monitor.c:153-160 coll_state_t] *)
Inductive coll_state_t := COLL_WAITING | COLL_CONNECTING | COLL_SYNCING | COLL_LIVE | COLL_STALE | COLL_OFFLINE.

(** [dev/monitoring/middleware_monitor.c:1340-1369 collect_collector_status] names, intervals and states. *)
Definition collect_collector_status (ok : bool) : list (string * Z * coll_state_t) :=
  (fun p => (p.1, p.2, if negb ok && (String.eqb p.1 "sm" || String.eqb p.1 "security") then COLL_OFFLINE else COLL_LIVE))
  <$> [("sysinfo", 1000); ("services", 1000); ("hal", 2000); ("sm", 2000); ("processes", 2000); ("security", 5000);
       ("io_uring", 1000); ("ring_buffer", 1000); ("ipc_channels", 2000); ("memory_pool", 2000); ("watchdog", 1000);
       ("proxy", 2000); ("config_watcher", 5000)]%string.

Definition EINPROGRESS : Z := 115.

(** [dev/monitoring/middleware_monitor.c:778-798 try_sm_socket] *)
Definition try_sm_socket (v : sys_env) (path : string) : bool :=
  match v_size v path with
  | Some (_, true) => match v_connect v path with
                      | Some (ret, errno) => (ret =? 0) || (errno =? EINPROGRESS)
                      | None => false
                      end
  | _ => false
  end.

Definition SM_PATHS : list string :=
  ["/tmp/servicemanager.sock"; "/run/servicemanager.sock"; "/var/run/servicemanager.sock"]%string.

(** ** Alerts *)

(** What the checks put out: a line for the alert panel, or a log entry. *)
Inductive output := OAlert (m : message) | OLog (e : log_entry_t).
Definition out_alerts (l : list output) : list message := omap (fun o => match o with OAlert m => Some m | _ => None end) l.
Definition out_logs (l : list output) : list log_entry_t := omap (fun o => match o with OLog e => Some e | _ => None end) l.

Section alerts.
Variable v : sys_env.
Let alert f args := OAlert (f, args).
Let log lvl cat f args := OLog (log_note v lvl cat (f, args)).
Local Open Scope string_scope.

(** [dev/monitoring/middleware_monitor.c:1009-1026 check_alerts, the change of a score] [prev]: names and
    scores of the round before, if there was one. *)
Definition health_change (prev : option (list (string * Z))) (s : service_data_t) : list output :=
  match List.find (fun p => String.eqb (fst p) (sd_name s)) (default [] prev) with
  | None => []
  | Some (_, ph) =>
      let delta := (ph - sd_health s)%Z in
      if (Z.abs delta <? 10)%Z then []
      else if (0 <? delta)%Z then
        log LL_WARN LC_HEALTH "Health DROP  %-16s  %d->%d" [AStr (sd_name s); AInt ph; AInt (sd_health s)] ::
        (if (sd_health s <? 50)%Z then [alert "[CRIT] %s health critical: %d/100" [AStr (sd_name s); AInt (sd_health s)]] else [])
      else [log LL_INFO LC_HEALTH "Health UP    %-16s  %d->%d" [AStr (sd_name s); AInt ph; AInt (sd_health s)]]
  end.

(** [dev/monitoring/middleware_monitor.c:978-1028 check_alerts, a service] *)
Definition service_alerts (prev : option (list (string * Z))) (s : service_data_t) : list output :=
  (if dlt (d_of_Z 90) (sd_cpu s) then
     [alert "[CRIT] %s CPU=%.1f%%  RAM=%ldMB  PID=%d" [AStr (sd_name s); AFlt (sd_cpu s); AInt (Z.quot (sd_rss s) 1024); AInt (sd_pid s)];
      log LL_ERROR LC_SERVICE "CPU CRITICAL  %-16s  %.1f%%  (PID %d)" [AStr (sd_name s); AFlt (sd_cpu s); AInt (sd_pid s)]]
   else if dlt (d_of_Z 75) (sd_cpu s) then
     [log LL_WARN LC_SERVICE "CPU HIGH      %-16s  %.1f%%" [AStr (sd_name s); AFlt (sd_cpu s)]]
   else [])
  ++ (if (0 <? sd_seccomp s)%Z then
        [log LL_ERROR LC_SECURITY "SECCOMP VIOLATION  %-16s  count=%u" [AStr (sd_name s); AInt (sd_seccomp s)];
         alert "[CRIT] %s seccomp violation (count=%u)" [AStr (sd_name s); AInt (sd_seccomp s)]]
      else [])
  ++ (if (0 <? sd_hmac s)%Z then [log LL_ERROR LC_SECURITY "HMAC FAILURE       %-16s  count=%u" [AStr (sd_name s); AInt (sd_hmac s)]] else [])
  ++ (if (500 <? sd_fds s)%Z then [log LL_WARN LC_IO "FD HIGH  %-16s  %d fds" [AStr (sd_name s); AInt (sd_fds s)]] else [])
  ++ health_change prev s.

(** [dev/monitoring/middleware_monitor.c:1031-1042 check_alerts, io_uring] *)
Definition uring_alerts (u : uring_data_t) : list output :=
  if negb (ud_active u) then []
  else if dlt (d_of_Z 95) (ud_fill u) then
    [log LL_ERROR LC_URING "CQ OVERFLOW  %-20s  %.1f%% full" [AStr (ud_name u); AFlt (ud_fill u)];
     alert "[CRIT] io_uring %s CQ %.1f%% full" [AStr (ud_name u); AFlt (ud_fill u)]]
  else if dlt (d_of_Z 80) (ud_fill u) then
    [log LL_WARN LC_URING "CQ HIGH      %-20s  %.1f%% full" [AStr (ud_name u); AFlt (ud_fill u)]]
  else [].

(** [dev/monitoring/middleware_monitor.c:1045-1056 check_alerts, ring buffers] *)
Definition ringbuf_alerts (r : ringbuf_data_t) : list output :=
  if negb (rd_active r) then []
  else if (0 <? rd_drops r)%Z then
    [log LL_ERROR LC_RINGBUF "OVERFLOW  %-20s  drops=%lu" [AStr (rd_name r); AInt (rd_drops r)];
     alert "[CRIT] ring_buf %s overflow drops=%lu" [AStr (rd_name r); AInt (rd_drops r)]]
  else if dlt (d_of_Z 80) (rd_fill r) then
    [log LL_WARN LC_RINGBUF "FILL HIGH  %-20s  %.1f%%" [AStr (rd_name r); AFlt (rd_fill r)]]
  else [].

(** [dev/monitoring/middleware_monitor.c:1059-1070 check_alerts, memory pools] *)
Definition pool_alerts (p : pool_data_t) : list output :=
  if negb (pd_active p) then []
  else if (0 <? pd_fails p)%Z then
    [log LL_ERROR LC_MEMORY "POOL EXHAUST  %-20s  fails=%lu" [AStr (pd_name p); AInt (pd_fails p)];
     alert "[CRIT] pool %s exhausted (fails=%lu)" [AStr (pd_name p); AInt (pd_fails p)]]
  else if dlt (d_of_Z 90) (pd_usage p) then
    [log LL_WARN LC_MEMORY "POOL HIGH     %-20s  %.1f%%" [AStr (pd_name p); AFlt (pd_usage p)]]
  else [].

(** [dev/monitoring/middleware_monitor.c:1073-1086 check_alerts, watchdog] *)
Definition watchdog_alerts (w : watchdog_entry_data_t) : list output :=
  if negb (wd_active w) then []
  else
    (if wd_alive w then []
     else [log LL_ERROR LC_WATCHDOG "HEARTBEAT MISSING  %-16s" [AStr (wd_name w)];
           alert "[CRIT] watchdog: %s heartbeat missing" [AStr (wd_name w)]])
    ++ (if (2 <=? wd_escalation w)%Z then
          [log LL_WARN LC_WATCHDOG "ESCALATION  %-16s  state=%u  restarts=%u" [AStr (wd_name w); AInt (wd_escalation w); AInt (wd_restarts w)]]
        else []).

(** [dev/monitoring/middleware_monitor.c:1089-1101 check_alerts, system] *)
Definition system_alerts (cpu : double) (m : meminfo) : list output :=
  (if dlt (d_of_Z 90) cpu then [log LL_ERROR LC_SYSTEM "SYSTEM CPU CRITICAL  %.1f%%" [AFlt cpu]]
   else if dlt (d_of_Z 80) cpu then [log LL_WARN LC_SYSTEM "SYSTEM CPU HIGH      %.1f%%" [AFlt cpu]]
   else [])
  ++ (if (0 <? ram_total_kb m)%Z then
        let ram_pct := fdiv (fmul f100 (f_of_Z (ram_used_kb m))) (f_of_Z (ram_total_kb m)) in
        if dlt (d_of_Z 90) ram_pct then
          [log LL_ERROR LC_MEMORY "RAM CRITICAL  %.1f%%  free=%ldMB" [AFlt ram_pct; AInt (Z.quot (ram_total_kb m - ram_used_kb m) 1024)]]
        else if dlt (d_of_Z 80) ram_pct then [log LL_WARN LC_MEMORY "RAM HIGH      %.1f%%" [AFlt ram_pct]]
        else []
      else []).

(** [dev/monitoring/middleware_monitor.c:1103-1107 check_alerts, the number of services] *)
Definition count_change (prev : option (list (string * Z))) (n : nat) : list output :=
  match prev with
  | None => []
  | Some l => if Nat.ltb n (length l) then [log LL_WARN LC_SERVICE "Service count dropped: %d -> %d" [AInt (Z.of_nat (length l)); AInt (Z.of_nat n)]]
              else if Nat.ltb (length l) n then [log LL_INFO LC_SERVICE "Service count increased: %d -> %d" [AInt (Z.of_nat (length l)); AInt (Z.of_nat n)]]
              else []
  end.
End alerts.

(** ** A round *)

(** [dev/monitoring/middleware_monitor.c:417-496 monitor_data_t] *)
Record monitor_data_t := mk_md {
  md_cpu : double; md_iowait : double; md_cpu_init : bool; md_history : list double; md_hist_idx : Z;
  md_mem : meminfo; md_load : double * double * double; md_uptime : Z; md_cores : Z;
  md_services : list service_data_t; md_sm_ok : bool; md_sm_path : string; md_sm : sm_detail_data_t;
  md_urings : list uring_data_t; md_rings : list ringbuf_data_t; md_ipc : list ipc_chan_data_t;
  md_pools : list pool_data_t; md_watchdog : list watchdog_entry_data_t * Z; md_proxy : proxy_data_t;
  md_collectors : list (string * Z * coll_state_t); md_log : log_ring; md_alerts : list message; md_update : Z
}.

(** The static variables of [check_alerts] (names and scores of the last round) and of the thread. *)
Record thread_mem := mk_tm { tm_baseline : cpu_stat_t; tm_prev : option (list (string * Z)); tm_sm_ok : option bool }.

(** [dev/monitoring/middleware_monitor.c:968-1117 check_alerts] *)
Definition check_alerts (v : sys_env) (prev : option (list (string * Z))) (d : monitor_data_t) : list output * list (string * Z) :=
  (flat_map (service_alerts v prev) (md_services d) ++ flat_map (uring_alerts v) (md_urings d)
   ++ flat_map (ringbuf_alerts v) (md_rings d) ++ flat_map (pool_alerts v) (md_pools d)
   ++ flat_map (watchdog_alerts v) (fst (md_watchdog d)) ++ system_alerts v (md_cpu d) (md_mem d)
   ++ count_change v prev (length (md_services d)),
   (fun s => (strncpy_z 63 (sd_name s), sd_health s)) <$> md_services d).

(** [dev/monitoring/middleware_monitor.c:1457-1481 data_collector_thread, the notes of a round] *)
Definition round_notes (v : sys_env) (was : option bool) (d : monitor_data_t) : list log_entry_t :=
  let note lvl cat f args := log_note v lvl cat (f, args) in
  let m := md_mem d in
  [note LL_INFO LC_SYSTEM "CPU:%.1f%%(io+%.1f%%)  RAM:%ld/%ldMB  Swap:%ld/%ldMB  Load:%.2f  Up:%ldd"%string
     [AFlt (md_cpu d); AFlt (md_iowait d); AInt (Z.quot (ram_used_kb m) 1024); AInt (Z.quot (ram_total_kb m) 1024);
      AInt (Z.quot (swap_used_kb m) 1024); AInt (Z.quot (swap_total_kb m) 1024); AFlt (fst (fst (md_load d)));
      AInt (Z.quot (md_uptime d) 86400)]]
  ++ (if bool_decide (was = Some (md_sm_ok d)) then []
      else if md_sm_ok d then [note LL_INFO LC_NET "SM socket CONNECTED  %s"%string [AStr (md_sm_path d)]]
      else [note LL_WARN LC_NET "SM socket NOT connected"%string []])
  ++ ((fun s => note LL_DEBUG LC_SERVICE "%-16s  PID:%-7d  CPU:%5.1f%%  RAM:%5ldMB  FDs:%-4d  H:%3d"%string
         [AStr (sd_name s); AInt (sd_pid s); AFlt (sd_cpu s); AInt (Z.quot (sd_rss s) 1024);
          AInt (Z.max 0 (sd_fds s)); AInt (sd_health s)]) <$> md_services d)
  ++ (match md_services d with [] => [note LL_WARN LC_SERVICE "No middleware services detected in /proc"%string []] | _ => [] end).

Definition log_all (es : list log_entry_t) (r : log_ring) : log_ring := fold_left (fun r e => add_logex e r) es r.

(** [dev/monitoring/middleware_monitor.c:1383-1451 data_collector_thread, collection] the data without
    alerts and notes, and what [collect_sm_detail] logs. *)
Definition gather (v : sys_env) (base : cpu_stat_t) (g : monitor_data_t) : cpu_stat_t * monitor_data_t * list log_entry_t :=
  let '(rc, now) := read_cpu_stat (v_stat v) (v_junk v) in
  let ok := rc =? 0 in
  let cpu := if ok then cpu_delta_pct base now else d0 in
  let services := merge_prev_service_state (scan_processes v (md_services g)) (md_services g) in
  let path := List.find (try_sm_socket v) SM_PATHS in
  let sm_ok := match path with Some _ => true | None => false end in
  let '(sm, notes) := collect_sm_detail v sm_ok (default "" path) services no_sm in
  (if ok then now else base,
   mk_md cpu (if ok then cpu_iowait_pct base now else d0) ok
     (if ok then <[Z.to_nat (Z.rem (md_hist_idx g) (Z.of_nat SPARKLINE_LEN)) := cpu]> (md_history g) else md_history g)
     (if ok then i32 (md_hist_idx g + 1) else md_hist_idx g)
     (read_meminfo (v_meminfo v) (mk_mem 0 0 0 0 0)) (default (d0, d0, d0) (v_load v))
     (match v_uptime v with Some u => i64 (d_trunc u) | None => 0 end) (v_cores v)
     services sm_ok (default "" path) sm (collect_io_uring v) (collect_ring_buffers v) (collect_ipc_channels v)
     (collect_memory_pools v) (collect_watchdog v services) (collect_proxy v) (collect_collector_status sm_ok)
     (md_log g) [] 0,
   notes).

Definition with_outcome (d : monitor_data_t) (log : log_ring) (alerts : list message) (now : Z) : monitor_data_t :=
  mk_md (md_cpu d) (md_iowait d) (md_cpu_init d) (md_history d) (md_hist_idx d) (md_mem d) (md_load d) (md_uptime d)
    (md_cores d) (md_services d) (md_sm_ok d) (md_sm_path d) (md_sm d) (md_urings d) (md_rings d) (md_ipc d) (md_pools d)
    (md_watchdog d) (md_proxy d) (md_collectors d) log alerts now.

(** What a round logs, in order. *)
Definition round_log (v : sys_env) (t : thread_mem) (g : monitor_data_t) : list log_entry_t :=
  let '(_, d, notes) := gather v (tm_baseline t) g in
  notes ++ out_logs (fst (check_alerts v (tm_prev t) d)) ++ round_notes v (tm_sm_ok t) d.

(** [dev/monitoring/middleware_monitor.c:1382-1492 data_collector_thread, a turn] *)
Definition collector_round (v : sys_env) (t : thread_mem) (g : monitor_data_t) : thread_mem * monitor_data_t :=
  let '(base, d, notes) := gather v (tm_baseline t) g in
  let '(out, prev) := check_alerts v (tm_prev t) d in
  (mk_tm base (Some prev) (Some (md_sm_ok d)),
   with_outcome d (log_all (notes ++ out_logs out ++ round_notes v (tm_sm_ok t) d) (md_log g))
     (take MAX_ALERTS (out_alerts out)) (v_time v)).

(** [dev/monitoring/middleware_monitor.c:1375-1494 data_collector_thread] over the answers of successive
    rounds. *)
Definition data_collector_thread (vs : list sys_env) (t : thread_mem) (g : monitor_data_t) : thread_mem * monitor_data_t :=
  fold_left (fun '(t, g) v => collector_round v t g) vs (t, g).

(** The data before the first round. *)
Definition empty_ring : log_ring := mk_ring (replicate MAX_LOG_LINES zero_entry) 0 0.
Definition g_data0 : monitor_data_t :=
  mk_md d0 d0 false (replicate SPARKLINE_LEN d0) 0 (mk_mem 0 0 0 0 0) (d0, d0, d0) 0 0 [] false "" no_sm [] [] [] [] ([], 0)
    (mk_px false 0 0) [] empty_ring [] 0.
Definition thread0 (base : cpu_stat_t) : thread_mem := mk_tm base None None.

(** ** What a service can look like *)

(** A service as the scan leaves it, whatever it uses of the processor and whatever happened to it. *)
Record quiet (s : service_data_t) : Prop := {
  q_cpu : sd_cpu s = d0; q_running : sd_running s = true; q_restarts : sd_restarts s = 0;
  q_seccomp : sd_seccomp s = 0; q_hmac : sd_hmac s = 0; q_health : 70 <= sd_health s <= 100
}.

Lemma fresh_cpu stat uptime hz svc : prev_uptime_ticks svc = 0 -> fst (proc_cpu_pct stat uptime hz svc) = d0.
Proof. intros H. unfold proc_cpu_pct. destruct stat as [[[u t]|]|], uptime; try done. by rewrite H. Qed.

Lemma cpu_keeps stat uptime hz svc : let s := snd (proc_cpu_pct stat uptime hz svc) in
  sd_running s = sd_running svc /\ sd_restarts s = sd_restarts svc /\ sd_seccomp s = sd_seccomp svc /\
  sd_hmac s = sd_hmac svc /\ sd_pid s = sd_pid svc /\ sd_name s = sd_name svc.
Proof. unfold proc_cpu_pct. by destruct stat as [[[u t]|]|], uptime. Qed.

Lemma idle_health s : sd_running s = true -> sd_cpu s = d0 -> sd_restarts s = 0 -> 70 <= compute_health s <= 100.
Proof.
  intros Hr Hc Hs. unfold compute_health. rewrite Hr, Hc, Hs. change (dlt (d_of_Z 95) d0) with false.
  change (dlt (d_of_Z 80) d0) with false. cbn [negb]. repeat case_match; bool_to_prop; lia.
Qed.

Lemma scanned_quiet v p pid nm : quiet (scanned v p pid nm).
Proof.
  unfold scanned. destruct (read_proc_status p) as [[rss vsz] thr].
  set (svc := mk_sd _ _ _ _ _ _ _ _ _ _ _ _ _ _ _).
  pose proof (fresh_cpu (pe_stat p) (v_uptime v) (v_hz v) svc eq_refl) as Hc.
  pose proof (cpu_keeps (pe_stat p) (v_uptime v) (v_hz v) svc) as (H1 & H2 & H3 & H4 & _).
  destruct (proc_cpu_pct _ _ _ svc) as [pct svc']. cbn [fst snd] in *. subst pct.
  constructor; try done. by apply idle_health.
Qed.

Lemma scan_from_quiet v l : forall acc, Forall quiet acc -> Forall quiet (scan_from v l acc).
Proof.
  induction l as [|p l IH]; intros acc H; [done|]. cbn [scan_from].
  repeat case_match; auto; apply IH, Forall_app; (split; [done|]); constructor; [apply scanned_quiet|done].
Qed.

Lemma merge_quiet news olds : Forall quiet news -> Forall quiet olds -> Forall quiet (merge_prev_service_state news olds).
Proof.
  intros Hn Ho. unfold merge_prev_service_state. apply Forall_fmap. eapply Forall_impl; [exact Hn|].
  intros s Hs. simpl. destruct (List.find _ olds) as [os|] eqn:E; [|done].
  apply List.find_some in E as [Hin _]. apply list_elem_of_In in Hin. rewrite Forall_forall in Ho.
  destruct Hs, (Ho _ Hin). by constructor.
Qed.

Lemma services_quiet v olds : Forall quiet olds ->
  Forall quiet (merge_prev_service_state (scan_processes v olds) olds).
Proof.
  intros H. apply merge_quiet; [|done]. unfold scan_processes. destruct (v_proc v); [by apply scan_from_quiet|done].
Qed.

(** ** No alert *)

Definition silent (l : list output) : Prop := out_alerts l = [].

Lemma silent_app l k : silent l -> silent k -> silent (l ++ k).
Proof. unfold silent, out_alerts. rewrite omap_app. by intros -> ->. Qed.

Lemma silent_flat_map {A} (f : A -> list output) l : Forall (fun x => silent (f x)) l -> silent (flat_map f l).
Proof. induction 1; [done|]. by apply silent_app. Qed.

Ltac silence := unfold silent; repeat case_match; try done.

Lemma quiet_silent v prev s : quiet s -> silent (service_alerts v prev s).
Proof.
  intros [Hc _ _ Hs Hh Hl]. unfold service_alerts. rewrite Hc, Hs, Hh.
  change (dlt (d_of_Z 90) d0) with false. change (dlt (d_of_Z 75) d0) with false.
  rewrite !Z.ltb_irrefl. cbn [app]. apply silent_app; [silence|].
  unfold health_change. silence. bool_to_prop. lia.
Qed.

Lemma urings_silent v : Forall (fun u => silent (uring_alerts v u)) (collect_io_uring v).
Proof.
  assert (Hf : forall pid l acc, Forall (fun u => ud_fill u = d0) acc -> Forall (fun u => ud_fill u = d0) (fdinfo_urings pid l acc)).
  { intros pid l. induction l as [|[fd text] l IH]; intros acc H; [done|]. cbn [fdinfo_urings].
    repeat case_match; auto; apply IH, Forall_app; (split; [done|]); by constructor. }
  eapply Forall_impl with (P := fun u => ud_fill u = d0).
  - unfold collect_io_uring. generalize (default [] (v_proc v)). intros l. assert (Forall (fun u => ud_fill u = d0) []) by constructor.
    revert H. generalize (@nil uring_data_t). induction l as [|p l IH]; intros acc H; [done|]. simpl. apply IH.
    repeat case_match; auto.
  - intros u Hu. unfold uring_alerts. rewrite Hu. by destruct (negb _).
Qed.

Lemma rings_silent v : Forall (fun r => silent (ringbuf_alerts v r)) (collect_ring_buffers v).
Proof.
  unfold collect_ring_buffers. apply Forall_forall. intros r Hr. apply list_elem_of_omap in Hr as (nm & _ & Hr).
  destruct (v_size v _) as [[size sock]|]; [|done]. simplify_eq. reflexivity.
Qed.

Lemma pools_silent v : Forall (fun p => silent (pool_alerts v p)) (collect_memory_pools v).
Proof.
  unfold collect_memory_pools. apply Forall_forall. intros r Hr. apply list_elem_of_omap in Hr as (nm & _ & Hr).
  destruct (v_size v _) as [[size sock]|]; [|done]. simplify_eq. unfold pool_alerts. cbn. silence.
Qed.

Lemma watchdog_silent v l : Forall quiet l -> Forall (fun w => silent (watchdog_alerts v w)) (watched v <$> l).
Proof.
  intros H. apply Forall_fmap. eapply Forall_impl; [exact H|]. intros s [_ Hr _ _ _ _]. simpl.
  unfold watchdog_alerts, watched. cbn. rewrite Hr. silence.
Qed.

Lemma gathered v base g base' d notes : gather v base g = (base', d, notes) ->
  md_services d = merge_prev_service_state (scan_processes v (md_services g)) (md_services g) /\
  md_urings d = collect_io_uring v /\ md_rings d = collect_ring_buffers v /\ md_pools d = collect_memory_pools v /\
  md_watchdog d = collect_watchdog v (md_services d).
Proof.
  unfold gather. destruct (read_cpu_stat _ _), (collect_sm_detail _ _ _ _ _). intros H. by simplify_eq.
Qed.

Lemma checks_silent v prev base g base' d notes : Forall quiet (md_services g) -> gather v base g = (base', d, notes) ->
  Forall quiet (md_services d) /\ silent (fst (check_alerts v prev d)).
Proof.
  intros Hq Hg. apply gathered in Hg as (Hs & Hu & Hr & Hp & Hw).
  assert (Hd : Forall quiet (md_services d)) by (rewrite Hs; by apply services_quiet). split; [done|].
  unfold check_alerts. cbn [fst]. rewrite Hu, Hr, Hp, Hw. unfold collect_watchdog. cbn [fst].
  repeat (apply silent_app; [first [apply silent_flat_map|unfold system_alerts; silence]|]).
  - eapply Forall_impl; [exact Hd|]. intros s. apply quiet_silent.
  - apply urings_silent.
  - apply rings_silent.
  - apply pools_silent.
  - by apply watchdog_silent.
  - unfold count_change. silence.
Qed.

(** ** The log *)

#[export] Instance system_log : RecentLog log_ring log_entry_t := {
  log_cap _ := MAX_LOG_LINES;
  log_ok _ _ := True;
  log_push := add_logex;
  log_recent := log_shown;
  log_holds r l := length (lr_entries r) = MAX_LOG_LINES /\ lr_count r = (length l `min` MAX_LOG_LINES)%nat /\
    ring_log (lr_entries r) ((lr_head r + lr_count r) mod MAX_LOG_LINES) l
}.

#[export] Instance system_log_laws : RecentLogLaws log_ring log_entry_t.
Proof.
  assert (H0 : MAX_LOG_LINES <> 0%nat) by done.
  split.
  - intros r l e (Hl & Hc & Hr) _. split; [|done]. pose proof (ring_log_push _ _ _ e Hr) as Hp.
    rewrite Hl in Hp. rewrite Nat.Div0.add_mod_idemp_l in Hp. cbn. unfold add_logex.
    destruct (Nat.ltb_spec (lr_count r) MAX_LOG_LINES) as [H|H]; cbn; rewrite length_insert, length_app;
      (split; [done|]); cbn [length]; (split; [lia|]).
    + by rewrite Nat.add_succ_r, <- Nat.add_1_r.
    + rewrite Nat.Div0.add_mod_idemp_l. by replace (lr_head r + 1 + lr_count r)%nat with (lr_head r + lr_count r + 1)%nat by lia.
  - intros r l n (Hl & Hc & Hr). cbn. unfold log_shown.
    set (c := MAX_LOG_LINES) in *. set (m := Nat.min (Nat.min n c) (length l)).
    replace (last_n (Nat.min n c) l) with (last_n m l) by (unfold last_n; f_equal; lia).
    rewrite <- (ring_read_last _ _ _ m Hr) by (rewrite ?Hl; lia). unfold ring_read. rewrite Hl.
    assert (Hs : (if Nat.ltb n (lr_count r) then lr_count r - n else 0)%nat = (lr_count r - m)%nat)
      by (destruct (Nat.ltb_spec n (lr_count r)); lia).
    rewrite Hs.
    replace (lr_count r - (lr_count r - m))%nat with m by lia.
    apply list_eq. intros i. rewrite !list_lookup_fmap.
    destruct (decide (i < m)%nat) as [Hi|Hi]; [|by rewrite !lookup_ge_None_2 by (rewrite length_seq; lia)].
    rewrite !lookup_seq_lt by done. cbn. do 2 f_equal.
    replace ((lr_head r + lr_count r) mod c + c - m + i)%nat with ((lr_head r + lr_count r) mod c + (c - m + i))%nat by lia.
    rewrite Nat.Div0.add_mod_idemp_l.
    replace (lr_head r + lr_count r + (c - m + i))%nat with (lr_head r + (lr_count r - m + i) + 1 * c)%nat by lia.
    by rewrite Nat.Div0.mod_add.
Qed.

Lemma empty_log : log_holds empty_ring [].
Proof.
  split_and!; [apply length_replicate|done|]. apply ring_log_nil. cbn [lr_entries empty_ring]. rewrite length_replicate.
  unfold MAX_LOG_LINES. lia.
Qed.

Lemma log_all_holds es : forall r l, log_holds r l -> log_holds (log_all es r) (l ++ es).
Proof.
  induction es as [|e es IH]; intros r l H; [by rewrite app_nil_r|]. cbn [log_all fold_left].
  replace (l ++ e :: es) with ((l ++ [e]) ++ es) by by rewrite <- app_assoc. apply IH.
  exact (proj1 (log_push_holds (T:=log_ring) r l e H I)).
Qed.

(** ** The thread *)

(** Everything that the rounds log, oldest first. *)
Fixpoint all_logged (vs : list sys_env) (t : thread_mem) (g : monitor_data_t) : list log_entry_t :=
  match vs with
  | [] => []
  | v :: vs' => round_log v t g ++ (let '(t', g') := collector_round v t g in all_logged vs' t' g')
  end.

(** What every round leaves: services that look idle, no alert, no escalation. *)
Record calm (g : monitor_data_t) : Prop := {
  cm_services : Forall quiet (md_services g);
  cm_alerts : md_alerts g = [];
  cm_watchdog : Forall (fun w => wd_alive w = true /\ wd_restarts w = 0 /\ wd_escalation w = 0) (fst (md_watchdog g))
}.

Lemma quiet_watched v s : quiet s -> wd_alive (watched v s) = true /\ wd_restarts (watched v s) = 0 /\ wd_escalation (watched v s) = 0.
Proof.
  intros [_ Hr Hz _ _ Hh]. unfold watched. cbn. rewrite Hr, Hz. split_and!; [done..|]. repeat case_match; bool_to_prop; lia.
Qed.

Lemma round_calm v t g : Forall quiet (md_services g) -> calm (snd (collector_round v t g)).
Proof.
  intros Hq. unfold collector_round. destruct (gather v (tm_baseline t) g) as [[base d] notes] eqn:Hg.
  destruct (checks_silent v (tm_prev t) _ _ _ _ _ Hq Hg) as [Hd Hs].
  pose proof (gathered _ _ _ _ _ _ Hg) as (_ & _ & _ & _ & Hw).
  destruct (check_alerts v (tm_prev t) d) as [out prev]. cbn [fst snd] in *.
  constructor; cbn [md_services md_alerts md_watchdog with_outcome]; [done|by rewrite Hs|].
  rewrite Hw. unfold collect_watchdog. cbn [fst]. apply Forall_fmap. eapply Forall_impl; [exact Hd|].
  intros s Hs'. by apply quiet_watched.
Qed.

Lemma round_logs v t g l : log_holds (md_log g) l -> log_holds (md_log (snd (collector_round v t g))) (l ++ round_log v t g).
Proof.
  intros H. unfold collector_round, round_log. destruct (gather v (tm_baseline t) g) as [[base d] notes].
  destruct (check_alerts v (tm_prev t) d) as [out prev]. cbn [fst snd md_log with_outcome]. by apply log_all_holds.
Qed.

Lemma thread_calm vs : forall t g, calm g -> calm (snd (data_collector_thread vs t g)).
Proof.
  induction vs as [|v vs IH]; intros t g H; [done|]. unfold data_collector_thread. cbn [fold_left].
  pose proof (round_calm v t g (cm_services _ H)) as Hc. destruct (collector_round v t g) as [t' g']. by apply IH.
Qed.

Lemma thread_logs vs : forall t g l, log_holds (md_log g) l ->
  log_holds (md_log (snd (data_collector_thread vs t g))) (l ++ all_logged vs t g).
Proof.
  induction vs as [|v vs IH]; intros t g l H; [by rewrite app_nil_r|]. unfold data_collector_thread.
  cbn [fold_left all_logged]. pose proof (round_logs v t g l H) as Hl.
  destruct (collector_round v t g) as [t' g']. rewrite app_assoc. by apply IH.
Qed.

(** The service manager's socket is logged as reconnected in every round that finds it, and
    its loss in none: the record is cleared before its old availability is looked at. *)
Lemma reconnected_every_round v t g : md_sm_ok (snd (collector_round v t g)) = true ->
  exists path, log_note v LL_INFO LC_SM ("SM socket reconnected  %s"%string, [AStr path]) ∈ round_log v t g.
Proof.
  unfold collector_round, round_log, gather. destruct (read_cpu_stat _ _) as [rc now].
  destruct (List.find (try_sm_socket v) SM_PATHS) as [path|]; unfold collect_sm_detail; cbn [negb andb default smd_available no_sm];
    destruct (check_alerts _ _ _) as [out prev]; cbn [snd md_sm_ok with_outcome]; [|done].
  intros _. exists path. cbn. left.
Qed.

(** Whatever runs on the machine, whatever it uses of the processor, however often it was restarted and
    whatever the kernel answers, every service that the stand-alone monitor ever shows uses 0 percent,
    was never restarted and has a score of at least 70; no escalation and no alert is ever shown.
    (The scan clears each record before it computes the usage from the earlier times in it, which are
    only put back afterwards; the other conditions test fields that are never written.) *)
Theorem monitor_never_alerts vs base :
  let g := snd (data_collector_thread vs (thread0 base) g_data0) in
  md_alerts g = [] /\
  Forall (fun s => sd_cpu s = d0 /\ sd_restarts s = 0 /\ 70 <= sd_health s <= 100) (md_services g) /\
  Forall (fun w => wd_escalation w = 0) (fst (md_watchdog g)).
Proof.
  intros g. assert (H : calm g) by (apply thread_calm; repeat constructor). destruct H as [Hs Ha Hw].
  split_and!; [done| |].
  - eapply Forall_impl; [exact Hs|]. by intros s [].
  - eapply Forall_impl; [exact Hw|]. by intros w (_ & _ & H).
Qed.

(** The panel of the log shows the last entries of all rounds, oldest first. *)
Theorem panel_shows_last vs base avail :
  log_shown avail (md_log (snd (data_collector_thread vs (thread0 base) g_data0))) =
  last_n (Nat.min avail MAX_LOG_LINES) (all_logged vs (thread0 base) g_data0).
Proof.
  pose proof (thread_logs vs (thread0 base) g_data0 [] empty_log) as Hl.
  exact (log_recent_holds (T:=log_ring) _ _ avail Hl).
Qed.

(** The computation of the usage itself works: between two looks at the same record it is what the
    process used. *)
Example usage_between_looks :
  let svc := mk_sd "audio_service" 7 true d0 0 0 0 0 0 0 0 0 0 0 0 in
  let '(_, svc) := proc_cpu_pct (Some (Some (100, 0))) (Some (d_of_Z 50)) 100 svc in
  fst (proc_cpu_pct (Some (Some (200, 0))) (Some (d_of_Z 51)) 100 svc) = f100.
Proof. vm_compute. reflexivity. Qed.

